(* ===== verification/_CoqProject ===== *)
-Q . S2P
Prelude.v
Bytes.v
CString.v
Checksum.v
Pmm.v
Vmm.v
Heap.v
HeapPages.v
Uaccess.v
Cred.v
Fd.v
Pipe.v
Sched.v
Mutex.v
Elf.v
Process.v
Net.v
Tcp.v
Dns.v
Dhcp.v
NetStack.v
NetSafe.v
Ext2Dir.v
Ext2.v
Ext2Safe.v
Ext2File.v
Ext2Bugs.v
Gpt.v
Vfs.v
VfsSafe.v
Syscall.v
SysSafe.v
SysFile.v
SysBugs.v
Malloc.v
Libc.v
Stdio.v
Accounts.v
TextTools.v
Readline.v
Shell.v
Acpi.v
Hw.v
Pci.v
Nvme.v
Ahci.v
