(* ===== verification/Prelude.v ===== *)
(** * AetherOS: a verification development of the kernel

    AetherOS is a small x86-64 operating system: a UEFI loader, a preemptive kernel for several CPUs with
    virtual memory, processes, an ext2 file system and a TCP/IP stack, and a user land. This library models
    the kernel's data structures and algorithms up to its system calls, and the C library and some programs of
    the user land, as executable definitions, and proves what makes them correct. A definition keeps the name
    of the function, struct or constant it translates.

    ** The parts and their files

    Foundations
    - [Prelude]: machine integers as [Z] with their wrap-around, arrays, the [K] monad, list lemmas.
    - [Bytes]: buffers as lists of bytes, little-endian fields, [htons]/[htonl] (kernel/net/eth.h), ring buffers.
    - [CString] (kernel/lib/string.c).

    Memory
    - [Pmm] (kernel/mem/pmm.c): the bitmap of physical pages. The state is the bitmap and the counters.
    - [Vmm] (kernel/mem/vmm.c): page tables in a physical memory of quadwords, on top of [Pmm].
    - [Heap] (kernel/mem/heap.c): the heap, proved against the class [PageBacking], the pages it asks for;
      [HeapPages] discharges the class with [Pmm] and [Vmm].
    - [Uaccess] (kernel/mem/uaccess.c): copies between kernel and user memory.

    Threads and processes
    - [Sched] (kernel/sched/thread.c, sched.c): threads, run queue, sleep list, the timer tick of each CPU.
    - [Mutex] (kernel/sync/spinlock.c, mutex.c): a transition system, one step per statement of one thread.
    - [Elf] (kernel/exec/elf.c): the loader, on [Vmm].
    - [Cred] (kernel/security/cred.c), [Fd] (kernel/proc/fd.c), [Pipe] (kernel/proc/pipe.c).
    - [Process] (kernel/proc/process.c): on [Sched], [Elf], [Fd] and [Pipe].

    Network
    - [Checksum] (kernel/net/checksum.c).
    - [Net] (kernel/net/eth.c, arp.c, ipv4.c, icmp.c, udp.c, nic.c): the state is the interface's
      configuration, the ARP table, the UDP bindings and the frames sent.
    - [Tcp] (kernel/net/tcp.c): the connection table, segments and the input automaton.
    - [Dns] (kernel/net/dns.c) and [Dhcp] (kernel/net/dhcp.c): messages and parsers.
    - [NetStack] (eth_recv, ipv4_recv, net_poll, socket.c, and the functions that poll): the whole stack, with
      the frames that will arrive as an argument. [NetSafe]: it never faults.

    File system
    - [Ext2Dir] (kernel/fs/ext2.c): directory blocks and paths.
    - [Ext2] (kernel/fs/ext2.c): the device, blocks, inodes, bitmaps, files and the operations of ext2.h.
    - [Ext2Safe]: memory safety of all of them. [Ext2File]: what reading and writing do to the contents of a
      file. [Ext2Bugs]: runs that go wrong.
    - [Gpt] (kernel/block/gpt.c): the partition table.
    - [Vfs] (kernel/fs/vfs.c): paths, permissions and open files, on [Ext2]; [VfsSafe]: no call faults.

    System calls
    - [Syscall] (kernel/syscall/syscall.c): every handler and the dispatcher, on one state that holds the
      states of [Process], [Vfs], [NetStack] and [Vmm], with the waiting of a call as an argument (see Fuel).
    - [SysSafe]: every call keeps the state well formed and returns a 64-bit number. [SysFile]: writing and
      reading files through descriptors. [SysBugs]: runs that go wrong.

    User land
    - [Malloc] (user/libc/src/stdlib.c): the allocator, on its array of bytes.
    - [Libc] (user/libc/src/string.c, atoi): strings; [Stdio] (user/libc/src/stdio.c): printf and its family.
    - [Accounts] (user/bin/login.c, sudo.c, id.c, whoami.c, passwd.c, useradd.c, userdel.c): the programs on
      /etc/passwd.
    - [TextTools] (user/bin/sort.c, head.c, tail.c, grep.c, wc.c).
    - [Readline] and [Shell] (user/shell/shell.c): the line editor; commands, pipelines and the built-ins as
      the sequence of their system calls.

    Hardware
    - [Acpi] (kernel/acpi/acpi.c): the firmware's tables, in a memory of bytes that is an argument.
    - [Hw]: the memory that a driver shares with its device, device registers (the class [Mmio]), the pages a
      driver allocates.
    - [Pci] (kernel/drivers/pci.c): the configuration space behind its two ports; the class [PciHost] says what
      a host bridge promises.
    - [Nvme] (kernel/drivers/nvme.c) and [Ahci] (kernel/drivers/ahci.c): the disk drivers, on [Pci], [Pmm] and
      [Vmm]. The device is any instance of [NvmeController] or [AhciHba], classes that state the device's
      promises as a transition system which runs while the driver polls; each file has an instance.

    ** How the code is rendered

    Integers are [Z], with the wrap of the C type ([u8] .. [u64]) written where an operation can leave its
    range. Static variables and structs are records, passed along. A function that can panic is in [K]; a
    parser's read outside its buffer is [None] ([Dns], [Dhcp], [Ext2Dir]), and [Ext2] has a monad of its own
    with failures and faults. In the user land a pointer is the list of the bytes from there to the end of its
    buffer, and running off that end is [None] or a panic. Pointers into a table are indices or addresses, and NULL is 0 or [None]. Spin
    locks are not part of the states, except in [Mutex]: the functions that take one hold it while they work on
    what it guards, so each call is one step; [Sched] and [Mutex] interleave the steps of several CPUs. Output
    to the serial port is left out.

    What the kernel gets from outside is an argument: the boot information, the arriving frames, the oracle
    [ok] that tells which requests to the disk and the allocator succeed, the LAPIC id of the CPU, what other
    threads do while a call waits, the contents of /etc/passwd, the bytes a program reads.

    ** What the theorems show

    - Memory: [pmm_*_correct] and [vmm_*_correct] give the effect of each operation on the set of free pages
      and on the translation of every address, including the failures; [kmalloc_correct] and [kfree_correct]
      say that live blocks stay disjoint, that free neighbours are merged and that nothing panics;
      [kernel_heap_init_correct] carries this to the heap on real pages; [vmm_space_destroy_correct] that an
      address space gives back exactly its pages; [copy_from_user_correct] when a copy succeeds.
    - Threads: [sched_exclusive] (no thread runs on two CPUs, as long as a thread that goes to sleep gets to its
      own tick before its time is over), [sched_tick_correct], [mutex_exclusion], [mutex_no_lost_wakeup];
      [process_mark_exited_correct], [alloc_pid_fresh], [process_ps_in_bounds].
    - System calls: [syscall_sound], the invariant of the whole kernel state and the type of the result for
      every number and arguments; [sys_write_file] and [sys_write_read], what a file holds after a write
      through a descriptor and that a read gives it back, when no request fails and within the sizes that the
      file system's blocks reach.
    - Loading: [elf_load_in_bounds] for every image, [elf_load_accepts] for what is loaded where.
    - Network: parsers finish and stay in the packet whatever arrives ([dns_recv_cb_safe], [dhcp_recv_safe],
      [socket_invariant]); messages arrive ([udp_delivery], [ping_answered], [tcp_transfer]); TCP delivers a
      prefix of the peer's stream ([tcp_stream_prefix]); the exchanges succeed when the peer answers
      ([tcp_connect_established], [dhcp_lease], [dns_answer_found]); [checksum_rfc1071].
    - Files: [dir_block_map] makes a directory block a finite map, [list_dir_block_correct] keeps the listing in
      its buffer, and [ext2_safe] excludes faults of every sequence of operations on every device contents;
      [ext2_write_correct] and [ext2_write_read] give the contents; [vfs_resolve_correct] normalises
      paths, of which the code takes the first 511 bytes; [gpt_read_correct] finds the partition.
    - User land: [malloc_correct] and [realloc_correct] keep blocks disjoint and their contents;
      [vsnprintf_correct] is the text of a format cut to the buffer; [login_correct] says who gets in and as
      whom, [passwd_login] that the new password is the one that works, [useradd_correct] that a new account
      is new; [sort_correct], [tail_correct], [grep_correct] say what is printed; [readline_correct] relates
      keys, screen and history to an abstract editor, and [execute_correct] says which system calls a line
      makes, on any system: the pipes, the programs with their arguments and descriptors, what is closed and
      awaited, and what happens when a pipe cannot be made.
    - Hardware: [parse_madt_safe] bounds the walk over any MADT, [acpi_init_correct] finds the CPUs, the I/O APIC
      and the values that power off in well-formed tables; [pci_find_class_correct] finds the first function of
      a class. [nvme_init_correct] and [ahci_init_correct] bring a device from its state after boot to one in
      which requests are served, or say why not; the record [machine] of each file has what they ask of the
      machine. [nvme_write_read] and [ahci_write_read] give back the sectors that were written, for every order
      of the device's steps.
    - Small components: [cred_no_escalation], [pipe_fifo].
    Examples named in the sections on defects show inputs on which the code does not do what it means to.

    ** Fuel

    Loops that are not structural take fuel, and running out is a panic or a fault that the theorems exclude:
    the length of the list or buffer that is walked is enough for the sleep list, the heap's lists, packets and
    directory blocks, since every round advances; the read and write loops of files move at least one byte per
    round; the carry loop of the checksum runs twice; the pid search tries 130 candidates; the user heap has at
    most 8192 blocks. A system call that waits (waitpid, a pipe, a socket) polls [patience] times, and what
    other threads do between two polls is the argument [yield]; the theorems hold for every [patience]. The
    drivers' polls have the code's own bounds (2,000,000 for NVMe, 1,000,000 and 50,000 for AHCI); [prompt] states
    that the device reacts within them, and is a condition only where it is named: of what follows an NVMe request
    that failed, of the reasons for which [nvme_init] fails, and of [ahci_write_read].

    ** Not modelled

    The boot loader, the drivers for the network card and the keyboard, the interrupt controllers, the
    descriptor tables and the assembly are sequences of accesses to hardware whose meaning is not in the
    source; the desktop and the console draw. To the file system the disk is bytes on
    which requests can fail; the network card is frames. The programs not named above are not
    modelled, nor the system call instruction of the C library. What a program prints is modelled, not how the
    terminal shows it. *)

From Stdlib Require Export ZArith Lia.
From stdpp Require Export strings list gmap.

#[global] Open Scope Z_scope.

(** [lia] sees through [/] and [mod] by constants in every file. *)
Ltac Zify.zify_post_hook ::= Z.to_euclidean_division_equations.

(** ** Machine integers *)

(** The unsigned C types are [Z] in the range of their width; every operation
    of the source that can leave the range is followed by the wrap. *)
Definition u8 (z : Z) : Z := z mod 2 ^ 8.
Definition u16 (z : Z) : Z := z mod 2 ^ 16.
Definition u32 (z : Z) : Z := z mod 2 ^ 32.
Definition u64 (z : Z) : Z := z mod 2 ^ 64.

Definition UINT32_MAX : Z := 2 ^ 32 - 1.
Definition UINT64_MAX : Z := 2 ^ 64 - 1.

(** [(int32_t)z] and [(int64_t)z], two's complement. *)
Definition s32 (z : Z) : Z := (z + 2 ^ 31) mod 2 ^ 32 - 2 ^ 31.
Definition s64 (z : Z) : Z := (z + 2 ^ 63) mod 2 ^ 64 - 2 ^ 63.

Definition is_u8 (z : Z) : Prop := 0 <= z < 2 ^ 8.
Definition is_u16 (z : Z) : Prop := 0 <= z < 2 ^ 16.
Definition is_u32 (z : Z) : Prop := 0 <= z < 2 ^ 32.
Definition is_u64 (z : Z) : Prop := 0 <= z < 2 ^ 64.

(** C's bit operators, in a scope of their own. *)
Declare Scope c_scope.
Delimit Scope c_scope with C.
Notation "x .& y" := (Z.land x y) (at level 40, left associativity) : c_scope.
Notation "x .| y" := (Z.lor x y) (at level 50, left associativity) : c_scope.
Notation "x .<< y" := (Z.shiftl x y) (at level 38, left associativity) : c_scope.
Notation "x .>> y" := (Z.shiftr x y) (at level 38, left associativity) : c_scope.

(** [~x] at 64 bits. *)
Definition not64 (z : Z) : Z := u64 (Z.lnot z).

Ltac unfold_int :=
  unfold u8, u16, u32, u64, s32, s64, is_u8, is_u16, is_u32, is_u64,
    UINT32_MAX, UINT64_MAX in *.
(** Goals about ranges and wrap-around. *)
Ltac int_lia := unfold_int; lia.

Create HintDb aether discriminated.
Create Rewrite HintDb aether.

Lemma u8_small z : is_u8 z -> u8 z = z.
Proof. intros. int_lia. Qed.
Lemma u16_small z : is_u16 z -> u16 z = z.
Proof. intros. int_lia. Qed.
Lemma u32_small z : is_u32 z -> u32 z = z.
Proof. intros. int_lia. Qed.
Lemma u64_small z : is_u64 z -> u64 z = z.
Proof. intros. int_lia. Qed.
Lemma u8_range z : is_u8 (u8 z).
Proof. int_lia. Qed.
Lemma u16_range z : is_u16 (u16 z).
Proof. int_lia. Qed.
Lemma u32_range z : is_u32 (u32 z).
Proof. int_lia. Qed.
Lemma u64_range z : is_u64 (u64 z).
Proof. int_lia. Qed.
#[export] Hint Resolve u8_range u16_range u32_range u64_range : aether.

(** ** Bit lemmas *)

Lemma testbit_high (n z i : Z) : 0 <= n -> 0 <= z < 2 ^ n -> n <= i -> Z.testbit z i = false.
Proof.
  intros Hn Hz Hi. rewrite <- (Z.mod_small z (2 ^ n)) by lia.
  apply Z.mod_pow2_bits_high. lia.
Qed.

Lemma testbit_one_shift (k i : Z) :
  0 <= k -> 0 <= i -> Z.testbit (Z.shiftl 1 k) i = bool_decide (i = k).
Proof.
  intros Hk Hi. rewrite Z.shiftl_1_l, Z.pow2_bits_eqb by lia.
  case_bool_decide; destruct (Z.eqb_spec k i); congruence || lia.
Qed.

Lemma testbit_u64 (z i : Z) : 0 <= i < 64 -> Z.testbit (u64 z) i = Z.testbit z i.
Proof. intros. unfold u64. apply Z.mod_pow2_bits_low. lia. Qed.

Lemma testbit_not64 (z i : Z) : 0 <= i < 64 -> Z.testbit (not64 z) i = negb (Z.testbit z i).
Proof. intros. unfold not64. rewrite testbit_u64, Z.lnot_spec by lia. done. Qed.

Lemma bits_range (n z : Z) :
  0 <= n -> 0 <= z -> (forall i, n <= i -> Z.testbit z i = false) -> z < 2 ^ n.
Proof.
  intros Hn Hz H. destruct (decide (z = 0)) as [->|Hnz]; [lia|].
  destruct (Z.lt_ge_cases z (2 ^ n)) as [|Hge]; [done|].
  assert (n <= Z.log2 z) as Hl.
  { apply Z.log2_le_pow2; lia. }
  specialize (H _ Hl). rewrite Z.bit_log2 in H by lia. done.
Qed.

Lemma lor_range (n a b : Z) :
  0 <= n -> 0 <= a < 2 ^ n -> 0 <= b < 2 ^ n -> 0 <= Z.lor a b < 2 ^ n.
Proof.
  intros Hn Ha Hb. split; [apply Z.lor_nonneg; lia|].
  apply bits_range; [lia|apply Z.lor_nonneg; lia|]. intros i Hi.
  by rewrite Z.lor_spec, !(testbit_high n) by lia.
Qed.

Lemma land_range_l (n a b : Z) : 0 <= n -> 0 <= a < 2 ^ n -> 0 <= Z.land a b < 2 ^ n.
Proof.
  intros Hn Ha. split; [apply Z.land_nonneg; lia|].
  apply bits_range; [lia|apply Z.land_nonneg; lia|]. intros i Hi.
  by rewrite Z.land_spec, (testbit_high n a) by lia.
Qed.

Lemma bits_eq64 (a b : Z) :
  is_u64 a -> is_u64 b -> (forall i, 0 <= i < 64 -> Z.testbit a i = Z.testbit b i) -> a = b.
Proof.
  intros Ha Hb H. apply Z.bits_inj'. intros i Hi.
  destruct (Z.lt_ge_cases i 64) as [|Hge]; [by apply H|].
  by rewrite !(testbit_high 64) by (unfold is_u64 in *; lia).
Qed.

Lemma land_ones_mod (z k : Z) : 0 <= k -> Z.land z (2 ^ k - 1) = z mod 2 ^ k.
Proof.
  intros Hk. replace (2 ^ k - 1) with (Z.ones k) by (rewrite Z.ones_equiv; lia).
  by apply Z.land_ones.
Qed.

(** A mask of [k] ones at bit [n] selects a bit field in place. *)
Lemma land_field (x n k : Z) :
  0 <= n -> 0 <= k -> Z.land x (Z.shiftl (Z.ones k) n) = x / 2 ^ n mod 2 ^ k * 2 ^ n.
Proof.
  intros Hn Hk. rewrite <- Z.land_ones, <- Z.shiftr_div_pow2, <- Z.shiftl_mul_pow2 by done.
  apply Z.bits_inj'. intros i Hi. rewrite Z.land_spec, !Z.shiftl_spec by done.
  destruct (Z.lt_ge_cases i n).
  - rewrite !(Z.testbit_neg_r _ (i - n)) by lia. apply andb_false_r.
  - rewrite Z.land_spec, Z.shiftr_spec by lia. by replace (i - n + n) with i by lia.
Qed.

(** ** Panics and state

    [panic()] does not return: an operation that can reach it yields [Panic],
    and the rest of the caller does not run. [K S A] is the type of a C
    function that returns an [A] and changes static state of type [S]. *)
Inductive outcome (A : Type) : Type :=
| Ok (a : A)
| Panic (msg : string).
Arguments Ok {A} a.
Arguments Panic {A} msg.

Definition K (S A : Type) : Type := S -> outcome (A * S).

#[export] Instance K_ret {S} : MRet (K S) := fun _ a s => Ok (a, s).
#[export] Instance K_bind {S} : MBind (K S) := fun _ _ f m s =>
  match m s with
  | Ok (a, s') => f a s'
  | Panic msg => Panic msg
  end.

Definition get_state {S} : K S S := fun s => Ok (s, s).
Definition put_state {S} (s : S) : K S unit := fun _ => Ok (tt, s).
Definition gets {S A} (f : S -> A) : K S A := fun s => Ok (f s, s).
Definition modify {S} (f : S -> S) : K S unit := fun s => Ok (tt, f s).
Definition panic {S A} (msg : string) : K S A := fun _ => Panic msg.

(** [for (i = lo; i < lo + n; ++i) body(i)], no early exit. *)
Fixpoint for_loop {S} (n : nat) (lo : Z) (body : Z -> K S unit) : K S unit :=
  match n with
  | O => mret tt
  | S n' => _ ← body lo; for_loop n' (lo + 1) body
  end.

Lemma K_bind_Ok {S A B} (m : K S A) (f : A -> K S B) s a s' :
  m s = Ok (a, s') -> (m ≫= f) s = f a s'.
Proof. intros H. unfold mbind, K_bind. by rewrite H. Qed.

Lemma K_bind_inv {S A B} (m : K S A) (f : A -> K S B) s b s'' :
  (m ≫= f) s = Ok (b, s'') -> exists a s', m s = Ok (a, s') /\ f a s' = Ok (b, s'').
Proof.
  unfold mbind, K_bind. destruct (m s) as [[a s']|msg]; [|done]. eauto.
Qed.

(** Split a hypothesis that a sequence of monadic calls returned. *)
Ltac K_inv H :=
  let a := fresh "r" in let s := fresh "st" in let E := fresh "E" in
  apply K_bind_inv in H as (a & s & E & H).

(** ** Rules for stateful code

    [triple P m Q]: from a state in [P], [m] does not panic and ends with a result and a state in [Q]. *)
Definition triple {S A} (P : S -> Prop) (m : K S A) (Q : A -> S -> Prop) : Prop :=
  forall s, P s -> exists a s', m s = Ok (a, s') /\ Q a s'.

Section triple.
Context {S A : Type}.
Implicit Types (P : S -> Prop) (Q : A -> S -> Prop).

Lemma triple_ret P a Q : (forall s, P s -> Q a s) -> triple P (mret a) Q.
Proof. intros H s Hs. exists a, s. auto. Qed.

Lemma triple_gets P (f : S -> A) Q : (forall s, P s -> Q (f s) s) -> triple P (gets f) Q.
Proof. intros H s Hs. exists (f s), s. auto. Qed.

Lemma triple_bind {B} P (m : K S B) (f : B -> K S A) R Q :
  triple P m R -> (forall b, triple (R b) (f b) Q) -> triple P (m ≫= f) Q.
Proof.
  intros Hm Hf s Hs. destruct (Hm s Hs) as (b & s1 & E & Hr). rewrite (K_bind_Ok _ _ _ _ _ E). by apply Hf.
Qed.

(** The rest of a function that has read the state. *)
Lemma triple_get P (f : S -> K S A) Q : (forall s0, P s0 -> triple (fun s => s = s0) (f s0) Q) -> triple P (get_state ≫= f) Q.
Proof. intros H s Hs. rewrite (K_bind_Ok _ _ s s s) by done. by apply (H s Hs). Qed.

Lemma triple_mono P P' (m : K S A) Q Q' :
  triple P m Q -> (forall s, P' s -> P s) -> (forall a s, Q a s -> Q' a s) -> triple P' m Q'.
Proof. intros Hm HP HQ s Hs. destruct (Hm s (HP s Hs)) as (a & s' & E & Hq). exists a, s'. auto. Qed.

Lemma triple_if P (c : bool) (m n : K S A) Q : (c = true -> triple P m Q) -> (c = false -> triple P n Q) -> triple P (if c then m else n) Q.
Proof. destruct c; auto. Qed.

Lemma triple_at P (m : K S A) Q : (forall s0, P s0 -> triple (fun s => s = s0) m Q) -> triple P m Q.
Proof. intros H s Hs. by apply (H s Hs). Qed.
End triple.

Lemma triple_modify {S} (P : S -> Prop) (f : S -> S) (Q : unit -> S -> Prop) : (forall s, P s -> Q tt (f s)) -> triple P (modify f) Q.
Proof. intros H s Hs. exists tt, (f s). auto. Qed.

(** ** Arrays

    A C array is a list; [aget]/[aset] index it with a [Z]. The source never
    relies on an out-of-range access: each use in the model is guarded as in
    the code. *)
Definition aget {A} (d : A) (l : list A) (i : Z) : A := nth (Z.to_nat i) l d.
Definition aset {A} (l : list A) (i : Z) (x : A) : list A := <[Z.to_nat i := x]> l.

Section arrays.
Context {A : Type}.
Implicit Types (l : list A) (x d : A) (i j : Z).

Lemma aget_lookup d l i : aget d l i = default d (l !! Z.to_nat i).
Proof. unfold aget. by rewrite nth_lookup. Qed.

Lemma aget_oob d l i : Z.of_nat (length l) <= i -> aget d l i = d.
Proof. intros H. rewrite aget_lookup, lookup_ge_None_2 by lia. done. Qed.

Lemma aset_length l i x : length (aset l i x) = length l.
Proof. apply length_insert. Qed.

Lemma aget_aset_eq d l i x : 0 <= i < Z.of_nat (length l) -> aget d (aset l i x) i = x.
Proof.
  intros. rewrite aget_lookup. unfold aset.
  by rewrite list_lookup_insert_eq by lia.
Qed.

Lemma aget_aset_ne d l i j x : 0 <= i -> 0 <= j -> i <> j -> aget d (aset l i x) j = aget d l j.
Proof.
  intros. rewrite !aget_lookup. unfold aset.
  by rewrite list_lookup_insert_ne by lia.
Qed.

Lemma aget_aset d l i j x :
  0 <= i < Z.of_nat (length l) -> 0 <= j ->
  aget d (aset l i x) j = if bool_decide (i = j) then x else aget d l j.
Proof.
  intros Hi Hj. case_bool_decide; subst;
    [by apply aget_aset_eq | by apply aget_aset_ne; lia].
Qed.

Lemma Forall_aset (P : A -> Prop) l i x : Forall P l -> P x -> Forall P (aset l i x).
Proof. intros. by apply Forall_insert. Qed.

Lemma Forall_aget (P : A -> Prop) d l i :
  Forall P l -> 0 <= i < Z.of_nat (length l) -> P (aget d l i).
Proof.
  intros H Hi. rewrite aget_lookup.
  destruct (lookup_lt_is_Some_2 l (Z.to_nat i)) as [y Hy]; [lia|].
  rewrite Hy. eapply Forall_lookup_1 in H; eauto.
Qed.

Lemma Forall_aget_d (P : A -> Prop) d l i : Forall P l -> P d -> P (aget d l i).
Proof.
  intros H Hd. rewrite aget_lookup. destruct (l !! Z.to_nat i) as [y|] eqn:E; [|done].
  eapply Forall_lookup_1 in H; eauto.
Qed.

Lemma aget_ext d l1 l2 :
  length l1 = length l2 ->
  (forall i, 0 <= i < Z.of_nat (length l1) -> aget d l1 i = aget d l2 i) -> l1 = l2.
Proof.
  intros Hl H. apply list_eq_same_length with (length l1); [done..|].
  intros i x y Hi Hx Hy. specialize (H (Z.of_nat i)). rewrite !aget_lookup in H.
  rewrite Nat2Z.id, Hx, Hy in H. apply H. lia.
Qed.
End arrays.
#[export] Hint Rewrite @aset_length : aether.

(** ** The first slot that satisfies a test

    [for (i = k; i < k + length l; ++i) if (p(l[i-k])) return i;] *)
Fixpoint find_slot {A} (p : A -> bool) (l : list A) (k : Z) : option Z :=
  match l with
  | [] => None
  | x :: l' => if p x then Some k else find_slot p l' (k + 1)
  end.

Section find_slot.
Context {A : Type} (p : A -> bool).

Lemma find_slot_Some_shift d (l : list A) k j :
  find_slot p l k = Some j ->
  k <= j < k + Z.of_nat (length l) /\ p (aget d l (j - k)) = true /\
  forall i, 0 <= i < j - k -> p (aget d l i) = false.
Proof.
  revert k. induction l as [|x l IH]; intros k H; simpl in *; [done|].
  destruct (p x) eqn:Ep.
  - simplify_eq. replace (j - j) with 0 by lia. unfold aget; simpl.
    split; [lia|]. split; [done|]. intros; lia.
  - apply IH in H as (Hj & Hp & Hlt). split; [lia|]. split.
    + revert Hp. unfold aget. replace (Z.to_nat (j - k)) with (S (Z.to_nat (j - (k + 1)))) by lia. done.
    + intros i Hi. destruct (decide (i = 0)) as [->|]; [done|].
      specialize (Hlt (i - 1) ltac:(lia)). revert Hlt. unfold aget.
      replace (Z.to_nat i) with (S (Z.to_nat (i - 1))) by lia. done.
Qed.

Lemma find_slot_Some d (l : list A) j :
  find_slot p l 0 = Some j ->
  0 <= j < Z.of_nat (length l) /\ p (aget d l j) = true /\
  forall i, 0 <= i < j -> p (aget d l i) = false.
Proof. intros (?&?&?)%(find_slot_Some_shift d). rewrite Z.sub_0_r in *. auto with lia. Qed.

Lemma find_slot_None_iff (l : list A) k : find_slot p l k = None <-> Forall (fun x => p x = false) l.
Proof.
  revert k. induction l as [|x l IH]; intros k; simpl; [done|].
  destruct (p x) eqn:E; [split; [done|]|rewrite IH; split; [by constructor|]].
  - intros H. inversion H. congruence.
  - intros H. by inversion H.
Qed.

(** The scan and its specification determine each other. *)
Lemma find_slot_Some_intro d (l : list A) j :
  0 <= j < Z.of_nat (length l) -> p (aget d l j) = true ->
  (forall i, 0 <= i < j -> p (aget d l i) = false) -> find_slot p l 0 = Some j.
Proof.
  intros Hj Hp Hlt. destruct (find_slot p l 0) as [j'|] eqn:E.
  - apply (find_slot_Some d) in E as (Hj' & Hp' & Hlt').
    destruct (Z.lt_total j j') as [H|[H|H]]; [|by subst|].
    + rewrite Hlt' in Hp by lia. done.
    + rewrite Hlt in Hp' by lia. done.
  - apply find_slot_None_iff in E. eapply (Forall_aget _ d) in E; [|exact Hj]. congruence.
Qed.
End find_slot.

(** ** Counting *)

(** Changing a test at one point of a duplicate-free list moves the count by one. *)
Lemma count_flip {A} (p q : A -> bool) (l : list A) (x : A) :
  NoDup l -> x ∈ l -> p x = true -> q x = false -> (forall y, y ∈ l -> y <> x -> p y = q y) ->
  length (List.filter p l) = S (length (List.filter q l)).
Proof.
  induction l as [|y l IH]; intros Hnd Hx Hp Hq Hother; [by apply elem_of_nil in Hx|].
  apply NoDup_cons in Hnd as [Hy Hnd]. apply elem_of_cons in Hx as [->|Hx]; simpl.
  - rewrite Hp, Hq. simpl. do 2 f_equal. apply List.filter_ext_in.
    intros z Hz%list_elem_of_In. apply Hother; [by right|]. by intros ->.
  - rewrite (Hother y) by (set_solver). destruct (q y); simpl;
      rewrite IH; auto; intros z Hz; apply Hother; by right.
Qed.

Lemma count_ext {A} (p q : A -> bool) (l : list A) :
  (forall y, y ∈ l -> p y = q y) -> length (List.filter p l) = length (List.filter q l).
Proof. intros H. f_equal. apply List.filter_ext_in. intros z Hz%list_elem_of_In. by apply H. Qed.

Lemma count_mono {A} (p q : A -> bool) (l : list A) :
  (forall y, y ∈ l -> p y = true -> q y = true) ->
  (length (List.filter p l) <= length (List.filter q l))%nat.
Proof.
  induction l as [|x l IH]; intros H; simpl; [lia|].
  assert (length (List.filter p l) <= length (List.filter q l))%nat by (apply IH; intros; apply H; [by right|done]).
  destruct (p x) eqn:E; [rewrite (H x (list_elem_of_here _ _) E)|destruct (q x)]; simpl; lia.
Qed.

Lemma count_pos {A} (p : A -> bool) (l : list A) x :
  x ∈ l -> p x = true -> (0 < length (List.filter p l))%nat.
Proof.
  intros Hx Hp. assert (x ∈ List.filter p l) as Hin.
  { apply list_elem_of_In, List.filter_In. split; [by apply list_elem_of_In|done]. }
  destruct (List.filter p l); [by apply elem_of_nil in Hin|simpl; lia].
Qed.

Lemma count_zero {A} (p : A -> bool) (l : list A) :
  length (List.filter p l) = 0%nat <-> forall x, x ∈ l -> p x = false.
Proof.
  split.
  - intros H x Hx. destruct (p x) eqn:E; [|done]. pose proof (count_pos p l x Hx E). lia.
  - intros H. rewrite (count_ext _ (fun _ => false)) by done.
    clear. by induction l.
Qed.

Lemma count_le {A} (p : A -> bool) (l : list A) : (length (List.filter p l) <= length l)%nat.
Proof. induction l as [|x l IH]; simpl; [lia|]. destruct (p x); simpl; lia. Qed.
