(* ===== verification/Bytes.v ===== *)
(** * Byte buffers

    The C code overlays packed structs on byte buffers (network headers, disk
    structures, descriptor tables). A buffer is a list of bytes; a field is
    read and written little-endian at its offset, as x86-64 does, and
    [htons]/[htonl] of the network code swap the bytes of the value. *)

From S2P Require Import Prelude.

(** ** Little-endian integers *)

Fixpoint le_bytes (n : nat) (z : Z) : list Z :=
  match n with
  | O => []
  | S n' => z mod 256 :: le_bytes n' (z / 256)
  end.

Fixpoint le_val (l : list Z) : Z :=
  match l with
  | [] => 0
  | b :: l' => b + 256 * le_val l'
  end.

(** ** Slices and stores *)

Definition slice (b : list Z) (off n : Z) : list Z := take (Z.to_nat n) (drop (Z.to_nat off) b).

(** Store [src] at [off]; the store lies inside the buffer at every use. *)
Definition put (b : list Z) (off : Z) (src : list Z) : list Z :=
  take (Z.to_nat off) b ++ src ++ drop (Z.to_nat off + length src) b.

Definition rd8 (b : list Z) (off : Z) : Z := aget 0 b off.
Definition rd16 (b : list Z) (off : Z) : Z := le_val (slice b off 2).
Definition rd32 (b : list Z) (off : Z) : Z := le_val (slice b off 4).
Definition rd64 (b : list Z) (off : Z) : Z := le_val (slice b off 8).
Definition wr8 (b : list Z) (off v : Z) : list Z := put b off (le_bytes 1 v).
Definition wr16 (b : list Z) (off v : Z) : list Z := put b off (le_bytes 2 v).
Definition wr32 (b : list Z) (off v : Z) : list Z := put b off (le_bytes 4 v).
Definition wr64 (b : list Z) (off v : Z) : list Z := put b off (le_bytes 8 v).

Definition zeros (n : Z) : list Z := replicate (Z.to_nat n) 0.

(** A buffer holds bytes. *)
Definition bytes (b : list Z) : Prop := Forall is_u8 b.

Definition blen (b : list Z) : Z := Z.of_nat (length b).

(** ** Lemmas on the codec *)

Lemma le_bytes_length n z : length (le_bytes n z) = n.
Proof. revert z. induction n; simpl; intros; [done|]. by rewrite IHn. Qed.

Lemma le_bytes_bytes n z : bytes (le_bytes n z).
Proof. revert z. induction n; simpl; intros; constructor; [int_lia|apply IHn]. Qed.

Lemma le_val_bytes n z : le_val (le_bytes n z) = z mod 256 ^ Z.of_nat n.
Proof.
  revert z. induction n as [|n IH]; intros z; cbn [le_bytes le_val].
  - by rewrite Z.mod_1_r.
  - rewrite IH, Nat2Z.inj_succ, Z.pow_succ_r by lia. rewrite Z.rem_mul_r by lia. lia.
Qed.

Lemma le_val_range l : bytes l -> 0 <= le_val l < 256 ^ blen l.
Proof.
  induction 1 as [|b l Hb Hl IH]; [done|]. unfold blen in *. simpl le_val.
  simpl length. rewrite Nat2Z.inj_succ, Z.pow_succ_r by lia. unfold is_u8 in Hb. nia.
Qed.

Lemma le_bytes_val l : bytes l -> le_bytes (length l) (le_val l) = l.
Proof.
  induction 1 as [|b l Hb Hl IH]; [done|]. simpl. unfold is_u8 in Hb.
  f_equal; [lia|]. by replace ((b + 256 * le_val l) / 256) with (le_val l) by lia.
Qed.

Lemma le_val_inj l1 l2 :
  length l1 = length l2 -> bytes l1 -> bytes l2 -> le_val l1 = le_val l2 -> l1 = l2.
Proof.
  intros Hl H1 H2 H. rewrite <- (le_bytes_val l1), <- (le_bytes_val l2) by done. congruence.
Qed.

(** ** Lemmas on slices and stores *)

Lemma put_length b off s :
  0 <= off -> off + blen s <= blen b -> length (put b off s) = length b.
Proof.
  intros H1 H2. unfold put, blen in *. rewrite !length_app, length_take, length_drop. lia.
Qed.

Lemma blen_put b off s : 0 <= off -> off + blen s <= blen b -> blen (put b off s) = blen b.
Proof. intros. unfold blen at 1. by rewrite put_length. Qed.

Lemma blen_le_bytes n z : blen (le_bytes n z) = Z.of_nat n.
Proof. unfold blen. by rewrite le_bytes_length. Qed.

Lemma blen_nonneg b : 0 <= blen b.
Proof. unfold blen. lia. Qed.

Lemma put_bytes b off s : bytes b -> bytes s -> bytes (put b off s).
Proof.
  intros Hb Hs. unfold put, bytes in *.
  apply Forall_app; split; [by apply Forall_take|]. apply Forall_app; split; [done|by apply Forall_drop].
Qed.

Lemma bytes_check b : forallb (fun x => (0 <=? x) && (x <? 256)) b = true -> bytes b.
Proof.
  intros H. apply Forall_forall. intros x Hx. rewrite forallb_forall in H.
  apply list_elem_of_In in Hx. specialize (H x Hx). apply andb_prop in H as [H1 H2]. int_lia.
Qed.

Lemma slice_bytes b off n : bytes b -> bytes (slice b off n).
Proof. intros. by apply Forall_take, Forall_drop. Qed.

Lemma slice_length b off n :
  0 <= off -> 0 <= n -> off + n <= blen b -> length (slice b off n) = Z.to_nat n.
Proof. intros. unfold slice, blen in *. rewrite length_take, length_drop. lia. Qed.

Lemma blen_slice b off n :
  0 <= off -> 0 <= n -> off + n <= blen b -> blen (slice b off n) = n.
Proof. intros. unfold blen at 1. rewrite slice_length by done. lia. Qed.

Lemma blen_zeros n : 0 <= n -> blen (zeros n) = n.
Proof. intros. unfold blen, zeros. rewrite length_replicate. lia. Qed.

Lemma zeros_length n : length (zeros n) = Z.to_nat n.
Proof. apply length_replicate. Qed.
Lemma zeros_bytes n : bytes (zeros n).
Proof. apply Forall_replicate. int_lia. Qed.
Lemma zeros_get n i : aget 0 (zeros n) i = 0.
Proof.
  rewrite aget_lookup. destruct (zeros n !! Z.to_nat i) eqn:E; [|done].
  by apply lookup_replicate in E as [-> _].
Qed.

Lemma aget_slice b off n i :
  0 <= off -> 0 <= i < n -> aget 0 (slice b off n) i = aget 0 b (off + i).
Proof.
  intros. rewrite !aget_lookup. unfold slice. rewrite lookup_take_lt, lookup_drop by lia.
  do 2 f_equal. lia.
Qed.

Lemma aget_put b off s i :
  0 <= off -> off + blen s <= blen b -> 0 <= i ->
  aget 0 (put b off s) i = if decide (off <= i < off + blen s) then aget 0 s (i - off) else aget 0 b i.
Proof.
  intros Ho Hs Hi. unfold put, blen in *. rewrite !aget_lookup.
  destruct (decide (Z.to_nat i < Z.to_nat off)%nat).
  - rewrite lookup_app_l by (rewrite length_take; lia).
    rewrite lookup_take_lt by lia. by rewrite decide_False by lia.
  - rewrite lookup_app_r by (rewrite length_take; lia). rewrite length_take.
    replace (Z.to_nat i - Z.to_nat off `min` length b)%nat with (Z.to_nat (i - off)) by lia.
    case_decide.
    + by rewrite lookup_app_l by lia.
    + rewrite lookup_app_r, lookup_drop by lia. do 2 f_equal. lia.
Qed.

(** Two slices of the same length are equal when their bytes are. *)
Lemma bytes_ext b1 b2 :
  blen b1 = blen b2 -> (forall i, 0 <= i < blen b1 -> aget 0 b1 i = aget 0 b2 i) -> b1 = b2.
Proof. unfold blen. intros. apply (aget_ext 0); [lia|done]. Qed.

Lemma slice_ext b1 b2 o1 o2 n :
  0 <= o1 -> 0 <= o2 -> 0 <= n -> o1 + n <= blen b1 -> o2 + n <= blen b2 ->
  (forall i, 0 <= i < n -> aget 0 b1 (o1 + i) = aget 0 b2 (o2 + i)) ->
  slice b1 o1 n = slice b2 o2 n.
Proof.
  intros ????? H. apply bytes_ext; rewrite !blen_slice by lia; [done|].
  intros i Hi. rewrite !aget_slice by lia. by apply H.
Qed.

Lemma slice_all b n : n = blen b -> slice b 0 n = b.
Proof. intros ->. unfold slice, blen. rewrite drop_0, Nat2Z.id. by apply take_ge. Qed.

Lemma slice_put_eq b off s n :
  0 <= off -> off + blen s <= blen b -> n = blen s -> slice (put b off s) off n = s.
Proof.
  intros Ho Hs ->. pose proof (blen_nonneg s).
  rewrite <- (slice_all s (blen s)) at 3 by done.
  apply slice_ext; rewrite ?blen_put by done; try lia.
  intros i Hi. rewrite aget_put, decide_True by lia. f_equal. lia.
Qed.

Lemma slice_put_ne b off s o n :
  0 <= off -> off + blen s <= blen b -> 0 <= o -> 0 <= n -> o + n <= blen b ->
  o + n <= off \/ off + blen s <= o ->
  slice (put b off s) o n = slice b o n.
Proof.
  intros. apply slice_ext; rewrite ?blen_put by done; try lia.
  intros i Hi. by rewrite aget_put, decide_False by lia.
Qed.

(** Slices of concatenations, and a slice in two parts. *)
Lemma slice_app_skip (a b : list Z) off k : blen a <= off -> slice (a ++ b) off k = slice b (off - blen a) k.
Proof.
  unfold slice, blen. intros H. f_equal. rewrite drop_app, drop_ge by lia. simpl.
  f_equal. lia.
Qed.

Lemma slice_app_head (a b : list Z) k : k = blen a -> slice (a ++ b) 0 k = a.
Proof. unfold slice, blen. intros ->. rewrite Nat2Z.id, drop_0. apply take_app_length. Qed.

Lemma slice_split b o n m : 0 <= o -> 0 <= n -> 0 <= m -> slice b o (n + m) = slice b o n ++ slice b (o + n) m.
Proof.
  intros. unfold slice. rewrite !Z2Nat.inj_add, <- drop_drop by lia.
  generalize (drop (Z.to_nat o) b). intros l. rewrite <- (take_drop (Z.to_nat n) l) at 1.
  rewrite take_app. rewrite take_take, length_take.
  replace ((Z.to_nat n + Z.to_nat m) `min` Z.to_nat n)%nat with (Z.to_nat n) by lia.
  apply (f_equal (app _)).
  destruct (decide (Z.to_nat n <= length l)%nat).
  - f_equal. lia.
  - rewrite (drop_ge l) by lia. by rewrite !take_nil.
Qed.

Lemma slice_app_l (a b : list Z) off n : 0 <= off -> off + n <= blen a -> slice (a ++ b) off n = slice a off n.
Proof.
  unfold slice, blen. intros Ho Hn. destruct (decide (0 <= n)).
  - rewrite drop_app_le by lia. by rewrite take_app_le by (rewrite length_drop; lia).
  - by replace (Z.to_nat n) with 0%nat by lia.
Qed.

Lemma rd8_app_l (a b : list Z) off : 0 <= off < blen a -> rd8 (a ++ b) off = rd8 a off.
Proof. unfold rd8, blen. intros. rewrite !aget_lookup. by rewrite lookup_app_l by lia. Qed.

Lemma slice_nonpos b o n : n <= 0 -> slice b o n = [].
Proof. intros. unfold slice. by replace (Z.to_nat n) with 0%nat by lia. Qed.

Lemma blen_app a b : blen (a ++ b) = blen a + blen b.
Proof. unfold blen. rewrite length_app. lia. Qed.

(** A slice that contains the store. *)
Lemma slice_put_in b off s o n :
  0 <= o -> o <= off -> off + blen s <= o + n -> o + n <= blen b -> 0 <= n ->
  slice (put b off s) o n = put (slice b o n) (off - o) s.
Proof.
  intros. pose proof (blen_nonneg s).
  assert (blen (slice (put b off s) o n) = n) as E by (apply blen_slice; rewrite ?blen_put; lia).
  assert (blen (slice b o n) = n) as E' by (apply blen_slice; lia).
  apply bytes_ext; rewrite ?E, ?blen_put by lia; [done|].
  intros i Hi. rewrite aget_slice, !aget_put by lia. rewrite aget_slice by lia.
  repeat case_decide; try lia; f_equal; lia.
Qed.

(** ** Reads after writes *)

Section rw.
Context (b : list Z) (off : Z).

Lemma rd16_wr16 v : 0 <= off -> off + 2 <= blen b -> is_u16 v -> rd16 (wr16 b off v) off = v.
Proof.
  intros. unfold rd16, wr16. rewrite slice_put_eq by (rewrite ?blen_le_bytes; lia).
  rewrite le_val_bytes. unfold is_u16 in *. change (256 ^ Z.of_nat 2) with 65536. lia.
Qed.
Lemma rd32_wr32 v : 0 <= off -> off + 4 <= blen b -> is_u32 v -> rd32 (wr32 b off v) off = v.
Proof.
  intros. unfold rd32, wr32. rewrite slice_put_eq by (rewrite ?blen_le_bytes; lia).
  rewrite le_val_bytes. unfold is_u32 in *. change (256 ^ Z.of_nat 4) with 4294967296. lia.
Qed.
End rw.

(** ** Network byte order *)

(** [htons]/[ntohs] and [htonl]/[ntohl] of [kernel/net/eth.h]. *)
Definition htons (x : Z) : Z := u16 (Z.lor (Z.shiftl x 8) (Z.shiftr x 8)).
Definition ntohs (x : Z) : Z := htons x.
Definition htonl (x : Z) : Z :=
  Z.lor (Z.lor (Z.lor (Z.shiftr (Z.land x 0xff000000) 24) (Z.shiftr (Z.land x 0x00ff0000) 8))
               (u32 (Z.shiftl (Z.land x 0x0000ff00) 8)))
        (u32 (Z.shiftl (Z.land x 0x000000ff) 24)).
Definition ntohl (x : Z) : Z := htonl x.

(** A value whose low bits are clear, [or]ed with one below them. *)
Lemma lor_add_low (k a b : Z) : 0 <= k -> 0 <= b < 2 ^ k -> Z.lor (a * 2 ^ k) b = a * 2 ^ k + b.
Proof.
  intros Hk Hb. rewrite <- (Z.lxor_lor (a * 2 ^ k) b), <- Z.add_nocarry_lxor; try done.
  all: apply Z.bits_inj'; intros i Hi; rewrite Z.land_spec, Z.bits_0;
    destruct (Z.lt_ge_cases i k);
    [rewrite Z.mul_pow2_bits_low by lia; done
    |rewrite (testbit_high k b) by lia; apply andb_false_r].
Qed.

Lemma htons_spec x : is_u16 x -> htons x = x mod 256 * 256 + x / 256.
Proof.
  intros Hx. unfold htons. rewrite Z.shiftl_mul_pow2, Z.shiftr_div_pow2 by lia.
  unfold is_u16 in Hx. rewrite lor_add_low by lia. unfold u16. lia.
Qed.

Lemma htons_range x : is_u16 (htons x).
Proof. apply u16_range. Qed.

Lemma ntohs_htons x : is_u16 x -> ntohs (htons x) = x.
Proof.
  intros Hx. unfold ntohs. rewrite (htons_spec (htons x)), htons_spec by auto using htons_range.
  unfold is_u16 in Hx. lia.
Qed.

(** The big-endian bytes of a 16-bit value. *)
Lemma le_bytes_htons x : is_u16 x -> le_bytes 2 (htons x) = [x / 256; x mod 256].
Proof.
  intros Hx. rewrite htons_spec by done. unfold is_u16 in Hx. cbn [le_bytes]. f_equal; [lia|].
  f_equal. lia.
Qed.

(** Bytes of a 32-bit value in the order [b0 b1 b2 b3], least significant first. *)
Lemma htonl_spec b0 b1 b2 b3 :
  is_u8 b0 -> is_u8 b1 -> is_u8 b2 -> is_u8 b3 ->
  htonl (b0 + 256 * (b1 + 256 * (b2 + 256 * b3))) = b3 + 256 * (b2 + 256 * (b1 + 256 * b0)).
Proof.
  intros H0 H1 H2 H3. unfold is_u8 in *. unfold htonl.
  set (x := b0 + _).
  pose proof (land_field x) as Hland.
  change 0xff000000 with (Z.shiftl (Z.ones 8) 24). change 0x00ff0000 with (Z.shiftl (Z.ones 8) 16).
  change 0x0000ff00 with (Z.shiftl (Z.ones 8) 8). change 0x000000ff with (Z.shiftl (Z.ones 8) 0).
  rewrite (Hland 24 8 ltac:(lia) ltac:(lia)), (Hland 16 8 ltac:(lia) ltac:(lia)), (Hland 8 8 ltac:(lia) ltac:(lia)).
  rewrite (Hland 0 8 ltac:(lia) ltac:(lia)).
  rewrite !Z.shiftr_div_pow2, !Z.shiftl_mul_pow2 by lia. unfold u32.
  replace (x / 2 ^ 24 mod 2 ^ 8 * 2 ^ 24 / 2 ^ 24) with b3 by lia.
  replace (x / 2 ^ 16 mod 2 ^ 8 * 2 ^ 16 / 2 ^ 8) with (b2 * 2 ^ 8) by lia.
  replace ((x / 2 ^ 8 mod 2 ^ 8 * 2 ^ 8 * 2 ^ 8) mod 2 ^ 32) with (b1 * 2 ^ 16) by lia.
  replace ((x / 2 ^ 0 mod 2 ^ 8 * 2 ^ 0 * 2 ^ 24) mod 2 ^ 32) with (b0 * 2 ^ 24) by lia.
  rewrite (Z.lor_comm b3), lor_add_low by lia.
  rewrite (Z.lor_comm _ (b1 * 2 ^ 16)), lor_add_low by lia.
  rewrite (Z.lor_comm _ (b0 * 2 ^ 24)), lor_add_low by lia. lia.
Qed.

Lemma split_u32 x : is_u32 x ->
  exists b0 b1 b2 b3, is_u8 b0 /\ is_u8 b1 /\ is_u8 b2 /\ is_u8 b3 /\
    x = b0 + 256 * (b1 + 256 * (b2 + 256 * b3)).
Proof.
  intros Hx. exists (x mod 256), (x / 256 mod 256), (x / 65536 mod 256), (x / 16777216).
  unfold is_u32, is_u8 in *. split_and!; lia.
Qed.

Lemma ntohl_htonl x : is_u32 x -> ntohl (htonl x) = x.
Proof.
  intros (b0 & b1 & b2 & b3 & ? & ? & ? & ? & ->)%split_u32. unfold ntohl.
  by rewrite !htonl_spec.
Qed.

Lemma htonl_range x : is_u32 x -> is_u32 (htonl x).
Proof.
  intros (b0 & b1 & b2 & b3 & ? & ? & ? & ? & ->)%split_u32.
  rewrite htonl_spec by done. unfold is_u8, is_u32 in *. lia.
Qed.

(** ** Ring buffers *)

Section ring.
Context (cap : Z) (Hcap : 0 < cap).

(** [n] bytes of the ring from position [h]. *)
Fixpoint ring (b : list Z) (h : Z) (n : nat) : list Z :=
  match n with
  | O => []
  | S n' => aget 0 b h :: ring b ((h + 1) mod cap) n'
  end.

Lemma ring_length b h n : length (ring b h n) = n.
Proof. revert h. induction n; intros; simpl; auto. Qed.

Lemma ring_app b h n k :
  0 <= h < cap -> ring b h (n + k) = ring b h n ++ ring b ((h + Z.of_nat n) mod cap) k.
Proof using Hcap.
  revert h. induction n as [|n IH]; intros h Hh.
  - simpl. by rewrite Z.add_0_r, Z.mod_small.
  - cbn [Nat.add ring app]. rewrite IH by (apply Z.mod_pos_bound; lia). do 3 f_equal.
    rewrite Zplus_mod_idemp_l. f_equal. lia.
Qed.

(** A store past the live bytes does not change them. *)
Lemma ring_aset b h n w v :
  0 <= h < cap -> Z.of_nat n < cap ->
  w = (h + Z.of_nat n) mod cap -> ring (aset b w v) h n = ring b h n.
Proof using Hcap.
  revert h. induction n as [|n IH]; intros h Hh Hn ->; [done|]. cbn [ring].
  pose proof (Z.mod_pos_bound (h + Z.of_nat (S n)) cap Hcap). f_equal.
  - apply aget_aset_ne; [lia..|]. intros E.
    pose proof (Z.div_mod (h + Z.of_nat (S n)) cap ltac:(lia)) as D. rewrite E in D.
    set (q := (h + Z.of_nat (S n)) / cap) in *. clearbody q. destruct (Z.le_gt_cases q 0); nia.
  - apply IH; [apply Z.mod_pos_bound; lia|lia|]. rewrite Zplus_mod_idemp_l. f_equal. lia.
Qed.

(** The store at the end of the live bytes appends. *)
Lemma ring_snoc b h n v :
  0 <= h < cap -> Z.of_nat n < cap -> blen b = cap ->
  ring (aset b ((h + Z.of_nat n) mod cap) v) h (n + 1) = ring b h n ++ [v].
Proof using Hcap.
  intros Hh Hn Hb. rewrite ring_app by done. rewrite ring_aset by done. f_equal. cbn [ring]. f_equal.
  apply aget_aset_eq. unfold blen in Hb. rewrite Hb. apply Z.mod_pos_bound. lia.
Qed.
End ring.
