(* ===== verification/CString.v ===== *)
(** * The byte and string routines of the kernel

    Models [kernel/lib/string.c]: [memset], [memcpy], [memmove], [memcmp],
    [strlen], [strcmp], [strncpy] and [strncat], over a flat byte memory.
    Loops with a known count recurse on it; the loops that search for a NUL
    byte take fuel and return [None] when it runs out, and the theorems give
    the fuel that is enough (one more than the length of the string). *)

From S2P Require Import Prelude Bytes.

(** ** Byte memory *)

(** An address maps to the byte stored there. *)
Definition mem : Type := Z -> Z.
Definition upd (m : mem) (a v : Z) : mem := fun b => if b =? a then v else m b.

Lemma upd_eq m a v : upd m a v a = v.
Proof. unfold upd. by rewrite Z.eqb_refl. Qed.
Lemma upd_ne m a v b : b <> a -> upd m a v b = m b.
Proof. intros H. unfold upd. by rewrite (proj2 (Z.eqb_neq _ _) H). Qed.

Module CString.

Fixpoint memset_loop (n : nat) (m : mem) (out i value : Z) : mem :=
  match n with
  | O => m
  | S n' => memset_loop n' (upd m (out + i) (u8 value)) out (i + 1) value
  end.
Definition memset (m : mem) (dest value count : Z) : mem :=
  memset_loop (Z.to_nat count) m dest 0 value.

(** [for (i = i0; i < i0 + n; ++i) out[i] = in[i];] *)
Fixpoint copy_up (n : nat) (m : mem) (out in_ i : Z) : mem :=
  match n with
  | O => m
  | S n' => copy_up n' (upd m (out + i) (m (in_ + i))) out in_ (i + 1)
  end.
(** [for (i = n; i != 0; --i) out[i - 1] = in[i - 1];] *)
Fixpoint copy_down (n : nat) (m : mem) (out in_ : Z) : mem :=
  match n with
  | O => m
  | S n' => copy_down n' (upd m (out + Z.of_nat n') (m (in_ + Z.of_nat n'))) out in_
  end.

Definition memcpy (m : mem) (dest src count : Z) : mem :=
  copy_up (Z.to_nat count) m dest src 0.

Definition memmove (m : mem) (dest src count : Z) : mem :=
  if (dest =? src) || (count =? 0) then m
  else if dest <? src then copy_up (Z.to_nat count) m dest src 0
  else copy_down (Z.to_nat count) m dest src.

Fixpoint memcmp_loop (n : nat) (m : mem) (a b i : Z) : Z :=
  match n with
  | O => 0
  | S n' =>
      if negb (m (a + i) =? m (b + i)) then m (a + i) - m (b + i)
      else memcmp_loop n' m a b (i + 1)
  end.
Definition memcmp (m : mem) (lhs rhs count : Z) : Z :=
  memcmp_loop (Z.to_nat count) m lhs rhs 0.

Fixpoint strlen_loop (fuel : nat) (m : mem) (text len : Z) : option Z :=
  match fuel with
  | O => None
  | S f => if m (text + len) =? 0 then Some len else strlen_loop f m text (len + 1)
  end.
Definition strlen (fuel : nat) (m : mem) (text : Z) : option Z := strlen_loop fuel m text 0.

Fixpoint strcmp (fuel : nat) (m : mem) (a b : Z) : option Z :=
  match fuel with
  | O => None
  | S f =>
      if negb (m a =? 0) && (m a =? m b) then strcmp f m (a + 1) (b + 1)
      else Some (m a - m b)
  end.

(** [for (; i < n && src[i]; i++) dst[i] = src[i];], [k] iterations at most:
    the memory and the value of [i] after the loop. *)
Fixpoint copy_string (k : nat) (m : mem) (dst src i : Z) : mem * Z :=
  match k with
  | O => (m, i)
  | S k' =>
      if m (src + i) =? 0 then (m, i)
      else copy_string k' (upd m (dst + i) (m (src + i))) dst src (i + 1)
  end.

Definition strncpy (m : mem) (dst src n : Z) : mem :=
  let '(m1, i) := copy_string (Z.to_nat n) m dst src 0 in
  memset_loop (Z.to_nat (n - i)) m1 dst i 0.

Definition strncat (fuel : nat) (m : mem) (dst src n : Z) : option mem :=
  match strlen fuel m dst with
  | None => None
  | Some l =>
      let '(m1, i) := copy_string (Z.to_nat n) m (dst + l) src 0 in
      Some (upd m1 (dst + l + i) 0)
  end.

(** ** Block operations *)

Lemma memset_loop_spec n m out i value a :
  memset_loop n m out i value a =
  if decide (out + i <= a < out + i + Z.of_nat n) then u8 value else m a.
Proof.
  revert m i. induction n as [|n IH]; intros m i; simpl.
  - by rewrite decide_False by lia.
  - rewrite IH. destruct (decide (a = out + i)) as [->|].
    + rewrite decide_False, decide_True by lia. by rewrite upd_eq.
    + rewrite upd_ne by done. repeat case_decide; done || lia.
Qed.

Lemma copy_up_spec n m out in_ i a :
  (out <= in_ \/ in_ + i + Z.of_nat n <= out + i) ->
  copy_up n m out in_ i a =
  if decide (out + i <= a < out + i + Z.of_nat n) then m (in_ + (a - out)) else m a.
Proof.
  revert m i. induction n as [|n IH]; intros m i H; simpl.
  - by rewrite decide_False by lia.
  - rewrite IH by lia. destruct (decide (a = out + i)) as [->|].
    + rewrite decide_False, decide_True by lia. rewrite upd_eq. f_equal; lia.
    + repeat case_decide; try lia; by rewrite upd_ne by lia.
Qed.

Lemma copy_down_spec n m out in_ a :
  in_ <= out ->
  copy_down n m out in_ a =
  if decide (out <= a < out + Z.of_nat n) then m (in_ + (a - out)) else m a.
Proof.
  revert m. induction n as [|n IH]; intros m H; simpl.
  - by rewrite decide_False by lia.
  - rewrite IH by done. destruct (decide (a = out + Z.of_nat n)) as [->|].
    + rewrite decide_False, decide_True by lia. rewrite upd_eq. f_equal; lia.
    + repeat case_decide; try lia; by rewrite upd_ne by lia.
Qed.

Lemma memset_correct m dest value count a :
  memset m dest value count a =
  if decide (dest <= a < dest + Z.max 0 count) then u8 value else m a.
Proof. unfold memset. rewrite memset_loop_spec. repeat case_decide; done || lia. Qed.

(** [memcpy] copies when the regions do not overlap (or the destination is below). *)
Lemma memcpy_correct m dest src count a :
  0 <= count -> dest <= src \/ src + count <= dest ->
  memcpy m dest src count a =
  if decide (dest <= a < dest + count) then m (src + (a - dest)) else m a.
Proof.
  intros Hc H. unfold memcpy. rewrite copy_up_spec by lia.
  repeat case_decide; done || lia.
Qed.

(** [memmove] moves the block for every overlap of source and destination:
    each destination byte is the source byte of the memory before the call, and
    every byte outside the destination is unchanged. *)
Theorem memmove_correct m dest src count a :
  0 <= count ->
  memmove m dest src count a =
  if decide (dest <= a < dest + count) then m (src + (a - dest)) else m a.
Proof.
  intros Hc. unfold memmove. destruct (Z.eqb_spec dest src) as [->|Hne]; simpl.
  { case_decide; [f_equal; lia|done]. }
  destruct (Z.eqb_spec count 0) as [->|Hcn]; [by rewrite decide_False by lia|].
  destruct (Z.ltb_spec dest src); rewrite ?copy_up_spec, ?copy_down_spec by lia;
    repeat case_decide; done || lia.
Qed.

Lemma memmove_correct_witness :
  memmove (fun a => u8 a) 12 10 5 14 = if decide (12 <= 14 < 12 + 5) then 12 else 14.
Proof. rewrite (memmove_correct (fun a => u8 a) 12 10 5 14) by lia. reflexivity. Defined.

Lemma memcmp_loop_zero n m a b i :
  memcmp_loop n m a b i = 0 <-> forall j, i <= j < i + Z.of_nat n -> m (a + j) = m (b + j).
Proof.
  revert i. induction n as [|n IH]; intros i; cbn [memcmp_loop]; [split; [lia|done]|].
  destruct (Z.eqb_spec (m (a + i)) (m (b + i))) as [E|E]; simpl.
  - rewrite IH. split; intros H j Hj; [|apply H; lia].
    destruct (decide (j = i)) as [->|]; [done|apply H; lia].
  - split; [lia|]. intros H. exfalso. apply E, H. lia.
Qed.

Lemma memcmp_zero m lhs rhs count :
  memcmp m lhs rhs count = 0 <-> forall j, 0 <= j < count -> m (lhs + j) = m (rhs + j).
Proof.
  unfold memcmp. rewrite memcmp_loop_zero. split; intros H j Hj; apply H; lia.
Qed.

(** ** NUL-terminated strings *)

(** The bytes of a C string: none is NUL. *)
Definition str_bytes (s : list Z) : Prop := Forall (fun b => 0 < b < 256) s.

(** [s] and its terminator are stored at [a]. *)
Fixpoint cstr (m : mem) (a : Z) (s : list Z) : Prop :=
  match s with
  | [] => m a = 0
  | b :: s' => 0 < b < 256 /\ m a = b /\ cstr m (a + 1) s'
  end.

Lemma cstr_ext m m' a s :
  (forall b, a <= b <= a + Z.of_nat (length s) -> m' b = m b) -> cstr m a s -> cstr m' a s.
Proof.
  revert a. induction s as [|b s IH]; intros a H Hs; simpl in *; [by rewrite H by lia|].
  destruct Hs as (? & ? & ?). rewrite H by lia. split; [done|]. split; [done|].
  apply IH; [|done]. intros; apply H; lia.
Qed.

Lemma cstr_get m a s j :
  cstr m a s -> 0 <= j <= Z.of_nat (length s) -> m (a + j) = aget 0 s j.
Proof.
  revert a j. induction s as [|b s IH]; intros a j Hs Hj; simpl in *.
  - replace j with 0 by lia. by rewrite Z.add_0_r.
  - destruct Hs as (Hb & Hm & Hs). destruct (decide (j = 0)) as [->|Hn].
    + by rewrite Z.add_0_r.
    + replace (a + j) with (a + 1 + (j - 1)) by lia. rewrite IH by (done || lia).
      unfold aget. by replace (Z.to_nat j) with (S (Z.to_nat (j - 1))) by lia.
Qed.

Lemma cstr_app m a s t :
  str_bytes s -> (forall j, 0 <= j < Z.of_nat (length s) -> m (a + j) = aget 0 s j) ->
  cstr m (a + Z.of_nat (length s)) t -> cstr m a (s ++ t).
Proof.
  revert a. induction s as [|b s IH]; intros a Hs Hm Ht; simpl in *.
  - by rewrite Z.add_0_r in Ht.
  - apply Forall_cons in Hs as [Hb Hs]. split; [done|]. split.
    { specialize (Hm 0 ltac:(lia)). by rewrite Z.add_0_r in Hm. }
    apply IH; [done| |by replace (a + 1 + Z.of_nat (length s)) with (a + Z.of_nat (S (length s))) by lia].
    intros j Hj. specialize (Hm (j + 1) ltac:(lia)).
    replace (a + 1 + j) with (a + (j + 1)) by lia. rewrite Hm. unfold aget.
    by replace (Z.to_nat (j + 1)) with (S (Z.to_nat j)) by lia.
Qed.

Lemma cstr_bytes m a s : cstr m a s -> str_bytes s.
Proof.
  revert a. induction s as [|b s IH]; intros a; simpl; [constructor|].
  intros (? & ? & ?). constructor; [done|by eapply IH].
Qed.

Lemma strlen_loop_cstr m text s len fuel :
  cstr m (text + len) s -> (length s < fuel)%nat ->
  strlen_loop fuel m text len = Some (len + Z.of_nat (length s)).
Proof.
  revert len fuel. induction s as [|b s IH]; intros len [|fuel] Hs Hf; simpl in *; try lia.
  - rewrite Hs. simpl. f_equal. lia.
  - destruct Hs as (Hb & -> & Hs). rewrite (proj2 (Z.eqb_neq b 0)) by lia.
    rewrite IH; [f_equal; lia| |lia]. by rewrite Z.add_assoc.
Qed.

Lemma strlen_correct m text s fuel :
  cstr m text s -> (length s < fuel)%nat -> strlen fuel m text = Some (Z.of_nat (length s)).
Proof.
  intros Hs Hf. unfold strlen. rewrite (strlen_loop_cstr m text s 0); [done| |done].
  by rewrite Z.add_0_r.
Qed.

(** What [strcmp] computes, on the strings themselves. *)
Fixpoint compare_bytes (s t : list Z) : Z :=
  match s, t with
  | b :: s', c :: t' => if b =? c then compare_bytes s' t' else b - c
  | b :: _, [] => b
  | [], c :: _ => - c
  | [], [] => 0
  end.

Lemma compare_bytes_zero s t : str_bytes s -> str_bytes t -> compare_bytes s t = 0 <-> s = t.
Proof.
  revert t. induction s as [|b s IH]; intros [|c t] Hs Ht; simpl; try done.
  - apply Forall_cons in Ht as [? _]. split; [lia|done].
  - apply Forall_cons in Hs as [? _]. split; [lia|done].
  - apply Forall_cons in Hs as [Hb Hs]. apply Forall_cons in Ht as [Hc Ht].
    destruct (Z.eqb_spec b c) as [->|Hne].
    + rewrite IH by done. split; congruence.
    + split; [lia|congruence].
Qed.

Lemma strcmp_compare m a b s t fuel :
  cstr m a s -> cstr m b t -> (length s < fuel)%nat ->
  strcmp fuel m a b = Some (compare_bytes s t).
Proof.
  revert a b t fuel. induction s as [|x s IH]; intros a b [|y t] [|fuel] Hs Ht Hf; simpl in *; try lia.
  - by rewrite Hs, Ht.
  - destruct Ht as (? & Ht & _). rewrite Hs, Ht. done.
  - destruct Hs as (? & Hs & _). rewrite Hs, Ht. rewrite (proj2 (Z.eqb_neq x 0)) by lia.
    simpl. destruct (Z.eqb_spec x 0); [lia|]. f_equal. lia.
  - destruct Hs as (Hx & -> & Hs). destruct Ht as (Hy & -> & Ht).
    rewrite (proj2 (Z.eqb_neq x 0)) by lia. simpl.
    destruct (Z.eqb_spec x y); [|done]. apply IH; [done..|lia].
Qed.

(** On two C strings [strcmp] returns, and returns 0 exactly when they are equal. *)
Theorem strcmp_correct m a b s t fuel :
  cstr m a s -> cstr m b t -> (length s < fuel)%nat ->
  exists r, strcmp fuel m a b = Some r /\ (r = 0 <-> s = t).
Proof.
  intros Hs Ht Hf. exists (compare_bytes s t). split; [by apply strcmp_compare|].
  apply compare_bytes_zero; by eapply cstr_bytes.
Qed.

(** The bounded copy loop of [strncpy] and [strncat]: it stores the first
    [k] bytes of the string and stops at its end. *)
Lemma copy_string_spec k m dst src i s :
  cstr m (src + i) s ->
  dst + i + Z.of_nat k <= src + i \/ src + i + Z.of_nat (length s) < dst + i ->
  let '(m', i') := copy_string k m dst src i in
  i' = i + Z.of_nat (Nat.min k (length s)) /\
  forall a, m' a = if decide (dst + i <= a < dst + i') then aget 0 s (a - dst - i) else m a.
Proof.
  revert m i s. induction k as [|k IH]; intros m i s Hs Hd; cbn [copy_string].
  { split; [simpl; lia|]. intros a. by rewrite decide_False by lia. }
  destruct s as [|b s]; simpl in Hs, Hd.
  { rewrite Hs. simpl. split; [lia|]. intros a. by rewrite decide_False by lia. }
  destruct Hs as (Hb & Hm & Hs). rewrite Hm, (proj2 (Z.eqb_neq b 0)) by lia.
  specialize (IH (upd m (dst + i) b) (i + 1) s).
  destruct (copy_string _ _ _ _ _) as [m' i']. destruct IH as [-> IH].
  - eapply cstr_ext; [|by rewrite Z.add_assoc]. intros c Hc. apply upd_ne. lia.
  - lia.
  - split; [simpl; lia|]. intros a. rewrite IH. destruct (decide (a = dst + i)) as [->|Hne].
    + rewrite decide_False, decide_True by lia. rewrite upd_eq.
      by replace (dst + i - dst - i) with 0 by lia.
    + rewrite upd_ne by done. repeat case_decide; try lia.
      unfold aget. by replace (Z.to_nat (a - dst - i)) with (S (Z.to_nat (a - dst - (i + 1)))) by lia.
Qed.

(** [strncpy] fills exactly [n] bytes: the string, cut at [n], then NULs. The
    result is terminated only when the string is shorter than [n]. *)
Lemma strncpy_correct m dst src n s a :
  cstr m src s -> 0 <= n -> dst + n <= src \/ src + Z.of_nat (length s) < dst ->
  strncpy m dst src n a = if decide (dst <= a < dst + n) then aget 0 s (a - dst) else m a.
Proof.
  intros Hs Hn Hd. unfold strncpy.
  pose proof (copy_string_spec (Z.to_nat n) m dst src 0 s) as H.
  rewrite !Z.add_0_r in H. specialize (H Hs ltac:(lia)).
  destruct (copy_string _ _ _ _ _) as [m1 i]. destruct H as [-> H].
  rewrite memset_loop_spec, H, !Z.add_0_l, Z.sub_0_r.
  repeat case_decide; try lia.
  rewrite aget_oob by lia. reflexivity.
Qed.

(** [strncat] returns, and appends at most [n] bytes of the source and a
    terminator to the string at [dst]; nothing but these bytes changes. *)
Theorem strncat_correct m dst src n t s fuel :
  cstr m dst t -> cstr m src s -> 0 <= n -> (length t < fuel)%nat ->
  (dst + Z.of_nat (length t) + n < src \/ src + Z.of_nat (length s) < dst) ->
  exists m', strncat fuel m dst src n = Some m' /\
    cstr m' dst (t ++ take (Z.to_nat n) s) /\
    forall a, ~ (dst + Z.of_nat (length t) <= a
                 <= dst + Z.of_nat (length t) + Z.min n (Z.of_nat (length s))) -> m' a = m a.
Proof.
  intros Ht Hs Hn Hf Hd. unfold strncat. rewrite (strlen_correct _ _ t) by done.
  set (e := dst + Z.of_nat (length t)).
  pose proof (copy_string_spec (Z.to_nat n) m e src 0 s) as H. rewrite !Z.add_0_r in H.
  specialize (H Hs ltac:(lia)). destruct (copy_string _ _ _ _ _) as [m1 i].
  destruct H as [Hi H]. eexists. split; [done|]. split.
  - apply cstr_app; [by eapply cstr_bytes| |].
    + intros j Hj. rewrite upd_ne, H, decide_False by lia. apply (cstr_get _ _ t); [done|lia].
    + rewrite <- (app_nil_r (take _ _)). apply cstr_app.
      * apply Forall_take. by eapply cstr_bytes.
      * rewrite length_take. intros j Hj. rewrite upd_ne, H, decide_True by lia.
        rewrite !aget_lookup, lookup_take_lt by lia. do 3 f_equal. lia.
      * rewrite length_take. simpl. replace (dst + _ + _) with (e + i) by lia. apply upd_eq.
  - intros a Ha. rewrite upd_ne, H, decide_False by lia. done.
Qed.

(** ** Concrete instances *)

(** The strings [ab] at 100, [ac] at 200 and [x] at 300. *)
Definition text_mem : mem := fun a =>
  if a =? 100 then 97 else if a =? 101 then 98 else
  if a =? 200 then 97 else if a =? 201 then 99 else
  if a =? 300 then 120 else 0.

Lemma strcmp_correct_witness :
  exists r, strcmp 3 text_mem 100 200 = Some r /\ (r = 0 <-> [97; 98] = [97; 99]).
Proof. apply (strcmp_correct text_mem 100 200 [97; 98] [97; 99] 3); vm_compute; intuition (congruence || lia). Defined.

Lemma strncat_correct_witness :
  exists m', strncat 3 text_mem 100 200 1 = Some m' /\ cstr m' 100 [97; 98; 97] /\
    forall a, ~ (100 + 2 <= a <= 100 + 2 + Z.min 1 2) -> m' a = text_mem a.
Proof.
  apply (strncat_correct text_mem 100 200 1 [97; 98] [97; 99] 3); vm_compute; intuition (congruence || lia).
Defined.
(** ** Strings in fixed-size buffers

    Structures hold their strings in [char] arrays, here lists of bytes. *)

(** The bytes before the first NUL. *)
Fixpoint cstr_of (b : list Z) : list Z :=
  match b with
  | [] => []
  | c :: b' => if c =? 0 then [] else c :: cstr_of b'
  end.

(** [strncpy(dst, src, n)] on buffers. *)
Definition strncpy_buf (dst src : list Z) (n : Z) : list Z :=
  let s := take (Z.to_nat n) (cstr_of src) in put dst 0 (s ++ zeros (n - blen s)).

Lemma strncpy_buf_length dst src n : 0 <= n <= blen dst -> blen (strncpy_buf dst src n) = blen dst.
Proof.
  intros Hn. unfold strncpy_buf. set (s := take _ _).
  assert (blen s <= n) as Hs by (unfold s, blen; rewrite length_take; lia).
  apply blen_put; [lia|]. unfold blen in *. rewrite length_app, zeros_length. lia.
Qed.

(** It is the memory routine, read back from the destination. *)
Lemma strncpy_buf_correct m dst src n d b i :
  cstr m src (cstr_of b) -> 0 <= n <= blen d ->
  dst + n <= src \/ src + Z.of_nat (length (cstr_of b)) < dst -> 0 <= i < n ->
  aget 0 (strncpy_buf d b n) i = strncpy m dst src n (dst + i).
Proof.
  intros Hs Hn Hd Hi. rewrite (strncpy_correct m dst src n (cstr_of b)) by (done || lia).
  rewrite decide_True by lia. replace (dst + i - dst) with i by lia.
  unfold strncpy_buf. set (s := take _ _).
  assert (blen s <= n) as Hsl by (unfold s, blen; rewrite length_take; lia).
  rewrite aget_put by (rewrite ?length_app, ?zeros_length; unfold blen in *; rewrite ?length_app, ?zeros_length; lia).
  rewrite decide_True by (unfold blen in *; rewrite length_app, zeros_length; lia). rewrite Z.sub_0_r, !aget_lookup.
  destruct (Z.lt_ge_cases i (blen s)) as [Hlt|Hge].
  - rewrite lookup_app_l by (unfold blen in *; lia). unfold s. by rewrite lookup_take_lt by lia.
  - rewrite lookup_app_r by (unfold blen in *; lia).
    rewrite (lookup_ge_None_2 (cstr_of b)).
    + destruct (zeros _ !! _) as [y|] eqn:E; [|done]. unfold zeros in E. by apply lookup_replicate_1 in E as [-> _].
    + revert Hge. unfold s, blen. rewrite length_take. lia.
Qed.

End CString.
