(* ===== verification/Checksum.v ===== *)
(** * The internet checksum

    Models [kernel/net/checksum.c]: [ip_checksum] and the UDP/TCP variant over
    the pseudo header. The argument is the list of the [len] bytes the pointer
    designates. The sum wraps at 32 bits as in the source; the theorems bound
    the length so that it does not. The carry loop runs at most
    [carry_rounds] times, which [fold_carries_done] shows to be enough. *)

From S2P Require Import Prelude Bytes.

Module Checksum.

(** The two loops that add the big-endian words, and the odd last byte. *)
Fixpoint sum_words (p : list Z) (sum : Z) : Z :=
  match p with
  | p0 :: p1 :: p' => sum_words p' (u32 (sum + Z.lor (Z.shiftl p0 8) p1))
  | [p0] => u32 (sum + Z.shiftl p0 8)
  | [] => sum
  end.

(** [while (sum >> 16) sum = (sum & 0xffffU) + (sum >> 16);] *)
Fixpoint fold_carries (fuel : nat) (sum : Z) : Z :=
  match fuel with
  | O => sum
  | S f =>
      if Z.shiftr sum 16 =? 0 then sum
      else fold_carries f (u32 (Z.land sum 0xffff + Z.shiftr sum 16))
  end.
Definition carry_rounds : nat := 2.

Definition finish (sum : Z) : Z := u16 (Z.lnot (fold_carries carry_rounds sum)).

Definition ip_checksum (data : list Z) : Z := finish (sum_words data 0).

(** The packed pseudo header, in memory order. *)
Definition pseudo_header (src_ip dst_ip proto seg_len : Z) : list Z :=
  le_bytes 4 src_ip ++ le_bytes 4 dst_ip ++ [0; u8 proto] ++
  le_bytes 2 (u16 (Z.lor (Z.shiftr seg_len 8) (Z.shiftl seg_len 8))).

Definition ip_pseudo_checksum (src_ip dst_ip proto : Z) (segment : list Z) : Z :=
  finish (sum_words segment (sum_words (pseudo_header src_ip dst_ip proto (blen segment)) 0)).

(** ** Reference definitions *)

(** The sum of the big-endian 16-bit words, padded with a zero byte. *)
Fixpoint word_sum (p : list Z) : Z :=
  match p with
  | p0 :: p1 :: p' => p0 * 256 + p1 + word_sum p'
  | [p0] => p0 * 256
  | [] => 0
  end.

(** The one's complement representative of [s]: 0 only for 0. *)
Definition ones_sum (s : Z) : Z := if s =? 0 then 0 else (s - 1) mod 65535 + 1.

(** Induction two bytes at a time. *)
Lemma pairs_ind (P : list Z -> Prop) :
  P [] -> (forall a, P [a]) -> (forall a b l, P l -> P (a :: b :: l)) -> forall l, P l.
Proof.
  intros H0 H1 H2 l. enough (P l /\ forall a, P (a :: l)) by tauto.
  induction l as [|x l [IH1 IH2]]; split; auto.
Qed.

Lemma word_sum_bound p : bytes p -> 0 <= word_sum p <= 65535 * ((blen p + 1) / 2).
Proof.
  unfold blen. induction p as [|a|a b l IH] using pairs_ind; intros Hp.
  - done.
  - apply Forall_cons in Hp as [Ha _]. unfold is_u8 in Ha. simpl. lia.
  - apply Forall_cons in Hp as [Ha Hp]. apply Forall_cons in Hp as [Hb Hp].
    specialize (IH Hp). unfold is_u8 in *. cbn [word_sum length].
    rewrite !Nat2Z.inj_succ. lia.
Qed.

Lemma sum_words_word_sum p s :
  bytes p -> 0 <= s -> s + word_sum p < 2 ^ 32 -> sum_words p s = s + word_sum p.
Proof.
  revert s. induction p as [|a|a b l IH] using pairs_ind; intros s Hp Hs Hlt; cbn [sum_words word_sum] in *.
  - lia.
  - apply Forall_cons in Hp as [Ha _]. rewrite Z.shiftl_mul_pow2 by lia. unfold is_u8, u32 in *. lia.
  - apply Forall_cons in Hp as [Ha Hp]. apply Forall_cons in Hp as [Hb Hp].
    unfold is_u8 in *. rewrite Z.shiftl_mul_pow2, lor_add_low by lia.
    pose proof (word_sum_bound l Hp) as Hl. rewrite u32_small by (unfold is_u32; lia).
    rewrite IH by (done || lia). lia.
Qed.

Lemma word_sum_app p q : Z.even (blen p) = true -> word_sum (p ++ q) = word_sum p + word_sum q.
Proof.
  unfold blen. induction p as [|a|a b l IH] using pairs_ind; intros He.
  - done.
  - done.
  - cbn [word_sum app]. rewrite IH; [lia|]. revert He. cbn [length]. rewrite !Nat2Z.inj_succ.
    by rewrite !Z.even_succ_succ || rewrite Z.even_succ, Z.odd_succ.
Qed.

(** ** The carry loop *)

Lemma fold_step s : is_u32 s ->
  u32 (Z.land s 0xffff + Z.shiftr s 16) = s mod 65536 + s / 65536.
Proof.
  intros Hs. change 0xffff with (2 ^ 16 - 1). rewrite land_ones_mod, Z.shiftr_div_pow2 by lia.
  unfold is_u32, u32 in *. lia.
Qed.

Lemma fold_carries_range n s : is_u32 s -> is_u32 (fold_carries n s).
Proof.
  revert s. induction n as [|n IH]; intros s Hs; cbn [fold_carries]; [done|].
  case_match; [done|]. apply IH. apply u32_range.
Qed.

(** Two rounds reach the exit condition of the loop for every 32-bit sum. *)
Lemma fold_carries_done s : is_u32 s -> Z.shiftr (fold_carries carry_rounds s) 16 = 0.
Proof.
  intros Hs. unfold carry_rounds. cbn [fold_carries].
  destruct (Z.eqb_spec (Z.shiftr s 16) 0) as [|H1]; [done|].
  rewrite fold_step by done. set (t := s mod 65536 + s / 65536).
  assert (0 <= t <= 131070) as Ht by (unfold is_u32 in Hs; lia).
  destruct (Z.eqb_spec (Z.shiftr t 16) 0) as [|H2]; [done|].
  rewrite fold_step by (unfold is_u32; lia). rewrite Z.shiftr_div_pow2 in * by lia. lia.
Qed.

Lemma fold_carries_ones_sum n s :
  is_u32 s -> Z.shiftr (fold_carries n s) 16 = 0 -> fold_carries n s = ones_sum s.
Proof.
  revert s. induction n as [|n IH]; intros s Hs Hd; cbn [fold_carries] in *.
  - rewrite Z.shiftr_div_pow2 in Hd by lia. unfold ones_sum, is_u32 in *.
    destruct (Z.eqb_spec s 0); lia.
  - destruct (Z.eqb_spec (Z.shiftr s 16) 0) as [H0|H0].
    + rewrite Z.shiftr_div_pow2 in H0 by lia. unfold ones_sum, is_u32 in *.
      destruct (Z.eqb_spec s 0); lia.
    + rewrite IH by (apply u32_range || done). rewrite fold_step by done.
      rewrite Z.shiftr_div_pow2 in H0 by lia. unfold ones_sum, is_u32 in *.
      destruct (Z.eqb_spec s 0), (Z.eqb_spec (s mod 65536 + s / 65536) 0); lia.
Qed.

Lemma ones_sum_range s : 0 <= s -> 0 <= ones_sum s <= 65535.
Proof. intros. unfold ones_sum. case_match; lia. Qed.

Lemma finish_spec s : is_u32 s -> finish s = 65535 - ones_sum s.
Proof.
  intros Hs. unfold finish. rewrite fold_carries_ones_sum by (done || by apply fold_carries_done).
  pose proof (ones_sum_range s). unfold Z.lnot, u16, is_u32 in *. lia.
Qed.

(** Completing a sum with its checksum gives the sum that verifies. *)
Lemma finish_verify s : 0 <= s -> s + 65535 < 2 ^ 32 -> finish (s + finish s) = 0.
Proof.
  intros H0 H1. rewrite (finish_spec s) by (unfold is_u32; lia).
  pose proof (ones_sum_range s H0). rewrite finish_spec by (unfold is_u32; lia).
  unfold ones_sum in *. repeat case_match; lia.
Qed.

(** ** Correctness *)

(** Longest region whose sum cannot wrap, rounded down; every packet is shorter. *)
Definition MAX_CHECKSUMMED : Z := 131000.

Lemma word_sum_u32 p : bytes p -> blen p <= MAX_CHECKSUMMED -> 0 <= word_sum p < 2 ^ 32 - 1000000.
Proof. intros Hp Hl. pose proof (word_sum_bound p Hp). unfold MAX_CHECKSUMMED in Hl. lia. Qed.

(** [ip_checksum] is the complement of the one's complement sum of the words. *)
Lemma ip_checksum_spec data :
  bytes data -> blen data <= MAX_CHECKSUMMED -> ip_checksum data = 65535 - ones_sum (word_sum data).
Proof.
  intros Hd Hl. pose proof (word_sum_u32 _ Hd Hl). unfold ip_checksum.
  rewrite sum_words_word_sum by (done || lia). apply finish_spec. unfold is_u32. lia.
Qed.

Lemma ip_checksum_range data : bytes data -> blen data <= MAX_CHECKSUMMED -> is_u16 (ip_checksum data).
Proof.
  intros Hd Hl. rewrite ip_checksum_spec by done. pose proof (word_sum_u32 _ Hd Hl).
  pose proof (ones_sum_range (word_sum data)). unfold is_u16. lia.
Qed.

(** The sum of a region whose checksum field, at an even offset, was zero when
    the checksum [c] was computed and then holds [c] in network order. *)
Lemma word_sum_field pre post c :
  Z.even (blen pre) = true -> is_u16 c ->
  word_sum (pre ++ le_bytes 2 (htons c) ++ post) = word_sum (pre ++ [0; 0] ++ post) + c.
Proof.
  intros He Hc. rewrite le_bytes_htons by done. rewrite !word_sum_app by done.
  cbn [app word_sum]. unfold is_u16 in Hc. lia.
Qed.

Lemma field_bytes pre post c :
  bytes (pre ++ [0; 0] ++ post) -> bytes (pre ++ le_bytes 2 (htons c) ++ post).
Proof.
  unfold bytes. rewrite !Forall_app. intros (? & ? & ?). split_and!; [done|apply le_bytes_bytes|done].
Qed.

Lemma field_blen pre post c :
  blen (pre ++ le_bytes 2 (htons c) ++ post) = blen (pre ++ [0; 0] ++ post).
Proof. unfold blen. rewrite !length_app, le_bytes_length. done. Qed.

(** A header whose checksum field (at an even offset) is filled with
    [htons(ip_checksum(header))], computed while the field is zero, verifies:
    the receiver's [ip_checksum] over the whole header is 0. *)
Lemma ip_checksum_verify pre post :
  let hdr := pre ++ [0; 0] ++ post in
  bytes hdr -> blen hdr <= MAX_CHECKSUMMED -> Z.even (blen pre) = true ->
  ip_checksum (pre ++ le_bytes 2 (htons (ip_checksum hdr)) ++ post) = 0.
Proof.
  intros hdr Hb Hl He. pose proof (word_sum_u32 _ Hb Hl) as Hs.
  pose proof (ip_checksum_range _ Hb Hl) as Hc. pose proof (field_bytes pre post (ip_checksum hdr) Hb).
  unfold ip_checksum at 1. unfold is_u16 in Hc.
  rewrite sum_words_word_sum; rewrite ?word_sum_field; try (done || lia); [|fold hdr; lia].
  fold hdr. unfold ip_checksum. rewrite sum_words_word_sum by (done || lia).
  apply finish_verify; lia.
Qed.

Lemma pseudo_header_bytes src dst proto len : bytes (pseudo_header src dst proto len).
Proof.
  unfold pseudo_header, bytes. rewrite !Forall_app.
  split_and!; try apply le_bytes_bytes. repeat constructor; unfold is_u8, u8; lia.
Qed.

Lemma pseudo_header_sum src dst proto len : 0 <= word_sum (pseudo_header src dst proto len) <= 6 * 65535.
Proof. apply (word_sum_bound _ (pseudo_header_bytes src dst proto len)). Qed.

(** The pseudo-header checksum is that of the concatenation. *)
Lemma ip_pseudo_checksum_spec src dst proto seg :
  bytes seg -> blen seg <= MAX_CHECKSUMMED ->
  ip_pseudo_checksum src dst proto seg =
  finish (word_sum (pseudo_header src dst proto (blen seg)) + word_sum seg).
Proof.
  intros Hb Hl. pose proof (word_sum_u32 _ Hb Hl).
  pose proof (pseudo_header_sum src dst proto (blen seg)).
  unfold ip_pseudo_checksum. f_equal.
  rewrite (sum_words_word_sum (pseudo_header _ _ _ _)) by (apply pseudo_header_bytes || lia).
  rewrite sum_words_word_sum by (done || lia). lia.
Qed.

(** A UDP or TCP segment whose checksum field (at an even offset) is filled
    with [htons] of the pseudo-header checksum, computed while the field is
    zero, is accepted by the receiver's pseudo-header check. *)
Lemma ip_pseudo_checksum_verify src dst proto pre post :
  let seg := pre ++ [0; 0] ++ post in
  bytes seg -> blen seg <= MAX_CHECKSUMMED -> Z.even (blen pre) = true ->
  ip_pseudo_checksum src dst proto
    (pre ++ le_bytes 2 (htons (ip_pseudo_checksum src dst proto seg)) ++ post) = 0.
Proof.
  intros seg Hb Hl He. pose proof (word_sum_u32 _ Hb Hl) as Hs.
  pose proof (pseudo_header_sum src dst proto (blen seg)) as Hp.
  pose proof (ip_pseudo_checksum_spec src dst proto seg Hb Hl) as E.
  assert (is_u16 (ip_pseudo_checksum src dst proto seg)) as Hc.
  { rewrite E, finish_spec by (unfold is_u32; lia).
    pose proof (ones_sum_range (word_sum (pseudo_header src dst proto (blen seg)) + word_sum seg)).
    unfold is_u16. lia. }
  rewrite ip_pseudo_checksum_spec; [|by apply field_bytes|by rewrite field_blen].
  rewrite field_blen, word_sum_field by done. fold seg. rewrite E, Z.add_assoc.
  apply finish_verify; lia.
Qed.

(** ** Concrete instances *)

(** The header of the classic worked example: checksum [0xb861]. *)
Definition sample_pre : list Z := [0x45; 0; 0; 0x73; 0; 0; 0x40; 0; 0x40; 0x11].
Definition sample_post : list Z := [0xc0; 0xa8; 0; 1; 0xc0; 0xa8; 0; 0xc7].

Lemma ip_checksum_sample : ip_checksum (sample_pre ++ [0; 0] ++ sample_post) = 0xb861.
Proof. reflexivity. Qed.

Lemma sample_bytes : bytes (sample_pre ++ [0; 0] ++ sample_post).
Proof. repeat constructor; done. Qed.

(** C36: on at most 131000 bytes the loops of [ip_checksum] and [ip_pseudo_checksum] compute the
    RFC 1071 checksum, the complement of the one's complement sum of the 16-bit words (of the pseudo
    header followed by the segment, for the second): the 32-bit sums do not overflow, and the carry
    loops end within two rounds. *)
Theorem checksum_rfc1071 src dst proto data :
  bytes data -> blen data <= MAX_CHECKSUMMED ->
  ip_checksum data = 65535 - ones_sum (word_sum data) /\
  ip_pseudo_checksum src dst proto data =
    65535 - ones_sum (word_sum (pseudo_header src dst proto (blen data) ++ data)) /\
  (forall p, p = data \/ p = pseudo_header src dst proto (blen data) ++ data ->
     sum_words p 0 = word_sum p /\ Z.shiftr (fold_carries carry_rounds (sum_words p 0)) 16 = 0).
Proof.
  intros Hb Hl. pose proof (word_sum_u32 _ Hb Hl) as Hs.
  pose proof (pseudo_header_sum src dst proto (blen data)) as Hp.
  pose proof (pseudo_header_bytes src dst proto (blen data)) as Hpb.
  split; [by apply ip_checksum_spec|].
  assert (word_sum (pseudo_header src dst proto (blen data) ++ data) =
          word_sum (pseudo_header src dst proto (blen data)) + word_sum data) as Ea
    by (by apply word_sum_app).
  split.
  - rewrite ip_pseudo_checksum_spec, Ea by done. apply finish_spec. unfold is_u32. lia.
  - intros p Hp'. assert (bytes p /\ 0 <= word_sum p < 2 ^ 32) as [Hpb' Hr].
    { destruct Hp' as [->| ->]; [split; [done|lia]|]. rewrite Ea. split; [by apply Forall_app|lia]. }
    rewrite sum_words_word_sum by (done || lia). split; [lia|].
    apply fold_carries_done. unfold is_u32. lia.
Qed.

Lemma checksum_rfc1071_witness :
  ip_checksum (sample_pre ++ [0; 0] ++ sample_post) =
    65535 - ones_sum (word_sum (sample_pre ++ [0; 0] ++ sample_post)).
Proof.
  destruct (checksum_rfc1071 0 0 17 (sample_pre ++ [0; 0] ++ sample_post) sample_bytes ltac:(done)) as [H _].
  exact H.
Defined.

End Checksum.
