(* ===== verification/Pmm.v ===== *)
(** * The physical page allocator (kernel/mem/pmm.c)

    A bitmap of 64-bit words, one bit per 4 KiB page of the first 64 GiB; a set
    bit is a page in use. [pmm] holds the three static variables; the spinlock
    is not part of the state, each operation being one critical section.
    The abstract view of a state is the predicate [page_free]. *)

From S2P Require Import Prelude.

Module Pmm.
Local Open Scope c_scope.

(** ** Constants and boot information (include/os/bootinfo.h) *)

Definition OS_PAGE_SIZE : Z := 4096.
Definition OS_EARLY_DIRECT_MAP_SIZE : Z := 64 * 1024 * 1024 * 1024.
Definition PMM_ALLOC_FAILED : Z := UINT64_MAX.
Definition PMM_MAX_PHYS_BYTES : Z := OS_EARLY_DIRECT_MAP_SIZE.
Definition PMM_MAX_PAGES : Z := PMM_MAX_PHYS_BYTES / OS_PAGE_SIZE.
Definition BITMAP_WORD_BITS : Z := 64.
Definition PMM_BITMAP_WORDS : Z := PMM_MAX_PAGES / BITMAP_WORD_BITS.

Definition OS_EFI_LOADER_CODE : Z := 1.
Definition OS_EFI_LOADER_DATA : Z := 2.
Definition OS_EFI_BOOT_SERVICES_CODE : Z := 3.
Definition OS_EFI_BOOT_SERVICES_DATA : Z := 4.
Definition OS_EFI_CONVENTIONAL_MEMORY : Z := 7.

Record os_uefi_memory_descriptor := {
  type : Z;
  physical_start : Z;
  virtual_start : Z;
  number_of_pages : Z;
  attribute : Z;
}.

(** The fields the memory manager reads. [memory_map] is the memory the pointer
    designates: the descriptor found at a byte offset from it. *)
Record os_boot_info := {
  memory_map : Z -> os_uefi_memory_descriptor;
  memory_map_size : Z;
  memory_descriptor_size : Z;
  kernel_phys_start : Z;
  kernel_phys_end : Z;
  direct_map_base : Z;
  direct_map_size : Z;
  page_table_root : Z;
}.

(** ** State and operations *)

Record pmm := mk_pmm {
  pmm_bitmap : list Z;
  pmm_total : Z;
  pmm_free : Z;
}.

Definition word (st : pmm) (w : Z) : Z := aget 0 (pmm_bitmap st) w.

Definition set_word (st : pmm) (w v : Z) : pmm :=
  mk_pmm (aset (pmm_bitmap st) w v) (pmm_total st) (pmm_free st).

Definition set_free (st : pmm) (n : Z) : pmm :=
  mk_pmm (pmm_bitmap st) (pmm_total st) n.

Definition bitmap_set (st : pmm) (page : Z) : pmm :=
  set_word st (page / BITMAP_WORD_BITS)
    (word st (page / BITMAP_WORD_BITS) .| (1 .<< (page mod BITMAP_WORD_BITS))).

Definition bitmap_clear (st : pmm) (page : Z) : pmm :=
  set_word st (page / BITMAP_WORD_BITS)
    (word st (page / BITMAP_WORD_BITS) .& not64 (1 .<< (page mod BITMAP_WORD_BITS))).

Definition bitmap_test (st : pmm) (page : Z) : bool :=
  negb ((word st (page / BITMAP_WORD_BITS) .& (1 .<< (page mod BITMAP_WORD_BITS))) =? 0).

(** [for (page = first_page; page < last_page; ++page)], [n] iterations. *)
Fixpoint free_pages_loop (n : nat) (page : Z) (st : pmm) : pmm :=
  match n with
  | O => st
  | S n' =>
      let st' := if bitmap_test st page
                 then set_free (bitmap_clear st page) (u64 (pmm_free st + 1))
                 else st in
      free_pages_loop n' (page + 1) st'
  end.

Fixpoint use_pages_loop (n : nat) (page : Z) (st : pmm) : pmm :=
  match n with
  | O => st
  | S n' =>
      let st' := if negb (bitmap_test st page)
                 then set_free (bitmap_set st page) (u64 (pmm_free st - 1))
                 else st in
      use_pages_loop n' (page + 1) st'
  end.

Definition mark_range_free (start end_ : Z) (st : pmm) : pmm :=
  if PMM_MAX_PHYS_BYTES <=? start then st else
  let end_ := if PMM_MAX_PHYS_BYTES <? end_ then PMM_MAX_PHYS_BYTES else end_ in
  let first_page := u64 (start + OS_PAGE_SIZE - 1) / OS_PAGE_SIZE in
  let last_page := end_ / OS_PAGE_SIZE in
  free_pages_loop (Z.to_nat (last_page - first_page)) first_page st.

Definition mark_range_used (start end_ : Z) (st : pmm) : pmm :=
  if PMM_MAX_PHYS_BYTES <=? start then st else
  let end_ := if PMM_MAX_PHYS_BYTES <? end_ then PMM_MAX_PHYS_BYTES else end_ in
  let first_page := start / OS_PAGE_SIZE in
  let last_page := u64 (end_ + OS_PAGE_SIZE - 1) / OS_PAGE_SIZE in
  use_pages_loop (Z.to_nat (last_page - first_page)) first_page st.

Definition usable_type (t : Z) : bool :=
  (t =? OS_EFI_CONVENTIONAL_MEMORY) || (t =? OS_EFI_LOADER_CODE) ||
  (t =? OS_EFI_BOOT_SERVICES_CODE) || (t =? OS_EFI_BOOT_SERVICES_DATA).

(** The body of the loop over the memory map. *)
Definition add_descriptor (desc : os_uefi_memory_descriptor) (st : pmm) : pmm :=
  if usable_type (type desc)
  then mark_range_free (physical_start desc)
         (u64 (physical_start desc + u64 (number_of_pages desc * OS_PAGE_SIZE))) st
  else st.

(** [None]: the loop did not end within [fuel] iterations. *)
Fixpoint memory_map_loop (fuel : nat) (bi : os_boot_info) (offset : Z) (st : pmm) : option pmm :=
  if offset <? memory_map_size bi then
    match fuel with
    | O => None
    | S fuel' =>
        memory_map_loop fuel' bi (u64 (offset + memory_descriptor_size bi))
          (add_descriptor (memory_map bi offset) st)
    end
  else Some st.

Definition pmm_reset : pmm :=
  mk_pmm (replicate (Z.to_nat PMM_BITMAP_WORDS) UINT64_MAX) PMM_MAX_PAGES 0.

Definition reserve_boot_ranges (bi : os_boot_info) (st : pmm) : pmm :=
  mark_range_used (page_table_root bi) (u64 (page_table_root bi + OS_PAGE_SIZE))
    (mark_range_used (kernel_phys_start bi) (kernel_phys_end bi)
      (mark_range_used 0 0x100000 st)).

Definition pmm_init (bi : os_boot_info) : option (outcome pmm) :=
  match memory_map_loop (Z.to_nat (memory_map_size bi)) bi 0 pmm_reset with
  | None => None
  | Some st =>
      let st := reserve_boot_ranges bi st in
      if pmm_free st =? 0 then Some (Panic "PMM found no free pages") else Some (Ok st)
  end.

(** [__builtin_ctzll], defined for [x <> 0]: the index of the lowest set bit. *)
Definition ctzll (x : Z) : Z :=
  default 64 (find_slot (fun i => Z.testbit x i) (seqZ 0 64) 0).

(** The allocation loop: [word] is the index of the first word of [ws]. *)
Fixpoint alloc_scan (ws : list Z) (w : Z) : option (Z * Z) :=
  match ws with
  | [] => None
  | x :: ws' => if x =? UINT64_MAX then alloc_scan ws' (w + 1) else Some (w, ctzll (not64 x))
  end.

Definition pmm_alloc_page (st : pmm) : Z * pmm :=
  match alloc_scan (pmm_bitmap st) 0 with
  | Some (w, bit) =>
      let page := w * BITMAP_WORD_BITS + bit in
      (u64 (page * OS_PAGE_SIZE),
       set_free (set_word st w (word st w .| (1 .<< bit))) (u64 (pmm_free st - 1)))
  | None => (PMM_ALLOC_FAILED, st)
  end.

Definition pmm_free_page (physical_address : Z) : K pmm unit := fun st =>
  if negb (physical_address mod OS_PAGE_SIZE =? 0) || (PMM_MAX_PHYS_BYTES <=? physical_address)
  then Panic "invalid PMM free"
  else
    let page := physical_address / OS_PAGE_SIZE in
    if negb (bitmap_test st page) then Panic "double PMM free"
    else Ok (tt, set_free (bitmap_clear st page) (u64 (pmm_free st + 1))).

Definition pmm_total_pages (st : pmm) : Z := pmm_total st.
Definition pmm_free_pages (st : pmm) : Z := pmm_free st.
Definition pmm_address_in_range (physical_address : Z) : bool :=
  physical_address <? PMM_MAX_PHYS_BYTES.

(** ** Specification *)

Definition valid_page (p : Z) : Prop := 0 <= p < PMM_MAX_PAGES.

(** The abstract state: which pages are free. *)
Definition page_free (st : pmm) (p : Z) : Prop := valid_page p /\ bitmap_test st p = false.

Definition free_count (st : pmm) : nat :=
  length (List.filter (fun p => negb (bitmap_test st p)) (seqZ 0 PMM_MAX_PAGES)).

Arguments free_count : simpl never.

Record pmm_wf (st : pmm) : Prop := {
  wf_length : Z.of_nat (length (pmm_bitmap st)) = PMM_BITMAP_WORDS;
  wf_words : Forall is_u64 (pmm_bitmap st);
  wf_total : pmm_total st = PMM_MAX_PAGES;
  wf_count : pmm_free st = Z.of_nat (free_count st);
}.

(** A range of bytes that fully covers page [p], resp. touches it. *)
Definition covers_page (start end_ p : Z) : Prop :=
  start < PMM_MAX_PHYS_BYTES /\ start <= p * OS_PAGE_SIZE /\ (p + 1) * OS_PAGE_SIZE <= end_.
Definition touches_page (start end_ p : Z) : Prop :=
  start < (p + 1) * OS_PAGE_SIZE /\ p * OS_PAGE_SIZE < end_ /\ start < PMM_MAX_PHYS_BYTES.

Ltac pmm_consts :=
  unfold valid_page, PMM_BITMAP_WORDS, PMM_MAX_PAGES, PMM_MAX_PHYS_BYTES,
    OS_EARLY_DIRECT_MAP_SIZE, OS_PAGE_SIZE, BITMAP_WORD_BITS, PMM_ALLOC_FAILED in *.
Ltac pmm_lia := pmm_consts; unfold_int; lia.

(** ** Single bits *)

Lemma bitmap_test_testbit st p :
  0 <= p -> bitmap_test st p = Z.testbit (word st (p / 64)) (p mod 64).
Proof.
  intros Hp. unfold bitmap_test, BITMAP_WORD_BITS.
  set (w := word st (p / 64)). set (k := p mod 64). assert (0 <= k < 64) by (subst k; lia).
  destruct (Z.testbit w k) eqn:E.
  - apply negb_true_iff, Z.eqb_neq. intros H0.
    assert (Z.testbit (Z.land w (Z.shiftl 1 k)) k = false) as H1 by (rewrite H0; apply Z.bits_0).
    rewrite Z.land_spec, E, testbit_one_shift, bool_decide_true in H1 by lia. done.
  - apply negb_false_iff, Z.eqb_eq, Z.bits_inj'. intros i Hi.
    rewrite Z.land_spec, testbit_one_shift, Z.bits_0 by lia.
    case_bool_decide; subst; [by rewrite E|by rewrite andb_false_r].
Qed.

Lemma word_set_word st w w' v :
  0 <= w < Z.of_nat (length (pmm_bitmap st)) -> 0 <= w' ->
  word (set_word st w v) w' = if bool_decide (w = w') then v else word st w'.
Proof. intros. unfold word, set_word; simpl. by apply aget_aset. Qed.

Lemma word_set_free st n w : word (set_free st n) w = word st w.
Proof. done. Qed.

Lemma bitmap_test_set_free st n p : bitmap_test (set_free st n) p = bitmap_test st p.
Proof. done. Qed.

Lemma word_u64 st w : pmm_wf st -> is_u64 (word st w).
Proof. intros H. apply (Forall_aget_d is_u64); [apply wf_words, H|]. int_lia. Qed.

Section bits.
Context (st : pmm) (p : Z) (Hwf : pmm_wf st) (Hp : valid_page p).

Lemma page_word_range : 0 <= p / 64 < Z.of_nat (length (pmm_bitmap st)).
Proof. destruct Hwf as [Hl _ _ _]. rewrite Hl. pmm_lia. Qed.

Lemma page_index_eq q : 0 <= q -> (p / 64 = q / 64 /\ p mod 64 = q mod 64) <-> p = q.
Proof. intros. split; [|by intros ->]. pmm_lia. Qed.

Lemma bitmap_test_set q :
  0 <= q -> bitmap_test (bitmap_set st p) q = bool_decide (p = q) || bitmap_test st q.
Proof.
  intros Hq. rewrite !bitmap_test_testbit by done. unfold bitmap_set, BITMAP_WORD_BITS.
  rewrite word_set_word by (apply page_word_range || pmm_lia).
  pose proof (page_index_eq q Hq) as Hi.
  destruct (decide (p / 64 = q / 64)) as [Hw|Hw]; [rewrite bool_decide_true by done|].
  - rewrite Z.lor_spec, testbit_one_shift by pmm_lia. rewrite Hw, orb_comm. f_equal.
    apply bool_decide_ext. pmm_lia.
  - rewrite !bool_decide_false; [done| |done]. intros ->. done.
Qed.

Lemma bitmap_test_clear q :
  0 <= q -> bitmap_test (bitmap_clear st p) q = negb (bool_decide (p = q)) && bitmap_test st q.
Proof.
  intros Hq. rewrite !bitmap_test_testbit by done. unfold bitmap_clear, BITMAP_WORD_BITS.
  rewrite word_set_word by (apply page_word_range || pmm_lia).
  pose proof (page_index_eq q Hq) as Hi.
  destruct (decide (p / 64 = q / 64)) as [Hw|Hw]; [rewrite bool_decide_true by done|].
  - rewrite Z.land_spec, testbit_not64, testbit_one_shift by pmm_lia. rewrite Hw, andb_comm.
    do 2 f_equal. apply bool_decide_ext. pmm_lia.
  - rewrite !bool_decide_false; [done| |done]. intros ->. done.
Qed.

Lemma one_shift_u64 k : 0 <= k < 64 -> is_u64 (Z.shiftl 1 k).
Proof.
  intros. rewrite Z.shiftl_1_l. split; [apply Z.pow_nonneg; lia|].
  apply Z.pow_lt_mono_r; lia.
Qed.

End bits.

Lemma elem_of_pages p : p ∈ seqZ 0 PMM_MAX_PAGES <-> valid_page p.
Proof. rewrite elem_of_seqZ. pmm_lia. Qed.

(** ** The number of free pages *)

Lemma free_count_ext st st' :
  (forall p, valid_page p -> bitmap_test st p = bitmap_test st' p) -> free_count st = free_count st'.
Proof. intros H. apply count_ext. intros p Hp%elem_of_pages. by rewrite H. Qed.

Lemma free_count_flip st st' p :
  valid_page p -> bitmap_test st p = false -> bitmap_test st' p = true ->
  (forall q, valid_page q -> q <> p -> bitmap_test st' q = bitmap_test st q) ->
  free_count st = S (free_count st').
Proof.
  intros Hp H1 H2 H. eapply (count_flip _ _ _ p).
  - apply NoDup_seqZ.
  - by apply elem_of_pages.
  - by rewrite H1.
  - by rewrite H2.
  - intros q Hq%elem_of_pages Hne. by rewrite H.
Qed.

Lemma free_count_zero st : free_count st = 0%nat <-> forall p, ~ page_free st p.
Proof.
  unfold free_count. rewrite count_zero. split.
  - intros H p [Hp Ht]. apply elem_of_pages, H in Hp. rewrite Ht in Hp. done.
  - intros H p Hp%elem_of_pages. destruct (bitmap_test st p) eqn:E; [done|].
    exfalso. apply (H p). by split.
Qed.

Lemma free_count_max st : Z.of_nat (free_count st) <= PMM_MAX_PAGES.
Proof.
  pose proof (count_le (fun p => negb (bitmap_test st p)) (seqZ 0 PMM_MAX_PAGES)) as H.
  rewrite length_seqZ in H. unfold free_count. pmm_lia.
Qed.

Lemma free_count_mono st st' :
  (forall p, page_free st' p -> page_free st p) -> (free_count st' <= free_count st)%nat.
Proof.
  intros H. apply count_mono. intros p Hp%elem_of_pages Ht.
  destruct (H p) as [_ E]; [|by rewrite E]. split; [done|]. by destruct (bitmap_test st' p).
Qed.

#[global] Opaque free_count.

(** Both updates of the bitmap keep the shape of the state; the counter has to
    follow. *)
Lemma pmm_wf_update st w v n :
  pmm_wf st -> is_u64 v ->
  n = Z.of_nat (free_count (set_free (set_word st w v) n)) ->
  pmm_wf (set_free (set_word st w v) n).
Proof.
  intros [Hl Hw Ht _] Hv Hn. split; [|by apply Forall_aset|exact Ht|exact Hn].
  simpl. by rewrite aset_length.
Qed.

(** The two updates every operation is made of. *)
Definition take_page (st : pmm) (p : Z) : pmm :=
  set_free (bitmap_set st p) (u64 (pmm_free st - 1)).
Definition release_page (st : pmm) (p : Z) : pmm :=
  set_free (bitmap_clear st p) (u64 (pmm_free st + 1)).

Lemma take_page_test st p q :
  pmm_wf st -> valid_page p -> 0 <= q ->
  bitmap_test (take_page st p) q = bool_decide (p = q) || bitmap_test st q.
Proof. intros. by apply bitmap_test_set. Qed.

Lemma release_page_test st p q :
  pmm_wf st -> valid_page p -> 0 <= q ->
  bitmap_test (release_page st p) q = negb (bool_decide (p = q)) && bitmap_test st q.
Proof. intros. by apply bitmap_test_clear. Qed.

Lemma take_page_count st p :
  pmm_wf st -> page_free st p -> free_count st = S (free_count (take_page st p)).
Proof.
  intros Hwf [Hp Ht]. apply (free_count_flip _ _ p); [done|done| |].
  - by rewrite take_page_test, bool_decide_true by (done || pmm_lia).
  - intros q Hq Hne. by rewrite take_page_test, bool_decide_false by (done || pmm_lia).
Qed.

Lemma release_page_count st p :
  pmm_wf st -> valid_page p -> bitmap_test st p = true ->
  free_count (release_page st p) = S (free_count st).
Proof.
  intros Hwf Hp Ht. apply (free_count_flip _ _ p); [done| |done|].
  - by rewrite release_page_test, bool_decide_true by (done || pmm_lia).
  - intros q Hq Hne. by rewrite release_page_test, bool_decide_false by (done || pmm_lia).
Qed.

Lemma take_page_wf st p : pmm_wf st -> page_free st p -> pmm_wf (take_page st p).
Proof.
  intros Hwf Hp. pose proof (take_page_count st p Hwf Hp) as Hf.
  pose proof (wf_count st Hwf) as Hc. pose proof (free_count_max st) as Hm.
  destruct Hp as [Hp _]. apply pmm_wf_update; [done| |].
  - apply (lor_range 64); [lia|by apply word_u64|]. apply one_shift_u64. pmm_lia.
  - change (u64 (pmm_free st - 1) = Z.of_nat (free_count (take_page st p))). pmm_lia.
Qed.

Lemma release_page_wf st p :
  pmm_wf st -> valid_page p -> bitmap_test st p = true -> pmm_wf (release_page st p).
Proof.
  intros Hwf Hp Ht. pose proof (release_page_count st p Hwf Hp Ht) as Hf.
  pose proof (wf_count st Hwf) as Hc. pose proof (free_count_max (release_page st p)) as Hm.
  apply pmm_wf_update; [done| |].
  - apply (land_range_l 64); [lia|by apply word_u64].
  - change (u64 (pmm_free st + 1) = Z.of_nat (free_count (release_page st p))). pmm_lia.
Qed.

#[export] Hint Resolve take_page_wf release_page_wf : aether.

(** ** Allocation *)

Lemma aget_seqZ n i : 0 <= i < n -> aget 0 (seqZ 0 n) i = i.
Proof. intros. rewrite aget_lookup, lookup_seqZ_lt by lia. simpl. lia. Qed.

Lemma ctzll_spec x :
  is_u64 x -> x <> 0 ->
  0 <= ctzll x < 64 /\ Z.testbit x (ctzll x) = true /\
  forall i, 0 <= i < ctzll x -> Z.testbit x i = false.
Proof.
  intros Hx Hnz. unfold ctzll. destruct (find_slot _ _ _) as [k|] eqn:E; simpl.
  - apply (find_slot_Some _ 0) in E as (Hk & Hb & Hlt). rewrite length_seqZ in Hk.
    rewrite aget_seqZ in Hb by lia. split; [lia|]. split; [done|].
    intros i Hi. specialize (Hlt i Hi). by rewrite aget_seqZ in Hlt by lia.
  - apply find_slot_None_iff in E. exfalso. apply Hnz, bits_eq64; [done|int_lia|].
    intros i Hi. rewrite Z.bits_0. eapply Forall_seqZ in E; [exact E|lia].
Qed.

Lemma alloc_scan_Some ws k w bit :
  alloc_scan ws k = Some (w, bit) ->
  k <= w < k + Z.of_nat (length ws) /\ aget 0 ws (w - k) <> UINT64_MAX /\
  bit = ctzll (not64 (aget 0 ws (w - k))) /\
  forall i, 0 <= i < w - k -> aget 0 ws i = UINT64_MAX.
Proof.
  revert k. induction ws as [|x ws IH]; intros k H; simpl in *; [done|].
  destruct (Z.eqb_spec x UINT64_MAX) as [->|Hx].
  - apply IH in H as (Hw & Hne & Hb & Hlt). unfold aget in *.
    replace (Z.to_nat (w - k)) with (S (Z.to_nat (w - (k + 1)))) by lia. split; [lia|].
    split; [done|]. split; [done|]. intros i Hi.
    destruct (decide (i = 0)) as [->|]; [done|]. specialize (Hlt (i - 1) ltac:(lia)).
    by replace (Z.to_nat i) with (S (Z.to_nat (i - 1))) by lia.
  - simplify_eq. unfold aget. replace (Z.to_nat (w - w)) with 0%nat by lia. simpl.
    split; [lia|]. split; [done|]. split; [done|]. intros; lia.
Qed.

Lemma alloc_scan_None ws k : alloc_scan ws k = None -> Forall (eq UINT64_MAX) ws.
Proof.
  revert k. induction ws as [|x ws IH]; intros k H; simpl in *; [done|].
  destruct (Z.eqb_spec x UINT64_MAX) as [->|Hx]; [|done]. constructor; eauto.
Qed.

Lemma testbit_full i : 0 <= i < 64 -> Z.testbit UINT64_MAX i = true.
Proof.
  intros. replace UINT64_MAX with (Z.ones 64) by reflexivity. by apply Z.ones_spec_low.
Qed.

Lemma not64_not_full x : is_u64 x -> x <> UINT64_MAX -> not64 x <> 0.
Proof.
  intros Hx Hne H0. apply Hne, bits_eq64; [done|int_lia|]. intros i Hi.
  rewrite testbit_full by done. apply negb_false_iff.
  rewrite <- testbit_not64, H0 by done. apply Z.bits_0.
Qed.

(** The word and bit the scan stops at are those of the lowest free page. *)
Lemma alloc_scan_page st w bit :
  pmm_wf st -> alloc_scan (pmm_bitmap st) 0 = Some (w, bit) ->
  exists p, w = p / 64 /\ bit = p mod 64 /\ page_free st p /\
            forall q, page_free st q -> p <= q.
Proof.
  intros Hwf (Hw & Hne & -> & Hlt)%alloc_scan_Some. rewrite !Z.sub_0_r in *.
  set (x := aget 0 (pmm_bitmap st) w) in *.
  assert (is_u64 x) as Hx by by apply word_u64.
  destruct (ctzll_spec (not64 x)) as (Hb & Hset & Hlow); [apply u64_range|by apply not64_not_full|].
  rewrite (wf_length st Hwf) in Hw. set (b := ctzll (not64 x)) in *.
  rewrite testbit_not64 in Hset by done. apply negb_true_iff in Hset.
  assert (w = (w * 64 + b) / 64) as Hdiv by lia.
  assert (b = (w * 64 + b) mod 64) as Hmod by lia.
  exists (w * 64 + b). split; [done|]. split; [done|]. split.
  - split; [pmm_lia|]. rewrite bitmap_test_testbit, <- Hdiv, <- Hmod by lia. exact Hset.
  - intros q [Hq Hqf]. apply Z.nlt_ge. intros Hlq. rewrite bitmap_test_testbit in Hqf by pmm_lia.
    destruct (decide (q / 64 = w)) as [Heq|Hneq].
    + specialize (Hlow (q mod 64) ltac:(lia)). rewrite testbit_not64 in Hlow by lia.
      rewrite Heq in Hqf. change (word st w) with x in Hqf. rewrite Hqf in Hlow. done.
    + unfold word in Hqf. rewrite Hlt, testbit_full in Hqf by pmm_lia. done.
Qed.

Lemma pmm_alloc_page_cases st :
  pmm_wf st ->
  (exists p, page_free st p /\ (forall q, page_free st q -> p <= q) /\
             pmm_alloc_page st = (p * OS_PAGE_SIZE, take_page st p)) \/
  ((forall p, ~ page_free st p) /\ pmm_alloc_page st = (PMM_ALLOC_FAILED, st)).
Proof.
  intros Hwf. unfold pmm_alloc_page. destruct (alloc_scan _ _) as [[w bit]|] eqn:E.
  - left. apply alloc_scan_page in E as (p & -> & -> & Hfree & Hmin); [|done].
    exists p. split; [done|]. split; [done|]. destruct Hfree as [Hp _].
    replace (p / 64 * BITMAP_WORD_BITS + p mod 64) with p by pmm_lia.
    by rewrite u64_small by pmm_lia.
  - right. split; [|done]. apply alloc_scan_None in E. intros p [Hp Ht].
    rewrite bitmap_test_testbit in Ht by pmm_lia.
    replace (word st (p / 64)) with UINT64_MAX in Ht.
    + rewrite testbit_full in Ht by lia. done.
    + apply (Forall_aget (eq UINT64_MAX)); [done|by apply page_word_range].
Qed.

Lemma page_free_take st p q :
  pmm_wf st -> valid_page p -> page_free (take_page st p) q <-> page_free st q /\ q <> p.
Proof.
  intros Hwf Hp. unfold page_free. split.
  - intros [Hq H]. rewrite take_page_test in H by (done || pmm_lia).
    case_bool_decide; [done|]. naive_solver.
  - intros [[Hq H] Hne]. split; [done|].
    by rewrite take_page_test, bool_decide_false by (done || pmm_lia).
Qed.

Lemma page_free_release st p q :
  pmm_wf st -> valid_page p -> page_free (release_page st p) q <-> page_free st q \/ q = p.
Proof.
  intros Hwf Hp. unfold page_free. split.
  - intros [Hq H]. rewrite release_page_test in H by (done || pmm_lia).
    case_bool_decide; [by right|]. by left.
  - intros [[Hq H]| ->]; (split; [done|]);
      rewrite release_page_test by (done || pmm_lia); [by rewrite H, andb_false_r|].
    by rewrite bool_decide_true.
Qed.

(** C34. From any well-formed state [pmm_alloc_page] either returns the physical
    address of the lowest free page, which is then the only page whose status
    changed and the free counter is one less, or returns [PMM_ALLOC_FAILED]
    with the state untouched, and that only when no page is free. *)
Theorem pmm_alloc_page_correct st :
  pmm_wf st ->
  let '(a, st') := pmm_alloc_page st in
  pmm_wf st' /\
  ((a = PMM_ALLOC_FAILED /\ st' = st /\ forall p, ~ page_free st p) \/
   (exists p, a = p * OS_PAGE_SIZE /\ page_free st p /\ (forall q, page_free st q -> p <= q) /\
              pmm_free_pages st' = pmm_free_pages st - 1 /\
              forall q, page_free st' q <-> page_free st q /\ q <> p)).
Proof.
  intros Hwf. destruct (pmm_alloc_page_cases st Hwf) as [(p & Hp & Hmin & ->)|(Hno & ->)].
  - pose proof (take_page_wf st p Hwf Hp) as Hwf'. split; [done|]. right. exists p.
    split; [done|]. split; [done|]. split; [done|]. split.
    + unfold pmm_free_pages. rewrite (wf_count _ Hwf), (wf_count _ Hwf'), (take_page_count st p) by done. lia.
    + intros q. apply page_free_take; [done|apply Hp].
  - split; [done|]. left. done.
Qed.

Lemma pmm_free_page_Ok st p :
  pmm_wf st -> valid_page p -> bitmap_test st p = true ->
  pmm_free_page (p * OS_PAGE_SIZE) st = Ok (tt, release_page st p).
Proof.
  intros Hwf Hp Ht. unfold pmm_free_page.
  replace (p * OS_PAGE_SIZE / OS_PAGE_SIZE) with p by pmm_lia. rewrite Ht. simpl.
  replace (p * OS_PAGE_SIZE mod OS_PAGE_SIZE) with 0 by pmm_lia.
  by rewrite (proj2 (Z.leb_gt _ _)) by pmm_lia.
Qed.

(** C35. [pmm_free_page] on every branch: it panics with "invalid PMM free" for a
    misaligned or out-of-range address and with "double PMM free" for a free
    page; otherwise exactly that page becomes free and the counter grows by one. *)
Theorem pmm_free_page_correct st a :
  pmm_wf st -> 0 <= a ->
  match pmm_free_page a st with
  | Panic msg =>
      (msg = "invalid PMM free"%string /\ (a mod OS_PAGE_SIZE <> 0 \/ PMM_MAX_PHYS_BYTES <= a)) \/
      (msg = "double PMM free"%string /\ a mod OS_PAGE_SIZE = 0 /\ page_free st (a / OS_PAGE_SIZE))
  | Ok (_, st') =>
      a mod OS_PAGE_SIZE = 0 /\ valid_page (a / OS_PAGE_SIZE) /\ ~ page_free st (a / OS_PAGE_SIZE) /\
      pmm_wf st' /\ pmm_free_pages st' = pmm_free_pages st + 1 /\
      forall q, page_free st' q <-> page_free st q \/ q = a / OS_PAGE_SIZE
  end.
Proof.
  intros Hwf Ha. unfold pmm_free_page.
  destruct (Z.eqb_spec (a mod OS_PAGE_SIZE) 0) as [Hal|]; cbn [negb orb]; [|by left; auto].
  destruct (Z.leb_spec PMM_MAX_PHYS_BYTES a); [by left; auto|].
  assert (valid_page (a / OS_PAGE_SIZE)) as Hp by pmm_lia.
  destruct (bitmap_test st (a / OS_PAGE_SIZE)) eqn:Ht; cbn [negb]; [|by right].
  fold (release_page st (a / OS_PAGE_SIZE)).
  pose proof (release_page_wf st _ Hwf Hp Ht) as Hwf'. split; [done|]. split; [done|].
  split; [by intros [_ ?]; congruence|]. split; [done|]. split.
  - unfold pmm_free_pages. rewrite (wf_count _ Hwf), (wf_count _ Hwf'), release_page_count by done. lia.
  - intros q. by apply page_free_release.
Qed.

(** A well-formed state is determined by the status of its pages. *)
Lemma pmm_ext st st' :
  pmm_wf st -> pmm_wf st' ->
  (forall p, valid_page p -> bitmap_test st p = bitmap_test st' p) -> st = st'.
Proof.
  intros Hwf Hwf' H. assert (pmm_bitmap st = pmm_bitmap st') as Hb.
  { pose proof (wf_length _ Hwf) as Hl. pose proof (wf_length _ Hwf') as Hl'.
    apply (aget_ext 0); [lia|]. intros w Hw. rewrite Hl in Hw. clear Hl Hl'.
    apply bits_eq64; [by apply (word_u64 st)|by apply (word_u64 st')|]. intros i Hi.
    specialize (H (w * 64 + i)). rewrite !bitmap_test_testbit in H by lia.
    replace ((w * 64 + i) / 64) with w in H by lia.
    replace ((w * 64 + i) mod 64) with i in H by lia. apply H. pmm_lia. }
  pose proof (free_count_ext _ _ H) as Hc. destruct Hwf as [_ _ Ht Hf], Hwf' as [_ _ Ht' Hf'].
  destruct st, st'. simpl in *. congruence.
Qed.

Lemma release_take st p : pmm_wf st -> page_free st p -> release_page (take_page st p) p = st.
Proof.
  intros Hwf Hp. pose proof (take_page_wf st p Hwf Hp) as Hwf'. destruct Hp as [Hp Ht].
  assert (0 <= p) as Hp0 by apply Hp.
  assert (bitmap_test (take_page st p) p = true) as Ht'.
  { by rewrite take_page_test, bool_decide_true. }
  apply pmm_ext; [by apply release_page_wf|done|]. intros q Hq. assert (0 <= q) by apply Hq.
  rewrite release_page_test, take_page_test by done. case_bool_decide; [by subst|done].
Qed.

(** Allocating a page and freeing it again gives back the very state before
    the allocation: bitmap, total and counter. *)
Theorem pmm_alloc_free_roundtrip st a st' :
  pmm_wf st -> pmm_alloc_page st = (a, st') -> a <> PMM_ALLOC_FAILED ->
  pmm_free_page a st' = Ok (tt, st).
Proof.
  intros Hwf Ha Hne. destruct (pmm_alloc_page_cases st Hwf) as [(p & Hp & _ & E)|(_ & E)]; [|congruence].
  rewrite E in Ha. simplify_eq. rewrite pmm_free_page_Ok.
  - by rewrite release_take.
  - by apply take_page_wf.
  - apply Hp.
  - destruct Hp as [Hp _]. by rewrite take_page_test, bool_decide_true by (done || pmm_lia).
Qed.

(** ** Ranges *)

Lemma free_pages_loop_correct n page st :
  pmm_wf st -> 0 <= page -> page + Z.of_nat n <= PMM_MAX_PAGES ->
  pmm_wf (free_pages_loop n page st) /\
  forall q, page_free (free_pages_loop n page st) q <->
            page_free st q \/ page <= q < page + Z.of_nat n.
Proof.
  revert page st. induction n as [|n IH]; intros page st Hwf Hp Hn; simpl.
  { split; [done|]. intros q. split; [auto|]. intros [?|?]; [done|lia]. }
  assert (valid_page page) as Hv by (unfold valid_page; lia).
  set (st1 := if bitmap_test st page then _ else _).
  assert (pmm_wf st1 /\ forall q, page_free st1 q <-> page_free st q \/ q = page) as [Hwf1 Hf1].
  { subst st1. destruct (bitmap_test st page) eqn:Ht.
    - split; [by apply release_page_wf|]. intros q. by apply page_free_release.
    - split; [done|]. intros q. split; [auto|]. intros [?| ->]; [done|]. by split. }
  destruct (IH (page + 1) st1 Hwf1) as [Hwf2 Hf2]; [lia..|]. split; [done|].
  intros q. rewrite Hf2, Hf1. intuition lia.
Qed.

Lemma use_pages_loop_correct n page st :
  pmm_wf st -> 0 <= page -> page + Z.of_nat n <= PMM_MAX_PAGES ->
  pmm_wf (use_pages_loop n page st) /\
  forall q, page_free (use_pages_loop n page st) q <->
            page_free st q /\ ~ (page <= q < page + Z.of_nat n).
Proof.
  revert page st. induction n as [|n IH]; intros page st Hwf Hp Hn; simpl.
  { split; [done|]. intros q. split; [intros; split; [done|lia]|]. by intros [??]. }
  assert (valid_page page) as Hv by (unfold valid_page; lia).
  set (st1 := if negb (bitmap_test st page) then _ else _).
  assert (pmm_wf st1 /\ forall q, page_free st1 q <-> page_free st q /\ q <> page) as [Hwf1 Hf1].
  { subst st1. destruct (bitmap_test st page) eqn:Ht; simpl.
    - split; [done|]. intros q. split; [|by intros [??]]. intros Hq. split; [done|].
      intros ->. destruct Hq. congruence.
    - split; [by apply take_page_wf|]. intros q. by apply page_free_take. }
  destruct (IH (page + 1) st1 Hwf1) as [Hwf2 Hf2]; [lia..|]. split; [done|].
  intros q. rewrite Hf2, Hf1. intuition lia.
Qed.

Lemma mark_range_free_correct start end_ st :
  pmm_wf st -> 0 <= start ->
  pmm_wf (mark_range_free start end_ st) /\
  forall q, page_free (mark_range_free start end_ st) q <->
            page_free st q \/ (valid_page q /\ covers_page start end_ q).
Proof.
  intros Hwf Hs. unfold mark_range_free, covers_page.
  destruct (Z.leb_spec PMM_MAX_PHYS_BYTES start) as [Hge|Hlt].
  { split; [done|]. intros q. split; [auto|]. intros [?|?]; [done|lia]. }
  set (e := if PMM_MAX_PHYS_BYTES <? end_ then PMM_MAX_PHYS_BYTES else end_).
  assert (e <= PMM_MAX_PHYS_BYTES) as He by (subst e; destruct (Z.ltb_spec PMM_MAX_PHYS_BYTES end_); lia).
  set (f := u64 _ / _). assert (0 <= f) as Hf by (subst f; pmm_lia).
  destruct (decide (e / OS_PAGE_SIZE <= f)) as [Hle|Hgt].
  { replace (Z.to_nat (e / OS_PAGE_SIZE - f)) with 0%nat by lia. split; [done|].
    intros q. split; [auto|]. intros [?|[Hq Hc]]; [done|]. exfalso.
    subst e f. destruct (Z.ltb_spec PMM_MAX_PHYS_BYTES end_); pmm_lia. }
  destruct (free_pages_loop_correct (Z.to_nat (e / OS_PAGE_SIZE - f)) f st) as [Hwf' Hfree];
    [done|done|pmm_lia|]. split; [done|]. intros q. rewrite Hfree.
  apply or_iff_compat_l. subst e f. destruct (Z.ltb_spec PMM_MAX_PHYS_BYTES end_); pmm_lia.
Qed.

Lemma mark_range_used_correct start end_ st :
  pmm_wf st -> 0 <= start -> is_u64 end_ ->
  pmm_wf (mark_range_used start end_ st) /\
  forall q, page_free (mark_range_used start end_ st) q <->
            page_free st q /\ ~ touches_page start end_ q.
Proof.
  intros Hwf Hs Hend. unfold mark_range_used, touches_page.
  destruct (Z.leb_spec PMM_MAX_PHYS_BYTES start) as [Hge|Hlt].
  { split; [done|]. intros q. split; [intros; split; [done|lia]|by intros [??]]. }
  set (e := if PMM_MAX_PHYS_BYTES <? end_ then PMM_MAX_PHYS_BYTES else end_).
  assert (0 <= e <= PMM_MAX_PHYS_BYTES) as He
    by (subst e; destruct (Z.ltb_spec PMM_MAX_PHYS_BYTES end_); pmm_lia).
  set (l := u64 _ / _). assert (l = (e + OS_PAGE_SIZE - 1) / OS_PAGE_SIZE) as Hl.
  { subst l. rewrite u64_small by pmm_lia. done. }
  clearbody l. subst l. set (l := (_ + _ - 1) / _).
  assert (forall q, valid_page q ->
    start / OS_PAGE_SIZE <= q < l <-> start < (q + 1) * OS_PAGE_SIZE /\ q * OS_PAGE_SIZE < end_) as Hq.
  { intros q Hq. subst l e. destruct (Z.ltb_spec PMM_MAX_PHYS_BYTES end_); pmm_lia. }
  destruct (decide (l <= start / OS_PAGE_SIZE)) as [Hle|Hgt].
  { replace (Z.to_nat (l - start / OS_PAGE_SIZE)) with 0%nat by lia. split; [done|].
    intros q. split; [|by intros [??]]. intros Hqf. split; [done|].
    specialize (Hq q (proj1 Hqf)). lia. }
  destruct (use_pages_loop_correct (Z.to_nat (l - start / OS_PAGE_SIZE)) (start / OS_PAGE_SIZE) st)
    as [Hwf' Hfree]; [done|pmm_lia|subst l; pmm_lia|]. split; [done|]. intros q. rewrite Hfree.
  split; intros [Hqf Hno]; (split; [done|]); specialize (Hq q (proj1 Hqf)); lia.
Qed.

(** ** Initialisation *)

(** What the bootloader hands over: sizes that do not wrap the offset, and
    64-bit addresses. *)
Record boot_info_wf (bi : os_boot_info) : Prop := {
  bi_stride : 0 < memory_descriptor_size bi;
  bi_size : 0 <= memory_map_size bi /\ memory_map_size bi + memory_descriptor_size bi < 2 ^ 64;
  bi_desc : forall o, is_u64 (physical_start (memory_map bi o));
  bi_kernel : is_u64 (kernel_phys_start bi) /\ is_u64 (kernel_phys_end bi);
  bi_root : is_u64 (page_table_root bi);
}.

Definition desc_end (d : os_uefi_memory_descriptor) : Z :=
  u64 (physical_start d + u64 (number_of_pages d * OS_PAGE_SIZE)).

(** Page [q] lies wholly inside usable memory described at or after [offset]. *)
Definition described (bi : os_boot_info) (offset q : Z) : Prop :=
  exists k, 0 <= k /\ offset + k * memory_descriptor_size bi < memory_map_size bi /\
    let d := memory_map bi (offset + k * memory_descriptor_size bi) in
    usable_type (type d) = true /\ covers_page (physical_start d) (desc_end d) q.

Definition reserved (bi : os_boot_info) (q : Z) : Prop :=
  touches_page 0 0x100000 q \/
  touches_page (kernel_phys_start bi) (kernel_phys_end bi) q \/
  touches_page (page_table_root bi) (u64 (page_table_root bi + OS_PAGE_SIZE)) q.

Lemma described_step bi offset q :
  0 < memory_descriptor_size bi -> offset < memory_map_size bi ->
  described bi offset q <->
  (usable_type (type (memory_map bi offset)) = true /\
   covers_page (physical_start (memory_map bi offset)) (desc_end (memory_map bi offset)) q) \/
  described bi (offset + memory_descriptor_size bi) q.
Proof.
  intros Hs Ho. unfold described. split.
  - intros (k & Hk & Hlt & Hd). destruct (decide (k = 0)) as [->|].
    + left. by rewrite Z.mul_0_l, Z.add_0_r in Hd.
    + right. exists (k - 1).
      replace (offset + memory_descriptor_size bi + (k - 1) * memory_descriptor_size bi)
        with (offset + k * memory_descriptor_size bi) by lia. auto with lia.
  - intros [Hd|(k & Hk & Hlt & Hd)].
    + exists 0. by rewrite Z.mul_0_l, Z.add_0_r.
    + exists (k + 1). replace (offset + (k + 1) * memory_descriptor_size bi)
        with (offset + memory_descriptor_size bi + k * memory_descriptor_size bi) by lia. auto with lia.
Qed.

Lemma add_descriptor_correct d st :
  pmm_wf st -> is_u64 (physical_start d) ->
  pmm_wf (add_descriptor d st) /\
  forall q, page_free (add_descriptor d st) q <->
    page_free st q \/ (valid_page q /\ usable_type (type d) = true /\ covers_page (physical_start d) (desc_end d) q).
Proof.
  intros Hwf Hd. unfold add_descriptor. destruct (usable_type (type d)).
  - destruct (mark_range_free_correct (physical_start d) (desc_end d) st Hwf) as [H1 H2]; [int_lia|].
    split; [done|]. intros q. rewrite H2. tauto.
  - split; [done|]. intros q. intuition congruence.
Qed.

Lemma memory_map_loop_correct bi : boot_info_wf bi -> forall fuel offset st,
  pmm_wf st -> 0 <= offset -> memory_map_size bi - offset <= Z.of_nat fuel ->
  exists st', memory_map_loop fuel bi offset st = Some st' /\ pmm_wf st' /\
    forall q, page_free st' q <-> page_free st q \/ (valid_page q /\ described bi offset q).
Proof.
  intros [Hs [Hz1 Hz2] Hd _ _]. induction fuel as [|fuel IH]; intros offset st Hwf Ho Hf; simpl;
    (destruct (Z.ltb_spec offset (memory_map_size bi)) as [Hlt|Hge]; [try lia|]).
  1, 3: exists st; split; [done|]; split; [done|]; intros q; split; [by left|];
        intros [?|(_ & k & Hk & ? & _)]; [done|nia].
  destruct (add_descriptor_correct (memory_map bi offset) st Hwf (Hd offset)) as [Hwf1 Hf1].
  rewrite u64_small by int_lia.
  destruct (IH (offset + memory_descriptor_size bi) _ Hwf1) as (st' & E & Hwf' & Hf'); [lia..|].
  exists st'. split; [done|]. split; [done|]. intros q. rewrite Hf', Hf1, (described_step bi offset) by lia.
  tauto.
Qed.

Lemma pmm_reset_wf : pmm_wf pmm_reset /\ forall q, ~ page_free pmm_reset q.
Proof.
  assert (forall q, valid_page q -> bitmap_test pmm_reset q = true) as Hall.
  { intros q Hq. rewrite bitmap_test_testbit by apply Hq.
    unfold word, pmm_reset. cbn [pmm_bitmap]. rewrite aget_lookup.
    rewrite (proj2 (lookup_replicate _ _ _ _)) by (split; [done|pmm_lia]).
    cbn [default]. apply testbit_full. lia. }
  assert (forall q, ~ page_free pmm_reset q) as Hno by (intros q [Hq Ht]; rewrite Hall in Ht; done).
  split; [|done]. split.
  - unfold pmm_reset. cbn [pmm_bitmap]. rewrite length_replicate. pmm_lia.
  - unfold pmm_reset. cbn [pmm_bitmap]. apply Forall_replicate. int_lia.
  - done.
  - rewrite (proj2 (free_count_zero _) Hno). done.
Qed.

Lemma reserve_boot_ranges_correct bi st :
  boot_info_wf bi -> pmm_wf st ->
  pmm_wf (reserve_boot_ranges bi st) /\
  forall q, page_free (reserve_boot_ranges bi st) q <-> page_free st q /\ ~ reserved bi q.
Proof.
  intros [_ _ _ [Hk1 Hk2] Hr] Hwf. unfold reserve_boot_ranges, reserved.
  destruct (mark_range_used_correct 0 0x100000 st Hwf) as [Hwf1 H1]; [int_lia..|].
  destruct (mark_range_used_correct _ _ _ Hwf1 (proj1 Hk1) Hk2) as [Hwf2 H2].
  destruct (mark_range_used_correct _ (u64 (page_table_root bi + OS_PAGE_SIZE)) _ Hwf2 (proj1 Hr))
    as [Hwf3 H3]; [apply u64_range|].
  split; [done|]. intros q. rewrite H3, H2, H1. tauto.
Qed.

(** [pmm_init] terminates for every boot information whose descriptor stride
    is positive and whose offsets do not wrap. It succeeds with a well-formed
    allocator in which the free pages are exactly those that lie wholly inside
    usable memory and touch neither the first MiB, nor the kernel image, nor the
    page-table root; it panics exactly when there is no such page. *)
Theorem pmm_init_correct bi :
  boot_info_wf bi ->
  match pmm_init bi with
  | Some (Ok st) =>
      pmm_wf st /\ (forall q, page_free st q <-> valid_page q /\ described bi 0 q /\ ~ reserved bi q) /\
      0 < pmm_free_pages st
  | Some (Panic _) => forall q, ~ (valid_page q /\ described bi 0 q /\ ~ reserved bi q)
  | None => False
  end.
Proof.
  intros Hbi. destruct pmm_reset_wf as [Hwf0 H0]. unfold pmm_init.
  destruct (memory_map_loop_correct bi Hbi (Z.to_nat (memory_map_size bi)) 0 pmm_reset Hwf0)
    as (st1 & -> & Hwf1 & H1); [lia|destruct Hbi; lia|].
  destruct (reserve_boot_ranges_correct bi st1 Hbi Hwf1) as [Hwf2 H2].
  set (st := reserve_boot_ranges bi st1) in *.
  assert (forall q, page_free st q <-> valid_page q /\ described bi 0 q /\ ~ reserved bi q) as H.
  { intros q. rewrite H2, H1. specialize (H0 q). tauto. }
  pose proof (wf_count _ Hwf2) as Hc. destruct (Z.eqb_spec (pmm_free st) 0) as [Hz|Hnz].
  - intros q Hq. apply H in Hq. revert q Hq. apply free_count_zero. lia.
  - split; [done|]. split; [done|]. unfold pmm_free_pages. lia.
Qed.

(** ** Concrete instances *)

(** A machine whose only free page is the one at 1 MiB. *)
Definition one_free : pmm := release_page pmm_reset 256.

Lemma one_free_wf : pmm_wf one_free.
Proof.
  destruct pmm_reset_wf as [Hwf Hno]. apply release_page_wf; [done|pmm_lia|].
  destruct (bitmap_test pmm_reset 256) eqn:E; [done|]. exfalso. apply (Hno 256). split; [pmm_lia|done].
Qed.

Lemma one_free_page q : page_free one_free q <-> q = 256.
Proof.
  destruct pmm_reset_wf as [Hwf Hno]. unfold one_free. rewrite page_free_release by (done || pmm_lia).
  specialize (Hno q). tauto.
Qed.

Lemma pmm_alloc_page_one_free : pmm_alloc_page one_free = (0x100000, take_page one_free 256).
Proof.
  destruct (pmm_alloc_page_cases _ one_free_wf) as [(p & Hp & _ & E)|(Hno & _)].
  - apply one_free_page in Hp as ->. exact E.
  - exfalso. apply (Hno 256). by apply one_free_page.
Qed.

Lemma pmm_alloc_page_correct_witness :
  pmm_wf one_free /\
  let '(a, st') := pmm_alloc_page one_free in
  pmm_wf st' /\
  ((a = PMM_ALLOC_FAILED /\ st' = one_free /\ forall p, ~ page_free one_free p) \/
   (exists p, a = p * OS_PAGE_SIZE /\ page_free one_free p /\ (forall q, page_free one_free q -> p <= q) /\
              pmm_free_pages st' = pmm_free_pages one_free - 1 /\
              forall q, page_free st' q <-> page_free one_free q /\ q <> p)).
Proof. split; [exact one_free_wf|]. exact (pmm_alloc_page_correct one_free one_free_wf). Defined.

Lemma pmm_free_page_correct_witness :
  match pmm_free_page 0x100000 (take_page one_free 256) with
  | Panic _ => True
  | Ok (_, st') => pmm_wf st'
  end.
Proof.
  assert (pmm_wf (take_page one_free 256)) as Hwf.
  { apply take_page_wf; [exact one_free_wf|]. by apply one_free_page. }
  pose proof (pmm_free_page_correct (take_page one_free 256) 0x100000 Hwf ltac:(lia)) as H.
  destruct (pmm_free_page _ _) as [[[] st']|]; [apply H|exact I].
Defined.

Lemma pmm_alloc_free_roundtrip_witness :
  pmm_free_page 0x100000 (take_page one_free 256) = Ok (tt, one_free).
Proof.
  apply (pmm_alloc_free_roundtrip one_free 0x100000); [exact one_free_wf|exact pmm_alloc_page_one_free|].
  unfold PMM_ALLOC_FAILED. int_lia.
Defined.

(** 2 MiB of conventional memory, the kernel at 1.5 MiB. *)
Definition small_machine : os_boot_info := {|
  memory_map := fun _ => {| type := 7; physical_start := 0; virtual_start := 0;
                            number_of_pages := 512; attribute := 0 |};
  memory_map_size := 48;
  memory_descriptor_size := 48;
  kernel_phys_start := 0x180000;
  kernel_phys_end := 0x190000;
  direct_map_base := 0xffff800000000000;
  direct_map_size := OS_EARLY_DIRECT_MAP_SIZE;
  page_table_root := 0x1a0000;
|}.

Lemma small_machine_wf : boot_info_wf small_machine.
Proof. split; unfold small_machine; simpl; intros; int_lia. Qed.

Lemma small_machine_described q : described small_machine 0 q <-> 0 <= q < 512.
Proof.
  split.
  - intros (k & Hk & Hlt & _ & Hc). revert Hc. unfold covers_page, desc_end. simpl. pmm_lia.
  - intros Hq. exists 0. split; [lia|]. split; [simpl; lia|]. split; [reflexivity|].
    unfold covers_page, desc_end. simpl. pmm_lia.
Qed.

Lemma small_machine_reserved q :
  0 <= q -> reserved small_machine q <-> 0 <= q < 256 \/ 0x180 <= q < 0x190 \/ q = 0x1a0.
Proof. intros Hq. unfold reserved, touches_page. simpl. pmm_lia. Qed.

Lemma small_machine_free q :
  valid_page q /\ described small_machine 0 q /\ ~ reserved small_machine q <->
  256 <= q < 512 /\ ~ (0x180 <= q < 0x190) /\ q <> 0x1a0.
Proof.
  rewrite small_machine_described. split.
  - intros (Hv & Hd & Hr). rewrite small_machine_reserved in Hr by lia. lia.
  - intros Hq. rewrite small_machine_reserved by lia. pmm_lia.
Qed.

Lemma pmm_init_correct_witness :
  match pmm_init small_machine with
  | Some (Ok st) => page_free st 256 /\ ~ page_free st 0x180 /\ ~ page_free st 0x1a0 /\ ~ page_free st 0
  | _ => False
  end.
Proof.
  pose proof (pmm_init_correct small_machine small_machine_wf) as H. revert H.
  destruct (pmm_init small_machine) as [[st|msg]|]; intros H; [|exfalso; apply (H 256)|exact H].
  - destruct H as (_ & H & _). rewrite !H, !small_machine_free. clear H. lia.
  - rewrite small_machine_free. clear H. lia.
Defined.
End Pmm.
