(* ===== verification/Vmm.v ===== *)
(** * Page tables

    Models [kernel/mem/vmm.c]. Physical memory is a function from the physical
    address of a quadword to its value; a [uint64_t *] obtained with
    [phys_to_virt] is represented by the physical address it stands for, NULL
    by [None]. The state holds the statics of the file, physical memory and the
    page allocator. [read_cr3] is an argument of [vmm_init]; [invlpg] and the
    write of CR3 have no effect on this state. *)

From S2P Require Import Prelude Pmm.
Import Pmm.

Module Vmm.

Definition PAGE_PRESENT : Z := 0x001.
Definition PAGE_WRITABLE : Z := 0x002.
Definition PAGE_LARGE : Z := 0x080.
Definition PAGE_MASK : Z := 0x000ffffffffff000.
Definition INDEX_MASK : Z := 0x1ff.
Definition VMM_WRITABLE : Z := 0x002.
Definition VMM_USER : Z := 0x004.

(** Quadwords of physical memory. *)
Definition ram_t : Type := Z -> Z.
Definition store (r : ram_t) (a v : Z) : ram_t := fun b => if b =? a then v else r b.

Record vmm := mk_vmm {
  active_pml4_phys : Z;
  vdirect_map : Z;
  vdirect_map_size : Z;
  ram : ram_t;
  vpmm : pmm;
}.

Definition set_ram (st : vmm) (r : ram_t) : vmm :=
  mk_vmm (active_pml4_phys st) (vdirect_map st) (vdirect_map_size st) r (vpmm st).
Definition set_pmm (st : vmm) (p : pmm) : vmm :=
  mk_vmm (active_pml4_phys st) (vdirect_map st) (vdirect_map_size st) (ram st) p.

(** [table[index]] as an rvalue and as an assignment. *)
Definition load_entry (table index : Z) : K vmm Z := gets (fun st => ram st (table + 8 * index)).
Definition store_entry (table index v : Z) : K vmm unit :=
  modify (fun st => set_ram st (store (ram st) (table + 8 * index) v)).

(** The page allocator's operations on the whole state. *)
Definition alloc_page : K vmm Z := fun st =>
  let '(a, p) := pmm_alloc_page (vpmm st) in Ok (a, set_pmm st p).
Definition free_page (a : Z) : K vmm unit := fun st =>
  match pmm_free_page a (vpmm st) with
  | Ok (_, p) => Ok (tt, set_pmm st p)
  | Panic msg => Panic msg
  end.

Definition present (e : Z) : bool := negb (Z.land e PAGE_PRESENT =? 0).
Definition large (e : Z) : bool := negb (Z.land e PAGE_LARGE =? 0).
Definition masked (e : Z) : Z := Z.land e PAGE_MASK.

Definition phys_to_virt (physical_address : Z) : K vmm Z := fun st =>
  if vdirect_map_size st <=? physical_address
  then Panic "page table outside early direct map"
  else Ok (physical_address, st).

Definition vmm_init (cr3 : Z) (boot_info : os_boot_info) (r : ram_t) (p : pmm) : outcome vmm :=
  let st := mk_vmm (masked cr3) (direct_map_base boot_info) (direct_map_size boot_info) r p in
  if negb (active_pml4_phys st =? page_table_root boot_info)
  then Panic "bootloader page-table handoff mismatch"
  else Ok st.

Definition pml4_index (virt : Z) : Z := Z.land (Z.shiftr virt 39) INDEX_MASK.
Definition pdpt_index (virt : Z) : Z := Z.land (Z.shiftr virt 30) INDEX_MASK.
Definition pd_index (virt : Z) : Z := Z.land (Z.shiftr virt 21) INDEX_MASK.
Definition pt_index (virt : Z) : Z := Z.land (Z.shiftr virt 12) INDEX_MASK.

(** [None] is [return false]. *)
Definition vmm_virt_to_phys (virtual_address : Z) : K vmm (option Z) :=
  active ← gets active_pml4_phys;
  pml4 ← phys_to_virt active;
  pml4e ← load_entry pml4 (pml4_index virtual_address);
  if negb (present pml4e) then mret None else
  pdpt ← phys_to_virt (masked pml4e);
  pdpte ← load_entry pdpt (pdpt_index virtual_address);
  if negb (present pdpte) then mret None else
  if large pdpte then mret (Some (u64 (masked pdpte + Z.land virtual_address 0x3fffffff))) else
  pd ← phys_to_virt (masked pdpte);
  pde ← load_entry pd (pd_index virtual_address);
  if negb (present pde) then mret None else
  if large pde then mret (Some (u64 (masked pde + Z.land virtual_address 0x1fffff))) else
  pt ← phys_to_virt (masked pde);
  pte ← load_entry pt (pt_index virtual_address);
  if negb (present pte) then mret None else
  mret (Some (u64 (masked pte + Z.land virtual_address 0xfff))).

Definition vmm_direct_map_base (st : vmm) : Z := vdirect_map st.
Definition vmm_pml4_phys (st : vmm) : Z := active_pml4_phys st.

Definition zero_table (child : Z) : K vmm unit :=
  for_loop 512 0 (fun i => store_entry child i 0).

(** [ensure_table_in]; [ensure_table] is the same without extra flags. *)
Definition ensure_table_in (table index extra_flags : Z) : K vmm (option Z) :=
  e ← load_entry table index;
  if negb (present e) then
    page ← alloc_page;
    if page =? PMM_ALLOC_FAILED then mret None else
    child ← phys_to_virt page;
    _ ← zero_table child;
    _ ← store_entry table index
          (Z.lor (Z.lor (Z.lor (masked page) PAGE_PRESENT) PAGE_WRITABLE) extra_flags);
    e' ← load_entry table index;
    t ← phys_to_virt (masked e'); mret (Some t)
  else if large e then mret None
  else t ← phys_to_virt (masked e); mret (Some t).

Definition ensure_table (table index : Z) : K vmm (option Z) :=
  e ← load_entry table index;
  if negb (present e) then
    page ← alloc_page;
    if page =? PMM_ALLOC_FAILED then mret None else
    child ← phys_to_virt page;
    _ ← zero_table child;
    _ ← store_entry table index (Z.lor (Z.lor (masked page) PAGE_PRESENT) PAGE_WRITABLE);
    e' ← load_entry table index;
    t ← phys_to_virt (masked e'); mret (Some t)
  else if large e then mret None
  else t ← phys_to_virt (masked e); mret (Some t).

(** The slot [(table, index)] of the PTE. *)
Definition pte_for (virt : Z) : K vmm (option (Z * Z)) :=
  active ← gets active_pml4_phys;
  pml4 ← phys_to_virt active;
  pml4e ← load_entry pml4 (pml4_index virt);
  if negb (present pml4e) || large pml4e then mret None else
  pdpt ← phys_to_virt (masked pml4e);
  pdpte ← load_entry pdpt (pdpt_index virt);
  if negb (present pdpte) || large pdpte then mret None else
  pd ← phys_to_virt (masked pdpte);
  pde ← load_entry pd (pd_index virt);
  if negb (present pde) || large pde then mret None else
  pt ← phys_to_virt (masked pde);
  mret (Some (pt, pt_index virt)).

Definition vmm_map (virt phys flags : Z) : K vmm bool :=
  active ← gets active_pml4_phys;
  pml4 ← phys_to_virt active;
  pdpt ← ensure_table pml4 (pml4_index virt);
  match pdpt with None => mret false | Some pdpt =>
  pd ← ensure_table pdpt (pdpt_index virt);
  match pd with None => mret false | Some pd =>
  pt ← ensure_table pd (pd_index virt);
  match pt with None => mret false | Some pt =>
  _ ← store_entry pt (pt_index virt) (Z.lor (Z.lor (masked phys) flags) PAGE_PRESENT);
  mret true
  end end end.

Definition vmm_unmap (virt : Z) : K vmm bool :=
  slot ← pte_for virt;
  match slot with
  | None => mret false
  | Some (pt, i) =>
      pte ← load_entry pt i;
      if negb (present pte) then mret false
      else _ ← store_entry pt i 0; mret true
  end.

Definition vmm_protect (virt flags : Z) : K vmm bool :=
  slot ← pte_for virt;
  match slot with
  | None => mret false
  | Some (pt, i) =>
      pte ← load_entry pt i;
      if negb (present pte) then mret false
      else _ ← store_entry pt i (Z.lor (Z.lor (masked pte) flags) PAGE_PRESENT); mret true
  end.

(** [memset] and [memcpy] on whole quadwords. *)
Definition vmm_space_create : K vmm Z :=
  pml4_page ← alloc_page;
  if pml4_page =? PMM_ALLOC_FAILED then mret 0 else
  new_pml4 ← phys_to_virt pml4_page;
  active ← gets active_pml4_phys;
  kern_pml4 ← phys_to_virt active;
  _ ← for_loop 256 0 (fun i => store_entry new_pml4 i 0);
  _ ← for_loop 256 256 (fun i => e ← load_entry kern_pml4 i; store_entry new_pml4 i e);
  mret pml4_page.

(** The four nested loops of [vmm_space_destroy], innermost first. *)
Definition destroy_pt (pt : Z) : K vmm unit :=
  for_loop 512 0 (fun pti =>
    pte ← load_entry pt pti;
    if present pte then free_page (masked pte) else mret tt).

Definition destroy_pd (pd : Z) : K vmm unit :=
  for_loop 512 0 (fun pdi =>
    pde ← load_entry pd pdi;
    if negb (present pde) then mret tt
    else if large pde then free_page (masked pde)
    else pt ← phys_to_virt (masked pde); _ ← destroy_pt pt; free_page (masked pde)).

Definition destroy_pdpt (pdpt : Z) : K vmm unit :=
  for_loop 512 0 (fun pdpti =>
    pdpte ← load_entry pdpt pdpti;
    if negb (present pdpte) then mret tt
    else if large pdpte then free_page (masked pdpte)
    else pd ← phys_to_virt (masked pdpte); _ ← destroy_pd pd; free_page (masked pdpte)).

Definition destroy_user_half (pml4 : Z) : K vmm unit :=
  for_loop 256 0 (fun pml4i =>
    pml4e ← load_entry pml4 pml4i;
    if negb (present pml4e) then mret tt
    else pdpt ← phys_to_virt (masked pml4e); _ ← destroy_pdpt pdpt; free_page (masked pml4e)).

Definition vmm_space_destroy (pml4_phys : Z) : K vmm unit :=
  active ← gets active_pml4_phys;
  if (pml4_phys =? 0) || (pml4_phys =? active) then mret tt else
  pml4 ← phys_to_virt pml4_phys;
  _ ← destroy_user_half pml4;
  free_page pml4_phys.

Definition vmm_space_map (pml4_phys virt phys flags : Z) : K vmm bool :=
  if 256 <=? pml4_index virt then mret false else
  let user_flag := if negb (Z.land flags VMM_USER =? 0) then VMM_USER else 0 in
  pml4 ← phys_to_virt pml4_phys;
  pdpt ← ensure_table_in pml4 (pml4_index virt) user_flag;
  match pdpt with None => mret false | Some pdpt =>
  pd ← ensure_table_in pdpt (pdpt_index virt) user_flag;
  match pd with None => mret false | Some pd =>
  pt ← ensure_table_in pd (pd_index virt) user_flag;
  match pt with None => mret false | Some pt =>
  _ ← store_entry pt (pt_index virt) (Z.lor (Z.lor (masked phys) flags) PAGE_PRESENT);
  mret true
  end end end.

(** ** Specification: the tree of tables *)

(** The table the hardware walk reaches from table [t] through the indices
    [path], as long as every entry on the way is present and not large. *)
Fixpoint table_at (r : ram_t) (t : Z) (path : list Z) : option Z :=
  match path with
  | [] => Some t
  | i :: rest =>
      let e := r (t + 8 * i) in
      if present e && negb (large e) then table_at r (masked e) rest else None
  end.

(** The translation of [virt] from table [t] along its remaining indices; an
    entry [n] levels above the last maps [2 ^ (12 + 9 n)] bytes if large. *)
Fixpoint translate_from (r : ram_t) (t : Z) (path : list Z) (virt : Z) : option Z :=
  match path with
  | [] => None
  | i :: rest =>
      let e := r (t + 8 * i) in
      if negb (present e) then None
      else match rest with
           | [] => Some (masked e + virt mod 2 ^ 12)
           | _ :: _ =>
               if large e
               then Some (u64 (masked e + virt mod 2 ^ (12 + 9 * Z.of_nat (length rest))))
               else translate_from r (masked e) rest virt
           end
  end.

Definition vpath (virt : Z) : list Z :=
  [pml4_index virt; pdpt_index virt; pd_index virt; pt_index virt].
Definition translate (r : ram_t) (root virt : Z) : option Z :=
  translate_from r root (vpath virt) virt.

Definition index_ok (i : Z) : Prop := 0 <= i < 512.
Definition table_path (p : list Z) : Prop := Forall index_ok p /\ (length p <= 3)%nat.
Definition frame_ok (st : vmm) (t : Z) : Prop :=
  t mod OS_PAGE_SIZE = 0 /\ 0 <= t < vdirect_map_size st.

(** An address space rooted at [root] is well-formed: its tables are a tree of
    distinct aligned frames in the direct map that the page allocator regards
    as used, and no PML4 entry has the reserved large bit. *)
Record space_wf (st : vmm) (root : Z) : Prop := {
  ws_pmm : pmm_wf (vpmm st);
  ws_direct : PMM_MAX_PHYS_BYTES <= vdirect_map_size st;
  ws_tables : forall p t, table_path p -> table_at (ram st) root p = Some t ->
    frame_ok st t /\ ~ page_free (vpmm st) (t / OS_PAGE_SIZE);
  ws_inj : forall p q t, table_path p -> table_path q ->
    table_at (ram st) root p = Some t -> table_at (ram st) root q = Some t -> p = q;
  ws_pml4 : forall i, index_ok i -> large (ram st (root + 8 * i)) = false;
}.

(** ** Entries *)

Lemma store_eq r a v : store r a v a = v.
Proof. unfold store. by rewrite Z.eqb_refl. Qed.
Lemma store_ne r a v b : b <> a -> store r a v b = r b.
Proof. intros H. unfold store. by rewrite (proj2 (Z.eqb_neq _ _) H). Qed.

Lemma masked_field e : masked e = e / 2 ^ 12 mod 2 ^ 40 * 2 ^ 12.
Proof. apply (land_field e 12 40); lia. Qed.

Lemma masked_range e : 0 <= masked e < 2 ^ 52 /\ masked e mod OS_PAGE_SIZE = 0.
Proof. rewrite masked_field. unfold OS_PAGE_SIZE. lia. Qed.

Lemma masked_id a : 0 <= a < 2 ^ 52 -> a mod OS_PAGE_SIZE = 0 -> masked a = a.
Proof. intros Ha Hm. rewrite masked_field. unfold OS_PAGE_SIZE in Hm. lia. Qed.

Lemma masked_masked a : masked (masked a) = masked a.
Proof. apply masked_id; apply masked_range. Qed.

Lemma masked_lor a b : masked (Z.lor a b) = Z.lor (masked a) (masked b).
Proof. apply Z.land_lor_distr_l. Qed.

Lemma test_lor a b m :
  negb (Z.land (Z.lor a b) m =? 0) = negb (Z.land a m =? 0) || negb (Z.land b m =? 0).
Proof.
  rewrite Z.land_lor_distr_l.
  destruct (Z.eqb_spec (Z.land a m) 0) as [Ha|Ha], (Z.eqb_spec (Z.land b m) 0) as [Hb|Hb];
    destruct (Z.eqb_spec (Z.lor (Z.land a m) (Z.land b m)) 0) as [H|H]; try done;
    rewrite Z.lor_eq_0_iff in H; tauto.
Qed.
Lemma present_lor a b : present (Z.lor a b) = present a || present b.
Proof. apply test_lor. Qed.
Lemma large_lor a b : large (Z.lor a b) = large a || large b.
Proof. apply test_lor. Qed.
Lemma present_masked a : present (masked a) = false.
Proof. unfold present, masked. rewrite <- Z.land_assoc. change (Z.land PAGE_MASK _) with 0. by rewrite Z.land_0_r. Qed.
Lemma large_masked a : large (masked a) = false.
Proof. unfold large, masked. rewrite <- Z.land_assoc. change (Z.land PAGE_MASK _) with 0. by rewrite Z.land_0_r. Qed.

(** Two entries of aligned tables share an address only if they are the same. *)
Lemma slot_inj t t' i i' :
  t mod OS_PAGE_SIZE = 0 -> t' mod OS_PAGE_SIZE = 0 -> index_ok i -> index_ok i' ->
  t + 8 * i = t' + 8 * i' -> t = t' /\ i = i'.
Proof. unfold OS_PAGE_SIZE, index_ok. lia. Qed.

Lemma index_range x n : index_ok (Z.land (Z.shiftr x n) INDEX_MASK).
Proof.
  unfold INDEX_MASK. change 0x1ff with (2 ^ 9 - 1). rewrite land_ones_mod by lia. unfold index_ok. lia.
Qed.
Lemma vpath_ok virt : Forall index_ok (vpath virt).
Proof. repeat constructor; apply index_range. Qed.

(** ** Walks *)

Lemma table_at_app r t p q :
  table_at r t (p ++ q) = t' ← table_at r t p; table_at r t' q.
Proof.
  revert t. induction p as [|i p IH]; intros t; simpl; [done|]. case_match; [apply IH|done].
Qed.

Lemma translate_app r t p q v t' :
  table_at r t p = Some t' -> q <> [] -> translate_from r t (p ++ q) v = translate_from r t' q v.
Proof.
  revert t. induction p as [|i p IH]; intros t Hp Hq; simpl in *; [congruence|].
  destruct (present _) eqn:Epr; simpl in *; [|done]. destruct (large _); simpl in *; [done|].
  destruct (p ++ q) eqn:E; [|by apply IH].
  apply app_eq_nil in E as [_ ?]. done.
Qed.

(** Memories that agree on the entries a walk reads give the same walk. *)
Definition agree_on (r r' : ram_t) (root : Z) (path : list Z) : Prop :=
  forall q i rest t, path = q ++ i :: rest -> table_at r root q = Some t ->
    r' (t + 8 * i) = r (t + 8 * i).

Lemma agree_on_cons r r' t i rest :
  agree_on r r' t (i :: rest) ->
  r' (t + 8 * i) = r (t + 8 * i) /\
  (present (r (t + 8 * i)) && negb (large (r (t + 8 * i))) = true ->
   agree_on r r' (masked (r (t + 8 * i))) rest).
Proof.
  intros H. split; [by apply (H [] i rest t)|]. intros Hpr q j rest' t' -> Ht.
  apply (H (i :: q) j rest' t'); [done|]. cbn [table_at]. by rewrite Hpr.
Qed.

Lemma table_at_agree r r' t path : agree_on r r' t path -> table_at r' t path = table_at r t path.
Proof.
  revert t. induction path as [|i rest IH]; intros t H; [done|].
  apply agree_on_cons in H as [He H]. cbn [table_at]. rewrite He. case_match; [|done]. by apply IH, H.
Qed.

Lemma translate_agree r r' t path v :
  agree_on r r' t path -> translate_from r' t path v = translate_from r t path v.
Proof.
  revert t. induction path as [|i rest IH]; intros t H; [done|].
  apply agree_on_cons in H as [He H]. cbn [translate_from]. rewrite He.
  destruct (present _); cbn [negb andb] in *; [|done]. destruct rest; [done|].
  destruct (large _); [done|]. by apply IH, H.
Qed.

(** A prefix of a table path, or of a full path, is a table path. *)
Lemma table_path_prefix q i rest :
  Forall index_ok (q ++ i :: rest) -> (length (q ++ i :: rest) <= 4)%nat ->
  table_path q /\ index_ok i.
Proof.
  rewrite length_app, Forall_app. simpl. intros [Hq Hi] Hl. apply Forall_cons in Hi as [Hi _].
  split; [split; [done|lia]|done].
Qed.

(** ** Stores into a well-formed space *)

Section space.
Context (st : vmm) (root : Z) (Hwf : space_wf st root).
Let r := ram st.

(** A memory that differs from [r] only at the entry [i] of the table at
    path [p], or in frames that are free. *)
Context (p : list Z) (t i : Z) (Hp : table_path p) (Hi : index_ok i)
        (Ht : table_at r root p = Some t).
Context (r' : ram_t)
        (Hr' : forall a, a <> t + 8 * i -> ~ page_free (vpmm st) (a / OS_PAGE_SIZE) -> r' a = r a).

Lemma table_slot_used q u j :
  table_path q -> table_at r root q = Some u -> index_ok j ->
  ~ page_free (vpmm st) ((u + 8 * j) / OS_PAGE_SIZE).
Proof using Hwf.
  intros Hq Hu Hj. destruct (ws_tables _ _ Hwf q u Hq Hu) as [[Hal _] Hnf].
  replace ((u + 8 * j) / OS_PAGE_SIZE) with (u / OS_PAGE_SIZE); [done|].
  clear - Hal Hj. unfold OS_PAGE_SIZE, index_ok in Hal, Hj |- *. lia.
Qed.

(** Entries of the tree other than the stored one keep their value. *)
Lemma entry_frame q u j :
  table_path q -> table_at r root q = Some u -> index_ok j -> (q, j) <> (p, i) ->
  r' (u + 8 * j) = r (u + 8 * j).
Proof.
  intros Hq Hu Hj Hne. apply Hr'; [|by eapply table_slot_used].
  intros E. destruct (ws_tables _ _ Hwf q u Hq Hu) as [[Hal _] _].
  destruct (ws_tables _ _ Hwf p t Hp Ht) as [[Hal' _] _].
  apply slot_inj in E as [-> ->]; [|done..]. apply Hne. f_equal. by eapply ws_inj.
Qed.

Lemma walk_frame path :
  Forall index_ok path -> (length path <= 4)%nat -> ~ (p ++ [i]) `prefix_of` path ->
  agree_on r r' root path.
Proof.
  intros Hok Hl Hno q j rest u -> Hu. apply table_path_prefix in Hok as [Hq Hj]; [|done].
  apply (entry_frame q); [done..|]. intros [= -> ->]. apply Hno. exists rest.
  by rewrite <- (app_assoc p).
Qed.

Lemma not_own_extension : ~ (p ++ [i]) `prefix_of` p.
Proof. intros H%prefix_length. rewrite length_app in H. simpl in H. lia. Qed.

Lemma table_at_self : table_at r' root p = Some t.
Proof.
  rewrite <- Ht. apply table_at_agree, walk_frame; [apply Hp| |apply not_own_extension].
  destruct Hp. lia.
Qed.

(** *** The entry becomes a pointer to a fresh zeroed table *)

Section new_table.
Context (c : Z) (Hshort : (length p <= 2)%nat) (Habs : present (r (t + 8 * i)) = false).
Context (Hc : frame_ok st c) (Hfree : page_free (vpmm st) (c / OS_PAGE_SIZE)).
Context (Hpr : present (r' (t + 8 * i)) = true) (Hnl : large (r' (t + 8 * i)) = false)
        (Hm : masked (r' (t + 8 * i)) = c).
Context (Hzero : forall j, index_ok j -> r' (c + 8 * j) = 0).

Lemma new_table_at q :
  table_path q ->
  table_at r' root q = if decide (q = p ++ [i]) then Some c else table_at r root q.
Proof.
  intros Hq. assert (Hq' := Hq). destruct Hq' as [Hqi Hql].
  destruct (decide ((p ++ [i]) `prefix_of` q)) as [[rest ->]|Hno].
  - rewrite <- (app_assoc p) in *. rewrite !(table_at_app _ _ p), table_at_self, Ht. simpl.
    rewrite Hpr, Hnl, Habs, Hm. simpl. destruct rest as [|j rest].
    + by rewrite decide_True.
    + rewrite decide_False.
      * cbn [table_at]. rewrite Hzero; [done|]. rewrite !Forall_app, !Forall_cons in Hqi. tauto.
      * intros E. apply app_inv_head in E. done.
  - rewrite decide_False by (intros ->; by apply Hno).
    apply table_at_agree, walk_frame; [done|lia|done].
Qed.

Lemma new_table_translate virt : translate r' root virt = translate r root virt.
Proof.
  unfold translate. destruct (decide ((p ++ [i]) `prefix_of` vpath virt)) as [[rest E]|Hno].
  - rewrite E, <- (app_assoc p). pose proof (vpath_ok virt) as Hok. rewrite E in Hok.
    assert (length (vpath virt) = 4%nat) as Hl by done. rewrite E in Hl.
    rewrite !length_app in Hl. simpl in Hl.
    rewrite !(translate_app _ _ p _ _ t) by (done || apply table_at_self).
    cbn [app translate_from]. rewrite Hpr, Hnl, Habs, Hm. cbn [negb].
    destruct rest as [|j rest]; [simpl in Hl; lia|]. cbn [translate_from].
    rewrite Hzero; [done|]. rewrite !Forall_app, !Forall_cons in Hok. tauto.
  - by apply translate_agree, walk_frame; [apply vpath_ok|done|].
Qed.

Lemma new_table_wf pm' :
  pmm_wf pm' ->
  (forall q, page_free pm' q <-> page_free (vpmm st) q /\ q <> c / OS_PAGE_SIZE) ->
  space_wf (set_pmm (set_ram st r') pm') root.
Proof.
  intros Hpm Hpf. split; simpl; [done|apply Hwf| | |].
  - intros q u Hq Hu. rewrite new_table_at in Hu by done. rewrite Hpf. case_decide.
    + simplify_eq. split; [done|]. tauto.
    + destruct (ws_tables _ _ Hwf q u Hq Hu). tauto.
  - assert (forall q, table_path q -> table_at r root q <> Some c) as Hnew.
    { intros q Hq Hqc. by destruct (ws_tables _ _ Hwf q c Hq Hqc). }
    intros q1 q2 u H1 H2. rewrite !new_table_at by done. intros E1 E2.
    repeat case_decide; simplify_eq; try done;
      first [by destruct (Hnew q1 H1)|by destruct (Hnew q2 H2)|by apply (ws_inj _ _ Hwf q1 q2 u)].
  - intros j Hj. destruct (decide (([], j) = (p, i))) as [E|E].
    + simplify_eq. simpl in Ht. by simplify_eq.
    + rewrite (entry_frame [] root j); [by apply Hwf|split; [done|simpl; lia]|done..].
Qed.
End new_table.

(** *** The entry is one of a last-level table *)

Section leaf.
Context (Hlast : length p = 3%nat).

Lemma leaf_table_at q : table_path q -> table_at r' root q = table_at r root q.
Proof.
  intros [Hq Hl]. apply table_at_agree, walk_frame; [done|lia|].
  intros H%prefix_length. rewrite length_app in H. simpl in H. lia.
Qed.

Lemma leaf_translate_other virt :
  vpath virt <> p ++ [i] -> translate r' root virt = translate r root virt.
Proof.
  intros Hne. apply translate_agree, walk_frame; [apply vpath_ok|done|].
  intros [rest E]. apply Hne. rewrite E. apply (f_equal length) in E.
  rewrite !length_app in E. simpl in E. destruct rest; [by rewrite app_nil_r|simpl in E; lia].
Qed.

Lemma leaf_translate virt :
  vpath virt = p ++ [i] ->
  translate r' root virt =
  if present (r' (t + 8 * i)) then Some (masked (r' (t + 8 * i)) + virt mod 2 ^ 12) else None.
Proof.
  intros E. unfold translate. rewrite E, (translate_app _ _ p _ _ t) by (done || apply table_at_self).
  simpl. by destruct (present _).
Qed.

Lemma leaf_wf : space_wf (set_ram st r') root.
Proof.
  split; simpl; try apply Hwf.
  - intros q u Hq Hu. rewrite leaf_table_at in Hu by done. by apply (ws_tables _ _ Hwf q).
  - intros q1 q2 u H1 H2. rewrite !leaf_table_at by done. by apply (ws_inj _ _ Hwf).
  - intros j Hj. rewrite (entry_frame [] root j); [by apply Hwf|split; [done|simpl; lia]|done|done|].
    intros E. simplify_eq.
Qed.
End leaf.
End space.

(** ** Growing a space by tables *)

(** [st'] extends [st]: new tables on the way [vp], no change of translation. *)
Record extends (root : Z) (vp : list Z) (st st' : vmm) : Prop := {
  ex_active : active_pml4_phys st' = active_pml4_phys st;
  ex_direct : vdirect_map st' = vdirect_map st;
  ex_size : vdirect_map_size st' = vdirect_map_size st;
  ex_wf : space_wf st' root;
  ex_translate : forall v, translate (ram st') root v = translate (ram st) root v;
  ex_free : forall q, page_free (vpmm st') q -> page_free (vpmm st) q;
  ex_tables : forall q t, table_path q ->
    table_at (ram st) root q = Some t -> table_at (ram st') root q = Some t;
  ex_new : forall q t, table_path q -> table_at (ram st') root q = Some t ->
    table_at (ram st) root q = Some t \/ page_free (vpmm st) (t / OS_PAGE_SIZE);
  ex_ram : forall a, ram st' a = ram st a \/ page_free (vpmm st) (a / OS_PAGE_SIZE) \/
    exists q t, q `prefix_of` vp /\ table_path q /\ table_at (ram st) root q = Some t /\
                t <= a < t + OS_PAGE_SIZE;
}.

Lemma extends_refl root vp st : space_wf st root -> extends root vp st st.
Proof. intros. split; auto. Qed.

Lemma extends_trans root vp st1 st2 st3 :
  extends root vp st1 st2 -> extends root vp st2 st3 -> extends root vp st1 st3.
Proof.
  intros H1 H2. split.
  - rewrite (ex_active _ _ _ _ H2). apply H1.
  - rewrite (ex_direct _ _ _ _ H2). apply H1.
  - rewrite (ex_size _ _ _ _ H2). apply H1.
  - apply H2.
  - intros v. rewrite (ex_translate _ _ _ _ H2). apply H1.
  - intros q Hq. by apply (ex_free _ _ _ _ H1), (ex_free _ _ _ _ H2).
  - intros q t Hq Ht. apply (ex_tables _ _ _ _ H2); [done|]. by apply H1.
  - intros q t Hq Ht. destruct (ex_new _ _ _ _ H2 q t Hq Ht) as [H|H].
    + by apply H1.
    + right. by apply H1.
  - intros a. destruct (ex_ram _ _ _ _ H2 a) as [E|[H|(q & t & Hpre & Hq & Ht & Ha)]].
    + rewrite E. apply H1.
    + right. left. by apply H1.
    + destruct (ex_new _ _ _ _ H1 q t Hq Ht) as [H|H]; right; [right; eauto 10|left].
      destruct (ws_tables _ _ (ex_wf _ _ _ _ H1) q t Hq Ht) as [[Hal _] _].
      by replace (a / OS_PAGE_SIZE) with (t / OS_PAGE_SIZE) by (unfold OS_PAGE_SIZE in *; lia).
Qed.

Lemma zero_loop n lo c st :
  exists r1, for_loop n lo (fun i => store_entry c i 0) st = Ok (tt, set_ram st r1) /\
    (forall j, lo <= j < lo + Z.of_nat n -> r1 (c + 8 * j) = 0) /\
    (forall a, (forall j, lo <= j < lo + Z.of_nat n -> a <> c + 8 * j) -> r1 a = ram st a).
Proof.
  revert lo st. induction n as [|n IH]; intros lo st.
  - exists (ram st). split; [by destruct st|]. split; [lia|done].
  - cbn [for_loop]. unfold mbind, K_bind. unfold store_entry at 1, modify.
    destruct (IH (lo + 1) (set_ram st (store (ram st) (c + 8 * lo) 0))) as (r1 & E & Hz & Hr).
    exists r1. rewrite E. split; [done|]. simpl in Hr. split.
    + intros j Hj. destruct (decide (j = lo)) as [->|]; [|apply Hz; lia].
      rewrite Hr by (intros; lia). apply store_eq.
    + intros a Ha. rewrite Hr by (intros; apply Ha; lia). apply store_ne, Ha. lia.
Qed.

Lemma zero_table_spec c st :
  exists r1, zero_table c st = Ok (tt, set_ram st r1) /\
    (forall j, index_ok j -> r1 (c + 8 * j) = 0) /\
    (forall a, (forall j, index_ok j -> a <> c + 8 * j) -> r1 a = ram st a).
Proof.
  destruct (zero_loop 512 0 c st) as (r1 & E & Hz & Hr). exists r1. split; [exact E|].
  change (0 + Z.of_nat 512) with 512 in *. split; [exact Hz|exact Hr].
Qed.

Lemma phys_to_virt_Ok a st : a < vdirect_map_size st -> phys_to_virt a st = Ok (a, st).
Proof. intros H. unfold phys_to_virt. by rewrite (proj2 (Z.leb_gt _ _) H). Qed.

Lemma table_ptr st root q t :
  space_wf st root -> table_path q -> table_at (ram st) root q = Some t -> phys_to_virt t st = Ok (t, st).
Proof.
  intros Hwf Hq Ht. destruct (ws_tables _ _ Hwf q t Hq Ht) as [[_ [_ H]] _]. by apply phys_to_virt_Ok.
Qed.

Lemma table_path_snoc p i : table_path p -> (length p <= 2)%nat -> index_ok i -> table_path (p ++ [i]).
Proof.
  intros [Hp Hl] Hs Hi. split; [apply Forall_app; split; [done|by constructor]|].
  rewrite length_app. simpl. lia.
Qed.

Lemma pmm_alloc_page_facts pm p :
  pmm_wf pm -> page_free pm p ->
  pmm_wf (take_page pm p) /\
  (forall q, page_free (take_page pm p) q <-> page_free pm q /\ q <> p) /\
  0 <= p * OS_PAGE_SIZE < PMM_MAX_PHYS_BYTES /\ p * OS_PAGE_SIZE mod OS_PAGE_SIZE = 0 /\
  p * OS_PAGE_SIZE / OS_PAGE_SIZE = p /\ (p * OS_PAGE_SIZE =? PMM_ALLOC_FAILED) = false.
Proof.
  intros Hwf Hp. split; [by apply take_page_wf|]. split; [intros q; apply page_free_take; [done|apply Hp]|].
  destruct Hp as [Hp _]. split; [pmm_lia|]. split; [pmm_lia|]. split; [pmm_lia|]. apply Z.eqb_neq. pmm_lia.
Qed.

(** Flags that do not overlap the frame number or the large bit. *)
Definition flags_ok (f : Z) : Prop := masked f = 0 /\ large f = false.

Lemma table_entry_facts c extra :
  flags_ok extra -> 0 <= c < 2 ^ 52 -> c mod OS_PAGE_SIZE = 0 ->
  let v := Z.lor (Z.lor (Z.lor (masked c) PAGE_PRESENT) PAGE_WRITABLE) extra in
  present v = true /\ large v = false /\ masked v = c.
Proof.
  intros [Hf1 Hf2] Hc Hal v. subst v.
  rewrite !present_lor, !large_lor, !masked_lor, Hf1, Hf2, masked_masked, large_masked, masked_id by done.
  split; [by rewrite orb_true_r|]. split; [done|]. by rewrite !Z.lor_0_r.
Qed.

Lemma new_table_extends st root p t i v c r1 vp :
  space_wf st root -> table_path p -> index_ok i -> table_at (ram st) root p = Some t ->
  p `prefix_of` vp -> (length p <= 2)%nat -> present (ram st (t + 8 * i)) = false ->
  page_free (vpmm st) c ->
  (forall j, index_ok j -> r1 (c * OS_PAGE_SIZE + 8 * j) = 0) ->
  (forall a, (forall j, index_ok j -> a <> c * OS_PAGE_SIZE + 8 * j) -> r1 a = ram st a) ->
  present v = true -> large v = false -> masked v = c * OS_PAGE_SIZE ->
  let st' := set_pmm (set_ram st (store r1 (t + 8 * i) v)) (take_page (vpmm st) c) in
  extends root vp st st' /\ table_at (ram st') root (p ++ [i]) = Some (c * OS_PAGE_SIZE).
Proof.
  intros Hwf Hp Hi Ht Hpre Hs Habs Hfree Hz Hr1 Hpr Hnl Hm st'.
  destruct (pmm_alloc_page_facts _ c (ws_pmm _ _ Hwf) Hfree) as (Hpm & Hpf & Hcr & Hcal & Hcdiv & _).
  destruct (ws_tables _ _ Hwf p t Hp Ht) as [[Hal Hrange] Hused].
  set (r' := store r1 (t + 8 * i) v) in *.
  assert (forall a, a <> t + 8 * i -> ~ page_free (vpmm st) (a / OS_PAGE_SIZE) -> r' a = ram st a) as Hr'.
  { intros a Ha Hnf. unfold r'. rewrite store_ne by done. apply Hr1. intros j Hj ->. apply Hnf.
    replace ((c * OS_PAGE_SIZE + 8 * j) / OS_PAGE_SIZE) with c; [done|].
    unfold OS_PAGE_SIZE, index_ok in *. lia. }
  assert (forall j, index_ok j -> r' (c * OS_PAGE_SIZE + 8 * j) = 0) as Hz'.
  { intros j Hj. unfold r'. rewrite store_ne; [by apply Hz|]. intros E. symmetry in E.
    apply slot_inj in E as [-> _]; [|done..]. by rewrite Hcdiv in Hused. }
  assert (frame_ok st (c * OS_PAGE_SIZE)) as Hc.
  { split; [done|]. pose proof (ws_direct _ _ Hwf). lia. }
  assert (r' (t + 8 * i) = v) as Hv by apply store_eq.
  rewrite <- Hv in Hpr, Hnl, Hm.
  assert (forall q, table_path q ->
    table_at r' root q = if decide (q = p ++ [i]) then Some (c * OS_PAGE_SIZE) else table_at (ram st) root q) as Hat.
  { intros q Hq. eapply new_table_at; eauto. }
  split.
  - split; try done; simpl.
    + eapply new_table_wf; eauto; by rewrite ?Hcdiv.
    + intros virt. eapply new_table_translate; eauto.
    + intros q. rewrite Hpf. tauto.
    + intros q u Hq Hu. rewrite Hat by done. case_decide; [|done]. subst q.
      rewrite table_at_app, Ht in Hu. simpl in Hu. rewrite Habs in Hu. done.
    + intros q u Hq. rewrite Hat by done. case_decide; [|auto]. intros [= <-]. right. by rewrite Hcdiv.
    + intros a. destruct (decide (a = t + 8 * i)) as [->|Hne].
      * right. right. exists p, t. split_and!; try done; unfold index_ok, OS_PAGE_SIZE in *; lia.
      * destruct (decide (a / OS_PAGE_SIZE = c)) as [<-|Hna]; [auto|]. left.
        unfold r'. rewrite store_ne by done. apply Hr1. intros j Hj ->.
        apply Hna. unfold index_ok, OS_PAGE_SIZE in *. lia.
  - simpl. rewrite Hat by (by apply table_path_snoc). by rewrite decide_True.
Qed.

Lemma ensure_table_in_spec st root p t i extra vp :
  space_wf st root -> table_path p -> index_ok i -> table_at (ram st) root p = Some t ->
  p `prefix_of` vp -> (length p <= 2)%nat -> flags_ok extra ->
  exists res st', ensure_table_in t i extra st = Ok (res, st') /\ extends root vp st st' /\
    match res with
    | Some u => table_at (ram st') root (p ++ [i]) = Some u
    | None => st' = st /\ ((forall q, ~ page_free (vpmm st) q) \/ large (ram st (t + 8 * i)) = true)
    end.
Proof.
  intros Hwf Hp Hi Ht Hpre Hs Hx. unfold ensure_table_in, mbind, K_bind, load_entry, gets.
  destruct (present (ram st (t + 8 * i))) eqn:Epr; cbn [negb].
  - destruct (large (ram st (t + 8 * i))) eqn:El.
    + exists None, st. split; [done|]. split; [by apply extends_refl|auto].
    + assert (table_at (ram st) root (p ++ [i]) = Some (masked (ram st (t + 8 * i)))) as Hu.
      { rewrite table_at_app, Ht. simpl. by rewrite Epr, El. }
      rewrite (table_ptr st root (p ++ [i])) by (done || by apply table_path_snoc).
      eexists (Some _), st. split; [done|]. split; [by apply extends_refl|done].
  - unfold alloc_page. destruct (pmm_alloc_page_cases _ (ws_pmm _ _ Hwf)) as [(c & Hc & _ & ->)|(Hno & ->)].
    + destruct (pmm_alloc_page_facts _ c (ws_pmm _ _ Hwf) Hc) as (_ & _ & Hr & Hal & _ & ->).
      pose proof (ws_direct _ _ Hwf) as Hd.
      rewrite phys_to_virt_Ok by (simpl; lia).
      destruct (zero_table_spec (c * OS_PAGE_SIZE) (set_pmm st (take_page (vpmm st) c))) as (r1 & -> & Hz & Hr1).
      unfold store_entry, modify. cbn [ram set_ram set_pmm] in *. rewrite store_eq.
      destruct (table_entry_facts (c * OS_PAGE_SIZE) extra) as (Hpr & Hnl & Hm); [done|pmm_lia|done|].
      rewrite Hm. rewrite phys_to_virt_Ok by (simpl; lia).
      eexists (Some _), _. split; [done|]. eapply new_table_extends; eauto.
    + exists None, (set_pmm st (vpmm st)). split; [done|].
      replace (set_pmm st (vpmm st)) with st by (by destruct st). split; [by apply extends_refl|auto].
Qed.

Lemma ensure_table_is_in table index st : ensure_table table index st = ensure_table_in table index 0 st.
Proof.
  unfold ensure_table, ensure_table_in, mbind, K_bind.
  destruct (load_entry _ _ _) as [[e st1]|]; [|done]. destruct (negb _); [|done].
  destruct (alloc_page _) as [[page st2]|]; [|done]. by rewrite Z.lor_0_r.
Qed.

(** ** Mapping a page *)

(** The three calls of [ensure_table] and the store of the PTE, from the
    pointer to the root table on. *)
Definition map_from (root virt phys flags extra : Z) : K vmm bool :=
  pdpt ← ensure_table_in root (pml4_index virt) extra;
  match pdpt with None => mret false | Some pdpt =>
  pd ← ensure_table_in pdpt (pdpt_index virt) extra;
  match pd with None => mret false | Some pd =>
  pt ← ensure_table_in pd (pd_index virt) extra;
  match pt with None => mret false | Some pt =>
  _ ← store_entry pt (pt_index virt) (Z.lor (Z.lor (masked phys) flags) PAGE_PRESENT);
  mret true
  end end end.

Definition table_part (virt : Z) : list Z := [pml4_index virt; pdpt_index virt; pd_index virt].

(** What a mapping call leaves behind. *)
Definition mapped (root virt phys : Z) (st : vmm) (b : bool) (st' : vmm) : Prop :=
  if b then
    exists st1 t, extends root (table_part virt) st st1 /\
      table_at (ram st1) root (table_part virt) = Some t /\
      exists v, present v = true /\ masked v = masked phys /\
        st' = set_ram st1 (store (ram st1) (t + 8 * pt_index virt) v)
  else extends root (table_part virt) st st'.

Ltac prefix_solve := unfold table_part; repeat (eexists; reflexivity).

Lemma map_from_spec st root virt phys flags extra :
  space_wf st root -> flags_ok extra -> masked flags = 0 ->
  exists b st', map_from root virt phys flags extra st = Ok (b, st') /\
    mapped root virt phys st b st'.
Proof.
  intros Hwf Hx Hf. unfold map_from. pose proof (vpath_ok virt) as Hok.
  unfold vpath in Hok. rewrite !Forall_cons in Hok. destruct Hok as (H1 & H2 & H3 & H4 & _).
  destruct (ensure_table_in_spec st root [] root (pml4_index virt) extra (table_part virt))
    as (res1 & st1 & E1 & X1 & R1); [done|by split; [|simpl; lia]|done|done|by eexists|simpl; lia|done|].
  rewrite (K_bind_Ok _ _ _ _ _ E1). destruct res1 as [pdpt|]; [|by exists false, st1].
  destruct (ensure_table_in_spec st1 root [pml4_index virt] pdpt (pdpt_index virt) extra (table_part virt))
    as (res2 & st2 & E2 & X2 & R2); [apply X1|split; [by auto using Forall_cons_2, Forall_nil_2|simpl; lia]|done|done|by eexists|simpl; lia|done|].
  pose proof (extends_trans _ _ _ _ _ X1 X2) as X12.
  rewrite (K_bind_Ok _ _ _ _ _ E2). destruct res2 as [pd|]; [|by exists false, st2].
  destruct (ensure_table_in_spec st2 root [pml4_index virt; pdpt_index virt] pd (pd_index virt) extra (table_part virt))
    as (res3 & st3 & E3 & X3 & R3); [apply X2|split; [by auto using Forall_cons_2, Forall_nil_2|simpl; lia]|done|done|by eexists|simpl; lia|done|].
  pose proof (extends_trans _ _ _ _ _ X12 X3) as X.
  rewrite (K_bind_Ok _ _ _ _ _ E3). destruct res3 as [pt|]; [|by exists false, st3].
  eexists true, _. split; [done|]. exists st3, pt. split; [done|]. split; [done|].
  eexists. split; [|split; [|reflexivity]].
  - rewrite !present_lor. apply orb_true_r.
  - rewrite !masked_lor, Hf, masked_masked. by rewrite !Z.lor_0_r.
Qed.

Lemma table_part_path virt : table_path (table_part virt).
Proof. split; [|done]. repeat constructor; apply index_range. Qed.

Lemma vpath_split virt : vpath virt = table_part virt ++ [pt_index virt].
Proof. done. Qed.

Lemma mapped_wf root virt phys st b st' : mapped root virt phys st b st' -> space_wf st' root.
Proof.
  destruct b; simpl; [|by intros []]. intros (st1 & t & X & Ht & v & _ & _ & ->).
  apply (leaf_wf st1 root (ex_wf _ _ _ _ X) (table_part virt) t (pt_index virt));
    [apply table_part_path|apply index_range|done| |done].
  intros a Ha _. by apply store_ne.
Qed.

Lemma mapped_translate root virt phys st st' :
  mapped root virt phys st true st' ->
  translate (ram st') root virt = Some (masked phys + virt mod 2 ^ 12) /\
  forall virt', vpath virt' <> vpath virt -> translate (ram st') root virt' = translate (ram st) root virt'.
Proof.
  simpl. intros (st1 & t & X & Ht & v & Hpr & Hm & ->).
  set (r' := store _ _ _).
  assert (forall a, a <> t + 8 * pt_index virt -> ~ page_free (vpmm st1) (a / OS_PAGE_SIZE) -> r' a = ram st1 a) as Hr'.
  { intros a Ha _. by apply store_ne. }
  cbn [ram set_ram]. split.
  - rewrite (leaf_translate st1 root (ex_wf _ _ _ _ X) (table_part virt) t (pt_index virt))
      by eauto using table_part_path, index_range.
    unfold r'. by rewrite store_eq, Hpr, Hm.
  - intros virt' Hne. rewrite <- (ex_translate _ _ _ _ X).
    eapply (leaf_translate_other st1 root (ex_wf _ _ _ _ X) (table_part virt) t (pt_index virt));
      eauto using table_part_path, index_range.
Qed.

(** ** The walk of the source *)

Lemma land_low x k : 0 <= k -> Z.land x (2 ^ k - 1) = x mod 2 ^ k.
Proof. apply land_ones_mod. Qed.

(** The walk with panics is the pure walk on a well-formed space. *)
Lemma vmm_virt_to_phys_translate st v :
  space_wf st (active_pml4_phys st) ->
  vmm_virt_to_phys v st = Ok (translate (ram st) (active_pml4_phys st) v, st).
Proof.
  intros Hwf. set (root := active_pml4_phys st) in *. pose proof (vpath_ok v) as Hok.
  unfold vpath in Hok. rewrite !Forall_cons in Hok. destruct Hok as (H1 & H2 & H3 & _).
  unfold vmm_virt_to_phys, mbind, K_bind, load_entry, gets. fold root.
  rewrite (table_ptr st root []) by (done || by split; [|simpl; lia]).
  unfold translate, vpath. cbn [translate_from].
  pose proof (ws_pml4 _ _ Hwf (pml4_index v) H1) as Hl1.
  set (e1 := ram st _) in *. destruct (present e1) eqn:E1; cbn [negb]; [|done]. rewrite Hl1.
  assert (table_at (ram st) root [pml4_index v] = Some (masked e1)) as T1.
  { cbn [table_at]. fold root e1. by rewrite E1, Hl1. }
  rewrite (table_ptr st root [pml4_index v])
    by (done || (split; [by auto using Forall_cons_2, Forall_nil_2|simpl; lia])).
  set (e2 := ram st (masked e1 + _)) in *. destruct (present e2) eqn:E2; cbn [negb]; [|done].
  destruct (large e2) eqn:L2.
  { change 0x3fffffff with (2 ^ 30 - 1). by rewrite land_low by lia. }
  assert (table_at (ram st) root [pml4_index v; pdpt_index v] = Some (masked e2)) as T2.
  { cbn [table_at]. fold root e1. rewrite E1, Hl1. cbn [andb negb]. fold e2. by rewrite E2, L2. }
  rewrite (table_ptr st root [pml4_index v; pdpt_index v])
    by (done || (split; [by auto using Forall_cons_2, Forall_nil_2|simpl; lia])).
  set (e3 := ram st (masked e2 + _)) in *. destruct (present e3) eqn:E3; cbn [negb]; [|done].
  destruct (large e3) eqn:L3.
  { change 0x1fffff with (2 ^ 21 - 1). by rewrite land_low by lia. }
  rewrite (table_ptr st root (table_part v)); [|done|apply table_part_path|].
  2:{ unfold table_part. cbn [table_at]. fold root e1. rewrite E1, Hl1. cbn [andb negb].
      fold e2. rewrite E2, L2. cbn [andb negb]. fold e3. by rewrite E3, L3. }
  set (e4 := ram st (masked e3 + _)). destruct (present e4); cbn [negb]; [|done].
  change 0xfff with (2 ^ 12 - 1). rewrite land_low by lia.
  pose proof (masked_range e4). rewrite u64_small by (unfold is_u64; lia). done.
Qed.

(** The page number the walk looks at: bits 12 to 47 of the address. *)
Definition page_number (v : Z) : Z := v / OS_PAGE_SIZE mod 2 ^ 36.

Lemma vpath_page_number v w : vpath v = vpath w <-> page_number v = page_number w.
Proof.
  unfold vpath, pml4_index, pdpt_index, pd_index, pt_index, page_number, INDEX_MASK, OS_PAGE_SIZE.
  change 0x1ff with (2 ^ 9 - 1). rewrite !land_ones_mod, !Z.shiftr_div_pow2 by lia. split.
  - intros [=]. lia.
  - intros E. do 3 (f_equal; [lia|]). f_equal. lia.
Qed.

(** [vmm_map] in terms of [mapped]. *)
Lemma vmm_map_mapped st virt phys flags :
  space_wf st (active_pml4_phys st) -> masked flags = 0 ->
  let root := active_pml4_phys st in
  exists b st', vmm_map virt phys flags st = Ok (b, st') /\ mapped root virt phys st b st' /\
    active_pml4_phys st' = root /\
    (forall q, page_free (vpmm st') q -> page_free (vpmm st) q) /\
    (forall p t, table_path p -> table_at (ram st') root p = Some t ->
       table_at (ram st) root p = Some t \/ page_free (vpmm st) (t / OS_PAGE_SIZE)).
Proof.
  intros Hwf Hf root.
  destruct (map_from_spec st root virt phys flags 0 Hwf (conj eq_refl eq_refl) Hf) as (b & st' & E & M).
  exists b, st'. split; [|split; [done|]].
  { unfold vmm_map. unfold gets. unfold mbind at 1, K_bind at 1. fold root.
    rewrite (K_bind_Ok _ _ _ _ _ (table_ptr st root [] root Hwf (conj (Forall_nil_2 _) (Nat.le_0_l _)) eq_refl)).
    rewrite <- E. unfold map_from, mbind, K_bind. rewrite ensure_table_is_in.
    destruct (ensure_table_in _ _ _ _) as [[[pdpt|] s1]|]; [|done..]. rewrite ensure_table_is_in.
    destruct (ensure_table_in _ _ _ _) as [[[pd|] s2]|]; [|done..]. by rewrite ensure_table_is_in. }
  destruct b; simpl in M; [destruct M as (st1 & t & X & Ht & v & _ & _ & ->)|].
  - cbn [active_pml4_phys set_ram vpmm ram]. split; [apply X|]. split; [apply X|]. intros p u Hp Hu.
    rewrite (leaf_table_at st1 root (ex_wf _ _ _ _ X) (table_part virt) t (pt_index virt)) in Hu;
      [by apply X|apply table_part_path|apply index_range|done| |done|done].
    intros a Ha _. by apply store_ne.
  - split; [apply M|]. split; apply M.
Qed.

(** [vmm_map] never panics on a well-formed space and keeps it well-formed.
    When it returns true the page of [virt] translates to the frame of [phys]
    and every other page translates as before; when it returns false no
    translation has changed. *)
Theorem vmm_map_correct st virt phys flags :
  space_wf st (active_pml4_phys st) -> masked flags = 0 ->
  exists b st', vmm_map virt phys flags st = Ok (b, st') /\
    active_pml4_phys st' = active_pml4_phys st /\ space_wf st' (active_pml4_phys st') /\
    (b = true -> vmm_virt_to_phys virt st' = Ok (Some (masked phys + virt mod OS_PAGE_SIZE), st')) /\
    forall v r, page_number v <> page_number virt \/ b = false ->
      vmm_virt_to_phys v st = Ok (r, st) -> vmm_virt_to_phys v st' = Ok (r, st').
Proof.
  intros Hwf Hf. destruct (vmm_map_mapped st virt phys flags Hwf Hf) as (b & st' & E & M & Ha & _).
  set (root := active_pml4_phys st) in *. pose proof (mapped_wf _ _ _ _ _ _ M) as Hwf'.
  exists b, st'. split; [done|].
  rewrite Ha. split; [done|]. split; [done|]. split.
  - intros ->. rewrite vmm_virt_to_phys_translate by (by rewrite Ha). rewrite Ha.
    destruct (mapped_translate _ _ _ _ _ M) as [-> _]. done.
  - intros v r Hv. rewrite !vmm_virt_to_phys_translate by (by rewrite ?Ha). rewrite Ha.
    intros [= <-]. fold root. do 2 f_equal. destruct b.
    + destruct Hv as [Hv|]; [|done]. destruct (mapped_translate _ _ _ _ _ M) as [_ ->]; [done|].
      by rewrite vpath_page_number.
    + by apply M.
Qed.

(** ** Unmapping and protecting *)

Lemma pte_for_spec st v :
  space_wf st (active_pml4_phys st) ->
  pte_for v st =
  Ok ((fun pt => (pt, pt_index v)) <$> table_at (ram st) (active_pml4_phys st) (table_part v), st).
Proof.
  intros Hwf. set (root := active_pml4_phys st) in *. pose proof (vpath_ok v) as Hok.
  unfold vpath in Hok. rewrite !Forall_cons in Hok. destruct Hok as (H1 & H2 & H3 & _).
  unfold pte_for, mbind, K_bind, load_entry, gets. fold root.
  rewrite (table_ptr st root []) by (done || by split; [|simpl; lia]).
  assert (table_path [pml4_index v]) as P1 by (split; [by auto using Forall_cons_2, Forall_nil_2|simpl; lia]).
  assert (table_path [pml4_index v; pdpt_index v]) as P2
    by (split; [by auto using Forall_cons_2, Forall_nil_2|simpl; lia]).
  pose proof (fun t => table_ptr st root _ t Hwf P1) as T1.
  pose proof (fun t => table_ptr st root _ t Hwf P2) as T2.
  pose proof (fun t => table_ptr st root _ t Hwf (table_part_path v)) as T3.
  unfold table_part in *. cbn [table_at] in *.
  set (e1 := ram st (root + _)) in *. destruct (present e1), (large e1); cbn [negb orb andb] in *; try done.
  rewrite T1 by done. set (e2 := ram st (masked e1 + _)) in *.
  destruct (present e2), (large e2); cbn [negb orb andb] in *; try done.
  rewrite T2 by done. set (e3 := ram st (masked e2 + _)) in *.
  destruct (present e3), (large e3); cbn [negb orb andb] in *; try done.
  by rewrite T3.
Qed.

(** Replacing the leaf entry of [virt]. *)
Lemma leaf_update st root virt t v :
  space_wf st root -> table_at (ram st) root (table_part virt) = Some t ->
  let st' := set_ram st (store (ram st) (t + 8 * pt_index virt) v) in
  space_wf st' root /\
  (forall w, page_number w = page_number virt ->
     translate (ram st') root w = if present v then Some (masked v + w mod 2 ^ 12) else None) /\
  forall virt', page_number virt' <> page_number virt ->
    translate (ram st') root virt' = translate (ram st) root virt'.
Proof.
  intros Hwf Ht st'.
  assert (forall a, a <> t + 8 * pt_index virt -> ~ page_free (vpmm st) (a / OS_PAGE_SIZE) ->
            ram st' a = ram st a) as Hr' by (intros; by apply store_ne).
  assert (ram st' (t + 8 * pt_index virt) = v) as Hv by apply store_eq.
  pose proof (table_part_path virt) as Hp. pose proof (index_range virt 12 : index_ok (pt_index virt)) as Hi.
  split; [by apply (leaf_wf st root Hwf (table_part virt) t (pt_index virt))|]. split.
  - intros w Hw%vpath_page_number. rewrite vpath_split in Hw.
    rewrite (leaf_translate st root Hwf (table_part virt) t (pt_index virt)) by done. by rewrite Hv.
  - intros virt' Hne. apply (leaf_translate_other st root Hwf (table_part virt) t (pt_index virt)); [done..|].
    rewrite <- vpath_split, vpath_page_number. done.
Qed.

Lemma leaf_lookup st root virt t w :
  table_at (ram st) root (table_part virt) = Some t -> page_number w = page_number virt ->
  translate (ram st) root w =
  (let e := ram st (t + 8 * pt_index virt) in
   if present e then Some (masked e + w mod 2 ^ 12) else None).
Proof.
  intros Ht Hw%vpath_page_number. unfold translate. rewrite Hw, vpath_split, (translate_app _ _ _ _ _ t) by done.
  simpl. by destruct (present _).
Qed.

(** [vmm_unmap] returns true exactly when the page is mapped by a present
    4 KiB entry, and then removes that one translation and no other; when it
    returns false the state is unchanged. *)
Theorem vmm_unmap_correct st virt :
  space_wf st (active_pml4_phys st) ->
  exists b st', vmm_unmap virt st = Ok (b, st') /\
    active_pml4_phys st' = active_pml4_phys st /\ space_wf st' (active_pml4_phys st') /\
    (b = false -> st' = st) /\
    (b = true -> (exists a, vmm_virt_to_phys virt st = Ok (Some a, st)) /\
                 vmm_virt_to_phys virt st' = Ok (None, st')) /\
    forall v r, page_number v <> page_number virt ->
      vmm_virt_to_phys v st = Ok (r, st) -> vmm_virt_to_phys v st' = Ok (r, st').
Proof.
  intros Hwf. unfold vmm_unmap. rewrite (K_bind_Ok _ _ _ _ _ (pte_for_spec st virt Hwf)).
  destruct (table_at _ _ _) as [t|] eqn:Et; simpl.
  2:{ exists false, st. by split_and!; auto. }
  unfold mbind, K_bind, load_entry, gets. pose proof (fun w => leaf_lookup st _ virt t w Et) as Hl.
  destruct (present _) eqn:Epr; cbn [negb].
  2:{ exists false, st. by split_and!; auto. }
  destruct (leaf_update st _ virt t 0 Hwf Et) as (Hwf' & Hv & Ho).
  eexists true, _. split; [done|]. unfold set_ram; cbn [active_pml4_phys].
  split; [done|]. split; [exact Hwf'|]. split; [done|]. split.
  - intros _. split; [rewrite vmm_virt_to_phys_translate, Hl by done; cbn zeta; rewrite Epr; eauto|].
    rewrite vmm_virt_to_phys_translate by exact Hwf'. cbn [active_pml4_phys]. by rewrite Hv.
  - intros v r Hne. rewrite vmm_virt_to_phys_translate by done. intros [= <-].
    rewrite vmm_virt_to_phys_translate by exact Hwf'. cbn [active_pml4_phys]. by rewrite Ho.
Qed.

(** [vmm_protect] changes flags only: every translation stays. *)
Lemma vmm_protect_correct st virt flags :
  space_wf st (active_pml4_phys st) -> masked flags = 0 ->
  exists b st', vmm_protect virt flags st = Ok (b, st') /\
    active_pml4_phys st' = active_pml4_phys st /\ space_wf st' (active_pml4_phys st') /\
    (b = false -> st' = st) /\
    forall v r, vmm_virt_to_phys v st = Ok (r, st) -> vmm_virt_to_phys v st' = Ok (r, st').
Proof.
  intros Hwf Hf. unfold vmm_protect. rewrite (K_bind_Ok _ _ _ _ _ (pte_for_spec st virt Hwf)).
  destruct (table_at _ _ _) as [t|] eqn:Et; simpl.
  2:{ exists false, st. by split_and!; auto. }
  unfold mbind, K_bind, load_entry, gets. pose proof (fun w => leaf_lookup st _ virt t w Et) as Hl.
  destruct (present (ram st (t + 8 * pt_index virt))) eqn:Epr; cbn [negb].
  2:{ exists false, st. by split_and!; auto. }
  set (e := ram st _) in *. set (e' := Z.lor _ _).
  destruct (leaf_update st _ virt t e' Hwf Et) as (Hwf' & Hv & Ho).
  assert (present e' = true /\ masked e' = masked e) as [Hp' Hm'].
  { unfold e'. rewrite !present_lor, !masked_lor, masked_masked, Hf, !Z.lor_0_r. by rewrite orb_true_r. }
  eexists true, _. split; [done|]. unfold set_ram; cbn [active_pml4_phys].
  split; [done|]. split; [exact Hwf'|]. split; [done|].
  intros v r. rewrite vmm_virt_to_phys_translate by done. intros [= <-].
  rewrite vmm_virt_to_phys_translate by exact Hwf'. cbn [active_pml4_phys].
  destruct (decide (page_number v = page_number virt)) as [E|Hne]; [|by rewrite Ho].
  rewrite Hv, Hl, Hp', Hm' by done. cbn zeta. fold e. by rewrite Epr.
Qed.

(** ** Address spaces and isolation *)

(** A step that leaves every table entry of [root'] alone keeps that space. *)
Lemma space_frame st st' root' :
  space_wf st root' -> pmm_wf (vpmm st') -> vdirect_map_size st' = vdirect_map_size st ->
  (forall q, page_free (vpmm st') q -> page_free (vpmm st) q) ->
  (forall q u j, table_path q -> table_at (ram st) root' q = Some u -> index_ok j ->
     ram st' (u + 8 * j) = ram st (u + 8 * j)) ->
  space_wf st' root' /\ forall v, translate (ram st') root' v = translate (ram st) root' v.
Proof.
  intros Hwf Hpm Hsz Hfree Hram.
  assert (forall path, Forall index_ok path -> (length path <= 4)%nat ->
            agree_on (ram st) (ram st') root' path) as Hag.
  { intros path Hok Hl q i rest t -> Ht. apply table_path_prefix in Hok as [Hq Hi]; [|done]. by eapply Hram. }
  assert (forall q, table_path q -> table_at (ram st') root' q = table_at (ram st) root' q) as Hat.
  { intros q [Hq Hl]. apply table_at_agree, Hag; [done|lia]. }
  split.
  - split; [done| | | |].
    + rewrite Hsz. apply Hwf.
    + intros q u Hq. rewrite Hat by done. intros Hu.
      destruct (ws_tables _ _ Hwf q u Hq Hu) as [[? ?] Hnf]. unfold frame_ok. rewrite Hsz. auto.
    + intros q1 q2 u H1 H2. rewrite !Hat by done. by apply (ws_inj _ _ Hwf).
    + intros i Hi. rewrite (Hram [] root' i); [by apply Hwf|split; [done|simpl; lia]|done..].
  - intros v. apply translate_agree, Hag; [apply vpath_ok|done].
Qed.

(** No table on the way of [virt] in the space [root] is a table of [root']. *)
Definition tables_apart (st : vmm) (root root' virt : Z) : Prop :=
  forall q q' t, q `prefix_of` table_part virt -> table_path q' ->
    table_at (ram st) root q = Some t -> table_at (ram st) root' q' <> Some t.

Lemma mapped_isolated root root' virt phys st b st' :
  mapped root virt phys st b st' -> space_wf st root' -> tables_apart st root root' virt ->
  space_wf st' root' /\ forall v, translate (ram st') root' v = translate (ram st) root' v.
Proof.
  intros M Hwf Hap. pose proof (mapped_wf _ _ _ _ _ _ M) as Hwf'.
  assert (exists st1, extends root (table_part virt) st st1 /\ vpmm st' = vpmm st1 /\
    vdirect_map_size st' = vdirect_map_size st1 /\
    forall a, ram st' a = ram st1 a \/
      exists t, table_at (ram st1) root (table_part virt) = Some t /\ t <= a < t + OS_PAGE_SIZE)
    as (st1 & X & Hp & Hs & Hr).
  { destruct b; simpl in M; [|by exists st'; auto]. destruct M as (st1 & t & X & Ht & v & _ & _ & ->).
    exists st1. split; [done|]. split; [done|]. split; [done|]. intros a.
    destruct (decide (a = t + 8 * pt_index virt)) as [->|]; [right|left; by apply store_ne].
    exists t. split; [done|]. pose proof (index_range virt 12). unfold pt_index, index_ok, OS_PAGE_SIZE in *. lia. }
  apply space_frame; [done|apply Hwf'|rewrite Hs; apply X|rewrite Hp; apply X|].
  intros q u j Hq Hu Hj. pose proof (table_slot_used st root' Hwf q u j Hq Hu Hj) as Hnf.
  destruct (ws_tables _ _ Hwf q u Hq Hu) as [[Hal _] Huf].
  assert (forall t, t mod OS_PAGE_SIZE = 0 -> t <= u + 8 * j < t + OS_PAGE_SIZE -> u = t) as Hpage
    by (intros; unfold OS_PAGE_SIZE, index_ok in *; lia).
  destruct (Hr (u + 8 * j)) as [E|(t & Ht & Ha)].
  - rewrite E. destruct (ex_ram _ _ _ _ X (u + 8 * j)) as [?|[?|(q0 & t & Hpre & Hq0 & Ht & Ha)]]; [done|done|].
    exfalso. destruct (decide (t mod OS_PAGE_SIZE = 0)) as [Ht0|Ht0].
    + apply (Hap q0 q t); [done..|]. by rewrite <- (Hpage t).
    + apply (ex_tables _ _ _ _ X) in Ht; [|done].
      by destruct (ws_tables _ _ (ex_wf _ _ _ _ X) q0 t Hq0 Ht) as [[??] _].
  - exfalso. destruct (ws_tables _ _ (ex_wf _ _ _ _ X) _ t (table_part_path virt) Ht) as [[Ht0 _] _].
    rewrite <- (Hpage t) in Ht by done.
    destruct (ex_new _ _ _ _ X _ _ (table_part_path virt) Ht) as [H|H]; [|done].
    by apply (Hap (table_part virt) q u).
Qed.

(** C6: [vmm_space_map] refuses addresses of the kernel half without touching
    anything. For a user address it never panics, keeps the space well-formed,
    and on success the page translates to the frame of [phys] while all other
    pages of the space keep their translation. Any other space that shares no
    table with the path of [virt] stays well-formed with every translation
    unchanged: processes are isolated from each other's mappings. *)
Theorem vmm_space_map_correct st root root' virt phys flags :
  space_wf st root -> masked flags = 0 -> space_wf st root' -> tables_apart st root root' virt ->
  exists b st', vmm_space_map root virt phys flags st = Ok (b, st') /\ space_wf st' root /\
    (256 <= pml4_index virt -> b = false /\ st' = st) /\
    (b = true -> translate (ram st') root virt = Some (masked phys + virt mod OS_PAGE_SIZE)) /\
    (forall v, page_number v <> page_number virt \/ b = false ->
       translate (ram st') root v = translate (ram st) root v) /\
    space_wf st' root' /\ forall v, translate (ram st') root' v = translate (ram st) root' v.
Proof.
  intros Hwf Hf Hwf' Hap. unfold vmm_space_map.
  destruct (Z.leb_spec 256 (pml4_index virt)) as [Hk|Hk].
  { exists false, st. split_and!; auto; done. }
  set (uf := if negb (Z.land flags VMM_USER =? 0) then VMM_USER else 0).
  assert (flags_ok uf) as Huf by (unfold uf; by case_match).
  destruct (map_from_spec st root virt phys flags uf Hwf Huf Hf) as (b & st' & E & M).
  exists b, st'. split.
  { rewrite (K_bind_Ok _ _ _ _ _ (table_ptr st root [] root Hwf (conj (Forall_nil_2 _) (Nat.le_0_l _)) eq_refl)).
    exact E. }
  split; [by eapply mapped_wf|]. split; [lia|]. split; [|split].
  - intros ->. by destruct (mapped_translate _ _ _ _ _ M) as [-> _].
  - intros v Hv. destruct b; [|by apply M]. destruct Hv as [Hv|]; [|done].
    destruct (mapped_translate _ _ _ _ _ M) as [_ ->]; [done|]. by rewrite vpath_page_number.
  - by eapply mapped_isolated.
Qed.

(** ** Creating a space *)

Lemma copy_loop n lo src dst st :
  src mod OS_PAGE_SIZE = 0 -> dst mod OS_PAGE_SIZE = 0 -> src <> dst ->
  0 <= lo -> lo + Z.of_nat n <= 512 ->
  exists r1,
    for_loop n lo (fun i => e ← load_entry src i; store_entry dst i e) st = Ok (tt, set_ram st r1) /\
    (forall j, lo <= j < lo + Z.of_nat n -> r1 (dst + 8 * j) = ram st (src + 8 * j)) /\
    (forall a, (forall j, lo <= j < lo + Z.of_nat n -> a <> dst + 8 * j) -> r1 a = ram st a).
Proof.
  intros Hs Hd Hne. revert lo st. induction n as [|n IH]; intros lo st Hlo Hn.
  - exists (ram st). split; [by destruct st|]. split; [lia|done].
  - cbn [for_loop]. unfold mbind at 1, K_bind at 1.
    unfold mbind at 1, K_bind at 1, load_entry at 1, gets, store_entry at 1, modify.
    destruct (IH (lo + 1) (set_ram st (store (ram st) (dst + 8 * lo) (ram st (src + 8 * lo)))))
      as (r1 & E & Hz & Hr); [lia..|]. exists r1. rewrite E. split; [done|]. simpl in Hz, Hr. split.
    + intros j Hj. destruct (decide (j = lo)) as [->|].
      * rewrite Hr by (intros; lia). apply store_eq.
      * rewrite Hz by lia. apply store_ne. unfold OS_PAGE_SIZE in *. lia.
    + intros a Ha. rewrite Hr by (intros; apply Ha; lia). apply store_ne, Ha. lia.
Qed.

(** A fresh root whose user half is empty and whose kernel half is that of
    [kern] is a well-formed space: below the kernel entries it has the
    kernel's own tables. *)
Section fresh_root.
Context (st st' : vmm) (kern c : Z) (Hwf : space_wf st kern).
Let a := c * OS_PAGE_SIZE.
Context (Hfree : page_free (vpmm st) c) (Hpm : pmm_wf (vpmm st'))
        (Hpf : forall q, page_free (vpmm st') q <-> page_free (vpmm st) q /\ q <> c)
        (Hsz : vdirect_map_size st' = vdirect_map_size st)
        (Hzero : forall i, 0 <= i < 256 -> ram st' (a + 8 * i) = 0)
        (Hcopy : forall i, 256 <= i < 512 -> ram st' (a + 8 * i) = ram st (kern + 8 * i))
        (Hother : forall b, ~ page_free (vpmm st) (b / OS_PAGE_SIZE) -> ram st' b = ram st b).

Lemma fresh_kernel_kept :
  space_wf st' kern /\ forall v, translate (ram st') kern v = translate (ram st) kern v.
Proof.
  apply space_frame; [done|done|done|intros q; rewrite Hpf; tauto|].
  intros q u j Hq Hu Hj. apply Hother. by eapply table_slot_used.
Qed.

Lemma fresh_walk i p :
  index_ok i -> Forall index_ok p -> (length p <= 3)%nat -> 256 <= i ->
  agree_on (ram st) (ram st') kern (i :: p).
Proof.
  intros Hi Hp Hl Hk q j rest t E Ht. apply Hother. assert (Forall index_ok (i :: p)) as Hok by (by constructor).
  rewrite E in Hok. apply table_path_prefix in Hok as [Hq Hj]; [|rewrite <- E; simpl; lia].
  by eapply table_slot_used.
Qed.

(** The two walks of a kernel-half path continue at the same entry. *)
Lemma fresh_step i p :
  index_ok i -> Forall index_ok p -> (length p <= 3)%nat -> 256 <= i ->
  table_at (ram st') a (i :: p) = table_at (ram st) kern (i :: p) /\
  forall v, p <> [] -> translate_from (ram st') a (i :: p) v = translate_from (ram st) kern (i :: p) v.
Proof.
  intros Hi Hp Hl Hk. pose proof (fresh_walk i p Hi Hp Hl Hk) as Hag.
  assert (ram st' (kern + 8 * i) = ram st (kern + 8 * i)) as He by apply (agree_on_cons _ _ _ _ _ Hag).
  rewrite <- (table_at_agree _ _ _ _ Hag). split.
  - cbn [table_at]. by rewrite Hcopy, He by (unfold index_ok in Hi; lia).
  - intros v _. rewrite <- (translate_agree _ _ _ _ _ Hag). cbn [translate_from].
    by rewrite Hcopy, He by (unfold index_ok in Hi; lia).
Qed.

Lemma fresh_user i p : 0 <= i < 256 -> table_at (ram st') a (i :: p) = None.
Proof. intros Hi. cbn [table_at]. by rewrite Hzero. Qed.

Lemma fresh_table p t :
  table_path p -> table_at (ram st') a p = Some t ->
  (p = [] /\ t = a) \/ (p <> [] /\ table_at (ram st) kern p = Some t).
Proof.
  intros [Hp Hl] Ht. destruct p as [|i p]; [left; simpl in Ht; split; congruence|right].
  apply Forall_cons in Hp as [Hi Hp]. split; [done|]. simpl in Hl.
  destruct (Z.lt_ge_cases i 256) as [Hu|Hk].
  - rewrite fresh_user in Ht by (unfold index_ok in Hi; lia). done.
  - destruct (fresh_step i p Hi Hp ltac:(lia) Hk) as [<- _]. done.
Qed.

Lemma fresh_root_wf :
  space_wf st' a /\
  forall v, translate (ram st') a v =
            if pml4_index v <? 256 then None else translate (ram st) kern v.
Proof.
  destruct (pmm_alloc_page_facts _ c (ws_pmm _ _ Hwf) Hfree) as (_ & _ & Hr & Hal & Hdiv & _).
  pose proof (ws_direct _ _ Hwf) as Hd. fold a in Hr, Hal, Hdiv.
  assert (forall p, table_path p -> table_at (ram st) kern p <> Some a) as Hnew.
  { intros p Hp Ht. destruct (ws_tables _ _ Hwf p a Hp Ht) as [_ H]. by rewrite Hdiv in H. }
  split.
  - split; [done|by rewrite Hsz| | |].
    + intros p t Hp Ht. destruct (fresh_table p t Hp Ht) as [[-> ->]|[_ Ht']].
      * split; [split; [done|rewrite Hsz; lia]|]. rewrite Hdiv, Hpf. tauto.
      * destruct (ws_tables _ _ Hwf p t Hp Ht') as [[? ?] ?]. rewrite Hpf.
        split; [split; [done|by rewrite Hsz]|tauto].
    + intros p q t Hp Hq Ht1 Ht2.
      destruct (fresh_table p t Hp Ht1) as [[-> ->]|[_ H1]], (fresh_table q _ Hq Ht2) as [[-> E]|[_ H2]];
        [done|by destruct (Hnew q)|subst t; by destruct (Hnew p)|]. by apply (ws_inj _ _ Hwf p q t).
    + intros i Hi. destruct (Z.lt_ge_cases i 256); [rewrite Hzero by (unfold index_ok in Hi; lia); done|].
      rewrite Hcopy by (unfold index_ok in Hi; lia). by apply Hwf.
  - intros v. pose proof (vpath_ok v) as Hok. unfold translate, vpath in *. apply Forall_cons in Hok as [Hi Hp].
    destruct (Z.ltb_spec (pml4_index v) 256) as [Hu|Hk].
    + cbn [translate_from]. rewrite Hzero by (unfold index_ok in Hi; lia). done.
    + by apply fresh_step.
Qed.
End fresh_root.

(** [vmm_space_create] returns 0 only when no frame is free, with the state
    unchanged. Otherwise it returns a frame that was free, now the root of a
    well-formed space in which no user address is mapped and every kernel
    address translates as in the active space, which is itself unchanged. *)
Theorem vmm_space_create_correct st :
  space_wf st (active_pml4_phys st) -> ~ page_free (vpmm st) 0 ->
  exists a st', vmm_space_create st = Ok (a, st') /\
    active_pml4_phys st' = active_pml4_phys st /\
    ((a = 0 /\ st' = st /\ forall q, ~ page_free (vpmm st) q) \/
     (a <> 0 /\ page_free (vpmm st) (a / OS_PAGE_SIZE) /\
      (forall q, page_free (vpmm st') q <-> page_free (vpmm st) q /\ q <> a / OS_PAGE_SIZE) /\
      space_wf st' a /\ space_wf st' (active_pml4_phys st') /\
      forall v, translate (ram st') (active_pml4_phys st') v = translate (ram st) (active_pml4_phys st) v /\
                translate (ram st') a v =
                if pml4_index v <? 256 then None else translate (ram st) (active_pml4_phys st) v)).
Proof.
  intros Hwf H0. set (kern := active_pml4_phys st) in *. unfold vmm_space_create.
  destruct (pmm_alloc_page_cases _ (ws_pmm _ _ Hwf)) as [(c & Hc & _ & E)|(Hno & E)].
  2:{ exists 0, st. unfold mbind at 1, K_bind at 1, alloc_page. rewrite E, Z.eqb_refl.
      split; [by destruct st|]. split; [done|]. auto. }
  destruct (pmm_alloc_page_facts _ c (ws_pmm _ _ Hwf) Hc) as (Hpm & Hpf & Hr & Hal & Hdiv & Hne).
  pose proof (ws_direct _ _ Hwf) as Hd. set (a := c * OS_PAGE_SIZE) in *.
  destruct (ws_tables _ _ Hwf [] kern ltac:(by split; [|simpl; lia]) eq_refl) as [[Hkal Hkr] Hku].
  assert (kern <> a) as Hka by (intros ->; by rewrite Hdiv in Hku).
  set (st1 := set_pmm st (take_page (vpmm st) c)).
  destruct (zero_loop 256 0 a st1) as (r1 & E1 & Hz1 & Ho1).
  destruct (copy_loop 256 256 kern a (set_ram st1 r1)) as (r2 & E2 & Hz2 & Ho2); [done..|lia|lia|].
  change (0 + Z.of_nat 256) with 256 in *. change (256 + Z.of_nat 256) with 512 in *.
  exists a, (set_ram st1 r2). split.
  { unfold mbind at 1, K_bind at 1, alloc_page. rewrite E. fold st1. rewrite Hne.
    rewrite (K_bind_Ok _ _ _ _ _ (phys_to_virt_Ok a st1 ltac:(simpl; lia))).
    unfold gets at 1. unfold mbind at 1, K_bind at 1. change (active_pml4_phys st1) with kern.
    rewrite (K_bind_Ok _ _ _ _ _ (phys_to_virt_Ok kern st1 ltac:(simpl; lia))).
    rewrite (K_bind_Ok _ _ _ _ _ E1), (K_bind_Ok _ _ _ _ _ E2). done. }
  split; [done|]. right. cbn [active_pml4_phys set_ram st1 vpmm ram set_pmm] in *.
  assert (forall b, ~ page_free (vpmm st) (b / OS_PAGE_SIZE) -> r2 b = ram st b) as Hother.
  { intros b Hb. assert (forall j, 0 <= j < 512 -> b <> a + 8 * j) as Hba.
    { intros j Hj ->. apply Hb. replace ((a + 8 * j) / OS_PAGE_SIZE) with c; [done|].
      unfold OS_PAGE_SIZE in *. lia. }
    rewrite Ho2, Ho1; [done|intros; apply Hba; lia|intros; apply Hba; lia]. }
  assert (forall i, 0 <= i < 256 -> r2 (a + 8 * i) = 0) as Hzero.
  { intros i Hi. rewrite Ho2 by (intros; lia). by apply Hz1. }
  assert (forall i, 256 <= i < 512 -> r2 (a + 8 * i) = ram st (kern + 8 * i)) as Hcopy.
  { intros i Hi. rewrite Hz2 by done. cbn [ram set_ram]. rewrite Ho1; [done|].
    intros j Hj Ej. apply Hka. unfold OS_PAGE_SIZE in *. lia. }
  destruct (fresh_kernel_kept st (set_ram st1 r2) kern c Hwf Hpm Hpf eq_refl Hother) as [Hk1 Hk2].
  destruct (fresh_root_wf st (set_ram st1 r2) kern c Hwf Hc Hpm Hpf eq_refl Hzero Hcopy Hother) as [Ha1 Ha2].
  rewrite Hdiv. split.
  { intros Ha. apply H0. assert (c = 0) as <-; [|exact Hc]. unfold a, OS_PAGE_SIZE in Ha. clear - Ha. lia. }
  split; [exact Hc|]. split; [exact Hpf|]. split; [exact Ha1|]. split; [exact Hk1|].
  intros v. split; [apply Hk2|apply Ha2].
Qed.

(** ** Destroying a space *)

(** The frames a space owns, in the order they are freed. *)
Definition owned_pt (r : ram_t) (pt : Z) : list Z :=
  flat_map (fun i => let e := r (pt + 8 * i) in if present e then [masked e] else []) (seqZ 0 512).
Definition owned_via (owned : Z -> list Z) (r : ram_t) (table : Z) (n : Z) : list Z :=
  flat_map (fun i => let e := r (table + 8 * i) in
              if negb (present e) then []
              else if large e then [masked e]
              else owned (masked e) ++ [masked e]) (seqZ 0 n).
Definition owned_pd (r : ram_t) (pd : Z) : list Z := owned_via (owned_pt r) r pd 512.
Definition owned_pdpt (r : ram_t) (pdpt : Z) : list Z := owned_via (owned_pd r) r pdpt 512.
Definition owned_space (r : ram_t) (root : Z) : list Z :=
  owned_via (owned_pdpt r) r root 256 ++ [root].

Fixpoint free_all (l : list Z) : K vmm unit :=
  match l with
  | [] => mret tt
  | a :: l' => _ ← free_page a; free_all l'
  end.

Lemma free_all_app l1 l2 st : free_all (l1 ++ l2) st = (_ ← free_all l1; free_all l2) st.
Proof.
  revert st. induction l1 as [|a l1 IH]; intros st; [done|]. cbn [free_all app].
  unfold mbind, K_bind in *. destruct (free_page a st) as [[[] s]|]; [apply IH|done].
Qed.

Lemma free_all_one a st : free_all [a] st = free_page a st.
Proof. cbn. unfold mbind, K_bind. by destruct (free_page a st) as [[[] s]|]. Qed.

(** Freeing changes the allocator only. *)
Definition same_tables (st st' : vmm) : Prop :=
  ram st' = ram st /\ vdirect_map_size st' = vdirect_map_size st /\
  active_pml4_phys st' = active_pml4_phys st.

Lemma free_all_same l st st' : free_all l st = Ok (tt, st') -> same_tables st st'.
Proof.
  revert st. induction l as [|a l IH]; intros st H.
  { injection H as <-. by split_and!. }
  cbn [free_all] in H.
  K_inv H. destruct r. apply IH in H. unfold free_page in E.
  destruct (pmm_free_page a (vpmm st)) as [[[] pm]|]; [|done]. simplify_eq. exact H.
Qed.

(** A loop whose body frees the frames [f i] frees them all in order. *)
Lemma for_loop_free n lo (body : Z -> K vmm unit) (f : Z -> list Z) st :
  (forall i st', lo <= i < lo + Z.of_nat n -> same_tables st st' -> body i st' = free_all (f i) st') ->
  for_loop n lo body st = free_all (flat_map f (seqZ lo (Z.of_nat n))) st.
Proof.
  revert lo st. induction n as [|n IH]; intros lo st H; [done|].
  rewrite seqZ_cons by lia. cbn [for_loop flat_map]. rewrite free_all_app.
  unfold mbind at 1, K_bind at 1. rewrite H by (lia || done).
  unfold mbind, K_bind. destruct (free_all (f lo) st) as [[[] st1]|] eqn:E; [|done].
  apply free_all_same in E as (E1 & E2 & E3).
  replace (Z.pred (Z.of_nat (S n))) with (Z.of_nat n) by lia. apply IH.
  intros i st' Hi (S1 & S2 & S3). apply H; [lia|]. unfold same_tables. split; [congruence|]. split; congruence.
Qed.

Lemma destroy_pt_free pt st : destroy_pt pt st = free_all (owned_pt (ram st) pt) st.
Proof.
  unfold destroy_pt. rewrite (for_loop_free 512 0 _
    (fun i => let e := ram st (pt + 8 * i) in if present e then [masked e] else [])); [done|].
  intros i st' Hi (E & _). unfold mbind, K_bind, load_entry, gets. rewrite E. cbn zeta.
  destruct (present _); [by rewrite free_all_one|done].
Qed.

(** One level of the nested loops, for the tables of a well-formed space. *)
Section level.
Context (st : vmm) (root : Z) (Hwf : space_wf st root) (p : list Z) (table : Z) (Hp : table_path p)
        (Hs : (length p <= 2)%nat) (Ht : table_at (ram st) root p = Some table).
Context (destroy : Z -> K vmm unit) (owned : Z -> list Z).
Context (Hdestroy : forall i t st', index_ok i -> table_at (ram st) root (p ++ [i]) = Some t ->
           same_tables st st' -> destroy t st' = free_all (owned t) st').

Lemma child_at i : present (ram st (table + 8 * i)) = true -> large (ram st (table + 8 * i)) = false ->
  table_at (ram st) root (p ++ [i]) = Some (masked (ram st (table + 8 * i))).
Proof. intros H1 H2. rewrite table_at_app, Ht. simpl. by rewrite H1, H2. Qed.

Lemma child_free i st' :
  index_ok i -> same_tables st st' -> present (ram st (table + 8 * i)) = true ->
  large (ram st (table + 8 * i)) = false ->
  let e := masked (ram st (table + 8 * i)) in
  (pt ← phys_to_virt e; _ ← destroy pt; free_page e) st' = free_all (owned e ++ [e]) st'.
Proof.
  intros Hi Hsame Hpr Hl e. pose proof (child_at i Hpr Hl) as Hc.
  destruct (ws_tables _ _ Hwf (p ++ [i]) e (table_path_snoc p i Hp Hs Hi) Hc) as [[_ [_ Hlt]] _].
  destruct Hsame as (E1 & E2 & E3).
  rewrite (K_bind_Ok _ _ _ _ _ (phys_to_virt_Ok e st' ltac:(rewrite E2; done))).
  rewrite free_all_app. unfold mbind, K_bind. rewrite (Hdestroy i e) by done.
  destruct (free_all (owned e) st') as [[[] s]|]; [|done]. by rewrite free_all_one.
Qed.
End level.

Lemma destroy_pd_free st root p pd st' :
  space_wf st root -> table_path p -> (length p <= 2)%nat -> table_at (ram st) root p = Some pd ->
  same_tables st st' -> destroy_pd pd st' = free_all (owned_pd (ram st) pd) st'.
Proof.
  intros Hwf Hp Hs Ht Hst. unfold destroy_pd, owned_pd, owned_via. cbn [Z.to_nat].
  rewrite (for_loop_free 512 0 _ (fun i => let e := ram st (pd + 8 * i) in
    if negb (present e) then [] else if large e then [masked e] else owned_pt (ram st) (masked e) ++ [masked e]));
    [done|].
  intros i s Hi Hss. assert (same_tables st s) as Hsame.
  { destruct Hst as (?&?&?), Hss as (?&?&?). split; [congruence|]. split; congruence. }
  unfold mbind at 1, K_bind at 1, load_entry at 1, gets at 1.
  replace (ram s) with (ram st) by (symmetry; apply Hsame). cbn zeta.
  destruct (present _) eqn:Epr; cbn [negb]; [|done]. destruct (large _) eqn:El; [by rewrite free_all_one|].
  apply (child_free st root Hwf p pd Hp Hs Ht destroy_pt (owned_pt (ram st))); try done.
  intros j t s' Hj Hjt (E & _). by rewrite destroy_pt_free, E.
Qed.

Lemma destroy_pdpt_free st root p pdpt st' :
  space_wf st root -> table_path p -> (length p <= 1)%nat -> table_at (ram st) root p = Some pdpt ->
  same_tables st st' -> destroy_pdpt pdpt st' = free_all (owned_pdpt (ram st) pdpt) st'.
Proof.
  intros Hwf Hp Hs Ht Hst. unfold destroy_pdpt, owned_pdpt, owned_via at 1.
  rewrite (for_loop_free 512 0 _ (fun i => let e := ram st (pdpt + 8 * i) in
    if negb (present e) then [] else if large e then [masked e] else owned_pd (ram st) (masked e) ++ [masked e]));
    [done|].
  intros i s Hi Hss. assert (same_tables st s) as Hsame.
  { destruct Hst as (?&?&?), Hss as (?&?&?). split; [congruence|]. split; congruence. }
  unfold mbind at 1, K_bind at 1, load_entry at 1, gets at 1.
  replace (ram s) with (ram st) by (symmetry; apply Hsame). cbn zeta.
  destruct (present _) eqn:Epr; cbn [negb]; [|done]. destruct (large _) eqn:El; [by rewrite free_all_one|].
  apply (child_free st root Hwf p pdpt Hp ltac:(lia) Ht destroy_pd (owned_pd (ram st))); try done.
  intros j t s' Hj Hjt Hs'. apply (destroy_pd_free st root (p ++ [j])); try done.
  - apply table_path_snoc; [done|lia|done].
  - rewrite length_app. simpl. lia.
Qed.

Lemma destroy_user_half_free st root :
  space_wf st root -> destroy_user_half root st = free_all (owned_via (owned_pdpt (ram st)) (ram st) root 256) st.
Proof.
  intros Hwf. unfold destroy_user_half, owned_via.
  rewrite (for_loop_free 256 0 _ (fun i => let e := ram st (root + 8 * i) in
    if negb (present e) then [] else if large e then [masked e] else owned_pdpt (ram st) (masked e) ++ [masked e]));
    [done|].
  intros i s Hi Hsame. change (0 + Z.of_nat 256) with 256 in Hi.
  unfold mbind at 1, K_bind at 1, load_entry at 1, gets at 1.
  replace (ram s) with (ram st) by (symmetry; apply Hsame). cbn zeta.
  assert (large (ram st (root + 8 * i)) = false) as El by (apply (ws_pml4 _ _ Hwf); unfold index_ok; lia).
  destruct (present _) eqn:Epr; cbn [negb]; [|done]. rewrite El.
  assert (table_path []) as Hnil by (split; [done|simpl; lia]).
  apply (child_free st root Hwf [] root Hnil ltac:(simpl; lia) eq_refl destroy_pdpt (owned_pdpt (ram st)));
    try done; [|unfold index_ok; lia].
  intros j t s' Hj Hjt Hs'. apply (destroy_pdpt_free st root [j]); try done.
  apply (table_path_snoc []); [done|simpl; lia|done].
Qed.

Lemma owned_via_aligned owned r table n :
  (forall t, Forall (fun a => a mod OS_PAGE_SIZE = 0) (owned t)) ->
  Forall (fun a => a mod OS_PAGE_SIZE = 0) (owned_via owned r table n).
Proof.
  intros H. apply Forall_forall. intros a Ha%list_elem_of_In%in_flat_map. destruct Ha as (i & _ & Ha).
  apply list_elem_of_In in Ha. cbn zeta in Ha. pose proof (masked_range (r (table + 8 * i))) as [_ Hm].
  destruct (negb _); [by apply elem_of_nil in Ha|]. destruct (large _).
  - apply list_elem_of_singleton in Ha as ->. done.
  - apply elem_of_app in Ha as [Ha|Ha].
    + specialize (H (masked (r (table + 8 * i)))). rewrite Forall_forall in H. by apply H.
    + apply list_elem_of_singleton in Ha as ->. done.
Qed.

Lemma owned_pt_aligned r pt : Forall (fun a => a mod OS_PAGE_SIZE = 0) (owned_pt r pt).
Proof.
  apply Forall_forall. intros a Ha%list_elem_of_In%in_flat_map. destruct Ha as (i & _ & Ha).
  apply list_elem_of_In in Ha. cbn zeta in Ha. destruct (present _); [|by apply elem_of_nil in Ha].
  apply list_elem_of_singleton in Ha as ->. apply masked_range.
Qed.

Lemma free_all_spec l st :
  pmm_wf (vpmm st) -> NoDup l ->
  Forall (fun a => a mod OS_PAGE_SIZE = 0 /\ valid_page (a / OS_PAGE_SIZE) /\
                   ~ page_free (vpmm st) (a / OS_PAGE_SIZE)) l ->
  exists st', free_all l st = Ok (tt, st') /\ same_tables st st' /\ pmm_wf (vpmm st') /\
    forall q, page_free (vpmm st') q <-> page_free (vpmm st) q \/ q * OS_PAGE_SIZE ∈ l.
Proof.
  revert st. induction l as [|a l IH]; intros st Hwf Hnd Hl.
  { exists st. split; [done|]. split; [by split_and!|]. split; [done|]. intros q. rewrite elem_of_nil. tauto. }
  apply NoDup_cons in Hnd as [Hna Hnd]. apply Forall_cons in Hl as [(Hal & Hv & Hu) Hl].
  assert (bitmap_test (vpmm st) (a / OS_PAGE_SIZE) = true) as Ht.
  { destruct (bitmap_test _ _) eqn:E; [done|]. exfalso. apply Hu. by split. }
  assert (a / OS_PAGE_SIZE * OS_PAGE_SIZE = a) as Ea by (unfold OS_PAGE_SIZE in *; clear - Hal; lia).
  set (st1 := set_pmm st (release_page (vpmm st) (a / OS_PAGE_SIZE))).
  assert (free_page a st = Ok (tt, st1)) as Ef.
  { unfold free_page. rewrite <- Ea at 1. by rewrite pmm_free_page_Ok. }
  cbn [free_all]. rewrite (K_bind_Ok _ _ _ _ _ Ef).
  assert (forall q, page_free (vpmm st1) q <-> page_free (vpmm st) q \/ q = a / OS_PAGE_SIZE) as Hf1
    by (intros q; by apply page_free_release).
  destruct (IH st1) as (st' & E & Hs & Hwf' & Hf); [by apply release_page_wf|done| |].
  - apply Forall_forall. intros b Hb4. rewrite Forall_forall in Hl.
    destruct (Hl b Hb4) as (Hb1 & Hb2 & Hb3). rewrite Hf1. split; [done|]. split; [done|].
    intros [?|E]; [done|]. apply Hna. replace a with b; [done|].
    rewrite <- Ea, <- E. unfold OS_PAGE_SIZE in *. clear - Hb1. lia.
  - exists st'. split; [done|]. split; [exact Hs|]. split; [done|].
    intros q. rewrite Hf, Hf1, elem_of_cons.
    assert (q = a / OS_PAGE_SIZE <-> q * OS_PAGE_SIZE = a) as Hq; [|tauto].
    split; [by intros ->|]. intros <-. unfold OS_PAGE_SIZE. clear. lia.
Qed.

(** C33: destroying an address space whose frames are distinct and in use returns
    without panic and gives back to the allocator exactly the frames the space
    owns: its root, its user-half tables and the frames mapped in them. Page
    table memory, and with it every other space, is untouched. Destroying the
    null or the active space does nothing. *)
Theorem vmm_space_destroy_correct st root :
  space_wf st root ->
  NoDup (owned_space (ram st) root) ->
  Forall (fun a => valid_page (a / OS_PAGE_SIZE) /\ ~ page_free (vpmm st) (a / OS_PAGE_SIZE))
         (owned_space (ram st) root) ->
  exists st', vmm_space_destroy root st = Ok (tt, st') /\
    if (root =? 0) || (root =? active_pml4_phys st) then st' = st
    else ram st' = ram st /\ active_pml4_phys st' = active_pml4_phys st /\ pmm_wf (vpmm st') /\
         forall q, page_free (vpmm st') q <->
                   page_free (vpmm st) q \/ q * OS_PAGE_SIZE ∈ owned_space (ram st) root.
Proof.
  intros Hwf Hnd Hl. unfold vmm_space_destroy. unfold gets. unfold mbind at 1, K_bind at 1.
  destruct ((root =? 0) || _); [by exists st|].
  rewrite (K_bind_Ok _ _ _ _ _ (table_ptr st root [] root Hwf (conj (Forall_nil_2 _) (Nat.le_0_l _)) eq_refl)).
  assert (Forall (fun a => a mod OS_PAGE_SIZE = 0) (owned_space (ram st) root)) as Hal.
  { unfold owned_space. apply Forall_app. split.
    - apply owned_via_aligned. intros. apply owned_via_aligned. intros. apply owned_via_aligned.
      intros. apply owned_pt_aligned.
    - constructor; [|done].
      by destruct (ws_tables _ _ Hwf [] root (conj (Forall_nil_2 _) (Nat.le_0_l _)) eq_refl) as [[? _] _]. }
  destruct (free_all_spec _ st (ws_pmm _ _ Hwf) Hnd) as (st' & E & (S1 & S2 & S3) & Hwf' & Hf).
  { apply Forall_forall. intros b Hb. rewrite Forall_forall in Hl, Hal. auto. }
  exists st'. split; [|done]. rewrite <- E. clear E. unfold owned_space. rewrite free_all_app.
  unfold mbind, K_bind. rewrite (destroy_user_half_free st root Hwf).
  destruct (free_all _ st) as [[[] s]|]; [|done]. symmetry. apply free_all_one.
Qed.

(** ** Concrete instances *)

(** Empty page tables at frame 512, three free frames from frame 256 on. *)
Definition three_free : pmm := release_page (release_page one_free 257) 258.
Definition empty_machine : vmm :=
  mk_vmm 0x200000 0xffff800000000000 OS_EARLY_DIRECT_MAP_SIZE (fun _ => 0) three_free.

Lemma three_free_facts :
  pmm_wf three_free /\ forall q, page_free three_free q <-> q = 256 \/ q = 257 \/ q = 258.
Proof.
  assert (forall st p, pmm_wf st -> valid_page p -> ~ page_free st p ->
            pmm_wf (release_page st p) /\
            forall q, page_free (release_page st p) q <-> page_free st q \/ q = p) as Hrel.
  { intros st p Hwf Hp Hnf. split; [|intros q; by apply page_free_release].
    apply release_page_wf; [done|done|]. destruct (bitmap_test st p) eqn:E; [done|]. by destruct Hnf. }
  destruct (Hrel one_free 257 one_free_wf) as [W1 F1]; [pmm_lia|rewrite one_free_page; lia|].
  destruct (Hrel _ 258 W1) as [W2 F2]; [pmm_lia|rewrite F1, one_free_page; lia|].
  split; [exact W2|]. intros q. unfold three_free. rewrite F2, F1, one_free_page. tauto.
Qed.

Lemma empty_tables root p t :
  table_at (fun _ => 0) root p = Some t -> p = [] /\ t = root.
Proof. destruct p as [|i p]; simpl; [split; congruence|done]. Qed.

Lemma empty_machine_wf root :
  root mod OS_PAGE_SIZE = 0 -> 0x200000 <= root < 0x300000 -> space_wf empty_machine root.
Proof.
  intros Hal Hr. destruct three_free_facts as [Hwf Hf]. split; simpl.
  - exact Hwf.
  - unfold PMM_MAX_PHYS_BYTES. lia.
  - intros p t _ [-> ->]%empty_tables. rewrite Hf. unfold frame_ok. simpl.
    unfold OS_PAGE_SIZE, OS_EARLY_DIRECT_MAP_SIZE in *. lia.
  - intros p q t _ _ [-> ->]%empty_tables [-> _]%empty_tables. done.
  - done.
Qed.

Lemma vmm_map_correct_witness :
  exists b st', vmm_map 0xffff900000000000 0x123000 VMM_WRITABLE empty_machine = Ok (b, st') /\
    space_wf st' (active_pml4_phys st').
Proof.
  destruct (vmm_map_correct empty_machine 0xffff900000000000 0x123000 VMM_WRITABLE
              (empty_machine_wf 0x200000 eq_refl ltac:(lia)) eq_refl) as (b & st' & E & _ & H & _).
  exists b, st'. split; [exact E|exact H].
Defined.

Lemma vmm_unmap_correct_witness :
  exists b st', vmm_unmap 0x400000 empty_machine = Ok (b, st') /\ space_wf st' (active_pml4_phys st').
Proof.
  destruct (vmm_unmap_correct empty_machine 0x400000
              (empty_machine_wf 0x200000 eq_refl ltac:(lia))) as (b & st' & E & _ & H & _).
  exists b, st'. split; [exact E|exact H].
Defined.

Lemma vmm_space_map_correct_witness :
  exists b st', vmm_space_map 0x201000 0x400000 0x123000 VMM_USER empty_machine = Ok (b, st') /\
    space_wf st' 0x201000 /\ forall v, translate (ram st') 0x202000 v = translate (fun _ => 0) 0x202000 v.
Proof.
  destruct (vmm_space_map_correct empty_machine 0x201000 0x202000 0x400000 0x123000 VMM_USER
              (empty_machine_wf 0x201000 eq_refl ltac:(lia)) eq_refl
              (empty_machine_wf 0x202000 eq_refl ltac:(lia)))
    as (b & st' & E & H & _ & _ & _ & _ & H2).
  - intros q q' t _ _ [-> ->]%empty_tables [_ ?]%empty_tables. discriminate.
  - exists b, st'. split; [exact E|]. split; [exact H|exact H2].
Defined.

Lemma vmm_space_create_correct_witness :
  exists a st', vmm_space_create empty_machine = Ok (a, st') /\
    active_pml4_phys st' = 0x200000.
Proof.
  destruct (vmm_space_create_correct empty_machine (empty_machine_wf 0x200000 eq_refl ltac:(lia)))
    as (a & st' & E & H & _).
  - intros H%three_free_facts. lia.
  - exists a, st'. split; [exact E|exact H].
Defined.

Lemma owned_via_empty owned table n : owned_via owned (fun _ => 0) table n = [].
Proof. unfold owned_via. by induction (seqZ 0 n). Qed.

Lemma vmm_space_destroy_correct_witness :
  exists st', vmm_space_destroy 0x201000 empty_machine = Ok (tt, st') /\ page_free (vpmm st') 0x201.
Proof.
  assert (owned_space (ram empty_machine) 0x201000 = [0x201000]) as Eo.
  { unfold owned_space. simpl ram. rewrite owned_via_empty. done. }
  destruct (vmm_space_destroy_correct empty_machine 0x201000
              (empty_machine_wf 0x201000 eq_refl ltac:(lia))) as (st' & E & _ & _ & _ & H).
  - rewrite Eo. apply NoDup_singleton.
  - rewrite Eo. constructor; [|done]. split; [pmm_lia|]. intros Hf%three_free_facts. pmm_lia.
  - exists st'. split; [exact E|]. apply H. right. rewrite Eo. apply list_elem_of_singleton. reflexivity.
Defined.
End Vmm.
