(* ===== verification/Heap.v ===== *)
(** * The kernel heap

    Models [kernel/mem/heap.c]: a first-fit allocator with immediate
    coalescing over block headers in heap memory. Header memory is a total
    function from addresses to [struct block]; pointers are addresses and NULL
    is 0. What the heap needs of the page allocator and the page tables is the
    class [PageBacking] with its laws, against which the theorems are proved;
    [kernel/mem/pmm.c] and [kernel/mem/vmm.c] discharge it in [HeapPages].

    The list searches take fuel, bounded by the number of blocks that fit into
    the heap; running out of it is a [Panic] the theorems exclude. *)

From S2P Require Import Prelude Pmm.
Import Pmm.

(** ** Where heap pages come from *)

Class PageBacking (S : Type) := {
  pb_alloc : K S Z;                     (** [pmm_alloc_page()] *)
  pb_free : Z -> K S unit;              (** [pmm_free_page(page)] *)
  pb_map : Z -> Z -> Z -> K S bool;     (** [vmm_map(virt, phys, flags)] *)
}.

(** [pb_left] bounds the pages that can still be handed out and [pb_held] says
    that a page is allocated and not in use by the backing itself. *)
Class PageBackingLaws (S : Type) `{PageBacking S} := {
  pb_inv : S -> Prop;
  pb_left : S -> Z;
  pb_held : S -> Z -> Prop;
  pb_left_nonneg : forall s, pb_inv s -> 0 <= pb_left s;
  pb_alloc_spec : forall s, pb_inv s -> exists a s', pb_alloc s = Ok (a, s') /\ pb_inv s' /\
    ((a = PMM_ALLOC_FAILED /\ pb_left s' = pb_left s) \/
     (a <> PMM_ALLOC_FAILED /\ pb_held s' a /\ pb_left s' = pb_left s - 1));
  pb_map_spec : forall s virt a, pb_inv s -> pb_held s a ->
    exists b s', pb_map virt a 0x002 s = Ok (b, s') /\ pb_inv s' /\ pb_held s' a /\ pb_left s' <= pb_left s;
  pb_free_spec : forall s a, pb_inv s -> pb_held s a ->
    exists s', pb_free a s = Ok (tt, s') /\ pb_inv s' /\ pb_left s' = pb_left s + 1;
}.

Module Heap.

Definition HEAP_VIRT_BASE : Z := 0xffff900000000000.
Definition HEAP_MAGIC : Z := 0xc0de4ea1.
Definition BLOCK_FREE : Z := 0.
Definition BLOCK_USED : Z := 1.
Definition sizeof_block : Z := 40.
Definition MIN_SPLIT : Z := sizeof_block + 16.

Record block := mk_block {
  magic : Z;
  flags : Z;
  size : Z;
  prev : Z;
  next_free : Z;
  prev_free : Z;
}.

(** Header memory and assignments to one field of a header. *)
Definition hmem : Type := Z -> block.
Definition upd_block (m : hmem) (a : Z) (f : block -> block) : hmem :=
  fun x => if x =? a then f (m a) else m x.
Definition set_flags v (b : block) := mk_block (magic b) v (size b) (prev b) (next_free b) (prev_free b).
Definition set_size v (b : block) := mk_block (magic b) (flags b) v (prev b) (next_free b) (prev_free b).
Definition set_prev v (b : block) := mk_block (magic b) (flags b) (size b) v (next_free b) (prev_free b).
Definition set_next_free v (b : block) := mk_block (magic b) (flags b) (size b) (prev b) v (prev_free b).
Definition set_prev_free v (b : block) := mk_block (magic b) (flags b) (size b) (prev b) (next_free b) v.

Section heap.
Context {S : Type} `{PageBacking S}.

Record heap := mk_heap {
  free_list : Z;
  heap_last : Z;
  heap_end : Z;
  hm : hmem;
  back : S;
}.

Definition with_hm (st : heap) (m : hmem) : heap :=
  mk_heap (free_list st) (heap_last st) (heap_end st) m (back st).
Definition with_free_list (st : heap) (b : Z) : heap :=
  mk_heap b (heap_last st) (heap_end st) (hm st) (back st).
Definition with_last (st : heap) (b : Z) : heap :=
  mk_heap (free_list st) b (heap_end st) (hm st) (back st).
Definition with_end (st : heap) (e : Z) : heap :=
  mk_heap (free_list st) (heap_last st) e (hm st) (back st).
Definition with_back (st : heap) (s : S) : heap :=
  mk_heap (free_list st) (heap_last st) (heap_end st) (hm st) s.

Definition upd_hm (st : heap) (a : Z) (f : block -> block) : heap := with_hm st (upd_block (hm st) a f).

Definition lift {A} (k : K S A) : K heap A := fun st =>
  match k (back st) with
  | Ok (a, s) => Ok (a, with_back st s)
  | Panic msg => Panic msg
  end.

Definition free_list_add (b : Z) (st : heap) : heap :=
  let st1 := upd_hm st b (set_next_free (free_list st)) in
  let st2 := upd_hm st1 b (set_prev_free 0) in
  let st3 := if free_list st2 =? 0 then st2 else upd_hm st2 (free_list st2) (set_prev_free b) in
  with_free_list st3 b.

Definition free_list_remove (b : Z) (st : heap) : heap :=
  let st1 :=
    if negb (prev_free (hm st b) =? 0)
    then upd_hm st (prev_free (hm st b)) (set_next_free (next_free (hm st b)))
    else with_free_list st (next_free (hm st b)) in
  let st2 :=
    if negb (next_free (hm st1 b) =? 0)
    then upd_hm st1 (next_free (hm st1 b)) (set_prev_free (prev_free (hm st1 b)))
    else st1 in
  let st3 := upd_hm st2 b (set_next_free 0) in
  upd_hm st3 b (set_prev_free 0).

Definition block_next_mem (st : heap) (b : Z) : Z :=
  let n := u64 (b + size (hm st b)) in
  if heap_end st <=? n then 0 else n.

Definition expand : K heap bool :=
  page ← lift pb_alloc;
  if page =? PMM_ALLOC_FAILED then mret false else
  end0 ← gets heap_end;
  ok ← lift (pb_map end0 page 0x002);
  if negb ok then _ ← lift (pb_free page); mret false else
  _ ← modify (fun st =>
    let b := heap_end st in
    let st := with_end st (u64 (heap_end st + OS_PAGE_SIZE)) in
    if negb (heap_last st =? 0) && (flags (hm st (heap_last st)) =? BLOCK_FREE) then
      let l := heap_last st in
      let st := free_list_remove l st in
      let st := upd_hm st l (set_size (u64 (size (hm st l) + OS_PAGE_SIZE))) in
      free_list_add l st
    else
      let st := upd_hm st b (fun _ => mk_block HEAP_MAGIC BLOCK_FREE OS_PAGE_SIZE (heap_last st) 0 0) in
      let st := with_last st b in
      free_list_add b st);
  mret true.

Definition heap_init (s : S) : outcome heap :=
  let st := mk_heap 0 0 HEAP_VIRT_BASE (fun _ => mk_block 0 0 0 0 0 0) s in
  match expand st with
  | Ok (true, st') => Ok st'
  | Ok (false, _) => Panic "heap: initial page allocation failed"
  | Panic msg => Panic msg
  end.

(** [while (b && b->size < total) b = b->next_free;] *)
Fixpoint first_fit (fuel : nat) (m : hmem) (b total : Z) : option Z :=
  match fuel with
  | O => None
  | Datatypes.S f =>
      if negb (b =? 0) && (size (m b) <? total) then first_fit f m (next_free (m b)) total
      else Some b
  end.

(** More than the number of blocks in the heap. *)
Definition list_fuel (st : heap) : nat :=
  Datatypes.S (Z.to_nat ((heap_end st - HEAP_VIRT_BASE) / MIN_SPLIT)).

Definition search (total : Z) : K heap Z := fun st =>
  match first_fit (list_fuel st) (hm st) (free_list st) total with
  | Some b => Ok (b, st)
  | None => Panic "free list search does not end"
  end.

(** [for (i = 0; i < pages; ++i) if (!expand()) return NULL;] *)
Fixpoint expand_loop (n : nat) : K heap bool :=
  match n with
  | O => mret true
  | Datatypes.S n' => ok ← expand; if negb ok then mret false else expand_loop n'
  end.

(** Carve [total] bytes off the free block [b], or take it whole. *)
Definition take_block (b total : Z) (st : heap) : heap :=
  let st :=
    if u64 (total + MIN_SPLIT) <=? size (hm st b) then
      let tail := u64 (b + total) in
      let st := upd_hm st tail
        (fun _ => mk_block HEAP_MAGIC BLOCK_FREE (u64 (size (hm st b) - total)) b 0 0) in
      let after := block_next_mem st tail in
      let st := if negb (after =? 0) then upd_hm st after (set_prev tail) else st in
      let st := if heap_last st =? b then with_last st tail else st in
      let st := upd_hm st b (set_size total) in
      let st := free_list_remove b st in
      free_list_add tail st
    else free_list_remove b st in
  upd_hm st b (set_flags BLOCK_USED).

Definition kmalloc_locked (size : Z) : K heap Z :=
  if UINT64_MAX - sizeof_block - 16 <? size then mret 0 else
  let size := Z.land (u64 (size + 15)) (not64 15) in
  let total := u64 (size + sizeof_block) in
  b ← search total;
  if b =? 0 then
    let pages := u64 (u64 (total + OS_PAGE_SIZE) - 1) / OS_PAGE_SIZE in
    ok ← expand_loop (Z.to_nat pages);
    if negb ok then mret 0 else
    b ← search total;
    if b =? 0 then mret 0 else
    _ ← modify (take_block b total); mret (u64 (b + sizeof_block))
  else
    _ ← modify (take_block b total); mret (u64 (b + sizeof_block)).

Definition kmalloc (size : Z) : K heap Z :=
  if size =? 0 then mret 0 else kmalloc_locked size.

(** The body both coalescing branches of [kfree_locked] share: [b] absorbs its
    successor [n] in memory. *)
Definition absorb (b n : Z) (st : heap) : heap :=
  let st := upd_hm st b (set_size (u64 (size (hm st b) + size (hm st n)))) in
  let st := if heap_last st =? n then with_last st b else st in
  let after := block_next_mem st b in
  if negb (after =? 0) then upd_hm st after (set_prev b) else st.

Definition is_free_block (st : heap) (n : Z) : bool :=
  negb (n =? 0) && (magic (hm st n) =? HEAP_MAGIC) && (flags (hm st n) =? BLOCK_FREE).

Definition kfree_locked (ptr : Z) : K heap unit := fun st =>
  let b := u64 (ptr - sizeof_block) in
  if negb (magic (hm st b) =? HEAP_MAGIC) || negb (flags (hm st b) =? BLOCK_USED)
  then Panic "heap: invalid free"
  else
    let st := upd_hm st b (set_flags BLOCK_FREE) in
    let n := block_next_mem st b in
    let st := if is_free_block st n then absorb b n (free_list_remove n st) else st in
    let p := prev (hm st b) in
    let '(b, st) :=
      if is_free_block st p then (p, absorb p b (free_list_remove p st)) else (b, st) in
    Ok (tt, free_list_add b st).

Definition kfree (ptr : Z) : K heap unit :=
  if ptr =? 0 then mret tt else kfree_locked ptr.
End heap.
Arguments heap : clear implicits.

(** ** Specification *)

(** A block of the heap as the invariant sees it. *)
Record blk := Blk { b_addr : Z; b_size : Z; b_used : bool }.

(** [L] covers the addresses from [a] to [e] without gap or overlap. *)
Fixpoint tiles (a : Z) (L : list blk) (e : Z) : Prop :=
  match L with
  | [] => a = e
  | x :: L' => b_addr x = a /\ MIN_SPLIT <= b_size x /\ b_size x mod 8 = 0 /\ tiles (a + b_size x) L' e
  end.

(** The header of [x], whose predecessor in memory is [p]. *)
Definition hdr_ok (m : hmem) (p : Z) (x : blk) : Prop :=
  magic (m (b_addr x)) = HEAP_MAGIC /\
  flags (m (b_addr x)) = (if b_used x then BLOCK_USED else BLOCK_FREE) /\
  size (m (b_addr x)) = b_size x /\ prev (m (b_addr x)) = p.

Fixpoint hdrs (m : hmem) (p : Z) (L : list blk) : Prop :=
  match L with
  | [] => True
  | x :: L' => hdr_ok m p x /\ hdrs m (b_addr x) L'
  end.

Fixpoint last_addr (p : Z) (L : list blk) : Z :=
  match L with
  | [] => p
  | x :: L' => last_addr (b_addr x) L'
  end.

(** No two neighbours are both free. *)
Fixpoint coalesced (L : list blk) : Prop :=
  match L with
  | x :: (y :: _) as L' => (b_used x = true \/ b_used y = true) /\ coalesced L'
  | _ => True
  end.

(** A segment of the doubly linked free list, entered from [p], leaving to [n]. *)
Fixpoint dlseg (m : hmem) (p : Z) (F : list Z) (n : Z) : Prop :=
  match F with
  | [] => True
  | b :: F' => prev_free (m b) = p /\ next_free (m b) = List.hd n F' /\ dlseg m b F' n
  end.

Definition free_addrs (L : list blk) : list Z := b_addr <$> List.filter (fun x => negb (b_used x)) L.
(** The live allocations. *)
Definition used (L : list blk) : list blk := List.filter b_used L.

(** ** Headers and links *)

Definition core_eq (m m' : hmem) (a : Z) : Prop :=
  magic (m' a) = magic (m a) /\ flags (m' a) = flags (m a) /\
  size (m' a) = size (m a) /\ prev (m' a) = prev (m a).
Definition links_eq (m m' : hmem) (a : Z) : Prop :=
  next_free (m' a) = next_free (m a) /\ prev_free (m' a) = prev_free (m a).

Lemma upd_block_eq m a f : upd_block m a f a = f (m a).
Proof. unfold upd_block. by rewrite Z.eqb_refl. Qed.
Lemma upd_block_ne m a f x : x <> a -> upd_block m a f x = m x.
Proof. intros Hx. unfold upd_block. by rewrite (proj2 (Z.eqb_neq _ _) Hx). Qed.

Lemma hdrs_ext m m' p L :
  Forall (fun x => core_eq m m' (b_addr x)) L -> hdrs m p L -> hdrs m' p L.
Proof.
  revert p. induction L as [|x L IH]; intros p HF Hh; [done|].
  apply Forall_cons in HF as [(E1 & E2 & E3 & E4) HF]. destruct Hh as [(H1 & H2 & H3 & H4) Hh].
  split; [|by apply IH]. unfold hdr_ok. rewrite E1, E2, E3, E4. done.
Qed.

Lemma last_addr_app p L1 L2 : last_addr p (L1 ++ L2) = last_addr (last_addr p L1) L2.
Proof. revert p. induction L1; simpl; auto. Qed.

Lemma hdrs_app m p L1 L2 : hdrs m p (L1 ++ L2) <-> hdrs m p L1 /\ hdrs m (last_addr p L1) L2.
Proof.
  revert p. induction L1 as [|x L1 IH]; intros p; simpl; [tauto|].
  rewrite IH. tauto.
Qed.

Lemma tiles_app a L1 L2 e : tiles a (L1 ++ L2) e <-> exists c, tiles a L1 c /\ tiles c L2 e.
Proof.
  revert a. induction L1 as [|x L1 IH]; intros a; simpl.
  - split; [eauto|]. by intros (c & -> & ?).
  - rewrite IH. split.
    + intros (? & ? & ? & c & ? & ?). eauto 10.
    + intros (c & (? & ? & ? & ?) & ?). eauto 10.
Qed.

Lemma tiles_bounds a L e :
  tiles a L e ->
  a <= e /\ Forall (fun x => a <= b_addr x /\ b_addr x + b_size x <= e /\ MIN_SPLIT <= b_size x) L.
Proof.
  unfold MIN_SPLIT, sizeof_block. revert a. induction L as [|x L IH]; intros a; simpl.
  - intros ->. split; [lia|constructor].
  - intros (<- & Hs & _ & Ht). apply IH in Ht as [Hle HF]. unfold MIN_SPLIT, sizeof_block in Hs.
    split; [lia|]. constructor; [lia|]. eapply Forall_impl; [exact HF|]. simpl. lia.
Qed.

Lemma dlseg_ext m m' p F n :
  Forall (links_eq m m') F -> dlseg m p F n -> dlseg m' p F n.
Proof.
  revert p. induction F as [|b F IH]; intros p HF Hd; [done|].
  apply Forall_cons in HF as [[E1 E2] HF]. destruct Hd as (H1 & H2 & H3). simpl. rewrite E1, E2. auto.
Qed.

Fixpoint seg_last (p : Z) (F : list Z) : Z :=
  match F with
  | [] => p
  | b :: F' => seg_last b F'
  end.

Lemma seg_last_snoc p F c : seg_last p (F ++ [c]) = c.
Proof. revert p. induction F; simpl; auto. Qed.

Lemma dlseg_app m p F1 F2 n :
  dlseg m p (F1 ++ F2) n <-> dlseg m p F1 (List.hd n F2) /\ dlseg m (seg_last p F1) F2 n.
Proof.
  revert p. induction F1 as [|b F1 IH]; intros p; simpl; [tauto|]. rewrite IH.
  replace (List.hd n (F1 ++ F2)) with (List.hd (List.hd n F2) F1) by (by destruct F1).
  tauto.
Qed.

(** Redirecting the outgoing link of a segment, and the incoming one. *)
Lemma dlseg_set_next m p F c n n' :
  c ∉ F -> dlseg m p (F ++ [c]) n -> dlseg (upd_block m c (set_next_free n')) p (F ++ [c]) n'.
Proof.
  intros Hc. rewrite !dlseg_app. simpl. intros (H1 & H2 & H3 & _). split; [|].
  - eapply dlseg_ext; [|exact H1]. apply Forall_forall. intros b Hb.
    unfold links_eq. rewrite upd_block_ne by (by intros ->). done.
  - rewrite upd_block_eq. done.
Qed.

Lemma dlseg_set_prev m p F p' n :
  NoDup F -> dlseg m p F n ->
  dlseg (match F with [] => m | b :: _ => upd_block m b (set_prev_free p') end) p' F n.
Proof.
  destruct F as [|b F]; [done|]. intros [Hb Hnd]%NoDup_cons (H1 & H2 & H3). simpl.
  rewrite upd_block_eq. split; [done|]. split; [done|]. eapply dlseg_ext; [|exact H3].
  apply Forall_forall. intros c Hc. unfold links_eq. rewrite upd_block_ne by (by intros ->). done.
Qed.

Section proofs.
Context {S : Type} `{PageBackingLaws S}.
Implicit Types st : heap S.

(** The static part of the state besides header memory and the list head. *)
Definition rest_eq st st' : Prop :=
  heap_last st' = heap_last st /\ heap_end st' = heap_end st /\ back st' = back st.

Definition flist st (F : list Z) : Prop :=
  dlseg (hm st) 0 F 0 /\ free_list st = List.hd 0 F /\ NoDup F /\ 0 ∉ F.

(** An operation on the free list alone. *)
Definition links_only st st' : Prop := rest_eq st st' /\ forall a, core_eq (hm st) (hm st') a.

Lemma core_eq_refl m a : core_eq m m a.
Proof. done. Qed.
Lemma core_eq_links m a b f x :
  (forall y, core_eq (fun _ => y) (fun _ => f y) b) -> core_eq m (upd_block m a f) x.
Proof.
  intros Hf. unfold core_eq, upd_block. destruct (Z.eqb_spec x a) as [->|]; [|done]. apply (Hf (m a)).
Qed.

Lemma links_only_upd st a f :
  (forall y, core_eq (fun _ => y) (fun _ => f y) 0) -> links_only st (upd_hm st a f).
Proof. intros Hf. split; [done|]. intros x. by apply (core_eq_links _ _ 0). Qed.

Lemma links_only_trans st1 st2 st3 : links_only st1 st2 -> links_only st2 st3 -> links_only st1 st3.
Proof.
  intros [(A1 & A2 & A3) A] [(B1 & B2 & B3) B]. split; [split_and!; congruence|].
  intros a. destruct (A a) as (?&?&?&?), (B a) as (?&?&?&?). split_and!; congruence.
Qed.

Lemma links_only_refl st : links_only st st.
Proof. by split. Qed.

Lemma links_only_head st b : links_only st (with_free_list st b).
Proof. by split. Qed.

Local Hint Resolve links_only_refl links_only_head links_only_trans : core.

Lemma hd_zero (F : list Z) : (0 ∉ F) -> (List.hd 0 F = 0 <-> F = []).
Proof. destruct F as [|b F]; simpl; [done|]. intros Hz. split; [|done]. intros ->. set_solver. Qed.

Lemma free_list_add_spec b st F :
  flist st F -> b ∉ F -> b <> 0 ->
  flist (free_list_add b st) (b :: F) /\ links_only st (free_list_add b st).
Proof.
  intros (Hd & Hh & Hnd & Hz) Hb Hb0. unfold free_list_add.
  set (st1 := upd_hm st b _). set (st2 := upd_hm st1 b _).
  assert (links_only st st2) as L12.
  { apply (links_only_trans st st1 st2); by apply links_only_upd. }
  assert (dlseg (hm st2) 0 F 0) as Hd2.
  { eapply dlseg_ext; [|exact Hd]. apply Forall_forall. intros c Hc.
    assert (c <> b) by (by intros ->). unfold links_eq. simpl. by rewrite !upd_block_ne. }
  assert (hm st2 b = mk_block (magic (hm st b)) (flags (hm st b)) (size (hm st b)) (prev (hm st b)) (free_list st) 0)
    as E2 by (simpl; by rewrite !upd_block_eq).
  change (free_list st2) with (free_list st). rewrite Hh in *. destruct F as [|c F]; simpl List.hd in *.
  - rewrite Z.eqb_refl. split; [|eapply links_only_trans; [exact L12|apply links_only_head]]. split.
    + cbn [hm with_free_list dlseg]. rewrite E2. done.
    + split_and!; [done|by apply NoDup_cons|rewrite elem_of_cons; intuition congruence].
  - assert (c <> 0) by (intros ->; by apply Hz, elem_of_cons; left). rewrite (proj2 (Z.eqb_neq _ _)) by done.
    split; [|eapply links_only_trans; [exact L12|]; eapply links_only_trans;
             [by apply (links_only_upd _ c (set_prev_free b))|apply links_only_head]].
    split; [|split_and!; [done|by apply NoDup_cons|rewrite elem_of_cons; intuition congruence]].
    pose proof (dlseg_set_prev _ _ _ b 0 Hnd Hd2) as Hd3. cbn [hm with_free_list upd_hm with_hm dlseg].
    cbn [hm] in Hd3. split; [|split; [|exact Hd3]]; rewrite upd_block_ne by (intros ->; apply Hb, elem_of_cons; by left); by rewrite E2.
Qed.

Lemma seg_last_elem p F : seg_last p F = p \/ seg_last p F ∈ F.
Proof.
  revert p. induction F as [|b F IH]; intros p; simpl; [by left|]. right.
  destruct (IH b) as [->|E]; apply elem_of_cons; auto.
Qed.

Lemma free_list_remove_spec b st F1 F2 :
  flist st (F1 ++ b :: F2) ->
  flist (free_list_remove b st) (F1 ++ F2) /\ links_only st (free_list_remove b st).
Proof.
  intros (Hd & Hh & Hnd & Hz). apply dlseg_app in Hd as [Hd1 (Hp & Hn & Hd2)]. simpl List.hd in *.
  assert (NoDup (F1 ++ F2) /\ (b ∉ F1) /\ (b ∉ F2)) as (Hnd' & Hb1 & Hb2).
  { rewrite NoDup_app, NoDup_cons in *. destruct Hnd as (? & Hdis & ? & ?).
    split_and!; [done| |done|intros Hb; apply (Hdis b Hb), elem_of_cons; auto|done].
    intros x Hx Hx2. apply (Hdis x Hx), elem_of_cons. by right. }
  assert (0 ∉ (F1 ++ F2)) as Hz'.
  { rewrite elem_of_app in *. rewrite elem_of_cons in Hz. tauto. }
  unfold free_list_remove. rewrite Hp.
  set (st1 := if negb (seg_last 0 F1 =? 0) then _ else _).
  assert (hm st1 b = hm st b /\ dlseg (hm st1) 0 F1 (List.hd 0 F2) /\ dlseg (hm st1) b F2 0 /\
          free_list st1 = List.hd 0 (F1 ++ F2) /\ links_only st st1) as (E1 & D1 & D2 & H1 & L1).
  { subst st1. destruct F1 as [|c F1' _] using rev_ind; simpl.
    - rewrite Hn. by split_and!.
    - rewrite seg_last_snoc. assert (c <> 0) as Hc.
      { intros ->. apply Hz. rewrite !elem_of_app, elem_of_cons. auto. }
      rewrite (proj2 (Z.eqb_neq _ _) Hc). cbn [negb]. apply NoDup_app in Hnd' as (Hnc & Hdis & _).
      assert (c ∉ F1') as Hc1.
      { apply NoDup_app in Hnc as (_ & Hx & _). intros Hc1. apply (Hx c Hc1). by left. }
      assert (c ∉ F2) as Hc2 by (apply Hdis, elem_of_app; right; by left).
      rewrite Hn. cbn [hm upd_hm with_hm free_list]. split_and!.
      + apply upd_block_ne. intros ->. apply Hb1, elem_of_app. right. by left.
      + by eapply dlseg_set_next.
      + eapply dlseg_ext; [|exact Hd2]. apply Forall_forall. intros x Hx. unfold links_eq.
        by rewrite upd_block_ne by (by intros ->).
      + rewrite Hh. by destruct F1'.
      + by apply links_only_upd. }
  rewrite E1, Hn, Hp. set (st2 := if negb (List.hd 0 F2 =? 0) then _ else _).
  assert (dlseg (hm st2) 0 F1 (List.hd 0 F2) /\ dlseg (hm st2) (seg_last 0 F1) F2 0 /\
          free_list st2 = free_list st1 /\ links_only st1 st2) as (D1' & D2' & H2 & L2).
  { subst st2. destruct F2 as [|c F2]; simpl.
    - by split_and!.
    - assert (c <> 0) as Hc.
      { intros ->. apply Hz'. rewrite elem_of_app, elem_of_cons. auto. }
      rewrite (proj2 (Z.eqb_neq _ _) Hc). cbn [negb hm upd_hm with_hm free_list].
      apply NoDup_app in Hnd' as (_ & Hdis & Hn2). split; [|split; [|split; [done|]]].
      + eapply dlseg_ext; [|exact D1]. apply Forall_forall. intros x Hx. unfold links_eq.
        rewrite upd_block_ne; [done|]. intros ->. apply (Hdis c Hx), elem_of_cons. by left.
      + by apply (dlseg_set_prev (hm st1) b (c :: F2)).
      + by apply links_only_upd. }
  split.
  - split; [|split_and!; [by rewrite <- H1, <- H2|done|done]].
    apply (dlseg_ext (hm st2)).
    + apply Forall_forall. intros x Hx. unfold links_eq. cbn [hm upd_hm with_hm].
      rewrite !upd_block_ne; [done|..]; intros ->; rewrite elem_of_app in Hx; tauto.
    + apply dlseg_app. by split.
  - eapply links_only_trans; [exact L1|]. eapply links_only_trans; [exact L2|].
    set (st3 := upd_hm st2 b _). apply (links_only_trans st2 st3); by apply links_only_upd.
Qed.

(** ** Geometry *)

Definition shape st (L : list blk) : Prop :=
  tiles HEAP_VIRT_BASE L (heap_end st) /\ hdrs (hm st) 0 L /\ heap_last st = last_addr 0 L.

Lemma shape_links st st' L : links_only st st' -> shape st L -> shape st' L.
Proof.
  intros [(E1 & E2 & E3) E] (Ht & Hh & Hl). split; [by rewrite E2|]. split; [|by rewrite E1].
  eapply hdrs_ext; [|exact Hh]. apply Forall_true. intros x. apply E.
Qed.

(** An operation that leaves the free list alone. *)
Definition core_only st st' : Prop :=
  free_list st' = free_list st /\ heap_end st' = heap_end st /\ back st' = back st /\
  forall a, links_eq (hm st) (hm st') a.

Lemma flist_core st st' F : core_only st st' -> flist st F -> flist st' F.
Proof.
  intros (E1 & _ & _ & E) (Hd & Hh & Hn & Hz). split; [|by rewrite E1].
  eapply dlseg_ext; [|exact Hd]. apply Forall_true, E.
Qed.

Lemma core_only_upd st a f :
  (forall y, links_eq (fun _ => y) (fun _ => f y) 0) -> core_only st (upd_hm st a f).
Proof.
  intros Hf. split_and!; try done. intros x. unfold links_eq. cbn [hm upd_hm with_hm].
  unfold upd_block. destruct (Z.eqb_spec x a) as [->|]; [apply (Hf (hm st a))|done].
Qed.

Lemma core_only_trans st1 st2 st3 : core_only st1 st2 -> core_only st2 st3 -> core_only st1 st3.
Proof.
  intros (A1 & A2 & A3 & A) (B1 & B2 & B3 & B). split_and!; try congruence.
  intros a. destruct (A a), (B a). split; congruence.
Qed.

Lemma core_only_last st b : core_only st (with_last st b).
Proof. by split_and!. Qed.
Lemma core_only_refl st : core_only st st.
Proof. by split_and!. Qed.

Lemma last_addr_tiles p c L e : tiles c L e -> L <> [] -> c <= last_addr p L < e.
Proof.
  revert p c. induction L as [|x L IH]; intros p c Ht Hne; [done|].
  pose proof (tiles_bounds _ _ _ Ht) as [_ HF]. apply Forall_cons in HF as [(Hx1 & Hx2 & Hx3) HF].
  unfold MIN_SPLIT, sizeof_block in Hx3. destruct Ht as (<- & _ & _ & Ht). simpl.
  destruct L as [|y L]; [simpl; lia|]. specialize (IH (b_addr x) _ Ht ltac:(done)). lia.
Qed.

(** The blocks around [x] lie on either side of it. *)
Lemma tiles_sides c l1 x l2 e :
  tiles c (l1 ++ x :: l2) e ->
  tiles c l1 (b_addr x) /\ tiles (b_addr x + b_size x) l2 e /\ MIN_SPLIT <= b_size x /\
  b_size x mod 8 = 0 /\ c <= b_addr x /\ b_addr x + b_size x <= e /\
  Forall (fun y => b_addr y < b_addr x) l1 /\ Forall (fun y => b_addr x + b_size x <= b_addr y) l2.
Proof.
  rewrite tiles_app. intros (d & H1 & <- & Hs & Hm & H2).
  pose proof (tiles_bounds _ _ _ H1) as [B1 F1]. pose proof (tiles_bounds _ _ _ H2) as [B2 F2].
  split_and!; try done.
  - eapply Forall_impl; [exact F1|]. unfold MIN_SPLIT, sizeof_block. simpl. lia.
  - eapply Forall_impl; [exact F2|]. simpl. lia.
Qed.

Lemma tiles_join c l1 x l2 e :
  tiles c l1 (b_addr x) -> MIN_SPLIT <= b_size x -> b_size x mod 8 = 0 ->
  tiles (b_addr x + b_size x) l2 e -> tiles c (l1 ++ x :: l2) e.
Proof. intros. apply tiles_app. exists (b_addr x). by repeat split. Qed.

(** Reassigning the back pointer of the first block after a change. *)
Definition fix_prev (q : Z) (l2 : list blk) (m : hmem) : hmem :=
  match l2 with
  | [] => m
  | y :: _ => upd_block m (b_addr y) (set_prev q)
  end.

Lemma hdrs_fix_prev m q q' l2 c e :
  tiles c l2 e -> hdrs m q l2 -> hdrs (fix_prev q' l2 m) q' l2.
Proof.
  destruct l2 as [|y l2]; [done|]. intros Ht [(H1 & H2 & H3 & H4) Hh]. simpl.
  pose proof (tiles_sides c [] y l2 e Ht) as (_ & _ & Hs & _ & _ & _ & _ & F2). split.
  - unfold hdr_ok. by rewrite upd_block_eq.
  - eapply hdrs_ext; [|exact Hh]. eapply Forall_impl; [exact F2|]. intros x Hx. simpl in Hx.
    unfold core_eq. rewrite upd_block_ne; [done|]. unfold MIN_SPLIT, sizeof_block in Hs. lia.
Qed.

Lemma fix_prev_other q l2 m c e a : tiles c l2 e -> a < c -> fix_prev q l2 m a = m a.
Proof.
  destruct l2 as [|y l2]; [done|]. intros (<- & _) Ha. apply upd_block_ne. lia.
Qed.

(** What [block_next_mem] finds. *)
Lemma block_next_mem_spec st b s l2 :
  size (hm st b) = s -> 0 <= b -> 0 <= s -> heap_end st < 2 ^ 64 -> tiles (b + s) l2 (heap_end st) ->
  block_next_mem st b = match l2 with [] => 0 | y :: _ => b_addr y end.
Proof.
  intros Hs Hb Hs0 He Ht. unfold block_next_mem. rewrite Hs.
  pose proof (tiles_bounds _ _ _ Ht) as [Hle HF]. rewrite u64_small by (unfold is_u64; lia).
  destruct l2 as [|y l2].
  - simpl in Ht. rewrite (proj2 (Z.leb_le _ _)) by lia. done.
  - apply Forall_cons in HF as [(?&?&Hm) _]. unfold MIN_SPLIT, sizeof_block in Hm.
    destruct Ht as (<- & _). rewrite (proj2 (Z.leb_gt _ _)) by lia. done.
Qed.

Lemma base_pos : 0 < HEAP_VIRT_BASE.
Proof. done. Qed.

Ltac heap_lia := unfold MIN_SPLIT, sizeof_block, HEAP_VIRT_BASE, OS_PAGE_SIZE in *; lia.

(** Changing one block in place. *)
Lemma shape_set_used st l1 a s u (u' : bool) l2 :
  shape st (l1 ++ Blk a s u :: l2) ->
  shape (upd_hm st a (set_flags (if u' then BLOCK_USED else BLOCK_FREE))) (l1 ++ Blk a s u' :: l2).
Proof.
  intros (Ht & Hh & Hl). pose proof (tiles_sides _ _ _ _ _ Ht) as (T1 & T2 & Hs & Hm & _ & _ & F1 & F2).
  simpl in *. apply hdrs_app in Hh as [Hh1 [(E1 & E2 & E3 & E4) Hh2]]. simpl in *. split; [|split].
  - by apply (tiles_join _ _ (Blk a s u')).
  - apply hdrs_app. cbn [hm upd_hm with_hm]. split.
    + eapply hdrs_ext; [|exact Hh1]. eapply Forall_impl; [exact F1|]. intros y Hy; simpl in Hy.
      unfold core_eq. rewrite upd_block_ne; [done|]. lia.
    + split; [unfold hdr_ok; simpl; by rewrite upd_block_eq|]. simpl.
      eapply hdrs_ext; [|exact Hh2]. eapply Forall_impl; [exact F2|]. intros y Hy; simpl in Hy.
      unfold core_eq. rewrite upd_block_ne; [done|]. heap_lia.
  - rewrite last_addr_app in *. exact Hl.
Qed.

Lemma absorb_spec st l1 a s u s2 u2 l2 :
  shape st (l1 ++ Blk a s u :: Blk (a + s) s2 u2 :: l2) -> heap_end st < 2 ^ 64 ->
  shape (absorb a (a + s) st) (l1 ++ Blk a (s + s2) u :: l2) /\ core_only st (absorb a (a + s) st).
Proof.
  intros (Ht & Hh & Hl) He.
  pose proof (tiles_sides _ _ _ _ _ Ht) as (T1 & T2 & Hs & Hm & Hb1 & Hb2 & F1 & _). simpl in *.
  pose proof (tiles_sides (a + s) [] (Blk (a + s) s2 u2) l2 _ T2) as (_ & T3 & Hs2 & Hm2 & _ & Hb3 & _ & F2). simpl in *.
  apply hdrs_app in Hh as [Hh1 [(E1 & E2 & E3 & E4) [(E5 & E6 & E7 & E8) Hh2]]]. simpl in *.
  rewrite last_addr_app in Hl. simpl in Hl.
  assert (u64 (size (hm st a) + size (hm st (a + s))) = s + s2) as Esz.
  { rewrite E3, E7. apply u64_small. unfold is_u64. heap_lia. }
  unfold absorb. rewrite Esz. set (st1 := upd_hm st a (set_size (s + s2))).
  set (st2 := if heap_last st1 =? a + s then with_last st1 a else st1).
  assert (hm st2 = hm st1 /\ heap_end st2 = heap_end st /\ core_only st1 st2 /\
          heap_last st2 = last_addr a l2) as (M2 & X2 & C2 & L2).
  { subst st2. change (heap_last st1) with (heap_last st). rewrite Hl.
    destruct (Z.eqb_spec (last_addr (a + s) l2) (a + s)) as [El|El].
    - destruct l2 as [|y l2]; [split_and!; done|]. exfalso.
      pose proof (last_addr_tiles (a + s) _ _ _ T3 ltac:(done)). heap_lia.
    - split_and!; try done. change (heap_last st1) with (heap_last st). rewrite Hl. by destruct l2. }
  assert (size (hm st2 a) = s + s2) as Es2 by (rewrite M2; simpl; by rewrite upd_block_eq).
  rewrite (block_next_mem_spec st2 a (s + s2) l2); [|done|heap_lia|heap_lia|by rewrite X2|].
  2:{ rewrite X2. by rewrite Z.add_assoc. }
  set (st3 := if negb _ then _ else st2).
  assert (hm st3 = fix_prev a l2 (hm st1) /\ rest_eq st2 st3 /\ core_only st2 st3) as (M3 & (R1 & R2 & R3) & C3).
  { subst st3. destruct l2 as [|y l2]; [by split_and!|].
    pose proof (Forall_inv F2) as Hy. simpl in Hy. rewrite (proj2 (Z.eqb_neq _ _)) by heap_lia.
    cbn [negb]. split; [by rewrite <- M2|]. split; [done|]. by apply core_only_upd. }
  split.
  - split; [|split].
    + rewrite R2, X2. apply (tiles_join _ _ (Blk a (s + s2) u)); simpl; [done|heap_lia|lia|by rewrite Z.add_assoc].
    + rewrite M3. apply hdrs_app. split; [|split].
      * eapply hdrs_ext; [|exact Hh1]. eapply Forall_impl; [exact F1|]. intros y Hy; simpl in Hy. unfold core_eq.
        rewrite (fix_prev_other a l2 _ _ _ _ T3) by heap_lia. simpl. rewrite upd_block_ne by lia. done.
      * unfold hdr_ok; simpl. rewrite (fix_prev_other a l2 _ _ _ _ T3) by heap_lia. simpl. by rewrite upd_block_eq.
      * simpl. eapply hdrs_fix_prev; [exact T3|]. eapply hdrs_ext; [|exact Hh2].
        eapply Forall_impl; [exact F2|]. intros y Hy; simpl in Hy. unfold core_eq. simpl in *. rewrite upd_block_ne; [done|heap_lia].
    + rewrite R1, L2, last_addr_app. done.
  - eapply core_only_trans; [|eapply core_only_trans; [exact C2|exact C3]]. by apply core_only_upd.
Qed.

(** ** The invariant *)

Lemma free_addrs_app l1 l2 : free_addrs (l1 ++ l2) = free_addrs l1 ++ free_addrs l2.
Proof. unfold free_addrs. by rewrite List.filter_app, fmap_app. Qed.
Lemma free_addrs_cons x l :
  free_addrs (x :: l) = (if b_used x then [] else [b_addr x]) ++ free_addrs l.
Proof. unfold free_addrs. simpl. by destruct (b_used x). Qed.
Lemma used_app l1 l2 : used (l1 ++ l2) = used l1 ++ used l2.
Proof. apply List.filter_app. Qed.

Lemma free_addrs_elem a L : a ∈ free_addrs L -> exists x, x ∈ L /\ b_addr x = a /\ b_used x = false.
Proof.
  unfold free_addrs. intros (x & -> & Hx%list_elem_of_In)%list_elem_of_fmap.
  apply List.filter_In in Hx as [Hx Hu]. exists x. split; [by apply list_elem_of_In|].
  split; [done|]. by destruct (b_used x).
Qed.

Definition head_used (l : list blk) : Prop := match l with [] => True | y :: _ => b_used y = true end.
Definition last_used (l : list blk) : Prop := forall l' y, l = l' ++ [y] -> b_used y = true.

Lemma coalesced_cons x l : coalesced (x :: l) <-> coalesced l /\ (b_used x = true \/ head_used l).
Proof. destruct l as [|y l]; simpl; tauto. Qed.

Lemma last_used_cons z y l : last_used (z :: y :: l) <-> last_used (y :: l).
Proof.
  split; intros Hl l' w E.
  - apply (Hl (z :: l')). by rewrite E.
  - destruct l' as [|z' l']; [done|]. injection E as _ E. by apply (Hl l').
Qed.

Lemma coalesced_mid l1 x l2 :
  coalesced (l1 ++ x :: l2) <->
  coalesced l1 /\ coalesced l2 /\ (b_used x = true \/ (last_used l1 /\ head_used l2)).
Proof.
  induction l1 as [|z l1 IH]; simpl app.
  - rewrite coalesced_cons. assert (last_used []) by (intros [|] ? ?; done). simpl. tauto.
  - rewrite !coalesced_cons, IH. destruct l1 as [|y l1]; simpl.
    + assert (last_used [] /\ (last_used [z] <-> b_used z = true)) as [H1 H2].
      { split; [intros [|] ? ?; done|]. split; [intros Hl; by apply (Hl [])|].
        intros Hz [|? [|? ?]] w E; [by injection E as ->|done|done]. }
      rewrite H2. tauto.
    + rewrite last_used_cons. tauto.
Qed.

(** Address space the heap may grow into, given what the backing can provide. *)
Definition HEAP_LIMIT : Z := 2 ^ 64 - 2 ^ 20.

Record heap_wf st (L : list blk) (F : list Z) : Prop := {
  hw_shape : shape st L;
  hw_flist : flist st F;
  hw_free : F ≡ₚ free_addrs L;
  hw_coalesced : coalesced L;
  hw_inv : pb_inv (back st);
  hw_room : heap_end st + OS_PAGE_SIZE * pb_left (back st) <= HEAP_LIMIT;
}.

Lemma heap_end_bound st L F : heap_wf st L F -> HEAP_VIRT_BASE <= heap_end st <= HEAP_LIMIT.
Proof.
  intros Hw. destruct (hw_shape _ _ _ Hw) as (Ht & _). apply tiles_bounds in Ht as [Ht _].
  pose proof (hw_room _ _ _ Hw). pose proof (pb_left_nonneg _ (hw_inv _ _ _ Hw)). heap_lia.
Qed.

(** The free list around a free block. *)
Lemma flist_split st F l1 a s l2 :
  flist st F -> F ≡ₚ free_addrs (l1 ++ Blk a s false :: l2) ->
  exists F1 F2, F = F1 ++ a :: F2 /\ F1 ++ F2 ≡ₚ free_addrs (l1 ++ l2).
Proof.
  intros _ HP. rewrite free_addrs_app, free_addrs_cons in HP. simpl in HP.
  assert (a ∈ F) as Ha by (rewrite HP, elem_of_app, elem_of_cons; auto).
  apply list_elem_of_split in Ha as (F1 & F2 & ->). exists F1, F2. split; [done|].
  rewrite free_addrs_app. by apply Permutation_app_inv in HP.
Qed.

Lemma free_addr_in_range st L F a :
  shape st L -> F ≡ₚ free_addrs L -> a ∈ F ->
  exists s l1 l2, L = l1 ++ Blk a s false :: l2.
Proof.
  intros _ HP Ha. rewrite HP in Ha. apply free_addrs_elem in Ha as ([a' s u] & Hx & E1 & E2). simpl in *. subst.
  apply list_elem_of_split in Hx as (l1 & l2 & ->). eauto.
Qed.

(** Every address of the free list is the start of a block. *)
Lemma free_not_inside st F l1 x l2 c :
  shape st (l1 ++ x :: l2) -> F ≡ₚ free_addrs (l1 ++ x :: l2) ->
  b_addr x < c < b_addr x + b_size x -> c ∉ F.
Proof.
  intros (Ht & _) HP Hc Hin. rewrite HP in Hin. apply free_addrs_elem in Hin as (y & Hy & <- & _).
  pose proof (tiles_sides _ _ _ _ _ Ht) as (_ & _ & _ & _ & _ & _ & F1 & F2).
  rewrite Forall_forall in F1, F2. apply elem_of_app in Hy as [Hy|[->|Hy]%elem_of_cons].
  - specialize (F1 y Hy). simpl in F1. lia.
  - lia.
  - specialize (F2 y Hy). simpl in F2. lia.
Qed.

(** ** Taking a block *)

(** The writes of the split, before the free list is updated. *)
Definition split_block (b total : Z) st : heap S :=
  let tail := u64 (b + total) in
  let st := upd_hm st tail
    (fun _ => mk_block HEAP_MAGIC BLOCK_FREE (u64 (size (hm st b) - total)) b 0 0) in
  let after := block_next_mem st tail in
  let st := if negb (after =? 0) then upd_hm st after (set_prev tail) else st in
  let st := if heap_last st =? b then with_last st tail else st in
  upd_hm st b (set_size total).

Lemma take_block_split b total st :
  take_block b total st =
  upd_hm (if u64 (total + MIN_SPLIT) <=? size (hm st b)
          then free_list_add (u64 (b + total)) (free_list_remove b (split_block b total st))
          else free_list_remove b st) b (set_flags BLOCK_USED).
Proof. done. Qed.

Lemma split_block_spec st F l1 a s l2 total :
  shape st (l1 ++ Blk a s false :: l2) -> flist st F -> F ≡ₚ free_addrs (l1 ++ Blk a s false :: l2) ->
  heap_end st < 2 ^ 64 -> MIN_SPLIT <= total -> total mod 8 = 0 -> total + MIN_SPLIT <= s ->
  let st' := split_block a total st in
  shape st' (l1 ++ Blk a total false :: Blk (a + total) (s - total) false :: l2) /\ flist st' F /\
  heap_end st' = heap_end st /\ back st' = back st.
Proof.
  intros Hsh Hf HP He Htot Hmod Hs. pose proof Hsh as (Ht & Hh & Hl).
  pose proof (tiles_sides _ _ _ _ _ Ht) as (T1 & T2 & Hsz & Hm & Hb1 & Hb2 & F1 & F2). simpl in *.
  apply hdrs_app in Hh as [Hh1 [(E1 & E2 & E3 & E4) Hh2]]. simpl in *. rewrite last_addr_app in Hl. simpl in Hl.
  assert (u64 (a + total) = a + total) as Etail by (apply u64_small; unfold is_u64; heap_lia).
  assert (u64 (size (hm st a) - total) = s - total) as Esz by (rewrite E3; apply u64_small; unfold is_u64; heap_lia).
  unfold split_block. rewrite Etail, Esz.
  set (h := mk_block HEAP_MAGIC BLOCK_FREE (s - total) a 0 0).
  set (st1 := upd_hm st (a + total) (fun _ => h)).
  assert (size (hm st1 (a + total)) = s - total) as Es1 by (simpl; by rewrite upd_block_eq).
  rewrite (block_next_mem_spec st1 (a + total) (s - total) l2); [|done|heap_lia|heap_lia|done|].
  2:{ simpl. replace (a + total + (s - total)) with (a + s) by lia. done. }
  set (st2 := if negb _ then _ else st1).
  assert (hm st2 = fix_prev (a + total) l2 (hm st1) /\ heap_last st2 = heap_last st /\
          heap_end st2 = heap_end st /\ back st2 = back st /\ free_list st2 = free_list st /\
          forall x, links_eq (hm st1) (hm st2) x) as (M2 & R1 & R2 & R3 & R4 & K2).
  { subst st2. destruct l2 as [|y l2]; [by split_and!|].
    pose proof (Forall_inv F2) as Hy. simpl in Hy. rewrite (proj2 (Z.eqb_neq _ _)) by heap_lia. cbn [negb].
    split_and!; try done. intros x. pose proof (core_only_upd st1 (b_addr y) (set_prev (a + total))) as (_ & _ & _ & Hx); [done|].
    apply Hx. }
  set (st3 := if heap_last st2 =? a then _ else st2).
  assert (hm st3 = hm st2 /\ heap_end st3 = heap_end st /\ back st3 = back st /\ free_list st3 = free_list st /\
          heap_last st3 = last_addr (a + total) l2) as (M3 & X1 & X2 & X3 & X4).
  { subst st3. rewrite R1, Hl. destruct (Z.eqb_spec (last_addr a l2) a) as [El|El].
    - split_and!; try done. destruct l2 as [|y l2]; [done|].
      pose proof (last_addr_tiles a _ _ _ T2 ltac:(done)). heap_lia.
    - split_and!; try done. rewrite R1, Hl. by destruct l2. }
  assert (forall x, x <> a + total -> x < a + s -> hm st2 x = hm st x) as Hlow.
  { intros x Hx Hlt. rewrite M2, (fix_prev_other _ _ _ _ _ _ T2) by done. simpl. by apply upd_block_ne. }
  split; [split; [|split]|].
  - cbn [heap_end upd_hm with_hm]. rewrite X1.
    apply (tiles_join _ _ (Blk a total false)); simpl; [done|done|done|]. split; [done|].
    split; [heap_lia|]. split; [lia|]. by replace (a + total + (s - total)) with (a + s) by lia.
  - cbn [hm upd_hm with_hm]. rewrite M3. apply hdrs_app. split; [|split; [|split]].
    + eapply hdrs_ext; [|exact Hh1]. eapply Forall_impl; [exact F1|]. intros y Hy; simpl in Hy. unfold core_eq.
      rewrite upd_block_ne, Hlow by heap_lia. done.
    + unfold hdr_ok; simpl. rewrite upd_block_eq. rewrite Hlow by heap_lia. done.
    + unfold hdr_ok; simpl. rewrite upd_block_ne by heap_lia. rewrite M2, (fix_prev_other _ _ _ _ _ _ T2) by heap_lia.
      simpl. by rewrite upd_block_eq.
    + simpl. apply (hdrs_ext (hm st2)).
      { eapply Forall_impl; [exact F2|]. intros y Hy; simpl in Hy. unfold core_eq. rewrite upd_block_ne; [done|heap_lia]. }
      rewrite M2. eapply hdrs_fix_prev; [exact T2|]. eapply hdrs_ext; [|exact Hh2].
      eapply Forall_impl; [exact F2|]. intros y Hy; simpl in Hy. unfold core_eq. simpl. rewrite upd_block_ne; [done|heap_lia].
  - cbn [heap_last upd_hm with_hm]. rewrite X4, last_addr_app. done.
  - split; [|split; [exact X1|exact X2]]. destruct Hf as (Hd & Hh & Hnd & Hz). split; [|split_and!; [by simpl; rewrite X3|done|done]].
    eapply dlseg_ext; [|exact Hd]. apply Forall_forall. intros x Hx.
    assert (x <> a + total) as Hne.
    { intros ->. eapply free_not_inside; [exact Hsh|exact HP| |exact Hx]. simpl. heap_lia. }
    assert (links_eq (hm st) (hm st2) x) as [Q1 Q2].
    { destruct (K2 x) as [K1 K1']. split; rewrite ?K1, ?K1'; simpl; by rewrite upd_block_ne. }
    destruct (core_only_upd st3 a (set_size total)) as (_ & _ & _ & Hx3); [done|]. destruct (Hx3 x) as [Q3 Q4].
    split; cbn [hm upd_hm with_hm] in *; congruence.
Qed.

(** Carving a block out of the heap: everything but the invariant on the
    backing, which the operation does not touch. *)
Lemma heap_wf_intro st st' L F L' F' :
  heap_wf st L F -> shape st' L' -> flist st' F' -> F' ≡ₚ free_addrs L' -> coalesced L' ->
  heap_end st' = heap_end st -> back st' = back st -> heap_wf st' L' F'.
Proof.
  intros Hw Hs Hf HP Hc E1 E2. split; [done..|by rewrite E2; apply Hw|rewrite E1, E2; apply Hw].
Qed.

Lemma coalesced_sides l1 a s l2 : coalesced (l1 ++ Blk a s false :: l2) ->
  coalesced l1 /\ coalesced l2 /\ last_used l1 /\ head_used l2.
Proof. rewrite coalesced_mid. simpl. intros (? & ? & [?|?]); [done|tauto]. Qed.

Lemma take_block_spec st L F l1 a s l2 total :
  heap_wf st L F -> L = l1 ++ Blk a s false :: l2 ->
  MIN_SPLIT <= total -> total mod 8 = 0 -> total <= s ->
  exists F' s' l, heap_wf (take_block a total st) (l1 ++ Blk a s' true :: l) F' /\
    total <= s' <= s /\ used (Blk a s' true :: l) = Blk a s' true :: used l2.
Proof.
  intros Hw -> Htot Hmod Hle. pose proof (heap_end_bound _ _ _ Hw) as Hb.
  assert (heap_end st < 2 ^ 64) as He by (unfold HEAP_LIMIT in Hb; lia).
  pose proof (hw_shape _ _ _ Hw) as Hsh. pose proof (hw_flist _ _ _ Hw) as Hf.
  pose proof (hw_free _ _ _ Hw) as HP.
  destruct (coalesced_sides _ _ _ _ (hw_coalesced _ _ _ Hw)) as (C1 & C2 & C3 & C4).
  destruct (flist_split st F l1 a s l2 Hf HP) as (F1 & F2 & -> & HP').
  rewrite free_addrs_app in HP'.
  destruct Hsh as (Ht & Hh & Hl). pose proof (tiles_sides _ _ _ _ _ Ht) as (_ & _ & _ & _ & Hb1 & Hb2 & _).
  assert (size (hm st a) = s) as Esz by (apply hdrs_app in Hh as [_ [(_ & _ & E & _) _]]; exact E).
  simpl in Hb1, Hb2. rewrite take_block_split, Esz. rewrite u64_small by (unfold is_u64; heap_lia).
  destruct (Z.leb_spec (total + MIN_SPLIT) s) as [Hsp|Hsp].
  - destruct (split_block_spec st _ l1 a s l2 total (hw_shape _ _ _ Hw) Hf HP) as (Hs1 & Hf1 & E1 & E2); [done..|].
    set (st1 := split_block a total st) in *. rewrite u64_small by (unfold is_u64; heap_lia).
    destruct (free_list_remove_spec a st1 F1 F2 Hf1) as [Hf2 [(R1 & R2 & R3) K2]].
    set (st2 := free_list_remove a st1) in *.
    assert (a + total ∉ F1 ++ F2) as Hni.
    { intros Hin. eapply (free_not_inside st (F1 ++ a :: F2) l1 (Blk a s false) l2 (a + total));
        [by split|exact HP|simpl; heap_lia|].
      rewrite elem_of_app, elem_of_cons. apply elem_of_app in Hin. tauto. }
    destruct (free_list_add_spec (a + total) st2 (F1 ++ F2) Hf2 Hni) as [Hf3 [(R1' & R2' & R3') K3]]; [heap_lia|].
    set (st3 := free_list_add (a + total) st2) in *.
    exists (a + total :: F1 ++ F2), total, (Blk (a + total) (s - total) false :: l2).
    split; [|split; [lia|done]].
    eapply heap_wf_intro; [exact Hw| | | | | |].
    + apply (shape_set_used st3 l1 a total false true). eapply shape_links; [by split; [split_and!|]|].
      eapply shape_links; [by split; [split_and!|]|exact Hs1].
    + eapply flist_core; [by apply core_only_upd|exact Hf3].
    + rewrite free_addrs_app, !free_addrs_cons. simpl. rewrite HP'. apply Permutation_middle.
    + rewrite coalesced_mid. split; [done|]. split; [|by left]. rewrite coalesced_cons. simpl. auto.
    + change (heap_end st3 = heap_end st). congruence.
    + change (back st3 = back st). congruence.
  - destruct (free_list_remove_spec a st F1 F2 Hf) as [Hf2 [(R1 & R2 & R3) K2]].
    set (st2 := free_list_remove a st) in *.
    exists (F1 ++ F2), s, l2. split; [|split; [lia|done]].
    eapply heap_wf_intro; [exact Hw| | | | | |].
    + apply (shape_set_used st2 l1 a s false true). eapply shape_links; [by split; [split_and!|]|by split].
    + eapply flist_core; [by apply core_only_upd|exact Hf2].
    + rewrite free_addrs_app, !free_addrs_cons. exact HP'.
    + rewrite coalesced_mid. simpl. auto.
    + change (heap_end st2 = heap_end st). congruence.
    + change (back st2 = back st). congruence.
Qed.

(** ** Growing the heap *)

(** Bytes of the free block at the end of the heap. *)
Definition trailing_free (L : list blk) : Z :=
  match last L with
  | Some x => if b_used x then 0 else b_size x
  | None => 0
  end.

(** The state change of a successful [expand]. *)
Definition grow st : heap S :=
  let b := heap_end st in
  let st := with_end st (u64 (heap_end st + OS_PAGE_SIZE)) in
  if negb (heap_last st =? 0) && (flags (hm st (heap_last st)) =? BLOCK_FREE) then
    let l := heap_last st in
    let st := free_list_remove l st in
    let st := upd_hm st l (set_size (u64 (size (hm st l) + OS_PAGE_SIZE))) in
    free_list_add l st
  else
    let st := upd_hm st b (fun _ => mk_block HEAP_MAGIC BLOCK_FREE OS_PAGE_SIZE (heap_last st) 0 0) in
    let st := with_last st b in
    free_list_add b st.

Lemma core_eq_upd_size m m' a v x :
  (forall y, core_eq m m' y) -> core_eq (upd_block m a (set_size v)) (upd_block m' a (set_size v)) x.
Proof.
  intros Hc. unfold core_eq, upd_block. destruct (Z.eqb_spec x a) as [->|]; [|apply Hc].
  destruct (Hc a) as (?&?&?&?). done.
Qed.

Lemma shape_with_end_last st l1 a s u e :
  shape st (l1 ++ [Blk a s u]) -> heap_end st < e -> e mod 8 = heap_end st mod 8 ->
  e < 2 ^ 64 ->
  shape (upd_hm (with_end st e) a (set_size (s + (e - heap_end st)))) (l1 ++ [Blk a (s + (e - heap_end st)) u]).
Proof.
  intros (Ht & Hh & Hl) Hlt Hmod He.
  pose proof (tiles_sides _ _ _ _ _ Ht) as (T1 & T2 & Hs & Hm & Hb1 & Hb2 & F1 & _). simpl in *.
  apply hdrs_app in Hh as [Hh1 [(E1 & E2 & E3 & E4) _]]. simpl in *. split; [|split].
  - simpl. apply (tiles_join _ _ (Blk a (s + (e - heap_end st)) u)); simpl; [done|heap_lia|lia|lia].
  - simpl. apply hdrs_app. split; [|split; [|done]].
    + eapply hdrs_ext; [|exact Hh1]. eapply Forall_impl; [exact F1|]. intros y Hy; simpl in Hy.
      unfold core_eq. rewrite upd_block_ne; [done|lia].
    + unfold hdr_ok; simpl. rewrite upd_block_eq. simpl. done.
  - simpl. by rewrite last_addr_app in *.
Qed.

Lemma shape_append st L :
  shape st L -> heap_end st + OS_PAGE_SIZE < 2 ^ 64 ->
  shape (with_last (upd_hm (with_end st (heap_end st + OS_PAGE_SIZE)) (heap_end st)
           (fun _ => mk_block HEAP_MAGIC BLOCK_FREE OS_PAGE_SIZE (heap_last st) 0 0)) (heap_end st))
        (L ++ [Blk (heap_end st) OS_PAGE_SIZE false]).
Proof.
  intros (Ht & Hh & Hl) He. pose proof (tiles_bounds _ _ _ Ht) as [_ HF]. split; [|split].
  - simpl. apply tiles_app. exists (heap_end st). split; [done|]. simpl. split; [done|]. split; [heap_lia|done].
  - simpl. apply hdrs_app. split; [|split; [|done]].
    + eapply hdrs_ext; [|exact Hh]. eapply Forall_impl; [exact HF|]. intros y Hy; simpl in Hy.
      unfold core_eq. rewrite upd_block_ne; [done|heap_lia].
    + unfold hdr_ok; simpl. rewrite upd_block_eq. simpl. by rewrite Hl.
  - simpl. by rewrite last_addr_app.
Qed.

Lemma grow_append st L F :
  shape st L -> flist st F -> F ≡ₚ free_addrs L -> coalesced L -> last_used L ->
  heap_end st + OS_PAGE_SIZE <= HEAP_LIMIT ->
  let b := heap_end st in
  let st' := free_list_add b (with_last (upd_hm (with_end st (heap_end st + OS_PAGE_SIZE)) b
           (fun _ => mk_block HEAP_MAGIC BLOCK_FREE OS_PAGE_SIZE (heap_last st) 0 0)) b) in
  shape st' (L ++ [Blk b OS_PAGE_SIZE false]) /\ flist st' (b :: F) /\
  b :: F ≡ₚ free_addrs (L ++ [Blk b OS_PAGE_SIZE false]) /\ coalesced (L ++ [Blk b OS_PAGE_SIZE false]) /\
  heap_end st' = heap_end st + OS_PAGE_SIZE /\ back st' = back st.
Proof.
  intros Hsh Hf HP Hc Hlu He b st'.
  pose proof (shape_append st L Hsh ltac:(unfold HEAP_LIMIT in He; lia)) as Hsh1. destruct Hsh as (Ht & _ & _).
  pose proof (tiles_bounds _ _ _ Ht) as [Hbase HF]. fold b in Hsh1. set (st1 := with_last _ _) in *.
  assert (b ∉ F) as Hb.
  { rewrite HP. intros (x & Hx & E & _)%free_addrs_elem. rewrite Forall_forall in HF.
    specialize (HF x Hx). simpl in HF. subst b. heap_lia. }
  assert (flist st1 F) as Hf1.
  { destruct Hf as (Hd & Hh & Hn & Hz). split; [|done]. eapply dlseg_ext; [|exact Hd]. apply Forall_forall.
    intros x Hx. unfold links_eq. simpl. rewrite upd_block_ne; [done|]. by intros ->. }
  destruct (free_list_add_spec b st1 F Hf1 Hb) as [Hf2 [(R1 & R2 & R3) K]]; [subst b; heap_lia|].
  fold st' in Hf2, R1, R2, R3, K. split; [eapply shape_links; [|exact Hsh1]; by split; [split_and!|]|].
  split; [done|]. split.
  - rewrite free_addrs_app, free_addrs_cons. simpl. rewrite HP. apply Permutation_cons_append.
  - split; [|by rewrite R2, R3]. apply coalesced_mid. simpl. auto.
Qed.

Lemma grow_spec st L F :
  shape st L -> flist st F -> F ≡ₚ free_addrs L -> coalesced L ->
  heap_end st + OS_PAGE_SIZE <= HEAP_LIMIT ->
  exists L' F', shape (grow st) L' /\ flist (grow st) F' /\ F' ≡ₚ free_addrs L' /\ coalesced L' /\
    used L' = used L /\ trailing_free L' = trailing_free L + OS_PAGE_SIZE /\
    heap_end (grow st) = heap_end st + OS_PAGE_SIZE /\ back (grow st) = back st.
Proof.
  intros Hsh Hf HP Hc He. assert (HEAP_VIRT_BASE <= heap_end st) as Hbase by apply (tiles_bounds _ _ _ (proj1 Hsh)).
  unfold grow. rewrite u64_small by (unfold is_u64, HEAP_LIMIT in *; heap_lia).
  set (st0 := with_end st (heap_end st + OS_PAGE_SIZE)). cbn zeta.
  change (heap_last st0) with (heap_last st). change (hm st0) with (hm st).
  destruct L as [|[a s u] l1 _] using rev_ind.
  - destruct Hsh as (Ht & Hh & Hl). rewrite Hl. cbn [negb andb Z.eqb last_addr].
    destruct (grow_append st [] F) as (G1 & G2 & G3 & G4 & G5 & G6); [by split|done|done|done|by intros [|] ? ?|done|].
    rewrite Hl in G1, G2, G5, G6. do 2 eexists. split; [exact G1|]. split; [exact G2|]. by split_and!.
  - pose proof Hsh as (Ht & Hh & Hl). pose proof (tiles_sides _ _ _ _ _ Ht) as (_ & _ & Hs & _ & Hb1 & Hb2 & _).
    apply hdrs_app in Hh as [_ [(E1 & E2 & E3 & E4) _]]. rewrite last_addr_app in Hl.
    simpl in E2, E3, Hl, Hs, Hb1, Hb2. rewrite Hl, E2. rewrite (proj2 (Z.eqb_neq a 0)) by heap_lia. cbn [negb andb]. destruct u.
    + change (BLOCK_USED =? BLOCK_FREE) with false. cbn match.
      destruct (grow_append st (l1 ++ [Blk a s true]) F) as (G1 & G2 & G3 & G4 & G5 & G6); [done..| |done|].
      { intros l' y E. apply app_inj_tail in E as [_ <-]. done. }
      rewrite Hl in G1, G2, G5, G6. do 2 eexists. split; [exact G1|]. split; [exact G2|].
      split; [done|]. split; [done|]. rewrite used_app. unfold trailing_free. rewrite !last_snoc. simpl.
      by rewrite app_nil_r.
    + change (BLOCK_FREE =? BLOCK_FREE) with true. cbn match.
      destruct (flist_split st0 F l1 a s [] Hf HP) as (F1 & F2 & -> & HP').
      rewrite app_nil_r in HP'.
      destruct (free_list_remove_spec a st0 F1 F2 Hf) as [Hf1 [(R1 & R2 & R3) K1]].
      set (st1 := free_list_remove a st0) in *.
      assert (size (hm st1 a) = s) as -> by (destruct (K1 a) as (_ & _ & -> & _); exact E3).
      rewrite u64_small by (unfold is_u64, HEAP_LIMIT in *; heap_lia).
      assert (a ∉ F1 ++ F2) as Hna.
      { destruct Hf as (_ & _ & Hnd & _). rewrite <- Permutation_middle in Hnd. by apply NoDup_cons in Hnd as [? _]. }
      pose proof (shape_with_end_last st l1 a s false (heap_end st + OS_PAGE_SIZE) Hsh) as Hsh1.
      replace (heap_end st + OS_PAGE_SIZE - heap_end st) with OS_PAGE_SIZE in Hsh1 by lia.
      set (st2 := upd_hm st1 a _).
      assert (flist st2 (F1 ++ F2)) as Hf2 by (eapply flist_core; [by apply core_only_upd|exact Hf1]).
      destruct (free_list_add_spec a st2 (F1 ++ F2) Hf2 Hna) as [Hf3 [(R1' & R2' & R3') K3]]; [heap_lia|].
      exists (l1 ++ [Blk a (s + OS_PAGE_SIZE) false]), (a :: F1 ++ F2). split; [|split; [done|split]].
      * eapply shape_links; [by split; [split_and!|]|].
        destruct Hsh1 as (T & H1 & H2); [heap_lia|heap_lia|unfold HEAP_LIMIT in *; heap_lia|].
        split; [|split].
        -- change (heap_end st2) with (heap_end st1). rewrite R2. exact T.
        -- eapply hdrs_ext; [|exact H1]. apply Forall_true. intros x.
           apply (core_eq_upd_size (hm st) (hm st1)), K1.
        -- change (heap_last st2) with (heap_last st1). rewrite R1. exact H2.
      * rewrite free_addrs_app, free_addrs_cons. simpl. rewrite HP'. apply Permutation_cons_append.
      * apply coalesced_sides in Hc as (C1 & C2 & C3 & C4). split; [by apply coalesced_mid; auto|].
        rewrite !used_app. unfold trailing_free. rewrite !last_snoc. simpl.
        split; [done|]. split; [done|].
        split; [exact (eq_trans R2' R2)|exact (eq_trans R3' R3)].
Qed.

(** ** [expand] *)

Lemma heap_wf_back st L F s' :
  heap_wf st L F -> pb_inv s' -> pb_left s' <= pb_left (back st) -> heap_wf (with_back st s') L F.
Proof.
  intros Hw Hi Hl. destruct Hw. split; try done. simpl. unfold OS_PAGE_SIZE in *. lia.
Qed.

Lemma expand_spec st L F :
  heap_wf st L F ->
  exists ok st', expand st = Ok (ok, st') /\
    if ok then exists L' F', heap_wf st' L' F' /\ used L' = used L /\
                             trailing_free L' = trailing_free L + OS_PAGE_SIZE
    else heap_wf st' L F.
Proof.
  intros Hw. unfold expand, mbind, K_bind, lift, gets, modify.
  destruct (pb_alloc_spec _ (hw_inv _ _ _ Hw)) as (a & s1 & -> & Hi1 & [[-> Hl1]|(Hne & Hh1 & Hl1)]).
  { rewrite Z.eqb_refl. exists false, (with_back st s1). split; [done|]. apply heap_wf_back; [done|done|lia]. }
  rewrite (proj2 (Z.eqb_neq _ _) Hne). cbn [heap_end with_back back].
  destruct (pb_map_spec s1 (heap_end st) a Hi1 Hh1) as (b & s2 & -> & Hi2 & Hh2 & Hl2). destruct b; cbn [negb].
  - set (st2 := with_back _ _).
    assert (heap_end st + OS_PAGE_SIZE + OS_PAGE_SIZE * pb_left s2 <= HEAP_LIMIT) as Hr.
    { pose proof (hw_room _ _ _ Hw). unfold OS_PAGE_SIZE in *. lia. }
    destruct (grow_spec st2 L F) as (L' & F' & G1 & G2 & G3 & G4 & G5 & G6 & G7 & G8); try apply Hw.
    { pose proof (pb_left_nonneg _ Hi2). simpl. unfold OS_PAGE_SIZE in *. lia. }
    exists true, (grow st2). split; [done|]. exists L', F'. split; [|done].
    split; try done; rewrite ?G8; [done|]. by rewrite G7.
  - cbn [back with_back]. destruct (pb_free_spec s2 a Hi2 Hh2) as (s3 & -> & Hi3 & Hl3).
    exists false, (with_back st s3). split; [done|]. apply heap_wf_back; [done|done|lia].
Qed.

Lemma expand_loop_spec n st L F :
  heap_wf st L F ->
  exists ok st', expand_loop n st = Ok (ok, st') /\
    if ok then exists L' F', heap_wf st' L' F' /\ used L' = used L /\
                             trailing_free L' = trailing_free L + Z.of_nat n * OS_PAGE_SIZE
    else (exists s, expand s = Ok (false, st')) /\ exists L' F', heap_wf st' L' F' /\ used L' = used L.
Proof.
  revert st L F. induction n as [|n IH]; intros st L F Hw.
  - exists true, st. split; [done|]. exists L, F. split; [done|]. split; [done|]. lia.
  - cbn [expand_loop]. destruct (expand_spec st L F Hw) as (ok & st1 & E & H1).
    rewrite (K_bind_Ok _ _ _ _ _ E). destruct ok; cbn [negb].
    + destruct H1 as (L1 & F1 & Hw1 & U1 & T1). destruct (IH st1 L1 F1 Hw1) as (ok & st2 & E2 & H2).
      exists ok, st2. split; [done|]. destruct ok.
      * destruct H2 as (L2 & F2 & Hw2 & U2 & T2). exists L2, F2. split; [done|]. split; [congruence|]. lia.
      * destruct H2 as (Hs & L2 & F2 & Hw2 & U2). split; [done|]. exists L2, F2. split; [done|congruence].
    + exists false, st1. split; [done|]. split; [eauto|]. exists L, F. done.
Qed.

(** ** The search *)

Lemma first_fit_spec fuel m p F total :
  dlseg m p F 0 -> 0 ∉ F -> (length F < fuel)%nat ->
  exists b, first_fit fuel m (List.hd 0 F) total = Some b /\
    ((b = 0 /\ Forall (fun x => size (m x) < total) F) \/ (b ∈ F /\ total <= size (m b))).
Proof.
  revert p fuel. induction F as [|c F IH]; intros p [|fuel] Hd Hz Hf; simpl in *; try lia.
  - exists 0. split; [done|]. left. by split.
  - destruct Hd as (_ & Hn & Hd). apply not_elem_of_cons in Hz as [Hc Hz].
    rewrite (proj2 (Z.eqb_neq c 0)) by done. cbn [negb andb].
    destruct (Z.ltb_spec (size (m c)) total) as [Hlt|Hge].
    + rewrite Hn. destruct (IH c fuel Hd Hz ltac:(lia)) as (b & -> & [[-> HF]|[Hb Hs]]); eexists; split; try done.
      * left. split; [done|]. by constructor.
      * right. split; [by right|done].
    + exists c. split; [done|]. right. split; [by left|done].
Qed.

Lemma tiles_length a L e : tiles a L e -> MIN_SPLIT * Z.of_nat (length L) <= e - a.
Proof.
  revert a. induction L as [|x L IH]; intros a Ht; simpl in *; [lia|].
  destruct Ht as (_ & Hs & _ & Ht). apply IH in Ht. heap_lia.
Qed.

Lemma search_spec total st L F :
  heap_wf st L F ->
  exists b, search total st = Ok (b, st) /\
    ((b = 0 /\ forall x, x ∈ L -> b_used x = false -> b_size x < total) \/
     (b <> 0 /\ exists l1 s l2, L = l1 ++ Blk b s false :: l2 /\ total <= s)).
Proof.
  intros Hw. destruct (hw_shape _ _ _ Hw) as (Ht & Hh & Hl). destruct (hw_flist _ _ _ Hw) as (Hd & Hhd & Hnd & Hz).
  pose proof (hw_free _ _ _ Hw) as HP. unfold search. rewrite Hhd.
  assert (length F < list_fuel st)%nat as Hfuel.
  { pose proof (tiles_length _ _ _ Ht) as Hlen. rewrite HP. unfold free_addrs, list_fuel. rewrite length_fmap.
    pose proof (count_le (fun x => negb (b_used x)) L). heap_lia. }
  assert (forall l1 a s l2, L = l1 ++ Blk a s false :: l2 -> size (hm st a) = s) as Hsz.
  { intros l1 a s l2 ->. apply hdrs_app in Hh as [_ [(_ & _ & E & _) _]]. exact E. }
  destruct (first_fit_spec (list_fuel st) (hm st) 0 F total Hd Hz Hfuel) as (b & -> & [[-> HF]|[Hb Hs]]).
  - exists 0. split; [done|]. left. split; [done|]. intros [a s u] Hx Hu. simpl in *. subst u.
    apply list_elem_of_split in Hx as (l1 & l2 & ->). rewrite <- (Hsz l1 a s l2) by done.
    rewrite Forall_forall in HF. apply HF. rewrite HP, free_addrs_app, free_addrs_cons. simpl.
    rewrite elem_of_app, elem_of_cons. auto.
  - exists b. split; [done|]. right. split; [by intros ->|].
    destruct (free_addr_in_range st L F b (hw_shape _ _ _ Hw) HP Hb) as (s & l1 & l2 & E).
    exists l1, s, l2. split; [done|]. by rewrite <- (Hsz l1 b s l2).
Qed.

Lemma trailing_block L : 0 < trailing_free L -> exists x, x ∈ L /\ b_used x = false /\ b_size x = trailing_free L.
Proof.
  unfold trailing_free. destruct (last L) as [x|] eqn:E; [|lia]. apply last_Some in E as [l' ->].
  destruct (b_used x) eqn:Eu; [lia|]. exists x. split; [|done]. apply elem_of_app. right. by left.
Qed.

Lemma trailing_nonneg a L e : tiles a L e -> 0 <= trailing_free L.
Proof.
  intros Ht. unfold trailing_free. destruct (last L) as [x|] eqn:E; [|lia]. apply last_Some in E as [l' ->].
  apply tiles_sides in Ht as (_ & _ & Hs & _). destruct (b_used x); heap_lia.
Qed.

(** ** [kmalloc] *)

(** Bytes of a block that can hold [n] bytes of payload. *)
Definition total_for (n : Z) : Z := (n + 15) / 16 * 16 + sizeof_block.

Lemma total_for_source n :
  0 < n -> n <= UINT64_MAX - sizeof_block - 16 ->
  u64 (Z.land (u64 (n + 15)) (not64 15) + sizeof_block) = total_for n.
Proof.
  intros Hn Hle. unfold sizeof_block, UINT64_MAX in *.
  change (not64 15) with (Z.shiftl (Z.ones 60) 4). rewrite land_field by lia.
  unfold total_for, sizeof_block, u64. lia.
Qed.

Lemma total_for_facts n :
  0 < n -> n <= UINT64_MAX - sizeof_block - 16 ->
  MIN_SPLIT <= total_for n /\ total_for n mod 8 = 0 /\ n + sizeof_block <= total_for n < 2 ^ 64.
Proof. unfold total_for, MIN_SPLIT, sizeof_block, UINT64_MAX. lia. Qed.

(** What a successful allocation adds to the live blocks. *)
Definition allocated (L L' : list blk) (p n : Z) : Prop :=
  exists s u1 u2, used L = u1 ++ u2 /\ used L' = u1 ++ Blk (p - sizeof_block) s true :: u2 /\
    n + sizeof_block <= s /\ p mod 8 = 0 /\ p <> 0.

Lemma take_allocated st L F l1 a s l2 n :
  heap_wf st L F -> L = l1 ++ Blk a s false :: l2 -> 0 < n -> n <= UINT64_MAX - sizeof_block - 16 ->
  total_for n <= s ->
  exists L' F', heap_wf (take_block a (total_for n) st) L' F' /\ allocated L L' (u64 (a + sizeof_block)) n.
Proof.
  intros Hw E Hn Hmax Hs. destruct (total_for_facts n Hn Hmax) as (T1 & T2 & T3).
  destruct (take_block_spec st L F l1 a s l2 (total_for n) Hw E T1 T2 Hs) as (F' & s' & l & Hw' & Hs' & Hu).
  exists (l1 ++ Blk a s' true :: l), F'. split; [done|]. subst L.
  destruct (hw_shape _ _ _ Hw) as (Ht & _). pose proof (heap_end_bound _ _ _ Hw) as Hb.
  apply tiles_sides in Ht as (Ht1 & _ & _ & _ & Hb1 & Hb2 & _). simpl in *.
  assert (forall c l e, tiles c l e -> e mod 8 = c mod 8) as Hmod8.
  { intros c l0. revert c. induction l0 as [|x l0 IH]; simpl; [by intros ?? ->|].
    intros c e (_ & _ & Hm & Ht). rewrite (IH _ _ Ht). lia. }
  pose proof (Hmod8 _ _ _ Ht1) as Ha8. change (HEAP_VIRT_BASE mod 8) with 0 in Ha8.
  rewrite u64_small by (unfold is_u64, HEAP_LIMIT in *; heap_lia).
  exists s', (used l1), (used l2). rewrite !used_app.
  replace (a + sizeof_block - sizeof_block) with a by lia. split; [done|].
  split; [exact (f_equal (app (used l1)) Hu)|]. heap_lia.
Qed.

Lemma kmalloc_spec st L F n :
  heap_wf st L F -> 0 < n < 2 ^ 64 ->
  exists p st' L' F', kmalloc n st = Ok (p, st') /\ heap_wf st' L' F' /\
    (allocated L L' p n \/
     (p = 0 /\ used L' = used L /\ (2 ^ 64 - 2 ^ 13 < n \/ exists s, expand s = Ok (false, st')))).
Proof.
  intros Hw Hn. unfold kmalloc. rewrite (proj2 (Z.eqb_neq n 0)) by lia. unfold kmalloc_locked.
  destruct (Z.ltb_spec (UINT64_MAX - sizeof_block - 16) n) as [Hbig|Hle].
  { exists 0, st, L, F. split; [done|]. split; [done|]. right. split; [done|]. split; [done|]. left.
    unfold UINT64_MAX, sizeof_block in Hbig. lia. }
  rewrite total_for_source by lia. cbn zeta. destruct (total_for_facts n ltac:(lia) Hle) as (T1 & T2 & T3).
  destruct (search_spec (total_for n) st L F Hw) as (b & E & Hb). rewrite (K_bind_Ok _ _ _ _ _ E).
  destruct Hb as [[-> Hnone]|(Hb0 & l1 & s & l2 & EL & Hs)].
  2:{ rewrite (proj2 (Z.eqb_neq _ _) Hb0).
      destruct (take_allocated st L F l1 b s l2 n Hw EL ltac:(lia) Hle Hs) as (L' & F' & Hw' & Ha).
      do 2 eexists. exists L', F'. split; [done|]. split; [exact Hw'|]. by left. }
  rewrite Z.eqb_refl. set (pages := u64 _ / _).
  destruct (expand_loop_spec (Z.to_nat pages) st L F Hw) as (ok & st1 & E1 & H1).
  rewrite (K_bind_Ok _ _ _ _ _ E1). destruct ok; cbn [negb].
  2:{ destruct H1 as (Hx & L1 & F1 & Hw1 & U1). exists 0, st1, L1, F1. split; [done|]. split; [done|].
      right. auto. }
  destruct H1 as (L1 & F1 & Hw1 & U1 & Htr).
  destruct (search_spec (total_for n) st1 L1 F1 Hw1) as (b & E2 & Hb). rewrite (K_bind_Ok _ _ _ _ _ E2).
  destruct Hb as [[-> Hnone1]|(Hb0 & l1 & s & l2 & EL & Hs)].
  - rewrite Z.eqb_refl. exists 0, st1, L1, F1. split; [done|]. split; [done|]. right. split; [done|].
    split; [done|]. left. destruct (Z.le_gt_cases n (2 ^ 64 - 2 ^ 13)) as [Hsm|]; [|lia]. exfalso.
    pose proof (trailing_nonneg _ _ _ (proj1 (hw_shape _ _ _ Hw))) as Htn.
    assert (total_for n <= Z.of_nat (Z.to_nat pages) * OS_PAGE_SIZE) as Hp.
    { assert (total_for n <= n + 55) as Ht by (unfold total_for, sizeof_block; lia).
      unfold sizeof_block in T3. unfold pages, OS_PAGE_SIZE. rewrite (u64_small (_ + _)) by (unfold is_u64; lia).
      rewrite u64_small by (unfold is_u64; lia). clear - T3 Ht Hn. lia. }
    destruct (trailing_block L1) as (x & Hx & Hu & Hxs); [heap_lia|].
    specialize (Hnone1 x Hx Hu). lia.
  - rewrite (proj2 (Z.eqb_neq _ _) Hb0).
    destruct (take_allocated st1 L1 F1 l1 b s l2 n Hw1 EL ltac:(lia) Hle Hs) as (L' & F' & Hw' & Ha).
    do 2 eexists. exists L', F'. split; [done|]. split; [exact Hw'|]. left. unfold allocated in *. by rewrite <- U1.
Qed.

(** C4: from any well-formed heap and for any positive size (a size of 0 is
    answered with NULL), [kmalloc] returns without panic and leaves a
    well-formed heap. Either it returns an 8-aligned payload pointer of a block
    of at least the requested size that is added to the live blocks, all of
    which keep their place and size; or it returns NULL with the live blocks
    unchanged, and then the request was within 8 KiB of [UINT64_MAX] or a call
    of [expand] failed. *)
Theorem kmalloc_correct st L F n :
  heap_wf st L F -> 0 < n < 2 ^ 64 ->
  exists p st' L' F', kmalloc n st = Ok (p, st') /\ heap_wf st' L' F' /\
    (allocated L L' p n \/
     (p = 0 /\ used L' = used L /\ (2 ^ 64 - 2 ^ 13 < n \/ exists s, expand s = Ok (false, st')))).
Proof. apply kmalloc_spec. Qed.

(** ** [kfree] *)

Lemma header_at st L F l1 a s u l2 :
  heap_wf st L F -> L = l1 ++ Blk a s u :: l2 ->
  hdr_ok (hm st) (last_addr 0 l1) (Blk a s u) /\ HEAP_VIRT_BASE <= a /\ MIN_SPLIT <= s /\
  a + s <= heap_end st /\ u64 (a + sizeof_block - sizeof_block) = a.
Proof.
  intros Hw ->. destruct (hw_shape _ _ _ Hw) as (Ht & Hh & _). pose proof (heap_end_bound _ _ _ Hw) as Hb.
  apply tiles_sides in Ht as (_ & _ & Hs & _ & Hb1 & Hb2 & _). apply hdrs_app in Hh as [_ [Hh _]]. simpl in *.
  split; [done|]. split; [done|]. split; [done|]. split; [done|].
  rewrite Z.add_simpl_r. apply u64_small. unfold is_u64, HEAP_LIMIT in *. heap_lia.
Qed.

(** Freeing a block that is free already is caught. *)
Lemma kfree_double_panics st L F l1 a s l2 :
  heap_wf st L F -> L = l1 ++ Blk a s false :: l2 ->
  kfree (a + sizeof_block) st = Panic "heap: invalid free".
Proof.
  intros Hw E. destruct (header_at _ _ _ _ _ _ _ _ Hw E) as ((H1 & H2 & _) & Hb & _ & _ & Hu).
  unfold kfree. rewrite (proj2 (Z.eqb_neq _ 0)) by heap_lia. unfold kfree_locked. cbn zeta. rewrite Hu.
  simpl in H1, H2. rewrite H1, H2. done.
Qed.

Lemma is_free_block_spec st l1 x l2 :
  shape st (l1 ++ x :: l2) -> is_free_block st (b_addr x) = negb (b_used x).
Proof.
  intros (Ht & Hh & _). apply tiles_sides in Ht as (_ & _ & _ & _ & Hb & _).
  apply hdrs_app in Hh as [_ [(H1 & H2 & _) _]]. unfold is_free_block. rewrite H1, H2.
  rewrite (proj2 (Z.eqb_neq _ 0)) by heap_lia. by destruct (b_used x).
Qed.

(** A heap in which the block at [a] is marked free but not yet on the list. *)
Definition pending st (l1 : list blk) (a s : Z) (l2 : list blk) (F : list Z) : Prop :=
  shape st (l1 ++ Blk a s false :: l2) /\ flist st F /\ F ≡ₚ free_addrs (l1 ++ l2) /\
  coalesced l1 /\ coalesced l2 /\ heap_end st < 2 ^ 64.

Lemma free_list_remove_pending st l1 a s l2 b F1 F2 :
  shape st (l1 ++ Blk a s false :: l2) -> flist st (F1 ++ b :: F2) ->
  let st' := free_list_remove b st in
  shape st' (l1 ++ Blk a s false :: l2) /\ flist st' (F1 ++ F2) /\
  heap_end st' = heap_end st /\ back st' = back st.
Proof.
  intros Hs Hf. destruct (free_list_remove_spec b st F1 F2 Hf) as [Hf' HL].
  split; [by eapply shape_links|]. split; [done|]. by destruct HL as [(_ & ? & ?) _].
Qed.

Lemma coalesce_next st l1 a s l2 F :
  pending st l1 a s l2 F ->
  let n := block_next_mem st a in
  let st' := if is_free_block st n then absorb a n (free_list_remove n st) else st in
  exists s' l2' F', pending st' l1 a s' l2' F' /\ head_used l2' /\ used l2' = used l2 /\
    heap_end st' = heap_end st /\ back st' = back st.
Proof.
  intros (Hs & Hf & HP & C1 & C2 & He). pose proof Hs as (Ht & Hh & _).
  apply tiles_sides in Ht as (_ & T2 & Hsz & _ & Hb1 & Hb2 & _). apply hdrs_app in Hh as [_ [(_ & _ & E3 & _) _]].
  simpl in *. rewrite (block_next_mem_spec st a s l2) by (done || heap_lia).
  destruct l2 as [|[c s2 u2] l2].
  { exists s, [], F. split; [by split_and!|done]. }
  pose proof T2 as (Ec & _). simpl in Ec. subst c.
  pose proof (is_free_block_spec st (l1 ++ [Blk a s false]) (Blk (a + s) s2 u2) l2) as Efb.
  rewrite <- app_assoc in Efb. rewrite (Efb Hs). simpl.
  destruct u2; simpl.
  { exists s, (Blk (a + s) s2 true :: l2), F. split; [by split_and!|done]. }
  rewrite free_addrs_app in HP.
  destruct (flist_split st F l1 (a + s) s2 l2 Hf) as (F1 & F2 & -> & HP'); [by rewrite free_addrs_app|].
  destruct (free_list_remove_pending st l1 a s (Blk (a + s) s2 false :: l2) (a + s) F1 F2 Hs Hf)
    as (Hs1 & Hf1 & X1 & X2).
  destruct (absorb_spec _ l1 a s false s2 false l2 Hs1) as [Hs2 HC]; [by rewrite X1|].
  exists (s + s2), l2, (F1 ++ F2). apply coalesced_cons in C2 as [C2 [?|C3]]; [done|].
  pose proof HC as (_ & Y1 & Y2 & _). split; [|split; [done|split; [done|split; congruence]]].
  split; [done|]. split; [by eapply flist_core|]. split; [done|]. split; [done|]. split; [done|].
  by rewrite Y1, X1.
Qed.

Lemma coalesce_prev st l1 a s l2 F :
  pending st l1 a s l2 F ->
  let p := prev (hm st a) in
  let r := if is_free_block st p then (p, absorb p a (free_list_remove p st)) else (a, st) in
  exists l1' s' F', pending (snd r) l1' (fst r) s' l2 F' /\ last_used l1' /\ used l1' = used l1 /\
    heap_end (snd r) = heap_end st /\ back (snd r) = back st.
Proof.
  intros (Hs & Hf & HP & C1 & C2 & He) p r. subst p r. pose proof Hs as (Ht & Hh & _).
  apply tiles_sides in Ht as (T1 & _). apply hdrs_app in Hh as [_ [(_ & _ & _ & E4) _]].
  simpl in E4, T1. rewrite E4.
  destruct l1 as [|[c s1 u1] l1 _] using rev_ind.
  { simpl. exists [], s, F. split; [by split_and!|]. split; [by intros [|] ? ?|done]. }
  rewrite last_addr_app. cbn [last_addr b_addr].
  pose proof Hs as Hs0. rewrite <- app_assoc in Hs0. cbn [app] in Hs0.
  rewrite (is_free_block_spec st l1 (Blk c s1 u1) _ Hs0 : is_free_block st c = negb u1).
  destruct u1; cbn [negb].
  { exists (l1 ++ [Blk c s1 true]), s, F. split; [by split_and!|]. split; [|done].
    intros l' y E. apply app_inj_tail in E as [_ <-]. done. }
  assert (a = c + s1) as ->.
  { apply tiles_app in T1 as (d & _ & <- & _ & _ & E). done. }
  rewrite <- app_assoc in HP. cbn [app] in HP.
  destruct (flist_split st F l1 c s1 l2 Hf HP) as (F1 & F2 & -> & HP').
  destruct (free_list_remove_spec c st F1 F2 Hf) as [Hf1 HL]. pose proof HL as [(_ & X1 & X2) _].
  destruct (absorb_spec (free_list_remove c st) l1 c s1 false s false l2) as [Hs2 HC];
    [by eapply shape_links|by rewrite X1|].
  apply coalesced_sides in C1 as (C1 & _ & C3 & _). pose proof HC as (_ & Y1 & Y2 & _). cbn [fst snd].
  exists l1, (s1 + s), (F1 ++ F2). split; [|split; [done|]].
  - split; [done|]. split; [by eapply flist_core|]. split; [done|]. split; [done|]. split; [done|]. by rewrite Y1, X1.
  - rewrite used_app. simpl. rewrite app_nil_r. split; [done|]. split; congruence.
Qed.

Lemma kfree_spec st L F l1 a s l2 :
  heap_wf st L F -> L = l1 ++ Blk a s true :: l2 ->
  exists st' L' F', kfree (a + sizeof_block) st = Ok (tt, st') /\ heap_wf st' L' F' /\
    used L' = used l1 ++ used l2.
Proof.
  intros Hw E. destruct (header_at _ _ _ _ _ _ _ _ Hw E) as ((H1 & H2 & _) & Hb & Hsz & Hend & Hu).
  pose proof (heap_end_bound _ _ _ Hw) as Hlim. subst L. simpl in H1, H2.
  unfold kfree. rewrite (proj2 (Z.eqb_neq _ 0)) by heap_lia. unfold kfree_locked. cbn zeta. rewrite Hu, H1, H2.
  change (negb (HEAP_MAGIC =? HEAP_MAGIC) || negb (BLOCK_USED =? BLOCK_USED)) with false. cbn match.
  pose proof (hw_coalesced _ _ _ Hw) as Hc. apply coalesced_mid in Hc as (C1 & C2 & _).
  set (st1 := upd_hm st a (set_flags BLOCK_FREE)).
  assert (pending st1 l1 a s l2 F) as P1.
  { split; [by apply (shape_set_used st l1 a s true false), Hw|].
    split; [eapply flist_core; [by apply core_only_upd|apply Hw]|]. split; [|split; [done|split; [done|]]].
    - rewrite (hw_free _ _ _ Hw), !free_addrs_app, free_addrs_cons. done.
    - simpl. unfold HEAP_LIMIT in Hlim. lia. }
  destruct (coalesce_next st1 l1 a s l2 F P1) as (s2 & l2' & F2 & P2 & Hhu & U2 & X1 & X2).
  set (st2 := if is_free_block st1 _ then _ else st1) in *.
  destruct (coalesce_prev st2 l1 a s2 l2' F2 P2) as (l1' & s3 & F3 & P3 & Hlu & U1 & Y1 & Y2).
  destruct (if is_free_block st2 _ then _ else _) as [b st3]. cbn [fst snd] in *.
  destruct P3 as (Hs3 & Hf3 & HP3 & C3 & C4 & He3). pose proof Hs3 as (Ht3 & _).
  apply tiles_sides in Ht3 as (_ & _ & Hsz3 & _ & Hb3 & _ & Fl & Fr). simpl in *.
  destruct (free_list_add_spec b st3 F3 Hf3) as [Hf4 HL]; [|heap_lia|].
  { rewrite HP3. intros (x & Hx & <- & _)%free_addrs_elem. rewrite Forall_forall in Fl, Fr.
    apply elem_of_app in Hx as [Hx|Hx]; [specialize (Fl x Hx)|specialize (Fr x Hx)]; simpl in *; heap_lia. }
  pose proof HL as [(_ & Z1 & Z2) _].
  exists (free_list_add b st3), (l1' ++ Blk b s3 false :: l2'), (b :: F3). split; [done|]. split.
  - eapply heap_wf_intro; [exact Hw|by eapply shape_links|done| | | |].
    + rewrite HP3, !free_addrs_app, free_addrs_cons. simpl. apply Permutation_middle.
    + apply coalesced_mid. auto.
    + rewrite Z1, Y1, X1. done.
    + rewrite Z2, Y2, X2. done.
  - rewrite used_app. simpl. by rewrite U1, <- U2.
Qed.

(** C5: [kfree] of the payload pointer of a live block returns without panic,
    removes exactly that block from the live blocks and merges it with every
    free neighbour: the heap is well-formed again, with no two adjacent free
    blocks, and all other live blocks keep their place and size. *)
Theorem kfree_correct st L F l1 a s l2 :
  heap_wf st L F -> L = l1 ++ Blk a s true :: l2 ->
  exists st' L' F', kfree (a + sizeof_block) st = Ok (tt, st') /\ heap_wf st' L' F' /\
    used L' = used l1 ++ used l2.
Proof. apply kfree_spec. Qed.

(** ** Initialisation *)

(** [heap_init] yields a well-formed heap without live blocks, or panics
    with its own message when the first page cannot be had. *)
Theorem heap_init_correct (s : S) :
  pb_inv s -> HEAP_VIRT_BASE + OS_PAGE_SIZE * pb_left s <= HEAP_LIMIT ->
  (exists st L F, heap_init s = Ok st /\ heap_wf st L F /\ used L = [] /\ trailing_free L = OS_PAGE_SIZE) \/
  heap_init s = Panic "heap: initial page allocation failed".
Proof.
  intros Hi Hr. unfold heap_init. set (st := mk_heap _ _ _ _ _).
  assert (heap_wf st [] []) as Hw.
  { split; simpl; try done. split_and!; try done; [by apply NoDup_nil|set_solver]. }
  destruct (expand_spec st [] [] Hw) as (ok & st' & -> & H1). destruct ok; [left|by right].
  destruct H1 as (L & F & Hw' & U & T). exists st', L, F. done.
Qed.
End proofs.

(** ** Concrete instances *)

(** A backing that hands out a counted supply of pages. *)
#[export] Instance counted_pages : PageBacking Z := {
  pb_alloc := fun n => if 0 <? n then Ok (n * OS_PAGE_SIZE, n - 1) else Ok (PMM_ALLOC_FAILED, n);
  pb_free := fun _ n => Ok (tt, n + 1);
  pb_map := fun _ _ _ n => Ok (true, n);
}.

#[export] Program Instance counted_pages_laws : PageBackingLaws Z := {
  pb_inv := fun n => 0 <= n < 1024;
  pb_left := fun n => n;
  pb_held := fun n _ => n < 1023;
}.
Next Obligation. simpl. lia. Qed.
Next Obligation.
  intros n Hn. simpl in *. destruct (Z.ltb_spec 0 n) as [Hp|Hp].
  - do 2 eexists. split; [done|]. cbn beta. split; [lia|]. right. split; [|lia].
    unfold OS_PAGE_SIZE, PMM_ALLOC_FAILED, UINT64_MAX. lia.
  - do 2 eexists. split; [done|]. split; [done|]. by left.
Qed.
Next Obligation. intros n v a Hn Hh. simpl in *. do 2 eexists. split; [done|]. split; [done|]. split; [done|lia]. Qed.
Next Obligation. intros n a Hn Hh. simpl in *. eexists. split; [done|]. lia. Qed.

(** A heap of one page, in use or not. *)
Definition one_page (u : bool) : heap Z :=
  mk_heap (if u then 0 else HEAP_VIRT_BASE) HEAP_VIRT_BASE (HEAP_VIRT_BASE + OS_PAGE_SIZE)
    (fun _ => mk_block HEAP_MAGIC (if u then BLOCK_USED else BLOCK_FREE) OS_PAGE_SIZE 0 0 0) 3.

Lemma one_page_wf u :
  heap_wf (one_page u) [Blk HEAP_VIRT_BASE OS_PAGE_SIZE u] (if u then [] else [HEAP_VIRT_BASE]).
Proof.
  assert (forall F : list Z, F = [] \/ F = [HEAP_VIRT_BASE] -> NoDup F /\ (0 ∉ F)) as HF.
  { intros F [->| ->].
    - split; [by apply NoDup_nil|by intros ?%elem_of_nil].
    - split; [apply NoDup_singleton|by intros ?%list_elem_of_singleton]. }
  destruct u; split; try done; split; try done; (split; [done|]); apply HF; auto.
Qed.

Lemma kmalloc_correct_witness :
  exists p st' L' F', kmalloc 100 (one_page false) = Ok (p, st') /\ heap_wf st' L' F' /\
    (allocated [Blk HEAP_VIRT_BASE OS_PAGE_SIZE false] L' p 100 \/
     (p = 0 /\ used L' = [] /\ (2 ^ 64 - 2 ^ 13 < 100 \/ exists s, expand s = Ok (false, st')))).
Proof.
  exact (kmalloc_correct (one_page false) _ _ 100 (one_page_wf false) ltac:(lia)).
Defined.

Lemma kfree_correct_witness :
  exists st' L' F', kfree (HEAP_VIRT_BASE + sizeof_block) (one_page true) = Ok (tt, st') /\
    heap_wf st' L' F' /\ used L' = [].
Proof.
  exact (kfree_correct (one_page true) _ _ [] HEAP_VIRT_BASE OS_PAGE_SIZE [] (one_page_wf true) eq_refl).
Defined.

Lemma heap_init_correct_witness :
  (exists st L F, heap_init 3 = Ok st /\ heap_wf st L F /\ used L = [] /\ trailing_free L = OS_PAGE_SIZE) \/
  heap_init 3 = Panic "heap: initial page allocation failed".
Proof.
  apply (heap_init_correct 3).
  - simpl. lia.
  - unfold HEAP_VIRT_BASE, HEAP_LIMIT, OS_PAGE_SIZE. simpl. lia.
Defined.

(** The payload of the first allocation is not 16-aligned, although the source
    rounds the size for 16-byte alignment: headers are 40 bytes. *)
Example kmalloc_not_16_aligned :
  match kmalloc 100 (one_page false) with
  | Ok (p, _) => p mod 16 = 8
  | Panic _ => False
  end.
Proof. vm_compute. reflexivity. Qed.
End Heap.
