(* ===== verification/HeapPages.v ===== *)
(** * The heap on top of the page allocator and the page tables

    Discharges the interface of [Heap] with [kernel/mem/pmm.c] and
    [kernel/mem/vmm.c]: [pmm_alloc_page], [pmm_free_page] and [vmm_map] satisfy
    the laws of [PageBacking], so every theorem on the heap holds of the three
    files together. *)

From S2P Require Import Prelude Pmm Vmm Heap.
Import Pmm Vmm Heap.

Module HeapPages.

#[export] Instance vmm_pages : PageBacking vmm := {
  pb_alloc := alloc_page;
  pb_free := free_page;
  pb_map := vmm_map;
}.

(** A frame that is allocated and is not a page table of the active space. *)
Definition held (st : vmm) (a : Z) : Prop :=
  a mod OS_PAGE_SIZE = 0 /\ valid_page (a / OS_PAGE_SIZE) /\ ~ page_free (vpmm st) (a / OS_PAGE_SIZE) /\
  forall p, table_path p -> table_at (ram st) (active_pml4_phys st) p <> Some a.

Lemma space_set_pmm st root pm :
  space_wf st root -> pmm_wf pm ->
  (forall p t, table_path p -> table_at (ram st) root p = Some t -> ~ page_free pm (t / OS_PAGE_SIZE)) ->
  space_wf (set_pmm st pm) root.
Proof.
  intros Hwf Hpm Hp. destruct Hwf as [_ W2 W3 W4 W5]. split; [done|exact W2| |exact W4|exact W5].
  intros p t Hpath Ht. split; [by apply (W3 p)|by eapply Hp].
Qed.

Lemma alloc_page_spec st :
  space_wf st (active_pml4_phys st) ->
  exists a st', alloc_page st = Ok (a, st') /\ space_wf st' (active_pml4_phys st') /\
    ((a = PMM_ALLOC_FAILED /\ pmm_free_pages (vpmm st') = pmm_free_pages (vpmm st)) \/
     (a <> PMM_ALLOC_FAILED /\ held st' a /\
      pmm_free_pages (vpmm st') = pmm_free_pages (vpmm st) - 1)).
Proof.
  intros Hwf. pose proof (ws_pmm _ _ Hwf) as Hpm. unfold alloc_page.
  destruct (pmm_alloc_page_cases _ Hpm) as [(c & Hc & _ & ->)|(Hno & ->)].
  - destruct (pmm_alloc_page_facts _ c Hpm Hc) as (Hpm' & Hpf & Hr & Hal & Hdiv & Hne).
    do 2 eexists. split; [done|]. cbn [active_pml4_phys set_pmm vpmm ram]. split.
    + apply space_set_pmm; [done|done|]. intros p t Hp Ht. rewrite Hpf.
      destruct (ws_tables _ _ Hwf p t Hp Ht). tauto.
    + right. split; [by apply Z.eqb_neq|]. split.
      * split; [done|]. rewrite Hdiv. split; [apply Hc|]. split; [cbn [vpmm set_pmm]; rewrite Hpf; tauto|].
        intros p Hp Ht. destruct (ws_tables _ _ Hwf p _ Hp Ht) as [_ H]. by rewrite Hdiv in H.
      * unfold pmm_free_pages. rewrite (wf_count _ Hpm), (wf_count _ Hpm'), (take_page_count (vpmm st) c Hpm Hc). lia.
  - exists PMM_ALLOC_FAILED, st. split; [by destruct st|]. split; [done|]. by left.
Qed.

Lemma vmm_map_held st virt a :
  space_wf st (active_pml4_phys st) -> held st a ->
  exists b st', vmm_map virt a VMM_WRITABLE st = Ok (b, st') /\ space_wf st' (active_pml4_phys st') /\
    held st' a /\ pmm_free_pages (vpmm st') <= pmm_free_pages (vpmm st).
Proof.
  intros Hwf (Ha1 & Ha2 & Ha3 & Ha4).
  destruct (vmm_map_mapped st virt a VMM_WRITABLE Hwf eq_refl) as (b & st' & E & M & Hact & Hfree & Hnew).
  exists b, st'. split; [done|]. pose proof (mapped_wf _ _ _ _ _ _ M) as Hwf'. rewrite Hact. split; [done|]. split.
  - split; [done|]. split; [done|]. split; [by intros ?%Hfree|]. rewrite Hact. intros p Hp Ht.
    destruct (Hnew p a Hp Ht) as [H|H]; [by apply (Ha4 p)|done].
  - unfold pmm_free_pages. rewrite (wf_count _ (ws_pmm _ _ Hwf)), (wf_count _ (ws_pmm _ _ Hwf')).
    pose proof (free_count_mono _ _ Hfree). lia.
Qed.

Lemma free_page_held st a :
  space_wf st (active_pml4_phys st) -> held st a ->
  exists st', free_page a st = Ok (tt, st') /\ space_wf st' (active_pml4_phys st') /\
    pmm_free_pages (vpmm st') = pmm_free_pages (vpmm st) + 1.
Proof.
  intros Hwf (Ha1 & Ha2 & Ha3 & Ha4). pose proof (ws_pmm _ _ Hwf) as Hpm.
  assert (bitmap_test (vpmm st) (a / OS_PAGE_SIZE) = true) as Ht.
  { destruct (bitmap_test _ _) eqn:E; [done|]. exfalso. apply Ha3. by split. }
  assert (a / OS_PAGE_SIZE * OS_PAGE_SIZE = a) as Ea by (unfold OS_PAGE_SIZE in *; clear - Ha1; lia).
  exists (set_pmm st (release_page (vpmm st) (a / OS_PAGE_SIZE))). split.
  { unfold free_page. rewrite <- Ea at 1. by rewrite pmm_free_page_Ok. }
  cbn [active_pml4_phys set_pmm vpmm].
  pose proof (release_page_wf _ _ Hpm Ha2 Ht) as Hpm'. split.
  - apply space_set_pmm; [done|done|]. intros p t Hp Htab. rewrite page_free_release by done.
    destruct (ws_tables _ _ Hwf p t Hp Htab) as [[Hal _] Hnf]. intros [?|E]; [done|].
    apply (Ha4 p Hp). rewrite Htab. f_equal. unfold OS_PAGE_SIZE in *. clear - E Hal Ha1. lia.
  - unfold pmm_free_pages. rewrite (wf_count _ Hpm), (wf_count _ Hpm'), release_page_count by done. lia.
Qed.

#[export] Program Instance vmm_pages_laws : PageBackingLaws vmm := {
  pb_inv := fun st => space_wf st (active_pml4_phys st);
  pb_left := fun st => pmm_free_pages (vpmm st);
  pb_held := held;
}.
Next Obligation. intros st Hwf. simpl in *. unfold pmm_free_pages. rewrite (wf_count _ (ws_pmm _ _ Hwf)). lia. Qed.
Next Obligation. exact alloc_page_spec. Qed.
Next Obligation. exact vmm_map_held. Qed.
Next Obligation. exact free_page_held. Qed.

(** The heap before its first page. *)
Definition fresh_heap (st : vmm) : heap vmm := mk_heap 0 0 HEAP_VIRT_BASE (fun _ => mk_block 0 0 0 0 0 0) st.

Lemma fresh_heap_wf st : space_wf st (active_pml4_phys st) -> heap_wf (fresh_heap st) [] [].
Proof.
  intros Hwf. split; simpl; try done.
  - split; [done|]. split; [done|]. split; [by apply NoDup_nil|by intros ?%elem_of_nil].
  - unfold pmm_free_pages. rewrite (wf_count _ (ws_pmm _ _ Hwf)). pose proof (free_count_max (vpmm st)).
    unfold HEAP_VIRT_BASE, HEAP_LIMIT. pmm_lia.
Qed.

(** [heap_init] as the kernel runs it. *)
Definition kernel_heap_init (st : vmm) : outcome (heap vmm) := heap_init st.

(** Booted on a machine whose active address space is well-formed, the heap
    of the kernel proper initialises (or panics with its own message), with no
    live blocks and within its address range: 64 GiB of frames cannot make
    [heap_end] wrap. *)
Theorem kernel_heap_init_correct (st : vmm) :
  space_wf st (active_pml4_phys st) ->
  (exists h L F, kernel_heap_init st = Ok h /\ heap_wf h L F /\ used L = []) \/
  kernel_heap_init st = Panic "heap: initial page allocation failed".
Proof.
  intros Hwf. set (h0 := fresh_heap st). pose proof (fresh_heap_wf st Hwf) as Hw. fold h0 in Hw.
  unfold kernel_heap_init, heap_init. change (mk_heap _ _ _ _ st) with h0. destruct (expand_spec h0 [] [] Hw) as (ok & h & -> & H1).
  destruct ok; [left|by right]. destruct H1 as (L & F & Hw' & U & _). exists h, L, F. done.
Qed.

Lemma kernel_heap_init_correct_witness :
  (exists h L F, kernel_heap_init empty_machine = Ok h /\ heap_wf h L F /\ used L = []) \/
  kernel_heap_init empty_machine = Panic "heap: initial page allocation failed".
Proof.
  exact (kernel_heap_init_correct empty_machine (empty_machine_wf 0x200000 eq_refl ltac:(lia))).
Defined.
End HeapPages.
