(* ===== verification/Uaccess.v ===== *)
(** * Access to user memory

    Models [kernel/mem/uaccess.c] and the range check of [uaccess.h]. User
    memory is partial: an access to an address without a mapping faults. The
    [rep movsb] of the copy routines moves byte by byte and stops at a fault,
    from which the page-fault handler resumes after the instruction with the
    number of bytes not copied. *)

From S2P Require Import Prelude Bytes.

Module Uaccess.

Definition USER_ADDR_LIMIT : Z := 0x800000000000.

(** The byte mapped readable at a user address. *)
Definition umem : Type := Z -> option Z.

Definition user_range_ok (addr len : Z) : bool :=
  (addr <=? u64 (addr + len)) && (u64 (addr + len) <=? USER_ADDR_LIMIT).

(** [1: rep movsb 2:] reading from user memory: the bytes moved and the value
    of RCX at label 2. *)
Fixpoint movsb_from (n : nat) (um : umem) (src : Z) : list Z * Z :=
  match n with
  | O => ([], 0)
  | S n' =>
      match um src with
      | None => ([], Z.of_nat n)
      | Some b => let '(l, rcx) := movsb_from n' um (src + 1) in (b :: l, rcx)
      end
  end.

(** The same writing to user memory; [w a] says whether [a] is writable. *)
Fixpoint movsb_to (src : list Z) (w : Z -> bool) (um : umem) (dst : Z) : umem * Z :=
  match src with
  | [] => (um, 0)
  | b :: src' =>
      if w dst then movsb_to src' w (fun a => if a =? dst then Some b else um a) (dst + 1)
      else (um, blen src)
  end.

(** The result and the bytes stored at [dst]. *)
Definition copy_from_user (um : umem) (user_src len : Z) : bool * list Z :=
  if negb (user_range_ok user_src len) then (false, [])
  else let '(l, rcx) := movsb_from (Z.to_nat len) um user_src in (rcx =? 0, l).

Definition copy_to_user (w : Z -> bool) (um : umem) (user_dst : Z) (src : list Z) : bool * umem :=
  if negb (user_range_ok user_dst (blen src)) then (false, um)
  else let '(um', rcx) := movsb_to src w um user_dst in (rcx =? 0, um').

(** The loop of [strncpy_from_user] from index [i]: the result and the bytes
    stored from [dst[i]] on. *)
Fixpoint strncpy_loop (n : nat) (um : umem) (s i : Z) : Z * list Z :=
  match n with
  | O => (-1, [])
  | S n' =>
      match copy_from_user um (u64 (s + i)) 1 with
      | (true, [c]) =>
          if c =? 0 then (i, [c])
          else let '(r, l) := strncpy_loop n' um s (i + 1) in (r, c :: l)
      | _ => (-1, [])
      end
  end.

Definition strncpy_from_user (um : umem) (user_src maxlen : Z) : Z * list Z :=
  strncpy_loop (Z.to_nat maxlen) um user_src 0.

Record extable_entry := { fault : Z; fixup : Z }.

Fixpoint extable_lookup (table : list extable_entry) (fault_rip : Z) : Z :=
  match table with
  | [] => 0
  | e :: table' => if fault e =? fault_rip then fixup e else extable_lookup table' fault_rip
  end.

(** ** Properties *)

(** The range check admits exactly the ranges below the limit. *)
Lemma user_range_ok_iff addr len :
  is_u64 addr -> is_u64 len -> user_range_ok addr len = true <-> addr + len <= USER_ADDR_LIMIT.
Proof.
  intros Ha Hl. unfold user_range_ok, USER_ADDR_LIMIT. rewrite andb_true_iff, !Z.leb_le. int_lia.
Qed.

(** Reading stops at the first unmapped byte. *)
Lemma movsb_from_spec n um src :
  let '(l, rcx) := movsb_from n um src in
  0 <= rcx /\ Z.of_nat n = blen l + rcx /\
  (forall i, 0 <= i < blen l -> um (src + i) = Some (aget 0 l i)) /\
  (rcx <> 0 -> um (src + blen l) = None).
Proof.
  revert src. induction n as [|n IH]; intros src; cbn [movsb_from].
  - unfold blen. simpl. split_and!; try lia.
  - destruct (um src) as [b|] eqn:E.
    + specialize (IH (src + 1)). destruct (movsb_from n um (src + 1)) as [l rcx].
      destruct IH as (H1 & H2 & H3 & H4). unfold blen in *. cbn [length]. split; [done|]. split; [lia|]. split.
      * intros i Hi. destruct (decide (i = 0)) as [->|]; [by rewrite Z.add_0_r|].
        replace (src + i) with (src + 1 + (i - 1)) by lia. rewrite H3 by lia.
        unfold aget. by replace (Z.to_nat i) with (S (Z.to_nat (i - 1))) by lia.
      * intros Hr. replace (src + Z.of_nat (S (length l))) with (src + 1 + Z.of_nat (length l)) by lia. auto.
    + unfold blen. simpl. split_and!; try lia. intros _. by rewrite Z.add_0_r.
Qed.

Definition readable (um : umem) (a n : Z) : Prop := forall i, 0 <= i < n -> is_Some (um (a + i)).

Lemma copy_from_user_spec um src len :
  is_u64 src -> is_u64 len ->
  let '(ok, l) := copy_from_user um src len in
  (ok = true <-> src + len <= USER_ADDR_LIMIT /\ readable um src len) /\
  (ok = true -> blen l = len) /\ blen l <= len /\
  forall i, 0 <= i < blen l -> src + i < USER_ADDR_LIMIT /\ um (src + i) = Some (aget 0 l i).
Proof.
  intros Hs Hl. unfold copy_from_user. pose proof (user_range_ok_iff src len Hs Hl) as Hr.
  destruct (user_range_ok src len); cbn [negb].
  - assert (src + len <= USER_ADDR_LIMIT) as Hlim by tauto.
    pose proof (movsb_from_spec (Z.to_nat len) um src) as H.
    destruct (movsb_from (Z.to_nat len) um src) as [l rcx]. destruct H as (H1 & H2 & H3 & H4).
    unfold is_u64 in *. split; [|split; [|split]].
    + rewrite Z.eqb_eq. split.
      * intros ->. split; [done|]. intros i Hi. rewrite H3 by lia. eauto.
      * intros [_ Hm]. destruct (decide (rcx = 0)) as [|Hne]; [done|].
        destruct (Hm (blen l)) as [b Hb]; [unfold blen in *; lia|]. rewrite H4 in Hb by done. done.
    + intros ->%Z.eqb_eq. lia.
    + lia.
    + intros i Hi. split; [lia|by apply H3].
  - unfold blen. simpl. split; [|split; [done|split; [unfold is_u64 in Hl; lia|lia]]].
    split; [done|]. intros [Hc _]. tauto.
Qed.

(** C38: [copy_from_user] succeeds exactly when the range lies below the user
    limit and every byte of it is mapped; then it has stored those bytes. On
    failure what it has stored is a prefix of the range: no byte outside the
    user half is ever read. *)
Theorem copy_from_user_correct um src len :
  is_u64 src -> is_u64 len ->
  let '(ok, l) := copy_from_user um src len in
  (ok = true <-> src + len <= USER_ADDR_LIMIT /\ readable um src len) /\
  (ok = true -> blen l = len) /\ blen l <= len /\
  forall i, 0 <= i < blen l -> src + i < USER_ADDR_LIMIT /\ um (src + i) = Some (aget 0 l i).
Proof. apply copy_from_user_spec. Qed.

Lemma copy_one um a :
  is_u64 a -> copy_from_user um a 1 =
  (match um a with Some b => if a <? USER_ADDR_LIMIT then (true, [b]) else (false, [])
              | None => (false, []) end).
Proof.
  intros Ha. unfold copy_from_user.
  pose proof (user_range_ok_iff a 1 Ha ltac:(int_lia)) as Hr.
  destruct (Z.ltb_spec a USER_ADDR_LIMIT) as [Hlt|Hge].
  - rewrite (proj2 Hr) by lia. simpl. by destruct (um a).
  - destruct (user_range_ok a 1); [exfalso; assert (a + 1 <= USER_ADDR_LIMIT) by tauto; lia|].
    simpl. by destruct (um a).
Qed.

(** [s] is the string of user memory at [a]: mapped, without NUL, terminated. *)
Definition user_string (um : umem) (a : Z) (s : list Z) : Prop :=
  a + blen s < USER_ADDR_LIMIT /\ um (a + blen s) = Some 0 /\
  (forall i, 0 <= i < blen s -> um (a + i) = Some (aget 0 s i)) /\ Forall (fun b => b <> 0) s.

Lemma strncpy_loop_spec n um s i r l :
  is_u64 s -> 0 <= i -> s + i + Z.of_nat n < 2 ^ 64 -> strncpy_loop n um s i = (r, l) ->
  (r = -1 \/ exists str, r = i + blen str /\ blen str < Z.of_nat n /\ l = str ++ [0] /\ user_string um (s + i) str).
Proof.
  intros Hs. revert i r l. induction n as [|n IH]; intros i r l Hi Hb E; cbn [strncpy_loop] in E.
  { injection E as <- <-. by left. }
  assert (is_u64 (s + i)) as Hsi by (unfold is_u64 in *; lia).
  rewrite u64_small, copy_one in E by done. destruct (um (s + i)) as [c|] eqn:Ec; [|injection E as <- <-; by left].
  destruct (Z.ltb_spec (s + i) USER_ADDR_LIMIT) as [Hlt|]; [|injection E as <- <-; by left].
  destruct (Z.eqb_spec c 0) as [->|Hc].
  - injection E as <- <-. right. exists []. unfold user_string, blen. simpl. rewrite !Z.add_0_r.
    split; [lia|]. split; [lia|]. split; [done|]. split; [lia|]. split; [done|].
    split; [intros; lia|constructor].
  - destruct (strncpy_loop n um s (i + 1)) as [r' l'] eqn:E'. injection E as <- <-.
    destruct (IH (i + 1) r' l' ltac:(lia) ltac:(lia) E') as [->|(str & -> & Hl & -> & H1 & H2 & H3 & H4)]; [by left|].
    right. exists (c :: str). unfold user_string, blen in *. cbn [length app]. split; [lia|]. split; [lia|]. split; [done|].
    replace (s + i + Z.of_nat (S (length str))) with (s + (i + 1) + Z.of_nat (length str)) by lia.
    split; [done|]. split; [done|]. split; [|by constructor].
    intros j Hj. destruct (decide (j = 0)) as [->|]; [by rewrite Z.add_0_r|].
    replace (s + i + j) with (s + (i + 1) + (j - 1)) by lia. rewrite H3 by lia.
    unfold aget. by replace (Z.to_nat j) with (S (Z.to_nat (j - 1))) by lia.
Qed.

Lemma strncpy_loop_complete n um s i str :
  is_u64 s -> 0 <= i -> s + i + Z.of_nat n < 2 ^ 64 -> user_string um (s + i) str -> blen str < Z.of_nat n ->
  strncpy_loop n um s i = (i + blen str, str ++ [0]).
Proof.
  intros Hs. revert n i. induction str as [|c str IH]; intros [|n] i Hi Hb (H1 & H2 & H3 & H4) Hn;
    unfold blen in *; cbn [length] in *; try lia; cbn [strncpy_loop].
  - rewrite u64_small by (unfold is_u64 in *; lia). rewrite copy_one by (unfold is_u64 in *; lia).
    rewrite !Z.add_0_r in *. rewrite H2, (proj2 (Z.ltb_lt _ _) H1). done.
  - apply Forall_cons in H4 as [Hc H4].
    rewrite u64_small by (unfold is_u64 in *; lia). rewrite copy_one by (unfold is_u64 in *; lia).
    pose proof (H3 0 ltac:(lia)) as H0. rewrite Z.add_0_r in H0. rewrite H0.
    rewrite (proj2 (Z.ltb_lt _ _)) by lia. change (aget 0 (c :: str) 0) with c.
    rewrite (proj2 (Z.eqb_neq _ _) Hc). rewrite IH; [f_equal; unfold blen; lia|lia|lia| |unfold blen; lia].
    replace (s + i + Z.of_nat (S (length str))) with (s + (i + 1) + Z.of_nat (length str)) in * by lia.
    split; [unfold blen; lia|]. split; [done|]. split; [|done].
    intros j Hj. specialize (H3 (j + 1) ltac:(unfold blen in Hj; lia)).
    replace (s + (i + 1) + j) with (s + i + (j + 1)) by lia. rewrite H3. unfold aget.
    by replace (Z.to_nat (j + 1)) with (S (Z.to_nat j)) by lia.
Qed.

(** [strncpy_from_user] returns the length of the string at [src] and has
    stored it with its terminator exactly when user memory holds a terminated
    string of fewer than [maxlen] bytes there; otherwise it returns -1. *)
Theorem strncpy_from_user_correct um src maxlen r l :
  is_u64 src -> 0 <= maxlen -> src + maxlen < 2 ^ 64 -> strncpy_from_user um src maxlen = (r, l) ->
  (forall str, user_string um src str -> blen str < maxlen -> r = blen str /\ l = str ++ [0]) /\
  (r = -1 \/ exists str, user_string um src str /\ blen str < maxlen /\ r = blen str /\ l = str ++ [0]).
Proof.
  intros Hs Hm Hb E. unfold strncpy_from_user in E. split.
  - intros str Hstr Hl. pose proof (strncpy_loop_complete (Z.to_nat maxlen) um src 0 str) as H.
    rewrite Z.add_0_r in H. rewrite H in E by (done || lia). injection E as <- <-. split; [lia|done].
  - apply strncpy_loop_spec in E as [?|(str & -> & H1 & -> & H2)]; [by left| |done|lia|lia].
    right. exists str. rewrite Z.add_0_r in H2. split; [done|]. split; [lia|]. split; [lia|done].
Qed.

Lemma extable_lookup_spec table rip :
  extable_lookup table rip <> 0 -> exists e, e ∈ table /\ fault e = rip /\ extable_lookup table rip = fixup e.
Proof.
  induction table as [|e table IH]; simpl; [done|]. destruct (Z.eqb_spec (fault e) rip).
  - intros _. exists e. split; [by left|done].
  - intros H. destruct (IH H) as (e' & He' & H1 & H2). exists e'. split; [by right|done].
Qed.

(** ** Concrete instances *)

Definition hello_mem : umem := fun a =>
  if a =? 0x1000 then Some 104 else if a =? 0x1001 then Some 105 else if a =? 0x1002 then Some 0 else None.

Lemma copy_from_user_correct_witness :
  let '(ok, l) := copy_from_user hello_mem 0x1000 2 in
  (ok = true <-> 0x1000 + 2 <= USER_ADDR_LIMIT /\ readable hello_mem 0x1000 2) /\ (ok = true -> blen l = 2).
Proof.
  destruct (copy_from_user_correct hello_mem 0x1000 2 ltac:(int_lia) ltac:(int_lia)) as (H1 & H2 & _).
  split; [exact H1|exact H2].
Defined.

Lemma strncpy_from_user_correct_witness :
  (2 = -1 \/ exists str, user_string hello_mem 0x1000 str /\ blen str < 16 /\ 2 = blen str /\ [104; 105; 0] = str ++ [0]).
Proof.
  apply (strncpy_from_user_correct hello_mem 0x1000 16 2 [104; 105; 0]);
    [int_lia|int_lia|int_lia|reflexivity].
Defined.
End Uaccess.
