(* ===== verification/Cred.v ===== *)
(** * Credentials and permission checks

    Models [kernel/security/cred.c]: the POSIX-style transitions of user and
    group ids and the rwx check. A call returns whether it was permitted and
    the credentials after it. *)

From S2P Require Import Prelude.

Module Cred.

Record cred_t := mk_cred {
  uid : Z;
  gid : Z;
  euid : Z;
  egid : Z;
  suid : Z;
  sgid : Z;
}.

Definition cred_init (uid gid : Z) : cred_t := mk_cred uid gid uid gid uid gid.

Definition cred_setuid (c : cred_t) (new_uid : Z) : bool * cred_t :=
  if euid c =? 0 then (true, mk_cred new_uid (gid c) new_uid (egid c) new_uid (sgid c))
  else if (new_uid =? uid c) || (new_uid =? suid c)
  then (true, mk_cred (uid c) (gid c) new_uid (egid c) (suid c) (sgid c))
  else (false, c).

Definition cred_seteuid (c : cred_t) (new_uid : Z) : bool * cred_t :=
  if (euid c =? 0) || (new_uid =? uid c) || (new_uid =? euid c) || (new_uid =? suid c)
  then (true, mk_cred (uid c) (gid c) new_uid (egid c) (suid c) (sgid c))
  else (false, c).

Definition cred_setgid (c : cred_t) (new_gid : Z) : bool * cred_t :=
  if euid c =? 0 then (true, mk_cred (uid c) new_gid (euid c) new_gid (suid c) new_gid)
  else if (new_gid =? gid c) || (new_gid =? sgid c)
  then (true, mk_cred (uid c) (gid c) (euid c) new_gid (suid c) (sgid c))
  else (false, c).

Definition cred_setegid (c : cred_t) (new_gid : Z) : bool * cred_t :=
  if (euid c =? 0) || (new_gid =? gid c) || (new_gid =? egid c) || (new_gid =? sgid c)
  then (true, mk_cred (uid c) (gid c) (euid c) new_gid (suid c) (sgid c))
  else (false, c).

Definition cred_check (c : cred_t) (fuid fgid mode access : Z) : bool :=
  if euid c =? 0 then true
  else
    let bits :=
      if euid c =? fuid then u8 (Z.land (Z.shiftr mode 6) 7)
      else if egid c =? fgid then u8 (Z.land (Z.shiftr mode 3) 7)
      else u8 (Z.land mode 7) in
    Z.land bits access =? access.

(** ** Sequences of calls *)

(** A process changes its credentials by these calls only. *)
Inductive call :=
| Setuid (id : Z)
| Seteuid (id : Z)
| Setgid (id : Z)
| Setegid (id : Z).

Definition run_call (k : call) (c : cred_t) : cred_t :=
  snd (match k with
       | Setuid id => cred_setuid c id
       | Seteuid id => cred_seteuid c id
       | Setgid id => cred_setgid c id
       | Setegid id => cred_setegid c id
       end).

Inductive reaches : cred_t -> cred_t -> Prop :=
| reaches_refl c : reaches c c
| reaches_call c k c' : reaches (run_call k c) c' -> reaches c c'.

(** An unprivileged process: none of its user ids is root. *)
Definition unprivileged (c : cred_t) : Prop := uid c <> 0 /\ euid c <> 0 /\ suid c <> 0.

Ltac cred_cases :=
  unfold run_call, cred_setuid, cred_seteuid, cred_setgid, cred_setegid;
  repeat match goal with
         | |- context [if ?b then _ else _] => destruct b eqn:?
         end;
  rewrite ?orb_true_iff, ?orb_false_iff, ?Z.eqb_eq, ?Z.eqb_neq in *; simpl.

(** What an unprivileged process can make of its user ids: the real and saved
    ones are fixed, the effective one is chosen among those it has. *)
Definition ids_from (c c' : cred_t) : Prop :=
  uid c' = uid c /\ suid c' = suid c /\ (euid c' = uid c \/ euid c' = euid c \/ euid c' = suid c).

Lemma run_call_unprivileged k c : unprivileged c -> unprivileged (run_call k c) /\ ids_from c (run_call k c).
Proof. intros (H1 & H2 & H3). unfold unprivileged, ids_from. destruct k; cred_cases; intuition congruence. Qed.

Lemma reaches_ids c c' : unprivileged c -> reaches c c' -> unprivileged c' /\ ids_from c c'.
Proof.
  intros Hu Hr. induction Hr as [c|c k c' _ IH]; [by split; [|unfold ids_from; auto]|].
  destruct (run_call_unprivileged k c Hu) as [Hu1 (E1 & E2 & E3)].
  destruct (IH Hu1) as [Hu2 (F1 & F2 & F3)]. split; [done|]. unfold ids_from. rewrite F1, F2, E1, E2. intuition congruence.
Qed.

(** C39: no sequence of set*id calls lets a process without a root user id gain
    one: its real and saved user ids never change and its effective user id
    stays among the three it started with. *)
Theorem cred_no_escalation c c' :
  unprivileged c -> reaches c c' -> unprivileged c' /\ ids_from c c'.
Proof. apply reaches_ids. Qed.

Lemma cred_no_escalation_witness :
  let c' := run_call (Setuid 0) (run_call (Seteuid 1000) (cred_init 1000 1000)) in
  unprivileged c' /\ ids_from (cred_init 1000 1000) c'.
Proof.
  apply (cred_no_escalation (cred_init 1000 1000)); [by vm_compute|].
  apply (reaches_call _ (Seteuid 1000)), (reaches_call _ (Setuid 0)), reaches_refl.
Defined.

(** Dropping and restoring privilege: a set-uid-root program of user [u]. *)
Lemma cred_drop_restore c u :
  uid c = u -> euid c = 0 -> suid c = 0 ->
  exists c1, cred_seteuid c u = (true, c1) /\ euid c1 = u /\ cred_seteuid c1 0 = (true, c).
Proof.
  intros Hu He Hs. destruct c as [cu cg ce ceg cs csg]. simpl in *. subst. unfold cred_seteuid. simpl.
  eexists. split; [done|]. split; [done|]. simpl. destruct (u =? 0), (match u with 0 => true | _ => false end); done.
Qed.

(** Root dropping all three ids with [cred_setuid] cannot come back. *)
Lemma cred_setuid_permanent c u c' :
  euid c = 0 -> u <> 0 -> reaches (snd (cred_setuid c u)) c' -> euid c' = u.
Proof.
  intros He Hu Hr.
  assert (snd (cred_setuid c u) = mk_cred u (gid c) u (egid c) u (sgid c)) as E.
  { unfold cred_setuid. by rewrite He. }
  rewrite E in Hr. set (d := mk_cred u (gid c) u (egid c) u (sgid c)) in *.
  assert (unprivileged d) as Hd by done.
  destruct (reaches_ids d c' Hd Hr) as [_ (_ & _ & H)].
  simpl in H. intuition congruence.
Qed.

(** ** The access check *)

Lemma land_eq_bits bits access :
  is_u8 access -> Z.land bits access = access <->
  (forall i, 0 <= i < 8 -> Z.testbit access i = true -> Z.testbit bits i = true).
Proof.
  intros Ha. split.
  - intros E i Hi Hb. rewrite <- E, Z.land_spec in Hb. by apply andb_true_iff in Hb as [? _].
  - intros H. apply Z.bits_inj'. intros i Hi. rewrite Z.land_spec.
    destruct (Z.testbit access i) eqn:E; [|apply andb_false_r].
    rewrite andb_true_r. apply H; [|done]. destruct (Z.lt_ge_cases i 8); [done|].
    rewrite (testbit_high 8) in E by (unfold is_u8 in Ha; lia). done.
Qed.

(** The permission class of a process for a file: the shift of its mode bits. *)
Definition class_shift (c : cred_t) (fuid fgid : Z) : Z :=
  if euid c =? fuid then 6 else if egid c =? fgid then 3 else 0.

Lemma class_bit mode k i : 0 <= k -> 0 <= i < 8 ->
  Z.testbit (u8 (Z.land (Z.shiftr mode k) 7)) i = (i <? 3) && Z.testbit mode (k + i).
Proof.
  intros Hk Hi. unfold u8. rewrite Z.mod_pow2_bits_low by lia. rewrite Z.land_spec, Z.shiftr_spec by lia.
  change 7 with (Z.ones 3). destruct (Z.ltb_spec i 3).
  - rewrite Z.ones_spec_low by lia. rewrite andb_true_r. by rewrite (Z.add_comm k).
  - rewrite Z.ones_spec_high by lia. apply andb_false_r.
Qed.

(** [cred_check] grants root everything; any other process gets exactly the
    requested bits its one class (owner before group before others) has in the
    mode, and bits beyond rwx are never granted. *)
Theorem cred_check_correct c fuid fgid mode access :
  is_u8 access ->
  cred_check c fuid fgid mode access = true <->
  euid c = 0 \/
  forall i, 0 <= i < 8 -> Z.testbit access i = true ->
    i < 3 /\ Z.testbit mode (class_shift c fuid fgid + i) = true.
Proof.
  intros Ha. unfold cred_check, class_shift.
  destruct (Z.eqb_spec (euid c) 0) as [He|He]; [split; [by left|done]|].
  set (k := if euid c =? fuid then 6 else if egid c =? fgid then 3 else 0).
  assert (0 <= k) as Hk by (subst k; repeat case_match; lia).
  match goal with |- context [Z.land ?b access =? access] => replace b with (u8 (Z.land (Z.shiftr mode k) 7)) end.
  2:{ subst k. destruct (euid c =? fuid); [done|]. destruct (egid c =? fgid); [done|]. by rewrite Z.shiftr_0_r. }
  rewrite Z.eqb_eq, land_eq_bits by done. split.
  - intros H. right. intros i Hi Hb. specialize (H i Hi Hb). rewrite class_bit in H by done.
    apply andb_true_iff in H as [H1 H2]. apply Z.ltb_lt in H1. done.
  - intros [?|H] i Hi Hb; [done|]. rewrite class_bit by done. destruct (H i Hi Hb) as [H1 ->].
    rewrite andb_true_r. by apply Z.ltb_lt.
Qed.

Lemma cred_check_correct_witness :
  cred_check (cred_init 1000 1000) 1000 0 0x1a0 4 = true <->
  euid (cred_init 1000 1000) = 0 \/
  forall i, 0 <= i < 8 -> Z.testbit 4 i = true ->
    i < 3 /\ Z.testbit 0x1a0 (class_shift (cred_init 1000 1000) 1000 0 + i) = true.
Proof. apply (cred_check_correct (cred_init 1000 1000) 1000 0 0x1a0 4). unfold is_u8. lia. Defined.
End Cred.
