(* ===== verification/Fd.v ===== *)
(** * File descriptor tables

    Models [kernel/proc/fd.c]: the per-process table of [MAX_FDS] entries. Each
    operation returns the C result and the table after it. *)

From S2P Require Import Prelude.

Module Fd.

Definition MAX_FDS : Z := 32.

Inductive fd_type_t := FD_NONE | FD_FILE | FD_SOCKET | FD_PIPE_READ | FD_PIPE_WRITE.

#[export] Instance fd_type_eq_dec : EqDecision fd_type_t.
Proof. solve_decision. Defined.

Record fd_entry_t := mk_entry { open : bool; type : fd_type_t; id : Z }.

Definition fd_table_t : Type := list fd_entry_t.
Definition fd_zero : fd_entry_t := mk_entry false FD_NONE 0.

(** [t->fds[i]] *)
Definition entry (t : fd_table_t) (i : Z) : fd_entry_t := aget fd_zero t i.

Definition fd_table_init : fd_table_t := replicate (Z.to_nat MAX_FDS) fd_zero.

(** [for (int i = lo; i < MAX_FDS; ++i) if (!t->fds[i].open) { ...; return i; }] *)
Definition alloc_from (lo : Z) (t : fd_table_t) (ty : fd_type_t) (x : Z) : Z * fd_table_t :=
  match find_slot (fun e => negb (open e)) (drop (Z.to_nat lo) t) lo with
  | Some i => (i, aset t i (mk_entry true ty x))
  | None => (-1, t)
  end.

Definition fd_alloc (t : fd_table_t) (vfs_fd : Z) : Z * fd_table_t := alloc_from 3 t FD_FILE vfs_fd.
Definition fd_alloc_socket (t : fd_table_t) (sock_idx : Z) : Z * fd_table_t :=
  alloc_from 0 t FD_SOCKET sock_idx.
Definition fd_alloc_pipe (t : fd_table_t) (pipe_idx : Z) (ty : fd_type_t) : Z * fd_table_t :=
  alloc_from 3 t ty pipe_idx.

Definition fd_bad (t : fd_table_t) (fd : Z) : bool :=
  (fd <? 0) || (MAX_FDS <=? fd) || negb (open (entry t fd)).

Definition fd_to_vfs (t : fd_table_t) (fd : Z) : Z :=
  if fd_bad t fd then -1
  else if negb (bool_decide (type (entry t fd) = FD_FILE)) then -1
  else id (entry t fd).

Definition fd_type (t : fd_table_t) (fd : Z) : fd_type_t :=
  if fd_bad t fd then FD_NONE else type (entry t fd).

Definition fd_id (t : fd_table_t) (fd : Z) : Z := if fd_bad t fd then -1 else id (entry t fd).

Definition fd_set (t : fd_table_t) (slot : Z) (ty : fd_type_t) (x : Z) : Z * fd_table_t :=
  if (slot <? 0) || (MAX_FDS <=? slot) then (-1, t)
  else (slot, aset t slot (mk_entry true ty x)).

Definition fd_free (t : fd_table_t) (fd : Z) : fd_table_t :=
  if (fd <? 0) || (MAX_FDS <=? fd) then t else aset t fd (mk_entry false FD_NONE 0).

(** ** Properties *)

Definition table_wf (t : fd_table_t) : Prop := Z.of_nat (length t) = MAX_FDS.
Definition slot_ok (i : Z) : Prop := 0 <= i < MAX_FDS.

Lemma entry_aset t i j e :
  table_wf t -> slot_ok i -> slot_ok j -> entry (aset t i e) j = if bool_decide (i = j) then e else entry t j.
Proof. intros Hw Hi Hj. unfold entry, slot_ok, table_wf in *. apply aget_aset; lia. Qed.

Lemma fd_bad_iff t i : fd_bad t i = false <-> slot_ok i /\ open (entry t i) = true.
Proof.
  unfold fd_bad, slot_ok. rewrite !orb_false_iff, Z.ltb_ge, Z.leb_gt, negb_false_iff. intuition lia.
Qed.

Lemma entry_drop t lo j : table_wf t -> 0 <= lo -> 0 <= j -> aget fd_zero (drop (Z.to_nat lo) t) j = entry t (lo + j).
Proof.
  intros Hw Hl Hj. unfold entry. rewrite !aget_lookup, lookup_drop. do 2 f_equal. lia.
Qed.

Lemma alloc_from_spec lo t ty x :
  table_wf t -> slot_ok lo ->
  let '(r, t') := alloc_from lo t ty x in
  table_wf t' /\
  ((r = -1 /\ t' = t /\ forall j, lo <= j < MAX_FDS -> open (entry t j) = true) \/
   (lo <= r < MAX_FDS /\ open (entry t r) = false /\
    (forall j, lo <= j < r -> open (entry t j) = true) /\
    forall j, slot_ok j -> entry t' j = if bool_decide (r = j) then mk_entry true ty x else entry t j)).
Proof.
  intros Hw Hlo. unfold alloc_from. unfold slot_ok in Hlo. unfold table_wf in *.
  destruct (find_slot _ _ _) as [i|] eqn:E.
  - apply (find_slot_Some_shift _ fd_zero) in E as (Hi & Hf & Hlt). rewrite length_drop in Hi.
    rewrite entry_drop in Hf by (done || lia). replace (lo + (i - lo)) with i in Hf by lia.
    apply negb_true_iff in Hf. split; [by rewrite aset_length|]. right. split; [lia|]. split; [done|]. split.
    + intros j Hj. specialize (Hlt (j - lo) ltac:(lia)). rewrite entry_drop in Hlt by (done || lia).
      replace (lo + (j - lo)) with j in Hlt by lia. by apply negb_false_iff in Hlt.
    + intros j Hj. apply entry_aset; [done|unfold slot_ok; lia|done].
  - apply find_slot_None_iff in E. split; [done|]. left. split; [done|]. split; [done|].
    intros j Hj. apply (Forall_aget _ fd_zero _ (j - lo)) in E; [|rewrite length_drop; lia].
    rewrite entry_drop in E by (done || lia). replace (lo + (j - lo)) with j in E by lia.
    by apply negb_false_iff in E.
Qed.

(** [fd_alloc] hands out the lowest closed descriptor from 3 on, so never
    stdin, stdout or stderr; the entry reads back as a file with its index,
    every other descriptor is untouched, and -1 is returned only when all of 3
    to 31 are open, with the table unchanged. *)
Theorem fd_alloc_correct t vfs_fd :
  table_wf t ->
  let '(r, t') := fd_alloc t vfs_fd in
  table_wf t' /\
  ((r = -1 /\ t' = t /\ forall j, 3 <= j < MAX_FDS -> open (entry t j) = true) \/
   (3 <= r < MAX_FDS /\ open (entry t r) = false /\
    (forall j, 3 <= j < r -> open (entry t j) = true) /\
    fd_type t' r = FD_FILE /\ fd_to_vfs t' r = vfs_fd /\
    forall j, slot_ok j -> j <> r -> entry t' j = entry t j)).
Proof.
  intros Hw. unfold fd_alloc.
  pose proof (alloc_from_spec 3 t FD_FILE vfs_fd Hw ltac:(unfold slot_ok, MAX_FDS; lia)) as H.
  destruct (alloc_from _ _ _ _) as [r t']. destruct H as [Hw' [H|(Hr & Hf & Hlow & He)]]; (split; [done|]); [by left|].
  right. assert (slot_ok r) as Hs by (unfold slot_ok; lia).
  assert (entry t' r = mk_entry true FD_FILE vfs_fd) as E by (rewrite He, bool_decide_true; done).
  assert (fd_bad t' r = false) as Hb by (apply fd_bad_iff; by rewrite E).
  split; [done|]. split; [done|]. split; [done|].
  unfold fd_type, fd_to_vfs. rewrite Hb, E. split; [done|]. split; [done|].
  intros j Hj Hne. by rewrite He, bool_decide_false.
Qed.

Lemma fd_table_init_wf : table_wf fd_table_init.
Proof. reflexivity. Qed.

Lemma fd_alloc_correct_witness :
  let '(r, t') := fd_alloc fd_table_init 7 in r = 3 /\ fd_to_vfs t' 3 = 7.
Proof.
  pose proof (fd_alloc_correct fd_table_init 7 fd_table_init_wf) as H. revert H.
  destruct (fd_alloc fd_table_init 7) as [r t'] eqn:E. intros (_ & [(-> & _)|(_ & _ & _ & _ & H & _)]).
  - discriminate E.
  - assert (r = 3) as -> by (injection E as <- _; reflexivity). split; [reflexivity|exact H].
Defined.

(** Freeing a descriptor closes it and nothing else, and makes it available. *)
Lemma fd_free_correct t fd :
  table_wf t ->
  table_wf (fd_free t fd) /\
  (slot_ok fd -> fd_type (fd_free t fd) fd = FD_NONE /\ fd_id (fd_free t fd) fd = -1) /\
  forall j, slot_ok j -> j <> fd -> entry (fd_free t fd) j = entry t j.
Proof.
  intros Hw. unfold fd_free. destruct ((fd <? 0) || (MAX_FDS <=? fd)) eqn:Eb.
  - apply orb_true_iff in Eb. rewrite Z.ltb_lt, Z.leb_le in Eb. split; [done|]. split; [unfold slot_ok; lia|done].
  - apply orb_false_iff in Eb. rewrite Z.ltb_ge, Z.leb_gt in Eb.
    assert (slot_ok fd) as Hs by (unfold slot_ok; lia).
    split; [unfold table_wf; by rewrite aset_length|]. split.
    + intros _. assert (fd_bad (aset t fd (mk_entry false FD_NONE 0)) fd = true) as Hb.
      { unfold fd_bad. rewrite entry_aset, bool_decide_true by done. apply orb_true_r. }
      unfold fd_type, fd_id. by rewrite Hb.
    + intros j Hj Hne. by rewrite entry_aset, bool_decide_false.
Qed.

(** Sockets, unlike files and pipes, may be given descriptor 0. *)
Example fd_alloc_socket_zero : fst (fd_alloc_socket fd_table_init 5) = 0.
Proof. reflexivity. Qed.
End Fd.
