(* ===== verification/Pipe.v ===== *)
(** * Pipes

    Models [kernel/proc/pipe.c]: [MAX_PIPES] ring buffers of [PIPE_BUF] bytes.
    The contents of a pipe are the bytes from [head] on, modulo the buffer; the
    operations refine a bounded FIFO queue on them. Spin locks make every call
    one critical section, so a call is one step on the table. *)

From S2P Require Import Prelude Bytes.

Module Pipe.

Definition PIPE_BUF : Z := 4096.
Definition MAX_PIPES : Z := 8.

Record pipe_t := mk_pipe {
  in_use : bool;
  buf : list Z;
  head : Z;
  count : Z;
  write_closed : bool;
  read_closed : bool;
}.

Definition s_pipes : Type := list pipe_t.
Definition pipe_zero : pipe_t := mk_pipe false (zeros PIPE_BUF) 0 0 false false.
Definition get (t : s_pipes) (i : Z) : pipe_t := aget pipe_zero t i.

Definition pipe_alloc (t : s_pipes) : Z * s_pipes :=
  match find_slot (fun p => negb (in_use p)) t 0 with
  | Some i => (i, aset t i (mk_pipe true (zeros PIPE_BUF) 0 0 false false))
  | None => (-1, t)
  end.

Definition bad_index (idx : Z) : bool := (idx <? 0) || (MAX_PIPES <=? idx).

Definition set_in_use (b : bool) (p : pipe_t) : pipe_t :=
  mk_pipe b (buf p) (head p) (count p) (write_closed p) (read_closed p).

Definition pipe_free (idx : Z) (t : s_pipes) : s_pipes :=
  if bad_index idx then t else aset t idx (set_in_use false (get t idx)).

(** [while (written < len && p->count < PIPE_BUF) ...]; the bytes still to be
    written are [src]. *)
Fixpoint write_loop (src : list Z) (written : Z) (p : pipe_t) : Z * pipe_t :=
  match src with
  | [] => (written, p)
  | b :: src' =>
      if count p <? PIPE_BUF then
        let wp := u32 (head p + count p) mod PIPE_BUF in
        write_loop src' (written + 1)
          (mk_pipe (in_use p) (aset (buf p) wp b) (head p) (u32 (count p + 1)) (write_closed p) (read_closed p))
      else (written, p)
  end.

Definition pipe_write (idx : Z) (data : list Z) (t : s_pipes) : Z * s_pipes :=
  if bad_index idx then (-1, t)
  else
    let p := get t idx in
    if negb (in_use p) || read_closed p then (-1, t)
    else let '(written, p') := write_loop data 0 p in (written, aset t idx p').

(** [for (i = 0; i < n; i++) { dst[i] = buf[head]; head = (head + 1) % PIPE_BUF; }] *)
Fixpoint read_loop (n : nat) (buf : list Z) (head : Z) : list Z * Z :=
  match n with
  | O => ([], head)
  | S n' =>
      let '(l, h) := read_loop n' buf (u32 (head + 1) mod PIPE_BUF) in
      (aget 0 buf head :: l, h)
  end.

(** The return value and the bytes stored at the caller's buffer. *)
Definition pipe_read (idx len : Z) (t : s_pipes) : Z * list Z * s_pipes :=
  if bad_index idx then (-1, [], t)
  else
    let p := get t idx in
    if negb (in_use p) then (-1, [], t)
    else if count p =? 0 then (if write_closed p then 0 else -2, [], t)
    else
      let n := if len <? count p then len else count p in
      let '(out, h) := read_loop (Z.to_nat n) (buf p) (head p) in
      (n, out, aset t idx (mk_pipe (in_use p) (buf p) h (u32 (count p - n)) (write_closed p) (read_closed p))).

Definition pipe_close_write (idx : Z) (t : s_pipes) : s_pipes :=
  if bad_index idx then t
  else
    let p := get t idx in
    if in_use p then
      aset t idx (mk_pipe (negb (read_closed p)) (buf p) (head p) (count p) true (read_closed p))
    else t.

Definition pipe_close_read (idx : Z) (t : s_pipes) : s_pipes :=
  if bad_index idx then t
  else
    let p := get t idx in
    if in_use p then
      aset t idx (mk_pipe (negb (write_closed p)) (buf p) (head p) (count p) (write_closed p) true)
    else t.

(** ** The queue a pipe stands for *)

Record pipe_wf (p : pipe_t) : Prop := {
  wf_buf : blen (buf p) = PIPE_BUF;
  wf_head : 0 <= head p < PIPE_BUF;
  wf_count : 0 <= count p <= PIPE_BUF;
}.

Abbreviation ring := (ring PIPE_BUF).

Definition contents (p : pipe_t) : list Z := ring (buf p) (head p) (Z.to_nat (count p)).

Definition table_wf (t : s_pipes) : Prop :=
  Z.of_nat (length t) = MAX_PIPES /\ Forall pipe_wf t.

Lemma read_loop_ring n b h :
  0 <= h < PIPE_BUF -> read_loop n b h = (ring b h n, (h + Z.of_nat n) mod PIPE_BUF).
Proof.
  revert h. induction n as [|n IH]; intros h Hh; cbn [read_loop Bytes.ring].
  - by rewrite Z.add_0_r, Z.mod_small.
  - rewrite u32_small by (unfold is_u32, PIPE_BUF in *; lia).
    rewrite IH by (unfold PIPE_BUF in *; lia). f_equal. unfold PIPE_BUF. lia.
Qed.

(** Writing one byte appends it to the queue. *)
Lemma write_byte p b :
  pipe_wf p -> count p < PIPE_BUF ->
  let p' := mk_pipe (in_use p) (aset (buf p) (u32 (head p + count p) mod PIPE_BUF) b) (head p)
              (u32 (count p + 1)) (write_closed p) (read_closed p) in
  pipe_wf p' /\ contents p' = contents p ++ [b] /\ count p' = count p + 1.
Proof.
  intros [Hb Hh Hc] Hlt p'.
  assert (u32 (head p + count p) = head p + count p) as E1 by (apply u32_small; unfold is_u32, PIPE_BUF in *; lia).
  assert (u32 (count p + 1) = count p + 1) as E2 by (apply u32_small; unfold is_u32, PIPE_BUF in *; lia).
  split; [|split; [|exact E2]].
  - split; simpl; [|done|rewrite E2; lia]. unfold blen in *. by rewrite aset_length.
  - unfold contents, p'. cbn [buf head count]. rewrite E1, E2.
    replace (Z.to_nat (count p + 1)) with (Z.to_nat (count p) + 1)%nat by lia.
    rewrite <- (Z2Nat.id (count p)) at 1 by lia. apply ring_snoc; (done || lia).
Qed.

Lemma write_loop_spec src w p :
  pipe_wf p -> count p <= PIPE_BUF ->
  let n := Z.min (blen src) (PIPE_BUF - count p) in
  exists p', write_loop src w p = (w + n, p') /\ pipe_wf p' /\
    contents p' = contents p ++ take (Z.to_nat n) src /\
    in_use p' = in_use p /\ write_closed p' = write_closed p /\ read_closed p' = read_closed p.
Proof.
  revert w p. induction src as [|b src IH]; intros w p Hp Hc n; cbn [write_loop].
  - exists p. assert (n = 0) as -> by (subst n; unfold blen; simpl; lia).
    split; [f_equal; lia|]. split; [done|]. by rewrite app_nil_r.
  - destruct (Z.ltb_spec (count p) PIPE_BUF) as [Hlt|Hge].
    + destruct (write_byte p b Hp Hlt) as (Hp1 & C1 & N1). cbn zeta in Hp1, C1, N1.
      set (p1 := mk_pipe _ _ _ _ _ _) in *.
      destruct (IH (w + 1) p1 Hp1 ltac:(lia)) as (p' & E & Hp' & C & F1 & F2 & F3).
      exists p'. assert (n = 1 + Z.min (blen src) (PIPE_BUF - count p1)) as En.
      { subst n. unfold blen. cbn [length]. lia. }
      split; [rewrite E; f_equal; lia|]. split; [done|]. split; [|done].
      rewrite C, C1, <- app_assoc. f_equal. pose proof (wf_count _ Hp1).
      replace (Z.to_nat n) with (S (Z.to_nat (Z.min (blen src) (PIPE_BUF - count p1)))) by (unfold blen in *; lia).
      done.
    + exists p. assert (n = 0) as -> by (subst n; unfold blen; lia).
      split; [f_equal; lia|]. split; [done|]. by rewrite app_nil_r.
Qed.

(** ** Operations on the table *)

Definition idx_ok (i : Z) : Prop := 0 <= i < MAX_PIPES.

Lemma bad_index_ok i : idx_ok i -> bad_index i = false.
Proof. unfold idx_ok, bad_index. intros. rewrite orb_false_iff, Z.ltb_ge, Z.leb_gt. lia. Qed.

Lemma get_wf t i : table_wf t -> idx_ok i -> pipe_wf (get t i).
Proof. intros [Hl HF] Hi. apply (Forall_aget pipe_wf); [done|]. unfold idx_ok in Hi. lia. Qed.

Lemma get_aset t i j p :
  table_wf t -> idx_ok i -> idx_ok j -> get (aset t i p) j = if bool_decide (i = j) then p else get t j.
Proof. intros [Hl _] Hi Hj. unfold get, idx_ok in *. apply aget_aset; lia. Qed.

Lemma table_wf_aset t i p : table_wf t -> pipe_wf p -> table_wf (aset t i p).
Proof. intros [Hl HF] Hp. split; [by rewrite aset_length|by apply Forall_aset]. Qed.

(** Both ends are open. *)
Definition connected (t : s_pipes) (i : Z) : Prop :=
  in_use (get t i) = true /\ read_closed (get t i) = false.

(** [t'] differs from [t] at pipe [i] only. *)
Definition only (i : Z) (t t' : s_pipes) : Prop := forall j, idx_ok j -> j <> i -> get t' j = get t j.

Lemma pipe_write_spec idx data t :
  table_wf t -> idx_ok idx -> connected t idx ->
  let n := Z.min (blen data) (PIPE_BUF - count (get t idx)) in
  exists t', pipe_write idx data t = (n, t') /\ table_wf t' /\ connected t' idx /\ only idx t t' /\
    write_closed (get t' idx) = write_closed (get t idx) /\
    contents (get t' idx) = contents (get t idx) ++ take (Z.to_nat n) data.
Proof.
  intros Hw Hi [Hu Hr] n. unfold pipe_write. rewrite bad_index_ok, Hu, Hr by done. simpl.
  pose proof (get_wf t idx Hw Hi) as Hp.
  destruct (write_loop_spec data 0 (get t idx) Hp) as (p' & -> & Hp' & C & F1 & F2 & F3); [apply Hp|].
  exists (aset t idx p'). split; [done|]. split; [by apply table_wf_aset|].
  assert (get (aset t idx p') idx = p') as E by (rewrite get_aset, bool_decide_true by done; done).
  unfold connected. rewrite E, F1, F2, F3. split; [done|]. split; [|done].
  intros j Hj Hne. by rewrite get_aset, bool_decide_false by done.
Qed.

Lemma pipe_read_spec idx len t :
  table_wf t -> idx_ok idx -> in_use (get t idx) = true -> 0 <= len ->
  let p := get t idx in
  let n := Z.min len (count p) in
  exists r out t', pipe_read idx len t = (r, out, t') /\ table_wf t' /\ only idx t t' /\
    in_use (get t' idx) = true /\ read_closed (get t' idx) = read_closed p /\
    write_closed (get t' idx) = write_closed p /\
    r = (if count p =? 0 then if write_closed p then 0 else -2 else n) /\
    contents p = out ++ contents (get t' idx) /\ blen out = n.
Proof.
  intros Hw Hi Hu Hlen p n. unfold pipe_read. fold p. rewrite bad_index_ok by done. subst p.
  rewrite Hu. cbn [negb]. pose proof (get_wf t idx Hw Hi) as [Hb Hh Hc].
  set (p := get t idx) in *. destruct (Z.eqb_spec (count p) 0) as [E0|E0].
  - exists (if write_closed p then 0 else -2), [], t. fold p. split; [done|]. split; [done|]. split; [done|].
    split; [done|]. split; [done|]. split; [done|]. split; [done|]. split; [done|]. subst n. unfold blen. simpl. lia.
  - replace (if len <? count p then len else count p) with n by (subst n; destruct (Z.ltb_spec len (count p)); lia).
    rewrite read_loop_ring by done. do 3 eexists. split; [done|].
    assert (u32 (count p - n) = count p - n) as Eu by (apply u32_small; unfold is_u32, PIPE_BUF in *; lia).
    rewrite Eu. set (p' := mk_pipe _ _ _ _ _ _).
    assert (get (aset t idx p') idx = p') as E by (rewrite get_aset, bool_decide_true by done; done).
    split; [apply table_wf_aset; [done|split; simpl; [done|unfold PIPE_BUF; lia|lia]]|].
    split; [intros j Hj Hne; by rewrite get_aset, bool_decide_false by done|].
    rewrite E. simpl. split; [done|]. split; [done|]. split; [done|]. split; [done|]. split.
    + unfold contents. cbn [buf head count p'].
      replace (Z.to_nat (count p)) with (Z.to_nat n + Z.to_nat (count p - n))%nat by lia.
      by rewrite ring_app.
    + unfold blen. rewrite ring_length. lia.
Qed.

(** ** Traces *)

Inductive op := Write (data : list Z) | Read (len : Z).

(** Run calls on pipe [idx]: the bytes accepted by writes, the bytes delivered
    by reads, and the table after them. *)
Fixpoint run (idx : Z) (ops : list op) (t : s_pipes) : list Z * list Z * s_pipes :=
  match ops with
  | [] => ([], [], t)
  | Write data :: ops' =>
      let '(n, t1) := pipe_write idx data t in
      let '(acc, out, t2) := run idx ops' t1 in
      (take (Z.to_nat n) data ++ acc, out, t2)
  | Read len :: ops' =>
      let '(_, l, t1) := pipe_read idx len t in
      let '(acc, out, t2) := run idx ops' t1 in
      (acc, l ++ out, t2)
  end.

Definition op_ok (o : op) : Prop := match o with Write _ => True | Read len => 0 <= len end.

(** C40: a pipe is a FIFO queue: for any sequence of writes and reads on an open
    pipe, the bytes it held before followed by the bytes the writes accepted are
    exactly the bytes the reads delivered followed by the bytes it holds after;
    nothing is lost, duplicated or reordered, the buffer never exceeds its
    capacity, and all other pipes are untouched. *)
Theorem pipe_fifo idx ops t :
  table_wf t -> idx_ok idx -> connected t idx -> Forall op_ok ops ->
  let '(acc, out, t') := run idx ops t in
  contents (get t idx) ++ acc = out ++ contents (get t' idx) /\
  table_wf t' /\ connected t' idx /\ only idx t t'.
Proof.
  intros Hw Hi. revert t Hw. induction ops as [|o ops IH]; intros t Hw Hc Hok; cbn [run].
  - rewrite app_nil_r. done.
  - apply Forall_cons in Hok as [Ho Hok]. destruct o as [data|len].
    + destruct (pipe_write_spec idx data t Hw Hi Hc) as (t1 & -> & Hw1 & Hc1 & Ho1 & _ & C1).
      specialize (IH t1 Hw1 Hc1 Hok). destruct (run idx ops t1) as [[acc out] t2].
      destruct IH as (E & Hw2 & Hc2 & Ho2). split; [|split; [done|split; [done|]]].
      * rewrite app_assoc, <- C1. done.
      * intros j Hj Hne. by rewrite Ho2, Ho1.
    + destruct Hc as [Hu Hr].
      destruct (pipe_read_spec idx len t Hw Hi Hu Ho) as (r & l & t1 & -> & Hw1 & Ho1 & Hu1 & Hr1 & _ & _ & C1 & _).
      specialize (IH t1 Hw1 (conj Hu1 (eq_trans Hr1 Hr)) Hok). destruct (run idx ops t1) as [[acc out] t2].
      destruct IH as (E & Hw2 & Hc2 & Ho2). split; [|split; [done|split; [done|]]].
      * rewrite C1, <- !app_assoc, E. done.
      * intros j Hj Hne. by rewrite Ho2, Ho1.
Qed.

(** A reader of an empty pipe is told to retry while the write end is open and
    sees the end of file afterwards. *)
Lemma pipe_read_empty idx len t :
  table_wf t -> idx_ok idx -> in_use (get t idx) = true -> count (get t idx) = 0 ->
  pipe_read idx len t = (if write_closed (get t idx) then 0 else -2, [], t).
Proof. intros Hw Hi Hu Hc. unfold pipe_read. by rewrite bad_index_ok, Hu, Hc. Qed.

Lemma pipe_zero_wf : pipe_wf pipe_zero.
Proof. by split. Qed.

(** [pipe_alloc] gives an unused slot as an empty, open pipe. *)
Lemma pipe_alloc_spec t :
  table_wf t ->
  let '(i, t') := pipe_alloc t in
  table_wf t' /\
  ((i = -1 /\ t' = t /\ forall j, idx_ok j -> in_use (get t j) = true) \/
   (idx_ok i /\ in_use (get t i) = false /\ connected t' i /\ contents (get t' i) = [] /\ only i t t')).
Proof.
  intros Hw. pose proof Hw as [Hl HF]. unfold pipe_alloc. destruct (find_slot _ t 0) as [i|] eqn:E.
  - apply (find_slot_Some _ pipe_zero) in E as (Hi & Hf & _). apply negb_true_iff in Hf.
    assert (idx_ok i) as Hio by (unfold idx_ok; lia).
    split; [by apply table_wf_aset|]. right. split; [done|]. split; [done|].
    unfold connected. rewrite get_aset, bool_decide_true by done. split; [done|]. split; [done|].
    intros j Hj Hne. by rewrite get_aset, bool_decide_false by done.
  - apply find_slot_None_iff in E. split; [done|]. left. split; [done|]. split; [done|]. intros j Hj.
    apply (Forall_aget _ pipe_zero _ j) in E; [by apply negb_false_iff in E|unfold idx_ok in Hj; lia].
Qed.

(** ** Concrete instances *)

Definition fresh_table : s_pipes :=
  aset (replicate (Z.to_nat MAX_PIPES) pipe_zero) 2 (set_in_use true pipe_zero).

Lemma fresh_table_wf : table_wf fresh_table.
Proof.
  apply table_wf_aset; [|by split]. split; [done|]. apply Forall_replicate, pipe_zero_wf.
Qed.

Lemma pipe_fifo_witness :
  let '(acc, out, t') := run 2 [Write [1; 2; 3]; Read 2; Write [4]; Read 9] fresh_table in
  contents (get fresh_table 2) ++ acc = out ++ contents (get t' 2) /\
  table_wf t' /\ connected t' 2 /\ only 2 fresh_table t'.
Proof.
  apply (pipe_fifo 2 [Write [1; 2; 3]; Read 2; Write [4]; Read 9] fresh_table fresh_table_wf).
  - unfold idx_ok, MAX_PIPES. lia.
  - split; reflexivity.
  - repeat constructor; simpl; lia.
Defined.
End Pipe.
