(* ===== verification/Sched.v ===== *)
(** * Threads and the scheduler

    Models [kernel/sched/sched.c] and [kernel/sched/thread.c]: the run queue
    and the sleep list as linked lists through the thread structs, the per-CPU
    arrays, thread creation and the timer tick. Thread structs live in a
    function from their address; pointers are addresses and NULL is 0. The
    state contains the kernel heap on top of the page tables, from which thread
    structs and stacks are allocated and to which the reaper returns them, and
    the two registers per CPU the tick loads (TSS rsp0 and CR3).

    The LAPIC id of the executing CPU is an argument. The walk of the sleep list
    takes fuel; more than its length is enough, and running out is a [Panic]
    that the theorems exclude. *)

From S2P Require Import Prelude Pmm Vmm Heap HeapPages.
Import Pmm Vmm Heap HeapPages.

Module Sched.

Definition MAX_CPUS : Z := 64.
Definition THREAD_KSTACK_SIZE : Z := 65536.
Definition FRAME_QWORDS : Z := 20.
Definition IDX_RSI : Z := 8.
Definition IDX_RDI : Z := 9.
Definition IDX_RIP : Z := 15.
Definition IDX_CS : Z := 16.
Definition IDX_RFLAGS : Z := 17.
Definition IDX_RSP : Z := 18.
Definition IDX_SS : Z := 19.
Definition sizeof_thread : Z := 96.

Inductive thread_state_t := THREAD_READY | THREAD_RUNNING | THREAD_BLOCKED | THREAD_DEAD.

#[export] Instance thread_state_eq_dec : EqDecision thread_state_t.
Proof. solve_decision. Defined.

Record thread := mk_thread {
  rsp : Z;
  kstack : Z;
  kstack_size : Z;
  kstack_top : Z;
  state : thread_state_t;
  tid : Z;
  is_idle : bool;
  is_user : bool;
  on_cpu : bool;
  cr3 : Z;
  run_next : Z;
  wait_next : Z;
  sleep_next : Z;
  sleep_deadline : Z;
  process : Z;
}.

Definition set_rsp v (t : thread) : thread :=
  mk_thread v (kstack t) (kstack_size t) (kstack_top t) (state t) (tid t) (is_idle t) (is_user t)
    (on_cpu t) (cr3 t) (run_next t) (wait_next t) (sleep_next t) (sleep_deadline t) (process t).
Definition set_kstack v (t : thread) : thread :=
  mk_thread (rsp t) v (kstack_size t) (kstack_top t) (state t) (tid t) (is_idle t) (is_user t)
    (on_cpu t) (cr3 t) (run_next t) (wait_next t) (sleep_next t) (sleep_deadline t) (process t).
Definition set_kstack_size v (t : thread) : thread :=
  mk_thread (rsp t) (kstack t) v (kstack_top t) (state t) (tid t) (is_idle t) (is_user t)
    (on_cpu t) (cr3 t) (run_next t) (wait_next t) (sleep_next t) (sleep_deadline t) (process t).
Definition set_kstack_top v (t : thread) : thread :=
  mk_thread (rsp t) (kstack t) (kstack_size t) v (state t) (tid t) (is_idle t) (is_user t)
    (on_cpu t) (cr3 t) (run_next t) (wait_next t) (sleep_next t) (sleep_deadline t) (process t).
Definition set_state v (t : thread) : thread :=
  mk_thread (rsp t) (kstack t) (kstack_size t) (kstack_top t) v (tid t) (is_idle t) (is_user t)
    (on_cpu t) (cr3 t) (run_next t) (wait_next t) (sleep_next t) (sleep_deadline t) (process t).
Definition set_tid v (t : thread) : thread :=
  mk_thread (rsp t) (kstack t) (kstack_size t) (kstack_top t) (state t) v (is_idle t) (is_user t)
    (on_cpu t) (cr3 t) (run_next t) (wait_next t) (sleep_next t) (sleep_deadline t) (process t).
Definition set_is_idle v (t : thread) : thread :=
  mk_thread (rsp t) (kstack t) (kstack_size t) (kstack_top t) (state t) (tid t) v (is_user t)
    (on_cpu t) (cr3 t) (run_next t) (wait_next t) (sleep_next t) (sleep_deadline t) (process t).
Definition set_is_user v (t : thread) : thread :=
  mk_thread (rsp t) (kstack t) (kstack_size t) (kstack_top t) (state t) (tid t) (is_idle t) v
    (on_cpu t) (cr3 t) (run_next t) (wait_next t) (sleep_next t) (sleep_deadline t) (process t).
Definition set_on_cpu v (t : thread) : thread :=
  mk_thread (rsp t) (kstack t) (kstack_size t) (kstack_top t) (state t) (tid t) (is_idle t)
    (is_user t) v (cr3 t) (run_next t) (wait_next t) (sleep_next t) (sleep_deadline t) (process t).
Definition set_cr3 v (t : thread) : thread :=
  mk_thread (rsp t) (kstack t) (kstack_size t) (kstack_top t) (state t) (tid t) (is_idle t)
    (is_user t) (on_cpu t) v (run_next t) (wait_next t) (sleep_next t) (sleep_deadline t)
    (process t).
Definition set_run_next v (t : thread) : thread :=
  mk_thread (rsp t) (kstack t) (kstack_size t) (kstack_top t) (state t) (tid t) (is_idle t)
    (is_user t) (on_cpu t) (cr3 t) v (wait_next t) (sleep_next t) (sleep_deadline t) (process t).
Definition set_wait_next v (t : thread) : thread :=
  mk_thread (rsp t) (kstack t) (kstack_size t) (kstack_top t) (state t) (tid t) (is_idle t)
    (is_user t) (on_cpu t) (cr3 t) (run_next t) v (sleep_next t) (sleep_deadline t) (process t).
Definition set_sleep_next v (t : thread) : thread :=
  mk_thread (rsp t) (kstack t) (kstack_size t) (kstack_top t) (state t) (tid t) (is_idle t)
    (is_user t) (on_cpu t) (cr3 t) (run_next t) (wait_next t) v (sleep_deadline t) (process t).
Definition set_sleep_deadline v (t : thread) : thread :=
  mk_thread (rsp t) (kstack t) (kstack_size t) (kstack_top t) (state t) (tid t) (is_idle t)
    (is_user t) (on_cpu t) (cr3 t) (run_next t) (wait_next t) (sleep_next t) v (process t).
Definition set_process v (t : thread) : thread :=
  mk_thread (rsp t) (kstack t) (kstack_size t) (kstack_top t) (state t) (tid t) (is_idle t)
    (is_user t) (on_cpu t) (cr3 t) (run_next t) (wait_next t) (sleep_next t) (sleep_deadline t) v.

Definition tmem : Type := Z -> thread.

Record sched := mk_sched {
  rq_head : Z;
  rq_tail : Z;
  g_ticks : Z;
  sleep_head : Z;
  cpu_current : list Z;
  cpu_idle : list Z;
  reap_pending : list Z;
  next_tid : Z;
  th : tmem;
  stack : Z -> Z;
  hw_rsp0 : list Z;
  hw_cr3 : list Z;
  kh : heap vmm;
}.

Definition with_rq_head v (s : sched) : sched :=
  mk_sched v (rq_tail s) (g_ticks s) (sleep_head s) (cpu_current s) (cpu_idle s) (reap_pending s)
    (next_tid s) (th s) (stack s) (hw_rsp0 s) (hw_cr3 s) (kh s).
Definition with_rq_tail v (s : sched) : sched :=
  mk_sched (rq_head s) v (g_ticks s) (sleep_head s) (cpu_current s) (cpu_idle s) (reap_pending s)
    (next_tid s) (th s) (stack s) (hw_rsp0 s) (hw_cr3 s) (kh s).
Definition with_g_ticks v (s : sched) : sched :=
  mk_sched (rq_head s) (rq_tail s) v (sleep_head s) (cpu_current s) (cpu_idle s) (reap_pending s)
    (next_tid s) (th s) (stack s) (hw_rsp0 s) (hw_cr3 s) (kh s).
Definition with_sleep_head v (s : sched) : sched :=
  mk_sched (rq_head s) (rq_tail s) (g_ticks s) v (cpu_current s) (cpu_idle s) (reap_pending s)
    (next_tid s) (th s) (stack s) (hw_rsp0 s) (hw_cr3 s) (kh s).
Definition with_cpu_current v (s : sched) : sched :=
  mk_sched (rq_head s) (rq_tail s) (g_ticks s) (sleep_head s) v (cpu_idle s) (reap_pending s)
    (next_tid s) (th s) (stack s) (hw_rsp0 s) (hw_cr3 s) (kh s).
Definition with_cpu_idle v (s : sched) : sched :=
  mk_sched (rq_head s) (rq_tail s) (g_ticks s) (sleep_head s) (cpu_current s) v (reap_pending s)
    (next_tid s) (th s) (stack s) (hw_rsp0 s) (hw_cr3 s) (kh s).
Definition with_reap_pending v (s : sched) : sched :=
  mk_sched (rq_head s) (rq_tail s) (g_ticks s) (sleep_head s) (cpu_current s) (cpu_idle s) v
    (next_tid s) (th s) (stack s) (hw_rsp0 s) (hw_cr3 s) (kh s).
Definition with_next_tid v (s : sched) : sched :=
  mk_sched (rq_head s) (rq_tail s) (g_ticks s) (sleep_head s) (cpu_current s) (cpu_idle s)
    (reap_pending s) v (th s) (stack s) (hw_rsp0 s) (hw_cr3 s) (kh s).
Definition with_th v (s : sched) : sched :=
  mk_sched (rq_head s) (rq_tail s) (g_ticks s) (sleep_head s) (cpu_current s) (cpu_idle s)
    (reap_pending s) (next_tid s) v (stack s) (hw_rsp0 s) (hw_cr3 s) (kh s).
Definition with_stack v (s : sched) : sched :=
  mk_sched (rq_head s) (rq_tail s) (g_ticks s) (sleep_head s) (cpu_current s) (cpu_idle s)
    (reap_pending s) (next_tid s) (th s) v (hw_rsp0 s) (hw_cr3 s) (kh s).
Definition with_hw_rsp0 v (s : sched) : sched :=
  mk_sched (rq_head s) (rq_tail s) (g_ticks s) (sleep_head s) (cpu_current s) (cpu_idle s)
    (reap_pending s) (next_tid s) (th s) (stack s) v (hw_cr3 s) (kh s).
Definition with_hw_cr3 v (s : sched) : sched :=
  mk_sched (rq_head s) (rq_tail s) (g_ticks s) (sleep_head s) (cpu_current s) (cpu_idle s)
    (reap_pending s) (next_tid s) (th s) (stack s) (hw_rsp0 s) v (kh s).
Definition with_kh v (s : sched) : sched :=
  mk_sched (rq_head s) (rq_tail s) (g_ticks s) (sleep_head s) (cpu_current s) (cpu_idle s)
    (reap_pending s) (next_tid s) (th s) (stack s) (hw_rsp0 s) (hw_cr3 s) v.

Definition upd_thread (t : Z) (f : thread -> thread) (s : sched) : sched :=
  with_th (fun x => if x =? t then f (th s t) else th s x) s.

(** ** The run queue *)

Definition rq_add (t : Z) (s : sched) : sched :=
  let s := upd_thread t (set_run_next 0) s in
  let s := if negb (rq_tail s =? 0) then upd_thread (rq_tail s) (set_run_next t) s else with_rq_head t s in
  with_rq_tail t s.

Definition rq_take (s : sched) : Z * sched :=
  if rq_head s =? 0 then (0, s)
  else
    let t := rq_head s in
    let s := with_rq_head (run_next (th s t)) s in
    let s := if rq_head s =? 0 then with_rq_tail 0 s else s in
    (t, upd_thread t (set_run_next 0) s).

(** ** Calls into the heap and the page tables *)

Definition on_heap {A} (k : K (heap vmm) A) : K sched A := fun s =>
  match k (kh s) with
  | Ok (a, h) => Ok (a, with_kh h s)
  | Panic msg => Panic msg
  end.
Definition on_vmm {A} (k : K vmm A) : K sched A := on_heap (lift k).

Definition current_cpu_id (lapic_id : Z) : K sched Z :=
  if MAX_CPUS <=? lapic_id then panic "sched: LAPIC ID exceeds MAX_CPUS" else mret lapic_id.

(** ** Thread creation *)

(** The fields the source assigns; [sleep_next], [sleep_deadline] and [process]
    keep what the memory held. *)
Definition init_thread (new_tid : Z) (t : thread) : thread :=
  mk_thread 0 0 0 0 THREAD_READY new_tid false false false 0 0 0
    (sleep_next t) (sleep_deadline t) (process t).

Definition alloc_thread : K sched Z :=
  t ← on_heap (kmalloc sizeof_thread);
  if t =? 0 then panic "thread: kmalloc failed" else
  n ← gets next_tid;
  _ ← modify (upd_thread t (init_thread n));
  _ ← modify (with_next_tid (u32 (n + 1)));
  mret t.

Definition alloc_kstack (t : Z) (msg : string) : K sched Z :=
  _ ← modify (upd_thread t (set_kstack_size THREAD_KSTACK_SIZE));
  k ← on_heap (kmalloc THREAD_KSTACK_SIZE);
  _ ← modify (upd_thread t (set_kstack k));
  if k =? 0 then panic msg else
  _ ← modify (upd_thread t (set_kstack_top (u64 (k + THREAD_KSTACK_SIZE))));
  mret (u64 (k + THREAD_KSTACK_SIZE)).

Definition store_stack (a v : Z) : K sched unit :=
  modify (fun s => with_stack (fun x => if x =? a then v else stack s x) s).

(** Clear the frame below [top] and fill in the given slots. *)
Definition build_frame (top : Z) (slots : list (Z * Z)) : K sched Z :=
  let frame := u64 (top - 8 * FRAME_QWORDS) in
  _ ← for_loop 20 0 (fun i => store_stack (frame + 8 * i) 0);
  _ ← foldr (fun '(i, v) k => _ ← store_stack (frame + 8 * i) v; k) (mret tt) slots;
  mret frame.

Definition sched_add (t : Z) : K sched unit := modify (rq_add t).

(** [trampoline] is the address of [thread_run_trampoline]. *)
Definition thread_create (trampoline fn arg : Z) : K sched Z :=
  t ← alloc_thread;
  top ← alloc_kstack t "thread: stack kmalloc failed";
  frame ← build_frame top
    [(IDX_RSI, fn); (IDX_RDI, arg); (IDX_RIP, trampoline); (IDX_CS, 0x08);
     (IDX_RFLAGS, 0x202); (IDX_RSP, top); (IDX_SS, 0x10)];
  _ ← modify (upd_thread t (set_rsp frame));
  _ ← sched_add t;
  mret t.

Definition thread_create_current : K sched Z :=
  t ← alloc_thread;
  _ ← modify (upd_thread t (set_state THREAD_RUNNING));
  mret t.

Definition thread_create_idle : K sched Z :=
  t ← alloc_thread;
  _ ← alloc_kstack t "thread: idle stack kmalloc failed";
  _ ← modify (upd_thread t (set_is_idle true));
  _ ← modify (upd_thread t (set_state THREAD_RUNNING));
  mret t.

Definition thread_create_user (entry_rip user_rsp cr3_ : Z) : K sched Z :=
  t ← alloc_thread;
  top ← alloc_kstack t "thread: user kstack kmalloc failed";
  _ ← modify (upd_thread t (set_is_user true));
  _ ← modify (upd_thread t (set_cr3 cr3_));
  frame ← build_frame top
    [(IDX_RIP, entry_rip); (IDX_CS, 0x33); (IDX_RFLAGS, 0x202); (IDX_RSP, user_rsp); (IDX_SS, 0x2b)];
  _ ← modify (upd_thread t (set_rsp frame));
  mret t.

(** ** The scheduler's interface *)

Definition sched_current (lapic_id : Z) : K sched Z :=
  cpu ← current_cpu_id lapic_id;
  gets (fun s => aget 0 (cpu_current s) cpu).

Definition sched_current_process (lapic_id : Z) : K sched Z :=
  t ← sched_current lapic_id;
  if t =? 0 then mret 0 else gets (fun s => process (th s t)).

Definition sched_init (lapic_id : Z) : K sched unit :=
  bsp ← thread_create_current;
  cpu ← current_cpu_id lapic_id;
  _ ← modify (fun s => with_cpu_current (aset (cpu_current s) cpu bsp) s);
  _ ← modify (upd_thread bsp (set_on_cpu true));
  idle ← thread_create_idle;
  modify (fun s => with_cpu_idle (aset (cpu_idle s) cpu idle) s).

Definition sched_ap_prepare (cpu_id : Z) : K sched unit :=
  if MAX_CPUS <=? cpu_id then mret tt else
  idle ← thread_create_idle;
  modify (fun s => with_cpu_idle (aset (cpu_idle s) cpu_id idle) s).

Definition sched_ap_enter (lapic_id : Z) : K sched unit :=
  cpu ← current_cpu_id lapic_id;
  idle0 ← gets (fun s => aget 0 (cpu_idle s) cpu);
  idle ← (if idle0 =? 0 then
            i ← thread_create_idle;
            _ ← modify (fun s => with_cpu_idle (aset (cpu_idle s) cpu i) s);
            mret i
          else mret idle0);
  _ ← modify (fun s => with_cpu_current (aset (cpu_current s) cpu idle) s);
  modify (upd_thread idle (set_on_cpu true)).

(** [while (t->on_cpu) pause;] keeps spinning in the states where this is
    [None]; otherwise the thread is made runnable. *)
Definition sched_wake (t : Z) (s : sched) : option sched :=
  if on_cpu (th s t) then None
  else Some (rq_add t (upd_thread t (set_state THREAD_READY) s)).

(** What [sched_sleep_ms] does before it raises the timer vector. *)
Definition sched_sleep_ms (lapic_id ms : Z) : K sched unit :=
  t ← sched_current lapic_id;
  idle ← gets (fun s => is_idle (th s t));
  if (t =? 0) || idle then mret tt else
  _ ← modify (fun s => upd_thread t (set_sleep_deadline (u64 (g_ticks s + ms))) s);
  _ ← modify (upd_thread t (set_state THREAD_BLOCKED));
  _ ← modify (fun s => upd_thread t (set_sleep_next (sleep_head s)) s);
  modify (with_sleep_head t).

(** What [thread_exit] does before it raises the timer vector. *)
Definition thread_exit (lapic_id : Z) : K sched unit :=
  t ← sched_current lapic_id;
  modify (upd_thread t (set_state THREAD_DEAD)).

(** ** The timer tick *)

(** The values of [struct thread **sp]. *)
Inductive link := head_link | next_link (t : Z).
Definition load_link (sp : link) (s : sched) : Z :=
  match sp with head_link => sleep_head s | next_link t => sleep_next (th s t) end.
Definition store_link (sp : link) (v : Z) (s : sched) : sched :=
  match sp with head_link => with_sleep_head v s | next_link t => upd_thread t (set_sleep_next v) s end.

(** The walk of the sleep list: wake the sleepers whose deadline has passed. *)
Fixpoint wake_sleepers (fuel : nat) (sp : link) (s : sched) : option sched :=
  match fuel with
  | O => None
  | S f =>
      let t := load_link sp s in
      if t =? 0 then Some s
      else if sleep_deadline (th s t) <=? g_ticks s then
        let s := store_link sp (sleep_next (th s t)) s in
        let s := upd_thread t (set_sleep_next 0) s in
        let s := upd_thread t (set_state THREAD_READY) s in
        wake_sleepers f sp (rq_add t s)
      else wake_sleepers f (next_link t) s
  end.

(** Free the thread that died on this CPU in the previous tick. *)
Definition reap (cpu : Z) : K sched unit :=
  dead ← gets (fun s => aget 0 (reap_pending s) cpu);
  if dead =? 0 then mret tt else
  _ ← modify (fun s => with_reap_pending (aset (reap_pending s) cpu 0) s);
  d ← gets (fun s => th s dead);
  _ ← (if is_user d && negb (cr3 d =? 0) then
         _ ← on_vmm (vmm_space_destroy (cr3 d));
         modify (upd_thread dead (set_cr3 0))
       else mret tt);
  k ← gets (fun s => kstack (th s dead));
  _ ← on_heap (kfree k);
  on_heap (kfree dead).

(** Requeue or retire the outgoing thread. *)
Definition retire (cpu cur : Z) (s : sched) : sched :=
  if bool_decide (state (th s cur) = THREAD_RUNNING) && negb (is_idle (th s cur)) then
    rq_add cur (upd_thread cur (set_state THREAD_READY) s)
  else if bool_decide (state (th s cur) = THREAD_DEAD) then
    with_reap_pending (aset (reap_pending s) cpu cur) s
  else s.

(** Choose the incoming thread. *)
Definition pick (cpu cur : Z) (s : sched) : Z * sched :=
  let '(t, s) := rq_take s in
  let next := if t =? 0 then aget 0 (cpu_idle s) cpu else t in
  let s := upd_thread next (set_state THREAD_RUNNING) s in
  let s := if negb (cur =? next) then upd_thread cur (set_on_cpu false) s else s in
  let s := upd_thread next (set_on_cpu true) s in
  (next, with_cpu_current (aset (cpu_current s) cpu next) s).

(** Load the registers for the incoming thread. *)
Definition enter (cpu next : Z) (s : sched) : sched :=
  let n := th s next in
  if is_user n && negb (cr3 n =? 0) then
    with_hw_cr3 (aset (hw_cr3 s) cpu (cr3 n)) (with_hw_rsp0 (aset (hw_rsp0 s) cpu (kstack_top n)) s)
  else with_hw_cr3 (aset (hw_cr3 s) cpu (vmm_pml4_phys (back (kh s)))) s.

Definition sched_tick (fuel : nat) (lapic_id old_rsp : Z) : K sched Z :=
  cpu ← current_cpu_id lapic_id;
  _ ← reap cpu;
  cur ← gets (fun s => aget 0 (cpu_current s) cpu);
  _ ← modify (upd_thread cur (set_rsp old_rsp));
  _ ← modify (fun s => with_g_ticks (u64 (g_ticks s + 1)) s);
  s ← gets (wake_sleepers fuel head_link);
  match s with
  | None => panic "sleep list walk does not end"
  | Some s =>
      _ ← put_state s;
      _ ← modify (retire cpu cur);
      s ← get_state;
      let '(next, s) := pick cpu cur s in
      _ ← put_state (enter cpu next s);
      gets (fun s => rsp (th s next))
  end.

(** ** Linked lists *)

(** [l] is the chain from [h] to [e] through the next pointers [nx]. *)
Fixpoint lseg (nx : Z -> Z) (h : Z) (l : list Z) (e : Z) : Prop :=
  match l with
  | [] => h = e
  | t :: l' => h = t /\ t <> 0 /\ lseg nx (nx t) l' e
  end.

Lemma lseg_app nx h l1 l2 e :
  lseg nx h (l1 ++ l2) e <-> exists m, lseg nx h l1 m /\ lseg nx m l2 e.
Proof.
  revert h. induction l1 as [|t l1 IH]; intros h; simpl.
  - split; [by exists h|]. by intros (m & -> & H).
  - rewrite IH. split.
    + intros (-> & Ht & m & H1 & H2). by exists m.
    + intros (m & (-> & Ht & H1) & H2). split; [done|split; [done|by exists m]].
Qed.

Lemma lseg_ext nx nx' h l e :
  (forall t, t ∈ l -> nx' t = nx t) -> lseg nx h l e -> lseg nx' h l e.
Proof.
  revert h. induction l as [|t l IH]; intros h Hn; simpl; [done|].
  intros (-> & Ht & Hl). split_and!; [done..|]. rewrite Hn by left.
  apply IH; [|done]. intros x Hx. apply Hn. by right.
Qed.

Lemma lseg_nonnull nx h l e t : lseg nx h l e -> t ∈ l -> t <> 0.
Proof.
  revert h. induction l as [|x l IH]; intros h; simpl; [by intros _ ?%elem_of_nil|].
  intros (-> & Hx & Hl) [->|Ht]%elem_of_cons; [done|eauto].
Qed.

(** The run queue holds [Q], in order. *)
Definition queue (s : sched) (Q : list Z) : Prop :=
  lseg (fun t => run_next (th s t)) (rq_head s) Q 0 /\ rq_tail s = default 0 (last Q) /\ NoDup Q.

(** The sleep list holds [W]. *)
Definition sleepers (s : sched) (W : list Z) : Prop :=
  lseg (fun t => sleep_next (th s t)) (sleep_head s) W 0 /\ NoDup W.

(** A thread without its link fields, and the state outside the lists. *)
Definition core (t : thread) : thread := set_run_next 0 (set_sleep_next 0 t).
Definition norun (t : thread) : thread := set_run_next 0 t.
Definition statics (s : sched) :=
  (g_ticks s, cpu_current s, cpu_idle s, reap_pending s, (next_tid s, stack s, hw_rsp0 s, hw_cr3 s, kh s)).

Lemma queue_nonnull s Q t : queue s Q -> t ∈ Q -> t <> 0.
Proof. intros [H _]. by apply lseg_nonnull with (1 := H). Qed.

Lemma last_in {A} (l : list A) x : last l = Some x -> x ∈ l.
Proof. intros H. apply last_Some in H as [l' ->]. apply elem_of_app. right. by left. Qed.

Lemma core_fields t t' :
  core t = core t' ->
  state t = state t' /\ on_cpu t = on_cpu t' /\ is_idle t = is_idle t' /\ rsp t = rsp t' /\
  sleep_deadline t = sleep_deadline t' /\ is_user t = is_user t' /\ cr3 t = cr3 t' /\
  kstack_top t = kstack_top t'.
Proof. destruct t, t'. unfold core, set_run_next, set_sleep_next. simpl. intros E. by inversion E. Qed.

Lemma norun_core t t' : norun t = norun t' -> core t = core t'.
Proof. intros E. exact (f_equal (set_sleep_next 0) E). Qed.

(** [rq_add] appends: a queue in FIFO order. *)
Lemma rq_add_spec s Q t :
  queue s Q -> t <> 0 -> t ∉ Q ->
  queue (rq_add t s) (Q ++ [t]) /\
  (forall x, norun (th (rq_add t s) x) = norun (th s x)) /\
  sleep_head (rq_add t s) = sleep_head s /\ statics (rq_add t s) = statics s.
Proof.
  intros (Hl & Ht & Hnd) Ht0 Hin.
  assert (NoDup (Q ++ [t])) as Hnd'.
  { apply NoDup_app. split; [done|]. split; [|apply NoDup_singleton].
    intros x Hx ->%list_elem_of_singleton. done. }
  destruct (last Q) as [z|] eqn:HQ; simpl in Ht.
  - pose proof (last_in _ _ HQ) as Hz. assert (z <> 0) as Hz0 by (by eapply lseg_nonnull).
    assert (z <> t) as Hzt by (by intros ->).
    assert (rq_add t s = with_rq_tail t (upd_thread z (set_run_next t) (upd_thread t (set_run_next 0) s))) as ->.
    { unfold rq_add. cbn. rewrite Ht. by destruct (Z.eqb_spec z 0). }
    split; [|split; [|done]].
    + split; [|split; [cbn; by rewrite last_snoc|done]].
      apply last_Some in HQ as [Q' ->]. apply lseg_app in Hl as (m & Hl & -> & _ & _).
      apply NoDup_app in Hnd as (_ & Hd & _).
      apply lseg_app. exists t. split.
      * apply lseg_app. exists z. split; [|split; [done|split; [done|]]].
        -- eapply lseg_ext; [|exact Hl]. intros x Hx. cbn.
           destruct (Z.eqb_spec x z) as [->|]; [destruct (Hd z Hx); by left|].
           destruct (Z.eqb_spec x t) as [->|]; [|done].
           destruct Hin. apply elem_of_app. by left.
        -- cbn. by rewrite Z.eqb_refl.
      * split; [done|split; [done|]]. cbn. destruct (Z.eqb_spec t z); [congruence|]. by rewrite Z.eqb_refl.
    + intros x. cbn. destruct (Z.eqb_spec x z) as [->|].
      * by destruct (Z.eqb_spec z t).
      * by destruct (Z.eqb_spec x t) as [->|].
  - apply last_None in HQ as ->. simpl in Hl.
    assert (rq_add t s = with_rq_tail t (with_rq_head t (upd_thread t (set_run_next 0) s))) as ->.
    { unfold rq_add. cbn. by rewrite Ht. }
    split; [|split; [|done]].
    + split; [|done]. cbn. by rewrite Z.eqb_refl.
    + intros x. cbn. by destruct (Z.eqb_spec x t) as [->|].
Qed.

(** [rq_take] removes the oldest entry. *)
Lemma rq_take_spec s Q :
  queue s Q ->
  exists s', rq_take s = (default 0 (head Q), s') /\ queue s' (tail Q) /\
    (forall x, norun (th s' x) = norun (th s x)) /\
    sleep_head s' = sleep_head s /\ statics s' = statics s.
Proof.
  intros (Hl & Ht & Hnd). unfold rq_take. destruct Q as [|t Q]; simpl in Hl.
  - rewrite Hl. exists s. by split_and!.
  - destruct Hl as (Hh & Ht0 & Hl). rewrite Hh. destruct (Z.eqb_spec t 0) as [|_]; [done|].
    eexists. split; [reflexivity|]. apply NoDup_cons in Hnd as [Hin Hnd].
    assert (forall s1, th s1 = th s -> queue s1 Q -> queue (upd_thread t (set_run_next 0) s1) Q) as Hup.
    { intros s1 E (H1 & H2 & H3). split; [|done]. eapply lseg_ext; [|exact H1].
      intros x Hx. cbn. destruct (Z.eqb_spec x t) as [->|]; [done|done]. }
    cbn [rq_head with_rq_head th]. split_and!.
    + apply Hup; [by destruct (_ =? 0)|].
      destruct Q as [|z Q]; simpl in Hl.
      * rewrite Hl. split; [|split; [done|constructor]]. simpl. done.
      * destruct Hl as (Hz & Hz0 & Hl). rewrite Hz. destruct (Z.eqb_spec z 0); [done|].
        split; [by cbn|split; [|done]]. cbn. cbn in Ht. rewrite Ht. done.
    + intros x. destruct (_ =? 0); cbn; by destruct (Z.eqb_spec x t) as [->|].
    + by destruct (_ =? 0).
    + by destruct (_ =? 0).
Qed.

(** ** The sleep list *)

Lemma sleepers_ext s s' W :
  (forall x, x ∈ W -> sleep_next (th s' x) = sleep_next (th s x)) -> sleep_head s' = sleep_head s ->
  sleepers s W -> sleepers s' W.
Proof. intros Hx Hh [H1 H2]. split; [|done]. rewrite Hh. eapply lseg_ext; [|exact H1]. exact Hx. Qed.

Lemma queue_ext s s' Q :
  (forall x, x ∈ Q -> run_next (th s' x) = run_next (th s x)) ->
  rq_head s' = rq_head s -> rq_tail s' = rq_tail s -> queue s Q -> queue s' Q.
Proof.
  intros Hx Hh Ht (H1 & H2 & H3). split; [|by rewrite Ht]. rewrite Hh. eapply lseg_ext; [|exact H1]. exact Hx.
Qed.

(** The link that points behind the prefix [P]. *)
Definition link_after (P : list Z) : link :=
  match last P with Some z => next_link z | None => head_link end.

Lemma link_after_snoc P t : link_after (P ++ [t]) = next_link t.
Proof. unfold link_after. by rewrite last_snoc. Qed.

Lemma load_link_after s P R :
  sleepers s (P ++ R) -> load_link (link_after P) s = default 0 (head R).
Proof.
  intros [Hl _]. apply lseg_app in Hl as (m & H1 & H2).
  assert (m = default 0 (head R)) as <- by (destruct R; [done|by destruct H2]).
  unfold link_after. destruct (last P) as [z|] eqn:E.
  - apply last_Some in E as [P' ->]. apply lseg_app in H1 as (m' & _ & _ & _ & H). exact H.
  - apply last_None in E as ->. exact H1.
Qed.

(** The entry behind [P], taken out of the list and marked ready. *)
Definition wake_entry (P : list Z) (t : Z) (s : sched) : sched :=
  upd_thread t (set_state THREAD_READY)
    (upd_thread t (set_sleep_next 0) (store_link (link_after P) (sleep_next (th s t)) s)).

Lemma th_store_link sp v s x :
  core (th (store_link sp v s) x) = core (th s x) /\
  run_next (th (store_link sp v s) x) = run_next (th s x).
Proof. destruct sp as [|z]; cbn; [done|]. by destruct (Z.eqb_spec x z) as [->|]. Qed.

Lemma wake_entry_core P t s x :
  core (th (wake_entry P t s) x) =
  core (if x =? t then set_state THREAD_READY (th s x) else th s x) /\
  run_next (th (wake_entry P t s) x) = run_next (th s x).
Proof.
  unfold wake_entry. set (s0 := store_link _ _ s).
  destruct (th_store_link (link_after P) (sleep_next (th s t)) s x) as [Hc Hr]. fold s0 in Hc, Hr.
  cbn. rewrite Z.eqb_refl. destruct (Z.eqb_spec x t) as [->|]; [|done].
  split; [|exact Hr]. apply (f_equal (set_state THREAD_READY)) in Hc. exact Hc.
Qed.

Lemma wake_entry_statics P t s :
  statics (wake_entry P t s) = statics s /\ rq_head (wake_entry P t s) = rq_head s /\
  rq_tail (wake_entry P t s) = rq_tail s.
Proof. unfold wake_entry. by destruct (link_after P). Qed.

Lemma wake_entry_sleepers P t R s :
  sleepers s (P ++ t :: R) -> sleepers (wake_entry P t s) (P ++ R).
Proof.
  intros [Hl Hnd]. apply lseg_app in Hl as (m & H1 & Hm & Ht0 & H2). subst m.
  apply NoDup_app in Hnd as (HP & Hd & [HtR HR]%NoDup_cons). split.
  2:{ apply NoDup_app. split; [done|split; [|done]]. intros x Hx Hx'. apply (Hd x Hx). by right. }
  apply lseg_app. exists (sleep_next (th s t)).
  unfold wake_entry, link_after. destruct (last P) as [z|] eqn:E.
  - apply last_Some in E as [P' ->]. apply lseg_app in H1 as (m' & H1 & Hm' & Hz0 & Hzt). subst m'.
    apply NoDup_app in HP as (_ & HdP & _).
    assert (z <> t) as Hne. { intros ->. apply (Hd t); [apply elem_of_app; right; by left|by left]. }
    split; [apply lseg_app; exists z; split; [|split; [|split]]|]; cbn in *.
    + eapply lseg_ext; [|exact H1]. intros x Hx. cbn.
      destruct (Z.eqb_spec x t) as [->|].
      { destruct (Hd t); [apply elem_of_app; by left|by left]. }
      destruct (Z.eqb_spec x z) as [->|]; [|done]. destruct (HdP z Hx). by left.
    + done.
    + done.
    + destruct (Z.eqb_spec z t); [done|]. by rewrite Z.eqb_refl.
    + eapply lseg_ext; [|exact H2]. intros x Hx. cbn.
      destruct (Z.eqb_spec x t) as [->|]; [done|].
      destruct (Z.eqb_spec x z) as [->|]; [|done].
      destruct (Hd z); [apply elem_of_app; right; by left|by right].
  - apply last_None in E as ->. split; [done|].
    eapply lseg_ext; [|exact H2]. intros x Hx. cbn. by destruct (Z.eqb_spec x t) as [->|].
Qed.

(** The walk ends, moves the expired entries to the run queue in list order
    and keeps the others. *)
Lemma wake_sleepers_spec (dl : Z -> Z) (now : Z) R : forall fuel P Q s,
  (length R < fuel)%nat -> sleepers s (P ++ R) -> queue s Q -> (forall t, t ∈ R -> t ∉ Q) ->
  g_ticks s = now -> (forall t, t ∈ R -> sleep_deadline (th s t) = dl t) ->
  exists s', wake_sleepers fuel (link_after P) s = Some s' /\
    sleepers s' (P ++ filter (fun t => now < dl t) R) /\
    queue s' (Q ++ filter (fun t => dl t <= now) R) /\
    (forall x, core (th s' x) =
       core (if decide (x ∈ filter (fun t => dl t <= now) R)
             then set_state THREAD_READY (th s x) else th s x)) /\
    statics s' = statics s.
Proof.
  induction R as [|t R IH]; intros fuel P Q s Hf Hs Hq Hd Hn Hdl;
    (destruct fuel as [|fuel]; [simpl in Hf; lia|]); cbn [wake_sleepers];
    rewrite (load_link_after _ _ _ Hs); cbn [head default from_option id].
  { exists s. rewrite !filter_nil, !app_nil_r in *. split_and!; try done. }
  pose proof (proj1 Hs) as Hl. apply lseg_app in Hl as (m & _ & _ & Ht0 & _).
  destruct (Z.eqb_spec t 0) as [|_]; [done|]. rewrite (Hdl t), Hn by left.
  pose proof (proj2 Hs) as Hnd. apply NoDup_app in Hnd as (_ & _ & [HtR HndR]%NoDup_cons).
  destruct (Z.leb_spec (dl t) now) as [Hle|Hlt].
  - rewrite !filter_cons. rewrite decide_False by lia. rewrite decide_True by lia.
    fold (wake_entry P t s).
    destruct (wake_entry_statics P t s) as (Hst & Hrh & Hrt).
    assert (queue (wake_entry P t s) Q) as Hq1.
    { eapply queue_ext; [|done..]. intros x _. apply wake_entry_core. }
    destruct (rq_add_spec _ Q t Hq1 Ht0 (Hd t ltac:(by left))) as (Hq2 & Hth & Hsh & Hst').
    revert Hq2 Hth Hsh Hst'. generalize (rq_add t (wake_entry P t s)) as s3. intros s3 Hq2 Hth Hsh Hst'.
    assert (forall x, core (th s3 x) = core (if x =? t then set_state THREAD_READY (th s x) else th s x)) as Hc.
    { intros x. rewrite <- (proj1 (wake_entry_core P t s x)). by apply norun_core. }
    destruct (IH fuel P (Q ++ [t]) s3) as (s' & Hrun & Hs' & Hq' & Hc' & Hst''); [simpl in Hf; lia|..].
    + eapply sleepers_ext; [|exact Hsh|by apply wake_entry_sleepers].
      intros x _. exact (f_equal sleep_next (Hth x)).
    + done.
    + intros x Hx [Hq'|<-%list_elem_of_singleton]%elem_of_app; [|done]. apply (Hd x); [by right|done].
    + rewrite <- Hn. assert (statics s3 = statics s) as E by congruence. by injection E.
    + intros x Hx. rewrite <- (Hdl x) by (by right).
      destruct (core_fields _ _ (Hc x)) as (_ & _ & _ & _ & -> & _). by destruct (x =? t).
    + exists s'. split; [exact Hrun|]. split; [done|].
      split; [by rewrite <- app_assoc in Hq'|]. split; [|congruence].
      intros x. rewrite Hc'. destruct (decide (x = t)) as [->|Hne].
      * rewrite (decide_True (P := t ∈ t :: _)) by left.
        pose proof (Hc t) as Ht. rewrite Z.eqb_refl in Ht.
        destruct (decide _) as [H|_]; [|exact Ht].
        apply list_elem_of_filter in H as [_ H]. by destruct (HtR H).
      * pose proof (Hc x) as Hx. destruct (Z.eqb_spec x t); [done|].
        destruct (decide (x ∈ filter _ R)) as [H|H].
        -- rewrite decide_True by (by right).
           exact (f_equal (set_state THREAD_READY) Hx).
        -- rewrite decide_False; [done|]. by intros [?|?]%elem_of_cons.
  - rewrite !filter_cons. rewrite decide_True by lia. rewrite decide_False by lia.
    rewrite <- (link_after_snoc P t).
    destruct (IH fuel (P ++ [t]) Q s) as (s' & Hrun & Hs' & Hq' & Hc' & Hst''); try done.
    + simpl in Hf. lia.
    + by rewrite <- app_assoc.
    + intros x Hx. apply Hd. by right.
    + intros x Hx. apply Hdl. by right.
    + exists s'. rewrite <- app_assoc in Hs'. done.
Qed.

(** ** The tick, phase by phase *)

Definition current (s : sched) (c : Z) : Z := aget 0 (cpu_current s) c.
Definition idle (s : sched) (c : Z) : Z := aget 0 (cpu_idle s) c.
Definition pending (s : sched) (c : Z) : Z := aget 0 (reap_pending s) c.

(** The outgoing thread was preempted, so it goes back to the run queue. *)
Definition preempted (t : thread) : bool :=
  bool_decide (state t = THREAD_RUNNING) && negb (is_idle t).

(** The reaper only clears the pending slot, the dead thread's [cr3] and heap
    and page-table state. *)
Lemma reap_frame cpu s s1 :
  reap cpu s = Ok (tt, s1) ->
  (rq_head s1, rq_tail s1, sleep_head s1, g_ticks s1, cpu_current s1, cpu_idle s1, hw_rsp0 s1, hw_cr3 s1) =
  (rq_head s, rq_tail s, sleep_head s, g_ticks s, cpu_current s, cpu_idle s, hw_rsp0 s, hw_cr3 s) /\
  reap_pending s1 = (if pending s cpu =? 0 then reap_pending s else aset (reap_pending s) cpu 0) /\
  (forall x, x <> pending s cpu -> th s1 x = th s x) /\
  (forall x, set_cr3 0 (th s1 x) = set_cr3 0 (th s x)).
Proof.
  unfold reap. intros H. K_inv H. injection E as <- <-. fold (pending s cpu) in H.
  destruct (Z.eqb_spec (pending s cpu) 0) as [Hz|Hz]; [by injection H as <-|].
  do 2 K_inv H. injection E as _ <-. injection E0 as <- <-.
  do 3 K_inv H. injection E0 as <- <-.
  assert (forall (A : Type) (k : K (heap vmm) A) t r t', on_heap k t = Ok (r, t') -> exists h, t' = with_kh h t) as Hh.
  { intros A k t r' t' Hk. unfold on_heap in Hk. destruct (k (kh t)) as [[a h]|]; [|done].
    injection Hk as _ <-. by exists h. }
  apply Hh in E1 as [h1 ->]. apply Hh in H as [h2 ->].
  revert E. case_match; intros E.
  - K_inv E. apply Hh in E0 as [h3 ->]. injection E as _ <-. cbn. split_and!; try done.
    + intros x Hx. by destruct (Z.eqb_spec x (pending s cpu)).
    + intros x. by destruct (Z.eqb_spec x (pending s cpu)) as [->|].
  - by injection E as _ <-.
Qed.

Lemma retire_spec cpu cur s Q :
  queue s Q -> cur <> 0 -> (preempted (th s cur) = true -> cur ∉ Q) ->
  queue (retire cpu cur s) (Q ++ (if preempted (th s cur) then [cur] else [])) /\
  (forall x, norun (th (retire cpu cur s) x) =
     norun (if (x =? cur) && preempted (th s cur) then set_state THREAD_READY (th s x) else th s x)) /\
  sleep_head (retire cpu cur s) = sleep_head s /\
  statics (retire cpu cur s) =
  statics (if bool_decide (state (th s cur) = THREAD_DEAD)
           then with_reap_pending (aset (reap_pending s) cpu cur) s else s).
Proof.
  intros Hq H0 Hin. unfold retire. fold (preempted (th s cur)).
  destruct (preempted (th s cur)) eqn:Hp.
  - assert (state (th s cur) = THREAD_RUNNING) as Hr.
    { by apply andb_prop in Hp as [?%bool_decide_eq_true _]. }
    rewrite bool_decide_false by congruence.
    set (s1 := upd_thread cur (set_state THREAD_READY) s).
    assert (queue s1 Q) as Hq1.
    { apply (queue_ext s); [|done..]. intros x _. cbn. by destruct (Z.eqb_spec x cur) as [->|]. }
    destruct (rq_add_spec s1 Q cur Hq1 H0 (Hin eq_refl)) as (H1 & H2 & H3 & H4).
    split; [exact H1|]. split; [|by rewrite H3, H4]. intros x. rewrite H2, andb_true_r. cbn.
    by destruct (Z.eqb_spec x cur) as [->|].
  - rewrite app_nil_r. case_bool_decide; (split; [exact Hq|]); (split; [|done]);
      intros x; by rewrite andb_false_r.
Qed.

(** What [pick] does to the thread at [x]. *)
Definition handoff (cur next x : Z) (t : thread) : thread :=
  if x =? next then set_on_cpu true (set_state THREAD_RUNNING t)
  else if x =? cur then set_on_cpu false t else t.

Lemma pick_spec cpu cur s Q :
  queue s Q ->
  let next := match Q with [] => idle s cpu | t :: _ => t end in
  exists s', pick cpu cur s = (next, s') /\ queue s' (tail Q) /\
    (forall x, norun (th s' x) = norun (handoff cur next x (th s x))) /\
    sleep_head s' = sleep_head s /\
    statics s' = statics (with_cpu_current (aset (cpu_current s) cpu next) s).
Proof.
  intros Hq next. unfold pick. destruct (rq_take_spec s Q Hq) as (s1 & -> & Hq1 & Ht1 & Hs1 & Hst1).
  assert ((if default 0 (head Q) =? 0 then aget 0 (cpu_idle s1) cpu else default 0 (head Q)) = next) as ->.
  { subst next. destruct Q as [|t Q]; cbn.
    - unfold idle. by injection Hst1 as _ _ ->.
    - pose proof (queue_nonnull _ _ t Hq ltac:(by left)). by destruct (Z.eqb_spec t 0). }
  clearbody next. eexists. split; [reflexivity|]. split; [|split; [|split]].
  - eapply queue_ext; [| | |exact Hq1]; [|by destruct (cur =? next)..].
    intros x _. destruct (Z.eqb_spec cur next) as [->|]; cbn.
    + by destruct (Z.eqb_spec x next) as [->|]; rewrite ?Z.eqb_refl.
    + destruct (Z.eqb_spec x next) as [->|]; [|destruct (Z.eqb_spec x cur) as [->|]; [by destruct (Z.eqb_spec cur next)|done]].
      rewrite Z.eqb_refl. by destruct (Z.eqb_spec next cur).
  - intros x. unfold handoff. pose proof (Ht1 x) as Hx.
    destruct (Z.eqb_spec cur next) as [->|]; cbn.
    + destruct (Z.eqb_spec x next) as [->|]; rewrite ?Z.eqb_refl; [|done].
      exact (f_equal (fun t => set_on_cpu true (set_state THREAD_RUNNING t)) Hx).
    + destruct (Z.eqb_spec x next) as [->|]; rewrite ?Z.eqb_refl.
      * destruct (Z.eqb_spec next cur); [done|].
        exact (f_equal (fun t => set_on_cpu true (set_state THREAD_RUNNING t)) Hx).
      * destruct (Z.eqb_spec x cur) as [->|]; [|done].
        destruct (Z.eqb_spec cur next); [done|]. exact (f_equal (set_on_cpu false) Hx).
  - by destruct (cur =? next).
  - unfold statics in *. destruct (cur =? next); cbn; by inversion Hst1.
Qed.

(** The whole tick on the thread at [x]: [E] are the sleepers it wakes. *)
Definition tick_thread (cur next old_rsp : Z) (E : list Z) (x : Z) (t : thread) : thread :=
  let t := if x =? cur then set_rsp old_rsp t else t in
  let t := if decide (x ∈ E) then set_state THREAD_READY t else t in
  let t := if (x =? cur) && preempted t then set_state THREAD_READY t else t in
  handoff cur next x t.

Definition expired (s : sched) (now : Z) (W : list Z) : list Z :=
  filter (fun t => sleep_deadline (th s t) <= now) W.
Definition asleep (s : sched) (now : Z) (W : list Z) : list Z :=
  filter (fun t => now < sleep_deadline (th s t)) W.

(** The run queue from which the tick takes its choice. *)
Definition tick_queue (s : sched) (now cur : Z) (Q W : list Z) : list Z :=
  Q ++ expired s now W ++ (if preempted (th s cur) then [cur] else []).
Definition tick_next (s : sched) (cpu : Z) (Q : list Z) : Z :=
  match Q with [] => idle s cpu | t :: _ => t end.

Lemma core_handoff cur next x t t' :
  core t = core t' -> core (handoff cur next x t) = core (handoff cur next x t').
Proof.
  intros E. unfold handoff. destruct (x =? next); [|destruct (x =? cur)]; [..|exact E].
  - exact (f_equal (fun t => set_on_cpu true (set_state THREAD_RUNNING t)) E).
  - exact (f_equal (set_on_cpu false) E).
Qed.

Lemma core_preempted t t' : core t = core t' -> preempted t = preempted t'.
Proof. intros (E1 & _ & E2 & _)%core_fields. unfold preempted. by rewrite E1, E2. Qed.

Lemma norun_fields t t' : norun t = norun t' -> sleep_next t = sleep_next t'.
Proof. intros E. exact (f_equal sleep_next E). Qed.

(** Everything behind the reaper: wake, retire, pick. *)
Definition tick_lists (fuel : nat) (cpu cur old_rsp : Z) (s : sched) : option (Z * sched) :=
  s3 ← wake_sleepers fuel head_link
         (with_g_ticks (u64 (g_ticks s + 1)) (upd_thread cur (set_rsp old_rsp) s));
  Some (pick cpu cur (retire cpu cur s3)).

Lemma sched_tick_unfold fuel cpu old_rsp s s1 next s5 :
  0 <= cpu < MAX_CPUS -> reap cpu s = Ok (tt, s1) ->
  tick_lists fuel cpu (current s1 cpu) old_rsp s1 = Some (next, s5) ->
  sched_tick fuel cpu old_rsp s = Ok (rsp (th s5 next), enter cpu next s5).
Proof.
  intros Hc Hr Ht. unfold sched_tick, current_cpu_id. destruct (Z.leb_spec MAX_CPUS cpu); [lia|].
  rewrite (K_bind_Ok _ _ _ cpu s) by done. rewrite (K_bind_Ok _ _ _ _ _ Hr).
  unfold tick_lists in Ht. apply bind_Some in Ht as (s3 & H3 & H5).
  unfold mbind, K_bind, gets, modify, get_state, put_state, current in *.
  change (g_ticks (upd_thread (aget 0 (cpu_current s1) cpu) (set_rsp old_rsp) s1)) with (g_ticks s1).
  rewrite H3. injection H5 as ->. unfold enter. by destruct (_ && _).
Qed.

Lemma tick_lists_spec fuel cpu cur old_rsp s Q W :
  (length W < fuel)%nat -> queue s Q -> sleepers s W -> NoDup (Q ++ W) -> cur <> 0 ->
  (cur ∈ Q -> preempted (th s cur) = false) -> (cur ∈ W -> state (th s cur) = THREAD_BLOCKED) ->
  let now := u64 (g_ticks s + 1) in
  let Q' := tick_queue s now cur Q W in
  let next := tick_next s cpu Q' in
  exists s', tick_lists fuel cpu cur old_rsp s = Some (next, s') /\
    queue s' (tail Q') /\ sleepers s' (asleep s now W) /\
    (forall x, core (th s' x) = core (tick_thread cur next old_rsp (expired s now W) x (th s x))) /\
    statics s' =
      (now, aset (cpu_current s) cpu next, cpu_idle s,
       (if bool_decide (state (th s cur) = THREAD_DEAD) then aset (reap_pending s) cpu cur else reap_pending s),
       (next_tid s, stack s, hw_rsp0 s, hw_cr3 s, kh s)).
Proof.
  intros Hf Hq Hs Hnd H0 HcQ HcW now Q' next.
  set (s2 := with_g_ticks now (upd_thread cur (set_rsp old_rsp) s)).
  assert (forall x, th s2 x = if x =? cur then set_rsp old_rsp (th s x) else th s x) as Hth2.
  { intros x. cbn. by destruct (Z.eqb_spec x cur) as [->|]. }
  destruct (wake_sleepers_spec (fun t => sleep_deadline (th s t)) now W fuel [] Q s2)
    as (s3 & Hw & Hs3 & Hq3 & Hc3 & Hst3); [done|..].
  { eapply (sleepers_ext s); [|done..]. intros x _. rewrite Hth2. by destruct (x =? cur). }
  { eapply (queue_ext s); [|done..]. intros x _. rewrite Hth2. by destruct (x =? cur). }
  { apply NoDup_app in Hnd as (_ & Hd & _). intros t Ht Ht'. by apply (Hd t). }
  { done. }
  { intros t _. rewrite Hth2. by destruct (t =? cur). }
  fold (expired s now W) in Hq3, Hc3. fold (asleep s now W) in Hs3.
  (* the outgoing thread *)
  assert (preempted (th s3 cur) = preempted (th s cur) /\
          (state (th s3 cur) = THREAD_DEAD <-> state (th s cur) = THREAD_DEAD)) as [Hp3 Hd3].
  { pose proof (Hc3 cur) as Hc. rewrite (core_preempted _ _ Hc).
    apply core_fields in Hc as [-> _]. rewrite Hth2, Z.eqb_refl. destruct (decide _) as [Hin|]; [|done].
    apply list_elem_of_filter in Hin as [_ Hin]. unfold preempted. cbn. by rewrite HcW. }
  destruct (retire_spec cpu cur s3 (Q ++ expired s now W) Hq3 H0) as (Hq4 & Hc4 & Hs4 & Hst4).
  { rewrite Hp3. intros Hp [Hin|Hin]%elem_of_app; [by rewrite HcQ in Hp|].
    apply list_elem_of_filter in Hin as [_ Hin]. unfold preempted in Hp. by rewrite HcW in Hp. }
  set (s4 := retire cpu cur s3) in *.
  rewrite Hp3, <- app_assoc in Hq4. fold Q' in Hq4. fold (tick_queue s now cur Q W) in Hq4.
  rewrite (bool_decide_ext _ _ Hd3) in Hst4.
  destruct (pick_spec cpu cur s4 Q' Hq4) as (s5 & Hpk & Hq5 & Hc5 & Hs5 & Hst5).
  assert (statics s4 = (now, cpu_current s, cpu_idle s,
       (if bool_decide (state (th s cur) = THREAD_DEAD) then aset (reap_pending s) cpu cur else reap_pending s),
       (next_tid s, stack s, hw_rsp0 s, hw_cr3 s, kh s))) as Hst.
  { rewrite Hst4. revert Hst3. unfold statics. intros Hst3. case_bool_decide; [|exact Hst3].
    inversion Hst3. cbn. congruence. }
  assert (idle s4 cpu = idle s cpu /\ cpu_current s4 = cpu_current s) as [Hi Hcc].
  { unfold idle. by inversion Hst. }
  rewrite Hi in Hpk, Hc5, Hst5. fold (tick_next s cpu Q') in Hpk, Hc5, Hst5. fold next in Hpk, Hc5, Hst5.
  exists s5. split; [|split; [exact Hq5|split; [|split]]].
  - unfold tick_lists. fold now. fold s2. change head_link with (link_after []). rewrite Hw.
    cbn [mbind option_bind]. fold s4. by rewrite Hpk.
  - apply (sleepers_ext s3); [|congruence|exact Hs3]. intros x _.
    rewrite (norun_fields _ _ (Hc5 x)). transitivity (sleep_next (th s4 x)).
    { unfold handoff. by destruct (x =? next), (x =? cur). }
    rewrite (norun_fields _ _ (Hc4 x)). by destruct (_ && _).
  - intros x. rewrite (norun_core _ _ (Hc5 x)). unfold tick_thread. apply core_handoff.
    rewrite (norun_core _ _ (Hc4 x)). rewrite Hp3. pose proof (Hc3 x) as Hx. rewrite Hth2 in Hx.
    set (y := if x =? cur then _ else _) in *. set (z := if decide _ then _ else _) in *.
    assert (x = cur -> preempted z = preempted (th s cur)) as Hz.
    { intros Hxc. by rewrite <- (core_preempted _ _ Hx), Hxc. }
    clearbody z. destruct (Z.eqb_spec x cur) as [Hxc|]; [|exact Hx]. cbn [andb].
    rewrite (Hz Hxc). destruct (preempted _); [|exact Hx].
    exact (f_equal (set_state THREAD_READY) Hx).
  - rewrite Hst5. unfold statics in *. cbn. inversion Hst. by rewrite Hcc.
Qed.

(** ** The scheduler's invariant *)

(** [Q] is the run queue and [W] the sleep list. Queued threads are ready and
    on no CPU; a CPU's current thread is on that CPU only; the idle threads are
    never queued, and one waiting for the reaper is in no list and on no CPU. *)
Record sched_wf (s : sched) (Q W : list Z) : Prop := {
  wf_queue : queue s Q;
  wf_sleepers : sleepers s W;
  wf_nodup : NoDup (Q ++ W);
  wf_ready t : t ∈ Q ->
    state (th s t) = THREAD_READY /\ on_cpu (th s t) = false /\ is_idle (th s t) = false;
  wf_blocked t : t ∈ W ->
    state (th s t) = THREAD_BLOCKED /\ is_idle (th s t) = false /\
    (on_cpu (th s t) = true -> exists c, 0 <= c /\ current s c = t);
  wf_lengths :
    length (cpu_current s) = 64%nat /\ length (cpu_idle s) = 64%nat /\ length (reap_pending s) = 64%nat;
  wf_current c : 0 <= c -> current s c <> 0 ->
    on_cpu (th s (current s c)) = true /\ state (th s (current s c)) <> THREAD_READY /\
    (is_idle (th s (current s c)) = true ->
     current s c = idle s c /\ state (th s (current s c)) = THREAD_RUNNING);
  wf_current_inj c c' : 0 <= c -> 0 <= c' -> current s c <> 0 -> current s c = current s c' -> c = c';
  wf_idle c : 0 <= c -> idle s c <> 0 -> is_idle (th s (idle s c)) = true;
  wf_idle_inj c c' : 0 <= c -> 0 <= c' -> idle s c <> 0 -> idle s c = idle s c' -> c = c';
  wf_pending c : 0 <= c -> pending s c <> 0 ->
    (pending s c ∉ Q ++ W) /\ state (th s (pending s c)) = THREAD_DEAD /\
    is_idle (th s (pending s c)) = false /\ (forall c', 0 <= c' -> current s c' <> pending s c);
  wf_pending_inj c c' : 0 <= c -> 0 <= c' -> pending s c <> 0 -> pending s c = pending s c' -> c = c';
}.

(** No other CPU is still running a thread whose sleep ends at [now]. *)
Definition no_early_wake (s : sched) (cpu now : Z) (W : list Z) : Prop :=
  forall t c, t ∈ expired s now W -> 0 <= c -> c <> cpu -> current s c <> t.

Section tick.
Context (s : sched) (Q W : list Z) (cpu old_rsp now : Z) (s' : sched).
Let cur := current s cpu.
Let E := expired s now W.
Let Q' := tick_queue s now cur Q W.
Let next := tick_next s cpu Q'.
Context (Hwf : sched_wf s Q W) (Hcpu : 0 <= cpu < MAX_CPUS) (Hcur : cur <> 0) (Hidle : idle s cpu <> 0).
Context (Hrace : no_early_wake s cpu now W).

Lemma cur_not_queued : cur ∉ Q.
Proof.
  intros Hin. destruct (wf_ready _ _ _ Hwf _ Hin) as (_ & Hoff & _).
  destruct (wf_current _ _ _ Hwf cpu) as (Hon & _); [lia|done|]. unfold cur in Hoff. congruence.
Qed.

Lemma preempted_state : preempted (th s cur) = true ->
  state (th s cur) = THREAD_RUNNING /\ is_idle (th s cur) = false.
Proof. intros [H1%bool_decide_eq_true H2%negb_true_iff]%andb_prop. done. Qed.

Lemma tick_queue_in t : t ∈ Q' ->
  t ∈ Q \/ t ∈ E \/ (t = cur /\ preempted (th s cur) = true).
Proof.
  unfold Q', tick_queue. intros [H|[H|H]%elem_of_app]%elem_of_app; [by left|by right; left|].
  right. right. destruct (preempted (th s cur)); [|by apply elem_of_nil in H].
  by apply list_elem_of_singleton in H.
Qed.

Lemma expired_in t : t ∈ E -> t ∈ W.
Proof. by intros [_ H]%list_elem_of_filter. Qed.

Lemma tick_queue_nodup : NoDup (Q' ++ asleep s now W).
Proof.
  pose proof (wf_nodup _ _ _ Hwf) as Hnd. apply NoDup_app in Hnd as (HQ & Hd & HW).
  apply NoDup_app. split; [|split].
  - apply NoDup_app. split; [done|]. split.
    + intros t Ht [H|H]%elem_of_app; [apply (Hd t Ht); by apply expired_in|].
      destruct (preempted _); [|by apply elem_of_nil in H]. apply list_elem_of_singleton in H as ->.
      by apply cur_not_queued.
    + apply NoDup_app. split; [by apply NoDup_filter|]. split; [|destruct (preempted _); [apply NoDup_singleton|constructor]].
      intros t Ht H. destruct (preempted _) eqn:Hp; [|by apply elem_of_nil in H].
      apply list_elem_of_singleton in H as ->. apply preempted_state in Hp as [Hp _].
      apply expired_in in Ht. apply (wf_blocked _ _ _ Hwf) in Ht as [Ht _]. congruence.
  - intros t Ht [Hlt Hin]%list_elem_of_filter. apply tick_queue_in in Ht as [Ht|[Ht|[-> Hp]]].
    + by apply (Hd t).
    + apply list_elem_of_filter in Ht as [Hle _]. lia.
    + apply preempted_state in Hp as [Hp _]. apply (wf_blocked _ _ _ Hwf) in Hin as [Hin _]. congruence.
  - by apply NoDup_filter.
Qed.

(** No CPU but this one has a candidate of the tick as its current thread. *)
Lemma tick_queue_off t c : t ∈ Q' -> 0 <= c -> c <> cpu -> current s c <> t.
Proof.
  intros [Ht|[Ht|[-> Hp]]]%tick_queue_in Hc Hne Hct.
  - destruct (wf_ready _ _ _ Hwf _ Ht) as (_ & Hoff & _). subst t.
    destruct (wf_current _ _ _ Hwf c) as (Hon & _); [done| |congruence].
    by apply (queue_nonnull s Q); [apply Hwf|].
  - by apply (Hrace t c).
  - apply Hne. symmetry. apply (wf_current_inj _ _ _ Hwf); [lia|done|done|by unfold cur in Hct].
Qed.

Lemma tick_queue_not_idle t : t ∈ Q' -> is_idle (th s t) = false.
Proof.
  intros [Ht|[Ht|[-> Hp]]]%tick_queue_in.
  - by apply (wf_ready _ _ _ Hwf).
  - by apply (wf_blocked _ _ _ Hwf), expired_in.
  - by apply preempted_state.
Qed.

Lemma tick_next_cases : (next ∈ Q' /\ Q' = next :: tail Q') \/ (Q' = [] /\ next = idle s cpu).
Proof. unfold next, tick_next. destruct Q' as [|t l]; [by right|left]. split; [left|done]. Qed.

Lemma tick_next_off c : 0 <= c -> c <> cpu -> current s c <> next.
Proof.
  intros Hc Hne Hct. destruct tick_next_cases as [[Hin _]|[_ Hn]].
  - by apply (tick_queue_off next c).
  - rewrite Hn in Hct. destruct (wf_current _ _ _ Hwf c) as (_ & _ & Hi); [done|congruence|].
    rewrite Hct in Hi. destruct Hi as [Hi _]; [by apply (wf_idle _ _ _ Hwf); lia|].
    apply Hne. symmetry. apply (wf_idle_inj _ _ _ Hwf); [lia|done|done|done].
Qed.

Context (Hpend : pending s cpu = 0).
Context (Hq' : queue s' (tail Q')) (Hs' : sleepers s' (asleep s now W)).
Context (Hc' : forall x, core (th s' x) = core (tick_thread cur next old_rsp E x (th s x))).
Context (Hst' : (cpu_current s', cpu_idle s', reap_pending s') =
  (aset (cpu_current s) cpu next, cpu_idle s,
   if bool_decide (state (th s cur) = THREAD_DEAD) then aset (reap_pending s) cpu cur else reap_pending s)).

Lemma tick_is_idle x : is_idle (th s' x) = is_idle (th s x).
Proof.
  destruct (core_fields _ _ (Hc' x)) as (_ & _ & -> & _). unfold tick_thread, handoff.
  destruct (x =? cur), (decide (x ∈ E)), (x =? next), (preempted _); done.
Qed.

Lemma tick_on_cpu x :
  on_cpu (th s' x) = if x =? next then true else if x =? cur then false else on_cpu (th s x).
Proof.
  destruct (core_fields _ _ (Hc' x)) as (_ & -> & _). unfold tick_thread, handoff.
  destruct (x =? next), (x =? cur), (decide (x ∈ E)), (preempted _); done.
Qed.

(** The state of a thread the tick neither chooses, wakes nor preempts. *)
Lemma tick_state_same x : x <> next -> x ∉ E -> (x = cur -> preempted (th s cur) = false) ->
  state (th s' x) = state (th s x).
Proof.
  intros Hn He Hp. destruct (core_fields _ _ (Hc' x)) as (-> & _). unfold tick_thread, handoff.
  rewrite decide_False by done. destruct (Z.eqb_spec x next); [done|].
  destruct (Z.eqb_spec x cur) as [->|]; [|done]. cbn [andb].
  change (preempted (set_rsp old_rsp (th s cur))) with (preempted (th s cur)). by rewrite Hp.
Qed.

Lemma tick_state_ready x : x <> next -> x ∈ E \/ (x = cur /\ preempted (th s cur) = true) ->
  state (th s' x) = THREAD_READY.
Proof.
  intros Hn Hor. destruct (core_fields _ _ (Hc' x)) as (-> & _). unfold tick_thread, handoff.
  destruct (Z.eqb_spec x next); [done|]. destruct (decide (x ∈ E)) as [|He].
  - by destruct (x =? cur), (preempted _).
  - destruct Hor as [?|[-> Hp]]; [done|]. rewrite Z.eqb_refl. cbn [andb].
    change (preempted (set_rsp old_rsp (th s cur))) with (preempted (th s cur)). by rewrite Hp.
Qed.

Lemma tick_state_next : state (th s' next) = THREAD_RUNNING.
Proof.
  destruct (core_fields _ _ (Hc' next)) as (-> & _). unfold tick_thread, handoff. by rewrite Z.eqb_refl.
Qed.

Lemma tick_current c : 0 <= c -> current s' c = if c =? cpu then next else current s c.
Proof.
  intros Hc. injection Hst' as E1 _ _. unfold current. rewrite E1.
  destruct (wf_lengths _ _ _ Hwf) as (Hl & _). unfold MAX_CPUS in Hcpu.
  destruct (Z.eqb_spec c cpu) as [->|]; [apply aget_aset_eq; lia|apply aget_aset_ne; lia].
Qed.

Lemma tick_idle c : idle s' c = idle s c.
Proof. injection Hst' as _ E2 _. unfold idle. by rewrite E2. Qed.

Lemma tick_pending c : 0 <= c -> pending s' c <> 0 ->
  (c = cpu /\ pending s' c = cur /\ state (th s cur) = THREAD_DEAD) \/
  (c <> cpu /\ pending s' c = pending s c).
Proof.
  intros Hc. injection Hst' as _ _ E3. unfold pending in *. rewrite E3.
  destruct (wf_lengths _ _ _ Hwf) as (_ & _ & Hl). unfold MAX_CPUS in Hcpu.
  destruct (Z.eq_dec c cpu) as [->|]; case_bool_decide; intros Hn.
  - left. rewrite aget_aset_eq by lia. done.
  - done.
  - right. rewrite aget_aset_ne by lia. done.
  - by right.
Qed.

Lemma cur_state : state (th s cur) <> THREAD_READY /\ on_cpu (th s cur) = true.
Proof. destruct (wf_current _ _ _ Hwf cpu) as (H1 & H2 & _); [lia|done|]. done. Qed.

(** A dead outgoing thread is out of everything the tick chooses from. *)
Lemma dead_cur_out : state (th s cur) = THREAD_DEAD ->
  (cur ∉ Q') /\ (cur ∉ W) /\ cur <> next /\ is_idle (th s cur) = false /\ preempted (th s cur) = false.
Proof.
  intros Hd.
  assert (cur ∉ W) as HW. { intros [H _]%(wf_blocked _ _ _ Hwf). congruence. }
  assert (preempted (th s cur) = false) as Hp by (unfold preempted; by rewrite Hd).
  assert (cur ∉ Q') as HQ'.
  { intros [H|[H|[_ H]]]%tick_queue_in; [by apply cur_not_queued|by apply HW, expired_in|congruence]. }
  assert (is_idle (th s cur) = false) as Hi.
  { destruct (is_idle (th s cur)) eqn:Hi; [|done].
    destruct (wf_current _ _ _ Hwf cpu) as (_ & _ & H); [lia|done|].
    destruct (H Hi) as [_ H']. unfold cur in Hd. congruence. }
  split; [done|split; [done|split; [|done]]]. intros Hn.
  destruct tick_next_cases as [[Hin _]|[_ Hid]]; [congruence|].
  rewrite Hn, Hid, (wf_idle _ _ _ Hwf) in Hi by lia. done.
Qed.

Lemma tick_tail t : t ∈ tail Q' -> t ∈ Q' /\ t <> next.
Proof.
  pose proof tick_queue_nodup as Hnd. apply NoDup_app in Hnd as (Hnd & _).
  destruct tick_next_cases as [[_ HQ']|[HQ' _]]; rewrite HQ' in *; simpl; [|by intros ?%elem_of_nil].
  intros Ht. split; [by right|]. intros ->. by apply NoDup_cons in Hnd as [? _].
Qed.

Lemma asleep_facts t : t ∈ asleep s now W -> t ∈ W /\ (t ∉ E) /\ t <> next.
Proof.
  intros Ht. pose proof Ht as [Hlt Hin]%list_elem_of_filter.
  split; [done|]. split; [intros [? _]%list_elem_of_filter; lia|]. intros ->.
  pose proof tick_queue_nodup as Hnd. apply NoDup_app in Hnd as (_ & Hd & _).
  destruct tick_next_cases as [[Hn _]|[_ Hn]]; [by apply (Hd next)|].
  destruct (wf_blocked _ _ _ Hwf _ Hin) as (_ & Hi & _). rewrite Hn, (wf_idle _ _ _ Hwf) in Hi by lia. done.
Qed.

Lemma tick_ready t : t ∈ tail Q' ->
  state (th s' t) = THREAD_READY /\ on_cpu (th s' t) = false /\ is_idle (th s' t) = false.
Proof.
  intros [Ht Hn]%tick_tail. rewrite tick_is_idle, tick_on_cpu.
  split; [|split; [|by apply tick_queue_not_idle]].
  - pose proof (tick_queue_in _ Ht) as [HQ|Hor]; [|by apply tick_state_ready].
    destruct (decide (t ∈ E)) as [|He]; [apply tick_state_ready; [done|by left]|].
    rewrite tick_state_same; [by apply (wf_ready _ _ _ Hwf)|done|done|].
    intros ->. by destruct cur_not_queued.
  - destruct (Z.eqb_spec t next); [done|]. destruct (Z.eqb_spec t cur) as [|Hcn]; [done|].
    pose proof (tick_queue_in _ Ht) as [HQ|[He|[? _]]]; [by apply (wf_ready _ _ _ Hwf)| |done].
    destruct (on_cpu (th s t)) eqn:Hon; [|done].
    destruct (wf_blocked _ _ _ Hwf t (expired_in _ He)) as (_ & _ & H). destruct (H Hon) as (c & Hc & Hct).
    destruct (Z.eq_dec c cpu) as [->|]; [by destruct Hcn|]. by destruct (Hrace t c).
Qed.

Lemma tick_blocked t : t ∈ asleep s now W ->
  state (th s' t) = THREAD_BLOCKED /\ is_idle (th s' t) = false /\
  (on_cpu (th s' t) = true -> exists c, 0 <= c /\ current s' c = t).
Proof.
  intros (HW & He & Hn)%asleep_facts. destruct (wf_blocked _ _ _ Hwf _ HW) as (Hb & Hi & Hon).
  rewrite tick_is_idle, tick_on_cpu. split; [|split; [done|]].
  - rewrite tick_state_same; [done..|]. intros ->. unfold preempted. by rewrite Hb.
  - destruct (Z.eqb_spec t next); [done|]. destruct (Z.eqb_spec t cur) as [|Hcn]; [done|].
    intros (c & Hc & Hct)%Hon. exists c. split; [done|]. rewrite tick_current by done.
    destruct (Z.eqb_spec c cpu) as [->|]; [by destruct Hcn|done].
Qed.

Lemma tick_current_ok c : 0 <= c -> current s' c <> 0 ->
  on_cpu (th s' (current s' c)) = true /\ state (th s' (current s' c)) <> THREAD_READY /\
  (is_idle (th s' (current s' c)) = true ->
   current s' c = idle s' c /\ state (th s' (current s' c)) = THREAD_RUNNING).
Proof.
  intros Hc Hn0. rewrite tick_current in * by done. rewrite tick_on_cpu, tick_is_idle, tick_idle.
  destruct (Z.eqb_spec c cpu) as [->|Hne].
  - rewrite Z.eqb_refl, tick_state_next. split; [done|split; [done|]]. intros Hi. split; [|done].
    destruct tick_next_cases as [[Hin _]|[_ ?]]; [|done].
    rewrite (tick_queue_not_idle _ Hin) in Hi. done.
  - pose proof (tick_next_off c Hc Hne) as Hnx.
    destruct (wf_current _ _ _ Hwf c Hc Hn0) as (H1 & H2 & H3).
    assert (current s c <> cur) as Hcc.
    { intros Heq. apply Hne. by apply (wf_current_inj _ _ _ Hwf); [|lia|..]. }
    destruct (Z.eqb_spec (current s c) next); [done|]. destruct (Z.eqb_spec (current s c) cur); [done|].
    rewrite tick_state_same; [done|done| |done].
    intros He. by apply (Hrace _ c He).
Qed.

Lemma tick_current_inj c c' : 0 <= c -> 0 <= c' -> current s' c <> 0 -> current s' c = current s' c' -> c = c'.
Proof.
  intros Hc Hc2. rewrite !tick_current by done.
  destruct (Z.eqb_spec c cpu) as [->|Hne], (Z.eqb_spec c' cpu) as [->|Hne']; intros Hn0 Heq.
  - done.
  - by destruct (tick_next_off c' Hc2 Hne').
  - by destruct (tick_next_off c Hc Hne).
  - by apply (wf_current_inj _ _ _ Hwf).
Qed.

Lemma tick_pending_ok c : 0 <= c -> pending s' c <> 0 ->
  (pending s' c ∉ tail Q' ++ asleep s now W) /\ state (th s' (pending s' c)) = THREAD_DEAD /\
  is_idle (th s' (pending s' c)) = false /\ (forall c', 0 <= c' -> current s' c' <> pending s' c).
Proof.
  intros Hc Hn0. rewrite tick_is_idle.
  destruct (tick_pending c Hc Hn0) as [(-> & -> & Hd)|[Hne Hp]].
  - destruct (dead_cur_out Hd) as (HQ' & HW & Hnx & Hi & Hp).
    split; [intros [[? _]%tick_tail|[? _]%asleep_facts]%elem_of_app; done|].
    split; [rewrite tick_state_same; [done..|by intros ?%expired_in|done]|]. split; [done|].
    intros c' Hc2. rewrite tick_current by done. destruct (Z.eqb_spec c' cpu) as [->|Hne]; [done|].
    intros Heq. apply Hne. symmetry. apply (wf_current_inj _ _ _ Hwf); [lia|done|done|by symmetry].
  - rewrite Hp in *. destruct (wf_pending _ _ _ Hwf c Hc Hn0) as (Hout & Hd & Hi & Hcu).
    assert (pending s c <> cur) as Hpc. { intros Heq. symmetry in Heq. by apply (Hcu cpu); [lia|]. }
    assert (pending s c ∉ Q') as HQ'.
    { intros [H|[H%expired_in|[H _]]]%tick_queue_in; [| |done]; apply Hout, elem_of_app; auto. }
    assert (pending s c <> next) as Hnx.
    { intros Heq. destruct tick_next_cases as [[Hin _]|[_ Hn]]; [congruence|].
      rewrite Heq, Hn, (wf_idle _ _ _ Hwf) in Hi by lia. done. }
    split; [intros [[? _]%tick_tail|[? _]%asleep_facts]%elem_of_app; [done|apply Hout, elem_of_app; by right]|].
    split; [|split; [done|]].
    + rewrite tick_state_same; [done|done| |done]. intros ?%expired_in. apply Hout, elem_of_app. by right.
    + intros c' Hc2. rewrite tick_current by done. destruct (c' =? cpu); [by symmetry|by apply Hcu].
Qed.

Lemma tick_wf : sched_wf s' (tail Q') (asleep s now W).
Proof.
  constructor; [exact Hq'|exact Hs'| |exact tick_ready|exact tick_blocked| |exact tick_current_ok|
    exact tick_current_inj| | |exact tick_pending_ok|].
  - pose proof tick_queue_nodup as Hnd. destruct tick_next_cases as [[_ HQ']|[HQ' _]]; rewrite HQ' in *; [|done].
    simpl in *. by apply NoDup_cons in Hnd as [_ ?].
  - destruct (wf_lengths _ _ _ Hwf) as (H1 & H2 & H3). injection Hst' as -> -> ->.
    rewrite aset_length. split; [done|split; [done|]]. case_bool_decide; by rewrite ?aset_length.
  - intros c Hc. rewrite tick_is_idle, tick_idle. by apply (wf_idle _ _ _ Hwf).
  - intros c c' Hc Hc2. rewrite !tick_idle. by apply (wf_idle_inj _ _ _ Hwf).
  - intros c c' Hc Hc2 Hn0 Heq. assert (pending s' c' <> 0) as Hn0' by congruence.
    destruct (tick_pending c Hc Hn0) as [(-> & Hp & Hd)|[Hne Hp]],
      (tick_pending c' Hc2 Hn0') as [(-> & Hp' & Hd')|[Hne' Hp']]; [done|..].
    + destruct (wf_pending _ _ _ Hwf c') as (_ & _ & _ & H); [done|congruence|]. destruct (H cpu); [lia|]. fold cur. congruence.
    + destruct (wf_pending _ _ _ Hwf c) as (_ & _ & _ & H); [done|congruence|]. destruct (H cpu); [lia|]. fold cur. congruence.
    + apply (wf_pending_inj _ _ _ Hwf); [done|done|congruence|congruence].
Qed.

End tick.

(** ** The operations preserve the invariant *)

(** The invariant only looks at these fields. *)
Definition same_view (t t' : thread) : Prop :=
  state t' = state t /\ on_cpu t' = on_cpu t /\ is_idle t' = is_idle t /\
  run_next t' = run_next t /\ sleep_next t' = sleep_next t.

Lemma sched_wf_ext s s' Q W :
  sched_wf s Q W -> (forall x, same_view (th s x) (th s' x)) ->
  (rq_head s', rq_tail s', sleep_head s', cpu_current s', cpu_idle s') =
  (rq_head s, rq_tail s, sleep_head s, cpu_current s, cpu_idle s) ->
  length (reap_pending s') = 64%nat ->
  (forall c, 0 <= c -> pending s' c <> 0 -> pending s' c = pending s c) ->
  sched_wf s' Q W.
Proof.
  intros Hwf Hv Heq Hlen Hp. injection Heq as E1 E2 E3 E4 E5.
  assert (forall c, current s' c = current s c) as Hcu by (intros; unfold current; by rewrite E4).
  assert (forall c, idle s' c = idle s c) as Hid by (intros; unfold idle; by rewrite E5).
  constructor.
  - apply (queue_ext s); [intros x _; apply Hv|done..|apply Hwf].
  - apply (sleepers_ext s); [intros x _; apply Hv|done..|apply Hwf].
  - apply Hwf.
  - intros t Ht. destruct (Hv t) as (-> & -> & -> & _). by apply (wf_ready _ _ _ Hwf).
  - intros t Ht. destruct (Hv t) as (-> & -> & -> & _). destruct (wf_blocked _ _ _ Hwf t Ht) as (? & ? & Hon).
    split; [done|split; [done|]]. intros (c & Hc & Hct)%Hon. exists c. by rewrite Hcu.
  - rewrite E4, E5. split; [|split; [|done]]; apply (wf_lengths _ _ _ Hwf).
  - intros c. rewrite Hcu, Hid. destruct (Hv (current s c)) as (-> & -> & -> & _). apply (wf_current _ _ _ Hwf).
  - intros c c'. rewrite !Hcu. apply (wf_current_inj _ _ _ Hwf).
  - intros c. rewrite Hid. destruct (Hv (idle s c)) as (_ & _ & -> & _). apply (wf_idle _ _ _ Hwf).
  - intros c c'. rewrite !Hid. apply (wf_idle_inj _ _ _ Hwf).
  - intros c Hc Hn. pose proof Hn as Hn'. rewrite (Hp c) in * by done.
    destruct (Hv (pending s c)) as (-> & _ & -> & _).
    destruct (wf_pending _ _ _ Hwf c Hc Hn') as (? & ? & ? & H). split; [done|split; [done|split; [done|]]].
    intros c' Hc2. rewrite Hcu. by apply H.
  - intros c c' Hc Hc2 Hn Heq'. assert (pending s' c' <> 0) as Hn2 by congruence.
    pose proof (Hp c Hc Hn). pose proof (Hp c' Hc2 Hn2).
    apply (wf_pending_inj _ _ _ Hwf); [done|done|congruence|congruence].
Qed.

Lemma reap_wf cpu s s1 Q W :
  0 <= cpu < MAX_CPUS -> sched_wf s Q W -> reap cpu s = Ok (tt, s1) ->
  sched_wf s1 Q W /\ pending s1 cpu = 0.
Proof.
  intros Hc Hwf Hr. destruct (reap_frame _ _ _ Hr) as (E & Hp & _ & Hx).
  destruct (wf_lengths _ _ _ Hwf) as (_ & _ & Hl). unfold MAX_CPUS in Hc.
  assert (forall c, 0 <= c -> pending s1 c = if c =? cpu then 0 else pending s c) as Hps.
  { intros c Hc'. unfold pending at 1. rewrite Hp. destruct (Z.eqb_spec (pending s cpu) 0) as [Hz|Hz].
    - by destruct (Z.eqb_spec c cpu) as [->|].
    - destruct (Z.eqb_spec c cpu) as [->|]; [apply aget_aset_eq; lia|apply aget_aset_ne; lia]. }
  split; [|by rewrite Hps, Z.eqb_refl by lia].
  apply (sched_wf_ext s); [done| | | |].
  - intros x. specialize (Hx x). repeat split.
    + exact (f_equal state Hx).
    + exact (f_equal on_cpu Hx).
    + exact (f_equal is_idle Hx).
    + exact (f_equal run_next Hx).
    + exact (f_equal sleep_next Hx).
  - injection E as -> -> -> _ -> -> _ _. done.
  - rewrite Hp. destruct (_ =? 0); by rewrite ?aset_length.
  - intros c Hc'. rewrite Hps by done. by destruct (c =? cpu).
Qed.

(** What the tick looks at is not changed by the reaper. *)
Lemma reap_tick_queue cpu s s1 now cur Q W :
  reap cpu s = Ok (tt, s1) ->
  expired s1 now W = expired s now W /\ asleep s1 now W = asleep s now W /\
  tick_queue s1 now cur Q W = tick_queue s now cur Q W.
Proof.
  intros Hr. destruct (reap_frame _ _ _ Hr) as (_ & _ & _ & Hx).
  assert (forall x, sleep_deadline (th s1 x) = sleep_deadline (th s x)) as Hd.
  { intros x. exact (f_equal sleep_deadline (Hx x)). }
  assert (expired s1 now W = expired s now W) as He.
  { unfold expired. apply list_filter_iff. intros x. by rewrite Hd. }
  split; [done|]. split; [unfold asleep; apply list_filter_iff; intros x; by rewrite Hd|].
  unfold tick_queue. rewrite He. do 2 f_equal. unfold preempted.
  change (state (th s1 cur)) with (state (set_cr3 0 (th s1 cur))).
  change (is_idle (th s1 cur)) with (is_idle (set_cr3 0 (th s1 cur))). by rewrite Hx.
Qed.

(** The part of the tick behind the reaper. *)
Lemma tick_lists_wf fuel cpu old_rsp s Q W :
  sched_wf s Q W -> 0 <= cpu < MAX_CPUS -> current s cpu <> 0 -> idle s cpu <> 0 ->
  (length W < fuel)%nat -> pending s cpu = 0 ->
  let now := u64 (g_ticks s + 1) in
  let cur := current s cpu in
  let Q' := tick_queue s now cur Q W in
  let next := tick_next s cpu Q' in
  no_early_wake s cpu now W ->
  exists s', tick_lists fuel cpu cur old_rsp s = Some (next, s') /\
    sched_wf s' (tail Q') (asleep s now W) /\
    (forall x, rsp (th s' x) = if x =? cur then old_rsp else rsp (th s x)) /\
    g_ticks s' = now /\ cpu_current s' = aset (cpu_current s) cpu next /\ hw_cr3 s' = hw_cr3 s /\
    (forall x, sleep_deadline (th s' x) = sleep_deadline (th s x)).
Proof.
  intros Hwf Hcpu Hcur Hidle Hf Hp now cur Q' next Hrace.
  destruct (tick_lists_spec fuel cpu cur old_rsp s Q W) as (s5 & Ht & Hq5 & Hs5 & Hc5 & Hst5);
    [done|apply Hwf|apply Hwf|apply Hwf|done| |apply Hwf|].
  { intros Hin. by destruct (cur_not_queued s Q W cpu 0 Hwf Hcpu Hcur). }
  fold now in Ht, Hq5, Hs5, Hc5, Hst5. fold Q' in Ht, Hq5, Hc5, Hst5. fold next in Ht, Hc5, Hst5.
  unfold statics in Hst5. injection Hst5 as E1 E2 E3 E4 _ _ _ E5 _.
  exists s5. split; [done|]. split; [|split; [|do 3 (split; [done|])]].
  - apply (tick_wf s Q W cpu old_rsp now s5); try done. fold cur Q' next. congruence.
  - intros x. destruct (core_fields _ _ (Hc5 x)) as (_ & _ & _ & -> & _). unfold tick_thread, handoff.
    destruct (x =? cur), (decide (x ∈ expired s now W)), (x =? next), (preempted _); done.
  - intros x. destruct (core_fields _ _ (Hc5 x)) as (_ & _ & _ & _ & -> & _). unfold tick_thread, handoff.
    destruct (x =? cur), (decide (x ∈ expired s now W)), (x =? next), (preempted _); done.
Qed.

Lemma enter_th cpu next s : th (enter cpu next s) = th s.
Proof. unfold enter. by destruct (_ && _). Qed.

Lemma enter_wf cpu next s Q W : sched_wf s Q W -> sched_wf (enter cpu next s) Q W.
Proof.
  intros Hwf. apply (sched_wf_ext s); [done|intros x; by rewrite enter_th|..];
    unfold enter; destruct (_ && _); try done; apply (wf_lengths _ _ _ Hwf).
Qed.

(** The timer tick. From a state in the invariant it returns, with
    fuel beyond the length of the sleep list: the threads whose deadline has
    passed join the run queue in order, then the preempted thread; the oldest
    entry runs next, or the CPU's idle thread when there is none; the outgoing
    context is saved, the incoming one returned, its address space (or the
    kernel's) loaded, and the invariant holds again. The hypothesis
    [no_early_wake] excludes the wake-up described with
    [sleep_expiry_runs_thread_twice]. *)
Theorem sched_tick_correct fuel cpu old_rsp s s1 Q W :
  sched_wf s Q W -> 0 <= cpu < MAX_CPUS -> current s cpu <> 0 -> idle s cpu <> 0 ->
  (length W < fuel)%nat -> reap cpu s = Ok (tt, s1) ->
  let now := u64 (g_ticks s + 1) in
  let cur := current s cpu in
  let Q' := tick_queue s now cur Q W in
  let next := tick_next s cpu Q' in
  no_early_wake s cpu now W -> length (hw_cr3 s) = 64%nat ->
  exists s', sched_tick fuel cpu old_rsp s = Ok (if next =? cur then old_rsp else rsp (th s next), s') /\
    sched_wf s' (tail Q') (asleep s now W) /\
    g_ticks s' = now /\ rsp (th s' cur) = old_rsp /\
    (forall c, 0 <= c -> current s' c = if c =? cpu then next else current s c) /\
    aget 0 (hw_cr3 s') cpu =
      (if is_user (th s' next) && negb (cr3 (th s' next) =? 0) then cr3 (th s' next)
       else vmm_pml4_phys (back (kh s'))).
Proof.
  intros Hwf Hcpu Hcur Hidle Hf Hr now cur Q' next Hrace Hl.
  destruct (reap_wf _ _ _ _ _ Hcpu Hwf Hr) as [Hwf1 Hp1].
  destruct (reap_frame _ _ _ Hr) as (E & _ & _ & Hx). injection E as _ _ _ Eg Ec Ei _ Eh.
  destruct (reap_tick_queue cpu s s1 now cur Q W Hr) as (He & Ha & HQ').
  assert (forall c, current s1 c = current s c) as Hcu by (intros; unfold current; by rewrite Ec).
  assert (idle s1 cpu = idle s cpu) as Hid1 by (unfold idle; by rewrite Ei).
  assert (tick_next s1 cpu Q' = next) as Hn1 by (unfold next, tick_next; by rewrite Hid1).
  destruct (tick_lists_wf fuel cpu old_rsp s1 Q W) as (s5 & Ht & Hwf5 & Hrsp & Hg & Hc5 & Hcr & _);
    [done|done|by rewrite Hcu|by rewrite Hid1|done|done| |].
  { intros t c. rewrite Eg, Hcu. fold now. rewrite He. apply Hrace. }
  pose proof (sched_tick_unfold _ _ _ _ _ _ _ Hcpu Hr Ht) as Htick.
  rewrite Eg in *. rewrite (Hcu cpu) in *. fold now cur in Htick, Hwf5, Hrsp, Hg, Hc5. rewrite HQ', Ha in *.
  fold Q' in Htick, Hwf5, Hc5. rewrite Hn1 in *.
  assert (rsp (th s1 next) = rsp (th s next)) as Hrn by exact (f_equal rsp (Hx next)).
  exists (enter cpu next s5). split; [rewrite Htick, Hrsp, Hrn; done|].
  split; [by apply enter_wf|]. rewrite enter_th. split; [|split; [|split]].
  - unfold enter. by destruct (_ && _).
  - by rewrite Hrsp, Z.eqb_refl.
  - intros c Hc. unfold current. destruct (wf_lengths _ _ _ Hwf) as (Hlc & _). unfold MAX_CPUS in Hcpu.
    replace (cpu_current (enter cpu next s5)) with (cpu_current s5) by (unfold enter; by destruct (_ && _)).
    rewrite Hc5, Ec. destruct (Z.eqb_spec c cpu) as [->|]; [apply aget_aset_eq; lia|apply aget_aset_ne; lia].
  - unfold MAX_CPUS in Hcpu. unfold enter. destruct (_ && _); cbn [hw_cr3 with_hw_cr3 kh];
      apply aget_aset_eq; cbn [hw_cr3 with_hw_rsp0]; rewrite Hcr, Eh; lia.
Qed.

(** ** The other operations *)

(** [t] is a thread that is in no list, on no CPU and not waiting to be freed. *)
Definition unlisted (s : sched) (Q W : list Z) (t : Z) : Prop :=
  t <> 0 /\ (t ∉ Q ++ W) /\ on_cpu (th s t) = false /\ is_idle (th s t) = false /\
  (forall c, 0 <= c -> pending s c <> t).

(** [s0] is [s] with the thread made ready. *)
Lemma rq_add_wf s s0 Q W t :
  sched_wf s Q W -> unlisted s Q W t -> (forall x, x <> t -> th s0 x = th s x) ->
  state (th s0 t) = THREAD_READY /\ on_cpu (th s0 t) = false /\ is_idle (th s0 t) = false ->
  (rq_head s0, rq_tail s0, sleep_head s0) = (rq_head s, rq_tail s, sleep_head s) -> statics s0 = statics s ->
  sched_wf (rq_add t s0) (Q ++ [t]) W.
Proof.
  intros Hwf (Ht0 & Hout & Hoff & Hni & Hnp) Hsame Hnew Heq Est0. injection Heq as E1 E2 E3.
  assert ((t ∉ Q) /\ (t ∉ W)) as [HQ HW] by (split; intros H; apply Hout, elem_of_app; auto).
  assert (queue s0 Q) as Hq0.
  { apply (queue_ext s); [|done..|apply Hwf]. intros x Hx. rewrite Hsame; [done|by intros ->]. }
  destruct (rq_add_spec s0 Q t Hq0 Ht0 HQ) as (Hq & Hth & Hsh & Hst).
  revert Hq Hth Hsh Hst. generalize (rq_add t s0) as s'. intros s' Hq Hth Hsh Hst.
  assert (forall x, state (th s' x) = state (th s0 x) /\ on_cpu (th s' x) = on_cpu (th s0 x) /\
    is_idle (th s' x) = is_idle (th s0 x)) as Hv0.
  { intros x. by destruct (core_fields _ _ (norun_core _ _ (Hth x))) as (-> & -> & -> & _). }
  assert (forall x, x <> t -> state (th s' x) = state (th s x) /\ on_cpu (th s' x) = on_cpu (th s x) /\
    is_idle (th s' x) = is_idle (th s x)) as Hv.
  { intros x Hx. rewrite <- Hsame by done. apply Hv0. }
  assert (statics s' = statics s) as Hs' by congruence.
  unfold statics in Hs'. injection Hs' as _ F1 F2 F3 _ _ _ _ _.
  assert (forall c, current s' c = current s c) as Hcu by (intros; unfold current; by rewrite F1).
  assert (forall c, idle s' c = idle s c) as Hid by (intros; unfold idle; by rewrite F2).
  assert (forall c, pending s' c = pending s c) as Hpe by (intros; unfold pending; by rewrite F3).
  assert (forall c, 0 <= c -> current s c <> t) as Hnc.
  { intros c Hc Hct. destruct (wf_current _ _ _ Hwf c Hc) as (H & _); congruence. }
  assert (forall c, 0 <= c -> idle s c <> t) as Hnid.
  { intros c Hc Hct. pose proof (wf_idle _ _ _ Hwf c Hc) as H. rewrite Hct in H. rewrite H in Hni; congruence. }
  constructor.
  - done.
  - apply (sleepers_ext s); [|congruence|apply Hwf]. intros x Hx.
    rewrite (norun_fields _ _ (Hth x)), Hsame; [done|by intros ->].
  - rewrite <- app_assoc. apply NoDup_app. pose proof (wf_nodup _ _ _ Hwf) as (H1 & H2 & H3)%NoDup_app.
    split; [done|]. split; [|by apply NoDup_cons].
    intros x Hx [->|H]%elem_of_cons; [done|by apply (H2 x)].
  - intros x [Hx| ->%list_elem_of_singleton]%elem_of_app.
    + destruct (Hv x) as (-> & -> & ->); [by intros ->|]. by apply (wf_ready _ _ _ Hwf).
    + by destruct (Hv0 t) as (-> & -> & ->).
  - intros x Hx. destruct (Hv x) as (-> & -> & ->); [by intros ->|].
    destruct (wf_blocked _ _ _ Hwf x Hx) as (? & ? & Hon).
    split; [done|split; [done|]]. intros (c & Hc & Hct)%Hon. exists c. by rewrite Hcu.
  - rewrite F1, F2, F3. apply Hwf.
  - intros c Hc. rewrite Hcu, Hid. destruct (Hv (current s c)) as (-> & -> & ->); [by apply Hnc|].
    by apply (wf_current _ _ _ Hwf).
  - intros c c'. rewrite !Hcu. apply Hwf.
  - intros c Hc. rewrite Hid. destruct (Hv (idle s c)) as (_ & _ & ->); [by apply Hnid|].
    by apply (wf_idle _ _ _ Hwf).
  - intros c c'. rewrite !Hid. apply Hwf.
  - intros c Hc. rewrite Hpe. destruct (Hv (pending s c)) as (-> & _ & ->); [by apply Hnp|]. intros Hn.
    destruct (wf_pending _ _ _ Hwf c Hc Hn) as (Hin & ? & ? & H). split; [|split; [done|split; [done|]]].
    + rewrite <- app_assoc. intros [?|[?|?]%elem_of_cons]%elem_of_app; [apply Hin, elem_of_app; auto|
        by apply (Hnp c)|apply Hin, elem_of_app; auto].
    + intros c' Hc'. rewrite Hcu. by apply H.
  - intros c c'. rewrite !Hpe. apply Hwf.
Qed.

(** A running thread that is not idle leaves the running state. *)
Lemma current_update_wf s s' Q W W' c0 :
  sched_wf s Q W -> 0 <= c0 ->
  let t := current s c0 in
  t <> 0 -> is_idle (th s t) = false -> t ∉ Q ->
  (forall x, x <> t -> same_view (th s x) (th s' x)) ->
  is_idle (th s' t) = false -> on_cpu (th s' t) = true -> run_next (th s' t) = run_next (th s t) ->
  state (th s' t) <> THREAD_READY ->
  (rq_head s', rq_tail s', cpu_current s', cpu_idle s', reap_pending s') =
  (rq_head s, rq_tail s, cpu_current s, cpu_idle s, reap_pending s) ->
  sleepers s' W' -> (forall x, x ∈ W' -> x ∈ W /\ x <> t \/ x = t /\ state (th s' t) = THREAD_BLOCKED) ->
  sched_wf s' Q W'.
Proof.
  intros Hwf Hc0 t Ht0 Hni HtQ Hv Hi Hon Hrn Hst Heq Hs' HW'. injection Heq as E1 E2 E3 E4 E5.
  assert (forall c, current s' c = current s c) as Hcu by (intros; unfold current; by rewrite E3).
  assert (forall c, idle s' c = idle s c) as Hid by (intros; unfold idle; by rewrite E4).
  assert (forall c, pending s' c = pending s c) as Hpe by (intros; unfold pending; by rewrite E5).
  assert (forall c, 0 <= c -> idle s c <> 0 -> idle s c <> t) as Hnid.
  { intros c Hc Hn Ht. pose proof (wf_idle _ _ _ Hwf c Hc Hn) as H. rewrite Ht in H. congruence. }
  assert (forall c, 0 <= c -> pending s c <> 0 -> pending s c <> t) as Hnp.
  { intros c Hc Hn Ht. destruct (wf_pending _ _ _ Hwf c Hc Hn) as (_ & _ & _ & H). by destruct (H c0). }
  constructor.
  - apply (queue_ext s); [|done..|apply Hwf]. intros x Hx. apply Hv. by intros ->.
  - done.
  - pose proof (wf_nodup _ _ _ Hwf) as (H1 & H2 & H3)%NoDup_app.
    apply NoDup_app. split; [done|]. split; [|apply Hs'].
    intros x Hx [[? _]|[-> _]]%HW'; [by apply (H2 x)|done].
  - intros x Hx. destruct (Hv x) as (-> & -> & -> & _); [by intros ->|]. by apply (wf_ready _ _ _ Hwf).
  - intros x Hx. destruct (HW' x Hx) as [[Hin Hne]|[-> Hb]].
    + destruct (Hv x Hne) as (-> & -> & -> & _). destruct (wf_blocked _ _ _ Hwf x Hin) as (? & ? & H).
      split; [done|split; [done|]]. intros (c & Hc & Hct)%H. exists c. by rewrite Hcu.
    + split; [done|split; [done|]]. intros _. exists c0. by rewrite Hcu.
  - rewrite E3, E4, E5. apply Hwf.
  - intros c Hc. rewrite Hcu, Hid. intros Hn. destruct (Z.eq_dec (current s c) t) as [->|Hne].
    + split; [done|split; [done|congruence]].
    + destruct (Hv _ Hne) as (-> & -> & -> & _). by apply (wf_current _ _ _ Hwf).
  - intros c c'. rewrite !Hcu. apply Hwf.
  - intros c Hc. rewrite Hid. intros Hn. destruct (Hv (idle s c)) as (_ & _ & -> & _); [by apply Hnid|].
    by apply (wf_idle _ _ _ Hwf).
  - intros c c'. rewrite !Hid. apply Hwf.
  - intros c Hc. rewrite Hpe. intros Hn. pose proof (Hnp c Hc Hn) as Hne.
    destruct (Hv _ Hne) as (-> & _ & -> & _). destruct (wf_pending _ _ _ Hwf c Hc Hn) as (Hin & ? & ? & H).
    split; [|split; [done|split; [done|]]].
    + intros [?|[[? _]|[? _]]%HW']%elem_of_app; [apply Hin, elem_of_app; auto..|done].
    + intros c' Hc'. rewrite Hcu. by apply H.
  - intros c c'. rewrite !Hpe. apply Hwf.
Qed.

Lemma running_unlisted s Q W c :
  sched_wf s Q W -> 0 <= c -> current s c <> 0 -> state (th s (current s c)) = THREAD_RUNNING ->
  (current s c ∉ Q) /\ (current s c ∉ W).
Proof.
  intros Hwf Hc Hn Hr. split.
  - intros (H & _)%(wf_ready _ _ _ Hwf). congruence.
  - intros (H & _)%(wf_blocked _ _ _ Hwf). congruence.
Qed.

(** [current->state = v]: how a thread blocks on a mutex ([v] is BLOCKED) and
    how it exits ([v] is DEAD). *)
Lemma set_state_wf s Q W c v :
  sched_wf s Q W -> 0 <= c -> current s c <> 0 -> state (th s (current s c)) = THREAD_RUNNING ->
  is_idle (th s (current s c)) = false -> v <> THREAD_READY ->
  sched_wf (upd_thread (current s c) (set_state v) s) Q W.
Proof.
  intros Hwf Hc Hn Hr Hi Hv. destruct (running_unlisted _ _ _ _ Hwf Hc Hn Hr) as [HQ HW].
  destruct (wf_current _ _ _ Hwf c Hc Hn) as (Hon & _).
  apply (current_update_wf s _ Q W W c Hwf Hc Hn Hi HQ); try (cbn; by rewrite ?Z.eqb_refl).
  - intros x Hx. cbn. by destruct (Z.eqb_spec x (current s c)).
  - apply (sleepers_ext s); [|done|apply Hwf]. intros x _. cbn.
    by destruct (Z.eqb_spec x (current s c)) as [->|].
  - intros x Hx. left. split; [done|]. by intros ->.
Qed.

Lemma sleep_wf s Q W c ms :
  sched_wf s Q W -> 0 <= c < MAX_CPUS -> current s c <> 0 ->
  state (th s (current s c)) = THREAD_RUNNING -> is_idle (th s (current s c)) = false ->
  exists s', sched_sleep_ms c ms s = Ok (tt, s') /\ sched_wf s' Q (current s c :: W) /\
    sleep_deadline (th s' (current s c)) = u64 (g_ticks s + ms).
Proof.
  intros Hwf Hc Hn Hr Hi. destruct (running_unlisted s Q W c) as [HQ HW]; [done|lia|done..|].
  destruct (wf_current _ _ _ Hwf c) as (Hon & _); [lia|done|].
  eexists. split.
  { unfold sched_sleep_ms, sched_current, current_cpu_id. destruct (Z.leb_spec MAX_CPUS c); [lia|].
    unfold mbind, K_bind, gets, modify, mret, K_ret. fold (current s c). cbn beta iota. rewrite Hi, orb_false_r.
    destruct (Z.eqb_spec (current s c) 0); [by destruct Hn|]. reflexivity. }
  split; [|cbn; by rewrite Z.eqb_refl].
  apply (current_update_wf s _ Q W (current s c :: W) c Hwf ltac:(lia) Hn Hi HQ); try (cbn; by rewrite ?Z.eqb_refl).
  - intros x Hx. cbn. by destruct (Z.eqb_spec x (current s c)).
  - destruct (wf_sleepers _ _ _ Hwf) as [Hl Hnd]. split; [|by apply NoDup_cons].
    split; [done|split; [done|]]. cbn. rewrite Z.eqb_refl.
    eapply lseg_ext; [|exact Hl]. intros x Hx. cbn. destruct (Z.eqb_spec x (current s c)) as [->|]; [done|done].
  - intros x [->|Hx]%elem_of_cons; [right; split; [done|]; cbn; by rewrite Z.eqb_refl|].
    left. split; [done|]. by intros ->.
Qed.

(** ** Runs of the scheduler *)

(** What happens on the CPUs. *)
Inductive event := Tick (cpu : Z) | Sleep (cpu ms : Z) | Exit (cpu : Z) | Block (cpu : Z) | Add (t : Z) | Wake (t : Z).
#[global] Instance event_eq_dec : EqDecision event.
Proof. solve_decision. Defined.

(** One operation on some CPU. A thread sleeps, exits or blocks while it is the
    running thread of the CPU; a thread that is made runnable (a new one by
    [sched_add], a blocked one by [sched_wake]) is in no list. *)
Inductive step (s : sched) : event -> sched -> Prop :=
| step_tick fuel cpu old_rsp r s' :
    0 <= cpu < MAX_CPUS -> current s cpu <> 0 -> idle s cpu <> 0 ->
    (forall W, sleepers s W -> (length W < fuel)%nat) ->
    sched_tick fuel cpu old_rsp s = Ok (r, s') -> step s (Tick cpu) s'
| step_sleep c ms s' :
    0 <= c < MAX_CPUS -> current s c <> 0 -> state (th s (current s c)) = THREAD_RUNNING ->
    is_idle (th s (current s c)) = false -> sched_sleep_ms c ms s = Ok (tt, s') -> step s (Sleep c ms) s'
| step_exit c s' :
    0 <= c < MAX_CPUS -> current s c <> 0 -> state (th s (current s c)) = THREAD_RUNNING ->
    is_idle (th s (current s c)) = false -> thread_exit c s = Ok (tt, s') -> step s (Exit c) s'
| step_block c :
    0 <= c < MAX_CPUS -> current s c <> 0 -> state (th s (current s c)) = THREAD_RUNNING ->
    is_idle (th s (current s c)) = false -> step s (Block c) (upd_thread (current s c) (set_state THREAD_BLOCKED) s)
| step_add t s' :
    (forall Q W, queue s Q -> sleepers s W -> unlisted s Q W t) -> state (th s t) = THREAD_READY ->
    sched_add t s = Ok (tt, s') -> step s (Add t) s'
| step_wake t s' :
    (forall Q W, queue s Q -> sleepers s W -> on_cpu (th s t) = false -> unlisted s Q W t) ->
    state (th s t) = THREAD_BLOCKED -> sched_wake t s = Some s' -> step s (Wake t) s'.

Inductive run (s0 : sched) : list event -> sched -> Prop :=
| run_nil : run s0 [] s0
| run_snoc l e s s' : run s0 l s -> step s e s' -> run s0 (l ++ [e]) s'.

Definition is_tick (e : event) : bool := match e with Tick _ => true | _ => false end.
Definition ticks (l : list event) : Z := Z.of_nat (length (filter is_tick l)).

(** The timing that [sched_sleep_ms] counts on. It raises the timer vector of its own CPU after it has put its
    thread on the sleep list: a CPU on which a thread has asked to sleep [ms] milliseconds takes that tick before
    the other CPUs have ticked [ms] times. *)
Definition punctual (l : list event) : Prop :=
  forall l1 c ms l2 l3, l = l1 ++ Sleep c ms :: l2 ++ l3 -> Tick c ∉ l2 -> ticks l2 = 0 \/ ticks l2 < ms.

(** The tick counter and the deadlines do not wrap around. *)
Definition unwrapped (g : Z) (l : list event) : Prop :=
  0 <= g /\ g + Z.of_nat (length l) < 2 ^ 63 /\ forall c ms, Sleep c ms ∈ l -> 0 <= ms < 2 ^ 63.

Lemma ticks_app l l' : ticks (l ++ l') = ticks l + ticks l'.
Proof. unfold ticks. rewrite filter_app, length_app. lia. Qed.

Lemma ticks_le l : 0 <= ticks l <= Z.of_nat (length l).
Proof. unfold ticks. pose proof (length_filter is_tick l). lia. Qed.

Lemma sched_tick_wf fuel cpu old_rsp s r s' Q W :
  sched_wf s Q W -> 0 <= cpu < MAX_CPUS -> current s cpu <> 0 -> idle s cpu <> 0 ->
  (length W < fuel)%nat -> let now := u64 (g_ticks s + 1) in no_early_wake s cpu now W ->
  sched_tick fuel cpu old_rsp s = Ok (r, s') ->
  (exists Q', sched_wf s' Q' (asleep s now W)) /\ g_ticks s' = now /\
  (forall c, 0 <= c -> c <> cpu -> current s' c = current s c) /\ (current s' cpu ∉ asleep s now W) /\
  forall x, sleep_deadline (th s' x) = sleep_deadline (th s x).
Proof.
  intros Hwf Hc Hcur Hid Hf now Hrace H. pose proof H as H'. unfold sched_tick, current_cpu_id in H.
  destruct (Z.leb_spec MAX_CPUS cpu) as [|_]; [lia|]. K_inv H. injection E as <- <-. K_inv H. destruct r0.
  rename st into s1. rename E into Hr. clear H.
  destruct (reap_wf _ _ _ _ _ Hc Hwf Hr) as [Hwf1 Hp].
  destruct (reap_frame _ _ _ Hr) as (E & _ & _ & Hx). injection E as _ _ _ Eg Ec Ei _ _.
  destruct (reap_tick_queue cpu s s1 now (current s1 cpu) Q W Hr) as (He & Ha & _).
  assert (no_early_wake s1 cpu now W) as Hrace1 by (intros t c; rewrite He; unfold current; rewrite Ec; apply Hrace).
  assert (current s1 cpu <> 0 /\ idle s1 cpu <> 0) as [Hcur1 Hid1] by (unfold current, idle; by rewrite Ec, Ei).
  pose proof (tick_queue_nodup s1 Q W cpu now Hwf1 Hc Hcur1) as Hnd.
  pose proof (tick_next_cases s1 Q W cpu now) as Hnext.
  destruct (tick_lists_wf fuel cpu old_rsp s1 Q W) as (s5 & Ht & Hwf5 & _ & Hg & Hc5 & _ & Hd); [done..|by rewrite Eg|].
  rewrite (sched_tick_unfold _ _ _ _ _ _ _ Hc Hr Ht) in H'. injection H' as _ <-. rewrite Eg in *. fold now in Hwf5, Hg, Hc5, Hnd, Hnext |- *. rewrite Ha in *.
  set (next := tick_next _ _ _) in *. destruct (wf_lengths _ _ _ Hwf) as (Hlc & _). unfold MAX_CPUS in Hc.
  assert (forall c, 0 <= c -> current (enter cpu next s5) c = if c =? cpu then next else current s c) as Hcu.
  { intros c Hc0. unfold current. replace (cpu_current (enter cpu next s5)) with (cpu_current s5) by (unfold enter; by destruct (_ && _)).
    rewrite Hc5, Ec. destruct (Z.eqb_spec c cpu) as [->|]; [apply aget_aset_eq; lia|apply aget_aset_ne; lia]. }
  split; [eexists; by apply enter_wf|]. split; [unfold enter; by destruct (_ && _)|].
  split; [intros c Hc0 Hne; rewrite Hcu by done; by destruct (Z.eqb_spec c cpu)|]. split; [rewrite Hcu, Z.eqb_refl by lia|].
  - intros Hin. destruct Hnext as [[Hq _]|[_ Hi]].
    + apply NoDup_app in Hnd as (_ & Hnd & _). by apply (Hnd next).
    + rewrite Hi in Hin. apply list_elem_of_filter in Hin as [_ Hin]. apply (wf_blocked _ _ _ Hwf1) in Hin as (_ & Hni & _).
      rewrite (wf_idle _ _ _ Hwf1) in Hni; [done|lia|done].
  - intros x. rewrite enter_th, Hd. exact (f_equal sleep_deadline (Hx x)).
Qed.

Lemma rq_add_frame t s : g_ticks (rq_add t s) = g_ticks s /\ (forall c, current (rq_add t s) c = current s c) /\
  forall x, sleep_deadline (th (rq_add t s) x) = sleep_deadline (th s x).
Proof.
  unfold rq_add. cbn. destruct (rq_tail s =? 0); (split; [done|split; [done|]]); intros x; cbn;
    repeat match goal with |- context [?a =? ?b] => destruct (Z.eqb_spec a b) as [->|]; cbn; try done end.
Qed.

(** The invariant of a run of [l] from [s0]: a thread that sleeps while its CPU still runs it has gone to sleep on that CPU,
    which has not ticked since. *)
Definition dozing (s0 : sched) (l : list event) (s : sched) (W : list Z) : Prop :=
  forall c, 0 <= c -> current s c ∈ W -> exists l1 ms l2, l = l1 ++ Sleep c ms :: l2 /\ (Tick c ∉ l2) /\ sleep_deadline (th s (current s c)) = g_ticks s0 + ticks l1 + ms.

Lemma dozing_same s0 l e s s' W : dozing s0 l s W -> is_tick e = false -> (forall c, 0 <= c -> current s' c = current s c) ->
  (forall x, sleep_deadline (th s' x) = sleep_deadline (th s x)) -> dozing s0 (l ++ [e]) s' W.
Proof.
  intros Hd He Hc Hx c Hc0 Hin. rewrite Hc, Hx in * by done. destruct (Hd c Hc0 Hin) as (l1 & ms & l2 & -> & Hn & Hdl). exists l1, ms, (l2 ++ [e]).
  split; [by rewrite <- app_assoc|]. split; [|done]. intros [?|E%list_elem_of_singleton]%elem_of_app; [done|by rewrite <- E in He].
Qed.

Lemma step_dozing s0 l e s s' Q W :
  sched_wf s Q W -> dozing s0 l s W -> g_ticks s = g_ticks s0 + ticks l -> punctual (l ++ [e]) -> unwrapped (g_ticks s0) (l ++ [e]) -> step s e s' ->
  g_ticks s' = g_ticks s0 + ticks (l ++ [e]) /\ exists Q' W', sched_wf s' Q' W' /\ dozing s0 (l ++ [e]) s' W'.
Proof.
  intros Hwf Hd Hg Hpu (Hu0 & Hu1 & Hu2) Hstep. pose proof (wf_queue _ _ _ Hwf) as Hq. pose proof (wf_sleepers _ _ _ Hwf) as Hs. pose proof (ticks_le l) as Htl. rewrite length_app in Hu1. cbn [length] in Hu1.
  rewrite ticks_app.
  destruct Hstep as [fuel cpu old_rsp r s' Hc Hcur Hid HW Ht|c ms s' Hc Hn Hr Hi Hrun|c s' Hc Hn Hr Hi Hrun|
    c Hc Hn Hr Hi|t s' Hu Hr Hrun|t s' Hu Hr Hrun].
  - assert (u64 (g_ticks s + 1) = g_ticks s + 1) as Enow by (apply u64_small; unfold is_u64; lia).
    destruct (sched_tick_wf fuel cpu old_rsp s r s' Q W Hwf Hc Hcur Hid (HW W Hs)) as ((Q' & Hwf') & Hg' & Hcu & Hnx & Hdl); [|done|].
    { rewrite Enow. intros t c [Hle Hin]%list_elem_of_filter Hc0 Hne Hct. subst t. destruct (Hd c Hc0 Hin) as (l1 & ms & l2 & -> & Hn & Hdl).
      destruct (Hpu l1 c ms (l2 ++ [Tick cpu]) []) as [Hz|Hz]; [by rewrite app_nil_r, <- app_assoc|intros [?|E%list_elem_of_singleton]%elem_of_app; [done|congruence]|..];
        rewrite ticks_app in Hz; change (ticks [Tick cpu]) with 1 in Hz; pose proof (ticks_le l2); [lia|].
      rewrite Hdl, Hg, ticks_app in Hle. change (Sleep c ms :: l2) with ([Sleep c ms] ++ l2) in Hle. rewrite ticks_app in Hle. change (ticks [Sleep c ms]) with 0 in Hle. lia. }
    rewrite Enow in *. split; [change (ticks [Tick cpu]) with 1; lia|]. exists Q', (asleep s (g_ticks s + 1) W). split; [done|].
    intros c Hc0 Hin. destruct (decide (c = cpu)) as [->|Hne]; [done|]. rewrite Hcu in * by done. rewrite Hdl. apply list_elem_of_filter in Hin as [_ Hin].
    destruct (Hd c Hc0 Hin) as (l1 & ms & l2 & -> & Hn & Hdd). exists l1, ms, (l2 ++ [Tick cpu]). split; [by rewrite <- app_assoc|]. split; [|done].
    intros [?|E%list_elem_of_singleton]%elem_of_app; [done|congruence].
  - change (ticks [Sleep c ms]) with 0. assert (0 <= ms < 2 ^ 63) as Hms by (apply (Hu2 c), elem_of_app; right; by apply list_elem_of_singleton).
    destruct (sleep_wf s Q W c ms) as (s2 & E & Hwf2 & Hdl); [done..|]. rewrite E in Hrun. injection Hrun as <-.
    unfold sched_sleep_ms, sched_current, current_cpu_id in E. destruct (Z.leb_spec MAX_CPUS c); [lia|].
    unfold mbind, K_bind, gets, modify, mret, K_ret in E. fold (current s c) in E. cbn beta iota in E. rewrite Hi, orb_false_r in E. destruct (Z.eqb_spec (current s c) 0); [done|]. injection E as E.
    split; [rewrite <- E; cbn; lia|]. exists Q, (current s c :: W). split; [done|]. assert (forall d, current s2 d = current s d) as Hcu by (rewrite <- E; done).
    intros d Hd0 Hin. rewrite Hcu in *. destruct (decide (d = c)) as [->|Hne].
    + exists l, ms, []. split; [done|]. split; [by apply not_elem_of_nil|]. rewrite Hdl, Hg. apply u64_small. unfold is_u64. lia.
    + apply elem_of_cons in Hin as [Hin|Hin]; [exfalso; apply Hne; by apply (wf_current_inj _ _ _ Hwf); [|lia|congruence|]|].
      destruct (Hd d Hd0 Hin) as (l1 & ms' & l2 & -> & Hn' & Hdd). exists l1, ms', (l2 ++ [Sleep c ms]). split; [by rewrite <- app_assoc|].
      split; [intros [?|?%list_elem_of_singleton]%elem_of_app; done|]. rewrite <- Hdd, <- E. cbn. destruct (Z.eqb_spec (current s d) (current s c)) as [Hx|]; [|done].
      exfalso. apply Hne. by apply (wf_current_inj _ _ _ Hwf); [|lia|rewrite Hx|].
  - change (ticks [Exit c]) with 0. unfold thread_exit, sched_current, current_cpu_id in Hrun. destruct (Z.leb_spec MAX_CPUS c); [lia|]. injection Hrun as <-.
    split; [cbn; lia|]. exists Q, W. split; [apply set_state_wf; done || lia|]. eapply dozing_same; [done..|]. intros x. cbn. by destruct (Z.eqb_spec x (aget 0 (cpu_current s) c)) as [->|].
  - change (ticks [Block c]) with 0. split; [cbn; lia|]. exists Q, W. split; [apply set_state_wf; done || lia|]. eapply dozing_same; [done..|]. intros x. cbn. by destruct (Z.eqb_spec x (current s c)) as [->|].
  - change (ticks [Add t]) with 0. injection Hrun as <-. pose proof (Hu Q W Hq Hs) as Hut. destruct (rq_add_frame t s) as (F1 & F2 & F3).
    split; [lia|]. exists (Q ++ [t]), W. split; [|by eapply dozing_same].
    apply (rq_add_wf s); [done|done|done| |done|done]. split; [done|]. split; apply Hut.
  - change (ticks [Wake t]) with 0. unfold sched_wake in Hrun. destruct (on_cpu (th s t)) eqn:Hoff; [done|]. injection Hrun as <-.
    pose proof (Hu Q W Hq Hs eq_refl) as Hut. set (s1 := upd_thread t _ s). destruct (rq_add_frame t s1) as (F1 & F2 & F3).
    split; [rewrite F1; cbn; lia|]. exists (Q ++ [t]), W. split.
    + apply (rq_add_wf s); [done|done| |cbn; rewrite Z.eqb_refl|done|done].
      * intros x Hx. cbn. by destruct (Z.eqb_spec x t).
      * split; [done|]. split; [exact Hoff|apply Hut].
    + eapply dozing_same; [done|done|intros c _; apply F2|]. intros x. rewrite F3. cbn. by destruct (Z.eqb_spec x t) as [->|].
Qed.

(** C7: no thread runs twice. In every run of ticks, sleeps, exits, blocking and wake-ups on any CPUs in which every CPU
    takes its tick in time after one of its threads has gone to sleep ([punctual]: before the other CPUs have ticked as
    many times as the sleep has milliseconds), and in which the counter and the deadlines do not wrap around
    ([unwrapped]), from a state in which no CPU runs a thread of the sleep list: no thread is the running thread of two
    CPUs, and no queued thread is running anywhere. Without the timing it is false, see
    [sleep_expiry_runs_thread_twice]. *)
Theorem sched_exclusive s0 l s Q0 W0 :
  sched_wf s0 Q0 W0 -> (forall c, 0 <= c -> current s0 c ∉ W0) -> punctual l -> unwrapped (g_ticks s0) l -> run s0 l s ->
  exists Q W, queue s Q /\ sleepers s W /\
    (forall c c', 0 <= c -> 0 <= c' -> current s c <> 0 -> current s c = current s c' -> c = c') /\
    (forall c t, 0 <= c -> t ∈ Q -> current s c <> t /\ state (th s t) = THREAD_READY).
Proof.
  intros Hwf H0 Hpu Hun Hrun.
  assert (g_ticks s = g_ticks s0 + ticks l /\ exists Q W, sched_wf s Q W /\ dozing s0 l s W) as (_ & Q & W & Hwf' & _).
  { induction Hrun as [|l e s s' Hrun IH Hs].
    - split; [change (ticks []) with 0; lia|]. exists Q0, W0. split; [done|]. intros c Hc Hin. by destruct (H0 c Hc).
    - destruct IH as (Hg & Q & W & Hwf' & Hd).
      + intros l1 c ms l2 l3 ->. apply (Hpu l1 c ms l2 (l3 ++ [e])). by rewrite <- !app_assoc; cbn; rewrite <- app_assoc.
      + destruct Hun as (U0 & U1 & U2). rewrite length_app in U1. split; [done|]. split; [lia|]. intros c ms Hin. apply (U2 c), elem_of_app. by left.
      + by eapply step_dozing. }
  exists Q, W. split; [apply Hwf'|]. split; [apply Hwf'|]. split; [apply Hwf'|].
  intros c t Hc Ht. destruct (wf_ready _ _ _ Hwf' _ Ht) as (Hr & Hoff & _). split; [|done].
  intros Hct. destruct (wf_current _ _ _ Hwf' c Hc) as (Hon & _); [|congruence].
  rewrite Hct. by apply (queue_nonnull s Q); [apply Hwf'|].
Qed.

(** ** Thread creation *)

Lemma clear_frame_spec f n lo s :
  exists g, for_loop n lo (fun i => store_stack (f + 8 * i) 0) s = Ok (tt, with_stack g s) /\
    forall i, g (f + 8 * i) = if bool_decide (lo <= i < lo + Z.of_nat n) then 0 else stack s (f + 8 * i).
Proof.
  revert lo s. induction n as [|n IH]; intros lo s.
  - exists (stack s). split; [by destruct s|]. intros i. rewrite bool_decide_false by lia. done.
  - set (s1 := with_stack (fun x => if x =? f + 8 * lo then 0 else stack s x) s).
    destruct (IH (lo + 1) s1) as (g & Hg & Hi). exists g. split; [exact Hg|].
    intros i. rewrite Hi. cbn [stack s1 with_stack].
    destruct (Z.eqb_spec (f + 8 * i) (f + 8 * lo)); repeat case_bool_decide; try done; lia.
Qed.

Definition slot_value (slots : list (Z * Z)) (i v : Z) : Z :=
  fold_left (fun v '(j, w) => if i =? j then w else v) slots v.

Lemma fill_frame_spec f slots s :
  exists g, foldr (fun '(i, v) k => _ ← store_stack (f + 8 * i) v; k) (mret tt) slots s =
      Ok (tt, with_stack g s) /\
    forall i, g (f + 8 * i) = slot_value slots i (stack s (f + 8 * i)).
Proof.
  revert s. induction slots as [|[j w] slots IH]; intros s.
  - exists (stack s). split; [by destruct s|]. done.
  - set (s1 := with_stack (fun x => if x =? f + 8 * j then w else stack s x) s).
    destruct (IH s1) as (g & Hg & Hi). exists g. split; [exact Hg|].
    intros i. rewrite Hi. cbn [stack s1 with_stack slot_value fold_left]. unfold slot_value.
    replace (f + 8 * i =? f + 8 * j) with (i =? j); [by destruct (i =? j)|].
    destruct (Z.eqb_spec i j), (Z.eqb_spec (f + 8 * i) (f + 8 * j)); lia.
Qed.

Lemma build_frame_spec top slots s :
  let f := u64 (top - 8 * FRAME_QWORDS) in
  exists g, build_frame top slots s = Ok (f, with_stack g s) /\
    forall i, 0 <= i < FRAME_QWORDS -> g (f + 8 * i) = slot_value slots i 0.
Proof.
  intros f. destruct (clear_frame_spec f 20 0 s) as (g1 & E1 & H1).
  destruct (fill_frame_spec f slots (with_stack g1 s)) as (g2 & E2 & H2).
  exists g2. split.
  - unfold build_frame. fold f. rewrite (K_bind_Ok _ _ _ _ _ E1). rewrite (K_bind_Ok _ _ _ _ _ E2). done.
  - intros i Hi. rewrite H2. cbn [stack with_stack]. rewrite H1. unfold FRAME_QWORDS in Hi.
    by rewrite bool_decide_true by lia.
Qed.

(** A kernel stack has been allocated. *)
Lemma alloc_kstack_spec t msg s k h :
  kmalloc THREAD_KSTACK_SIZE (kh s) = Ok (k, h) -> k <> 0 ->
  exists s', alloc_kstack t msg s = Ok (u64 (k + THREAD_KSTACK_SIZE), s') /\
    th s' t = set_kstack_top (u64 (k + THREAD_KSTACK_SIZE)) (set_kstack k (set_kstack_size THREAD_KSTACK_SIZE (th s t))) /\
    (forall x, x <> t -> th s' x = th s x) /\
    rq_head s' = rq_head s /\ rq_tail s' = rq_tail s /\ kh s' = h /\ stack s' = stack s.
Proof.
  intros Hk Hk0. unfold alloc_kstack, on_heap, mbind, K_bind, modify. cbn [kh upd_thread with_th].
  rewrite Hk. destruct (Z.eqb_spec k 0); [done|]. eexists. split; [reflexivity|]. cbn.
  rewrite !Z.eqb_refl. split; [done|]. split; [|done]. intros x Hx. by destruct (Z.eqb_spec x t).
Qed.

Lemma alloc_thread_spec s t h :
  kmalloc sizeof_thread (kh s) = Ok (t, h) -> t <> 0 ->
  exists s', alloc_thread s = Ok (t, s') /\ th s' t = init_thread (next_tid s) (th s t) /\
    (forall x, x <> t -> th s' x = th s x) /\
    rq_head s' = rq_head s /\ rq_tail s' = rq_tail s /\ kh s' = h /\ stack s' = stack s.
Proof.
  intros Hk Hk0. unfold alloc_thread, on_heap, mbind, K_bind, modify, gets. rewrite Hk.
  destruct (Z.eqb_spec t 0); [done|]. eexists. split; [reflexivity|]. cbn. rewrite Z.eqb_refl.
  split; [done|]. split; [|done]. intros x Hx. by destruct (Z.eqb_spec x t).
Qed.

(** A new user thread. When both allocations succeed, its saved stack
    pointer is an interrupt frame 20 words below the top of its kernel stack
    which returns to the given entry point and user stack at privilege level 3
    with interrupts enabled and all general registers zero; the thread has the
    given address space and is ready, but is not put on the run queue. *)
Theorem thread_create_user_correct entry_rip user_rsp cr3_ s t h k h' :
  kmalloc sizeof_thread (kh s) = Ok (t, h) -> t <> 0 ->
  kmalloc THREAD_KSTACK_SIZE h = Ok (k, h') -> k <> 0 ->
  exists s', thread_create_user entry_rip user_rsp cr3_ s = Ok (t, s') /\
    rsp (th s' t) = u64 (u64 (k + THREAD_KSTACK_SIZE) - 160) /\
    kstack (th s' t) = k /\ kstack_top (th s' t) = u64 (k + THREAD_KSTACK_SIZE) /\
    is_user (th s' t) = true /\ cr3 (th s' t) = cr3_ /\ is_idle (th s' t) = false /\
    state (th s' t) = THREAD_READY /\ on_cpu (th s' t) = false /\
    (forall i, 0 <= i < IDX_RIP -> stack s' (rsp (th s' t) + 8 * i) = 0) /\
    stack s' (rsp (th s' t) + 8 * IDX_RIP) = entry_rip /\
    stack s' (rsp (th s' t) + 8 * IDX_CS) mod 4 = 3 /\
    Z.testbit (stack s' (rsp (th s' t) + 8 * IDX_RFLAGS)) 9 = true /\
    stack s' (rsp (th s' t) + 8 * IDX_RSP) = user_rsp /\
    stack s' (rsp (th s' t) + 8 * IDX_SS) mod 4 = 3 /\
    (forall x, x <> t -> th s' x = th s x) /\
    rq_head s' = rq_head s /\ rq_tail s' = rq_tail s.
Proof.
  intros Ht Ht0 Hk Hk0.
  destruct (alloc_thread_spec s t h Ht Ht0) as (s1 & E1 & T1 & O1 & R1 & R1' & K1 & _).
  destruct (alloc_kstack_spec t "thread: user kstack kmalloc failed" s1 k h')
    as (s2 & E2 & T2 & O2 & R2 & R2' & _); [by rewrite K1|done|].
  set (top := u64 (k + THREAD_KSTACK_SIZE)) in *.
  set (slots := [(IDX_RIP, entry_rip); (IDX_CS, 0x33); (IDX_RFLAGS, 0x202); (IDX_RSP, user_rsp); (IDX_SS, 0x2b)]).
  set (s3 := upd_thread t (set_cr3 cr3_) (upd_thread t (set_is_user true) s2)).
  destruct (build_frame_spec top slots s3) as (g & E3 & Hg).
  eexists. split.
  { unfold thread_create_user. rewrite (K_bind_Ok _ _ _ _ _ E1), (K_bind_Ok _ _ _ _ _ E2).
    rewrite (K_bind_Ok _ _ _ tt _ eq_refl), (K_bind_Ok _ _ _ tt _ eq_refl). fold slots. fold s3.
    rewrite (K_bind_Ok _ _ _ _ _ E3). reflexivity. }
  cbn [th stack rq_head rq_tail upd_thread with_th with_stack s3]. rewrite !Z.eqb_refl, T2, T1.
  cbn [rsp set_rsp set_cr3 set_is_user set_kstack_top set_kstack set_kstack_size init_thread
       kstack kstack_top is_user cr3 is_idle state on_cpu].
  split_and!; try done; try (rewrite Hg by done; reflexivity); try congruence.
  - intros i Hi. rewrite Hg by (unfold IDX_RIP, FRAME_QWORDS in *; lia). unfold IDX_RIP in Hi.
    unfold slots, slot_value, IDX_RIP, IDX_CS, IDX_RFLAGS, IDX_RSP, IDX_SS. cbn [fold_left].
    by repeat (match goal with |- context[i =? ?j] => destruct (Z.eqb_spec i j); [lia|] end).
  - intros x Hx. destruct (Z.eqb_spec x t); [done|]. by rewrite O2, O1.
Qed.

(** ** A concrete system *)

(** Two CPUs: thread 100 runs on CPU 0 and the idle thread 201 on CPU 1; 300 is
    queued; 400 sleeps until tick 1. *)
Definition parked (st : thread_state_t) (idl onc : bool) (deadline : Z) : thread :=
  mk_thread 7 0 0 0 st 0 idl false onc 0 0 0 0 deadline 0.
Definition demo_threads : tmem := fun x =>
  if x =? 100 then parked THREAD_RUNNING false true 0
  else if x =? 200 then parked THREAD_RUNNING true false 0
  else if x =? 201 then parked THREAD_RUNNING true true 0
  else if x =? 300 then parked THREAD_READY false false 0
  else parked THREAD_BLOCKED false false 1.
Definition two_cpus (a b : Z) : list Z := a :: b :: replicate 62 0.
Definition no_heap : heap vmm := mk_heap 0 0 0 (fun _ => mk_block 0 0 0 0 0 0) empty_machine.
Definition demo : sched :=
  mk_sched 300 300 0 400 (two_cpus 100 201) (two_cpus 200 201) (two_cpus 0 0) 5 demo_threads (fun _ => 0)
    (two_cpus 0 0) (two_cpus 0 0) no_heap.

Lemma aget_two_cpus a b c : 0 <= c -> aget 0 (two_cpus a b) c = if c =? 0 then a else if c =? 1 then b else 0.
Proof.
  intros Hc. unfold two_cpus. destruct (Z.eqb_spec c 0) as [->|]; [done|].
  destruct (Z.eqb_spec c 1) as [->|]; [done|]. unfold aget.
  replace (Z.to_nat c) with (S (S (Z.to_nat (c - 2)))) by lia. cbn [nth]. rewrite nth_lookup.
  destruct (replicate 62 0 !! Z.to_nat (c - 2)) as [y|] eqn:E; [|done].
  by apply lookup_replicate_1 in E as [-> _].
Qed.

Lemma demo_wf : sched_wf demo [300] [400].
Proof.
  assert (forall c, 0 <= c -> current demo c = if c =? 0 then 100 else if c =? 1 then 201 else 0) as Hcu.
  { intros c Hc. by apply aget_two_cpus. }
  assert (forall c, 0 <= c -> idle demo c = if c =? 0 then 200 else if c =? 1 then 201 else 0) as Hid.
  { intros c Hc. by apply aget_two_cpus. }
  assert (forall c, 0 <= c -> pending demo c = 0) as Hpe.
  { intros c Hc. unfold pending, demo. cbn [reap_pending]. rewrite aget_two_cpus by done.
    by destruct (c =? 0), (c =? 1). }
  constructor.
  - split; [cbn; lia|split; [done|apply NoDup_singleton]].
  - split; [cbn; lia|apply NoDup_singleton].
  - apply NoDup_cons. split; [|apply NoDup_singleton]. intros ?%list_elem_of_singleton. lia.
  - intros t ->%list_elem_of_singleton. done.
  - intros t ->%list_elem_of_singleton. done.
  - done.
  - intros c Hc. rewrite Hcu, Hid by done. by destruct (c =? 0), (c =? 1).
  - intros c c' Hc Hc'. rewrite !Hcu by done.
    destruct (Z.eqb_spec c 0), (Z.eqb_spec c 1), (Z.eqb_spec c' 0), (Z.eqb_spec c' 1); lia.
  - intros c Hc. rewrite Hid by done. by destruct (c =? 0), (c =? 1).
  - intros c c' Hc Hc'. rewrite !Hid by done.
    destruct (Z.eqb_spec c 0), (Z.eqb_spec c 1), (Z.eqb_spec c' 0), (Z.eqb_spec c' 1); lia.
  - intros c Hc. by rewrite Hpe.
  - intros c c' Hc Hc'. by rewrite !Hpe.
Qed.

Lemma demo_no_early_wake : no_early_wake demo 0 1 [400].
Proof.
  intros t c [_ ->%list_elem_of_singleton]%list_elem_of_filter Hc Hne.
  unfold current, demo. cbn [cpu_current]. rewrite aget_two_cpus by done. by destruct (c =? 0), (c =? 1).
Qed.

(** The tick on CPU 0: the sleeper 400 and the preempted 100 join behind 300,
    which runs next. *)
Lemma sched_tick_correct_witness :
  exists s', sched_tick 2 0 9 demo = Ok (7, s') /\ sched_wf s' [400; 100] [] /\ current s' 0 = 300.
Proof.
  destruct (sched_tick_correct 2 0 9 demo demo [300] [400] demo_wf ltac:(done) ltac:(done) ltac:(done)
    ltac:(simpl; lia) eq_refl demo_no_early_wake eq_refl) as (s' & E & Hwf & _ & _ & Hc & _).
  exists s'. split; [exact E|]. split; [exact Hwf|]. by rewrite (Hc 0).
Defined.

(** Thread 100 goes to sleep on CPU 0, which then ticks: it runs the thread that was queued. *)
Definition dozed : sched := match sched_sleep_ms 0 5 demo with Ok (_, s) => s | Panic _ => demo end.
Definition ticked : sched := match sched_tick 3 0 9 dozed with Ok (_, s) => s | Panic _ => demo end.

Lemma lseg_fun next W : forall h W', lseg next h W 0 -> lseg next h W' 0 -> W = W'.
Proof.
  induction W as [|t W IH]; intros h [|t' W']; cbn; intros H1 H2; try done; [destruct H2 as (<- & H2 & _)|destruct H1 as (<- & H1 & _)|]; try congruence.
  destruct H1 as (-> & _ & H1), H2 as (-> & _ & H2). f_equal. by eapply IH.
Qed.

Lemma sched_exclusive_witness :
  exists s', run demo [Sleep 0 5; Tick 0] s' /\ current s' 0 = 300 /\ exists Q W, queue s' Q /\ sleepers s' W.
Proof.
  assert (sched_sleep_ms 0 5 demo = Ok (tt, dozed)) as E1 by reflexivity. set (s2 := ticked).
  assert (match sched_tick 3 0 9 dozed with Ok (r, _) => r | Panic _ => 0 end = 7) as E0 by (vm_compute; reflexivity).
  assert (sched_tick 3 0 9 dozed = Ok (7, s2)) as E2 by (unfold s2, ticked; destruct (sched_tick 3 0 9 dozed) as [[r s]|e]; [by rewrite E0|discriminate E0]).
  assert (current s2 0 = 300) as Hc by (vm_compute; reflexivity).
  assert (run demo [Sleep 0 5; Tick 0] s2) as Hrun.
  { clearbody s2. refine (run_snoc demo [Sleep 0 5] (Tick 0) dozed s2 (run_snoc demo [] (Sleep 0 5) demo dozed (run_nil demo) _) _).
    { refine (step_sleep demo 0 5 dozed _ _ _ _ E1); [unfold MAX_CPUS; lia|vm_compute; discriminate|reflexivity|reflexivity]. }
    refine (step_tick dozed 3 0 9 7 s2 _ _ _ _ E2); [unfold MAX_CPUS; lia|vm_compute; discriminate|vm_compute; discriminate|].
    intros W HW. destruct (sleep_wf demo [300] [400] 0 5 demo_wf) as (s1 & E & Hwf1 & _); [unfold MAX_CPUS; lia|vm_compute; discriminate|reflexivity|reflexivity|]. rewrite E1 in E. pose proof (f_equal (fun r => match r with Ok x => x.2 | Panic _ => demo end) E) as E'. cbn [snd] in E'. rewrite <- E' in Hwf1.
    rewrite (lseg_fun _ _ _ _ (proj1 HW) (proj1 (wf_sleepers _ _ _ Hwf1))). cbn. lia. }
  clearbody s2. clear E0 E1 E2. destruct (sched_exclusive demo [Sleep 0 5; Tick 0] s2 [300] [400] demo_wf) as (Q & W & Hq & Hs & _); [| | |exact Hrun|].
  - intros c Hc0. unfold current, demo. cbn [cpu_current]. rewrite aget_two_cpus by done. rewrite not_elem_of_cons. split; [by destruct (c =? 0), (c =? 1)|by apply not_elem_of_nil].
  - intros l1 c ms l2 l3 E Hn. destruct l1 as [|e1 [|e2 [|]]]; cbn in E; [|by simplify_eq..]. injection E as <- <- E. destruct l2 as [|e l2]; [by left|]. cbn in E. injection E as <- _. by destruct Hn; left.
  - split; [done|]. split; [done|]. intros c ms Hin. rewrite !elem_of_cons, elem_of_nil in Hin. destruct Hin as [[= -> ->]|[[=]|[]]]. lia.
  - exists s2. split; [exact Hrun|]. split; [exact Hc|]. by exists Q, W.
Defined.

(** Without the timing of [punctual] a thread can run on two CPUs. CPU 1 runs thread 100;
    it calls [sched_sleep_ms (1)] and has not raised its own tick yet when CPU 0
    ticks: the expired entry is queued and chosen although it is still on CPU 1,
    which [sched_wake] would have waited for. *)
Definition racy : sched :=
  mk_sched 0 0 0 0 (two_cpus 200 100) (two_cpus 200 201) (two_cpus 0 0) 5
    (fun x => if x =? 200 then parked THREAD_RUNNING true true 0 else demo_threads x) (fun _ => 0)
    (two_cpus 0 0) (two_cpus 0 0) no_heap.

Example sleep_expiry_runs_thread_twice :
  (' (_, s1) ← match sched_sleep_ms 1 1 racy with Ok r => Some r | Panic _ => None end;
   ' (_, s2) ← match sched_tick 2 0 9 s1 with Ok r => Some r | Panic _ => None end;
   Some (current s2 0, current s2 1)) = Some (100, 100).
Proof. reflexivity. Qed.

(** One free block of 128 KiB at the base of the heap. *)
Definition roomy : sched :=
  with_kh (mk_heap HEAP_VIRT_BASE HEAP_VIRT_BASE (HEAP_VIRT_BASE + 0x20000)
    (fun _ => mk_block HEAP_MAGIC BLOCK_FREE 0x20000 0 0 0) empty_machine) demo.

Lemma roomy_allocates :
  match kmalloc sizeof_thread (kh roomy) with
  | Ok (t, h) =>
      match kmalloc THREAD_KSTACK_SIZE h with
      | Ok (k, _) => Some (t, k)
      | Panic _ => None
      end
  | Panic _ => None
  end = Some (0xffff900000000028, 0xffff9000000000b0).
Proof. vm_compute. reflexivity. Qed.

Lemma thread_create_user_correct_witness :
  exists t s', thread_create_user 0x401000 0x7ffff000 0x201000 roomy = Ok (t, s') /\
    stack s' (rsp (th s' t) + 8 * IDX_RIP) = 0x401000 /\ rq_head s' = 300.
Proof.
  pose proof roomy_allocates as H.
  destruct (kmalloc sizeof_thread (kh roomy)) as [[t h]|] eqn:E1; [|discriminate H].
  destruct (kmalloc THREAD_KSTACK_SIZE h) as [[k h']|] eqn:E2; [|discriminate H].
  injection H as -> ->.
  destruct (thread_create_user_correct 0x401000 0x7ffff000 0x201000 roomy _ h _ h' E1 ltac:(lia) E2 ltac:(lia))
    as (s' & E & _ & _ & _ & _ & _ & _ & _ & _ & _ & H1 & _ & _ & _ & _ & _ & H2 & _).
  exists 0xffff900000000028, s'. split; [exact E|]. split; [exact H1|rewrite H2; reflexivity].
Defined.

End Sched.
