(* ===== verification/Mutex.v ===== *)
(** * Spinlocks and sleeping mutexes

    Models [kernel/sync/spinlock.c] and [kernel/sync/mutex.c] as a transition
    system: every statement of [mutex_lock], [mutex_unlock] and
    [mutex_try_lock] is one step of one thread, and steps of different threads
    interleave freely. The waiters are a linked list through the threads'
    [wait_next] fields.

    The scheduler appears through what [Sched] establishes of it. A thread that
    is not [avail]able has left its CPU while BLOCKED: the tick does not requeue
    it ([Sched.retire]). The timer can preempt a thread at any statement;
    preemption only matters when the thread is BLOCKED. [sched_wake] waits for
    the thread to leave its CPU ([Sched.sched_wake] is [None] until then) and
    makes it ready. *)

From S2P Require Import Prelude Pmm Vmm Heap HeapPages Sched.
Import Sched.

Module Mutex.

(** [xchg32]: the previous value, and the memory with the new one. *)
Definition xchg32 (mem val : Z) : Z * Z := (mem, val).

(** One iteration of the loop of [spinlock_acquire]: whether the lock was taken,
    and the lock word. *)
Definition spinlock_try_acquire (word : Z) : bool * Z :=
  let '(old, word) := xchg32 word 1 in (old =? 0, word).

Definition spinlock_release (word : Z) : Z := 0.

(** Control points, named after the lines of [mutex.c]: the thread is about to
    execute the line. [Out]: outside; [Crit]: a lock call has returned. *)
Inductive pc :=
| Out | Crit
| L12 | L13 | L16 | L17 | L18 | L19 | L25 | L30 | L32 | L33 | L34
| U39 | U40 | U41 | U42 | U43 | U44 (woken : Z) | U45 (woken : Z) | U46 (woken : Z) | U47 (woken : Z) | U49
| T55 | T56 | T57 | T60 | T61 | T62.

Record mutex := mk_mutex {
  lock : Z;
  locked : bool;
  owner : Z;
  waiters : Z;
  wait_next : Z -> Z;
  blocked : Z -> bool;
  avail : Z -> bool;
  at_pc : Z -> pc;
}.

Definition fupd {A} (f : Z -> A) (t : Z) (v : A) : Z -> A := fun x => if x =? t then v else f x.

Definition set_lock v (m : mutex) : mutex :=
  mk_mutex v (locked m) (owner m) (waiters m) (wait_next m) (blocked m) (avail m) (at_pc m).
Definition set_locked v (m : mutex) : mutex :=
  mk_mutex (lock m) v (owner m) (waiters m) (wait_next m) (blocked m) (avail m) (at_pc m).
Definition set_owner v (m : mutex) : mutex :=
  mk_mutex (lock m) (locked m) v (waiters m) (wait_next m) (blocked m) (avail m) (at_pc m).
Definition set_waiters v (m : mutex) : mutex :=
  mk_mutex (lock m) (locked m) (owner m) v (wait_next m) (blocked m) (avail m) (at_pc m).
Definition set_wait_next t v (m : mutex) : mutex :=
  mk_mutex (lock m) (locked m) (owner m) (waiters m) (fupd (wait_next m) t v) (blocked m) (avail m) (at_pc m).
Definition set_blocked t v (m : mutex) : mutex :=
  mk_mutex (lock m) (locked m) (owner m) (waiters m) (wait_next m) (fupd (blocked m) t v) (avail m) (at_pc m).
Definition set_avail t v (m : mutex) : mutex :=
  mk_mutex (lock m) (locked m) (owner m) (waiters m) (wait_next m) (blocked m) (fupd (avail m) t v) (at_pc m).
Definition goto t p (m : mutex) : mutex :=
  mk_mutex (lock m) (locked m) (owner m) (waiters m) (wait_next m) (blocked m) (avail m) (fupd (at_pc m) t p).

(** [spinlock_acquire(&m->lock)] by thread [t], which goes on at [p]; [None]
    while the lock is taken and the thread spins. *)
Definition acquire (t : Z) (p : pc) (m : mutex) : option mutex :=
  let '(got, word) := spinlock_try_acquire (lock m) in
  if got then Some (goto t p (set_lock word m)) else None.

Definition release (t : Z) (p : pc) (m : mutex) : option mutex :=
  Some (goto t p (set_lock (spinlock_release (lock m)) m)).

(** The tick on the CPU that runs [t]. *)
Definition tick (t : Z) (m : mutex) : mutex := set_avail t (negb (blocked m t)) m.

(** [sched_wake(w)], which spins while [w] is on its CPU. *)
Definition wake (w : Z) (m : mutex) : option mutex :=
  if avail m w then None else Some (set_avail w true (set_blocked w false m)).

Definition mutex_lock (t : Z) (m : mutex) : option mutex :=
  match at_pc m t with
  | L12 => acquire t L13 m
  | L13 => Some (goto t (if locked m then L16 else L32) m)
  | L16 => Some (goto t L17 (set_wait_next t (waiters m) m))
  | L17 => Some (goto t L18 (set_waiters t m))
  | L18 => Some (goto t L19 (set_blocked t true m))
  | L19 => release t L25 m
  | L25 => Some (goto t L30 (tick t m))
  | L30 => acquire t L13 m
  | L32 => Some (goto t L33 (set_locked true m))
  | L33 => Some (goto t L34 (set_owner t m))
  | L34 => release t Crit m
  | _ => None
  end.

Definition mutex_unlock (t : Z) (m : mutex) : option mutex :=
  match at_pc m t with
  | U39 => acquire t U40 m
  | U40 => Some (goto t U41 (set_locked false m))
  | U41 => Some (goto t U42 (set_owner 0 m))
  | U42 => Some (goto t (if negb (waiters m =? 0) then U43 else U49) m)
  | U43 => Some (goto t (U44 (waiters m)) m)
  | U44 w => Some (goto t (U45 w) (set_waiters (wait_next m w) m))
  | U45 w => Some (goto t (U46 w) (set_wait_next w 0 m))
  | U46 w => release t (U47 w) m
  | U47 w => m' ← wake w m; Some (goto t Out m')
  | U49 => release t Out m
  | _ => None
  end.

(** It returns to [Crit] when the lock was taken and to [Out] otherwise. *)
Definition mutex_try_lock (t : Z) (m : mutex) : option mutex :=
  match at_pc m t with
  | T55 => acquire t T56 m
  | T56 => Some (goto t (if locked m then T57 else T60) m)
  | T57 => release t Out m
  | T60 => Some (goto t T61 (set_locked true m))
  | T61 => Some (goto t T62 (set_owner t m))
  | T62 => release t Crit m
  | _ => None
  end.

(** A step of an available thread: a statement of the call it is in, a new
    call, or a preemption by the timer. A thread only unlocks a mutex it has
    locked. *)
Inductive step (m : mutex) : mutex -> Prop :=
| step_lock t m' : t <> 0 -> avail m t = true -> mutex_lock t m = Some m' -> step m m'
| step_unlock t m' : t <> 0 -> avail m t = true -> mutex_unlock t m = Some m' -> step m m'
| step_try t m' : t <> 0 -> avail m t = true -> mutex_try_lock t m = Some m' -> step m m'
| call_lock t : t <> 0 -> avail m t = true -> at_pc m t = Out -> step m (goto t L12 m)
| call_try t : t <> 0 -> avail m t = true -> at_pc m t = Out -> step m (goto t T55 m)
| call_unlock t : t <> 0 -> avail m t = true -> at_pc m t = Crit -> step m (goto t U39 m)
| preempt t : t <> 0 -> avail m t = true -> step m (tick t m).

(** [MUTEX_INIT], with every thread outside. *)
Definition MUTEX_INIT : mutex :=
  mk_mutex 0 false 0 0 (fun _ => 0) (fun _ => false) (fun _ => true) (fun _ => Out).

(** ** Who holds the spinlock, who holds the mutex *)

Definition holds (p : pc) : bool :=
  match p with
  | L13 | L16 | L17 | L18 | L19 | L32 | L33 | L34
  | U40 | U41 | U42 | U43 | U44 _ | U45 _ | U46 _ | U49 | T56 | T57 | T60 | T61 | T62 => true
  | _ => false
  end.

Definition owns (p : pc) : bool :=
  match p with Crit | L33 | L34 | U39 | U40 | T61 | T62 => true | _ => false end.

(** Holders of the spinlock that have seen the mutex taken, or free. *)
Definition saw_locked (p : pc) : bool :=
  match p with L16 | L17 | L18 | L19 | T57 => true | _ => false end.
Definition saw_free (p : pc) : bool :=
  match p with L32 | T60 | U41 | U42 | U43 | U44 _ | U45 _ | U46 _ | U49 => true | _ => false end.

Record excl (m : mutex) : Prop := {
  ex_lock : lock m = 0 \/ lock m = 1;
  ex_holder t : holds (at_pc m t) = true -> lock m = 1;
  ex_holder_uniq t t' : holds (at_pc m t) = true -> holds (at_pc m t') = true -> t = t';
  ex_owner t : owns (at_pc m t) = true -> locked m = true;
  ex_owner_uniq t t' : owns (at_pc m t) = true -> owns (at_pc m t') = true -> t = t';
  ex_saw_locked t : saw_locked (at_pc m t) = true -> locked m = true;
  ex_saw_free t : saw_free (at_pc m t) = true -> locked m = false;
}.

(** The effect of one step of [t] on the two locks. *)
Inductive effect (t : Z) (m m' : mutex) : Prop :=
| eff_none :
    lock m' = lock m -> locked m' = locked m ->
    holds (at_pc m' t) = holds (at_pc m t) -> owns (at_pc m' t) = owns (at_pc m t) ->
    (saw_locked (at_pc m' t) = true -> locked m = true) ->
    (saw_free (at_pc m' t) = true -> locked m = false) -> effect t m m'
| eff_acquire :
    lock m = 0 -> lock m' = 1 -> locked m' = locked m ->
    owns (at_pc m' t) = owns (at_pc m t) ->
    saw_locked (at_pc m' t) = false -> saw_free (at_pc m' t) = false -> effect t m m'
| eff_release :
    holds (at_pc m t) = true -> holds (at_pc m' t) = false ->
    lock m' = 0 -> locked m' = locked m -> owns (at_pc m' t) = owns (at_pc m t) ->
    saw_locked (at_pc m' t) = false -> saw_free (at_pc m' t) = false -> effect t m m'
| eff_take :
    holds (at_pc m t) = true -> holds (at_pc m' t) = true -> lock m' = lock m ->
    locked m = false -> locked m' = true ->
    saw_locked (at_pc m' t) = false -> saw_free (at_pc m' t) = false -> effect t m m'
| eff_drop :
    holds (at_pc m t) = true -> holds (at_pc m' t) = true -> lock m' = lock m ->
    owns (at_pc m t) = true -> owns (at_pc m' t) = false -> locked m' = false ->
    saw_locked (at_pc m' t) = false -> effect t m m'.

Lemma fupd_eq {A} (f : Z -> A) t v : fupd f t v t = v.
Proof. unfold fupd. by rewrite Z.eqb_refl. Qed.
Lemma fupd_ne {A} (f : Z -> A) t v x : x <> t -> fupd f t v x = f x.
Proof. unfold fupd. by destruct (Z.eqb_spec x t). Qed.

Lemma acquire_inv t p m m' : acquire t p m = Some m' -> lock m = 0 /\ m' = goto t p (set_lock 1 m).
Proof.
  unfold acquire, spinlock_try_acquire, xchg32. destruct (Z.eqb_spec (lock m) 0); [|done].
  intros [= <-]. done.
Qed.

Lemma wake_inv w m m' :
  wake w m = Some m' -> avail m w = false /\ m' = set_avail w true (set_blocked w false m).
Proof. unfold wake. destruct (avail m w); [done|]. by intros [= <-]. Qed.

Ltac finish_step :=
  match goal with
  | |- (forall x, _) /\ _ => split; [intros ? ?; cbn; by rewrite ?fupd_ne by done|]
  end;
  match goal with
  | Hp : at_pc _ ?t = _ |- effect _ _ _ =>
      first
        [ apply eff_none; cbn; rewrite ?fupd_eq, ?Hp; solve [done | intros _; done | eauto]
        | apply eff_acquire; cbn; rewrite ?fupd_eq, ?Hp; done
        | apply eff_release; cbn; rewrite ?fupd_eq, ?Hp; done
        | apply eff_take; cbn; rewrite ?fupd_eq, ?Hp; solve [done | eauto]
        | apply eff_drop; cbn; rewrite ?fupd_eq, ?Hp; done ]
  end.

Lemma step_effect m m' :
  excl m -> step m m' ->
  exists t, (forall x, x <> t -> at_pc m' x = at_pc m x) /\ effect t m m'.
Proof.
  intros Hex Hs.
  destruct Hs as [t m' _ _ H|t m' _ _ H|t m' _ _ H|t _ _ H|t _ _ H|t _ _ H|t _ _]; exists t.
  - pose proof (ex_saw_locked _ Hex t) as Hl. pose proof (ex_saw_free _ Hex t) as Hf.
    unfold mutex_lock, release in H. destruct (at_pc m t) eqn:Hp; try discriminate H;
      try (apply acquire_inv in H as [? H]); simplify_eq/=; try finish_step.
    destruct (locked m) eqn:El; finish_step.
  - pose proof (ex_saw_locked _ Hex t) as Hl. pose proof (ex_saw_free _ Hex t) as Hf.
    unfold mutex_unlock, release in H. destruct (at_pc m t) eqn:Hp; try discriminate H;
      try (apply acquire_inv in H as [? H]);
      try (apply bind_Some in H as (m1 & H1 & H); apply wake_inv in H1 as [? ->]); simplify_eq/=; try finish_step.
    destruct (_ =? 0); finish_step.
  - pose proof (ex_saw_locked _ Hex t) as Hl. pose proof (ex_saw_free _ Hex t) as Hf.
    unfold mutex_try_lock, release in H. destruct (at_pc m t) eqn:Hp; try discriminate H;
      try (apply acquire_inv in H as [? H]); simplify_eq/=; try finish_step.
    destruct (locked m) eqn:El; finish_step.
  - finish_step.
  - finish_step.
  - finish_step.
  - split; [done|]. apply eff_none; try done; apply Hex.
Qed.

(** With the spinlock free, or held by [t], no other thread is in a state that
    depends on it. *)
Lemma saw_holds p : saw_locked p = true \/ saw_free p = true -> holds p = true.
Proof. destruct p; simpl; intuition congruence. Qed.

Ltac use_clause A :=
  solve [ congruence
        | exfalso; match goal with
          | H0 : lock _ = 0 -> _, L0 : lock ?m = 0, Hsaw : forall x, _ -> _ /\ _ |- _ =>
              destruct (Hsaw _ (H0 L0 _)); congruence
          | H0 : lock _ = 0 -> _, L0 : lock ?m = 0 |- _ => rewrite H0 in A by exact L0; discriminate A
          | Hh : forall x, x <> _ -> _ -> _ = false, Hne : ?x <> ?t, Hd : holds _ = true,
            Hsaw : forall x, _ -> _ /\ _ |- _ => first [rewrite Hh in A by done; discriminate A|
              destruct (Hsaw _ (Hh x Hne Hd)); congruence]
          end
        | match goal with E : forall t, _ = true -> _ |- _ => first [apply E in A|rewrite E in A]; congruence end
        | match goal with
          | R : ?a = ?b, E : forall t, _ = true -> _ |- _ => rewrite R in A; apply E in A; congruence end
        | auto ].

Lemma excl_step m m' : excl m -> step m m' -> excl m'.
Proof.
  intros Hex Hs. destruct (step_effect _ _ Hex Hs) as (t & Ho & He).
  assert (forall x, x = t \/ x <> t /\ at_pc m' x = at_pc m x) as Hx.
  { intros x. destruct (Z.eq_dec x t); [by left|right]. by rewrite Ho. }
  destruct Hex as [E1 E2 E3 E4 E5 E6 E7].
  assert (forall x, x <> t -> holds (at_pc m t) = true -> holds (at_pc m x) = false) as Hh.
  { intros x Hne Ht. destruct (holds (at_pc m x)) eqn:E; [|done]. by destruct (Hne (E3 _ _ E Ht)). }
  assert (lock m = 0 -> forall x, holds (at_pc m x) = false) as H0.
  { intros Hl x. destruct (holds (at_pc m x)) eqn:E; [|done]. apply E2 in E. lia. }
  assert (forall x, holds (at_pc m x) = false -> saw_locked (at_pc m x) = false /\ saw_free (at_pc m x) = false) as Hsaw.
  { intros x Hf. pose proof (saw_holds (at_pc m x)) as Hs'.
    destruct (saw_locked _), (saw_free _); intuition congruence. }
  assert (locked m = false -> forall x, owns (at_pc m x) = false) as Hlo.
  { intros Hl x. destruct (owns (at_pc m x)) eqn:E; [|done]. apply E4 in E. congruence. }
  destruct He as [L K Hd Ow SL SF|L0 L1 K Ow SL SF|Hd Hd' L0 K Ow SL SF|Hd Hd' L K K' SL SF|Hd Hd' L Ow Ow' K SL];
    constructor; rewrite ?L, ?K, ?L0, ?L1, ?K'; try tauto.
  all: try (intros x; destruct (Hx x) as [->|[Hne ->]]; intros A; use_clause A).
  all: try (intros x y; destruct (Hx x) as [->|[Hne ->]], (Hx y) as [->|[Hne' ->]]; intros A B;
            first [done | by apply E3 | by apply E5 | apply E3; congruence | apply E5; congruence
                  | exfalso; rewrite ?H0, ?Hlo in A, B by done; congruence
                  | exfalso; rewrite Hh in A by congruence; done | exfalso; rewrite Hh in B by congruence; done]).
  - intros x y. destruct (Hx x) as [->|[Hne ->]], (Hx y) as [->|[Hne' ->]]; intros A B;
      [done|rewrite H0 in B by done; done|rewrite H0 in A by done; done|by apply E3].
  - intros _ _. by apply (E2 t).
  - intros x y. destruct (Hx x) as [->|[Hne ->]], (Hx y) as [->|[Hne' ->]]; intros A B;
      [done|rewrite Hlo in B by done; done|rewrite Hlo in A by done; done|by apply E5].
  - intros _ _. by apply (E2 t).
Qed.

(** C8: mutual exclusion. In every interleaving of lock, try-lock and unlock
    calls and timer preemptions, at most one thread is inside the mutex, and
    while one is, the mutex is marked locked. *)
Theorem mutex_exclusion m :
  rtc step MUTEX_INIT m ->
  (forall t t', at_pc m t = Crit -> at_pc m t' = Crit -> t = t') /\
  (forall t, at_pc m t = Crit -> locked m = true).
Proof.
  intros Hrun. assert (excl m) as Hex.
  { apply rtc_ind_r with (P := excl) (3 := Hrun); [|intros; by eapply excl_step].
    constructor; simpl; auto; done. }
  split; intros t; [intros t'|]; intros H.
  - intros H'. apply (ex_owner_uniq _ Hex); [by rewrite H|by rewrite H'].
  - apply (ex_owner _ Hex t). by rewrite H.
Qed.

(** ** The wait list *)

(** The thread that [p] is about to wake, once it is off the list. *)
Definition waking (p : pc) : option Z :=
  match p with U45 w | U46 w | U47 w => Some w | _ => None end.

Definition parked (p : pc) : bool := match p with L25 | L30 => true | _ => false end.
Definition pushing (p : pc) : bool := match p with L18 | L19 => true | _ => false end.

(** [l] are the threads on the wait list. *)
Record wait_inv (m : mutex) (l : list Z) : Prop := {
  wi_list : lseg (wait_next m) (waiters m) l 0;
  wi_nodup : NoDup l;
  wi_in t : t ∈ l -> pushing (at_pc m t) = true \/
    (parked (at_pc m t) = true /\ blocked m t = true);
  wi_pushing t : pushing (at_pc m t) = true -> t ∈ l;
  wi_L19 t : at_pc m t = L19 -> blocked m t = true;
  wi_L30 t : at_pc m t = L30 -> blocked m t = true -> avail m t = false;
  wi_blocked t : blocked m t = true -> t ∈ l \/ exists u, waking (at_pc m u) = Some t;
  wi_avail t : avail m t = false -> blocked m t = true;
  wi_L17 t : at_pc m t = L17 -> wait_next m t = waiters m;
  wi_U43 t : at_pc m t = U43 -> l <> [];
  wi_U44 t w : at_pc m t = U44 w -> head l = Some w;
  wi_waking u w : waking (at_pc m u) = Some w ->
    (w ∉ l) /\ blocked m w = true /\ parked (at_pc m w) = true;
  wi_waking_uniq u u' w : waking (at_pc m u) = Some w -> waking (at_pc m u') = Some w -> u = u';
}.

(** What the wait list's invariant can see of a control point. *)
Definition visible (p : pc) : bool :=
  match p with
  | L17 | L18 | L19 | L25 | L30 | U43 | U44 _ | U45 _ | U46 _ | U47 _ => true
  | _ => false
  end.

Lemma wait_inv_quiet m m' l t :
  wait_inv m l -> (forall x, x <> t -> at_pc m' x = at_pc m x) ->
  visible (at_pc m t) = false -> visible (at_pc m' t) = false -> 
  (forall x, x <> t -> wait_next m' x = wait_next m x) ->
  waiters m' = waiters m -> blocked m' = blocked m -> avail m' = avail m -> wait_inv m' l.
Proof.
  intros [I1 I2 I3 I4 I5 I6 I7 I8 I9 I10 I11 I12 I13] Ho Hv Hv' Hn Hw Hb Ha.
  assert (forall (P : pc -> Prop) x, (forall p, P p -> visible p = true) -> P (at_pc m' x) <-> P (at_pc m x)) as HP.
  { intros P x Hvis. destruct (Z.eq_dec x t) as [->|]; [|by rewrite Ho].
    split; intros H; apply Hvis in H; congruence. }
  constructor; rewrite ?Hw, ?Hb, ?Ha.
  - eapply lseg_ext; [|exact I1]. intros x Hx. apply Hn. intros ->. 
    destruct (I3 _ Hx) as [H|[H _]]; destruct (at_pc m t); simpl in *; congruence.
  - done.
  - intros x Hx. rewrite (HP (fun p => pushing p = true)), (HP (fun p => parked p = true)); [by apply I3|by intros []..].
  - intros x. rewrite (HP (fun p => pushing p = true)) by (by intros []). apply I4.
  - intros x. rewrite (HP (fun p => p = L19)) by (by intros []). apply I5.
  - intros x. rewrite (HP (fun p => p = L30)) by (by intros []). apply I6.
  - intros x [?|[u Hu]]%I7; [by left|right]. exists u. 
    by rewrite (HP (fun p => waking p = Some x)) by (by intros []).
  - done.
  - intros x. rewrite (HP (fun p => p = L17)) by (by intros []). intros Hx.
    rewrite Hn; [by apply I9|]. intros ->. by rewrite Hx in Hv.
  - intros x. rewrite (HP (fun p => p = U43)) by (by intros []). apply I10.
  - intros x w. rewrite (HP (fun p => p = U44 w)) by (by intros []). apply I11.
  - intros u w. rewrite (HP (fun p => waking p = Some w)) by (by intros []).
    rewrite (HP (fun p => parked p = true)) by (by intros []). apply I12.
  - intros u u' w. rewrite !(HP (fun p => waking p = Some w)) by (by intros []). apply I13.
Qed.

(** Split on whether each mentioned thread is the one that moves. *)
Ltac case_threads :=
  unfold fupd in *;
  repeat match goal with
  | |- context [?x =? ?t] => destruct (Z.eqb_spec x t); subst
  | H : context [?x =? ?t] |- _ => destruct (Z.eqb_spec x t); subst
  end.
(** The clauses that a step of a thread leaves alone; [Hp] says where it is. *)
Ltac wi_auto Hp I3 I7 I12 I13 :=
  constructor; cbn; intros; try assumption;
  case_threads; simpl in *; try discriminate; try assumption;
  repeat match goal with
  | H : waking (at_pc _ ?u) = Some ?w |- _ =>
      lazymatch goal with _ : parked (at_pc _ w) = _ |- _ => fail | _ => destruct (I12 u w H) as (? & ? & ?) end
  end;
  try match goal with
  | H : blocked _ ?x = true |- _ \/ _ =>
      let u := fresh "u" in let Hu := fresh "Hu" in
      destruct (I7 x H) as [?|[u Hu]];
      [left; solve [assumption | right; assumption]
      |right; exists u; cbn; case_threads; [rewrite Hp in Hu; solve [discriminate Hu | exact Hu]|exact Hu]]
  | H : ?x ∈ _ |- _ => destruct (I3 x H) as [?|[? ?]]
  end;
  try rewrite Hp in *; simpl in *;
  try solve [congruence | eauto | intuition congruence | eapply I13; eauto].

Lemma wait_lock_step m m' l t :
  excl m -> wait_inv m l -> t <> 0 -> avail m t = true -> mutex_lock t m = Some m' -> exists l', wait_inv m' l'.
Proof.
  intros Hex Hwi Ht0 Hav H. pose proof Hwi as [I1 I2 I3 I4 I5 I6 I7 I8 I9 I10 I11 I12 I13].
  unfold mutex_lock, release in H. destruct (at_pc m t) eqn:Hp; try discriminate H;
      try (apply acquire_inv in H as [? H]); simplify_eq/=.
  all: try (exists l; eapply (wait_inv_quiet m _ l t); 
    [done|intros; cbn; by rewrite ?fupd_ne|by rewrite ?Hp|cbn; by rewrite ?fupd_eq|intros; cbn; by rewrite ?fupd_ne|done..]).
  all: try (exists l; eapply (wait_inv_quiet m _ l t); 
    [done|intros; cbn; by rewrite ?fupd_ne|by rewrite ?Hp|cbn; rewrite ?fupd_eq; by destruct (locked m)|intros; cbn; by rewrite ?fupd_ne|done..]).
  - (* L16 *) exists l. wi_auto Hp I3 I7 I12 I13. eapply lseg_ext; [|exact I1].
    intros x Hx. cbn. destruct (Z.eqb_spec x t) as [->|]; [|done]. destruct (I3 _ Hx) as [Ho|[Ho _]]; by rewrite Hp in Ho.
  - (* L17 *) assert (t ∉ l) as Hin. { intros [Ho|[Ho _]]%I3; by rewrite Hp in Ho. }
    exists (t :: l). wi_auto Hp I3 I7 I12 I13.
    + rewrite (I9 t Hp). done.
    + by apply NoDup_cons.
    + match goal with Ho : _ ∈ _ :: _ |- _ => apply elem_of_cons in Ho as [?|?]; [done|by apply I3] end.
    + left.
    + right. by apply I4.
    + exfalso. match goal with Ho : at_pc m ?x = L17, Hn : ?x <> t |- _ => apply Hn, (ex_holder_uniq _ Hex); [by rewrite Ho|by rewrite Hp] end.
    + exfalso. match goal with Ho : at_pc m ?x = U44 _, Hn : ?x <> t |- _ => apply Hn, (ex_holder_uniq _ Hex); [by rewrite Ho|by rewrite Hp] end.
    + split; [|done]. intros [?|?]%elem_of_cons; done.
  - (* L18 *) assert (t ∈ l) as Hin by (apply I4; by rewrite Hp). exists l. wi_auto Hp I3 I7 I12 I13.
  - (* L19 *) exists l. wi_auto Hp I3 I7 I12 I13.
  - (* L25 *) exists l. wi_auto Hp I3 I7 I12 I13; by destruct (blocked m t).
  - (* L30 *) exists l. assert (blocked m t = false) as Hb. { destruct (blocked m t) eqn:E; [|done]. rewrite I6 in Hav; done. }
    assert (t ∉ l) as Hin. { intros [Ho|[_ Ho]]%I3; [by rewrite Hp in Ho|congruence]. }
    wi_auto Hp I3 I7 I12 I13.
Qed.

Lemma wait_unlock_step m m' l t :
  excl m -> wait_inv m l -> t <> 0 -> avail m t = true -> mutex_unlock t m = Some m' -> exists l', wait_inv m' l'.
Proof.
  intros Hex Hwi Ht0 Hav H. pose proof Hwi as [I1 I2 I3 I4 I5 I6 I7 I8 I9 I10 I11 I12 I13].
  unfold mutex_unlock, release in H. destruct (at_pc m t) eqn:Hp; try discriminate H;
      try (apply acquire_inv in H as [? H]);
      try (apply bind_Some in H as (m1 & H1 & H); apply wake_inv in H1 as [Hoff ->]); simplify_eq/=.
  all: try (exists l; eapply (wait_inv_quiet m _ l t); 
    [done|intros; cbn; by rewrite ?fupd_ne|by rewrite ?Hp|cbn; by rewrite ?fupd_eq|intros; cbn; by rewrite ?fupd_ne|done..]).
  - (* U42 *) exists l. destruct (Z.eqb_spec (waiters m) 0) as [Hz|Hz]; wi_auto Hp I3 I7 I12 I13.
    by intros ->.
  - (* U43 *) exists l. wi_auto Hp I3 I7 I12 I13. destruct l as [|x l]; [by destruct (I10 t)|].
    destruct I1 as [? _]. simpl. congruence.
  - (* U44 *) destruct l as [|w0 l]; [by apply I11 in Hp|]. pose proof (I11 _ _ Hp) as [= ->].
    apply NoDup_cons in I2 as [Hwl Hnd]. destruct I1 as (Hw & Hw0 & Hl).
    assert (parked (at_pc m woken) = true /\ blocked m woken = true) as [F2 F3].
    { destruct (I3 woken) as [Ho|?]; [left| |done]. exfalso.
      assert (woken = t) as -> by (apply (ex_holder_uniq _ Hex); [by destruct (at_pc m woken)|by rewrite Hp]).
      by rewrite Hp in Ho. }
    assert (woken <> t) as Hwt. { intros ->. by rewrite Hp in F2. }
    assert (forall x, x ∈ l -> pushing (at_pc m x) = true \/ parked (at_pc m x) = true /\ blocked m x = true) as I3'.
    { intros x Hx. apply I3. by right. }
    assert (forall x, x <> t -> holds (at_pc m x) = false) as Hu.
    { intros x Hx. destruct (holds (at_pc m x)) eqn:E; [|done].
      destruct Hx. apply (ex_holder_uniq _ Hex); [done|by rewrite Hp]. }
    assert (forall u, waking (at_pc m u) <> Some woken) as Hnw.
    { intros u (Ho & _)%I12. apply Ho. left. }
    subst woken. set (woken := waiters m) in *.
    exists l. wi_auto Hp I3' I7 I12 I13;
      try (exfalso; match goal with Hn : _ <> t |- _ => apply Hu in Hn end;
           match goal with Ho : at_pc _ _ = _ |- _ => by rewrite Ho in *
           | Ho : pushing ?p = true |- _ => by destruct p end);
      try (exfalso; by eapply (Hnw _); congruence).
    + destruct (I7 t0) as [[->|?]%elem_of_cons|[u Hw']]; [done| | |].
      * right. exists t. by rewrite Z.eqb_refl.
      * by left.
      * right. exists u. destruct (Z.eqb_spec u t) as [->|]; [by rewrite Hp in Hw'|done].
    + split; [|done]. intros ?. match goal with Ho : _ ∉ _ :: _ |- _ => apply Ho end. by right.
  - (* U45 *) destruct (I12 t woken) as (F1 & F2 & F3); [by rewrite Hp|].
    assert (woken <> t) as Hwt. { intros ->. by rewrite Hp in F3. }
    exists l. wi_auto Hp I3 I7 I12 I13.
    + eapply lseg_ext; [|exact I1]. intros x Hx. cbn. by destruct (Z.eqb_spec x woken) as [->|].
    + match goal with Ho : at_pc m woken = _ |- _ => by rewrite Ho in F3 end.
    + eapply I13; [done|by rewrite Hp].
    + symmetry. eapply I13; [done|by rewrite Hp].
  - (* U46 *) destruct (I12 t woken) as (F1 & F2 & F3); [by rewrite Hp|].
    assert (woken <> t) as Hwt. { intros ->. by rewrite Hp in F3. }
    exists l. wi_auto Hp I3 I7 I12 I13.
    + eapply I13; [done|by rewrite Hp].
    + symmetry. eapply I13; [done|by rewrite Hp].
  - (* U47 *) destruct (I12 t woken) as (F1 & F2 & F3); [by rewrite Hp|].
    assert (woken <> t) as Hwt. { intros ->. by rewrite Hp in F3. }
    exists l. wi_auto Hp I3 I7 I12 I13.
    + match goal with Ho : at_pc m woken = _ |- _ => by rewrite Ho in F3 end.
    + match goal with Ho : blocked m ?x = true, Hn : ?x <> woken |- _ =>
        destruct (I7 x Ho) as [?|[u Hu]]; [by left|right; exists u] end.
      destruct (Z.eqb_spec u t) as [->|]; [|done]. rewrite Hp in Hu. simpl in Hu. congruence.
    + exfalso. match goal with Hn : ?u <> t |- _ => apply Hn, (I13 _ _ woken); [done|by rewrite Hp] end.
Qed.

Lemma wait_inv_step m m' l : excl m -> wait_inv m l -> step m m' -> exists l', wait_inv m' l'.
Proof.
  intros Hex Hwi Hs. pose proof Hwi as [I1 I2 I3 I4 I5 I6 I7 I8 I9 I10 I11 I12 I13].
  destruct Hs as [t m' ? ? H|t m' ? ? H|t m' ? ? H|t ? ? Hp|t ? ? Hp|t ? ? Hp|t ? Hav].
  - by eapply wait_lock_step.
  - by eapply wait_unlock_step.
  - exists l. unfold mutex_try_lock, release in H. destruct (at_pc m t) eqn:Hp; try discriminate H;
      try (apply acquire_inv in H as [? H]); simplify_eq/=; apply (wait_inv_quiet m _ l t); try done;
      cbn; rewrite ?fupd_eq, ?Hp; try (intros; by rewrite fupd_ne); try done.
    by destruct (locked m).
  - exists l. apply (wait_inv_quiet m _ l t); cbn; rewrite ?fupd_eq, ?Hp; try done; intros; by rewrite fupd_ne.
  - exists l. apply (wait_inv_quiet m _ l t); cbn; rewrite ?fupd_eq, ?Hp; try done; intros; by rewrite fupd_ne.
  - exists l. apply (wait_inv_quiet m _ l t); cbn; rewrite ?fupd_eq, ?Hp; try done; intros; by rewrite fupd_ne.
  - exists l. constructor; cbn; try done; intros x; unfold fupd; destruct (Z.eqb_spec x t) as [->|]; try done.
    + intros Hl Hb. by rewrite Hb.
    + by apply I6.
    + by destruct (blocked m t).
    + by apply I8.
Qed.

Lemma init_excl : excl MUTEX_INIT.
Proof. constructor; simpl; auto; done. Qed.
Lemma init_wait_inv : wait_inv MUTEX_INIT [].
Proof. constructor; simpl; try done; [constructor|by intros ? ?%elem_of_nil]. Qed.

(** ** No lost wake-up *)

(** [t] is going to look at the mutex again, or to wake the next waiter. *)
Definition rescuer (m : mutex) (t : Z) : Prop :=
  match at_pc m t with
  | L13 | L32 | U41 | U42 | U43 | U44 _ | U45 _ | U46 _ | U47 _ => True
  | L25 | L30 => blocked m t = false
  | _ => False
  end.

Definition served (m : mutex) : Prop :=
  waiters m <> 0 -> locked m = true \/ exists t, rescuer m t.

Lemma served_keep m m' t :
  (forall x, x <> t -> at_pc m' x = at_pc m x) -> (forall x, blocked m' x = true -> blocked m x = true) ->
  waiters m' = waiters m -> locked m' = locked m -> (rescuer m t -> rescuer m' t) ->
  served m -> served m'.
Proof.
  intros Ho Hb Hw Hl Hr Hs. unfold served. rewrite Hw, Hl. intros H0.
  destruct (Hs H0) as [?|[x Hx]]; [by left|right]. exists x.
  destruct (Z.eq_dec x t) as [->|Hne]; [by apply Hr|].
  unfold rescuer in *. rewrite Ho by done. specialize (Hb x).
  destruct (at_pc m x); try done; destruct (blocked m' x); try done; by rewrite Hb in Hx.
Qed.

Lemma served_step m m' l : excl m -> wait_inv m l -> served m -> step m m' -> served m'.
Proof.
  intros Hex Hwi Hsv Hs.
  destruct Hs as [t m' ? Hav H|t m' ? Hav H|t m' ? Hav H|t ? ? Hp|t ? ? Hp|t ? ? Hp|t ? Hav].
  - unfold mutex_lock, release in H. destruct (at_pc m t) eqn:Hp; try discriminate H;
      try (apply acquire_inv in H as [? H]); simplify_eq/=.
    all: try (apply (served_keep m _ t); cbn; unfold rescuer; cbn; rewrite ?fupd_eq, ?Hp; try done; intros; by rewrite ?fupd_ne).
    + intros _. cbn. destruct (locked m) eqn:El; [by left|right]. exists t. unfold rescuer. cbn. by rewrite fupd_eq.
    + left. apply (ex_saw_locked _ Hex t). by rewrite Hp.
    + left. apply (ex_saw_locked _ Hex t). by rewrite Hp.
    + by left.
  - unfold mutex_unlock, release in H. destruct (at_pc m t) eqn:Hp; try discriminate H;
      try (apply acquire_inv in H as [? H]);
      try (apply bind_Some in H as (m1 & H1 & H); apply wake_inv in H1 as [Hoff ->]); simplify_eq/=.
    all: try (apply (served_keep m _ t); cbn; unfold rescuer; cbn; rewrite ?fupd_eq, ?Hp; try done; intros; by rewrite ?fupd_ne).
    + right. exists t. unfold rescuer. cbn. by rewrite fupd_eq.
    + intros H1. cbn in H1. destruct (Z.eqb_spec (waiters m) 0); [done|].
      right. exists t. unfold rescuer. cbn. by rewrite fupd_eq.
    + right. exists t. unfold rescuer. cbn. by rewrite fupd_eq.
    + destruct (wi_waking _ _ Hwi t woken) as (_ & _ & Hpk); [by rewrite Hp|].
      right. exists woken. unfold rescuer. cbn. rewrite fupd_eq, fupd_ne by (intros ->; by rewrite Hp in Hpk).
      by destruct (at_pc m woken).
  - unfold mutex_try_lock, release in H. destruct (at_pc m t) eqn:Hp; try discriminate H;
      try (apply acquire_inv in H as [? H]); simplify_eq/=.
    all: try (apply (served_keep m _ t); cbn; unfold rescuer; cbn; rewrite ?fupd_eq, ?Hp; try done; intros; by rewrite ?fupd_ne).
    by left.
  - apply (served_keep m _ t); cbn; unfold rescuer; cbn; rewrite ?fupd_eq, ?Hp; try done; intros; by rewrite ?fupd_ne.
  - apply (served_keep m _ t); cbn; unfold rescuer; cbn; rewrite ?fupd_eq, ?Hp; try done; intros; by rewrite ?fupd_ne.
  - apply (served_keep m _ t); cbn; unfold rescuer; cbn; rewrite ?fupd_eq, ?Hp; try done; intros; by rewrite ?fupd_ne.
  - done.
Qed.

Lemma reachable_inv m : rtc step MUTEX_INIT m -> excl m /\ served m /\ exists l, wait_inv m l.
Proof.
  intros Hrun. apply rtc_ind_r with (P := fun m => excl m /\ served m /\ exists l, wait_inv m l) (3 := Hrun).
  - split; [apply init_excl|]. split; [by intros ?|]. exists []. apply init_wait_inv.
  - intros m1 m2 _ Hs (Hex & Hsv & l & Hwi). split; [by eapply excl_step|].
    split; [by eapply served_step|by eapply wait_inv_step].
Qed.

(** C9: no lost wake-up. In every reachable state with waiting threads, either
    the mutex is locked (and its owner will wake one of them when it unlocks) or
    some thread is inside the unlock that wakes the next waiter, or has been
    woken and is going to test the mutex again. Every blocked thread is on the
    wait list or about to be woken by exactly one unlocking thread. *)
Theorem mutex_no_lost_wakeup m :
  rtc step MUTEX_INIT m ->
  (waiters m <> 0 -> locked m = true \/ exists t, rescuer m t) /\
  exists l, lseg (wait_next m) (waiters m) l 0 /\
    forall t, blocked m t = true -> t ∈ l \/ exists! u, waking (at_pc m u) = Some t.
Proof.
  intros (_ & Hsv & l & Hwi)%reachable_inv. split; [exact Hsv|]. exists l. split; [apply Hwi|].
  intros t [?|[u Hu]]%(wi_blocked _ _ Hwi); [by left|right]. exists u. split; [done|].
  intros u' Hu'. by apply (wi_waking_uniq _ _ Hwi _ _ t).
Qed.

(** ** Preemption inside [mutex_lock]

    The spinlock does not disable interrupts. When the timer preempts a thread
    behind line 18, it is BLOCKED and holds the spinlock: the tick does not
    requeue it, and the unlocking thread that would wake it spins on the lock. *)

Lemma step_unavail m m' x :
  step m m' -> avail m x = false ->
  at_pc m' x = at_pc m x /\ (avail m' x = false \/ exists u, at_pc m u = U47 x).
Proof.
  intros Hs Hx.
  destruct Hs as [t m' ? Hav H|t m' ? Hav H|t m' ? Hav H|t ? Hav Hp|t ? Hav Hp|t ? Hav Hp|t ? Hav];
    assert (x <> t) as Hne by (intros ->; congruence).
  - unfold mutex_lock, release in H. destruct (at_pc m t) eqn:Hp; try discriminate H;
      try (apply acquire_inv in H as [? H]); simplify_eq/=; by rewrite !fupd_ne by done; auto.
  - unfold mutex_unlock, release in H. destruct (at_pc m t) eqn:Hp; try discriminate H;
      try (apply acquire_inv in H as [? H]);
      try (apply bind_Some in H as (m1 & H1 & H); apply wake_inv in H1 as [Hoff ->]); simplify_eq/=;
      rewrite ?(fupd_ne (at_pc m)) by done; auto.
    split; [done|]. destruct (Z.eq_dec x woken) as [->|]; [right; by exists t|left; by rewrite fupd_ne].
  - unfold mutex_try_lock, release in H. destruct (at_pc m t) eqn:Hp; try discriminate H;
      try (apply acquire_inv in H as [? H]); simplify_eq/=; by rewrite !fupd_ne by done; auto.
  - cbn. rewrite fupd_ne by done. auto.
  - cbn. rewrite fupd_ne by done. auto.
  - cbn. rewrite fupd_ne by done. auto.
  - cbn. rewrite fupd_ne by done. auto.
Qed.

(** A schedule: who moves, and how. *)
Inductive act := DoLock (t : Z) | CallLock (t : Z) | Preempt (t : Z).

Definition perform (a : act) (m : mutex) : option mutex :=
  match a with
  | DoLock t => if avail m t && negb (t =? 0) then mutex_lock t m else None
  | CallLock t =>
      if avail m t && negb (t =? 0) then
        match at_pc m t with Out => Some (goto t L12 m) | _ => None end
      else None
  | Preempt t => if avail m t && negb (t =? 0) then Some (tick t m) else None
  end.

Fixpoint run (l : list act) (m : mutex) : option mutex :=
  match l with [] => Some m | a :: l' => m' ← perform a m; run l' m' end.

Lemma run_rtc l m m' : run l m = Some m' -> rtc step m m'.
Proof.
  revert m. induction l as [|a l IH]; intros m; simpl; [by intros [= ->]|].
  intros (m1 & Hm1 & H)%bind_Some. apply rtc_l with m1; [|by apply IH].
  destruct a as [t|t|t]; simpl in Hm1; destruct (avail m t) eqn:Ha; try done;
    destruct (Z.eqb_spec t 0); try done; simpl in Hm1.
  - by eapply step_lock.
  - destruct (at_pc m t) eqn:Hp; try done. injection Hm1 as <-. by apply call_lock.
  - injection Hm1 as <-. by apply preempt.
Qed.

(** Thread 1 takes the mutex; thread 2 waits for it and is preempted at line 19. *)
Definition bad_schedule : list act :=
  CallLock 1 :: replicate 5 (DoLock 1) ++ CallLock 2 :: replicate 5 (DoLock 2) ++ [Preempt 2].

Lemma bad_schedule_result :
  exists m, run bad_schedule MUTEX_INIT = Some m /\
    (at_pc m 1, at_pc m 2, avail m 2, waiters m) = (Crit, L19, false, 2).
Proof.
  assert (option_map (fun m => (at_pc m 1, at_pc m 2, avail m 2, waiters m)) (run bad_schedule MUTEX_INIT) =
    Some (Crit, L19, false, 2)) as H by (vm_compute; reflexivity).
  destruct (run bad_schedule MUTEX_INIT) as [m|]; [|discriminate H]. exists m. split; [done|].
  simpl in H. congruence.
Qed.

(** A preemption can disable the mutex for ever. After this schedule thread
    1 owns the mutex, and in all continuations thread 2 keeps the spinlock and
    never runs again, so that no call on the mutex gets past line 12, 39 or 55. *)
Theorem mutex_preempted_deadlock :
  exists m, rtc step MUTEX_INIT m /\ at_pc m 1 = Crit /\ at_pc m 2 = L19 /\
    forall m', rtc step m m' -> at_pc m' 2 = L19 /\ avail m' 2 = false /\ lock m' = 1.
Proof.
  destruct bad_schedule_result as (m & E & [= H1 H2 H3 _]). pose proof (run_rtc _ _ _ E) as Hrun.
  exists m. split; [done|]. split; [done|]. split; [done|]. clear E H1. intros m' Hm.
  apply rtc_ind_r with (P := fun m' => rtc step MUTEX_INIT m' /\ at_pc m' 2 = L19 /\ avail m' 2 = false) in Hm
    as (Hr & Hp & Ha).
  - split; [done|]. split; [done|]. destruct (reachable_inv _ Hr) as (Hex & _).
    apply (ex_holder _ Hex 2). by rewrite Hp.
  - done.
  - intros m1 m2 _ Hs (Hr & Hp & Ha). split; [by eapply rtc_r|].
    destruct (reachable_inv _ Hr) as (_ & _ & l & Hwi).
    destruct (step_unavail _ _ 2 Hs Ha) as [-> [?|[u Hu]]]; [done|]. exfalso.
    destruct (wi_waking _ _ Hwi u 2) as (_ & _ & Hpk); [by rewrite Hu|]. by rewrite Hp in Hpk.
Qed.

(** The two properties above on a concrete run. *)
Lemma mutex_exclusion_witness :
  exists m, rtc step MUTEX_INIT m /\ at_pc m 1 = Crit /\ locked m = true.
Proof.
  destruct bad_schedule_result as (m & E & [= H1 _ _ _]).
  destruct (mutex_exclusion m (run_rtc _ _ _ E)) as [_ H].
  exists m. split; [exact (run_rtc _ _ _ E)|]. split; [exact H1|exact (H 1 H1)].
Defined.

Lemma mutex_no_lost_wakeup_witness :
  exists m, rtc step MUTEX_INIT m /\ waiters m = 2 /\ (locked m = true \/ exists t, rescuer m t).
Proof.
  destruct bad_schedule_result as (m & E & [= _ _ _ H1]).
  destruct (mutex_no_lost_wakeup m (run_rtc _ _ _ E)) as [H _].
  exists m. split; [exact (run_rtc _ _ _ E)|]. split; [exact H1|]. apply H. rewrite H1. lia.
Defined.

End Mutex.
