(* ===== verification/Elf.v ===== *)
(** * The ELF loader

    Models [kernel/exec/elf.c] with the structures of [include/os/elf64.h]. The
    image is a list of bytes and its length is the [size] argument; a read of
    the image outside its bounds is a [Panic IMAGE_READ], which the theorems
    exclude. Pages are written through the direct map into the physical memory
    of [Vmm], one byte of a quadword at a time. [serial_write] is not modelled.
    [elf_load] returns [None] for [return false]. *)

From S2P Require Import Prelude Bytes Pmm Vmm.
Import Pmm Vmm.

Module Elf.

Definition PAGE_SIZE : Z := 4096.
Definition USER_STACK_PAGES : Z := 4.
Definition USER_STACK_TOP : Z := 0x800000000000.
Definition USER_STACK_BASE : Z := USER_STACK_TOP - USER_STACK_PAGES * PAGE_SIZE.

Definition ELFMAG0 : Z := 0x7f.
Definition ELFMAG1 : Z := 0x45.
Definition ELFMAG2 : Z := 0x4c.
Definition ELFMAG3 : Z := 0x46.
Definition ELFCLASS64 : Z := 2.
Definition ET_EXEC : Z := 2.
Definition EM_X86_64 : Z := 62.
Definition PT_LOAD : Z := 1.
Definition PF_W : Z := 2.

Definition sizeof_ehdr : Z := 64.
Definition sizeof_phdr : Z := 56.

Record elf_load_result_t := mk_result { entry : Z; user_sp : Z; cr3 : Z }.

Definition div_ceil (n d : Z) : Z := u64 (u64 (n + d) - 1) / d.

(** ** Bytes of physical memory *)

Definition ram_byte (r : ram_t) (p : Z) : Z := Z.shiftr (r (p - p mod 8)) (8 * (p mod 8)) mod 256.

Definition put_byte (w i v : Z) : Z :=
  Z.lor (Z.ldiff w (Z.shiftl 255 (8 * i))) (Z.shiftl v (8 * i)).

Definition store_byte (p v : Z) : K vmm unit :=
  modify (fun st => set_ram st (store (ram st) (p - p mod 8) (put_byte (ram st (p - p mod 8)) (p mod 8) v))).

(** ** Reads of the image *)

Definition IMAGE_READ : string := "read outside the image".

Section load.
Context (image : list Z).

Definition size : Z := blen image.

(** The bytes at [off], as a little-endian field of a header. *)
Definition image_field (off n : Z) : K vmm Z :=
  if (0 <=? off) && (off + n <=? size) then mret (le_val (slice image off n)) else panic IMAGE_READ.

Definition e_ident (i : Z) : K vmm Z := image_field i 1.
Definition e_type : K vmm Z := image_field 16 2.
Definition e_machine : K vmm Z := image_field 18 2.
Definition e_entry : K vmm Z := image_field 24 8.
Definition e_phoff : K vmm Z := image_field 32 8.
Definition e_phentsize : K vmm Z := image_field 54 2.
Definition e_phnum : K vmm Z := image_field 56 2.

Definition p_type (ph : Z) : K vmm Z := image_field ph 4.
Definition p_flags (ph : Z) : K vmm Z := image_field (ph + 4) 4.
Definition p_offset (ph : Z) : K vmm Z := image_field (ph + 8) 8.
Definition p_vaddr (ph : Z) : K vmm Z := image_field (ph + 16) 8.
Definition p_filesz (ph : Z) : K vmm Z := image_field (ph + 32) 8.
Definition p_memsz (ph : Z) : K vmm Z := image_field (ph + 40) 8.

(** [memset (page_virt, 0, PAGE_SIZE)] clears the 512 quadwords of the page, as
    [Vmm.zero_table] does; [memcpy] goes byte by byte. *)
Definition clear_page (phys : Z) : K vmm unit := zero_table phys.
Definition copy_image (dst src len : Z) : K vmm unit :=
  for_loop (Z.to_nat len) 0 (fun i => b ← image_field (src + i) 1; store_byte (dst + i) b).

(** The pages of one segment, from page [p] on. *)
Fixpoint load_pages (n : nat) (cr3_ vaddr vbase flags p src bytes_left : Z) : K vmm bool :=
  match n with
  | O => mret true
  | S n' =>
      phys ← alloc_page;
      if phys =? PMM_ALLOC_FAILED then mret false else
      _ ← clear_page phys;
      let virt_page := u64 (vbase + u64 (p * PAGE_SIZE)) in
      let page_off := if p =? 0 then u64 (vaddr - vbase) else 0 in
      let copy_len := if PAGE_SIZE - page_off <? bytes_left then PAGE_SIZE - page_off else bytes_left in
      _ ← (if 0 <? copy_len then copy_image (phys + page_off) src copy_len else mret tt);
      ok ← vmm_space_map cr3_ virt_page phys flags;
      if negb ok then mret false
      else load_pages n' cr3_ vaddr vbase flags (p + 1) (src + copy_len) (bytes_left - copy_len)
  end.

(** The body of the loop over the program headers. *)
Definition load_segment (cr3_ i : Z) : K vmm bool :=
  phoff ← e_phoff;
  entsize ← e_phentsize;
  let phdr_off := u64 (phoff + u64 (i * entsize)) in
  if (phdr_off <? phoff) || (size <? phdr_off) || (u64 (size - phdr_off) <? sizeof_phdr) then mret false else
  ty ← p_type phdr_off;
  memsz ← p_memsz phdr_off;
  if negb (ty =? PT_LOAD) || (memsz =? 0) then mret true else
  offset ← p_offset phdr_off;
  filesz ← p_filesz phdr_off;
  if (size <? offset) || (u64 (size - offset) <? filesz) then mret false else
  pflags ← p_flags phdr_off;
  let flags := if negb (Z.land pflags PF_W =? 0) then Z.lor VMM_USER VMM_WRITABLE else VMM_USER in
  vaddr ← p_vaddr phdr_off;
  let vbase := Z.land vaddr (not64 (PAGE_SIZE - 1)) in
  let vend := u64 (vaddr + memsz) in
  if (vend <? vaddr) || (USER_STACK_TOP <=? vaddr) || (USER_STACK_TOP <? vend) then mret false else
  let npages := div_ceil (u64 (vend - vbase)) PAGE_SIZE in
  load_pages (Z.to_nat npages) cr3_ vaddr vbase flags 0 offset filesz.

Fixpoint load_segments (n : nat) (cr3_ i : Z) : K vmm bool :=
  match n with
  | O => mret true
  | S n' => ok ← load_segment cr3_ i; if negb ok then mret false else load_segments n' cr3_ (i + 1)
  end.

Fixpoint load_stack (n : nat) (cr3_ p : Z) : K vmm bool :=
  match n with
  | O => mret true
  | S n' =>
      phys ← alloc_page;
      if phys =? PMM_ALLOC_FAILED then mret false else
      _ ← clear_page phys;
      ok ← vmm_space_map cr3_ (USER_STACK_BASE + p * PAGE_SIZE) phys (Z.lor VMM_USER VMM_WRITABLE);
      if negb ok then mret false else load_stack n' cr3_ (p + 1)
  end.

(** The checks of the header, up to the creation of the address space. *)
Definition header_ok : K vmm bool :=
  if size <? sizeof_ehdr then mret false else
  m0 ← e_ident 0; m1 ← e_ident 1; m2 ← e_ident 2; m3 ← e_ident 3;
  if negb (m0 =? ELFMAG0) || negb (m1 =? ELFMAG1) || negb (m2 =? ELFMAG2) || negb (m3 =? ELFMAG3)
  then mret false else
  cls ← e_ident 4;
  if negb (cls =? ELFCLASS64) then mret false else
  ty ← e_type;
  if negb (ty =? ET_EXEC) then mret false else
  mach ← e_machine;
  if negb (mach =? EM_X86_64) then mret false else
  phoff ← e_phoff;
  phnum ← e_phnum;
  if (phoff =? 0) || (phnum =? 0) then mret false else mret true.

Definition elf_load : K vmm (option elf_load_result_t) :=
  ok ← header_ok;
  if negb ok then mret None else
  c ← vmm_space_create;
  if c =? 0 then mret None else
  phnum ← e_phnum;
  ok ← load_segments (Z.to_nat phnum) c 0;
  if negb ok then mret None else
  ok ← load_stack (Z.to_nat USER_STACK_PAGES) c 0;
  if negb ok then mret None else
  e ← e_entry;
  mret (Some (mk_result e (USER_STACK_TOP - 16) c)).

End load.

(** ** Reads stay inside the image *)

(** The computation does not fail with a read outside the image. *)
Definition in_bounds {A} (k : K vmm A) : Prop := forall st, k st <> Panic IMAGE_READ.

Lemma in_bounds_ret {A} (a : A) : in_bounds (mret a).
Proof. by intros st. Qed.

Lemma in_bounds_bind {A B} (k : K vmm A) (f : A -> K vmm B) :
  in_bounds k -> (forall a, in_bounds (f a)) -> in_bounds (k ≫= f).
Proof.
  intros Hk Hf st. unfold mbind, K_bind. specialize (Hk st).
  destruct (k st) as [[a st']|msg]; [apply Hf|]. intros [= ->]. done.
Qed.

Lemma in_bounds_if {A} (b : bool) (k1 k2 : K vmm A) :
  in_bounds k1 -> in_bounds k2 -> in_bounds (if b then k1 else k2).
Proof. by destruct b. Qed.

Lemma in_bounds_for n lo (body : Z -> K vmm unit) :
  (forall i, lo <= i < lo + Z.of_nat n -> in_bounds (body i)) -> in_bounds (for_loop n lo body).
Proof.
  revert lo. induction n as [|n IH]; intros lo H; cbn [for_loop]; [apply in_bounds_ret|].
  apply in_bounds_bind; [apply H; lia|]. intros _. apply IH. intros i Hi. apply H. lia.
Qed.

Lemma in_bounds_gets {A} (f : vmm -> A) : in_bounds (gets f).
Proof. by intros st. Qed.
Lemma in_bounds_modify f : in_bounds (modify f : K vmm unit).
Proof. by intros st. Qed.

Create HintDb in_bounds discriminated.
#[export] Hint Constants Opaque : in_bounds.
#[export] Hint Resolve in_bounds_ret in_bounds_gets in_bounds_modify : in_bounds.

(** Walk over the structure of a computation. *)
Ltac bounds :=
  repeat lazymatch goal with
  | |- in_bounds (mbind _ _) => apply in_bounds_bind; [|intros ?]
  | |- in_bounds (if _ then _ else _) => apply in_bounds_if
  | |- in_bounds (match ?x with _ => _ end) => destruct x
  | |- in_bounds (for_loop _ _ _) => apply in_bounds_for; intros ? ?
  | |- in_bounds (let x := ?v in _) => cbv zeta
  | |- in_bounds _ => solve [auto with in_bounds nocore]
  end.

Lemma in_bounds_phys_to_virt a : in_bounds (phys_to_virt a).
Proof. intros st. unfold phys_to_virt. by destruct (_ <=? _). Qed.
Lemma in_bounds_alloc_page : in_bounds alloc_page.
Proof. intros st. unfold alloc_page. by destruct (pmm_alloc_page _). Qed.
Lemma in_bounds_load_entry t i : in_bounds (load_entry t i).
Proof. apply in_bounds_gets. Qed.
Lemma in_bounds_store_entry t i v : in_bounds (store_entry t i v).
Proof. apply in_bounds_modify. Qed.
Lemma in_bounds_store_byte p v : in_bounds (store_byte p v).
Proof. apply in_bounds_modify. Qed.
#[export] Hint Resolve in_bounds_phys_to_virt in_bounds_alloc_page in_bounds_load_entry
  in_bounds_store_entry in_bounds_store_byte : in_bounds.

Lemma in_bounds_zero_table t : in_bounds (zero_table t).
Proof. unfold zero_table. bounds. Qed.
Lemma in_bounds_clear_page p : in_bounds (clear_page p).
Proof. apply in_bounds_zero_table. Qed.
#[export] Hint Resolve in_bounds_zero_table in_bounds_clear_page : in_bounds.

Lemma in_bounds_ensure t i f : in_bounds (ensure_table_in t i f).
Proof. unfold ensure_table_in. bounds. Qed.
#[export] Hint Resolve in_bounds_ensure : in_bounds.

Lemma in_bounds_space_map c v p f : in_bounds (vmm_space_map c v p f).
Proof. unfold vmm_space_map. bounds. Qed.
Lemma in_bounds_space_create : in_bounds vmm_space_create.
Proof. unfold vmm_space_create. bounds. Qed.
#[export] Hint Resolve in_bounds_space_map in_bounds_space_create : in_bounds.

(** [vaddr & ~(PAGE_SIZE - 1)]. *)
Lemma page_base v : is_u64 v -> Z.land v (not64 (PAGE_SIZE - 1)) = v - v mod 4096.
Proof.
  intros Hv. change (not64 (PAGE_SIZE - 1)) with (Z.shiftl (Z.ones 52) 12).
  rewrite land_field by lia. change (2 ^ 12) with 4096. rewrite (Z.mod_small (v / 4096)); int_lia.
Qed.

Section bounds.
Context (image : list Z).

Lemma in_bounds_field off n : 0 <= off -> off + n <= size image -> in_bounds (image_field image off n).
Proof.
  intros H1 H2 st. unfold image_field.
  destruct (Z.leb_spec 0 off), (Z.leb_spec (off + n) (size image)); simpl; try lia. done.
Qed.

Lemma in_bounds_copy dst src len : 0 <= src -> 0 <= len -> src + len <= size image -> in_bounds (copy_image image dst src len).
Proof.
  intros H1 H0 H2. unfold copy_image. apply in_bounds_for. intros i Hi.
  apply in_bounds_bind; [apply in_bounds_field; lia|]. intros b. bounds.
Qed.

Lemma in_bounds_pages n c vaddr vbase flags p src left :
  0 <= src -> 0 <= left -> src + left <= size image -> 0 <= u64 (vaddr - vbase) <= PAGE_SIZE ->
  in_bounds (load_pages image n c vaddr vbase flags p src left).
Proof.
  revert p src left. induction n as [|n IH]; intros p src left H1 H2 H3 H4; cbn [load_pages]; [bounds|].
  set (off := if p =? 0 then _ else 0). assert (0 <= off <= PAGE_SIZE) as Hoff.
  { subst off. unfold PAGE_SIZE in *. destruct (p =? 0); lia. }
  set (len := if _ <? _ then _ else _).
  assert (0 <= len <= left) as Hlen.
  { subst len. destruct (Z.ltb_spec (PAGE_SIZE - off) left); lia. }
  bounds.
  - apply in_bounds_copy; lia.
  - apply IH; try done; lia.
Qed.

Hypothesis Hbytes : bytes image.
Hypothesis Hsize : is_u64 (size image).

Lemma in_bounds_field_bind {B} off n (f : Z -> K vmm B) :
  0 <= off -> 0 <= n -> off + n <= size image -> (forall v, 0 <= v < 256 ^ n -> in_bounds (f v)) ->
  in_bounds (image_field image off n ≫= f).
Proof.
  intros H1 H0 H2 Hf st. unfold image_field.
  destruct (Z.leb_spec 0 off), (Z.leb_spec (off + n) (size image)); simpl; try lia.
  apply (Hf (le_val (slice image off n))).
  pose proof (le_val_range _ (slice_bytes image off n Hbytes)) as Hr.
  rewrite blen_slice in Hr by (unfold size in *; lia). done.
Qed.

Lemma in_bounds_segment c i : sizeof_ehdr <= size image -> in_bounds (load_segment image c i).
Proof.
  intros Hs. unfold sizeof_ehdr in Hs. unfold load_segment, e_phoff, e_phentsize.
  apply in_bounds_field_bind; [lia..|]. intros phoff _.
  apply in_bounds_field_bind; [lia..|]. intros ent _.
  pose proof (u64_range (phoff + u64 (i * ent))) as Hph. set (ph := u64 (phoff + _)) in *. clearbody ph.
  destruct (_ || _ || _) eqn:E; [bounds|].
  apply orb_false_elim in E as [[_ E1]%orb_false_elim E2]. unfold sizeof_phdr in E2.
  assert (ph + 56 <= size image) as Hb.
  { destruct (Z.ltb_spec (size image) ph); [done|]. destruct (Z.ltb_spec (u64 (size image - ph)) 56); [done|].
    rewrite u64_small in * by int_lia. lia. }
  assert (0 <= ph) by (clear -Hph; int_lia). clear E1 E2 Hph.
  unfold p_type, p_memsz, p_offset, p_filesz, p_flags, p_vaddr.
  do 2 (apply in_bounds_field_bind; [lia..|]; intros ? _). destruct (_ || _); [bounds|].
  apply in_bounds_field_bind; [lia..|]. intros offset Ho.
  apply in_bounds_field_bind; [lia..|]. intros filesz Hfz.
  destruct (_ || _) eqn:E; [bounds|].
  apply orb_false_elim in E as [E1 E2].
  assert (offset + filesz <= size image) as Hf.
  { destruct (Z.ltb_spec (size image) offset); [done|].
    destruct (Z.ltb_spec (u64 (size image - offset)) filesz); [done|].
    rewrite u64_small in * by int_lia. lia. }
  apply in_bounds_field_bind; [lia..|]. intros pflags _.
  apply in_bounds_field_bind; [lia..|]. intros vaddr Hv.
  destruct (_ || _ || _); [bounds|]. apply in_bounds_pages; [lia..|].
  rewrite page_base by (clear -Hv; int_lia). unfold PAGE_SIZE. clear -Hv. int_lia.
Qed.

Lemma in_bounds_segments n c i : sizeof_ehdr <= size image -> in_bounds (load_segments image n c i).
Proof.
  intros Hs. revert i. induction n as [|n IH]; intros i; cbn [load_segments]; [bounds|].
  apply in_bounds_bind; [by apply in_bounds_segment|]. intros ok. bounds.
Qed.

Lemma in_bounds_stack n c p : in_bounds (load_stack n c p).
Proof. revert p. induction n as [|n IH]; intros p; cbn [load_stack]; bounds. Qed.

End bounds.

(** C31: memory safety of the loader. For every image, however malformed, no read
    of [elf_load] lies outside the image. *)
Theorem elf_load_in_bounds image st :
  bytes image -> is_u64 (blen image) -> elf_load image st <> Panic IMAGE_READ.
Proof.
  intros Hb Hs. revert st. change (in_bounds (elf_load image)). unfold elf_load, header_ok.
  destruct (Z.ltb_spec (size image) sizeof_ehdr) as [|Hsz]; [apply in_bounds_ret|].
  unfold e_ident, e_type, e_machine, e_phoff, e_phnum, e_entry, sizeof_ehdr in *.
  pose proof (fun n c i => in_bounds_segments image Hb Hs n c i Hsz) as Hseg.
  pose proof in_bounds_stack as Hst.
  assert (forall off n, 0 <= off -> off + n <= 64 -> in_bounds (image_field image off n)) as Hfield.
  { intros off n H1 H2. apply in_bounds_field; lia. }
  bounds; try (apply Hfield; lia).
Qed.

(** ** What an accepted image satisfies *)

Definition field (image : list Z) (off n : Z) : Z := le_val (slice image off n).

Definition phdr_offset (image : list Z) (i : Z) : Z :=
  u64 (field image 32 8 + u64 (i * field image 54 2)).

(** The [i]-th program header lies in the image; if it is loaded, so does its
    file data, and its memory lies below the end of the user stack. *)
Definition segment_ok (image : list Z) (i : Z) : Prop :=
  let ph := phdr_offset image i in
  ph + sizeof_phdr <= size image /\
  (field image ph 4 = PT_LOAD -> field image (ph + 40) 8 <> 0 ->
   field image (ph + 8) 8 + field image (ph + 32) 8 <= size image /\
   field image (ph + 16) 8 + field image (ph + 40) 8 <= USER_STACK_TOP).

Section accepts.
Context (image : list Z).
Hypothesis Hbytes : bytes image.
Hypothesis Hsize : is_u64 (size image).

Lemma field_inv off n st v st' :
  image_field image off n st = Ok (v, st') ->
  v = field image off n /\ st' = st /\ 0 <= off /\ off + n <= size image.
Proof.
  unfold image_field. destruct (Z.leb_spec 0 off), (Z.leb_spec (off + n) (size image)); simpl; try done.
  intros [= <- <-]. done.
Qed.

Lemma field_range off n : 0 <= off -> 0 <= n -> off + n <= size image -> 0 <= field image off n < 256 ^ n.
Proof.
  intros H1 H2 H3. pose proof (le_val_range _ (slice_bytes image off n Hbytes)) as Hr.
  rewrite blen_slice in Hr by (unfold size in *; lia). done.
Qed.

Ltac inv_field H :=
  let v := fresh "v" in let st := fresh "st" in let E := fresh "E" in
  apply K_bind_inv in H as (v & st & E & H); apply field_inv in E as (-> & -> & ? & ?).

Lemma load_segment_inv c i st st' :
  load_segment image c i st = Ok (true, st') -> segment_ok image i.
Proof.
  unfold load_segment, e_phoff, e_phentsize. intros H. do 2 inv_field H. fold (phdr_offset image i) in H.
  set (ph := phdr_offset image i) in *. assert (is_u64 ph) as Hph by apply u64_range.
  destruct (_ || _ || _) eqn:E; [done|].
  apply orb_false_elim in E as [[_ E1%Z.ltb_ge]%orb_false_elim E2%Z.ltb_ge].
  rewrite u64_small in E2 by int_lia. unfold segment_ok. fold ph.
  split; [lia|]. intros Hty Hms.
  unfold p_type, p_memsz, p_offset, p_filesz, p_flags, p_vaddr in H. do 2 inv_field H.
  rewrite Hty in H. destruct (Z.eqb_spec (field image (ph + 40) 8) 0); [done|]. simpl in H.
  do 2 inv_field H. destruct (_ || _) eqn:E; [done|].
  apply orb_false_elim in E as [E3%Z.ltb_ge E4%Z.ltb_ge].
  pose proof (field_range (ph + 8) 8) as R1. pose proof (field_range (ph + 32) 8) as R2.
  rewrite u64_small in E4 by int_lia. split; [lia|].
  do 2 inv_field H. destruct (_ || _ || _) eqn:E; [done|].
  apply orb_false_elim in E as [[E5%Z.ltb_ge E6%Z.leb_gt]%orb_false_elim E7%Z.ltb_ge].
  pose proof (field_range (ph + 16) 8) as R3. pose proof (field_range (ph + 40) 8) as R4.
  revert E5 E7 R3 R4. unfold USER_STACK_TOP in *.
  generalize (field image (ph + 16) 8) (field image (ph + 40) 8). intros a b E5 E7 R3 R4.
  unfold u64 in *. lia.
Qed.

Lemma load_segments_inv n c lo st st' :
  load_segments image n c lo st = Ok (true, st') -> forall i, lo <= i < lo + Z.of_nat n -> segment_ok image i.
Proof.
  revert lo st. induction n as [|n IH]; intros lo st H i Hi; [lia|]. cbn [load_segments] in H.
  K_inv H. destruct r; [|done]. destruct (Z.eq_dec i lo) as [->|]; [by eapply load_segment_inv|].
  eapply IH; [exact H|]. lia.
Qed.

Lemma header_ok_inv st st' :
  header_ok image st = Ok (true, st') ->
  [field image 0 1; field image 1 1; field image 2 1; field image 3 1] = [ELFMAG0; ELFMAG1; ELFMAG2; ELFMAG3] /\
  field image 4 1 = ELFCLASS64 /\ field image 16 2 = ET_EXEC /\ field image 18 2 = EM_X86_64.
Proof.
  unfold header_ok, e_ident, e_type, e_machine. intros H.
  destruct (size image <? sizeof_ehdr); [done|]. do 4 inv_field H.
  destruct (_ || _ || _ || _) eqn:E; [done|]. repeat (apply orb_false_elim in E as [E ?]).
  inv_field H. destruct (Z.eqb_spec (field image 4 1) ELFCLASS64); [|done]. simpl in H.
  inv_field H. destruct (Z.eqb_spec (field image 16 2) ET_EXEC); [|done]. simpl in H.
  inv_field H. destruct (Z.eqb_spec (field image 18 2) EM_X86_64); [|done].
  split; [|done]. repeat match goal with Hn : negb _ = false |- _ => apply negb_false_iff, Z.eqb_eq in Hn end.
  congruence.
Qed.

End accepts.

(** C32: what the loader accepts. When [elf_load] succeeds, the image is an x86-64
    ELF executable, all its program headers lie in the image, the file data of
    every loaded segment lies in the image and its memory in the user half; the
    result has the image's entry point and a 16-byte aligned stack pointer. *)
Theorem elf_load_accepts image st r st' :
  bytes image -> is_u64 (blen image) -> elf_load image st = Ok (Some r, st') ->
  [field image 0 1; field image 1 1; field image 2 1; field image 3 1] = [ELFMAG0; ELFMAG1; ELFMAG2; ELFMAG3] /\
  field image 4 1 = ELFCLASS64 /\ field image 16 2 = ET_EXEC /\ field image 18 2 = EM_X86_64 /\
  (forall i, 0 <= i < field image 56 2 -> segment_ok image i) /\
  entry r = field image 24 8 /\ user_sp r mod 16 = 0 /\
  USER_STACK_BASE <= user_sp r < USER_STACK_TOP /\ cr3 r <> 0.
Proof.
  intros Hb Hs H. unfold elf_load, e_phnum, e_entry in H. K_inv H. destruct r0; [|done].
  apply header_ok_inv in E as (H1 & H2 & H3 & H4). simpl in H.
  K_inv H. destruct (Z.eqb_spec r0 0); [done|].
  K_inv H. apply field_inv in E0 as (-> & -> & ? & ?). K_inv H. destruct r1; [|done]. simpl in H.
  K_inv H. destruct r1; [|done]. simpl in H. K_inv H. apply field_inv in E2 as (-> & -> & ? & ?).
  injection H as <- <-. repeat (split; [done|]). split; [|done].
  intros i Hi. eapply load_segments_inv; [done|done|exact E0|]. lia.
Qed.

(** ** A concrete image *)

(** A header with one program header of a type that is not loaded. *)
Definition tiny_image : list Z :=
  [0x7f; 0x45; 0x4c; 0x46; 2; 1; 1; 0] ++ zeros 8 ++ le_bytes 2 2 ++ le_bytes 2 62 ++ le_bytes 4 1 ++
  le_bytes 8 0x401000 ++ le_bytes 8 64 ++ le_bytes 8 0 ++ le_bytes 4 0 ++ le_bytes 2 64 ++ le_bytes 2 56 ++
  le_bytes 2 1 ++ zeros 6 ++ zeros 56.
(** The same with a program header table that does not fit. *)
Definition cut_image : list Z := take 100 tiny_image.

Lemma elf_load_in_bounds_witness : elf_load cut_image empty_machine <> Panic IMAGE_READ.
Proof.
  apply elf_load_in_bounds.
  - apply bytes_check. reflexivity.
  - vm_compute. split; [discriminate|reflexivity].
Defined.

(** Twelve free pages. *)
Definition roomy_machine : vmm :=
  set_pmm empty_machine (foldr (fun p st => release_page st p) three_free (seqZ 259 9)).

(** The loader's answer and the number of free pages it leaves. *)
Definition outcome_of (image : list Z) : option (option Z * Z) :=
  match elf_load image roomy_machine with
  | Ok (r, st') => Some (entry <$> r, pmm_free_pages (vpmm st'))
  | Panic _ => None
  end.

Lemma tiny_image_loads : outcome_of tiny_image = Some (Some 0x401000, 4).
Proof. vm_compute. reflexivity. Qed.

(** A rejected image costs the page of the address space that was created for
    it: [elf_load] returns without destroying it. *)
Example elf_load_failure_leaks :
  pmm_free_pages (vpmm roomy_machine) = 12 /\ outcome_of cut_image = Some (None, 11).
Proof. vm_compute. split; reflexivity. Qed.

Lemma outcome_of_inv image e n :
  outcome_of image = Some (Some e, n) -> exists r st', elf_load image roomy_machine = Ok (Some r, st').
Proof.
  unfold outcome_of. destruct (elf_load image roomy_machine) as [[[r|] st']|]; try discriminate. by eexists _, _.
Qed.

Lemma tiny_image_bytes : bytes tiny_image /\ is_u64 (blen tiny_image).
Proof. split; [apply bytes_check; reflexivity|]. vm_compute. split; [discriminate|reflexivity]. Qed.

Lemma elf_load_accepts_witness :
  exists r st', elf_load tiny_image roomy_machine = Ok (Some r, st') /\ entry r = field tiny_image 24 8.
Proof.
  destruct (outcome_of_inv _ _ _ tiny_image_loads) as (r & st' & E). exists r, st'. split; [exact E|].
  exact (proj1 (proj2 (proj2 (proj2 (proj2 (proj2
    (elf_load_accepts tiny_image roomy_machine r st' (proj1 tiny_image_bytes) (proj2 tiny_image_bytes) E))))))).
Defined.

End Elf.
