(* ===== verification/Process.v ===== *)
(** * Processes

    Models [kernel/proc/process.c] and [struct process]: the process table and
    pid allocation, creation, start, exit notification, kill, reaping and the
    process listing. Process structs live in a function from their address
    (NULL is 0); threads, the run queue and the heap are those of [Sched], the
    pipes those of [Pipe]. The spinlocks serialise these operations, which run
    here one at a time; [process_wait] is split at the point where it sleeps. *)

From S2P Require Import Prelude Bytes CString Pmm Vmm Heap HeapPages Cred Fd Pipe Sched Elf.
Import CString Cred Fd HeapPages Sched.

Module Process.

Definition MAX_PROCS : Z := 64.
Definition sizeof_process : Z := 736.

Record process := mk_process {
  pid : Z;
  p_thread : Z;
  p_cr3 : Z;
  fds : fd_table_t;
  cred : cred_t;
  exited : bool;
  exit_status : Z;
  wait_queue : Z;
  cwd : list Z;
  name : list Z;
}.

Record procs := mk_procs {
  s_procs : list Z;
  next_pid : Z;
  pm : Z -> process;
  sch : sched;
  pipes : Pipe.s_pipes;
}.

Definition set_procs v (s : procs) : procs := mk_procs v (next_pid s) (pm s) (sch s) (pipes s).
Definition set_next v (s : procs) : procs := mk_procs (s_procs s) v (pm s) (sch s) (pipes s).
Definition set_pm v (s : procs) : procs := mk_procs (s_procs s) (next_pid s) v (sch s) (pipes s).
Definition set_sch v (s : procs) : procs := mk_procs (s_procs s) (next_pid s) (pm s) v (pipes s).
Definition set_pipes v (s : procs) : procs := mk_procs (s_procs s) (next_pid s) (pm s) (sch s) v.

Definition upd_proc (p : Z) (f : process -> process) (s : procs) : procs :=
  set_pm (fun x => if x =? p then f (pm s p) else pm s x) s.

Definition set_pid v (p : process) : process :=
  mk_process v (p_thread p) (p_cr3 p) (fds p) (cred p) (exited p) (exit_status p) (wait_queue p) (cwd p) (name p).
Definition set_thread v (p : process) : process :=
  mk_process (pid p) v (p_cr3 p) (fds p) (cred p) (exited p) (exit_status p) (wait_queue p) (cwd p) (name p).
Definition set_fds v (p : process) : process :=
  mk_process (pid p) (p_thread p) (p_cr3 p) v (cred p) (exited p) (exit_status p) (wait_queue p) (cwd p) (name p).
Definition set_exit (b : bool) v (p : process) : process :=
  mk_process (pid p) (p_thread p) (p_cr3 p) (fds p) (cred p) b v (wait_queue p) (cwd p) (name p).
Definition set_wait_queue v (p : process) : process :=
  mk_process (pid p) (p_thread p) (p_cr3 p) (fds p) (cred p) (exited p) (exit_status p) v (cwd p) (name p).

Definition on_sched {A} (k : K sched A) : K procs A := fun s =>
  match k (sch s) with
  | Ok (a, sc) => Ok (a, set_sch sc s)
  | Panic msg => Panic msg
  end.

(** ** The process table *)

(** The address of the live process with this pid, or 0. *)
Definition find_locked (s : procs) (pid_ : Z) : Z :=
  match find_slot (fun p => negb (p =? 0) && (pid (pm s p) =? pid_)) (s_procs s) 0 with
  | Some i => aget 0 (s_procs s) i
  | None => 0
  end.

Definition process_find (s : procs) (pid_ : Z) : Z := find_locked s pid_.

(** [next_pid++] with 0 skipped on wrap. *)
Definition bump (n : Z) : Z := let n' := u32 (n + 1) in if n' =? 0 then 1 else n'.

Fixpoint alloc_pid_loop (n : nat) (s : procs) : Z * procs :=
  match n with
  | O => (next_pid s, set_next (u32 (next_pid s + 1)) s)
  | S n' =>
      let cand := next_pid s in
      let s := set_next (bump cand) s in
      if negb (cand =? 0) && (find_locked s cand =? 0) then (cand, s) else alloc_pid_loop n' s
  end.
Definition alloc_pid_locked (s : procs) : Z * procs := alloc_pid_loop (Z.to_nat (2 * MAX_PROCS + 2)) s.

(** Store [v] in the first slot that satisfies the test, if any. *)
Definition set_first (p : Z -> bool) (v : Z) (l : list Z) : list Z :=
  match find_slot p l 0 with Some i => aset l i v | None => l end.

Definition process_reap (proc : Z) : K procs unit :=
  if proc =? 0 then mret tt else
  _ ← modify (fun s => set_procs (set_first (fun p => p =? proc) 0 (s_procs s)) s);
  on_sched (on_heap (Heap.kfree proc)).

(** ** Creation *)

Definition process_start (proc : Z) : K procs unit :=
  s ← get_state;
  if negb (proc =? 0) && negb (p_thread (pm s proc) =? 0)
  then on_sched (sched_add (p_thread (pm s proc))) else mret tt.

(** The assignments of the struct before its thread exists; [parent] is the
    creating process or 0. *)
Definition init_process (r : Elf.elf_load_result_t) (parent : Z) (s : procs) (old : process) : process :=
  let dir :=
    if negb (parent =? 0) && negb (aget 0 (cwd (pm s parent)) 0 =? 0)
    then aset (strncpy_buf (cwd old) (cwd (pm s parent)) 255) 255 0
    else aset (aset (cwd old) 0 0x2f) 1 0 in
  mk_process (pid old) (p_thread old) (Elf.cr3 r) fd_table_init (cred_init 0 0) false 0 0 dir
    (aset (name old) 0 0).

(** Returns 0 for NULL. *)
Definition process_create_from_result (lapic_id : Z) (r : Elf.elf_load_result_t) : K procs Z :=
  proc ← on_sched (on_heap (Heap.kmalloc sizeof_process));
  if proc =? 0 then mret 0 else
  parent ← on_sched (sched_current_process lapic_id);
  s ← get_state;
  _ ← modify (upd_proc proc (init_process r parent s));
  t ← on_sched (thread_create_user (Elf.entry r) (Elf.user_sp r) (Elf.cr3 r));
  _ ← modify (upd_proc proc (set_thread t));
  _ ← on_sched (modify (upd_thread t (set_process proc)));
  s ← get_state;
  let '(new_pid, s) := alloc_pid_locked s in
  _ ← put_state (upd_proc proc (set_pid new_pid) s);
  _ ← modify (fun s => set_procs (set_first (fun p => p =? 0) proc (s_procs s)) s);
  mret proc.

Definition on_space {A} (k : K Vmm.vmm A) : K procs A := on_sched (on_vmm k).

Definition process_create_from_elf (lapic_id : Z) (elf_data : list Z) : K procs Z :=
  result ← on_space (Elf.elf_load elf_data);
  match result with
  | None => mret 0
  | Some r =>
      proc ← process_create_from_result lapic_id r;
      _ ← (if negb (proc =? 0) then process_start proc else mret tt);
      mret proc
  end.

(** ** Waiting and exit *)

(** One iteration of the loop in [process_wait] by the thread [t]: [true] when
    the target has exited, otherwise the thread is queued and blocked and goes
    on to yield. *)
Definition process_wait (t target : Z) (s : procs) : bool * procs :=
  if exited (pm s target) then (true, s)
  else
    let s := set_sch (upd_thread t (set_wait_next (wait_queue (pm s target))) (sch s)) s in
    let s := upd_proc target (set_wait_queue t) s in
    (false, set_sch (upd_thread t (set_state THREAD_BLOCKED) (sch s)) s).

(** [while (w) ...]. [None] while a waiter is still on its CPU ([sched_wake]
    spins) or when the fuel runs out. *)
Fixpoint wake_all (fuel : nat) (w : Z) (s : sched) : option sched :=
  match fuel with
  | O => None
  | S f =>
      if w =? 0 then Some s
      else
        let nxt := wait_next (th s w) in
        s' ← sched_wake w (upd_thread w (set_wait_next 0) s);
        wake_all f nxt s'
  end.

Definition process_mark_exited (fuel : nat) (proc status : Z) (s : procs) : option procs :=
  let s := upd_proc proc (set_exit true status) s in
  let w := wait_queue (pm s proc) in
  let s := upd_proc proc (set_wait_queue 0) s in
  sc ← wake_all fuel w (sch s);
  Some (set_sch sc s).

(** Close one descriptor: the body of the loop in [process_kill]. *)
Definition close_fd (e : fd_entry_t) (pp : Pipe.s_pipes) : fd_entry_t * Pipe.s_pipes :=
  if negb (open e) then (e, pp)
  else
    let pp := if bool_decide (type e = FD_PIPE_READ) then Pipe.pipe_close_read (id e) pp else pp in
    let pp := if bool_decide (type e = FD_PIPE_WRITE) then Pipe.pipe_close_write (id e) pp else pp in
    (mk_entry false (type e) (id e), pp).

Fixpoint close_all (l : list fd_entry_t) (pp : Pipe.s_pipes) : list fd_entry_t * Pipe.s_pipes :=
  match l with
  | [] => ([], pp)
  | e :: l' =>
      let '(e, pp) := close_fd e pp in
      let '(l', pp) := close_all l' pp in (e :: l', pp)
  end.

Definition process_kill (fuel : nat) (proc : Z) (s : procs) : option procs :=
  if (proc =? 0) || exited (pm s proc) then Some s
  else
    let '(tbl, pp) := close_all (fds (pm s proc)) (pipes s) in
    let s := set_pipes pp (upd_proc proc (set_fds tbl) s) in
    s' ← process_mark_exited fuel proc 130 s;
    let t := p_thread (pm s' proc) in
    Some (if negb (t =? 0) then set_sch (upd_thread t (set_state THREAD_DEAD) (sch s')) s' else s').

(** ** The process listing *)

(** [while (val) { tmp[len++] = '0' + val % 10; val /= 10; }] *)
Fixpoint digits (fuel : nat) (val : Z) : list Z :=
  match fuel with
  | O => []
  | S f => if val =? 0 then [] else (0x30 + val mod 10) :: digits f (val / 10)
  end.

(** [for (i = 0, j = len - 1; i < j; i++, j--)] swap. *)
Fixpoint swap_loop (fuel : nat) (tmp : list Z) (i j : Z) : list Z :=
  match fuel with
  | O => tmp
  | S f =>
      if i <? j
      then swap_loop f (aset (aset tmp i (aget 0 tmp j)) j (aget 0 tmp i)) (i + 1) (j - 1)
      else tmp
  end.

(** The bytes it writes at [out]. *)
Definition ps_fmt_uint (val width : Z) : list Z :=
  let tmp := if val =? 0 then [0x30] else digits 12 val in
  let tmp := swap_loop 12 tmp 0 (blen tmp - 1) in
  replicate (Z.to_nat (width - blen tmp)) 0x20 ++ tmp.

(** The buffer and [off]; a store outside the buffer is [None]. *)
Definition out_t : Type := list Z * Z.
Definition emit (c : Z) (o : out_t) : option out_t :=
  let '(b, off) := o in if off <? blen b then Some (aset b off c, off + 1) else None.

Fixpoint emit_all (l : list Z) (o : out_t) : option out_t :=
  match l with [] => Some o | c :: l' => o' ← emit c o; emit_all l' o' end.

(** [for (k = 0; s[k] && off + 1 < bufsz; k++) buf[off++] = s[k];] *)
Fixpoint emit_str (s : list Z) (bufsz : Z) (o : out_t) : option out_t :=
  match s with
  | [] => Some o
  | c :: s' => if snd o + 1 <? bufsz then o' ← emit c o; emit_str s' bufsz o' else Some o
  end.

(** ["  PID   UID  NAME"] and a newline. *)
Definition ps_hdr : list Z :=
  [32; 32; 80; 73; 68; 32; 32; 32; 85; 73; 68; 32; 32; 78; 65; 77; 69; 10].

Definition ps_line (p : process) (bufsz : Z) (o : out_t) : option out_t :=
  o ← emit_all (ps_fmt_uint (pid p) 5) o;
  o ← emit 32 o;
  o ← emit_all (ps_fmt_uint (uid (cred p)) 5) o;
  o ← emit 32 o;
  o ← emit 32 o;
  o ← emit_str (if negb (aget 0 (name p) 0 =? 0) then cstr_of (name p) else [63]) bufsz o;
  emit 10 o.

Fixpoint ps_lines (l : list Z) (s : procs) (bufsz : Z) (o : out_t) : option out_t :=
  match l with
  | [] => Some o
  | p :: l' =>
      if (p =? 0) || exited (pm s p) then ps_lines l' s bufsz o
      else if bufsz <=? snd o + 48 then Some o
      else o ← ps_line (pm s p) bufsz o; ps_lines l' s bufsz o
  end.

(** The returned length and the buffer. *)
Definition process_ps (buf : list Z) (s : procs) : option (Z * list Z) :=
  let bufsz := blen buf in
  if bufsz =? 0 then Some (0, buf) else
  o ← emit_str ps_hdr bufsz (buf, 0);
  o ← ps_lines (s_procs s) s bufsz o;
  let '(b, off) := o in
  if off <? bufsz then Some (off + 1, aset b off 0) else Some (bufsz, aset b (bufsz - 1) 0).

(** ** Pid allocation *)

Definition live (s : procs) (pid_ : Z) : Prop :=
  exists p, p ∈ s_procs s /\ p <> 0 /\ pid (pm s p) = pid_.

#[export] Instance live_dec s pid_ : Decision (live s pid_).
Proof.
  refine (cast_if (decide (Exists (fun p => p <> 0 /\ pid (pm s p) = pid_) (s_procs s)))); unfold live; by rewrite <- Exists_exists.
Defined.

Lemma find_locked_zero s pid_ : find_locked s pid_ = 0 <-> ~ live s pid_.
Proof.
  unfold find_locked. set (q := fun p => _). destruct (find_slot q (s_procs s) 0) as [i|] eqn:E.
  - apply (find_slot_Some q 0) in E as (Hi & Hp & _). unfold q in Hp. apply andb_prop in Hp as [H1 H2%Z.eqb_eq].
    assert (aget 0 (s_procs s) i <> 0) as H0 by (destruct (Z.eqb_spec (aget 0 (s_procs s) i) 0); done).
    split; [done|]. intros Hn. destruct Hn. exists (aget 0 (s_procs s) i). split; [|done].
    rewrite aget_lookup. destruct (s_procs s !! Z.to_nat i) as [x|] eqn:Hx.
    + by apply list_elem_of_lookup_2 in Hx.
    + apply lookup_ge_None_1 in Hx. lia.
  - split; [|done]. intros _ (p & Hin & H0 & Hpid). apply find_slot_None_iff in E.
    rewrite Forall_forall in E. specialize (E p Hin). unfold q in E.
    destruct (Z.eqb_spec p 0); [done|]. by rewrite Hpid, Z.eqb_refl in E.
Qed.

(** The pids the loop tries. *)
Fixpoint candidates (n : nat) (next : Z) : list Z :=
  match n with O => [] | S n' => next :: candidates n' (bump next) end.

Definition nth_pid (next k : Z) : Z := 1 + (next - 1 + k) mod (2 ^ 32 - 1).

Lemma bump_nth next k : nth_pid (bump (nth_pid next k)) 0 = nth_pid next (k + 1).
Proof.
  unfold nth_pid, bump, u32.
  assert (0 <= (next - 1 + k) mod (2 ^ 32 - 1) < 2 ^ 32 - 1) as H by lia.
  replace (next - 1 + (k + 1)) with (next - 1 + k + 1) by lia.
  rewrite <- (Z.add_mod_idemp_l (next - 1 + k) 1) by lia.
  generalize dependent ((next - 1 + k) mod (2 ^ 32 - 1)). intros r Hr.
  destruct (Z.eqb_spec ((1 + r + 1) mod 2 ^ 32) 0); lia.
Qed.

Lemma bump_range n : 1 <= bump n < 2 ^ 32.
Proof. unfold bump. pose proof (u32_range (n + 1)). destruct (Z.eqb_spec (u32 (n + 1)) 0); int_lia. Qed.

Lemma candidates_nth n next :
  1 <= next < 2 ^ 32 -> candidates n next = map (fun k => nth_pid next (Z.of_nat k)) (seq 0 n).
Proof.
  intros Hn.
  assert (forall k c, nth_pid c 0 = nth_pid next (Z.of_nat k) -> 1 <= c < 2 ^ 32 ->
    candidates n c = map (fun k => nth_pid next (Z.of_nat k)) (seq k n)) as H.
  { clear Hn. induction n as [|n IH]; intros k c Hc Hr; [done|]. cbn [candidates seq map].
    assert (c = nth_pid next (Z.of_nat k)) as -> .
    { rewrite <- Hc. unfold nth_pid. lia. }
    f_equal. apply IH; [|apply bump_range]. rewrite bump_nth. f_equal. lia. }
  by apply H.
Qed.

Lemma candidates_nodup n next :
  1 <= next < 2 ^ 32 -> (Z.of_nat n < 2 ^ 32 - 1) -> NoDup (candidates n next).
Proof.
  intros Hn Hl. rewrite candidates_nth by done. apply (NoDup_fmap_2_strong (fun k => nth_pid next (Z.of_nat k))); [|apply NoDup_seq].
  intros x y Hx Hy. apply elem_of_seq in Hx, Hy. unfold nth_pid. intros H.
  assert ((next - 1 + Z.of_nat x) mod (2 ^ 32 - 1) = (next - 1 + Z.of_nat y) mod (2 ^ 32 - 1)) as E by lia.
  clear H. lia.
Qed.

(** The loop fails only when every candidate is 0 or taken. *)
Lemma alloc_pid_loop_spec n s :
  (forall c, c ∈ candidates n (next_pid s) -> c <> 0 -> live s c) \/
  exists c s', alloc_pid_loop n s = (c, s') /\ c <> 0 /\ ~ live s c /\ c ∈ candidates n (next_pid s) /\
    1 <= next_pid s' < 2 ^ 32 /\ s' = set_next (next_pid s') s.
Proof.
  revert s. induction n as [|n IH]; intros s; cbn [alloc_pid_loop candidates].
  { left. by intros c ?%elem_of_nil. }
  set (s1 := set_next (bump (next_pid s)) s).
  assert (forall c, live s1 c <-> live s c) as Hl by done.
  destruct (negb (next_pid s =? 0) && (find_locked s1 (next_pid s) =? 0)) eqn:E.
  - right. exists (next_pid s), s1. apply andb_prop in E as [E1 E2%Z.eqb_eq%find_locked_zero].
    split; [done|]. split; [by destruct (Z.eqb_spec (next_pid s) 0)|]. split; [done|]. split; [left|].
    split; [apply bump_range|done].
  - assert (next_pid s <> 0 -> live s (next_pid s)) as Hcand.
    { intros H0. destruct (Z.eqb_spec (next_pid s) 0); [done|]. simpl in E.
      destruct (find_locked s1 (next_pid s) =? 0) eqn:E2; [done|].
      apply Z.eqb_neq in E2. rewrite find_locked_zero in E2. apply Hl. by apply dec_stable. }
    destruct (IH s1) as [Hall|(c & s' & Hr & Hc0 & Hc & Hin & Hn & Hs')].
    + left. intros c [->|Hc]%elem_of_cons H0; [by apply Hcand|by apply Hl, Hall].
    + right. exists c, s'. split; [done|]. split; [done|]. split; [by rewrite <- Hl|]. split; [by right|].
      split; [done|]. rewrite Hs'. done.
Qed.

(** A new pid is not 0 and belongs to no live process, and the counter stays
    in range: the 130 candidates the loop tries are distinct and at most 64 of
    them can be taken. *)
Theorem alloc_pid_fresh s :
  Z.of_nat (length (s_procs s)) = MAX_PROCS -> is_u32 (next_pid s) ->
  exists c s', alloc_pid_locked s = (c, s') /\ 1 <= c < 2 ^ 32 /\ ~ live s c /\
    find_locked s' c = 0 /\ 1 <= next_pid s' < 2 ^ 32 /\ s_procs s' = s_procs s /\ pm s' = pm s.
Proof.
  intros Hlen Hn. unfold alloc_pid_locked, MAX_PROCS in *. change (Z.to_nat (2 * 64 + 2)) with 130%nat.
  destruct (alloc_pid_loop_spec 130 s) as [Hall|(c & s' & Hr & Hc0 & Hc & Hin & Hnx & Hs')].
  - exfalso.
    assert (exists l, NoDup l /\ length l = 129%nat /\ forall x, x ∈ l -> x ∈ candidates 130 (next_pid s) /\ x <> 0)
      as (l & Hnd & Hl & Hsub).
    { exists (candidates 129 (bump (next_pid s))). pose proof (bump_range (next_pid s)) as Hb.
      split; [apply candidates_nodup; [done|lia]|]. rewrite candidates_nth by done.
      split; [by rewrite length_map, length_seq|]. intros x Hx. split.
      - change (x ∈ next_pid s :: candidates 129 (bump (next_pid s))). right. by rewrite candidates_nth.
      - apply list_elem_of_fmap in Hx as (k & -> & _). unfold nth_pid. lia. }
    assert (l ⊆+ map (fun p => pid (pm s p)) (s_procs s)) as Hsm.
    { apply NoDup_submseteq; [done|]. intros x [Hx H0]%Hsub.
      destruct (Hall x Hx H0) as (p & Hp & _ & <-). by apply (list_elem_of_fmap_2 (fun p => pid (pm s p))). }
    apply submseteq_length in Hsm. rewrite length_map in Hsm. lia.
  - exists c, s'. split; [done|].
    assert (1 <= c < 2 ^ 32) as Hrange.
    { assert (forall n x, is_u32 x -> forall y, y ∈ candidates n x -> is_u32 y) as H.
      { intros n. induction n as [|n IH]; intros x Hx y; cbn [candidates]; [by intros ?%elem_of_nil|].
        intros [->|Hy]%elem_of_cons; [done|]. apply (IH (bump x)); [|done]. pose proof (bump_range x). int_lia. }
      pose proof (H _ _ Hn _ Hin). int_lia. }
    split; [done|]. split; [done|]. rewrite Hs'. split; [by apply find_locked_zero|done].
Qed.

(** ** The listing stays in its buffer *)

Lemma digits_length fuel val k :
  0 <= val < 10 ^ Z.of_nat k -> (length (digits fuel val) <= k)%nat.
Proof.
  revert val k. induction fuel as [|f IH]; intros val k H; cbn [digits]; [simpl; lia|].
  destruct (Z.eqb_spec val 0); [simpl; lia|]. destruct k as [|k]; [simpl in H; lia|].
  rewrite Nat2Z.inj_succ, Z.pow_succ_r in H by lia. cbn [length].
  specialize (IH (val / 10) k ltac:(lia)). lia.
Qed.

Lemma swap_loop_length fuel l i j : length (swap_loop fuel l i j) = length l.
Proof.
  revert l i j. induction fuel as [|f IH]; intros l i j; cbn [swap_loop]; [done|].
  destruct (i <? j); [|done]. by rewrite IH, !aset_length.
Qed.

Lemma ps_fmt_uint_length val width : is_u32 val -> 0 <= width <= 10 -> blen (ps_fmt_uint val width) <= 10.
Proof.
  intros Hv Hw. unfold ps_fmt_uint. set (tmp := if val =? 0 then _ else _).
  assert (length tmp <= 10)%nat as Ht.
  { subst tmp. destruct (val =? 0); [simpl; lia|]. apply digits_length. int_lia. }
  unfold blen. rewrite length_app, length_replicate, !swap_loop_length. lia.
Qed.

(** [o] is [buf] with the bytes before its offset overwritten. *)
Definition out_ok (buf : list Z) (o : out_t) : Prop :=
  blen (fst o) = blen buf /\ 0 <= snd o <= blen buf /\
  forall i, snd o <= i -> aget 0 (fst o) i = aget 0 buf i.

Lemma emit_ok buf c o :
  out_ok buf o -> snd o < blen buf -> exists o', emit c o = Some o' /\ out_ok buf o' /\ snd o' = snd o + 1.
Proof.
  destruct o as [b off]. intros (Hl & Ho & Hs) Hlt. cbn [fst snd] in *. unfold emit. rewrite Hl.
  destruct (Z.ltb_spec off (blen buf)) as [_|]; [|lia]. eexists. split; [done|]. split; [|done].
  split; [cbn [fst]; unfold blen in *; by rewrite aset_length|]. cbn [fst snd]. split; [lia|].
  intros i Hi. rewrite aget_aset_ne by lia. apply Hs. lia.
Qed.

Lemma emit_all_ok buf l o :
  out_ok buf o -> snd o + blen l <= blen buf ->
  exists o', emit_all l o = Some o' /\ out_ok buf o' /\ snd o' = snd o + blen l.
Proof.
  revert o. induction l as [|c l IH]; intros o Ho Hl; cbn [emit_all].
  { exists o. change (blen []) with 0. split_and!; try done; lia. }
  assert (blen (c :: l) = 1 + blen l) as E by (unfold blen; cbn [length]; lia). rewrite E in *.
  pose proof (blen_nonneg l). destruct (emit_ok buf c o Ho) as (o1 & -> & Ho1 & Hs1); [lia|].
  cbn [mbind option_bind]. destruct (IH o1 Ho1) as (o2 & -> & Ho2 & Hs2); [lia|].
  exists o2. split_and!; try done; lia.
Qed.

Lemma emit_str_ok buf s o :
  out_ok buf o -> snd o < blen buf ->
  exists o', emit_str s (blen buf) o = Some o' /\ out_ok buf o' /\ snd o' < blen buf.
Proof.
  revert o. induction s as [|c s IH]; intros o Ho Hlt; cbn [emit_str]; [by exists o|].
  destruct (Z.ltb_spec (snd o + 1) (blen buf)); [|by exists o].
  destruct (emit_ok buf c o Ho Hlt) as (o1 & -> & Ho1 & Hs1). cbn [mbind option_bind]. apply IH; [done|lia].
Qed.

(** Pids and uids are 32-bit. *)
Definition listing_ok (s : procs) : Prop :=
  forall p, p ∈ s_procs s -> is_u32 (pid (pm s p)) /\ is_u32 (uid (cred (pm s p))).

Lemma ps_line_ok buf p o :
  out_ok buf o -> snd o + 48 < blen buf -> is_u32 (pid p) -> is_u32 (uid (cred p)) ->
  exists o', ps_line p (blen buf) o = Some o' /\ out_ok buf o'.
Proof.
  intros Ho Hs Hp Hu. unfold ps_line.
  pose proof (ps_fmt_uint_length _ 5 Hp ltac:(lia)) as L1. pose proof (ps_fmt_uint_length _ 5 Hu ltac:(lia)) as L2.
  revert L1 L2. generalize (ps_fmt_uint (pid p) 5) (ps_fmt_uint (uid (cred p)) 5). intros l1 l2 L1 L2.
  generalize (if negb (aget 0 (name p) 0 =? 0) then cstr_of (name p) else [63]). intros nm.
  destruct (emit_all_ok buf l1 o Ho) as (o1 & -> & O1 & S1); [lia|]. cbn [mbind option_bind].
  destruct (emit_ok buf 32 o1 O1) as (o2 & -> & O2 & S2); [lia|]. cbn [mbind option_bind].
  destruct (emit_all_ok buf l2 o2 O2) as (o3 & -> & O3 & S3); [lia|]. cbn [mbind option_bind].
  destruct (emit_ok buf 32 o3 O3) as (o4 & -> & O4 & S4); [lia|]. cbn [mbind option_bind].
  destruct (emit_ok buf 32 o4 O4) as (o5 & -> & O5 & S5); [lia|]. cbn [mbind option_bind].
  destruct (emit_str_ok buf nm o5 O5) as (o6 & -> & O6 & S6); [lia|]. cbn [mbind option_bind].
  destruct (emit_ok buf 10 o6 O6 S6) as (o7 & -> & O7 & _). by exists o7.
Qed.

Lemma ps_lines_ok buf l s o :
  out_ok buf o -> (forall p, p ∈ l -> is_u32 (pid (pm s p)) /\ is_u32 (uid (cred (pm s p)))) ->
  exists o', ps_lines l s (blen buf) o = Some o' /\ out_ok buf o'.
Proof.
  revert o. induction l as [|p l IH]; intros o Ho Hl; cbn [ps_lines]; [by exists o|].
  assert (forall q, q ∈ l -> is_u32 (pid (pm s q)) /\ is_u32 (uid (cred (pm s q)))) as Hl'.
  { intros q Hq. apply Hl. by right. }
  destruct (_ || _); [by apply IH|]. destruct (Z.leb_spec (blen buf) (snd o + 48)); [by exists o|].
  destruct (Hl p) as [H1 H2]; [left|].
  destruct (ps_line_ok buf (pm s p) o) as (o1 & -> & O1); [done|lia|done|done|]. cbn [mbind option_bind].
  by apply IH.
Qed.

Lemma process_ps_spec buf s :
  0 < blen buf -> listing_ok s ->
  exists r b, process_ps buf s = Some (r, b) /\ 1 <= r <= blen buf /\ blen b = blen buf /\
    aget 0 b (r - 1) = 0 /\ forall i, r <= i -> aget 0 b i = aget 0 buf i.
Proof.
  intros Hb Hs. unfold process_ps. destruct (Z.eqb_spec (blen buf) 0); [lia|].
  assert (out_ok buf (buf, 0)) as O0 by (split_and!; cbn [fst snd]; [done|lia|lia|done]).
  destruct (emit_str_ok buf ps_hdr (buf, 0) O0) as (o1 & -> & O1 & _); [done|]. cbn [mbind option_bind].
  destruct (ps_lines_ok buf (s_procs s) s o1 O1 Hs) as ([b off] & -> & Hl & Ho & Ht). cbn [mbind option_bind fst snd] in *.
  destruct (Z.ltb_spec off (blen buf)).
  - exists (off + 1), (aset b off 0). split; [done|]. split; [lia|].
    split; [unfold blen in *; by rewrite aset_length|]. replace (off + 1 - 1) with off by lia.
    split; [apply aget_aset_eq; unfold blen in *; lia|]. intros i Hi. rewrite aget_aset_ne by lia. apply Ht. lia.
  - exists (blen buf), (aset b (blen buf - 1) 0). split; [done|]. split; [lia|].
    split; [unfold blen in *; by rewrite aset_length|].
    split; [apply aget_aset_eq; unfold blen in *; lia|]. intros i Hi. rewrite aget_aset_ne by lia. apply Ht. lia.
Qed.

(** The process listing never writes outside its buffer, returns the length
    of a NUL-terminated prefix, and leaves the bytes behind it as they were, so
    that a caller who copies that many bytes copies no stale memory. *)
Theorem process_ps_in_bounds buf s :
  0 < blen buf -> listing_ok s ->
  exists r b, process_ps buf s = Some (r, b) /\ 1 <= r <= blen buf /\ blen b = blen buf /\
    aget 0 b (r - 1) = 0 /\ forall i, r <= i -> aget 0 b i = aget 0 buf i.
Proof. apply process_ps_spec. Qed.

(** ** Exit wakes all waiters *)

Definition woken (t : thread) : thread := set_state THREAD_READY (set_wait_next 0 t).

Lemma norun_wait_next t t' : norun t = norun t' -> wait_next t = wait_next t'.
Proof. intros E. exact (f_equal wait_next E). Qed.

Lemma wake_all_spec l : forall fuel w s Q,
  (length l < fuel)%nat -> lseg (fun t => wait_next (th s t)) w l 0 -> queue s Q -> NoDup (Q ++ l) ->
  (forall t, t ∈ l -> on_cpu (th s t) = false) ->
  exists s', wake_all fuel w s = Some s' /\ queue s' (Q ++ l) /\
    (forall x, norun (th s' x) = norun (if decide (x ∈ l) then woken (th s x) else th s x)) /\
    statics s' = statics s /\ sleep_head s' = sleep_head s.
Proof.
  induction l as [|t l IH]; intros fuel w s Q Hf Hl Hq Hnd Hoff; (destruct fuel as [|fuel]; [simpl in Hf; lia|]).
  { simpl in Hl. subst w. exists s. rewrite app_nil_r. split; [done|split; [done|split; [|done]]]. done. }
  destruct Hl as (-> & Ht0 & Hl). cbn [wake_all]. destruct (Z.eqb_spec t 0) as [|_]; [done|].
  unfold sched_wake. cbn [th upd_thread with_th]. rewrite Z.eqb_refl.
  change (on_cpu (set_wait_next 0 (th s t))) with (on_cpu (th s t)). rewrite Hoff by left. cbn [mbind option_bind].
  set (s1 := upd_thread t (set_state THREAD_READY) (upd_thread t (set_wait_next 0) s)).
  assert (forall x, th s1 x = if x =? t then woken (th s x) else th s x) as Hs1.
  { intros x. cbn. rewrite Z.eqb_refl. by destruct (Z.eqb_spec x t) as [->|]. }
  apply NoDup_app in Hnd as (HndQ & Hd & [Htl Hndl]%NoDup_cons).
  assert (t ∉ Q) as HtQ. { intros Hin. apply (Hd t Hin). left. }
  assert (queue s1 Q) as Hq1.
  { apply (queue_ext s); [|done..]. intros x _. rewrite Hs1. by destruct (x =? t). }
  destruct (rq_add_spec s1 Q t Hq1 Ht0 HtQ) as (Hq2 & Hth & Hsh & Hst).
  assert (statics s1 = statics s /\ sleep_head s1 = sleep_head s) as [Hst1 Hsh1] by done.
  clearbody s1. revert Hq2 Hth Hsh Hst. generalize (rq_add t s1) as s2. intros s2 Hq2 Hth Hsh Hst.
  destruct (IH fuel (wait_next (th s t)) s2 (Q ++ [t])) as (s' & Hr & Hq' & Hx & Hst' & Hsh').
  - simpl in Hf. lia.
  - eapply lseg_ext; [|exact Hl]. intros x Hx. cbn. rewrite (norun_wait_next _ _ (Hth x)), Hs1.
    destruct (Z.eqb_spec x t) as [->|]; [done|done].
  - done.
  - rewrite <- app_assoc. apply NoDup_app. split; [done|]. split; [|by apply NoDup_cons]. exact Hd.
  - intros x Hx. pose proof (f_equal on_cpu (Hth x)) as E. change (on_cpu (th s2 x) = on_cpu (th s1 x)) in E.
    rewrite E, Hs1. destruct (Z.eqb_spec x t) as [->|]; [done|]. apply Hoff. by right.
  - exists s'. split; [done|]. rewrite <- app_assoc in Hq'. split; [done|]. split; [|split; congruence].
    intros x. rewrite Hx. pose proof (Hth x) as E. rewrite Hs1 in E.
    destruct (decide (x = t)) as [->|Hne].
    + rewrite decide_False by done. rewrite decide_True by left. by rewrite Z.eqb_refl in E.
    + destruct (Z.eqb_spec x t); [done|]. destruct (decide (x ∈ l)) as [Hin|Hin].
      * rewrite decide_True by (by right). exact (f_equal woken E).
      * rewrite decide_False; [done|]. by intros [?|?]%elem_of_cons.
Qed.

(** Exit notification. Marking a process exited records the status and puts
    every thread of its wait queue, in order, at the end of the run queue, ready
    and unlinked; no other thread changes. It returns once the waiters have left
    their CPUs, with fuel beyond the length of the queue. *)
Theorem process_mark_exited_correct fuel proc status s Q l :
  (length l < fuel)%nat -> queue (sch s) Q -> NoDup (Q ++ l) ->
  lseg (fun t => wait_next (th (sch s) t)) (wait_queue (pm s proc)) l 0 ->
  (forall t, t ∈ l -> on_cpu (th (sch s) t) = false) ->
  exists s', process_mark_exited fuel proc status s = Some s' /\
    exited (pm s' proc) = true /\ exit_status (pm s' proc) = status /\ wait_queue (pm s' proc) = 0 /\
    queue (sch s') (Q ++ l) /\
    (forall t, t ∈ l -> state (th (sch s') t) = THREAD_READY /\ wait_next (th (sch s') t) = 0) /\
    (forall t, t ∉ l -> norun (th (sch s') t) = norun (th (sch s) t)).
Proof.
  intros Hf Hq Hnd Hl Hoff. unfold process_mark_exited. cbv zeta.
  assert (pm (upd_proc proc (set_exit true status) s) proc = set_exit true status (pm s proc)) as E
    by (cbn; by rewrite Z.eqb_refl).
  rewrite E. change (wait_queue (set_exit true status (pm s proc))) with (wait_queue (pm s proc)).
  destruct (wake_all_spec l fuel _ _ Q Hf Hl Hq Hnd Hoff) as (sc & Hw & Hq' & Hx & _).
  cbn [sch upd_proc set_pm]. rewrite Hw. cbn [mbind option_bind].
  eexists. split; [reflexivity|]. cbn [pm sch set_sch].
  split; [cbn; by rewrite !Z.eqb_refl|]. split; [cbn; by rewrite !Z.eqb_refl|]. split; [cbn; by rewrite !Z.eqb_refl|].
  split; [done|]. split.
  - intros t Ht. specialize (Hx t). rewrite decide_True in Hx by done. split.
    + exact (f_equal state Hx).
    + exact (norun_wait_next _ _ Hx).
  - intros t Ht. specialize (Hx t). by rewrite decide_False in Hx.
Qed.

(** ** Killing a queued thread

    [process_kill] marks the thread dead wherever it is. A ready thread stays on
    the run queue, and the tick that takes it from there marks it running: it
    goes on executing although its process has exited. *)
Definition victim : process :=
  mk_process 9 300 0 fd_table_init (cred_init 0 0) false 0 0 (zeros 256) (zeros 32).
Definition kill_demo : procs := mk_procs (replicate 64 0) 1 (fun _ => victim) demo [].

Example process_kill_queued_survives :
  (s1 ← process_kill 1 1000 kill_demo;
   match sched_tick 2 0 9 (sch s1) with
   | Ok (_, s2) => Some (exited (pm s1 1000), current s2 0, state (th s2 300))
   | Panic _ => None
   end) = Some (true, 300, THREAD_RUNNING).
Proof. reflexivity. Qed.

(** ** Concrete instances *)

Lemma alloc_pid_fresh_witness :
  exists c s', alloc_pid_locked (set_next (2 ^ 32 - 1) kill_demo) = (c, s') /\ 1 <= c < 2 ^ 32.
Proof.
  destruct (alloc_pid_fresh (set_next (2 ^ 32 - 1) kill_demo) eq_refl) as (c & s' & E & H & _).
  - unfold is_u32. cbn. lia.
  - exists c, s'. split; [exact E|exact H].
Defined.

Lemma process_ps_in_bounds_witness :
  exists r b, process_ps (zeros 100) (set_procs [1000; 0] kill_demo) = Some (r, b) /\ 1 <= r <= 100.
Proof.
  destruct (process_ps_in_bounds (zeros 100) (set_procs [1000; 0] kill_demo)) as (r & b & E & H & _).
  - reflexivity.
  - intros p _. unfold is_u32. cbn. lia.
  - exists r, b. split; [exact E|exact H].
Defined.

Lemma process_mark_exited_correct_witness :
  exists s', process_mark_exited 2 1000 7 (upd_proc 1000 (set_wait_queue 500) kill_demo) = Some s' /\
    exit_status (pm s' 1000) = 7 /\ queue (sch s') [300; 500].
Proof.
  destruct (process_mark_exited_correct 2 1000 7 (upd_proc 1000 (set_wait_queue 500) kill_demo) [300] [500])
    as (s' & E & _ & H1 & _ & H2 & _).
  - simpl. lia.
  - apply demo_wf.
  - apply NoDup_cons. split; [|apply NoDup_singleton]. intros ?%list_elem_of_singleton. lia.
  - split; [reflexivity|]. split; [lia|reflexivity].
  - intros t ->%list_elem_of_singleton. reflexivity.
  - exists s'. split; [exact E|]. split; [exact H1|exact H2].
Defined.

End Process.
