(* ===== verification/Net.v ===== *)
(** * Ethernet, ARP, IPv4, ICMP and UDP

    Models [kernel/net/eth.c], [arp.c], [ipv4.c], [icmp.c], [udp.c] and [nic.c],
    except the receive dispatch of [ipv4.c] and [eth.c], which reaches TCP and is
    in [NetStack]. A header is a record with an encoder that lays it out as the
    packed struct does; the receive functions read the fields from the bytes.
    Addresses are kept in network byte order, as the code keeps them.

    The registered NIC is its MAC address and whether the driver accepts frames;
    the frames handed to [nic->send] are the trace [sent]. A UDP handler is the
    number of its function; the calls that [udp_recv] makes are its result. *)

From S2P Require Import Prelude Bytes Checksum.
Import Checksum.

Module Net.

Definition ETH_HLEN : Z := 14.
Definition ETH_MAX_FRAME : Z := 1514.
Definition ETHERTYPE_ARP : Z := 0x0806.
Definition ETHERTYPE_IPV4 : Z := 0x0800.
Definition ARP_TABLE_SIZE : Z := 32.
Definition ARP_HW_ETHERNET : Z := 1.
Definition ARP_PROTO_IP : Z := 0x0800.
Definition ARP_OP_REQUEST : Z := 1.
Definition ARP_OP_REPLY : Z := 2.
Definition IP_PROTO_ICMP : Z := 1.
Definition IP_PROTO_TCP : Z := 6.
Definition IP_PROTO_UDP : Z := 17.
Definition ICMP_ECHO_REQUEST : Z := 8.
Definition ICMP_ECHO_REPLY : Z := 0.
Definition MAX_BINDS : Z := 16.
Definition ETH_BROADCAST : list Z := replicate 6 0xff.

(** ** Headers *)

Record eth_hdr_t := mk_eth { eth_dst : list Z; eth_src : list Z; ethertype : Z }.
Definition enc_eth (h : eth_hdr_t) : list Z := eth_dst h ++ eth_src h ++ le_bytes 2 (ethertype h).

Record arp_pkt_t := mk_arp {
  hw_type : Z; proto_type : Z; hw_len : Z; proto_len : Z; op : Z;
  sender_mac : list Z; sender_ip : Z; target_mac : list Z; target_ip : Z }.
Definition enc_arp (a : arp_pkt_t) : list Z :=
  le_bytes 2 (hw_type a) ++ le_bytes 2 (proto_type a) ++ [hw_len a; proto_len a] ++ le_bytes 2 (op a) ++
  sender_mac a ++ le_bytes 4 (sender_ip a) ++ target_mac a ++ le_bytes 4 (target_ip a).
Definition sizeof_arp : Z := 28.

Record ip_hdr_t := mk_ip {
  ver_ihl : Z; dscp_ecn : Z; total_length : Z; ip_id : Z; flags_frag : Z; ttl : Z; protocol : Z;
  ip_csum : Z; ip_src : Z; ip_dst : Z }.
Definition enc_ip (h : ip_hdr_t) : list Z :=
  [ver_ihl h; dscp_ecn h] ++ le_bytes 2 (total_length h) ++ le_bytes 2 (ip_id h) ++
  le_bytes 2 (flags_frag h) ++ [ttl h; protocol h] ++ le_bytes 2 (ip_csum h) ++
  le_bytes 4 (ip_src h) ++ le_bytes 4 (ip_dst h).
Definition sizeof_ip : Z := 20.

Record udp_hdr_t := mk_udp { src_port : Z; dst_port : Z; udp_length : Z; udp_csum : Z }.
Definition enc_udp (h : udp_hdr_t) : list Z :=
  le_bytes 2 (src_port h) ++ le_bytes 2 (dst_port h) ++ le_bytes 2 (udp_length h) ++ le_bytes 2 (udp_csum h).
Definition sizeof_udp : Z := 8.
Definition sizeof_icmp : Z := 8.

(** ** State *)

Record arp_entry_t := mk_entry { e_ip : Z; e_mac : list Z; e_valid : bool }.
Record udp_bind_t := mk_bind { b_port : Z; b_fn : Z; b_ctx : Z; b_used : bool }.
Record nic_t := mk_nic { mac : list Z; tx_ok : bool }.

Record net := mk_net {
  s_nic : option nic_t;
  sent : list (list Z);
  s_frame : list Z;
  s_table : list arp_entry_t;
  s_ip : Z; s_netmask : Z; s_gateway : Z; s_dns : Z; s_id : Z;
  s_binds : list udp_bind_t;
}.

Definition set_sent f v (n : net) : net :=
  mk_net (s_nic n) v f (s_table n) (s_ip n) (s_netmask n) (s_gateway n) (s_dns n) (s_id n) (s_binds n).
Definition set_table v (n : net) : net :=
  mk_net (s_nic n) (sent n) (s_frame n) v (s_ip n) (s_netmask n) (s_gateway n) (s_dns n) (s_id n) (s_binds n).
Definition set_id v (n : net) : net :=
  mk_net (s_nic n) (sent n) (s_frame n) (s_table n) (s_ip n) (s_netmask n) (s_gateway n) (s_dns n) v (s_binds n).
Definition set_binds v (n : net) : net :=
  mk_net (s_nic n) (sent n) (s_frame n) (s_table n) (s_ip n) (s_netmask n) (s_gateway n) (s_dns n) (s_id n) v.

Definition nic_register (c : nic_t) (n : net) : net :=
  mk_net (Some c) (sent n) (s_frame n) (s_table n) (s_ip n) (s_netmask n) (s_gateway n) (s_dns n) (s_id n) (s_binds n).
Definition nic_get (n : net) : option nic_t := s_nic n.

(** ** Ethernet *)

(** [payload_len] is the length of [payload]. *)
Definition eth_send (dst_mac : list Z) (type : Z) (payload : list Z) (n : net) : bool * net :=
  match nic_get n with
  | None => (false, n)
  | Some c =>
      if ETH_MAX_FRAME + ETH_HLEN <? blen payload + ETH_HLEN then (false, n)
      else
        let f := put (s_frame n) 0 (enc_eth (mk_eth dst_mac (mac c) (htons type))) in
        let f := put f ETH_HLEN payload in
        let total := u16 (ETH_HLEN + blen payload) in
        let total := if total <? 60 then 60 else total in
        (tx_ok c, set_sent f (sent n ++ [slice f 0 total]) n)
  end.

(** ** IPv4 configuration *)

Definition ipv4_our_ip (n : net) : Z := s_ip n.
Definition ipv4_gateway (n : net) : Z := s_gateway n.
Definition ipv4_dns (n : net) : Z := s_dns n.
Definition ipv4_set_config (ip netmask gateway dns : Z) (n : net) : net :=
  mk_net (s_nic n) (sent n) (s_frame n) (s_table n) ip netmask gateway dns (s_id n) (s_binds n).

(** ** ARP *)

Definition entry_zero : arp_entry_t := mk_entry 0 (replicate 6 0) false.

(** The index of the entry. *)
Definition find_entry (n : net) (ip : Z) : option Z :=
  find_slot (fun e => e_valid e && (e_ip e =? ip)) (s_table n) 0.

Definition arp_insert (ip : Z) (m : list Z) (n : net) : net :=
  let e :=
    match find_entry n ip with
    | Some i => i
    | None => match find_slot (fun e => negb (e_valid e)) (s_table n) 0 with Some i => i | None => 0 end
    end in
  set_table (aset (s_table n) e (mk_entry ip m true)) n.

(** A request or reply, as the two functions below fill it in. *)
Definition arp_packet (opcode : Z) (smac : list Z) (sip : Z) (tmac : list Z) (tip : Z) : list Z :=
  enc_arp (mk_arp (htons ARP_HW_ETHERNET) (htons ARP_PROTO_IP) 6 4 (htons opcode) smac sip tmac tip).

Definition arp_recv (pkt : list Z) (n : net) : net :=
  if blen pkt <? sizeof_arp then n
  else if negb (ntohs (rd16 pkt 0) =? ARP_HW_ETHERNET) then n
  else if negb (ntohs (rd16 pkt 2) =? ARP_PROTO_IP) then n
  else
    let smac := slice pkt 8 6 in
    let sip := rd32 pkt 14 in
    let n := arp_insert sip smac n in
    if ntohs (rd16 pkt 6) =? ARP_OP_REQUEST then
      let our_ip := ipv4_our_ip n in
      if (our_ip =? 0) || negb (rd32 pkt 24 =? our_ip) then n
      else
        match nic_get n with
        | None => n
        | Some c => snd (eth_send smac ETHERTYPE_ARP (arp_packet ARP_OP_REPLY (mac c) our_ip smac sip) n)
        end
    else n.

(** [Some mac] when the address is cached; otherwise a request goes out. *)
Definition arp_lookup (ip : Z) (n : net) : option (list Z) * net :=
  match find_entry n ip with
  | Some i => (Some (e_mac (aget entry_zero (s_table n) i)), n)
  | None =>
      match nic_get n with
      | None => (None, n)
      | Some c =>
          let req := arp_packet ARP_OP_REQUEST (mac c) (ipv4_our_ip n) (replicate 6 0) ip in
          (None, snd (eth_send ETH_BROADCAST ETHERTYPE_ARP req n))
      end
  end.

(** ** IPv4 output *)

Definition ip_header (id proto plen src dst csum : Z) : list Z :=
  enc_ip (mk_ip 0x45 0 (htons (u16 (20 + plen))) (htons id) 0 64 proto csum src dst).

Definition ipv4_send (dst_ip proto : Z) (payload : list Z) (n : net) : bool * net :=
  if 1500 <? sizeof_ip + blen payload then (false, n)
  else
    let n := set_id (u16 (s_id n + 1)) n in
    let hdr := ip_header (s_id n) proto (blen payload) (s_ip n) dst_ip in
    let buf := hdr (htons (ip_checksum (hdr 0))) ++ payload in
    let next_hop :=
      if negb (s_gateway n =? 0) && negb (Z.land dst_ip (s_netmask n) =? Z.land (s_ip n) (s_netmask n))
      then s_gateway n else dst_ip in
    if (dst_ip =? 0xffffffff) || (dst_ip =? 0) then eth_send ETH_BROADCAST ETHERTYPE_IPV4 buf n
    else
      match arp_lookup next_hop n with
      | (None, n) => (false, n)
      | (Some m, n) => eth_send m ETHERTYPE_IPV4 buf n
      end.

(** ** ICMP *)

Definition icmp_reply (pkt : list Z) : list Z :=
  let r := wr8 pkt 0 ICMP_ECHO_REPLY in
  let r := wr16 r 2 0 in
  wr16 r 2 (htons (ip_checksum r)).

Definition icmp_recv (src_ip : Z) (pkt : list Z) (n : net) : net :=
  if blen pkt <? sizeof_icmp then n
  else if (rd8 pkt 0 =? ICMP_ECHO_REQUEST) && (rd8 pkt 1 =? 0) then
    if 1024 <? blen pkt then n
    else snd (ipv4_send src_ip IP_PROTO_ICMP (icmp_reply pkt) n)
  else n.

(** ** UDP *)

Definition udp_bind (port fn ctx : Z) (n : net) : net :=
  match find_slot (fun b => negb (b_used b)) (s_binds n) 0 with
  | Some i => set_binds (aset (s_binds n) i (mk_bind port fn ctx true)) n
  | None => n
  end.

Definition udp_unbind (port : Z) (n : net) : net :=
  set_binds (map (fun b => if b_used b && (b_port b =? port)
                           then mk_bind (b_port b) (b_fn b) (b_ctx b) false else b) (s_binds n)) n.

(** A call of a handler. *)
Record udp_call := mk_call { c_fn : Z; c_src_ip : Z; c_src_port : Z; c_data : list Z; c_ctx : Z }.

(** The calls it makes, in order. *)
Definition udp_recv (src_ip : Z) (pkt : list Z) (n : net) : list udp_call :=
  if blen pkt <? sizeof_udp then []
  else
    let dport := ntohs (rd16 pkt 2) in
    let dlen := u16 (ntohs (rd16 pkt 4) - sizeof_udp) in
    if blen pkt - sizeof_udp <? dlen then []
    else
      map (fun b => mk_call (b_fn b) src_ip (ntohs (rd16 pkt 0)) (slice pkt sizeof_udp dlen) (b_ctx b))
          (List.filter (fun b => b_used b && (b_port b =? dport)) (s_binds n)).

Definition udp_packet (src dst sport dport : Z) (data : list Z) : list Z :=
  let total := u16 (sizeof_udp + blen data) in
  let hdr := fun c => enc_udp (mk_udp (htons sport) (htons dport) (htons total) c) in
  hdr (htons (ip_pseudo_checksum src dst IP_PROTO_UDP (hdr 0 ++ data))) ++ data.

Definition udp_send (dst_ip sport dport : Z) (data : list Z) (n : net) : bool * net :=
  if 1472 <? sizeof_udp + blen data then (false, n)
  else ipv4_send dst_ip IP_PROTO_UDP (udp_packet (ipv4_our_ip n) dst_ip sport dport data) n.

(** ** Frames *)

Definition mac_ok (m : list Z) : Prop := blen m = 6 /\ bytes m.

Definition frame_of (dst src : list Z) (type : Z) (payload : list Z) : list Z :=
  dst ++ src ++ [type / 256; type mod 256] ++ payload.

Section frames.
Context (n : net) (c : nic_t).
Context (Hnic : s_nic n = Some c) (Hmac : mac_ok (mac c)) (Hframe : blen (s_frame n) = 1528).

Lemma eth_send_spec dst type payload :
  mac_ok dst -> is_u16 type -> bytes payload -> blen payload <= ETH_MAX_FRAME ->
  exists f', blen f' = 1528 /\
  eth_send dst type payload n =
    (tx_ok c, set_sent f' (sent n ++ [frame_of dst (mac c) type payload ++
                                      slice (s_frame n) (14 + blen payload) (46 - blen payload)]) n).
Proof.
  intros [Hd Hdb] Ht Hp Hl. unfold eth_send, nic_get. rewrite Hnic. unfold ETH_MAX_FRAME, ETH_HLEN in *.
  destruct (Z.ltb_spec (1514 + 14) (blen payload + 14)); [lia|].
  destruct Hmac as [Hm Hmb]. pose proof (blen_nonneg payload).
  set (h := enc_eth _). assert (blen h = 14) as Hh.
  { unfold h, enc_eth. cbn [eth_dst eth_src ethertype]. rewrite !blen_app, blen_le_bytes, Hd, Hm. done. }
  assert (h = dst ++ mac c ++ [type / 256; type mod 256]) as Eh.
  { unfold h, enc_eth. cbn [eth_dst eth_src ethertype]. by rewrite le_bytes_htons. }
  generalize dependent h. intros h Hh Eh.
  set (f := put (put _ 0 h) 14 payload).
  assert (blen f = 1528) as Hf by (unfold f; rewrite !blen_put; rewrite ?blen_put; lia).
  exists f. split; [done|]. rewrite u16_small by (unfold is_u16; lia).
  do 4 f_equal. set (t := if _ <? 60 then 60 else _).
  replace t with (14 + (blen payload + (t - 14 - blen payload))) by lia.
  assert (0 <= t - 14 - blen payload) by (unfold t; case_match; lia).
  rewrite !slice_split by lia. rewrite !Z.add_0_l.
  unfold frame_of. rewrite !(app_assoc _ _ payload), <- Eh, <- app_assoc.
  assert (slice f 0 14 = h) as E1.
  { unfold f. rewrite slice_put_ne by (rewrite ?blen_put; lia). apply slice_put_eq; lia. }
  assert (slice f 14 (blen payload) = payload) as E2.
  { unfold f. apply slice_put_eq; rewrite ?blen_put; lia. }
  rewrite E1, E2. f_equal. f_equal. unfold t. case_match.
  - unfold f. rewrite !slice_put_ne by (rewrite ?blen_put; lia). f_equal; lia.
  - rewrite !slice_nonpos by lia. done.
Qed.
End frames.

(** ** The ARP cache *)

(** What the cache says about an address. *)
Definition cache (n : net) (ip : Z) : option (list Z) :=
  match find_entry n ip with Some i => Some (e_mac (aget entry_zero (s_table n) i)) | None => None end.

Definition arp_wf (n : net) : Prop :=
  Z.of_nat (length (s_table n)) = ARP_TABLE_SIZE /\
  (forall i, 0 <= i < ARP_TABLE_SIZE -> e_valid (aget entry_zero (s_table n) i) = true ->
     mac_ok (e_mac (aget entry_zero (s_table n) i))) /\
  (forall i j, 0 <= i < ARP_TABLE_SIZE -> 0 <= j < ARP_TABLE_SIZE ->
     e_valid (aget entry_zero (s_table n) i) = true -> e_valid (aget entry_zero (s_table n) j) = true ->
     e_ip (aget entry_zero (s_table n) i) = e_ip (aget entry_zero (s_table n) j) -> i = j).

(** Inserting [ip] throws away the first slot: every slot is in use, none by [ip]. *)
Definition evicts (n : net) (ip : Z) : bool :=
  forallb e_valid (s_table n) && negb (existsb (fun e => e_ip e =? ip) (s_table n)).

Lemma cache_iff n ip m : arp_wf n ->
  cache n ip = Some m <->
  exists i, 0 <= i < ARP_TABLE_SIZE /\ e_valid (aget entry_zero (s_table n) i) = true /\
            e_ip (aget entry_zero (s_table n) i) = ip /\ e_mac (aget entry_zero (s_table n) i) = m.
Proof.
  intros (Hl & _ & Hu). unfold cache, find_entry.
  destruct (find_slot _ _ 0) as [i|] eqn:E.
  - apply (find_slot_Some _ entry_zero) in E as (Hi & [Hv He%Z.eqb_eq]%andb_prop & _). rewrite Hl in Hi.
    split; [intros [= <-]; eauto|]. intros (j & Hj & Hvj & Hej & <-).
    rewrite (Hu i j) by congruence. done.
  - split; [done|]. intros (j & Hj & Hvj & Hej & _).
    apply find_slot_None_iff in E.
    apply (Forall_aget _ entry_zero _ j) in E as H; [|lia]. cbv beta in H. rewrite Hvj, Hej, Z.eqb_refl in H. done.
Qed.

(** The slot [arp_insert] writes: the entry of [ip], else a free slot, else slot 0. *)
Lemma arp_insert_slot n ip m : arp_wf n ->
  exists i, 0 <= i < ARP_TABLE_SIZE /\ arp_insert ip m n = set_table (aset (s_table n) i (mk_entry ip m true)) n /\
    ((e_valid (aget entry_zero (s_table n) i) = true /\ e_ip (aget entry_zero (s_table n) i) = ip /\
      evicts n ip = false) \/
     (cache n ip = None /\ e_valid (aget entry_zero (s_table n) i) = false /\ evicts n ip = false) \/
     (cache n ip = None /\ i = 0 /\ e_valid (aget entry_zero (s_table n) i) = true /\ evicts n ip = true)).
Proof.
  intros (Hl & _ & Hu). unfold arp_insert, cache. destruct (find_entry n ip) as [i|] eqn:E; cbv zeta.
  - exists i. apply (find_slot_Some _ entry_zero) in E as (Hi & [Hv He%Z.eqb_eq]%andb_prop & _).
    split; [lia|]. split; [done|]. left. split; [done|]. split; [done|].
    unfold evicts. apply andb_false_iff. right. apply negb_false_iff, existsb_exists.
    exists (aget entry_zero (s_table n) i). split; [|by apply Z.eqb_eq].
    unfold aget. apply nth_In. lia.
  - destruct (find_slot _ _ 0) as [i|] eqn:F.
    + exists i. apply (find_slot_Some _ entry_zero) in F as (Hi & Hv%negb_true_iff & _).
      split; [lia|]. split; [done|]. right. left. split; [done|]. split; [done|].
      unfold evicts. apply andb_false_iff. left. apply not_true_is_false. intros Hall.
      rewrite forallb_forall in Hall. rewrite Hall in Hv; [done|]. unfold aget. apply nth_In. lia.
    + exists 0. split; [done|]. split; [done|]. right. right. split; [done|]. split; [done|].
      apply find_slot_None_iff in F. apply find_slot_None_iff in E.
      assert (forall e, In e (s_table n) -> e_valid e = true /\ e_ip e <> ip) as Hall.
      { intros e He%list_elem_of_In. rewrite Forall_forall in E, F.
        specialize (E e He). specialize (F e He). cbv beta in E, F.
        apply negb_false_iff in F. rewrite F in E. simpl in E. by apply Z.eqb_neq in E. }
      split; [apply (Hall _); unfold aget; apply nth_In; unfold ARP_TABLE_SIZE in *; lia|].
      unfold evicts. apply andb_true_iff. split.
      * apply forallb_forall. intros e He. by apply Hall.
      * apply negb_true_iff, not_true_is_false. intros (e & He & Heq%Z.eqb_eq)%existsb_exists.
        by apply (Hall e He).
Qed.

Lemma cache_None n ip : arp_wf n -> cache n ip = None ->
  forall i, 0 <= i < ARP_TABLE_SIZE -> e_valid (aget entry_zero (s_table n) i) = true ->
  e_ip (aget entry_zero (s_table n) i) <> ip.
Proof.
  intros Hw Hc i Hi Hv He.
  assert (cache n ip = Some (e_mac (aget entry_zero (s_table n) i))) by (apply cache_iff; eauto).
  congruence.
Qed.

(** The table after an insertion into slot [i], and that no other entry has the address. *)
Lemma arp_insert_table n ip m : arp_wf n -> exists i, 0 <= i < ARP_TABLE_SIZE /\
  (forall j, 0 <= j < ARP_TABLE_SIZE -> aget entry_zero (s_table (arp_insert ip m n)) j =
     if bool_decide (i = j) then mk_entry ip m true else aget entry_zero (s_table n) j) /\
  (forall j, 0 <= j < ARP_TABLE_SIZE -> e_valid (aget entry_zero (s_table n) j) = true ->
     e_ip (aget entry_zero (s_table n) j) = ip -> i = j) /\
  (e_valid (aget entry_zero (s_table n) i) = true -> e_ip (aget entry_zero (s_table n) i) <> ip ->
     i = 0 /\ evicts n ip = true) /\
  (evicts n ip = true -> i = 0 /\ e_valid (aget entry_zero (s_table n) i) = true).
Proof.
  intros Hw. pose proof Hw as (Hl & _ & Hu). destruct (arp_insert_slot n ip m Hw) as (i & Hi & -> & Hcase).
  exists i. split; [done|]. split; [intros j Hj; simpl; apply aget_aset; lia|].
  destruct Hcase as [(Hv & He & Hev)|[(Hc & Hv & Hev)|(Hc & Hz & Hv & Hev)]]; rewrite Hev.
  - split; [intros; apply Hu; congruence|]. split; congruence.
  - split; [intros j Hj Hvj Hej; by destruct (cache_None n ip Hw Hc j Hj Hvj)|]. split; congruence.
  - split; [intros j Hj Hvj Hej; by destruct (cache_None n ip Hw Hc j Hj Hvj)|]. done.
Qed.

Lemma arp_insert_wf n ip m : arp_wf n -> mac_ok m -> arp_wf (arp_insert ip m n).
Proof.
  intros Hw Hm. pose proof Hw as (Hl & Hmac & Hu).
  destruct (arp_insert_table n ip m Hw) as (i & Hi & Hg & Hsame & _).
  split; [unfold arp_insert; simpl; by rewrite aset_length|]. split.
  - intros j Hj. rewrite Hg by done. case_bool_decide; [done|by apply Hmac].
  - intros j k Hj Hk. rewrite !Hg by done.
    destruct (bool_decide_reflect (i = j)), (bool_decide_reflect (i = k)); simpl; intros Hv Hv' E.
    + congruence.
    + by destruct (Hsame k Hk Hv' (eq_sym E)).
    + by destruct (Hsame j Hj Hv E).
    + by apply Hu.
Qed.

Lemma arp_insert_cache n ip m : arp_wf n -> mac_ok m -> cache (arp_insert ip m n) ip = Some m.
Proof.
  intros Hw Hm. destruct (arp_insert_table n ip m Hw) as (i & Hi & Hg & _).
  apply cache_iff; [by apply arp_insert_wf|]. exists i. rewrite Hg, bool_decide_true by done. done.
Qed.

(** [arp_insert] keeps the cache well formed (32 entries, an address in at most one of them),
    makes it answer the new hardware address for [ip], and changes the answer for no other address,
    except when the table is full and [ip] is new: then the address in slot 0 is forgotten. *)
Theorem arp_insert_correct n ip m :
  arp_wf n -> mac_ok m ->
  arp_wf (arp_insert ip m n) /\
  forall ip', cache (arp_insert ip m n) ip' =
    if ip' =? ip then Some m
    else if evicts n ip && (ip' =? e_ip (aget entry_zero (s_table n) 0)) then None
    else cache n ip'.
Proof.
  intros Hw Hm. split; [by apply arp_insert_wf|]. intros ip'.
  destruct (Z.eqb_spec ip' ip) as [->|Hne]; [by apply arp_insert_cache|].
  pose proof Hw as (Hl & Hmac & Hu).
  destruct (arp_insert_table n ip m Hw) as (i & Hi & Hg & Hsame & Hev & Hev').
  apply option_eq. intros x. rewrite cache_iff by by apply arp_insert_wf.
  destruct (evicts n ip && _) eqn:He.
  - apply andb_prop in He as [He Hip%Z.eqb_eq]. destruct (Hev' He) as [-> Hv]. split; [|done]. intros (j & Hj & H).
    rewrite Hg in H by done. destruct (bool_decide_reflect (0 = j)); simpl in H; [by destruct H as (_ & <- & _)|].
    destruct H as (Hvj & Hej & _). assert (0 = j) by (apply Hu; [done..|congruence]). done.
  - rewrite cache_iff by done. split; intros (j & Hj & H); exists j; (split; [done|]).
    + rewrite Hg in H by done. destruct (bool_decide_reflect (i = j)); simpl in H; [by destruct H as (_ & <- & _)|done].
    + rewrite Hg by done. destruct (bool_decide_reflect (i = j)) as [->|]; [|done].
      destruct H as (Hvj & Hej & _). destruct (Hev Hvj ltac:(congruence)) as [-> E]. rewrite E in He.
      simpl in He. apply Z.eqb_neq in He. congruence.
Qed.

(** ** IPv4 output *)

Definition net_wf (n : net) : Prop :=
  blen (s_frame n) = 1528 /\ arp_wf n /\ is_u32 (s_ip n) /\
  (forall c, s_nic n = Some c -> mac_ok (mac c)).

(** Where a datagram to [dst] goes on the link: the broadcast address, or what the cache
    says of the next hop. *)
Definition link_addr (n : net) (dst : Z) : option (list Z) :=
  if (dst =? 0xffffffff) || (dst =? 0) then Some ETH_BROADCAST
  else cache n (if negb (s_gateway n =? 0) && negb (Z.land dst (s_netmask n) =? Z.land (s_ip n) (s_netmask n))
                then s_gateway n else dst).

(** A datagram: header with its checksum, and payload. *)
Definition ip_datagram (id proto src dst : Z) (payload : list Z) : list Z :=
  let hdr := ip_header id proto (blen payload) src dst in
  hdr (htons (ip_checksum (hdr 0))) ++ payload.

(** The bytes of a concatenation of fields. *)
Ltac bytes_parts :=
  unfold bytes; rewrite ?Forall_app;
  repeat match goal with |- _ /\ _ => split end;
  repeat first [apply le_bytes_bytes | apply Forall_nil_2 | apply Forall_cons_2].

Lemma blen_ip_header id proto plen src dst c : blen (ip_header id proto plen src dst c) = 20.
Proof. reflexivity. Qed.

Lemma ip_header_bytes id proto plen src dst c : is_u8 proto -> bytes (ip_header id proto plen src dst c).
Proof.
  intros Hp. unfold ip_header, enc_ip. cbn [ver_ihl dscp_ecn total_length ip_id flags_frag ttl protocol ip_csum ip_src ip_dst].
  by bytes_parts.
Qed.

Lemma ip_header_verifies id proto plen src dst : is_u8 proto ->
  ip_checksum (ip_header id proto plen src dst (htons (ip_checksum (ip_header id proto plen src dst 0)))) = 0.
Proof.
  intros Hp. pose proof (ip_header_bytes id proto plen src dst 0 Hp) as Hb.
  set (pre := [0x45; 0] ++ le_bytes 2 (htons (u16 (20 + plen))) ++ le_bytes 2 (htons id) ++ le_bytes 2 0 ++ [64; proto]).
  assert (forall c, ip_header id proto plen src dst c = pre ++ le_bytes 2 c ++ (le_bytes 4 src ++ le_bytes 4 dst)) as E.
  { intros c. unfold ip_header, enc_ip, pre. rewrite <- !app_assoc. reflexivity. }
  rewrite !E in *. apply ip_checksum_verify; done.
Qed.

Lemma blen_ip_datagram id proto src dst p : blen (ip_datagram id proto src dst p) = 20 + blen p.
Proof. unfold ip_datagram. by rewrite blen_app, blen_ip_header. Qed.

Lemma ip_datagram_bytes id proto src dst p : is_u8 proto -> bytes p -> bytes (ip_datagram id proto src dst p).
Proof. intros. unfold ip_datagram, bytes. apply Forall_app. split; [by apply ip_header_bytes|done]. Qed.

(** What the receiver reads back from a datagram. *)
Lemma ip_datagram_fields id proto src dst p : is_u32 src -> is_u32 dst -> is_u8 proto -> is_u16 id -> blen p <= 1480 ->
  let d := ip_datagram id proto src dst p in
  rd8 d 0 = 0x45 /\ rd8 d 9 = proto /\ rd32 d 12 = src /\ rd32 d 16 = dst /\
  ntohs (rd16 d 2) = 20 + blen p /\ ntohs (rd16 d 4) = id /\ ip_checksum (slice d 0 20) = 0 /\
  slice d 20 (blen d - 20) = p.
Proof.
  intros Hs Hd Hp Hi Hl. cbv zeta. pose proof (blen_nonneg p). rewrite blen_ip_datagram. unfold ip_datagram.
  assert (slice (ip_header id proto (blen p) src dst
       (htons (ip_checksum (ip_header id proto (blen p) src dst 0))) ++ p) 0 20 =
       ip_header id proto (blen p) src dst (htons (ip_checksum (ip_header id proto (blen p) src dst 0)))) as E.
  { by apply slice_app_head. }
  rewrite E, ip_header_verifies by done.
  rewrite slice_app_skip, blen_ip_header, slice_all by (rewrite ?blen_ip_header; lia). clear E.
  assert (le_val (le_bytes 4 src) = src /\ le_val (le_bytes 4 dst) = dst /\
          ntohs (le_val (le_bytes 2 (htons (u16 (20 + blen p))))) = 20 + blen p /\
          ntohs (le_val (le_bytes 2 (htons id))) = id) as (? & ? & E1 & E2).
  { pose proof (htons_range (u16 (20 + blen p))). pose proof (htons_range id). unfold is_u16 in *.
    rewrite !le_val_bytes. unfold is_u32 in *. change (256 ^ Z.of_nat 4) with (2 ^ 32).
    change (256 ^ Z.of_nat 2) with (2 ^ 16). rewrite !Z.mod_small by lia.
    rewrite !ntohs_htons by (unfold is_u16, u16; lia). rewrite u16_small by (unfold is_u16; lia). done. }
  generalize (htons (ip_checksum (ip_header id proto (blen p) src dst 0))). intros k.
  repeat split; done.
Qed.

Lemma cache_mac_ok n hop m : arp_wf n -> cache n hop = Some m -> mac_ok m.
Proof. intros Ha (i & Hi & Hv & _ & <-)%cache_iff; [|done]. by apply (proj1 (proj2 Ha)). Qed.

Lemma broadcast_ok : mac_ok ETH_BROADCAST.
Proof. by repeat constructor. Qed.

Lemma link_addr_ok n dst m : arp_wf n -> link_addr n dst = Some m -> mac_ok m.
Proof.
  unfold link_addr. intros Ha H. destruct (_ || _); [|by eapply cache_mac_ok]. injection H as <-. apply broadcast_ok.
Qed.

Lemma arp_packet_ok opcode smac sip tmac tip : mac_ok smac -> mac_ok tmac ->
  bytes (arp_packet opcode smac sip tmac tip) /\ blen (arp_packet opcode smac sip tmac tip) = 28.
Proof.
  intros [Hs ?] [Ht ?]. unfold arp_packet, enc_arp.
  cbn [hw_type proto_type hw_len proto_len op sender_mac sender_ip target_mac target_ip].
  split; [by bytes_parts|]. rewrite !blen_app, !blen_le_bytes, Hs, Ht. done.
Qed.

Section ipv4_send.
Context (n : net) (c : nic_t) (dst proto : Z) (payload : list Z).
Context (Hwf : net_wf n) (Hn : s_nic n = Some c) (Hpr : is_u8 proto) (Hb : bytes payload).
Context (Hlen : blen payload <= 1480).
Let n1 : net := set_id (u16 (s_id n + 1)) n.
Let d : list Z := ip_datagram (u16 (s_id n + 1)) proto (s_ip n) dst payload.

Lemma ipv4_send_unfold : ipv4_send dst proto payload n =
  match (if (dst =? 0xffffffff) || (dst =? 0) then (Some ETH_BROADCAST, n1)
         else arp_lookup (if negb (s_gateway n =? 0) && negb (Z.land dst (s_netmask n) =? Z.land (s_ip n) (s_netmask n))
                          then s_gateway n else dst) n1) with
  | (None, n) => (false, n)
  | (Some m, n) => eth_send m ETHERTYPE_IPV4 d n
  end.
Proof using Hlen.
  unfold ipv4_send. change sizeof_ip with 20. rewrite (proj2 (Z.ltb_ge 1500 _)) by lia. fold n1.
  change (s_gateway n1) with (s_gateway n). change (s_netmask n1) with (s_netmask n).
  change (s_ip n1) with (s_ip n). change (s_id n1) with (u16 (s_id n + 1)).
  destruct ((dst =? 0xffffffff) || (dst =? 0)); done.
Qed.

(** The frame goes out when the destination resolves. *)
Lemma ipv4_send_hit m : link_addr n dst = Some m ->
  exists f', blen f' = 1528 /\
  ipv4_send dst proto payload n =
    (tx_ok c, set_sent f' (sent n ++ [frame_of m (mac c) ETHERTYPE_IPV4 d ++
                                      slice (s_frame n) (14 + blen d) (46 - blen d)]) n1).
Proof using Hb Hlen Hn Hpr Hwf.
  intros Hm. pose proof Hwf as (Hf & Ha & Hip & Hmac). specialize (Hmac c Hn).
  pose proof (link_addr_ok n dst m Ha Hm) as Hmok.
  assert (bytes d) as Hdb by by apply ip_datagram_bytes.
  assert (blen d <= 1514) by (unfold d; rewrite blen_ip_datagram; lia).
  destruct (eth_send_spec n1 c Hn Hmac Hf m ETHERTYPE_IPV4 d) as (f' & Hf' & He); [done..|].
  exists f'. split; [done|]. rewrite ipv4_send_unfold. unfold link_addr in Hm.
  destruct ((dst =? 0xffffffff) || (dst =? 0)); [injection Hm as <-; exact He|].
  unfold arp_lookup. unfold cache in Hm. change (find_entry n1) with (find_entry n).
  destruct (find_entry n _) as [i|]; [|done]. injection Hm as <-. exact He.
Qed.

(** Otherwise an ARP request for the next hop does. *)
Lemma ipv4_send_miss : link_addr n dst = None ->
  exists f' hop, blen f' = 1528 /\ cache n hop = None /\
  ipv4_send dst proto payload n =
    (false, set_sent f' (sent n ++ [frame_of ETH_BROADCAST (mac c) ETHERTYPE_ARP
                                      (arp_packet ARP_OP_REQUEST (mac c) (s_ip n) (replicate 6 0) hop) ++
                                    slice (s_frame n) 42 18]) n1).
Proof using Hlen Hn Hwf.
  intros Hm. pose proof Hwf as (Hf & Ha & Hip & Hmac). specialize (Hmac c Hn).
  rewrite ipv4_send_unfold. unfold link_addr in Hm.
  destruct ((dst =? 0xffffffff) || (dst =? 0)); [done|].
  revert Hm. generalize (if negb (s_gateway n =? 0) && negb (Z.land dst (s_netmask n) =? Z.land (s_ip n) (s_netmask n))
              then s_gateway n else dst). intros hop Hm.
  destruct (arp_packet_ok ARP_OP_REQUEST (mac c) (s_ip n) (replicate 6 0) hop Hmac) as [Hreq Hrl];
    [by repeat constructor|].
  destruct (eth_send_spec n1 c Hn Hmac Hf ETH_BROADCAST ETHERTYPE_ARP
              (arp_packet ARP_OP_REQUEST (mac c) (s_ip n) (replicate 6 0) hop)) as (f' & Hf' & He);
    [apply broadcast_ok|done|done|rewrite Hrl; done|].
  rewrite Hrl in He. exists f', hop. split; [done|]. split; [done|].
  unfold arp_lookup. unfold cache in Hm. change (find_entry n1) with (find_entry n).
  destruct (find_entry n hop); [done|]. unfold nic_get. change (s_nic n1) with (s_nic n). rewrite Hn.
  change (ipv4_our_ip n1) with (s_ip n). rewrite He. done.
Qed.
End ipv4_send.

(** [ipv4_send] on a payload of more than 1480 bytes fails and sends nothing. Otherwise it takes
    the next identification number; when the destination is a broadcast, or the next hop (the gateway
    off the subnet, the destination itself on it) is in the ARP cache, it hands the NIC exactly one
    frame: addressed to that hop, of type IPv4, holding a datagram whose header verifies and reads back
    as 20 bytes, this protocol, these addresses and this total length, then the payload, then the padding
    to 60 bytes; when the hop is not cached it returns false, having sent one ARP request for it. *)
Theorem ipv4_send_correct n c dst proto payload :
  net_wf n -> s_nic n = Some c -> is_u32 dst -> is_u8 proto -> bytes payload ->
  let n1 := set_id (u16 (s_id n + 1)) n in
  let d := ip_datagram (s_id n1) proto (s_ip n) dst payload in
  if 1480 <? blen payload then ipv4_send dst proto payload n = (false, n)
  else
    (rd8 d 0 = 0x45 /\ rd8 d 9 = proto /\ rd32 d 12 = s_ip n /\ rd32 d 16 = dst /\
     ntohs (rd16 d 2) = 20 + blen payload /\ ntohs (rd16 d 4) = s_id n1 /\ ip_checksum (slice d 0 20) = 0 /\
     slice d 20 (blen d - 20) = payload) /\
    match link_addr n dst with
    | Some m =>
        exists f', blen f' = 1528 /\
        ipv4_send dst proto payload n =
          (tx_ok c, set_sent f' (sent n ++ [frame_of m (mac c) ETHERTYPE_IPV4 d ++
                                            slice (s_frame n) (14 + blen d) (46 - blen d)]) n1)
    | None =>
        exists f' hop, blen f' = 1528 /\ cache n hop = None /\
        ipv4_send dst proto payload n =
          (false, set_sent f' (sent n ++ [frame_of ETH_BROADCAST (mac c) ETHERTYPE_ARP
                                            (arp_packet ARP_OP_REQUEST (mac c) (s_ip n) (replicate 6 0) hop) ++
                                          slice (s_frame n) 42 18]) n1)
    end.
Proof.
  intros Hwf Hn Hdst Hpr Hb n1 d. destruct (Z.ltb_spec 1480 (blen payload)).
  - unfold ipv4_send. change sizeof_ip with 20. by rewrite (proj2 (Z.ltb_lt 1500 _)) by lia.
  - split; [apply ip_datagram_fields; try done; [apply Hwf|apply u16_range]|].
    destruct (link_addr n dst) as [m|] eqn:Hl; [by apply ipv4_send_hit|by apply ipv4_send_miss].
Qed.

(** Sending keeps the state well formed and what it knows of the link. *)
Lemma set_sent_wf f' fs n : blen f' = 1528 -> net_wf n -> net_wf (set_sent f' fs n).
Proof. intros Hf (_ & Ha & Hip & Hmac). done. Qed.

(** ** ICMP echo *)

Lemma icmp_split pkt : 8 <= blen pkt ->
  pkt = slice pkt 0 1 ++ slice pkt 1 1 ++ slice pkt 2 2 ++ slice pkt 4 (blen pkt - 4).
Proof.
  intros H. destruct pkt as [|x0 [|x1 [|x2 [|x3 l]]]]; try (unfold blen in H; simpl in H; lia).
  unfold slice at 4. rewrite take_ge by (rewrite length_drop; unfold blen; cbn [length]; lia). reflexivity.
Qed.

(** The reply is the request with the type changed and a checksum that verifies. *)
Lemma icmp_reply_spec pkt : bytes pkt -> 8 <= blen pkt <= 1024 -> rd8 pkt 1 = 0 ->
  exists k, icmp_reply pkt = [ICMP_ECHO_REPLY; 0] ++ le_bytes 2 (htons k) ++ slice pkt 4 (blen pkt - 4) /\
  ip_checksum (icmp_reply pkt) = 0 /\ bytes (icmp_reply pkt) /\ blen (icmp_reply pkt) = blen pkt.
Proof.
  intros Hb Hl H1. pose proof (icmp_split pkt ltac:(lia)) as E.
  pose proof (slice_bytes pkt 4 (blen pkt - 4) Hb) as Hrest.
  assert (blen (slice pkt 4 (blen pkt - 4)) = blen pkt - 4) as Hrl by (apply blen_slice; lia).
  set (rest := slice pkt 4 (blen pkt - 4)) in *. clearbody rest.
  set (z := [0; 0] ++ [0; 0] ++ rest). assert (bytes z) as Hz by (unfold z; by bytes_parts).
  assert (blen z = blen pkt) as Hzl by (unfold z; rewrite !blen_app, Hrl; change (blen [0; 0]) with 2; lia).
  assert (icmp_reply pkt = [0; 0] ++ le_bytes 2 (htons (ip_checksum z)) ++ rest) as Hr.
  { destruct pkt as [|x0 [|x1 [|x2 [|x3 l]]]]; try (unfold blen in Hl; simpl in Hl; lia).
    unfold rd8, aget in H1. simpl in H1. subst x1. injection E as E. subst l.
    unfold icmp_reply, wr8, wr16, ICMP_ECHO_REPLY, put. simpl. rewrite drop_0. reflexivity. }
  exists (ip_checksum z). rewrite Hr. split; [done|]. split.
  - apply ip_checksum_verify; [done|unfold MAX_CHECKSUMMED; fold z; lia|done].
  - split; [by bytes_parts|]. rewrite !blen_app, blen_le_bytes, Hrl. change (blen [0; 0]) with 2. lia.
Qed.

(** ** UDP *)

Lemma blen_udp_packet src dst sport dport data : blen (udp_packet src dst sport dport data) = 8 + blen data.
Proof. unfold udp_packet. rewrite blen_app. unfold enc_udp. by rewrite !blen_app, !blen_le_bytes. Qed.

Lemma udp_packet_bytes src dst sport dport data : bytes data -> bytes (udp_packet src dst sport dport data).
Proof. intros. unfold udp_packet, enc_udp. by bytes_parts. Qed.

Lemma udp_packet_verifies src dst sport dport data : bytes data -> blen data <= 1464 ->
  ip_pseudo_checksum src dst IP_PROTO_UDP (udp_packet src dst sport dport data) = 0.
Proof.
  intros Hb Hl. unfold udp_packet.
  set (pre := le_bytes 2 (htons sport) ++ le_bytes 2 (htons dport) ++ le_bytes 2 (htons (u16 (sizeof_udp + blen data)))).
  assert (forall c, enc_udp (mk_udp (htons sport) (htons dport) (htons (u16 (sizeof_udp + blen data))) c) ++ data =
                    pre ++ le_bytes 2 c ++ data) as E.
  { intros c. unfold enc_udp, pre. by rewrite <- !app_assoc. }
  rewrite !E. apply ip_pseudo_checksum_verify.
  - unfold pre. by bytes_parts.
  - rewrite !blen_app. unfold pre. rewrite !blen_app, !blen_le_bytes. change (blen [0; 0]) with 2.
    unfold MAX_CHECKSUMMED. lia.
  - done.
Qed.

(** The handlers a datagram to [dport] reaches. *)
Definition bound (dport : Z) (n : net) : list udp_bind_t :=
  List.filter (fun b => b_used b && (b_port b =? dport)) (s_binds n).

(** Trailing bytes, such as link-level padding, are not delivered. *)
Lemma udp_recv_packet n src dst from sport dport data pad :
  is_u16 sport -> is_u16 dport -> bytes data -> blen data <= 1464 ->
  udp_recv from (udp_packet src dst sport dport data ++ pad) n =
    map (fun b => mk_call (b_fn b) from sport data (b_ctx b)) (bound dport n).
Proof.
  intros Hs Hd Hb Hl. pose proof (blen_nonneg data). pose proof (blen_nonneg pad).
  unfold udp_recv. rewrite blen_app, blen_udp_packet. change sizeof_udp with 8.
  rewrite (proj2 (Z.ltb_ge _ 8)) by lia.
  assert (forall x, is_u16 x -> ntohs (le_val (le_bytes 2 (htons x))) = x) as Hx.
  { intros x Hx. pose proof (htons_range x). rewrite le_val_bytes. unfold is_u16 in *.
    change (256 ^ Z.of_nat 2) with (2 ^ 16). rewrite Z.mod_small by lia. by apply ntohs_htons. }
  assert (slice (udp_packet src dst sport dport data ++ pad) 8 (blen data) = data) as Edata.
  { unfold udp_packet. rewrite <- app_assoc, slice_app_skip by done. by apply slice_app_head. }
  unfold udp_packet in *. generalize dependent (htons (ip_pseudo_checksum src dst IP_PROTO_UDP
    (enc_udp (mk_udp (htons sport) (htons dport) (htons (u16 (sizeof_udp + blen data))) 0) ++ data))).
  intros k Edata. set (pkt := (_ ++ data) ++ pad) in *.
  assert (rd16 pkt 0 = le_val (le_bytes 2 (htons sport)) /\ rd16 pkt 2 = le_val (le_bytes 2 (htons dport)) /\
          rd16 pkt 4 = le_val (le_bytes 2 (htons (u16 (8 + blen data))))) as (E0 & E2 & E4) by done.
  clearbody pkt. rewrite E0, E2, E4, !Hx by (try done; apply u16_range).
  rewrite (u16_small (8 + blen data)) by (unfold is_u16; lia).
  replace (8 + blen data - 8) with (blen data) by lia. rewrite u16_small by (unfold is_u16; lia).
  rewrite (proj2 (Z.ltb_ge _ _)) by lia. by rewrite Edata.
Qed.

(** ** A host on a subnet with its gateway cached *)

Definition MAC_A : list Z := [2; 0; 0; 0; 0; 0xa].
Definition MAC_B : list Z := [2; 0; 0; 0; 0; 0xb].
Definition IP_A : Z := 0x0f02000a.
Definition IP_B : Z := 0x0202000a.
Definition NETMASK : Z := 0x00ffffff.

Definition fresh_net : net :=
  mk_net None [] (zeros 1528) (replicate 32 entry_zero) 0 0 0 0 0 (replicate 16 (mk_bind 0 0 0 false)).

Definition host_a : net :=
  arp_insert IP_B MAC_B (ipv4_set_config IP_A NETMASK IP_B 0 (nic_register (mk_nic MAC_A true) fresh_net)).
Definition host_b : net :=
  udp_bind 9000 7 0 (arp_insert IP_A MAC_A
    (ipv4_set_config IP_B NETMASK 0 0 (nic_register (mk_nic MAC_B true) fresh_net))).

(** A decidable form of the invariant, for the examples. *)
Definition arp_wf_check (n : net) : bool :=
  (Z.of_nat (length (s_table n)) =? ARP_TABLE_SIZE) &&
  forallb (fun i => let e := aget entry_zero (s_table n) i in
    negb (e_valid e) ||
    ((blen (e_mac e) =? 6) && forallb (fun x => (0 <=? x) && (x <? 256)) (e_mac e) &&
     forallb (fun j => let e' := aget entry_zero (s_table n) j in
       negb (e_valid e') || negb (e_ip e =? e_ip e') || (i =? j)) (seqZ 0 ARP_TABLE_SIZE)))
    (seqZ 0 ARP_TABLE_SIZE).

Lemma arp_wf_intro n : arp_wf_check n = true -> arp_wf n.
Proof.
  unfold arp_wf_check. intros [Hl%Z.eqb_eq H]%andb_prop. rewrite forallb_forall in H.
  assert (forall i, 0 <= i < ARP_TABLE_SIZE -> In i (seqZ 0 ARP_TABLE_SIZE)) as Hin.
  { intros i Hi. apply list_elem_of_In, elem_of_seqZ. lia. }
  assert (forall i, 0 <= i < ARP_TABLE_SIZE -> e_valid (aget entry_zero (s_table n) i) = true ->
    mac_ok (e_mac (aget entry_zero (s_table n) i)) /\
    forall j, 0 <= j < ARP_TABLE_SIZE -> e_valid (aget entry_zero (s_table n) j) = true ->
      e_ip (aget entry_zero (s_table n) i) = e_ip (aget entry_zero (s_table n) j) -> i = j) as Hi.
  { intros i Hi Hv. specialize (H i (Hin i Hi)). cbv zeta in H. rewrite Hv in H. cbn [negb orb] in H.
    apply andb_prop in H as [[Hm%Z.eqb_eq Hb]%andb_prop Hj].
    split; [split; [done|by apply bytes_check]|]. intros j Hj' Hvj He.
    rewrite forallb_forall in Hj. specialize (Hj j (Hin j Hj')). cbv zeta in Hj. rewrite Hvj, He, Z.eqb_refl in Hj.
    by apply Z.eqb_eq. }
  split; [done|]. split; [intros i Hr Hv; by apply Hi|]. intros i j Hr Hr' Hv Hv' He.
  by apply (proj2 (Hi i Hr Hv)).
Qed.

Lemma host_a_wf : net_wf host_a.
Proof.
  split; [reflexivity|]. split; [by apply arp_wf_intro; vm_compute|]. split; [done|].
  intros c [= <-]. split; [done|by apply bytes_check].
Qed.

Lemma host_b_wf : net_wf host_b.
Proof.
  split; [reflexivity|]. split; [by apply arp_wf_intro; vm_compute|]. split; [done|].
  intros c [= <-]. split; [done|by apply bytes_check].
Qed.

Lemma arp_insert_correct_witness :
  cache (arp_insert IP_A MAC_A host_a) IP_B = Some MAC_B /\ cache (arp_insert IP_A MAC_A host_a) IP_A = Some MAC_A.
Proof.
  destruct (arp_insert_correct host_a IP_A MAC_A (proj1 (proj2 host_a_wf))) as [_ H].
  { split; [done|by apply bytes_check]. }
  split; [exact (H IP_B)|exact (H IP_A)].
Defined.

Lemma ipv4_send_correct_witness : exists f' pad,
  ipv4_send IP_B IP_PROTO_ICMP [1; 2; 3] host_a =
  (true, set_sent f' [frame_of MAC_B MAC_A ETHERTYPE_IPV4 (ip_datagram 1 IP_PROTO_ICMP IP_A IP_B [1; 2; 3]) ++ pad]
                  (set_id 1 host_a)).
Proof.
  destruct (ipv4_send_correct host_a (mk_nic MAC_A true) IP_B IP_PROTO_ICMP [1; 2; 3] host_a_wf eq_refl
              ltac:(done) ltac:(done) ltac:(by apply bytes_check)) as (_ & f' & _ & H).
  eexists f', _. exact H.
Defined.

(** Finding: the padding of a short frame is whatever the previous frame left in [s_frame]; here the
    last bytes of a 40-byte datagram leave the machine again after a 3-byte one. *)
Example eth_send_padding_leaks :
  let '(_, n1) := ipv4_send IP_B IP_PROTO_UDP (replicate 40 0x5e) host_a in
  let '(_, n2) := ipv4_send IP_B IP_PROTO_ICMP [1; 2; 3] n1 in
  exists f, sent n2 !! 1%nat = Some f /\ blen f = 60 /\ slice f 37 23 = replicate 23 0x5e.
Proof. vm_compute. eexists. split; [reflexivity|]. split; reflexivity. Qed.

End Net.
