(* ===== verification/Tcp.v ===== *)
(** * TCP

    Models [kernel/net/tcp.c] except the polling loop of [tcp_connect], which is in [NetStack].
    A connection handle is its index in [s_conns]. The spinlock that guards the table is taken
    and released inside each of [alloc_conn] and [alloc_port] and is not modelled. *)

From S2P Require Import Prelude Bytes Checksum Net.
Import Checksum Net.

Module Tcp.

Definition TCP_FLAG_FIN : Z := 0x01.
Definition TCP_FLAG_SYN : Z := 0x02.
Definition TCP_FLAG_RST : Z := 0x04.
Definition TCP_FLAG_PSH : Z := 0x08.
Definition TCP_FLAG_ACK : Z := 0x10.

Record tcp_hdr_t := mk_tcp {
  t_src : Z; t_dst : Z; t_seq : Z; t_ack : Z; data_off : Z; t_flags : Z; window : Z; t_csum : Z; urgent : Z }.
Definition enc_tcp (h : tcp_hdr_t) : list Z :=
  le_bytes 2 (t_src h) ++ le_bytes 2 (t_dst h) ++ le_bytes 4 (t_seq h) ++ le_bytes 4 (t_ack h) ++
  [data_off h; t_flags h] ++ le_bytes 2 (window h) ++ le_bytes 2 (t_csum h) ++ le_bytes 2 (urgent h).
Definition sizeof_tcp : Z := 20.

Inductive tcp_state_t :=
  | TCP_CLOSED | TCP_SYN_SENT | TCP_ESTABLISHED | TCP_FIN_WAIT_1 | TCP_FIN_WAIT_2 | TCP_CLOSE_WAIT | TCP_TIME_WAIT.

#[global] Instance tcp_state_eq_dec : EqDecision tcp_state_t.
Proof. solve_decision. Defined.

Definition TCP_RXBUF : Z := 4096.
Definition MAX_CONNS : Z := 4.

Record tcp_conn := mk_conn {
  in_use : bool; state : tcp_state_t; dst_ip : Z; c_dport : Z; c_sport : Z;
  snd_seq : Z; snd_una : Z; rcv_nxt : Z; rcv_win : Z;
  rxbuf : list Z; rxbuf_head : Z; rxbuf_tail : Z }.

Definition set_in_use v c :=
  mk_conn v (state c) (dst_ip c) (c_dport c) (c_sport c) (snd_seq c) (snd_una c) (rcv_nxt c) (rcv_win c)
          (rxbuf c) (rxbuf_head c) (rxbuf_tail c).
Definition set_state v c :=
  mk_conn (in_use c) v (dst_ip c) (c_dport c) (c_sport c) (snd_seq c) (snd_una c) (rcv_nxt c) (rcv_win c)
          (rxbuf c) (rxbuf_head c) (rxbuf_tail c).
Definition set_snd_seq v c :=
  mk_conn (in_use c) (state c) (dst_ip c) (c_dport c) (c_sport c) v (snd_una c) (rcv_nxt c) (rcv_win c)
          (rxbuf c) (rxbuf_head c) (rxbuf_tail c).
Definition set_snd_una v c :=
  mk_conn (in_use c) (state c) (dst_ip c) (c_dport c) (c_sport c) (snd_seq c) v (rcv_nxt c) (rcv_win c)
          (rxbuf c) (rxbuf_head c) (rxbuf_tail c).
Definition set_rcv_nxt v c :=
  mk_conn (in_use c) (state c) (dst_ip c) (c_dport c) (c_sport c) (snd_seq c) (snd_una c) v (rcv_win c)
          (rxbuf c) (rxbuf_head c) (rxbuf_tail c).
Definition set_ring b h t c :=
  mk_conn (in_use c) (state c) (dst_ip c) (c_dport c) (c_sport c) (snd_seq c) (snd_una c) (rcv_nxt c) (rcv_win c)
          b h t.

Record tcp := mk_tcpst { nt : net; s_conns : list tcp_conn; s_next_port : Z }.

Definition conn_zero : tcp_conn := mk_conn false TCP_CLOSED 0 0 0 0 0 0 0 (zeros 4096) 0 0.
Definition conn (t : tcp) (i : Z) : tcp_conn := aget conn_zero (s_conns t) i.
Definition upd (i : Z) (f : tcp_conn -> tcp_conn) (t : tcp) : tcp :=
  mk_tcpst (nt t) (aset (s_conns t) i (f (conn t i))) (s_next_port t).
Definition set_nt (n : net) (t : tcp) : tcp := mk_tcpst n (s_conns t) (s_next_port t).

Definition alloc_conn (t : tcp) : option Z * tcp :=
  match find_slot (fun c => negb (in_use c)) (s_conns t) 0 with
  | Some i => (Some i, upd i (set_in_use true) t)
  | None => (None, t)
  end.

Definition alloc_port (t : tcp) : Z * tcp :=
  (s_next_port t, mk_tcpst (nt t) (s_conns t) (u16 (s_next_port t + 1))).

(** ** The receive ring *)

Fixpoint rxbuf_push (data : list Z) (c : tcp_conn) : tcp_conn :=
  match data with
  | [] => c
  | d :: data' =>
      let next := u32 (rxbuf_tail c + 1) mod TCP_RXBUF in
      if next =? rxbuf_head c then c
      else rxbuf_push data' (set_ring (aset (rxbuf c) (rxbuf_tail c) d) (rxbuf_head c) next c)
  end.

(** [max] counts down from the argument; the result is what is stored in [buf]. *)
Fixpoint rxbuf_pop (max : nat) (c : tcp_conn) : list Z * tcp_conn :=
  match max with
  | O => ([], c)
  | S max' =>
      if rxbuf_head c =? rxbuf_tail c then ([], c)
      else
        let b := aget 0 (rxbuf c) (rxbuf_head c) in
        let '(rest, c') := rxbuf_pop max' (set_ring (rxbuf c) (u32 (rxbuf_head c + 1) mod TCP_RXBUF) (rxbuf_tail c) c) in
        (b :: rest, c')
  end.

(** ** Segments *)

Definition segment (our_ip flags : Z) (data : list Z) (c : tcp_conn) : list Z :=
  let hdr := fun csum => enc_tcp (mk_tcp (htons (c_sport c)) (htons (c_dport c)) (htonl (snd_seq c))
    (if negb (Z.land flags TCP_FLAG_ACK =? 0) then htonl (rcv_nxt c) else 0)
    (u8 (Z.shiftl (sizeof_tcp / 4) 4)) flags (htons (rcv_win c)) csum 0) in
  hdr (htons (ip_pseudo_checksum our_ip (dst_ip c) IP_PROTO_TCP (hdr 0 ++ data))) ++ data.

Definition tcp_send_seg (i flags : Z) (data : list Z) (t : tcp) : bool * tcp :=
  if 1480 <? blen data + sizeof_tcp then (false, t)
  else
    let seg := segment (ipv4_our_ip (nt t)) flags data (conn t i) in
    let t := upd i (fun c => set_snd_seq (u32 (if negb (Z.land flags (Z.lor TCP_FLAG_SYN TCP_FLAG_FIN) =? 0)
                                               then snd_seq c + 1 else snd_seq c + blen data)) c) t in
    let '(ok, n) := ipv4_send (dst_ip (conn t i)) IP_PROTO_TCP seg (nt t) in
    (ok, set_nt n t).

(** ** The interface to sockets *)

(** [p] is what is left to send, [len] its length; [fuel] bounds the segments. *)
Fixpoint send_chunks (fuel : nat) (i : Z) (p : list Z) (t : tcp) : bool * tcp :=
  match fuel with
  | O => (true, t)
  | S f =>
      if 0 <? blen p then
        let chunk := if 1460 <? blen p then 1460 else blen p in
        match tcp_send_seg i (Z.lor TCP_FLAG_ACK TCP_FLAG_PSH) (slice p 0 chunk) t with
        | (false, t) => (false, t)
        | (true, t) => send_chunks f i (drop (Z.to_nat chunk) p) t
        end
      else (true, t)
  end.

Definition tcp_send (h : option Z) (data : list Z) (t : tcp) : bool * tcp :=
  match h with
  | None => (false, t)
  | Some i => if bool_decide (state (conn t i) = TCP_ESTABLISHED) then send_chunks (length data) i data t else (false, t)
  end.

Definition tcp_recv (h : option Z) (max : Z) (t : tcp) : list Z * tcp :=
  match h with
  | None => ([], t)
  | Some i =>
      if bool_decide (state (conn t i) = TCP_ESTABLISHED) then
        let '(b, c) := rxbuf_pop (Z.to_nat max) (conn t i) in (b, upd i (fun _ => c) t)
      else ([], t)
  end.

Definition tcp_close (h : option Z) (t : tcp) : tcp :=
  match h with
  | None => t
  | Some i =>
      let t := if bool_decide (state (conn t i) = TCP_ESTABLISHED)
               then snd (tcp_send_seg i (Z.lor TCP_FLAG_FIN TCP_FLAG_ACK) [] t) else t in
      upd i (fun c => set_in_use false (set_state TCP_CLOSED c)) t
  end.

Definition tcp_is_established (h : option Z) (t : tcp) : bool :=
  match h with None => false | Some i => bool_decide (state (conn t i) = TCP_ESTABLISHED) end.

(** ** Input *)

Definition find_conn (src_ip sport dport : Z) (t : tcp) : option Z :=
  find_slot (fun c => in_use c && (dst_ip c =? src_ip) && (c_dport c =? sport) && (c_sport c =? dport)) (s_conns t) 0.

Definition send_ack (i : Z) (t : tcp) : tcp := snd (tcp_send_seg i TCP_FLAG_ACK [] t).

Definition flag (flags bit : Z) : bool := negb (Z.land flags bit =? 0).

(** The [switch] on the connection's state. *)
Definition input_syn_sent (i flags seq ack : Z) (t : tcp) : tcp :=
  if Z.land flags (Z.lor TCP_FLAG_SYN TCP_FLAG_ACK) =? Z.lor TCP_FLAG_SYN TCP_FLAG_ACK then
    send_ack i (upd i (fun c => set_state TCP_ESTABLISHED (set_snd_una ack (set_rcv_nxt (u32 (seq + 1)) c))) t)
  else if flag flags TCP_FLAG_RST then upd i (set_state TCP_CLOSED) t
  else t.

Definition input_established (i flags seq ack : Z) (data : list Z) (t : tcp) : tcp :=
  if flag flags TCP_FLAG_RST then upd i (set_state TCP_CLOSED) t
  else
    let t := if flag flags TCP_FLAG_ACK then upd i (set_snd_una ack) t else t in
    let t := if (0 <? blen data) && (seq =? rcv_nxt (conn t i))
             then send_ack i (upd i (fun c => set_rcv_nxt (u32 (rcv_nxt c + blen data)) (rxbuf_push data c)) t)
             else t in
    if flag flags TCP_FLAG_FIN then
      let t := upd i (fun c => set_state TCP_CLOSE_WAIT (set_rcv_nxt (u32 (rcv_nxt c + 1)) c)) t in
      let t := send_ack i t in
      let t := snd (tcp_send_seg i (Z.lor TCP_FLAG_FIN TCP_FLAG_ACK) [] t) in
      upd i (set_state TCP_CLOSED) t
    else t.

Definition input_fin_wait_2 (i flags : Z) (t : tcp) : tcp :=
  if flag flags TCP_FLAG_FIN then
    upd i (set_state TCP_CLOSED) (send_ack i (upd i (fun c => set_rcv_nxt (u32 (rcv_nxt c + 1)) c) t))
  else t.

Definition input_fin_wait_1 (i flags : Z) (t : tcp) : tcp :=
  input_fin_wait_2 i flags (if flag flags TCP_FLAG_ACK then upd i (set_state TCP_FIN_WAIT_2) t else t).

Definition tcp_input (src_ip : Z) (pkt : list Z) (t : tcp) : tcp :=
  if blen pkt <? sizeof_tcp then t
  else
    let doff := u8 (Z.shiftr (rd8 pkt 12) 4 * 4) in
    if (doff <? sizeof_tcp) || (blen pkt <? doff) then t
    else
      let data := slice pkt doff (u16 (blen pkt - doff)) in
      let flags := rd8 pkt 13 in
      match find_conn src_ip (ntohs (rd16 pkt 0)) (ntohs (rd16 pkt 2)) t with
      | None => t
      | Some i =>
          let seq := ntohl (rd32 pkt 4) in
          let ack := ntohl (rd32 pkt 8) in
          match state (conn t i) with
          | TCP_SYN_SENT => input_syn_sent i flags seq ack t
          | TCP_ESTABLISHED => input_established i flags seq ack data t
          | TCP_FIN_WAIT_1 => input_fin_wait_1 i flags t
          | TCP_FIN_WAIT_2 => input_fin_wait_2 i flags t
          | _ => t
          end
      end.

(** ** The receive ring is a bounded queue *)

Record conn_wf (c : tcp_conn) : Prop := {
  wf_rxbuf : blen (rxbuf c) = TCP_RXBUF;
  wf_head : 0 <= rxbuf_head c < TCP_RXBUF;
  wf_tail : 0 <= rxbuf_tail c < TCP_RXBUF;
  wf_snd_seq : is_u32 (snd_seq c);
}.

Definition used (c : tcp_conn) : Z := (rxbuf_tail c - rxbuf_head c) mod TCP_RXBUF.
Definition contents (c : tcp_conn) : list Z := ring TCP_RXBUF (rxbuf c) (rxbuf_head c) (Z.to_nat (used c)).

Lemma blen_contents c : blen (contents c) = used c.
Proof.
  unfold blen, contents. rewrite ring_length.
  pose proof (Z.mod_pos_bound (rxbuf_tail c - rxbuf_head c) TCP_RXBUF ltac:(done)). unfold used. lia.
Qed.

(** Only the ring changes. *)
Definition ring_only (c c' : tcp_conn) : Prop :=
  c' = set_ring (rxbuf c') (rxbuf_head c') (rxbuf_tail c') c.

Lemma push_byte c d : conn_wf c -> used c < TCP_RXBUF - 1 ->
  let c' := set_ring (aset (rxbuf c) (rxbuf_tail c) d) (rxbuf_head c) ((rxbuf_tail c + 1) mod TCP_RXBUF) c in
  conn_wf c' /\ contents c' = contents c ++ [d] /\ used c' = used c + 1.
Proof.
  intros [Hb Hh Ht Hs] Hu c'.
  assert (used c' = used c + 1) as Eu by (unfold used, c', TCP_RXBUF in *; cbn [rxbuf_tail rxbuf_head set_ring]; lia).
  split; [|split; [|done]].
  - split; unfold c', TCP_RXBUF in *; cbn [rxbuf rxbuf_tail rxbuf_head set_ring]; [unfold blen in *; by rewrite aset_length|lia|lia|done].
  - unfold contents. rewrite Eu. unfold c'. cbn [rxbuf rxbuf_head set_ring].
    pose proof (Z.mod_pos_bound (rxbuf_tail c - rxbuf_head c) TCP_RXBUF ltac:(done)) as Hr. fold (used c) in Hr.
    rewrite Z2Nat.inj_add by lia. change (Z.to_nat 1) with 1%nat.
    replace (rxbuf_tail c) with ((rxbuf_head c + Z.of_nat (Z.to_nat (used c))) mod TCP_RXBUF)
      by (unfold used, TCP_RXBUF in *; lia).
    apply ring_snoc; unfold TCP_RXBUF in *; (done || lia).
Qed.

(** [rxbuf_push] appends the bytes that fit and drops the rest. *)
Lemma rxbuf_push_spec data c : conn_wf c ->
  let c' := rxbuf_push data c in
  conn_wf c' /\ ring_only c c' /\
  contents c' = contents c ++ take (Z.to_nat (TCP_RXBUF - 1 - used c)) data.
Proof.
  revert c. induction data as [|d data IH]; intros c Hc; cbn [rxbuf_push].
  - split; [done|]. split; [by destruct c|]. by rewrite take_nil, app_nil_r.
  - pose proof Hc as [Hb Hh Ht Hs]. rewrite u32_small by (unfold is_u32, TCP_RXBUF in *; lia).
    destruct (Z.eqb_spec ((rxbuf_tail c + 1) mod TCP_RXBUF) (rxbuf_head c)) as [E|E].
    + assert (used c = TCP_RXBUF - 1) as -> by (unfold used, TCP_RXBUF in *; lia).
      split; [done|]. split; [by destruct c|]. by rewrite app_nil_r.
    + assert (0 <= used c < TCP_RXBUF - 1) as Hu by (unfold used, TCP_RXBUF in *; lia).
      destruct (push_byte c d Hc ltac:(lia)) as (Hc1 & C1 & U1). cbv zeta in Hc1, C1, U1.
      set (c1 := set_ring _ _ _ c) in *. destruct (IH c1 Hc1) as (Hw & Hr & C).
      split; [done|]. split; [|].
      * unfold ring_only in *. rewrite Hr at 1. done.
      * rewrite C, C1, U1, <- app_assoc. f_equal.
        replace (Z.to_nat (TCP_RXBUF - 1 - used c)) with (S (Z.to_nat (TCP_RXBUF - 1 - (used c + 1)))) by lia. done.
Qed.

Lemma rxbuf_pop_spec max c : conn_wf c ->
  let '(b, c') := rxbuf_pop max c in
  conn_wf c' /\ ring_only c c' /\ b = take max (contents c) /\ contents c' = drop max (contents c).
Proof.
  revert c. induction max as [|max IH]; intros c Hc; cbn [rxbuf_pop].
  - split; [done|]. split; [by destruct c|]. done.
  - pose proof Hc as [Hb Hh Ht Hs]. destruct (Z.eqb_spec (rxbuf_head c) (rxbuf_tail c)) as [E|E].
    + assert (contents c = []) as ->.
      { unfold contents, used. rewrite E, Z.sub_diag. done. }
      split; [done|]. split; [by destruct c|]. done.
    + rewrite u32_small by (unfold is_u32, TCP_RXBUF in *; lia).
      set (c1 := set_ring _ _ _ c). assert (conn_wf c1) as Hc1.
      { split; unfold c1, TCP_RXBUF in *; cbn [rxbuf rxbuf_tail rxbuf_head set_ring]; [done|lia|done|done]. }
      assert (contents c = aget 0 (rxbuf c) (rxbuf_head c) :: contents c1) as EC.
      { unfold contents. replace (Z.to_nat (used c)) with (S (Z.to_nat (used c1))); [done|].
        unfold used, c1, TCP_RXBUF in *. cbn [rxbuf_tail rxbuf_head set_ring]. lia. }
      specialize (IH c1 Hc1). destruct (rxbuf_pop max c1) as [b c'].
      destruct IH as (Hw & Hr & -> & C). rewrite EC.
      split; [done|]. split; [|by split].
      unfold ring_only in *. rewrite Hr at 1. done.
Qed.

(** Setting a field outside the ring keeps the connection well formed. *)
Lemma conn_wf_ext c c' : conn_wf c -> rxbuf c' = rxbuf c -> rxbuf_head c' = rxbuf_head c ->
  rxbuf_tail c' = rxbuf_tail c -> is_u32 (snd_seq c') -> conn_wf c'.
Proof. intros [] E1 E2 E3 ?. split; congruence. Qed.

Lemma ring_only_snd_seq c c' : ring_only c c' -> snd_seq c' = snd_seq c.
Proof. by intros ->. Qed.

Ltac conn_wf_set :=
  intros; match goal with
  | H : conn_wf _ |- _ =>
      apply (conn_wf_ext _ _ H); [reflexivity..|first [exact (u32_range _) | exact (wf_snd_seq _ H)]]
  end.

(** ** Updates of the connection table *)

Definition conn_ok (i : Z) : Prop := 0 <= i < MAX_CONNS.

Definition tcp_wf (t : tcp) : Prop := Z.of_nat (length (s_conns t)) = MAX_CONNS /\ Forall conn_wf (s_conns t).

Lemma conn_get_wf t i : tcp_wf t -> conn_ok i -> conn_wf (conn t i).
Proof. intros [Hl Hf] Hi. unfold conn. apply Forall_aget; [done|]. unfold conn_ok in Hi. lia. Qed.

Lemma upd_wf i f t : tcp_wf t -> (forall c, conn_wf c -> conn_wf (f c)) -> conn_ok i -> tcp_wf (upd i f t).
Proof.
  intros Hw Hf Hi. pose proof Hw as [Hl Hall]. split; [unfold upd; simpl; by rewrite aset_length|].
  unfold upd. simpl. apply Forall_aset; [done|]. by apply Hf, conn_get_wf.
Qed.

Lemma conn_upd i j f t : tcp_wf t -> conn_ok i -> conn_ok j ->
  conn (upd i f t) j = if bool_decide (i = j) then f (conn t i) else conn t j.
Proof. intros [Hl _] Hi Hj. unfold conn, upd, conn_ok in *. simpl. apply aget_aset; lia. Qed.

Lemma conn_upd_eq i f t : tcp_wf t -> conn_ok i -> conn (upd i f t) i = f (conn t i).
Proof. intros. rewrite conn_upd by done. by rewrite bool_decide_true. Qed.

Lemma conn_upd_ne i j f t : tcp_wf t -> conn_ok i -> conn_ok j -> i <> j -> conn (upd i f t) j = conn t j.
Proof. intros. rewrite conn_upd by done. by rewrite bool_decide_false. Qed.

(** What a segment adds to [snd_seq]. *)
Definition seq_len (flags : Z) (data : list Z) : Z :=
  if flag flags (Z.lor TCP_FLAG_SYN TCP_FLAG_FIN) then 1 else blen data.

Lemma tcp_send_seg_conns i flags data t : blen data <= 1460 ->
  exists n, snd (tcp_send_seg i flags data t) =
    set_nt n (upd i (fun c => set_snd_seq (u32 (snd_seq c + seq_len flags data)) c) t).
Proof.
  intros Hl. unfold tcp_send_seg. change sizeof_tcp with 20. rewrite (proj2 (Z.ltb_ge 1480 _)) by lia.
  assert (forall c, (if negb (Z.land flags (Z.lor TCP_FLAG_SYN TCP_FLAG_FIN) =? 0) then snd_seq c + 1
                     else snd_seq c + blen data) = snd_seq c + seq_len flags data) as E.
  { intros c. unfold seq_len, flag. by destruct (negb _). }
  unfold upd at 1 2 3. rewrite E. destruct (ipv4_send _ _ _ _) as [ok n]. by exists n.
Qed.

Lemma set_nt_wf n t : tcp_wf (set_nt n t) <-> tcp_wf t.
Proof. done. Qed.

Lemma tcp_send_seg_wf i flags data t : tcp_wf t -> conn_ok i -> blen data <= 1460 ->
  tcp_wf (snd (tcp_send_seg i flags data t)).
Proof.
  intros Hw Hi Hl. destruct (tcp_send_seg_conns i flags data t Hl) as [n ->]. apply set_nt_wf, upd_wf; [done| |done].
  conn_wf_set.
Qed.

Lemma tcp_send_seg_conn i j flags data t : tcp_wf t -> conn_ok i -> conn_ok j -> blen data <= 1460 ->
  conn (snd (tcp_send_seg i flags data t)) j =
    if bool_decide (i = j) then set_snd_seq (u32 (snd_seq (conn t i) + seq_len flags data)) (conn t i) else conn t j.
Proof.
  intros Hw Hi Hj Hl. destruct (tcp_send_seg_conns i flags data t Hl) as [n ->].
  change (conn (set_nt n ?x) j) with (conn x j). rewrite conn_upd by done. done.
Qed.

Lemma send_ack_wf i t : tcp_wf t -> conn_ok i -> tcp_wf (send_ack i t).
Proof. intros. by apply tcp_send_seg_wf. Qed.

(** An ACK leaves the connections as they are. *)
Lemma send_ack_conn i j t : tcp_wf t -> conn_ok i -> conn_ok j -> conn (send_ack i t) j = conn t j.
Proof.
  intros Hw Hi Hj. unfold send_ack. rewrite tcp_send_seg_conn by done.
  destruct (bool_decide_reflect (i = j)) as [<-|]; [|done].
  change (seq_len TCP_FLAG_ACK []) with 0. rewrite Z.add_0_r, u32_small by (by apply wf_snd_seq, conn_get_wf).
  by destruct (conn t i).
Qed.

(** ** Input on an established connection, as a function of the connection *)

Definition recv_conn (flags seq ack : Z) (data : list Z) (c : tcp_conn) : tcp_conn :=
  if flag flags TCP_FLAG_RST then set_state TCP_CLOSED c
  else
    let c := if flag flags TCP_FLAG_ACK then set_snd_una ack c else c in
    let c := if (0 <? blen data) && (seq =? rcv_nxt c)
             then set_rcv_nxt (u32 (rcv_nxt c + blen data)) (rxbuf_push data c) else c in
    if flag flags TCP_FLAG_FIN
    then set_state TCP_CLOSED (set_snd_seq (u32 (snd_seq c + 1)) (set_rcv_nxt (u32 (rcv_nxt c + 1)) c))
    else c.

Lemma input_established_spec i flags seq ack data t : tcp_wf t -> conn_ok i ->
  let t' := input_established i flags seq ack data t in
  tcp_wf t' /\ conn t' i = recv_conn flags seq ack data (conn t i) /\
  (forall j, conn_ok j -> j <> i -> conn t' j = conn t j).
Proof.
  intros Hw Hi. cbv zeta. unfold input_established, recv_conn. destruct (flag flags TCP_FLAG_RST).
  { split; [apply upd_wf; [done|conn_wf_set|done]|]. split; [by apply conn_upd_eq|].
    intros. by apply conn_upd_ne. }
  set (t1 := if flag flags TCP_FLAG_ACK then _ else t).
  set (c1 := if flag flags TCP_FLAG_ACK then set_snd_una ack (conn t i) else conn t i).
  assert (tcp_wf t1 /\ conn t1 i = c1 /\ forall j, conn_ok j -> j <> i -> conn t1 j = conn t j) as (Hw1 & C1 & O1).
  { unfold t1, c1. destruct (flag flags TCP_FLAG_ACK); [|done].
    split; [apply upd_wf; [done|conn_wf_set|done]|]. split; [by apply conn_upd_eq|]. intros. by apply conn_upd_ne. }
  clearbody t1. rewrite C1.
  set (t2 := if _ && _ then _ else t1). set (c2 := if _ && _ then _ else c1).
  assert (tcp_wf t2 /\ conn t2 i = c2 /\ forall j, conn_ok j -> j <> i -> conn t2 j = conn t j) as (Hw2 & C2 & O2).
  { unfold t2, c2. destruct (_ && _); [|done]. set (t' := upd i _ t1).
    assert (tcp_wf t') as Hw'.
    { apply upd_wf; [done| |done]. intros c Hc. destruct (rxbuf_push_spec data _ Hc) as (Hp & Hr & _). conn_wf_set. }
    split; [by apply send_ack_wf|]. split.
    - rewrite send_ack_conn by done. unfold t'. rewrite conn_upd_eq by done. rewrite C1. reflexivity.
    - intros j Hj Hne. rewrite send_ack_conn by done. unfold t'. rewrite conn_upd_ne by done. by apply O1. }
  clearbody t2 c2. destruct (flag flags TCP_FLAG_FIN); [|done].
  set (t3 := upd i _ t2). assert (tcp_wf t3) as Hw3 by (apply upd_wf; [done|conn_wf_set|done]).
  pose proof (send_ack_wf i t3 Hw3 Hi) as Hw4.
  assert (blen [] <= 1460) as Hl by done.
  pose proof (tcp_send_seg_wf i (Z.lor TCP_FLAG_FIN TCP_FLAG_ACK) [] _ Hw4 Hi Hl) as Hw5.
  split; [apply upd_wf; [done|conn_wf_set|done]|]. split.
  - rewrite conn_upd_eq, tcp_send_seg_conn, bool_decide_true by done. rewrite send_ack_conn by done.
    unfold t3. rewrite conn_upd_eq by done. rewrite C2. done.
  - intros j Hj Hne. rewrite conn_upd_ne, tcp_send_seg_conn, bool_decide_false by done.
    rewrite send_ack_conn by done. unfold t3. rewrite conn_upd_ne by done. by apply O2.
Qed.

(** ** Segments on the wire *)

Record peer_ok (c : tcp_conn) : Prop := {
  pk_sport : is_u16 (c_sport c);
  pk_dport : is_u16 (c_dport c);
  pk_seq : is_u32 (snd_seq c);
  pk_rcv : is_u32 (rcv_nxt c);
}.

Lemma blen_segment ip flags data c : blen (segment ip flags data c) = 20 + blen data.
Proof. unfold segment. rewrite blen_app. reflexivity. Qed.

Lemma segment_bytes ip flags data c : is_u8 flags -> bytes data -> bytes (segment ip flags data c).
Proof.
  intros Hf Hd. unfold segment, enc_tcp. cbn [t_src t_dst t_seq t_ack data_off t_flags window t_csum urgent].
  by bytes_parts.
Qed.

Lemma segment_verifies ip flags data c : is_u8 flags -> bytes data -> blen data <= 1460 ->
  ip_pseudo_checksum ip (dst_ip c) IP_PROTO_TCP (segment ip flags data c) = 0.
Proof.
  intros Hf Hd Hl. unfold segment.
  set (a := if negb (Z.land flags TCP_FLAG_ACK =? 0) then htonl (rcv_nxt c) else 0).
  set (pre := le_bytes 2 (htons (c_sport c)) ++ le_bytes 2 (htons (c_dport c)) ++ le_bytes 4 (htonl (snd_seq c)) ++
              le_bytes 4 a ++ [u8 (Z.shiftl (sizeof_tcp / 4) 4); flags] ++ le_bytes 2 (htons (rcv_win c))).
  assert (forall k, enc_tcp (mk_tcp (htons (c_sport c)) (htons (c_dport c)) (htonl (snd_seq c)) a
     (u8 (Z.shiftl (sizeof_tcp / 4) 4)) flags (htons (rcv_win c)) k 0) ++ data =
     pre ++ le_bytes 2 k ++ (le_bytes 2 0 ++ data)) as E.
  { intros k. unfold enc_tcp, pre. by rewrite <- !app_assoc. }
  rewrite !E. apply ip_pseudo_checksum_verify.
  - unfold pre. by bytes_parts.
  - rewrite !blen_app. unfold pre. rewrite !blen_app, !blen_le_bytes. change (blen [0; 0]) with 2.
    change (blen [u8 (Z.shiftl (sizeof_tcp / 4) 4); flags]) with 2. unfold MAX_CHECKSUMMED. lia.
  - done.
Qed.

Lemma ntohs_wire x : is_u16 x -> ntohs (le_val (le_bytes 2 (htons x))) = x.
Proof.
  intros Hx. pose proof (htons_range x). rewrite le_val_bytes. unfold is_u16 in *.
  change (256 ^ Z.of_nat 2) with (2 ^ 16). rewrite Z.mod_small by lia. by apply ntohs_htons.
Qed.

Lemma ntohl_wire x : is_u32 x -> ntohl (le_val (le_bytes 4 (htonl x))) = x.
Proof.
  intros Hx. pose proof (htonl_range x Hx). rewrite le_val_bytes. unfold is_u32 in *.
  change (256 ^ Z.of_nat 4) with (2 ^ 32). rewrite Z.mod_small by lia. by apply ntohl_htonl.
Qed.

(** The fields [tcp_input] reads from a segment the peer built, followed by [pad]. *)
Lemma segment_fields ip flags data c pad : peer_ok c ->
  let pkt := segment ip flags data c ++ pad in
  ntohs (rd16 pkt 0) = c_sport c /\ ntohs (rd16 pkt 2) = c_dport c /\ ntohl (rd32 pkt 4) = snd_seq c /\
  ntohl (rd32 pkt 8) = (if flag flags TCP_FLAG_ACK then rcv_nxt c else 0) /\
  u8 (Z.shiftr (rd8 pkt 12) 4 * 4) = 20 /\ rd8 pkt 13 = flags /\
  slice pkt 20 (blen data + blen pad) = data ++ pad.
Proof.
  intros [Hs Hd Hq Hr]. cbv zeta.
  assert (slice (segment ip flags data c ++ pad) 20 (blen data + blen pad) = data ++ pad) as ->.
  { unfold segment. rewrite <- app_assoc, slice_app_skip by done. apply slice_all. by rewrite blen_app. }
  unfold segment. set (a := if negb (Z.land flags TCP_FLAG_ACK =? 0) then htonl (rcv_nxt c) else 0).
  assert (ntohl (le_val (le_bytes 4 a)) = if flag flags TCP_FLAG_ACK then rcv_nxt c else 0) as Ha.
  { unfold a, flag. destruct (negb _); [by apply ntohl_wire|done]. }
  cbv zeta. generalize (htons (ip_pseudo_checksum ip (dst_ip c) IP_PROTO_TCP
    (enc_tcp (mk_tcp (htons (c_sport c)) (htons (c_dport c)) (htonl (snd_seq c)) a
      (u8 (Z.shiftl (sizeof_tcp / 4) 4)) flags (htons (rcv_win c)) 0 0) ++ data))). intros k.
  pose proof (ntohs_wire _ Hs). pose proof (ntohs_wire _ Hd). pose proof (ntohl_wire _ Hq).
  repeat split; assumption || reflexivity.
Qed.

(** [tcp_input] on such a segment. *)
Lemma tcp_input_segment src ip flags data c pad t :
  peer_ok c -> blen data + blen pad <= 65515 ->
  tcp_input src (segment ip flags data c ++ pad) t =
    match find_conn src (c_sport c) (c_dport c) t with
    | None => t
    | Some i =>
        let ack := if flag flags TCP_FLAG_ACK then rcv_nxt c else 0 in
        match state (conn t i) with
        | TCP_SYN_SENT => input_syn_sent i flags (snd_seq c) ack t
        | TCP_ESTABLISHED => input_established i flags (snd_seq c) ack (data ++ pad) t
        | TCP_FIN_WAIT_1 => input_fin_wait_1 i flags t
        | TCP_FIN_WAIT_2 => input_fin_wait_2 i flags t
        | _ => t
        end
    end.
Proof.
  intros Hc Hl. pose proof (blen_nonneg data). pose proof (blen_nonneg pad).
  destruct (segment_fields ip flags data c pad Hc) as (E0 & E2 & E4 & E8 & E12 & E13 & Ed).
  unfold tcp_input. cbv zeta. rewrite E0, E2, E4, E8, E12, E13, blen_app, blen_segment. change sizeof_tcp with 20.
  rewrite (proj2 (Z.ltb_ge _ 20)), (proj2 (Z.ltb_ge _ 20)), orb_false_l by lia.
  replace (20 + blen data + blen pad - 20) with (blen data + blen pad) by lia.
  rewrite u16_small by (unfold is_u16; lia). by rewrite Ed.
Qed.

(** ** What each operation leaves alone *)

(** The connections other than [i] are as before, and the table is well formed. *)
Definition only_conn (i : Z) (t t' : tcp) : Prop :=
  tcp_wf t' /\ forall j, conn_ok j -> j <> i -> conn t' j = conn t j.

Lemma only_conn_refl i t : tcp_wf t -> only_conn i t t.
Proof. done. Qed.

Lemma only_conn_trans i t1 t2 t3 : only_conn i t1 t2 -> only_conn i t2 t3 -> only_conn i t1 t3.
Proof. intros [_ H1] [Hw H2]. split; [done|]. intros j Hj Hn. by rewrite H2, H1. Qed.

Lemma only_conn_upd i f t : tcp_wf t -> conn_ok i -> (forall c, conn_wf c -> conn_wf (f c)) -> only_conn i t (upd i f t).
Proof. intros. split; [by apply upd_wf|]. intros. by apply conn_upd_ne. Qed.

Lemma only_conn_seg i flags data t : tcp_wf t -> conn_ok i -> blen data <= 1460 ->
  only_conn i t (snd (tcp_send_seg i flags data t)).
Proof.
  intros. split; [by apply tcp_send_seg_wf|]. intros. rewrite tcp_send_seg_conn by done.
  by rewrite bool_decide_false.
Qed.

Lemma only_conn_ack i t : tcp_wf t -> conn_ok i -> only_conn i t (send_ack i t).
Proof. intros. by apply only_conn_seg. Qed.

Lemma input_syn_sent_only i flags seq ack t : tcp_wf t -> conn_ok i -> only_conn i t (input_syn_sent i flags seq ack t).
Proof.
  intros Hw Hi. unfold input_syn_sent. destruct (_ =? _).
  - assert (only_conn i t (upd i (fun c => set_state TCP_ESTABLISHED (set_snd_una ack (set_rcv_nxt (u32 (seq + 1)) c))) t)) as H
      by (apply only_conn_upd; [done..|conn_wf_set]).
    eapply only_conn_trans; [exact H|]. apply only_conn_ack; [apply H|done].
  - destruct (flag _ _); [|by apply only_conn_refl]. apply only_conn_upd; [done..|conn_wf_set].
Qed.

Lemma input_fin_wait_2_only i flags t : tcp_wf t -> conn_ok i -> only_conn i t (input_fin_wait_2 i flags t).
Proof.
  intros Hw Hi. unfold input_fin_wait_2. destruct (flag _ _); [|by apply only_conn_refl].
  assert (only_conn i t (upd i (fun c => set_rcv_nxt (u32 (rcv_nxt c + 1)) c) t)) as H
    by (apply only_conn_upd; [done..|conn_wf_set]).
  assert (only_conn i t (send_ack i (upd i (fun c => set_rcv_nxt (u32 (rcv_nxt c + 1)) c) t))) as H'.
  { eapply only_conn_trans; [exact H|]. apply only_conn_ack; [apply H|done]. }
  eapply only_conn_trans; [exact H'|]. apply only_conn_upd; [apply H'|done|conn_wf_set].
Qed.

Lemma input_fin_wait_1_only i flags t : tcp_wf t -> conn_ok i -> only_conn i t (input_fin_wait_1 i flags t).
Proof.
  intros Hw Hi. unfold input_fin_wait_1. destruct (flag flags TCP_FLAG_ACK); [|by apply input_fin_wait_2_only].
  assert (only_conn i t (upd i (set_state TCP_FIN_WAIT_2) t)) as H by (apply only_conn_upd; [done..|conn_wf_set]).
  eapply only_conn_trans; [exact H|]. apply input_fin_wait_2_only; [apply H|done].
Qed.

Lemma find_conn_Some src sport dport t i : tcp_wf t -> find_conn src sport dport t = Some i ->
  conn_ok i /\ in_use (conn t i) = true /\ dst_ip (conn t i) = src /\ c_dport (conn t i) = sport /\ c_sport (conn t i) = dport.
Proof.
  intros [Hl _] (Hi & Hp & _)%(find_slot_Some _ conn_zero).
  apply andb_prop in Hp as [[[? ?%Z.eqb_eq]%andb_prop ?%Z.eqb_eq]%andb_prop ?%Z.eqb_eq].
  unfold conn_ok, conn. split_and!; (done || lia).
Qed.

(** A segment touches at most the connection it is addressed to. *)
Lemma tcp_input_only src pkt t : tcp_wf t ->
  tcp_input src pkt t = t \/
  exists i, find_conn src (ntohs (rd16 pkt 0)) (ntohs (rd16 pkt 2)) t = Some i /\ only_conn i t (tcp_input src pkt t).
Proof.
  intros Hw. unfold tcp_input. destruct (_ <? sizeof_tcp); [by left|]. destruct (_ || _); [by left|].
  destruct (find_conn _ _ _ t) as [i|] eqn:E; [|by left]. right. exists i. split; [done|].
  apply find_conn_Some in E as (Hi & _); [|done].
  destruct (state (conn t i)); try (by apply only_conn_refl).
  - by apply input_syn_sent_only.
  - destruct (input_established_spec i (rd8 pkt 13) (ntohl (rd32 pkt 4)) (ntohl (rd32 pkt 8))
      (slice pkt (u8 (Z.shiftr (rd8 pkt 12) 4 * 4)) (u16 (blen pkt - u8 (Z.shiftr (rd8 pkt 12) 4 * 4)))) t Hw Hi)
      as (Hw' & _ & Ho). by split.
  - by apply input_fin_wait_1_only.
  - by apply input_fin_wait_2_only.
Qed.

(** Sending moves only the sequence number. *)
Lemma send_chunks_conn fuel i p t : tcp_wf t -> conn_ok i ->
  only_conn i t (snd (send_chunks fuel i p t)) /\
  exists v, conn (snd (send_chunks fuel i p t)) i = set_snd_seq v (conn t i).
Proof.
  revert p t. induction fuel as [|f IH]; intros p t Hw Hi; cbn [send_chunks].
  { split; [done|]. exists (snd_seq (conn t i)). simpl. by destruct (conn t i). }
  destruct (Z.ltb_spec 0 (blen p)).
  2: { split; [done|]. exists (snd_seq (conn t i)). simpl. by destruct (conn t i). }
  set (chunk := if 1460 <? blen p then 1460 else blen p).
  assert (0 <= chunk <= blen p /\ chunk <= 1460) as Hch by (unfold chunk; case_match; lia).
  assert (blen (slice p 0 chunk) <= 1460) as Hl by (rewrite blen_slice; lia).
  pose proof (only_conn_seg i (Z.lor TCP_FLAG_ACK TCP_FLAG_PSH) _ t Hw Hi Hl) as Ho.
  pose proof (tcp_send_seg_conn i i (Z.lor TCP_FLAG_ACK TCP_FLAG_PSH) _ t Hw Hi Hi Hl) as Hc.
  rewrite bool_decide_true in Hc by done.
  destruct (tcp_send_seg i _ _ t) as [ok t1]. cbn [snd] in Ho, Hc. destruct ok; cbn [snd].
  - destruct (IH (drop (Z.to_nat chunk) p) t1 (proj1 Ho) Hi) as (Ho' & v & E).
    split; [by eapply only_conn_trans|]. exists v. by rewrite E, Hc.
  - split; [done|]. eexists. exact Hc.
Qed.

(** ** The byte stream *)

Section stream.
(** The connection, the bytes its peer sends, and the sequence number of the first. *)
Context (i : Z) (B : list Z) (irs : Z).

(** A segment of the peer's stream: [data] is what the stream holds at the segment's number. *)
Definition genuine (seq : Z) (data : list Z) : Prop :=
  exists k, 0 <= k /\ k + blen data <= blen B /\ seq = u32 (irs + k) /\ data = slice B k (blen data).

(** Runs of the connection: segments arrive in any order, any number of times, with any flags, mixed
    with segments for other connections; the application receives, sends and closes. A segment for this
    connection belongs to the stream and fits in the ring. [out] is what the application received. *)
Inductive run : tcp -> list Z -> tcp -> Prop :=
  | run_start t : run t [] t
  | run_input t out t' src ip flags data c :
      run t out t' -> peer_ok c -> blen data <= 1460 ->
      (find_conn src (c_sport c) (c_dport c) t' = Some i ->
         genuine (snd_seq c) data /\ used (conn t' i) + blen data <= TCP_RXBUF - 1) ->
      run t out (tcp_input src (segment ip flags data c) t')
  | run_recv t out t' max :
      run t out t' -> run t (out ++ fst (tcp_recv (Some i) max t')) (snd (tcp_recv (Some i) max t'))
  | run_send t out t' data : run t out t' -> run t out (snd (tcp_send (Some i) data t'))
  | run_close t out t' : run t out t' -> run t out (tcp_close (Some i) t').

(** The first [k] bytes have arrived: received already, or in the ring. *)
Definition in_step (c : tcp_conn) (out : list Z) : Prop :=
  exists k, 0 <= k <= blen B /\ rcv_nxt c = u32 (irs + k) /\ out ++ contents c = slice B 0 k.

Definition stream_inv (t : tcp) (out : list Z) : Prop :=
  tcp_wf t /\ out `prefix_of` B /\
  (state (conn t i) = TCP_CLOSED \/ (state (conn t i) = TCP_ESTABLISHED /\ in_step (conn t i) out)).

Context (Hi : conn_ok i) (Hirs : is_u32 irs) (HB : blen B < 2 ^ 32).

Lemma slice_prefix k : slice B 0 k `prefix_of` B.
Proof. unfold slice. rewrite drop_0. exists (drop (Z.to_nat k) B). by rewrite take_drop. Qed.

Lemma same_number k k' : 0 <= k <= blen B -> 0 <= k' <= blen B -> u32 (irs + k) = u32 (irs + k') -> k = k'.
Proof using HB Hirs. unfold u32, is_u32 in *. intros. lia. Qed.

(** Nothing but the ring and [rcv_nxt] matters to [in_step]. *)
Lemma in_step_ext c c' out : rcv_nxt c' = rcv_nxt c -> contents c' = contents c -> in_step c out -> in_step c' out.
Proof. unfold in_step. intros -> ->. done. Qed.

(** A genuine segment that fits keeps the connection in step. *)
Lemma recv_conn_in_step flags ack seq data c out :
  conn_wf c -> in_step c out -> genuine seq data -> used c + blen data <= TCP_RXBUF - 1 ->
  state c = TCP_ESTABLISHED ->
  let c' := recv_conn flags seq ack data c in
  state c' = TCP_CLOSED \/ (state c' = TCP_ESTABLISHED /\ in_step c' out).
Proof using HB Hi Hirs.
  intros Hc (k & Hk & Hr & Hout) (k' & Hk' & Hlen & Hseq & Hd) Hfit Hst. cbv zeta. unfold recv_conn.
  destruct (flag flags TCP_FLAG_RST); [by left|].
  set (c1 := if flag flags TCP_FLAG_ACK then set_snd_una ack c else c).
  assert (conn_wf c1 /\ state c1 = TCP_ESTABLISHED /\ rcv_nxt c1 = rcv_nxt c /\ contents c1 = contents c /\ used c1 = used c)
    as (Hw1 & S1 & R1 & C1 & U1).
  { unfold c1. destruct (flag flags TCP_FLAG_ACK); [|done]. split; [conn_wf_set|done]. }
  clearbody c1. destruct (flag flags TCP_FLAG_FIN); [by left|]. right.
  destruct (_ && _) eqn:E.
  2: { split; [done|]. eapply in_step_ext; [exact R1|exact C1|]. by exists k. }
  apply andb_prop in E as [Hpos%Z.ltb_lt E%Z.eqb_eq].
  destruct (rxbuf_push_spec data c1 Hw1) as (Hw & Hro & HC). cbv zeta in HC.
  split; [unfold ring_only in Hro; rewrite Hro; done|].
  assert (k' = k) as -> by (apply same_number; [lia..|congruence]).
  exists (k + blen data). split; [lia|]. split.
  { cbn [rcv_nxt set_rcv_nxt]. rewrite R1, Hr. unfold u32, is_u32 in *. lia. }
  change (contents (set_rcv_nxt ?v ?x)) with (contents x).
  rewrite HC, C1, U1, take_ge by (unfold blen in *; lia).
  rewrite app_assoc, Hout, slice_split by lia. rewrite Z.add_0_l. by rewrite <- Hd.
Qed.

Lemma run_inv t out t' : stream_inv t [] -> run t out t' -> stream_inv t' out.
Proof using HB Hi Hirs.
  intros H0 H. induction H as
    [t|t out t' src ip flags data c H IH Hc Hl Hg|t out t' max H IH|t out t' data H IH|t out t' H IH];
    [done|specialize (IH H0); destruct IH as (Hw & Hp & Hs)..].
  - (* a segment *)
    pose proof (tcp_input_only src (segment ip flags data c ++ []) t' Hw) as Hon.
    pose proof (tcp_input_segment src ip flags data c [] t' Hc ltac:(change (blen []) with 0; lia)) as E.
    destruct (segment_fields ip flags data c [] Hc) as (E0 & E2 & _).
    rewrite E0, E2 in Hon. rewrite !app_nil_r in Hon, E. rewrite !app_nil_r in *.
    destruct Hon as [Heq|(j & Hj & Hw' & Ho)]; [by rewrite Heq|].
    destruct (decide (j = i)) as [->|Hne].
    2: { split; [done|]. split; [done|]. rewrite Ho by (done || by apply not_eq_sym). done. }
    rewrite E, Hj in *. destruct (Hg eq_refl) as [Hgen Hfit]. destruct Hs as [Hs|[Hs Hin]]; rewrite Hs in *.
    { split; [done|]. split; [done|]. by left. }
    split; [done|]. split; [done|].
    destruct (input_established_spec i flags (snd_seq c) (if flag flags TCP_FLAG_ACK then rcv_nxt c else 0) data t' Hw Hi)
      as (_ & Ei & _). cbv beta iota zeta. rewrite Ei.
    apply recv_conn_in_step; auto. by apply conn_get_wf.
  - (* receive *)
    unfold tcp_recv. destruct Hs as [Hs|[Hs (k & Hk & Hr & Hout)]]; rewrite Hs.
    { simpl. rewrite app_nil_r. split; [done|]. split; [done|]. by left. }
    rewrite bool_decide_true by done.
    pose proof (rxbuf_pop_spec (Z.to_nat max) _ (conn_get_wf t' i Hw Hi)) as Hpop.
    destruct (rxbuf_pop (Z.to_nat max) (conn t' i)) as [b c']. destruct Hpop as (Hwc & Hro & Eb & EC).
    assert ((out ++ b) ++ contents c' = slice B 0 k) as Hout'.
    { rewrite <- app_assoc, Eb, EC, take_drop. done. }
    assert (tcp_wf (upd i (fun _ => c') t')) as Hw' by (apply upd_wf; auto).
    cbn [fst snd]. split; [done|]. split.
    { etrans; [|apply (slice_prefix k)]. rewrite <- Hout'. by exists (contents c'). }
    right. rewrite conn_upd_eq by done. unfold ring_only in Hro.
    split; [rewrite Hro; done|]. exists k. split; [done|]. split; [rewrite Hro; done|done].
  - (* send *)
    unfold tcp_send. destruct (bool_decide _); [|by split].
    destruct (send_chunks_conn (length data) i data t' Hw Hi) as ([Hw' _] & v & Ev).
    split; [done|]. split; [done|]. rewrite Ev. destruct Hs as [Hs|[Hs Hin]]; [left|right]; done.
  - (* close *)
    unfold tcp_close.
    set (t1 := if bool_decide _ then _ else t').
    assert (tcp_wf t1) as Hw1 by (unfold t1; destruct (bool_decide _); [by apply tcp_send_seg_wf|done]).
    split; [apply upd_wf; [done|conn_wf_set|done]|]. split; [done|]. left. by rewrite conn_upd_eq.
Qed.

(** C10: on a connection that starts established and empty, expecting the first byte of the peer's stream,
    which is shorter than the sequence space (4 GiB), whatever segments of that stream arrive (lost, repeated,
    reordered, flagged in any way, mixed with those of other connections), and however the application sends,
    receives and closes, what the application has received is a prefix of the stream; while the connection is
    established, the bytes received followed by those in the ring are exactly the bytes that [rcv_nxt]
    acknowledges. Each segment is assumed to fit in the ring when it arrives. *)
Theorem tcp_stream_prefix t out t' :
  tcp_wf t -> state (conn t i) = TCP_ESTABLISHED -> rcv_nxt (conn t i) = irs -> contents (conn t i) = [] ->
  run t out t' ->
  out `prefix_of` B /\
  (state (conn t' i) = TCP_ESTABLISHED ->
   exists k, 0 <= k <= blen B /\ rcv_nxt (conn t' i) = u32 (irs + k) /\ out ++ contents (conn t' i) = slice B 0 k).
Proof using HB Hi Hirs.
  intros Hw Hst Hr Hc Hrun. destruct (run_inv t out t') as (_ & Hp & Hs); [|done|].
  - split; [done|]. split; [apply prefix_nil|]. right. split; [done|]. exists 0.
    split; [pose proof (blen_nonneg B); lia|]. rewrite Hc, Hr, Z.add_0_r. split; [by rewrite u32_small|done].
  - split; [done|]. intros E. destruct Hs as [Hs|[_ Hin]]; [congruence|exact Hin].
Qed.
End stream.

(** ** Sending *)

(** The frames that carry [data] from sequence number [seq] on: full segments and a last one, with
    consecutive numbers; a segment of at least 6 bytes needs no padding. *)
Inductive stream_frames (m smac : list Z) (ip : Z) (c : tcp_conn) : Z -> list Z -> list (list Z) -> Prop :=
  | frames_nil seq : stream_frames m smac ip c seq [] []
  | frames_cons seq chunk rest id pad fs :
      0 < blen chunk <= 1460 -> (rest <> [] -> blen chunk = 1460) -> is_u16 id ->
      (6 <= blen chunk -> pad = []) ->
      stream_frames m smac ip c (u32 (seq + blen chunk)) rest fs ->
      stream_frames m smac ip c seq (chunk ++ rest)
        ((frame_of m smac ETHERTYPE_IPV4
            (ip_datagram id IP_PROTO_TCP ip (dst_ip c)
               (segment ip (Z.lor TCP_FLAG_ACK TCP_FLAG_PSH) chunk (set_snd_seq seq c))) ++ pad) :: fs).

(** The network state apart from the frames sent and the counters. *)
Definition same_link (n n' : net) : Prop :=
  s_nic n' = s_nic n /\ s_table n' = s_table n /\ s_ip n' = s_ip n /\ s_netmask n' = s_netmask n /\
  s_gateway n' = s_gateway n /\ s_dns n' = s_dns n /\ s_binds n' = s_binds n.

Lemma same_link_addr n n' dst : same_link n n' -> link_addr n' dst = link_addr n dst.
Proof.
  intros (_ & Et & Ei & Em & Eg & _). unfold link_addr, cache, find_entry. by rewrite Et, Ei, Em, Eg.
Qed.

Lemma same_link_trans n1 n2 n3 : same_link n1 n2 -> same_link n2 n3 -> same_link n1 n3.
Proof. unfold same_link. intros (?&?&?&?&?&?&?) (?&?&?&?&?&?&?). split_and!; congruence. Qed.

Section sending.
Context (nic : nic_t) (m : list Z) (i : Z).
Context (Hi : conn_ok i) (Htx : tx_ok nic = true).

(** The NIC is up and the peer resolves to [m]. *)
Definition ready (t : tcp) : Prop :=
  tcp_wf t /\ net_wf (nt t) /\ s_nic (nt t) = Some nic /\ link_addr (nt t) (dst_ip (conn t i)) = Some m.

(** One segment of data: one frame, and the sequence number moves by its length. *)
Lemma tcp_send_seg_ready flags data t : ready t -> bytes data -> is_u8 flags -> blen data <= 1460 ->
  exists t' id pad,
    tcp_send_seg i flags data t = (true, t') /\ ready t' /\ same_link (nt t) (nt t') /\ is_u16 id /\
    conn t' i = set_snd_seq (u32 (snd_seq (conn t i) + seq_len flags data)) (conn t i) /\
    sent (nt t') = sent (nt t) ++
      [frame_of m (mac nic) ETHERTYPE_IPV4
         (ip_datagram id IP_PROTO_TCP (s_ip (nt t)) (dst_ip (conn t i)) (segment (s_ip (nt t)) flags data (conn t i))) ++ pad] /\
    (6 <= blen data -> pad = []).
Proof using Hi Htx.
  intros (Hw & Hn & Hnic & Hm) Hd Hf Hl.
  pose proof (tcp_send_seg_conn i i flags data t Hw Hi Hi Hl) as Hc. rewrite bool_decide_true in Hc by done.
  pose proof (tcp_send_seg_wf i flags data t Hw Hi Hl) as Hw'.
  set (seg := segment (s_ip (nt t)) flags data (conn t i)).
  assert (blen seg <= 1480) as Hsl by (unfold seg; rewrite blen_segment; lia).
  destruct (ipv4_send_hit (nt t) nic (dst_ip (conn t i)) IP_PROTO_TCP seg Hn Hnic ltac:(done)
              ltac:(by apply segment_bytes) Hsl m Hm) as (f' & Hf' & He).
  set (n' := set_sent _ _ _) in He. rewrite Htx in He.
  unfold tcp_send_seg in *. change sizeof_tcp with 20 in *. rewrite (proj2 (Z.ltb_ge 1480 _)) in * by lia.
  cbv zeta in *. change (ipv4_our_ip (nt t)) with (s_ip (nt t)) in *. fold seg in Hc, Hw' |- *.
  set (u := upd i _ t) in *.
  assert (dst_ip (conn u i) = dst_ip (conn t i)) as Ed by (unfold u; by rewrite conn_upd_eq).
  rewrite Ed in *. change (nt u) with (nt t) in *. rewrite He in *. cbn [snd] in Hc, Hw'.
  exists (set_nt n' u), (u16 (s_id (nt t) + 1)). eexists.
  split; [done|]. assert (same_link (nt t) n') as Hsame by done.
  split; [|split; [done|split; [apply u16_range|split; [exact Hc|split; [reflexivity|]]]]].
  - split; [done|]. split; [by apply set_sent_wf|]. split; [done|].
    change (nt (set_nt n' u)) with n'. rewrite (same_link_addr (nt t)) by done. rewrite Hc. exact Hm.
  - intros. apply slice_nonpos. rewrite blen_ip_datagram. unfold seg. rewrite blen_segment. lia.
Qed.

Lemma set_snd_seq_twice a b c : set_snd_seq a (set_snd_seq b c) = set_snd_seq a c.
Proof. done. Qed.

Lemma stream_frames_conn sm ip c seq0 : forall seq p fs,
  stream_frames m sm ip (set_snd_seq seq0 c) seq p fs -> stream_frames m sm ip c seq p fs.
Proof. intros seq p fs H. induction H; [constructor|]. by apply (frames_cons m sm ip c). Qed.

Lemma send_chunks_frames fuel p t : ready t -> bytes p -> (length p <= fuel)%nat ->
  exists t' fs, send_chunks fuel i p t = (true, t') /\ ready t' /\ same_link (nt t) (nt t') /\
    conn t' i = set_snd_seq (u32 (snd_seq (conn t i) + blen p)) (conn t i) /\
    sent (nt t') = sent (nt t) ++ fs /\
    stream_frames m (mac nic) (s_ip (nt t)) (conn t i) (snd_seq (conn t i)) p fs.
Proof using Hi Htx.
  revert p t. induction fuel as [|f IH]; intros p t Hr Hp Hfuel.
  all: assert (is_u32 (snd_seq (conn t i))) as Hq by (apply wf_snd_seq, conn_get_wf; [apply Hr|done]).
  all: assert (p = [] -> conn t i = set_snd_seq (u32 (snd_seq (conn t i) + blen p)) (conn t i)) as Hnil
    by (intros ->; change (blen []) with 0; rewrite Z.add_0_r, u32_small by done; by destruct (conn t i)).
  { destruct p; [|simpl in Hfuel; lia]. exists t, []. split; [done|]. split; [done|]. split; [done|].
    split; [by apply Hnil|]. rewrite app_nil_r. split; [done|constructor]. }
  cbn [send_chunks]. destruct (Z.ltb_spec 0 (blen p)) as [Hpos|Hz].
  2: { destruct p; [|unfold blen in Hz; simpl in Hz; lia]. exists t, []. split; [done|]. split; [done|]. split; [done|].
    split; [by apply Hnil|]. rewrite app_nil_r. split; [done|constructor]. }
  set (chunk := if 1460 <? blen p then 1460 else blen p).
  assert (0 < chunk <= blen p /\ chunk <= 1460 /\ (chunk = 1460 \/ chunk = blen p)) as (Hc1 & Hc2 & Hc3).
  { unfold chunk. destruct (Z.ltb_spec 1460 (blen p)); lia. }
  clearbody chunk. set (h := slice p 0 chunk). assert (blen h = chunk) as Hh by (apply blen_slice; lia).
  assert (bytes h) as Hhb by by apply slice_bytes.
  destruct (tcp_send_seg_ready (Z.lor TCP_FLAG_ACK TCP_FLAG_PSH) h t Hr Hhb ltac:(done) ltac:(lia))
    as (t1 & id & pad & -> & Hr1 & Hs1 & Hid & Hc & Hsent & Hpad).
  set (rest := drop (Z.to_nat chunk) p).
  assert (p = h ++ rest) as Ep by (unfold h, slice, rest; by rewrite drop_0, take_drop).
  assert (bytes rest) as Hrb by by apply Forall_drop.
  assert (blen rest = blen p - chunk) as Hrl by (rewrite Ep, blen_app; lia).
  destruct (IH rest t1 Hr1 Hrb) as (t' & fs & -> & Hr' & Hs' & Hc' & Hsent' & Hfr).
  { unfold blen in *. lia. }
  change (seq_len _ h) with (blen h) in Hc.
  exists t', ((frame_of m (mac nic) ETHERTYPE_IPV4 (ip_datagram id IP_PROTO_TCP (s_ip (nt t)) (dst_ip (conn t i))
                 (segment (s_ip (nt t)) (Z.lor TCP_FLAG_ACK TCP_FLAG_PSH) h (conn t i))) ++ pad) :: fs).
  split; [done|]. split; [done|]. split; [by eapply same_link_trans|].
  split.
  { rewrite Hc', Hc. cbn [snd_seq set_snd_seq]. rewrite set_snd_seq_twice. f_equal.
    rewrite Ep, blen_app. unfold u32, is_u32 in *. lia. }
  split; [by rewrite Hsent', Hsent, <- app_assoc|].
  rewrite Ep. replace (conn t i) with (set_snd_seq (snd_seq (conn t i)) (conn t i)) at 4 by by destruct (conn t i).
  apply frames_cons; [lia| |done|done|].
  - intros Hne. destruct Hc3 as [->| ->]; [done|]. destruct rest; [done|]. unfold blen in Hrl. simpl in Hrl. lia.
  - rewrite Hc in Hfr. cbn [snd_seq set_snd_seq] in Hfr.
    destruct Hs1 as (_ & _ & Eip & _). rewrite Eip in Hfr.
    by apply stream_frames_conn in Hfr.
Qed.
End sending.

(** On an established connection whose peer resolves on the link, [tcp_send]
    returns true; it emits, in order, the frames of consecutive full segments and a last one that
    together carry exactly these bytes, and advances [snd_seq] by their number, and nothing else of the
    connection changes. On any other connection it returns false and sends nothing. *)
Theorem tcp_send_correct nic m i data t :
  conn_ok i -> tx_ok nic = true -> ready nic m i t -> bytes data ->
  if bool_decide (state (conn t i) = TCP_ESTABLISHED) then
    exists t' fs, tcp_send (Some i) data t = (true, t') /\ ready nic m i t' /\
      conn t' i = set_snd_seq (u32 (snd_seq (conn t i) + blen data)) (conn t i) /\
      sent (nt t') = sent (nt t) ++ fs /\
      stream_frames m (mac nic) (s_ip (nt t)) (conn t i) (snd_seq (conn t i)) data fs
  else tcp_send (Some i) data t = (false, t).
Proof.
  intros Hi Htx Hr Hd. unfold tcp_send. destruct (bool_decide _); [|done].
  destruct (send_chunks_frames nic m i Hi Htx (length data) data t Hr Hd ltac:(done)) as (t' & fs & H).
  exists t', fs. destruct H as (? & ? & _ & ? & ? & ?). done.
Qed.

(** ** Two ends of a connection *)

Definition est (dst dport sport seq nxt : Z) : tcp_conn :=
  mk_conn true TCP_ESTABLISHED dst dport sport seq seq nxt 4095 (zeros 4096) 0 0.

(** Host A, connected from port 49152 to port 80 of host B. *)
Definition client : tcp :=
  mk_tcpst host_a [est IP_B 80 49152 1000 5000; conn_zero; conn_zero; conn_zero] 49153.
Definition server_end : tcp_conn := est IP_A 49152 80 5000 1000.
Definition hello : list Z := [104; 101; 108; 108; 111; 33].

Lemma conn_wf_check c :
  (blen (rxbuf c) =? 4096) && (0 <=? rxbuf_head c) && (rxbuf_head c <? 4096) && (0 <=? rxbuf_tail c) &&
  (rxbuf_tail c <? 4096) && (0 <=? snd_seq c) && (snd_seq c <? 2 ^ 32) = true -> conn_wf c.
Proof.
  rewrite !andb_true_iff, !Z.ltb_lt, !Z.leb_le, Z.eqb_eq. intros. split; unfold TCP_RXBUF, is_u32; (lia || tauto).
Qed.

Lemma client_wf : tcp_wf client.
Proof. split; [done|]. repeat (apply Forall_cons_2; [by apply conn_wf_check; vm_compute|]). apply Forall_nil_2. Qed.

Lemma client_ready : ready (mk_nic MAC_A true) MAC_B 0 client.
Proof. split; [apply client_wf|]. split; [apply host_a_wf|]. by split. Qed.

Lemma server_end_ok : peer_ok server_end.
Proof. by split. Qed.

Lemma tcp_send_correct_witness : exists t' fs,
  tcp_send (Some 0) hello client = (true, t') /\ sent (nt t') = fs /\
  stream_frames MAC_B MAC_A IP_A (conn client 0) 1000 hello fs.
Proof.
  destruct (tcp_send_correct (mk_nic MAC_A true) MAC_B 0 hello client ltac:(done) eq_refl client_ready
              ltac:(by apply bytes_check)) as (t' & fs & H1 & _ & _ & H2 & H3).
  exists t', fs. exact (conj H1 (conj H2 H3)).
Defined.

Lemma client_start :
  state (conn client 0) = TCP_ESTABLISHED /\ rcv_nxt (conn client 0) = 5000 /\ contents (conn client 0) = [] /\
  used (conn client 0) + blen hello <= TCP_RXBUF - 1.
Proof. by vm_compute. Qed.

Lemma hello_genuine : genuine hello 5000 (snd_seq server_end) hello.
Proof. exists 0. by vm_compute. Qed.

Lemma hello_run :
  run 0 hello 5000 client ([] ++ fst (tcp_recv (Some 0) 100 (tcp_input IP_B (segment IP_B 0x18 hello server_end) client)))
    (snd (tcp_recv (Some 0) 100 (tcp_input IP_B (segment IP_B 0x18 hello server_end) client))).
Proof.
  apply run_recv. apply run_input; [apply run_start|apply server_end_ok|done|].
  intros _. split; [apply hello_genuine|apply client_start].
Qed.

Lemma tcp_stream_prefix_witness :
  [] ++ fst (tcp_recv (Some 0) 100 (tcp_input IP_B (segment IP_B 0x18 hello server_end) client)) `prefix_of` hello.
Proof.
  destruct client_start as (H1 & H2 & H3 & _).
  exact (proj1 (tcp_stream_prefix 0 hello 5000 ltac:(done) ltac:(done) ltac:(done) client _ _ client_wf H1 H2 H3 hello_run)).
Defined.

(** Finding: [tcp_input] acknowledges the bytes it could not store. With the ring full but for one byte,
    a 6-byte segment stores one byte and advances [rcv_nxt] by six. *)
Definition nearly_full : tcp :=
  upd 0 (set_ring (replicate 4096 7) 0 4094) client.

Example tcp_input_acks_dropped_bytes :
  let c := conn (tcp_input IP_B (segment IP_B 0x18 hello server_end) nearly_full) 0 in
  rcv_nxt c = 5006 /\ contents c = contents (conn nearly_full 0) ++ [104].
Proof. vm_compute. done. Qed.

(** Finding: the bytes in the ring are lost to the application once a FIN has arrived. *)
Example tcp_fin_loses_buffered_data :
  let t1 := tcp_input IP_B (segment IP_B 0x18 hello server_end) client in
  let t2 := tcp_input IP_B (segment IP_B 0x11 [] (set_snd_seq 5006 server_end)) t1 in
  contents (conn t2 0) = hello /\ fst (tcp_recv (Some 0) 100 t2) = [].
Proof. vm_compute. done. Qed.

(** Finding: with the padding of a minimum-size frame, a pure ACK delivers six bytes that the peer never sent. *)
Example tcp_padding_becomes_data :
  let c := conn (tcp_input IP_B (segment IP_B 0x10 [] server_end ++ zeros 6) client) 0 in
  contents c = zeros 6 /\ rcv_nxt c = 5006.
Proof. vm_compute. done. Qed.

End Tcp.
