(* ===== verification/Dns.v ===== *)
(** * DNS messages

    Models the message handling of [kernel/net/dns.c]: the query that [dns_resolve] builds and the
    response parser [dns_recv_cb]. The polling loop of [dns_resolve] is in [NetStack].

    A read through a packet pointer is [rdb], which is [None] outside the packet, so a parser that
    returns [Some] has read no byte outside it. The two label loops have fuel, and are [None] when it
    runs out; [dns_recv_cb_safe] shows that neither happens. *)

From S2P Require Import Prelude Bytes.

Module Dns.

Definition DNS_PORT : Z := 53.
Definition DNS_QR_RESPONSE : Z := 0x8000.
Definition DNS_RD : Z := 0x0100.
Definition DNS_TYPE_A : Z := 1.
Definition DNS_CLASS_IN : Z := 1.
Definition sizeof_dns_hdr : Z := 12.

Record dns_hdr_t := mk_dns { d_id : Z; d_flags : Z; qdcount : Z; ancount : Z; nscount : Z; arcount : Z }.
Definition enc_dns (h : dns_hdr_t) : list Z :=
  le_bytes 2 (d_id h) ++ le_bytes 2 (d_flags h) ++ le_bytes 2 (qdcount h) ++ le_bytes 2 (ancount h) ++
  le_bytes 2 (nscount h) ++ le_bytes 2 (arcount h).

Record dns := mk_dns_state { s_got_reply : bool; s_resolved_ip : Z; s_query_id : Z }.

(** ** The query *)

(** [while ( *dot && *dot != '.') dot++;]: the label, and what follows it. *)
Fixpoint label (host : list Z) : list Z * list Z :=
  match host with
  | [] => ([], [])
  | c :: host' => if c =? 46 then ([], host) else let '(l, r) := label host' in (c :: l, r)
  end.

Fixpoint encode_qname (fuel : nat) (host : list Z) : list Z :=
  match fuel, host with
  | S f, _ :: _ =>
      let '(l, dot) := label host in
      let lablen := u8 (blen l) in
      lablen :: slice l 0 lablen ++ encode_qname f (match dot with [] => [] | _ :: r => r end)
  | _, _ => []
  end.

Definition dns_query (id : Z) (hostname : list Z) : list Z :=
  enc_dns (mk_dns (htons id) (htons DNS_RD) (htons 1) 0 0 0) ++
  encode_qname (length hostname) hostname ++ [0] ++ [0; DNS_TYPE_A] ++ [0; DNS_CLASS_IN].

(** ** The response *)

Definition rdb (d : list Z) (p : Z) : option Z := if p <? 0 then None else d !! Z.to_nat p.

(** [while (p < end && *p != 0) { if pointer goto done; p += 1 + *p; } if (p < end) p++;] *)
Fixpoint skip_qname (fuel : nat) (d : list Z) (p : Z) : option Z :=
  match fuel with
  | O => None
  | S f =>
      if p <? blen d then
        b ← rdb d p;
        if b =? 0 then Some (p + 1)
        else if Z.land b 0xc0 =? 0xc0 then Some (p + 2)
        else skip_qname f d (p + 1 + b)
      else Some p
  end.

Fixpoint skip_labels (fuel : nat) (d : list Z) (p : Z) : option Z :=
  match fuel with
  | O => None
  | S f =>
      if p <? blen d then
        b ← rdb d p;
        if b =? 0 then Some (p + 1) else skip_labels f d (p + 1 + b)
      else Some p
  end.

Definition skip_name (d : list Z) (p : Z) : option Z :=
  if p <? blen d then
    b ← rdb d p;
    if Z.land b 0xc0 =? 0xc0 then Some (p + 2) else skip_labels (S (length d)) d p
  else skip_labels (S (length d)) d p.

(** [memcpy(&s_resolved_ip, p, 4)]. *)
Definition rd_ip (d : list Z) (p : Z) : option Z :=
  b0 ← rdb d p; b1 ← rdb d (p + 1); b2 ← rdb d (p + 2); b3 ← rdb d (p + 3);
  Some (le_val [b0; b1; b2; b3]).

(** [n] counts the records left; the result is the address, if one is found. *)
Fixpoint parse_answers (n : nat) (d : list Z) (p : Z) : option (option Z) :=
  match n with
  | O => Some None
  | S n' =>
      if p <? blen d then
        p ← skip_name d p;
        if blen d - p <? 10 then Some None
        else
          b0 ← rdb d p; b1 ← rdb d (p + 1); b8 ← rdb d (p + 8); b9 ← rdb d (p + 9);
          let rtype := u16 (Z.lor (Z.shiftl b0 8) b1) in
          let rdlen := u16 (Z.lor (Z.shiftl b8 8) b9) in
          let p := p + 10 in
          if (rtype =? DNS_TYPE_A) && (rdlen =? 4) && (4 <=? blen d - p)
          then ip ← rd_ip d p; Some (Some ip)
          else parse_answers n' d (p + rdlen)
      else Some None
  end.

Definition dns_recv_cb (data : list Z) (s : dns) : option dns :=
  if blen data <? sizeof_dns_hdr then Some s
  else if negb (ntohs (rd16 data 0) =? s_query_id s) then Some s
  else if Z.land (ntohs (rd16 data 2)) DNS_QR_RESPONSE =? 0 then Some s
  else
    let an := ntohs (rd16 data 6) in
    if an =? 0 then Some s
    else
      p ← skip_qname (S (length data)) data sizeof_dns_hdr;
      r ← parse_answers (Z.to_nat an) data (p + 4);
      match r with
      | Some ip => Some (mk_dns_state true ip (s_query_id s))
      | None => Some s
      end.

(** ** The parser stays inside the packet *)

Lemma rdb_in d p : 0 <= p < blen d -> exists b, rdb d p = Some b /\ (bytes d -> is_u8 b).
Proof.
  intros H. unfold rdb, blen in *. rewrite (proj2 (Z.ltb_ge p 0)) by lia.
  destruct (lookup_lt_is_Some_2 d (Z.to_nat p)) as [b Hb]; [lia|]. exists b. split; [done|].
  intros Hd. by eapply Forall_lookup_1.
Qed.

(** Both label loops end, at or after where they started. *)
Lemma skip_total (stop : Z -> bool) d (loop : nat -> Z -> option Z) :
  bytes d ->
  (forall f p, loop (S f) p = if p <? blen d then b ← rdb d p; if b =? 0 then Some (p + 1)
                              else if stop b then Some (p + 2) else loop f (p + 1 + b) else Some p) ->
  forall f p, 0 <= p -> 0 < Z.of_nat f -> blen d - p < Z.of_nat f -> exists q, loop f p = Some q /\ p <= q.
Proof.
  intros Hd E. induction f as [|f IH]; intros p Hp H0 Hf; [lia|]. rewrite E.
  destruct (Z.ltb_spec p (blen d)); [|eauto with lia].
  destruct (rdb_in d p) as (b & -> & Hb); [lia|]. specialize (Hb Hd). unfold is_u8 in Hb. simpl.
  destruct (b =? 0); [eauto with lia|]. destruct (stop b); [eauto with lia|].
  destruct (IH (p + 1 + b)) as (q & -> & Hq); [lia..|]. eauto with lia.
Qed.

Lemma skip_qname_total d p : bytes d -> 0 <= p -> exists q, skip_qname (S (length d)) d p = Some q /\ p <= q.
Proof.
  intros Hd Hp. apply (skip_total (fun b => Z.land b 0xc0 =? 0xc0) d (fun f p => skip_qname f d p)); try done;
    unfold blen; lia.
Qed.

Lemma skip_name_total d p : bytes d -> 0 <= p -> exists q, skip_name d p = Some q /\ p <= q.
Proof.
  intros Hd Hp. assert (exists q, skip_labels (S (length d)) d p = Some q /\ p <= q) as Hl.
  { apply (skip_total (fun _ => false) d (fun f p => skip_labels f d p)); try done; unfold blen; lia. }
  unfold skip_name. destruct (Z.ltb_spec p (blen d)); [|done].
  destruct (rdb_in d p) as (b & -> & _); [lia|]. simpl. destruct (_ =? _); [eauto with lia|done].
Qed.

Lemma rd_ip_in d p : 0 <= p -> p + 4 <= blen d -> rd_ip d p = Some (rd32 d p).
Proof.
  intros Hp Hl. unfold rd_ip.
  assert (forall k, 0 <= k < 4 -> rdb d (p + k) = Some (aget 0 (slice d p 4) k)) as Hr.
  { intros k Hk. rewrite aget_slice by lia. unfold rdb. rewrite (proj2 (Z.ltb_ge _ 0)) by lia.
    rewrite aget_lookup. unfold blen in Hl. destruct (lookup_lt_is_Some_2 d (Z.to_nat (p + k))) as [b ->]; [lia|done]. }
  pose proof (Hr 0 ltac:(lia)) as H0. rewrite Z.add_0_r in H0.
  rewrite H0, (Hr 1), (Hr 2), (Hr 3) by lia. simpl. unfold rd32. f_equal.
  assert (blen (slice d p 4) = 4) as H4 by (apply blen_slice; lia).
  destruct (slice d p 4) as [|x0 [|x1 [|x2 [|x3 [|]]]]]; try done; unfold blen in H4; simpl in H4; lia.
Qed.

Lemma parse_answers_total n d p : bytes d -> 0 <= p -> exists r, parse_answers n d p = Some r.
Proof.
  intros Hd. revert p. induction n as [|n IH]; intros p Hp; cbn [parse_answers]; [by eexists|].
  destruct (Z.ltb_spec p (blen d)); [|by eexists].
  destruct (skip_name_total d p Hd Hp) as (q & -> & Hq). simpl.
  destruct (Z.ltb_spec (blen d - q) 10); [by eexists|].
  destruct (rdb_in d q) as (b0 & -> & _); [lia|]. destruct (rdb_in d (q + 1)) as (b1 & -> & _); [lia|].
  destruct (rdb_in d (q + 8)) as (b8 & -> & _); [lia|]. destruct (rdb_in d (q + 9)) as (b9 & -> & _); [lia|]. simpl.
  destruct (_ && (4 <=? _)) eqn:E.
  - apply andb_prop in E as [_ E%Z.leb_le]. rewrite rd_ip_in by lia. simpl. by eexists.
  - apply IH. pose proof (u16_range (Z.lor (Z.shiftl b8 8) b9)). unfold is_u16 in *. lia.
Qed.

Lemma dns_recv_cb_spec data s :
  bytes data ->
  exists s', dns_recv_cb data s = Some s' /\ s_query_id s' = s_query_id s /\
  (s' = s \/ (s_got_reply s' = true /\ 12 <= blen data /\ ntohs (rd16 data 0) = s_query_id s /\
              Z.land (ntohs (rd16 data 2)) DNS_QR_RESPONSE <> 0 /\ ntohs (rd16 data 6) <> 0)).
Proof.
  intros Hd. unfold dns_recv_cb. destruct (Z.ltb_spec (blen data) sizeof_dns_hdr); [by eauto|].
  destruct (Z.eqb_spec (ntohs (rd16 data 0)) (s_query_id s)); [|by eauto]. cbn [negb].
  destruct (Z.eqb_spec (Z.land (ntohs (rd16 data 2)) DNS_QR_RESPONSE) 0); [by eauto|].
  destruct (Z.eqb_spec (ntohs (rd16 data 6)) 0); [by eauto|].
  destruct (skip_qname_total data sizeof_dns_hdr Hd ltac:(done)) as (q & -> & Hq). unfold sizeof_dns_hdr in *.
  destruct (parse_answers_total (Z.to_nat (ntohs (rd16 data 6))) data (q + 4) Hd ltac:(lia)) as [r Hr].
  cbn [mbind option_bind]. rewrite Hr. destruct r; eexists; (split; [reflexivity|]); split; auto.
  right. auto.
Qed.

(** C37: whatever the bytes of a packet, [dns_recv_cb] finishes and reads no byte outside the packet; it
    leaves the state as it was unless the packet is a response to the current query. *)
Theorem dns_recv_cb_safe data s :
  bytes data ->
  exists s', dns_recv_cb data s = Some s' /\ s_query_id s' = s_query_id s /\
  (s' = s \/ (s_got_reply s' = true /\ 12 <= blen data /\ ntohs (rd16 data 0) = s_query_id s /\
              Z.land (ntohs (rd16 data 2)) DNS_QR_RESPONSE <> 0 /\ ntohs (rd16 data 6) <> 0)).
Proof. apply dns_recv_cb_spec. Qed.

(** ** Names on the wire *)

Definition label_ok (l : list Z) : Prop := 0 < blen l < 64 /\ bytes l /\ Forall (fun c => c <> 46) l.

Fixpoint join (ls : list (list Z)) : list Z :=
  match ls with
  | [] => []
  | [l] => l
  | l :: ls' => l ++ 46 :: join ls'
  end.

Definition wire (ls : list (list Z)) : list Z := concat (map (fun l => blen l :: l) ls).

Lemma label_end l : Forall (fun c => c <> 46) l -> label l = (l, []).
Proof. induction 1 as [|c l Hc H IH]; [done|]. cbn [label]. rewrite (proj2 (Z.eqb_neq c 46)) by done. by rewrite IH. Qed.

Lemma label_dot l r : Forall (fun c => c <> 46) l -> label (l ++ 46 :: r) = (l, 46 :: r).
Proof.
  induction 1 as [|c l Hc H IH]; [done|]. cbn [label app]. rewrite (proj2 (Z.eqb_neq c 46)) by done. by rewrite IH.
Qed.

(** The loop of [dns_resolve] writes each label after its length. *)
Lemma encode_qname_join ls fuel : Forall label_ok ls -> (length (join ls) <= fuel)%nat ->
  encode_qname fuel (join ls) = wire ls.
Proof.
  intros H. revert fuel. induction H as [|l ls (Hl & Hb & Hd) H IH]; intros fuel Hf; [by destruct fuel|].
  assert (u8 (blen l) = blen l) as El by (apply u8_small; unfold is_u8; lia).
  destruct l as [|c l]; [unfold blen in Hl; simpl in Hl; lia|].
  destruct ls as [|l' ls].
  - cbn [join] in *. destruct fuel as [|f]; [simpl in Hf; lia|]. cbn [encode_qname].
    rewrite label_end, El, slice_all by done. destruct f; cbn [encode_qname]; unfold wire; simpl; by rewrite !app_nil_r.
  - change (join ((c :: l) :: l' :: ls)) with ((c :: l) ++ 46 :: join (l' :: ls)) in *.
    destruct fuel as [|f]; [simpl in Hf; lia|]. cbn [encode_qname app].
    change (c :: l ++ 46 :: join (l' :: ls)) with ((c :: l) ++ 46 :: join (l' :: ls)).
    rewrite label_dot, El, slice_all by done. rewrite IH; [done|].
    rewrite length_app in Hf. cbn [length] in Hf. lia.
Qed.

Lemma small_no_pointer b : 0 <= b < 64 -> (Z.land b 0xc0 =? 0xc0) = false.
Proof.
  intros H. assert (forallb (fun b => negb (Z.land b 0xc0 =? 0xc0)) (seqZ 0 64) = true) as F by by vm_compute.
  rewrite forallb_forall in F. apply negb_true_iff, F, list_elem_of_In, elem_of_seqZ. lia.
Qed.

Lemma rdb_skip (pre l : list Z) k : 0 <= k -> rdb (pre ++ l) (blen pre + k) = rdb l k.
Proof.
  intros Hk. unfold rdb, blen. rewrite !(proj2 (Z.ltb_ge _ 0)) by lia.
  rewrite lookup_app_r by lia. f_equal. lia.
Qed.

Lemma rdb_head (pre : list Z) x l : rdb (pre ++ x :: l) (blen pre) = Some x.
Proof. rewrite <- (Z.add_0_r (blen pre)), rdb_skip by lia. done. Qed.

(** The parser's first loop consumes exactly an encoded name. *)
Lemma skip_qname_wire ls pre rest f : Forall label_ok ls -> (length ls < f)%nat ->
  skip_qname f (pre ++ wire ls ++ 0 :: rest) (blen pre) = Some (blen pre + blen (wire ls) + 1).
Proof.
  intros H. revert pre f. induction H as [|l ls (Hl & Hb & Hd) H IH]; intros pre f Hf;
    (destruct f as [|f]; [simpl in Hf; lia|]); cbn [skip_qname].
  - rewrite blen_app. cbn [wire map concat app]. unfold blen at 3. cbn [length].
    rewrite (proj2 (Z.ltb_lt _ _)) by lia. rewrite rdb_head. simpl. f_equal. unfold blen. simpl. lia.
  - assert (wire (l :: ls) = blen l :: l ++ wire ls) as E by done. rewrite E.
    pose proof (blen_nonneg ((l ++ wire ls) ++ 0 :: rest)).
    rewrite (proj2 (Z.ltb_lt _ _)) by (rewrite blen_app; unfold blen at 3; cbn [length app]; lia).
    cbn [app]. rewrite rdb_head. cbn [mbind option_bind].
    rewrite (proj2 (Z.eqb_neq _ 0)), small_no_pointer by lia.
    replace (pre ++ blen l :: (l ++ wire ls) ++ 0 :: rest) with ((pre ++ blen l :: l) ++ wire ls ++ 0 :: rest)
      by by simplify_list_eq.
    replace (blen pre + 1 + blen l) with (blen (pre ++ blen l :: l)) by (rewrite blen_app; unfold blen; cbn [length]; lia).
    rewrite IH by (cbn [length] in Hf; lia). f_equal. rewrite !blen_app. unfold blen. cbn [length]. rewrite length_app. lia.
Qed.

(** ** Resource records *)

Record rr := mk_rr { rr_ptr : Z; rr_type : Z; rr_mid : list Z; rr_data : list Z }.

(** A record whose name is a compression pointer; [rr_mid] is its class and time to live. *)
Definition rr_ok (r : rr) : Prop := is_u16 (rr_type r) /\ blen (rr_mid r) = 6 /\ blen (rr_data r) < 65536.
Definition enc_rr (r : rr) : list Z :=
  [0xc0; rr_ptr r] ++ [rr_type r / 256; rr_type r mod 256] ++ rr_mid r ++
  [blen (rr_data r) / 256; blen (rr_data r) mod 256] ++ rr_data r.
Definition is_A (r : rr) : bool := (rr_type r =? DNS_TYPE_A) && (blen (rr_data r) =? 4).

Lemma be16 x : is_u16 x -> u16 (Z.lor (Z.shiftl (x / 256) 8) (x mod 256)) = x.
Proof.
  intros H. unfold is_u16 in H. rewrite Z.shiftl_mul_pow2, lor_add_low by lia.
  rewrite u16_small; unfold is_u16; lia.
Qed.

Lemma blen_enc_rr r : rr_ok r -> blen (enc_rr r) = 12 + blen (rr_data r).
Proof. intros (_ & Hm & _). unfold enc_rr. rewrite !blen_app, Hm. unfold blen. simpl. lia. Qed.

(** One round of the loop over the answers. *)
Lemma parse_answers_rr n pre r rest : rr_ok r ->
  parse_answers (S n) (pre ++ enc_rr r ++ rest) (blen pre) =
    if is_A r then Some (Some (le_val (rr_data r)))
    else parse_answers n (pre ++ enc_rr r ++ rest) (blen pre + 12 + blen (rr_data r)).
Proof.
  intros Hr. pose proof (blen_enc_rr r Hr) as Hl. pose proof Hr as (Ht & Hm & Hd).
  pose proof (blen_nonneg (rr_data r)). pose proof (blen_nonneg rest). pose proof (blen_nonneg pre).
  set (d := pre ++ enc_rr r ++ rest).
  assert (blen d = blen pre + (12 + blen (rr_data r)) + blen rest) as Hdl by (unfold d; rewrite !blen_app; lia).
  assert (forall k, 0 <= k -> rdb d (blen pre + k) = rdb (enc_rr r ++ rest) k) as Hk by (intros; by apply rdb_skip).
  cbn [parse_answers]. rewrite (proj2 (Z.ltb_lt _ _)) by lia.
  assert (skip_name d (blen pre) = Some (blen pre + 2)) as ->.
  { unfold skip_name. rewrite (proj2 (Z.ltb_lt _ _)) by lia. unfold d, enc_rr. cbn [app]. by rewrite rdb_head. }
  cbn [mbind option_bind]. rewrite (proj2 (Z.ltb_ge _ 10)) by lia.
  rewrite <- !Z.add_assoc, !Hk by lia. change (2 + 1) with 3. change (2 + 8) with 10. change (2 + 9) with 11.
  destruct (rr_mid r) as [|m0 [|m1 [|m2 [|m3 [|m4 [|m5 [|]]]]]]] eqn:Em; try (unfold blen in Hm; simpl in Hm; lia).
  assert (enc_rr r ++ rest = 0xc0 :: rr_ptr r :: rr_type r / 256 :: rr_type r mod 256 :: m0 :: m1 :: m2 :: m3 :: m4 :: m5 ::
    blen (rr_data r) / 256 :: blen (rr_data r) mod 256 :: rr_data r ++ rest) as El by (unfold enc_rr; by rewrite Em).
  rewrite El. unfold rdb. simpl. rewrite !be16 by (done || (unfold is_u16; lia)).
  change (2 + 10) with 12. unfold is_A.
  destruct ((rr_type r =? DNS_TYPE_A) && (blen (rr_data r) =? 4)) eqn:E; cbn [andb]; [|by rewrite Z.add_assoc].
  apply andb_prop in E as [_ E%Z.eqb_eq]. rewrite (proj2 (Z.leb_le 4 _)) by lia.
  rewrite rd_ip_in by lia. cbn [mbind option_bind]. unfold d, rd32. do 3 f_equal.
  rewrite slice_app_skip by lia. replace (blen pre + 12 - blen pre) with 12 by lia. rewrite El.
  by apply (slice_app_head (rr_data r) rest 4).
Qed.

Lemma parse_answers_find rs r tail pre n : Forall rr_ok rs -> Forall (fun r => is_A r = false) rs -> rr_ok r -> is_A r = true ->
  (length rs < n)%nat ->
  parse_answers n (pre ++ concat (map enc_rr rs) ++ enc_rr r ++ tail) (blen pre) = Some (Some (le_val (rr_data r))).
Proof.
  intros H. revert pre n. induction H as [|r' rs Hr' H IH]; intros pre n HA Hr Hi Hn;
    (destruct n as [|n]; [simpl in Hn; lia|]).
  - cbn [map concat app]. by rewrite parse_answers_rr, Hi.
  - apply Forall_cons in HA as [HA' HA]. cbn [map concat]. rewrite <- app_assoc.
    rewrite parse_answers_rr, HA' by done.
    replace (pre ++ enc_rr r' ++ concat (map enc_rr rs) ++ enc_rr r ++ tail)
      with ((pre ++ enc_rr r') ++ concat (map enc_rr rs) ++ enc_rr r ++ tail) by by rewrite <- app_assoc.
    replace (blen pre + 12 + blen (rr_data r')) with (blen (pre ++ enc_rr r')) by (rewrite blen_app, blen_enc_rr by done; lia).
    apply IH; auto. simpl in Hn. lia.
Qed.

(** A response to the query: header, the question, the answers. *)
Definition response (id flags nans ns ar : Z) (ls : list (list Z)) (qtype : list Z) (rs : list rr) (r : rr) (tail : list Z) :=
  enc_dns (mk_dns (htons id) (htons flags) (htons 1) (htons nans) ns ar) ++
  wire ls ++ [0] ++ qtype ++ concat (map enc_rr rs) ++ enc_rr r ++ tail.

(** For a host name of labels of 1 to 63 bytes, [dns_resolve] sends the RFC 1035 question (each
    label after its length, the root, type A, class IN); and [dns_recv_cb], given a response to that
    question whose answers are any records that are not addresses followed by an address record, takes
    the address of that record, in network byte order. *)
Theorem dns_answer_found id flags nans ns ar ls qtype rs r tail s :
  is_u16 id -> is_u16 flags -> Z.land flags DNS_QR_RESPONSE <> 0 -> is_u16 nans -> Z.of_nat (length rs) < nans ->
  Forall label_ok ls -> blen qtype = 4 -> Forall rr_ok rs -> Forall (fun r => is_A r = false) rs ->
  rr_ok r -> is_A r = true -> s_query_id s = id ->
  dns_query id (join ls) = enc_dns (mk_dns (htons id) (htons DNS_RD) (htons 1) 0 0 0) ++ wire ls ++ [0; 0; 1; 0; 1] /\
  dns_recv_cb (response id flags nans ns ar ls qtype rs r tail) s = Some (mk_dns_state true (le_val (rr_data r)) id).
Proof.
  intros Hid Hfl Hqr Hn Hrs Hls Hq Hok HA Hr Hi Hs. split.
  { unfold dns_query. by rewrite encode_qname_join. }
  assert (forall x, is_u16 x -> ntohs (le_val (le_bytes 2 (htons x))) = x) as Hx.
  { intros x Hx. pose proof (htons_range x). rewrite le_val_bytes. unfold is_u16 in *.
    change (256 ^ Z.of_nat 2) with (2 ^ 16). rewrite Z.mod_small by lia. by apply ntohs_htons. }
  unfold dns_recv_cb. set (d := response _ _ _ _ _ _ _ _ _ _).
  set (h := enc_dns (mk_dns (htons id) (htons flags) (htons 1) (htons nans) ns ar)).
  assert (blen h = 12) as Hh by done.
  assert (ntohs (rd16 d 0) = id /\ ntohs (rd16 d 2) = flags /\ ntohs (rd16 d 6) = nans) as (-> & -> & ->).
  { pose proof (Hx id Hid). pose proof (Hx flags Hfl). pose proof (Hx nans Hn). done. }
  assert (d = h ++ wire ls ++ 0 :: (qtype ++ concat (map enc_rr rs) ++ enc_rr r ++ tail)) as Ed by done.
  assert (12 + blen (wire ls) + 5 <= blen d) as Hdl.
  { rewrite Ed, !blen_app, Hh. pose proof (blen_nonneg (concat (map enc_rr rs) ++ enc_rr r ++ tail)).
    assert (forall l, blen (0 :: l) = 1 + blen l) as Ec by (intros; unfold blen; cbn [length]; lia).
    rewrite Ec, blen_app, Hq. lia. }
  pose proof (blen_nonneg (wire ls)). unfold sizeof_dns_hdr.
  rewrite (proj2 (Z.ltb_ge _ 12)) by lia. rewrite (proj2 (Z.eqb_eq id _)) by done. cbn [negb].
  rewrite (proj2 (Z.eqb_neq _ 0)) by done. rewrite (proj2 (Z.eqb_neq nans 0)) by lia.
  assert (length ls < S (length d))%nat as Hlen.
  { assert (length ls <= length (wire ls))%nat; [|unfold blen in *; lia].
    unfold wire. clear. induction ls as [|l ls IH]; [done|]. cbn [map concat length]. rewrite length_app. cbn [length]. lia. }
  rewrite Ed at 2. rewrite <- Hh at 1. rewrite skip_qname_wire by done. cbn [mbind option_bind].
  assert (d = (h ++ wire ls ++ [0] ++ qtype) ++ concat (map enc_rr rs) ++ enc_rr r ++ tail) as Ed'
    by (unfold d, response; fold h; by rewrite <- !app_assoc).
  rewrite Ed' at 1.
  replace (blen h + blen (wire ls) + 1 + 4) with (blen (h ++ wire ls ++ [0] ++ qtype))
    by (rewrite !blen_app, Hq; change (blen [0]) with 1; lia).
  rewrite parse_answers_find by (done || lia). by rewrite Hs.
Qed.

(** "a.io", answered by an alias record and then an address. *)
Definition sample_labels : list (list Z) := [[97]; [105; 111]].
Definition sample_alias : rr := mk_rr 12 5 [0; 1; 0; 0; 0; 60] [1; 98; 0xc0; 14].
Definition sample_addr : rr := mk_rr 12 1 [0; 1; 0; 0; 0; 60] [93; 184; 216; 34].

Lemma dns_answer_found_witness :
  dns_recv_cb (response 0x1234 0x8180 2 0 0 sample_labels [0; 1; 0; 1] [sample_alias] sample_addr [])
    (mk_dns_state false 0 0x1234) = Some (mk_dns_state true (le_val [93; 184; 216; 34]) 0x1234).
Proof.
  apply (dns_answer_found 0x1234 0x8180 2 0 0 sample_labels [0; 1; 0; 1] [sample_alias] sample_addr []
           (mk_dns_state false 0 0x1234)); try done.
  - repeat (apply Forall_cons_2; [split; [done|split; [by apply bytes_check|repeat constructor; done]]|]). apply Forall_nil_2.
  - apply Forall_cons_2; [by split|apply Forall_nil_2].
  - by repeat constructor.
Defined.

Lemma dns_recv_cb_safe_witness : exists s',
  dns_recv_cb [0x12; 0x34; 0x81; 0x80; 0; 1; 0; 9; 0; 0; 0; 0; 63] (mk_dns_state false 0 0x1234) = Some s'.
Proof.
  destruct (dns_recv_cb_safe [0x12; 0x34; 0x81; 0x80; 0; 1; 0; 9; 0; 0; 0; 0; 63] (mk_dns_state false 0 0x1234)
              ltac:(by apply bytes_check)) as (s' & H & _).
  exists s'. exact H.
Defined.

(** Finding: in an answer, a name that is a label followed by a compression pointer is not recognised: the
    pointer is taken for a label of 192 bytes and the address is missed. *)
Example dns_compressed_answer_missed :
  dns_recv_cb (enc_dns (mk_dns (htons 0x1234) (htons 0x8180) (htons 1) (htons 1) 0 0) ++ wire sample_labels ++ [0] ++
               [0; 1; 0; 1] ++ [1; 97; 0xc0; 14; 0; 1; 0; 1; 0; 0; 0; 60; 0; 4; 93; 184; 216; 34])
    (mk_dns_state false 0 0x1234) = Some (mk_dns_state false 0 0x1234).
Proof. reflexivity. Qed.

End Dns.
