(* ===== verification/Dhcp.v ===== *)
(** * DHCP messages

    Models the message handling of [kernel/net/dhcp.c]: the DISCOVER and REQUEST that
    [dhcp_discover] sends, the option parser and the two receive callbacks. The exchange itself is in
    [NetStack]. A message is the list of its bytes, laid out as the packed [dhcp_msg_t]: [xid] at 4,
    [yiaddr] at 16, [chaddr] at 28, [magic] at 236, 308 bytes of options at 240. As in [Dns], a read
    outside the packet is [None]. *)

From S2P Require Import Prelude Bytes Dns.
Import Dns.

Module Dhcp.

Definition DHCP_DISCOVER : Z := 1.
Definition DHCP_OFFER : Z := 2.
Definition DHCP_REQUEST : Z := 3.
Definition DHCP_ACK : Z := 5.
Definition DHCP_PORT_SERVER : Z := 67.
Definition DHCP_PORT_CLIENT : Z := 68.
Definition DHCP_MAGIC : Z := 0x63825363.
Definition sizeof_dhcp : Z := 548.
Definition OPTIONS : Z := 240.
Definition OPTIONS_END : Z := 548.

Record dhcp := mk_dhcp {
  s_got_offer : bool; s_got_ack : bool; s_offered_ip : Z; s_server_ip : Z;
  s_subnet : Z; s_gateway : Z; s_dns : Z; s_xid : Z }.

(** ** Messages sent *)

(** Stores the option at [*p] and moves [p]. *)
Definition write_opt (m : list Z * Z) (code : Z) (data : list Z) : list Z * Z :=
  let '(b, p) := m in
  (put (wr8 (wr8 b p code) (p + 1) (blen data)) (p + 2) data, p + 2 + blen data).

(** The fields both messages set. *)
Definition build_header (xid : Z) (mac : list Z) : list Z :=
  let m := zeros sizeof_dhcp in
  let m := wr8 m 0 1 in
  let m := wr8 m 1 1 in
  let m := wr8 m 2 6 in
  let m := wr32 m 4 xid in
  let m := wr16 m 10 (htons 0x8000) in
  let m := put m 28 mac in
  wr32 m 236 (htonl DHCP_MAGIC).

Definition build_discover (xid : Z) (mac : list Z) : list Z :=
  let m := (build_header xid mac, OPTIONS) in
  let m := write_opt m 53 [DHCP_DISCOVER] in
  let '(m, p) := write_opt m 55 [1; 3; 6; 15] in
  wr8 m p 255.

Definition build_request (xid : Z) (mac : list Z) (offered server : Z) : list Z :=
  let m := (build_header xid mac, OPTIONS) in
  let m := write_opt m 53 [DHCP_REQUEST] in
  let m := write_opt m 50 (le_bytes 4 offered) in
  let '(m, p) := write_opt m 54 (le_bytes 4 server) in
  wr8 m p 255.

(** ** Messages received *)

(** The variables of the option loop. *)
Record opts := mk_opts { msg_type : Z; subnet : Z; router : Z; dns : Z; server : Z }.

Definition set_msg_type v o := mk_opts v (subnet o) (router o) (dns o) (server o).
Definition set_subnet v o := mk_opts (msg_type o) v (router o) (dns o) (server o).
Definition set_router v o := mk_opts (msg_type o) (subnet o) v (dns o) (server o).
Definition set_dns v o := mk_opts (msg_type o) (subnet o) (router o) v (server o).
Definition set_server v o := mk_opts (msg_type o) (subnet o) (router o) (dns o) v.

(** The [switch] on the option's code. *)
Definition option_case (m : list Z) (code len p : Z) (o : opts) : option opts :=
  if code =? 53 then b ← rdb m p; Some (set_msg_type b o)
  else if code =? 1 then if 4 <=? len then v ← rd_ip m p; Some (set_subnet v o) else Some o
  else if code =? 3 then if 4 <=? len then v ← rd_ip m p; Some (set_router v o) else Some o
  else if code =? 6 then if 4 <=? len then v ← rd_ip m p; Some (set_dns v o) else Some o
  else if code =? 54 then if 4 <=? len then v ← rd_ip m p; Some (set_server v o) else Some o
  else Some o.

(** The loop over the options; [None] also when the fuel runs out. *)
Fixpoint option_loop (fuel : nat) (m : list Z) (p : Z) (o : opts) : option opts :=
  match fuel with
  | O => None
  | S f =>
      if p <? OPTIONS_END then
        code ← rdb m p;
        if code =? 255 then Some o
        else
          let p := p + 1 in
          if code =? 0 then option_loop f m p o
          else if OPTIONS_END <=? p then Some o
          else
            len ← rdb m p;
            let p := p + 1 in
            if OPTIONS_END <? p + len then Some o
            else o ← option_case m code len p o; option_loop f m (p + len) o
      else Some o
  end.

Definition option_fuel : nat := 310.

Definition parse_options (m : list Z) (expected_type : Z) (s : dhcp) : option dhcp :=
  o ← option_loop option_fuel m OPTIONS (mk_opts 0 0 0 0 (s_server_ip s));
  let yiaddr := rd32 m 16 in
  let s := mk_dhcp (s_got_offer s) (s_got_ack s) (s_offered_ip s) (server o) (s_subnet s) (s_gateway s) (s_dns s) (s_xid s) in
  if (msg_type o =? DHCP_OFFER) && (expected_type =? DHCP_OFFER) then
    Some (mk_dhcp true (s_got_ack s) yiaddr (s_server_ip s) (subnet o) (router o) (dns o) (s_xid s))
  else if (msg_type o =? DHCP_ACK) && (expected_type =? DHCP_ACK) then
    Some (mk_dhcp (s_got_offer s) true yiaddr (s_server_ip s)
            (if negb (subnet o =? 0) then subnet o else s_subnet s)
            (if negb (router o =? 0) then router o else s_gateway s)
            (if negb (dns o =? 0) then dns o else s_dns s) (s_xid s))
  else Some s.

Definition dhcp_recv (expected : Z) (data : list Z) (s : dhcp) : option dhcp :=
  if blen data <? sizeof_dhcp then Some s
  else if negb (rd32 data 4 =? s_xid s) then Some s
  else if negb (ntohl (rd32 data 236) =? DHCP_MAGIC) then Some s
  else parse_options data expected s.

Definition dhcp_recv_offer (data : list Z) (s : dhcp) : option dhcp := dhcp_recv DHCP_OFFER data s.
Definition dhcp_recv_ack (data : list Z) (s : dhcp) : option dhcp := dhcp_recv DHCP_ACK data s.

(** A reply shorter than the whole structure leaves no trace. *)
Lemma short_reply_is_dropped expected data s : blen data < sizeof_dhcp -> dhcp_recv expected data s = Some s.
Proof. intros Hl. unfold dhcp_recv. by replace (blen data <? sizeof_dhcp) with true by lia. Qed.

(** ** The parser stays inside the message *)

Lemma option_case_total m code len p o : bytes m -> 0 <= p -> p + len <= OPTIONS_END -> is_u8 len ->
  OPTIONS_END < blen m -> exists o', option_case m code len p o = Some o'.
Proof.
  intros Hm Hp Hl Hu Hb. unfold option_case, OPTIONS_END, is_u8 in *.
  destruct (code =? 53); [destruct (rdb_in m p) as (b & -> & _); [lia|by eexists]|].
  repeat (destruct (code =? _); [destruct (Z.leb_spec 4 len); [rewrite rd_ip_in by lia|]; by eexists|]).
  by eexists.
Qed.

Lemma option_loop_total f m p o : bytes m -> OPTIONS_END < blen m -> 0 <= p -> 0 < Z.of_nat f ->
  OPTIONS_END - p < Z.of_nat f -> exists o', option_loop f m p o = Some o'.
Proof.
  intros Hm Hb. unfold OPTIONS_END in *. revert p o.
  induction f as [|f IH]; intros p o Hp H0 Hf; [lia|]. cbn [option_loop]. unfold OPTIONS_END.
  destruct (Z.ltb_spec p 548); [|by eexists].
  destruct (rdb_in m p) as (code & -> & _); [lia|]. cbn [mbind option_bind].
  destruct (code =? 255); [by eexists|]. destruct (code =? 0); [apply IH; lia|].
  destruct (Z.leb_spec 548 (p + 1)); [by eexists|].
  destruct (rdb_in m (p + 1)) as (len & -> & Hlen); [lia|]. cbn [mbind option_bind].
  specialize (Hlen Hm). destruct (Z.ltb_spec 548 (p + 1 + 1 + len)); [by eexists|].
  destruct (option_case_total m code len (p + 1 + 1) o) as [o' ->]; try done; unfold OPTIONS_END; [lia..|].
  unfold is_u8 in Hlen. cbn [mbind option_bind]. apply IH; lia.
Qed.

(** Whatever the bytes of a packet that is longer than a DHCP message, the receive callbacks finish and
    read no byte outside the packet, and leave the state alone unless transaction id and magic match. *)
Theorem dhcp_recv_safe expected data s :
  bytes data -> blen data <> sizeof_dhcp ->
  exists s', dhcp_recv expected data s = Some s' /\ s_xid s' = s_xid s /\
  (s' = s \/ (rd32 data 4 = s_xid s /\ ntohl (rd32 data 236) = DHCP_MAGIC)).
Proof.
  intros Hd Hl. unfold dhcp_recv, sizeof_dhcp in *.
  destruct (Z.ltb_spec (blen data) 548); [by eauto|].
  destruct (Z.eqb_spec (rd32 data 4) (s_xid s)); [|by eauto].
  destruct (Z.eqb_spec (ntohl (rd32 data 236)) DHCP_MAGIC); [|by eauto]. cbn [negb].
  unfold parse_options.
  destruct (option_loop_total option_fuel data OPTIONS (mk_opts 0 0 0 0 (s_server_ip s)) Hd) as [o ->];
    [unfold OPTIONS_END; lia|done|done|done|].
  cbn [mbind option_bind]. destruct (_ && _); [eauto 6|]. destruct (_ && _); eauto 6.
Qed.

(** ** Options as a list of items *)

Inductive item := Pad | Opt (code : Z) (data : list Z).

Definition enc_item (x : item) : list Z :=
  match x with Pad => [0] | Opt code data => code :: blen data :: data end.
Definition enc_items (xs : list item) : list Z := concat (map enc_item xs).

Definition item_ok (x : item) : Prop :=
  match x with Pad => True | Opt code data => 0 < code < 255 /\ blen data < 256 /\ (code = 53 -> data <> []) end.

(** What an option means; the last one with a code counts. *)
Definition apply_item (o : opts) (x : item) : opts :=
  match x with
  | Pad => o
  | Opt code data =>
      if code =? 53 then set_msg_type (aget 0 data 0) o
      else if blen data <? 4 then o
      else
        let v := le_val (slice data 0 4) in
        if code =? 1 then set_subnet v o
        else if code =? 3 then set_router v o
        else if code =? 6 then set_dns v o
        else if code =? 54 then set_server v o
        else o
  end.

Lemma option_case_opt pre code data rest o : item_ok (Opt code data) ->
  option_case (pre ++ code :: blen data :: data ++ rest) code (blen data) (blen pre + 1 + 1) o =
    Some (apply_item o (Opt code data)).
Proof.
  intros (Hc & Hl & H53). set (m := pre ++ _). pose proof (blen_nonneg pre). pose proof (blen_nonneg rest).
  assert (blen m = blen pre + 2 + blen data + blen rest) as Hm.
  { unfold m. rewrite blen_app. unfold blen. cbn [length]. rewrite length_app. lia. }
  assert (4 <= blen data -> rd_ip m (blen pre + 1 + 1) = Some (le_val (slice data 0 4))) as Hip.
  { intros H4. rewrite rd_ip_in by lia. unfold rd32. do 2 f_equal. unfold m.
    rewrite slice_app_skip by lia. replace (blen pre + 1 + 1 - blen pre) with 2 by lia.
    change (slice (code :: blen data :: data ++ rest) 2 4) with (take 4 (data ++ rest)).
    unfold slice. rewrite drop_0, take_app_le by (unfold blen in *; lia). done. }
  unfold option_case, apply_item. destruct (Z.eqb_spec code 53) as [->|].
  { destruct data as [|x data]; [by destruct H53|]. rewrite <- Z.add_assoc. unfold m. by rewrite rdb_skip. }
  destruct (Z.leb_spec 4 (blen data)) as [H4|H4].
  - rewrite (Hip H4), (proj2 (Z.ltb_ge _ 4)) by done. cbn [mbind option_bind].
    by repeat (destruct (code =? _); [done|]).
  - rewrite (proj2 (Z.ltb_lt _ 4)) by done. by repeat (destruct (code =? _); [done|]).
Qed.

(** The loop is the fold of the items' meanings. *)
Lemma option_loop_items xs pre rest f o :
  Forall item_ok xs -> blen pre + blen (enc_items xs) < OPTIONS_END ->
  (length xs < f)%nat ->
  option_loop f (pre ++ enc_items xs ++ 255 :: rest) (blen pre) o = Some (foldl apply_item o xs).
Proof.
  intros H. revert pre f o. induction H as [|x xs Hx H IH]; intros pre f o Hl Hf;
    (destruct f as [|f]; [simpl in Hf; lia|]); cbn [option_loop].
  - cbn [enc_items map concat app] in *. change (blen []) with 0 in Hl.
    rewrite (proj2 (Z.ltb_lt _ _)) by lia. by rewrite rdb_head.
  - assert (enc_items (x :: xs) = enc_item x ++ enc_items xs) as E by done. rewrite E in *.
    rewrite blen_app in Hl. pose proof (blen_nonneg (enc_items xs)). pose proof (blen_nonneg (enc_item x)).
    assert (length xs < f)%nat as Hf' by (simpl in Hf; lia).
    rewrite <- app_assoc.
    replace (pre ++ enc_item x ++ enc_items xs ++ 255 :: rest)
      with ((pre ++ enc_item x) ++ enc_items xs ++ 255 :: rest) by by rewrite <- app_assoc.
    specialize (IH (pre ++ enc_item x) f). rewrite blen_app in IH. rewrite (proj2 (Z.ltb_lt _ _)) by lia.
    destruct x as [|code data]; rewrite <- app_assoc; cbn [enc_item app].
    + rewrite rdb_head. cbn [mbind option_bind]. change (blen (enc_item Pad)) with 1 in *.
      change (0 =? 255) with false. change (0 =? 0) with true. cbv iota.
      rewrite <- app_assoc in IH. apply (IH o); [lia|done].
    + pose proof Hx as (Hc & Hd & _). rewrite rdb_head. cbn [mbind option_bind].
      assert (blen (enc_item (Opt code data)) = 2 + blen data) as Hi by (unfold blen; cbn [enc_item length]; lia).
      rewrite Hi in *. pose proof (blen_nonneg data). unfold OPTIONS_END in *.
      rewrite (proj2 (Z.eqb_neq code 255)), (proj2 (Z.eqb_neq code 0)), (proj2 (Z.leb_gt 548 _)) by lia.
      rewrite rdb_skip by lia. change (rdb (code :: ?x :: ?l) 1) with (Some x). cbn [mbind option_bind].
      rewrite (proj2 (Z.ltb_ge 548 _)) by lia. rewrite option_case_opt by done. cbn [mbind option_bind].
      rewrite <- app_assoc in IH. cbn [enc_item app] in IH.
      replace (blen pre + 1 + 1 + blen data) with (blen pre + (2 + blen data)) by lia.
      apply (IH (apply_item o (Opt code data))); [lia|done].
Qed.

(** A message: 240 bytes of fixed fields, the options, the end mark, and whatever follows. *)
Definition message (fixed : list Z) (xs : list item) (rest : list Z) : list Z :=
  fixed ++ enc_items xs ++ 255 :: rest.

Lemma enc_items_count xs : (length xs <= length (enc_items xs))%nat.
Proof.
  unfold enc_items. induction xs as [|x xs IH]; [done|]. cbn [map concat length]. rewrite length_app.
  destruct x; cbn [enc_item length]; lia.
Qed.

Lemma parse_message fixed xs rest s :
  blen fixed = 240 -> Forall item_ok xs -> 240 + blen (enc_items xs) < OPTIONS_END ->
  option_loop option_fuel (message fixed xs rest) OPTIONS (mk_opts 0 0 0 0 (s_server_ip s)) =
    Some (foldl apply_item (mk_opts 0 0 0 0 (s_server_ip s)) xs) /\
  (rd32 (message fixed xs rest) 4 = rd32 fixed 4 /\ rd32 (message fixed xs rest) 16 = rd32 fixed 16 /\
   rd32 (message fixed xs rest) 236 = rd32 fixed 236).
Proof.
  intros Hf Hx Hl. split.
  - unfold message, OPTIONS. rewrite <- Hf. apply option_loop_items; [done|lia|].
    pose proof (enc_items_count xs). unfold blen, OPTIONS_END, option_fuel in *. lia.
  - unfold message, rd32. unfold slice. unfold blen in Hf.
    assert (forall k, 0 <= k <= 236 -> take (Z.to_nat 4) (drop (Z.to_nat k) (fixed ++ enc_items xs ++ 255 :: rest)) =
                     take (Z.to_nat 4) (drop (Z.to_nat k) fixed)) as E.
    { intros k Hk. rewrite drop_app_le, take_app_le by (rewrite ?length_drop; lia). done. }
    rewrite !E by lia. done.
Qed.

(** What a callback makes of such a message. *)
Definition after (expected : Z) (fixed : list Z) (o : opts) (s : dhcp) : dhcp :=
  if (msg_type o =? DHCP_OFFER) && (expected =? DHCP_OFFER)
  then mk_dhcp true (s_got_ack s) (rd32 fixed 16) (server o) (subnet o) (router o) (dns o) (s_xid s)
  else if (msg_type o =? DHCP_ACK) && (expected =? DHCP_ACK)
  then mk_dhcp (s_got_offer s) true (rd32 fixed 16) (server o) (if subnet o =? 0 then s_subnet s else subnet o)
         (if router o =? 0 then s_gateway s else router o) (if dns o =? 0 then s_dns s else dns o) (s_xid s)
  else mk_dhcp (s_got_offer s) (s_got_ack s) (s_offered_ip s) (server o) (s_subnet s) (s_gateway s) (s_dns s) (s_xid s).

(** A message of this client's exchange: fixed fields, options that fit, all of it present. *)
Record message_ok (xid : Z) (fixed : list Z) (xs : list item) (rest : list Z) : Prop := {
  mo_fixed : blen fixed = 240;
  mo_items : Forall item_ok xs;
  mo_fit : 240 + blen (enc_items xs) < OPTIONS_END;
  mo_len : sizeof_dhcp <= blen (message fixed xs rest);
  mo_xid : rd32 fixed 4 = xid;
  mo_magic : ntohl (rd32 fixed 236) = DHCP_MAGIC;
}.

Lemma dhcp_recv_message expected fixed xs rest s : message_ok (s_xid s) fixed xs rest ->
  dhcp_recv expected (message fixed xs rest) s =
    Some (after expected fixed (foldl apply_item (mk_opts 0 0 0 0 (s_server_ip s)) xs) s).
Proof.
  intros [Hf Hx Hl Hlen Hxid Hmag].
  destruct (parse_message fixed xs rest s Hf Hx Hl) as (El & E4 & E16 & E236).
  unfold dhcp_recv. rewrite (proj2 (Z.ltb_ge _ _)) by done.
  rewrite E4, Hxid, Z.eqb_refl, E236, Hmag, Z.eqb_refl. cbn [negb].
  unfold parse_options, after. rewrite El. cbn [mbind option_bind]. rewrite E16.
  destruct (_ && _); [done|]. destruct (_ && _); [|done]. by rewrite !if_negb.
Qed.

(** Given a message with this client's transaction id and the magic number, whose options are any
    sequence of well-formed items that fits before the end mark, [dhcp_recv_offer] and [dhcp_recv_ack] read
    them as the sequence says (the last item of a code counts, unknown codes are skipped): an OFFER is taken
    over with its address, mask, router and name server; an ACK with its address and those of the three
    that it names; a message of another type changes the server address only. *)
Theorem dhcp_recv_correct fixed xs rest s :
  message_ok (s_xid s) fixed xs rest ->
  let o := foldl apply_item (mk_opts 0 0 0 0 (s_server_ip s)) xs in
  let other := mk_dhcp (s_got_offer s) (s_got_ack s) (s_offered_ip s) (server o) (s_subnet s) (s_gateway s) (s_dns s) (s_xid s) in
  dhcp_recv_offer (message fixed xs rest) s = Some
    (if msg_type o =? DHCP_OFFER
     then mk_dhcp true (s_got_ack s) (rd32 fixed 16) (server o) (subnet o) (router o) (dns o) (s_xid s) else other) /\
  dhcp_recv_ack (message fixed xs rest) s = Some
    (if msg_type o =? DHCP_ACK
     then mk_dhcp (s_got_offer s) true (rd32 fixed 16) (server o) (if subnet o =? 0 then s_subnet s else subnet o)
            (if router o =? 0 then s_gateway s else router o) (if dns o =? 0 then s_dns s else dns o) (s_xid s) else other).
Proof.
  intros Hm o other. unfold dhcp_recv_offer, dhcp_recv_ack. rewrite !dhcp_recv_message by done. fold o. unfold after.
  change (DHCP_OFFER =? DHCP_OFFER) with true. change (DHCP_OFFER =? DHCP_ACK) with false.
  change (DHCP_ACK =? DHCP_OFFER) with false. change (DHCP_ACK =? DHCP_ACK) with true. by rewrite !andb_true_r, !andb_false_r.
Qed.

(** ** What is sent *)

Lemma le_bytes_4 x : exists a b c d, le_bytes 4 x = [a; b; c; d].
Proof. cbn [le_bytes]. by do 4 eexists. Qed.

(** The DISCOVER and the REQUEST that are sent are well-formed 548-byte messages: 240 bytes of fixed
    fields with the transaction id, the client's address and the magic number, then exactly the
    options meant, the end mark, and zeros; the parser above reads back the message type and the server
    of the REQUEST. *)
Theorem dhcp_messages_sent xid m0 m1 m2 m3 m4 m5 offered srv s :
  let mac := [m0; m1; m2; m3; m4; m5] in
  is_u32 srv ->
  build_discover xid mac = message (slice (build_header xid mac) 0 240)
    [Opt 53 [DHCP_DISCOVER]; Opt 55 [1; 3; 6; 15]] (zeros 298) /\
  build_request xid mac offered srv = message (slice (build_header xid mac) 0 240)
    [Opt 53 [DHCP_REQUEST]; Opt 50 (le_bytes 4 offered); Opt 54 (le_bytes 4 srv)] (zeros 292) /\
  rd32 (build_header xid mac) 4 = u32 xid /\ slice (build_header xid mac) 28 6 = mac /\
  ntohl (rd32 (build_header xid mac) 236) = DHCP_MAGIC /\
  blen (build_discover xid mac) = sizeof_dhcp /\ blen (build_request xid mac offered srv) = sizeof_dhcp /\
  exists o, option_loop option_fuel (build_request xid mac offered srv) OPTIONS (mk_opts 0 0 0 0 (s_server_ip s)) = Some o /\
    msg_type o = DHCP_REQUEST /\ server o = srv.
Proof.
  intros mac Hs. pose proof (le_val_bytes 4 xid) as Ex. pose proof (le_val_bytes 4 srv) as Ev.
  rewrite (Z.mod_small srv) in Ev by exact Hs.
  destruct (le_bytes_4 xid) as (x0 & x1 & x2 & x3 & Hx). destruct (le_bytes_4 offered) as (o0 & o1 & o2 & o3 & Ho).
  destruct (le_bytes_4 srv) as (s0 & s1 & s2 & s3 & Hv).
  assert (build_header xid mac = put (put (put (put (wr8 (wr8 (wr8 (zeros 548) 0 1) 1 1) 2 6) 4 [x0; x1; x2; x3])
            10 (le_bytes 2 (htons 0x8000))) 28 mac) 236 (le_bytes 4 (htonl DHCP_MAGIC))) as Eh.
  { unfold build_header, wr32, wr16. by rewrite Hx. }
  unfold build_discover, build_request. rewrite Eh, Ho, Hv. rewrite Hx in Ex. rewrite Hv in Ev. clear Eh Hx Ho Hv Hs.
  change (u32 xid) with (xid mod 256 ^ Z.of_nat 4). rewrite <- Ex. clear Ex.
  split; [vm_compute; reflexivity|]. split; [vm_compute; reflexivity|]. split; [reflexivity|].
  split; [vm_compute; reflexivity|]. split; [vm_compute; reflexivity|]. split; [vm_compute; reflexivity|].
  split; [vm_compute; reflexivity|]. eexists. split; [vm_compute; reflexivity|]. split; [reflexivity|]. exact Ev.
Qed.

(** An offer, as a server sends it. *)
Definition offer_fixed : list Z := put (slice (build_header 0xdeadbe01 [2; 0; 0; 0; 0; 0xa]) 0 240) 16 [10; 0; 2; 15].
Definition offer_items : list item :=
  [Opt 53 [2]; Opt 54 [10; 0; 2; 2]; Pad; Opt 1 [255; 255; 255; 0]; Opt 3 [10; 0; 2; 2]; Opt 51 [0; 1; 81; 128]; Opt 6 [10; 0; 2; 3]].
Definition idle : dhcp := mk_dhcp false false 0 0 0 0 0 0xdeadbe01.

Lemma offer_items_ok : Forall item_ok offer_items.
Proof. repeat (apply Forall_cons_2; [by split|]). apply Forall_nil_2. Qed.

Lemma offer_ok : message_ok 0xdeadbe01 offer_fixed offer_items (zeros 300).
Proof. split; [done|apply offer_items_ok|done|by vm_compute|done|done]. Qed.

Lemma dhcp_recv_correct_witness :
  dhcp_recv_offer (message offer_fixed offer_items (zeros 300)) idle =
    Some (mk_dhcp true false 0x0f02000a 0x0202000a 0x00ffffff 0x0202000a 0x0302000a 0xdeadbe01).
Proof. exact (proj1 (dhcp_recv_correct offer_fixed offer_items (zeros 300) idle offer_ok)). Defined.

Lemma dhcp_messages_sent_witness :
  blen (build_request 0xdeadbe01 [2; 0; 0; 0; 0; 0xa] 0x0f02000a 0x0202000a) = sizeof_dhcp.
Proof.
  destruct (dhcp_messages_sent 0xdeadbe01 2 0 0 0 0 0xa 0x0f02000a 0x0202000a idle ltac:(done))
    as (_ & _ & _ & _ & _ & _ & H & _). exact H.
Defined.

Lemma dhcp_recv_safe_witness : exists s',
  dhcp_recv DHCP_OFFER (message offer_fixed [Opt 53 [2]] (zeros 400)) idle = Some s'.
Proof.
  destruct (dhcp_recv_safe DHCP_OFFER (message offer_fixed [Opt 53 [2]] (zeros 400)) idle) as (s' & H & _).
  - apply bytes_check. vm_compute. reflexivity.
  - by vm_compute.
  - exists s'. exact H.
Defined.

(** Finding: an option 53 of length 0 in the last two bytes of the options makes the parser read the byte
    after the message. *)
Example dhcp_reads_past_message :
  let m := put (message offer_fixed [] (zeros 307)) 240 (replicate 306 0 ++ [53; 0]) in
  blen m = sizeof_dhcp /\ dhcp_recv_offer m idle = None.
Proof. by vm_compute. Qed.

End Dhcp.
