(* ===== verification/NetStack.v ===== *)
(** * The network stack assembled

    Models the receive path ([eth_recv], [ipv4_recv], [poll_once], [net_poll]), the operations that
    poll the NIC while they wait ([tcp_connect], [dns_resolve], [dhcp_discover]) and the sockets of
    [kernel/net/socket.c], over the protocols of [Net], [Tcp], [Dns] and [Dhcp].

    The NIC's receive function is a driver's: [rx] lists what its successive calls deliver, the empty
    list meaning that no frame is there. The UDP handlers of the source are three: they are numbered
    [DNS_CB], [DHCP_OFFER_CB] and [DHCP_ACK_CB], and [upcall] runs the one with a given number. An
    operation is [None] when a handler reads outside a packet or a null NIC is used. *)

From S2P Require Import Prelude Bytes Checksum Net Tcp Dns Dhcp.
Import Checksum Net Tcp.

Module NetStack.

Definition DNS_CB : Z := 1.
Definition DHCP_OFFER_CB : Z := 2.
Definition DHCP_ACK_CB : Z := 3.
Definition MAX_SOCKETS : Z := 8.

Record stack := mk_stack {
  tp : tcp;
  dns : Dns.dns;
  dhcp : Dhcp.dhcp;
  rx : list (list Z);
  s_socks : list (option Z);
  s_used : list bool;
}.

Definition set_tp v st := mk_stack v (dns st) (dhcp st) (rx st) (s_socks st) (s_used st).
Definition set_dns_st v st := mk_stack (tp st) v (dhcp st) (rx st) (s_socks st) (s_used st).
Definition set_dhcp_st v st := mk_stack (tp st) (dns st) v (rx st) (s_socks st) (s_used st).
Definition set_rx v st := mk_stack (tp st) (dns st) (dhcp st) v (s_socks st) (s_used st).
Definition set_socks v w st := mk_stack (tp st) (dns st) (dhcp st) (rx st) v w.
Definition net_of (st : stack) : net := nt (tp st).
Definition set_net (n : net) (st : stack) : stack := set_tp (set_nt n (tp st)) st.

(** ** The receive path *)

Definition upcall (st : stack) (c : udp_call) : option stack :=
  if c_fn c =? DNS_CB then d ← Dns.dns_recv_cb (c_data c) (dns st); Some (set_dns_st d st)
  else if c_fn c =? DHCP_OFFER_CB then d ← Dhcp.dhcp_recv_offer (c_data c) (dhcp st); Some (set_dhcp_st d st)
  else if c_fn c =? DHCP_ACK_CB then d ← Dhcp.dhcp_recv_ack (c_data c) (dhcp st); Some (set_dhcp_st d st)
  else Some st.

Fixpoint upcalls (cs : list udp_call) (st : stack) : option stack :=
  match cs with
  | [] => Some st
  | c :: cs' => st ← upcall st c; upcalls cs' st
  end.

Definition ipv4_recv (src_mac pkt : list Z) (st : stack) : option stack :=
  if blen pkt <? sizeof_ip then Some st
  else
    let ihl := u8 (Z.land (rd8 pkt 0) 0x0f * 4) in
    if (ihl <? 20) || (blen pkt <? ihl) then Some st
    else
      let src := rd32 pkt 12 in
      let st := set_net (arp_insert src src_mac (net_of st)) st in
      let payload := slice pkt ihl (u16 (blen pkt - ihl)) in
      let proto := rd8 pkt 9 in
      if proto =? IP_PROTO_ICMP then Some (set_net (icmp_recv src payload (net_of st)) st)
      else if proto =? IP_PROTO_UDP then upcalls (udp_recv src payload (net_of st)) st
      else if proto =? IP_PROTO_TCP then Some (set_tp (tcp_input src payload (tp st)) st)
      else Some st.

Definition eth_recv (frame : list Z) (st : stack) : option stack :=
  if blen frame <? ETH_HLEN then Some st
  else
    let et := ntohs (rd16 frame 12) in
    let payload := slice frame ETH_HLEN (u16 (blen frame - ETH_HLEN)) in
    if et =? ETHERTYPE_ARP then Some (set_net (arp_recv payload (net_of st)) st)
    else if et =? ETHERTYPE_IPV4 then ipv4_recv (slice frame 6 6) payload st
    else Some st.

(** [nic->recv] into a buffer of [max] bytes. *)
Definition nic_recv (max : Z) (st : stack) : list Z * stack :=
  match rx st with
  | [] => ([], st)
  | f :: rx' => (slice f 0 max, set_rx rx' st)
  end.

(** [n = nic->recv(...); if (n) eth_recv(pkt, n);] *)
Definition poll (st : stack) : option stack :=
  let '(f, st) := nic_recv 1536 st in
  if blen f =? 0 then Some st else eth_recv f st.

Definition poll_once (st : stack) : option stack :=
  match nic_get (net_of st) with None => Some st | Some _ => poll st end.

Definition net_poll (st : stack) : option stack :=
  match nic_get (net_of st) with None => Some st | Some _ => poll st end.

(** ** TCP open *)

(** [for (i = 0; i < 300000 && c->state == TCP_SYN_SENT; ++i) poll_once();] *)
Fixpoint connect_wait (n : nat) (i : Z) (st : stack) : option stack :=
  match n with
  | O => Some st
  | S n' =>
      if bool_decide (state (conn (tp st) i) = TCP_SYN_SENT)
      then st ← poll_once st; connect_wait n' i st else Some st
  end.

Definition open_conn (dst dport sport : Z) (c : tcp_conn) : tcp_conn :=
  mk_conn (in_use c) TCP_SYN_SENT dst dport sport 0x12345678 0x12345678 0 (TCP_RXBUF - 1) (rxbuf c) 0 0.

Definition tcp_connect (dst dport : Z) (st : stack) : option (option Z * stack) :=
  match alloc_conn (tp st) with
  | (None, _) => Some (None, st)
  | (Some i, t) =>
      let '(port, t) := alloc_port t in
      let t := upd i (open_conn dst dport port) t in
      let t := snd (tcp_send_seg i TCP_FLAG_SYN [] t) in
      st ← connect_wait (Z.to_nat 300000) i (set_tp t st);
      if bool_decide (state (conn (tp st) i) = TCP_ESTABLISHED) then Some (Some i, st)
      else Some (None, set_tp (upd i (set_in_use false) (tp st)) st)
  end.

(** ** DNS *)

Fixpoint dns_wait (n : nat) (st : stack) : option stack :=
  match n with
  | O => Some st
  | S n' =>
      if Dns.s_got_reply (dns st) then Some st
      else match nic_get (net_of st) with None => None | Some _ => st ← poll st; dns_wait n' st end
  end.

Fixpoint dns_attempts (k : nat) (dns_ip : Z) (q : list Z) (st : stack) : option stack :=
  match k with
  | O => Some st
  | S k' =>
      if Dns.s_got_reply (dns st) then Some st
      else
        let st := set_net (snd (udp_send dns_ip 53000 Dns.DNS_PORT q (net_of st))) st in
        st ← dns_wait (Z.to_nat 200000) st; dns_attempts k' dns_ip q st
  end.

(** The address, when [dns_resolve] returns true. *)
Definition dns_resolve (hostname : list Z) (st : stack) : option (option Z * stack) :=
  let dns_ip := ipv4_dns (net_of st) in
  if dns_ip =? 0 then Some (None, st)
  else
    let st := set_dns_st (Dns.mk_dns_state false (Dns.s_resolved_ip (dns st)) 0x1234) st in
    let q := Dns.dns_query 0x1234 hostname in
    let st := set_net (udp_bind 53000 DNS_CB 0 (net_of st)) st in
    st ← dns_attempts 3 dns_ip q st;
    let st := set_net (udp_unbind 53000 (net_of st)) st in
    Some (if Dns.s_got_reply (dns st) then Some (Dns.s_resolved_ip (dns st)) else None, st).

(** ** DHCP *)

Fixpoint poll_until (n : nat) (done : Dhcp.dhcp -> bool) (st : stack) : option stack :=
  match n with
  | O => Some st
  | S n' =>
      if done (dhcp st) then Some st
      else match nic_get (net_of st) with None => Some st | Some _ => st ← poll st; poll_until n' done st end
  end.

(** Bind the callback, send the message from address 0, wait for the flag. *)
Definition exchange (cb : Z) (msg : Dhcp.dhcp -> list Z) (done : Dhcp.dhcp -> bool) (st : stack) : option stack :=
  let st := set_net (udp_bind Dhcp.DHCP_PORT_CLIENT cb 0 (net_of st)) st in
  let st := set_net (ipv4_set_config 0 0 0 0 (net_of st)) st in
  let st := set_net (snd (udp_send 0xffffffff Dhcp.DHCP_PORT_CLIENT Dhcp.DHCP_PORT_SERVER (msg (dhcp st)) (net_of st))) st in
  st ← poll_until (Z.to_nat 400000) done st;
  Some (set_net (udp_unbind Dhcp.DHCP_PORT_CLIENT (net_of st)) st).

Definition dhcp_discover (st : stack) : option (bool * stack) :=
  match nic_get (net_of st) with
  | None => Some (false, st)
  | Some c =>
      let d := dhcp st in
      let st := set_dhcp_st (Dhcp.mk_dhcp false false (Dhcp.s_offered_ip d) (Dhcp.s_server_ip d) (Dhcp.s_subnet d)
                               (Dhcp.s_gateway d) (Dhcp.s_dns d) 0xdeadbe01) st in
      st ← exchange DHCP_OFFER_CB (fun d => Dhcp.build_discover (Dhcp.s_xid d) (mac c)) Dhcp.s_got_offer st;
      if negb (Dhcp.s_got_offer (dhcp st)) then Some (false, st)
      else
        st ← exchange DHCP_ACK_CB
               (fun d => Dhcp.build_request (Dhcp.s_xid d) (mac c) (Dhcp.s_offered_ip d) (Dhcp.s_server_ip d))
               Dhcp.s_got_ack st;
        if negb (Dhcp.s_got_ack (dhcp st)) then Some (false, st)
        else
          let d := dhcp st in
          Some (true, set_net (ipv4_set_config (Dhcp.s_offered_ip d) (Dhcp.s_subnet d) (Dhcp.s_gateway d)
                                 (Dhcp.s_dns d) (net_of st)) st)
  end.

(** ** Sockets *)

Definition bad_sock (idx : Z) : bool := (idx <? 0) || (MAX_SOCKETS <=? idx).
Definition sock (st : stack) (idx : Z) : option Z := aget None (s_socks st) idx.

Definition sock_alloc (st : stack) : Z * stack :=
  match find_slot negb (s_used st) 0 with
  | Some i => (i, set_socks (aset (s_socks st) i None) (aset (s_used st) i true) st)
  | None => (-1, st)
  end.

Definition sock_free (idx : Z) (st : stack) : stack :=
  if bad_sock idx then st
  else set_socks (aset (s_socks st) idx None) (aset (s_used st) idx false) st.

Definition sock_connect (idx ip port : Z) (st : stack) : option (Z * stack) :=
  if bad_sock idx then Some (-1, st)
  else
    '(c, st) ← tcp_connect ip port st;
    match c with
    | None => Some (-1, st)
    | Some i => Some (0, set_socks (aset (s_socks st) idx (Some i)) (s_used st) st)
    end.

Definition sock_send (idx : Z) (buf : list Z) (st : stack) : Z * stack :=
  if bad_sock idx then (-1, st)
  else match sock st idx with
  | None => (-1, st)
  | Some i =>
      let len := if 65535 <? blen buf then 65535 else blen buf in
      match tcp_send (Some i) (slice buf 0 len) (tp st) with
      | (false, t) => (-1, set_tp t st)
      | (true, t) => (len, set_tp t st)
      end
  end.

(** The return value and the bytes stored. *)
Definition sock_recv (idx len : Z) (st : stack) : Z * list Z * stack :=
  if bad_sock idx then (-1, [], st)
  else match sock st idx with
  | None => (-1, [], st)
  | Some i =>
      let len := if 65535 <? len then 65535 else len in
      let '(b, t) := tcp_recv (Some i) len (tp st) in
      if (blen b =? 0) && negb (tcp_is_established (Some i) t) then (-1, b, set_tp t st)
      else (blen b, b, set_tp t st)
  end.

Definition sock_close (idx : Z) (st : stack) : stack :=
  if bad_sock idx then st
  else
    let c := sock st idx in
    let st := set_socks (aset (s_socks st) idx None) (aset (s_used st) idx false) st in
    set_tp (tcp_close c (tp st)) st.

Definition sock_is_connected (idx : Z) (st : stack) : bool :=
  if bad_sock idx then false else match sock st idx with Some _ => true | None => false end.

(** ** Frames that arrive *)

Lemma frame_of_app dst src type p pad : frame_of dst src type p ++ pad = frame_of dst src type (p ++ pad).
Proof. unfold frame_of. by rewrite <- !app_assoc. Qed.

Section arrival.
Context (dst smac : list Z) (Hdst : mac_ok dst) (Hsmac : mac_ok smac).

Lemma frame_fields type p : is_u16 type -> blen p <= 1500 ->
  let f := frame_of dst smac type p in
  blen f = 14 + blen p /\ ntohs (rd16 f 12) = type /\ slice f 6 6 = smac /\ slice f 14 (u16 (blen f - 14)) = p.
Proof using Hdst Hsmac.
  intros Ht Hl. cbv zeta. destruct Hdst as [Hd _], Hsmac as [Hs _]. pose proof (blen_nonneg p).
  assert (blen (frame_of dst smac type p) = 14 + blen p) as Hf.
  { unfold frame_of. rewrite !blen_app, Hd, Hs. change (blen [type / 256; type mod 256]) with 2. lia. }
  split; [done|]. rewrite Hf. replace (14 + blen p - 14) with (blen p) by lia.
  rewrite u16_small by (unfold is_u16; lia). unfold frame_of, rd16.
  split; [|split].
  - rewrite !slice_app_skip by lia. rewrite Hd, Hs. change (12 - 6 - 6) with 0.
    rewrite slice_app_head by done. rewrite <- le_bytes_htons by done. by apply ntohs_wire.
  - rewrite slice_app_skip by lia. rewrite Hd. by apply slice_app_head.
  - rewrite !slice_app_skip by (rewrite ?Hd, ?Hs; done || lia). rewrite Hd, Hs. by apply slice_all.
Qed.

(** An IPv4 frame: the sender is cached, and the handler of the protocol gets the payload and whatever
    padding the frame has. *)
Definition ip_arrival (src proto : Z) (payload : list Z) (st : stack) : option stack :=
  let st := set_net (arp_insert src smac (net_of st)) st in
  if proto =? IP_PROTO_ICMP then Some (set_net (icmp_recv src payload (net_of st)) st)
  else if proto =? IP_PROTO_UDP then upcalls (udp_recv src payload (net_of st)) st
  else if proto =? IP_PROTO_TCP then Some (set_tp (tcp_input src payload (tp st)) st)
  else Some st.

Lemma eth_recv_datagram id proto src ipdst payload pad st :
  is_u32 src -> is_u32 ipdst -> is_u8 proto -> is_u16 id -> blen payload + blen pad <= 1480 ->
  eth_recv (frame_of dst smac ETHERTYPE_IPV4 (ip_datagram id proto src ipdst payload) ++ pad) st =
    ip_arrival src proto (payload ++ pad) st.
Proof using Hdst Hsmac.
  intros Hs Hd Hp Hid Hl. pose proof (blen_nonneg payload). pose proof (blen_nonneg pad).
  destruct (ip_datagram_fields id proto src ipdst payload Hs Hd Hp Hid ltac:(lia))
    as (F0 & F9 & F12 & F16 & F2 & F4 & Fc & Fp).
  pose proof (blen_ip_datagram id proto src ipdst payload) as Hbd. rewrite Hbd in Fp.
  set (d := ip_datagram id proto src ipdst payload) in *. clearbody d.
  rewrite frame_of_app.
  destruct (frame_fields ETHERTYPE_IPV4 (d ++ pad) ltac:(done)) as (Hf & Ht & Hm & Hpl); [rewrite blen_app; lia|].
  unfold eth_recv. change ETH_HLEN with 14. rewrite Ht, Hm, Hpl, Hf. change (ETHERTYPE_IPV4 =? ETHERTYPE_ARP) with false.
  change (ETHERTYPE_IPV4 =? ETHERTYPE_IPV4) with true. rewrite (proj2 (Z.ltb_ge _ 14)) by (rewrite blen_app; lia).
  unfold ipv4_recv. rewrite blen_app, rd8_app_l by lia. rewrite F0. change (u8 (Z.land 69 15 * 4)) with 20.
  change sizeof_ip with 20. rewrite (proj2 (Z.ltb_ge _ 20)) by lia. change (20 <? 20) with false. cbn [orb].
  unfold rd32 in *. rewrite slice_app_l by lia. rewrite F12, rd8_app_l by lia. rewrite F9.
  replace (blen d + blen pad - 20) with (blen payload + blen pad) by lia. rewrite u16_small by (unfold is_u16; lia).
  assert (slice (d ++ pad) 20 (blen payload + blen pad) = payload ++ pad) as ->; [|done].
  rewrite slice_split by lia. f_equal.
  - rewrite slice_app_l by lia. by replace (20 + blen payload - 20) with (blen payload) in Fp by lia.
  - rewrite slice_app_skip by lia. replace (20 + blen payload - blen d) with 0 by lia. by apply slice_all.
Qed.
End arrival.

(** A datagram sent with [udp_send] arrives: when the destination resolves on A's link, A hands the NIC one
    frame, and [eth_recv] of that frame on B caches A's address and calls exactly the handlers bound to the
    destination port, each with A's address, the source port and exactly the data, without the link's
    padding; the datagram's checksum verifies. *)
Theorem udp_delivery a c m dst sport dport data b :
  net_wf a -> s_nic a = Some c -> tx_ok c = true -> link_addr a dst = Some m -> is_u32 dst ->
  is_u16 sport -> is_u16 dport -> bytes data -> blen data <= 1464 ->
  exists a' f, udp_send dst sport dport data a = (true, a') /\ sent a' = sent a ++ [f] /\
    ip_pseudo_checksum (s_ip a) dst IP_PROTO_UDP (udp_packet (s_ip a) dst sport dport data) = 0 /\
    eth_recv f b =
      let b := set_net (arp_insert (s_ip a) (mac c) (net_of b)) b in
      upcalls (map (fun h => mk_call (b_fn h) (s_ip a) sport data (b_ctx h)) (bound dport (net_of b))) b.
Proof.
  intros Hw Hn Htx Hm Hdst Hs Hd Hb Hl. pose proof (blen_nonneg data).
  pose proof (udp_packet_bytes (s_ip a) dst sport dport data Hb) as Hpb.
  pose proof (blen_udp_packet (s_ip a) dst sport dport data) as Hpl.
  unfold udp_send. change sizeof_udp with 8. rewrite (proj2 (Z.ltb_ge 1472 _)) by lia.
  change (ipv4_our_ip a) with (s_ip a). set (p := udp_packet _ _ _ _ _) in *.
  destruct (ipv4_send_hit a c dst IP_PROTO_UDP p Hw Hn ltac:(done) Hpb ltac:(lia) m Hm) as (f' & Hf' & ->).
  rewrite Htx. do 2 eexists. split; [reflexivity|]. split; [reflexivity|]. split; [by apply udp_packet_verifies|].
  pose proof Hw as (Hfr & Ha & Hip & Hmac).
  rewrite eth_recv_datagram.
  - unfold ip_arrival. change (IP_PROTO_UDP =? IP_PROTO_ICMP) with false.
    change (IP_PROTO_UDP =? IP_PROTO_UDP) with true. cbv iota. unfold p. by rewrite udp_recv_packet.
  - by eapply link_addr_ok.
  - by apply Hmac.
  - done.
  - done.
  - done.
  - apply u16_range.
  - rewrite blen_ip_datagram. destruct (Z.le_gt_cases 46 (20 + blen p)).
    + rewrite slice_nonpos by lia. change (blen []) with 0. lia.
    + rewrite blen_slice by lia. lia.
Qed.

(** A host answers directly to the neighbour it has just heard from. *)
Lemma link_addr_neighbour n src m : arp_wf n -> mac_ok m -> src <> 0 -> src <> 0xffffffff ->
  s_gateway n = 0 \/ Z.land src (s_netmask n) = Z.land (s_ip n) (s_netmask n) ->
  link_addr (arp_insert src m n) src = Some m.
Proof.
  intros Hw Hm H0 H1 Hsub. unfold link_addr. rewrite (proj2 (Z.eqb_neq src _)), (proj2 (Z.eqb_neq src 0)) by done.
  cbn [orb]. change (s_gateway (arp_insert src m n)) with (s_gateway n).
  change (s_netmask (arp_insert src m n)) with (s_netmask n). change (s_ip (arp_insert src m n)) with (s_ip n).
  destruct Hsub as [->| ->]; [|rewrite Z.eqb_refl, andb_false_r]; by apply arp_insert_cache.
Qed.

Lemma arp_insert_net_wf n src m : net_wf n -> mac_ok m -> net_wf (arp_insert src m n).
Proof. intros (Hf & Ha & Hip & Hmac) Hm. split; [done|]. split; [by apply arp_insert_wf|]. done. Qed.

(** A host answers a ping from a neighbour: an ICMP echo request of at most 1024 bytes in an IPv4 frame
    makes [eth_recv] send exactly one frame back to the sender's hardware address, an IPv4 datagram from
    the host's address to the sender's, whose ICMP message is an echo reply with the request's identifier,
    sequence number and data and a checksum that verifies. *)
Theorem ping_answered st c dmac smac id src pkt pad :
  net_wf (net_of st) -> s_nic (net_of st) = Some c -> mac_ok dmac -> mac_ok smac -> is_u16 id -> is_u32 src ->
  src <> 0 -> src <> 0xffffffff ->
  s_gateway (net_of st) = 0 \/ Z.land src (s_netmask (net_of st)) = Z.land (s_ip (net_of st)) (s_netmask (net_of st)) ->
  bytes pkt -> bytes pad -> 8 <= blen pkt -> blen pkt + blen pad <= 1024 -> rd8 pkt 0 = ICMP_ECHO_REQUEST -> rd8 pkt 1 = 0 ->
  exists st' reply csum pad',
    eth_recv (frame_of dmac smac ETHERTYPE_IPV4 (ip_datagram id IP_PROTO_ICMP src (s_ip (net_of st)) pkt) ++ pad) st = Some st' /\
    sent (net_of st') = sent (net_of st) ++
      [frame_of smac (mac c) ETHERTYPE_IPV4
         (ip_datagram (u16 (s_id (net_of st) + 1)) IP_PROTO_ICMP (s_ip (net_of st)) src reply) ++ pad'] /\
    reply = [ICMP_ECHO_REPLY; 0] ++ le_bytes 2 csum ++ slice (pkt ++ pad) 4 (blen pkt + blen pad - 4) /\
    ip_checksum reply = 0 /\ cache (net_of st') src = Some smac.
Proof.
  intros Hw Hn Hdm Hsm Hid Hsrc H0 H1 Hsub Hb Hpb Hl Hlp Ht Hc. pose proof (blen_nonneg pad).
  rewrite eth_recv_datagram; [|done|done|done|apply Hw|done|done|lia].
  unfold ip_arrival. change (IP_PROTO_ICMP =? IP_PROTO_ICMP) with true. cbv iota zeta.
  change (net_of (set_net ?n st)) with n. set (n1 := arp_insert src smac (net_of st)).
  assert (net_wf n1) as Hw1 by by apply arp_insert_net_wf.
  assert (bytes (pkt ++ pad)) as Hpp by by apply Forall_app.
  assert (rd8 (pkt ++ pad) 0 = ICMP_ECHO_REQUEST /\ rd8 (pkt ++ pad) 1 = 0) as [E0 E1] by (rewrite !rd8_app_l by lia; done).
  destruct (icmp_reply_spec (pkt ++ pad) Hpp ltac:(rewrite blen_app; lia) E1) as (k & Er & Hck & Hrb & Hrl).
  assert (link_addr n1 src = Some smac) as Hla by (apply link_addr_neighbour; try done; apply Hw).
  rewrite blen_app in Er, Hrl.
  destruct (ipv4_send_hit n1 c src IP_PROTO_ICMP (icmp_reply (pkt ++ pad)) Hw1 Hn ltac:(done) Hrb ltac:(lia) smac Hla)
    as (f' & Hf' & Hs).
  unfold icmp_recv. rewrite blen_app, E0, E1. change sizeof_icmp with 8. rewrite (proj2 (Z.ltb_ge _ 8)) by lia.
  rewrite Z.eqb_refl. cbn [andb]. rewrite (proj2 (Z.ltb_ge 1024 _)) by lia. rewrite Hs. cbn [snd].
  do 4 eexists. split; [reflexivity|]. split; [reflexivity|]. split; [exact Er|]. split; [exact Hck|].
  change (cache (net_of _) src) with (cache n1 src). apply arp_insert_cache; [apply Hw|done].
Qed.

(** ** A TCP transfer *)

(** The receiving end [j] of a connection that is sent to by [c]. *)
Record receiving (c : tcp_conn) (src seq j : Z) (st : stack) : Prop := {
  rc_wf : tcp_wf (tp st);
  rc_find : find_conn src (c_sport c) (c_dport c) (tp st) = Some j;
  rc_state : state (conn (tp st) j) = TCP_ESTABLISHED;
  rc_nxt : rcv_nxt (conn (tp st) j) = seq;
}.

Fixpoint eth_recv_all (fs : list (list Z)) (st : stack) : option stack :=
  match fs with [] => Some st | f :: fs' => st ← eth_recv f st; eth_recv_all fs' st end.

(** The lookup depends on the addresses only. *)
Lemma find_conn_ext src sport dport t t' j :
  tcp_wf t -> tcp_wf t' -> find_conn src sport dport t = Some j ->
  (forall i, conn_ok i -> in_use (conn t' i) = in_use (conn t i) /\ dst_ip (conn t' i) = dst_ip (conn t i) /\
     c_dport (conn t' i) = c_dport (conn t i) /\ c_sport (conn t' i) = c_sport (conn t i)) ->
  find_conn src sport dport t' = Some j.
Proof.
  intros [Hl _] [Hl' _] (Hj & Hp & Hlt)%(find_slot_Some _ conn_zero) Hext. unfold conn, conn_ok in Hext.
  apply (find_slot_Some_intro _ conn_zero); [lia| |].
  - destruct (Hext j) as (-> & -> & -> & ->); [lia|done].
  - intros i Hi. destruct (Hext i) as (-> & -> & -> & ->); [lia|by apply Hlt].
Qed.

(** One data segment that fits, without padding. *)
Lemma recv_segment c src seq j st chunk ip smac :
  receiving c src seq j st -> peer_ok c -> is_u32 seq -> 0 < blen chunk <= 1460 ->
  used (conn (tp st) j) + blen chunk <= TCP_RXBUF - 1 ->
  exists st', ip_arrival smac src IP_PROTO_TCP (segment ip (Z.lor TCP_FLAG_ACK TCP_FLAG_PSH) chunk (set_snd_seq seq c) ++ []) st
      = Some st' /\
    receiving c src (u32 (seq + blen chunk)) j st' /\
    contents (conn (tp st') j) = contents (conn (tp st) j) ++ chunk /\
    used (conn (tp st') j) = used (conn (tp st) j) + blen chunk.
Proof.
  intros [Hw Hf Hst Hn] Hc Hseq Hl Hu. unfold ip_arrival. cbn [Z.eqb IP_PROTO_TCP IP_PROTO_ICMP IP_PROTO_UDP Pos.eqb].
  set (st1 := set_net _ st). eexists. split; [reflexivity|].
  assert (peer_ok (set_snd_seq seq c)) as Hc' by (destruct Hc; by split).
  rewrite tcp_input_segment by (done || (change (blen []) with 0; lia)).
  change (c_sport (set_snd_seq seq c)) with (c_sport c). change (c_dport (set_snd_seq seq c)) with (c_dport c).
  change (find_conn src (c_sport c) (c_dport c) (tp st1)) with (find_conn src (c_sport c) (c_dport c) (tp st)).
  rewrite Hf. change (conn (tp st1) j) with (conn (tp st) j). rewrite Hst, app_nil_r.
  assert (tcp_wf (tp st1)) as Hw1 by exact Hw.
  destruct (find_conn_Some _ _ _ _ _ Hw Hf) as (Hj & _).
  destruct (input_established_spec j (Z.lor TCP_FLAG_ACK TCP_FLAG_PSH) seq (rcv_nxt c) chunk (tp st1) Hw1 Hj)
    as (Hw' & Hcj & Ho).
  change (conn (tp st1)) with (conn (tp st)) in *.
  change (flag (Z.lor TCP_FLAG_ACK TCP_FLAG_PSH) TCP_FLAG_ACK) with true. cbv iota zeta.
  change (snd_seq (set_snd_seq seq c)) with seq. change (rcv_nxt (set_snd_seq seq c)) with (rcv_nxt c).
  set (t' := input_established _ _ _ _ _ _) in *. clearbody t'. change (tp (set_tp t' st1)) with t'.
  assert (conn t' j = set_rcv_nxt (u32 (seq + blen chunk)) (rxbuf_push chunk (set_snd_una (rcv_nxt c) (conn (tp st) j)))) as E.
  { rewrite Hcj. unfold recv_conn.
    change (flag (Z.lor TCP_FLAG_ACK TCP_FLAG_PSH) TCP_FLAG_RST) with false.
    change (flag (Z.lor TCP_FLAG_ACK TCP_FLAG_PSH) TCP_FLAG_ACK) with true.
    change (flag (Z.lor TCP_FLAG_ACK TCP_FLAG_PSH) TCP_FLAG_FIN) with false. cbv iota zeta.
    change (rcv_nxt (set_snd_una ?v ?x)) with (rcv_nxt x). rewrite Hn, Z.eqb_refl, (proj2 (Z.ltb_lt 0 _)) by lia. done. }
  set (c1 := set_snd_una (rcv_nxt c) (conn (tp st) j)) in *.
  assert (conn_wf c1) as Hw1' by (pose proof (conn_get_wf (tp st) j Hw Hj); unfold c1; conn_wf_set).
  destruct (rxbuf_push_spec chunk c1 Hw1') as (Hpw & Hro & HC). cbv zeta in HC.
  assert (contents (conn t' j) = contents (conn (tp st) j) ++ chunk) as HCt.
  { rewrite E. change (contents (set_rcv_nxt ?v ?x)) with (contents x). rewrite HC.
    change (used c1) with (used (conn (tp st) j)). rewrite take_ge by (unfold blen in *; lia). done. }
  assert (forall i, conn_ok i -> in_use (conn t' i) = in_use (conn (tp st) i) /\ dst_ip (conn t' i) = dst_ip (conn (tp st) i) /\
     c_dport (conn t' i) = c_dport (conn (tp st) i) /\ c_sport (conn t' i) = c_sport (conn (tp st) i)) as Hext.
  { intros i Hi. destruct (decide (i = j)) as [->|]; [|by rewrite Ho]. rewrite E, Hro. done. }
  split; [|split; [done|]].
  - split; change (tp (set_tp t' st1)) with t'; [done| |rewrite E, Hro; done|by rewrite E].
    apply (find_conn_ext _ _ _ (tp st)); done.
  - rewrite <- !blen_contents, HCt, blen_app. done.
Qed.

(** Delivering the frames that carry [data] in order. *)
Lemma stream_delivered m smac ip c seq data fs j st :
  mac_ok m -> mac_ok smac -> is_u32 ip -> is_u32 (dst_ip c) -> peer_ok c -> is_u32 seq ->
  stream_frames m smac ip c seq data fs -> receiving c ip seq j st ->
  used (conn (tp st) j) + blen data <= TCP_RXBUF - 1 ->
  blen data mod 1460 = 0 \/ 6 <= blen data mod 1460 ->
  exists st', eth_recv_all fs st = Some st' /\ receiving c ip (u32 (seq + blen data)) j st' /\
    contents (conn (tp st') j) = contents (conn (tp st) j) ++ data.
Proof.
  intros Hm Hsm Hip Hdst Hc Hseq Hfs. revert st Hseq.
  induction Hfs as [seq|seq chunk rest id pad fs Hl Hfull Hid Hpad Hfs IH]; intros st Hseq Hr Hu Hlast.
  { exists st. split; [done|]. change (blen []) with 0. rewrite Z.add_0_r, u32_small, app_nil_r by done. done. }
  rewrite blen_app in *. pose proof (blen_nonneg rest).
  assert (pad = []) as ->.
  { apply Hpad. destruct (decide (rest = [])) as [->|Hne]; [|rewrite Hfull by done; lia].
    change (blen []) with 0 in *. lia. }
  cbn [eth_recv_all]. rewrite eth_recv_datagram; [|done|done|done|done|done|done|].
  2: { rewrite blen_segment. change (blen []) with 0. lia. }
  destruct (recv_segment c ip seq j st chunk ip smac Hr Hc Hseq Hl ltac:(lia)) as (st1 & -> & Hr1 & HC1 & HU1).
  cbn [mbind option_bind].
  destruct (IH st1) as (st' & -> & Hr' & HC'); [apply u32_range|done|lia| |].
  - destruct (decide (rest = [])) as [->|Hne]; [left; done|]. rewrite Hfull in Hlast by done. lia.
  - exists st'. split; [done|]. split; [|by rewrite HC', HC1, <- app_assoc].
    replace (u32 (seq + (blen chunk + blen rest))) with (u32 (u32 (seq + blen chunk) + blen rest)); [done|].
    unfold u32. lia.
Qed.

(** C11: a transfer from end to end. On a connection of host A that is established and whose peer's link address is
    known, with a working NIC, [tcp_send] of any bytes returns true and emits frames such that, when these are
    delivered in order to host B, whose end of the connection expects A's next byte and has room in its ring for the
    data, exactly the data is appended to what B's application will read, and both ends agree on the next byte
    again. The last segment must have the 6 bytes that make a minimum-size frame, since B takes padding for data. *)
Theorem tcp_transfer nic m i t j st data :
  conn_ok i -> tx_ok nic = true -> ready nic m i t -> state (conn t i) = TCP_ESTABLISHED -> bytes data ->
  mac_ok m -> mac_ok (mac nic) -> is_u32 (s_ip (nt t)) -> is_u32 (dst_ip (conn t i)) -> peer_ok (conn t i) ->
  receiving (conn t i) (s_ip (nt t)) (snd_seq (conn t i)) j st ->
  used (conn (tp st) j) + blen data <= TCP_RXBUF - 1 ->
  blen data mod 1460 = 0 \/ 6 <= blen data mod 1460 ->
  exists t' fs st', tcp_send (Some i) data t = (true, t') /\ ready nic m i t' /\ sent (nt t') = sent (nt t) ++ fs /\
    eth_recv_all fs st = Some st' /\ contents (conn (tp st') j) = contents (conn (tp st) j) ++ data /\
    receiving (conn t' i) (s_ip (nt t)) (snd_seq (conn t' i)) j st'.
Proof.
  intros Hi Htx Hr Hst Hd Hm Hsm Hip Hdst Hp Hrc Hu Hlast. pose proof (tcp_send_correct nic m i data t Hi Htx Hr Hd) as Hs.
  rewrite bool_decide_true in Hs by done. destruct Hs as (t' & fs & E & Hr' & Hc & Hsent & Hfs).
  assert (is_u32 (snd_seq (conn t i))) as Hq by (apply wf_snd_seq, conn_get_wf; [apply Hr|done]).
  destruct (stream_delivered m (mac nic) (s_ip (nt t)) (conn t i) (snd_seq (conn t i)) data fs j st) as (st' & E' & Hrc' & HC); [done..|].
  exists t', fs, st'. do 5 (split; [done|]). rewrite Hc. destruct Hrc'. by split.
Qed.

(** ** What incoming segments can do to a connection *)

(** The states a connection can be in; [TCP_FIN_WAIT_1] and the like are never entered. *)
Definition live (c : tcp_conn) : Prop :=
  state c = TCP_CLOSED \/ state c = TCP_SYN_SENT \/ state c = TCP_ESTABLISHED.

Record evolves (c c' : tcp_conn) : Prop := {
  ev_in_use : in_use c' = in_use c;
  ev_live : live c';
  ev_syn : state c <> TCP_SYN_SENT -> state c' <> TCP_SYN_SENT;
}.

Lemma evolves_refl c : live c -> evolves c c.
Proof. by split. Qed.

Lemma evolves_trans c1 c2 c3 : evolves c1 c2 -> evolves c2 c3 -> evolves c1 c3.
Proof. intros [] []. split; [congruence|done|auto]. Qed.

Lemma recv_conn_evolves flags seq ack data c : state c = TCP_ESTABLISHED -> conn_wf c ->
  evolves c (recv_conn flags seq ack data c).
Proof.
  intros Hs Hw. unfold recv_conn. destruct (flag flags TCP_FLAG_RST); [by split; [|left|]|].
  set (c1 := if flag flags TCP_FLAG_ACK then set_snd_una ack c else c).
  assert (conn_wf c1 /\ in_use c1 = in_use c /\ state c1 = TCP_ESTABLISHED) as (Hw1 & Hu1 & Hs1).
  { unfold c1. destruct (flag flags TCP_FLAG_ACK); [split; [conn_wf_set|done]|done]. }
  clearbody c1. set (c2 := if _ && _ then _ else c1).
  assert (in_use c2 = in_use c /\ state c2 = TCP_ESTABLISHED) as [Hu2 Hs2].
  { unfold c2. destruct (_ && _); [|done]. destruct (rxbuf_push_spec data c1 Hw1) as (_ & Hr & _). by rewrite Hr. }
  clearbody c2. destruct (flag flags TCP_FLAG_FIN).
  - split; [done|by left|done].
  - split; [done|by right; right|congruence].
Qed.

Definition all_live (t : tcp) : Prop := forall i, conn_ok i -> live (conn t i).
Definition all_evolve (t t' : tcp) : Prop := tcp_wf t' /\ forall i, conn_ok i -> evolves (conn t i) (conn t' i).

Lemma all_evolve_refl t : tcp_wf t -> all_live t -> all_evolve t t.
Proof. intros Hw Hl. split; [done|]. intros. by apply evolves_refl, Hl. Qed.

Lemma all_evolve_trans t1 t2 t3 : all_evolve t1 t2 -> all_evolve t2 t3 -> all_evolve t1 t3.
Proof. intros [_ H1] [Hw H2]. split; [done|]. intros i Hi. by eapply evolves_trans; [apply H1|apply H2]. Qed.

Lemma all_evolve_live t t' : all_evolve t t' -> all_live t'.
Proof. intros [_ H] i Hi. by apply H. Qed.

(** A change of one connection. *)
Lemma only_conn_evolve i t t' : all_live t -> only_conn i t t' -> evolves (conn t i) (conn t' i) -> all_evolve t t'.
Proof.
  intros Hl [Hw Ho] He. split; [done|]. intros j Hj. destruct (decide (j = i)) as [->|Hne]; [done|].
  rewrite Ho by done. by apply evolves_refl, Hl.
Qed.

Lemma tcp_input_evolve src pkt t : tcp_wf t -> all_live t -> all_evolve t (tcp_input src pkt t).
Proof.
  intros Hw Hl. destruct (tcp_input_only src pkt t Hw) as [->|(i & Hf & Ho)]; [by apply all_evolve_refl|].
  destruct (find_conn_Some _ _ _ _ _ Hw Hf) as (Hi & _).
  apply (only_conn_evolve i); [done|done|]. clear Ho.
  unfold tcp_input. destruct (_ <? sizeof_tcp); [by apply evolves_refl, Hl|].
  destruct (_ || _); [by apply evolves_refl, Hl|]. rewrite Hf.
  destruct (Hl i Hi) as [Hs|[Hs|Hs]]; rewrite Hs; [apply evolves_refl; by left| |].
  - unfold input_syn_sent. destruct (_ =? _).
    + rewrite send_ack_conn; [|apply upd_wf; [done|conn_wf_set|done]|done|done]. rewrite conn_upd_eq by done.
      split; [done|by right; right|done].
    + destruct (flag _ _); [|apply evolves_refl; by right; left]. rewrite conn_upd_eq by done. split; [done|by left|done].
  - match goal with |- evolves _ (conn (input_established ?a ?b ?c ?d ?e ?f) _) =>
      destruct (input_established_spec a b c d e f Hw Hi) as (_ & -> & _) end.
    apply recv_conn_evolves; [done|by apply conn_get_wf].
Qed.

(** Frames change the connections only as segments do, and the sockets not at all. *)
Definition received (st st' : stack) : Prop :=
  all_evolve (tp st) (tp st') /\ s_socks st' = s_socks st /\ s_used st' = s_used st.

Lemma received_refl st : tcp_wf (tp st) -> all_live (tp st) -> received st st.
Proof. intros. split; [by apply all_evolve_refl|done]. Qed.

Lemma received_trans s1 s2 s3 : received s1 s2 -> received s2 s3 -> received s1 s3.
Proof. intros (H1 & E1 & F1) (H2 & E2 & F2). split; [by eapply all_evolve_trans|]. split; congruence. Qed.

Lemma received_net st n : tcp_wf (tp st) -> all_live (tp st) -> received st (set_net n st).
Proof. intros Hw Hl. split; [|done]. by apply (all_evolve_refl (tp st)). Qed.

Lemma upcalls_same cs st st' : upcalls cs st = Some st' -> tp st' = tp st /\ s_socks st' = s_socks st /\ s_used st' = s_used st.
Proof.
  revert st. induction cs as [|c cs IH]; intros st H; cbn [upcalls] in H; [by simplify_eq|].
  unfold upcall in H. destruct (c_fn c =? DNS_CB); [|destruct (c_fn c =? DHCP_OFFER_CB); [|destruct (c_fn c =? DHCP_ACK_CB)]];
    simplify_option_eq; try (apply IH in H as (-> & -> & ->)); done.
Qed.

Lemma eth_recv_received f st st' : tcp_wf (tp st) -> all_live (tp st) -> eth_recv f st = Some st' -> received st st'.
Proof.
  intros Hw Hl H. unfold eth_recv in H. destruct (_ <? ETH_HLEN); [simplify_eq; by apply received_refl|].
  destruct (_ =? ETHERTYPE_ARP); [simplify_eq; by apply received_net|].
  destruct (_ =? ETHERTYPE_IPV4); [|simplify_eq; by apply received_refl].
  unfold ipv4_recv in H. destruct (_ <? sizeof_ip); [simplify_eq; by apply received_refl|].
  destruct (_ || _); [simplify_eq; by apply received_refl|]. cbv zeta in H.
  match type of H with context [set_net ?n st] => set (st1 := set_net n st) in H end.
  assert (received st st1) as H1 by by apply received_net.
  destruct (_ =? IP_PROTO_ICMP). { simplify_eq. exact H1. }
  destruct (_ =? IP_PROTO_UDP).
  { apply upcalls_same in H as (Et & Es & Eu). destruct H1 as (Ha & E1 & E2). unfold received. by rewrite Et, Es, Eu. }
  destruct (_ =? IP_PROTO_TCP); [|by simplify_eq]. simplify_eq. split; [|done].
  apply (tcp_input_evolve _ _ (tp st1)); done.
Qed.

Lemma poll_received st st' : tcp_wf (tp st) -> all_live (tp st) -> poll st = Some st' -> received st st'.
Proof.
  intros Hw Hl. unfold poll, nic_recv. destruct (rx st) as [|f rx'].
  - intros [= <-]. by apply received_refl.
  - destruct (_ =? 0); [intros [= <-]; by apply (received_refl st)|]. intros H. by apply (eth_recv_received _ (set_rx rx' st)) in H.
Qed.

Lemma connect_wait_received n i st st' : tcp_wf (tp st) -> all_live (tp st) ->
  connect_wait n i st = Some st' -> received st st'.
Proof.
  revert st. induction n as [|n IH]; intros st Hw Hl H; cbn [connect_wait] in H; [simplify_eq; by apply received_refl|].
  destruct (bool_decide _); [|simplify_eq; by apply received_refl].
  destruct (poll_once st) as [st1|] eqn:E; [|done]. cbn [mbind option_bind] in H.
  assert (received st st1) as H1.
  { unfold poll_once in E. destruct (nic_get _); [by apply poll_received|]. simplify_eq. by apply received_refl. }
  destruct H1 as (Ha & E1 & E2). pose proof Ha as [Hw1 _].
  eapply received_trans; [split; [exact Ha|done]|]. apply IH; [done|by eapply all_evolve_live|done].
Qed.

(** ** Sockets and connections *)

Definition sock_ok (k : Z) : Prop := 0 <= k < MAX_SOCKETS.

Lemma bad_sock_false k : bad_sock k = false <-> sock_ok k.
Proof. unfold bad_sock, sock_ok. rewrite orb_false_iff, Z.ltb_ge, Z.leb_gt. lia. Qed.

(** A socket holds a connection that is in use; no two hold the same. *)
Record socks_inv (st : stack) : Prop := {
  si_wf : tcp_wf (tp st);
  si_live : all_live (tp st);
  si_len : Z.of_nat (length (s_socks st)) = MAX_SOCKETS /\ Z.of_nat (length (s_used st)) = MAX_SOCKETS;
  si_in_use : forall k i, sock_ok k -> sock st k = Some i -> conn_ok i /\ in_use (conn (tp st) i) = true;
  si_unique : forall k k' i, sock_ok k -> sock_ok k' -> sock st k = Some i -> sock st k' = Some i -> k = k';
}.

(** Between operations no connection in use is half open. *)
Definition none_opening (st : stack) : Prop :=
  forall i, conn_ok i -> in_use (conn (tp st) i) = true -> state (conn (tp st) i) <> TCP_SYN_SENT.

Definition stack_inv (st : stack) : Prop := socks_inv st /\ none_opening st.

(** The invariant depends on the connections' flags and states, and on the sockets. *)
Lemma socks_inv_evolve st st' : socks_inv st -> all_evolve (tp st) (tp st') ->
  s_socks st' = s_socks st -> Z.of_nat (length (s_used st')) = MAX_SOCKETS -> socks_inv st'.
Proof.
  intros [Hw Hl [Hs Hu] Hin Hun] Ha Es Eu. split.
  - apply Ha.
  - by eapply all_evolve_live.
  - by rewrite Es.
  - intros k i Hk. unfold sock. rewrite Es. intros H. destruct (Hin k i Hk H) as [Hi Huse]. split; [done|].
    rewrite (ev_in_use _ _ (proj2 Ha i Hi)). done.
  - intros k k' i Hk Hk'. unfold sock. rewrite Es. by apply Hun.
Qed.

Lemma none_opening_evolve st st' : none_opening st -> all_evolve (tp st) (tp st') -> none_opening st'.
Proof.
  intros Hn Ha i Hi Huse. pose proof (proj2 Ha i Hi) as He. apply (ev_syn _ _ He).
  apply Hn; [done|]. by rewrite <- (ev_in_use _ _ He).
Qed.

Lemma stack_inv_received st st' : stack_inv st -> received st st' -> stack_inv st'.
Proof.
  intros [Hs Hn] (Ha & Es & Eu). split; [|by eapply none_opening_evolve].
  apply (socks_inv_evolve st); [done..|]. rewrite Eu. apply Hs.
Qed.

(** Clearing a socket's slot. *)
Lemma sock_clear st idx used' k : socks_inv st -> sock_ok idx -> sock_ok k ->
  sock (set_socks (aset (s_socks st) idx None) used' st) k = if bool_decide (idx = k) then None else sock st k.
Proof. intros [_ _ [Hl _] _ _] Hi Hk. unfold sock, sock_ok in *. simpl. apply aget_aset; lia. Qed.

Lemma socks_inv_clear st idx b : socks_inv st -> sock_ok idx ->
  socks_inv (set_socks (aset (s_socks st) idx None) (aset (s_used st) idx b) st).
Proof.
  intros Hinv Hi. pose proof Hinv as [Hw Hl [Hs Hu] Hin Hun]. split; [done|done|simpl; by rewrite !aset_length| |].
  - intros k i Hk. rewrite sock_clear by done. case_bool_decide; [done|by apply Hin].
  - intros k k' i Hk Hk'. rewrite !sock_clear by done. repeat case_bool_decide; try done. by apply Hun.
Qed.

(** Sending and receiving keep flags and states. *)
Lemma tcp_send_evolve i data t : tcp_wf t -> all_live t -> conn_ok i -> all_evolve t (snd (tcp_send (Some i) data t)).
Proof.
  intros Hw Hl Hi. unfold tcp_send. destruct (bool_decide _); [|by apply all_evolve_refl].
  destruct (send_chunks_conn (length data) i data t Hw Hi) as (Ho & v & Ev).
  apply (only_conn_evolve i); [done|done|]. rewrite Ev. split; [done|by apply Hl|done].
Qed.

Lemma tcp_recv_evolve i max t : tcp_wf t -> all_live t -> conn_ok i -> all_evolve t (snd (tcp_recv (Some i) max t)).
Proof.
  intros Hw Hl Hi. unfold tcp_recv. destruct (bool_decide _); [|by apply all_evolve_refl].
  pose proof (rxbuf_pop_spec (Z.to_nat max) (conn t i) (conn_get_wf t i Hw Hi)) as Hp.
  destruct (rxbuf_pop _ _) as [b c]. destruct Hp as (Hc & Hr & _). cbn [snd].
  apply (only_conn_evolve i); [done|by apply only_conn_upd|]. rewrite conn_upd_eq by done. rewrite Hr.
  split; [done|by apply (Hl i Hi)|done].
Qed.

Lemma alloc_conn_Some t i t' : tcp_wf t -> alloc_conn t = (Some i, t') ->
  conn_ok i /\ in_use (conn t i) = false /\ t' = upd i (set_in_use true) t.
Proof.
  intros [Hl _] H. unfold alloc_conn in H. destruct (find_slot _ _ 0) as [k|] eqn:E; [|done]. simplify_eq.
  apply (find_slot_Some _ conn_zero) in E as (Hi & Hu%negb_true_iff & _). split; [unfold conn_ok; lia|done].
Qed.

(** [tcp_connect] up to the wait: the slot is taken and half open, the others are as before. *)
Definition syn_sent (i dst dport : Z) (t : tcp) : tcp :=
  let t1 := snd (alloc_port (upd i (set_in_use true) t)) in
  snd (tcp_send_seg i TCP_FLAG_SYN [] (upd i (open_conn dst dport (s_next_port t)) t1)).

Lemma syn_sent_spec i dst dport t : tcp_wf t -> conn_ok i ->
  only_conn i t (syn_sent i dst dport t) /\
  conn (syn_sent i dst dport t) i =
    set_snd_seq (0x12345678 + 1) (open_conn dst dport (s_next_port t) (set_in_use true (conn t i))).
Proof.
  intros Hw Hi. unfold syn_sent.
  set (t1 := snd (alloc_port (upd i (set_in_use true) t))). set (t2 := upd i _ t1).
  assert (only_conn i t t1) as H1 by (apply (only_conn_upd i (set_in_use true) t); [done..|conn_wf_set]).
  assert (only_conn i t1 t2) as H2.
  { apply only_conn_upd; [apply H1|done|]. intros c [Hb _ _ _]. split; [done|by split..]. }
  split.
  - eapply only_conn_trans; [exact H1|]. eapply only_conn_trans; [exact H2|]. apply only_conn_seg; [apply H2|done|done].
  - rewrite tcp_send_seg_conn, bool_decide_true by (done || apply H2). unfold t2. rewrite conn_upd_eq by (done || apply H1).
    change (conn t1 i) with (conn (upd i (set_in_use true) t) i). by rewrite conn_upd_eq.
Qed.

(** What [tcp_connect] returns: a free slot that is now established and in use, or nothing and
    the slot free again. *)
Lemma tcp_connect_spec dst dport st r st' : socks_inv st -> none_opening st ->
  tcp_connect dst dport st = Some (r, st') ->
  stack_inv st' /\ s_socks st' = s_socks st /\
  match r with
  | Some i => conn_ok i /\ in_use (conn (tp st) i) = false /\ in_use (conn (tp st') i) = true /\
              state (conn (tp st') i) = TCP_ESTABLISHED
  | None => True
  end.
Proof.
  intros Hinv Hno H. pose proof Hinv as [Hw Hl Hlen Hin Hun]. unfold tcp_connect in H.
  destruct (alloc_conn (tp st)) as [[i|] t1] eqn:Ea; [|by simplify_eq].
  destruct (alloc_conn_Some _ _ _ Hw Ea) as (Hi & Hfree & ->).
  change (alloc_port ?t) with (s_next_port t, snd (alloc_port t)) in H. cbv iota beta zeta in H.
  change (s_next_port (upd i (set_in_use true) (tp st))) with (s_next_port (tp st)) in H.
  fold (syn_sent i dst dport (tp st)) in H.
  destruct (syn_sent_spec i dst dport (tp st) Hw Hi) as [[Hw2 Ho] Hci].
  set (t2 := syn_sent i dst dport (tp st)) in *. clearbody t2. clear Ea.
  assert (forall k i', sock_ok k -> sock st k = Some i' -> i' <> i) as Hnot.
  { intros k i' Hk Hs ->. destruct (Hin k i Hk Hs) as [_ Hu]. congruence. }
  assert (all_live t2) as Hl2.
  { intros j Hj. destruct (decide (j = i)) as [->|Hne]; [rewrite Hci; by right; left|]. rewrite Ho by done. by apply Hl. }
  assert (socks_inv (set_tp t2 st)) as Hinv2.
  { split; [done|done|done| |done]. intros k i' Hk Hs. destruct (Hin k i' Hk Hs) as [Hi' Hu']. split; [done|].
    change (tp (set_tp t2 st)) with t2. rewrite Ho by (done || by eapply Hnot). done. }
  destruct (connect_wait _ i (set_tp t2 st)) as [st3|] eqn:Ew; [|done]. cbn [mbind option_bind] in H.
  destruct (connect_wait_received _ i (set_tp t2 st) st3 Hw2 Hl2 Ew) as (Hev & Es & Eu). clear Ew.
  change (tp (set_tp t2 st)) with t2 in Hev. change (s_socks (set_tp t2 st)) with (s_socks st) in Es.
  assert (socks_inv st3) as Hinv3.
  { apply (socks_inv_evolve (set_tp t2 st)); [done..|]. rewrite Eu. apply Hlen. }
  assert (forall j, conn_ok j -> j <> i -> in_use (conn (tp st3) j) = true -> state (conn (tp st3) j) <> TCP_SYN_SENT) as Hno3.
  { intros j Hj Hne Hu. pose proof (proj2 Hev j Hj) as He. apply (ev_syn _ _ He). rewrite Ho by done.
    apply Hno; [done|]. rewrite <- (Ho j) by done. by rewrite <- (ev_in_use _ _ He). }
  destruct (bool_decide_reflect (state (conn (tp st3) i) = TCP_ESTABLISHED)) as [Hest|Hnest]; simplify_eq.
  - split; [|split; [done|]].
    + split; [done|]. intros j Hj Hu. destruct (decide (j = i)) as [->|]; [congruence|by apply Hno3].
    + split; [done|]. split; [done|]. split; [|done]. rewrite (ev_in_use _ _ (proj2 Hev i Hi)), Hci. done.
  - set (t4 := upd i (set_in_use false) (tp st3)).
    assert (only_conn i (tp st3) t4) as [Hw4 Ho4] by (apply only_conn_upd; [apply Hinv3|done|conn_wf_set]).
    assert (conn t4 i = set_in_use false (conn (tp st3) i)) as Hc4 by (apply conn_upd_eq; [apply Hinv3|done]).
    clearbody t4. split; [|done]. split.
    + split; [done| |apply Hinv3| |apply Hinv3].
      * intros j Hj. change (tp (set_tp t4 st3)) with t4. destruct (decide (j = i)) as [->|Hne].
        -- rewrite Hc4. by apply (si_live _ Hinv3 i Hi).
        -- rewrite Ho4 by done. by apply (si_live _ Hinv3).
      * intros k i' Hk Hs. destruct (si_in_use _ Hinv3 k i' Hk Hs) as [Hi' Hu']. split; [done|].
        change (tp (set_tp t4 st3)) with t4. rewrite Ho4; [done|done|].
        apply (Hnot k); [done|]. unfold sock in *. by rewrite <- Es.
    + intros j Hj. change (tp (set_tp t4 st3)) with t4. destruct (decide (j = i)) as [->|Hne]; [by rewrite Hc4|].
      rewrite Ho4 by done. by apply Hno3.
Qed.

(** The operations on sockets, and frames that arrive between them. *)
Inductive step : stack -> stack -> Prop :=
  | step_alloc st : step st (snd (sock_alloc st))
  | step_free st idx : step st (sock_free idx st)
  | step_connect st idx ip port r st' : sock_connect idx ip port st = Some (r, st') -> step st st'
  | step_send st idx buf : step st (snd (sock_send idx buf st))
  | step_recv st idx len : step st (snd (sock_recv idx len st))
  | step_close st idx : step st (sock_close idx st)
  | step_frame st f st' : eth_recv f st = Some st' -> step st st'
  | step_poll st st' : net_poll st = Some st' -> step st st'.

Lemma stack_inv_tp st t : stack_inv st -> all_evolve (tp st) t -> stack_inv (set_tp t st).
Proof. intros H Ha. apply (stack_inv_received st); [done|]. by split. Qed.

Lemma sock_close_inv idx st : stack_inv st -> stack_inv (sock_close idx st).
Proof.
  intros [Hinv Hno]. unfold sock_close. destruct (bad_sock idx) eqn:Hb; [by split|]. apply bad_sock_false in Hb.
  pose proof (socks_inv_clear st idx false Hinv Hb) as Hinv1. set (st1 := set_socks _ _ st) in *.
  destruct (sock st idx) as [i|] eqn:Es; cbn [tcp_close]; [|by split].
  destruct (si_in_use _ Hinv idx i Hb Es) as [Hi Hu].
  change (tp st1) with (tp st). set (t1 := if bool_decide _ then _ else tp st).
  assert (only_conn i (tp st) t1) as H1.
  { unfold t1. destruct (bool_decide _); [apply only_conn_seg; [apply Hinv|done|done]|apply only_conn_refl, Hinv]. }
  set (t2 := upd i _ t1).
  assert (only_conn i (tp st) t2) as [Hw2 Ho2].
  { eapply only_conn_trans; [exact H1|]. apply only_conn_upd; [apply H1|done|conn_wf_set]. }
  assert (state (conn t2 i) = TCP_CLOSED) as Hc2 by (unfold t2; by rewrite conn_upd_eq by (done || apply H1)).
  clearbody t2. split.
  - split; [done| |apply Hinv1| |apply Hinv1].
    + intros j Hj. change (tp (set_tp t2 st1)) with t2. destruct (decide (j = i)) as [->|]; [by left|].
      rewrite Ho2 by done. by apply Hinv.
    + intros k j Hk Hs. change (tp (set_tp t2 st1)) with t2. change (sock (set_tp t2 st1) k) with (sock st1 k) in Hs.
      destruct (si_in_use _ Hinv1 k j Hk Hs) as [Hj Huj]. split; [done|]. rewrite Ho2; [done|done|]. intros ->.
      unfold st1 in Hs. rewrite sock_clear in Hs by done. destruct (bool_decide_reflect (idx = k)); [done|].
      by apply n, (si_unique _ Hinv idx k i).
  - intros j Hj. change (tp (set_tp t2 st1)) with t2. destruct (decide (j = i)) as [->|]; [by rewrite Hc2|].
    rewrite Ho2 by done. by apply Hno.
Qed.

Lemma sock_connect_inv idx ip port st r st' : stack_inv st -> sock_connect idx ip port st = Some (r, st') -> stack_inv st'.
Proof.
  intros [Hinv Hno] H. unfold sock_connect in H. destruct (bad_sock idx) eqn:Hb; [by simplify_eq|].
  apply bad_sock_false in Hb. destruct (tcp_connect ip port st) as [[c st1]|] eqn:E; [|done]. cbn [mbind option_bind] in H.
  destruct (tcp_connect_spec ip port st c st1 Hinv Hno E) as ([Hinv1 Hno1] & Es & Hc).
  destruct c as [i|]; simplify_eq; [|by split]. destruct Hc as (Hi & Hfree & Hu & Hst).
  pose proof (si_len _ Hinv1) as [Hl1 _].
  assert (forall k, sock_ok k -> sock (set_socks (aset (s_socks st1) idx (Some i)) (s_used st1) st1) k =
            if bool_decide (idx = k) then Some i else sock st1 k) as Hg.
  { intros k Hk. unfold sock, sock_ok in *. simpl. apply aget_aset; lia. }
  assert (forall k, sock_ok k -> sock st1 k <> Some i) as Hnot.
  { intros k Hk Hs. unfold sock in Hs. rewrite Es in Hs. destruct (si_in_use _ Hinv k i Hk Hs) as [_ Hu']. congruence. }
  split; [|done]. split; [apply Hinv1|apply Hinv1|simpl; rewrite aset_length; apply Hinv1| |].
  - intros k j Hk. rewrite Hg by done. case_bool_decide; [intros [= <-]; done|by apply (si_in_use _ Hinv1)].
  - intros k k' j Hk Hk'. rewrite !Hg by done.
    destruct (bool_decide_reflect (idx = k)), (bool_decide_reflect (idx = k')); intros H1 H2; simplify_eq; try done.
    + by destruct (Hnot k').
    + by destruct (Hnot k).
    + by apply (si_unique _ Hinv1 k k' j).
Qed.

Lemma step_inv st st' : stack_inv st -> step st st' -> stack_inv st'.
Proof.
  intros Hinv H. pose proof Hinv as [Hs Hn]. destruct H as
    [st|st idx|st idx ip port r st' H|st idx buf|st idx len|st idx|st f st' H|st st' H].
  - unfold sock_alloc. destruct (find_slot _ _ 0) as [i|] eqn:E; [|done]. split; [|done]. apply socks_inv_clear; [done|].
    apply (find_slot_Some _ true) in E as (Hi & _). pose proof (si_len _ Hs). unfold sock_ok. lia.
  - unfold sock_free. destruct (bad_sock idx) eqn:E; [done|]. split; [|done]. by apply socks_inv_clear, bad_sock_false.
  - by eapply sock_connect_inv.
  - unfold sock_send. destruct (bad_sock idx) eqn:E; [done|]. apply bad_sock_false in E.
    destruct (sock st idx) as [i|] eqn:Es; [|done]. destruct (si_in_use _ Hs idx i E Es) as [Hi _].
    pose proof (tcp_send_evolve i (slice buf 0 (if 65535 <? blen buf then 65535 else blen buf)) (tp st)
                  (si_wf _ Hs) (si_live _ Hs) Hi) as He.
    cbv zeta. destruct (tcp_send _ _ _) as [[] t]; by apply stack_inv_tp.
  - unfold sock_recv. destruct (bad_sock idx) eqn:E; [done|]. apply bad_sock_false in E.
    destruct (sock st idx) as [i|] eqn:Es; [|done]. destruct (si_in_use _ Hs idx i E Es) as [Hi _].
    pose proof (tcp_recv_evolve i (if 65535 <? len then 65535 else len) (tp st) (si_wf _ Hs) (si_live _ Hs) Hi) as He.
    cbv zeta. destruct (tcp_recv _ _ _) as [b t]. destruct (_ && _); by apply stack_inv_tp.
  - by apply sock_close_inv.
  - apply (stack_inv_received st); [done|]. apply (eth_recv_received f); [apply Hs..|done].
  - unfold net_poll in H. destruct (nic_get _); [|by simplify_eq]. apply (stack_inv_received st); [done|].
    apply poll_received; [apply Hs..|done].
Qed.

(** C12: in every state that socket calls and arriving frames (of any content) can reach, every connection is
    closed, opening or established and its receive ring well formed; every connected socket holds a
    connection that is in use, no two sockets hold the same one, and no connection in use is left half open
    between calls. *)
Theorem socket_invariant st st' : stack_inv st -> rtc step st st' -> stack_inv st'.
Proof. intros Hi H. induction H as [|st st1 st' H _ IH]; [done|]. by apply IH, (step_inv st). Qed.

(** ** The handshake *)

Lemma poll_empty st rx' : rx st = [] :: rx' -> poll st = Some (set_rx rx' st).
Proof. intros E. unfold poll, nic_recv. by rewrite E. Qed.

(** Polls that find no frame pass. *)
Lemma connect_wait_idle k n i st rx' c : nic_get (net_of st) = Some c -> state (conn (tp st) i) = TCP_SYN_SENT ->
  rx st = replicate k [] ++ rx' -> connect_wait (k + n) i st = connect_wait n i (set_rx rx' st).
Proof.
  revert st. induction k as [|k IH]; intros st Hn Hs Hr; cbn [replicate app Nat.add] in *.
  { f_equal. by destruct st; simpl in *; subst. }
  cbn [connect_wait]. rewrite bool_decide_true by done. unfold poll_once. rewrite Hn. erewrite poll_empty by done.
  cbn [mbind option_bind]. by rewrite (IH (set_rx (replicate k [] ++ rx') st)).
Qed.

(** What traffic does not change: the NIC, the configuration and the handlers. *)
Record same_cfg (n n' : net) : Prop := {
  sc_nic : s_nic n' = s_nic n;
  sc_ip : s_ip n' = s_ip n;
  sc_mask : s_netmask n' = s_netmask n;
  sc_gw : Net.s_gateway n' = Net.s_gateway n;
  sc_dns : Net.s_dns n' = Net.s_dns n;
  sc_binds : s_binds n' = s_binds n;
}.

Lemma same_cfg_refl n : same_cfg n n.
Proof. by split. Qed.

Lemma same_cfg_trans n1 n2 n3 : same_cfg n1 n2 -> same_cfg n2 n3 -> same_cfg n1 n3.
Proof. intros [] []. split; congruence. Qed.

Lemma eth_send_cfg dst type p n : same_cfg n (snd (eth_send dst type p n)).
Proof. unfold eth_send. destruct (nic_get n); [|by split]. by destruct (_ <? _). Qed.

Lemma ipv4_send_cfg dst proto p n : same_cfg n (snd (ipv4_send dst proto p n)).
Proof.
  unfold ipv4_send. destruct (_ <? _); [by split|]. cbv zeta. set (n1 := set_id _ n).
  assert (same_cfg n n1) as H1 by by split. eapply same_cfg_trans; [exact H1|]. clearbody n1.
  destruct (_ || _); [apply eth_send_cfg|].
  unfold arp_lookup. destruct (find_entry _ _); [apply eth_send_cfg|]. destruct (nic_get n1); [apply eth_send_cfg|by split].
Qed.

Lemma udp_send_cfg dst sport dport data n : same_cfg n (snd (udp_send dst sport dport data n)).
Proof. unfold udp_send. destruct (_ <? _); [by split|]. apply ipv4_send_cfg. Qed.

Lemma tcp_send_seg_cfg i flags data t : same_cfg (nt t) (nt (snd (tcp_send_seg i flags data t))).
Proof.
  unfold tcp_send_seg. destruct (_ <? _); [by split|]. cbv zeta.
  match goal with |- context [ipv4_send ?a ?b ?c ?d] => pose proof (ipv4_send_cfg a b c d) as H end.
  destruct (ipv4_send _ _ _ _) as [ok n]. exact H.
Qed.

Lemma find_conn_syn_sent i dst dport t : tcp_wf t -> conn_ok i -> find_conn dst dport (s_next_port t) t = None ->
  find_conn dst dport (s_next_port t) (syn_sent i dst dport t) = Some i.
Proof.
  intros Hw Hi Hnone. destruct (syn_sent_spec i dst dport t Hw Hi) as [[Hw' Ho] Hc]. pose proof Hw as [Hl _].
  pose proof Hw' as [Hl' _]. unfold conn_ok in *. apply (find_slot_Some_intro _ conn_zero); [lia| |].
  - fold (conn (syn_sent i dst dport t) i). rewrite Hc. cbn [in_use dst_ip c_dport c_sport set_snd_seq open_conn set_in_use].
    by rewrite !Z.eqb_refl.
  - intros j Hj. fold (conn (syn_sent i dst dport t) j). rewrite Ho by lia.
    apply find_slot_None_iff in Hnone. apply (Forall_aget _ conn_zero _ j) in Hnone; [exact Hnone|lia].
Qed.

Section handshake.
Context (dmac smac : list Z) (id dst our : Z) (p : tcp_conn) (pad : list Z).
Context (Hdm : mac_ok dmac) (Hsm : mac_ok smac) (Hdst : is_u32 dst) (Hour : is_u32 our) (Hid : is_u16 id).
Context (Hp : peer_ok p) (Hpad : blen pad <= 1460).

(** The peer's SYN-ACK, as it arrives. *)
Definition syn_ack : list Z :=
  frame_of dmac smac ETHERTYPE_IPV4
    (ip_datagram id IP_PROTO_TCP dst our (segment dst (Z.lor TCP_FLAG_SYN TCP_FLAG_ACK) [] p)) ++ pad.

Lemma syn_ack_polled st rx' : rx st = syn_ack :: rx' -> poll st = eth_recv syn_ack (set_rx rx' st).
Proof using Hdm Hpad Hsm.
  intros E. unfold poll, nic_recv. rewrite E. pose proof (blen_nonneg pad).
  assert (54 <= blen syn_ack <= 1514) as Hf.
  { unfold syn_ack. rewrite blen_app. unfold frame_of. rewrite !blen_app, blen_ip_datagram, blen_segment.
    destruct Hdm as [-> _], Hsm as [-> _]. change (blen [ETHERTYPE_IPV4 / 256; ETHERTYPE_IPV4 mod 256]) with 2.
    change (blen []) with 0. lia. }
  assert (slice syn_ack 0 1536 = syn_ack) as ->.
  { unfold slice. rewrite drop_0. apply take_ge. unfold blen in Hf. lia. }
  by rewrite (proj2 (Z.eqb_neq (blen syn_ack) 0)) by lia.
Qed.

(** It completes the handshake of the connection it is for. *)
Lemma syn_ack_received st i : tcp_wf (tp st) -> find_conn dst (c_sport p) (c_dport p) (tp st) = Some i ->
  state (conn (tp st) i) = TCP_SYN_SENT ->
  exists st', eth_recv syn_ack st = Some st' /\ rx st' = rx st /\
    conn (tp st') i =
      set_state TCP_ESTABLISHED (set_snd_una (rcv_nxt p) (set_rcv_nxt (u32 (snd_seq p + 1)) (conn (tp st) i))) /\
    forall j, conn_ok j -> j <> i -> conn (tp st') j = conn (tp st) j.
Proof using Hdm Hdst Hid Hour Hp Hpad Hsm.
  intros Hw Hf Hs. destruct (find_conn_Some _ _ _ _ _ Hw Hf) as (Hi & _). unfold syn_ack.
  rewrite eth_recv_datagram; [|done|done|done|done|done|done|rewrite blen_segment; change (blen []) with 0; lia].
  unfold ip_arrival. change (IP_PROTO_TCP =? IP_PROTO_ICMP) with false. change (IP_PROTO_TCP =? IP_PROTO_UDP) with false.
  change (IP_PROTO_TCP =? IP_PROTO_TCP) with true. cbv iota zeta.
  set (st1 := set_net _ _). assert (tcp_wf (tp st1)) as Hw1 by exact Hw.
  rewrite tcp_input_segment by (done || (change (blen []) with 0; lia)).
  change (find_conn dst (c_sport p) (c_dport p) (tp st1)) with (find_conn dst (c_sport p) (c_dport p) (tp st)).
  rewrite Hf. change (conn (tp st1) i) with (conn (tp st) i). rewrite Hs. unfold input_syn_sent.
  change (Z.land (Z.lor TCP_FLAG_SYN TCP_FLAG_ACK) (Z.lor TCP_FLAG_SYN TCP_FLAG_ACK) =? Z.lor TCP_FLAG_SYN TCP_FLAG_ACK) with true.
  change (flag (Z.lor TCP_FLAG_SYN TCP_FLAG_ACK) TCP_FLAG_ACK) with true. cbv iota zeta.
  set (t3 := upd i _ (tp st1)).
  assert (only_conn i (tp st1) t3) as H3 by (apply only_conn_upd; [done|done|conn_wf_set]).
  pose proof (only_conn_ack i t3 (proj1 H3) Hi) as H4.
  eexists. split; [reflexivity|]. split; [reflexivity|]. change (tp (set_tp ?t st1)) with t. split.
  - rewrite send_ack_conn by (done || apply H3). unfold t3. by rewrite conn_upd_eq.
  - intros j Hj Hne. by rewrite (proj2 H4), (proj2 H3).
Qed.

(** The handshake. When a slot is free and, after fewer than 300000 polls that find nothing, the peer's
    SYN-ACK arrives (with the padding of its frame), [tcp_connect] returns that slot: the connection is
    established and empty, expects the byte after the peer's SYN, and has sent one sequence number. The
    other connections are as before. *)
Theorem tcp_connect_established st c i t1 k rest :
  tcp_wf (tp st) -> nic_get (net_of st) = Some c -> alloc_conn (tp st) = (Some i, t1) ->
  c_dport p = s_next_port (tp st) -> find_conn dst (c_sport p) (c_dport p) (tp st) = None ->
  (k < Z.to_nat 300000)%nat -> rx st = replicate k [] ++ syn_ack :: rest ->
  exists st', tcp_connect dst (c_sport p) st = Some (Some i, st') /\ rx st' = rest /\
    (let c := conn (tp st') i in
     in_use c = true /\ state c = TCP_ESTABLISHED /\ rcv_nxt c = u32 (snd_seq p + 1) /\ snd_una c = rcv_nxt p /\
     snd_seq c = 0x12345679 /\ contents c = [] /\ dst_ip c = dst /\ c_dport c = c_sport p) /\
    forall j, conn_ok j -> j <> i -> conn (tp st') j = conn (tp st) j.
Proof using Hdm Hdst Hid Hour Hp Hpad Hsm.
  intros Hw Hnic Ha Hdp Hnone Hk Hrx.
  destruct (alloc_conn_Some _ _ _ Hw Ha) as (Hi & Hfree & ->). unfold tcp_connect. rewrite Ha.
  change (alloc_port ?t) with (s_next_port t, snd (alloc_port t)). cbv iota beta zeta.
  change (s_next_port (upd i (set_in_use true) (tp st))) with (s_next_port (tp st)).
  fold (syn_sent i dst (c_sport p) (tp st)). rewrite Hdp in Hnone.
  destruct (syn_sent_spec i dst (c_sport p) (tp st) Hw Hi) as [[Hw2 Ho] Hci].
  pose proof (find_conn_syn_sent i dst (c_sport p) (tp st) Hw Hi Hnone) as Hfc. rewrite <- Hdp in Hfc.
  assert (nic_get (nt (syn_sent i dst (c_sport p) (tp st))) = Some c) as Hnic2.
  { unfold nic_get, syn_sent. rewrite (sc_nic _ _ (tcp_send_seg_cfg _ _ _ _)). exact Hnic. }
  set (t2 := syn_sent i dst (c_sport p) (tp st)) in *. clearbody t2.
  assert (state (conn t2 i) = TCP_SYN_SENT) as Hs2 by by rewrite Hci.
  replace (Z.to_nat 300000) with (k + S (Z.to_nat 300000 - S k))%nat by lia.
  generalize (Z.to_nat 300000 - S k)%nat. intros n.
  rewrite (connect_wait_idle k (S n) i (set_tp t2 st) (syn_ack :: rest) c Hnic2 Hs2 Hrx).
  destruct (syn_ack_received (set_rx rest (set_tp t2 st)) i Hw2 Hfc Hs2) as (st' & He & Hrx' & Hc' & Ho').
  cbn [connect_wait]. rewrite (bool_decide_true _ Hs2).
  unfold poll_once. change (net_of (set_rx _ (set_tp t2 st))) with (nt t2). rewrite Hnic2.
  rewrite (syn_ack_polled _ rest) by done. change (set_rx rest (set_rx _ (set_tp t2 st))) with (set_rx rest (set_tp t2 st)).
  rewrite He. cbn [mbind option_bind].
  change (conn (tp (set_rx rest (set_tp t2 st)))) with (conn t2) in *.
  assert (connect_wait n i st' = Some st') as ->.
  { destruct n; cbn [connect_wait]; [done|]. rewrite bool_decide_false; [done|]. by rewrite Hc'. }
  cbn [mbind option_bind]. rewrite bool_decide_true by by rewrite Hc'.
  exists st'. split; [done|]. split; [done|]. split; [rewrite Hc', Hci; done|].
  intros j Hj Hne. rewrite Ho' by done. by apply Ho.
Qed.
End handshake.

(** ** Leasing an address *)

Lemma bound_bind port fn ctx n : existsb (fun b => negb (b_used b)) (s_binds n) = true -> bound port n = [] ->
  bound port (udp_bind port fn ctx n) = [mk_bind port fn ctx true].
Proof.
  unfold bound, udp_bind. intros He Hb. destruct (find_slot _ (s_binds n) 0) as [i|] eqn:E.
  2: { apply find_slot_None_iff in E. apply existsb_exists in He as (b & Hb' & Hu).
       rewrite Forall_forall in E. specialize (E b (proj2 (list_elem_of_In _ _) Hb')). cbv beta in E. congruence. }
  simpl. apply (find_slot_Some _ (mk_bind 0 0 0 false)) in E as (Hi & Hu%negb_true_iff & _).
  assert (Z.to_nat i < length (s_binds n))%nat as Hi' by lia. revert Hi' Hu Hb. unfold aget, aset.
  generalize (Z.to_nat i), (s_binds n). clear. intros i l. revert i.
  induction l as [|b l IH]; intros i Hi Hu Hb; [simpl in Hi; lia|].
  destruct i as [|i].
  - simpl in *. rewrite Hu in Hb. simpl in Hb. rewrite Z.eqb_refl. by rewrite Hb.
  - simpl in *. destruct (b_used b && (b_port b =? port)); [done|]. apply IH; [lia|done|done].
Qed.

Lemma bound_unbind port n : bound port (udp_unbind port n) = [].
Proof.
  unfold bound, udp_unbind. simpl. induction (s_binds n) as [|b l IH]; [done|]. simpl.
  destruct (b_used b && (b_port b =? port)) eqn:E; simpl; [done|]. by rewrite E.
Qed.

Lemma bind_unbind_free port fn ctx n : existsb (fun b => negb (b_used b)) (s_binds n) = true ->
  bound port n = [] -> existsb (fun b => negb (b_used b)) (s_binds (udp_unbind port (udp_bind port fn ctx n))) = true.
Proof.
  intros He Hb. pose proof (bound_bind port fn ctx n He Hb) as H.
  assert (In (mk_bind port fn ctx true) (s_binds (udp_bind port fn ctx n))) as Hin.
  { assert (In (mk_bind port fn ctx true) (bound port (udp_bind port fn ctx n))) as Hin by (rewrite H; by left).
    unfold bound in Hin. apply List.filter_In in Hin. apply Hin. }
  apply existsb_exists. exists (mk_bind port fn ctx false). split; [|done]. unfold udp_unbind. simpl.
  apply in_map_iff. exists (mk_bind port fn ctx true). split; [|done]. simpl. by rewrite Z.eqb_refl.
Qed.

Lemma poll_until_idle k n done st rx' c : nic_get (net_of st) = Some c -> done (dhcp st) = false ->
  rx st = replicate k [] ++ rx' -> poll_until (k + n) done st = poll_until n done (set_rx rx' st).
Proof.
  revert st. induction k as [|k IH]; intros st Hn Hs Hr; cbn [replicate app Nat.add] in *.
  { f_equal. by destruct st; simpl in *; subst. }
  cbn [poll_until]. rewrite Hs, Hn. erewrite poll_empty by done. cbn [mbind option_bind].
  by rewrite (IH (set_rx (replicate k [] ++ rx') st)).
Qed.

(** A DHCP message from the server, as it arrives. *)
Definition dhcp_frame (dmac smac : list Z) (id srv dst : Z) (data pad : list Z) : list Z :=
  frame_of dmac smac ETHERTYPE_IPV4 (ip_datagram id IP_PROTO_UDP srv dst
    (udp_packet srv dst Dhcp.DHCP_PORT_SERVER Dhcp.DHCP_PORT_CLIENT data)) ++ pad.

Record dhcp_arrives (xid : Z) (f fixed : list Z) (xs : list Dhcp.item) : Prop := {
  da_frame : exists dmac smac id srv dst rest, f = dhcp_frame dmac smac id srv dst (Dhcp.message fixed xs rest) [] /\
    mac_ok dmac /\ mac_ok smac /\ is_u16 id /\ is_u32 srv /\ is_u32 dst /\ bytes (Dhcp.message fixed xs rest) /\
    blen (Dhcp.message fixed xs rest) <= 1464 /\ Dhcp.message_ok xid fixed xs rest;
}.

(** The callback that is bound to the client's port runs on it. *)
Lemma dhcp_frame_received cb expected xid f fixed xs st : dhcp_arrives xid f fixed xs ->
  Dhcp.s_xid (dhcp st) = xid -> bound Dhcp.DHCP_PORT_CLIENT (net_of st) = [mk_bind Dhcp.DHCP_PORT_CLIENT cb 0 true] ->
  (cb = DHCP_OFFER_CB /\ expected = Dhcp.DHCP_OFFER) \/ (cb = DHCP_ACK_CB /\ expected = Dhcp.DHCP_ACK) ->
  exists n', same_cfg (net_of st) n' /\
  eth_recv f st = Some (set_dhcp_st (Dhcp.after expected fixed
    (foldl Dhcp.apply_item (Dhcp.mk_opts 0 0 0 0 (Dhcp.s_server_ip (dhcp st))) xs) (dhcp st)) (set_net n' st)).
Proof.
  intros [(dmac & smac & id & srv & dst & rest & -> & Hdm & Hsm & Hid & Hsrv & Hdst & Hb & Hl & Hm)] Hx Hbd Hcb.
  unfold dhcp_frame. rewrite eth_recv_datagram; [|done|done|done|done|done|done|rewrite blen_udp_packet; change (blen []) with 0; lia].
  unfold ip_arrival. change (IP_PROTO_UDP =? IP_PROTO_ICMP) with false. change (IP_PROTO_UDP =? IP_PROTO_UDP) with true.
  cbv iota zeta. rewrite udp_recv_packet by done.
  change (net_of (set_net ?n st)) with n. exists (arp_insert srv smac (net_of st)). split; [by split|].
  change (bound Dhcp.DHCP_PORT_CLIENT (arp_insert srv smac (net_of st))) with (bound Dhcp.DHCP_PORT_CLIENT (net_of st)).
  rewrite Hbd. cbn [map upcalls b_fn b_ctx]. unfold upcall. cbn [c_fn c_data].
  change (dhcp (set_net ?n st)) with (dhcp st). rewrite <- Hx in Hm.
  destruct Hcb as [[-> ->]|[-> ->]]; unfold Dhcp.dhcp_recv_offer, Dhcp.dhcp_recv_ack;
    [change (DHCP_OFFER_CB =? DNS_CB) with false; change (DHCP_OFFER_CB =? DHCP_OFFER_CB) with true|
     change (DHCP_ACK_CB =? DNS_CB) with false; change (DHCP_ACK_CB =? DHCP_OFFER_CB) with false;
     change (DHCP_ACK_CB =? DHCP_ACK_CB) with true]; cbv iota;
    rewrite (Dhcp.dhcp_recv_message _ _ _ _ _ Hm); done.
Qed.

Lemma dhcp_frame_len xid f fixed xs : dhcp_arrives xid f fixed xs -> 0 < blen f <= 1536.
Proof.
  intros [(dmac & smac & id & srv & dst & rest & -> & [Hdm _] & [Hsm _] & _ & _ & _ & _ & Hl & _)].
  unfold dhcp_frame, frame_of. rewrite !blen_app, blen_ip_datagram, blen_udp_packet, Hdm, Hsm.
  change (blen [ETHERTYPE_IPV4 / 256; ETHERTYPE_IPV4 mod 256]) with 2. change (blen []) with 0.
  pose proof (blen_nonneg (Dhcp.message fixed xs rest)). lia.
Qed.

(** One exchange: the reply arrives within the polls allowed, and is what the callback makes of it. *)
Lemma exchange_reply cb expected msg done st c k f fixed xs rest :
  nic_get (net_of st) = Some c -> existsb (fun b => negb (b_used b)) (s_binds (net_of st)) = true ->
  bound Dhcp.DHCP_PORT_CLIENT (net_of st) = [] -> done (dhcp st) = false ->
  (cb = DHCP_OFFER_CB /\ expected = Dhcp.DHCP_OFFER) \/ (cb = DHCP_ACK_CB /\ expected = Dhcp.DHCP_ACK) ->
  (k < Z.to_nat 400000)%nat -> rx st = replicate k [] ++ f :: rest ->
  dhcp_arrives (Dhcp.s_xid (dhcp st)) f fixed xs ->
  let d' := Dhcp.after expected fixed (foldl Dhcp.apply_item (Dhcp.mk_opts 0 0 0 0 (Dhcp.s_server_ip (dhcp st))) xs) (dhcp st) in
  done d' = true ->
  exists st', exchange cb msg done st = Some st' /\ dhcp st' = d' /\ rx st' = rest /\
    nic_get (net_of st') = Some c /\ bound Dhcp.DHCP_PORT_CLIENT (net_of st') = [] /\
    existsb (fun b => negb (b_used b)) (s_binds (net_of st')) = true.
Proof.
  intros Hn He Hb Hd Hcb Hk Hrx Hf d' Hd'. unfold exchange. cbv zeta.
  set (n0 := udp_bind _ cb 0 (net_of st)).
  assert (nic_get n0 = Some c) as Hn0 by (unfold n0, udp_bind; by destruct (find_slot _ _ 0)).
  pose proof (bound_bind Dhcp.DHCP_PORT_CLIENT cb 0 _ He Hb) as Hb0. fold n0 in Hb0.
  pose proof (bind_unbind_free Dhcp.DHCP_PORT_CLIENT cb 0 _ He Hb) as He0. fold n0 in He0. clearbody n0.
  match goal with |- context [udp_send ?a ?b ?x ?y ?n] => pose proof (udp_send_cfg a b x y n) as Hs;
    generalize dependent (snd (udp_send a b x y n)) end. intros n1 Hs.
  change (net_of (set_net ?n (set_net n0 st))) with n in Hs.
  set (st1 := set_net n1 _).
  assert (nic_get (net_of st1) = Some c) as Hn1 by (unfold nic_get; change (net_of st1) with n1; rewrite (sc_nic _ _ Hs); exact Hn0).
  assert (s_binds n1 = s_binds n0) as Eb by exact (sc_binds _ _ Hs).
  replace (Z.to_nat 400000) with (k + S (Z.to_nat 400000 - S k))%nat by lia.
  generalize (Z.to_nat 400000 - S k)%nat. intros m.
  rewrite (poll_until_idle k (S m) done st1 (f :: rest) c Hn1 Hd Hrx).
  cbn [poll_until]. change (dhcp (set_rx _ st1)) with (dhcp st). rewrite Hd.
  change (net_of (set_rx _ st1)) with (net_of st1). rewrite Hn1.
  unfold poll, nic_recv. cbn [rx set_rx]. pose proof (dhcp_frame_len _ _ _ _ Hf) as Hlen.
  assert (slice f 0 1536 = f) as -> by (unfold slice; rewrite drop_0; apply take_ge; unfold blen in Hlen; lia).
  rewrite (proj2 (Z.eqb_neq (blen f) 0)) by lia. change (set_rx rest (set_rx _ st1)) with (set_rx rest st1).
  destruct (dhcp_frame_received cb expected _ f fixed xs (set_rx rest st1) Hf eq_refl) as (n2 & Hs2 & ->).
  { change (net_of (set_rx rest st1)) with n1. unfold bound in *. rewrite Eb. exact Hb0. }
  { exact Hcb. }
  cbn [mbind option_bind]. fold d'. set (st2 := set_dhcp_st _ _).
  assert (poll_until m done st2 = Some st2) as -> by (destruct m; cbn [poll_until]; [|change (dhcp st2) with d'; rewrite Hd']; reflexivity).
  cbn [mbind option_bind]. eexists. split; [reflexivity|]. split; [reflexivity|]. split; [reflexivity|].
  assert (s_binds n2 = s_binds n0) as Eb2 by (rewrite <- Eb; exact (sc_binds _ _ Hs2)).
  split; [unfold nic_get; change (net_of (set_net ?x st2)) with x; change (s_nic (udp_unbind _ ?x)) with (s_nic x);
          change (net_of st2) with n2; rewrite (sc_nic _ _ Hs2); exact Hn1|].
  split; [apply bound_unbind|]. change (net_of (set_net ?x st2)) with x. change (net_of st2) with n2.
  unfold udp_unbind in *. simpl in *. rewrite Eb2. exact He0.
Qed.

(** C13: a lease from end to end. With a NIC, a free UDP slot and nothing bound to port 68, when a server's OFFER and
    then its ACK (each in one frame, with any well-formed options that include the message type, after fewer than 400000 polls
    that find nothing) arrive, [dhcp_discover] returns true; the host's address is the one in the ACK, and its mask,
    gateway and name server are those of the ACK, or of the OFFER where the ACK has none; the client's port is
    unbound. The replies are taken to be padded to at least the 548 bytes of [dhcp_msg_t]: the client drops every
    shorter one ([short_reply_is_dropped]), and a server that sends the 300 bytes BOOTP asks for gets no answer. *)
Theorem dhcp_lease st c k1 k2 f1 f2 fixed1 fixed2 xs1 xs2 rest :
  nic_get (net_of st) = Some c -> existsb (fun b => negb (b_used b)) (s_binds (net_of st)) = true ->
  bound Dhcp.DHCP_PORT_CLIENT (net_of st) = [] ->
  (k1 < Z.to_nat 400000)%nat -> (k2 < Z.to_nat 400000)%nat ->
  rx st = replicate k1 [] ++ f1 :: replicate k2 [] ++ f2 :: rest ->
  dhcp_arrives 0xdeadbe01 f1 fixed1 xs1 -> dhcp_arrives 0xdeadbe01 f2 fixed2 xs2 ->
  let o1 := foldl Dhcp.apply_item (Dhcp.mk_opts 0 0 0 0 (Dhcp.s_server_ip (dhcp st))) xs1 in
  let o2 := foldl Dhcp.apply_item (Dhcp.mk_opts 0 0 0 0 (Dhcp.server o1)) xs2 in
  Dhcp.msg_type o1 = Dhcp.DHCP_OFFER -> Dhcp.msg_type o2 = Dhcp.DHCP_ACK ->
  exists st', dhcp_discover st = Some (true, st') /\ rx st' = rest /\
    s_ip (net_of st') = rd32 fixed2 16 /\
    s_netmask (net_of st') = (if Dhcp.subnet o2 =? 0 then Dhcp.subnet o1 else Dhcp.subnet o2) /\
    Net.s_gateway (net_of st') = (if Dhcp.router o2 =? 0 then Dhcp.router o1 else Dhcp.router o2) /\
    Net.s_dns (net_of st') = (if Dhcp.dns o2 =? 0 then Dhcp.dns o1 else Dhcp.dns o2) /\
    bound Dhcp.DHCP_PORT_CLIENT (net_of st') = [].
Proof.
  intros Hn He Hb Hk1 Hk2 Hrx Hf1 Hf2 o1 o2 Ht1 Ht2. unfold dhcp_discover. rewrite Hn. cbv zeta.
  set (st0 := set_dhcp_st _ st).
  match goal with |- context [exchange DHCP_OFFER_CB ?g _ st0] =>
    destruct (exchange_reply DHCP_OFFER_CB Dhcp.DHCP_OFFER g Dhcp.s_got_offer st0 c k1 f1 fixed1 xs1 (replicate k2 [] ++ f2 :: rest))
      as (st1 & -> & Hd1 & Hrx1 & Hn1 & Hb1 & He1) end; try done; [by left| |].
  { change (Dhcp.s_server_ip (dhcp st0)) with (Dhcp.s_server_ip (dhcp st)). fold o1. unfold Dhcp.after. by rewrite Ht1. }
  change (Dhcp.s_server_ip (dhcp st0)) with (Dhcp.s_server_ip (dhcp st)) in Hd1. fold o1 in Hd1.
  unfold Dhcp.after in Hd1. rewrite Ht1 in Hd1. simpl in Hd1. cbn [mbind option_bind]. rewrite Hd1. cbn [Dhcp.s_got_offer negb].
  match goal with |- context [exchange DHCP_ACK_CB ?g _ st1] =>
    destruct (exchange_reply DHCP_ACK_CB Dhcp.DHCP_ACK g Dhcp.s_got_ack st1 c k2 f2 fixed2 xs2 rest)
      as (st2 & -> & Hd2 & Hrx2 & Hn2 & Hb2 & He2) end; try done; try (by rewrite Hd1); [by right| |].
  { rewrite Hd1. cbn [Dhcp.s_server_ip]. fold o2. unfold Dhcp.after. by rewrite Ht2. }
  rewrite Hd1 in Hd2. cbn [Dhcp.s_server_ip] in Hd2. fold o2 in Hd2. unfold Dhcp.after in Hd2. rewrite Ht2 in Hd2.
  simpl in Hd2. cbn [mbind option_bind]. rewrite Hd2. cbn [Dhcp.s_got_ack negb]. eexists. split; [reflexivity|].
  split; [done|]. do 4 (split; [reflexivity|]). exact Hb2.
Qed.

(** ** Two hosts *)

Definition no_conns : list tcp_conn := replicate 4 conn_zero.
Definition boot (n : net) (conns : list tcp_conn) (frames : list (list Z)) : stack :=
  mk_stack (mk_tcpst n conns 49152) (Dns.mk_dns_state false 0 0) Dhcp.idle frames (replicate 8 None) (replicate 8 false).

Lemma no_conns_wf n p : tcp_wf (mk_tcpst n no_conns p).
Proof. split; [done|]. apply Forall_replicate. apply conn_wf_check. by vm_compute. Qed.

Definition stack_b : stack := boot host_b no_conns [].

Lemma udp_delivery_witness : exists a' f,
  udp_send IP_B 5000 9000 hello host_a = (true, a') /\ sent a' = [f] /\
  eth_recv f stack_b =
    upcalls [mk_call 7 IP_A 5000 hello 0] (set_net (arp_insert IP_A MAC_A host_b) stack_b).
Proof.
  destruct (udp_delivery host_a (mk_nic MAC_A true) MAC_B IP_B 5000 9000 hello stack_b host_a_wf eq_refl eq_refl eq_refl
              ltac:(done) ltac:(done) ltac:(done) ltac:(by apply bytes_check) ltac:(done)) as (a' & f & H1 & H2 & _ & H3).
  exists a', f. exact (conj H1 (conj H2 H3)).
Defined.

Definition ping : list Z := [8; 0; 0; 0; 0; 1; 0; 1; 0x61; 0x62].

Lemma mac_a_ok : mac_ok MAC_A. Proof. split; [done|by apply bytes_check]. Qed.
Lemma mac_b_ok : mac_ok MAC_B. Proof. split; [done|by apply bytes_check]. Qed.

Lemma ping_answered_witness : exists st' reply,
  eth_recv (frame_of MAC_B MAC_A ETHERTYPE_IPV4 (ip_datagram 9 IP_PROTO_ICMP IP_A IP_B ping) ++ zeros 16) stack_b = Some st' /\
  ip_checksum reply = 0.
Proof.
  destruct (ping_answered stack_b (mk_nic MAC_B true) MAC_B MAC_A 9 IP_A ping (zeros 16) host_b_wf eq_refl mac_b_ok mac_a_ok
    ltac:(done) ltac:(done) ltac:(done) ltac:(done) (or_introl eq_refl) ltac:(by apply bytes_check) ltac:(apply zeros_bytes)
    ltac:(done) ltac:(done) eq_refl eq_refl) as (st' & reply & csum & pad' & H1 & _ & _ & H2 & _).
  exists st', reply. exact (conj H1 H2).
Defined.

(** Host B's end of the connection of [client]. *)
Definition server : stack := boot host_b [server_end; conn_zero; conn_zero; conn_zero] [].

Lemma server_receiving : receiving (conn client 0) IP_A 1000 0 server.
Proof.
  split; [|by vm_compute..]. split; [done|].
  repeat (apply Forall_cons_2; [by apply conn_wf_check; vm_compute|]). apply Forall_nil_2.
Qed.

Lemma server_room : used (conn (tp server) 0) + blen hello <= TCP_RXBUF - 1.
Proof. by vm_compute. Qed.

Lemma client_peer_ok : peer_ok (conn client 0).
Proof. by split. Qed.

Lemma transfer_ranges : is_u32 (s_ip (nt client)) /\ is_u32 (dst_ip (conn client 0)) /\
  (blen hello mod 1460 = 0 \/ 6 <= blen hello mod 1460) /\ bytes hello.
Proof. split; [done|]. split; [by vm_compute|]. split; [right; by vm_compute|by apply bytes_check]. Qed.

Lemma tcp_transfer_witness : exists t' fs st', tcp_send (Some 0) hello client = (true, t') /\ sent (nt t') = fs /\
  eth_recv_all fs server = Some st' /\ contents (conn (tp st') 0) = contents (conn (tp server) 0) ++ hello.
Proof.
  destruct transfer_ranges as (H1 & H2 & H3 & H4).
  destruct (tcp_transfer (mk_nic MAC_A true) MAC_B 0 client 0 server hello ltac:(done) eq_refl client_ready eq_refl H4 mac_b_ok mac_a_ok
    H1 H2 client_peer_ok server_receiving server_room H3) as (t' & fs & st' & E & _ & Hs & Er & HC & _).
  exists t', fs, st'. exact (conj E (conj Hs (conj Er HC))).
Defined.

Lemma boot_inv n frames : stack_inv (boot n no_conns frames).
Proof.
  assert (forall i, conn (tp (boot n no_conns frames)) i = conn_zero) as Hc.
  { intros i. unfold conn, boot, no_conns, tp, s_conns. rewrite aget_lookup. destruct (_ !! _) eqn:E; [|done].
    by apply lookup_replicate in E as [-> _]. }
  assert (forall k, sock (boot n no_conns frames) k = None) as Hs.
  { intros k. unfold sock, boot, s_socks. rewrite aget_lookup. destruct (_ !! _) eqn:E; [|done].
    by apply lookup_replicate in E as [-> _]. }
  split; [split; [apply no_conns_wf| |done| |]|].
  - intros i Hi. rewrite Hc. by left.
  - intros k i Hk. by rewrite Hs.
  - intros k k' i Hk Hk'. by rewrite Hs.
  - intros i Hi. by rewrite Hc.
Qed.

Lemma socket_invariant_witness :
  stack_inv (sock_close 0 (snd (sock_send 0 hello (snd (sock_alloc (boot host_a no_conns [])))))).
Proof.
  apply (socket_invariant (boot host_a no_conns [])); [apply boot_inv|].
  eapply rtc_l; [apply step_alloc|]. eapply rtc_l; [apply (step_send _ 0 hello)|]. apply rtc_once, step_close.
Defined.

(** The peer of a connection that host A opens to port 80 of host B. *)
Definition listener : tcp_conn := est IP_A 49152 80 7000 0x12345679.

Definition calling : stack := boot host_a no_conns [[]; syn_ack MAC_A MAC_B 3 IP_B IP_A listener (zeros 6)].

Lemma listener_ok : peer_ok listener.
Proof. by split. Qed.

Lemma calling_alloc : exists t, alloc_conn (tp calling) = (Some 0, t).
Proof. eexists. reflexivity. Qed.

Lemma tcp_connect_established_witness : exists st',
  tcp_connect IP_B 80 calling = Some (Some 0, st') /\ state (conn (tp st') 0) = TCP_ESTABLISHED /\
  rcv_nxt (conn (tp st') 0) = 7001.
Proof.
  destruct calling_alloc as [t1 Ha].
  destruct (tcp_connect_established MAC_A MAC_B 3 IP_B IP_A listener (zeros 6) mac_a_ok mac_b_ok ltac:(done) ltac:(done)
    ltac:(done) listener_ok ltac:(done) calling (mk_nic MAC_A true) 0 t1 1 [] (no_conns_wf _ _) eq_refl Ha eq_refl eq_refl
    ltac:(lia) eq_refl) as (st' & H1 & _ & (_ & H2 & H3 & _) & _).
  exists st'. exact (conj H1 (conj H2 H3)).
Defined.

(** A server's two messages. *)
Definition ack_items : list Dhcp.item := [Dhcp.Opt 53 [5]; Dhcp.Opt 54 [10; 0; 2; 2]].
Definition lease_frame (xs : list Dhcp.item) : list Z :=
  dhcp_frame ETH_BROADCAST MAC_B 1 IP_B 0xffffffff (Dhcp.message Dhcp.offer_fixed xs (zeros 300)) [].

Lemma lease_arrives xs : Forall Dhcp.item_ok xs -> bytes (Dhcp.enc_items xs) -> blen (Dhcp.enc_items xs) <= 60 ->
  8 <= blen (Dhcp.enc_items xs) ->
  dhcp_arrives 0xdeadbe01 (lease_frame xs) Dhcp.offer_fixed xs.
Proof.
  intros Hx Hb Hl Hl'.
  assert (blen (Dhcp.message Dhcp.offer_fixed xs (zeros 300)) = 541 + blen (Dhcp.enc_items xs)) as Hm.
  { unfold Dhcp.message. rewrite !blen_app. unfold blen at 3. cbn [length]. change (blen Dhcp.offer_fixed) with 240.
    change (length (zeros 300)) with 300%nat. lia. }
  split. exists ETH_BROADCAST, MAC_B, 1, IP_B, 0xffffffff, (zeros 300).
  split; [done|]. split; [apply broadcast_ok|]. split; [apply mac_b_ok|]. do 3 (split; [done|]).
  split; [|split; [lia|]].
  - unfold Dhcp.message, bytes. rewrite Forall_app. split; [by apply bytes_check; vm_compute|].
    rewrite Forall_app. split; [done|]. apply Forall_cons_2; [done|apply zeros_bytes].
  - split; [done|done|unfold Dhcp.OPTIONS_END; lia|unfold Dhcp.sizeof_dhcp; lia|done|done].
Qed.

Lemma offer_arrives : dhcp_arrives 0xdeadbe01 (lease_frame Dhcp.offer_items) Dhcp.offer_fixed Dhcp.offer_items.
Proof. apply lease_arrives; [apply Dhcp.offer_items_ok|by apply bytes_check|done|done]. Qed.

Lemma ack_arrives : dhcp_arrives 0xdeadbe01 (lease_frame ack_items) Dhcp.offer_fixed ack_items.
Proof.
  apply lease_arrives; [|by apply bytes_check|done|done].
  repeat (apply Forall_cons_2; [by split|]). apply Forall_nil_2.
Qed.

Definition booting : stack :=
  boot (nic_register (mk_nic MAC_A true) fresh_net) no_conns [[]; lease_frame Dhcp.offer_items; lease_frame ack_items].

Lemma dhcp_lease_witness : exists st',
  dhcp_discover booting = Some (true, st') /\ s_ip (net_of st') = IP_A /\ s_netmask (net_of st') = NETMASK.
Proof.
  destruct (dhcp_lease booting (mk_nic MAC_A true) 1 0 (lease_frame Dhcp.offer_items) (lease_frame ack_items)
    Dhcp.offer_fixed Dhcp.offer_fixed Dhcp.offer_items ack_items [] eq_refl eq_refl eq_refl ltac:(lia) ltac:(lia) eq_refl
    offer_arrives ack_arrives eq_refl eq_refl) as (st' & H1 & _ & H2 & H3 & _).
  exists st'. exact (conj H1 (conj H2 H3)).
Defined.

End NetStack.
