(* ===== verification/NetSafe.v ===== *)
(** * The network stack under system calls

    The operations a system call can reach poll the card and run the handlers of whatever arrives. [net_ok] is what
    makes them total: frames and receive rings hold bytes, no handler of the DHCP client is bound (it is bound only
    while [dhcp_discover] runs, before there are processes), and a name server is configured only when there is a
    card. Every operation keeps it, and a poll never reads outside a packet. *)

From S2P Require Import Prelude Bytes Net Tcp Dns Dhcp NetStack.
Import Net Tcp NetStack.

Module NetSafe.

(** ** What sending and receiving leave of the network state *)

Record same (n n' : net) : Prop := {
  sm_nic : s_nic n' = s_nic n;
  sm_dns : s_dns n' = s_dns n;
  sm_binds : s_binds n' = s_binds n;
}.

#[export] Instance same_refl : Reflexive same.
Proof. by split. Qed.
#[export] Instance same_trans : Transitive same.
Proof. intros ? ? ? [] []. split; congruence. Qed.

Lemma eth_send_same m ty p n : same n (eth_send m ty p n).2.
Proof. unfold eth_send. destruct (nic_get n); [|done]. by destruct (_ <? _). Qed.

Lemma arp_lookup_same ip n : same n (arp_lookup ip n).2.
Proof. unfold arp_lookup. destruct (find_entry n ip); [done|]. destruct (nic_get n); [apply eth_send_same|done]. Qed.

Lemma ipv4_send_same ip proto p n : same n (ipv4_send ip proto p n).2.
Proof.
  unfold ipv4_send. destruct (_ <? _); [done|]. cbv zeta. set (n1 := set_id _ n). assert (same n n1) as H1 by done.
  destruct (_ || _); [etrans; [exact H1|apply eth_send_same]|].
  match goal with |- context [arp_lookup ?h n1] => pose proof (arp_lookup_same h n1) as H2; destruct (arp_lookup h n1) as [[m|] n2] end.
  - etrans; [exact H1|]. etrans; [exact H2|]. apply eth_send_same.
  - by etrans.
Qed.

Lemma icmp_recv_same src p n : same n (icmp_recv src p n).
Proof. unfold icmp_recv. destruct (_ <? _); [done|]. destruct (_ && _); [|done]. destruct (_ <? _); [done|]. apply ipv4_send_same. Qed.

Lemma arp_recv_same p n : same n (arp_recv p n).
Proof.
  unfold arp_recv. repeat (destruct (_ : bool); [done|]). cbv zeta.
  set (n1 := arp_insert _ _ n). assert (same n n1) as H1 by done.
  destruct (_ =? ARP_OP_REQUEST); [|done]. destruct (_ || _); [done|]. destruct (nic_get n1); [|done].
  etrans; [exact H1|apply eth_send_same].
Qed.

Lemma udp_send_same ip sp dp d n : same n (udp_send ip sp dp d n).2.
Proof. unfold udp_send. destruct (_ <? _); [done|]. apply ipv4_send_same. Qed.

(** ** Connections *)

Definition rx_bytes (t : tcp) : Prop := Forall (fun c => bytes (rxbuf c)) (s_conns t).
Record tame (t t' : tcp) : Prop := { tm_net : same (nt t) (nt t'); tm_rx : rx_bytes t -> rx_bytes t' }.

#[export] Instance tame_refl : Reflexive tame.
Proof. by split. Qed.
#[export] Instance tame_trans : Transitive tame.
Proof. intros ? ? ? [? H1] [? H2]. split; [by etrans|auto]. Qed.

Lemma tame_upd i f t : (forall c, bytes (rxbuf c) -> bytes (rxbuf (f c))) -> tame t (upd i f t).
Proof.
  intros Hf. split; [done|]. intros H. unfold rx_bytes, upd. cbn. apply Forall_aset; [done|]. apply Hf.
  apply (Forall_aget_d (fun c => bytes (rxbuf c))); [done|apply zeros_bytes].
Qed.

Lemma tame_seg i flags d t : tame t (tcp_send_seg i flags d t).2.
Proof.
  unfold tcp_send_seg. destruct (_ <? _); [done|]. cbv zeta. set (t1 := upd i _ t).
  assert (tame t t1) as H1 by by apply tame_upd.
  match goal with |- context [ipv4_send ?a ?b ?c ?d] => pose proof (ipv4_send_same a b c d) as H2; destruct (ipv4_send a b c d) as [r n] end.
  cbn [snd]. etrans; [exact H1|]. by split.
Qed.

Lemma tame_send h d t : tame t (tcp_send h d t).2.
Proof.
  unfold tcp_send. destruct h as [i|]; [|done]. destruct (bool_decide _); [|done]. generalize (length d) as f. intros f.
  revert d t. induction f as [|f IH]; intros d t; cbn [send_chunks]; [done|]. destruct (0 <? _); [|done]. cbv zeta.
  match goal with |- context [tcp_send_seg ?a ?b ?c t] => pose proof (tame_seg a b c t) as H2; destruct (tcp_send_seg a b c t) as [[] t1] end; [|done].
  etrans; [exact H2|apply IH].
Qed.

Lemma tame_close h t : tame t (tcp_close h t).
Proof.
  unfold tcp_close. destruct h as [i|]; [|done]. cbv zeta. etrans; [|by apply tame_upd]. destruct (bool_decide _); [apply tame_seg|done].
Qed.

Lemma rxbuf_push_bytes d c : bytes d -> bytes (rxbuf c) -> bytes (rxbuf (rxbuf_push d c)).
Proof.
  intros Hd. revert c. induction Hd as [|b d Hb Hd IH]; intros c Hc; cbn [rxbuf_push]; [done|]. cbv zeta. destruct (_ =? _); [done|].
  apply IH. cbn. by apply Forall_aset.
Qed.

Lemma rxbuf_pop_bytes n c : bytes (rxbuf c) -> bytes (rxbuf_pop n c).1 /\ bytes (rxbuf (rxbuf_pop n c).2) /\ (length (rxbuf_pop n c).1 <= n)%nat.
Proof.
  revert c. induction n as [|n IH]; intros c Hc; cbn [rxbuf_pop]; [repeat split; [constructor|done|simpl; lia]|].
  destruct (_ =? _); [repeat split; [constructor|done|simpl; lia]|]. cbv zeta.
  match goal with |- context [rxbuf_pop n ?c1] => destruct (IH c1 Hc) as (H1 & H2 & H3); destruct (rxbuf_pop n c1) as [l c'] end.
  cbn in *. repeat split; [constructor; [|done]|done|lia]. apply (Forall_aget_d is_u8); [done|by vm_compute].
Qed.

Lemma tame_recv h max t : tame t (tcp_recv h max t).2.
Proof.
  unfold tcp_recv. destruct h as [i|]; [|done]. destruct (bool_decide _); [|done]. split; [by destruct (rxbuf_pop _ _)|].
  intros H. assert (bytes (rxbuf (conn t i))) as Hb by (apply (Forall_aget_d (fun c => bytes (rxbuf c))); [done|apply zeros_bytes]).
  destruct (rxbuf_pop_bytes (Z.to_nat max) (conn t i) Hb) as (_ & H2 & _). destruct (rxbuf_pop _ _) as [l c]. cbn [fst snd] in *.
  unfold rx_bytes, upd. cbn. by apply Forall_aset.
Qed.

Lemma tcp_recv_bytes h max t : rx_bytes t -> bytes (tcp_recv h max t).1 /\ blen (tcp_recv h max t).1 <= Z.max 0 max.
Proof.
  intros H. unfold tcp_recv. destruct h as [i|]; [|split; [constructor|unfold blen; simpl; lia]].
  destruct (bool_decide _); [|split; [constructor|unfold blen; simpl; lia]].
  assert (bytes (rxbuf (conn t i))) as Hb by (apply (Forall_aget_d (fun c => bytes (rxbuf c))); [done|apply zeros_bytes]).
  destruct (rxbuf_pop_bytes (Z.to_nat max) (conn t i) Hb) as (H1 & _ & H3). destruct (rxbuf_pop _ _) as [l c]. cbn [fst snd] in *.
  split; [done|]. unfold blen. lia.
Qed.

Ltac tame_step := first
  [ match goal with |- tame ?t ?t => reflexivity end
  | apply tame_upd; solve [by intros ? ?]
  | apply tame_seg
  | match goal with
    | |- tame _ (if ?b then _ else _) => destruct b
    | |- tame _ (send_ack ?i ?t) => etrans; [|apply (tame_seg i TCP_FLAG_ACK [] t)]
    | |- tame _ (tcp_send_seg ?i ?f ?d ?t).2 => etrans; [|apply (tame_seg i f d t)]
    | |- tame _ (upd ?i ?f ?t) => etrans; [|apply (tame_upd i f t); solve [by intros ? ?]]
    end ].

Lemma tame_input src pkt t : bytes pkt -> tame t (tcp_input src pkt t).
Proof.
  intros Hp. unfold tcp_input. destruct (_ <? _); [done|]. cbv zeta. destruct (_ || _); [done|].
  set (d := slice pkt _ _). assert (bytes d) as Hd by by apply slice_bytes. clearbody d.
  destruct (find_conn _ _ _ t) as [i|]; [|done]. destruct (state (conn t i)); try done.
  - unfold input_syn_sent. repeat tame_step.
  - unfold input_established. destruct (flag _ TCP_FLAG_RST); [by apply tame_upd|]. cbv zeta.
    set (t1 := if flag _ TCP_FLAG_ACK then _ else t). assert (tame t t1) as H1 by (unfold t1; repeat tame_step). clearbody t1.
    set (t2 := if _ && _ then _ else t1). assert (tame t1 t2) as H2.
    { unfold t2. destruct (_ && _); [|done]. etrans; [|apply (tame_seg i TCP_FLAG_ACK [])]. apply tame_upd.
      intros c Hc. by apply rxbuf_push_bytes. }
    clearbody t2. etrans; [exact H1|]. etrans; [exact H2|]. repeat tame_step.
  - unfold input_fin_wait_1, input_fin_wait_2. repeat tame_step.
  - unfold input_fin_wait_2. repeat tame_step.
Qed.

(** ** The stack *)

Definition quiet (n : net) : Prop := Forall (fun b => b_fn b <> DHCP_OFFER_CB /\ b_fn b <> DHCP_ACK_CB) (s_binds n).

Record net_ok (st : stack) : Prop := {
  no_inv : stack_inv st;
  no_rx : Forall bytes (rx st);
  no_rings : rx_bytes (tp st);
  no_dhcp : quiet (net_of st);
  no_card : s_dns (net_of st) <> 0 -> is_Some (s_nic (net_of st));
}.

(** The part of [net_ok] that does not look at the sockets. *)
Record calm (st : stack) : Prop := {
  cm_rx : Forall bytes (rx st);
  cm_rings : rx_bytes (tp st);
  cm_dhcp : quiet (net_of st);
}.
Record follows (st st' : stack) : Prop := {
  fo_calm : calm st -> calm st';
  fo_nic : s_nic (net_of st') = s_nic (net_of st);
  fo_dns : s_dns (net_of st') = s_dns (net_of st);
}.
#[export] Instance follows_refl : Reflexive follows.
Proof. by split. Qed.
#[export] Instance follows_trans : Transitive follows.
Proof. intros ? ? ? [? ? ?] [? ? ?]. split; [auto|congruence..]. Qed.

Lemma follows_tp st t : tame (tp st) t -> follows st (set_tp t st).
Proof.
  intros [[Hn Hd Hb] Hr]. split; [|done..]. intros [H1 H2 H3]. split; [done|by apply Hr|]. unfold quiet, net_of in *. cbn. by rewrite Hb.
Qed.

Lemma follows_net st n : same (net_of st) n -> follows st (set_net n st).
Proof. intros H. apply follows_tp. by split. Qed.

Lemma follows_socks st v w : follows st (set_socks v w st).
Proof. split; [by intros [? ? ?]; split|done..]. Qed.

Lemma upcalls_total cs st : Forall (fun c => bytes (c_data c) /\ c_fn c <> DHCP_OFFER_CB /\ c_fn c <> DHCP_ACK_CB) cs ->
  exists st', upcalls cs st = Some st' /\ follows st st'.
Proof.
  intros H. revert st. induction H as [|c cs (Hb & H2 & H3) Hcs IH]; intros st; cbn [upcalls]; [by exists st|].
  unfold upcall. rewrite (proj2 (Z.eqb_neq _ _) H2), (proj2 (Z.eqb_neq _ _) H3). destruct (c_fn c =? DNS_CB).
  - destruct (Dns.dns_recv_cb_spec (c_data c) (dns st) Hb) as (d & -> & _). cbn [mbind option_bind].
    destruct (IH (set_dns_st d st)) as (st' & -> & Hf). exists st'. split; [done|]. etrans; [|exact Hf]. split; [by intros [? ? ?]; split|done..].
  - cbn [mbind option_bind]. apply IH.
Qed.

Lemma udp_recv_calls src p n : bytes p -> quiet n ->
  Forall (fun c => bytes (c_data c) /\ c_fn c <> DHCP_OFFER_CB /\ c_fn c <> DHCP_ACK_CB) (udp_recv src p n).
Proof.
  intros Hp Hq. unfold udp_recv. destruct (_ <? _); [constructor|]. cbv zeta. destruct (_ <? _); [constructor|].
  apply Forall_map. apply List.Forall_forall. intros b [Hin _]%filter_In. cbn. split; [by apply slice_bytes|].
  eapply List.Forall_forall in Hq; [exact Hq|done].
Qed.

Lemma eth_recv_total f st : bytes f -> calm st -> exists st', eth_recv f st = Some st' /\ follows st st'.
Proof.
  intros Hf Hc. unfold eth_recv. destruct (_ <? _); [by exists st|]. cbv zeta. set (pl := slice f _ _).
  assert (bytes pl) as Hpl by by apply slice_bytes. clearbody pl.
  destruct (_ =? ETHERTYPE_ARP); [eexists; split; [done|]; apply follows_net, arp_recv_same|].
  destruct (_ =? ETHERTYPE_IPV4); [|by exists st]. unfold ipv4_recv. destruct (_ <? _); [by exists st|]. cbv zeta.
  destruct (_ || _); [by exists st|]. set (d := slice pl _ _). assert (bytes d) as Hd by by apply slice_bytes. clearbody d.
  set (st1 := set_net _ st). assert (follows st st1) as H1 by by apply follows_net. pose proof (fo_calm _ _ H1 Hc) as Hc1. clearbody st1.
  destruct (_ =? IP_PROTO_ICMP); [eexists; split; [done|]; etrans; [exact H1|apply follows_net, icmp_recv_same]|].
  destruct (_ =? IP_PROTO_UDP).
  { destruct (upcalls_total _ st1 (udp_recv_calls (rd32 pl 12) d (net_of st1) Hd (cm_dhcp _ Hc1))) as (st' & -> & H2).
    exists st'. split; [done|]. by etrans. }
  destruct (_ =? IP_PROTO_TCP); [|by exists st1]. eexists. split; [done|]. etrans; [exact H1|]. by apply follows_tp, tame_input.
Qed.

Lemma poll_total st : calm st -> exists st', poll st = Some st' /\ follows st st'.
Proof.
  intros Hc. unfold poll, nic_recv. destruct (rx st) as [|f r] eqn:E; [by exists st|].
  pose proof (cm_rx st Hc) as Hr. rewrite E in Hr. apply Forall_cons in Hr as [Hf Hr].
  assert (follows st (set_rx r st)) as H1 by (split; [by intros [? ? ?]; split|done..]).
  destruct (_ =? 0); [by eexists|]. destruct (eth_recv_total (slice f 0 1536) (set_rx r st)) as (st' & -> & H2).
  - by apply slice_bytes.
  - by apply H1.
  - exists st'. split; [done|]. by etrans.
Qed.

Lemma poll_once_total st : calm st -> exists st', poll_once st = Some st' /\ follows st st'.
Proof. intros Hc. unfold poll_once. destruct (nic_get _); [by apply poll_total|by exists st]. Qed.

(** ** Connecting *)

Lemma connect_wait_total n i st : calm st -> exists st', connect_wait n i st = Some st' /\ follows st st'.
Proof.
  revert st. induction n as [|n IH]; intros st Hc; cbn [connect_wait]; [by exists st|]. destruct (bool_decide _); [|by exists st].
  destruct (poll_once_total st Hc) as (st1 & -> & H1). cbn [mbind option_bind].
  destruct (IH st1 (fo_calm _ _ H1 Hc)) as (st2 & -> & H2). exists st2. split; [done|]. by etrans.
Qed.

Lemma tcp_connect_total ip port st : calm st -> exists c st', tcp_connect ip port st = Some (c, st') /\ follows st st'.
Proof.
  intros Hc. unfold tcp_connect. unfold alloc_conn. destruct (find_slot _ _ 0) as [i|]; [|by eexists _, _].
  change (alloc_port ?t) with (s_next_port t, (alloc_port t).2). cbv iota beta zeta.
  set (t1 := (alloc_port _).2). assert (tame (tp st) t1) as H1 by (etrans; [apply (tame_upd i (Tcp.set_in_use true) (tp st)); done|by split]). clearbody t1.
  set (t2 := upd i _ t1). assert (tame t1 t2) as H2 by (by apply tame_upd). clearbody t2.
  set (t3 := (tcp_send_seg i _ _ t2).2). assert (tame (tp st) t3) as H3 by (etrans; [exact H1|]; etrans; [exact H2|apply tame_seg]). clearbody t3.
  assert (follows st (set_tp t3 st)) as Hf by by apply follows_tp.
  destruct (connect_wait_total (Z.to_nat 300000) i (set_tp t3 st) (fo_calm _ _ Hf Hc)) as (st2 & -> & Hf2). cbn [mbind option_bind].
  destruct (bool_decide _); eexists _, _; (split; [done|]); [by etrans|]. etrans; [exact Hf|]. etrans; [exact Hf2|]. apply follows_tp. by apply tame_upd.
Qed.

Lemma net_ok_calm st : net_ok st -> calm st.
Proof. by intros []. Qed.

Lemma net_ok_follows st st' : net_ok st -> follows st st' -> stack_inv st' -> net_ok st'.
Proof. intros H [Hc Hn Hd] Hi. destruct (Hc (net_ok_calm _ H)). split; [done..|]. rewrite Hn, Hd. apply H. Qed.

Lemma safe_sock_connect idx ip port st : net_ok st -> exists r st', sock_connect idx ip port st = Some (r, st') /\ net_ok st' /\ (r = 0 \/ r = -1).
Proof.
  intros H. destruct (sock_connect idx ip port st) as [[r st']|] eqn:E.
  - exists r, st'. split; [done|]. pose proof (sock_connect_inv _ _ _ _ _ _ (no_inv _ H) E) as Hi. unfold sock_connect in E.
    destruct (bad_sock idx); [simplify_eq; auto|]. destruct (tcp_connect_total ip port st (net_ok_calm _ H)) as (c & st1 & Ec & Hf).
    rewrite Ec in E. cbn [mbind option_bind] in E. destruct c; simplify_eq; (split; [|auto]); (apply (net_ok_follows st); [done| |done]); [|done]. etrans; [exact Hf|apply follows_socks].
  - unfold sock_connect in E. destruct (bad_sock idx); [done|]. destruct (tcp_connect_total ip port st (net_ok_calm _ H)) as (c & st1 & Ec & Hf).
    rewrite Ec in E. cbn [mbind option_bind] in E. by destruct c.
Qed.

(** ** The other socket calls *)

Lemma safe_sock_alloc st : net_ok st -> net_ok (sock_alloc st).2 /\ -1 <= (sock_alloc st).1 < MAX_SOCKETS.
Proof.
  intros H. pose proof (step_inv _ _ (no_inv _ H) (step_alloc st)) as Hi. revert Hi. unfold sock_alloc.
  destruct (find_slot _ _ 0) as [i|] eqn:E; cbn [fst snd]; intros Hi; (split; [|try by vm_compute]).
  - apply (net_ok_follows st); [done|apply follows_socks|done].
  - apply (find_slot_Some _ true) in E as (Hr & _). destruct (si_len _ (proj1 (no_inv _ H))). lia.
  - done.
Qed.

Lemma safe_sock_free idx st : net_ok st -> net_ok (sock_free idx st).
Proof.
  intros H. pose proof (step_inv _ _ (no_inv _ H) (step_free st idx)) as Hi. apply (net_ok_follows st); [done| |done].
  unfold sock_free. destruct (bad_sock idx); [done|apply follows_socks].
Qed.

Lemma safe_sock_close idx st : net_ok st -> net_ok (sock_close idx st).
Proof.
  intros H. pose proof (step_inv _ _ (no_inv _ H) (step_close st idx)) as Hi. apply (net_ok_follows st); [done| |done].
  unfold sock_close. destruct (bad_sock idx); [done|]. cbv zeta. set (st1 := set_socks _ _ st). assert (follows st st1) as H1 by apply follows_socks.
  etrans; [exact H1|]. apply follows_tp, tame_close.
Qed.

Lemma safe_sock_send idx d st : net_ok st -> blen d <= 65535 -> net_ok (sock_send idx d st).2 /\ ((sock_send idx d st).1 = -1 \/ (sock_send idx d st).1 = blen d).
Proof.
  intros H Hl. pose proof (step_inv _ _ (no_inv _ H) (step_send st idx d)) as Hi. revert Hi. unfold sock_send. destruct (bad_sock idx); [auto|].
  destruct (sock st idx) as [i|]; [|auto]. cbv zeta.
  match goal with |- context [tcp_send ?h ?x ?t] => pose proof (tame_send h x t) as Ht; destruct (tcp_send h x t) as [[] t1] end; cbn [fst snd] in *; intros Hi.
  - split; [by apply (net_ok_follows st); [|apply follows_tp|]|]. right. destruct (Z.ltb_spec 65535 (blen d)); [lia|done].
  - split; [by apply (net_ok_follows st); [|apply follows_tp|]|auto].
Qed.

Lemma safe_sock_recv idx len st : net_ok st -> 0 <= len <= 65535 ->
  let '(r, b, st') := sock_recv idx len st in net_ok st' /\ bytes b /\ blen b <= len /\ (r = -1 \/ r = blen b).
Proof.
  intros H Hl. pose proof (step_inv _ _ (no_inv _ H) (step_recv st idx len)) as Hi. revert Hi. unfold sock_recv.
  assert (bytes [] /\ blen [] <= len) as [? ?] by (split; [constructor|unfold blen; simpl; lia]). destruct (bad_sock idx); [auto|].
  destruct (sock st idx) as [i|]; [|auto]. destruct (Z.ltb_spec 65535 len); [lia|]. cbv zeta.
  pose proof (tame_recv (Some i) len (tp st)) as Ht. pose proof (tcp_recv_bytes (Some i) len (tp st) (no_rings _ H)) as [Hb Hbl].
  destruct (tcp_recv (Some i) len (tp st)) as [b t]. cbn [fst snd] in *. rewrite Z.max_r in Hbl by lia.
  destruct (_ && _); cbn [fst snd]; intros Hi; (split; [by apply (net_ok_follows st); [|apply follows_tp|]|auto]).
Qed.

(** ** Name resolution *)

Lemma dns_wait_total n st : calm st -> is_Some (s_nic (net_of st)) -> exists st', dns_wait n st = Some st' /\ follows st st'.
Proof.
  revert st. induction n as [|n IH]; intros st Hc Hn; cbn [dns_wait]; [by exists st|]. destruct (Dns.s_got_reply _); [by exists st|].
  destruct Hn as [c Hn]. unfold nic_get. rewrite Hn. destruct (poll_total st Hc) as (st1 & -> & H1). cbn [mbind option_bind].
  destruct (IH st1 (fo_calm _ _ H1 Hc)) as (st2 & -> & H2); [rewrite (fo_nic _ _ H1), Hn; by eexists|]. exists st2. split; [done|]. by etrans.
Qed.

Lemma dns_attempts_total k ip q st : calm st -> is_Some (s_nic (net_of st)) -> exists st', dns_attempts k ip q st = Some st' /\ follows st st'.
Proof.
  revert st. induction k as [|k IH]; intros st Hc Hn; cbn [dns_attempts]; [by exists st|]. destruct (Dns.s_got_reply _); [by exists st|]. cbv zeta.
  set (st1 := set_net _ st). assert (follows st st1) as H1 by apply follows_net, udp_send_same. clearbody st1.
  destruct (dns_wait_total (Z.to_nat 200000) st1 (fo_calm _ _ H1 Hc)) as (st2 & -> & H2); [by rewrite (fo_nic _ _ H1)|]. cbn [mbind option_bind].
  assert (follows st st2) as H12 by by etrans.
  destruct (IH st2 (fo_calm _ _ H12 Hc)) as (st3 & -> & H3); [by rewrite (fo_nic _ _ H12)|]. exists st3. split; [done|]. by etrans.
Qed.

Lemma quiet_bind port ctx n : quiet n -> quiet (udp_bind port DNS_CB ctx n).
Proof. intros H. unfold udp_bind. destruct (find_slot _ _ _); [|done]. by apply Forall_aset. Qed.

Lemma quiet_unbind port n : quiet n -> quiet (udp_unbind port n).
Proof. intros H. unfold quiet, udp_unbind. cbn. apply Forall_map. eapply Forall_impl; [exact H|]. intros b Hb. cbn. by destruct (_ && _). Qed.

Lemma dns_wait_received n st st' : tcp_wf (tp st) -> all_live (tp st) -> dns_wait n st = Some st' -> received st st'.
Proof.
  revert st. induction n as [|n IH]; intros st Hw Hl H; cbn [dns_wait] in H; [simplify_eq; by apply received_refl|].
  destruct (Dns.s_got_reply _); [simplify_eq; by apply received_refl|]. destruct (nic_get _); [|done].
  destruct (poll st) as [st1|] eqn:E; [|done]. cbn [mbind option_bind] in H. pose proof (poll_received _ _ Hw Hl E) as H1.
  eapply received_trans; [exact H1|]. apply IH; [apply H1|by eapply all_evolve_live; apply H1|done].
Qed.

Lemma dns_attempts_received k ip q st st' : tcp_wf (tp st) -> all_live (tp st) -> dns_attempts k ip q st = Some st' -> received st st'.
Proof.
  revert st. induction k as [|k IH]; intros st Hw Hl H; cbn [dns_attempts] in H; [simplify_eq; by apply received_refl|].
  destruct (Dns.s_got_reply _); [simplify_eq; by apply received_refl|]. cbv zeta in H.
  match type of H with context [set_net ?n st] => set (st1 := set_net n st) in H end.
  assert (received st st1) as H1 by by apply received_net. clearbody st1.
  destruct (dns_wait _ st1) as [st2|] eqn:E; [|done]. cbn [mbind option_bind] in H.
  assert (all_live (tp st1)) as Hl1 by (by eapply all_evolve_live; apply H1).
  pose proof (dns_wait_received _ _ _ (proj1 (proj1 H1)) Hl1 E) as H2.
  eapply received_trans; [exact H1|]. eapply received_trans; [exact H2|]. apply IH; [apply H2|by eapply all_evolve_live; apply H2|done].
Qed.

Lemma safe_dns_resolve host st : net_ok st -> exists r st', dns_resolve host st = Some (r, st') /\ net_ok st'.
Proof.
  intros H. unfold dns_resolve. cbv zeta. destruct (Z.eqb_spec (ipv4_dns (net_of st)) 0) as [E|E]; [by exists None, st|].
  set (st1 := set_net _ _). assert (net_ok st1) as H1.
  { destruct H as [Hi Hr Hg Hq Hc]. assert (forall n d, stack_inv (set_net n (set_dns_st d st))) as Hi'.
    { intros n d. apply (stack_inv_received st); [done|]. split; [|done]. by apply (all_evolve_refl (tp st)); apply Hi. }
    split; [apply Hi'|done|done| |].
    - by apply quiet_bind.
    - unfold st1, udp_bind. by destruct (find_slot _ _ _). }
  assert (is_Some (s_nic (net_of st1))) as Hn.
  { unfold st1, udp_bind. pose proof (no_card _ H E). by destruct (find_slot _ _ _). }
  clearbody st1. destruct (dns_attempts_total 3 (ipv4_dns (net_of st)) (Dns.dns_query 4660 host) st1 (net_ok_calm _ H1) Hn) as (st2 & E2 & Hf).
  rewrite E2. cbn [mbind option_bind].
  assert (net_ok st2) as [Hi Hr Hg Hq Hc].
  { apply (net_ok_follows st1); [done..|]. destruct (proj1 (no_inv _ H1)) as [Hw Hl _ _ _]. eapply stack_inv_received; [apply H1|].
    by eapply dns_attempts_received. }
  eexists _, _. split; [done|]. split; [|done|done|by apply quiet_unbind|done].
  apply (stack_inv_received st2); [done|]. split; [|done]. by apply (all_evolve_refl (tp st2)); apply Hi.
Qed.
End NetSafe.
