(* ===== verification/Ext2Dir.v ===== *)
(** * Directory blocks of the ext2 file system

    Models the parts of [kernel/fs/ext2.c] that work on the bytes of one directory block, and
    [path_split]. A pointer into a block is an offset; [end] is the block's length. A read outside the
    block is [None], so an operation that returns [Some] has stayed inside it, whatever the block holds.
    The walks have fuel, and are [None] when it runs out.

    The theorems give a directory block its meaning: the valid entries that tile it are a finite map from
    names to inode numbers, on which the operations of the source act as lookup, insert and delete. *)

From S2P Require Import Prelude Bytes.

Module Ext2Dir.

(** [8 + ((name_len + 3) & ~3U)]. *)
Definition entry_size (name_len : Z) : Z := u32 (8 + Z.land (name_len + 3) (u32 (Z.lnot 3))).

(** Checked reads. *)
Definition rdb (b : list Z) (p : Z) : option Z := if p <? 0 then None else b !! Z.to_nat p.
Definition rds (b : list Z) (p n : Z) : option (list Z) :=
  if (p <? 0) || (blen b <? p + n) then None else Some (slice b p n).

Definition de_inode (b : list Z) (p : Z) : option Z := l ← rds b p 4; Some (le_val l).
Definition de_rec_len (b : list Z) (p : Z) : option Z := l ← rds b (p + 4) 2; Some (le_val l).
Definition de_name_len (b : list Z) (p : Z) : option Z := rdb b (p + 6).
Definition de_name (b : list Z) (p n : Z) : option (list Z) := rds b (p + 8) n.

Definition dirent_valid (b : list Z) (p : Z) : option bool :=
  let end_ := blen b in
  if (end_ <? p) || (end_ - p <? 8) then Some false
  else
    nlen ← de_name_len b p; rec ← de_rec_len b p;
    if rec <? entry_size nlen then Some false
    else if end_ - p <? rec then Some false
    else Some true.

(** [de->inode != 0 && de->name_len == name_len && memcmp(de->name, name, name_len) == 0]. *)
Definition de_is (b : list Z) (p : Z) (name : list Z) : option bool :=
  ino ← de_inode b p; nlen ← de_name_len b p;
  if (ino =? 0) || negb (nlen =? blen name) then Some false
  else n ← de_name b p (blen name); Some (bool_decide (n = name)).

(** ** Lookup *)

Fixpoint find_loop (fuel : nat) (b : list Z) (p : Z) (name : list Z) : option Z :=
  match fuel with
  | O => None
  | S f =>
      if p <? blen b then
        v ← dirent_valid b p;
        if negb v then Some 0
        else
          m ← de_is b p name;
          if (m : bool) then de_inode b p
          else rec ← de_rec_len b p; find_loop f b (p + rec) name
      else Some 0
  end.

Definition walk_fuel (b : list Z) : nat := S (length b).

Definition dir_find_in_block (b name : list Z) : option Z := find_loop (walk_fuel b) b 0 name.

(** ** Removal *)

(** The block after [de->inode = 0], when the entry is found. *)
Fixpoint remove_loop (fuel : nat) (b : list Z) (p : Z) (name : list Z) : option (option (list Z)) :=
  match fuel with
  | O => None
  | S f =>
      if p <? blen b then
        v ← dirent_valid b p;
        if negb v then Some None
        else
          m ← de_is b p name;
          if (m : bool) then Some (Some (wr32 b p 0))
          else rec ← de_rec_len b p; remove_loop f b (p + rec) name
      else Some None
  end.

Definition remove_in_block (b name : list Z) : option (option (list Z)) := remove_loop (walk_fuel b) b 0 name.

(** ** Insertion *)

(** [inode], [name_len], [file_type] and [name] of the entry at [p]. *)
Definition fill_entry (b : list Z) (p child_ino : Z) (name : list Z) (ftype : Z) : list Z :=
  put (wr8 (wr8 (wr32 b p child_ino) (p + 6) (blen name)) (p + 7) ftype) (p + 8) name.

Fixpoint add_loop (fuel : nat) (b : list Z) (p child_ino : Z) (name : list Z) (ftype : Z) : option (option (list Z)) :=
  match fuel with
  | O => None
  | S f =>
      if p <? blen b then
        v ← dirent_valid b p;
        if negb v then Some None
        else
          let needed := entry_size (blen name) in
          ino ← de_inode b p; nlen ← de_name_len b p; rec ← de_rec_len b p;
          let actual := entry_size nlen in
          if (ino =? 0) && (needed <=? rec) then Some (Some (fill_entry b p child_ino name ftype))
          else
            let slack := u32 (rec - actual) in
            if (blen b <=? p + rec) && negb (ino =? 0) && (needed <=? slack) then
              let b := wr16 b (p + 4) actual in
              let b := wr16 b (p + actual + 4) slack in
              Some (Some (fill_entry b (p + actual) child_ino name ftype))
            else add_loop f b (p + rec) child_ino name ftype
      else Some None
  end.

Definition add_in_block (b : list Z) (child_ino : Z) (name : list Z) (ftype : Z) : option (option (list Z)) :=
  add_loop (walk_fuel b) b 0 child_ino name ftype.

(** A block with this entry only. *)
Definition new_dir_block (block_size child_ino : Z) (name : list Z) (ftype : Z) : list Z :=
  fill_entry (wr16 (zeros block_size) 4 (u16 block_size)) 0 child_ino name ftype.

(** ** The ".." entry of a moved directory *)

Definition DOTDOT : list Z := [46; 46].

Fixpoint dotdot_loop (fuel : nat) (b : list Z) (p parent_ino : Z) : option (option (list Z)) :=
  match fuel with
  | O => None
  | S f =>
      if p <? blen b then
        v ← dirent_valid b p;
        if negb v then Some None
        else
          m ← de_is b p DOTDOT;
          if (m : bool) then Some (Some (wr32 b p parent_ino))
          else rec ← de_rec_len b p; dotdot_loop f b (p + rec) parent_ino
      else Some None
  end.

(** ** Listing *)

(** [out] is what has been written to the buffer, [blen out] is [written]. *)
Fixpoint list_loop (fuel : nat) (b : list Z) (p bufsz flags : Z) (out : list Z) : option (list Z) :=
  match fuel with
  | O => None
  | S f =>
      if p <? blen b then
        v ← dirent_valid b p;
        if negb v then Some out
        else
          ino ← de_inode b p; nlen ← de_name_len b p; rec ← de_rec_len b p;
          if negb (ino =? 0) && (0 <? nlen) then
            name ← de_name b p nlen;
            let dots := bool_decide (name = [46]) || bool_decide (name = DOTDOT) in
            if dots && (Z.land flags 1 =? 0) then list_loop f b (p + rec) bufsz flags out
            else if u32 (blen out + nlen + 1) <? bufsz then list_loop f b (p + rec) bufsz flags (out ++ name ++ [10])
            else list_loop f b (p + rec) bufsz flags out
          else list_loop f b (p + rec) bufsz flags out
      else Some out
  end.

Definition list_dir_block (b : list Z) (bufsz flags : Z) (out : list Z) : option (list Z) :=
  list_loop (walk_fuel b) b 0 bufsz flags out.

(** ** Paths *)

(** The offset of the last slash, or 0. *)
Definition last_slash (path : list Z) : nat :=
  foldl (fun last i => if bool_decide (path !! i = Some 47) then i else last) 0%nat (seq 0 (length path)).

(** Parent and name; [None] when the parent does not fit in its 256-byte buffer, or the empty path is read
    past its end. *)
Definition path_split (path : list Z) : option (option (list Z * list Z)) :=
  if bool_decide (path = []) then None else
  let last := last_slash path in
  let name := drop (S last) path in
  let name_len := blen name in
  if (name_len =? 0) || (254 <? name_len) then Some None
  else
    let par_len := Z.of_nat last in
    if par_len =? 0 then Some (Some ([47], name))
    else if 256 <? par_len + 1 then None
    else Some (Some (take last path, name)).

(** ** Entries *)

Lemma entry_size_eq n : is_u8 n -> entry_size n = 8 + (n + 3) / 4 * 4.
Proof.
  intros H. assert (forallb (fun n => entry_size n =? 8 + (n + 3) / 4 * 4) (seqZ 0 256) = true) as F by by vm_compute.
  rewrite forallb_forall in F. apply Z.eqb_eq, F, list_elem_of_In, elem_of_seqZ. unfold is_u8 in H. lia.
Qed.

Record ent := mk_ent { e_ino : Z; e_rec : Z; e_name : list Z }.

(** The entry [e] is at offset [p] of the block. *)
Record at_ (b : list Z) (p : Z) (e : ent) : Prop := {
  at_p : 0 <= p;
  at_fit : p + e_rec e <= blen b;
  at_name_len : is_u8 (blen (e_name e));
  at_min : entry_size (blen (e_name e)) <= e_rec e;
  at_ino : rd32 b p = e_ino e;
  at_rec : rd16 b (p + 4) = e_rec e;
  at_nlen : rd8 b (p + 6) = blen (e_name e);
  at_nm : slice b (p + 8) (blen (e_name e)) = e_name e;
}.

(** The entries that tile the block from [p] to [q]. *)
Inductive seg (b : list Z) : Z -> list ent -> Z -> Prop :=
  | seg_nil p : 0 <= p <= blen b -> seg b p [] p
  | seg_cons p e es q : at_ b p e -> seg b (p + e_rec e) es q -> seg b p (e :: es) q.

Lemma at_size b p e : at_ b p e -> 8 + blen (e_name e) <= e_rec e /\ 8 <= e_rec e.
Proof.
  intros [_ _ Hu Hm _ _ _ _]. rewrite entry_size_eq in Hm by done. pose proof (blen_nonneg (e_name e)). lia.
Qed.

Lemma seg_bounds b p es q : seg b p es q -> 0 <= p <= q /\ q <= blen b /\ p + 8 * Z.of_nat (length es) <= q.
Proof.
  induction 1 as [p H|p e es q Ha Hs IH]; [simpl; lia|]. pose proof (at_size _ _ _ Ha). destruct Ha. cbn [length]. lia.
Qed.

Lemma seg_app b p es1 es2 q : seg b p (es1 ++ es2) q <-> exists r, seg b p es1 r /\ seg b r es2 q.
Proof.
  split.
  - revert p. induction es1 as [|e es1 IH]; intros p H.
    + exists p. split; [|done]. pose proof (seg_bounds _ _ _ _ H). constructor. lia.
    + inversion H as [|? ? ? ? Ha Hs]; subst. destruct (IH _ Hs) as (r & H1 & H2). exists r. split; [by constructor|done].
  - intros (r & H1 & H2). induction H1; [done|]. cbn [app]. constructor; auto.
Qed.

(** Reads at an entry. *)
Section reads.
Context (b : list Z) (p : Z) (e : ent) (Ha : at_ b p e).

Lemma rds_in off n : 0 <= off -> 0 <= n -> off + n <= blen b -> rds b off n = Some (slice b off n).
Proof. intros. unfold rds. rewrite (proj2 (Z.ltb_ge _ 0)), (proj2 (Z.ltb_ge (blen b) _)) by lia. done. Qed.

Lemma de_inode_at : de_inode b p = Some (e_ino e).
Proof using Ha.
  pose proof (at_size _ _ _ Ha). destruct Ha. unfold de_inode. rewrite rds_in by lia. simpl. by f_equal.
Qed.

Lemma de_rec_len_at : de_rec_len b p = Some (e_rec e).
Proof using Ha.
  pose proof (at_size _ _ _ Ha). destruct Ha. unfold de_rec_len. rewrite rds_in by lia. simpl. by f_equal.
Qed.

Lemma de_name_len_at : de_name_len b p = Some (blen (e_name e)).
Proof using Ha.
  pose proof (at_size _ _ _ Ha). destruct Ha as [? ? ? ? ? ? Hn ?]. unfold de_name_len, rdb, blen in *.
  rewrite (proj2 (Z.ltb_ge _ 0)) by lia. unfold rd8 in Hn. rewrite aget_lookup in Hn.
  destruct (lookup_lt_is_Some_2 b (Z.to_nat (p + 6))) as [x Hx]; [lia|]. rewrite Hx in *. simpl in Hn. by f_equal.
Qed.

Lemma de_name_at : de_name b p (blen (e_name e)) = Some (e_name e).
Proof using Ha.
  pose proof (at_size _ _ _ Ha). pose proof (blen_nonneg (e_name e)). destruct Ha. unfold de_name.
  rewrite rds_in by lia. by f_equal.
Qed.

Lemma dirent_valid_at : dirent_valid b p = Some true.
Proof using Ha.
  pose proof (at_size _ _ _ Ha). unfold dirent_valid. rewrite de_name_len_at, de_rec_len_at. destruct Ha. simpl.
  rewrite (proj2 (Z.ltb_ge (blen b) p)), (proj2 (Z.ltb_ge (blen b - p) 8)) by lia. simpl.
  rewrite (proj2 (Z.ltb_ge (e_rec e) _)), (proj2 (Z.ltb_ge (blen b - p) _)) by lia. done.
Qed.

(** The entry is live and has the name. *)
Definition is_entry (name : list Z) (e : ent) : bool := negb (e_ino e =? 0) && bool_decide (e_name e = name).

Lemma de_is_at name : de_is b p name = Some (is_entry name e).
Proof using Ha.
  unfold de_is, is_entry. rewrite de_inode_at, de_name_len_at. cbn [mbind option_bind].
  destruct (e_ino e =? 0); [done|]. cbn [orb negb andb].
  destruct (Z.eqb_spec (blen (e_name e)) (blen name)) as [E|E]; cbn [negb].
  - rewrite <- E, de_name_at. done.
  - rewrite bool_decide_false; [done|]. intros E'. by rewrite E' in E.
Qed.
End reads.

(** ** Lookup is the first live entry with the name *)

Fixpoint lookup (es : list ent) (name : list Z) : Z :=
  match es with
  | [] => 0
  | e :: es' => if is_entry name e then e_ino e else lookup es' name
  end.

(** A walk ends at the end of the block or at an invalid entry. *)
Definition stops (b : list Z) (q : Z) : Prop := blen b <= q \/ dirent_valid b q = Some false.

(** The valid entries of the block, from its start to where a walk ends. *)
Definition entries (b : list Z) (es : list ent) : Prop := exists q, seg b 0 es q /\ stops b q.

Lemma seg_fuel b p es q : seg b p es q -> (length es < walk_fuel b)%nat.
Proof. intros H. apply seg_bounds in H. unfold walk_fuel, blen in *. lia. Qed.

(** The three loops that look for a name share their walk: [hit] is what they do when they find it. *)
Lemma name_loop_seg {A} (loop : nat -> Z -> option A) (hit : Z -> option A) (miss : A) b name :
  (forall f p, loop (S f) p = if p <? blen b then v ← dirent_valid b p;
     if negb v then Some miss else m ← de_is b p name; if (m : bool) then hit p else rec ← de_rec_len b p; loop f (p + rec)
     else Some miss) ->
  forall es f p q, seg b p es q -> stops b q -> (length es < f)%nat ->
  (Forall (fun e => is_entry name e = false) es /\ loop f p = Some miss) \/
  (exists es1 e es2 r, es = es1 ++ e :: es2 /\ Forall (fun e => is_entry name e = false) es1 /\ is_entry name e = true /\
     seg b p es1 r /\ at_ b r e /\ seg b (r + e_rec e) es2 q /\ loop f p = hit r).
Proof.
  intros E. induction es as [|e es IH]; intros f p q H Hq Hf; (destruct f as [|f]; [simpl in Hf; lia|]); rewrite E.
  - left. split; [done|]. inversion H; subst. destruct (Z.ltb_spec q (blen b)) as [Hlt|]; [|done].
    destruct Hq as [?|Hv]; [lia|]. by rewrite Hv.
  - inversion H as [|? ? ? ? Ha Hs]; subst. pose proof (at_size _ _ _ Ha). pose proof (at_fit _ _ _ Ha).
    rewrite (proj2 (Z.ltb_lt p _)) by lia. rewrite (dirent_valid_at _ _ _ Ha). cbn [mbind option_bind negb].
    rewrite (de_is_at _ _ _ Ha). cbn [mbind option_bind]. destruct (is_entry name e) eqn:He.
    + right. exists [], e, es, p. pose proof (at_p _ _ _ Ha). do 3 (split; [done|]). split; [|done]. constructor. lia.
    + rewrite (de_rec_len_at _ _ _ Ha). cbn [mbind option_bind].
      destruct (IH f _ _ Hs Hq ltac:(simpl in Hf; lia)) as [[Hall ->]|(es1 & e' & es2 & r & -> & Hall & He' & Hs1 & Hs2 & Hs3 & ->)].
      * left. by split; [constructor|].
      * right. exists (e :: es1), e', es2, r. do 2 (split; [by constructor|]). split; [done|]. split; [by constructor|done].
Qed.

Lemma lookup_none es name : Forall (fun e => is_entry name e = false) es -> lookup es name = 0.
Proof. induction 1 as [|e es H _ IH]; [done|]. simpl. by rewrite H. Qed.

Lemma lookup_first es1 e es2 name : Forall (fun e => is_entry name e = false) es1 -> is_entry name e = true ->
  lookup (es1 ++ e :: es2) name = e_ino e.
Proof. induction 1 as [|e' es H _ IH]; intros He; simpl; [by rewrite He|]. rewrite H. auto. Qed.

Lemma dir_find_entries b es name : entries b es -> dir_find_in_block b name = Some (lookup es name).
Proof.
  intros (q & Hs & Hq).
  destruct (name_loop_seg (fun f p => find_loop f b p name) (de_inode b) 0 b name ltac:(done) es _ _ _ Hs Hq (seg_fuel _ _ _ _ Hs))
    as [[Hall E]|(es1 & e & es2 & r & -> & Hall & He & H1 & H2 & H3 & E)]; unfold dir_find_in_block; rewrite E.
  - by rewrite lookup_none.
  - by rewrite lookup_first, (de_inode_at _ _ _ H2).
Qed.

(** Every block has entries, whatever its bytes. *)
Lemma valid_at b p : bytes b -> 0 <= p -> dirent_valid b p = Some false \/ exists e, at_ b p e.
Proof.
  intros Hb Hp. unfold dirent_valid. destruct (Z.ltb_spec (blen b) p); [by left|].
  destruct (Z.ltb_spec (blen b - p) 8); [by left|]. cbn [orb].
  unfold de_name_len, rdb. rewrite (proj2 (Z.ltb_ge _ 0)) by lia.
  destruct (lookup_lt_is_Some_2 b (Z.to_nat (p + 6))) as [n Hn]; [unfold blen in *; lia|]. rewrite Hn.
  assert (is_u8 n) as Hu by by eapply Forall_lookup_1. cbn [mbind option_bind].
  unfold de_rec_len. rewrite rds_in by lia. cbn [mbind option_bind]. set (rec := le_val _).
  destruct (Z.ltb_spec rec (entry_size n)) as [|Hr]; [by left|].
  destruct (Z.ltb_spec (blen b - p) rec); [by left|]. right.
  rewrite entry_size_eq in Hr by done. unfold is_u8 in Hu.
  assert (blen (slice b (p + 8) n) = n) as Hl by (apply blen_slice; lia).
  exists (mk_ent (rd32 b p) rec (slice b (p + 8) n)). split; cbn [e_ino e_rec e_name]; rewrite ?Hl; try done; try lia.
  - rewrite entry_size_eq by done. lia.
  - unfold rd8. rewrite aget_lookup, Hn. done.
Qed.

Lemma entries_from b n p : bytes b -> 0 <= p <= blen b -> blen b - p < Z.of_nat n ->
  exists es q, seg b p es q /\ stops b q.
Proof.
  intros Hb. revert p. induction n as [|n IH]; intros p Hp Hn; [lia|].
  destruct (valid_at b p Hb ltac:(lia)) as [Hv|[e Ha]].
  - exists [], p. split; [by constructor|by right].
  - pose proof (at_size _ _ _ Ha). pose proof (at_fit _ _ _ Ha).
    destruct (IH (p + e_rec e) ltac:(lia) ltac:(lia)) as (es & q & Hs & Hq).
    exists (e :: es), q. split; [by constructor|done].
Qed.

Lemma entries_exist b : bytes b -> exists es, entries b es.
Proof.
  intros Hb. destruct (entries_from b (S (length b)) 0 Hb) as (es & q & H); [unfold blen; lia..|]. by exists es, q.
Qed.

(** ** Stores keep the entries they do not touch *)

Lemma at_put b p e off s : at_ b p e -> 0 <= off -> off + blen s <= blen b ->
  off + blen s <= p \/ p + e_rec e <= off -> at_ (put b off s) p e.
Proof.
  intros Ha Ho Hl Hd. pose proof (at_size _ _ _ Ha) as Hsz. pose proof (blen_nonneg (e_name e)). destruct Ha as [H1 H2 H3 H4 H5 H6 H7 H8].
  split; rewrite ?blen_put by done; try done.
  - unfold rd32. rewrite slice_put_ne by lia. done.
  - unfold rd16. rewrite slice_put_ne by lia. done.
  - unfold rd8. rewrite aget_put, decide_False by lia. done.
  - rewrite slice_put_ne by lia. done.
Qed.

Lemma seg_put b p es q off s : seg b p es q -> 0 <= off -> off + blen s <= blen b ->
  off + blen s <= p \/ q <= off -> seg (put b off s) p es q.
Proof.
  intros H Ho Hl Hd. induction H as [p H|p e es q Ha Hs IH].
  - constructor. by rewrite blen_put.
  - pose proof (seg_bounds _ _ _ _ Hs). pose proof (at_size _ _ _ Ha). constructor; [apply at_put; auto; lia|apply IH; lia].
Qed.

(** Where the walk stops depends only on the bytes from there on. *)
Lemma stops_put b q off s : stops b q -> 0 <= off -> off + blen s <= blen b -> off + blen s <= q -> stops (put b off s) q.
Proof.
  intros [H|H] Ho Hl Hq; [left; by rewrite blen_put|]. pose proof (blen_nonneg s).
  destruct (Z.le_gt_cases (blen b) q); [left; by rewrite blen_put|]. right.
  unfold dirent_valid in *. rewrite blen_put by done. destruct ((blen b <? q) || _) eqn:E; [done|].
  apply orb_false_iff in E as [_ E%Z.ltb_ge].
  assert (forall k, q <= k < blen b -> rdb (put b off s) k = rdb b k) as Hb.
  { intros k Hk. unfold rdb. rewrite !(proj2 (Z.ltb_ge k 0)) by lia.
    pose proof (aget_put b off s k Ho Hl ltac:(lia)) as Hg. rewrite decide_False in Hg by lia.
    rewrite !aget_lookup in Hg.
    assert (length (put b off s) = length b) as Hlen by (apply (blen_put b off s Ho) in Hl; unfold blen in Hl; lia).
    unfold blen in *. destruct (lookup_lt_is_Some_2 b (Z.to_nat k)) as [x Hx]; [lia|].
    destruct (lookup_lt_is_Some_2 (put b off s) (Z.to_nat k)) as [y Hy]; [lia|]. rewrite Hx, Hy in *. simpl in Hg. by f_equal. }
  unfold de_name_len, de_rec_len in *. rewrite Hb by lia.
  rewrite rds_in in H by lia. rewrite rds_in by (rewrite ?blen_put; lia).
  rewrite slice_put_ne by lia. exact H.
Qed.

Lemma le_val_wire32 v : is_u32 v -> le_val (le_bytes 4 v) = v.
Proof. intros H. rewrite le_val_bytes. apply Z.mod_small. exact H. Qed.

Lemma le_val_wire16 v : is_u16 v -> le_val (le_bytes 2 v) = v.
Proof. intros H. rewrite le_val_bytes. apply Z.mod_small. exact H. Qed.

(** Overwriting the inode number of an entry. *)
Lemma at_set_ino b p e v : at_ b p e -> is_u32 v -> at_ (wr32 b p v) p (mk_ent v (e_rec e) (e_name e)).
Proof.
  intros Ha Hv. pose proof (at_size _ _ _ Ha) as Hsz. pose proof (blen_nonneg (e_name e)).
  destruct Ha as [H1 H2 H3 H4 H5 H6 H7 H8]. assert (blen (le_bytes 4 v) = 4) as Hl by apply blen_le_bytes. unfold wr32.
  split; cbn [e_ino e_rec e_name]; rewrite ?blen_put by lia; try done.
  - unfold rd32. rewrite slice_put_eq by lia. by apply le_val_wire32.
  - unfold rd16. rewrite slice_put_ne by lia. done.
  - unfold rd8. rewrite aget_put, decide_False by lia. done.
  - rewrite slice_put_ne by lia. done.
Qed.

(** Filling an entry whose record length is set and large enough. *)
Lemma at_fill b p ino name ftype rec : 0 <= p -> p + rec <= blen b -> is_u8 (blen name) -> entry_size (blen name) <= rec ->
  rd16 b (p + 4) = rec -> is_u32 ino -> at_ (fill_entry b p ino name ftype) p (mk_ent ino rec name).
Proof.
  intros Hp Hf Hn Hm Hr Hi. pose proof Hm as Hm'. rewrite entry_size_eq in Hm' by done. pose proof (blen_nonneg name).
  unfold fill_entry, wr32, wr8. set (b1 := put b p (le_bytes 4 ino)).
  assert (blen b1 = blen b) as L1 by (apply blen_put; rewrite ?blen_le_bytes; lia).
  set (b2 := put b1 (p + 6) (le_bytes 1 (blen name))).
  assert (blen b2 = blen b) as L2 by (unfold b2; rewrite blen_put; rewrite ?blen_le_bytes; lia).
  set (b3 := put b2 (p + 7) (le_bytes 1 ftype)).
  assert (blen b3 = blen b) as L3 by (unfold b3; rewrite blen_put; rewrite ?blen_le_bytes; lia).
  assert (forall o n, 0 <= o -> 0 <= n -> o + n <= p + 8 -> slice (put b3 (p + 8) name) o n = slice b3 o n) as E4
    by (intros; apply slice_put_ne; lia).
  assert (forall o n, 0 <= o -> 0 <= n -> o + n <= p + 7 -> slice b3 o n = slice b2 o n) as E3
    by (intros; apply slice_put_ne; rewrite ?blen_le_bytes; lia).
  assert (forall o n, 0 <= o -> 0 <= n -> o + n <= p + 6 -> slice b2 o n = slice b1 o n) as E2
    by (intros; apply slice_put_ne; rewrite ?blen_le_bytes; lia).
  split; cbn [e_ino e_rec e_name]; rewrite ?blen_put by lia; try done; try lia.
  - unfold rd32. rewrite E4, E3, E2 by lia. unfold b1. rewrite slice_put_eq by (rewrite ?blen_le_bytes; lia). by apply le_val_wire32.
  - unfold rd16. rewrite E4, E3, E2 by lia. unfold b1. rewrite slice_put_ne by (rewrite ?blen_le_bytes; lia). exact Hr.
  - unfold rd8. rewrite aget_put, decide_False by lia. unfold b3. rewrite aget_put, decide_False by (rewrite ?blen_le_bytes; lia).
    unfold b2. rewrite aget_put, decide_True by (rewrite ?blen_le_bytes; lia). replace (p + 6 - (p + 6)) with 0 by lia.
    unfold is_u8 in Hn. change (aget 0 (le_bytes 1 (blen name)) 0) with (blen name mod 256). apply Z.mod_small. lia.
  - apply slice_put_eq; lia.
Qed.

(** The four stores of [fill_entry] stay inside the entry. *)
Lemma fill_outside (P : list Z -> Prop) b p ino name ftype :
  (forall b' off s, blen b' = blen b -> p <= off -> off + blen s <= p + 8 + blen name -> P b' -> P (put b' off s)) ->
  0 <= p -> p + 8 + blen name <= blen b -> P b -> P (fill_entry b p ino name ftype) /\ blen (fill_entry b p ino name ftype) = blen b.
Proof.
  intros Hput Hp Hl HP. pose proof (blen_nonneg name). unfold fill_entry, wr32, wr8.
  assert (blen (put b p (le_bytes 4 ino)) = blen b) as L1 by (apply blen_put; rewrite ?blen_le_bytes; lia).
  assert (blen (put (put b p (le_bytes 4 ino)) (p + 6) (le_bytes 1 (blen name))) = blen b) as L2
    by (rewrite blen_put; rewrite ?blen_le_bytes; lia).
  assert (blen (put (put (put b p (le_bytes 4 ino)) (p + 6) (le_bytes 1 (blen name))) (p + 7) (le_bytes 1 ftype)) = blen b) as L3
    by (rewrite blen_put; rewrite ?blen_le_bytes; lia).
  split; [|rewrite blen_put; lia].
  repeat (apply Hput; [done|rewrite ?blen_le_bytes; lia..|]). done.
Qed.

Lemma seg_fill b p es q r ino name ftype : seg b p es q -> 0 <= r -> r + 8 + blen name <= blen b ->
  r + 8 + blen name <= p \/ q <= r -> seg (fill_entry b r ino name ftype) p es q.
Proof.
  intros H Hr Hl Hd.
  destruct (fill_outside (fun b' => seg b' p es q) b r ino name ftype) as [H' _]; try done.
  intros b' off s Hb Ho Hs H'. apply seg_put; [done|lia|lia|lia].
Qed.

Lemma stops_fill b q r ino name ftype : stops b q -> 0 <= r -> r + 8 + blen name <= blen b -> r + 8 + blen name <= q ->
  stops (fill_entry b r ino name ftype) q.
Proof.
  intros H Hr Hl Hd.
  destruct (fill_outside (fun b' => stops b' q) b r ino name ftype) as [H' _]; try done.
  intros b' off s Hb Ho Hs H'. apply stops_put; [done|lia|lia|lia].
Qed.

Lemma bytes_fill b p ino name ftype : bytes b -> bytes name -> bytes (fill_entry b p ino name ftype).
Proof. intros. unfold fill_entry, wr32, wr8. repeat apply put_bytes; try done; apply le_bytes_bytes. Qed.

(** ** Insertion and removal on the entries *)

(** What an insertion does to the entries: a dead entry comes to life, or the last one gives up its slack. *)
Inductive added (ino : Z) (name : list Z) : list ent -> list ent -> Prop :=
  | added_reuse es1 e es2 : e_ino e = 0 ->
      added ino name (es1 ++ e :: es2) (es1 ++ mk_ent ino (e_rec e) name :: es2)
  | added_split es1 e : e_ino e <> 0 ->
      added ino name (es1 ++ [e])
        (es1 ++ [mk_ent (e_ino e) (entry_size (blen (e_name e))) (e_name e);
                 mk_ent ino (e_rec e - entry_size (blen (e_name e))) name]).

Section add.
Context (b : list Z) (ino : Z) (name : list Z) (ftype : Z).
Context (Hb : bytes b) (Hlen : blen b <= 65535) (Hino : is_u32 ino) (Hname : bytes name) (Hn : is_u8 (blen name)).

(** The entry at [r], dead and large enough, is reused. *)
Lemma reuse_spec es1 e es2 r q : seg b 0 es1 r -> at_ b r e -> seg b (r + e_rec e) es2 q -> stops b q ->
  entry_size (blen name) <= e_rec e ->
  let b' := fill_entry b r ino name ftype in
  entries b' (es1 ++ mk_ent ino (e_rec e) name :: es2) /\ blen b' = blen b /\ bytes b'.
Proof using Hb Hino Hn Hname.
  intros H1 Ha H2 Hq Hr b'. pose proof Hr as Hr'. rewrite entry_size_eq in Hr' by done. pose proof (blen_nonneg name).
  pose proof (seg_bounds _ _ _ _ H1). pose proof (seg_bounds _ _ _ _ H2). destruct Ha as [A1 A2 A3 A4 A5 A6 A7 A8].
  split; [|split; [by apply (fill_outside (fun _ => True)); try done; lia|by apply bytes_fill]].
  exists q. split; [|apply stops_fill; [done|lia..]].
  apply seg_app. exists r. split; [apply seg_fill; [done|lia|lia|lia]|]. constructor.
  - apply at_fill; (done || lia).
  - apply seg_fill; [done|lia|lia|]. cbn [e_rec]. lia.
Qed.

(** The last entry, at [r], is cut to its size and the new one follows it. *)
Lemma split_spec es1 e r : seg b 0 es1 r -> at_ b r e -> r + e_rec e = blen b ->
  let actual := entry_size (blen (e_name e)) in
  let slack := e_rec e - actual in
  entry_size (blen name) <= slack ->
  let b' := fill_entry (wr16 (wr16 b (r + 4) actual) (r + actual + 4) slack) (r + actual) ino name ftype in
  entries b' (es1 ++ [mk_ent (e_ino e) actual (e_name e); mk_ent ino slack name]) /\ blen b' = blen b /\ bytes b'.
Proof using Hb Hino Hlen Hn Hname.
  intros H1 Ha He actual slack Hs b'. pose proof (at_size _ _ _ Ha) as Hsz. pose proof (at_name_len _ _ _ Ha) as Hnl.
  pose proof Hs as Hs'. rewrite entry_size_eq in Hs' by done. pose proof (blen_nonneg name). pose proof (blen_nonneg (e_name e)).
  assert (8 + blen (e_name e) <= actual) as Hact by (unfold actual; rewrite entry_size_eq by done; lia).
  pose proof (seg_bounds _ _ _ _ H1). destruct Ha as [A1 A2 A3 A4 A5 A6 A7 A8].
  assert (entry_size (blen (e_name e)) <= actual) as Hmin by done. clearbody actual. unfold slack in *.
  unfold wr16 in b'. set (b1 := put b (r + 4) (le_bytes 2 actual)) in *.
  assert (blen b1 = blen b) as L1 by (apply blen_put; rewrite ?blen_le_bytes; lia).
  set (b2 := put b1 (r + actual + 4) (le_bytes 2 (e_rec e - actual))) in *.
  assert (blen b2 = blen b) as L2 by (unfold b2; rewrite blen_put; rewrite ?blen_le_bytes; lia).
  assert (blen b' = blen b) as L3.
  { unfold b'. rewrite <- L2. apply (fill_outside (fun _ => True)); try done; lia. }
  split; [|split; [done|]; apply bytes_fill; [|done]; repeat apply put_bytes; try done; apply le_bytes_bytes].
  exists (blen b). split; [|left; lia].
  apply seg_app. exists r. split.
  { apply seg_fill; [|lia|lia|lia]. unfold b2. apply seg_put; rewrite ?blen_le_bytes; try lia.
    unfold b1. apply seg_put; rewrite ?blen_le_bytes; (done || lia). }
  assert (at_ b1 r (mk_ent (e_ino e) actual (e_name e))) as Hat.
  { unfold b1. split; cbn [e_ino e_rec e_name]; rewrite ?blen_put by (rewrite ?blen_le_bytes; lia); try done; try lia.
    - unfold rd32. rewrite slice_put_ne by (rewrite ?blen_le_bytes; lia). done.
    - unfold rd16. rewrite slice_put_eq by (rewrite ?blen_le_bytes; lia). apply le_val_wire16. unfold is_u16. lia.
    - unfold rd8. rewrite aget_put, decide_False by (rewrite ?blen_le_bytes; lia). done.
    - rewrite slice_put_ne by (rewrite ?blen_le_bytes; lia). done. }
  apply seg_cons.
  - assert (seg b2 r [mk_ent (e_ino e) actual (e_name e)] (r + actual)) as Hs2.
    { unfold b2. apply seg_put; rewrite ?blen_le_bytes; try lia. constructor; [done|]. cbn [e_rec]. constructor. lia. }
    assert (seg b' r [mk_ent (e_ino e) actual (e_name e)] (r + actual)) as Hs3 by (apply seg_fill; [done|lia|lia|lia]).
    inversion Hs3; subst. done.
  - cbn [e_rec]. apply seg_cons.
    + unfold b'. apply at_fill; try done; try lia. unfold b2, rd16. rewrite slice_put_eq by (rewrite ?blen_le_bytes; lia).
      apply le_val_wire16. unfold is_u16. lia.
    + cbn [e_rec]. replace (r + actual + (e_rec e - actual)) with (blen b) by lia. constructor. rewrite L3. pose proof (blen_nonneg b). lia.
Qed.

(** The loop finds the first place, or none. *)
Lemma add_loop_spec es0 es f p q : seg b 0 es0 p -> seg b p es q -> stops b q -> (length es < f)%nat ->
  add_loop f b p ino name ftype = Some None \/
  exists b' es', add_loop f b p ino name ftype = Some (Some b') /\ added ino name (es0 ++ es) es' /\ entries b' es' /\
    blen b' = blen b /\ bytes b'.
Proof using Hb Hino Hlen Hn Hname.
  revert es0 f p. induction es as [|e es IH]; intros es0 f p H0 H Hq Hf; (destruct f as [|f]; [simpl in Hf; lia|]); cbn [add_loop].
  - left. inversion H; subst. destruct (Z.ltb_spec q (blen b)) as [Hlt|]; [|done].
    destruct Hq as [?|Hv]; [lia|]. by rewrite Hv.
  - inversion H as [|? ? ? ? Ha Hs]; subst. pose proof (at_size _ _ _ Ha). pose proof (at_fit _ _ _ Ha).
    pose proof (at_min _ _ _ Ha) as Hmin. pose proof (at_p _ _ _ Ha).
    rewrite (proj2 (Z.ltb_lt p _)) by lia. rewrite (dirent_valid_at _ _ _ Ha). cbn [mbind option_bind negb].
    rewrite (de_inode_at _ _ _ Ha), (de_name_len_at _ _ _ Ha), (de_rec_len_at _ _ _ Ha). cbn [mbind option_bind].
    destruct ((e_ino e =? 0) && (entry_size (blen name) <=? e_rec e)) eqn:E1.
    { right. apply andb_prop in E1 as [E1%Z.eqb_eq E2%Z.leb_le].
      destruct (reuse_spec es0 e es p q H0 Ha Hs Hq E2) as [He Hl]. do 2 eexists. split; [done|]. split; [by constructor|done]. }
    assert (0 <= entry_size (blen (e_name e))) by (rewrite entry_size_eq by apply Ha; pose proof (blen_nonneg (e_name e)); lia).
    rewrite u32_small by (unfold is_u32; lia).
    destruct (_ && _ && _) eqn:E2.
    + right. apply andb_prop in E2 as [[E2%Z.leb_le E3%negb_true_iff]%andb_prop E4%Z.leb_le].
      apply Z.eqb_neq in E3. assert (es = []) as ->.
      { destruct es as [|e' es]; [done|]. inversion Hs as [|? ? ? ? Ha' Hs']; subst. pose proof (at_size _ _ _ Ha').
        pose proof (at_fit _ _ _ Ha'). lia. }
      destruct (split_spec es0 e p H0 Ha ltac:(lia) E4) as [He Hl].
      do 2 eexists. split; [done|]. split; [by constructor|done].
    + destruct (IH (es0 ++ [e]) f (p + e_rec e)) as [->|(b' & es' & -> & Ha' & He' & Hl')]; [|done|done| | |].
      * apply seg_app. exists p. split; [done|]. constructor; [done|]. constructor. lia.
      * simpl in Hf. lia.
      * by left.
      * right. exists b', es'. split; [done|]. rewrite <- app_assoc in Ha'. done.
Qed.
End add.

(** ** The block as a map from names to inode numbers *)

Definition hits (name : list Z) (es : list ent) : list ent := List.filter (is_entry name) es.

(** No name has two live entries. *)
Definition uniq (es : list ent) : Prop := forall name, (length (hits name es) <= 1)%nat.

Lemma hits_app name es1 es2 : hits name (es1 ++ es2) = hits name es1 ++ hits name es2.
Proof. apply List.filter_app. Qed.

Lemma hits_cons name e es : hits name (e :: es) = if is_entry name e then e :: hits name es else hits name es.
Proof. done. Qed.

Lemma lookup_hits es name : lookup es name = match hits name es with e :: _ => e_ino e | [] => 0 end.
Proof. induction es as [|e es IH]; [done|]. rewrite hits_cons. simpl. by destruct (is_entry name e). Qed.

Lemma is_entry_ino name e : is_entry name e = true -> e_ino e <> 0 /\ e_name e = name.
Proof. intros [H1%negb_true_iff H2%bool_decide_eq_true]%andb_prop. by apply Z.eqb_neq in H1. Qed.

Lemma is_entry_dead name e : e_ino e = 0 -> is_entry name e = false.
Proof. unfold is_entry. by intros ->. Qed.

Lemma is_entry_live ino rec n name : ino <> 0 -> is_entry name (mk_ent ino rec n) = bool_decide (n = name).
Proof. intros H. unfold is_entry. cbn [e_ino e_name]. by rewrite (proj2 (Z.eqb_neq ino 0)) by done. Qed.

Lemma lookup_zero_hits es name : lookup es name = 0 -> hits name es = [].
Proof.
  rewrite lookup_hits. destruct (hits name es) as [|e l] eqn:E; [done|]. intros H.
  assert (In e (hits name es)) as He by (rewrite E; by left). apply List.filter_In in He as [_ He].
  by apply is_entry_ino in He as [? _].
Qed.

Lemma hits_none name es : Forall (fun e => is_entry name e = false) es -> hits name es = [].
Proof. induction 1 as [|e es He _ IH]; [done|]. by rewrite hits_cons, He. Qed.

(** A map is determined by its hits. *)
Lemma map_from_hits es es' name ino :
  uniq es -> (forall n, n <> name -> length (hits n es') = length (hits n es) /\ lookup es' n = lookup es n) ->
  (length (hits name es') <= 1)%nat -> lookup es' name = ino ->
  uniq es' /\ forall n, lookup es' n = if bool_decide (n = name) then ino else lookup es n.
Proof.
  intros Hu Ho Hl Hi. split.
  - intros n. destruct (decide (n = name)) as [->|Hne]; [done|]. destruct (Ho n Hne) as [-> _]. apply Hu.
  - intros n. destruct (bool_decide_reflect (n = name)) as [->|Hne]; [done|]. by apply Ho.
Qed.

Lemma removed_map es1 e es2 name : uniq (es1 ++ e :: es2) -> is_entry name e = true ->
  Forall (fun e => is_entry name e = false) es1 ->
  let es' := es1 ++ mk_ent 0 (e_rec e) (e_name e) :: es2 in
  uniq es' /\ forall n, lookup es' n = if bool_decide (n = name) then 0 else lookup (es1 ++ e :: es2) n.
Proof.
  intros Hu He Hall es'. destruct (is_entry_ino _ _ He) as [_ Hn].
  assert (forall n, hits n es' = hits n es1 ++ hits n es2) as Hh.
  { intros n. unfold es'. rewrite hits_app, hits_cons. by rewrite is_entry_dead. }
  apply map_from_hits; [done| | |].
  - intros n Hne. assert (hits n es' = hits n (es1 ++ e :: es2)) as E; [|rewrite !lookup_hits, E; done].
    rewrite Hh, hits_app, hits_cons.
    assert (is_entry n e = false) as ->; [|done]. unfold is_entry. rewrite bool_decide_false by congruence. by rewrite andb_false_r.
  - specialize (Hu name). rewrite hits_app, hits_cons, He in Hu. rewrite Hh. rewrite length_app in *. simpl in Hu. lia.
  - specialize (Hu name). rewrite hits_app, hits_cons, He, (hits_none _ _ Hall) in Hu. simpl in Hu.
    rewrite lookup_hits, Hh, (hits_none _ _ Hall). by destruct (hits name es2); [|simpl in Hu; lia].
Qed.

Lemma added_map ino name es es' : added ino name es es' -> ino <> 0 -> uniq es -> lookup es name = 0 ->
  uniq es' /\ forall n, lookup es' n = if bool_decide (n = name) then ino else lookup es n.
Proof.
  intros Ha Hi Hu H0. pose proof (lookup_zero_hits _ _ H0) as Hh.
  assert ((forall n, n <> name -> map (fun e => e_ino e) (hits n es') = map (fun e => e_ino e) (hits n es)) /\
          map (fun e => e_ino e) (hits name es') = [ino]) as [Ho Hn].
  { destruct Ha as [es1 e es2 He|es1 e He].
    - rewrite hits_app, hits_cons, (is_entry_dead _ _ He) in Hh. apply app_eq_nil in Hh as [Hh1 Hh2].
      split.
      + intros n Hne. rewrite !hits_app, !hits_cons, (is_entry_dead _ _ He), is_entry_live by done.
        by rewrite bool_decide_false.
      + by rewrite hits_app, hits_cons, is_entry_live, bool_decide_true, Hh1, Hh2.
    - rewrite hits_app in Hh. apply app_eq_nil in Hh as [Hh1 Hh2].
      assert (forall n k, is_entry n (mk_ent (e_ino e) k (e_name e)) = is_entry n e) as Hk by done.
      split.
      + intros n Hne. rewrite !hits_app, !hits_cons, Hk, is_entry_live by done. rewrite bool_decide_false by done.
        rewrite !map_app. f_equal. destruct (is_entry n e); done.
      + rewrite !hits_app, !hits_cons, Hk, is_entry_live, bool_decide_true, Hh1 by done.
        rewrite hits_cons in Hh2. by destruct (is_entry name e). }
  assert (forall n l, lookup l n = match map (fun e => e_ino e) (hits n l) with i :: _ => i | [] => 0 end) as Hlk.
  { intros n l. rewrite lookup_hits. by destruct (hits n l). }
  apply map_from_hits; [done| | |].
  - intros n Hne. specialize (Ho n Hne). split; [|by rewrite !Hlk, Ho].
    apply (f_equal length) in Ho. by rewrite !length_map in Ho.
  - apply (f_equal length) in Hn. rewrite length_map in Hn. simpl in Hn. lia.
  - by rewrite Hlk, Hn.
Qed.

(** ** Whatever the block holds *)

(** Lookup finds a 32-bit inode number, and removal, ".." and insertion give a block of the same size. *)
Lemma find_safe b name : bytes b -> exists i, dir_find_in_block b name = Some i /\ is_u32 i.
Proof.
  intros Hb. destruct (entries_exist b Hb) as [es He]. exists (lookup es name). split; [by apply dir_find_entries|].
  destruct He as (q & Hs & _). rewrite lookup_hits. destruct (hits name es) as [|e l] eqn:E; [done|].
  assert (e ∈ es) as Hin.
  { assert (e ∈ hits name es) as Hh by (rewrite E; left). unfold hits in Hh. by apply list_elem_of_In, filter_In in Hh as [Hh%list_elem_of_In _]. }
  clear E. induction Hs as [|p e' es q Ha Hs IH]; [by apply not_elem_of_nil in Hin|].
  apply elem_of_cons in Hin as [->|Hin]; [|by apply IH]. rewrite <- (at_ino _ _ _ Ha). unfold rd32.
  pose proof (at_size _ _ _ Ha). pose proof (at_fit _ _ _ Ha). pose proof (at_p _ _ _ Ha).
  pose proof (le_val_range (slice b p 4) (slice_bytes _ _ _ Hb)) as Hr. rewrite blen_slice in Hr by lia.
  unfold is_u32. by change (256 ^ 4) with 4294967296 in Hr.
Qed.

Lemma set_ino_safe (loop : nat -> Z -> option (option (list Z))) b name w :
  bytes b ->
  (forall f p, loop (S f) p = if p <? blen b then v ← dirent_valid b p;
     if negb v then Some None else m ← de_is b p name; if (m : bool) then Some (Some (wr32 b p w)) else rec ← de_rec_len b p; loop f (p + rec)
     else Some None) ->
  exists r, loop (walk_fuel b) 0 = Some r /\ forall b', r = Some b' -> bytes b' /\ blen b' = blen b.
Proof.
  intros Hb Heq. destruct (entries_exist b Hb) as (es & q & Hs & Hq).
  destruct (name_loop_seg loop (fun p => Some (Some (wr32 b p w))) None b name Heq es _ _ _ Hs Hq (seg_fuel _ _ _ _ Hs))
    as [[_ E]|(es1 & e & es2 & r & -> & _ & _ & _ & Ha & _ & E)]; rewrite E; eexists; (split; [done|]); intros b' [= <-].
  pose proof (at_size _ _ _ Ha). pose proof (at_fit _ _ _ Ha). pose proof (at_p _ _ _ Ha).
  split; [by apply put_bytes, le_bytes_bytes|]. apply blen_put; rewrite ?blen_le_bytes; lia.
Qed.

Lemma remove_safe b name : bytes b ->
  exists r, remove_in_block b name = Some r /\ forall b', r = Some b' -> bytes b' /\ blen b' = blen b.
Proof. intros Hb. by apply (set_ino_safe (fun f p => remove_loop f b p name) b name 0). Qed.

Lemma dotdot_safe b parent : bytes b ->
  exists r, dotdot_loop (walk_fuel b) b 0 parent = Some r /\ forall b', r = Some b' -> bytes b' /\ blen b' = blen b.
Proof. intros Hb. by apply (set_ino_safe (fun f p => dotdot_loop f b p parent) b DOTDOT parent). Qed.

Lemma add_safe b ino name ftype : bytes b -> blen b <= 65535 -> is_u32 ino -> bytes name -> blen name < 256 ->
  exists r, add_in_block b ino name ftype = Some r /\ forall b', r = Some b' -> bytes b' /\ blen b' = blen b.
Proof.
  intros Hb Hl Hi Hn Hnl. destruct (entries_exist b Hb) as (es & q & Hs & Hq). pose proof (blen_nonneg b). pose proof (blen_nonneg name).
  destruct (add_loop_spec b ino name ftype Hb Hl Hi Hn ltac:(unfold is_u8; lia) [] es (walk_fuel b) 0 q)
    as [E|(b' & es' & E & _ & _ & Hl' & Hb')]; [constructor; lia|done|done|by eapply seg_fuel| |];
    unfold add_in_block; rewrite E; eexists; (split; [done|]); by intros ? [= <-].
Qed.

(** C19: a directory block is a map from names to inode numbers, for every content of the block, also a corrupt
    one. The lookup, removal and insertion of the source read nothing outside the block, finish, and act on the
    valid entries: the lookup returns the inode number of the first live entry with the name, or 0. In a block
    where no name occurs twice, a removal that succeeds unmaps exactly that name, and fails only when the
    name is not there; an insertion of a new name that finds room maps exactly that name; the block keeps its size
    and no name occurs twice in the result. *)
Theorem dir_block_map b :
  bytes b -> blen b <= 65535 ->
  exists es, entries b es /\ (forall name, dir_find_in_block b name = Some (lookup es name)) /\
  (uniq es ->
   (forall name, exists r, remove_in_block b name = Some r /\
      match r with
      | None => lookup es name = 0
      | Some b' => lookup es name <> 0 /\ bytes b' /\ blen b' = blen b /\
          exists es', entries b' es' /\ uniq es' /\ forall n, lookup es' n = if bool_decide (n = name) then 0 else lookup es n
      end) /\
   (forall ino name ftype, is_u32 ino -> ino <> 0 -> bytes name -> blen name < 256 -> lookup es name = 0 ->
      exists r, add_in_block b ino name ftype = Some r /\
      match r with
      | None => True
      | Some b' => bytes b' /\ blen b' = blen b /\
          exists es', entries b' es' /\ uniq es' /\ forall n, lookup es' n = if bool_decide (n = name) then ino else lookup es n
      end)).
Proof.
  intros Hb Hlen. destruct (entries_exist b Hb) as [es He]. exists es. split; [done|].
  split; [intros; by apply dir_find_entries|]. intros Hu. pose proof He as (q & Hs & Hq). split.
  - intros name.
    destruct (name_loop_seg (fun f p => remove_loop f b p name) (fun p => Some (Some (wr32 b p 0))) None b name ltac:(done)
                es _ _ _ Hs Hq (seg_fuel _ _ _ _ Hs))
      as [[Hall E]|(es1 & e & es2 & r & -> & Hall & Hi & H1 & H2 & H3 & E)]; unfold remove_in_block; rewrite E.
    { exists None. split; [done|]. by apply lookup_none. }
    exists (Some (wr32 b r 0)). split; [done|]. pose proof (at_size _ _ _ H2). pose proof (at_fit _ _ _ H2). pose proof (at_p _ _ _ H2).
    pose proof (seg_bounds _ _ _ _ H3).
    split; [rewrite lookup_first by done; by apply is_entry_ino in Hi as [? _]|].
    split; [by apply put_bytes, le_bytes_bytes|]. split; [apply blen_put; rewrite ?blen_le_bytes; lia|].
    exists (es1 ++ mk_ent 0 (e_rec e) (e_name e) :: es2). split; [|by apply removed_map].
    exists q. split; [|apply stops_put; rewrite ?blen_le_bytes; (done || lia)].
    apply seg_app. exists r. split; [apply seg_put; rewrite ?blen_le_bytes; (done || lia)|].
    constructor; [by apply at_set_ino|]. cbn [e_rec]. apply seg_put; rewrite ?blen_le_bytes; (done || lia).
  - intros ino name ftype Hino Hi0 Hnb Hnl H0. pose proof (blen_nonneg b). pose proof (blen_nonneg name).
    destruct (add_loop_spec b ino name ftype Hb Hlen Hino Hnb ltac:(unfold is_u8; lia) [] es (walk_fuel b) 0 q) as [E|(b' & es' & E & Ha & He' & Hl & Hb')];
      [constructor; lia|done|done|by eapply seg_fuel| |]; unfold add_in_block; rewrite E.
    + by exists None.
    + exists (Some b'). do 3 (split; [done|]). exists es'. split; [done|]. by apply added_map.
Qed.

(** ** Listing *)

Definition listed (flags : Z) (e : ent) : bool :=
  negb (e_ino e =? 0) && (0 <? blen (e_name e)) &&
  negb ((bool_decide (e_name e = [46]) || bool_decide (e_name e = DOTDOT)) && (Z.land flags 1 =? 0)).

(** The names that fit, each with a newline. *)
Definition list_ent (bufsz flags : Z) (out : list Z) (e : ent) : list Z :=
  if listed flags e && (blen out + blen (e_name e) + 1 <? bufsz) then out ++ e_name e ++ [10] else out.

Lemma list_ent_bound bufsz flags out e : blen out < bufsz -> blen (list_ent bufsz flags out e) < bufsz.
Proof.
  intros H. unfold list_ent. destruct (_ && _) eqn:E; [|done]. apply andb_prop in E as [_ E%Z.ltb_lt].
  rewrite !blen_app. change (blen [10]) with 1. lia.
Qed.

Lemma list_fold_bound bufsz flags es out : blen out < bufsz -> blen (foldl (list_ent bufsz flags) out es) < bufsz.
Proof. revert out. induction es as [|e es IH]; intros o Ho; [done|]. cbn [foldl]. by apply IH, list_ent_bound. Qed.

Lemma seg_name_bytes b p es q : bytes b -> seg b p es q -> Forall (fun e => bytes (e_name e)) es.
Proof. intros Hb. induction 1 as [|p e es q Ha Hs IH]; constructor; [|done]. rewrite <- (at_nm _ _ _ Ha). by apply slice_bytes. Qed.

Lemma list_fold_bytes bufsz flags es out : bytes out -> Forall (fun e => bytes (e_name e)) es -> bytes (foldl (list_ent bufsz flags) out es).
Proof.
  intros Ho He. revert out Ho. induction He as [|e es Hn He IH]; intros out Ho; [done|]. cbn [foldl]. apply IH. unfold list_ent.
  destruct (_ && _); [|done]. apply Forall_app. split; [done|]. apply Forall_app. split; [done|by repeat constructor].
Qed.

Lemma list_dir_block_entries b es bufsz flags out : entries b es -> bufsz <= 2 ^ 31 -> blen out < bufsz ->
  list_dir_block b bufsz flags out = Some (foldl (list_ent bufsz flags) out es).
Proof.
  intros (q & Hseg & Hq) Hs Ho.
  unfold list_dir_block. pose proof (seg_fuel _ _ _ _ Hseg) as Hf. revert Hseg Hf Ho. generalize 0 (walk_fuel b) out.
  induction es as [|e es IH]; intros p f o H Hf Ho'; (destruct f as [|f]; [simpl in Hf; lia|]); cbn [list_loop foldl].
  + inversion H; subst. destruct (Z.ltb_spec q (blen b)) as [Hlt|]; [|done]. destruct Hq as [?|Hv]; [lia|]. by rewrite Hv.
  + inversion H as [|? ? ? ? Ha Hs']; subst. pose proof (at_size _ _ _ Ha). pose proof (at_fit _ _ _ Ha).
    pose proof (at_name_len _ _ _ Ha) as Hn. unfold is_u8 in Hn. pose proof (blen_nonneg o).
    rewrite (proj2 (Z.ltb_lt p _)) by lia. rewrite (dirent_valid_at _ _ _ Ha). cbn [mbind option_bind negb].
    rewrite (de_inode_at _ _ _ Ha), (de_name_len_at _ _ _ Ha), (de_rec_len_at _ _ _ Ha). cbn [mbind option_bind].
    rewrite (de_name_at _ _ _ Ha). assert (length es < f)%nat as Hf' by (simpl in Hf; lia).
    pose proof (list_ent_bound bufsz flags o e Ho') as Hbd.
    rewrite <- (IH _ f _ Hs' Hf' Hbd). unfold list_ent, listed.
    rewrite u32_small by (unfold is_u32; lia).
    destruct (negb (e_ino e =? 0) && (0 <? blen (e_name e))); cbn [andb mbind option_bind]; [|done].
    destruct (_ && (Z.land flags 1 =? 0)); cbn [negb andb]; [done|]. by destruct (_ <? bufsz).
Qed.

(** Listing a directory block, also a corrupt one, reads nothing outside the block, finishes, and writes the
    names of its live entries (without the dot entries unless they are asked for), each followed by a newline,
    leaving out those that do not fit; the text never exceeds the buffer and leaves room for the final NUL. *)
Theorem list_dir_block_correct b bufsz flags out :
  bytes b -> bufsz <= 2 ^ 31 -> blen out < bufsz ->
  exists es, entries b es /\ list_dir_block b bufsz flags out = Some (foldl (list_ent bufsz flags) out es) /\
  blen (foldl (list_ent bufsz flags) out es) < bufsz.
Proof.
  intros Hb Hs Ho. destruct (entries_exist b Hb) as [es He]. exists es.
  split; [done|]. split; [by apply list_dir_block_entries|by apply list_fold_bound].
Qed.

(** ** Paths *)

Lemma last_slash_app pre name : Forall (fun c => c <> 47) name -> last_slash (pre ++ 47 :: name) = length pre.
Proof.
  intros Hn. unfold last_slash. rewrite length_app. cbn [length].
  replace (length pre + S (length name))%nat with (S (length pre) + length name)%nat by lia.
  rewrite seq_app, foldl_app, seq_S, foldl_app. cbn [foldl Nat.add].
  rewrite bool_decide_true by (rewrite lookup_app_r, Nat.sub_diag by lia; done).
  assert (forall k m, (length pre < k)%nat -> (k + m <= length (pre ++ 47%Z :: name))%nat ->
    foldl (fun last i => if bool_decide ((pre ++ 47 :: name) !! i = Some 47) then i else last) (length pre) (seq k m) = length pre) as H.
  { intros k m. revert k. induction m as [|m IH]; intros k Hk Hl; [done|]. cbn [seq foldl].
    rewrite bool_decide_false; [apply IH; lia|]. rewrite lookup_app_r by lia.
    replace (k - length pre)%nat with (S (k - length pre - 1)) by lia. cbn [lookup list_lookup].
    intros E. rewrite Forall_lookup in Hn. by apply Hn in E. }
  apply H; [lia|]. rewrite length_app. cbn [length]. lia.
Qed.

(** [path_split] of a path splits it at its last slash. *)
Lemma path_split_app pre name : Forall (fun c => c <> 47) name -> 0 < blen name <= 254 -> blen pre < 256 ->
  path_split (pre ++ 47 :: name) = Some (Some (match pre with [] => [47] | _ => pre end, name)).
Proof.
  intros Hn Hl Hp. unfold path_split. rewrite last_slash_app by done.
  replace (drop (S (length pre)) (pre ++ 47 :: name)) with name.
  2: { rewrite drop_app_ge by lia. replace (S (length pre) - length pre)%nat with 1%nat by lia. done. }
  rewrite (proj2 (Z.eqb_neq (blen name) 0)), (proj2 (Z.ltb_ge 254 _)) by lia. cbn [orb].
  destruct pre as [|c pre]; [done|]. unfold blen in Hp.
  rewrite (proj2 (Z.eqb_neq _ 0)), (proj2 (Z.ltb_ge 256 _)) by (cbn [length] in *; lia).
  by rewrite take_app_length.
Qed.

(** Finding: a path whose parent has 256 bytes or more is copied past the end of the caller's buffer. *)
Example path_split_overflows : path_split (replicate 300 97 ++ [47; 98]) = None.
Proof. by vm_compute. Qed.

(** ** A directory with two entries *)

Definition sample_dir : list Z :=
  match add_in_block (new_dir_block 1024 12 [46] 2) 2 [46; 46] 2 with Some (Some b) => b | _ => [] end.

Lemma sample_dir_bytes : bytes sample_dir.
Proof. apply bytes_check. by vm_compute. Qed.

Lemma dir_block_map_witness : exists es, entries sample_dir es /\ dir_find_in_block sample_dir [46; 46] = Some (lookup es [46; 46]).
Proof.
  destruct (dir_block_map sample_dir sample_dir_bytes ltac:(by vm_compute)) as (es & He & Hf & _).
  exists es. exact (conj He (Hf [46; 46])).
Defined.

Lemma list_dir_block_correct_witness : exists es,
  entries sample_dir es /\ list_dir_block sample_dir 64 1 [] = Some (foldl (list_ent 64 1) [] es).
Proof.
  destruct (list_dir_block_correct sample_dir 64 1 [] sample_dir_bytes ltac:(done) ltac:(done)) as (es & He & Hl & _).
  exists es. exact (conj He Hl).
Defined.

Example sample_listing : list_dir_block sample_dir 64 1 [] = Some [46; 10; 46; 46; 10].
Proof. by vm_compute. Qed.

End Ext2Dir.
