(* ===== verification/Ext2.v ===== *)
(** * The ext2 file system

    Models [kernel/fs/ext2.c] over the directory blocks of [Ext2Dir].

    The block device is the list of its bytes; a request outside it fails. Every request to the device
    and every allocation of a buffer asks the oracle [ok] whether it succeeds, so the definitions cover
    all the failures the source handles; a failed write leaves the device as it was. Buffers are
    allocated and freed in pairs on every path and have no other effect. [fs->scratch] is read only
    directly after it is filled, so a block that is read into it is returned instead.

    A function is in [T]: it returns ([Ok]), reports a failure ([Err], the [false] or null of the source,
    with the state it leaves), or faults ([Fault]: a division by zero, or an access outside a buffer).
    A loop that runs out of fuel faults as well.

    An inode, a group descriptor and the cached superblock are the lists of their bytes, with their
    fields at the offsets of the packed structs. *)

From S2P Require Import Prelude Bytes CString Ext2Dir.
Import Ext2Dir.

Module Ext2.

Definition EXT2_SUPER_MAGIC : Z := 0xef53.
Definition EXT2_ROOT_INO : Z := 2.
Definition EXT2_FT_REG_FILE : Z := 1.
Definition EXT2_FT_DIR : Z := 2.
Definition EXT2_IMODE_REG : Z := 0x8000.
Definition EXT2_IMODE_DIR : Z := 0x4000.
Definition sizeof_bgd : Z := 32.
Definition sizeof_inode : Z := 128.
Definition sizeof_super : Z := 1024.

(** ** On-disk structures *)

(** [ext2_super_t]. *)
Definition s_inodes_count (sb : list Z) : Z := rd32 sb 0.
Definition s_blocks_count (sb : list Z) : Z := rd32 sb 4.
Definition s_free_blocks_count (sb : list Z) : Z := rd32 sb 12.
Definition s_free_inodes_count (sb : list Z) : Z := rd32 sb 16.
Definition s_first_data_block (sb : list Z) : Z := rd32 sb 20.
Definition s_log_block_size (sb : list Z) : Z := rd32 sb 24.
Definition s_blocks_per_group (sb : list Z) : Z := rd32 sb 32.
Definition s_inodes_per_group (sb : list Z) : Z := rd32 sb 40.
Definition s_magic (sb : list Z) : Z := rd16 sb 56.
Definition s_rev_level (sb : list Z) : Z := rd32 sb 76.
Definition s_inode_size (sb : list Z) : Z := rd16 sb 88.

(** [ext2_bgd_t]. *)
Definition bg_block_bitmap (g : list Z) : Z := rd32 g 0.
Definition bg_inode_bitmap (g : list Z) : Z := rd32 g 4.
Definition bg_inode_table (g : list Z) : Z := rd32 g 8.
Definition bg_free_blocks_count (g : list Z) : Z := rd16 g 12.
Definition bg_free_inodes_count (g : list Z) : Z := rd16 g 14.

(** [ext2_inode_t]. *)
Definition i_mode (i : list Z) : Z := rd16 i 0.
Definition i_uid (i : list Z) : Z := rd16 i 2.
Definition i_size (i : list Z) : Z := rd32 i 4.
Definition i_mtime (i : list Z) : Z := rd32 i 16.
Definition i_gid (i : list Z) : Z := rd16 i 24.
Definition i_links_count (i : list Z) : Z := rd16 i 26.
Definition i_blocks (i : list Z) : Z := rd32 i 28.
Definition i_block (i : list Z) (b : Z) : Z := rd32 i (40 + 4 * b).
Definition set_i_block (i : list Z) (b v : Z) : list Z := wr32 i (40 + 4 * b) v.

(** The fields of [struct ext2_fs] that [ext2_mount] sets and nothing changes. *)
Record ext2_fs := mk_fs {
  part_lba : Z; block_size : Z; inodes_per_group : Z; blocks_per_group : Z; inode_size : Z;
  first_data_block : Z; bgd_block : Z }.

(** The device, the cached superblock (the 1024 bytes of it that are on the device), and how many requests
    the oracle has answered. *)
Record st := mk_st { disk : list Z; cached_sb : list Z; asked : nat }.
Definition set_disk v (s : st) : st := mk_st v (cached_sb s) (asked s).
Definition set_sb v (s : st) : st := mk_st (disk s) v (asked s).

Inductive res (A : Type) : Type :=
  | Ok (a : A)
  | Err
  | Fault.
Arguments Ok {A} a.
Arguments Err {A}.
Arguments Fault {A}.

Definition T (A : Type) : Type := st -> res A * st.
#[global] Instance T_ret : MRet T := fun _ a s => (Ok a, s).
#[global] Instance T_bind : MBind T := fun _ _ f m s =>
  match m s with
  | (Ok a, s') => f a s'
  | (Err, s') => (Err, s')
  | (Fault, s') => (Fault, s')
  end.
Definition fail {A} : T A := fun s => (Err, s).
Definition fault {A} : T A := fun s => (Fault, s).
Definition try_ {A} (m : T A) : T (option A) := fun s =>
  match m s with
  | (Ok a, s') => (Ok (Some a), s')
  | (Err, s') => (Ok None, s')
  | (Fault, s') => (Fault, s')
  end.
Definition lift {A} (o : option A) : T A := match o with Some a => mret a | None => fault end.
Definition get_sb : T (list Z) := fun s => (Ok (cached_sb s), s).
Definition put_sb (v : list Z) : T unit := fun s => (Ok (), set_sb v s).
Definition guard (c : bool) : T unit := if c then mret () else fail.
(** [a / b] and [a % b]. *)
Definition divmod (a b : Z) : T (Z * Z) := if b =? 0 then fault else mret (a / b, a mod b).

(** A checked [memcpy] into a buffer, and a checked 32-bit entry of one. *)
Definition put_in (b : list Z) (off : Z) (src : list Z) : option (list Z) :=
  if (off <? 0) || (blen b <? off + blen src) then None else Some (put b off src).
Definition word_at (b : list Z) (i : Z) : option Z := l ← rds b (4 * i) 4; Some (le_val l).

Section oracle.
Context (ok : nat -> bool).

Definition ask : T unit := fun s =>
  (if ok (asked s) then Ok () else Err, mk_st (disk s) (cached_sb s) (S (asked s))).
Definition alloc_buf : T unit := ask.

Definition on_device (lba count : Z) (d : list Z) : bool := (lba + count) * 512 <=? blen d.
Definition dev_read (lba count : Z) : T (list Z) := fun s =>
  (if on_device lba count (disk s) then Ok (slice (disk s) (lba * 512) (count * 512)) else Err, s).
Definition dev_write (lba count : Z) (data : list Z) : T unit := fun s =>
  if on_device lba count (disk s) then (Ok (), set_disk (put (disk s) (lba * 512) data) s) else (Err, s).

Definition blkdev_read (lba count : Z) : T (list Z) := _ ← ask; dev_read lba count.
Definition blkdev_write (lba count : Z) (data : list Z) : T unit := _ ← ask; dev_write lba count data.

Section fs.
Context (fs : ext2_fs).

(** ** Blocks *)

Definition secs_per_block : Z := block_size fs / 512.
Definition block_lba (block_no : Z) : Z := u64 (part_lba fs + block_no * secs_per_block).

(** [for (s = 0; s < secs_per_block; s += 8)]: at most 8 sectors per request. *)
Fixpoint read_batches (fuel : nat) (lba s : Z) (vp : list Z) : T (list Z) :=
  match fuel with
  | O => fault
  | S f =>
      if s <? secs_per_block then
        let batch := if 8 <? secs_per_block - s then 8 else secs_per_block - s in
        d ← blkdev_read (u64 (lba + s)) batch; read_batches f lba (s + 8) (vp ++ d)
      else mret vp
  end.

Fixpoint write_batches (fuel : nat) (lba s : Z) (vp : list Z) : T unit :=
  match fuel with
  | O => fault
  | S f =>
      if s <? secs_per_block then
        let batch := if 8 <? secs_per_block - s then 8 else secs_per_block - s in
        _ ← blkdev_write (u64 (lba + s)) batch (slice vp (s * 512) (batch * 512)); write_batches f lba (s + 8) vp
      else mret ()
  end.

Definition batches : nat := S (Z.to_nat secs_per_block).

Definition read_block (block_no : Z) : T (list Z) :=
  _ ← alloc_buf; read_batches batches (block_lba block_no) 0 [].

Definition write_block (block_no : Z) (buf : list Z) : T unit :=
  _ ← alloc_buf; write_batches batches (block_lba block_no) 0 buf.

Definition write_super : T unit :=
  _ ← alloc_buf; sb ← get_sb; blkdev_write (u64 (part_lba fs + 2)) 2 sb.

(** ** Inodes and group descriptors *)

Definition bgds_per_block : Z := block_size fs / sizeof_bgd.

(** The block and the slot of the descriptor of group [g]. *)
Definition bgd_place (g : Z) : T (Z * Z) :=
  '(o, slot) ← divmod g bgds_per_block; mret (u32 (bgd_block fs + o), slot).

Definition read_bgd (g : Z) : T (list Z) :=
  '(blk, slot) ← bgd_place g;
  b ← read_block blk;
  lift (rds b (slot * sizeof_bgd) sizeof_bgd).

Definition write_bgd (g : Z) (bgd : list Z) : T unit :=
  '(blk, slot) ← bgd_place g;
  _ ← alloc_buf;
  b ← read_block blk;
  b' ← lift (put_in b (slot * sizeof_bgd) bgd);
  write_block blk b'.

(** The block of the inode table that has the inode of this index, and its slot there. *)
Definition inode_place (bgd : list Z) (index : Z) : T (Z * Z) :=
  '(inodes_per_block, _) ← divmod (block_size fs) (inode_size fs);
  '(o, slot) ← divmod index inodes_per_block;
  mret (u32 (bg_inode_table bgd + o), slot).

Definition read_inode (ino : Z) : T (list Z) :=
  _ ← guard (negb (ino =? 0));
  '(group, index) ← divmod (ino - 1) (inodes_per_group fs);
  bgd ← read_bgd group;
  '(blk, slot) ← inode_place bgd index;
  b ← read_block blk;
  lift (rds b (slot * inode_size fs) sizeof_inode).

Definition write_inode (ino : Z) (inode : list Z) : T unit :=
  _ ← guard (negb (ino =? 0));
  '(group, index) ← divmod (ino - 1) (inodes_per_group fs);
  _ ← alloc_buf;
  bgd ← read_bgd group;
  '(blk, slot) ← inode_place bgd index;
  b ← read_block blk;
  b' ← lift (put_in b (slot * inode_size fs) inode);
  write_block blk b'.

(** ** Bitmaps *)

(** [bmap[i / 8] & (1U << (i % 8))], and the updates of that byte. *)
Definition bit_is_set (bmap : list Z) (i : Z) : option bool :=
  x ← rdb bmap (i / 8); Some (negb (Z.land x (Z.shiftl 1 (i mod 8)) =? 0)).
Definition bit_set (bmap : list Z) (i : Z) : option (list Z) :=
  x ← rdb bmap (i / 8); Some (aset bmap (i / 8) (u8 (Z.lor x (Z.shiftl 1 (i mod 8))))).
Definition bit_clear (bmap : list Z) (i : Z) : option (list Z) :=
  x ← rdb bmap (i / 8); Some (aset bmap (i / 8) (u8 (Z.land x (u32 (Z.lnot (Z.shiftl 1 (i mod 8))))))).

(** The first clear bit among the [n] from [i] on. *)
Fixpoint first_clear (n : nat) (bmap : list Z) (i : Z) : option (option Z) :=
  match n with
  | O => Some None
  | S n' => b ← bit_is_set bmap i; if (b : bool) then first_clear n' bmap (i + 1) else Some (Some i)
  end.

(** [(count + per_group - 1) / per_group]. *)
Definition num_groups (count per_group : Z) : T Z :=
  '(n, _) ← divmod (u32 (count + per_group - 1)) per_group; mret n.

Definition blocks_in_group (sb : list Z) (g : Z) : Z :=
  if s_blocks_count sb <? u32 ((g + 1) * blocks_per_group fs) then u32 (s_blocks_count sb - g * blocks_per_group fs)
  else blocks_per_group fs.

(** The bitmap, the descriptor and the superblock are written back, and the new block cleared; none of
    the writes is checked. *)
Definition take_block (g : Z) (bgd bmap : list Z) (bit : Z) : T Z :=
  bmap' ← lift (bit_set bmap bit);
  _ ← try_ (write_block (bg_block_bitmap bgd) bmap');
  _ ← try_ (write_bgd g (wr16 bgd 12 (u16 (bg_free_blocks_count bgd - 1))));
  sb ← get_sb;
  _ ← put_sb (wr32 sb 12 (u32 (s_free_blocks_count sb - 1)));
  _ ← try_ write_super;
  let block_no := u32 (g * blocks_per_group fs + first_data_block fs + bit) in
  _ ← try_ (_ ← alloc_buf; write_block block_no (zeros (block_size fs)));
  mret block_no.

(** [n] groups are left, [g] is the next one. 0 stands for failure, as in the source. *)
Fixpoint alloc_block_from (n : nat) (g : Z) : T Z :=
  match n with
  | O => mret 0
  | S n' =>
      r ← try_ (read_bgd g);
      match r with
      | None => alloc_block_from n' (g + 1)
      | Some bgd =>
          if bg_free_blocks_count bgd =? 0 then alloc_block_from n' (g + 1)
          else
            a ← try_ alloc_buf;
            match a with
            | None => mret 0
            | Some _ =>
                r ← try_ (read_block (bg_block_bitmap bgd));
                match r with
                | None => alloc_block_from n' (g + 1)
                | Some bmap =>
                    sb ← get_sb;
                    bit ← lift (first_clear (Z.to_nat (blocks_in_group sb g)) bmap 0);
                    match bit with
                    | None => alloc_block_from n' (g + 1)
                    | Some bit => take_block g bgd bmap bit
                    end
                end
            end
      end
  end.

Definition alloc_block : T Z :=
  sb ← get_sb;
  n ← num_groups (s_blocks_count sb) (blocks_per_group fs);
  alloc_block_from (Z.to_nat n) 0.

Definition free_block (block_no : Z) : T unit :=
  if block_no <? first_data_block fs then mret ()
  else
    '(g, bit) ← divmod (block_no - first_data_block fs) (blocks_per_group fs);
    _ ← try_ (
      bgd ← read_bgd g;
      _ ← alloc_buf;
      bmap ← read_block (bg_block_bitmap bgd);
      bmap' ← lift (bit_clear bmap bit);
      _ ← try_ (write_block (bg_block_bitmap bgd) bmap');
      _ ← try_ (write_bgd g (wr16 bgd 12 (u16 (bg_free_blocks_count bgd + 1))));
      sb ← get_sb;
      _ ← put_sb (wr32 sb 12 (u32 (s_free_blocks_count sb + 1)));
      write_super);
    mret ().

Definition take_inode (g : Z) (bgd bmap : list Z) (bit : Z) : T Z :=
  bmap' ← lift (bit_set bmap bit);
  _ ← try_ (write_block (bg_inode_bitmap bgd) bmap');
  _ ← try_ (write_bgd g (wr16 bgd 14 (u16 (bg_free_inodes_count bgd - 1))));
  sb ← get_sb;
  _ ← put_sb (wr32 sb 16 (u32 (s_free_inodes_count sb - 1)));
  _ ← try_ write_super;
  mret (u32 (g * inodes_per_group fs + bit + 1)).

Fixpoint alloc_inode_from (n : nat) (g : Z) : T Z :=
  match n with
  | O => mret 0
  | S n' =>
      r ← try_ (read_bgd g);
      match r with
      | None => alloc_inode_from n' (g + 1)
      | Some bgd =>
          if bg_free_inodes_count bgd =? 0 then alloc_inode_from n' (g + 1)
          else
            a ← try_ alloc_buf;
            match a with
            | None => mret 0
            | Some _ =>
                r ← try_ (read_block (bg_inode_bitmap bgd));
                match r with
                | None => alloc_inode_from n' (g + 1)
                | Some bmap =>
                    bit ← lift (first_clear (Z.to_nat (inodes_per_group fs)) bmap 0);
                    match bit with
                    | None => alloc_inode_from n' (g + 1)
                    | Some bit => take_inode g bgd bmap bit
                    end
                end
            end
      end
  end.

Definition alloc_inode : T Z :=
  sb ← get_sb;
  n ← num_groups (s_inodes_count sb) (inodes_per_group fs);
  alloc_inode_from (Z.to_nat n) 0.

Definition free_inode (ino : Z) : T unit :=
  if ino <? 2 then mret ()
  else
    '(g, bit) ← divmod (ino - 1) (inodes_per_group fs);
    _ ← try_ (
      bgd ← read_bgd g;
      _ ← alloc_buf;
      bmap ← read_block (bg_inode_bitmap bgd);
      bmap' ← lift (bit_clear bmap bit);
      _ ← try_ (write_block (bg_inode_bitmap bgd) bmap');
      _ ← try_ (write_bgd g (wr16 bgd 14 (u16 (bg_free_inodes_count bgd + 1))));
      sb ← get_sb;
      _ ← put_sb (wr32 sb 16 (u32 (s_free_inodes_count sb + 1)));
      write_super);
    mret ().

(** ** Directories *)

(** [(uint8_t)strlen(name)] bytes of the name. *)
Definition name_bytes (name : list Z) : list Z := take (Z.to_nat (u8 (blen name))) name.

(** Whether a block of the directory, from the [b]-th of its first 12 on, has taken the entry. *)
Fixpoint add_in_blocks (n : nat) (b : Z) (dir_inode : list Z) (child_ino : Z) (name : list Z) (ftype : Z) : T bool :=
  match n with
  | O => mret false
  | S n' =>
      let bno := i_block dir_inode b in
      if bno =? 0 then mret false
      else
        r ← try_ (read_block bno);
        match r with
        | None => add_in_blocks n' (b + 1) dir_inode child_ino name ftype
        | Some blk =>
            r ← lift (add_in_block blk child_ino name ftype);
            match r with
            | None => add_in_blocks n' (b + 1) dir_inode child_ino name ftype
            | Some blk' => _ ← try_ (write_block bno blk'); mret true
            end
        end
  end.

(** The first of the 12 direct pointers that is 0. *)
Fixpoint first_zero (n : nat) (b : Z) (inode : list Z) : option Z :=
  match n with
  | O => None
  | S n' => if i_block inode b =? 0 then Some b else first_zero n' (b + 1) inode
  end.

Definition dir_add_entry (dir_ino : Z) (name : list Z) (child_ino ftype : Z) : T unit :=
  let name := name_bytes name in
  dir_inode ← read_inode dir_ino;
  _ ← alloc_buf;
  added ← add_in_blocks 12 0 dir_inode child_ino name ftype;
  if (added : bool) then mret ()
  else
    new_bno ← alloc_block;
    _ ← guard (negb (new_bno =? 0));
    _ ← try_ (write_block new_bno (new_dir_block (block_size fs) child_ino name ftype));
    match first_zero 12 0 dir_inode with
    | Some b =>
        let dir_inode := set_i_block dir_inode b new_bno in
        let dir_inode := wr32 dir_inode 4 (u32 (i_size dir_inode + block_size fs)) in
        let dir_inode := wr32 dir_inode 28 (u32 (i_blocks dir_inode + block_size fs / 512)) in
        _ ← try_ (write_inode dir_ino dir_inode); mret ()
    | None => _ ← free_block new_bno; fail
    end.

Fixpoint remove_in_blocks (n : nat) (b : Z) (dir_inode name : list Z) : T unit :=
  match n with
  | O => fail
  | S n' =>
      let bno := i_block dir_inode b in
      if bno =? 0 then fail
      else
        r ← try_ (read_block bno);
        match r with
        | None => remove_in_blocks n' (b + 1) dir_inode name
        | Some blk =>
            r ← lift (remove_in_block blk name);
            match r with
            | None => remove_in_blocks n' (b + 1) dir_inode name
            | Some blk' => _ ← try_ (write_block bno blk'); mret ()
            end
        end
  end.

Definition dir_remove_entry (dir_ino : Z) (name : list Z) : T unit :=
  dir_inode ← read_inode dir_ino;
  _ ← alloc_buf;
  remove_in_blocks 12 0 dir_inode (name_bytes name).

(** ** Lookup *)

(** [for (b = 0; b < 12 && !found; ++b)]. *)
Fixpoint find_in_blocks (n : nat) (b : Z) (inode name : list Z) : T Z :=
  match n with
  | O => mret 0
  | S n' =>
      if i_block inode b =? 0 then mret 0
      else
        blk ← read_block (i_block inode b);
        found ← lift (dir_find_in_block blk name);
        if found =? 0 then find_in_blocks n' (b + 1) inode name else mret found
  end.

(** The characters before the next slash. *)
Fixpoint component (p : list Z) : list Z :=
  match p with
  | c :: p' => if c =? 47 then [] else c :: component p'
  | [] => []
  end.

(** [p] is what is left of the path; the terminator follows it. *)
Fixpoint lookup_loop (fuel : nat) (p : list Z) (cur_ino : Z) : T Z :=
  match fuel with
  | O => fault
  | S f =>
      match p with
      | [] => mret cur_ino
      | _ =>
          let n := length (component p) in
          let name_len := u8 (Z.of_nat n) in
          if name_len =? 0 then
            if bool_decide (n = length p) then fault else lookup_loop f (drop (S n) p) cur_ino
          else
            inode ← read_inode cur_ino;
            found ← find_in_blocks 12 0 inode (take (Z.to_nat name_len) p);
            _ ← guard (negb (found =? 0));
            lookup_loop f (drop (S n) p) found
      end
  end.

Definition ext2_lookup (path : list Z) : T Z :=
  match path with
  | c :: p => if c =? 47 then lookup_loop (S (length p)) p EXT2_ROOT_INO else fail
  | [] => fail
  end.

Definition ext2_lookup_ino (path : list Z) : T Z := r ← try_ (ext2_lookup path); mret (default 0 r).

Definition ext2_file_size (ino : Z) : T Z :=
  r ← try_ (read_inode ino); mret (match r with Some inode => i_size inode | None => 0 end).

(** ** Reading *)

Definition ptrs : Z := block_size fs / 4.

(** The number of the block that holds block [idx] of the file, 0 for a hole; [None] for the [break]s. *)
Definition read_ptr (inode : list Z) (idx : Z) : T (option Z) :=
  if idx <? 12 then mret (Some (i_block inode idx))
  else if idx <? 12 + ptrs then
    let indir := i_block inode 12 in
    if indir =? 0 then mret None
    else
      b ← read_block indir;
      v ← lift (word_at b (idx - 12)); mret (Some v)
  else if idx <? 12 + ptrs + ptrs * ptrs then
    let dbl_idx := idx - 12 - ptrs in
    '(l1_idx, l2_idx) ← divmod dbl_idx ptrs;
    let dbl_bno := i_block inode 13 in
    if dbl_bno =? 0 then mret None
    else
      b ← read_block dbl_bno;
      indir1 ← lift (word_at b l1_idx);
      if indir1 =? 0 then mret None
      else
        b ← read_block indir1;
        v ← lift (word_at b l2_idx); mret (Some v)
  else mret None.

(** [out] is what is in the caller's buffer. *)
Fixpoint read_loop (fuel : nat) (inode : list Z) (cur_off remaining : Z) (out : list Z) : T (Z * list Z) :=
  match fuel with
  | O => fault
  | S f =>
      if remaining <=? 0 then mret (blen out, out)
      else
        '(q, block_off) ← divmod cur_off (block_size fs);
        let block_idx := u32 q in
        r ← try_ (read_ptr inode block_idx);
        match r with
        | None => mret (-1, out)
        | Some None => mret (blen out, out)
        | Some (Some block_no) =>
            let avail := block_size fs - block_off in
            let to_copy := if remaining <? avail then remaining else avail in
            if block_no =? 0 then read_loop f inode (cur_off + to_copy) (remaining - to_copy) (out ++ zeros to_copy)
            else
              r ← try_ (read_block block_no);
              match r with
              | None => mret (-1, out)
              | Some b =>
                  d ← lift (rds b block_off to_copy);
                  read_loop f inode (cur_off + to_copy) (remaining - to_copy) (out ++ d)
              end
        end
  end.

(** The result and the bytes stored in [buf]. *)
Definition ext2_read (ino off size : Z) : T (Z * list Z) :=
  r ← try_ (read_inode ino);
  match r with
  | None => mret (-1, [])
  | Some inode =>
      let file_size := i_size inode in
      if file_size <=? off then mret (0, [])
      else
        let size := if file_size <? u64 (off + size) then file_size - off else size in
        read_loop (S (Z.to_nat size)) inode off size []
  end.

(** ** Listing *)

Fixpoint list_blocks (n : nat) (b : Z) (inode : list Z) (bufsz flags : Z) (out : list Z) : T (list Z) :=
  match n with
  | O => mret out
  | S n' =>
      if i_block inode b =? 0 then mret out
      else
        r ← try_ (read_block (i_block inode b));
        match r with
        | None => mret out
        | Some blk => out ← lift (list_dir_block blk bufsz flags out); list_blocks n' (b + 1) inode bufsz flags out
        end
  end.

(** The result and the bytes stored in [buf]. *)
Definition ext2_list_dir (dir_ino bufsz flags : Z) : T (Z * list Z) :=
  if bufsz =? 0 then mret (0, [])
  else
    r ← try_ (read_inode dir_ino);
    match r with
    | None => mret (0, [])
    | Some inode =>
        out ← list_blocks 12 0 inode bufsz flags [];
        mret (blen out, if blen out <? bufsz then out ++ [0] else out)
    end.

(** ** Writing *)

(** [i_block[k]] names an indirect block after this: a new one is cleared before it is attached. *)
Definition top_slot (inode : list Z) (k : Z) : T (list Z) :=
  if i_block inode k =? 0 then
    b ← alloc_block;
    _ ← guard (negb (b =? 0));
    _ ← write_block b (zeros (block_size fs));
    mret (set_i_block inode k b)
  else mret inode.

(** Entry [l1_idx] of the doubly-indirect block [dbl]: an indirect block, new if there was none. *)
Definition l1_slot (dbl l1_idx : Z) : T Z :=
  _ ← alloc_buf;
  l1_buf ← read_block dbl;
  v ← lift (word_at l1_buf l1_idx);
  if v =? 0 then
    l1_bno ← alloc_block;
    _ ← guard (negb (l1_bno =? 0));
    _ ← write_block l1_bno (zeros (block_size fs));
    l1_buf' ← lift (put_in l1_buf (4 * l1_idx) (le_bytes 4 l1_bno));
    _ ← write_block dbl l1_buf';
    mret l1_bno
  else mret v.

(** Entry [idx] of the indirect block [indir]: a data block, new if there was none. *)
Definition leaf_slot (indir idx : Z) : T Z :=
  _ ← alloc_buf;
  buf ← read_block indir;
  bno ← lift (word_at buf idx);
  if bno =? 0 then
    bno ← alloc_block;
    _ ← guard (negb (bno =? 0));
    buf' ← lift (put_in buf (4 * idx) (le_bytes 4 bno));
    _ ← write_block indir buf';
    mret bno
  else mret bno.

(** The inode, which may have got new pointers, and the block for block [idx] of the file; [None] for
    the [break]s. *)
Definition write_ptr (inode : list Z) (idx : Z) : T (list Z * option Z) :=
  if idx <? 12 then
    let bno := i_block inode idx in
    if bno =? 0 then
      bno ← alloc_block;
      if bno =? 0 then mret (inode, None) else mret (set_i_block inode idx bno, Some bno)
    else mret (inode, Some bno)
  else if idx <? 12 + ptrs then
    r ← try_ (top_slot inode 12);
    match r with
    | None => mret (inode, None)
    | Some inode => bno ← try_ (leaf_slot (i_block inode 12) (idx - 12)); mret (inode, bno)
    end
  else if idx <? 12 + ptrs + ptrs * ptrs then
    let dbl_idx := idx - 12 - ptrs in
    '(l1_idx, l2_idx) ← divmod dbl_idx ptrs;
    r ← try_ (top_slot inode 13);
    match r with
    | None => mret (inode, None)
    | Some inode =>
        bno ← try_ (l1_bno ← l1_slot (i_block inode 13) l1_idx; leaf_slot l1_bno l2_idx); mret (inode, bno)
    end
  else mret (inode, None).

(** [memcpy(blkbuf + block_off, src + written, to_write)] into the block [bno], whose other bytes are kept. *)
Definition write_data (bno block_off : Z) (d : list Z) : T unit :=
  b ← (if (0 <? block_off) || (blen d <? block_size fs) then read_block bno else mret (zeros (block_size fs)));
  b' ← lift (put_in b block_off d);
  write_block bno b'.

(** The inode and the number of bytes written. *)
Fixpoint write_loop (fuel : nat) (inode : list Z) (off : Z) (buf : list Z) (written : Z) : T (list Z * Z) :=
  match fuel with
  | O => fault
  | S f =>
      let size := blen buf in
      if written <? size then
        '(q, block_off) ← divmod (u64 (off + written)) (block_size fs);
        let block_idx := u32 q in
        let avail := block_size fs - block_off in
        let to_write := if size - written <? avail then size - written else avail in
        '(inode, bno) ← write_ptr inode block_idx;
        match bno with
        | None => mret (inode, written)
        | Some bno =>
            r ← try_ (write_data bno block_off (slice buf written to_write));
            match r with
            | None => mret (inode, written)
            | Some _ => write_loop f inode off buf (written + to_write)
            end
        end
      else mret (inode, written)
  end.

(** The number of non-null pointers among the first [n] from [b] on. *)
Fixpoint count_ptrs (n : nat) (b : Z) (inode : list Z) : Z :=
  match n with
  | O => 0
  | S n' => (if i_block inode b =? 0 then 0 else 1) + count_ptrs n' (b + 1) inode
  end.

(** [i_size] and [i_blocks] when the file has grown to [new_end]. *)
Definition grow (inode : list Z) (new_end : Z) : list Z :=
  if i_size inode <? new_end then
    let inode := wr32 inode 4 (u32 new_end) in
    wr32 inode 28 (u32 (count_ptrs 14 0 inode * (block_size fs / 512)))
  else inode.

Definition ext2_write (ino off : Z) (buf : list Z) : T Z :=
  if (ino =? 0) || (blen buf =? 0) then mret (-1)
  else
    r ← try_ (inode ← read_inode ino; _ ← alloc_buf; mret inode);
    match r with
    | None => mret (-1)
    | Some inode =>
        '(inode, written) ← write_loop (S (length buf)) inode off buf 0;
        if 0 <? written then
          _ ← try_ (write_inode ino (grow inode (u64 (off + written)))); mret written
        else mret written
    end.

(** ** Truncation *)

Fixpoint release_direct (n : nat) (b : Z) (inode : list Z) : T (list Z) :=
  match n with
  | O => mret inode
  | S n' =>
      if i_block inode b =? 0 then release_direct n' (b + 1) inode
      else _ ← free_block (i_block inode b); release_direct n' (b + 1) (set_i_block inode b 0)
  end.

Fixpoint release_entries (n : nat) (i : Z) (indir : list Z) : T unit :=
  match n with
  | O => mret ()
  | S n' =>
      bno ← lift (word_at indir i);
      _ ← (if bno =? 0 then mret () else free_block bno);
      release_entries n' (i + 1) indir
  end.

(** The direct blocks, the indirect block and the blocks it names are freed. *)
Definition release_blocks (inode : list Z) : T (list Z) :=
  inode ← release_direct 12 0 inode;
  inode ←
    (if i_block inode 12 =? 0 then mret inode
     else
       r ← try_ (_ ← alloc_buf; read_block (i_block inode 12));
       _ ← match r with Some indir => release_entries (Z.to_nat ptrs) 0 indir | None => mret () end;
       _ ← free_block (i_block inode 12);
       mret (set_i_block inode 12 0));
  mret (wr32 (wr32 inode 4 0) 28 0).

Definition ext2_truncate (ino : Z) : T unit :=
  _ ← guard (negb (ino <? 2));
  inode ← read_inode ino;
  inode ← release_blocks inode;
  write_inode ino inode.

(** ** Names *)

(** A new inode: [i_mode], [i_uid], [i_gid], [i_links_count]; the rest is 0. *)
Definition new_inode (mode uid gid links : Z) : list Z :=
  wr16 (wr16 (wr16 (wr16 (zeros sizeof_inode) 0 mode) 2 (u16 uid)) 24 (u16 gid)) 26 links.

(** [if (!m) { free_inode(fs, ino); return 0; }]. *)
Definition or_free {A} (m : T A) (ino : Z) : T A :=
  r ← try_ m;
  match r with Some a => mret a | None => _ ← free_inode ino; fail end.

(** The path's parent directory, with the path not in use; [Err] for the early [return 0]s. *)
Definition new_place (path : list Z) : T (Z * list Z) :=
  r ← lift (path_split path);
  match r with
  | None => fail
  | Some (parent, name) =>
      parent_ino ← ext2_lookup_ino parent;
      _ ← guard (negb (parent_ino =? 0));
      old ← ext2_lookup_ino path;
      _ ← guard (old =? 0);
      mret (parent_ino, name)
  end.

(** [Err] is the result 0. *)
Definition ext2_create (path : list Z) (uid gid : Z) : T Z :=
  '(parent_ino, name) ← new_place path;
  ino ← alloc_inode;
  _ ← guard (negb (ino =? 0));
  _ ← or_free (write_inode ino (new_inode (Z.lor EXT2_IMODE_REG 0x1a4) uid gid 1)) ino;
  _ ← or_free (dir_add_entry parent_ino name ino EXT2_FT_REG_FILE) ino;
  mret ino.

Definition ext2_mkdir (path : list Z) (uid gid : Z) : T Z :=
  '(parent_ino, name) ← new_place path;
  ino ← alloc_inode;
  _ ← guard (negb (ino =? 0));
  _ ← or_free (write_inode ino (new_inode (Z.lor EXT2_IMODE_DIR 0x1ed) uid gid 2)) ino;
  _ ← or_free (_ ← dir_add_entry ino [46] ino EXT2_FT_DIR; dir_add_entry ino DOTDOT parent_ino EXT2_FT_DIR) ino;
  _ ← or_free (dir_add_entry parent_ino name ino EXT2_FT_DIR) ino;
  _ ← try_ (par ← read_inode parent_ino; write_inode parent_ino (wr16 par 26 (u16 (i_links_count par + 1))));
  mret ino.

Definition ext2_unlink (path : list Z) : T unit :=
  r ← lift (path_split path);
  match r with
  | None => fail
  | Some (parent, name) =>
      parent_ino ← ext2_lookup_ino parent;
      ino ← ext2_lookup_ino path;
      _ ← guard (negb (parent_ino =? 0) && negb (ino =? 0));
      inode ← read_inode ino;
      let inode := if 0 <? i_links_count inode then wr16 inode 26 (i_links_count inode - 1) else inode in
      _ ← (if i_links_count inode =? 0 then
             inode ← release_blocks inode;
             _ ← try_ (write_inode ino inode);
             free_inode ino
           else _ ← try_ (write_inode ino inode); mret ());
      dir_remove_entry parent_ino name
  end.

Definition is_dir (inode : list Z) : bool := Z.land (i_mode inode) 0xf000 =? 0x4000.

(** The walk of a moved directory's blocks for its ".." entry. *)
Fixpoint update_dotdot (n : nat) (b : Z) (src_inode : list Z) (parent_ino : Z) : T unit :=
  match n with
  | O => mret ()
  | S n' =>
      let bno := i_block src_inode b in
      if bno =? 0 then mret ()
      else
        r ← try_ (read_block bno);
        match r with
        | None => update_dotdot n' (b + 1) src_inode parent_ino
        | Some blk =>
            r ← lift (dotdot_loop (walk_fuel blk) blk 0 parent_ino);
            match r with
            | None => update_dotdot n' (b + 1) src_inode parent_ino
            | Some blk' => _ ← try_ (write_block bno blk'); mret ()
            end
        end
  end.

(** An existing destination is removed, unless it is a directory. *)
Definition rename_over (new_path : list Z) : T unit :=
  dst_ino ← ext2_lookup_ino new_path;
  if dst_ino =? 0 then mret ()
  else
    dst_inode ← read_inode dst_ino;
    _ ← guard (negb (is_dir dst_inode));
    _ ← try_ (ext2_unlink new_path);
    mret ().

(** From the point where both paths have been split. *)
Definition rename_split (src_ino : Z) (new_path src_parent src_name dst_parent dst_name : list Z) : T unit :=
  src_parent_ino ← ext2_lookup_ino src_parent;
  dst_parent_ino ← ext2_lookup_ino dst_parent;
  _ ← guard (negb (src_parent_ino =? 0) && negb (dst_parent_ino =? 0));
  src_inode ← read_inode src_ino;
  let ftype := if is_dir src_inode then 2 else 1 in
  _ ← rename_over new_path;
  _ ← dir_add_entry dst_parent_ino dst_name src_ino ftype;
  r ← try_ (dir_remove_entry src_parent_ino src_name);
  match r with
  | None => _ ← try_ (dir_remove_entry dst_parent_ino dst_name); fail
  | Some _ =>
      if (ftype =? 2) && negb (src_parent_ino =? dst_parent_ino) then
        _ ← try_ (_ ← alloc_buf; update_dotdot 12 0 src_inode dst_parent_ino); mret ()
      else mret ()
  end.

Definition ext2_rename (old_path new_path : list Z) : T unit :=
  src_ino ← ext2_lookup_ino old_path;
  _ ← guard (negb (src_ino =? 0));
  early_dst ← ext2_lookup_ino new_path;
  if negb (early_dst =? 0) && (early_dst =? src_ino) then mret ()
  else
    s ← lift (path_split old_path);
    match s with
    | None => fail
    | Some (src_parent, src_name) =>
        d ← lift (path_split new_path);
        match d with
        | None => fail
        | Some (dst_parent, dst_name) => rename_split src_ino new_path src_parent src_name dst_parent dst_name
        end
    end.

(** ** Metadata *)

Definition ext2_inode_stat (ino : Z) : T (Z * Z * Z) :=
  inode ← read_inode ino; mret (i_mode inode, i_uid inode, i_gid inode).

Record ext2_stat_t := mk_stat { st_mode : Z; st_nlink : Z; st_uid : Z; st_gid : Z; st_size : Z; st_mtime : Z }.
Definition ext2_stat_full (ino : Z) : T ext2_stat_t :=
  inode ← read_inode ino;
  mret (mk_stat (i_mode inode) (i_links_count inode) (i_uid inode) (i_gid inode) (i_size inode) (i_mtime inode)).

(** [Err] is the result -1. *)
Definition ext2_chmod (path : list Z) (mode : Z) : T unit :=
  ino ← ext2_lookup_ino path;
  _ ← guard (negb (ino =? 0));
  inode ← read_inode ino;
  write_inode ino (wr16 inode 0 (u16 (Z.lor (Z.land (i_mode inode) 0xf000) (Z.land mode 0xfff)))).

Definition ext2_inode_chown (ino uid gid : Z) : T unit :=
  inode ← read_inode ino;
  write_inode ino (wr16 (wr16 inode 2 (u16 uid)) 24 (u16 gid)).

(** Total and free bytes. *)
Definition ext2_disk_stats : T (Z * Z) :=
  sb ← get_sb; mret (u64 (s_blocks_count sb * block_size fs), u64 (s_free_blocks_count sb * block_size fs)).

End fs.

(** The handle; the cached superblock is set. *)
Definition ext2_mount (part_offset_lba : Z) : T ext2_fs :=
  _ ← alloc_buf;
  sb ← blkdev_read (u64 (part_offset_lba + 2)) 2;
  _ ← guard (s_magic sb =? EXT2_SUPER_MAGIC);
  _ ← guard (negb (2 <? s_log_block_size sb));
  let block_size := Z.shiftl 1024 (s_log_block_size sb) in
  _ ← alloc_buf;
  _ ← alloc_buf;
  _ ← put_sb sb;
  mret (mk_fs part_offset_lba block_size (s_inodes_per_group sb) (s_blocks_per_group sb)
          (if 1 <=? s_rev_level sb then s_inode_size sb else 128) (s_first_data_block sb)
          (if block_size =? 1024 then 2 else 1)).

End oracle.

(** ** A small file system

    One group of 48 blocks of 1024 bytes and 16 inodes: superblock, descriptors, the two bitmaps, the inode
    table in blocks 5 and 6, the root directory in block 7. The bit of the bitmap behind the last block is set. *)
Definition sample_super : list Z :=
  wr16 (wr32 (wr32 (wr32 (wr32 (wr32 (wr32 (wr32 (zeros 1024) 0 16) 4 48) 12 40) 16 5) 20 1) 32 8192) 40 16) 56 EXT2_SUPER_MAGIC.
Definition sample_bgd : list Z := wr16 (wr16 (wr32 (wr32 (wr32 (zeros 1024) 0 3) 4 4) 8 5) 12 40) 14 5.
Definition sample_root : list Z := wr32 (wr32 (wr32 (new_inode 0x41ed 0 0 2) 4 1024) 28 2) 40 7.
Definition sample_root_dir : list Z :=
  fill_entry (wr16 (fill_entry (wr16 (zeros 1024) 4 12) 0 2 [46] 2) 16 1012) 12 2 DOTDOT 2.
Definition sample_disk : list Z :=
  zeros 1024 ++ sample_super ++ sample_bgd ++ (127 :: zeros 4 ++ 128 :: zeros 1018) ++ (255 :: 7 :: zeros 1022) ++
  put (zeros 2048) 128 sample_root ++ sample_root_dir ++ zeros (40 * 1024).
Definition sample_fs : ext2_fs := mk_fs 0 1024 16 8192 128 1 2.
Definition sample_st : st := mk_st sample_disk sample_super 4.

Definition never_fails : nat -> bool := fun _ => true.

Definition st_eqb (s s' : st) : bool :=
  bool_decide (disk s = disk s') && bool_decide (cached_sb s = cached_sb s') && bool_decide (asked s = asked s').

Lemma st_eqb_eq s s' : st_eqb s s' = true -> s = s'.
Proof. unfold st_eqb. rewrite !andb_true_iff, !bool_decide_eq_true. destruct s, s'; simpl. intros [[-> ->] ->]. done. Qed.

Lemma pair_ext {A B} (p : A * B) a b : p.1 = a -> p.2 = b -> p = (a, b).
Proof. destruct p. simpl. by intros -> ->. Qed.

Lemma sample_mount : ext2_mount never_fails 0 (mk_st sample_disk [] 0) = (Ok sample_fs, sample_st).
Proof. apply pair_ext; [by vm_compute|]. apply st_eqb_eq. by vm_compute. Qed.

End Ext2.
