(* ===== verification/Ext2Safe.v ===== *)
(** * Memory safety of the ext2 file system

    The functions of [Ext2] on any device contents and under any failures of the device and the
    allocator: [safe m Q] says that [m] does not fault, keeps the state well formed, leaves the size of
    the device as it is, and returns only results in [Q]. A rule for each construct of the monad and a
    lemma for each function give the theorem on sequences of operations, which holds for every handle
    whose geometry makes sense ([geom]); the examples show that [ext2_mount] does not check it. *)

From S2P Require Import Prelude Bytes Ext2Dir Ext2.
Import Ext2Dir Ext2.

Module Ext2Safe.

(** The geometry the code relies on. *)
Record geom (fs : ext2_fs) : Prop := {
  geom_block : block_size fs = 1024 \/ block_size fs = 2048 \/ block_size fs = 4096;
  geom_inodes : 0 < inodes_per_group fs <= 8 * block_size fs;
  geom_blocks : 0 < blocks_per_group fs <= 8 * block_size fs;
  geom_inode : 128 <= inode_size fs <= block_size fs;
}.

(** [nb] is [s_blocks_count], which no operation changes. *)
Section count.
Context (nb : Z).

Record wf (s : st) : Prop := {
  wf_disk : bytes (disk s);
  wf_sb : bytes (cached_sb s);
  wf_sb_len : blen (cached_sb s) = sizeof_super;
  wf_count : s_blocks_count (cached_sb s) = nb;
}.

Definition safe {A} (m : T A) (Q : A -> Prop) : Prop := forall s, wf s ->
  wf (m s).2 /\ blen (disk (m s).2) = blen (disk s) /\
  match (m s).1 with Ok a => Q a | Err => True | Fault => False end.

Definition opt {A} (Q : A -> Prop) (o : option A) : Prop := forall a, o = Some a -> Q a.

Create HintDb ext2 discriminated.
#[export] Hint Constants Opaque : ext2.

(** ** Rules *)

Section rules.
Context {A : Type}.
Implicit Types (m : T A) (Q : A -> Prop).

Lemma safe_ret a Q : Q a -> safe (mret a) Q.
Proof. intros HQ s Hs. done. Qed.

Lemma safe_fail Q : safe fail Q.
Proof. intros s Hs. done. Qed.

Lemma safe_bind {B} m (f : A -> T B) Q (R : B -> Prop) : safe m Q -> (forall a, Q a -> safe (f a) R) -> safe (m ≫= f) R.
Proof.
  intros Hm Hf s Hs. destruct (Hm s Hs) as (Hw & Hl & Hr). unfold mbind, T_bind.
  destruct (m s) as [[a| |] s']; cbn [fst snd] in *; [|done..].
  destruct (Hf a Hr s' Hw) as (Hw' & Hl' & Hr'). rewrite <- Hl, <- Hl'. done.
Qed.

Lemma safe_mono m Q Q' : safe m Q -> (forall a, Q a -> Q' a) -> safe m Q'.
Proof. intros Hm HQ s Hs. destruct (Hm s Hs) as (? & ? & Hr). destruct (m s) as [[a| |] ?]; naive_solver. Qed.

Lemma safe_try m Q : safe m Q -> safe (try_ m) (opt Q).
Proof.
  intros Hm s Hs. destruct (Hm s Hs) as (? & ? & Hr). unfold try_, opt. destruct (m s) as [[a| |] ?]; naive_solver.
Qed.

Lemma safe_lift o Q : (exists a, o = Some a /\ Q a) -> safe (lift o) Q.
Proof. intros (a & -> & HQ). by apply safe_ret. Qed.

End rules.

Lemma safe_guard c : safe (guard c) (fun _ => c = true).
Proof. destruct c; [by apply safe_ret|apply safe_fail]. Qed.

Lemma safe_divmod a b : 0 < b -> safe (divmod a b) (fun '(q, r) => q = a / b /\ 0 <= r < b /\ r = a mod b).
Proof. intros Hb. unfold divmod. rewrite (proj2 (Z.eqb_neq b 0)) by lia. apply safe_ret. split; [done|]. split; [|done]. by apply Z.mod_pos_bound. Qed.

Definition super (sb : list Z) : Prop := bytes sb /\ blen sb = sizeof_super /\ s_blocks_count sb = nb.

Lemma safe_get_sb : safe get_sb super.
Proof. intros s Hs. by destruct Hs. Qed.

Lemma safe_put_sb v : super v -> safe (put_sb v) (fun _ => True).
Proof. intros (? & ? & ?) s []. done. Qed.

(** Reads and writes inside a buffer. *)
Lemma rds_ok b p n : 0 <= p -> 0 <= n -> p + n <= blen b -> bytes b ->
  exists a, rds b p n = Some a /\ bytes a /\ blen a = n.
Proof. intros. exists (slice b p n). rewrite rds_in by lia. split; [done|]. split; [by apply slice_bytes|by apply blen_slice]. Qed.

Lemma put_in_ok b off src : 0 <= off -> off + blen src <= blen b -> bytes b -> bytes src ->
  exists a, put_in b off src = Some a /\ bytes a /\ blen a = blen b.
Proof.
  intros. exists (put b off src). unfold put_in. rewrite (proj2 (Z.ltb_ge _ 0)), (proj2 (Z.ltb_ge (blen b) _)) by lia.
  split; [done|]. split; [by apply put_bytes|by apply blen_put].
Qed.

Lemma word_at_ok b i : 0 <= i -> 4 * i + 4 <= blen b -> bytes b -> exists a, word_at b i = Some a /\ is_u32 a.
Proof.
  intros Hi Hl Hb. unfold word_at. destruct (rds_ok b (4 * i) 4) as (l & -> & Hbl & Hll); [lia..|done|].
  eexists. split; [done|]. pose proof (le_val_range l Hbl) as Hr. rewrite Hll in Hr. exact Hr.
Qed.

Lemma rdb_ok b p : 0 <= p < blen b -> exists x, rdb b p = Some x.
Proof.
  intros Hp. unfold rdb. rewrite (proj2 (Z.ltb_ge p 0)) by lia. unfold blen in Hp.
  apply lookup_lt_is_Some_2. lia.
Qed.

Lemma wr16_ok b off v : bytes b -> 0 <= off -> off + 2 <= blen b ->
  bytes (wr16 b off v) /\ blen (wr16 b off v) = blen b.
Proof. intros. split; [by apply put_bytes, le_bytes_bytes|]. apply blen_put; rewrite ?blen_le_bytes; lia. Qed.

Lemma wr32_ok b off v : bytes b -> 0 <= off -> off + 4 <= blen b -> bytes (wr32 b off v) /\ blen (wr32 b off v) = blen b.
Proof. intros. split; [by apply put_bytes, le_bytes_bytes|]. apply blen_put; rewrite ?blen_le_bytes; lia. Qed.

(** ** Requests *)

Section oracle.
Context (ok : nat -> bool).

Lemma safe_ask : safe (ask ok) (fun _ => True).
Proof. intros s []. unfold ask. by destruct (ok (asked s)). Qed.

Lemma safe_blkdev_read lba n : 0 <= lba -> 0 <= n ->
  safe (blkdev_read ok lba n) (fun d => bytes d /\ blen d = n * 512).
Proof.
  intros Hl Hn. eapply safe_bind; [apply safe_ask|]. intros _ _ s Hs. unfold dev_read, on_device.
  destruct (Z.leb_spec ((lba + n) * 512) (blen (disk s))); [|done]. cbn [fst snd].
  split; [done|]. split; [done|]. split; [apply slice_bytes, Hs|apply blen_slice; lia].
Qed.

Lemma safe_blkdev_write lba n d : 0 <= lba -> bytes d -> blen d = n * 512 -> safe (blkdev_write ok lba n d) (fun _ => True).
Proof.
  intros Hl Hd Hn. eapply safe_bind; [apply safe_ask|]. intros _ _ s Hs. unfold dev_write, on_device.
  destruct (Z.leb_spec ((lba + n) * 512) (blen (disk s))); [|done]. destruct Hs. cbn [fst snd].
  split; [split; [by apply put_bytes|done..]|]. split; [|done]. apply blen_put; lia.
Qed.

Section fs.
Context (fs : ext2_fs) (Hg : geom fs).

Definition block (b : list Z) : Prop := bytes b /\ blen b = block_size fs.
Definition inode_t (i : list Z) : Prop := bytes i /\ blen i = sizeof_inode.
Definition bgd_t (i : list Z) : Prop := bytes i /\ blen i = sizeof_bgd.

Ltac geo :=
  destruct Hg; unfold block, inode_t, bgd_t, bgds_per_block, ptrs in *; unfold sizeof_inode, sizeof_bgd, sizeof_super in *; try lia.

(** A block is at most 8 sectors, one request. *)
Lemma spb : 2 <= secs_per_block fs <= 8 /\ secs_per_block fs * 512 = block_size fs.
Proof using Hg. destruct Hg as [[H|[H|H]] _ _ _]; unfold secs_per_block; rewrite H; vm_compute; intuition congruence. Qed.

Lemma batch_eq : (if 8 <? secs_per_block fs - 0 then 8 else secs_per_block fs - 0) = secs_per_block fs.
Proof using Hg. pose proof spb. rewrite (proj2 (Z.ltb_ge 8 _)) by lia. lia. Qed.

Lemma batches_eq : exists n, batches fs = S (S n).
Proof using Hg. pose proof spb. exists (Z.to_nat (secs_per_block fs - 1)). unfold batches. lia. Qed.

Lemma read_block_once n : read_block ok fs n =
  (_ ← alloc_buf ok; d ← blkdev_read ok (u64 (block_lba fs n + 0)) (secs_per_block fs); mret ([] ++ d)).
Proof using Hg.
  unfold read_block. destruct batches_eq as [k ->]. cbn [read_batches]. pose proof spb.
  rewrite (proj2 (Z.ltb_lt 0 _)), batch_eq, (proj2 (Z.ltb_ge (0 + 8) _)) by lia. reflexivity.
Qed.

Lemma write_block_once n buf : block buf -> write_block ok fs n buf =
  (_ ← alloc_buf ok; _ ← blkdev_write ok (u64 (block_lba fs n + 0)) (secs_per_block fs) buf; mret ()).
Proof using Hg.
  intros [_ Hl]. unfold write_block. destruct batches_eq as [k ->]. cbn [write_batches]. pose proof spb.
  rewrite (proj2 (Z.ltb_lt 0 _)), batch_eq, (proj2 (Z.ltb_ge (0 + 8) _)) by lia.
  change (0 * 512) with 0. rewrite slice_all by lia. reflexivity.
Qed.

Lemma safe_read_block n : safe (read_block ok fs n) block.
Proof using Hg.
  rewrite read_block_once. eapply safe_bind; [apply safe_ask|]. intros _ _. pose proof spb.
  eapply safe_bind; [apply safe_blkdev_read; [apply u64_range|lia]|]. intros d [Hb Hd]. apply safe_ret. split; [done|cbn [app]; lia].
Qed.

Lemma safe_write_block n buf : block buf -> safe (write_block ok fs n buf) (fun _ => True).
Proof using Hg.
  intros Hb. rewrite write_block_once by done. eapply safe_bind; [apply safe_ask|]. intros _ _. pose proof spb. destruct Hb.
  eapply safe_bind; [apply safe_blkdev_write; [apply u64_range|done|lia]|]. intros _ _. by apply safe_ret.
Qed.

Lemma safe_write_super : safe (write_super ok fs) (fun _ => True).
Proof.
  eapply safe_bind; [apply safe_ask|]. intros _ _. eapply safe_bind; [apply safe_get_sb|]. intros sb (? & ? & _).
  apply safe_blkdev_write; [apply u64_range|done|done].
Qed.

(** ** Descriptors, inodes and bitmaps *)

Lemma safe_bgd_place g : safe (bgd_place fs g) (fun '(_, slot) => 0 <= slot < bgds_per_block fs).
Proof using Hg.
  eapply safe_bind; [apply safe_divmod; geo|]. intros [q r] (_ & Hr & _). by apply safe_ret.
Qed.

Lemma safe_read_bgd g : safe (read_bgd ok fs g) bgd_t.
Proof using Hg.
  eapply safe_bind; [apply safe_bgd_place|]. intros [blk slot] Hs. eapply safe_bind; [apply safe_read_block|]. intros b [Hb Hl].
  apply safe_lift, rds_ok; [geo..|done].
Qed.

Lemma safe_write_bgd g bgd : bgd_t bgd -> safe (write_bgd ok fs g bgd) (fun _ => True).
Proof using Hg.
  intros [Hb Hl]. eapply safe_bind; [apply safe_bgd_place|]. intros [blk slot] Hs. eapply safe_bind; [apply safe_ask|]. intros _ _.
  eapply safe_bind; [apply safe_read_block|]. intros b [Hbb Hbl].
  eapply safe_bind; [apply safe_lift, put_in_ok; [geo..|done|done]|]. intros b' [? ?]. apply safe_write_block. split; [done|lia].
Qed.

Lemma safe_inode_place bgd i : safe (inode_place fs bgd i) (fun '(_, slot) => 0 <= slot /\ slot * inode_size fs + 128 <= block_size fs).
Proof using Hg.
  eapply safe_bind; [apply safe_divmod; geo|]. intros [q r] (-> & _ & _).
  assert (0 < block_size fs / inode_size fs) by (destruct Hg; apply Z.div_str_pos; lia).
  eapply safe_bind; [by apply safe_divmod|]. intros [o slot] (_ & Hs & _). apply safe_ret. split; [lia|].
  destruct Hg. pose proof (Z.mul_div_le (block_size fs) (inode_size fs) ltac:(lia)). nia.
Qed.

Lemma safe_read_inode ino : safe (read_inode ok fs ino) inode_t.
Proof using Hg.
  eapply safe_bind; [apply safe_guard|]. intros _ _. eapply safe_bind; [apply safe_divmod; geo|]. intros [g i] _.
  eapply safe_bind; [apply safe_read_bgd|]. intros bgd _. eapply safe_bind; [apply safe_inode_place|]. intros [blk slot] [? ?].
  eapply safe_bind; [apply safe_read_block|]. intros b [Hb Hl]. apply safe_lift, rds_ok; [geo; nia..|done].
Qed.

Lemma safe_write_inode ino i : inode_t i -> safe (write_inode ok fs ino i) (fun _ => True).
Proof using Hg.
  intros [Hi Hl]. eapply safe_bind; [apply safe_guard|]. intros _ _. eapply safe_bind; [apply safe_divmod; geo|]. intros [g x] _.
  eapply safe_bind; [apply safe_ask|]. intros _ _.
  eapply safe_bind; [apply safe_read_bgd|]. intros bgd _. eapply safe_bind; [apply safe_inode_place|]. intros [blk slot] [? ?].
  eapply safe_bind; [apply safe_read_block|]. intros b [Hb Hbl].
  eapply safe_bind; [apply safe_lift, put_in_ok; [geo; nia..|done|done]|]. intros b' [? ?]. apply safe_write_block. split; [done|lia].
Qed.

#[local] Hint Resolve safe_ask safe_guard safe_get_sb safe_read_block safe_write_block safe_write_super
  safe_read_bgd safe_write_bgd safe_read_inode safe_write_inode : ext2.
#[local] Hint Extern 1 (safe (alloc_buf _) _) => apply safe_ask : ext2.
#[local] Hint Extern 1 (safe (try_ _) _) => apply safe_try : ext2.

(** The rules, as long as the functions called are known; what is left is what they ask for. *)
Ltac sstep :=
  match goal with
  | H : opt ?Q (Some ?a) |- _ => pose proof (H a eq_refl); clear H
  | H : block _ /\ _ |- _ => destruct H
  | |- safe (mret _) _ => apply safe_ret
  | |- safe fail _ => apply safe_fail
  | |- safe (mbind _ (try_ (mbind _ _))) _ => apply (safe_bind _ _ (opt (fun _ => True))); [apply safe_try | intros ? _]
  | |- safe (mbind _ _) _ => eapply safe_bind; [solve [eauto with ext2] | let x := fresh "x" in let H := fresh "H" in intros x H; cbv beta in H]
  | |- safe (match ?p with (_, _) => _ end) _ => destruct p
  | |- safe (match ?o with Some _ => _ | None => _ end) _ => destruct o eqn:?
  | |- safe (if ?c then _ else _) _ => destruct c eqn:?
  | |- safe (let x := _ in _) _ => cbv zeta
  end.
Ltac srun := repeat sstep; try (by eauto with ext2).

Lemma byte_index i n : 0 <= i < n -> n <= 8 * block_size fs -> 0 <= i / 8 < block_size fs.
Proof. lia. Qed.

Lemma bit_set_ok bmap i : block bmap -> 0 <= i / 8 < block_size fs -> exists b, bit_set bmap i = Some b /\ block b.
Proof.
  intros [Hb Hl] Hi. unfold bit_set. destruct (rdb_ok bmap (i / 8)) as [x ->]; [lia|]. eexists. split; [done|].
  split; [apply Forall_aset; [done|apply u8_range]|]. unfold blen. by rewrite aset_length.
Qed.

Lemma bit_clear_ok bmap i : block bmap -> 0 <= i / 8 < block_size fs -> exists b, bit_clear bmap i = Some b /\ block b.
Proof.
  intros [Hb Hl] Hi. unfold bit_clear. destruct (rdb_ok bmap (i / 8)) as [x ->]; [lia|]. eexists. split; [done|].
  split; [apply Forall_aset; [done|apply u8_range]|]. unfold blen. by rewrite aset_length.
Qed.

Lemma first_clear_ok bmap n i : block bmap -> 0 <= i -> i + Z.of_nat n <= 8 * block_size fs ->
  exists r, first_clear n bmap i = Some r /\ opt (fun k => i <= k < i + Z.of_nat n) r.
Proof.
  intros [Hb Hl]. revert i. induction n as [|n IH]; intros i H0 Hn; cbn [first_clear]; [by exists None|].
  unfold bit_is_set at 1. destruct (rdb_ok bmap (i / 8)) as [x ->]; [lia|]. cbn [mbind option_bind].
  destruct (negb _).
  - destruct (IH (i + 1)) as (r & -> & Hr); [lia..|]. exists r. split; [done|]. intros k Hk. specialize (Hr k Hk). cbv beta in *. lia.
  - exists (Some i). split; [done|]. intros k [= <-]. cbv beta. lia.
Qed.

Lemma bgd_wr16 bgd off v : bgd_t bgd -> 0 <= off <= 30 -> bgd_t (wr16 bgd off v).
Proof. intros [Hb Hl] Ho. unfold bgd_t. unfold sizeof_bgd in *. destruct (wr16_ok bgd off v) as [? ->]; [done|lia|lia|done]. Qed.

Lemma safe_set_sb sb off v : super sb -> 8 <= off <= 1020 -> safe (put_sb (wr32 sb off v)) (fun _ => True).
Proof.
  intros (Hb & Hl & Hn) Ho. unfold sizeof_super in *. destruct (wr32_ok sb off v) as [? El]; [done|lia|lia|].
  apply safe_put_sb. split; [done|]. split; [unfold sizeof_super; lia|]. rewrite <- Hn. unfold s_blocks_count, rd32, wr32.
  f_equal. apply slice_put_ne; rewrite ?blen_le_bytes; lia.
Qed.

Lemma zeros_block : block (zeros (block_size fs)).
Proof using Hg. split; [apply zeros_bytes|apply blen_zeros; geo]. Qed.

#[local] Hint Extern 1 (bgd_t (wr16 _ _ _)) => apply bgd_wr16; [done|lia] : ext2.
#[local] Hint Extern 1 (safe (put_sb _) _) => apply safe_set_sb; [done|lia] : ext2.
#[local] Hint Extern 1 (safe (lift (bit_set _ _)) _) => apply safe_lift, bit_set_ok; [done|done] : ext2.
#[local] Hint Extern 1 (safe (lift (bit_clear _ _)) _) => apply safe_lift, bit_clear_ok; [done|done] : ext2.
#[local] Hint Resolve zeros_block : ext2.

Lemma safe_take_block g bgd bmap bit : bgd_t bgd -> block bmap -> 0 <= bit / 8 < block_size fs ->
  safe (take_block ok fs g bgd bmap bit) is_u32.
Proof using Hg.
  intros Hd Hm Hi. unfold take_block. srun.
  by intros; apply u32_range.
Qed.

Lemma safe_take_inode g bgd bmap bit : bgd_t bgd -> block bmap -> 0 <= bit / 8 < block_size fs ->
  safe (take_inode ok fs g bgd bmap bit) is_u32.
Proof using Hg. intros Hd Hm Hi. unfold take_inode. srun. apply u32_range. Qed.

Lemma blocks_in_group_range sb g : 0 <= g -> (g + 1) * blocks_per_group fs <= s_blocks_count sb + blocks_per_group fs - 1 < 2 ^ 32 ->
  0 < blocks_in_group fs sb g <= blocks_per_group fs.
Proof using Hg.
  intros H0 H. destruct Hg. unfold blocks_in_group. rewrite u32_small by (unfold is_u32; nia).
  destruct (Z.ltb_spec (s_blocks_count sb) ((g + 1) * blocks_per_group fs)); [|lia]. rewrite u32_small by (unfold is_u32; nia). lia.
Qed.

#[local] Hint Resolve safe_take_block safe_take_inode : ext2.

Lemma safe_alloc_block_from n g : 0 <= g ->
  (g + Z.of_nat n) * blocks_per_group fs <= nb + blocks_per_group fs - 1 < 2 ^ 32 ->
  safe (alloc_block_from ok fs n g) is_u32.
Proof using Hg.
  revert g. induction n as [|n IH]; intros g H0 Hn; cbn [alloc_block_from]; [by apply safe_ret|].
  assert (safe (alloc_block_from ok fs n (g + 1)) is_u32) by (apply IH; lia). clear IH. srun.
  match goal with H : super ?v |- _ => rename v into sb, H into Hsb end.
  pose proof (blocks_in_group_range sb g H0) as Hr. destruct Hsb as (_ & _ & Hnb). rewrite Hnb in Hr. specialize (Hr ltac:(destruct Hg; nia)).
  eapply safe_bind; [apply safe_lift, first_clear_ok; [done|lia|geo]|]. intros r Hk. srun.
  apply safe_take_block; [done|done|]. eapply byte_index; [cbv beta in *; rewrite Z2Nat.id in * by lia; eassumption|geo].
Qed.

Lemma safe_alloc_inode_from n g : safe (alloc_inode_from ok fs n g) is_u32.
Proof using Hg.
  revert g. induction n as [|n IH]; intros g; cbn [alloc_inode_from]; [by apply safe_ret|]. srun.
  eapply safe_bind; [apply safe_lift, first_clear_ok; [done|lia|geo]|]. intros r Hk. srun.
  apply safe_take_inode; [done|done|]. eapply byte_index; [cbv beta in *; eassumption|geo].
Qed.

Lemma safe_num_groups c p : 0 < p -> is_u32 c -> p <= 2 ^ 15 ->
  safe (num_groups c p) (fun n => 0 <= n /\ (n = 0 \/ n * p <= c + p - 1 < 2 ^ 32)).
Proof.
  intros Hp Hc Hl. eapply safe_bind; [by apply safe_divmod|]. intros [n ?] (-> & _ & _). apply safe_ret. unfold is_u32 in Hc.
  destruct (Z.lt_ge_cases (c + p - 1) (2 ^ 32)).
  - rewrite u32_small by (unfold is_u32; lia). split; [apply Z.div_pos; lia|]. right. split; [|done].
    rewrite Z.mul_comm. by apply Z.mul_div_le.
  - assert (u32 (c + p - 1) = c + p - 1 - 2 ^ 32) as -> by (unfold u32; lia). rewrite Z.div_small by lia. lia.
Qed.

Lemma sb_u32 sb off : bytes sb -> 0 <= off -> off + 4 <= blen sb -> is_u32 (rd32 sb off).
Proof.
  intros Hb H0 Hl. pose proof (le_val_range (slice sb off 4) (slice_bytes _ _ _ Hb)) as Hr. rewrite blen_slice in Hr by lia. exact Hr.
Qed.

Lemma safe_alloc_block : safe (alloc_block ok fs) is_u32.
Proof using Hg.
  eapply safe_bind; [apply safe_get_sb|]. intros sb (Hb & Hl & Hn). unfold sizeof_super in Hl.
  eapply safe_bind; [apply safe_num_groups; [geo|apply sb_u32; (done || lia)|geo]|]. intros n [H0 Hr]. rewrite Hn in Hr.
  destruct Hr as [->|Hr]; [by apply safe_ret|]. apply safe_alloc_block_from; [done|]. by rewrite Z2Nat.id.
Qed.

Lemma safe_alloc_inode : safe (alloc_inode ok fs) is_u32.
Proof using Hg.
  eapply safe_bind; [apply safe_get_sb|]. intros sb (Hb & Hl & Hn). unfold sizeof_super in Hl.
  eapply safe_bind; [apply safe_num_groups; [geo|apply sb_u32; (done || lia)|geo]|]. intros n _. apply safe_alloc_inode_from.
Qed.

Lemma safe_free_block n : safe (free_block ok fs n) (fun _ => True).
Proof using Hg.
  unfold free_block. destruct (_ <? _); [by apply safe_ret|]. eapply safe_bind; [apply safe_divmod; geo|]. intros [g bit] (_ & Hb & _).
  assert (0 <= bit / 8 < block_size fs) by (eapply byte_index; [done|geo]). srun.
Qed.

Lemma safe_free_inode n : safe (free_inode ok fs n) (fun _ => True).
Proof using Hg.
  unfold free_inode. destruct (_ <? _); [by apply safe_ret|]. eapply safe_bind; [apply safe_divmod; geo|]. intros [g bit] (_ & Hb & _).
  assert (0 <= bit / 8 < block_size fs) by (eapply byte_index; [done|geo]). srun.
Qed.

(** ** Directories and lookup *)

#[local] Hint Resolve safe_alloc_block safe_alloc_inode safe_free_block safe_free_inode : ext2.

Definition short_name (n : list Z) : Prop := bytes n /\ blen n < 256.

Lemma name_bytes_ok name : bytes name -> short_name (name_bytes name).
Proof.
  intros Hb. split; [by apply Forall_take|]. unfold name_bytes, blen. rewrite length_take. pose proof (u8_range (blen name)).
  unfold is_u8, blen in *. lia.
Qed.

Lemma block_len b : block b -> blen b <= 65535.
Proof using Hg. intros [_ ->]. geo. Qed.

Lemma safe_lift_block (o : option (option (list Z))) b :
  block b -> (exists r, o = Some r /\ forall b', r = Some b' -> bytes b' /\ blen b' = blen b) -> safe (lift o) (opt block).
Proof.
  intros [_ Hl] (r & -> & H). apply safe_ret. intros b' E. destruct (H b' E). split; [done|congruence].
Qed.

Lemma safe_lift_add b ino name ftype : block b -> is_u32 ino -> short_name name -> safe (lift (add_in_block b ino name ftype)) (opt block).
Proof using Hg. intros Hb ? []. apply (safe_lift_block _ b Hb), add_safe; [apply Hb|by apply block_len|done..]. Qed.

Lemma safe_lift_remove b name : block b -> safe (lift (remove_in_block b name)) (opt block).
Proof. intros Hb. apply (safe_lift_block _ b Hb), remove_safe, Hb. Qed.

Lemma safe_lift_dotdot b parent : block b -> safe (lift (dotdot_loop (walk_fuel b) b 0 parent)) (opt block).
Proof. intros Hb. apply (safe_lift_block _ b Hb), dotdot_safe, Hb. Qed.

Lemma safe_lift_find b name : block b -> safe (lift (dir_find_in_block b name)) is_u32.
Proof. intros [Hb _]. by apply safe_lift, find_safe. Qed.

#[local] Hint Resolve safe_lift_add safe_lift_remove safe_lift_dotdot safe_lift_find : ext2.

Lemma safe_add_in_blocks n b inode ino name ftype : is_u32 ino -> short_name name ->
  safe (add_in_blocks ok fs n b inode ino name ftype) (fun _ => True).
Proof using Hg. intros Hi Hn. revert b. induction n as [|n IH]; intros b; cbn [add_in_blocks]; srun. Qed.

Lemma safe_remove_in_blocks n b inode name : safe (remove_in_blocks ok fs n b inode name) (fun _ => True).
Proof using Hg. revert b. induction n as [|n IH]; intros b; cbn [remove_in_blocks]; srun. Qed.

Lemma safe_update_dotdot n b inode parent : safe (update_dotdot ok fs n b inode parent) (fun _ => True).
Proof using Hg. revert b. induction n as [|n IH]; intros b; cbn [update_dotdot]; srun. Qed.

Lemma safe_find_in_blocks n b inode name : safe (find_in_blocks ok fs n b inode name) is_u32.
Proof using Hg. revert b. induction n as [|n IH]; intros b; cbn [find_in_blocks]; srun. Qed.

Lemma new_dir_block_ok ino name ftype : short_name name -> block (new_dir_block (block_size fs) ino name ftype).
Proof using Hg.
  intros [Hb Hl]. pose proof (blen_nonneg name). pose proof zeros_block as [Hz Hzl].
  destruct (wr16_ok (zeros (block_size fs)) 4 (u16 (block_size fs)) Hz) as [Hw Hwl]; [lia|geo|].
  split; [by apply bytes_fill|]. unfold new_dir_block.
  destruct (fill_outside (fun _ => True) (wr16 (zeros (block_size fs)) 4 (u16 (block_size fs))) 0 ino name ftype) as [_ ->]; [done|lia|geo|done|lia].
Qed.

Lemma inode_wr16 i off v : inode_t i -> 0 <= off <= 126 -> inode_t (wr16 i off v).
Proof. intros [Hb Hl] Ho. unfold inode_t, sizeof_inode in *. destruct (wr16_ok i off v) as [? ->]; [done|lia|lia|done]. Qed.

Lemma inode_wr32 i off v : inode_t i -> 0 <= off <= 124 -> inode_t (wr32 i off v).
Proof. intros [Hb Hl] Ho. unfold inode_t, sizeof_inode in *. destruct (wr32_ok i off v) as [? ->]; [done|lia|lia|done]. Qed.

Lemma first_zero_range n b inode : opt (fun k => b <= k < b + Z.of_nat n) (first_zero n b inode).
Proof.
  revert b. induction n as [|n IH]; intros b k; cbn [first_zero]; [done|]. destruct (_ =? 0); [intros [= <-]; lia|].
  intros H%IH. lia.
Qed.

#[local] Hint Resolve safe_add_in_blocks safe_remove_in_blocks safe_update_dotdot safe_find_in_blocks new_dir_block_ok name_bytes_ok : ext2.
Ltac inode_tac := repeat first [assumption | apply inode_wr16; [|lia] | apply inode_wr32; [|lia]].
#[local] Hint Extern 1 (inode_t _) => solve [inode_tac] : ext2.

Lemma safe_dir_add_entry dir name ino ftype : is_u32 ino -> bytes name -> safe (dir_add_entry ok fs dir name ino ftype) (fun _ => True).
Proof using Hg.
  intros Hi Hn. apply name_bytes_ok in Hn. unfold dir_add_entry. cbv zeta. revert Hn. generalize (name_bytes name). intros nm Hn.
  srun. match goal with E : first_zero _ _ _ = Some _ |- _ => apply first_zero_range in E; cbv beta in E end. srun.
Qed.

Lemma safe_dir_remove_entry dir name : safe (dir_remove_entry ok fs dir name) (fun _ => True).
Proof using Hg. unfold dir_remove_entry. srun. Qed.

#[local] Hint Resolve safe_dir_add_entry safe_dir_remove_entry : ext2.

Lemma component_length p : (length (component p) <= length p)%nat.
Proof. induction p as [|c p IH]; cbn [component length]; [lia|]. destruct (c =? 47); cbn [length]; lia. Qed.

(** A component of fewer than 256 bytes is not taken for an empty one. *)
Lemma safe_lookup_loop fuel p cur : (length p < fuel)%nat -> blen p < 256 -> is_u32 cur -> safe (lookup_loop ok fs fuel p cur) is_u32.
Proof using Hg.
  revert p cur. induction fuel as [|f IH]; intros p cur Hf Hp Hc; [lia|]. cbn [lookup_loop].
  destruct p as [|c p']; [by apply safe_ret|]. remember (c :: p') as p eqn:Ep. pose proof (component_length p) as Hcl.
  assert (length p <> 0)%nat by (by rewrite Ep).
  assert (length (drop (S (length (component p))) p) < f)%nat by (rewrite length_drop; lia).
  assert (blen (drop (S (length (component p))) p) < 256) by (unfold blen in *; rewrite length_drop; lia).
  unfold blen in Hp. rewrite u8_small by (unfold is_u8; lia). cbv zeta.
  destruct (Z.eqb_spec (Z.of_nat (length (component p))) 0) as [E0|].
  - rewrite bool_decide_eq_false_2 by lia. by apply IH.
  - srun.
Qed.

Definition path_ok (path : list Z) : Prop := bytes path /\ 1 <= blen path <= 256.

Lemma safe_lookup path : blen path <= 256 -> safe (ext2_lookup ok fs path) is_u32.
Proof using Hg.
  intros Hp. unfold ext2_lookup. destruct path as [|c p]; [apply safe_fail|]. destruct (c =? 47); [|apply safe_fail].
  apply safe_lookup_loop; [lia| |done]. unfold blen in *. cbn [length] in Hp. lia.
Qed.

Lemma safe_lookup_ino path : blen path <= 256 -> safe (ext2_lookup_ino ok fs path) is_u32.
Proof using Hg.
  intros Hp. eapply safe_bind; [by apply safe_try, safe_lookup|]. intros [i|] Hi; apply safe_ret; [by apply Hi|done].
Qed.

Definition split_ok : option (list Z * list Z) -> Prop := opt (fun '(parent, name) => blen parent <= 256 /\ bytes name).

Lemma last_slash_le path : (last_slash path <= length path - 1)%nat.
Proof.
  unfold last_slash. set (n := length path). assert (Forall (fun i => i <= n - 1)%nat (seq 0 n)) as H.
  { apply Forall_forall. intros i Hi%elem_of_seq. lia. }
  assert (forall l last, (last <= n - 1)%nat -> Forall (fun i => i <= n - 1)%nat l ->
    (foldl (fun last i => if bool_decide (path !! i = Some 47%Z) then i else last) last l <= n - 1)%nat) as G; [|apply G; [lia|done]].
  intros l. induction l as [|i l IH]; intros last Hl Hf; [done|]. inversion Hf; subst. cbn [foldl]. apply IH; [by case_bool_decide|done].
Qed.

Lemma safe_path_split path : path_ok path -> safe (lift (path_split path)) split_ok.
Proof.
  intros [Hb Hl]. unfold path_split. assert (path <> []) as Hne by (intros ->; unfold blen in Hl; simpl in Hl; lia).
  rewrite bool_decide_eq_false_2 by done. pose proof (last_slash_le path) as Hs. unfold blen in Hl.
  destruct (_ || _); [by apply safe_ret|]. destruct (_ =? 0).
  - apply safe_ret. intros ? [= <-]. split; [done|by apply Forall_drop].
  - rewrite (proj2 (Z.ltb_ge 256 _)) by lia. apply safe_ret. intros ? [= <-]. split; [|by apply Forall_drop].
    unfold blen. rewrite length_take. lia.
Qed.

#[local] Hint Resolve safe_lookup_ino safe_path_split : ext2.

(** ** Reading and listing *)

Lemma ptrs_eq : 4 * ptrs fs = block_size fs /\ 256 <= ptrs fs <= 1024.
Proof using Hg. geo. Qed.

Lemma safe_word_at b i : block b -> 0 <= i < ptrs fs -> safe (lift (word_at b i)) is_u32.
Proof using Hg. intros [Hb Hl] Hi. pose proof ptrs_eq. apply safe_lift, word_at_ok; [lia..|done]. Qed.

Lemma safe_put_word b i v : block b -> 0 <= i < ptrs fs -> safe (lift (put_in b (4 * i) (le_bytes 4 v))) block.
Proof using Hg.
  intros [Hb Hl] Hi. pose proof ptrs_eq. unfold block. rewrite <- Hl. apply safe_lift, put_in_ok; rewrite ?blen_le_bytes; [lia..|done|].
  apply le_bytes_bytes.
Qed.

#[local] Hint Extern 1 (safe (lift (word_at _ _)) _) => apply safe_word_at; [done|lia] : ext2.
#[local] Hint Extern 1 (safe (lift (put_in _ (4 * _) _)) _) => apply safe_put_word; [done|lia] : ext2.

(** The two indices of a doubly-indirect block. *)
Lemma safe_dbl_idx d : 0 <= d < ptrs fs * ptrs fs -> safe (divmod d (ptrs fs)) (fun '(i, j) => 0 <= i < ptrs fs /\ 0 <= j < ptrs fs).
Proof using Hg.
  intros Hd. pose proof ptrs_eq. eapply safe_mono; [apply safe_divmod; lia|]. intros [i j] (-> & Hj & _). split; [|done].
  split; [apply Z.div_pos; lia|apply Z.div_lt_upper_bound; lia].
Qed.

Lemma safe_read_ptr inode idx : safe (read_ptr ok fs inode idx) (fun _ => True).
Proof using Hg.
  unfold read_ptr. pose proof ptrs_eq. destruct (Z.ltb_spec idx 12); [srun|].
  destruct (Z.ltb_spec idx (12 + ptrs fs)); [srun|]. destruct (Z.ltb_spec idx (12 + ptrs fs + ptrs fs * ptrs fs)); [|srun].
  eapply safe_bind; [apply safe_dbl_idx; lia|]. intros [i j] [Hi Hj]. srun.
Qed.

#[local] Hint Resolve safe_read_ptr : ext2.

(** The result is the number of bytes stored, or -1. *)
Lemma safe_read_loop fuel inode off rem out : 0 <= rem < Z.of_nat fuel -> bytes out ->
  safe (read_loop ok fs fuel inode off rem out) (fun '(n, o) => bytes o /\ blen o <= blen out + rem /\ (n = -1 \/ n = blen o)).
Proof using Hg.
  revert off rem out. induction fuel as [|f IH]; intros off rem out Hf Ho; [lia|]. cbn [read_loop].
  destruct (Z.leb_spec rem 0); [apply safe_ret; split; [done|lia]|].
  eapply safe_bind; [apply safe_divmod; geo|]. intros [q r] (_ & Hr & _). cbv zeta.
  set (n := if rem <? block_size fs - r then rem else block_size fs - r).
  assert (0 < n <= rem /\ r + n <= block_size fs) as Hn by (unfold n; destruct (Z.ltb_spec rem (block_size fs - r)); lia).
  clearbody n.
  assert (forall d, bytes d -> blen d = n -> safe (read_loop ok fs f inode (off + n) (rem - n) (out ++ d))
    (fun '(n, o) => bytes o /\ blen o <= blen out + rem /\ (n = -1 \/ n = blen o))) as Hstep.
  { intros d Hd Hdl. eapply safe_mono; [apply IH; [lia|by apply Forall_app]|]. intros [v o]. rewrite blen_app, Hdl. intros (? & ? & ?).
    split; [done|]. split; [lia|done]. }
  srun; try (by (split; [done|]; split; [lia|auto])); try (apply Hstep; [apply zeros_bytes|apply blen_zeros; lia]).
  match goal with H : block _ |- _ => destruct H end.
  eapply safe_bind; [apply safe_lift, rds_ok; (done || lia)|]. intros d [Hd Hdl]. by apply Hstep.
Qed.

Lemma safe_read_bounds ino off size : 0 <= off -> 0 <= size ->
  safe (ext2_read ok fs ino off size) (fun '(n, o) => bytes o /\ blen o <= size /\ (n = -1 \/ n = blen o)).
Proof using Hg.
  intros Ho Hs. unfold ext2_read. assert (bytes [] /\ blen [] <= size) as [? ?] by (split; [constructor|unfold blen; simpl; lia]).
  eapply safe_bind; [apply safe_try, safe_read_inode|]. intros [i|] _; [|apply safe_ret; auto]. cbv zeta.
  destruct (Z.leb_spec (i_size i) off); [apply safe_ret; auto|].
  eapply safe_mono; [apply safe_read_loop; [|done]|].
  - destruct (_ <? _); lia.
  - intros [n o] (? & Hl & ?). split; [done|]. split; [|done]. unfold blen in Hl at 2. cbn [length] in Hl.
    destruct (Z.ltb_spec (i_size i) (u64 (off + size))); int_lia.
Qed.

Lemma safe_read ino off size : 0 <= size -> safe (ext2_read ok fs ino off size) (fun _ => True).
Proof using Hg.
  intros Hs. unfold ext2_read. srun. cbv zeta. eapply safe_mono; [apply safe_read_loop; [|constructor]|done].
  destruct (Z.leb_spec (i_size l) off); [done|]. destruct (_ <? _); lia.
Qed.

Lemma safe_list_blocks n b inode bufsz flags out : bufsz <= 2 ^ 31 -> blen out < bufsz -> bytes out ->
  safe (list_blocks ok fs n b inode bufsz flags out) (fun out => blen out < bufsz /\ bytes out).
Proof using Hg.
  intros Hs. revert b out. induction n as [|n IH]; intros b out Ho Hb; cbn [list_blocks]; srun.
  eapply (safe_bind _ _ (fun o => blen o < bufsz /\ bytes o)); [|intros o [Ho' Hb']; by apply IH].
  match goal with H : block ?l |- _ => pose proof (proj1 H) as Hlb; destruct (entries_exist l (proj1 H)) as [es He] end.
  rewrite (list_dir_block_entries _ es) by done. apply safe_ret. split; [by apply list_fold_bound|].
  destruct He as (q & Hseg & _). apply list_fold_bytes; [done|]. by eapply seg_name_bytes.
Qed.

Lemma safe_list_dir ino bufsz flags : 0 <= bufsz <= 2 ^ 31 ->
  safe (ext2_list_dir ok fs ino bufsz flags) (fun '(n, out) => 0 <= n <= blen out /\ blen out <= bufsz /\ bytes out).
Proof using Hg.
  intros Hs. assert (0 <= 0 <= blen [] /\ blen [] <= bufsz /\ bytes []) as H0 by (unfold blen; simpl; split; [lia|split; [lia|constructor]]).
  unfold ext2_list_dir. destruct (Z.eqb_spec bufsz 0) as [|]; [by apply safe_ret|].
  eapply safe_bind; [apply safe_try, safe_read_inode|]. intros [i|] _; [|by apply safe_ret].
  eapply safe_bind; [apply safe_list_blocks; [lia|unfold blen; simpl; lia|constructor]|]. intros out [Ho Hb]. apply safe_ret.
  rewrite (proj2 (Z.ltb_lt _ _)) by done. rewrite blen_app. pose proof (blen_nonneg out). change (blen [0]) with 1.
  split; [lia|]. split; [lia|]. apply Forall_app. split; [done|by repeat constructor].
Qed.

(** ** Writing *)

Lemma safe_top_slot inode k : inode_t inode -> 0 <= k <= 14 -> safe (top_slot ok fs inode k) inode_t.
Proof using Hg. intros Hi Hk. unfold top_slot. srun. Qed.

Lemma safe_l1_slot dbl i : 0 <= i < ptrs fs -> safe (l1_slot ok fs dbl i) (fun _ => True).
Proof using Hg. intros Hi. unfold l1_slot. srun. Qed.

Lemma safe_leaf_slot indir i : 0 <= i < ptrs fs -> safe (leaf_slot ok fs indir i) (fun _ => True).
Proof using Hg. intros Hi. unfold leaf_slot. srun. Qed.

#[local] Hint Resolve safe_l1_slot safe_leaf_slot : ext2.
#[local] Hint Extern 1 (safe (top_slot _ _ _ _) _) => apply safe_top_slot; [done|lia] : ext2.
#[local] Hint Extern 1 (safe (leaf_slot _ _ _ _) _) => apply safe_leaf_slot; lia : ext2.

Lemma safe_write_ptr inode idx : inode_t inode -> 0 <= idx -> safe (write_ptr ok fs inode idx) (fun '(i, _) => inode_t i).
Proof using Hg.
  intros Hi H0. unfold write_ptr. pose proof ptrs_eq. destruct (Z.ltb_spec idx 12); [srun|].
  destruct (Z.ltb_spec idx (12 + ptrs fs)); [srun|]. destruct (Z.ltb_spec idx (12 + ptrs fs + ptrs fs * ptrs fs)); [|srun].
  eapply safe_bind; [apply safe_dbl_idx; lia|]. intros [i j] [Hi1 Hj]. srun.
Qed.

Lemma safe_write_data bno off d : bytes d -> 0 <= off -> off + blen d <= block_size fs -> safe (write_data ok fs bno off d) (fun _ => True).
Proof using Hg.
  intros Hd Ho Hl. eapply (safe_bind _ _ block). { destruct (_ || _); [apply safe_read_block|apply safe_ret, zeros_block]. }
  intros b [Hb Hbl]. eapply safe_bind; [apply safe_lift, put_in_ok; (done || lia)|]. intros b' [? ?]. apply safe_write_block. split; [done|lia].
Qed.

Lemma safe_write_loop fuel inode off buf w : inode_t inode -> bytes buf -> 0 <= w <= blen buf -> blen buf - w < Z.of_nat fuel ->
  safe (write_loop ok fs fuel inode off buf w) (fun '(i, w') => inode_t i /\ 0 <= w' <= blen buf).
Proof using Hg.
  intros Hi Hb. revert inode Hi w. induction fuel as [|f IH]; intros inode Hi w Hw Hf; [lia|]. cbn [write_loop]. cbv zeta.
  destruct (Z.ltb_spec w (blen buf)); [|srun]. eapply safe_bind; [apply safe_divmod; geo|]. intros [q r] (_ & Hr & _).
  set (n := if blen buf - w <? block_size fs - r then blen buf - w else block_size fs - r).
  assert (0 < n <= blen buf - w /\ r + n <= block_size fs) as Hn by (unfold n; destruct (Z.ltb_spec (blen buf - w) (block_size fs - r)); lia).
  clearbody n. eapply safe_bind; [apply safe_write_ptr; [done|apply u32_range]|]. intros [i bno] Hi'. cbv beta iota in Hi'. srun.
  eapply safe_bind; [apply safe_try, safe_write_data; [by apply slice_bytes|lia|rewrite blen_slice; lia]|].
  intros [|] _; [|by apply safe_ret]. apply IH; [done|lia..].
Qed.

Lemma safe_write_bounds ino off buf : bytes buf -> safe (ext2_write ok fs ino off buf) (fun w => -1 <= w <= blen buf).
Proof using Hg.
  intros Hb. pose proof (blen_nonneg buf). unfold ext2_write. destruct (_ || _); [apply safe_ret; lia|].
  eapply (safe_bind _ _ (opt inode_t)); [apply safe_try; srun|]. intros [inode|] Hi; [|apply safe_ret; lia].
  eapply safe_bind; [apply safe_write_loop; [by apply Hi|done|pose proof (blen_nonneg buf); lia|unfold blen; lia]|].
  intros [i w] [Hi' Hw]. assert (forall e, inode_t (grow fs i e)).
  { intros e. unfold grow. destruct (_ <? _); [|done]. inode_tac. }
  destruct (0 <? w); [|apply safe_ret; lia].
  eapply safe_bind; [apply safe_try, safe_write_inode; auto|]. intros _ _. apply safe_ret. lia.
Qed.

Lemma safe_write ino off buf : bytes buf -> safe (ext2_write ok fs ino off buf) (fun _ => True).
Proof using Hg. intros Hb. eapply safe_mono; [by apply safe_write_bounds|done]. Qed.

Lemma safe_release_direct n b inode : inode_t inode -> 0 <= b -> b + Z.of_nat n <= 15 -> safe (release_direct ok fs n b inode) inode_t.
Proof using Hg.
  revert b inode. induction n as [|n IH]; intros b inode Hi H0 Hn; cbn [release_direct]; [by apply safe_ret|].
  srun; apply IH; try lia; [done|]. inode_tac.
Qed.

Lemma safe_release_entries n i indir : block indir -> 0 <= i -> i + Z.of_nat n <= ptrs fs -> safe (release_entries ok fs n i indir) (fun _ => True).
Proof using Hg.
  intros Hb. revert i. induction n as [|n IH]; intros i H0 Hn; cbn [release_entries]; [by apply safe_ret|].
  eapply safe_bind; [apply safe_word_at; [done|lia]|]. intros bno _. eapply (safe_bind _ _ (fun _ => True)); [srun|]. intros _ _. apply IH; lia.
Qed.

Lemma safe_release_blocks inode : inode_t inode -> safe (release_blocks ok fs inode) inode_t.
Proof using Hg.
  intros Hi. pose proof ptrs_eq. eapply safe_bind; [apply safe_release_direct; (done || lia)|]. intros i Hi'.
  eapply (safe_bind _ _ inode_t); [|intros; apply safe_ret; inode_tac].
  destruct (_ =? 0); [by apply safe_ret|].
  eapply (safe_bind _ _ (opt block)); [apply safe_try; srun|]. intros r Hr.
  eapply (safe_bind _ _ (fun _ => True)); [|intros _ _; srun].
  destruct r; [apply safe_release_entries; [by apply Hr|lia..]|by apply safe_ret].
Qed.

#[local] Hint Resolve safe_read safe_list_dir safe_write safe_release_blocks safe_lookup : ext2.

Lemma safe_truncate ino : safe (ext2_truncate ok fs ino) (fun _ => True).
Proof using Hg. unfold ext2_truncate. srun. Qed.

(** ** Names and metadata *)

Lemma new_inode_ok mode uid gid links : inode_t (new_inode mode uid gid links).
Proof. unfold new_inode. assert (inode_t (zeros sizeof_inode)) by (split; [apply zeros_bytes|by apply blen_zeros]). inode_tac. Qed.

Lemma safe_or_free (m : T unit) ino : safe m (fun _ => True) -> safe (or_free ok fs m ino) (fun _ => True).
Proof using Hg. intros Hm. eapply safe_bind; [by apply safe_try|]. intros [|] _; srun. Qed.

Lemma path_len path : path_ok path -> blen path <= 256.
Proof. by intros [_ [_ ?]]. Qed.

#[local] Hint Resolve new_inode_ok path_len safe_or_free : ext2.

Lemma safe_new_place path : path_ok path -> safe (new_place ok fs path) (fun '(p, name) => is_u32 p /\ bytes name).
Proof using Hg.
  intros Hp. unfold new_place. eapply safe_bind; [by apply safe_path_split|]. intros [[parent name]|] Hr; [|apply safe_fail].
  destruct (Hr _ eq_refl) as [? ?]. srun.
Qed.

Lemma safe_create path uid gid : path_ok path -> safe (ext2_create ok fs path uid gid) (fun _ => True).
Proof using Hg.
  intros Hp. unfold ext2_create. eapply safe_bind; [by apply safe_new_place|]. intros [p name] [? ?]. srun.
Qed.

Lemma safe_mkdir path uid gid : path_ok path -> safe (ext2_mkdir ok fs path uid gid) (fun _ => True).
Proof using Hg.
  intros Hp. unfold ext2_mkdir. eapply safe_bind; [by apply safe_new_place|]. intros [p name] [? ?]. srun.
  assert (bytes [46] /\ bytes DOTDOT) as [? ?] by (split; by apply bytes_check).
  eapply safe_bind; [apply safe_or_free; srun|]. intros _ _. srun.
Qed.

Lemma safe_unlink path : path_ok path -> safe (ext2_unlink ok fs path) (fun _ => True).
Proof using Hg.
  intros Hp. unfold ext2_unlink. eapply safe_bind; [by apply safe_path_split|]. intros [[parent name]|] Hr; [|apply safe_fail].
  destruct (Hr _ eq_refl) as [? ?]. do 4 sstep. cbv zeta.
  match goal with H : inode_t ?x |- _ =>
    set (i := if 0 <? i_links_count x then _ else _); assert (inode_t i) by (unfold i; destruct (_ <? _); inode_tac); clearbody i end.
  eapply (safe_bind _ _ (fun _ => True)); [|intros _ _]; srun.
Qed.

#[local] Hint Resolve safe_unlink : ext2.

Lemma safe_rename_over path : path_ok path -> safe (rename_over ok fs path) (fun _ => True).
Proof using Hg. intros Hp. unfold rename_over. srun. Qed.

#[local] Hint Resolve safe_rename_over : ext2.

Lemma safe_rename old new : path_ok old -> path_ok new -> safe (ext2_rename ok fs old new) (fun _ => True).
Proof using Hg.
  intros Ho Hn. unfold ext2_rename, rename_split. srun.
  repeat match goal with H : split_ok (Some _) |- _ => destruct (H _ eq_refl); clear H end. srun.
Qed.

Lemma safe_chmod path mode : path_ok path -> safe (ext2_chmod ok fs path mode) (fun _ => True).
Proof using Hg. intros Hp. unfold ext2_chmod. srun. Qed.

Lemma safe_chown ino uid gid : safe (ext2_inode_chown ok fs ino uid gid) (fun _ => True).
Proof using Hg. unfold ext2_inode_chown. srun. Qed.

Lemma safe_inode_stat ino : safe (ext2_inode_stat ok fs ino) (fun _ => True).
Proof using Hg. unfold ext2_inode_stat. srun. Qed.

Lemma safe_file_size ino : safe (ext2_file_size ok fs ino) is_u32.
Proof using Hg.
  eapply safe_bind; [apply safe_try, safe_read_inode|]. intros [i|] Hi; apply safe_ret; [|done].
  destruct (Hi i eq_refl) as [Hb Hl]. unfold i_size. apply sb_u32; [done|lia|unfold sizeof_inode in Hl; lia].
Qed.

Lemma safe_stat ino : safe (ext2_stat_full ok fs ino) (fun _ => True).
Proof using Hg. unfold ext2_stat_full. srun.
Qed.

(** ** Operations *)

Inductive op :=
  | OLookup (path : list Z)
  | ORead (ino off size : Z)
  | OListDir (ino bufsz flags : Z)
  | OStat (ino : Z)
  | OWrite (ino off : Z) (buf : list Z)
  | OTruncate (ino : Z)
  | OCreate (path : list Z) (uid gid : Z)
  | OMkdir (path : list Z) (uid gid : Z)
  | OUnlink (path : list Z)
  | ORename (old_path new_path : list Z)
  | OChmod (path : list Z) (mode : Z)
  | OChown (ino uid gid : Z).

(** Paths of 1 to 256 bytes, and buffers of bytes; any numbers. *)
Definition op_ok (o : op) : Prop :=
  match o with
  | ORead _ _ size => 0 <= size
  | OListDir _ bufsz _ => 0 <= bufsz <= 2 ^ 31
  | OWrite _ _ buf => bytes buf
  | ORename p q => path_ok p /\ path_ok q
  | OLookup p | OCreate p _ _ | OMkdir p _ _ | OUnlink p | OChmod p _ => path_ok p
  | OStat _ | OTruncate _ | OChown _ _ _ => True
  end.

Definition quiet {A} (m : T A) : T unit := _ ← m; mret ().

Definition run (o : op) : T unit :=
  match o with
  | OLookup p => quiet (ext2_lookup ok fs p)
  | ORead i o n => quiet (ext2_read ok fs i o n)
  | OListDir i n f => quiet (ext2_list_dir ok fs i n f)
  | OStat i => quiet (ext2_stat_full ok fs i)
  | OWrite i o b => quiet (ext2_write ok fs i o b)
  | OTruncate i => ext2_truncate ok fs i
  | OCreate p u g => quiet (ext2_create ok fs p u g)
  | OMkdir p u g => quiet (ext2_mkdir ok fs p u g)
  | OUnlink p => ext2_unlink ok fs p
  | ORename p q => ext2_rename ok fs p q
  | OChmod p m => ext2_chmod ok fs p m
  | OChown i u g => ext2_inode_chown ok fs i u g
  end.

(** One operation after the other; [None] when one faults. *)
Fixpoint exec (ops : list op) (s : st) : option st :=
  match ops with
  | [] => Some s
  | o :: ops => match run o s with (Fault, _) => None | (_, s') => exec ops s' end
  end.

#[local] Hint Resolve safe_truncate safe_create safe_mkdir safe_rename safe_chmod safe_chown safe_stat : ext2.

Lemma safe_run o : op_ok o -> safe (run o) (fun _ => True).
Proof using Hg. intros Ho. destruct o; cbn [op_ok run] in *; unfold quiet; srun. destruct Ho. srun. Qed.

Lemma exec_safe ops s : Forall op_ok ops -> wf s -> exists s', exec ops s = Some s' /\ wf s' /\ blen (disk s') = blen (disk s).
Proof using Hg.
  intros Hops. revert s. induction Hops as [|o ops Ho _ IH]; intros s Hs; [by exists s|]. cbn [exec].
  destruct (safe_run o Ho s Hs) as (Hw & Hl & Hr). rewrite <- Hl. destruct (run o s) as [[[]| |] s']; [by apply IH..|done].
Qed.

End fs.
End oracle.
End count.

(** ** From the mount on *)

Section mount.
Context (ok : nat -> bool).

Lemma mount_spec lba s : bytes (disk s) ->
  match ext2_mount ok lba s with
  | (Ok fs, s') => disk s' = disk s /\ exists nb, wf nb s'
  | (Err, s') => disk s' = disk s
  | (Fault, _) => False
  end.
Proof.
  intros Hb. unfold ext2_mount, alloc_buf, blkdev_read, ask, mbind, T_bind, dev_read.
  destruct (ok (asked s)); [|done]. cbn [asked disk cached_sb]. destruct (ok (S (asked s))); [|done]. cbn [asked disk cached_sb].
  destruct (on_device _ _ _) eqn:Ed; [|done]. set (sb := slice _ _ _).
  assert (bytes sb /\ blen sb = sizeof_super) as [Hsb Hl].
  { unfold on_device in Ed. apply Z.leb_le in Ed. pose proof (u64_range (lba + 2)) as Hu. unfold is_u64 in Hu.
    split; [by apply slice_bytes|]. unfold sb. rewrite blen_slice by lia. done. }
  clearbody sb. unfold guard. destruct (s_magic sb =? _); [|done]. cbn [mret T_ret]. destruct (negb _); [|done].
  unfold mret, T_ret. cbn [asked disk cached_sb]. destruct (ok (S (S (asked s)))); [|done].
  cbn [asked disk cached_sb]. destruct (ok (S (S (S (asked s))))); [|done]. split; [done|]. exists (s_blocks_count sb). by split.
Qed.

(** C14: on any device contents and whatever requests to the device or the allocator fail, [ext2_mount] does
    not fault and does not change the device, and on a handle it returns, with a sensible geometry ([geom]: blocks
    of 1024, 2048 or 4096 bytes, bitmaps of one block, inodes of at least 128 bytes that fit a block), every
    sequence of the file system's operations, with paths of 1 to 256 bytes, a listing buffer of at most 2 GiB and
    any inode numbers, offsets and contents, runs to its end: no division by zero, no access outside a buffer, no
    endless walk, and the device keeps its size and holds bytes. Longer paths are excluded because the code does
    go out of its buffers on them ([path_split_overflows], [lookup_reads_past_long_component]). *)
Theorem ext2_safe lba s ops : bytes (disk s) -> Forall op_ok ops ->
  match ext2_mount ok lba s with
  | (Fault, _) => False
  | (Err, s') => disk s' = disk s
  | (Ok fs, s') => disk s' = disk s /\
      (geom fs -> exists s'', exec ok fs ops s' = Some s'' /\ bytes (disk s'') /\ blen (disk s'') = blen (disk s))
  end.
Proof.
  intros Hb Hops. pose proof (mount_spec lba s Hb) as Hm. destruct (ext2_mount ok lba s) as [[fs| |] s']; [|done..].
  destruct Hm as [Hd [nb Hw]]. split; [done|]. intros Hg. rewrite <- Hd.
  destruct (exec_safe nb ok fs Hg ops s' Hops Hw) as (s'' & He & Hw' & Hl). exists s''. split; [done|]. by destruct Hw'.
Qed.

End mount.

Definition third_fails : nat -> bool := fun n => negb (n mod 3 =? 2)%nat.

Lemma sample_disk_bytes : bytes sample_disk.
Proof. apply bytes_check. by vm_compute. Qed.

Definition sample_ops : list op :=
  [OMkdir [47; 97] 5 6; OCreate [47; 97; 47; 98] 5 6; OWrite 12 100 [1; 2; 3]; ORename [47; 97; 47; 98] [47; 99];
   ORead 12 0 512; OUnlink [47; 99]].

Lemma path_check p : forallb (fun x => (0 <=? x) && (x <? 256)) p && (1 <=? blen p) && (blen p <=? 256) = true -> path_ok p.
Proof.
  rewrite !andb_true_iff. intros [[Hb H1%Z.leb_le] H2%Z.leb_le]. split; [by apply bytes_check|lia].
Qed.

Lemma sample_ops_ok : Forall op_ok sample_ops.
Proof.
  repeat constructor; cbn [op_ok]; try lia; try (split; by apply path_check); try by apply path_check.
Qed.

Lemma ext2_safe_witness :
  (forall ops, Forall op_ok ops -> exists s, exec never_fails sample_fs ops sample_st = Some s /\ bytes (disk s)) /\
  match ext2_mount third_fails 0 (mk_st sample_disk [] 0) with (Err, s) => disk s = sample_disk | _ => False end.
Proof.
  pose proof sample_disk_bytes as Hb. split.
  - intros ops Ho. pose proof (ext2_safe never_fails 0 (mk_st sample_disk [] 0) ops Hb Ho) as H.
    rewrite sample_mount in H. destruct H as (_ & H). destruct H as (s & He & Hs & _); [by split; vm_compute; auto|]. by exists s.
  - pose proof (ext2_safe third_fails 0 (mk_st sample_disk [] 0) sample_ops Hb sample_ops_ok) as H.
    destruct (ext2_mount third_fails 0 (mk_st sample_disk [] 0)) as [[fs| |] s] eqn:E; [|done|done].
    exfalso. assert ((ext2_mount third_fails 0 (mk_st sample_disk [] 0)).1 = Err) as E' by by vm_compute. by rewrite E in E'.
Defined.

Lemma faults_after {A} (m : res ext2_fs * st) (f : ext2_fs -> T A) :
  (let '(r, s) := m in match r with Ok fs => match (f fs s).1 with Fault => true | _ => false end | _ => false end) = true ->
  exists fs s, m = (Ok fs, s) /\ (f fs s).1 = Fault.
Proof. destruct m as [[fs| |] s]; [|done..]. intros H. exists fs, s. split; [done|]. by destruct (f fs s).1. Qed.

(** A superblock with no inodes per group mounts, and the first lookup divides by zero. *)
Example mount_accepts_zero_inodes_per_group :
  exists fs s, ext2_mount never_fails 0 (mk_st (put sample_disk (1024 + 40) [0; 0; 0; 0]) [] 0) = (Ok fs, s) /\
    (ext2_lookup never_fails fs [47; 97] s).1 = Fault.
Proof. apply (faults_after _ (fun fs => ext2_lookup never_fails fs [47; 97])). by vm_compute. Qed.

(** A path component of 256 bytes at the end of a path is read past its terminator. *)
Example lookup_reads_past_long_component : (ext2_lookup never_fails sample_fs (47 :: repeat 97 256) sample_st).1 = Fault.
Proof. by vm_compute. Qed.

End Ext2Safe.
