(* ===== verification/Ext2File.v ===== *)
(** * Files of the ext2 file system

    What [Ext2.ext2_write] and [Ext2.ext2_read] do to a file, when no request to the disk fails. The device is
    seen as its blocks ([blk]), the group descriptors in them ([bgd]), the bitmaps ([clear], [free]), the
    inodes ([inode_at]) and the block tree of an inode ([slot], [ptr], [tree]). [gives] and [ht] are the rules
    for the monad: what a computation returns and leaves on the device. [meta] is the invariant of the
    allocator: the blocks of the file system's own structures ([sys]) are marked as in use, and do not
    coincide. [file] says that the inode's blocks are in use, within the device and reached by one path each;
    [content] is the array of bytes the tree stands for. [wrote] is the specification of a write: a prefix of
    the buffer is now the content of its range, the other bytes of the file and every file that shares no block
    with it are unchanged. *)

From S2P Require Import Prelude Bytes Ext2Dir Ext2 Ext2Safe.
Import Ext2Dir Ext2 Ext2Safe.

Module Ext2File.

(** ** Rules *)

Definition ht {A} (d sb : list Z) (m : T A) (Q : A -> list Z -> list Z -> Prop) (E : list Z -> list Z -> Prop) : Prop :=
  forall s, disk s = d -> cached_sb s = sb ->
  match m s with
  | (Ok a, s') => Q a (disk s') (cached_sb s')
  | (Err, s') => E (disk s') (cached_sb s')
  | (Fault, _) => False
  end.

Definition never : list Z -> list Z -> Prop := fun _ _ => False.

(** [m] returns [v] and leaves [d'] and [sb']. *)
Definition gives {A} (d sb : list Z) (m : T A) (v : A) (d' sb' : list Z) : Prop :=
  ht d sb m (fun a d1 sb1 => a = v /\ d1 = d' /\ sb1 = sb') never.

Section rules.
Context {A : Type}.
Implicit Types (m : T A) (Q : A -> list Z -> list Z -> Prop).

Lemma ht_ret d sb (a : A) Q E : Q a d sb -> ht d sb (mret a) Q E.
Proof. by intros H s <- <-. Qed.

Lemma ht_fail d sb Q E : E d sb -> ht d sb fail Q E.
Proof. by intros H s <- <-. Qed.

Lemma ht_bind {B} d sb m (f : A -> T B) Q E R :
  ht d sb m Q E -> (forall a d' sb', Q a d' sb' -> ht d' sb' (f a) R E) -> ht d sb (m ≫= f) R E.
Proof.
  intros Hm Hf s Hd Hs. specialize (Hm s Hd Hs). unfold mbind, T_bind. destruct (m s) as [[a| |] s']; [|done..].
  by apply (Hf _ _ _ Hm).
Qed.

Lemma ht_mono d sb m Q E Q' E' : ht d sb m Q E -> (forall a d' sb', Q a d' sb' -> Q' a d' sb') ->
  (forall d' sb', E d' sb' -> E' d' sb') -> ht d sb m Q' E'.
Proof. intros Hm HQ HE s Hd Hs. specialize (Hm s Hd Hs). destruct (m s) as [[a| |] s']; auto. Qed.

Lemma ht_try d sb m Q E : ht d sb m Q E ->
  ht d sb (try_ m) (fun o d' sb' => match o with Some a => Q a d' sb' | None => E d' sb' end) never.
Proof. intros Hm s Hd Hs. specialize (Hm s Hd Hs). unfold try_. destruct (m s) as [[a| |] s']; auto. Qed.

Lemma ht_lift d sb o (a : A) Q E : o = Some a -> Q a d sb -> ht d sb (lift o) Q E.
Proof. intros -> H. by apply ht_ret. Qed.

Lemma gives_bind {B} d sb m (f : A -> T B) v d' sb' R E :
  gives d sb m v d' sb' -> ht d' sb' (f v) R E -> ht d sb (m ≫= f) R E.
Proof.
  intros Hm Hf. eapply ht_bind; [eapply ht_mono; [exact Hm|exact (fun _ _ _ H => H)|done]|]. by intros ? ? ? (-> & -> & ->).
Qed.

Lemma gives_ret d sb (a : A) : gives d sb (mret a) a d sb.
Proof. by apply ht_ret. Qed.

Lemma gives_lift d sb o (a : A) : o = Some a -> gives d sb (lift o) a d sb.
Proof. intros H. by apply (ht_lift _ _ _ a). Qed.

Lemma gives_eq d sb m v d' sb' s : gives d sb m v d' sb' -> disk s = d -> cached_sb s = sb ->
  exists s', m s = (Ok v, s') /\ disk s' = d' /\ cached_sb s' = sb'.
Proof.
  intros Hm Hd Hs. specialize (Hm s Hd Hs). destruct (m s) as [[a| |] s']; [|done..]. destruct Hm as (-> & ? & ?). by exists s'.
Qed.

End rules.

Lemma gives_try {A} d sb (m : T A) v d' sb' : gives d sb m v d' sb' -> gives d sb (try_ m) (Some v) d' sb'.
Proof.
  intros Hm. unfold gives. eapply ht_mono; [by apply ht_try|cbv beta|done]. intros [a|] ? ?; [|done]. by intros (-> & ?).
Qed.

Lemma gives_guard d sb c : c = true -> gives d sb (guard c) () d sb.
Proof. intros ->. apply gives_ret. Qed.

Lemma gives_divmod d sb a b : b <> 0 -> gives d sb (divmod a b) (a / b, a mod b) d sb.
Proof. intros Hb. unfold divmod. rewrite (proj2 (Z.eqb_neq b 0)) by done. apply gives_ret. Qed.

Lemma gives_get_sb d sb : gives d sb get_sb sb d sb.
Proof. by intros s <- <-. Qed.

Lemma gives_put_sb d sb v : gives d sb (put_sb v) () d v.
Proof. by intros s <- <-. Qed.

(** A step whose result is known, in front of the rest. *)
Ltac gstep L := eapply gives_bind; [L|cbv beta iota].

(** ** Blocks *)

Section fs.
Context (ok : nat -> bool) (Hok : forall n, ok n = true).
Context (fs : ext2_fs) (Hg : geom fs) (Hlba : 0 <= part_lba fs).
(** The number of blocks of the partition. *)
Context (N : Z) (HN : 1 < N <= 2 ^ 32 /\ part_lba fs + N * secs_per_block fs < 2 ^ 64).

Abbreviation bs := (block_size fs).
Abbreviation block := (Ext2Safe.block fs).

Definition boff (n : Z) : Z := (part_lba fs + n * secs_per_block fs) * 512.
Definition blk (d : list Z) (n : Z) : list Z := slice d (boff n) bs.
Definition wr (d : list Z) (n : Z) (b : list Z) : list Z := put d (boff n) b.
Definition inb (n : Z) : Prop := 0 <= n < N.

(** The device holds the partition. *)
Record dev (d : list Z) : Prop := { dev_bytes : bytes d; dev_fits : boff N <= blen d }.

Lemma boff_step n : boff (n + 1) = boff n + bs.
Proof. pose proof (spb fs Hg). unfold boff. lia. Qed.

Lemma boff_mono n m : 0 <= n -> n < m -> 0 <= boff n /\ boff n + bs <= boff m.
Proof. pose proof (spb fs Hg). unfold boff. nia. Qed.

Lemma bs_pos : 1024 <= bs <= 4096.
Proof. destruct Hg. lia. Qed.

Lemma blk_block d n : dev d -> inb n -> block (blk d n).
Proof.
  intros [Hb Hl] [H0 H1]. pose proof (boff_mono n N H0 H1). pose proof bs_pos.
  split; [by apply slice_bytes|apply blen_slice; lia].
Qed.

Lemma blen_wr d n b : dev d -> inb n -> block b -> blen (wr d n b) = blen d.
Proof. intros [_ Hl] [H0 H1] [_ Hb]. pose proof (boff_mono n N H0 H1). apply blen_put; lia. Qed.

Lemma dev_wr d n b : dev d -> inb n -> block b -> dev (wr d n b).
Proof.
  intros Hd Hn Hb. split; [apply put_bytes; [apply Hd|apply Hb]|]. rewrite blen_wr by done. apply Hd.
Qed.

Lemma blk_wr d n b m : dev d -> inb n -> inb m -> block b -> blk (wr d n b) m = if decide (m = n) then b else blk d m.
Proof.
  intros [_ Hl] [H0 H1] [G0 G1] [_ Hb]. pose proof (boff_mono n N H0 H1). pose proof (boff_mono m N G0 G1). pose proof bs_pos.
  unfold blk, wr. case_decide as E; [subst; apply slice_put_eq; lia|].
  apply slice_put_ne; try lia. destruct (Z.lt_trichotomy m n) as [L|[L|L]]; [|lia|].
  - pose proof (boff_mono m n G0 L). lia.
  - pose proof (boff_mono n m H0 L). lia.
Qed.

(** Writing a block back as it is changes nothing. *)
Lemma wr_same d n : dev d -> inb n -> wr d n (blk d n) = d.
Proof.
  intros Hd Hn. pose proof (blk_block d n Hd Hn) as [_ Hl]. destruct Hd as [_ Hf], Hn as [H0 H1]. pose proof (boff_mono n N H0 H1).
  pose proof bs_pos. apply bytes_ext; [apply blen_put; lia|]. intros i Hi.
  unfold wr. rewrite aget_put by lia. case_decide; [|done]. unfold blk. rewrite aget_slice by lia. f_equal. lia.
Qed.

Lemma lba_eq n : inb n -> u64 (block_lba fs n + 0) = part_lba fs + n * secs_per_block fs.
Proof.
  intros [H0 H1]. pose proof (spb fs Hg). unfold block_lba. rewrite Z.add_0_r. assert (is_u64 (part_lba fs + n * secs_per_block fs)) by (unfold is_u64; nia). by rewrite !(u64_small (part_lba fs + n * secs_per_block fs)) by done.
Qed.

Lemma gives_ask d sb : gives d sb (ask ok) () d sb.
Proof. intros s <- <-. unfold ask. by rewrite Hok. Qed.

Lemma gives_read_block d sb n : dev d -> inb n -> gives d sb (read_block ok fs n) (blk d n) d sb.
Proof.
  intros Hd Hn. rewrite read_block_once by done. rewrite lba_eq by done. gstep ltac:(apply gives_ask).
  gstep ltac:(idtac). 2: by apply gives_ret.
  unfold blkdev_read. gstep ltac:(apply gives_ask). intros s <- <-. unfold dev_read, on_device.
  destruct Hd as [_ Hf], Hn as [H0 H1]. pose proof (spb fs Hg). pose proof (boff_mono n N H0 H1). unfold boff in *.
  rewrite (proj2 (Z.leb_le _ _)) by lia. split; [|done]. unfold blk, boff. f_equal. lia.
Qed.

Lemma gives_write_block d sb n b : dev d -> inb n -> block b -> gives d sb (write_block ok fs n b) () (wr d n b) sb.
Proof.
  intros Hd Hn Hb. rewrite write_block_once by done. rewrite lba_eq by done. gstep ltac:(apply gives_ask).
  gstep ltac:(idtac). 2: by apply gives_ret.
  unfold blkdev_write. gstep ltac:(apply gives_ask). intros s <- <-. unfold dev_write, on_device.
  destruct Hd as [_ Hf], Hn as [H0 H1]. pose proof (spb fs Hg). pose proof (boff_mono n N H0 H1). unfold boff in *.
  rewrite (proj2 (Z.leb_le _ _)) by lia. done.
Qed.

(** ** The superblock *)

Definition sb_blk : Z := if bs =? 1024 then 1 else 0.
Definition wsup (d sb : list Z) : list Z := put d ((part_lba fs + 2) * 512) sb.

Lemma wsup_place : (part_lba fs + 2) * 512 = boff 0 + 1024 /\ boff 1 = boff 0 + bs /\ boff 1 + bs <= boff N /\ 0 <= boff 0.
Proof.
  pose proof (boff_step 0). pose proof (boff_mono 1 N). pose proof (boff_mono 0 1). unfold boff in *. lia.
Qed.

Lemma dev_wsup d sb : dev d -> bytes sb -> blen sb = 1024 -> dev (wsup d sb) /\ blen (wsup d sb) = blen d.
Proof.
  intros [Hb Hf] Hs Hl. pose proof wsup_place. pose proof bs_pos.
  assert (blen (wsup d sb) = blen d) as E by (apply blen_put; lia). split; [|done]. split; [by apply put_bytes|lia].
Qed.

Lemma inb_sb : inb sb_blk.
Proof. unfold inb, sb_blk. destruct (_ =? _); lia. Qed.

Lemma blk_wsup d sb m : dev d -> inb m -> blen sb = 1024 -> m <> sb_blk -> blk (wsup d sb) m = blk d m.
Proof.
  intros [Hb Hf] [H0 H1] Hl Hm. pose proof wsup_place. pose proof bs_pos. pose proof (boff_mono m N H0 H1).
  unfold blk, wsup. apply slice_put_ne; try lia. unfold sb_blk in Hm. destruct (Z.eqb_spec bs 1024).
  - destruct (Z.lt_trichotomy m 1) as [L|[L|L]]; [|lia|].
    + pose proof (boff_mono m 1 H0 L). lia.
    + pose proof (boff_mono 1 m ltac:(lia) L). lia.
  - assert (2048 <= bs) by (destruct Hg; lia). pose proof (boff_mono 0 m ltac:(lia) ltac:(lia)). lia.
Qed.

Lemma gives_write_super d sb : dev d -> blen sb = 1024 -> gives d sb (write_super ok fs) () (wsup d sb) sb.
Proof.
  intros [Hb Hf] Hl. pose proof wsup_place. pose proof bs_pos. pose proof (spb fs Hg).
  unfold write_super. gstep ltac:(apply gives_ask). gstep ltac:(apply gives_get_sb).
  rewrite u64_small by (unfold is_u64; nia).
  unfold blkdev_write. gstep ltac:(apply gives_ask). intros s <- <-. unfold dev_write, on_device.
  rewrite (proj2 (Z.leb_le _ _)) by lia. done.
Qed.

(** ** Group descriptors *)

Definition bgd_blk (g : Z) : Z := bgd_block fs + g / bgds_per_block fs.
Definition bgd_off (g : Z) : Z := g mod bgds_per_block fs * sizeof_bgd.
Definition bgd (d : list Z) (g : Z) : list Z := slice (blk d (bgd_blk g)) (bgd_off g) sizeof_bgd.
Definition wbgd (d : list Z) (g : Z) (v : list Z) : list Z := wr d (bgd_blk g) (put (blk d (bgd_blk g)) (bgd_off g) v).

Lemma bgds_eq : bgds_per_block fs * 32 = bs /\ 32 <= bgds_per_block fs.
Proof. unfold bgds_per_block, sizeof_bgd. destruct Hg. lia. Qed.

Lemma bgd_off_range g : 0 <= bgd_off g /\ bgd_off g + 32 <= bs.
Proof. pose proof bgds_eq. unfold bgd_off, sizeof_bgd. pose proof (Z.mod_pos_bound g (bgds_per_block fs)). lia. Qed.

Lemma bgd_ok d g : dev d -> inb (bgd_blk g) -> bgd_t (bgd d g).
Proof.
  intros Hd Hi. pose proof (blk_block d _ Hd Hi) as [Hb Hl]. pose proof (bgd_off_range g).
  split; [by apply slice_bytes|]. unfold bgd, sizeof_bgd. apply blen_slice; lia.
Qed.

Lemma put_bgd_block d g v : dev d -> inb (bgd_blk g) -> bgd_t v -> block (put (blk d (bgd_blk g)) (bgd_off g) v).
Proof.
  intros Hd Hi [Hv Hvl]. pose proof (blk_block d _ Hd Hi) as [Hb Hl]. pose proof (bgd_off_range g). unfold sizeof_bgd in *.
  split; [by apply put_bytes|]. rewrite blen_put; lia.
Qed.

Lemma bgd_wbgd d g v g' : dev d -> inb (bgd_blk g) -> inb (bgd_blk g') -> bgd_t v ->
  bgd (wbgd d g v) g' = if decide (g' = g) then v else bgd d g'.
Proof.
  intros Hd Hi Hi' Hv. pose proof (put_bgd_block d g v Hd Hi Hv) as Hp. pose proof (blk_block d _ Hd Hi) as [_ Hl].
  pose proof (bgd_off_range g). pose proof (bgd_off_range g'). pose proof bgds_eq. destruct Hv as [_ Hv]. unfold sizeof_bgd in *.
  unfold bgd, wbgd, sizeof_bgd. rewrite blk_wr by done. case_decide as E.
  - case_decide as E2; [subst; apply slice_put_eq; lia|].
    assert (g' mod bgds_per_block fs <> g mod bgds_per_block fs).
    { intros E3. apply E2. unfold bgd_blk in E. rewrite (Z.div_mod g' (bgds_per_block fs)), (Z.div_mod g (bgds_per_block fs)) by lia. nia. }
    rewrite E. unfold bgd_off, sizeof_bgd in *. revert H H0 H2. generalize (g mod bgds_per_block fs), (g' mod bgds_per_block fs).
    intros a b Ha Hb Hab. apply slice_put_ne; lia.
  - rewrite decide_False; [done|]. by intros ->.
Qed.

Lemma gives_bgd_place d sb g : inb (bgd_blk g) -> gives d sb (bgd_place fs g) (bgd_blk g, g mod bgds_per_block fs) d sb.
Proof.
  intros Hi. pose proof bgds_eq. unfold bgd_place. gstep ltac:(apply gives_divmod; lia).
  rewrite u32_small; [apply gives_ret|]. unfold inb in Hi. unfold bgd_blk in Hi. unfold is_u32. lia.
Qed.

Lemma gives_read_bgd d sb g : dev d -> inb (bgd_blk g) -> gives d sb (read_bgd ok fs g) (bgd d g) d sb.
Proof.
  intros Hd Hi. unfold read_bgd. gstep ltac:(by apply gives_bgd_place). cbv beta iota. gstep ltac:(by apply gives_read_block).
  pose proof (blk_block d _ Hd Hi) as [Hb Hl]. pose proof (bgd_off_range g) as Ho. unfold bgd_off in Ho.
  apply gives_lift. rewrite rds_in by (unfold sizeof_bgd in *; lia). done.
Qed.

Lemma gives_write_bgd d sb g v : dev d -> inb (bgd_blk g) -> bgd_t v -> gives d sb (write_bgd ok fs g v) () (wbgd d g v) sb.
Proof.
  intros Hd Hi Hv. unfold write_bgd. gstep ltac:(by apply gives_bgd_place). cbv beta iota. gstep ltac:(apply gives_ask).
  gstep ltac:(by apply gives_read_block). pose proof (put_bgd_block d g v Hd Hi Hv) as Hp.
  gstep ltac:(apply gives_lift).
  - unfold put_in. pose proof (blk_block d _ Hd Hi) as [Hb Hl]. pose proof (bgd_off_range g) as Ho. destruct Hv as [_ Hv].
    unfold bgd_off, sizeof_bgd in *. rewrite (proj2 (Z.ltb_ge _ 0)), (proj2 (Z.ltb_ge _ (_ + _))) by lia. reflexivity.
  - by apply gives_write_block.
Qed.

(** ** Bitmaps *)

Lemma land_bit x k : 0 <= k -> negb (Z.land x (Z.shiftl 1 k) =? 0) = Z.testbit x k.
Proof.
  intros Hk. destruct (Z.testbit x k) eqn:E.
  - apply negb_true_iff, Z.eqb_neq. intros H. assert (Z.testbit (Z.land x (Z.shiftl 1 k)) k = true) as H'.
    { rewrite Z.land_spec, E, Z.shiftl_spec, Z.sub_diag by lia. done. }
    by rewrite H, Z.bits_0 in H'.
  - apply negb_false_iff, Z.eqb_eq. apply Z.bits_inj'. intros i Hi. rewrite Z.land_spec, Z.bits_0.
    destruct (Z.eq_dec i k) as [->|Hne]; [by rewrite E|]. rewrite testbit_one_shift by lia.
    by rewrite bool_decide_eq_false_2, andb_false_r.
Qed.

Lemma bit_is_set_eq bmap i : block bmap -> 0 <= i / 8 < bs ->
  bit_is_set bmap i = Some (Z.testbit (aget 0 bmap (i / 8)) (i mod 8)).
Proof.
  intros [Hb Hl] Hi. unfold bit_is_set, rdb. rewrite (proj2 (Z.ltb_ge _ 0)) by lia. rewrite aget_lookup.
  destruct (bmap !! Z.to_nat (i / 8)) as [x|] eqn:E; [|apply lookup_ge_None in E; unfold blen in Hl; lia].
  cbn [mbind option_bind default]. rewrite land_bit by lia. done.
Qed.

Lemma bit_set_spec bmap i : block bmap -> 0 <= i / 8 < bs ->
  exists b, bit_set bmap i = Some b /\ block b /\
  forall j, 0 <= j / 8 < bs -> bit_is_set b j = if decide (j = i) then Some true else bit_is_set bmap j.
Proof.
  intros Hm Hi. destruct (bit_set_ok fs bmap i Hm Hi) as (b & E & Hb). exists b. split; [done|]. split; [done|]. intros j Hj.
  rewrite !bit_is_set_eq by done. destruct Hm as [Hmb Hml]. revert E. unfold bit_set, rdb. rewrite (proj2 (Z.ltb_ge _ 0)) by lia.
  destruct (bmap !! Z.to_nat (i / 8)) as [x|] eqn:Ex; [|done]. cbn [mbind option_bind]. intros [= <-].
  assert (aget 0 bmap (i / 8) = x) as Ea by (by rewrite aget_lookup, Ex). unfold blen in Hml.
  destruct (Z.eq_dec (j / 8) (i / 8)) as [E8|E8].
  - rewrite E8, aget_aset_eq, Ea by lia. unfold u8. rewrite Z.mod_pow2_bits_low by lia. rewrite Z.lor_spec, testbit_one_shift by lia.
    case_decide as D; [subst; by rewrite bool_decide_eq_true_2, orb_true_r|]. rewrite bool_decide_eq_false_2 by lia. by rewrite orb_false_r.
  - rewrite aget_aset_ne by lia. rewrite decide_False; [done|]. by intros ->.
Qed.

Lemma first_clear_spec bmap n i : block bmap -> 0 <= i -> i + Z.of_nat n <= 8 * bs ->
  exists r, first_clear n bmap i = Some r /\
  match r with
  | Some k => i <= k < i + Z.of_nat n /\ bit_is_set bmap k = Some false
  | None => forall k, i <= k < i + Z.of_nat n -> bit_is_set bmap k = Some true
  end.
Proof.
  intros Hm. revert i. induction n as [|n IH]; intros i H0 Hn; cbn [first_clear]; [exists None; split; [done|lia]|].
  pose proof (bit_is_set_eq bmap i Hm ltac:(lia)) as E. rewrite E. cbn [mbind option_bind]. destruct (Z.testbit _ _).
  - destruct (IH (i + 1)) as (r & -> & Hr); [lia..|]. exists r. split; [done|]. destruct r as [k|].
    + destruct Hr as [? ?]. split; [lia|done].
    + intros k Hk. destruct (Z.eq_dec k i) as [->|]; [done|]. apply Hr. lia.
  - exists (Some i). split; [done|]. split; [lia|done].
Qed.

(** ** Free blocks *)

(** [s_blocks_count], and the numbers of the blocks of the file system's own structures. *)
Context (cnt : Z) (Hcnt : 0 < cnt /\ cnt + blocks_per_group fs - 1 < 2 ^ 32) (sys : Z -> Prop).

Abbreviation bpg := (blocks_per_group fs).
Abbreviation fdb := (first_data_block fs).

Definition grp (g : Z) : Prop := 0 <= g < (cnt + bpg - 1) / bpg.
Definition nbits (g : Z) : Z := if cnt <? (g + 1) * bpg then cnt - g * bpg else bpg.
Definition bitmap (d : list Z) (g : Z) : Z := bg_block_bitmap (bgd d g).
Definition clear (d : list Z) (g bit : Z) : Prop := bit_is_set (blk d (bitmap d g)) bit = Some false.
Definition number (g bit : Z) : Z := g * bpg + fdb + bit.
Definition free (d : list Z) (n : Z) : Prop := exists g bit, grp g /\ 0 <= bit < nbits g /\ n = number g bit /\ clear d g bit.
(** No group has a clear bit and says so. *)
Definition full (d : list Z) : Prop := forall g, grp g ->
  bg_free_blocks_count (bgd d g) = 0 \/ forall bit, 0 <= bit < nbits g -> ~ clear d g bit.

(** The blocks that an allocation writes besides the new one. *)
Definition alloc_sys (d : list Z) (n : Z) : Prop := n = sb_blk \/ exists g, grp g /\ (n = bgd_blk g \/ n = bitmap d g).

Record meta (d sb : list Z) : Prop := {
  me_dev : dev d;
  me_sb : bytes sb /\ blen sb = sizeof_super /\ s_blocks_count sb = cnt;
  me_sb_sys : sys sb_blk /\ sys 0;
  me_bgd : forall g, grp g -> inb (bgd_blk g) /\ sys (bgd_blk g) /\ bgd_blk g <> sb_blk;
  me_map : forall g, grp g -> inb (bitmap d g) /\ sys (bitmap d g) /\ bitmap d g <> sb_blk;
  me_map_bgd : forall g g', grp g -> grp g' -> bitmap d g <> bgd_blk g';
  me_map_inj : forall g g', grp g -> grp g' -> bitmap d g = bitmap d g' -> g = g';
  me_free : forall n, free d n -> inb n /\ ~ sys n;
}.

Lemma grp_range g : grp g -> 0 <= g /\ g * bpg < cnt /\ (g + 1) * bpg <= cnt + bpg - 1.
Proof.
  intros [H0 H1]. destruct Hg as [_ _ Hb _]. pose proof (Z.mul_div_le (cnt + bpg - 1) bpg ltac:(lia)). nia.
Qed.

Lemma nbits_range g : grp g -> 0 < nbits g <= bpg.
Proof. intros H%grp_range. unfold nbits. destruct Hg as [_ _ Hb _]. destruct (Z.ltb_spec cnt ((g + 1) * bpg)); nia. Qed.

Lemma nbits_eq sb g : s_blocks_count sb = cnt -> grp g -> blocks_in_group fs sb g = nbits g.
Proof.
  intros E H%grp_range. destruct Hg. unfold blocks_in_group, nbits. rewrite E. rewrite u32_small by (unfold is_u32; nia).
  destruct (Z.ltb_spec cnt ((g + 1) * bpg)); [|done]. apply u32_small. unfold is_u32. nia.
Qed.

Lemma bit_byte g bit : grp g -> 0 <= bit < nbits g -> 0 <= bit / 8 < bs.
Proof. intros Hgr Hb. pose proof (nbits_range g Hgr). destruct Hg. lia. Qed.

Lemma number_inj g bit g' bit' : grp g -> grp g' -> 0 <= bit < nbits g -> 0 <= bit' < nbits g' ->
  number g bit = number g' bit' -> g = g' /\ bit = bit'.
Proof.
  intros H1 H2 H3 H4 E. pose proof (nbits_range g H1). pose proof (nbits_range g' H2). unfold number in E.
  assert (g = g') as -> by (destruct (Z.lt_trichotomy g g') as [?|[?|?]]; [|done|]; clear -H3 H4 H H0 E H5; nia). split; [done|lia].
Qed.

(** ** Allocation of a block *)

(** What taking the free block [n] does. *)
Record taken (d sb : list Z) (n : Z) (d' sb' : list Z) : Prop := {
  tk_meta : meta d' sb';
  tk_len : blen d' = blen d;
  tk_zero : blk d' n = zeros bs;
  tk_free : forall m, free d' m <-> free d m /\ m <> n;
  tk_frame : forall m, inb m -> m <> n -> ~ alloc_sys d m -> blk d' m = blk d m;
  tk_map : forall g, grp g -> bitmap d' g = bitmap d g;
  tk_table : forall g, grp g -> bg_inode_table (bgd d' g) = bg_inode_table (bgd d g);
  tk_room : ~ full d;
}.

Section take.
Context (d sb : list Z) (Hm : meta d sb) (g bit : Z) (Hgr : grp g) (Hbit : 0 <= bit < nbits g) (Hcl : clear d g bit).
Context (b1 : list Z) (Hb1 : block b1).
Context (Hset : forall j, 0 <= j / 8 < bs -> bit_is_set b1 j = if decide (j = bit) then Some true else bit_is_set (blk d (bitmap d g)) j).
Context (v : list Z) (Hv : bgd_t v) (Hvm : bg_block_bitmap v = bitmap d g) (Hvt : bg_inode_table v = bg_inode_table (bgd d g)).
Context (sb2 : list Z) (Hs2 : bytes sb2 /\ blen sb2 = sizeof_super /\ s_blocks_count sb2 = cnt).

Let n := number g bit.
Let bm := bitmap d g.
Let d1 := wr d bm b1.
Let d2 := wbgd d1 g v.
Let d3 := wsup d2 sb2.
Let d4 := wr d3 n (zeros bs).

Lemma take_free : free d n.
Proof. exists g, bit. done. Qed.

Lemma take_n : inb n /\ ~ sys n.
Proof. apply (me_free _ _ Hm), take_free. Qed.

Lemma take_dev1 : dev d1.
Proof. apply dev_wr; [apply Hm|by apply (me_map _ _ Hm)|done]. Qed.

Lemma take_bgd_block : block (put (blk d1 (bgd_blk g)) (bgd_off g) v).
Proof. apply put_bgd_block; [apply take_dev1|by apply (me_bgd _ _ Hm)|done]. Qed.

Lemma take_dev2 : dev d2.
Proof. apply dev_wr; [apply take_dev1|by apply (me_bgd _ _ Hm)|apply take_bgd_block]. Qed.

Lemma take_dev3 : dev d3.
Proof. apply dev_wsup; [apply take_dev2|apply Hs2|apply Hs2]. Qed.

Lemma take_dev4 : dev d4.
Proof. apply dev_wr; [apply take_dev3|apply take_n|apply zeros_block; done]. Qed.

Lemma take_blk m : inb m -> m <> sb_blk -> m <> bgd_blk g ->
  blk d4 m = if decide (m = n) then zeros bs else if decide (m = bm) then b1 else blk d m.
Proof.
  intros Hi H1 H2. pose proof take_dev1. pose proof take_dev2. pose proof take_dev3. destruct take_n.
  unfold d4. rewrite blk_wr by (done || by apply zeros_block). case_decide; [done|].
  unfold d3. rewrite blk_wsup by (done || apply Hs2). unfold d2, wbgd.
  rewrite blk_wr; [|done|by apply (me_bgd _ _ Hm)|done|apply take_bgd_block]. rewrite decide_False by done.
  unfold d1. apply blk_wr; [apply Hm|by apply (me_map _ _ Hm)|done|done].
Qed.

Lemma take_bgd g' : grp g' -> bgd d4 g' = if decide (g' = g) then v else bgd d g'.
Proof.
  intros Hg'. pose proof take_dev1. pose proof take_dev2. pose proof take_dev3. destruct take_n as [Hn Hns].
  destruct (me_bgd _ _ Hm g' Hg') as (Hi & Hs & Hne).
  assert (bgd d4 g' = bgd d2 g') as ->.
  { unfold bgd. f_equal. unfold d4. rewrite blk_wr by (done || by apply zeros_block). rewrite decide_False by (by intros <-).
    unfold d3. by rewrite blk_wsup by (done || apply Hs2). }
  unfold d2. rewrite bgd_wbgd; [|done|by apply (me_bgd _ _ Hm)|done|done]. case_decide; [done|].
  unfold bgd. f_equal. unfold d1. rewrite blk_wr; [|apply Hm|by apply (me_map _ _ Hm)|done|done].
  rewrite decide_False; [done|]. intros E. by apply (me_map_bgd _ _ Hm g g').
Qed.

Lemma take_bitmap g' : grp g' -> bitmap d4 g' = bitmap d g'.
Proof. intros Hg'. unfold bitmap at 1. rewrite take_bgd by done. case_decide; [by subst|done]. Qed.

Lemma take_table g' : grp g' -> bg_inode_table (bgd d4 g') = bg_inode_table (bgd d g').
Proof. intros Hg'. rewrite take_bgd by done. case_decide; [by subst|done]. Qed.

Lemma take_map_blk g' : grp g' -> blk d4 (bitmap d g') = if decide (g' = g) then b1 else blk d (bitmap d g').
Proof.
  intros Hg'. destruct (me_map _ _ Hm g' Hg') as (Hi & Hs & Hne). destruct take_n as [Hn Hns].
  rewrite take_blk; [|done|done|by apply (me_map_bgd _ _ Hm)]. rewrite decide_False by (intros <-; done). unfold bm.
  destruct (decide (g' = g)) as [->|Hne2]; [by rewrite decide_True|]. rewrite decide_False; [done|].
  intros E. by apply (me_map_inj _ _ Hm) in E.
Qed.

Lemma take_clear g' bit' : grp g' -> 0 <= bit' < nbits g' ->
  clear d4 g' bit' <-> clear d g' bit' /\ number g' bit' <> n.
Proof.
  intros Hg' Hb'. unfold clear. rewrite take_bitmap, take_map_blk by done. case_decide as E.
  - subst g'. rewrite Hset by (by eapply bit_byte). case_decide as E2.
    + subst. split; [done|]. by intros [_ []].
    + split; [|by intros [? _]]. intros H. split; [done|]. intros E3. apply number_inj in E3 as [_ ?]; done.
  - split; [|by intros [? _]]. intros H. split; [done|]. intros E3. apply number_inj in E3 as [? _]; done.
Qed.

Lemma take_frees m : free d4 m <-> free d m /\ m <> n.
Proof.
  split.
  - intros (g' & bit' & H1 & H2 & -> & H3). apply take_clear in H3 as [H3 H4]; [|done|done]. split; [|done]. by exists g', bit'.
  - intros [(g' & bit' & H1 & H2 & -> & H3) H4]. exists g', bit'. do 3 (split; [done|]). by apply take_clear.
Qed.

Lemma take_taken : bg_free_blocks_count (bgd d g) <> 0 -> taken d sb n d4 sb2.
Proof.
  intros Hc. destruct take_n as [Hn Hns]. pose proof take_dev1. pose proof take_dev2. pose proof take_dev3. split.
  - split.
    + apply take_dev4.
    + done.
    + apply Hm.
    + apply (me_bgd _ _ Hm).
    + intros g' Hg'. rewrite take_bitmap by done. by apply (me_map _ _ Hm).
    + intros g' g'' H' H''. rewrite take_bitmap by done. by apply (me_map_bgd _ _ Hm).
    + intros g' g'' H' H''. rewrite !take_bitmap by done. by apply (me_map_inj _ _ Hm).
    + intros m Hf. apply take_frees in Hf as [Hf _]. by apply (me_free _ _ Hm).
  - unfold d4. rewrite blen_wr by (done || by apply zeros_block). unfold d3. rewrite (proj2 (dev_wsup d2 sb2 ltac:(done) (proj1 Hs2) (proj1 (proj2 Hs2)))).
    unfold d2, wbgd. rewrite blen_wr; [|done|by apply (me_bgd _ _ Hm)|apply take_bgd_block]. apply blen_wr; [apply Hm|by apply (me_map _ _ Hm)|done].
  - unfold d4. rewrite blk_wr by (done || by apply zeros_block). by rewrite decide_True.
  - apply take_frees.
  - intros m Hi Hne Ha. rewrite take_blk; [|done|by intros ->; apply Ha; left|intros ->; apply Ha; right; exists g; auto].
    rewrite decide_False by done. rewrite decide_False; [done|]. intros ->. apply Ha. right. exists g. auto.
  - apply take_bitmap.
  - apply take_table.
  - intros Hf. destruct (Hf g Hgr) as [?|Hn']; [done|]. by apply (Hn' bit).
Qed.

End take.

Lemma bgd_wr16_fields b x : bgd_t b -> bgd_t (wr16 b 12 x) /\ bg_block_bitmap (wr16 b 12 x) = bg_block_bitmap b /\
  bg_inode_table (wr16 b 12 x) = bg_inode_table b.
Proof.
  intros H. pose proof H as [Hb Hl]. unfold sizeof_bgd in Hl. split; [by apply bgd_wr16; [|lia]|].
  unfold bg_block_bitmap, bg_inode_table, rd32, wr16. split; f_equal; apply slice_put_ne; rewrite ?blen_le_bytes; lia.
Qed.

Lemma super_wr32 sb x : bytes sb /\ blen sb = sizeof_super /\ s_blocks_count sb = cnt ->
  bytes (wr32 sb 12 x) /\ blen (wr32 sb 12 x) = sizeof_super /\ s_blocks_count (wr32 sb 12 x) = cnt.
Proof.
  intros (Hb & Hl & Hc). unfold sizeof_super in *. destruct (wr32_ok sb 12 x Hb) as [? El]; [lia|lia|].
  split; [done|]. split; [lia|]. rewrite <- Hc. unfold s_blocks_count, rd32, wr32. f_equal. apply slice_put_ne; rewrite ?blen_le_bytes; lia.
Qed.

Lemma ht_take_block d sb g bit E : meta d sb -> grp g -> 0 <= bit < nbits g -> clear d g bit -> bg_free_blocks_count (bgd d g) <> 0 ->
  ht d sb (take_block ok fs g (bgd d g) (blk d (bitmap d g)) bit) (fun a d' sb' => free d a /\ taken d sb a d' sb') E.
Proof.
  intros Hm Hgr Hbit Hcl Hct. destruct (me_bgd _ _ Hm g Hgr) as (Hgi & _). destruct (me_map _ _ Hm g Hgr) as (Hmi & _).
  pose proof (me_dev _ _ Hm) as Hd. pose proof (bgd_ok d g Hd Hgi) as Hbt.
  destruct (bit_set_spec (blk d (bitmap d g)) bit) as (b1 & E1 & Hb1 & Hset); [by apply blk_block|by eapply bit_byte|].
  destruct (bgd_wr16_fields (bgd d g) (u16 (bg_free_blocks_count (bgd d g) - 1)) Hbt) as (Hv & Hvm & Hvt).
  pose proof (super_wr32 sb (u32 (s_free_blocks_count sb - 1)) (me_sb _ _ Hm)) as Hs2.
  pose proof (take_taken d sb Hm g bit Hgr Hbit Hcl b1 Hb1 Hset _ Hv Hvm Hvt _ Hs2 Hct) as Ht.
  assert (inb (number g bit)) as Hn by apply (take_n d sb Hm g bit Hgr Hbit Hcl).
  pose proof (take_dev1 d sb Hm g Hgr b1 Hb1) as Hd1.
  pose proof (take_dev2 d sb Hm g Hgr b1 Hb1 _ Hv) as Hd2.
  pose proof (take_dev3 d sb Hm g Hgr b1 Hb1 _ Hv _ Hs2) as Hd3.
  unfold take_block. gstep ltac:(by apply gives_lift). gstep ltac:(by apply gives_try, gives_write_block).
  gstep ltac:(by apply gives_try, gives_write_bgd). gstep ltac:(apply gives_get_sb). gstep ltac:(apply gives_put_sb).
  gstep ltac:(apply gives_try, gives_write_super; [done|apply Hs2]).
  assert (u32 (g * bpg + fdb + bit) = number g bit) as -> by (unfold inb, number in *; apply u32_small; unfold is_u32; lia).
  gstep ltac:(apply gives_try). { gstep ltac:(apply gives_ask). apply gives_write_block; [done|done|by apply zeros_block]. }
  apply ht_ret. split; [by apply (take_free d g bit)|done].
Qed.

Lemma ht_alloc_block_from d sb n g : meta d sb -> 0 <= g -> g + Z.of_nat n = (cnt + bpg - 1) / bpg ->
  ht d sb (alloc_block_from ok fs n g) (fun a d' sb' =>
    (a = 0 /\ d' = d /\ sb' = sb /\ forall g', g <= g' -> grp g' ->
       bg_free_blocks_count (bgd d g') = 0 \/ forall bit, 0 <= bit < nbits g' -> ~ clear d g' bit) \/
    (free d a /\ taken d sb a d' sb')) never.
Proof.
  intros Hm. revert g. induction n as [|n IH]; intros g H0 Hn; cbn [alloc_block_from].
  { apply ht_ret. left. do 3 (split; [done|]). intros g' Hle [_ Hlt]. lia. }
  assert (grp g) as Hgr by (unfold grp; lia). pose proof (me_dev _ _ Hm) as Hd.
  destruct (me_bgd _ _ Hm g Hgr) as (Hgi & _). destruct (me_map _ _ Hm g Hgr) as (Hmi & _).
  (* the groups from g + 1 on, when g has nothing *)
  assert ((bg_free_blocks_count (bgd d g) = 0 \/ forall bit, 0 <= bit < nbits g -> ~ clear d g bit) ->
    ht d sb (alloc_block_from ok fs n (g + 1)) (fun a d' sb' =>
      (a = 0 /\ d' = d /\ sb' = sb /\ forall g', g <= g' -> grp g' ->
         bg_free_blocks_count (bgd d g') = 0 \/ forall bit, 0 <= bit < nbits g' -> ~ clear d g' bit) \/
      (free d a /\ taken d sb a d' sb')) never) as Hnext.
  { intros Hnone. eapply ht_mono; [apply IH; lia|cbv beta|done]. intros a d' sb' [(? & ? & ? & H)|H]; [left|by right].
    do 3 (split; [done|]). intros g' Hle Hg'. destruct (Z.eq_dec g' g) as [->|]; [done|]. apply H; [lia|done]. }
  gstep ltac:(by apply gives_try, gives_read_bgd). destruct (Z.eqb_spec (bg_free_blocks_count (bgd d g)) 0); [by apply Hnext; left|].
  gstep ltac:(apply gives_try, gives_ask). gstep ltac:(by apply gives_try, gives_read_block).
  gstep ltac:(apply gives_get_sb). rewrite (nbits_eq sb) by (done || apply Hm).
  pose proof (nbits_range g Hgr) as Hnb. change (blk d (bg_block_bitmap (bgd d g))) with (blk d (bitmap d g)).
  destruct (first_clear_spec (blk d (bitmap d g)) (Z.to_nat (nbits g)) 0) as (r & Er & Hr); [by apply blk_block|done|destruct Hg; lia|].
  gstep ltac:(by apply gives_lift). rewrite Z2Nat.id in Hr by lia. destruct r as [bit|].
  - destruct Hr as [Hbit Hcl]. eapply ht_mono; [by apply ht_take_block|cbv beta; by right|done].
  - apply Hnext. right. intros bit Hbit Hc. unfold clear in Hc. rewrite Hr in Hc by lia. done.
Qed.

Lemma ht_alloc_block d sb : meta d sb ->
  ht d sb (alloc_block ok fs) (fun a d' sb' =>
    (a = 0 /\ d' = d /\ sb' = sb /\ full d) \/ (a <> 0 /\ free d a /\ taken d sb a d' sb')) never.
Proof.
  intros Hm. pose proof (me_sb _ _ Hm) as (_ & _ & Hc). destruct Hg as [_ _ Hbp _].
  unfold alloc_block. gstep ltac:(apply gives_get_sb). unfold num_groups. rewrite Hc.
  eapply (gives_bind _ _ _ _ ((cnt + bpg - 1) / bpg)).
  { gstep ltac:(apply gives_divmod; lia). rewrite u32_small by (unfold is_u32; lia). apply gives_ret. }
  eapply ht_mono; [apply ht_alloc_block_from; [done|done|]|cbv beta|done].
  { rewrite Z2Nat.id; [done|]. apply Z.div_pos; lia. }
  intros a d' sb' [(? & ? & ? & H)|[Hf Ht]]; [left; do 3 (split; [done|]); intros g Hgr; apply H; [apply Hgr|done]|right].
  split; [|done]. intros ->. apply (me_free _ _ Hm) in Hf as [_ Hf]. by destruct (me_sb_sys _ _ Hm).
Qed.

Lemma full_ext d d' : (forall g, grp g -> bgd d' g = bgd d g) -> (forall n, free d' n -> free d n) -> full d -> full d'.
Proof.
  intros Hb Hf H g Hgr. rewrite Hb by done. destruct (H g Hgr) as [?|Hn]; [by left|right]. intros bit Hbit Hc.
  destruct (Hf (number g bit)) as (g' & bit' & H1 & H2 & H3 & H4); [by exists g, bit|].
  apply number_inj in H3 as [-> ->]; [|done..]. by apply (Hn bit').
Qed.

(** A write outside the allocator's blocks keeps its invariant. *)
Lemma meta_wr d sb m b : meta d sb -> inb m -> ~ alloc_sys d m -> block b ->
  meta (wr d m b) sb /\ (forall n, free (wr d m b) n <-> free d n) /\ (forall g, grp g -> bgd (wr d m b) g = bgd d g).
Proof.
  intros Hm Hi Ha Hb. pose proof (me_dev _ _ Hm) as Hd.
  assert (forall g, grp g -> bgd (wr d m b) g = bgd d g) as Eb.
  { intros g Hgr. destruct (me_bgd _ _ Hm g Hgr) as (Hgi & _). unfold bgd. rewrite blk_wr by done.
    rewrite decide_False; [done|]. intros <-. apply Ha. right. eauto. }
  assert (forall g bit, grp g -> clear (wr d m b) g bit <-> clear d g bit) as Ec.
  { intros g bit Hgr. destruct (me_map _ _ Hm g Hgr) as (Hmi & _). unfold clear. unfold bitmap. rewrite Eb by done.
    change (bg_block_bitmap (bgd d g)) with (bitmap d g). rewrite blk_wr by done. rewrite decide_False; [done|].
    intros <-. apply Ha. right. eauto. }
  assert (forall n, free (wr d m b) n <-> free d n) as Ef.
  { intros n. split; intros (g & bit & H1 & H2 & H3 & H4); exists g, bit; (split; [exact H1|]); (split; [exact H2|]); (split; [exact H3|]).
    - exact (proj1 (Ec g bit H1) H4).
    - exact (proj2 (Ec g bit H1) H4). }
  split; [|done]. split.
  - by apply dev_wr.
  - apply Hm.
  - apply Hm.
  - apply (me_bgd _ _ Hm).
  - intros g Hgr. unfold bitmap. rewrite Eb by done. by apply (me_map _ _ Hm).
  - intros g g' Hgr Hgr'. unfold bitmap. rewrite Eb by done. by apply (me_map_bgd _ _ Hm).
  - intros g g' Hgr Hgr'. unfold bitmap. rewrite !Eb by done. by apply (me_map_inj _ _ Hm).
  - intros n Hf. apply Ef in Hf. by apply (me_free _ _ Hm).
Qed.

Lemma alloc_sys_sys d sb m : meta d sb -> alloc_sys d m -> sys m.
Proof.
  intros Hm [->|(g & Hgr & [->| ->])]; [apply Hm|by apply (me_bgd _ _ Hm)|by apply (me_map _ _ Hm)].
Qed.

(** ** Inodes *)

Abbreviation ipg := (inodes_per_group fs).
Abbreviation isz := (inode_size fs).

Definition igroup (ino : Z) : Z := (ino - 1) / ipg.
Definition iindex (ino : Z) : Z := (ino - 1) mod ipg.
Definition iblk (d : list Z) (ino : Z) : Z := bg_inode_table (bgd d (igroup ino)) + iindex ino / (bs / isz).
Definition ioff (ino : Z) : Z := iindex ino mod (bs / isz) * isz.
Definition inode_at (d : list Z) (ino : Z) : list Z := slice (blk d (iblk d ino)) (ioff ino) sizeof_inode.
Definition wino (d : list Z) (ino : Z) (i : list Z) : list Z := wr d (iblk d ino) (put (blk d (iblk d ino)) (ioff ino) i).

(** The inode is in a table the allocator does not touch. *)
Record inode_ok (d : list Z) (ino : Z) : Prop := {
  io_ino : 1 <= ino;
  io_grp : grp (igroup ino);
  io_blk : inb (iblk d ino);
  io_sys : sys (iblk d ino);
  io_alloc : ~ alloc_sys d (iblk d ino);
}.

Lemma ipb_pos : 0 < bs / isz /\ bs / isz * isz <= bs.
Proof. destruct Hg. split; [apply Z.div_str_pos; lia|]. rewrite Z.mul_comm. apply Z.mul_div_le. lia. Qed.

Lemma ioff_range ino : 0 <= ioff ino /\ ioff ino + sizeof_inode <= bs.
Proof.
  unfold ioff, sizeof_inode. pose proof ipb_pos. pose proof (Z.mod_pos_bound (iindex ino) (bs / isz) ltac:(lia)). destruct Hg. nia.
Qed.

Lemma inode_at_ok d ino : dev d -> inb (iblk d ino) -> inode_t (inode_at d ino).
Proof.
  intros Hd Hi. pose proof (blk_block d _ Hd Hi) as [Hb Hl]. pose proof (ioff_range ino). unfold sizeof_inode in *.
  split; [by apply slice_bytes|]. unfold inode_at, sizeof_inode. apply blen_slice; lia.
Qed.

Lemma put_inode_block d ino i : dev d -> inb (iblk d ino) -> inode_t i -> block (put (blk d (iblk d ino)) (ioff ino) i).
Proof.
  intros Hd Hi [Hv Hvl]. pose proof (blk_block d _ Hd Hi) as [Hb Hl]. pose proof (ioff_range ino). unfold sizeof_inode in *.
  split; [by apply put_bytes|]. rewrite blen_put; lia.
Qed.

Lemma gives_inode_place d sb ino : inb (iblk d ino) ->
  gives d sb (inode_place fs (bgd d (igroup ino)) (iindex ino)) (iblk d ino, iindex ino mod (bs / isz)) d sb.
Proof.
  intros Hi. pose proof ipb_pos. destruct Hg. unfold inode_place. gstep ltac:(apply gives_divmod; lia). gstep ltac:(apply gives_divmod; lia).
  rewrite u32_small; [apply gives_ret|]. unfold inb, iblk in Hi. unfold is_u32. lia.
Qed.

Lemma gives_read_inode d sb ino : meta d sb -> inode_ok d ino -> gives d sb (read_inode ok fs ino) (inode_at d ino) d sb.
Proof.
  intros Hm [H1 H2 H3 _ _]. pose proof (me_dev _ _ Hm) as Hd. destruct (me_bgd _ _ Hm _ H2) as (Hgi & _). unfold read_inode.
  gstep ltac:(apply gives_guard; by rewrite (proj2 (Z.eqb_neq ino 0)) by lia).
  gstep ltac:(apply gives_divmod; destruct Hg; lia). gstep ltac:(by apply gives_read_bgd).
  gstep ltac:(by apply gives_inode_place). gstep ltac:(by apply gives_read_block).
  pose proof (blk_block d _ Hd H3) as [Hb Hl]. pose proof (ioff_range ino) as Ho. unfold ioff in Ho.
  apply gives_lift. rewrite rds_in by (unfold sizeof_inode in *; lia). done.
Qed.

Lemma gives_write_inode d sb ino i : meta d sb -> inode_ok d ino -> inode_t i ->
  gives d sb (write_inode ok fs ino i) () (wino d ino i) sb.
Proof.
  intros Hm [H1 H2 H3 _ _] Hi. pose proof (me_dev _ _ Hm) as Hd. destruct (me_bgd _ _ Hm _ H2) as (Hgi & _). unfold write_inode.
  gstep ltac:(apply gives_guard; by rewrite (proj2 (Z.eqb_neq ino 0)) by lia).
  gstep ltac:(apply gives_divmod; destruct Hg; lia). gstep ltac:(apply gives_ask). gstep ltac:(by apply gives_read_bgd).
  gstep ltac:(by apply gives_inode_place). gstep ltac:(by apply gives_read_block).
  pose proof (put_inode_block d ino i Hd H3 Hi) as Hp. gstep ltac:(apply gives_lift).
  - unfold put_in. pose proof (blk_block d _ Hd H3) as [Hb Hl]. pose proof (ioff_range ino) as Ho. destruct Hi as [_ Hi].
    unfold ioff, sizeof_inode in *. rewrite (proj2 (Z.ltb_ge _ 0)), (proj2 (Z.ltb_ge _ (_ + _))) by lia. reflexivity.
  - by apply gives_write_block.
Qed.

Section wino.
Context (d sb : list Z) (ino : Z) (i : list Z) (Hm : meta d sb) (Hio : inode_ok d ino) (Hi : inode_t i).

Lemma wino_meta : meta (wino d ino i) sb /\ (forall n, free (wino d ino i) n <-> free d n) /\
  (forall g, grp g -> bgd (wino d ino i) g = bgd d g).
Proof. apply meta_wr; [done|apply Hio|apply Hio|apply put_inode_block; [apply Hm|apply Hio|done]]. Qed.

Lemma wino_blk m : inb m -> m <> iblk d ino -> blk (wino d ino i) m = blk d m.
Proof.
  intros Hin Hne. unfold wino. rewrite blk_wr; [|apply Hm|apply Hio|done|apply put_inode_block; [apply Hm|apply Hio|done]].
  by rewrite decide_False.
Qed.

Lemma wino_iblk ino' : grp (igroup ino') -> iblk (wino d ino i) ino' = iblk d ino'.
Proof. intros H'. unfold iblk. destruct wino_meta as (_ & _ & ->); done. Qed.

(** The inode reads back, and the others are as they were. *)
Lemma wino_at : inode_at (wino d ino i) ino = i.
Proof.
  unfold inode_at. rewrite wino_iblk by apply Hio. pose proof (put_inode_block d ino i (me_dev _ _ Hm) (io_blk _ _ Hio) Hi) as Hp.
  unfold wino. rewrite blk_wr; [|apply Hm|apply Hio|apply Hio|done]. rewrite decide_True by done.
  pose proof (blk_block d _ (me_dev _ _ Hm) (io_blk _ _ Hio)) as [_ Hl]. pose proof (ioff_range ino). destruct Hi as [_ Hil].
  unfold sizeof_inode in *. apply slice_put_eq; lia.
Qed.

Lemma wino_other ino' : inode_ok d ino' -> ino' <> ino -> (iblk d ino' = iblk d ino -> igroup ino' = igroup ino) ->
  inode_at (wino d ino i) ino' = inode_at d ino'.
Proof.
  intros Ho Hne Hgrp. unfold inode_at. rewrite wino_iblk by apply Ho.
  destruct (Z.eq_dec (iblk d ino') (iblk d ino)) as [E|E]; [|by rewrite wino_blk by (done || apply Ho)].
  pose proof (put_inode_block d ino i (me_dev _ _ Hm) (io_blk _ _ Hio) Hi) as Hp.
  unfold wino. rewrite blk_wr; [|apply Hm|apply Hio|apply Ho|done]. rewrite decide_True by done. rewrite E.
  pose proof (blk_block d _ (me_dev _ _ Hm) (io_blk _ _ Hio)) as [_ Hl]. destruct Hi as [_ Hil].
  pose proof (ioff_range ino). pose proof (ioff_range ino'). unfold sizeof_inode in *. apply slice_put_ne; try lia.
  specialize (Hgrp E). unfold iblk in E. rewrite Hgrp in E. pose proof ipb_pos. pose proof (io_ino _ _ Hio). pose proof (io_ino _ _ Ho).
  assert (iindex ino' <> iindex ino) as Hix.
  { intros Ei. unfold igroup, iindex in *. destruct Hg.
    pose proof (Z.div_mod (ino - 1) ipg ltac:(lia)) as D1. pose proof (Z.div_mod (ino' - 1) ipg ltac:(lia)) as D2.
    rewrite Hgrp, Ei, <- D1 in D2. clear -D2 Hne. lia. }
  assert (iindex ino' mod (bs / isz) <> iindex ino mod (bs / isz)) as Hmod.
  { intros Em. apply Hix. assert (iindex ino' / (bs / isz) = iindex ino / (bs / isz)) as Eq by (clear -E; lia).
    rewrite (Z.div_mod (iindex ino') (bs / isz)), (Z.div_mod (iindex ino) (bs / isz)) by lia. by rewrite Eq, Em. }
  unfold ioff. revert Hmod. generalize (iindex ino' mod (bs / isz)), (iindex ino mod (bs / isz)). intros x y Hxy.
  destruct Hg as [_ _ _ Hsz]. clear -Hxy Hsz Hil. rewrite Hil. nia.
Qed.

End wino.

(** ** The block tree of a file *)

(** Where a block pointer is: in the inode, in the indirect block, in the doubly-indirect block, or in one of
    the indirect blocks that one names. *)
Inductive slot :=
  | Top (k : Z)
  | Ind (i : Z)
  | Dbl (i : Z)
  | Leaf (i j : Z).

#[local] Instance slot_eq_dec : EqDecision slot.
Proof. solve_decision. Defined.

Abbreviation P := (ptrs fs).

Definition valid (a : slot) : Prop :=
  match a with
  | Top k => 0 <= k < 14
  | Ind i | Dbl i => 0 <= i < P
  | Leaf i j => 0 <= i < P /\ 0 <= j < P
  end.

(** The slots that name index blocks; the others name blocks of data. *)
Definition index (a : slot) : bool :=
  match a with Top k => 12 <=? k | Dbl _ => true | Ind _ | Leaf _ _ => false end.

Definition word (b : list Z) (i : Z) : Z := rd32 b (4 * i).
Definition ent_of (d : list Z) (p i : Z) : Z := if p =? 0 then 0 else word (blk d p) i.

Definition ptr (d inode : list Z) (a : slot) : Z :=
  match a with
  | Top k => i_block inode k
  | Ind i => ent_of d (i_block inode 12) i
  | Dbl i => ent_of d (i_block inode 13) i
  | Leaf i j => ent_of d (ent_of d (i_block inode 13) i) j
  end.

(** The tree has each of its blocks once, and they are in use and not the file system's own. *)
Record tree (d inode : list Z) : Prop := {
  tr_inode : inode_t inode;
  tr_in : forall a, valid a -> ptr d inode a <> 0 -> inb (ptr d inode a) /\ ~ sys (ptr d inode a) /\ ~ free d (ptr d inode a);
  tr_inj : forall a b, valid a -> valid b -> ptr d inode a = ptr d inode b -> ptr d inode a <> 0 -> a = b;
}.

(** Block [idx] of the file. *)
Definition max_blocks : Z := 12 + P + P * P.
Definition dslot (idx : Z) : slot :=
  if idx <? 12 then Top idx else if idx <? 12 + P then Ind (idx - 12)
  else Leaf ((idx - 12 - P) / P) ((idx - 12 - P) mod P).

(** The byte at position [pos]; a hole is 0. *)
Definition byte_of (d : list Z) (p o : Z) : Z := if p =? 0 then 0 else aget 0 (blk d p) o.
Definition fbyte (d inode : list Z) (pos : Z) : Z := byte_of d (ptr d inode (dslot (pos / bs))) (pos mod bs).

Lemma P_eq : 4 * P = bs /\ 256 <= P <= 1024.
Proof. by apply ptrs_eq. Qed.

Lemma dslot_valid idx : 0 <= idx < max_blocks -> valid (dslot idx) /\ index (dslot idx) = false.
Proof.
  intros H. pose proof P_eq. unfold dslot, max_blocks in *. destruct (Z.ltb_spec idx 12); cbn [valid index]; [split; [lia|]; apply Z.leb_gt; lia|].
  destruct (Z.ltb_spec idx (12 + P)); cbn [valid index]; [split; [lia|done]|]. split; [|done].
  split; [|apply Z.mod_pos_bound; lia]. split; [apply Z.div_pos; lia|apply Z.div_lt_upper_bound; lia].
Qed.

Lemma dslot_inj x y : dslot x = dslot y -> x = y.
Proof.
  unfold dslot. pose proof P_eq. destruct (Z.ltb_spec x 12), (Z.ltb_spec y 12), (Z.ltb_spec x (12 + P)), (Z.ltb_spec y (12 + P)); intros [=]; try lia.
Qed.

(** The tree depends on the inode's pointers and on the index blocks only. *)
Lemma ptr_ext d inode d' inode' :
  (forall k, 0 <= k < 14 -> i_block inode' k = i_block inode k) ->
  (forall p, valid p -> index p = true -> ptr d inode p <> 0 -> blk d' (ptr d inode p) = blk d (ptr d inode p)) ->
  forall a, valid a -> ptr d' inode' a = ptr d inode a.
Proof.
  intros Ht Hb. assert (forall p i, valid p -> index p = true -> ent_of d' (ptr d inode p) i = ent_of d (ptr d inode p) i) as He.
  { intros p i Hv Hi. unfold ent_of. destruct (Z.eqb_spec (ptr d inode p) 0); [done|]. by rewrite Hb. }
  pose proof (fun i => He (Top 12) i ltac:(cbn; lia) ltac:(done)) as H12. pose proof (fun i => He (Top 13) i ltac:(cbn; lia) ltac:(done)) as H13.
  pose proof (fun i j Hi => He (Dbl i) j Hi ltac:(done)) as HD. cbn [ptr valid] in H12, H13, HD.
  pose proof (Ht 12 ltac:(lia)) as E12. pose proof (Ht 13 ltac:(lia)) as E13.
  intros [k|i|i|i j] Ha; cbn [ptr valid] in *.
  - by apply Ht.
  - by rewrite E12, H12.
  - by rewrite E13, H13.
  - rewrite E13, H13. apply HD, Ha.
Qed.

Lemma tree_ext d inode d' inode' : tree d inode -> inode_t inode' ->
  (forall k, 0 <= k < 14 -> i_block inode' k = i_block inode k) ->
  (forall p, valid p -> index p = true -> ptr d inode p <> 0 -> blk d' (ptr d inode p) = blk d (ptr d inode p)) ->
  (forall n, free d' n -> free d n) -> tree d' inode'.
Proof.
  intros Ht Hi Hk Hb Hf. pose proof (ptr_ext d inode d' inode' Hk Hb) as E. split; [done| |].
  - intros a Ha. rewrite E by done. intros Hn. destruct (tr_in _ _ Ht a Ha Hn) as (? & ? & Hnf). do 2 (split; [done|]). intros Hf'. by apply Hnf, Hf.
  - intros a b Ha Hb'. rewrite !E by done. by apply (tr_inj _ _ Ht).
Qed.

(** ** Attaching a block *)

(** The index block that holds the slot, and the entry there. *)
Definition parent (a : slot) : option slot :=
  match a with Top _ => None | Ind _ => Some (Top 12) | Dbl _ => Some (Top 13) | Leaf i _ => Some (Dbl i) end.
Definition entry (a : slot) : Z := match a with Top k => k | Ind i => i | Dbl i => i | Leaf _ j => j end.

Definition wr_ent (d : list Z) (p i v : Z) : list Z := wr d p (put (blk d p) (4 * i) (le_bytes 4 v)).
Definition set_ptr (d inode : list Z) (a : slot) (v : Z) : list Z * list Z :=
  match parent a with
  | None => (d, set_i_block inode (entry a) v)
  | Some p => (wr_ent d (ptr d inode p) (entry a) v, inode)
  end.

Lemma parent_valid a p : valid a -> parent a = Some p -> valid p /\ index p = true /\ 0 <= entry a < P.
Proof. destruct a; cbn [valid parent entry]; intros ? [= <-]; cbn [valid index]; repeat split; try lia; done. Qed.

Lemma ptr_parent d inode a p : parent a = Some p -> ptr d inode a = ent_of d (ptr d inode p) (entry a).
Proof. by destruct a; intros [= <-]. Qed.

Lemma ent_block d p i v : dev d -> inb p -> 0 <= i < P -> block (put (blk d p) (4 * i) (le_bytes 4 v)).
Proof.
  intros Hd Hp Hi. pose proof (blk_block d p Hd Hp) as [Hb Hl]. pose proof P_eq.
  split; [by apply put_bytes, le_bytes_bytes|]. rewrite blen_put; rewrite ?blen_le_bytes; lia.
Qed.

Lemma word_put b i j v : blen b = bs -> 0 <= i < P -> 0 <= j < P -> is_u32 v ->
  word (put b (4 * i) (le_bytes 4 v)) j = if decide (j = i) then v else word b j.
Proof.
  intros Hl Hi Hj Hv. pose proof P_eq. unfold word. case_decide as E.
  - subst. apply rd32_wr32; (done || lia).
  - unfold rd32. f_equal. apply slice_put_ne; rewrite ?blen_le_bytes; lia.
Qed.

Lemma i_block_set inode k v k' : inode_t inode -> 0 <= k < 14 -> 0 <= k' < 14 -> is_u32 v ->
  i_block (set_i_block inode k v) k' = if decide (k' = k) then v else i_block inode k'.
Proof.
  intros [Hb Hl] Hk Hk' Hv. unfold sizeof_inode in Hl. unfold i_block, set_i_block. case_decide as E.
  - subst. apply rd32_wr32; (done || lia).
  - unfold rd32, wr32. f_equal. apply slice_put_ne; rewrite ?blen_le_bytes; lia.
Qed.

Lemma zeros_word i : 0 <= i < P -> word (zeros bs) i = 0.
Proof.
  intros Hi. pose proof P_eq. unfold word, rd32. assert (slice (zeros bs) (4 * i) 4 = zeros 4) as ->; [|done].
  apply bytes_ext; [rewrite blen_slice, blen_zeros; rewrite ?blen_zeros; lia|].
  rewrite blen_slice by (rewrite ?blen_zeros; lia). intros j Hj. rewrite aget_slice by (rewrite ?blen_zeros; lia). by rewrite !zeros_get.
Qed.

Section attach.
Context (d inode : list Z) (Hd : dev d) (Ht : tree d inode).
Context (a : slot) (Ha : valid a) (Ha0 : ptr d inode a = 0) (Hpar : forall p, parent a = Some p -> ptr d inode p <> 0).
Context (v : Z) (Hv : inb v) (Hv0 : v <> 0) (Hvz : blk d v = zeros bs).
Context (Hnew : forall b, valid b -> ptr d inode b <> v).

Let d' := (set_ptr d inode a v).1.
Let inode' := (set_ptr d inode a v).2.

Lemma v_u32 : is_u32 v.
Proof. unfold inb in Hv. unfold is_u32. lia. Qed.

(** Only the block of the parent is written. *)
Lemma attach_blk m : inb m -> (forall p, parent a = Some p -> m <> ptr d inode p) -> blk d' m = blk d m.
Proof.
  intros Hm Hne. unfold d', set_ptr. destruct (parent a) as [p|] eqn:Ep; [|done]. cbn [fst].
  destruct (parent_valid a p Ha Ep) as (Hpv & _ & He). destruct (tr_in _ _ Ht p Hpv (Hpar p eq_refl)) as (Hpi & _).
  unfold wr_ent. rewrite blk_wr by (done || by apply ent_block). rewrite decide_False; [done|]. by apply Hne.
Qed.

Lemma attach_parent_blk p : parent a = Some p -> blk d' (ptr d inode p) = put (blk d (ptr d inode p)) (4 * entry a) (le_bytes 4 v).
Proof.
  intros Ep. unfold d', set_ptr. rewrite Ep. cbn [fst]. destruct (parent_valid a p Ha Ep) as (Hpv & _ & He).
  destruct (tr_in _ _ Ht p Hpv (Hpar p Ep)) as (Hpi & _). unfold wr_ent. rewrite blk_wr by (done || by apply ent_block).
  by rewrite decide_True.
Qed.

Lemma attach_top k : 0 <= k < 14 -> i_block inode' k = if decide (Top k = a) then v else i_block inode k.
Proof.
  intros Hk. unfold inode', set_ptr. destruct a as [k'|i|i|i j]; cbn [parent snd entry]; try (rewrite decide_False; done).
  rewrite i_block_set; [|apply Ht|done|done|apply v_u32]. do 2 case_decide; congruence.
Qed.

(** Entries of an index block other than the new block. *)
Lemma attach_ent p b : valid p -> index p = true -> parent b = Some p -> valid b ->
  ent_of d' (ptr d inode p) (entry b) = if decide (b = a) then v else ptr d inode b.
Proof.
  intros Hp Hi Eb Hb. destruct (parent_valid b p Hb Eb) as (_ & _ & He). rewrite (ptr_parent d inode b p Eb). unfold ent_of.
  destruct (Z.eqb_spec (ptr d inode p) 0) as [E0|E0].
  { rewrite decide_False; [done|]. intros ->. by apply (Hpar p Eb). }
  destruct (tr_in _ _ Ht p Hp E0) as (Hpi & _).
  destruct (decide (parent a = Some p)) as [Ep|Ep].
  - rewrite (attach_parent_blk p Ep). destruct (parent_valid a p Ha Ep) as (_ & _ & Hea).
    rewrite word_put; [|apply blk_block; done|done|done|apply v_u32]. case_decide as E1.
    + rewrite decide_True; [done|]. clear -E1 Eb Ep. destruct a, b; cbn in *; congruence.
    + rewrite decide_False; [done|]. by intros ->.
  - rewrite attach_blk; [|done|]. { rewrite decide_False; [done|]. by intros ->. }
    intros q Eq E. destruct (parent_valid a q Ha Eq) as (Hq & _). apply Ep. rewrite Eq. f_equal. symmetry. by apply (tr_inj _ _ Ht).
Qed.

(** The new block has no entries. *)
Lemma attach_new_ent i : 0 <= i < P -> ent_of d' v i = 0.
Proof.
  intros Hi. unfold ent_of. destruct (v =? 0); [done|]. rewrite attach_blk; [|done|].
  - rewrite Hvz. by apply zeros_word.
  - intros p Ep E. destruct (parent_valid a p Ha Ep) as (Hpv & _). by apply (Hnew p).
Qed.

Lemma attach_ptr b : valid b -> ptr d' inode' b = if decide (b = a) then v else ptr d inode b.
Proof.
  intros Hb. pose proof (attach_top 12 ltac:(lia)) as E12. pose proof (attach_top 13 ltac:(lia)) as E13.
  assert (forall i, 0 <= i < P -> ent_of d' (i_block inode' 13) i = if decide (Dbl i = a) then v else ptr d inode (Dbl i)) as ED.
  { intros i Hi. rewrite E13. destruct (decide (Top 13 = a)) as [E|E].
    - rewrite attach_new_ent by done. rewrite decide_False by congruence. rewrite (ptr_parent _ _ (Dbl i) (Top 13)) by done. rewrite E, Ha0. done.
    - apply (attach_ent (Top 13) (Dbl i)); try done; cbn; lia. }
  destruct b as [k|i|i|i j]; cbn [ptr valid] in *.
  - rewrite attach_top by done. done.
  - rewrite E12. destruct (decide (Top 12 = a)) as [E|E].
    + rewrite attach_new_ent by done. rewrite decide_False by congruence. subst a. cbn [ptr] in Ha0. by rewrite Ha0.
    + apply (attach_ent (Top 12) (Ind i)); try done; cbn; lia.
  - by apply ED.
  - destruct Hb as [Hi Hj]. rewrite ED by done. destruct (decide (Dbl i = a)) as [E|E].
    + rewrite attach_new_ent by done. rewrite decide_False by congruence. subst a. cbn [ptr] in Ha0. by rewrite Ha0.
    + apply (attach_ent (Dbl i) (Leaf i j)); try done; cbn; lia.
Qed.

End attach.

(** ** How a file evolves *)

(** From [d], [sb], [i] to [d'], [sb'], [i']: pointers that were there stay, new ones name blocks that were free,
    and nothing is written outside the file's blocks, the allocator's and the blocks that were free. *)
Record evolved (d sb i d' sb' i' : list Z) : Prop := {
  ev_meta : meta d' sb';
  ev_len : blen d' = blen d;
  ev_tree : tree d' i';
  ev_ptr : forall a, valid a -> ptr d' i' a = ptr d i a \/ (ptr d i a = 0 /\ free d (ptr d' i' a));
  ev_free : forall n, free d' n -> free d n;
  ev_frame : forall m, inb m -> ~ free d m -> ~ alloc_sys d m -> (forall a, valid a -> ptr d i a <> 0 -> m <> ptr d i a) ->
    blk d' m = blk d m;
  ev_map : forall g, grp g -> bitmap d' g = bitmap d g /\ bg_inode_table (bgd d' g) = bg_inode_table (bgd d g);
  ev_head : slice i' 0 40 = slice i 0 40;
  ev_full : full d -> full d';
}.

Lemma evolved_refl d sb i : meta d sb -> tree d i -> evolved d sb i d sb i.
Proof. intros Hm Ht. split; auto. Qed.

Lemma evolved_alloc_sys d sb i d' sb' i' m : evolved d sb i d' sb' i' -> alloc_sys d' m <-> alloc_sys d m.
Proof.
  intros He. unfold alloc_sys. split; (intros [H|(g & Hgr & H)]; [by left|right; exists g; split; [done|]]);
    destruct (ev_map _ _ _ _ _ _ He g Hgr) as [E _]; [rewrite <- E|rewrite E]; exact H.
Qed.

Lemma evolved_trans d sb i d1 sb1 i1 d2 sb2 i2 : evolved d sb i d1 sb1 i1 -> evolved d1 sb1 i1 d2 sb2 i2 -> evolved d sb i d2 sb2 i2.
Proof.
  intros H1 H2. split; [exact (ev_meta _ _ _ _ _ _ H2)| |exact (ev_tree _ _ _ _ _ _ H2)| | | | | |].
  - rewrite (ev_len _ _ _ _ _ _ H2). exact (ev_len _ _ _ _ _ _ H1).
  - intros a Ha. destruct (ev_ptr _ _ _ _ _ _ H2 a Ha) as [->|[E F]]; [by apply (ev_ptr _ _ _ _ _ _ H1)|].
    right. split; [|by apply (ev_free _ _ _ _ _ _ H1)]. destruct (ev_ptr _ _ _ _ _ _ H1 a Ha) as [<-|[? _]]; done.
  - intros n Hn. by apply (ev_free _ _ _ _ _ _ H1), (ev_free _ _ _ _ _ _ H2).
  - intros m Hm Hf Ha Hp. rewrite (ev_frame _ _ _ _ _ _ H2); [by apply (ev_frame _ _ _ _ _ _ H1)|done| | |].
    + intros F. by apply Hf, (ev_free _ _ _ _ _ _ H1).
    + intros F. apply Ha. by apply (evolved_alloc_sys _ _ _ _ _ _ m H1).
    + intros a Hv H0 E. destruct (ev_ptr _ _ _ _ _ _ H1 a Hv) as [E1|[_ F]]; [apply (Hp a Hv); congruence|]. apply Hf. by rewrite E.
  - intros g Hgr. destruct (ev_map _ _ _ _ _ _ H1 g Hgr) as [E1 E2]. destruct (ev_map _ _ _ _ _ _ H2 g Hgr) as [E3 E4].
    split; congruence.
  - rewrite (ev_head _ _ _ _ _ _ H2). exact (ev_head _ _ _ _ _ _ H1).
  - intros F. by apply (ev_full _ _ _ _ _ _ H2), (ev_full _ _ _ _ _ _ H1).
Qed.

Lemma tree_not_alloc d sb i a : meta d sb -> tree d i -> valid a -> ptr d i a <> 0 -> ~ alloc_sys d (ptr d i a).
Proof. intros Hm Ht Ha Hn F. apply (alloc_sys_sys d sb) in F; [|done]. by destruct (tr_in _ _ Ht a Ha Hn) as (_ & ? & _). Qed.

(** A data block of the file is written. *)
Section data.
Context (d sb i : list Z) (Hm : meta d sb) (Ht : tree d i) (a : slot) (Ha : valid a) (Hai : index a = false) (Hn : ptr d i a <> 0).
Context (b : list Z) (Hb : block b).

Let d' := wr d (ptr d i a) b.

Lemma data_blk m : inb m -> blk d' m = if decide (m = ptr d i a) then b else blk d m.
Proof. intros Hi. unfold d'. apply blk_wr; [apply Hm|by apply (tr_in _ _ Ht)|done|done]. Qed.

Lemma data_index p : valid p -> index p = true -> ptr d i p <> 0 -> blk d' (ptr d i p) = blk d (ptr d i p).
Proof.
  intros Hp Hi H0. rewrite data_blk by (by apply (tr_in _ _ Ht)). rewrite decide_False; [done|].
  intros E. apply (tr_inj _ _ Ht) in E; [|done..]. congruence.
Qed.

Lemma data_ptr c : valid c -> ptr d' i c = ptr d i c.
Proof. by apply ptr_ext; [|apply data_index]. Qed.

Lemma data_evolved : evolved d sb i d' sb i.
Proof.
  pose proof (tree_not_alloc _ _ _ _ Hm Ht Ha Hn) as Hna. destruct (tr_in _ _ Ht a Ha Hn) as (Hin & Hs & Hf).
  destruct (meta_wr d sb (ptr d i a) b Hm Hin Hna Hb) as (Hm' & Hf' & Hg'). split.
  - done.
  - by apply blen_wr; [apply Hm|..].
  - eapply tree_ext; [done|apply Ht|done|apply data_index|by intros n ?%Hf'].
  - intros c Hc. left. by apply data_ptr.
  - by intros n ?%Hf'.
  - intros m Hmi _ _ Hp. rewrite data_blk by done. rewrite decide_False; [done|]. by apply Hp.
  - intros g Hgr. unfold bitmap. by rewrite Hg'.
  - done.
  - apply full_ext; [done|by intros n ?%Hf'].
Qed.

Lemma data_byte pos : 0 <= pos / bs < max_blocks ->
  fbyte d' i pos = if decide (dslot (pos / bs) = a) then aget 0 b (pos mod bs) else fbyte d i pos.
Proof.
  intros Hp. destruct (dslot_valid _ Hp) as [Hv _]. unfold fbyte. rewrite data_ptr by done. unfold byte_of. case_decide as E.
  - rewrite E, (proj2 (Z.eqb_neq _ 0)) by done. rewrite data_blk by (by apply (tr_in _ _ Ht)). by rewrite decide_True.
  - destruct (Z.eqb_spec (ptr d i (dslot (pos / bs))) 0); [done|]. rewrite data_blk by (by apply (tr_in _ _ Ht)).
    rewrite decide_False; [done|]. intros E2. apply E. by apply (tr_inj _ _ Ht) in E2.
Qed.

End data.

(** A block is allocated and attached at an empty slot whose parent exists. *)
Section grow.
Context (d sb i : list Z) (Hm : meta d sb) (Ht : tree d i) (a : slot) (Ha : valid a) (Ha0 : ptr d i a = 0).
Context (Hpar : forall p, parent a = Some p -> ptr d i p <> 0).
Context (n : Z) (Hn0 : n <> 0) (Hfree : free d n) (d1 sb1 : list Z) (Htk : taken d sb n d1 sb1).

Lemma grow_n : inb n /\ ~ sys n.
Proof. by apply (me_free _ _ Hm). Qed.

Lemma grow_old c : valid c -> ptr d i c <> 0 -> ptr d i c <> n /\ blk d1 (ptr d i c) = blk d (ptr d i c).
Proof.
  intros Hc H0. destruct (tr_in _ _ Ht c Hc H0) as (Hi & Hs & Hf). assert (ptr d i c <> n) by (by intros E; apply Hf; rewrite E).
  split; [done|]. apply (tk_frame _ _ _ _ _ Htk); [done|done|]. by eapply tree_not_alloc.
Qed.

Lemma grow_tree1 : tree d1 i.
Proof.
  eapply tree_ext; [done|apply Ht|done| |].
  - intros p Hp _ H0. by apply grow_old.
  - intros m Hf. by apply (tk_free _ _ _ _ _ Htk) in Hf as [? _].
Qed.

Lemma grow_ptr1 c : valid c -> ptr d1 i c = ptr d i c.
Proof. apply ptr_ext; [done|]. intros p Hp _ H0. by apply grow_old. Qed.

Lemma grow_new c : valid c -> ptr d1 i c <> n.
Proof.
  intros Hc. rewrite grow_ptr1 by done. destruct (Z.eq_dec (ptr d i c) 0) as [->|H0]; [congruence|]. by apply grow_old.
Qed.

Let d2 := (set_ptr d1 i a n).1.
Let i2 := (set_ptr d1 i a n).2.

Lemma grow_dev1 : dev d1.
Proof. apply (tk_meta _ _ _ _ _ Htk). Qed.

Lemma grow_ptr c : valid c -> ptr d2 i2 c = if decide (c = a) then n else ptr d i c.
Proof.
  intros Hc. rewrite <- grow_ptr1 by done. apply attach_ptr; try done.
  - apply grow_dev1.
  - apply grow_tree1.
  - by rewrite grow_ptr1.
  - intros p Ep. destruct (parent_valid a p Ha Ep) as (Hp & _). rewrite grow_ptr1 by done. by apply Hpar.
  - apply grow_n.
  - apply (tk_zero _ _ _ _ _ Htk).
  - apply grow_new.
Qed.

Lemma grow_blk2 m : inb m -> (forall p, parent a = Some p -> m <> ptr d i p) -> blk d2 m = blk d1 m.
Proof.
  intros Hi Hne. apply attach_blk; try done.
  - apply grow_dev1.
  - apply grow_tree1.
  - intros p Ep. destruct (parent_valid a p Ha Ep) as (Hp & _). rewrite grow_ptr1 by done. by apply Hpar.
  - intros p Ep. destruct (parent_valid a p Ha Ep) as (Hp & _). rewrite grow_ptr1 by done. by apply Hne.
Qed.

(** The write to the parent's block is none to the allocator's. *)
Lemma grow_meta : meta d2 sb1 /\ (forall m, free d2 m <-> free d1 m) /\ (forall g, grp g -> bgd d2 g = bgd d1 g) /\ blen d2 = blen d1.
Proof.
  pose proof (tk_meta _ _ _ _ _ Htk) as Hm1. unfold d2, set_ptr. destruct (parent a) as [p|] eqn:Ep; [|done]. cbn [fst].
  destruct (parent_valid a p Ha Ep) as (Hp & _ & He). assert (ptr d1 i p <> 0) as H0 by (rewrite grow_ptr1 by done; by apply Hpar).
  destruct (tr_in _ _ grow_tree1 p Hp H0) as (Hi & _). pose proof (ent_block d1 (ptr d1 i p) (entry a) n grow_dev1 Hi He) as Hb.
  destruct (meta_wr d1 sb1 (ptr d1 i p) _ Hm1 Hi ltac:(eapply tree_not_alloc; [done|apply grow_tree1|done|done]) Hb) as (? & ? & ?).
  do 3 (split; [done|]). apply blen_wr; [apply grow_dev1|done|done].
Qed.

Lemma grow_inode : inode_t i2 /\ slice i2 0 40 = slice i 0 40.
Proof.
  unfold i2, set_ptr. pose proof (tr_inode _ _ Ht) as Hi. destruct (parent a) as [p|] eqn:Ep; cbn [snd]; [done|].
  destruct a as [k|?|?|? ?]; [|done..]. cbn [valid entry] in *. destruct Hi as [Hb Hl]. unfold sizeof_inode in Hl.
  split; [by apply inode_wr32; [|lia]|]. unfold set_i_block, wr32. apply slice_put_ne; rewrite ?blen_le_bytes; lia.
Qed.

Lemma grow_tree : tree d2 i2.
Proof.
  destruct grow_meta as (_ & Hf & _). destruct grow_n as [Hni Hns]. split; [apply grow_inode| |].
  - intros c Hc. rewrite grow_ptr by done. rewrite Hf, (tk_free _ _ _ _ _ Htk). case_decide.
    + intros _. split; [done|]. split; [done|]. by intros [_ ?].
    + intros F. destruct (tr_in _ _ Ht c Hc F) as (? & ? & ?). split; [done|]. split; [done|]. by intros [? _].
  - intros c e Hc He. rewrite !grow_ptr by done. do 2 case_decide; subst; try done.
    + intros E F. destruct (grow_old e He); congruence.
    + intros E F. destruct (grow_old c Hc); congruence.
    + by apply (tr_inj _ _ Ht).
Qed.

Lemma grow_evolved : evolved d sb i d2 sb1 i2.
Proof.
  destruct grow_meta as (Hm2 & Hf & Hb & Hl). destruct grow_n as [Hni Hns]. split; [done| |apply grow_tree| | | | |apply grow_inode|by intros ?%(tk_room _ _ _ _ _ Htk)].
  - rewrite Hl. apply (tk_len _ _ _ _ _ Htk).
  - intros c Hc. rewrite grow_ptr by done. case_decide; [right; by subst|by left].
  - intros m Hm'%Hf. by apply (tk_free _ _ _ _ _ Htk) in Hm' as [? _].
  - intros m Hi Hnf Hna Hp. rewrite grow_blk2; [|done|intros p Ep; apply Hp; [by apply (parent_valid a p)|by apply Hpar]].
    apply (tk_frame _ _ _ _ _ Htk); [done|by intros ->|done].
  - intros g Hgr. unfold bitmap. rewrite Hb by done. split; [by apply (tk_map _ _ _ _ _ Htk)|by apply (tk_table _ _ _ _ _ Htk)].
Qed.

(** The file's contents are as before: the new block holds zeros where there was a hole. *)
Lemma grow_byte pos : 0 <= pos / bs < max_blocks -> fbyte d2 i2 pos = fbyte d i pos.
Proof.
  intros Hp. destruct (dslot_valid _ Hp) as [Hv Hx]. destruct grow_n as [Hni Hns]. unfold fbyte. rewrite grow_ptr by done. case_decide as E.
  - rewrite E, Ha0. unfold byte_of. rewrite (proj2 (Z.eqb_neq n 0)) by done. cbn [Z.eqb].
    rewrite grow_blk2; [|done|].
    + rewrite (tk_zero _ _ _ _ _ Htk). apply zeros_get.
    + intros p Ep F. destruct (parent_valid a p Ha Ep) as (Hpv & _). by destruct (grow_old p Hpv (Hpar p Ep)).
  - unfold byte_of. destruct (Z.eqb_spec (ptr d i (dslot (pos / bs))) 0); [done|].
    destruct (grow_old _ Hv n0) as [_ <-]. f_equal. apply grow_blk2; [by apply (tr_in _ _ Ht)|].
    intros p Ep F. destruct (parent_valid a p Ha Ep) as (Hpv & Hpi & _). apply (tr_inj _ _ Ht) in F; [|done..]. congruence.
Qed.

End grow.

(** ** The pointers that writing sets up *)

(** The file has grown, its contents are as before. *)
Definition grown (d sb i d' sb' i' : list Z) : Prop :=
  evolved d sb i d' sb' i' /\ forall pos, 0 <= pos / bs < max_blocks -> fbyte d' i' pos = fbyte d i pos.

(** An allocation has failed. *)
Definition no_room (d sb d' sb' : list Z) : Prop := d' = d /\ sb' = sb /\ full d.

Lemma grown_refl d sb i : meta d sb -> tree d i -> grown d sb i d sb i.
Proof. intros. split; [by apply evolved_refl|done]. Qed.

Lemma grown_trans d sb i d1 sb1 i1 d2 sb2 i2 : grown d sb i d1 sb1 i1 -> grown d1 sb1 i1 d2 sb2 i2 -> grown d sb i d2 sb2 i2.
Proof.
  intros [H1 B1] [H2 B2]. split; [by eapply evolved_trans|]. intros pos Hp. by rewrite B2, B1.
Qed.

Lemma word_at_in b i : block b -> 0 <= i < P -> word_at b i = Some (word b i).
Proof. intros [_ Hl] Hi. pose proof P_eq. unfold word_at. rewrite rds_in by lia. done. Qed.

Lemma put_word_in b i v : block b -> 0 <= i < P -> put_in b (4 * i) (le_bytes 4 v) = Some (put b (4 * i) (le_bytes 4 v)).
Proof.
  intros [_ Hl] Hi. pose proof P_eq. unfold put_in. rewrite blen_le_bytes.
  rewrite (proj2 (Z.ltb_ge _ 0)), (proj2 (Z.ltb_ge _ (_ + _))) by lia. done.
Qed.

Lemma ht_alloc d sb {B} (f : Z -> T B) Q E : meta d sb -> (full d -> ht d sb (f 0) Q E) ->
  (forall n d1 sb1, n <> 0 -> free d n -> taken d sb n d1 sb1 -> ht d1 sb1 (f n) Q E) ->
  ht d sb (alloc_block ok fs ≫= f) Q E.
Proof.
  intros Hm H0 H1. eapply ht_bind; [eapply ht_mono; [by apply ht_alloc_block|exact (fun _ _ _ H => H)|done]|]. cbv beta.
  intros n d1 sb1 [(-> & -> & -> & Hf)|(Hn & Hf & Ht)]; [by apply H0|by apply H1].
Qed.

Section slots.
Context (d sb i : list Z) (Hm : meta d sb) (Ht : tree d i).

(** The zeros that follow an allocation are there already. *)
Lemma gives_zero n d1 sb1 : free d n -> taken d sb n d1 sb1 -> gives d1 sb1 (write_block ok fs n (zeros bs)) () d1 sb1.
Proof.
  intros Hf Htk. destruct (me_free _ _ Hm n Hf) as [Hn _]. pose proof (me_dev _ _ (tk_meta _ _ _ _ _ Htk)) as Hd1.
  replace d1 with (wr d1 n (zeros bs)) at 2; [apply gives_write_block; [done|done|by apply zeros_block]|].
  rewrite <- (tk_zero _ _ _ _ _ Htk). by apply wr_same.
Qed.

Lemma ht_top_slot k : 12 <= k < 14 ->
  ht d sb (top_slot ok fs i k) (fun i' d' sb' => grown d sb i d' sb' i' /\ ptr d' i' (Top k) <> 0) (no_room d sb).
Proof.
  intros Hk. unfold top_slot. change (i_block i k) with (ptr d i (Top k)).
  destruct (Z.eqb_spec (ptr d i (Top k)) 0) as [H0|H0]; [|apply ht_ret; split; [by apply grown_refl|done]].
  apply ht_alloc; [done|intros Hf; by apply ht_fail|]. intros n d1 sb1 Hn Hf Htk.
  gstep ltac:(apply gives_guard; by rewrite (proj2 (Z.eqb_neq n 0))). gstep ltac:(by apply gives_zero). apply ht_ret.
  assert (valid (Top k)) as Hv by (cbn; lia).
  pose proof (grow_evolved d sb i Hm Ht (Top k) Hv H0 ltac:(done) n Hn Hf d1 sb1 Htk) as He.
  pose proof (grow_byte d sb i Hm Ht (Top k) Hv H0 ltac:(done) n Hn Hf d1 sb1 Htk) as Hb.
  pose proof (grow_ptr d sb i Hm Ht (Top k) Hv H0 ltac:(done) n Hn Hf d1 sb1 Htk (Top k) Hv) as Hp.
  split; [by split|]. intros E. change (ptr (set_ptr d1 i (Top k) n).1 (set_ptr d1 i (Top k) n).2 (Top k) = 0) in E.
  rewrite Hp, decide_True in E by done. done.
Qed.

Section entry.
Context (a p : slot) (Ha : valid a) (Hpar : parent a = Some p) (Hp : ptr d i p <> 0).

Lemma ent_parent : inb (ptr d i p) /\ 0 <= entry a < P.
Proof. destruct (parent_valid a p Ha Hpar) as (Hv & _ & He). split; [by apply (tr_in _ _ Ht)|done]. Qed.

Lemma ent_word : word (blk d (ptr d i p)) (entry a) = ptr d i a.
Proof. rewrite (ptr_parent d i a p Hpar). unfold ent_of. by rewrite (proj2 (Z.eqb_neq _ 0)). Qed.

(** The index block, with the new entry in it, is written back. *)
Lemma ht_attach n d1 sb1 E : ptr d i a = 0 -> n <> 0 -> free d n -> taken d sb n d1 sb1 ->
  ht d1 sb1 (buf' ← lift (put_in (blk d (ptr d i p)) (4 * entry a) (le_bytes 4 n)); _ ← write_block ok fs (ptr d i p) buf'; mret n)
    (fun v d' sb' => grown d sb i d' sb' i /\ v = ptr d' i a /\ v <> 0) E.
Proof.
  intros H0 Hn Hf Htk. destruct ent_parent as [Hpi He]. pose proof (me_dev _ _ Hm) as Hd. destruct (parent_valid a p Ha Hpar) as (Hpv & _).
  assert (forall q, parent a = Some q -> ptr d i q <> 0) as Hq by (intros q; rewrite Hpar; by intros [= <-]).
  pose proof (grow_evolved d sb i Hm Ht a Ha H0 Hq n Hn Hf d1 sb1 Htk) as Hev.
  pose proof (grow_byte d sb i Hm Ht a Ha H0 Hq n Hn Hf d1 sb1 Htk) as Hby.
  pose proof (grow_ptr d sb i Hm Ht a Ha H0 Hq n Hn Hf d1 sb1 Htk a Ha) as Hpt. rewrite decide_True in Hpt by done.
  pose proof (grow_ptr1 d sb i Hm Ht n Hf d1 sb1 Htk p Hpv) as Hp1.
  destruct (grow_old d sb i Hm Ht n Hf d1 sb1 Htk p Hpv Hp) as [_ Eb].
  assert (set_ptr d1 i a n = (wr d1 (ptr d i p) (put (blk d (ptr d i p)) (4 * entry a) (le_bytes 4 n)), i)) as Es.
  { unfold set_ptr, wr_ent. by rewrite Hpar, Hp1, Eb. }
  rewrite Es in Hev, Hby, Hpt. cbn [fst snd] in Hev, Hby, Hpt.
  gstep ltac:(apply gives_lift, put_word_in; [by apply blk_block|done]).
  gstep ltac:(apply gives_write_block; [apply (tk_meta _ _ _ _ _ Htk)|done|by apply ent_block]).
  apply ht_ret. split; [by split|]. by rewrite Hpt.
Qed.

Lemma ht_leaf_slot :
  ht d sb (leaf_slot ok fs (ptr d i p) (entry a)) (fun v d' sb' => grown d sb i d' sb' i /\ v = ptr d' i a /\ v <> 0) (no_room d sb).
Proof.
  destruct ent_parent as [Hpi He]. pose proof (me_dev _ _ Hm) as Hd. unfold leaf_slot. gstep ltac:(apply gives_ask).
  gstep ltac:(by apply gives_read_block). gstep ltac:(apply gives_lift, word_at_in; [by apply blk_block|done]). rewrite ent_word.
  destruct (Z.eqb_spec (ptr d i a) 0) as [H0|H0]; [|apply ht_ret; split; [by apply grown_refl|done]].
  apply ht_alloc; [done|intros Hf; by apply ht_fail|]. intros n d1 sb1 Hn Hf Htk.
  gstep ltac:(apply gives_guard; by rewrite (proj2 (Z.eqb_neq n 0))). by apply ht_attach.
Qed.

Lemma ht_l1_slot :
  ht d sb (l1_slot ok fs (ptr d i p) (entry a)) (fun v d' sb' => grown d sb i d' sb' i /\ v = ptr d' i a /\ v <> 0) (no_room d sb).
Proof.
  destruct ent_parent as [Hpi He]. pose proof (me_dev _ _ Hm) as Hd. unfold l1_slot. gstep ltac:(apply gives_ask).
  gstep ltac:(by apply gives_read_block). gstep ltac:(apply gives_lift, word_at_in; [by apply blk_block|done]). rewrite ent_word.
  destruct (Z.eqb_spec (ptr d i a) 0) as [H0|H0]; [|apply ht_ret; split; [by apply grown_refl|done]].
  apply ht_alloc; [done|intros Hf; by apply ht_fail|]. intros n d1 sb1 Hn Hf Htk.
  gstep ltac:(apply gives_guard; by rewrite (proj2 (Z.eqb_neq n 0))). gstep ltac:(by apply gives_zero). by apply ht_attach.
Qed.

End entry.
End slots.

(** What [write_ptr] finds or makes for block [idx]. *)
Definition mapped_to (d sb i : list Z) (idx : Z) (d' sb' i' : list Z) (o : option Z) : Prop :=
  grown d sb i d' sb' i' /\
  match o with
  | Some b => b = ptr d' i' (dslot idx) /\ b <> 0
  | None => full d'
  end.

(** The end of each branch: the slot is in an index block that exists. *)
Lemma ht_leaf_end d0 sb0 i0 d sb i idx p : grown d0 sb0 i0 d sb i -> valid (dslot idx) -> parent (dslot idx) = Some p -> ptr d i p <> 0 ->
  ht d sb (bno ← try_ (leaf_slot ok fs (ptr d i p) (entry (dslot idx))); mret (i, bno))
    (fun '(i', o) d' sb' => mapped_to d0 sb0 i0 idx d' sb' i' o) never.
Proof.
  intros Hgr Hv Hp H0. pose proof Hgr as [He _]. pose proof (ev_meta _ _ _ _ _ _ He) as Hm. pose proof (ev_tree _ _ _ _ _ _ He) as Ht.
  eapply ht_bind; [apply ht_try, ht_leaf_slot; done|]. cbv beta. intros [b|] d' sb'.
  - intros (Hg1 & E & Hn). apply ht_ret. split; [by eapply grown_trans|done].
  - intros (-> & -> & Hf). apply ht_ret. by split.
Qed.

Lemma ht_l1_leaf d sb i l1 l2 : meta d sb -> tree d i -> ptr d i (Top 13) <> 0 -> 0 <= l1 < P -> 0 <= l2 < P ->
  ht d sb (l1_bno ← l1_slot ok fs (ptr d i (Top 13)) l1; leaf_slot ok fs l1_bno l2)
    (fun b d' sb' => grown d sb i d' sb' i /\ b = ptr d' i (Leaf l1 l2) /\ b <> 0) (fun d' sb' => grown d sb i d' sb' i /\ full d').
Proof.
  intros Hm Ht Hn H1 H2. eapply ht_bind.
  - eapply ht_mono; [by apply (ht_l1_slot d sb i Hm Ht (Dbl l1) (Top 13))|exact (fun _ _ _ H => H)|].
    intros d' sb' (-> & -> & Hf). split; [by apply grown_refl|done].
  - cbv beta. intros v d2 sb2 (Hg2 & -> & Hv0). pose proof Hg2 as [He2 _].
    eapply ht_mono; [by apply (ht_leaf_slot d2 sb2 i (ev_meta _ _ _ _ _ _ He2) (ev_tree _ _ _ _ _ _ He2) (Leaf l1 l2) (Dbl l1))| |]; cbv beta.
    + intros b d3 sb3 (Hg3 & Eb & Hb0). split; [by eapply grown_trans|done].
    + intros d3 sb3 (-> & -> & Hf). done.
Qed.

Lemma ht_write_direct d sb i idx : meta d sb -> tree d i -> 0 <= idx < 12 ->
  ht d sb (write_ptr ok fs i idx) (fun '(i', o) d' sb' => mapped_to d sb i idx d' sb' i' o) never.
Proof.
  intros Hm Ht Hi. assert (dslot idx = Top idx) as Ed by (unfold dslot; by rewrite (proj2 (Z.ltb_lt idx 12) (proj2 Hi))).
  assert (valid (Top idx)) as Hv by (cbn; lia). unfold write_ptr, mapped_to. rewrite Ed, (proj2 (Z.ltb_lt idx 12)) by lia.
  change (i_block i idx) with (ptr d i (Top idx)).
  destruct (Z.eqb_spec (ptr d i (Top idx)) 0) as [H0|H0]; [|apply ht_ret; split; [by apply grown_refl|done]].
  apply ht_alloc; [done|intros Hf; apply ht_ret; split; [by apply grown_refl|done]|].
  intros n d1 sb1 Hn Hf Htk. rewrite (proj2 (Z.eqb_neq n 0)) by done. apply ht_ret.
  pose proof (grow_evolved d sb i Hm Ht (Top idx) Hv H0 ltac:(done) n Hn Hf d1 sb1 Htk) as He.
  pose proof (grow_byte d sb i Hm Ht (Top idx) Hv H0 ltac:(done) n Hn Hf d1 sb1 Htk) as Hb.
  pose proof (grow_ptr d sb i Hm Ht (Top idx) Hv H0 ltac:(done) n Hn Hf d1 sb1 Htk (Top idx) Hv) as Hpt.
  rewrite decide_True in Hpt by done. split; [by split|]. split; [by symmetry|done].
Qed.

Lemma ht_write_ptr d sb i idx : meta d sb -> tree d i -> 0 <= idx < max_blocks ->
  ht d sb (write_ptr ok fs i idx) (fun '(i', o) d' sb' => mapped_to d sb i idx d' sb' i' o) never.
Proof.
  intros Hm Ht Hi. destruct (Z.lt_ge_cases idx 12) as [Hlt|Hge]; [apply ht_write_direct; [done|done|lia]|].
  destruct (dslot_valid idx Hi) as [Hv _]. pose proof P_eq as HP. unfold write_ptr. rewrite (proj2 (Z.ltb_ge idx 12)) by done.
  destruct (Z.ltb_spec idx (12 + P)) as [Hlt|Hge2].
  - assert (dslot idx = Ind (idx - 12)) as Ed.
    { unfold dslot. by rewrite (proj2 (Z.ltb_ge idx 12) Hge), (proj2 (Z.ltb_lt idx (12 + P)) Hlt). }
    eapply ht_bind; [apply ht_try, ht_top_slot; [done|done|lia]|]. cbv beta. intros [i1|] d1 sb1.
    + intros [Hg1 Hn]. pose proof (ht_leaf_end d sb i d1 sb1 i1 idx (Top 12) Hg1 Hv) as Hl. rewrite Ed in Hl. by apply Hl.
    + intros (-> & -> & Hf). apply ht_ret. split; [by apply grown_refl|done].
  - rewrite (proj2 (Z.ltb_lt _ _)) by (unfold max_blocks in Hi; lia). gstep ltac:(apply gives_divmod; lia).
    assert (dslot idx = Leaf ((idx - 12 - P) / P) ((idx - 12 - P) mod P)) as Ed.
    { unfold dslot. by rewrite (proj2 (Z.ltb_ge idx 12) Hge), (proj2 (Z.ltb_ge idx (12 + P)) Hge2). }
    rewrite Ed in Hv. destruct Hv as [Hv1 Hv2]. unfold mapped_to. rewrite Ed.
    eapply ht_bind; [apply ht_try, ht_top_slot; [done|done|lia]|]. cbv beta. intros [i1|] d1 sb1.
    + intros [Hg1 Hn]. pose proof Hg1 as [He1 _].
      eapply ht_bind; [apply ht_try, (ht_l1_leaf d1 sb1 i1); [apply He1|apply He1|done..]|]. cbv beta. intros [b|] d3 sb3.
      * intros (Hg3 & Eb & Hb0). apply ht_ret. split; [by eapply grown_trans|done].
      * intros [Hg3 Hf]. apply ht_ret. split; [by eapply grown_trans|done].
    + intros (-> & -> & Hf). apply ht_ret. split; [by apply grown_refl|done].
Qed.

(** ** The write loop *)

Lemma put_all b src : blen b = blen src -> put b 0 src = src.
Proof.
  unfold blen. intros H. unfold put. cbn [Z.to_nat]. rewrite take_0. cbn [app].
  rewrite drop_ge; [by rewrite app_nil_r|]. lia.
Qed.

Lemma gives_write_data d sb p off src : dev d -> inb p -> bytes src -> 0 <= off -> off + blen src <= bs ->
  gives d sb (write_data ok fs p off src) () (wr d p (put (blk d p) off src)) sb.
Proof.
  intros Hd Hp Hs Ho Hl. pose proof (blk_block d p Hd Hp) as [Hb Hbl]. pose proof bs_pos. unfold write_data.
  assert (block (put (blk d p) off src)) as Hput by (split; [by apply put_bytes|rewrite blen_put; lia]).
  destruct ((0 <? off) || (blen src <? bs)) eqn:E.
  - gstep ltac:(by apply gives_read_block). gstep ltac:(apply gives_lift; unfold put_in).
    { rewrite (proj2 (Z.ltb_ge _ 0)), (proj2 (Z.ltb_ge (blen _) _)) by lia. reflexivity. }
    by apply gives_write_block.
  - apply orb_false_iff in E as [E1%Z.ltb_ge E2%Z.ltb_ge]. assert (off = 0) as -> by lia.
    rewrite put_all in * by lia. gstep ltac:(apply gives_ret). pose proof (blen_zeros bs ltac:(lia)) as Hz.
    gstep ltac:(apply gives_lift; unfold put_in). { rewrite Hz, (proj2 (Z.ltb_ge _ 0)), (proj2 (Z.ltb_ge bs _)) by lia. reflexivity. }
    rewrite put_all by lia. by apply gives_write_block.
Qed.

Lemma evolved_stays d sb i d' sb' i' a : evolved d sb i d' sb' i' -> valid a -> ptr d i a <> 0 -> ptr d' i' a = ptr d i a.
Proof. intros He Ha H0. by destruct (ev_ptr _ _ _ _ _ _ He a Ha) as [?|[? _]]. Qed.

(** The bytes from [lo] to [hi] are those of [buf], which starts at [off], and their blocks exist. *)
Definition written (d i : list Z) (off : Z) (buf : list Z) (lo hi : Z) (d' i' : list Z) : Prop :=
  (forall pos, 0 <= pos / bs < max_blocks ->
     fbyte d' i' pos = if decide (lo <= pos < hi) then aget 0 buf (pos - off) else fbyte d i pos) /\
  (forall pos, lo <= pos < hi -> ptr d' i' (dslot (pos / bs)) <> 0).

Lemma same_block x y : 0 <= x -> x <= y -> y < x + (bs - x mod bs) -> y / bs = x / bs /\ y mod bs = x mod bs + (y - x).
Proof.
  intros Hx Hxy Hy. pose proof bs_pos. pose proof (Z.div_mod x bs ltac:(lia)) as D. pose proof (Z.mod_pos_bound x bs ltac:(lia)).
  assert (y = bs * (x / bs) + (x mod bs + (y - x))) as E by lia. split.
  - symmetry. apply (Z.div_unique y bs (x / bs) (x mod bs + (y - x))); lia.
  - symmetry. apply (Z.mod_unique y bs (x / bs) (x mod bs + (y - x))); lia.
Qed.

Lemma block_range x y : 0 <= x -> y / bs = x / bs -> x mod bs <= y mod bs -> y - x = y mod bs - x mod bs /\ x <= y.
Proof.
  intros Hx Eq Hm. pose proof bs_pos. pose proof (Z.div_mod x bs ltac:(lia)). pose proof (Z.div_mod y bs ltac:(lia)) as D. rewrite Eq in D. lia.
Qed.

(** One round: the part of [buf] that belongs in one block. *)
Lemma write_round d sb i off buf w n d1 sb1 i1 :
  let x := off + w in
  grown d sb i d1 sb1 i1 -> bytes buf -> 0 <= off -> 0 <= w -> 0 < n -> w + n <= blen buf -> n <= bs - x mod bs ->
  0 <= x / bs < max_blocks -> ptr d1 i1 (dslot (x / bs)) <> 0 ->
  let d2 := wr d1 (ptr d1 i1 (dslot (x / bs))) (put (blk d1 (ptr d1 i1 (dslot (x / bs)))) (x mod bs) (slice buf w n)) in
  evolved d sb i d2 sb1 i1 /\ written d i off buf x (x + n) d2 i1.
Proof.
  intros x [He Hby] Hbuf Ho Hw Hn Hwn Hnb Hxr Hp d2. pose proof bs_pos. pose proof (Z.mod_pos_bound x bs ltac:(lia)) as Hmod.
  destruct (dslot_valid _ Hxr) as [Hv Hx]. pose proof (ev_meta _ _ _ _ _ _ He) as Hm1. pose proof (ev_tree _ _ _ _ _ _ He) as Ht1.
  destruct (tr_in _ _ Ht1 _ Hv Hp) as (Hpi & _). pose proof (blk_block d1 _ (me_dev _ _ Hm1) Hpi) as [Hbb Hbl].
  assert (blen (slice buf w n) = n) as Hsl by (apply blen_slice; lia).
  set (b := put (blk d1 (ptr d1 i1 (dslot (x / bs)))) (x mod bs) (slice buf w n)) in *.
  assert (block b) as Hb by (split; [by apply put_bytes, slice_bytes|unfold b; rewrite blen_put; lia]).
  pose proof (data_evolved d1 sb1 i1 Hm1 Ht1 _ Hv Hx Hp b Hb) as He2.
  pose proof (data_byte d1 sb1 i1 Hm1 Ht1 _ Hv Hx Hp b Hb) as Hby2.
  split; [by eapply evolved_trans|]. split.
  - intros pos Hpos. unfold d2. rewrite Hby2 by done. rewrite <- Hby by done. case_decide as E.
    + apply dslot_inj in E. unfold b. pose proof (Z.mod_pos_bound pos bs ltac:(lia)).
      rewrite aget_put by lia. rewrite Hsl. case_decide as E2.
      * destruct (block_range x pos ltac:(lia) E ltac:(lia)) as [E3 E4]. rewrite decide_True by lia. rewrite aget_slice by lia. f_equal. lia.
      * rewrite decide_False; [unfold fbyte, byte_of; by rewrite E, (proj2 (Z.eqb_neq _ 0))|].
        intros [E3 E4]. destruct (same_block x pos); lia.
    + rewrite decide_False; [done|]. intros [E3 E4]. apply E. destruct (same_block x pos) as [-> _]; (done || lia).
  - intros pos Hpos. destruct (same_block x pos) as [-> _]; [lia..|]. by rewrite (evolved_stays _ _ _ _ _ _ _ He2).
Qed.

Lemma written_trans d i off buf x y z d1 i1 d2 sb1 sb2 i2 : evolved d1 sb1 i1 d2 sb2 i2 -> x <= y -> y <= z -> 0 <= x -> z <= max_blocks * bs ->
  written d i off buf x y d1 i1 -> written d1 i1 off buf y z d2 i2 -> written d i off buf x z d2 i2.
Proof.
  intros He H1 H2 H0 Hz [B1 P1] [B2 P2]. pose proof bs_pos. split.
  - intros pos Hp. rewrite B2, B1 by done. repeat case_decide; (done || lia).
  - intros pos Hp. destruct (Z.lt_ge_cases pos y); [|apply P2; lia].
    assert (0 <= pos / bs < max_blocks) as Hr by (split; [apply Z.div_pos; lia|apply Z.div_lt_upper_bound; lia]).
    rewrite (evolved_stays _ _ _ _ _ _ _ He); [apply P1; lia|by apply dslot_valid|apply P1; lia].
Qed.

Lemma written_refl d i off buf x : written d i off buf x x d i.
Proof. split; [|lia]. intros. by rewrite decide_False by lia. Qed.

Lemma ht_write_loop fuel d sb i off buf w : meta d sb -> tree d i -> bytes buf -> 0 <= off -> 0 <= w <= blen buf ->
  off + blen buf <= max_blocks * bs -> off + blen buf < 2 ^ 32 -> blen buf - w < Z.of_nat fuel ->
  ht d sb (write_loop ok fs fuel i off buf w) (fun '(i', w') d' sb' =>
    evolved d sb i d' sb' i' /\ w <= w' <= blen buf /\ (w' = blen buf \/ full d') /\
    written d i off buf (off + w) (off + w') d' i') never.
Proof.
  intros Hm Ht Hb Ho Hw Hmax H32 Hf. pose proof bs_pos as Hbs. revert d sb i w Hm Ht Hw Hf.
  induction fuel as [|f IH]; intros d sb i w Hm Ht Hw Hf; [lia|]. cbn [write_loop]. cbv zeta.
  destruct (Z.ltb_spec w (blen buf)) as [Hlt|Hge].
  2:{ apply ht_ret. split; [by apply evolved_refl|]. split; [lia|]. split; [left; lia|apply written_refl]. }
  rewrite u64_small by (unfold is_u64; lia). gstep ltac:(apply gives_divmod; lia).
  set (x := off + w) in *. pose proof (Z.mod_pos_bound x bs ltac:(lia)) as Hmod.
  assert (0 <= x / bs < max_blocks) as Hx by (split; [apply Z.div_pos; lia|apply Z.div_lt_upper_bound; lia]).
  rewrite u32_small by (unfold is_u32; pose proof (Z.div_le_upper_bound x bs x); nia).
  set (n := if blen buf - w <? bs - x mod bs then blen buf - w else bs - x mod bs).
  assert (0 < n /\ w + n <= blen buf /\ n <= bs - x mod bs) as (Hn1 & Hn2 & Hn3) by (unfold n; destruct (Z.ltb_spec (blen buf - w) (bs - x mod bs)); lia).
  clearbody n. eapply ht_bind; [by apply ht_write_ptr|]. intros [i1 o] d1 sb1 [Hg1 Ho1]. pose proof Hg1 as [He1 Hby1]. destruct o as [b|].
  - destruct Ho1 as [-> Hb0]. pose proof (write_round d sb i off buf w n d1 sb1 i1 Hg1 Hb Ho ltac:(lia) Hn1 Hn2 Hn3 Hx Hb0) as [He2 Hw2].
    fold x in He2, Hw2. pose proof (ev_meta _ _ _ _ _ _ He1) as Hm1. destruct (dslot_valid _ Hx) as [Hv _].
    gstep ltac:(apply gives_try, gives_write_data; [apply Hm1|by apply (tr_in _ _ (ev_tree _ _ _ _ _ _ He1))|by apply slice_bytes|lia|rewrite blen_slice; lia]).
    eapply ht_mono; [apply IH; [apply He2|apply He2|lia|lia]| |done]. intros [i' w'] d' sb' (He3 & Hw3 & Hfu & Hwr).
    split; [by eapply evolved_trans|]. split; [lia|]. split; [done|].
    eapply (written_trans d i off buf x (x + n)); [exact He3|lia|lia|lia|lia|exact Hw2|]. by replace (x + n) with (off + (w + n)) by lia.
  - apply ht_ret. split; [done|]. split; [lia|]. split; [by right|]. split; [|lia]. intros pos Hp. rewrite decide_False by lia. by apply Hby1.
Qed.

(** ** Files *)

(** Inode [ino] is a file; [content] is its contents, with zeros in the holes and behind the end. *)
Record file (d : list Z) (ino : Z) : Prop := { fi_inode : inode_ok d ino; fi_tree : tree d (inode_at d ino) }.
Definition content (d : list Z) (ino pos : Z) : Z := fbyte d (inode_at d ino) pos.

(** Two files share no block, and their inodes are two. *)
Record apart (d : list Z) (ino ino' : Z) : Prop := {
  ap_ino : ino' <> ino;
  ap_group : iblk d ino' = iblk d ino -> igroup ino' = igroup ino;
  ap_tree : forall a b, valid a -> valid b -> ptr d (inode_at d ino) a = ptr d (inode_at d ino') b -> ptr d (inode_at d ino') b = 0;
}.

Lemma fbyte_ext d i d' i' pos : 0 <= pos / bs < max_blocks -> ptr d' i' (dslot (pos / bs)) = ptr d i (dslot (pos / bs)) ->
  (ptr d i (dslot (pos / bs)) <> 0 -> blk d' (ptr d i (dslot (pos / bs))) = blk d (ptr d i (dslot (pos / bs)))) ->
  fbyte d' i' pos = fbyte d i pos.
Proof.
  intros Hp E Hb. unfold fbyte, byte_of. rewrite E. destruct (Z.eqb_spec (ptr d i (dslot (pos / bs))) 0); [done|]. by rewrite Hb.
Qed.

Section after.
Context (d sb i d' sb' i' : list Z) (Hm : meta d sb) (Ht : tree d i) (He : evolved d sb i d' sb' i').

Lemma after_iblk ino : grp (igroup ino) -> iblk d' ino = iblk d ino.
Proof. intros Hgr. unfold iblk. by destruct (ev_map _ _ _ _ _ _ He _ Hgr) as [_ ->]. Qed.

Lemma after_sys m : sys m -> inb m -> ~ alloc_sys d m -> blk d' m = blk d m.
Proof.
  intros Hs Hi Hna. apply (ev_frame _ _ _ _ _ _ He); [done| |done|].
  - intros F. by apply (me_free _ _ Hm) in F as [_ ?].
  - intros a Ha H0 ->. by destruct (tr_in _ _ Ht a Ha H0) as (_ & ? & _).
Qed.

Lemma after_inode_ok ino : inode_ok d ino -> inode_ok d' ino.
Proof.
  intros [H1 H2 H3 H4 H5]. split; rewrite ?after_iblk by done; try done. by rewrite (evolved_alloc_sys _ _ _ _ _ _ _ He).
Qed.

Lemma after_inode_at ino : inode_ok d ino -> inode_at d' ino = inode_at d ino.
Proof. intros [H1 H2 H3 H4 H5]. unfold inode_at. rewrite after_iblk by done. by rewrite after_sys. Qed.

(** The tree of the inode before the new pointers got into it. *)
Lemma after_sub a : valid a -> ptr d' i a = ptr d' i' a \/ (ptr d' i a = 0 /\ ptr d i a = 0).
Proof.
  assert (forall k, 0 <= k < 14 -> i_block i k = i_block i' k \/ i_block i k = 0) as Hk.
  { intros k Hk. destruct (ev_ptr _ _ _ _ _ _ He (Top k) Hk) as [E|[E _]]; cbn [ptr] in E; auto. }
  destruct a as [k|x|x|x y]; cbn [ptr valid]; intros Hv.
  - destruct (Hk k Hv); auto.
  - destruct (Hk 12 ltac:(lia)) as [->|E]; [by left|right]. by rewrite E.
  - destruct (Hk 13 ltac:(lia)) as [->|E]; [by left|right]. by rewrite E.
  - destruct (Hk 13 ltac:(lia)) as [->|E]; [by left|right]. by rewrite E.
Qed.

Lemma after_old_tree : tree d' i.
Proof.
  pose proof (ev_tree _ _ _ _ _ _ He) as Ht'. split; [apply Ht| |].
  - intros a Ha H0. destruct (after_sub a Ha) as [E|[E _]]; [|done]. rewrite E in *. by apply (tr_in _ _ Ht').
  - intros a b Ha Hb E H0. destruct (after_sub a Ha) as [Ea|[Ea _]]; [|done]. destruct (after_sub b Hb) as [Eb|[Eb _]]; [|congruence].
    apply (tr_inj _ _ Ht'); congruence.
Qed.

Lemma after_old_byte pos : 0 <= pos / bs < max_blocks -> fbyte d' i' pos = fbyte d i pos -> fbyte d' i pos = fbyte d i pos.
Proof.
  intros Hp Hb. destruct (dslot_valid _ Hp) as [Hv _]. destruct (after_sub _ Hv) as [E|[E1 E2]]; unfold fbyte in *; [by rewrite E|].
  by rewrite E1, E2.
Qed.

(** A file that shares no block with this one. *)
Lemma after_other ino ino' : i = inode_at d ino -> file d ino' -> apart d ino ino' ->
  file d' ino' /\ inode_at d' ino' = inode_at d ino' /\
  (forall pos, 0 <= pos / bs < max_blocks -> content d' ino' pos = content d ino' pos) /\
  (forall b, valid b -> ptr d' (inode_at d ino') b = ptr d (inode_at d ino') b).
Proof.
  intros Ei [Hio Hjt] Hap. set (j := inode_at d ino') in *. assert (inode_at d' ino' = j) as Ej by (by apply after_inode_at).
  assert (forall a, valid a -> ptr d j a <> 0 -> blk d' (ptr d j a) = blk d (ptr d j a)) as Hb.
  { intros a Ha H0. destruct (tr_in _ _ Hjt a Ha H0) as (Hi & Hs & Hf). apply (ev_frame _ _ _ _ _ _ He); [done|done|by eapply tree_not_alloc|].
    intros c Hc _ E. apply H0, (ap_tree _ _ _ Hap c a Hc Ha). by rewrite <- Ei. }
  assert (tree d' j) as Hjt' by (eapply tree_ext; [done|apply Hjt|done|by intros; apply Hb|apply He]).
  assert (forall b, valid b -> ptr d' j b = ptr d j b) as Hpj by (intros b Hv; apply ptr_ext; [done|by intros; apply Hb|done]).
  split; [split; [by apply after_inode_ok|by rewrite Ej]|]. split; [done|]. split; [|done]. intros pos Hp. unfold content. rewrite Ej.
  destruct (dslot_valid _ Hp) as [Hv _]. apply fbyte_ext; [done|by apply Hpj|by apply Hb].
Qed.

(** They still share none: a new pointer names a block that was free. *)
Lemma after_apart ino ino' : i = inode_at d ino -> file d ino' -> apart d ino ino' ->
  forall a b, valid a -> valid b -> ptr d' i' a = ptr d' (inode_at d ino') b -> ptr d' (inode_at d ino') b = 0.
Proof.
  intros Ei Hf Hap a b Ha Hb. destruct (after_other ino ino' Ei Hf Hap) as (_ & _ & _ & Hpj). rewrite Hpj by done.
  destruct (ev_ptr _ _ _ _ _ _ He a Ha) as [->|[_ Hfr]]; [rewrite Ei; by apply (ap_tree _ _ _ Hap)|]. intros E. rewrite E in Hfr.
  destruct (Z.eq_dec (ptr d (inode_at d ino') b) 0) as [|H0]; [done|]. by destruct (tr_in _ _ (fi_tree _ _ Hf) b Hb H0) as (_ & _ & ?).
Qed.

End after.

(** ** The inode is stored *)

Lemma head_field i i' off n : inode_t i -> inode_t i' -> slice i' 0 40 = slice i 0 40 -> 0 <= off -> 0 <= n -> off + n <= 40 ->
  slice i' off n = slice i off n.
Proof.
  intros [_ Hl] [_ Hl'] E Ho Hn Hon. unfold sizeof_inode in *. apply slice_ext; try lia. intros k Hk.
  pose proof (f_equal (fun l => aget 0 l (off + k)) E) as Ek. cbv beta in Ek. by rewrite !aget_slice, !Z.add_0_l in Ek by lia.
Qed.

Section grow_inode.
Context (i : list Z) (e : Z) (Hi : inode_t i).

Lemma grow_fields : inode_t (grow fs i e) /\ (forall k, 0 <= k < 14 -> i_block (grow fs i e) k = i_block i k) /\
  i_size (grow fs i e) = if i_size i <? e then u32 e else i_size i.
Proof.
  unfold grow. destruct (i_size i <? e); [|done]. pose proof Hi as [Hb Hl]. unfold sizeof_inode in Hl.
  assert (inode_t (wr32 i 4 (u32 e))) as Hi1 by (by apply inode_wr32; [|lia]). pose proof Hi1 as [_ Hl1]. unfold sizeof_inode in Hl1.
  split; [by apply inode_wr32; [|lia]|]. split.
  - intros k Hk. unfold i_block, rd32, wr32 at 1. f_equal. rewrite slice_put_ne; rewrite ?blen_le_bytes; try lia.
    unfold wr32. apply slice_put_ne; rewrite ?blen_le_bytes; lia.
  - unfold i_size, rd32, wr32 at 1. rewrite slice_put_ne; rewrite ?blen_le_bytes; try lia. apply rd32_wr32; [lia|lia|apply u32_range].
Qed.

End grow_inode.

Section store.
Context (d sb : list Z) (ino : Z) (i : list Z) (Hm : meta d sb) (Hio : inode_ok d ino) (Ht : tree d i).

Let d' := wino d ino i.

Lemma store_blk a : valid a -> ptr d i a <> 0 -> blk d' (ptr d i a) = blk d (ptr d i a).
Proof.
  intros Ha H0. destruct (tr_in _ _ Ht a Ha H0) as (Hin & Hs & _). eapply wino_blk; [done|done|apply Ht|done|].
  intros E. apply Hs. rewrite E. apply Hio.
Qed.

Lemma store_tree : tree d' i.
Proof.
  destruct (wino_meta d sb ino i Hm Hio (tr_inode _ _ Ht)) as (_ & Hf & _).
  eapply tree_ext; [done|apply Ht|done|by intros; apply store_blk|by intros n ?%Hf].
Qed.

Lemma store_at : inode_at d' ino = i.
Proof. eapply wino_at; [done|done|apply Ht]. Qed.

Lemma store_ok ino' : inode_ok d ino' -> inode_ok d' ino'.
Proof.
  intros [H1 H2 H3 H4 H5]. destruct (wino_meta d sb ino i Hm Hio (tr_inode _ _ Ht)) as (_ & _ & Hb).
  assert (iblk d' ino' = iblk d ino') as E by (unfold iblk, d'; by rewrite Hb).
  split; rewrite ?E; try done. intros [F|(g & Hgr & F)]; apply H5; [by left|right]. exists g. split; [done|].
  unfold bitmap in *. by rewrite Hb in F.
Qed.

Lemma store_file : meta d' sb /\ file d' ino /\ (full d -> full d') /\
  forall pos, 0 <= pos / bs < max_blocks -> content d' ino pos = fbyte d i pos.
Proof.
  destruct (wino_meta d sb ino i Hm Hio (tr_inode _ _ Ht)) as (Hm' & Hf & Hb).
  split; [done|]. split; [split; [by apply store_ok|rewrite store_at; apply store_tree]|].
  split; [apply full_ext; [done|by intros n ?%Hf]|]. intros pos Hp. unfold content. rewrite store_at.
  destruct (dslot_valid _ Hp) as [Hv _]. apply fbyte_ext; [done| |by apply store_blk]. by apply ptr_ext; [|intros; apply store_blk|].
Qed.

Lemma store_iblk ino' : grp (igroup ino') -> iblk d' ino' = iblk d ino'.
Proof. intros Hgr. destruct (wino_meta d sb ino i Hm Hio (tr_inode _ _ Ht)) as (_ & _ & Hb). unfold iblk, d'. by rewrite Hb. Qed.

Lemma store_other ino' : file d ino' -> ino' <> ino -> (iblk d ino' = iblk d ino -> igroup ino' = igroup ino) ->
  file d' ino' /\ inode_at d' ino' = inode_at d ino' /\
  (forall pos, 0 <= pos / bs < max_blocks -> content d' ino' pos = content d ino' pos) /\
  (forall b, valid b -> ptr d' (inode_at d ino') b = ptr d (inode_at d ino') b).
Proof.
  intros [Hjo Hjt] Hne Hgp. set (j := inode_at d ino') in *.
  assert (inode_at d' ino' = j) as Ej by (eapply wino_other; [done|done|apply Ht|done..]).
  assert (forall a, valid a -> ptr d j a <> 0 -> blk d' (ptr d j a) = blk d (ptr d j a)) as Hb.
  { intros a Ha H0. destruct (tr_in _ _ Hjt a Ha H0) as (Hin & Hs & _). eapply wino_blk; [done|done|apply Ht|done|].
    intros E. apply Hs. rewrite E. apply Hio. }
  destruct (wino_meta d sb ino i Hm Hio (tr_inode _ _ Ht)) as (_ & Hf & _).
  split; [split; [by apply store_ok|rewrite Ej; eapply tree_ext; [done|apply Hjt|done|by intros; apply Hb|by intros n ?%Hf]]|].
  assert (forall b, valid b -> ptr d' j b = ptr d j b) as Hpj by (intros b Hv; by apply ptr_ext; [|intros; apply Hb|]).
  split; [done|]. split; [|done]. intros pos Hp. unfold content. rewrite Ej. destruct (dslot_valid _ Hp) as [Hv _].
  apply fbyte_ext; [done|by apply Hpj|by apply Hb].
Qed.

End store.

(** ** Writing *)

Definition max_size : Z := max_blocks * bs.

Lemma pos_block pos : 0 <= pos < max_size -> 0 <= pos / bs < max_blocks.
Proof. intros H. pose proof bs_pos. unfold max_size in H. split; [apply Z.div_pos; lia|apply Z.div_lt_upper_bound; lia]. Qed.

(** What [ext2_write] of [buf] at [off] does when [w] bytes were written. *)
Record wrote (d sb : list Z) (ino off : Z) (buf : list Z) (w : Z) (d' sb' : list Z) : Prop := {
  wo_count : 0 <= w <= blen buf;
  wo_full : w = blen buf \/ full d';
  wo_still : full d -> full d';
  wo_meta : meta d' sb';
  wo_file : file d' ino;
  wo_content : forall pos, 0 <= pos < max_size ->
    content d' ino pos = if decide (off <= pos < off + w) then aget 0 buf (pos - off) else content d ino pos;
  wo_mapped : forall pos, off <= pos < off + w -> ptr d' (inode_at d' ino) (dslot (pos / bs)) <> 0;
  wo_size : i_size (inode_at d' ino) = if 0 <? w then Z.max (i_size (inode_at d ino)) (off + w) else i_size (inode_at d ino);
  wo_keep : forall idx, 0 <= idx < max_blocks -> ptr d (inode_at d ino) (dslot idx) <> 0 -> ptr d' (inode_at d' ino) (dslot idx) <> 0;
  wo_other : forall ino', file d ino' -> apart d ino ino' ->
    file d' ino' /\ apart d' ino ino' /\ inode_at d' ino' = inode_at d ino' /\
    forall pos, 0 <= pos < max_size -> content d' ino' pos = content d ino' pos;
}.

Section write.
Context (d sb : list Z) (ino off : Z) (buf : list Z) (Hm : meta d sb) (Hfi : file d ino).
Context (Hoff : 0 <= off) (Hmax : off + blen buf <= max_size) (Hsz : off + blen buf < 2 ^ 32).

(** The loop has ended with nothing written. *)
Lemma wrote_none d1 sb1 i1 : evolved d sb (inode_at d ino) d1 sb1 i1 -> full d1 \/ blen buf = 0 ->
  written d (inode_at d ino) off buf (off + 0) (off + 0) d1 i1 -> wrote d sb ino off buf 0 d1 sb1.
Proof.
  intros He Hf [Hw _]. destruct Hfi as [Hio Ht]. pose proof (after_inode_at d sb _ d1 sb1 i1 Hm Ht He ino Hio) as Ei.
  pose proof (blen_nonneg buf). split; try lia.
  - destruct Hf; [by right|by left].
  - apply He.
  - apply He.
  - split; [by eapply after_inode_ok|]. rewrite Ei. by eapply after_old_tree.
  - intros pos Hp%pos_block. rewrite decide_False by lia. unfold content. rewrite Ei. eapply after_old_byte; [done|done|].
    rewrite Hw by done. by rewrite decide_False by lia.
  - cbn [Z.ltb Z.compare]. by rewrite Ei.
  - intros idx Hr H0. rewrite Ei. destruct (dslot_valid _ Hr) as [Hv _].
    destruct (after_sub _ _ _ _ _ _ He _ Hv) as [->|[_ ?]]; [|done]. destruct (ev_ptr _ _ _ _ _ _ He _ Hv) as [->|[? _]]; done.
  - intros ino' Hf' Hap. destruct (after_other d sb _ d1 sb1 i1 Hm Ht He ino ino' eq_refl Hf' Hap) as (? & Ej & Hc & Hpj).
    split; [done|]. split; [|split; [done|]; intros pos Hp; by apply Hc, pos_block]. split; [apply Hap| |].
    + rewrite !(after_iblk _ _ _ _ _ _ He) by (apply Hf' || apply Hio). apply Hap.
    + intros a b Ha Hb. rewrite Ei, Ej. destruct (after_sub _ _ _ _ _ _ He a Ha) as [->|[-> _]]; [|done].
      by apply (after_apart d sb _ d1 sb1 i1 Hm Ht He ino ino' eq_refl Hf' Hap).
Qed.

(** It has ended with [w] bytes written, and the inode is stored. *)
Lemma wrote_some d1 sb1 i1 w : evolved d sb (inode_at d ino) d1 sb1 i1 -> 0 < w <= blen buf -> w = blen buf \/ full d1 ->
  written d (inode_at d ino) off buf (off + 0) (off + w) d1 i1 ->
  wrote d sb ino off buf w (wino d1 ino (grow fs i1 (off + w))) sb1.
Proof.
  intros He Hw Hf [Hby Hp]. destruct Hfi as [Hio Ht]. pose proof (ev_meta _ _ _ _ _ _ He) as Hm1. pose proof (ev_tree _ _ _ _ _ _ He) as Ht1.
  pose proof (after_inode_ok _ _ _ _ _ _ He ino Hio) as Hio1.
  destruct (grow_fields i1 (off + w) (tr_inode _ _ Ht1)) as (Hi2 & Hk & Hs). set (i2 := grow fs i1 (off + w)) in *.
  assert (tree d1 i2) as Ht2 by (by eapply tree_ext). pose proof (store_at d1 sb1 ino i2 Hm1 Hio1 Ht2) as Ei.
  destruct (store_file d1 sb1 ino i2 Hm1 Hio1 Ht2) as (Hm2 & Hf2 & Hfu & Hc2). rewrite Z.add_0_r in *.
  assert (forall a, valid a -> ptr d1 i2 a = ptr d1 i1 a) as E21 by (by apply ptr_ext).
  split; try lia; try done.
  - destruct Hf; auto.
  - intros F. by apply Hfu, (ev_full _ _ _ _ _ _ He).
  - intros pos Hpos%pos_block. rewrite Hc2 by done. destruct (dslot_valid _ Hpos) as [Hv _]. change (content d ino pos) with (fbyte d (inode_at d ino) pos).
    rewrite <- (Hby pos Hpos). apply fbyte_ext; auto.
  - intros pos Hpos. rewrite Ei. assert (0 <= pos / bs < max_blocks) as Hr by (apply pos_block; lia). destruct (dslot_valid _ Hr) as [Hv _].
    rewrite (ptr_ext d1 i2), E21 by (try done; intros; by eapply store_blk). by apply Hp.
  - rewrite Ei, Hs, (proj2 (Z.ltb_lt 0 w)) by lia.
    assert (i_size i1 = i_size (inode_at d ino)) as ->.
    { unfold i_size, rd32. f_equal. apply (head_field _ _ 4 4 (tr_inode _ _ Ht) (tr_inode _ _ Ht1)); [apply He|lia..]. }
    destruct (Z.ltb_spec (i_size (inode_at d ino)) (off + w)); [|lia]. rewrite u32_small by (unfold is_u32; lia). lia.
  - intros idx Hr H0. rewrite Ei. destruct (dslot_valid _ Hr) as [Hv _].
    rewrite (ptr_ext d1 i2), E21 by (try done; intros; by eapply store_blk). destruct (ev_ptr _ _ _ _ _ _ He _ Hv) as [->|[? _]]; done.
  - intros ino' Hf' Hap. destruct (after_other d sb _ d1 sb1 i1 Hm Ht He ino ino' eq_refl Hf' Hap) as (Hf1 & E1 & Hc & Hpj).
    destruct (store_other d1 sb1 ino i2 Hm1 Hio1 Ht2 ino' Hf1) as (Hf3 & E3 & Hc3 & Hp3).
    + apply Hap.
    + rewrite !(after_iblk _ _ _ _ _ _ He) by (apply Hf' || apply Hio). apply Hap.
    + split; [done|]. split; [|split; [congruence|]; intros pos Hp'%pos_block; by rewrite Hc3, Hc]. split; [apply Hap| |].
      * rewrite !(store_iblk d1 sb1 ino i2 Hm1 Hio1 Ht2), !(after_iblk _ _ _ _ _ _ He) by (apply Hf' || apply Hio). apply Hap.
      * intros a b Ha Hb. rewrite Ei, E3, Hp3, (ptr_ext d1 i2), E21, E1 by (try done; intros; by eapply store_blk).
        by apply (after_apart d sb _ d1 sb1 i1 Hm Ht He ino ino' eq_refl Hf' Hap).
Qed.

Lemma ht_write : bytes buf -> 0 < blen buf ->
  ht d sb (ext2_write ok fs ino off buf) (fun w d' sb' => wrote d sb ino off buf w d' sb') never.
Proof.
  intros Hb H0. pose proof Hfi as [Hio Ht]. unfold ext2_write. pose proof (io_ino _ _ Hio).
  rewrite (proj2 (Z.eqb_neq ino 0)), (proj2 (Z.eqb_neq (blen buf) 0)) by lia. cbn [orb].
  gstep ltac:(apply gives_try). { gstep ltac:(by apply gives_read_inode). gstep ltac:(apply gives_ask). apply gives_ret. }
  eapply ht_bind; [apply ht_write_loop; [done|done|done|done|lia|exact Hmax|done|unfold blen; lia]|].
  intros [i1 w] d1 sb1 (He & Hw & Hf & Hwr). pose proof (ev_tree _ _ _ _ _ _ He) as Ht1.
  destruct (Z.ltb_spec 0 w) as [Hpos|Hneg].
  - rewrite u64_small by (unfold is_u64; lia). destruct (grow_fields i1 (off + w) (tr_inode _ _ Ht1)) as (Hi2 & _).
    gstep ltac:(apply gives_try, gives_write_inode; [apply He|by eapply after_inode_ok|done]).
    apply ht_ret. apply (wrote_some _ _ i1); [done|lia|done|done].
  - assert (w = 0) as -> by lia. apply ht_ret. apply (wrote_none _ _ i1); [done|destruct Hf; [by right|by left]|done].
Qed.

End write.

(** Two writes one behind the other are one write. *)
Lemma wrote_app d sb ino off b1 b2 w d1 sb1 d2 sb2 : 0 <= off -> off + blen b1 + blen b2 <= max_size ->
  wrote d sb ino off b1 (blen b1) d1 sb1 -> wrote d1 sb1 ino (off + blen b1) b2 w d2 sb2 ->
  wrote d sb ino off (b1 ++ b2) (blen b1 + w) d2 sb2.
Proof.
  intros Ho Hmax H1 H2. pose proof (wo_count _ _ _ _ _ _ _ _ H2) as Hw. pose proof (blen_nonneg b1) as Hn. split.
  - rewrite blen_app. lia.
  - destruct (wo_full _ _ _ _ _ _ _ _ H2) as [->|]; [left; by rewrite blen_app|by right].
  - intros F. by apply (wo_still _ _ _ _ _ _ _ _ H2), (wo_still _ _ _ _ _ _ _ _ H1).
  - apply H2.
  - apply H2.
  - intros pos Hp. rewrite (wo_content _ _ _ _ _ _ _ _ H2) by done. rewrite (wo_content _ _ _ _ _ _ _ _ H1) by done. unfold blen in *.
    destruct (decide (off + Z.of_nat (length b1) <= pos < off + Z.of_nat (length b1) + w)).
    + rewrite decide_True by lia. unfold aget. rewrite app_nth2 by lia. f_equal. lia.
    + destruct (decide (off <= pos < off + Z.of_nat (length b1))); [rewrite decide_True by lia|by rewrite decide_False by lia].
      unfold aget. by rewrite app_nth1 by lia.
  - intros pos Hp. destruct (decide (pos < off + blen b1)).
    + apply (wo_keep _ _ _ _ _ _ _ _ H2); [apply pos_block; lia|]. apply (wo_mapped _ _ _ _ _ _ _ _ H1). lia.
    + apply (wo_mapped _ _ _ _ _ _ _ _ H2). lia.
  - rewrite (wo_size _ _ _ _ _ _ _ _ H2), (wo_size _ _ _ _ _ _ _ _ H1).
    destruct (Z.ltb_spec 0 w), (Z.ltb_spec 0 (blen b1)), (Z.ltb_spec 0 (blen b1 + w)); try lia.
  - intros idx Hr H0. apply (wo_keep _ _ _ _ _ _ _ _ H2); [done|]. by apply (wo_keep _ _ _ _ _ _ _ _ H1).
  - intros ino' Hf Hap. destruct (wo_other _ _ _ _ _ _ _ _ H1 ino' Hf Hap) as (Hf1 & Hap1 & E1 & Hc1).
    destruct (wo_other _ _ _ _ _ _ _ _ H2 ino' Hf1 Hap1) as (Hf2 & Hap2 & E2 & Hc2). split; [done|]. split; [done|]. split; [congruence|].
    intros pos Hp. by rewrite Hc2, Hc1.
Qed.

(** ** Reading *)

(** The index block that leads to block [idx] exists. *)
Definition reach (d i : list Z) (idx : Z) : bool :=
  (idx <? max_blocks) && match parent (dslot idx) with Some p => negb (ptr d i p =? 0) | None => true end.

Definition fbytes (d i : list Z) (x n : Z) : list Z := (fun k => fbyte d i (x + k)) <$> seqZ 0 n.

Lemma fbytes_len d i x n : 0 <= n -> blen (fbytes d i x n) = n.
Proof. intros. unfold fbytes, blen. rewrite length_fmap, length_seqZ. lia. Qed.

Lemma fbytes_get d i x n k : 0 <= k < n -> aget 0 (fbytes d i x n) k = fbyte d i (x + k).
Proof. intros Hk. rewrite aget_lookup. unfold fbytes. rewrite list_lookup_fmap, lookup_seqZ_lt by lia. cbn. do 2 f_equal. lia. Qed.

Lemma fbytes_app d i x n m : 0 <= n -> 0 <= m -> fbytes d i x (n + m) = fbytes d i x n ++ fbytes d i (x + n) m.
Proof.
  intros Hn Hm. unfold fbytes. rewrite seqZ_app, fmap_app by lia. f_equal. rewrite (Z.add_comm 0 n).
  rewrite <- (fmap_add_seqZ n 0 m). rewrite <- list_fmap_compose. apply list_fmap_ext. intros ? k _. cbn. f_equal. lia.
Qed.

(** The part of one block. *)
Lemma fbytes_block d i x n : dev d -> 0 <= x -> 0 < n <= bs - x mod bs ->
  let p := ptr d i (dslot (x / bs)) in inb p ->
  (if p =? 0 then zeros n else slice (blk d p) (x mod bs) n) = fbytes d i x n.
Proof.
  intros Hd Hx Hn p Hp. pose proof bs_pos. pose proof (Z.mod_pos_bound x bs ltac:(lia)). pose proof (blk_block d p Hd Hp) as [_ Hl].
  assert (forall k, 0 <= k < n -> fbyte d i (x + k) = byte_of d p (x mod bs + k)) as Hf.
  { intros k Hk. destruct (same_block x (x + k)) as [E1 E2]; [lia..|]. unfold fbyte. rewrite E1, E2. f_equal. lia. }
  apply bytes_ext.
  - rewrite fbytes_len by lia. destruct (p =? 0); [apply blen_zeros|apply blen_slice]; lia.
  - intros k Hk. assert (0 <= k < n) as Hk'.
    { destruct (p =? 0); [rewrite blen_zeros in Hk|rewrite blen_slice in Hk]; lia. }
    rewrite fbytes_get, Hf by done. unfold byte_of. destruct (p =? 0); [by rewrite zeros_get|]. apply aget_slice; lia.
Qed.

Lemma reach_max d i idx : reach d i idx = true -> idx < max_blocks.
Proof. unfold reach. intros [H%Z.ltb_lt _]%andb_true_iff. done. Qed.

Section read.
Context (d sb i : list Z) (Hm : meta d sb) (Ht : tree d i).

Lemma read_inb a : valid a -> inb (ptr d i a).
Proof.
  intros Ha. destruct (Z.eq_dec (ptr d i a) 0) as [->|E]; [unfold inb; lia|]. by apply (tr_in _ _ Ht).
Qed.

Lemma gives_entry a p : valid a -> parent a = Some p -> ptr d i p <> 0 ->
  gives d sb (b ← read_block ok fs (ptr d i p); v ← lift (word_at b (entry a)); mret (Some v)) (Some (ptr d i a)) d sb.
Proof.
  intros Ha Ep H0. destruct (parent_valid a p Ha Ep) as (Hp & _ & He). pose proof (me_dev _ _ Hm) as Hd.
  gstep ltac:(apply gives_read_block; [done|by apply read_inb]).
  gstep ltac:(apply gives_lift, word_at_in; [apply blk_block; [done|by apply read_inb]|done]). rewrite (ent_word d i a p Ep H0). apply gives_ret.
Qed.

Lemma gives_read_ptr idx : 0 <= idx ->
  gives d sb (read_ptr ok fs i idx) (if reach d i idx then Some (ptr d i (dslot idx)) else None) d sb.
Proof.
  intros H0. pose proof P_eq as HP. unfold read_ptr, reach, dslot, max_blocks.
  destruct (Z.ltb_spec idx 12) as [Hlt|Hge].
  { rewrite (proj2 (Z.ltb_lt _ _)) by nia. apply gives_ret. }
  destruct (Z.ltb_spec idx (12 + P)) as [Hlt2|Hge2].
  { rewrite (proj2 (Z.ltb_lt _ _)) by nia. change (i_block i 12) with (ptr d i (Top 12)). cbn [parent andb].
    destruct (Z.eqb_spec (ptr d i (Top 12)) 0); [apply gives_ret|]. apply (gives_entry (Ind (idx - 12)) (Top 12)); [cbn; lia|done|done]. }
  destruct (Z.ltb_spec idx (12 + P + P * P)) as [Hlt3|Hge3]; [|apply gives_ret].
  gstep ltac:(apply gives_divmod; lia). change (i_block i 13) with (ptr d i (Top 13)). cbn [parent andb].
  set (x := (idx - 12 - P) / P). set (y := (idx - 12 - P) mod P).
  assert (0 <= x < P /\ 0 <= y < P) as [Hx Hy].
  { split; [|apply Z.mod_pos_bound; lia]. split; [apply Z.div_pos; lia|apply Z.div_lt_upper_bound; lia]. }
  destruct (Z.eqb_spec (ptr d i (Top 13)) 0) as [E13|E13].
  { assert (ptr d i (Dbl x) = 0) as -> by (cbn [ptr] in *; by rewrite E13). apply gives_ret. }
  pose proof (me_dev _ _ Hm) as Hd. assert (valid (Top 13)) by (cbn; lia).
  gstep ltac:(apply gives_read_block; [done|by apply read_inb]).
  gstep ltac:(apply gives_lift, word_at_in; [apply blk_block; [done|by apply read_inb]|done]).
  rewrite (ent_word d i (Dbl x) (Top 13) eq_refl E13 : word (blk d (ptr d i (Top 13))) x = _).
  destruct (Z.eqb_spec (ptr d i (Dbl x)) 0); [apply gives_ret|]. by apply (gives_entry (Leaf x y) (Dbl x)).
Qed.

Lemma ht_read_loop fuel x rem out : 0 <= x -> 0 <= rem < Z.of_nat fuel -> x + rem < 2 ^ 32 ->
  ht d sb (read_loop ok fs fuel i x rem out) (fun '(v, out') d' sb' => d' = d /\ sb' = sb /\ v = blen out' /\
    exists n, 0 <= n <= rem /\ out' = out ++ fbytes d i x n /\ (n = rem \/ reach d i ((x + n) / bs) = false)) never.
Proof.
  pose proof bs_pos as Hbs. pose proof (me_dev _ _ Hm) as Hd. revert x rem out.
  induction fuel as [|f IH]; intros x rem out Hx Hf H32; [lia|]. cbn [read_loop].
  destruct (Z.leb_spec rem 0) as [Hz|Hz].
  { apply ht_ret. do 3 (split; [done|]). exists 0. split; [lia|]. split; [by rewrite app_nil_r|left; lia]. }
  gstep ltac:(apply gives_divmod; lia). cbv zeta. pose proof (Z.mod_pos_bound x bs ltac:(lia)) as Hmod.
  assert (0 <= x / bs) as Hq by (apply Z.div_pos; lia).
  rewrite u32_small by (unfold is_u32; pose proof (Z.div_le_upper_bound x bs x); nia).
  gstep ltac:(by apply gives_try, gives_read_ptr). destruct (reach d i (x / bs)) eqn:Er.
  2:{ apply ht_ret. do 3 (split; [done|]). exists 0. split; [lia|]. split; [by rewrite app_nil_r|right]. by rewrite Z.add_0_r. }
  destruct (dslot_valid (x / bs)) as [Hv _]; [apply reach_max in Er; lia|]. pose proof (read_inb _ Hv) as Hp.
  set (n := if rem <? bs - x mod bs then rem else bs - x mod bs).
  assert (0 < n <= rem /\ n <= bs - x mod bs) as [Hn Hnb] by (unfold n; destruct (Z.ltb_spec rem (bs - x mod bs)); lia). clearbody n.
  pose proof (fbytes_block d i x n Hd Hx ltac:(lia) Hp) as Hfb.
  assert (forall o, ht d sb (read_loop ok fs f i (x + n) (rem - n) (out ++ fbytes d i x n)) (fun '(v, out') d' sb' => d' = d /\ sb' = sb /\ v = blen out' /\
    exists n, 0 <= n <= rem /\ out' = out ++ fbytes d i x n /\ (n = rem \/ reach d i ((x + n) / bs) = false)) o) as Hnext.
  { intros o. eapply ht_mono; [apply IH; lia| |done]. intros [v out'] d' sb' (-> & -> & -> & m & Hm' & -> & Hr). do 3 (split; [done|]).
    exists (n + m). split; [lia|]. split; [by rewrite fbytes_app, app_assoc by lia|].
    replace (x + (n + m)) with (x + n + m) by lia. destruct Hr; [left; lia|by right]. }
  destruct (Z.eqb_spec (ptr d i (dslot (x / bs))) 0) as [E0|E0]; [rewrite Hfb; apply Hnext|].
  gstep ltac:(by apply gives_try, gives_read_block). pose proof (blk_block d _ Hd Hp) as [_ Hl].
  gstep ltac:(apply gives_lift, rds_in; lia). rewrite Hfb. apply Hnext.
Qed.

End read.

Lemma ht_read d sb ino off size : meta d sb -> file d ino -> 0 <= off -> 0 <= size -> off + size < 2 ^ 64 ->
  ht d sb (ext2_read ok fs ino off size) (fun '(v, out) d' sb' => d' = d /\ sb' = sb /\
    let i := inode_at d ino in let want := Z.max 0 (Z.min size (i_size i - off)) in
    0 <= v <= want /\ out = fbytes d i off v /\ (v = want \/ reach d i ((off + v) / bs) = false)) never.
Proof.
  intros Hm [Hio Ht] Ho Hs H64. unfold ext2_read. gstep ltac:(by apply gives_try, gives_read_inode). cbv zeta.
  set (i := inode_at d ino) in *. assert (is_u32 (i_size i)) as Hu.
  { destruct (tr_inode _ _ Ht) as [Hb Hl]. unfold i_size. apply sb_u32; [done|lia|unfold sizeof_inode in Hl; lia]. }
  unfold is_u32 in Hu. destruct (Z.leb_spec (i_size i) off) as [Hle|Hlt].
  { apply ht_ret. do 2 (split; [done|]). split; [lia|]. split; [done|left; lia]. }
  rewrite u64_small by (unfold is_u64; lia). set (want := if i_size i <? off + size then i_size i - off else size).
  assert (want = Z.min size (i_size i - off)) as Ew by (unfold want; destruct (Z.ltb_spec (i_size i) (off + size)); lia). clearbody want.
  eapply ht_mono; [apply (ht_read_loop d sb i Hm Ht); lia| |done].
  intros [v out] d' sb' (-> & -> & -> & n & Hn & -> & Hr). do 2 (split; [done|]). cbn [app]. rewrite fbytes_len by lia.
  split; [lia|]. split; [done|]. destruct Hr; [left; lia|by right].
Qed.

Lemma ext2_write_spec ino off buf s :
  meta (disk s) (cached_sb s) -> file (disk s) ino -> bytes buf -> 0 < blen buf -> 0 <= off ->
  off + blen buf <= max_size -> off + blen buf < 2 ^ 32 ->
  exists w s', ext2_write ok fs ino off buf s = (Ok w, s') /\
    wrote (disk s) (cached_sb s) ino off buf w (disk s') (cached_sb s').
Proof.
  intros Hm Hf Hb H0 Ho Hmax H32.
  pose proof (ht_write (disk s) (cached_sb s) ino off buf Hm Hf Ho Hmax H32 Hb H0 s eq_refl eq_refl) as H.
  destruct (ext2_write ok fs ino off buf s) as [[w| |] s']; [|done..]. by exists w, s'.
Qed.

(** C15: writing a file. With no failing request, [ext2_write] of a buffer that ends within the file system's
    limits returns the number of bytes it has written, which is the whole buffer unless the disk is full. The
    file then has those bytes at their offsets and its old contents, or zeros, elsewhere; its size is as
    needed; its blocks are in use, distinct and not the file system's own; the allocator's invariant holds; and
    every file that shares no block with it, inode and contents, is as it was. *)
Theorem ext2_write_correct ino off buf s :
  meta (disk s) (cached_sb s) -> file (disk s) ino -> bytes buf -> 0 < blen buf -> 0 <= off ->
  off + blen buf <= max_size -> off + blen buf < 2 ^ 32 ->
  exists w s', ext2_write ok fs ino off buf s = (Ok w, s') /\
    wrote (disk s) (cached_sb s) ino off buf w (disk s') (cached_sb s').
Proof. apply ext2_write_spec. Qed.

Lemma ext2_read_spec ino off size s :
  meta (disk s) (cached_sb s) -> file (disk s) ino -> 0 <= off -> 0 <= size -> off + size < 2 ^ 64 ->
  let i := inode_at (disk s) ino in let want := Z.max 0 (Z.min size (i_size i - off)) in
  exists n s', ext2_read ok fs ino off size s = (Ok (n, fbytes (disk s) i off n), s') /\
    disk s' = disk s /\ cached_sb s' = cached_sb s /\ 0 <= n <= want /\
    (n = want \/ reach (disk s) i ((off + n) / bs) = false).
Proof.
  intros Hm Hf Ho Hs H64 i want. pose proof (ht_read _ _ ino off size Hm Hf Ho Hs H64 s eq_refl eq_refl) as H.
  destruct (ext2_read ok fs ino off size s) as [[[v out]| |] s']; [|done..]. destruct H as (? & ? & ? & -> & ?).
  exists v, s'. by do 4 (split; [done|]).
Qed.

(** Reading a file. With no failing request, [ext2_read] returns the bytes of the file from the offset on,
    as many as asked for and as the file has, and changes nothing on the device; it stops early only at a block
    whose index block does not exist. *)
Theorem ext2_read_correct ino off size s :
  meta (disk s) (cached_sb s) -> file (disk s) ino -> 0 <= off -> 0 <= size -> off + size < 2 ^ 64 ->
  let i := inode_at (disk s) ino in let want := Z.max 0 (Z.min size (i_size i - off)) in
  exists n s', ext2_read ok fs ino off size s = (Ok (n, fbytes (disk s) i off n), s') /\
    disk s' = disk s /\ cached_sb s' = cached_sb s /\ 0 <= n <= want /\
    (n = want \/ reach (disk s) i ((off + n) / bs) = false).
Proof. apply ext2_read_spec. Qed.

Lemma mapped_reach d sb i idx : meta d sb -> tree d i -> 0 <= idx < max_blocks -> ptr d i (dslot idx) <> 0 -> reach d i idx = true.
Proof.
  intros Hm Ht Hi H0. unfold reach. rewrite (proj2 (Z.ltb_lt _ _)) by lia. destruct (parent (dslot idx)) as [p|] eqn:Ep; [|done].
  apply negb_true_iff, Z.eqb_neq. intros E. apply H0. rewrite (ptr_parent _ _ _ p Ep). unfold ent_of. by rewrite E.
Qed.

(** A read of what has been written does not end early. *)
Lemma wrote_reads d sb ino off buf d' sb' n : wrote d sb ino off buf (blen buf) d' sb' -> 0 < blen buf -> 0 <= off -> off + blen buf <= max_size ->
  0 <= n <= blen buf -> (n = Z.max 0 (Z.min (blen buf) (i_size (inode_at d' ino) - off)) \/ reach d' (inode_at d' ino) ((off + n) / bs) = false) ->
  n = blen buf.
Proof.
  intros [_ _ _ Hm' Hf' _ Hmp Hsz _] H0 Ho Hmax Hn Hend. rewrite (proj2 (Z.ltb_lt 0 _)) in Hsz by done. pose proof bs_pos.
  destruct Hend as [E|E]; [lia|]. destruct (Z.eq_dec n (blen buf)) as [|Hne]; [done|]. exfalso.
  assert (0 <= (off + n) / bs < max_blocks) as Hr by (apply pos_block; lia).
  rewrite (mapped_reach _ _ _ _ Hm' (fi_tree _ _ Hf') Hr) in E; [done|]. apply Hmp. lia.
Qed.

(** C16: what is written is read back. On a well-formed file system whose requests to the disk and for memory do not
    fail, for a range that ends within [max_size] (the direct, indirect and doubly indirect blocks) and below 4 GiB:
    when [ext2_write] has written the whole buffer, [ext2_read] of that range returns the buffer. *)
Theorem ext2_write_read ino off buf s s' :
  meta (disk s) (cached_sb s) -> file (disk s) ino -> bytes buf -> 0 < blen buf -> 0 <= off ->
  off + blen buf <= max_size -> off + blen buf < 2 ^ 32 ->
  ext2_write ok fs ino off buf s = (Ok (blen buf), s') ->
  exists s'', ext2_read ok fs ino off (blen buf) s' = (Ok (blen buf, buf), s'').
Proof.
  intros Hm Hf Hb H0 Ho Hmax H32 Hw.
  pose proof (ht_write (disk s) (cached_sb s) ino off buf Hm Hf Ho Hmax H32 Hb H0 s eq_refl eq_refl) as Hwr. rewrite Hw in Hwr.
  pose proof Hwr as [_ _ _ Hm' Hf' Hc _ _ _].
  pose proof (ht_read _ _ ino off (blen buf) Hm' Hf' Ho ltac:(lia) ltac:(lia) s' eq_refl eq_refl) as Hr.
  destruct (ext2_read ok fs ino off (blen buf) s') as [[[v out]| |] s'']; [|done..].
  destruct Hr as (_ & _ & Hv & -> & Hend). exists s''. rewrite (wrote_reads _ _ _ _ _ _ _ v Hwr H0 Ho Hmax ltac:(lia) Hend).
  do 3 f_equal. apply bytes_ext; rewrite fbytes_len by lia; [done|]. intros k Hk. rewrite fbytes_get by lia.
  change (fbyte (disk s') (inode_at (disk s') ino) (off + k)) with (content (disk s') ino (off + k)).
  rewrite Hc by lia. rewrite decide_True by lia. f_equal. lia.
Qed.

(** A file with no blocks. *)
Lemma tree_empty d i : inode_t i -> (forall k, 0 <= k < 14 -> i_block i k = 0) -> tree d i.
Proof.
  intros Hi H0. assert (forall a, valid a -> ptr d i a = 0) as E.
  { intros [k|x|x|x y] Hv; cbn [ptr valid] in *; [by apply H0|..]; rewrite H0 by lia; done. }
  split; [done| |]; intros a; [intros Ha F|intros b Ha Hb _ F]; by rewrite E in F.
Qed.

End fs.

(** ** The small file system *)

(** With an empty file, inode 12, in the root directory. *)
Definition sample_file : st := (ext2_create never_fails sample_fs [47; 97] 0 0 sample_st).2.
Definition sample_sys (n : Z) : Prop := 0 <= n <= 6.

Abbreviation smeta := (meta sample_fs 48 48 sample_sys).
Abbreviation sfile := (file sample_fs 48 48 sample_sys).

Lemma sample_geom : geom sample_fs.
Proof. by split; vm_compute; auto. Qed.

Lemma sample_grp g : grp sample_fs 48 g -> g = 0.
Proof. unfold grp. change ((48 + blocks_per_group sample_fs - 1) / blocks_per_group sample_fs) with 1. lia. Qed.

Definition sample_ok (s : st) : bool :=
  forallb (fun x => (0 <=? x) && (x <? 256)) (disk s) && (blen (disk s) =? 49152) &&
  forallb (fun x => (0 <=? x) && (x <? 256)) (cached_sb s) && (blen (cached_sb s) =? 1024) &&
  (s_blocks_count (cached_sb s) =? 48) && (bitmap sample_fs (disk s) 0 =? 3) &&
  (iblk sample_fs (disk s) 12 =? 6) &&
  forallb (fun bit => match bit_is_set (blk sample_fs (disk s) 3) bit with Some false => (7 <=? bit) && (bit <? 47) | _ => true end) (seqZ 0 48) &&
  forallb (fun k => i_block (inode_at sample_fs (disk s) 12) k =? 0) (seqZ 0 14).

Lemma sample_meta s : sample_ok s = true -> smeta (disk s) (cached_sb s).
Proof.
  intros H. unfold sample_ok in H. rewrite !andb_true_iff in H.
  destruct H as [[[[[[[[Hd Hl%Z.eqb_eq] Hs] Hsl%Z.eqb_eq] Hc%Z.eqb_eq] Hb%Z.eqb_eq] _] Hbits] _].
  split.
  - split; [by apply bytes_check|]. by rewrite Hl.
  - split; [by apply bytes_check|done].
  - unfold sample_sys. change (sb_blk sample_fs) with 1. lia.
  - intros g ->%sample_grp. unfold inb, sample_sys. change (bgd_blk sample_fs 0) with 2. change (sb_blk sample_fs) with 1. lia.
  - intros g ->%sample_grp. rewrite Hb. unfold inb, sample_sys. change (sb_blk sample_fs) with 1. lia.
  - intros g g' ->%sample_grp ->%sample_grp. rewrite Hb. by change (bgd_blk sample_fs 0) with 2.
  - by intros g g' ->%sample_grp ->%sample_grp.
  - intros n (g & bit & ->%sample_grp & Hbit & -> & Hcl). change (nbits sample_fs 48 0) with 48 in Hbit.
    unfold clear in Hcl. rewrite Hb in Hcl. rewrite forallb_forall in Hbits.
    assert (bit ∈ seqZ 0 48) as Hin%list_elem_of_In by (apply elem_of_seqZ; lia).
    specialize (Hbits bit Hin). cbv beta in Hbits. rewrite Hcl in Hbits.
    apply andb_true_iff in Hbits as [H1%Z.leb_le H2%Z.ltb_lt]. unfold inb, sample_sys, number.
    change (0 * blocks_per_group sample_fs + first_data_block sample_fs) with 1. lia.
Qed.

Lemma sample_room : 1 < 48 <= 2 ^ 32 /\ part_lba sample_fs + 48 * secs_per_block sample_fs < 2 ^ 64.
Proof. by vm_compute. Qed.

Lemma sample_is_file s : sample_ok s = true -> sfile (disk s) 12.
Proof.
  intros Hok. pose proof Hok as H. unfold sample_ok in H. rewrite !andb_true_iff in H.
  destruct H as [[[[_ Hb%Z.eqb_eq] Hi%Z.eqb_eq] _] Hk]. assert (inode_ok sample_fs 48 48 sample_sys (disk s) 12) as Hio.
  { split; [lia|by vm_compute|rewrite Hi; unfold inb; lia|rewrite Hi; unfold sample_sys; lia|].
    rewrite Hi. unfold alloc_sys. change (sb_blk sample_fs) with 1.
    intros [F|(g & ->%sample_grp & [F|F])]; [done|by vm_compute in F|by rewrite Hb in F]. }
  split; [done|]. apply tree_empty.
  - apply (inode_at_ok sample_fs sample_geom ltac:(done) 48 sample_room 0 sample_sys); [apply (sample_meta s Hok)|apply Hio].
  - rewrite forallb_forall in Hk. intros k Hr. apply Z.eqb_eq. apply (Hk k). by apply list_elem_of_In, elem_of_seqZ.
Qed.

Lemma sample_file_ok : sample_ok sample_file = true.
Proof. by vm_compute. Qed.

Definition sample_buf : list Z := [104; 101; 108; 108; 111].

Lemma sample_buf_bytes : bytes sample_buf.
Proof. by apply bytes_check. Qed.

Lemma sample_count : 0 < 48 /\ 48 + blocks_per_group sample_fs - 1 < 2 ^ 32.
Proof. by vm_compute. Qed.

Lemma sample_max : 12285 + blen sample_buf <= max_size sample_fs.
Proof. by vm_compute. Qed.

Lemma sample_empty : i_size (inode_at sample_fs (disk sample_file) 12) = 0.
Proof. by vm_compute. Qed.

Lemma sample_written : let r := ext2_write never_fails sample_fs 12 12285 sample_buf sample_file in r = (Ok (blen sample_buf), r.2).
Proof. cbv zeta. apply pair_ext; [by vm_compute|exact eq_refl]. Qed.

Lemma ext2_write_correct_witness : exists w s', ext2_write never_fails sample_fs 12 12285 sample_buf sample_file = (Ok w, s') /\
  wrote sample_fs 48 48 sample_sys (disk sample_file) (cached_sb sample_file) 12 12285 sample_buf w (disk s') (cached_sb s').
Proof.
  exact (ext2_write_correct never_fails (fun _ => eq_refl) sample_fs sample_geom ltac:(done) 48 sample_room 48 sample_count sample_sys
    12 12285 sample_buf sample_file (sample_meta _ sample_file_ok) (sample_is_file _ sample_file_ok) sample_buf_bytes
    ltac:(done) ltac:(done) sample_max ltac:(done)).
Defined.

Lemma ext2_read_correct_witness : exists n s',
  ext2_read never_fails sample_fs 12 0 10 sample_file = (Ok (n, fbytes sample_fs (disk sample_file) (inode_at sample_fs (disk sample_file) 12) 0 n), s') /\
  disk s' = disk sample_file /\ n = 0.
Proof.
  destruct (ext2_read_correct never_fails (fun _ => eq_refl) sample_fs sample_geom ltac:(done) 48 sample_room 48 sample_sys 12 0 10 sample_file
    (sample_meta _ sample_file_ok) (sample_is_file _ sample_file_ok) ltac:(done) ltac:(done) ltac:(done)) as (n & s' & E & Hd & _ & Hn & _).
  exists n, s'. split; [exact E|split; [exact Hd|]]. rewrite sample_empty in Hn. lia.
Defined.

Lemma ext2_write_read_witness :
  let s' := (ext2_write never_fails sample_fs 12 12285 sample_buf sample_file).2 in
  exists s'', ext2_read never_fails sample_fs 12 12285 (blen sample_buf) s' = (Ok (blen sample_buf, sample_buf), s'').
Proof.
  exact (ext2_write_read never_fails (fun _ => eq_refl) sample_fs sample_geom ltac:(done) 48 sample_room 48 sample_count sample_sys
    12 12285 sample_buf sample_file _ (sample_meta _ sample_file_ok) (sample_is_file _ sample_file_ok) sample_buf_bytes
    ltac:(done) ltac:(done) sample_max ltac:(done) sample_written).
Defined.

End Ext2File.
