(* ===== verification/Ext2Bugs.v ===== *)
(** * Defects of the ext2 file system

    Runs of the operations of [Ext2] on the small file system of that file, with no failing request, in
    which the outcome is not what the operation is meant to do. *)

From S2P Require Import Prelude Bytes Ext2Dir Ext2.
Import Ext2Dir Ext2.

Module Ext2Bugs.

Definition free_blocks : T Z := sb ← get_sb; mret (s_free_blocks_count sb).
Definition free_inodes : T Z := sb ← get_sb; mret (s_free_inodes_count sb).

Abbreviation create := (ext2_create never_fails sample_fs).
Abbreviation mkdir := (ext2_mkdir never_fails sample_fs).
Abbreviation write := (ext2_write never_fails sample_fs).
Abbreviation read := (ext2_read never_fails sample_fs).
Abbreviation truncate := (ext2_truncate never_fails sample_fs).
Abbreviation unlink := (ext2_unlink never_fails sample_fs).
Abbreviation rename := (ext2_rename never_fails sample_fs).
Abbreviation list_dir := (ext2_list_dir never_fails sample_fs).
Abbreviation stat := (ext2_stat_full never_fails sample_fs).

(** A byte behind the indirect range takes three blocks. [ext2_truncate] gives none of them back, and when
    the file grows again the byte from before the truncation is in it. *)
Example truncate_keeps_doubly_indirect :
  ((i ← create [47; 97] 0 0;
    before ← free_blocks;
    _ ← write i ((12 + 256) * 1024) [77];
    _ ← truncate i;
    after ← free_blocks;
    _ ← write i ((12 + 256) * 1024 + 1) [78];
    r ← read i ((12 + 256) * 1024) 2;
    mret (before - after, r)) sample_st).1 = Ok (3, (2, [77; 78])).
Proof. by vm_compute. Qed.

(** Removing a directory leaves its inode, with a link count of 1, and its block allocated. *)
Example unlink_directory_leaks :
  ((b ← free_blocks; n ← free_inodes;
    i ← mkdir [47; 97] 0 0;
    _ ← unlink [47; 97];
    b' ← free_blocks; n' ← free_inodes; s ← stat i;
    mret (b - b', n - n', st_nlink s)) sample_st).1 = Ok (1, 1, 1).
Proof. by vm_compute. Qed.

(** A directory can be renamed into itself, and is then reachable from nowhere. *)
Example rename_into_itself :
  ((i ← mkdir [47; 97] 0 0;
    _ ← rename [47; 97] [47; 97; 47; 98];
    root ← list_dir 2 100 0; sub ← list_dir i 100 0;
    mret (root, sub)) sample_st).1 = Ok ((0, [0]), (2, [98; 10; 0])).
Proof. by vm_compute. Qed.

(** A file of 13 blocks whose first 12 blocks are a hole reads as zeros there; when the hole is in the
    indirect range instead, the read stops at it. *)
Example read_stops_at_missing_indirect :
  ((i ← create [47; 97] 0 0;
    _ ← write i (12 * 1024) [77];
    r ← read i 1000 4;
    j ← create [47; 98] 0 0;
    _ ← write j ((12 + 256) * 1024) [77];
    r' ← read j (12 * 1024) 4;
    mret (r, r')) sample_st).1 = Ok ((4, [0; 0; 0; 0]), (0, [])).
Proof. by vm_compute. Qed.

(** 20 blocks of data and an indirect block are counted as 13 blocks in [i_blocks]. *)
Example i_blocks_counts_pointers :
  ((i ← create [47; 97] 0 0;
    b ← free_blocks;
    n ← write i 0 (zeros (20 * 1024));
    b' ← free_blocks;
    inode ← read_inode never_fails sample_fs i;
    mret (n, b - b', i_blocks inode)) sample_st).1 = Ok (20 * 1024, 21, 26).
Proof. by vm_compute. Qed.

End Ext2Bugs.
