(* ===== verification/Gpt.v ===== *)
(** * The partition table

    Models [kernel/block/gpt.c]: [gpt_read] over the block device of [Ext2]. The page it allocates for sectors
    holds one sector at a time and is the list of that sector's bytes, so that an access behind the sector is
    a fault. The theorem gives the sector arithmetic its meaning: the partitions found are the first non-empty
    entries of the array of entries that starts at [partition_entry_lba]. *)

From S2P Require Import Prelude Bytes Ext2Dir Ext2 Ext2Safe.
Import Ext2Dir Ext2 Ext2Safe.

Module Gpt.

Definition GPT_SIGNATURE : Z := 0x5452415020494645.
Definition sizeof_gpt_header : Z := 92.
Definition sizeof_gpt_entry : Z := 128.

(** [gpt_header_t]. *)
Definition signature (h : list Z) : Z := rd64 h 0.
Definition partition_entry_lba (h : list Z) : Z := rd64 h 72.
Definition num_partition_entries (h : list Z) : Z := rd32 h 80.
Definition size_of_partition_entry (h : list Z) : Z := rd32 h 84.

(** [gpt_entry_t]. *)
Definition type_guid (e : list Z) : list Z := slice e 0 16.
Definition e_first_lba (e : list Z) : Z := rd64 e 32.
Definition e_last_lba (e : list Z) : Z := rd64 e 40.

Record gpt_partition_t := mk_part { first_lba : Z; last_lba : Z }.

(** [memcmp(e->type_guid, zero_guid, 16) == 0]. *)
Definition empty_entry (e : list Z) : bool := bool_decide (type_guid e = zeros 16).
Definition part_of (e : list Z) : gpt_partition_t := mk_part (e_first_lba e) (e_last_lba e).

Section oracle.
Context (ok : nat -> bool).

Section table.
Context (entry_lba entry_size : Z) (max : Z).
Definition per_sector : Z := 512 / entry_size.

(** The loop from entry [i] on, with [n] entries left; [buf] is the sector read last, [parts] the array with
    the partitions found so far. *)
Fixpoint walk (n : nat) (i : Z) (buf : list Z) (parts : list gpt_partition_t) : T (list gpt_partition_t) :=
  match n with
  | O => mret parts
  | S n' =>
      if negb (Z.of_nat (length parts) <? max) then mret parts
      else
        let lba := u64 (entry_lba + i / per_sector) in
        let slot := i mod per_sector in
        r ← (if slot =? 0 then try_ (blkdev_read ok lba 1) else mret (Some buf));
        match r with
        | None => mret parts
        | Some buf =>
            e ← lift (rds buf (u32 (slot * entry_size)) sizeof_gpt_entry);
            walk n' (i + 1) buf (if empty_entry e then parts else parts ++ [part_of e])
        end
  end.
End table.

(** The partitions stored in [parts]; their number is the result. *)
Definition gpt_read (max : Z) : T (list gpt_partition_t) :=
  b ← try_ (alloc_buf ok);
  if bool_decide (b = None) then mret [] else
  r ← try_ (blkdev_read ok 1 1);
  match r with
  | None => mret []
  | Some buf =>
      hdr ← lift (rds buf 0 sizeof_gpt_header);
      if negb (signature hdr =? GPT_SIGNATURE) then mret []
      else
        let entry_size := size_of_partition_entry hdr in
        let entry_count := num_partition_entries hdr in
        if (entry_size <? sizeof_gpt_entry) || (512 <? entry_size) || negb (512 mod entry_size =? 0) || (4096 <? entry_count)
        then mret []
        else walk (partition_entry_lba hdr) entry_size max (Z.to_nat entry_count) 0 buf []
  end.

(** ** Safety *)

Section safety.
Context (nb : Z).

Lemma safe_walk lba es max n i buf parts :
  128 <= es <= 512 -> 512 mod es = 0 -> 0 <= lba -> 0 <= i -> bytes buf -> blen buf = 512 ->
  Z.of_nat (length parts) <= Z.max 0 max ->
  safe nb (walk lba es max n i buf parts) (fun p => Z.of_nat (length p) <= Z.max 0 max).
Proof.
  intros Hes Hdiv Hlba. revert i buf parts. induction n as [|n IH]; intros i buf parts Hi Hb Hl Hp; [by apply safe_ret|].
  cbn [walk]. destruct (Z.ltb_spec (Z.of_nat (length parts)) max); [|by apply safe_ret]. cbn [negb]. cbv zeta.
  assert (0 < per_sector es /\ per_sector es * es = 512) as [Hps Hpe].
  { unfold per_sector. split; [apply Z.div_str_pos; lia|]. rewrite Z.mul_comm, <- Z_div_exact_full_2; lia. }
  eapply (safe_bind _ _ _ (opt (fun b => bytes b /\ blen b = 512))).
  { destruct (_ =? 0); [|apply safe_ret; by intros ? [= <-]]. apply safe_try, safe_blkdev_read; [int_lia|lia]. }
  intros [buf'|] Hr; [|apply safe_ret; lia]. destruct (Hr buf' eq_refl) as [Hb' Hl'].
  pose proof (Z.mod_pos_bound i (per_sector es) Hps) as Hm.
  assert (0 <= i mod per_sector es * es /\ i mod per_sector es * es + 128 <= 512) by nia.
  eapply (safe_bind _ _ _ (fun _ => True)).
  { apply safe_lift. rewrite u32_small by (unfold is_u32; lia). unfold sizeof_gpt_entry.
    destruct (rds_ok buf' (i mod per_sector es * es) 128) as (e & He & _); [lia..|done|]. by exists e. }
  intros e _. apply IH; [lia|done..|]. destruct (empty_entry e); [done|]. rewrite length_app. cbn [length]. lia.
Qed.

Lemma safe_gpt_read max : safe nb (gpt_read max) (fun p => Z.of_nat (length p) <= Z.max 0 max).
Proof.
  eapply safe_bind; [apply safe_try, safe_ask|]. intros b _. case_bool_decide; [apply safe_ret; simpl; lia|].
  eapply safe_bind; [apply safe_try, safe_blkdev_read; lia|]. intros [buf|] Hb; [|apply safe_ret; simpl; lia].
  destruct (Hb buf eq_refl) as [Hbb Hbl].
  eapply safe_bind; [apply safe_lift, (rds_ok buf 0 sizeof_gpt_header); unfold sizeof_gpt_header; [lia..|done]|].
  intros hdr [Hh Hhl]. destruct (negb _); [apply safe_ret; simpl; lia|]. cbv zeta.
  destruct (_ || _) eqn:E; [apply safe_ret; simpl; lia|]. rewrite !orb_false_iff in E.
  destruct E as [[[E1%Z.ltb_ge E2%Z.ltb_ge] E3%negb_false_iff%Z.eqb_eq] E4%Z.ltb_ge]. unfold sizeof_gpt_entry in E1.
  apply safe_walk; [lia|done| |lia|done|lia|simpl; lia].
  unfold partition_entry_lba, rd64. apply le_val_range, slice_bytes, Hh.
Qed.

End safety.

(** ** The partitions of a table *)

(** Entry [i] of the array that starts at sector [lba], and the partitions of the [n] entries from [i] on. *)
Definition entry_at (d : list Z) (lba es i : Z) : list Z := slice d (lba * 512 + i * es) sizeof_gpt_entry.
Definition parts_of (d : list Z) (lba es i : Z) (n : nat) : list gpt_partition_t :=
  part_of <$> List.filter (fun e => negb (empty_entry e)) (entry_at d lba es <$> seqZ i (Z.of_nat n)).

Lemma parts_of_S d lba es i n : parts_of d lba es i (S n) =
  (if empty_entry (entry_at d lba es i) then [] else [part_of (entry_at d lba es i)]) ++ parts_of d lba es (i + 1) n.
Proof.
  unfold parts_of. rewrite seqZ_cons by lia. replace (Z.pred (Z.of_nat (S n))) with (Z.of_nat n) by lia.
  cbn [fmap list_fmap List.filter]. by destruct (empty_entry _).
Qed.

Lemma slice_slice d off n o m : 0 <= off -> 0 <= o -> 0 <= m -> o + m <= n -> slice (slice d off n) o m = slice d (off + o) m.
Proof.
  intros. unfold slice. rewrite skipn_firstn_comm, take_take, drop_drop. f_equal; [lia|]. f_equal. lia.
Qed.

Section found.
Context (Hok : forall n, ok n = true).

Lemma read_one lba s : 0 <= lba -> (lba + 1) * 512 <= blen (disk s) ->
  exists s', blkdev_read ok lba 1 s = (Ok (slice (disk s) (lba * 512) 512), s') /\ disk s' = disk s.
Proof.
  intros Hl Hd. unfold blkdev_read, mbind, T_bind, ask. rewrite Hok. unfold dev_read, on_device. cbn [disk].
  rewrite (proj2 (Z.leb_le _ _)) by lia. eexists. split; [done|]. done.
Qed.

Lemma next_sector ps i : 0 < ps -> (i + 1) mod ps <> 0 -> (i + 1) / ps = i / ps.
Proof.
  intros Hps Hne. pose proof (Z.div_mod i ps ltac:(lia)) as E. pose proof (Z.mod_pos_bound i ps Hps) as Hm.
  symmetry. apply (Z.div_unique_pos _ _ _ (i mod ps + 1)); [|lia]. split; [lia|].
  destruct (Z.eq_dec (i mod ps + 1) ps) as [E'|]; [|lia]. exfalso. apply Hne.
  replace (i + 1) with ((i / ps + 1) * ps) by nia. apply Z_mod_mult.
Qed.

Section entries.
Context (d : list Z) (lba es max : Z) (N : Z).
Context (Hes : 128 <= es <= 512) (Hdiv : 512 mod es = 0) (Hlba : 0 <= lba) (Hmax : 0 <= max).
Context (Hfit : lba * 512 + (N * es + 511) / 512 * 512 <= blen d) (H64 : blen d < 2 ^ 64).

Lemma sector_of i : 0 <= i < N ->
  let ps := per_sector es in
  0 < ps /\ ps * es = 512 /\ 0 <= i / ps /\ (lba + i / ps + 1) * 512 <= blen d /\ i / ps * 512 + i mod ps * es = i * es /\ 0 <= i mod ps < ps.
Proof.
  intros Hi ps. assert (ps * es = 512) as Hpe by (unfold ps, per_sector; rewrite Z.mul_comm, <- Z_div_exact_full_2; lia).
  assert (0 < ps) as Hps by (unfold ps, per_sector; apply Z.div_str_pos; lia).
  pose proof (Z.div_mod i ps ltac:(lia)) as E. pose proof (Z.mod_pos_bound i ps Hps) as Hm.
  pose proof (Z.div_pos i ps ltac:(lia) Hps). repeat split; [done..| |nia|lia|lia].
  assert (i / ps + 1 <= (N * es + 511) / 512) as Hle; [|nia].
  apply Z.div_le_lower_bound; [lia|]. assert (i / ps * ps <= N - 1) by lia. nia.
Qed.

Lemma walk_parts n i buf parts s : disk s = d -> 0 <= i -> i + Z.of_nat n = N -> Z.of_nat (length parts) <= max ->
  (i mod per_sector es <> 0 -> buf = slice d ((lba + i / per_sector es) * 512) 512) ->
  exists s', walk lba es max n i buf parts s = (Ok (take (Z.to_nat max) (parts ++ parts_of d lba es i n)), s') /\ disk s' = d.
Proof using Hok Hes Hdiv Hlba Hfit H64.
  revert i buf parts s. induction n as [|n IH]; intros i buf parts s Hd Hi HN Hp Hbuf.
  { exists s. cbn [walk]. unfold parts_of. rewrite seqZ_nil by lia. cbn [fmap list_fmap List.filter]. rewrite app_nil_r, take_ge by lia. done. }
  cbn [walk]. destruct (Z.ltb_spec (Z.of_nat (length parts)) max) as [Hlt|Hge]; cbn [negb].
  2: { exists s. split; [|done]. rewrite take_app_length' by lia. done. }
  cbv zeta. destruct (sector_of i ltac:(lia)) as (Hps & Hpe & Hq & Hin & Heq & Hm).
  assert (u64 (lba + i / per_sector es) = lba + i / per_sector es) as E64 by (apply u64_small; unfold is_u64; lia). rewrite E64.
  set (sec := slice d ((lba + i / per_sector es) * 512) 512).
  assert (exists s1, (if i mod per_sector es =? 0 then try_ (blkdev_read ok (lba + i / per_sector es) 1) else mret (Some buf)) s
    = (Ok (Some sec), s1) /\ disk s1 = d) as (s1 & E1 & Hd1).
  { destruct (Z.eqb_spec (i mod per_sector es) 0) as [E0|E0].
    - destruct (read_one (lba + i / per_sector es) s ltac:(lia) ltac:(rewrite Hd; lia)) as (s1 & Er & Hs1).
      exists s1. unfold try_. rewrite Er, Hd. split; [done|congruence].
    - exists s. rewrite (Hbuf E0). done. }
  assert (blen sec = 512) as Hsec by (unfold sec; apply blen_slice; lia).
  unfold mbind, T_bind at 1. rewrite E1. cbv iota. rewrite u32_small by (unfold is_u32; nia).
  assert (0 <= i mod per_sector es * es /\ i mod per_sector es * es + 128 <= 512) as [Hs0 Hs1] by nia.
  unfold T_bind. rewrite rds_in by (unfold sizeof_gpt_entry; lia). cbn [lift]. unfold mret, T_ret. cbv iota.
  assert (slice sec (i mod per_sector es * es) sizeof_gpt_entry = entry_at d lba es i) as ->.
  { unfold sec, entry_at. rewrite slice_slice by (unfold sizeof_gpt_entry; lia). f_equal. lia. }
  rewrite parts_of_S. destruct (empty_entry (entry_at d lba es i)); rewrite app_assoc, ?app_nil_r.
  all: apply IH; rewrite ?length_app; cbn [length]; try lia; try done.
  all: intros Hne; unfold sec; by rewrite (next_sector (per_sector es) i Hps Hne).
Qed.

End entries.

(** What the checks of [gpt_read] accept, and that the array of entries is on the device. *)
Record header_ok (d h : list Z) : Prop := {
  ho_magic : signature h = GPT_SIGNATURE;
  ho_size : 128 <= size_of_partition_entry h <= 512;
  ho_div : 512 mod size_of_partition_entry h = 0;
  ho_count : 0 <= num_partition_entries h <= 4096;
  ho_lba : 0 <= partition_entry_lba h;
  ho_fit : partition_entry_lba h * 512 + (num_partition_entries h * size_of_partition_entry h + 511) / 512 * 512 <= blen d;
}.

(** C18: on a device that answers every request and holds a table the checks accept, [gpt_read] returns the
    partitions of the first [max] non-empty entries of the table, in order. *)
Theorem gpt_read_correct max s : let d := disk s in let h := slice d 512 92 in
  header_ok d h -> 0 <= max -> 1024 <= blen d < 2 ^ 64 ->
  exists s', gpt_read max s = (Ok (take (Z.to_nat max)
    (parts_of d (partition_entry_lba h) (size_of_partition_entry h) 0 (Z.to_nat (num_partition_entries h)))), s') /\ disk s' = d.
Proof using Hok.
  intros d h [Hsig Hsz Hdiv Hcnt Hlba Hfit] Hmax Hd. unfold gpt_read, mbind, T_bind at 1.
  unfold try_ at 1, alloc_buf, ask. rewrite Hok. cbv iota. rewrite bool_decide_eq_false_2 by done.
  set (s1 := mk_st _ _ _). destruct (read_one 1 s1 ltac:(lia) ltac:(unfold s1, d in *; cbn [disk]; lia)) as (s2 & Er & Hd2).
  unfold T_bind at 1, try_. rewrite Er. cbv iota. change (disk s1) with d in *.
  unfold T_bind. rewrite rds_in by (rewrite ?blen_slice by lia; unfold sizeof_gpt_header; lia). cbn [lift]. unfold mret, T_ret at 1. cbv iota.
  rewrite slice_slice by (unfold sizeof_gpt_header; lia). change (slice d (1 * 512 + 0) sizeof_gpt_header) with h.
  rewrite Hsig, Z.eqb_refl. cbn [negb]. cbv zeta. unfold sizeof_gpt_entry.
  rewrite (proj2 (Z.ltb_ge _ 128)), (proj2 (Z.ltb_ge 512 _)), Hdiv, (proj2 (Z.ltb_ge 4096 _)) by lia. cbn [orb negb Z.eqb].
  destruct (walk_parts d (partition_entry_lba h) (size_of_partition_entry h) max (num_partition_entries h) Hsz Hdiv Hlba Hfit ltac:(lia)
    (Z.to_nat (num_partition_entries h)) 0 (slice d (1 * 512) 512) [] s2) as (s' & E & Hs'); [congruence|lia|lia|simpl; lia| |by exists s'].
  by rewrite Zmod_0_l.
Qed.

End found.
End oracle.

(** Four entries in sector 2, of which the second and the fourth are partitions. *)
Definition sample_header : list Z := wr32 (wr32 (wr64 (wr64 (zeros 512) 0 GPT_SIGNATURE) 72 2) 80 4) 84 128.
Definition sample_entry (first last : Z) : list Z := wr64 (wr64 (1 :: zeros 127) 32 first) 40 last.
Definition sample_table : st :=
  mk_st (zeros 512 ++ sample_header ++ zeros 128 ++ sample_entry 34 99 ++ zeros 128 ++ sample_entry 100 199) [] 0.

Lemma sample_table_ok : header_ok (disk sample_table) (slice (disk sample_table) 512 92).
Proof. by split; vm_compute. Qed.

Lemma gpt_read_correct_witness : exists s', gpt_read never_fails 4 sample_table = (Ok [mk_part 34 99; mk_part 100 199], s').
Proof.
  destruct (gpt_read_correct never_fails (fun _ => eq_refl) 4 sample_table sample_table_ok ltac:(lia) ltac:(by vm_compute)) as (s' & E & _).
  exists s'. exact E.
Defined.

End Gpt.
