(* ===== verification/Vfs.v ===== *)
(** * The virtual file system

    Models [kernel/fs/vfs.c] over [Ext2] and [Gpt]: the mount at boot, path resolution, the table of open files,
    the working directory and the entry points the system calls use. A [char] buffer is the list of its bytes, a
    path argument the buffer it is in; no caller passes NULL. [vfs_lock] serialises the entry points, which run
    here one at a time. The process [sched_current_process] returns appears through what the file uses of it:
    its working directory and effective ids.

    An entry point is in [K vfs]. A fault in the file system, or a store outside a buffer, is a [Panic]. *)

From S2P Require Import Prelude Bytes CString Ext2Dir Ext2 Ext2Safe Ext2File Gpt.
Import CString.

Module Vfs.

(** ** Path resolution *)

(** [buf[i] = v], checked. *)
Definition poke (b : list Z) (i v : Z) : option (list Z) :=
  if (i <? 0) || (blen b <=? i) then None else Some (aset b i v).
Fixpoint poke_all (b : list Z) (i : Z) (l : list Z) : option (list Z) :=
  match l with [] => Some b | v :: l' => b' ← poke b i v; poke_all b' (i + 1) l' end.

(** [strncat(dst, src, n)] on buffers. *)
Definition strncat_buf (dst src : list Z) (n : Z) : list Z :=
  put dst (blen (cstr_of dst)) (take (Z.to_nat n) (cstr_of src) ++ [0]).

(** The contents of [tmp]: the absolute path before normalisation. *)
Definition resolve_tmp (cwd path : list Z) : list Z :=
  let tmp := zeros 512 in
  if aget 0 path 0 =? 47 then aset (strncpy_buf tmp path 511) 511 0
  else
    let tmp := aset (strncpy_buf tmp cwd 511) 511 0 in
    let n := blen (cstr_of tmp) in
    let tmp := if ((n =? 0) || negb (aget 0 tmp (n - 1) =? 47)) && (n <? 511) then aset (aset tmp n 47) (n + 1) 0 else tmp in
    strncat_buf tmp path (511 - blen (cstr_of tmp)).

(** [while ( *p == '/') p++;] *)
Fixpoint skip_slashes (p : list Z) : list Z :=
  match p with c :: p' => if c =? 47 then skip_slashes p' else p | [] => [] end.

(** [for (r = out; r < o; r++) if ( *r == '/') last = r;] with [n] steps left. *)
Fixpoint last_slash (n : nat) (r : Z) (out : list Z) (last : Z) : Z :=
  match n with
  | O => last
  | S n' => last_slash n' (r + 1) out (if aget 0 out r =? 47 then r else last)
  end.

(** [*o++ = '/'; for (...) *o++ = start[i]; *o = '\0';] *)
Definition push_comp (out : list Z) (o : Z) (comp : list Z) : option (list Z) :=
  out ← poke out o 47; out ← poke_all out (o + 1) comp; poke out (o + 1 + blen comp) 0.

(** The loop over the components: [p] is what is left of [tmp], [o] an index into [out]. *)
Fixpoint norm_loop (fuel : nat) (outsz : Z) (p out : list Z) (o : Z) : option (list Z) :=
  match fuel with
  | O => None
  | S f =>
      match p with
      | [] => Some out
      | _ =>
          match skip_slashes p with
          | [] => Some out
          | start =>
              let comp := Ext2.component start in
              let p := drop (length comp) start in
              let len := u32 (blen comp) in
              if bool_decide (comp = [46]) then norm_loop f outsz p out o
              else if bool_decide (comp = [46; 46]) then
                let o := last_slash (Z.to_nat o) 0 out 0 in
                out ← poke out o 0; norm_loop f outsz p out o
              else if outsz <=? u32 (u32 (u32 o + len) + 1) then Some out
              else
                out ← push_comp out o comp;
                norm_loop f outsz p out (o + 1 + blen comp)
          end
      end
  end.

(** [cwd] is the working directory relative paths are taken against; [out] is the caller's buffer. *)
Definition vfs_resolve (cwd path out : list Z) : option (list Z) :=
  let tmp := cstr_of (resolve_tmp cwd path) in
  out ← poke out 0 0;
  out ← norm_loop (S (length tmp)) (blen out) tmp out 0;
  if aget 0 out 0 =? 0 then out ← poke out 0 47; poke out 1 0 else Some out.

(** ** What resolution computes *)

(** The components of a path, and the stack of components after one of them. *)
Fixpoint pieces (p : list Z) : list (list Z) :=
  match p with
  | [] => [[]]
  | c :: p' =>
      if c =? 47 then [] :: pieces p'
      else match pieces p' with x :: xs => (c :: x) :: xs | [] => [[c]] end
  end.
Definition comps (p : list Z) : list (list Z) := List.filter (fun c => negb (bool_decide (c = []))) (pieces p).

Definition visit (st : list (list Z)) (c : list Z) : list (list Z) :=
  if bool_decide (c = [46]) then st else if bool_decide (c = [46; 46]) then removelast st else st ++ [c].
Definition join (st : list (list Z)) : list Z := concat (cons 47 <$> st).
Definition print (st : list (list Z)) : list Z := if bool_decide (st = []) then [47] else join st.
Definition canon (p : list Z) : list Z := print (foldl visit [] (comps p)).

(** The path the resolution starts from. *)
Definition full_path (cwd path : list Z) : list Z :=
  if bool_decide (head path = Some 47) then take 511 path
  else
    let c := take 511 cwd in
    let c := if bool_decide (last c <> Some 47) && (blen c <? 511) then c ++ [47] else c in
    c ++ take (Z.to_nat (511 - blen c)) path.

Definition plain (p : list Z) : Prop := Forall (fun c => c <> 0) p.

Lemma cstr_of_app s b : plain s -> cstr_of (s ++ 0 :: b) = s.
Proof.
  induction 1 as [|c s Hc Hs IH]; [done|]. cbn [cstr_of app]. by rewrite (proj2 (Z.eqb_neq c 0)), IH.
Qed.

Lemma cstr_of_plain b : plain (cstr_of b).
Proof.
  induction b as [|c b IH]; cbn [cstr_of]; [constructor|]. destruct (Z.eqb_spec c 0); [constructor|by constructor].
Qed.

Lemma comps_slash p : comps (47 :: p) = comps p.
Proof. done. Qed.

Lemma comps_skip p : comps (skip_slashes p) = comps p.
Proof.
  induction p as [|c p IH]; [done|]. cbn [skip_slashes]. destruct (Z.eqb_spec c 47) as [->|]; [by rewrite comps_slash|done].
Qed.

Lemma skip_slashes_head p c q : skip_slashes p = c :: q -> c <> 47.
Proof.
  induction p as [|a p IH]; [done|]. cbn [skip_slashes]. destruct (Z.eqb_spec a 47); [done|]. by intros [= -> _].
Qed.

Lemma pieces_cons p : exists x xs, pieces p = x :: xs.
Proof.
  induction p as [|c p (x & xs & E)]; cbn [pieces]; [by eauto|]. destruct (c =? 47); [by eauto|]. rewrite E. eauto.
Qed.

(** The first component and the rest. *)
Lemma pieces_component p : pieces p = Ext2.component p ::
  match drop (length (Ext2.component p)) p with [] => [] | _ :: q => pieces q end.
Proof.
  induction p as [|c p IH]; [done|]. cbn [pieces Ext2.component]. destruct (c =? 47); [done|]. by rewrite IH.
Qed.

Lemma component_rest p : drop (length (Ext2.component p)) p = [] \/ exists q, drop (length (Ext2.component p)) p = 47 :: q.
Proof.
  induction p as [|c p IH]; [by left|]. cbn [Ext2.component]. destruct (Z.eqb_spec c 47) as [->|]; [right; by exists p|exact IH].
Qed.

Lemma comps_component p : Ext2.component p <> [] ->
  comps p = Ext2.component p :: comps (drop (length (Ext2.component p)) p).
Proof.
  intros Hne. unfold comps at 1. rewrite pieces_component. cbn [List.filter]. rewrite bool_decide_eq_false_2 by done. cbn [negb].
  f_equal. destruct (component_rest p) as [->|[q ->]]; done.
Qed.

Lemma component_no_slash p : Forall (fun c => c <> 47) (Ext2.component p).
Proof.
  induction p as [|c p IH]; cbn [Ext2.component]; [constructor|]. destruct (Z.eqb_spec c 47); constructor; done.
Qed.

Lemma component_prefix p : Ext2.component p ++ drop (length (Ext2.component p)) p = p.
Proof. induction p as [|c p IH]; [done|]. cbn [Ext2.component]. destruct (c =? 47); [done|]. cbn. by rewrite IH. Qed.

(** ** The loop *)

Definition good (st : list (list Z)) : Prop := Forall (fun c => c <> [] /\ Forall (fun x => x <> 47) c /\ plain c) st.

Lemma join_snoc st c : join (st ++ [c]) = join st ++ 47 :: c.
Proof. unfold join. rewrite fmap_app, concat_app. cbn. by rewrite app_nil_r. Qed.

Lemma join_plain st : good st -> plain (join st).
Proof.
  induction 1 as [|c st (_ & _ & Hc) Hst IH]; [constructor|]. unfold join. cbn. constructor; [done|]. apply Forall_app. done.
Qed.

Lemma good_visit st c : good st -> c <> [] -> Forall (fun x => x <> 47) c -> plain c -> good (visit st c).
Proof.
  intros Hs Hn Hc Hp. unfold visit. case_bool_decide; [done|]. case_bool_decide.
  - destruct st as [|x st] using rev_ind; [done|]. rewrite removelast_last. by apply Forall_app in Hs as [].
  - apply Forall_app. split; [done|by constructor].
Qed.

Lemma poke_at b s v x tl : b = s ++ x :: tl -> poke b (blen s) v = Some (s ++ v :: tl).
Proof.
  intros ->. unfold poke. pose proof (blen_nonneg s). rewrite (proj2 (Z.ltb_ge _ _)) by done.
  rewrite (proj2 (Z.leb_gt _ _)) by (unfold blen; rewrite length_app; cbn [length]; lia). cbn [orb].
  f_equal. unfold aset, blen. rewrite Nat2Z.id, insert_app_r_alt by lia. by rewrite Nat.sub_diag.
Qed.

Lemma poke_all_at l : forall b s tl, b = s ++ tl -> (length l <= length tl)%nat ->
  poke_all b (blen s) l = Some (s ++ l ++ drop (length l) tl).
Proof.
  induction l as [|v l IH]; intros b s tl -> Hl; [done|]. cbn [poke_all].
  destruct tl as [|x tl]; cbn [length] in Hl; [lia|]. rewrite (poke_at _ s v x tl) by done. cbn [mbind option_bind].
  replace (blen s + 1) with (blen (s ++ [v])) by (unfold blen; rewrite length_app; cbn [length]; lia).
  rewrite (IH _ (s ++ [v]) tl) by (rewrite <- ?app_assoc; done || lia). by rewrite <- app_assoc.
Qed.

Lemma last_slash_add n m r out last : last_slash (n + m) r out last = last_slash m (r + Z.of_nat n) out (last_slash n r out last).
Proof.
  revert r last. induction n as [|n IH]; intros r last; [by rewrite Z.add_0_r|].
  cbn [last_slash Nat.add]. rewrite IH. f_equal. lia.
Qed.

Lemma last_slash_none n r out last : (forall i, r <= i < r + Z.of_nat n -> aget 0 out i <> 47) -> last_slash n r out last = last.
Proof.
  revert r last. induction n as [|n IH]; intros r last H; [done|]. cbn [last_slash].
  rewrite (proj2 (Z.eqb_neq _ _)) by (apply H; lia). apply IH. intros. apply H. lia.
Qed.

Lemma aget_app_r (a b : list Z) i : blen a <= i -> aget 0 (a ++ b) i = aget 0 b (i - blen a).
Proof. intros. unfold blen in *. rewrite !aget_lookup, lookup_app_r by lia. do 2 f_equal. lia. Qed.
Lemma aget_app_l (a b : list Z) i : 0 <= i < blen a -> aget 0 (a ++ b) i = aget 0 a i.
Proof. intros. unfold blen in *. by rewrite !aget_lookup, lookup_app_l by lia. Qed.

(** The loop of the source that pops a component. *)
Lemma last_slash_join st c tl : Forall (fun x => x <> 47) c ->
  last_slash (Z.to_nat (blen (join (st ++ [c])))) 0 (join (st ++ [c]) ++ tl) 0 = blen (join st).
Proof.
  intros Hc. rewrite join_snoc. set (J := join st). replace (Z.to_nat _) with (length J + S (length c))%nat.
  2: { unfold blen. rewrite length_app. cbn [length]. lia. }
  rewrite last_slash_add. cbn [last_slash]. rewrite <- app_assoc. change ((47 :: c) ++ tl) with (47 :: c ++ tl).
  replace (0 + Z.of_nat (length J)) with (blen J) by (unfold blen; lia).
  rewrite aget_app_r by lia. rewrite Z.sub_diag. change (aget 0 (47 :: c ++ tl) 0) with 47. rewrite Z.eqb_refl.
  apply last_slash_none. intros i Hi. rewrite aget_app_r by lia.
  change (47 :: c ++ tl) with ([47] ++ c ++ tl). rewrite aget_app_r by (unfold blen at 1; simpl; lia). change (blen [47]) with 1.
  rewrite aget_app_l by (unfold blen in *; lia). apply (Forall_aget (fun x => x <> 47) 0 c); [done|]. unfold blen in *. lia.
Qed.

Lemma skip_slashes_length p : (length (skip_slashes p) <= length p)%nat.
Proof. induction p as [|c p IH]; [done|]. cbn [skip_slashes]. destruct (c =? 47); cbn [length]; lia. Qed.

Lemma skip_slashes_plain p : plain p -> plain (skip_slashes p).
Proof. induction 1 as [|c p Hc Hp IH]; [constructor|]. cbn [skip_slashes]. destruct (c =? 47); [done|by constructor]. Qed.

Section loop.
Context (outsz : Z) (Hsz : outsz < 2 ^ 31).

(** A component is pushed. *)
Lemma push_ok st c out tl : out = join st ++ 0 :: tl -> blen (join st) + blen c + 1 < blen out ->
  exists tl', push_comp out (blen (join st)) c = Some (join (st ++ [c]) ++ 0 :: tl') /\
    blen (join (st ++ [c]) ++ 0 :: tl') = blen out.
Proof.
  intros -> Hl. assert (length c < length tl)%nat as Hlt.
  { unfold blen in Hl. rewrite length_app in Hl. cbn [length] in Hl. lia. }
  unfold push_comp. rewrite (poke_at _ (join st) 47 0 tl) by done. cbn [mbind option_bind].
  replace (blen (join st) + 1) with (blen (join st ++ [47])) by (unfold blen; rewrite length_app; cbn [length]; lia).
  rewrite (poke_all_at c _ (join st ++ [47]) tl) by (rewrite <- ?app_assoc; done || lia). cbn [mbind option_bind].
  destruct (drop (length c) tl) as [|x tl'] eqn:Ed.
  { apply (f_equal length) in Ed. rewrite length_drop in Ed. cbn [length] in Ed. lia. }
  exists tl'. replace (blen (join st ++ [47]) + blen c) with (blen (join (st ++ [c]))).
  2: { rewrite join_snoc. unfold blen. rewrite !length_app. cbn [length]. lia. }
  assert ((join st ++ [47]) ++ c ++ x :: tl' = join (st ++ [c]) ++ x :: tl') as ->.
  { rewrite join_snoc, <- !app_assoc. done. }
  rewrite (poke_at _ (join (st ++ [c])) 0 x tl') by done. split; [done|].
  apply (f_equal length) in Ed. rewrite length_drop in Ed. cbn [length] in Ed.
  rewrite join_snoc. unfold blen. rewrite !length_app. cbn [length]. lia.
Qed.

(** The last component is popped. *)
Lemma pop_ok st out tl : good st -> out = join st ++ 0 :: tl ->
  let o := last_slash (Z.to_nat (blen (join st))) 0 out 0 in
  o = blen (join (removelast st)) /\
  exists tl', poke out o 0 = Some (join (removelast st) ++ 0 :: tl') /\ blen (join (removelast st) ++ 0 :: tl') = blen out.
Proof.
  intros Hg -> o. destruct st as [|c st _] using rev_ind.
  { change o with 0. split; [done|]. exists tl. cbn [removelast join]. by rewrite (poke_at _ [] 0 0 tl). }
  apply Forall_app in Hg as [Hg [(_ & Hc & _) _]%Forall_cons]. rewrite removelast_last.
  assert (o = blen (join st)) as -> by by apply last_slash_join. split; [done|].
  rewrite join_snoc. exists (c ++ 0 :: tl). rewrite (poke_at _ (join st) 0 47 (c ++ 0 :: tl)) by (by rewrite <- app_assoc).
  split; [done|]. rewrite <- app_assoc. unfold blen. rewrite !length_app. cbn [length]. rewrite !length_app. cbn [length]. lia.
Qed.

Lemma norm_loop_correct fuel : forall p st out tl, good st -> plain p -> p = [] \/ head p = Some 47 -> out = join st ++ 0 :: tl ->
  blen out = outsz -> blen (join st) + blen p < outsz -> (length p < fuel)%nat ->
  exists tl', norm_loop fuel outsz p out (blen (join st)) = Some (join (foldl visit st (comps p)) ++ 0 :: tl') /\
    blen (join (foldl visit st (comps p)) ++ 0 :: tl') = outsz /\ good (foldl visit st (comps p)).
Proof using Hsz.
  induction fuel as [|f IH]; intros p st out tl Hg Hp Hh Ho Hl Hfit Hf; [lia|]. cbn [norm_loop].
  destruct p as [|c0 p0]; [exists tl; by subst|]. set (p := c0 :: p0) in *.
  destruct (skip_slashes p) as [|c1 q1] eqn:Es.
  { exists tl. assert (comps p = []) as -> by (rewrite <- comps_skip, Es; done). by subst. }
  rewrite <- Es. set (start := skip_slashes p) in *. pose proof (skip_slashes_head _ _ _ Es) as H47.
  pose proof (component_prefix start) as Epre. set (comp := Ext2.component start) in *. set (q := drop (length comp) start) in *.
  assert (comp <> []) as Hne by (unfold comp; rewrite Es; cbn [Ext2.component]; by rewrite (proj2 (Z.eqb_neq _ _))).
  assert (comps p = comp :: comps q) as Ec by (unfold q, comp; by rewrite <- comps_component, <- comps_skip).
  assert (length start < length p)%nat as Hlen.
  { destruct Hh as [|Hh]; [done|]. unfold start, p in *. cbn [head] in Hh. injection Hh as ->. cbn [skip_slashes Z.eqb Pos.eqb length].
    pose proof (skip_slashes_length p0). lia. }
  assert (length comp + length q = length start)%nat as Hcq by (rewrite <- Epre, length_app; done).
  assert (plain comp /\ plain q) as [Hpc Hpq].
  { pose proof (skip_slashes_plain p Hp) as H. fold start in H. rewrite <- Epre in H. by apply Forall_app in H. }
  assert (q = [] \/ head q = Some 47) as Hhq by (pose proof (component_rest start) as [E|[q' E]]; fold comp q in E; rewrite E; auto).
  assert (length comp <> 0)%nat as Hc0 by (by destruct comp).
  pose proof (component_no_slash start) as Hns. fold comp in Hns. cbv zeta. rewrite Ec. cbn [foldl].
  pose proof (good_visit st comp Hg Hne Hns Hpc) as Hgv. pose proof (blen_nonneg (join st)). unfold blen in Hfit.
  remember (visit st comp) as st' eqn:Ev. unfold visit in Ev. case_bool_decide as E1.
  { subst st'. apply (IH q st out tl); try done; unfold blen; lia. }
  case_bool_decide as E2; subst st'.
  { destruct (pop_ok st out tl Hg Ho) as [Eo (tl' & Ep & Elen)]. cbv zeta in Eo, Ep. rewrite Ep. cbn [mbind option_bind]. rewrite Eo.
    assert (blen (join (removelast st)) <= blen (join st)).
    { rewrite Ho in Elen. unfold blen in *. rewrite !length_app in Elen. destruct st as [|x st' _] using rev_ind; [done|].
      rewrite removelast_last, join_snoc, length_app. lia. }
    apply (IH q (removelast st) _ tl'); try done; unfold blen in *; lia. }
  assert (u32 (u32 (u32 (blen (join st)) + u32 (blen comp)) + 1) = blen (join st) + blen comp + 1) as -> by (unfold blen in *; int_lia).
  rewrite (proj2 (Z.leb_gt outsz _)) by (unfold blen in *; lia).
  destruct (push_ok st comp out tl Ho) as (tl' & Ep & Elen); [unfold blen in *; lia|]. rewrite Ep. cbn [mbind option_bind].
  replace (blen (join st) + 1 + blen comp) with (blen (join (st ++ [comp]))).
  2: { rewrite join_snoc. unfold blen. rewrite !length_app. cbn [length]. lia. }
  apply (IH q (st ++ [comp]) _ tl'); try done; [lia| |lia].
  rewrite join_snoc. unfold blen in *. rewrite !length_app. cbn [length]. lia.
Qed.

End loop.

(** ** The buffer [tmp] *)

Lemma aset_at (s tl : list Z) x v : aset (s ++ x :: tl) (blen s) v = s ++ v :: tl.
Proof. unfold aset, blen. rewrite Nat2Z.id, insert_app_r_alt by lia. by rewrite Nat.sub_diag. Qed.

Lemma strncpy_tmp src : let s := take 511 (cstr_of src) in
  aset (strncpy_buf (zeros 512) src 511) 511 0 = s ++ 0 :: zeros (511 - blen s).
Proof.
  intros s. unfold strncpy_buf. change (Z.to_nat 511) with 511%nat. fold s.
  assert (length s <= 511)%nat as Hs by (unfold s; rewrite length_take; lia).
  set (z := zeros (511 - blen s)). assert (length z = 511 - length s)%nat as Hz by (unfold z, blen; rewrite zeros_length; lia).
  assert (s ++ 0 :: z = (s ++ z) ++ [0]) as ->.
  { rewrite <- app_assoc. f_equal. unfold z, zeros. by rewrite <- replicate_cons_app. }
  unfold put. change (Z.to_nat 0) with 0%nat. cbn [take app Nat.add].
  assert (length (s ++ z) = 511)%nat as Hl by (rewrite length_app; lia). rewrite Hl.
  assert (drop 511 (zeros 512) = [0]) as -> by done. 
  assert (511 = blen (s ++ z)) as -> by (unfold blen; lia). apply aset_at.
Qed.

Lemma aget_head (b : list Z) : (aget 0 b 0 =? 47) = bool_decide (head (cstr_of b) = Some 47).
Proof.
  destruct b as [|c b]; [done|]. change (aget 0 (c :: b) 0) with c. cbn [cstr_of].
  destruct (Z.eqb_spec c 47) as [->|Hc]; [done|]. symmetry. apply bool_decide_eq_false_2.
  destruct (c =? 0); cbn [head]; congruence.
Qed.

Lemma aget_last (s b : list Z) : (blen s =? 0) || negb (aget 0 (s ++ b) (blen s - 1) =? 47) = bool_decide (last s <> Some 47).
Proof.
  destruct s as [|x s _] using rev_ind; [done|]. rewrite last_snoc. assert (blen (s ++ [x]) = blen s + 1) as E.
  { unfold blen. rewrite length_app. cbn [length]. lia. }
  rewrite E, (proj2 (Z.eqb_neq _ 0)) by (pose proof (blen_nonneg s); lia). cbn [orb]. replace (blen s + 1 - 1) with (blen s) by lia.
  rewrite <- app_assoc, aget_app_r, Z.sub_diag by lia. change (aget 0 ([x] ++ b) 0) with x.
  destruct (Z.eqb_spec x 47) as [->|Hx]; symmetry; [by apply bool_decide_eq_false_2; intros []|by apply bool_decide_eq_true_2; intros [= ->]].
Qed.

Lemma plain_take n s : plain s -> plain (take n s).
Proof. apply Forall_take. Qed.

(** [strncat] behind a string that leaves room for it. *)
Lemma strncat_room s tl src n : plain s -> 0 <= n -> blen s + n < blen (s ++ 0 :: tl) ->
  cstr_of (strncat_buf (s ++ 0 :: tl) src n) = s ++ take (Z.to_nat n) (cstr_of src).
Proof.
  intros Hs Hn Hfit. unfold strncat_buf. rewrite cstr_of_app by done. unfold put.
  replace (Z.to_nat (blen s)) with (length s) by (unfold blen; lia). rewrite take_app_length.
  rewrite <- app_assoc, app_assoc. apply cstr_of_app. apply Forall_app. split; [done|]. apply plain_take, cstr_of_plain.
Qed.

Lemma resolve_tmp_correct cwd path : cstr_of (resolve_tmp cwd path) = full_path (cstr_of cwd) (cstr_of path).
Proof.
  unfold resolve_tmp, full_path. rewrite aget_head. case_bool_decide as Hh.
  { rewrite strncpy_tmp, cstr_of_app; [done|]. apply plain_take, cstr_of_plain. }
  cbv zeta. rewrite strncpy_tmp. set (c := take 511 (cstr_of cwd)).
  assert (plain c) as Hc by apply plain_take, cstr_of_plain. assert (length c <= 511)%nat as Hl by (unfold c; rewrite length_take; lia).
  rewrite cstr_of_app, aget_last by done. destruct (bool_decide _ && _) eqn:E.
  - apply andb_true_iff in E as [_ Hlt%Z.ltb_lt]. rewrite aset_at.
    assert (511 - blen c = Z.succ (510 - blen c)) as -> by lia. unfold zeros. rewrite Z2Nat.inj_succ by lia. cbn [replicate].
    set (z := replicate _ 0).
    assert (length z = 510 - length c)%nat as Hz by (unfold z, blen; rewrite length_replicate; lia).
    assert (aset (c ++ 47 :: 0 :: z) (blen c + 1) 0 = (c ++ [47]) ++ 0 :: z) as ->.
    { replace (blen c + 1) with (blen (c ++ [47])) by (unfold blen; rewrite length_app; cbn [length]; lia).
      replace (c ++ 47 :: 0 :: z) with ((c ++ [47]) ++ 0 :: z) by (by rewrite <- app_assoc). apply aset_at. }
    assert (plain (c ++ [47])) by (apply Forall_app; split; [done|by constructor]). rewrite cstr_of_app by done.
    apply strncat_room; [done|..]; unfold blen in *; rewrite ?length_app; cbn [length]; lia.
  - rewrite cstr_of_app by done. apply strncat_room; [done|..]; unfold blen in *; rewrite ?length_app; cbn [length]; rewrite ?zeros_length; lia.
Qed.

Lemma full_path_length cwd path : blen (full_path cwd path) <= 511.
Proof.
  unfold full_path. case_bool_decide; [unfold blen; rewrite length_take; lia|]. cbv zeta.
  set (c := if bool_decide (last (take 511 cwd) <> Some 47) && (blen (take 511 cwd) <? 511) then take 511 cwd ++ [47] else take 511 cwd).
  assert (blen c <= 511) as Hc.
  { unfold c. destruct (_ && _) eqn:E; [|unfold blen; rewrite length_take; lia].
    apply andb_true_iff in E as [_ Hlt%Z.ltb_lt]. unfold blen in *. rewrite length_app. cbn [length]. lia. }
  unfold blen in *. rewrite length_app, length_take. lia.
Qed.

Lemma full_path_head cwd path : head cwd = Some 47 -> head (full_path cwd path) = Some 47.
Proof.
  intros Hc. unfold full_path. case_bool_decide as Hp.
  - destruct path; [done|]. exact Hp.
  - destruct cwd as [|x cwd]; [done|]. cbv zeta. change (take 511 (x :: cwd)) with (x :: take 510 cwd).
    destruct (_ && _); exact Hc.
Qed.

Lemma full_path_plain cwd path : plain cwd -> plain path -> plain (full_path cwd path).
Proof.
  intros Hc Hp. unfold full_path. case_bool_decide; [by apply plain_take|]. cbv zeta.
  apply Forall_app. split; [|by apply plain_take]. destruct (_ && _); [|by apply plain_take].
  apply Forall_app. split; [by apply plain_take|by constructor].
Qed.

(** ** Normal forms *)

Definition proper (c : list Z) : Prop := c <> [] /\ Forall (fun x => x <> 47) c /\ plain c /\ c <> [46] /\ c <> [46; 46].
(** An absolute path without empty, dot and dot-dot components. *)
Definition normal (p : list Z) : Prop := exists st, p = print st /\ Forall proper st.

Lemma visit_proper cs st : Forall proper st -> Forall (fun c => c <> [] /\ Forall (fun x => x <> 47) c /\ plain c) cs -> Forall proper (foldl visit st cs).
Proof.
  intros Hst Hcs. revert st Hst. induction Hcs as [|c cs (H1 & H2 & H3) Hcs IH]; intros st Hst; [done|]. cbn [foldl]. apply IH. unfold visit.
  case_bool_decide; [done|]. case_bool_decide; [|apply Forall_app; split; [done|by repeat constructor]].
  destruct st as [|x st' _] using rev_ind; [done|]. rewrite removelast_last. by apply Forall_app in Hst as [].
Qed.

Lemma pieces_good p : plain p -> Forall (fun c => Forall (fun x => x <> 47) c /\ plain c) (pieces p).
Proof.
  induction 1 as [|c p Hc Hp IH]; cbn [pieces]; [by repeat constructor|]. destruct (Z.eqb_spec c 47); [by repeat constructor|].
  destruct IH as [|x xs [Hx1 Hx2] Hxs]; repeat constructor; done.
Qed.

Lemma comps_good p : plain p -> good (comps p).
Proof.
  intros Hp. pose proof (pieces_good p Hp) as H. unfold comps, good. induction H as [|c l [H1 H2] Hl IH]; [constructor|].
  cbn [List.filter]. case_bool_decide; cbn [negb]; [done|]. constructor; done.
Qed.

Lemma canon_normal p : plain p -> normal (canon p).
Proof. intros Hp. eexists. split; [done|]. apply visit_proper; [constructor|by apply comps_good]. Qed.

Lemma component_app c q : Forall (fun x => x <> 47) c -> q = [] \/ head q = Some 47 -> Ext2.component (c ++ q) = c.
Proof.
  intros Hc Hq. induction Hc as [|x c Hx Hc IH]; cbn [Ext2.component app].
  - destruct Hq as [->|Hq]; [done|]. destruct q as [|y q]; [done|]. cbn [head] in Hq. by injection Hq as ->.
  - by rewrite (proj2 (Z.eqb_neq x 47)), IH.
Qed.

Lemma comps_join st : good st -> comps (join st) = st.
Proof.
  induction 1 as [|c st (H1 & H2 & H3) Hst IH]; [done|]. change (join (c :: st)) with (47 :: c ++ join st). rewrite comps_slash.
  assert (join st = [] \/ head (join st) = Some 47) as Hj by (destruct st; [by left|by right]).
  pose proof (component_app c (join st) H2 Hj) as E. rewrite comps_component; rewrite E; [|done].
  by rewrite drop_app_length, IH.
Qed.

Lemma visit_all st cs : Forall proper cs -> foldl visit st cs = st ++ cs.
Proof.
  intros H. revert st. induction H as [|c cs (_ & _ & _ & H1 & H2) Hcs IH]; intros st; [by rewrite app_nil_r|]. cbn [foldl].
  unfold visit at 2. rewrite !bool_decide_eq_false_2 by done. by rewrite IH, <- app_assoc.
Qed.

Lemma canon_print st : Forall proper st -> canon (print st) = print st.
Proof.
  intros H. unfold canon. f_equal. unfold print. case_bool_decide as E; [by subst|].
  rewrite comps_join by (eapply Forall_impl; [exact H|]; intros c (? & ? & ? & _); done). by rewrite visit_all.
Qed.

(** Resolution is idempotent. *)
Lemma canon_idem p : normal p -> canon p = p.
Proof. intros (st & -> & H). by apply canon_print. Qed.

Lemma print_good st : Forall proper st -> good st.
Proof. intros H. eapply Forall_impl; [exact H|]. intros c (? & ? & ? & _). done. Qed.

Lemma print_plain st : Forall proper st -> plain (print st).
Proof.
  intros H. unfold print. case_bool_decide; [by constructor|]. apply join_plain. by apply print_good.
Qed.

(** ** Resolution *)

Lemma vfs_resolve_spec cwd path out : head (cstr_of cwd) = Some 47 -> blen out = 512 ->
  exists out', vfs_resolve cwd path out = Some out' /\ blen out' = 512 /\
    cstr_of out' = canon (full_path (cstr_of cwd) (cstr_of path)) /\ normal (cstr_of out').
Proof.
  intros Hc Hl. unfold vfs_resolve. rewrite resolve_tmp_correct. set (p := full_path _ _).
  assert (plain p) as Hp by (apply full_path_plain; apply cstr_of_plain). pose proof (full_path_length (cstr_of cwd) (cstr_of path)) as Hpl.
  fold p in Hpl. assert (head p = Some 47) as Hh by by apply full_path_head.
  destruct out as [|x out]; [done|]. change 0 with (blen []) at 1. rewrite (poke_at _ [] 0 x out) by done. cbn [app mbind option_bind].
  assert (blen (0 :: out) = 512) as Hl' by exact Hl. rewrite Hl'.
  destruct (norm_loop_correct 512 ltac:(lia) (S (length p)) p [] (0 :: out) out) as (tl & E & El & Hg); try done; [constructor|auto|unfold join, blen in *; simpl; lia|lia|].
  change (blen (join [])) with 0 in E. rewrite E. cbn [mbind option_bind]. set (st := foldl visit [] (comps p)) in *.
  pose proof (canon_normal p Hp) as Hn. unfold canon in *. fold st in Hn |- *. unfold print in *.
  destruct st as [|c st'] eqn:Est.
  - cbn [join fmap list_fmap concat app] in *. rewrite bool_decide_eq_true_2 in * by done. change (aget 0 (0 :: tl) 0 =? 0) with true. cbv iota.
    destruct tl as [|y tl]; [done|]. change 0 with (blen []) at 1. rewrite (poke_at _ [] 47 0 (y :: tl)) by done. cbn [app mbind option_bind].
    rewrite (poke_at _ [47] 0 y tl) by done. eexists. split; [done|]. done.
  - rewrite bool_decide_eq_false_2 in * by done. change (aget 0 (join (c :: st') ++ 0 :: tl) 0 =? 0) with false. cbv iota.
    eexists. split; [done|]. split; [done|]. rewrite cstr_of_app by (by apply join_plain). done.
Qed.

(** The name that a path stands for: an absolute path itself, a relative one behind the working directory. *)
Definition joined (cwd path : list Z) : list Z :=
  if bool_decide (head path = Some 47) then path
  else (if bool_decide (last cwd = Some 47) then cwd else cwd ++ [47]) ++ path.

Lemma full_path_joined cwd path : full_path cwd path = take 511 (joined cwd path).
Proof.
  unfold full_path, joined. destruct (bool_decide (head path = Some 47)); [done|]. destruct (Z.ltb_spec (blen (take 511 cwd)) 511) as [Hl|Hl].
  - assert (take 511 cwd = cwd) as E0 by (apply take_ge; unfold blen in Hl; rewrite length_take in Hl; lia). rewrite E0 in *. rewrite andb_true_r.
    assert (forall c, blen c <= 511 -> c ++ take (Z.to_nat (511 - blen c)) path = take 511 (c ++ path)) as Ht.
    { intros c Hc. rewrite take_app, (take_ge c) by (unfold blen in Hc; lia). do 2 f_equal. unfold blen in *. lia. }
    destruct (bool_decide_reflect (last cwd = Some 47)) as [E|E].
    + rewrite bool_decide_eq_false_2 by (intros H; by apply H). apply Ht. lia.
    + rewrite bool_decide_eq_true_2 by done. apply Ht. rewrite blen_app. change (blen [47]) with 1. lia.
  - rewrite andb_false_r. unfold blen in *. rewrite length_take in Hl |- *. replace (Z.to_nat _) with 0%nat by lia. rewrite take_0, app_nil_r.
    destruct (bool_decide _); by rewrite <- ?app_assoc, take_app_le by lia.
Qed.

(** C17: whatever the path, [vfs_resolve] stays inside its buffers and ends with a name in normal form, that of the
    first 511 bytes of the path, which is taken against the absolute working directory when it is relative. For a path
    that has with the working directory at most 511 bytes, this is the normal form of the path: the components in
    order, with each empty and dot component left out and each dot-dot component cancelling the one before it, and
    the overflow guard of the loop is never taken. A longer one is cut, see [long_path_is_cut]. *)
Theorem vfs_resolve_correct cwd path out : head (cstr_of cwd) = Some 47 -> blen out = 512 ->
  let name := joined (cstr_of cwd) (cstr_of path) in
  exists out', vfs_resolve cwd path out = Some out' /\ blen out' = 512 /\ normal (cstr_of out') /\
    cstr_of out' = canon (take 511 name) /\ (blen name <= 511 -> cstr_of out' = canon name).
Proof.
  intros Hc Hl name. destruct (vfs_resolve_spec cwd path out Hc Hl) as (out' & E & Hl' & Hn & Hnorm). rewrite full_path_joined in Hn. fold name in Hn.
  exists out'. do 4 (split; [done|]). intros Hs. rewrite Hn, take_ge; [done|]. unfold blen in Hs. lia.
Qed.

(** A relative name that is too long is cut without an error: from a directory with a name of 300 bytes, a name of
    250 bytes resolves to another one. *)
Example long_path_is_cut : let cwd := 47 :: replicate 300 97 in let path := replicate 250 98 in
  (cstr_of <$> vfs_resolve cwd path (zeros 512)) = Some (cwd ++ 47 :: replicate 209 98).
Proof. vm_compute. reflexivity. Qed.

(** [../b//./c] from [/h/u] is [/h/b/c]. *)
Lemma vfs_resolve_correct_witness :
  exists out', vfs_resolve [47; 104; 47; 117] [46; 46; 47; 98; 47; 47; 46; 47; 99] (zeros 512) = Some out' /\ blen out' = 512 /\
    cstr_of out' = [47; 104; 47; 98; 47; 99] /\ normal (cstr_of out').
Proof.
  destruct (vfs_resolve_correct [47; 104; 47; 117] [46; 46; 47; 98; 47; 47; 46; 47; 99] (zeros 512) eq_refl eq_refl) as (o & E & Hl & Hn & _ & Ec).
  exists o. split; [exact E|]. split; [exact Hl|]. split; [rewrite Ec by (by vm_compute); vm_compute; reflexivity|exact Hn].
Defined.

(** ** Block devices *)

(** The loop of the four [read] and [write] routines, over the driver's request for at most eight sectors. *)
Fixpoint batch_read (fuel : nat) (read_sectors : Z -> Z -> Ext2.T (list Z)) (lba count : Z) (p : list Z) : Ext2.T (list Z) :=
  match fuel with
  | O => Ext2.fault
  | S f =>
      if 0 <? count then
        let batch := if 8 <? count then 8 else u16 count in
        d ← read_sectors lba batch;
        batch_read f read_sectors (u64 (lba + batch)) (u32 (count - batch)) (p ++ d)
      else mret p
  end.
Fixpoint batch_write (fuel : nat) (write_sectors : Z -> Z -> list Z -> Ext2.T unit) (lba count : Z) (p : list Z) : Ext2.T unit :=
  match fuel with
  | O => Ext2.fault
  | S f =>
      if 0 <? count then
        let batch := if 8 <? count then 8 else u16 count in
        _ ← write_sectors lba batch (take (Z.to_nat (batch * 512)) p);
        batch_write f write_sectors (u64 (lba + batch)) (u32 (count - batch)) (drop (Z.to_nat (batch * 512)) p)
      else mret ()
  end.

Definition ahci_blkdev_read (ahci_read_sectors : Z -> Z -> Z -> Ext2.T (list Z)) (port lba count : Z) : Ext2.T (list Z) :=
  batch_read (S (Z.to_nat count)) (ahci_read_sectors port) lba count [].
Definition ahci_blkdev_write (ahci_write_sectors : Z -> Z -> Z -> list Z -> Ext2.T unit) (port lba count : Z) (buf : list Z) : Ext2.T unit :=
  batch_write (S (Z.to_nat count)) (ahci_write_sectors port) lba count buf.
Definition nvme_blkdev_read (nvme_read_sectors : Z -> Z -> Ext2.T (list Z)) (lba count : Z) : Ext2.T (list Z) :=
  batch_read (S (Z.to_nat count)) nvme_read_sectors lba count [].
Definition nvme_blkdev_write (nvme_write_sectors : Z -> Z -> list Z -> Ext2.T unit) (lba count : Z) (buf : list Z) : Ext2.T unit :=
  batch_write (S (Z.to_nat count)) nvme_write_sectors lba count buf.

(** ** State *)

Definition VFS_MAX_OPEN : Z := 16.

Record vfs_file_t := mk_file { in_use : bool; inode : Z; offset : Z }.
Definition file_zero : vfs_file_t := mk_file false 0 0.

(** What the file uses of the current process. *)
Record caller := mk_caller { c_cwd : list Z; c_euid : Z; c_egid : Z }.

(** [fsst] is the device with the cached superblock of the file system on it. *)
Record vfs := mk_vfs {
  s_root_fs : option Ext2.ext2_fs;
  fsst : Ext2.st;
  s_files : list vfs_file_t;
  s_kernel_cwd : list Z;
  proc : option caller;
}.
Definition set_root v (s : vfs) : vfs := mk_vfs v (fsst s) (s_files s) (s_kernel_cwd s) (proc s).
Definition set_fsst v (s : vfs) : vfs := mk_vfs (s_root_fs s) v (s_files s) (s_kernel_cwd s) (proc s).
Definition set_files v (s : vfs) : vfs := mk_vfs (s_root_fs s) (fsst s) v (s_kernel_cwd s) (proc s).

Definition cwd (s : vfs) : list Z := match proc s with Some p => c_cwd p | None => s_kernel_cwd s end.
Definition set_cwd v (s : vfs) : vfs :=
  match proc s with
  | Some p => mk_vfs (s_root_fs s) (fsst s) (s_files s) (s_kernel_cwd s) (Some (mk_caller v (c_euid p) (c_egid p)))
  | None => mk_vfs (s_root_fs s) (fsst s) (s_files s) v None
  end.
Definition my_euid (s : vfs) : Z := match proc s with Some p => c_euid p | None => 0 end.
Definition my_egid (s : vfs) : Z := match proc s with Some p => c_egid p | None => 0 end.

Definition file_at (s : vfs) (fd : Z) : vfs_file_t := aget file_zero (s_files s) fd.
Definition bad_fd (s : vfs) (fd : Z) : bool := (fd <? 0) || (VFS_MAX_OPEN <=? fd) || negb (in_use (file_at s fd)).

Definition FS_FAULT : string := "fault in the file system".

(** A request to the device; [None] when it fails. *)
Definition on_dev {A} (m : Ext2.T A) : K vfs (option A) := fun s =>
  match m (fsst s) with
  | (Ext2.Ok a, e) => Ok (Some a, set_fsst e s)
  | (Ext2.Err, e) => Ok (None, set_fsst e s)
  | (Ext2.Fault, _) => Panic FS_FAULT
  end.
(** The same on the mounted file system; a use of the NULL [s_root_fs] faults. *)
Definition on_fs {A} (m : Ext2.ext2_fs -> Ext2.T A) : K vfs (option A) := fun s =>
  match s_root_fs s with Some fs => on_dev (m fs) s | None => Panic FS_FAULT end.

Definition mounted : K vfs bool := gets (fun s => bool_decide (is_Some (s_root_fs s))).

(** [vfs_resolve(path, abuf, sizeof(abuf))]: the string it leaves in [abuf]. *)
Definition resolve (path : list Z) : K vfs (list Z) := fun s =>
  match vfs_resolve (cwd s) path (zeros 512) with
  | Some out => Ok (cstr_of out, s)
  | None => Panic FS_FAULT
  end.

(** [if (!s_root_fs) return dflt; path = vfs_resolve(...); ...] *)
Definition with_path {A} (dflt : A) (path : list Z) (k : list Z -> K vfs A) : K vfs A :=
  m ← mounted;
  if negb m then mret dflt else p ← resolve path; k p.

Definition ok_code {A} (r : option A) : Z := match r with Some _ => 0 | None => -1 end.

Section oracle.
Context (ok : nat -> bool).

(** [disk] and [ns] are the results of [ahci_first_disk] and [nvme_first_ns]. *)
Definition vfs_init (disk ns : Z) : K vfs bool :=
  if (disk <? 0) && (ns <? 0) then mret false
  else
    parts ← on_dev (Gpt.gpt_read ok 4);
    match parts with
    | Some (p :: _) =>
        fs ← on_dev (Ext2.ext2_mount ok (Gpt.first_lba p));
        _ ← modify (set_root fs);
        mret (bool_decide (is_Some fs))
    | _ => mret false
    end.

(** ** Open files *)

(** The first free slot becomes an open file; its offset is computed once a slot is found. *)
Definition open_slot (ino : Z) (start : K vfs Z) : K vfs Z :=
  s ← get_state;
  match find_slot (fun f => negb (in_use f)) (s_files s) 0 with
  | Some i =>
      off ← start;
      _ ← modify (fun s => set_files (aset (s_files s) i (mk_file true ino off)) s);
      mret i
  | None => mret (-1)
  end.

Definition vfs_open (path : list Z) : K vfs Z :=
  with_path (-1) path (fun path =>
    ino ← on_fs (fun fs => Ext2.ext2_lookup ok fs path);
    match ino with
    | None => mret (-1)
    | Some ino => open_slot ino (mret 0)
    end).

(** [f->offset += (uint64_t)n] when [n > 0]. *)
Definition advance (fd n : Z) : K vfs unit :=
  if 0 <? n then
    modify (fun s => let f := file_at s fd in
      set_files (aset (s_files s) fd (mk_file (in_use f) (inode f) (u64 (offset f + n)))) s)
  else mret ().

(** The result and the bytes stored in [buf]. *)
Definition vfs_read (fd size : Z) : K vfs (Z * list Z) :=
  s ← get_state;
  if bad_fd s fd then mret (-1, [])
  else
    let f := file_at s fd in
    r ← on_fs (fun fs => Ext2.ext2_read ok fs (inode f) (offset f) size);
    let '(n, out) := default (-1, []) r in
    _ ← advance fd n; mret (n, out).

Definition vfs_write (fd : Z) (buf : list Z) : K vfs Z :=
  s ← get_state;
  if bad_fd s fd then mret (-1)
  else
    let f := file_at s fd in
    r ← on_fs (fun fs => Ext2.ext2_write ok fs (inode f) (offset f) buf);
    let n := default (-1) r in
    _ ← advance fd n; mret n.

Definition vfs_close (fd : Z) : K vfs unit :=
  if (fd <? 0) || (VFS_MAX_OPEN <=? fd) then mret ()
  else modify (fun s => let f := file_at s fd in set_files (aset (s_files s) fd (mk_file false (inode f) (offset f))) s).

Definition vfs_open_ex (path : list Z) (flags : Z) : K vfs Z :=
  with_path (-1) path (fun path =>
    found ← on_fs (fun fs => Ext2.ext2_lookup ok fs path);
    ino ← match found with
          | None =>
              if Z.land flags 0x40 =? 0 then mret 0
              else s ← get_state; r ← on_fs (fun fs => Ext2.ext2_create ok fs path (my_euid s) (my_egid s)); mret (default 0 r)
          | Some ino =>
              _ ← (if negb (Z.land flags 0x200 =? 0) then _ ← on_fs (fun fs => Ext2.ext2_truncate ok fs ino); mret () else mret ());
              mret ino
          end;
    if bool_decide (found = None) && (ino =? 0) then mret (-1)
    else
      open_slot ino (if negb (Z.land flags 0x400 =? 0)
                     then r ← on_fs (fun fs => Ext2.ext2_file_size ok fs ino); mret (default 0 r) else mret 0)).

(** ** Names *)

Definition vfs_file_size (path : list Z) : K vfs Z :=
  with_path UINT64_MAX path (fun path =>
    ino ← on_fs (fun fs => Ext2.ext2_lookup ok fs path);
    match ino with
    | None => mret UINT64_MAX
    | Some ino => r ← on_fs (fun fs => Ext2.ext2_file_size ok fs ino); mret (default 0 r)
    end).

(** The result and the bytes stored in [buf]. *)
Definition vfs_listdir (path : list Z) (bufsz flags : Z) : K vfs (Z * list Z) :=
  with_path (0, []) path (fun path =>
    ino ← on_fs (fun fs => Ext2.ext2_lookup ok fs path);
    match ino with
    | None => mret (0, [])
    | Some ino => r ← on_fs (fun fs => Ext2.ext2_list_dir ok fs ino bufsz flags); mret (default (0, []) r)
    end).

Definition vfs_creat (path : list Z) : K vfs Z :=
  with_path (-1) path (fun path =>
    s ← get_state; r ← on_fs (fun fs => Ext2.ext2_create ok fs path (my_euid s) (my_egid s)); mret (ok_code r)).

Definition vfs_mkdir (path : list Z) : K vfs Z :=
  with_path (-1) path (fun path =>
    s ← get_state; r ← on_fs (fun fs => Ext2.ext2_mkdir ok fs path (my_euid s) (my_egid s)); mret (ok_code r)).

Definition vfs_unlink (path : list Z) : K vfs Z :=
  with_path (-1) path (fun path => r ← on_fs (fun fs => Ext2.ext2_unlink ok fs path); mret (ok_code r)).

Definition vfs_rename (old_path new_path : list Z) : K vfs Z :=
  m ← mounted;
  if negb m then mret (-1) else
  oldbuf ← resolve old_path;
  newbuf ← resolve new_path;
  r ← on_fs (fun fs => Ext2.ext2_rename ok fs oldbuf newbuf); mret (ok_code r).

(** ** The working directory *)

Definition vfs_chdir (path : list Z) : K vfs Z :=
  with_path (-1) path (fun abuf =>
    ino ← on_fs (fun fs => Ext2.ext2_lookup ok fs abuf);
    match ino with
    | None => mret (-1)
    | Some _ => _ ← modify (fun s => set_cwd (aset (strncpy_buf (cwd s) abuf 255) 255 0) s); mret 0
    end).

(** The result and the buffer after it; its size is the buffer's length. *)
Definition vfs_getcwd (buf : list Z) : K vfs (Z * list Z) :=
  let size := blen buf in
  if size =? 0 then mret (-1, buf)
  else s ← get_state; mret (0, aset (strncpy_buf buf (cwd s) (size - 1)) (size - 1) 0).

(** ** Metadata *)

(** [None] is the result -1. *)
Definition vfs_file_stat (path : list Z) : K vfs (option (Z * Z * Z)) :=
  with_path None path (fun path =>
    ino ← on_fs (fun fs => Ext2.ext2_lookup ok fs path);
    match ino with None => mret None | Some ino => on_fs (fun fs => Ext2.ext2_inode_stat ok fs ino) end).

Definition vfs_stat (path : list Z) : K vfs (option Ext2.ext2_stat_t) :=
  with_path None path (fun path =>
    ino ← on_fs (fun fs => Ext2.ext2_lookup ok fs path);
    match ino with None => mret None | Some ino => on_fs (fun fs => Ext2.ext2_stat_full ok fs ino) end).

Definition vfs_chown (path : list Z) (uid gid : Z) : K vfs Z :=
  with_path (-1) path (fun path =>
    ino ← on_fs (fun fs => Ext2.ext2_lookup ok fs path);
    match ino with
    | None => mret (-1)
    | Some ino => r ← on_fs (fun fs => Ext2.ext2_inode_chown ok fs ino uid gid); mret (ok_code r)
    end).

Definition vfs_chmod (path : list Z) (mode : Z) : K vfs Z :=
  with_path (-1) path (fun path => r ← on_fs (fun fs => Ext2.ext2_chmod ok fs path mode); mret (ok_code r)).

Definition vfs_disk_stats : K vfs (Z * Z) :=
  m ← mounted;
  if negb m then mret (0, 0)
  else r ← on_fs (fun fs => Ext2.ext2_disk_stats fs); mret (default (0, 0) r).

End oracle.

End Vfs.
