(* ===== verification/VfsSafe.v ===== *)
(** * Safety of the virtual file system

    The entry points of [Vfs] on any device contents and under any failures of the device and the allocator.
    [vfs_wf] is the invariant of the statics: a table of [VFS_MAX_OPEN] files, open only while a file system is
    mounted, and absolute working directories in their buffers. [keeps] is what an entry point leaves of the
    state. The theorem covers every entry point and every argument whose resolved path has at most 256 bytes; [SysBugs]
    shows what a longer one does. *)

From S2P Require Import Prelude Bytes CString Ext2Dir Ext2 Ext2Safe Gpt Vfs.
Import CString Ext2Safe Vfs.

Module VfsSafe.

Section forall_bytes.
Context (P : Z -> Prop) (H47 : P 47).

Lemma pieces_forall p : Forall P p -> Forall (Forall P) (pieces p).
Proof.
  induction 1 as [|c p Hc Hp IH]; cbn [pieces]; [by repeat constructor|]. destruct (c =? 47); [by repeat constructor|].
  destruct IH; repeat constructor; done.
Qed.

Lemma canon_forall p : Forall P p -> Forall P (canon p).
Proof using H47.
  intros Hp. unfold canon. set (cs := comps p). assert (Forall (Forall P) cs) as Hcs.
  { unfold cs, comps. pose proof (pieces_forall p Hp) as H. induction H; cbn [List.filter]; [constructor|]. destruct (negb _); [by constructor|done]. }
  assert (forall st, Forall (Forall P) st -> Forall (Forall P) (foldl visit st cs)) as Hf.
  { clearbody cs. induction Hcs as [|c cs' Hc Hcs' IH]; intros st Hst; [done|]. cbn [foldl]. apply IH. unfold visit.
    case_bool_decide; [done|]. case_bool_decide; [|apply Forall_app; split; [done|by constructor]].
    destruct st as [|x st _] using rev_ind; [done|]. rewrite removelast_last. by apply Forall_app in Hst as []. }
  specialize (Hf [] ltac:(constructor)). unfold print. case_bool_decide; [by constructor|]. unfold join.
  induction Hf as [|c l Hc Hl IH]; [constructor|]. cbn. constructor; [done|]. apply Forall_app. split; [done|].
  destruct l; [constructor|]. by apply IH.
Qed.

Lemma cstr_of_forall b : Forall P b -> Forall P (cstr_of b).
Proof. induction 1 as [|c b Hc Hb IH]; cbn [cstr_of]; [constructor|]. destruct (c =? 0); by constructor. Qed.

Lemma full_path_forall c p : Forall P c -> Forall P p -> Forall P (full_path c p).
Proof using H47.
  intros Hc Hp. unfold full_path. case_bool_decide; [by apply Forall_take|]. cbv zeta. apply Forall_app. split; [|by apply Forall_take].
  destruct (_ && _); [apply Forall_app; split; [by apply Forall_take|by constructor]|by apply Forall_take].
Qed.
End forall_bytes.

(** A buffer that holds an absolute path. *)
Definition cwd_ok (b : list Z) : Prop := bytes b /\ blen b = 256 /\ head (cstr_of b) = Some 47.

(** The file system's functions take paths of at most 256 bytes. *)
Definition short (cwd path : list Z) : Prop :=
  bytes path /\ blen (canon (full_path (cstr_of cwd) (cstr_of path))) <= 256.

Section count.
Context (nb : Z).

Record vfs_wf (s : vfs) : Prop := {
  vw_files : Z.of_nat (length (s_files s)) = VFS_MAX_OPEN;
  vw_fs : Ext2Safe.wf nb (fsst s);
  vw_root : forall fs, s_root_fs s = Some fs -> geom fs;
  vw_used : forall i, 0 <= i < VFS_MAX_OPEN -> in_use (file_at s i) = true -> is_Some (s_root_fs s);
  vw_offset : Forall (fun f => is_u64 (offset f)) (s_files s);
  vw_kernel_cwd : cwd_ok (s_kernel_cwd s);
  vw_cwd : forall p, proc s = Some p -> cwd_ok (c_cwd p);
}.

Lemma cwd_wf s : vfs_wf s -> cwd_ok (cwd s).
Proof. intros H. unfold cwd. destruct (proc s) as [p|] eqn:E; [by apply (vw_cwd s H)|apply H]. Qed.

(** What an entry point that does not change the working directory leaves. *)
Record keeps (s0 s : vfs) : Prop := {
  kp_wf : vfs_wf s;
  kp_root : s_root_fs s = s_root_fs s0;
  kp_proc : proc s = proc s0;
  kp_kernel_cwd : s_kernel_cwd s = s_kernel_cwd s0;
  kp_size : blen (Ext2.disk (fsst s)) = blen (Ext2.disk (fsst s0));
}.

Lemma keeps_refl s : vfs_wf s -> keeps s s.
Proof. by split. Qed.

Lemma keeps_cwd s0 s : keeps s0 s -> cwd s = cwd s0.
Proof. intros []. unfold cwd. by destruct (proc s), (proc s0); simplify_eq. Qed.

(** ** Rules *)

Section rules.
Context (s0 : vfs) (Hwf : vfs_wf s0).

Lemma keeps_fsst s e : keeps s0 s -> Ext2Safe.wf nb e -> blen (Ext2.disk e) = blen (Ext2.disk (fsst s)) -> keeps s0 (set_fsst e s).
Proof. intros [[] ? ? ? ?] He Hl. split; [by split|done..|]. cbn. congruence. Qed.

Lemma triple_dev {A} (m : Ext2.T A) (Q : A -> Prop) : safe nb m Q ->
  triple (keeps s0) (on_dev m) (fun r s => opt Q r /\ keeps s0 s).
Proof.
  intros Hm s Hk. destruct (Hm (fsst s) (vw_fs s (kp_wf _ _ Hk))) as (Hw & Hl & Hr). unfold on_dev.
  destruct (m (fsst s)) as [[a| |] e]; cbn [fst snd] in *; [| |done]; eexists _, _; (split; [done|]); split; try by apply keeps_fsst.
  all: by intros ? [= <-].
Qed.

Lemma triple_fs {A} (m : Ext2.ext2_fs -> Ext2.T A) (Q : A -> Prop) : is_Some (s_root_fs s0) -> (forall fs, geom fs -> safe nb (m fs) Q) ->
  triple (keeps s0) (on_fs m) (fun r s => opt Q r /\ keeps s0 s).
Proof using Hwf.
  intros [fs Hfs] Hm s Hk. unfold on_fs. rewrite (kp_root _ _ Hk), Hfs. apply (triple_dev (m fs)); [|done].
  apply Hm. by apply (vw_root s0 Hwf).
Qed.

Lemma triple_resolve path : short (cwd s0) path ->
  triple (keeps s0) (resolve path) (fun p s => path_ok p /\ normal p /\ keeps s0 s).
Proof using Hwf.
  intros [Hb Hs] s Hk. pose proof (cwd_wf s (kp_wf _ _ Hk)) as (Hcb & Hcl & Hch). unfold resolve.
  destruct (vfs_resolve_spec (cwd s) path (zeros 512) Hch ltac:(done)) as (out & -> & Hl & Ec & Hn).
  exists (cstr_of out), s. split; [done|]. split; [|done]. rewrite (keeps_cwd _ _ Hk) in *. rewrite Ec in *. split; [|split; [|done]].
  - apply (canon_forall is_u8); [done|]. apply (full_path_forall is_u8); [done|by apply cstr_of_forall..].
  - destruct Hn as (st & E & _). rewrite E. unfold print. case_bool_decide as H0; [by vm_compute|].
    destruct st as [|c st]; [done|]. change (join (c :: st)) with (47 :: c ++ join st). unfold blen. cbn [length]. lia.
Qed.

Lemma triple_path {A} (dflt : A) path (k : list Z -> K vfs A) (Q : A -> vfs -> Prop) :
  short (cwd s0) path -> (forall s, keeps s0 s -> Q dflt s) ->
  (forall p, path_ok p -> normal p -> is_Some (s_root_fs s0) -> triple (keeps s0) (k p) Q) -> triple (keeps s0) (with_path dflt path k) Q.
Proof using Hwf.
  intros Hs Hd Hk. unfold with_path. eapply triple_bind.
  - apply triple_gets. intros s H. instantiate (1 := fun b s => (b = true -> is_Some (s_root_fs s0)) /\ keeps s0 s).
    split; [|done]. intros Hm%bool_decide_eq_true. by rewrite <- (kp_root _ _ H).
  - intros [|]; cbn [negb].
    + intros s [Hm H]. revert s H. change (triple (keeps s0) (p ← resolve path; k p) Q).
      eapply triple_bind; [by apply triple_resolve|]. intros p s (Hp & Hn & H). by apply (Hk p Hp Hn (Hm eq_refl)).
    + apply triple_ret. by intros s [_ H]; apply Hd.
Qed.

(** A change of the table of open files. *)
Lemma keeps_files s i f : keeps s0 s -> (in_use f = true -> is_Some (s_root_fs s0)) -> is_u64 (offset f) ->
  keeps s0 (set_files (aset (s_files s) i f) s).
Proof.
  intros [Hw Hr Hp Hkc Hs] Hf Ho. split; try done. destruct Hw as [Hl Hfs Hg Hu Hoff Hc Hpc]. split; try done; cbn.
  - by rewrite aset_length.
  - intros j Hj Hin. destruct (decide (Z.to_nat i = Z.to_nat j)) as [E|Hne].
    + rewrite Hr. apply Hf. unfold file_at, aget, aset in Hin. cbn in Hin. unfold VFS_MAX_OPEN in *.
      rewrite E, nth_lookup, list_lookup_insert_eq in Hin by lia. exact Hin.
    + apply (Hu j Hj). unfold file_at, aget, aset in *. cbn in Hin. rewrite nth_lookup, list_lookup_insert_ne in Hin by done. by rewrite nth_lookup.
  - by apply Forall_aset.
Qed.

Lemma file_offset s i : vfs_wf s -> is_u64 (offset (file_at s i)).
Proof. intros Hw. apply (Forall_aget_d (fun f => is_u64 (offset f))); [apply Hw|by vm_compute]. Qed.

End rules.

(** ** Entry points *)

Section oracle.
Context (ok : nat -> bool).

(** A slot of the table that is open after the call, or -1. *)
Definition fd_result (s0 : vfs) (fd : Z) (s : vfs) : Prop :=
  keeps s0 s /\ (fd = -1 \/ 0 <= fd < VFS_MAX_OPEN /\ in_use (file_at s fd) = true).

Section at_state.
Context (s0 : vfs) (Hwf : vfs_wf s0).

Lemma triple_keep {A} (a : A) : triple (keeps s0) (mret a) (fun _ => keeps s0).
Proof. by apply triple_ret. Qed.

(** A call into the file system, and what follows it. *)
Lemma triple_call {A B} (m : Ext2.ext2_fs -> Ext2.T A) (Q : A -> Prop) (k : option A -> K vfs B) (R : B -> vfs -> Prop) :
  is_Some (s_root_fs s0) -> (forall fs, geom fs -> safe nb (m fs) Q) -> (forall r, opt Q r -> triple (keeps s0) (k r) R) ->
  triple (keeps s0) (on_fs m ≫= k) R.
Proof using Hwf.
  intros Hm Hs Hk. eapply triple_bind; [by apply triple_fs|]. intros r s [Hr H]. by apply (Hk r Hr).
Qed.

Lemma triple_ok_code {A} (m : Ext2.ext2_fs -> Ext2.T A) (Q : A -> Prop) :
  is_Some (s_root_fs s0) -> (forall fs, geom fs -> safe nb (m fs) Q) ->
  triple (keeps s0) (r ← on_fs m; mret (ok_code r)) (fun v s => (v = 0 \/ v = -1) /\ keeps s0 s).
Proof using Hwf.
  intros Hm Hs. eapply triple_call; [done|exact Hs|]. intros [a|] _; apply triple_ret; auto.
Qed.

Lemma triple_state {A} (f : vfs -> K vfs A) (Q : A -> vfs -> Prop) :
  (forall s, triple (keeps s0) (f s) Q) -> triple (keeps s0) (get_state ≫= f) Q.
Proof. intros H s Hs. rewrite (K_bind_Ok _ _ s s s) by done. by apply (H s s Hs). Qed.

Lemma triple_open_slot ino start : is_Some (s_root_fs s0) -> triple (keeps s0) start (fun off s => is_u64 off /\ keeps s0 s) ->
  triple (keeps s0) (open_slot ino start) (fd_result s0).
Proof using Hwf.
  intros Hm Hst s Hs. unfold open_slot. rewrite (K_bind_Ok _ _ s s s) by done.
  destruct (find_slot _ _ _) as [i|] eqn:E.
  - apply (find_slot_Some _ file_zero) in E as (Hi & _). pose proof (vw_files s (kp_wf _ _ Hs)) as Hl. rewrite Hl in Hi.
    destruct (Hst s Hs) as (off & s1 & E1 & Hoff & H1). rewrite (K_bind_Ok _ _ _ _ _ E1). eexists i, _. split; [done|].
    assert (keeps s0 (set_files (aset (s_files s1) i (mk_file true ino off)) s1)) as Hk by by apply keeps_files.
    split; [done|]. right. split; [done|]. unfold file_at. cbn [set_files s_files]. rewrite aget_aset_eq; [done|]. by rewrite (vw_files s1 (kp_wf _ _ H1)).
  - exists (-1), s. split; [done|]. split; [done|]. by left.
Qed.

Lemma safe_vfs_open path : short (cwd s0) path -> triple (keeps s0) (vfs_open ok path) (fd_result s0).
Proof using Hwf.
  intros Hp. apply triple_path; [done|done|by intros s Hs; split; [|left]|]. intros p Hpo Hn Hm.
  eapply triple_call; [done|intros fs Hg; apply safe_lookup; [done|by apply path_len]|].
  intros [ino|] _; [|by apply triple_ret; intros s Hs; split; [|left]].
  apply triple_open_slot; [done|]. by apply triple_ret.
Qed.

Lemma safe_vfs_open_ex path flags : short (cwd s0) path -> triple (keeps s0) (vfs_open_ex ok path flags) (fd_result s0).
Proof using Hwf.
  intros Hp. apply triple_path; [done|done|by intros s Hs; split; [|left]|]. intros p Hpo Hn Hm.
  eapply triple_call; [done|intros fs Hg; apply safe_lookup; [done|by apply path_len]|]. intros found _.
  apply (triple_bind _ _ _ (fun _ => keeps s0)).
  { destruct found as [ino|].
    - apply (triple_bind _ _ _ (fun _ => keeps s0)); [|intros; apply triple_keep]. destruct (negb _); [|apply triple_keep].
      eapply triple_call; [done|intros fs Hg; by apply safe_truncate|]. intros; apply triple_keep.
    - destruct (_ =? 0); [apply triple_keep|]. apply triple_state. intros s1.
      eapply triple_call; [done|intros fs Hg; by apply safe_create|]. intros; apply triple_keep. }
  intros ino. destruct (_ && _); [by apply triple_ret; intros s Hs; split; [|left]|]. apply triple_open_slot; [done|].
  destruct (negb _); [|by apply triple_ret].
  eapply triple_call; [done|intros fs Hg; by apply safe_file_size|]. intros r Hr. apply triple_ret. intros s Hs. split; [|done].
  destruct r as [v|]; cbn; [specialize (Hr v eq_refl); cbv beta in Hr; int_lia|by vm_compute].
Qed.

Lemma triple_advance fd n : triple (keeps s0) (advance fd n) (fun _ => keeps s0).
Proof.
  unfold advance. destruct (0 <? n); [|apply triple_keep]. apply triple_modify. intros s Hs.
  apply keeps_files; [done| |cbn; int_lia]. cbn. rewrite <- (kp_root _ _ Hs). intros Hin.
  destruct (decide (Z.to_nat fd < length (s_files s))%nat) as [Hlt|Hge].
  - apply (vw_used s (kp_wf _ _ Hs) (Z.of_nat (Z.to_nat fd))); [pose proof (vw_files s (kp_wf _ _ Hs)); lia|].
    unfold file_at, aget in *. by rewrite Nat2Z.id.
  - unfold file_at, aget in Hin. by rewrite nth_overflow in Hin by lia.
Qed.

Lemma bad_fd_false s fd : bad_fd s fd = false -> 0 <= fd < VFS_MAX_OPEN /\ in_use (file_at s fd) = true.
Proof. unfold bad_fd. rewrite !orb_false_iff, negb_false_iff, Z.ltb_ge, Z.leb_gt. tauto. Qed.

Lemma safe_vfs_read fd size : 0 <= size ->
  triple (keeps s0) (vfs_read ok fd size) (fun '(n, out) s => (bytes out /\ blen out <= size /\ (n = -1 \/ n = blen out)) /\ keeps s0 s).
Proof using Hwf.
  intros Hsz s Hs. unfold vfs_read. rewrite (K_bind_Ok _ _ s s s) by done. revert s Hs.
  assert (bytes [] /\ blen [] <= size /\ (-1 = -1 \/ -1 = blen [])) as H0 by (split; [constructor|split; [unfold blen; simpl; lia|by left]]).
  intros s Hs. destruct (bad_fd s fd) eqn:Eb; [by exists (-1, []), s|]. apply bad_fd_false in Eb as [Hfd Hin].
  pose proof (vw_used s (kp_wf _ _ Hs) fd Hfd Hin) as Hm. rewrite (kp_root _ _ Hs) in Hm.
  pose proof (file_offset s fd (kp_wf _ _ Hs)) as Hoff. revert s Hs Hin Hoff. intros s Hs _ Hoff.
  generalize dependent (file_at s fd). intros f Hoff.
  eapply (triple_call (fun fs => Ext2.ext2_read ok fs (inode f) (offset f) size)); [done|intros fs Hg; apply safe_read_bounds; [done|int_lia|done]| |done].
  intros r Hr. assert (let '(n, out) := default (-1, []) r in bytes out /\ blen out <= size /\ (n = -1 \/ n = blen out)) as Hd.
  { destruct r as [[n out]|]; [by apply Hr|done]. }
  destruct (default (-1, []) r) as [n out]. eapply triple_bind; [apply triple_advance|]. intros. by apply triple_ret.
Qed.

Lemma safe_vfs_write fd buf : bytes buf -> triple (keeps s0) (vfs_write ok fd buf) (fun n s => -1 <= n <= blen buf /\ keeps s0 s).
Proof using Hwf.
  intros Hb s Hs. unfold vfs_write. rewrite (K_bind_Ok _ _ s s s) by done.
  pose proof (blen_nonneg buf).
  destruct (bad_fd s fd) eqn:Eb; [exists (-1), s; split; [done|]; split; [lia|done]|]. apply bad_fd_false in Eb as [Hfd Hin].
  pose proof (vw_used s (kp_wf _ _ Hs) fd Hfd Hin) as Hm. rewrite (kp_root _ _ Hs) in Hm. generalize dependent (file_at s fd). intros f _.
  eapply (triple_call (fun fs => Ext2.ext2_write ok fs (inode f) (offset f) buf)); [done|intros fs Hg; by apply safe_write_bounds| |done].
  intros r Hr. assert (-1 <= default (-1) r <= blen buf) by (destruct r as [w|]; [by apply (Hr w)|cbn; lia]).
  eapply triple_bind; [apply triple_advance|]. intros. by apply triple_ret.
Qed.

Lemma safe_vfs_close fd : triple (keeps s0) (vfs_close fd) (fun _ => keeps s0).
Proof.
  unfold vfs_close. destruct (_ || _); [apply triple_keep|]. apply triple_modify. intros s Hs. apply keeps_files; [done..|].
  cbn. apply file_offset, Hs.
Qed.

(** The functions on a name: a lookup and one call. *)
Lemma triple_lookup {A} (dflt : A) path (k : Z -> K vfs A) (Q : A -> vfs -> Prop) : short (cwd s0) path ->
  (forall s, keeps s0 s -> Q dflt s) -> (forall ino, is_Some (s_root_fs s0) -> triple (keeps s0) (k ino) Q) ->
  triple (keeps s0) (with_path dflt path (fun path =>
    ino ← on_fs (fun fs => Ext2.ext2_lookup ok fs path);
    match ino with None => mret dflt | Some ino => k ino end)) Q.
Proof using Hwf.
  intros Hp Hd Hk. apply triple_path; [done..|]. intros p Hpo Hn Hm.
  eapply triple_call; [done|intros fs Hg; apply safe_lookup; [done|by apply path_len]|].
  intros [ino|] _; [by apply Hk|by apply triple_ret].
Qed.

Lemma safe_vfs_file_size path : short (cwd s0) path -> triple (keeps s0) (vfs_file_size ok path) (fun _ => keeps s0).
Proof using Hwf.
  intros Hp. apply triple_lookup; [done|done|]. intros ino Hm.
  eapply triple_call; [done|intros fs Hg; by apply safe_file_size|]. intros; apply triple_keep.
Qed.

Lemma safe_vfs_listdir path bufsz flags : short (cwd s0) path -> 0 <= bufsz <= 2 ^ 31 ->
  triple (keeps s0) (vfs_listdir ok path bufsz flags) (fun '(n, out) s => (0 <= n <= blen out /\ blen out <= bufsz /\ bytes out) /\ keeps s0 s).
Proof using Hwf.
  intros Hp Hb. assert (0 <= 0 <= blen [] /\ blen [] <= bufsz /\ bytes []) as H0.
  { unfold blen. simpl. split; [lia|split; [lia|constructor]]. }
  apply triple_lookup; [done|done|]. intros ino Hm.
  eapply triple_call; [done|intros fs Hg; by apply safe_list_dir|]. intros r Hr. apply triple_ret. intros s Hs.
  destruct r as [[n out]|]; cbn; [|done]. split; [by apply (Hr (n, out) eq_refl)|done].
Qed.

Definition code (v : Z) : Prop := v = 0 \/ v = -1.

Lemma safe_vfs_creat path : short (cwd s0) path -> triple (keeps s0) (vfs_creat ok path) (fun v s => code v /\ keeps s0 s).
Proof using Hwf.
  intros Hp. apply triple_path; [done|done|by intros; split; [right|]|]. intros p Hpo Hn Hm. apply triple_state. intros s1.
  eapply triple_ok_code; [done|]. intros fs Hg. by apply safe_create.
Qed.

Lemma safe_vfs_mkdir path : short (cwd s0) path -> triple (keeps s0) (vfs_mkdir ok path) (fun v s => code v /\ keeps s0 s).
Proof using Hwf.
  intros Hp. apply triple_path; [done|done|by intros; split; [right|]|]. intros p Hpo Hn Hm. apply triple_state. intros s1.
  eapply triple_ok_code; [done|]. intros fs Hg. by apply safe_mkdir.
Qed.

Lemma safe_vfs_unlink path : short (cwd s0) path -> triple (keeps s0) (vfs_unlink ok path) (fun v s => code v /\ keeps s0 s).
Proof using Hwf.
  intros Hp. apply triple_path; [done|done|by intros; split; [right|]|]. intros p Hpo Hn Hm.
  eapply triple_ok_code; [done|]. intros fs Hg. by apply safe_unlink.
Qed.

Lemma safe_vfs_chmod path mode : short (cwd s0) path -> triple (keeps s0) (vfs_chmod ok path mode) (fun v s => code v /\ keeps s0 s).
Proof using Hwf.
  intros Hp. apply triple_path; [done|done|by intros; split; [right|]|]. intros p Hpo Hn Hm.
  eapply triple_ok_code; [done|]. intros fs Hg. by apply safe_chmod.
Qed.

Lemma safe_vfs_chown path uid gid : short (cwd s0) path -> triple (keeps s0) (vfs_chown ok path uid gid) (fun v s => code v /\ keeps s0 s).
Proof using Hwf.
  intros Hp. apply triple_lookup; [done|by intros; split; [right|]|]. intros ino Hm.
  eapply triple_ok_code; [done|]. intros fs Hg. by apply safe_chown.
Qed.

Lemma safe_vfs_rename old new : short (cwd s0) old -> short (cwd s0) new ->
  triple (keeps s0) (vfs_rename ok old new) (fun v s => code v /\ keeps s0 s).
Proof using Hwf.
  intros Hp Hp' s Hs. unfold vfs_rename. rewrite (K_bind_Ok _ _ s (bool_decide (is_Some (s_root_fs s))) s) by done.
  rewrite (kp_root _ _ Hs). case_bool_decide as Hm; cbn [negb]; [|exists (-1), s; split; [done|]; by split; [right|]].
  destruct (triple_resolve s0 Hwf old Hp s Hs) as (p & s1 & E & Ho & _ & H1). rewrite (K_bind_Ok _ _ _ _ _ E).
  destruct (triple_resolve s0 Hwf new Hp' s1 H1) as (p' & s2 & E2 & Hn & _ & H2). rewrite (K_bind_Ok _ _ _ _ _ E2).
  eapply (triple_ok_code (fun fs => Ext2.ext2_rename ok fs p p')); [done| |done]. intros fs Hg. by apply safe_rename.
Qed.

Lemma safe_vfs_file_stat path : short (cwd s0) path -> triple (keeps s0) (vfs_file_stat ok path) (fun _ => keeps s0).
Proof using Hwf.
  intros Hp. apply triple_lookup; [done|done|]. intros ino Hm.
  eapply triple_mono; [apply (triple_fs s0 Hwf _ (fun _ => True)); [done|intros fs Hg; by apply safe_inode_stat]|done|by intros ? ? []].
Qed.

Lemma safe_vfs_stat path : short (cwd s0) path -> triple (keeps s0) (vfs_stat ok path) (fun _ => keeps s0).
Proof using Hwf.
  intros Hp. apply triple_lookup; [done|done|]. intros ino Hm.
  eapply triple_mono; [apply (triple_fs s0 Hwf _ (fun _ => True)); [done|intros fs Hg; by apply safe_stat]|done|by intros ? ? []].
Qed.

Lemma safe_vfs_disk_stats : triple (keeps s0) vfs_disk_stats (fun _ => keeps s0).
Proof using Hwf.
  intros s Hs. unfold vfs_disk_stats. rewrite (K_bind_Ok _ _ s (bool_decide (is_Some (s_root_fs s))) s) by done.
  rewrite (kp_root _ _ Hs). case_bool_decide as Hm; cbn [negb]; [|by exists (0, 0), s].
  eapply (triple_call Ext2.ext2_disk_stats (fun _ => True)); [done| |intros; apply triple_keep|done]. intros fs Hg s1 H1. done.
Qed.

(** *** The working directory *)

Lemma cstr_of_id p : plain p -> cstr_of p = p.
Proof. induction 1 as [|c p Hc Hp IH]; [done|]. cbn [cstr_of]. by rewrite (proj2 (Z.eqb_neq c 0)), IH. Qed.

Lemma strncpy_end (b p : list Z) (n : Z) : 0 <= n -> blen b = n + 1 -> plain p ->
  let s := take (Z.to_nat n) p in aset (strncpy_buf b p n) n 0 = s ++ 0 :: zeros (n - blen s).
Proof.
  intros Hn Hb Hp s. unfold strncpy_buf. rewrite (cstr_of_id p) by done. fold s. assert (length s <= Z.to_nat n)%nat as Hs by (unfold s; rewrite length_take; lia).
  set (z := zeros (n - blen s)). assert (length z = Z.to_nat n - length s)%nat as Hz by (unfold z, blen; rewrite zeros_length; lia).
  assert (s ++ 0 :: z = (s ++ z) ++ [0]) as ->.
  { rewrite <- app_assoc. f_equal. unfold z, zeros. by rewrite <- replicate_cons_app. }
  unfold put. change (Z.to_nat 0) with 0%nat. cbn [take app Nat.add].
  assert (length (s ++ z) = Z.to_nat n) as Hl by (rewrite length_app; lia). rewrite Hl.
  destruct (drop (Z.to_nat n) b) as [|y [|y' tl]] eqn:Ed; apply (f_equal length) in Ed; rewrite length_drop in Ed; unfold blen in Hb; cbn [length] in Ed; try lia.
  change (take 0 b ++ (s ++ z) ++ [y]) with ((s ++ z) ++ [y]). assert (blen (s ++ z) = n) as E by (unfold blen; lia). rewrite <- E. apply aset_at.
Qed.

Lemma chdir_buf b p : cwd_ok b -> path_ok p -> normal p ->
  let b' := aset (strncpy_buf b p 255) 255 0 in cwd_ok b' /\ cstr_of b' = take 255 p.
Proof.
  intros (_ & Hl & _) [Hb _] (st & -> & Hst) b'. pose proof (print_plain st Hst) as Hpl. unfold b'. rewrite strncpy_end by (done || lia).
  change (Z.to_nat 255) with 255%nat. set (t := take 255 (print st)). assert (plain t) as Ht by by apply plain_take. rewrite cstr_of_app by done.
  split; [|done]. split; [|split].
  - apply Forall_app. split; [by apply Forall_take|]. constructor; [done|apply zeros_bytes].
  - assert (length t <= 255)%nat by (unfold t; rewrite length_take; lia). unfold blen. rewrite length_app. cbn [length]. rewrite zeros_length. lia.
  - rewrite cstr_of_app by done. unfold t, print. case_bool_decide; [done|]. by destruct st.
Qed.

(** What [vfs_chdir] leaves. *)
Record moves (s0 s : vfs) : Prop := {
  mv_wf : vfs_wf s;
  mv_root : s_root_fs s = s_root_fs s0;
  mv_ids : (my_euid s, my_egid s) = (my_euid s0, my_egid s0);
  mv_proc : is_Some (proc s) <-> is_Some (proc s0);
  mv_size : blen (Ext2.disk (fsst s)) = blen (Ext2.disk (fsst s0));
}.

Lemma keeps_moves s : keeps s0 s -> moves s0 s.
Proof. intros [? ? Hp ? ?]. split; [done|done| | |done]; unfold my_euid, my_egid; by rewrite Hp. Qed.

Lemma moves_cwd s b : keeps s0 s -> cwd_ok b -> moves s0 (set_cwd b s).
Proof.
  intros [Hw Hr Hp Hk Hs] Hb. destruct Hw as [Hl Hfs Hg Hu Ho Hkc Hpc]. unfold set_cwd.
  destruct (proc s) as [q|] eqn:E; (split; [split; try done|done| | |done]); try (by intros ? [= <-]); unfold my_euid, my_egid; cbn; by rewrite <- Hp.
Qed.

Lemma safe_vfs_chdir path : short (cwd s0) path -> triple (keeps s0) (vfs_chdir ok path) (fun v s => code v /\ moves s0 s).
Proof using Hwf.
  intros Hp. assert (forall s, keeps s0 s -> code (-1) /\ moves s0 s) as Hf by (intros s Hs; split; [by right|by apply keeps_moves]).
  apply triple_path; [done|done|done|]. intros p Hpo Hn Hm.
  eapply triple_call; [done|intros fs Hg; apply safe_lookup; [done|by apply path_len]|].
  intros [ino|] _; [|by apply triple_ret].
  eapply triple_bind; [apply (triple_modify _ _ (fun _ => moves s0))|intros []; apply triple_ret; by intros s Hs; split; [left|]].
  intros s Hs. apply moves_cwd; [done|]. apply chdir_buf; [apply cwd_wf, Hs|done|done].
Qed.

Lemma safe_vfs_getcwd buf : bytes buf -> triple (keeps s0) (vfs_getcwd buf) (fun '(v, out) s =>
  (code v /\ blen out = blen buf /\ bytes out /\ (0 < blen buf -> v = 0 /\ cstr_of out = take (Z.to_nat (blen buf - 1)) (cstr_of (cwd s0)))) /\ keeps s0 s).
Proof using Hwf.
  intros Hb s Hs. unfold vfs_getcwd. cbv zeta. pose proof (blen_nonneg buf). destruct (Z.eqb_spec (blen buf) 0) as [E|E].
  { exists (-1, buf), s. split; [done|]. split; [|done]. split; [by right|]. split; [done|]. split; [done|lia]. }
  rewrite (K_bind_Ok _ _ s s s) by done. eexists (0, _), s. split; [done|]. split; [|done]. split; [by left|].
  destruct (cwd_wf s (kp_wf _ _ Hs)) as (Hcb & _). set (p := cstr_of (cwd s)). assert (plain p) as Hpl by apply cstr_of_plain.
  assert (strncpy_buf buf (cwd s) (blen buf - 1) = strncpy_buf buf p (blen buf - 1)) as ->.
  { unfold strncpy_buf. assert (cstr_of p = p) as ->; [|done]. by apply cstr_of_id. }
  rewrite strncpy_end by (done || lia). set (t := take _ p). assert (plain t) by by apply plain_take. rewrite cstr_of_app by done.
  assert (length t <= Z.to_nat (blen buf - 1))%nat by (unfold t; rewrite length_take; lia). split.
  { unfold blen at 1. rewrite length_app. cbn [length]. rewrite zeros_length. unfold blen in *. lia. }
  split; [apply Forall_app; split; [by apply Forall_take, cstr_of_forall|constructor; [done|apply zeros_bytes]]|].
  intros _. split; [done|]. unfold t, p. by rewrite (keeps_cwd _ _ Hs).
Qed.

End at_state.
End oracle.
End count.

End VfsSafe.
