(* ===== verification/Syscall.v ===== *)
(** * System calls

    Models [kernel/syscall/syscall.c]: the handlers and [syscall_dispatch] over the processes, the file system,
    the pipes, the network stack and the user memory of the other files. The calling thread is the one
    [sched_current] finds on the CPU [lapic_id].

    User memory is that of the calling process: [um] is what a read finds and [uw] where a write is allowed.
    The memory of a process that is being created is reached through its page tables, as the handler does after
    it has loaded their root. [serial_read_char] takes the next element of [tty_in], where 0 stands for no
    character; [tty_out] are the characters given to [serial_write_char].

    A handler that waits raises the timer vector and goes on when its thread is chosen again; [yield] is what
    the rest of the system does in between, and a wait goes on for at most [patience] rounds ([Panic BLOCKED]
    behind that). The contents of fresh heap memory are [stale]. [None] as the result of [syscall_dispatch] says
    that the call does not return. *)

From S2P Require Import Prelude Bytes CString Pmm Vmm Heap HeapPages Uaccess Cred Fd Pipe Sched Elf Process.
From S2P Require Import Net Tcp Dns Dhcp NetStack Ext2Dir Ext2 Ext2Safe Gpt Vfs.
Import CString HeapPages Uaccess Cred Fd Process.

Module Syscall.

(** ** Entry *)

Definition IA32_EFER : Z := 0xc0000080.
Definition IA32_STAR : Z := 0xc0000081.
Definition IA32_LSTAR : Z := 0xc0000082.
Definition IA32_FMASK : Z := 0xc0000084.

Definition msr_file : Type := Z -> Z.
Definition wrmsr (msr value : Z) (m : msr_file) : msr_file :=
  let lo := u32 (Z.land value 0xffffffff) in
  let hi := u32 (Z.shiftr value 32) in
  fun r => if r =? msr then Z.lor (Z.shiftl hi 32) lo else m r.
Definition rdmsr (msr : Z) (m : msr_file) : Z := m msr.

(** [entry] is the address of [syscall_entry]. *)
Definition syscall_init (entry : Z) (m : msr_file) : msr_file :=
  let m := wrmsr IA32_EFER (Z.lor (rdmsr IA32_EFER m) 1) m in
  let m := wrmsr IA32_STAR (Z.lor (Z.shiftl 0x20 48) (Z.shiftl 0x08 32)) m in
  let m := wrmsr IA32_LSTAR entry m in
  wrmsr IA32_FMASK 0x200 m.

(** ** State *)

Record kernel := mk_kernel {
  pr : procs;
  vf : Vfs.vfs;
  net : NetStack.stack;
  um : umem;
  uw : Z -> bool;
  tty_in : list Z;
  tty_out : list Z;
  power : option Z;
}.
Definition set_pr v (k : kernel) : kernel := mk_kernel v (vf k) (net k) (um k) (uw k) (tty_in k) (tty_out k) (power k).
Definition set_vf v (k : kernel) : kernel := mk_kernel (pr k) v (net k) (um k) (uw k) (tty_in k) (tty_out k) (power k).
Definition set_net v (k : kernel) : kernel := mk_kernel (pr k) (vf k) v (um k) (uw k) (tty_in k) (tty_out k) (power k).
Definition set_um v (k : kernel) : kernel := mk_kernel (pr k) (vf k) (net k) v (uw k) (tty_in k) (tty_out k) (power k).
Definition set_tty_in v (k : kernel) : kernel := mk_kernel (pr k) (vf k) (net k) (um k) (uw k) v (tty_out k) (power k).
Definition set_tty_out v (k : kernel) : kernel := mk_kernel (pr k) (vf k) (net k) (um k) (uw k) (tty_in k) v (power k).
Definition set_power v (k : kernel) : kernel := mk_kernel (pr k) (vf k) (net k) (um k) (uw k) (tty_in k) (tty_out k) (Some v).

Definition BLOCKED : string := "the thread waits".
Definition NET_FAULT : string := "fault in the network stack".
Definition USER_FAULT : string := "page fault on user memory in the kernel".

(** *** Calls into the other components *)

Definition on_procs {A} (m : K procs A) : K kernel A := fun k =>
  match m (pr k) with
  | Ok (a, p) => Ok (a, set_pr p k)
  | Panic msg => Panic msg
  end.
(** [None] while [sched_wake] waits for a thread to leave its CPU. *)
Definition on_procs_wait (f : procs -> option procs) : K kernel unit := fun k =>
  match f (pr k) with Some p => Ok (tt, set_pr p k) | None => Panic BLOCKED end.
Definition on_sched {A} (m : K Sched.sched A) : K kernel A := on_procs (Process.on_sched m).
Definition on_heap {A} (m : K (Heap.heap Vmm.vmm) A) : K kernel A := on_sched (Sched.on_heap m).
Definition on_vmm {A} (m : K Vmm.vmm A) : K kernel A := on_procs (on_space m).
Definition on_pipes {A} (f : Pipe.s_pipes -> A * Pipe.s_pipes) : K kernel A := fun k =>
  let '(a, t) := f (pipes (pr k)) in Ok (a, set_pr (set_pipes t (pr k)) k).
Definition on_net {A} (f : NetStack.stack -> A * NetStack.stack) : K kernel A := fun k =>
  let '(a, n) := f (net k) in Ok (a, set_net n k).
Definition on_net_poll {A} (f : NetStack.stack -> option (A * NetStack.stack)) : K kernel A := fun k =>
  match f (net k) with Some (a, n) => Ok (a, set_net n k) | None => Panic NET_FAULT end.

(** [copy_from_user] and the others on the caller's memory. *)
Definition from_user (src len : Z) : K kernel (bool * list Z) := gets (fun k => copy_from_user (um k) src len).
Definition to_user (dst : Z) (src : list Z) : K kernel bool := fun k =>
  let '(b, m) := copy_to_user (uw k) (um k) dst src in Ok (b, set_um m k).
(** The result and the buffer. *)
Definition string_from_user (src maxlen : Z) : K kernel (Z * list Z) := gets (fun k => strncpy_from_user (um k) src maxlen).

Definition serial_read_char : K kernel Z := fun k =>
  match tty_in k with [] => Ok (0, k) | c :: l => Ok (c, set_tty_in l k) end.
Definition serial_write (text : list Z) : K kernel unit := modify (fun k => set_tty_out (tty_out k ++ text) k).

(** [if (strncpy_from_user(path, ...) < 0) return -14;] and the rest of the handler. *)
Definition with_string {A} (efault : A) (src maxlen : Z) (f : list Z -> K kernel A) : K kernel A :=
  '(r, path) ← string_from_user src maxlen;
  if r <? 0 then mret efault else f path.

Section kernel.
Context (ok : nat -> bool).
Context (lapic_id : Z) (yield : kernel -> kernel) (patience : nat) (stale : Z -> Z -> list Z).

Definition sched_current : K kernel Z := on_sched (Sched.sched_current lapic_id).
(** 0 for NULL. *)
Definition sched_current_process : K kernel Z := on_sched (Sched.sched_current_process lapic_id).
Definition proc_at (p : Z) : K kernel process := gets (fun k => pm (pr k) p).
Definition set_proc (p : Z) (f : process -> process) : K kernel unit := on_procs (modify (upd_proc p f)).

Definition with_cwd v (p : process) : process :=
  mk_process (pid p) (p_thread p) (p_cr3 p) (fds p) (cred p) (exited p) (exit_status p) (wait_queue p) v (name p).
Definition with_cred v (p : process) : process :=
  mk_process (pid p) (p_thread p) (p_cr3 p) (fds p) v (exited p) (exit_status p) (wait_queue p) (cwd p) (name p).
Definition with_name v (p : process) : process :=
  mk_process (pid p) (p_thread p) (p_cr3 p) (fds p) (cred p) (exited p) (exit_status p) (wait_queue p) (cwd p) v.

(** An entry point of the file system: it sees the current process, and may change its working directory. *)
Definition caller_of (k : kernel) (p : Z) : option Vfs.caller :=
  if p =? 0 then None else Some (Vfs.mk_caller (cwd (pm (pr k) p)) (euid (cred (pm (pr k) p))) (egid (cred (pm (pr k) p)))).
Definition vfs_for (c : option Vfs.caller) (v : Vfs.vfs) : Vfs.vfs :=
  Vfs.mk_vfs (Vfs.s_root_fs v) (Vfs.fsst v) (Vfs.s_files v) (Vfs.s_kernel_cwd v) c.
Definition run_vfs {A} (p : Z) (m : K Vfs.vfs A) : K kernel A := fun k =>
  match m (vfs_for (caller_of k p) (vf k)) with
  | Ok (a, v) =>
      let k := set_vf (vfs_for None v) k in
      Ok (a, match Vfs.proc v with
             | Some c => set_pr (upd_proc p (with_cwd (Vfs.c_cwd c)) (pr k)) k
             | None => k
             end)
  | Panic msg => Panic msg
  end.
Definition on_vfs {A} (m : K Vfs.vfs A) : K kernel A := p ← sched_current_process; run_vfs p m.

(** [while (...) yield]: repeat [step] until it gives a result. *)
Fixpoint wait_for {A} (n : nat) (step : K kernel (option A)) : K kernel A :=
  match n with
  | O => panic BLOCKED
  | S n' =>
      r ← step;
      match r with
      | Some a => mret a
      | None => _ ← modify yield; wait_for n' step
      end
  end.

(** The process whose table [current_fds] returns, 0 for NULL. *)
Definition current_fds : K kernel Z :=
  t ← sched_current;
  if t =? 0 then mret 0 else gets (fun k => Sched.process (Sched.th (sch (pr k)) t)).
Definition table (p : Z) : K kernel fd_table_t := gets (fun k => fds (pm (pr k) p)).
Definition set_table (p : Z) (t : fd_table_t) : K kernel unit := set_proc p (set_fds t).
(** An operation of [fd.c] on the table of [p]. *)
Definition on_table {A} (p : Z) (f : fd_table_t -> A * fd_table_t) : K kernel A :=
  t ← table p; let '(a, t) := f t in _ ← set_table p t; mret a.
Definition free_fd (p fd : Z) : K kernel unit := on_table p (fun t => (tt, fd_free t fd)).

(** ** Files *)

Inductive write_sink := SINK_BAD | SINK_SERIAL | SINK_PIPE | SINK_SOCKET | SINK_FILE.

(** The sink and its index, or the error; [has_fds] is false for the NULL table. *)
Definition resolve_sink (has_fds : bool) (t : fd_table_t) (fd : Z) : Z + write_sink * Z :=
  if (fd =? 1) || (fd =? 2) then
    inr (if (fd =? 1) && has_fds && bool_decide (fd_type t 1 = FD_PIPE_WRITE) then (SINK_PIPE, fd_id t 1) else (SINK_SERIAL, -1))
  else if negb has_fds then inl (-9)
  else if bool_decide (fd_type t (s32 fd) = FD_SOCKET) then inr (SINK_SOCKET, fd_id t (s32 fd))
  else
    let vfd := fd_to_vfs t (s32 fd) in
    if vfd <? 0 then inl (-9) else inr (SINK_FILE, vfd).

(** The inner loop of the pipe sink; [Some] is a return from the handler. *)
Fixpoint pipe_put (n : nat) (idx : Z) (kbuf : list Z) (w done : Z) : K kernel (option Z) :=
  if negb (w <? blen kbuf) then mret None
  else
    match n with
    | O => panic BLOCKED
    | S n' =>
        r ← on_pipes (Pipe.pipe_write idx (drop (Z.to_nat w) kbuf));
        if r <? 0 then mret (Some (if negb (u64 (done + w) =? 0) then s64 (u64 (done + w)) else 0))
        else
          let w := u32 (w + r) in
          _ ← (if w <? blen kbuf then modify yield else mret tt);
          pipe_put n' idx kbuf w done
    end.

(** One chunk of [sys_write]. *)
Definition sink_put (sink : write_sink) (idx : Z) (kbuf : list Z) (done : Z) : K kernel (option Z) :=
  match sink with
  | SINK_SERIAL => _ ← serial_write kbuf; mret None
  | SINK_PIPE => pipe_put patience idx kbuf 0 done
  | SINK_SOCKET =>
      n ← on_net (NetStack.sock_send idx kbuf);
      mret (if n <? 0 then Some (if negb (done =? 0) then s64 done else -1) else None)
  | SINK_FILE =>
      n ← on_vfs (Vfs.vfs_write ok idx kbuf);
      mret (if n <? 0 then Some (if negb (done =? 0) then s64 done else n) else None)
  | SINK_BAD => mret (Some (-9))
  end.

(** [count - done], at most the 512 bytes of the bounce buffer. *)
Definition chunk_of (count done : Z) : Z := if 512 <? count - done then 512 else count - done.
(** Enough rounds for [count] bytes. *)
Definition chunks (count : Z) : nat := S (Z.to_nat ((count + 511) / 512)).
Definition FUEL : string := "a loop over the chunks does not end".

Fixpoint write_chunks (fuel : nat) (sink : write_sink) (idx buf_virt count done : Z) : K kernel Z :=
  match fuel with
  | O => panic FUEL
  | S f =>
      if done <? count then
        let chunk := chunk_of count done in
        '(b, kbuf) ← from_user (u64 (buf_virt + done)) chunk;
        if negb b then mret (if negb (done =? 0) then s64 done else -14)
        else
          r ← sink_put sink idx kbuf done;
          match r with
          | Some v => mret v
          | None => write_chunks f sink idx buf_virt count (done + chunk)
          end
      else mret (s64 count)
  end.

Definition sys_write (fd buf_virt count : Z) : K kernel Z :=
  if negb (user_range_ok buf_virt count) then mret (-14)
  else
    p ← current_fds;
    t ← table p;
    match resolve_sink (negb (p =? 0)) t fd with
    | inl e => mret e
    | inr (sink, idx) => write_chunks (chunks count) sink idx buf_virt count 0
    end.

(** The access the open mode asks for. *)
Definition open_access (flags : Z) : Z :=
  let rw := Z.land flags 3 in if rw =? 1 then 2 else if rw =? 2 then 6 else 4.

(** Whether the current process may not have that access to the file. *)
Definition denied (path : list Z) (access : Z) : K kernel bool :=
  cp ← sched_current_process;
  if cp =? 0 then mret false
  else
    st ← on_vfs (Vfs.vfs_file_stat ok path);
    p ← proc_at cp;
    mret (match st with
          | Some (fmode, fuid, fgid) => negb (cred_check (cred p) fuid fgid fmode access)
          | None => false
          end).

Definition sys_open (path_virt flags mode : Z) : K kernel Z :=
  with_string (-14) path_virt 512 (fun path =>
    no ← denied path (open_access flags);
    if (no : bool) then mret (-13)
    else
      vfd ← on_vfs (Vfs.vfs_open_ex ok path (s32 flags));
      if vfd <? 0 then mret (-2)
      else
        p ← current_fds;
        if p =? 0 then _ ← on_vfs (Vfs.vfs_close vfd); mret (-9)
        else
          fd ← on_table p (fun t => fd_alloc t vfd);
          if fd <? 0 then _ ← on_vfs (Vfs.vfs_close vfd); mret (-24) else mret fd).

(** The result and the characters stored. *)
Fixpoint read_line (n : nat) (count : Z) (buf : list Z) : K kernel (Z * list Z) :=
  match n with
  | O => panic BLOCKED
  | S n' =>
      if blen buf <? count then
        c ← serial_read_char;
        if c =? 0 then _ ← modify yield; read_line n' count buf
        else
          let c := if c =? 13 then 10 else c in
          if c =? 4 then mret (blen buf, buf)
          else
            let buf := buf ++ [c] in
            if c =? 10 then mret (blen buf, buf) else read_line n' count buf
      else mret (blen buf, buf)
  end.
Definition sys_read_stdin (count : Z) : K kernel (Z * list Z) := read_line patience count [].

(** Store what a read returned at the user's buffer. *)
Definition give (buf_virt n : Z) (kbuf : list Z) : K kernel Z :=
  b ← to_user buf_virt (take (Z.to_nat n) kbuf);
  mret (if (b : bool) then n else -14).

(** [while ((n = pipe_read(...)) == -2) yield] and [while ((n = sock_recv(...)) == 0) yield]. *)
Definition pipe_get (idx len : Z) : K kernel (Z * list Z) :=
  wait_for patience (
    r ← on_pipes (fun t => let '(n, b, t) := Pipe.pipe_read idx len t in ((n, b), t));
    mret (if fst r =? -2 then None else Some r)).
Definition sock_get (idx len : Z) : K kernel (Z * list Z) :=
  wait_for patience (
    r ← on_net (fun s => let '(n, b, s) := NetStack.sock_recv idx len s in ((n, b), s));
    mret (if fst r =? 0 then None else Some r)).

Fixpoint read_chunks (fuel : nat) (vfd buf_virt count done : Z) : K kernel Z :=
  match fuel with
  | O => panic FUEL
  | S f =>
      if done <? count then
        let chunk := chunk_of count done in
        '(n, kbuf) ← on_vfs (Vfs.vfs_read ok vfd chunk);
        if n <=? 0 then mret (s64 done)
        else
          b ← to_user (u64 (buf_virt + done)) (take (Z.to_nat n) kbuf);
          if negb b then mret (if negb (done =? 0) then s64 done else -14)
          else if u32 n <? chunk then mret (s64 (done + n))
          else read_chunks f vfd buf_virt count (done + n)
      else mret (s64 done)
  end.

Definition sys_read (fd buf_virt count : Z) : K kernel Z :=
  if negb (user_range_ok buf_virt count) then mret (-14)
  else if count =? 0 then mret 0
  else
    p ← current_fds;
    t ← table p;
    let chunk := if 512 <? count then 512 else u32 count in
    if fd =? 0 then
      '(n, kbuf) ← (if negb (p =? 0) && bool_decide (fd_type t 0 = FD_PIPE_READ)
                    then r ← pipe_get (fd_id t 0) chunk; mret (if fst r <? 0 then (-1, []) else r)
                    else sys_read_stdin chunk);
      if n <=? 0 then mret n else give buf_virt n kbuf
    else if p =? 0 then mret (-9)
    else if bool_decide (fd_type t (s32 fd) = FD_SOCKET) then
      '(n, kbuf) ← sock_get (fd_id t (s32 fd)) chunk;
      if n <? 0 then mret 0 else give buf_virt n kbuf
    else
      let vfd := fd_to_vfs t (s32 fd) in
      if vfd <? 0 then mret (-9) else read_chunks (chunks count) vfd buf_virt count 0.

Definition sys_close (fd : Z) : K kernel Z :=
  p ← current_fds;
  if p =? 0 then mret (-9)
  else
    t ← table p;
    let fd := s32 fd in
    match fd_type t fd with
    | FD_SOCKET => _ ← on_net (fun s => (tt, NetStack.sock_close (fd_id t fd) s)); _ ← free_fd p fd; mret 0
    | FD_PIPE_READ => _ ← on_pipes (fun s => (tt, Pipe.pipe_close_read (fd_id t fd) s)); _ ← free_fd p fd; mret 0
    | FD_PIPE_WRITE => _ ← on_pipes (fun s => (tt, Pipe.pipe_close_write (fd_id t fd) s)); _ ← free_fd p fd; mret 0
    | _ =>
        let vfd := fd_to_vfs t fd in
        if vfd <? 0 then mret (-9)
        else _ ← on_vfs (Vfs.vfs_close vfd); _ ← free_fd p fd; mret 0
    end.

(** ** Processes *)

(** It ends with the thread dead, and does not return. *)
Definition sys_exit (status : Z) : K kernel unit :=
  t ← sched_current;
  p ← gets (fun k => Sched.process (Sched.th (sch (pr k)) t));
  _ ← (if p =? 0 then mret tt
       else
         _ ← on_procs (modify (fun s =>
               let '(tbl, pp) := close_all (fds (pm s p)) (pipes s) in set_pipes pp (upd_proc p (set_fds tbl) s)));
         on_procs_wait (process_mark_exited patience p (s32 (Z.land status 0xff))));
  on_sched (modify (Sched.upd_thread t (Sched.set_state Sched.THREAD_DEAD))).

(** [process_wait], with the thread's sleep in between. *)
Definition wait_exit (t target : Z) : K kernel unit :=
  wait_for patience (fun k =>
    let '(b, p) := process_wait t target (pr k) in Ok (if b then Some tt else None, set_pr p k)).

(** The loop of [sys_waitpid]. *)
Fixpoint wait_loop (n : nat) (target : Z) : K kernel unit :=
  match n with
  | O => panic BLOCKED
  | S n' =>
      p ← proc_at target;
      if exited p then mret tt
      else
        c ← serial_read_char;
        if c =? 3 then
          _ ← on_procs_wait (process_kill patience target);
          serial_write [94; 67; 10]
        else
          t ← sched_current;
          _ ← wait_exit t target;
          wait_loop n' target
  end.

Definition sys_waitpid (pid_ status_virt options : Z) : K kernel Z :=
  target ← gets (fun k => process_find (pr k) (u32 pid_));
  if target =? 0 then mret (-10)
  else
    _ ← wait_loop patience target;
    p ← proc_at target;
    _ ← (if status_virt =? 0 then mret true
         else to_user status_virt (le_bytes 4 (s32 (Z.shiftl (exit_status p) 8))));
    _ ← on_procs (process_reap target);
    mret (s64 pid_).

(** ** Process creation *)

Definition MAX_SPAWN_ARGS : Z := 16.
Definition MAX_ARG_LEN : Z := 256.

(** The strings of [arg_store], from argument [argc] on. *)
Fixpoint copy_args (n : nat) (argv_virt argc : Z) : K kernel (list (list Z)) :=
  match n with
  | O => mret []
  | S n' =>
      '(b, w) ← from_user (u64 (argv_virt + argc * 8)) 8;
      if negb b then mret []
      else
        let p := le_val w in
        if p =? 0 then mret []
        else
          '(r, arg) ← string_from_user p MAX_ARG_LEN;
          if r <? 0 then mret []
          else rest ← copy_args n' argv_virt (argc + 1); mret (arg :: rest)
  end.
Definition copy_argv (argv_virt : Z) : K kernel (list (list Z)) :=
  if negb (argv_virt =? 0) && (argv_virt <? USER_ADDR_LIMIT) then copy_args (Z.to_nat MAX_SPAWN_ARGS) argv_virt 0 else mret [].

(** A store at a user address while [root] is the root of the page tables. *)
Fixpoint child_store (root va : Z) (l : list Z) : K Vmm.vmm unit :=
  match l with
  | [] => mret tt
  | b :: l' =>
      r ← gets Vmm.ram;
      match Vmm.translate r root va with
      | None => panic USER_FAULT
      | Some pa => _ ← Elf.store_byte pa b; child_store root (u64 (va + 1)) l'
      end
  end.

(** The loop over the arguments, the last one first; the result is [sp] and [str_ptrs]. *)
Fixpoint push_strings (root : Z) (args_rev : list (list Z)) (sp : Z) (ptrs : list Z) : K Vmm.vmm (Z * list Z) :=
  match args_rev with
  | [] => mret (sp, ptrs)
  | a :: rest =>
      let str := cstr_of a ++ [0] in
      let sp := Z.land (u64 (sp - u32 (blen str))) (not64 7) in
      _ ← child_store root sp str;
      push_strings root rest sp (sp :: ptrs)
  end.

(** [sp -= 8; *(uint64_t * )sp = w;] for each of the words. *)
Fixpoint push_words (root : Z) (ws : list Z) (sp : Z) : K Vmm.vmm Z :=
  match ws with
  | [] => mret sp
  | w :: rest =>
      let sp := u64 (sp - 8) in
      _ ← child_store root sp (le_bytes 8 w);
      push_words root rest sp
  end.

(** The initial stack: strings, NULL, the pointers to the strings, the number of arguments. *)
Definition build_stack (root sp : Z) (args : list (list Z)) : K Vmm.vmm Z :=
  '(sp, str_ptrs) ← push_strings root (rev args) sp [];
  push_words root (0 :: rev str_ptrs ++ [Z.of_nat (length args)]) (Z.land sp (not64 0xf)).

Definition load_cr3 (v : Z) : K kernel unit :=
  on_sched (modify (fun s => Sched.with_hw_cr3 (aset (Sched.hw_cr3 s) lapic_id v) s)).

(** The characters behind the last slash. *)
Fixpoint basename_from (p base : list Z) : list Z :=
  match p with [] => base | c :: p' => basename_from p' (if c =? 47 then p' else base) end.
Definition basename (path : list Z) : list Z := basename_from path path.
Definition set_basename (path : list Z) (p : process) : process :=
  with_name (put (name p) 0 (take 31 (basename (cstr_of path)) ++ [0])) p.

(** Credentials of the child: those of the parent, the owner's with the setuid bit, and the saved ids. *)
Definition setuid_cred (st : option (Z * Z * Z)) (c : cred_t) : cred_t :=
  match st with
  | Some (fmode, fuid, _) =>
      if negb (Z.land fmode 0x800 =? 0)
      then mk_cred (uid c) (gid c) fuid (if fuid =? 0 then 0 else egid c) (suid c) (sgid c)
      else c
  | None => c
  end.
Definition save_ids (c : cred_t) : cred_t := mk_cred (uid c) (gid c) (euid c) (egid c) (euid c) (egid c).

(** One end of a pipe of the parent becomes descriptor [slot] of the child. *)
Definition inherit (parent child slot : Z) (ty : fd_type_t) (fd : Z) : K kernel unit :=
  if fd <? 0 then mret tt
  else
    t ← table parent;
    if bool_decide (fd_type t (s32 fd) = ty)
    then _ ← on_table child (fun c => fd_set c slot ty (fd_id t (s32 fd))); mret tt
    else mret tt.

(** The image in the buffer [buf] of [fsize] bytes after a read of [data]. *)
Definition read_image (buf fsize : Z) (data : list Z) : list Z := put (stale buf fsize) 0 data.

(** From the path to the loaded program. *)
Definition spawn_load (path : list Z) : K kernel (Z + Elf.elf_load_result_t) :=
  fsize ← on_vfs (Vfs.vfs_file_size ok path);
  if (fsize =? UINT64_MAX) || (fsize =? 0) || (4 * 1024 * 1024 <? fsize) then mret (inl (-2))
  else
    buf ← on_heap (Heap.kmalloc (u32 fsize));
    if buf =? 0 then mret (inl (-12))
    else
      vfd ← on_vfs (Vfs.vfs_open ok path);
      if vfd <? 0 then _ ← on_heap (Heap.kfree buf); mret (inl (-2))
      else
        '(_, data) ← on_vfs (Vfs.vfs_read ok vfd (u32 fsize));
        _ ← on_vfs (Vfs.vfs_close vfd);
        result ← on_vmm (Elf.elf_load (read_image buf fsize data));
        _ ← on_heap (Heap.kfree buf);
        mret (match result with None => inl (-1) | Some r => inr r end).

(** The error, or the address of the new process. *)
Definition spawn_process (path_virt argv_virt stdin_fd_parent stdout_fd_parent : Z) : K kernel (Z + Z) :=
  with_string (inl (-14)) path_virt 512 (fun path =>
    no ← denied path 1;
    if (no : bool) then mret (inl (-13))
    else
      loaded ← spawn_load path;
      match loaded with
      | inl e => mret (inl e)
      | inr result =>
          args ← copy_argv argv_virt;
          old_cr3 ← gets (fun k => Vmm.vmm_pml4_phys (Heap.back (Sched.kh (sch (pr k)))));
          _ ← load_cr3 (Elf.cr3 result);
          sp ← on_vmm (build_stack (Elf.cr3 result) (Elf.user_sp result) args);
          _ ← load_cr3 old_cr3;
          proc ← on_procs (process_create_from_result lapic_id (Elf.mk_result (Elf.entry result) sp (Elf.cr3 result)));
          if proc =? 0 then mret (inl (-1))
          else
            _ ← set_proc proc (set_basename path);
            parent ← current_fds;
            pp ← proc_at parent;
            _ ← (if parent =? 0 then mret tt else set_proc proc (with_cred (cred pp)));
            st ← on_vfs (Vfs.vfs_file_stat ok path);
            _ ← set_proc proc (fun c => with_cred (save_ids (setuid_cred st (cred c))) c);
            _ ← (if parent =? 0 then mret tt
                 else
                   _ ← inherit parent proc 0 FD_PIPE_READ stdin_fd_parent;
                   inherit parent proc 1 FD_PIPE_WRITE stdout_fd_parent);
            mret (inr proc)
      end).

Definition started (proc : Z) : K kernel Z :=
  _ ← on_procs (process_start proc);
  p ← proc_at proc; mret (pid p).

Definition sys_spawn (path_virt argv_virt stdin_fd_parent stdout_fd_parent : Z) : K kernel Z :=
  r ← spawn_process path_virt argv_virt stdin_fd_parent stdout_fd_parent;
  match r with inl e => mret e | inr proc => started proc end.

Definition sys_spawn_as (path_virt argv_virt child_uid child_gid : Z) : K kernel Z :=
  caller ← current_fds;
  c ← proc_at caller;
  if (caller =? 0) || negb (euid (cred c) =? 0) then mret (-1)
  else
    r ← spawn_process path_virt argv_virt (-1) (-1);
    match r with
    | inl e => mret e
    | inr child => _ ← set_proc child (with_cred (cred_init (u32 child_uid) (u32 child_gid))); started child
    end.

(** ** Credentials *)

Definition on_cred (f : cred_t -> bool * cred_t) : K kernel Z :=
  p ← sched_current_process;
  if p =? 0 then mret (-1)
  else
    c ← proc_at p;
    let '(b, c') := f (cred c) in
    _ ← set_proc p (with_cred c'); mret (if (b : bool) then 0 else -1).
Definition sys_setuid (v : Z) : K kernel Z := on_cred (fun c => cred_setuid c (u32 v)).
Definition sys_setgid (v : Z) : K kernel Z := on_cred (fun c => cred_setgid c (u32 v)).
Definition sys_seteuid (v : Z) : K kernel Z := on_cred (fun c => cred_seteuid c (u32 v)).
Definition sys_setegid (v : Z) : K kernel Z := on_cred (fun c => cred_setegid c (u32 v)).

(** [p ? p->field : 0] for the current process; a thread that makes a system call is never NULL. *)
Definition my_field (f : process -> Z) : K kernel Z :=
  p ← sched_current_process;
  c ← proc_at p; mret (if p =? 0 then 0 else f c).

(** ** Pipes and sockets *)

Definition sys_pipe (pipefd_virt : Z) : K kernel Z :=
  if negb (user_range_ok pipefd_virt 8) then mret (-14)
  else
    p ← current_fds;
    if p =? 0 then mret (-9)
    else
      pidx ← on_pipes Pipe.pipe_alloc;
      if pidx <? 0 then mret (-24)
      else
        rfd ← on_table p (fun t => fd_alloc_pipe t pidx FD_PIPE_READ);
        if rfd <? 0 then _ ← on_pipes (fun s => (tt, Pipe.pipe_free pidx s)); mret (-24)
        else
          wfd ← on_table p (fun t => fd_alloc_pipe t pidx FD_PIPE_WRITE);
          if wfd <? 0 then _ ← free_fd p rfd; _ ← on_pipes (fun s => (tt, Pipe.pipe_free pidx s)); mret (-24)
          else
            b ← to_user pipefd_virt (le_bytes 4 rfd ++ le_bytes 4 wfd);
            if negb b then
              _ ← free_fd p rfd; _ ← free_fd p wfd; _ ← on_pipes (fun s => (tt, Pipe.pipe_free pidx s)); mret (-14)
            else mret 0.

Definition sys_socket (domain type proto : Z) : K kernel Z :=
  p ← current_fds;
  if p =? 0 then mret (-9)
  else
    idx ← on_net NetStack.sock_alloc;
    if idx <? 0 then mret (-24)
    else
      fd ← on_table p (fun t => fd_alloc_socket t idx);
      if fd <? 0 then _ ← on_net (fun s => (tt, NetStack.sock_free idx s)); mret (-24) else mret fd.

(** The socket of a descriptor, or the error -9. *)
Definition with_socket (fd : Z) (f : Z -> K kernel Z) : K kernel Z :=
  p ← current_fds;
  if p =? 0 then mret (-9)
  else
    t ← table p;
    if negb (bool_decide (fd_type t (s32 fd) = FD_SOCKET)) then mret (-9) else f (fd_id t (s32 fd)).

Definition sizeof_sockaddr_in : Z := 16.
Definition sys_connect (fd addr_virt addrlen : Z) : K kernel Z :=
  if USER_ADDR_LIMIT <=? addr_virt then mret (-14)
  else
    with_socket fd (fun idx =>
      '(b, sa) ← from_user addr_virt sizeof_sockaddr_in;
      if negb b then mret (-14)
      else
        let sin_port := rd16 sa 2 in
        let port := u16 (Z.lor (Z.shiftr sin_port 8) (Z.shiftl sin_port 8)) in
        on_net_poll (NetStack.sock_connect idx (rd32 sa 4) port)).

Fixpoint send_chunks (fuel : nat) (idx buf_virt len done : Z) : K kernel Z :=
  match fuel with
  | O => panic FUEL
  | S f =>
      if done <? len then
        let chunk := chunk_of len done in
        '(b, kbuf) ← from_user (u64 (buf_virt + done)) chunk;
        if negb b then mret (if negb (done =? 0) then s64 done else -14)
        else
          n ← on_net (NetStack.sock_send idx kbuf);
          if n <? 0 then mret (if negb (done =? 0) then s64 done else -1)
          else if u32 n <? chunk then mret (s64 (done + u32 n))
          else send_chunks f idx buf_virt len (done + u32 n)
      else mret (s64 done)
  end.

Definition sys_send (fd buf_virt len flags : Z) : K kernel Z :=
  if negb (user_range_ok buf_virt len) then mret (-14)
  else with_socket fd (fun idx => send_chunks (chunks len) idx buf_virt len 0).

Definition sys_recv (fd buf_virt len flags : Z) : K kernel Z :=
  if negb (user_range_ok buf_virt len) then mret (-14)
  else if len =? 0 then mret 0
  else
    with_socket fd (fun idx =>
      '(n, kbuf) ← sock_get idx (if 512 <? len then 512 else u32 len);
      if n <? 0 then mret 0 else give buf_virt n kbuf).

Definition sys_dns (host_virt ip_out_virt : Z) : K kernel Z :=
  with_string (-14) host_virt 256 (fun host =>
    r ← on_net_poll (NetStack.dns_resolve (cstr_of host));
    match r with
    | None => mret (-1)
    | Some ip => b ← to_user ip_out_virt (le_bytes 4 ip); mret (if (b : bool) then 0 else -14)
    end).

(** ** Names *)

Definition sys_chown (path_virt uid_ gid_ : Z) : K kernel Z :=
  with_string (-14) path_virt 512 (fun path =>
    p ← current_fds;
    c ← proc_at p;
    if (p =? 0) || negb (euid (cred c) =? 0) then mret (-1)
    else on_vfs (Vfs.vfs_chown ok path (u32 uid_) (u32 gid_))).

Definition sys_listdir (path_virt buf_virt bufsz flags : Z) : K kernel Z :=
  with_string (-14) path_virt 512 (fun path =>
    if negb (user_range_ok buf_virt bufsz) then mret (-14)
    else if bufsz =? 0 then mret 0
    else
      kbuf ← on_heap (Heap.kmalloc (u32 bufsz));
      if kbuf =? 0 then mret (-12)
      else
        '(n, out) ← on_vfs (Vfs.vfs_listdir ok path (u32 bufsz) (u32 flags));
        b ← to_user buf_virt (take (Z.to_nat n) out);
        _ ← on_heap (Heap.kfree kbuf);
        mret (if (b : bool) then n else -14)).

(** The packed [struct stat_buf]. *)
Definition stat_buf (st : Ext2.ext2_stat_t) : list Z :=
  le_bytes 2 (Ext2.st_mode st) ++ le_bytes 2 (Ext2.st_nlink st) ++ le_bytes 4 (Ext2.st_uid st) ++
  le_bytes 4 (Ext2.st_gid st) ++ le_bytes 4 (Ext2.st_size st) ++ le_bytes 4 (Ext2.st_mtime st).

Definition sys_stat (path_virt buf_virt : Z) : K kernel Z :=
  with_string (-14) path_virt 512 (fun path =>
    r ← on_vfs (Vfs.vfs_stat ok path);
    match r with
    | None => mret (-2)
    | Some st => b ← to_user buf_virt (stat_buf st); mret (if (b : bool) then 0 else -14)
    end).

Definition sys_creat (path_virt : Z) : K kernel Z :=
  with_string (-14) path_virt 512 (fun path => on_vfs (Vfs.vfs_creat ok path)).
Definition sys_mkdir (path_virt : Z) : K kernel Z :=
  with_string (-14) path_virt 512 (fun path => on_vfs (Vfs.vfs_mkdir ok path)).
Definition sys_unlink (path_virt : Z) : K kernel Z :=
  with_string (-14) path_virt 512 (fun path => on_vfs (Vfs.vfs_unlink ok path)).
Definition sys_chdir (path_virt : Z) : K kernel Z :=
  with_string (-14) path_virt 512 (fun path => on_vfs (Vfs.vfs_chdir ok path)).
Definition sys_rename (old_virt new_virt : Z) : K kernel Z :=
  with_string (-14) old_virt 512 (fun oldp =>
    with_string (-14) new_virt 512 (fun newp => on_vfs (Vfs.vfs_rename ok oldp newp))).

Definition sys_getcwd (buf_virt size : Z) : K kernel Z :=
  if size =? 0 then mret (-1)
  else
    '(r, kbuf) ← on_vfs (Vfs.vfs_getcwd (zeros 256));
    if negb (r =? 0) then mret (-1)
    else
      let str := cstr_of kbuf ++ [0] in
      let len := u32 (blen str) in
      if size <? len then mret (-34)
      else b ← to_user buf_virt str; mret (if (b : bool) then len - 1 else -14).

Definition sys_chmod (path_virt mode : Z) : K kernel Z :=
  with_string (-14) path_virt 512 (fun path =>
    p ← sched_current_process;
    if p =? 0 then mret (-1)
    else
      st ← on_vfs (Vfs.vfs_file_stat ok path);
      c ← proc_at p;
      match st with
      | None => mret (-2)
      | Some (_, fuid, _) =>
          if negb (euid (cred c) =? 0) && negb (euid (cred c) =? fuid) then mret (-1)
          else on_vfs (Vfs.vfs_chmod ok path (u16 (Z.land mode 0xfff)))
      end).

(** ** The rest *)

Definition sys_kill (pid_ : Z) : K kernel Z :=
  caller ← sched_current_process;
  if caller =? 0 then mret (-1)
  else
    victim ← gets (fun k => process_find (pr k) (u32 pid_));
    if victim =? 0 then mret (-3)
    else
      c ← proc_at caller;
      v ← proc_at victim;
      if negb (euid (cred c) =? 0) && negb (uid (cred c) =? uid (cred v)) then mret (-1)
      else _ ← on_procs_wait (process_kill patience victim); mret 0.

Definition PS_FAULT : string := "store outside the listing buffer".
Definition sys_ps (buf_virt bufsz : Z) : K kernel Z :=
  if negb (user_range_ok buf_virt bufsz) then mret (-14)
  else if bufsz =? 0 then mret 0
  else
    kbuf ← on_heap (Heap.kmalloc (u32 bufsz));
    if kbuf =? 0 then mret (-12)
    else
      r ← gets (fun k => process_ps (stale kbuf (u32 bufsz)) (pr k));
      match r with
      | None => panic PS_FAULT
      | Some (n, out) =>
          b ← to_user buf_virt (take (Z.to_nat n) out);
          _ ← on_heap (Heap.kfree kbuf);
          mret (if (b : bool) then 0 else -14)
      end.

Definition two_words (a b : Z) : list Z := le_bytes 8 a ++ le_bytes 8 b.
Definition sys_meminfo (out_virt : Z) : K kernel Z :=
  p ← gets (fun k => Vmm.vpmm (Heap.back (Sched.kh (sch (pr k)))));
  b ← to_user out_virt (two_words (u64 (Pmm.pmm_total_pages p * 4096)) (u64 (Pmm.pmm_free_pages p * 4096)));
  mret (if (b : bool) then 0 else -14).
Definition sys_diskinfo (out_virt : Z) : K kernel Z :=
  '(total, free) ← on_vfs Vfs.vfs_disk_stats;
  b ← to_user out_virt (two_words total free);
  mret (if (b : bool) then 0 else -14).

(** [acpi_poweroff] and [acpi_reboot] do not return. *)
Definition sys_reboot (how : Z) : K kernel (option Z) :=
  p ← sched_current_process;
  c ← proc_at p;
  if (p =? 0) || negb (euid (cred c) =? 0) then mret (Some (-1))
  else _ ← modify (set_power how); mret None.

Definition sys_sleep (ms : Z) : K kernel Z :=
  _ ← on_sched (Sched.sched_sleep_ms lapic_id ms);
  _ ← modify yield; mret 0.

Definition UNKNOWN : list Z := [115; 121; 115; 99; 97; 108; 108; 58; 32; 117; 110; 107; 110; 111; 119; 110; 32; 110; 114; 61].
(** [serial_write_dec]. *)
Definition dec_digits (v : Z) : list Z := if v =? 0 then [48] else rev (digits 20 v).

Definition ret (m : K kernel Z) : K kernel (option Z) := v ← m; mret (Some v).

Definition syscall_dispatch (nr a0 a1 a2 a3 : Z) : K kernel (option Z) :=
  match nr with
  | 0 => ret (sys_read a0 a1 a2)
  | 1 => ret (sys_write a0 a1 a2)
  | 2 => ret (sys_open a0 a1 a2)
  | 3 => ret (sys_close a0)
  | 39 => ret (my_field pid)
  | 60 => _ ← sys_exit a0; mret None
  | 61 => ret (sys_waitpid a0 a1 a2)
  | 102 => ret (my_field (fun p => uid (cred p)))
  | 104 => ret (my_field (fun p => gid (cred p)))
  | 107 => ret (my_field (fun p => euid (cred p)))
  | 108 => ret (my_field (fun p => egid (cred p)))
  | 92 => ret (sys_chown a0 a1 a2)
  | 105 => ret (sys_setuid a0)
  | 106 => ret (sys_setgid a0)
  | 502 => ret (sys_seteuid a0)
  | 503 => ret (sys_setegid a0)
  | 22 => ret (sys_pipe a0)
  | 500 => ret (sys_spawn a0 a1 (s64 a2) (s64 a3))
  | 501 => ret (sys_spawn_as a0 a1 a2 a3)
  | 4 => ret (sys_stat a0 a1)
  | 600 => ret (sys_listdir a0 a1 a2 a3)
  | 601 => ret (sys_creat a0)
  | 83 => ret (sys_mkdir a0)
  | 87 => ret (sys_unlink a0)
  | 82 => ret (sys_rename a0 a1)
  | 80 => ret (sys_chdir a0)
  | 79 => ret (sys_getcwd a0 a1)
  | 41 => ret (sys_socket a0 a1 a2)
  | 42 => ret (sys_connect a0 a1 a2)
  | 44 => ret (sys_send a0 a1 a2 a3)
  | 45 => ret (sys_recv a0 a1 a2 a3)
  | 602 => ret (sys_dns a0 a1)
  | 90 => ret (sys_chmod a0 a1)
  | 35 => ret (sys_sleep a0)
  | 62 => ret (sys_kill a0)
  | 603 => ret (sys_ps a0 a1)
  | 604 => ret (sys_meminfo a0)
  | 605 => ret (sys_diskinfo a0)
  | 169 => sys_reboot a0
  | _ => _ ← serial_write (UNKNOWN ++ dec_digits nr ++ [10]); mret (Some (-38))
  end.

End kernel.

(** ** A small system

    One thread, 500, of the process at 1000, on CPU 0; the mounted file system of [Ext2] with an empty file [/a];
    the first page of user memory starts with the file's name. *)
Definition demo_proc : process :=
  mk_process 7 500 0 fd_table_init (cred_init 1000 100) false 0 0 (47 :: zeros 255) ([115; 104] ++ zeros 30).
Definition demo_sched : Sched.sched :=
  Sched.mk_sched 0 0 0 0 (500 :: replicate 63 0) (replicate 64 0) (replicate 64 0) 2
    (fun t => Sched.mk_thread 0 0 0 0 Sched.THREAD_RUNNING t false true true 0 0 0 0 0 1000)
    (fun _ => 0) (replicate 64 0) (replicate 64 0) (fresh_heap Vmm.empty_machine).
Definition demo_procs : procs := mk_procs (1000 :: replicate 63 0) 8 (fun _ => demo_proc) demo_sched (replicate 8 Pipe.pipe_zero).
Definition demo_page (a : Z) : bool := (0x1000 <=? a) && (a <? 0x2000).
Definition demo_files (fs : Ext2.st) : Vfs.vfs :=
  Vfs.mk_vfs (Some Ext2.sample_fs) fs (replicate 16 Vfs.file_zero) (47 :: zeros 255) None.
Definition demo_kernel (fs : Ext2.st) : kernel :=
  mk_kernel demo_procs (demo_files fs) (NetStack.boot Net.host_a NetStack.no_conns [])
    (fun a => if demo_page a then Some (aget 0 [47; 97] (a - 0x1000)) else None) demo_page [] [] None.

End Syscall.
