(* ===== verification/SysSafe.v ===== *)
(** * Soundness of the system calls

    [kernel_wf] is the invariant of the kernel's state under system calls of one thread: every open descriptor of
    its process refers to a slot of the table of its type, the pipes, the file system, the sockets, the heap and the
    user memory satisfy the invariants of their own files, and identifiers have their widths. The theorem is that
    every system call with any 64-bit arguments keeps it, returns a 64-bit integer and ends in no panic; the calls
    that wait may also be left waiting.

    [waitpid] and the two calls that create a process are not covered: the first frees a process that another waiter
    may have freed ([SysBugs]), the others also need the page tables and the heap at the same time. Paths are assumed
    to resolve to at most 256 bytes, the length the file system's functions are written for ([SysBugs] has a longer
    one). *)

From S2P Require Import Prelude Bytes CString Pmm Vmm Heap HeapPages Uaccess Cred Fd Pipe Sched Elf Process.
From S2P Require Import Net Tcp Dns Dhcp NetStack NetSafe Ext2Dir Ext2 Ext2Safe Gpt Vfs VfsSafe Syscall.
Import CString HeapPages Uaccess Cred Fd Process NetSafe VfsSafe Syscall.

Module SysSafe.

Definition is_s64 (z : Z) : Prop := - 2 ^ 63 <= z < 2 ^ 63.

Lemma s64_range z : is_s64 (s64 z).
Proof. unfold is_s64, s64. pose proof (Z.mod_pos_bound (z + 2 ^ 63) (2 ^ 64) ltac:(lia)). lia. Qed.
Lemma s64_small z : is_s64 z -> s64 z = z.
Proof. unfold is_s64, s64. intros. rewrite Z.mod_small by lia. lia. Qed.

(** ** What the components keep *)

(** *** Descriptors *)

Definition fd_entry_ok (e : fd_entry_t) : Prop :=
  open e = true ->
  match type e with
  | FD_NONE => False
  | FD_FILE => 0 <= id e < Vfs.VFS_MAX_OPEN
  | FD_SOCKET => 0 <= id e < NetStack.MAX_SOCKETS
  | FD_PIPE_READ | FD_PIPE_WRITE => 0 <= id e < Pipe.MAX_PIPES
  end.
Definition table_ok (t : fd_table_t) : Prop := Fd.table_wf t /\ Forall fd_entry_ok t.

Lemma table_ok_aset t i e : table_ok t -> fd_entry_ok e -> table_ok (aset t i e).
Proof. intros [Hw Hf] He. split; [unfold Fd.table_wf; by rewrite aset_length|by apply Forall_aset]. Qed.

Lemma table_ok_alloc lo t ty x : table_ok t -> slot_ok lo -> fd_entry_ok (mk_entry true ty x) ->
  table_ok (alloc_from lo t ty x).2 /\ -1 <= (alloc_from lo t ty x).1 < MAX_FDS.
Proof.
  intros Ht Hlo He. pose proof (alloc_from_spec lo t ty x (proj1 Ht) Hlo) as Hs. revert Hs. unfold alloc_from.
  destruct (find_slot _ _ _) as [i|]; cbn [fst snd]; intros [_ Hs]; (split; [by try apply table_ok_aset|]);
    unfold slot_ok in Hlo; destruct Hs as [(? & _)|(? & _)]; lia || done.
Qed.

Lemma table_ok_free t fd : table_ok t -> table_ok (fd_free t fd).
Proof. intros H. unfold fd_free. destruct (_ || _); [done|]. by apply table_ok_aset. Qed.

Lemma table_ok_entry t fd : table_ok t -> fd_entry_ok (entry t fd).
Proof. intros [_ Hf]. by apply (Forall_aget_d fd_entry_ok). Qed.

(** *** Pipes *)

Definition pipes_ok (t : Pipe.s_pipes) : Prop :=
  Z.of_nat (length t) = Pipe.MAX_PIPES /\ Forall (fun p => bytes (Pipe.buf p) /\ 0 <= Pipe.count p <= Pipe.PIPE_BUF) t.

Lemma pipes_ok_aset t i p : pipes_ok t -> bytes (Pipe.buf p) -> 0 <= Pipe.count p <= Pipe.PIPE_BUF -> pipes_ok (aset t i p).
Proof. intros [Hl Hf] Hb Hc. split; [by rewrite aset_length|]. by apply Forall_aset. Qed.

Lemma pipes_ok_get t i : pipes_ok t -> bytes (Pipe.buf (Pipe.get t i)) /\ 0 <= Pipe.count (Pipe.get t i) <= Pipe.PIPE_BUF.
Proof.
  intros [_ Hf]. apply (Forall_aget_d (fun p => bytes (Pipe.buf p) /\ 0 <= Pipe.count p <= Pipe.PIPE_BUF)); [done|].
  split; [apply zeros_bytes|by vm_compute].
Qed.

Lemma pipes_ok_alloc t : pipes_ok t -> pipes_ok (Pipe.pipe_alloc t).2 /\ -1 <= (Pipe.pipe_alloc t).1 < Pipe.MAX_PIPES.
Proof.
  intros H. unfold Pipe.pipe_alloc. destruct (find_slot _ _ _) as [i|] eqn:E; cbn [fst snd]; [|split; [done|by vm_compute]].
  split; [apply pipes_ok_aset; [done|apply zeros_bytes|by vm_compute]|]. apply (find_slot_Some _ Pipe.pipe_zero) in E as (Hi & _).
  destruct H. lia.
Qed.

Lemma pipes_ok_free t i : pipes_ok t -> pipes_ok (Pipe.pipe_free i t).
Proof. intros H. unfold Pipe.pipe_free. destruct (Pipe.bad_index i); [done|]. destruct (pipes_ok_get t i H). by apply pipes_ok_aset. Qed.

Lemma pipes_ok_close_read t i : pipes_ok t -> pipes_ok (Pipe.pipe_close_read i t).
Proof.
  intros H. unfold Pipe.pipe_close_read. destruct (Pipe.bad_index i); [done|]. cbv zeta. destruct (Pipe.in_use _); [|done].
  destruct (pipes_ok_get t i H). by apply pipes_ok_aset.
Qed.

Lemma pipes_ok_close_write t i : pipes_ok t -> pipes_ok (Pipe.pipe_close_write i t).
Proof.
  intros H. unfold Pipe.pipe_close_write. destruct (Pipe.bad_index i); [done|]. cbv zeta. destruct (Pipe.in_use _); [|done].
  destruct (pipes_ok_get t i H). by apply pipes_ok_aset.
Qed.

Lemma pipe_write_loop d w p : bytes d -> bytes (Pipe.buf p) -> 0 <= Pipe.count p <= Pipe.PIPE_BUF ->
  let '(n, p') := Pipe.write_loop d w p in w <= n <= w + blen d /\ bytes (Pipe.buf p') /\ 0 <= Pipe.count p' <= Pipe.PIPE_BUF.
Proof.
  intros Hd. revert w p. induction Hd as [|b d Hb Hd IH]; intros w p Hp Hc; cbn [Pipe.write_loop]; [unfold blen; simpl; split; [lia|done]|].
  destruct (Z.ltb_spec (Pipe.count p) Pipe.PIPE_BUF) as [Hlt|]; [|split; [unfold blen; lia|done]]. cbv zeta.
  rewrite (u32_small (Pipe.count p + 1)) by (unfold is_u32, Pipe.PIPE_BUF in *; lia).
  match goal with |- context [Pipe.write_loop d (w + 1) ?q] => specialize (IH (w + 1) q) end. cbn [Pipe.buf Pipe.count] in IH.
  specialize (IH (Forall_aset _ _ _ _ Hp Hb) ltac:(lia)). destruct (Pipe.write_loop _ _ _) as [n p'].
  destruct IH as (Hn & Hb' & Hc'). split; [|done]. unfold blen in *. cbn [length]. lia.
Qed.

Lemma pipes_ok_write i d t : pipes_ok t -> bytes d ->
  pipes_ok (Pipe.pipe_write i d t).2 /\ -1 <= (Pipe.pipe_write i d t).1 <= blen d.
Proof.
  intros H Hd. pose proof (blen_nonneg d). unfold Pipe.pipe_write. destruct (Pipe.bad_index i); [split; [done|cbn; lia]|]. cbv zeta.
  destruct (_ || _); [split; [done|cbn; lia]|]. destruct (pipes_ok_get t i H) as [Hb Hc].
  pose proof (pipe_write_loop d 0 (Pipe.get t i) Hd Hb Hc) as Hw. destruct (Pipe.write_loop _ _ _) as [n p']. destruct Hw as (Hn & Hb' & Hc').
  cbn [fst snd]. split; [by apply pipes_ok_aset|lia].
Qed.

Lemma pipe_read_loop n b h : bytes b -> bytes (Pipe.read_loop n b h).1 /\ length (Pipe.read_loop n b h).1 = n.
Proof.
  intros Hb. revert h. induction n as [|n IH]; intros h; cbn [Pipe.read_loop]; [by split; [constructor|]|].
  specialize (IH (u32 (h + 1) mod Pipe.PIPE_BUF)). destruct (Pipe.read_loop _ _ _) as [l h']. cbn [fst] in *. destruct IH as [Hl Hn].
  split; [constructor; [by apply (Forall_aget_d is_u8)|done]|cbn; lia].
Qed.

Lemma pipes_ok_read i len t : pipes_ok t -> 0 <= len ->
  let '(n, b, t') := Pipe.pipe_read i len t in pipes_ok t' /\ bytes b /\ -2 <= n <= len /\ (n <= 0 \/ n = blen b).
Proof.
  intros H Hl. unfold Pipe.pipe_read. assert (bytes []) by constructor. destruct (Pipe.bad_index i); [repeat split; auto; apply H || lia|]. cbv zeta.
  destruct (negb _); [repeat split; auto; apply H || lia|]. destruct (pipes_ok_get t i H) as [Hb Hc].
  destruct (Z.eqb_spec (Pipe.count (Pipe.get t i)) 0) as [_|_]; [destruct (Pipe.write_closed _); (repeat split; auto; apply H || lia)|].
  set (n := if _ <? _ then _ else _). assert (0 <= n <= len /\ n <= Pipe.count (Pipe.get t i)) as [Hn Hn'] by (unfold n; destruct (Z.ltb_spec len (Pipe.count (Pipe.get t i))); lia).
  clearbody n. destruct (pipe_read_loop (Z.to_nat n) (Pipe.buf (Pipe.get t i)) (Pipe.head (Pipe.get t i)) Hb) as [Hlb Hll].
  destruct (Pipe.read_loop _ _ _) as [l h]. cbn [fst] in *. split; [|split; [done|split; [lia|right; unfold blen; lia]]].
  apply pipes_ok_aset; [done|done|]. cbn. rewrite u32_small; [lia|unfold is_u32, Pipe.PIPE_BUF in *; lia].
Qed.

(** *** User memory *)

Definition um_ok (m : umem) : Prop := forall a b, m a = Some b -> is_u8 b.

Lemma movsb_from_ok n m a : um_ok m -> bytes (movsb_from n m a).1 /\ ((movsb_from n m a).2 = 0 -> blen (movsb_from n m a).1 = Z.of_nat n).
Proof.
  intros Hm. revert a. induction n as [|n IH]; intros a; cbn [movsb_from]; [by split; [constructor|]|].
  destruct (m a) as [b|] eqn:E; [|split; [constructor|cbn; lia]]. specialize (IH (a + 1)). destruct (movsb_from n m (a + 1)) as [l r].
  cbn [fst snd] in *. destruct IH as [Hb Hr]. split; [constructor; [by apply (Hm a)|done]|]. intros H. specialize (Hr H). unfold blen in *. cbn [length]. lia.
Qed.

Lemma copy_from_user_ok m src len : um_ok m -> 0 <= len ->
  bytes (copy_from_user m src len).2 /\ ((copy_from_user m src len).1 = true -> blen (copy_from_user m src len).2 = len).
Proof.
  intros Hm Hl. unfold copy_from_user. destruct (negb _); [by split; [constructor|]|].
  destruct (movsb_from_ok (Z.to_nat len) m src Hm) as [Hb Hr]. destruct (movsb_from _ _ _) as [l r]. cbn [fst snd] in *.
  split; [done|]. intros H%Z.eqb_eq. rewrite Hr by done. lia.
Qed.

Lemma movsb_to_ok l w m a : um_ok m -> bytes l -> um_ok (movsb_to l w m a).1.
Proof.
  intros Hm Hl. revert m a Hm. induction Hl as [|b l Hb Hl IH]; intros m a Hm; cbn [movsb_to]; [done|]. destruct (w a); [|done].
  apply IH. intros x y. destruct (x =? a); [by intros [= <-]|apply Hm].
Qed.

Lemma copy_to_user_ok w m dst l : um_ok m -> bytes l -> um_ok (copy_to_user w m dst l).2.
Proof.
  intros Hm Hl. unfold copy_to_user. destruct (negb _); [done|]. pose proof (movsb_to_ok l w m dst Hm Hl) as H.
  by destruct (movsb_to _ _ _ _).
Qed.

Lemma strncpy_from_user_bytes m src maxlen : um_ok m -> bytes (strncpy_from_user m src maxlen).2.
Proof.
  intros Hm. unfold strncpy_from_user. generalize 0. generalize (Z.to_nat maxlen). intros n. induction n as [|n IH]; intros i; cbn [strncpy_loop]; [constructor|].
  destruct (copy_from_user_ok m (u64 (src + i)) 1 Hm ltac:(lia)) as [Hb _]. destruct (copy_from_user _ _ _) as [[] [|c [|]]]; cbn [fst snd] in *; try constructor.
  apply Forall_cons in Hb as [Hc _]. destruct (c =? 0); [constructor; [done|constructor]|]. specialize (IH (i + 1)). destruct (strncpy_loop _ _ _ _). by constructor.
Qed.

(** *** The scheduler *)

Record sched_keeps (s s' : Sched.sched) : Prop := {
  sk_current : Sched.cpu_current s' = Sched.cpu_current s;
  sk_heap : Sched.kh s' = Sched.kh s;
  sk_process : forall x, Sched.process (Sched.th s' x) = Sched.process (Sched.th s x);
}.
#[export] Instance sched_keeps_refl : Reflexive sched_keeps.
Proof. by split. Qed.
#[export] Instance sched_keeps_trans : Transitive sched_keeps.
Proof. intros s1 s2 s3 [? ? H1] [? ? H2]. split; [congruence..|]. intros t. by rewrite H2. Qed.

Lemma sched_keeps_upd t f s : (forall x, Sched.process (f x) = Sched.process x) -> sched_keeps s (Sched.upd_thread t f s).
Proof. intros H. split; [done..|]. intros x. cbn. destruct (Z.eqb_spec x t) as [->|]; [apply H|done]. Qed.

Lemma sched_keeps_rq_add t s : sched_keeps s (Sched.rq_add t s).
Proof.
  unfold Sched.rq_add. cbv zeta. set (s1 := Sched.upd_thread t _ s). assert (sched_keeps s s1) as H1 by by apply sched_keeps_upd.
  etrans; [exact H1|]. destruct (negb _); [|by split]. set (s2 := Sched.upd_thread _ _ s1).
  assert (sched_keeps s1 s2) as H2 by by apply sched_keeps_upd. destruct H2. by split.
Qed.

Lemma sched_keeps_wake_all fuel w s s' : wake_all fuel w s = Some s' -> sched_keeps s s'.
Proof.
  revert w s. induction fuel as [|f IH]; intros w s; cbn [wake_all]; [done|]. destruct (w =? 0); [by intros [= ->]|]. cbv zeta.
  set (s1 := Sched.upd_thread w _ s). assert (sched_keeps s s1) as H1 by by apply sched_keeps_upd. unfold Sched.sched_wake.
  destruct (Sched.on_cpu _); [done|]. cbn [mbind option_bind]. intros H%IH. etrans; [exact H1|]. etrans; [|exact H].
  etrans; [|apply sched_keeps_rq_add]. by apply sched_keeps_upd.
Qed.

(** *** Processes *)

Definition cred_ok (c : cred_t) : Prop :=
  is_u32 (uid c) /\ is_u32 (gid c) /\ is_u32 (euid c) /\ is_u32 (egid c) /\ is_u32 (suid c) /\ is_u32 (sgid c).
Definition proc_ok (p : process) : Prop := is_u32 (pid p) /\ cred_ok (cred p) /\ bytes (name p).

Lemma cred_ok_setuid cr v : cred_ok cr -> is_u32 v -> cred_ok (cred_setuid cr v).2.
Proof. intros (? & ? & ? & ? & ? & ?) Hv. unfold cred_setuid, cred_ok. destruct (euid cr =? 0); [|destruct (_ || _)]; cbn; tauto. Qed.
Lemma cred_ok_setgid cr v : cred_ok cr -> is_u32 v -> cred_ok (cred_setgid cr v).2.
Proof. intros (? & ? & ? & ? & ? & ?) Hv. unfold cred_setgid, cred_ok. destruct (euid cr =? 0); [|destruct (_ || _)]; cbn; tauto. Qed.
Lemma cred_ok_seteuid cr v : cred_ok cr -> is_u32 v -> cred_ok (cred_seteuid cr v).2.
Proof. intros (? & ? & ? & ? & ? & ?) Hv. unfold cred_seteuid, cred_ok. destruct (_ || _); cbn; tauto. Qed.
Lemma cred_ok_setegid cr v : cred_ok cr -> is_u32 v -> cred_ok (cred_setegid cr v).2.
Proof. intros (? & ? & ? & ? & ? & ?) Hv. unfold cred_setegid, cred_ok. destruct (_ || _); cbn; tauto. Qed.

(** A step of the process layer that leaves identities and working directories. *)
Record procs_step (s s' : procs) : Prop := {
  ps_table : s_procs s' = s_procs s;
  ps_sched : sched_keeps (sch s) (sch s');
  ps_same : forall q, pid (pm s' q) = pid (pm s q) /\ cred (pm s' q) = cred (pm s q) /\ name (pm s' q) = name (pm s q) /\ cwd (pm s' q) = cwd (pm s q);
  ps_fds : forall q, table_ok (fds (pm s q)) -> table_ok (fds (pm s' q));
  ps_pipes : pipes_ok (pipes s) -> pipes_ok (pipes s');
}.
#[export] Instance procs_step_refl : Reflexive procs_step.
Proof. by split. Qed.
#[export] Instance procs_step_trans : Transitive procs_step.
Proof.
  intros s1 s2 s3 [? ? H1 ? ?] [? ? H2 ? ?]. split; [congruence|by etrans| |auto..].
  intros q. destruct (H1 q) as (E1 & E2 & E3 & E4). destruct (H2 q) as (F1 & F2 & F3 & F4). by rewrite F1, F2, F3, F4.
Qed.

Lemma procs_step_sched s sc : sched_keeps (sch s) sc -> procs_step s (set_sch sc s).
Proof. by split. Qed.

Lemma procs_step_upd p f s : (forall q, pid (f q) = pid q /\ cred (f q) = cred q /\ name (f q) = name q /\ cwd (f q) = cwd q) ->
  (table_ok (fds (pm s p)) -> table_ok (fds (f (pm s p)))) -> procs_step s (upd_proc p f s).
Proof.
  intros Hf Ht. split; [done|by split|intros q; cbn|intros q; cbn|done]; (destruct (Z.eqb_spec q p) as [->|]; [|done]); [apply Hf|done].
Qed.

Lemma procs_step_pipes s t : (pipes_ok (pipes s) -> pipes_ok t) -> procs_step s (set_pipes t s).
Proof. by split. Qed.

Lemma close_all_ok l pp : Forall fd_entry_ok l -> pipes_ok pp ->
  Forall fd_entry_ok (close_all l pp).1 /\ length (close_all l pp).1 = length l /\ pipes_ok (close_all l pp).2.
Proof.
  intros Hl. revert pp. induction Hl as [|e l He Hl IH]; intros pp Hp; cbn [close_all]; [done|]. unfold close_fd.
  destruct (open e) eqn:Eo; cbn [negb].
  - cbv zeta. set (p1 := if bool_decide (type e = FD_PIPE_READ) then Pipe.pipe_close_read (id e) pp else pp). assert (pipes_ok p1) as H1 by (unfold p1; destruct (bool_decide _); [by apply pipes_ok_close_read|done]). clearbody p1.
    set (p2 := if bool_decide (type e = FD_PIPE_WRITE) then Pipe.pipe_close_write (id e) p1 else p1). assert (pipes_ok p2) as H2 by (unfold p2; destruct (bool_decide _); [by apply pipes_ok_close_write|done]).
    destruct (IH p2 H2) as (I1 & I2 & I3). destruct (close_all l p2). cbn [fst snd] in *. split; [by constructor|split; [cbn; lia|done]].
  - destruct (IH pp Hp) as (I1 & I2 & I3). destruct (close_all l pp). cbn [fst snd] in *. split; [by constructor|split; [cbn; lia|done]].
Qed.

Lemma procs_step_close_all p s : table_ok (fds (pm s p)) -> pipes_ok (pipes s) ->
  procs_step s (let '(tbl, pp) := close_all (fds (pm s p)) (pipes s) in set_pipes pp (upd_proc p (set_fds tbl) s)).
Proof.
  intros [Hw Hf] Hp. destruct (close_all_ok _ _ Hf Hp) as (H1 & H2 & H3). destruct (close_all _ _) as [tbl pp]. cbn [fst snd] in *.
  etrans; [|by apply procs_step_pipes]. apply procs_step_upd; [done|]. intros _. cbn. split; [unfold Fd.table_wf in *; lia|done].
Qed.

Lemma procs_step_exited fuel p status s s' : process_mark_exited fuel p status s = Some s' -> procs_step s s'.
Proof.
  unfold process_mark_exited. cbv zeta. set (s1 := upd_proc p (set_exit true status) s). assert (procs_step s s1) as H1 by by apply procs_step_upd.
  set (s2 := upd_proc p (set_wait_queue 0) s1). assert (procs_step s1 s2) as H2 by by apply procs_step_upd. clearbody s2.
  destruct (wake_all _ _ _) as [sc|] eqn:E; [|done]. intros [= <-]. etrans; [exact H1|]. etrans; [exact H2|].
  apply procs_step_sched. by eapply sched_keeps_wake_all.
Qed.

Lemma procs_step_kill fuel p s s' : table_ok (fds (pm s p)) -> pipes_ok (pipes s) -> process_kill fuel p s = Some s' -> procs_step s s'.
Proof.
  intros Ht Hp. unfold process_kill. destruct (_ || _); [by intros [= ->]|]. pose proof (procs_step_close_all p s Ht Hp) as H1.
  destruct (close_all _ _) as [tbl pp]. cbv zeta. destruct (process_mark_exited _ _ _ _) as [s2|] eqn:E; [|done]. cbn [mbind option_bind].
  apply procs_step_exited in E. intros [= <-]. etrans; [exact H1|]. etrans; [exact E|]. destruct (negb _); [|done].
  apply procs_step_sched. by apply sched_keeps_upd.
Qed.

(** *** The process listing *)

Lemma emit_bytes x o o' : emit x o = Some o' -> is_u8 x -> bytes o.1 -> bytes o'.1.
Proof. destruct o as [b off]. unfold emit. destruct (_ <? _); [|done]. intros [= <-] Hx Hb. by apply Forall_aset. Qed.

Lemma emit_all_bytes l o o' : emit_all l o = Some o' -> bytes l -> bytes o.1 -> bytes o'.1.
Proof.
  intros E Hl. revert o E. induction Hl as [|x l Hx Hl IH]; intros o E Hb; cbn [emit_all] in E; [by simplify_eq|].
  destruct (emit x o) as [o1|] eqn:E1; [|done]. apply (IH o1 E). by eapply emit_bytes.
Qed.

Lemma emit_str_bytes l n o o' : emit_str l n o = Some o' -> bytes l -> bytes o.1 -> bytes o'.1.
Proof.
  intros E Hl. revert o E. induction Hl as [|x l Hx Hl IH]; intros o E Hb; cbn [emit_str] in E; [by simplify_eq|].
  destruct (_ <? _); [|by simplify_eq]. destruct (emit x o) as [o1|] eqn:E1; [|done]. apply (IH o1 E). by eapply emit_bytes.
Qed.

Lemma digits_bytes n v : bytes (digits n v).
Proof. revert v. induction n as [|n IH]; intros v; cbn [digits]; [constructor|]. destruct (v =? 0); [constructor|]. constructor; [int_lia|apply IH]. Qed.

Lemma swap_loop_bytes n l i j : bytes l -> bytes (swap_loop n l i j).
Proof.
  revert l i j. induction n as [|n IH]; intros l i j Hl; cbn [swap_loop]; [done|]. destruct (i <? j); [|done]. apply IH.
  apply Forall_aset; [apply Forall_aset; [done|]|]; by apply (Forall_aget_d is_u8).
Qed.

Lemma ps_fmt_uint_bytes v w : bytes (ps_fmt_uint v w).
Proof.
  unfold ps_fmt_uint. cbv zeta. apply Forall_app. split; [by apply Forall_replicate|]. apply swap_loop_bytes.
  destruct (v =? 0); [constructor; [done|constructor]|apply digits_bytes].
Qed.

#[local] Opaque ps_fmt_uint.

Lemma ps_line_bytes q n o o' : bytes (name q) -> ps_line q n o = Some o' -> bytes o.1 -> bytes o'.1.
Proof.
  intros Hn H Hb. unfold ps_line in H.
  apply bind_Some in H as (o1 & E1 & H). apply bind_Some in H as (o2 & E2 & H). apply bind_Some in H as (o3 & E3 & H).
  apply bind_Some in H as (o4 & E4 & H). apply bind_Some in H as (o5 & E5 & H). apply bind_Some in H as (o6 & E6 & H).
  pose proof (emit_all_bytes _ _ _ E1 (ps_fmt_uint_bytes _ _) Hb) as H1. assert (is_u8 32 /\ is_u8 10) as [H32 H10] by done.
  pose proof (emit_bytes _ _ _ E2 H32 H1) as H2. pose proof (emit_all_bytes _ _ _ E3 (ps_fmt_uint_bytes _ _) H2) as H3.
  pose proof (emit_bytes _ _ _ E4 H32 H3) as H4. pose proof (emit_bytes _ _ _ E5 H32 H4) as H5.
  apply (emit_bytes _ _ _ H H10). apply (emit_str_bytes _ _ _ _ E6); [|exact H5].
  destruct (negb _); [by apply cstr_of_forall|constructor; [done|constructor]].
Qed.

Lemma process_ps_bytes buf s n b : (forall q, q ∈ s_procs s -> bytes (name (pm s q))) -> bytes buf -> process_ps buf s = Some (n, b) -> bytes b.
Proof.
  intros Hq Hb. unfold process_ps. destruct (_ =? 0); [by intros [= <- <-]|].
  destruct (emit_str ps_hdr _ _) as [o1|] eqn:E1; [|done]. cbn [mbind option_bind].
  assert (bytes o1.1) as H1 by (eapply emit_str_bytes; [exact E1|by apply bytes_check|done]). clear E1.
  destruct (ps_lines _ _ _ _) as [o2|] eqn:E2; [|done]. cbn [mbind option_bind].
  assert (bytes o2.1) as H2.
  { revert o1 H1 E2. generalize (s_procs s) Hq. intros l. induction l as [|q l IH]; intros Hl o1 H1; cbn [ps_lines]; [by intros [= <-]|].
    destruct (_ || _); [apply IH; [intros; apply Hl; by right|done]|]. destruct (_ <=? _); [by intros [= <-]|].
    destruct (ps_line _ _ _) as [o3|] eqn:E3; [|done]. cbn [mbind option_bind]. apply IH; [intros; apply Hl; by right|].
    eapply ps_line_bytes; [apply Hl; by left|exact E3|done]. }
  destruct o2 as [b2 off]. cbn [fst] in H2. destruct (off <? _); intros [= <- <-]; by apply Forall_aset.
Qed.

(** *** Transfers in pieces *)

Lemma chunk_bounds count done_ : done_ < count -> 0 < chunk_of count done_ <= 512 /\ done_ + chunk_of count done_ <= count /\
  (chunk_of count done_ = 512 \/ done_ + chunk_of count done_ = count).
Proof. intros. unfold chunk_of. destruct (Z.ltb_spec 512 (count - done_)); lia. Qed.

(** The fuel left is enough for the bytes left. *)
Definition enough (fuel : nat) (count done_ : Z) : Prop := (0 < fuel)%nat /\ count - done_ <= 512 * (Z.of_nat fuel - 1).

Lemma enough_chunks count : 0 <= count -> enough (chunks count) count 0.
Proof. intros. unfold enough, chunks. lia. Qed.

(** ** The invariant *)

Definition heap_ok (h : Heap.heap Vmm.vmm) : Prop := exists L F, Heap.heap_wf h L F.
(** The heap while the kernel holds a block. *)
Definition heap_has (a : Z) (h : Heap.heap Vmm.vmm) : Prop := exists L F l1 b s l2,
  Heap.heap_wf h L F /\ L = l1 ++ Heap.Blk b s true :: l2 /\ a = b + Heap.sizeof_block.

Section machine.
Context (ok : nat -> bool) (lapic_id : Z) (yield : kernel -> kernel) (patience : nat) (stale : Z -> Z -> list Z).
Context (nb t p : Z).

(** The thread [t] of the process [p] is in the kernel, with the working directory [c]. *)
Record kernel_wf (H : Heap.heap Vmm.vmm -> Prop) (c : list Z) (k : kernel) : Prop := {
  kw_thread : aget 0 (Sched.cpu_current (sch (pr k))) lapic_id = t;
  kw_process : Sched.process (Sched.th (sch (pr k)) t) = p;
  kw_me : proc_ok (pm (pr k) p) /\ table_ok (fds (pm (pr k) p));
  kw_cwd : cwd (pm (pr k) p) = c;
  kw_procs : forall q, q ∈ s_procs (pr k) -> proc_ok (pm (pr k) q) /\ table_ok (fds (pm (pr k) q));
  kw_pipes : pipes_ok (pipes (pr k));
  kw_heap : H (Sched.kh (sch (pr k)));
  kw_vfs : vfs_wf nb (vfs_for (caller_of k p) (vf k));
  kw_net : net_ok (net k);
  kw_um : um_ok (um k);
  kw_tty : bytes (tty_in k);
}.

(** *** Changes of the state that keep it *)

Section keep.
Context (H : Heap.heap Vmm.vmm -> Prop) (c : list Z).

Lemma wf_procs k s : kernel_wf H c k -> procs_step (pr k) s -> kernel_wf H c (set_pr s k).
Proof.
  intros [Ht Hp Hm Hc Hq Hpi Hh Hv Hn Hu Hy] [E1 [S1 S2 S3] Hs Hf Hpp].
  assert (forall q, proc_ok (pm (pr k) q) /\ table_ok (fds (pm (pr k) q)) -> proc_ok (pm s q) /\ table_ok (fds (pm s q))) as Hpo.
  { intros q [(? & ? & ?) ?]. destruct (Hs q) as (F1 & F2 & F3 & F4). split; [|by apply Hf]. unfold proc_ok. by rewrite F1, F2, F3. }
  assert (caller_of (set_pr s k) p = caller_of k p) as Ec.
  { destruct (Hs p) as (F1 & F2 & F3 & F4). unfold caller_of. cbn [pr set_pr]. by rewrite F2, F4. }
  split; cbn [pr set_pr vf net um tty_in]; [by rewrite S1|by rewrite S3|auto| |rewrite E1; auto|auto|by rewrite S2|by rewrite Ec|done..].
  destruct (Hs p) as (F1 & F2 & F3 & F4). by rewrite F4.
Qed.

Lemma wf_heap H' k h : kernel_wf H c k -> H' h ->
  kernel_wf H' c (set_pr (set_sch (Sched.with_kh h (sch (pr k))) (pr k)) k).
Proof. intros [] Hh. by split. Qed.

Lemma wf_mem k m : kernel_wf H c k -> um_ok m -> kernel_wf H c (set_um m k).
Proof. intros [] Hm. by split. Qed.

Lemma wf_net k n : kernel_wf H c k -> net_ok n -> kernel_wf H c (set_net n k).
Proof. intros [] Hn. by split. Qed.

Lemma wf_tty_in k l : kernel_wf H c k -> bytes l -> kernel_wf H c (set_tty_in l k).
Proof. intros [] Hl. by split. Qed.

Lemma wf_tty_out k l : kernel_wf H c k -> kernel_wf H c (set_tty_out l k).
Proof. intros []. by split. Qed.

Lemma wf_power k v : kernel_wf H c k -> kernel_wf H c (set_power v k).
Proof. intros []. by split. Qed.

Lemma vfs_wf_caller v c1 e1 g1 e2 g2 : vfs_wf nb (vfs_for (Some (Vfs.mk_caller c1 e1 g1)) v) -> vfs_wf nb (vfs_for (Some (Vfs.mk_caller c1 e2 g2)) v).
Proof. intros [? ? ? ? ? ? Hc]. split; [done..|]. intros q [= <-]. exact (Hc _ eq_refl). Qed.

Lemma wf_cred k cr : kernel_wf H c k -> cred_ok cr -> kernel_wf H c (set_pr (upd_proc p (with_cred cr) (pr k)) k).
Proof.
  intros [Ht Hp Hm Hc Hq Hpi Hh Hv Hn Hu Hy] Hcr.
  assert (forall q, proc_ok (pm (pr k) q) /\ table_ok (fds (pm (pr k) q)) ->
    proc_ok (pm (upd_proc p (with_cred cr) (pr k)) q) /\ table_ok (fds (pm (upd_proc p (with_cred cr) (pr k)) q))) as Hpo.
  { intros q Hq'. cbn. destruct (Z.eqb_spec q p) as [->|]; [|done]. destruct Hq' as [(? & ? & ?) ?]. by split. }
  split; cbn [pr set_pr vf net um tty_in]; [done|done|auto| |auto|done|done| |done..].
  - cbn. by rewrite Z.eqb_refl.
  - unfold caller_of in *. cbn [pr set_pr]. destruct (p =? 0); [done|]. cbn. rewrite Z.eqb_refl. by eapply vfs_wf_caller.
Qed.
End keep.

(** ** Rules

    [hoare P m Q]: from a state in [P], [m] ends in [Q] or, where [B] allows it, is left waiting. *)

Section rules.
Context (B : Prop) (Ht0 : t <> 0) (Hp0 : p <> 0) (Hcpu : 0 <= lapic_id < Sched.MAX_CPUS).

Definition hoare {A} (P : kernel -> Prop) (m : K kernel A) (Q : A -> kernel -> Prop) : Prop :=
  forall k, P k -> match m k with Ok (a, k') => Q a k' | Panic msg => msg = BLOCKED /\ B end.

Lemma hoare_ret {A} P (a : A) (Q : A -> kernel -> Prop) : (forall k, P k -> Q a k) -> hoare P (mret a) Q.
Proof. intros H k Hk. by apply H. Qed.

Lemma hoare_bind {A C} P (m : K kernel A) (f : A -> K kernel C) R Q :
  hoare P m R -> (forall a, hoare (R a) (f a) Q) -> hoare P (m ≫= f) Q.
Proof.
  intros Hm Hf k Hk. specialize (Hm k Hk). unfold mbind, K_bind. destruct (m k) as [[a k']|]; [by apply Hf|done].
Qed.

Lemma hoare_mono {A} (P P' : kernel -> Prop) (m : K kernel A) (Q Q' : A -> kernel -> Prop) :
  hoare P m Q -> (forall k, P' k -> P k) -> (forall a k, Q a k -> Q' a k) -> hoare P' m Q'.
Proof. intros Hm HP HQ k Hk. specialize (Hm k (HP k Hk)). destruct (m k) as [[a k']|]; [by apply HQ|done]. Qed.

Lemma hoare_gets {A} P (f : kernel -> A) (Q : A -> kernel -> Prop) : (forall k, P k -> Q (f k) k) -> hoare P (gets f) Q.
Proof. intros H k Hk. by apply H. Qed.

Lemma hoare_modify P f (Q : unit -> kernel -> Prop) : (forall k, P k -> Q tt (f k)) -> hoare P (modify f) Q.
Proof. intros H k Hk. by apply H. Qed.

(** A pure fact of the precondition. *)
Lemma hoare_pure {A} (F : Prop) P (m : K kernel A) Q : (F -> hoare P m Q) -> hoare (fun k => F /\ P k) m Q.
Proof. intros H k [HF Hk]. by apply H. Qed.

(** A step that keeps the invariant, and what follows it. *)
Lemma hoare_seq {A C} P (m : K kernel A) (f : A -> K kernel C) (F : A -> Prop) Q :
  hoare P m (fun a k => F a /\ P k) -> (forall a, F a -> hoare P (f a) Q) -> hoare P (m ≫= f) Q.
Proof. intros Hm Hf. eapply hoare_bind; [exact Hm|]. intros a. apply hoare_pure. auto. Qed.

Section held.
Context (H : Heap.heap Vmm.vmm -> Prop) (c : list Z).
Abbreviation wf := (kernel_wf H c).

Lemma cpu_id : Sched.current_cpu_id lapic_id = mret lapic_id.
Proof using Hcpu. unfold Sched.current_cpu_id. by rewrite (proj2 (Z.leb_gt _ _) (proj2 Hcpu)). Qed.

Lemma run_current k : wf k -> sched_current lapic_id k = Ok (t, set_pr (set_sch (sch (pr k)) (pr k)) k).
Proof using Hcpu. intros [Ht _]. unfold sched_current, Syscall.on_sched, on_procs, Process.on_sched, Sched.sched_current. rewrite cpu_id. cbv [mbind K_bind mret K_ret gets]. by rewrite Ht. Qed.

Lemma run_current_process k : wf k -> sched_current_process lapic_id k = Ok (p, set_pr (set_sch (sch (pr k)) (pr k)) k).
Proof using Hcpu Ht0.
  intros [Ht Hp _]. unfold sched_current_process, Syscall.on_sched, on_procs, Process.on_sched, Sched.sched_current_process, Sched.sched_current.
  rewrite cpu_id. cbv [mbind K_bind mret K_ret gets]. rewrite Ht, (proj2 (Z.eqb_neq _ _) Ht0). by rewrite Hp.
Qed.

Lemma wf_same k : wf k -> wf (set_pr (set_sch (sch (pr k)) (pr k)) k).
Proof. intros []. by split. Qed.

Lemma hoare_current : hoare wf (sched_current lapic_id) (fun x k => x = t /\ wf k).
Proof using Hcpu. intros k Hk. rewrite (run_current k Hk). split; [done|by apply wf_same]. Qed.

Lemma hoare_current_process : hoare wf (sched_current_process lapic_id) (fun x k => x = p /\ wf k).
Proof using Hcpu Ht0. intros k Hk. rewrite (run_current_process k Hk). split; [done|by apply wf_same]. Qed.

Lemma hoare_current_fds : hoare wf (current_fds lapic_id) (fun x k => x = p /\ wf k).
Proof using Hcpu Ht0.
  eapply hoare_seq; [apply hoare_current|]. intros x ->. rewrite (proj2 (Z.eqb_neq _ _) Ht0). apply hoare_gets. intros k Hk. split; [apply Hk|done].
Qed.

Lemma hoare_proc_at q : hoare wf (proc_at q) (fun x k => (q = p -> proc_ok x) /\ wf k).
Proof. apply hoare_gets. intros k Hk. split; [intros ->; apply Hk|done]. Qed.

Lemma hoare_table : hoare wf (table p) (fun x k => table_ok x /\ wf k).
Proof. apply hoare_gets. intros k Hk. split; [apply Hk|done]. Qed.

Lemma hoare_on_table {A} (f : fd_table_t -> A * fd_table_t) (F : A -> Prop) :
  (forall x, table_ok x -> table_ok (f x).2 /\ F (f x).1) -> hoare wf (on_table p f) (fun a k => F a /\ wf k).
Proof.
  intros Hf. eapply hoare_seq; [apply hoare_table|]. intros x Hx. destruct (Hf x Hx) as [H1 H2]. destruct (f x) as [a x']. cbn [fst snd] in *.
  apply (hoare_bind _ _ _ (fun _ => wf)); [|intros _; by apply hoare_ret]. intros k Hk. cbn. apply (wf_procs H c k); [done|]. by apply procs_step_upd.
Qed.

Lemma hoare_free_fd fd : hoare wf (free_fd p fd) (fun _ => wf).
Proof.
  eapply hoare_mono; [apply (hoare_on_table _ (fun _ => True))|done|by intros ? ? []]. intros x Hx. split; [by apply table_ok_free|done].
Qed.

Lemma hoare_pipes {A} (f : Pipe.s_pipes -> A * Pipe.s_pipes) (F : A -> Prop) :
  (forall x, pipes_ok x -> pipes_ok (f x).2 /\ F (f x).1) -> hoare wf (on_pipes f) (fun a k => F a /\ wf k).
Proof.
  intros Hf k Hk. destruct (Hf _ (kw_pipes _ _ _ Hk)) as [H1 H2]. unfold on_pipes. destruct (f _) as [a x]. split; [done|].
  apply (wf_procs H c k); [done|]. by apply procs_step_pipes.
Qed.

Lemma hoare_net {A} (f : NetStack.stack -> A * NetStack.stack) (F : A -> Prop) :
  (forall x, net_ok x -> net_ok (f x).2 /\ F (f x).1) -> hoare wf (on_net f) (fun a k => F a /\ wf k).
Proof.
  intros Hf k Hk. destruct (Hf _ (kw_net _ _ _ Hk)) as [H1 H2]. unfold on_net. destruct (f _) as [a x]. split; [done|]. by apply wf_net.
Qed.

Lemma hoare_net_poll {A} (f : NetStack.stack -> option (A * NetStack.stack)) (F : A -> Prop) :
  (forall x, net_ok x -> exists a x', f x = Some (a, x') /\ net_ok x' /\ F a) -> hoare wf (on_net_poll f) (fun a k => F a /\ wf k).
Proof.
  intros Hf k Hk. destruct (Hf _ (kw_net _ _ _ Hk)) as (a & x & E & H1 & H2). unfold on_net_poll. rewrite E. split; [done|]. by apply wf_net.
Qed.

Lemma hoare_from_user src len : 0 <= len -> hoare wf (from_user src len) (fun '(b, l) k => (bytes l /\ (b = true -> blen l = len)) /\ wf k).
Proof.
  intros Hl. apply hoare_gets. intros k Hk. pose proof (copy_from_user_ok (um k) src len (kw_um _ _ _ Hk) Hl) as Hc.
  destruct (copy_from_user _ _ _). by split.
Qed.

Lemma hoare_to_user dst l : bytes l -> hoare wf (to_user dst l) (fun _ => wf).
Proof.
  intros Hl k Hk. unfold to_user. pose proof (copy_to_user_ok (uw k) (um k) dst l (kw_um _ _ _ Hk) Hl) as Hc.
  destruct (copy_to_user _ _ _ _). by apply wf_mem.
Qed.

Lemma hoare_serial_write l : hoare wf (serial_write l) (fun _ => wf).
Proof. apply hoare_modify. intros k Hk. by apply wf_tty_out. Qed.

Lemma hoare_serial_read : hoare wf serial_read_char (fun x k => is_u8 x /\ wf k).
Proof.
  intros k Hk. unfold serial_read_char. pose proof (kw_tty _ _ _ Hk) as Hy. destruct (tty_in k) as [|x l]; [done|].
  apply Forall_cons in Hy as [Hx Hl]. split; [done|]. by apply wf_tty_in.
Qed.

(** A path argument, as long as the file system's functions allow. *)
Definition path_short (a : Z) (k : kernel) : Prop :=
  blen (Vfs.canon (Vfs.full_path (cstr_of c) (cstr_of (strncpy_from_user (um k) a 512).2))) <= 256.

Lemma hoare_path {A} (e : A) a (f : list Z -> K kernel A) P Q : (forall k, P k -> Q e k) ->
  (forall k, P k -> wf k /\ path_short a k) -> (forall path, short c path -> hoare P (f path) Q) -> hoare P (with_string e a 512 f) Q.
Proof.
  intros He HP Hf k Hk. destruct (HP k Hk) as [Hw Hs]. unfold with_string, string_from_user. unfold mbind, K_bind, gets.
  pose proof (strncpy_from_user_bytes (um k) a 512 (kw_um _ _ _ Hw)) as Hb. unfold path_short in Hs.
  destruct (strncpy_from_user (um k) a 512) as [r path]. cbn [snd] in *. destruct (r <? 0); [by apply He|]. by apply Hf.
Qed.

Lemma hoare_path1 {A} (e : A) a (f : list Z -> K kernel A) Q : (forall k, wf k -> Q e k) ->
  (forall path, short c path -> hoare wf (f path) Q) -> hoare (fun k => wf k /\ path_short a k) (with_string e a 512 f) Q.
Proof.
  intros He Hf. apply hoare_path; [by intros k []; apply He|done|]. intros path Hp. eapply hoare_mono; [by apply Hf|by intros k []|done].
Qed.

Lemma hoare_string {A} (e : A) a n (f : list Z -> K kernel A) Q : (forall k, wf k -> Q e k) ->
  (forall str, bytes str -> hoare wf (f str) Q) -> hoare wf (with_string e a n f) Q.
Proof.
  intros He Hf k Hk. unfold with_string, string_from_user. unfold mbind, K_bind, gets.
  pose proof (strncpy_from_user_bytes (um k) a n (kw_um _ _ _ Hk)) as Hb.
  destruct (strncpy_from_user (um k) a n) as [r str]. cbn [snd] in *. destruct (r <? 0); [by apply He|]. by apply Hf.
Qed.

(** *** The file system *)

Lemma hoare_vfs {A} (m : K Vfs.vfs A) (F : A -> Prop) :
  (forall s0, vfs_wf nb s0 -> Vfs.cwd s0 = c -> triple (keeps nb s0) m (fun a s => F a /\ keeps nb s0 s)) ->
  hoare wf (on_vfs lapic_id m) (fun a k => F a /\ wf k).
Proof using Hcpu Ht0 Hp0.
  intros Hm. eapply hoare_seq; [apply hoare_current_process|]. intros x ->. intros k Hk. unfold run_vfs.
  assert (caller_of k p = Some (Vfs.mk_caller c (euid (cred (pm (pr k) p))) (egid (cred (pm (pr k) p))))) as Ec.
  { unfold caller_of. rewrite (proj2 (Z.eqb_neq _ _) Hp0). by rewrite (kw_cwd _ _ _ Hk). }
  pose proof (kw_vfs _ _ _ Hk) as Hv. rewrite Ec in *. set (s0 := vfs_for _ (vf k)) in *.
  destruct (Hm s0 Hv eq_refl s0 (keeps_refl nb s0 Hv)) as (a & v & -> & HF & Hkp). split; [done|].
  rewrite (kp_proc _ _ _ Hkp). change (Vfs.proc s0) with (Some (Vfs.mk_caller c (euid (cred (pm (pr k) p))) (egid (cred (pm (pr k) p))))). cbv iota. cbn [Vfs.c_cwd].
  set (k1 := set_vf (vfs_for None v) k). assert (wf k1) as H1.
  { destruct Hk. split; [done..| |done|done|done]. unfold k1. change (caller_of (set_vf _ k) p) with (caller_of k p). rewrite Ec.
    cbn [vf set_vf]. destruct Hkp as [[? ? ? ? ? ? Hpc] ? Hpr ? ?]. split; try done. intros q [= <-]. by apply (Hpc _ (eq_trans Hpr eq_refl)). }
  clearbody k1. apply wf_procs; [done|]. split; [done|by split| |intros q; cbn; by destruct (Z.eqb_spec q p) as [->|]|done].
  intros q. cbn. destruct (Z.eqb_spec q p) as [->|]; [|done]. by rewrite (kw_cwd _ _ _ H1).
Qed.

(** The same with the outcomes of the entry points that have none to remember. *)
Lemma hoare_vfs_any {A} (m : K Vfs.vfs A) :
  (forall s0, vfs_wf nb s0 -> Vfs.cwd s0 = c -> triple (keeps nb s0) m (fun _ s => keeps nb s0 s)) -> hoare wf (on_vfs lapic_id m) (fun _ => wf).
Proof using Hcpu Ht0 Hp0.
  intros Hm. eapply hoare_mono; [apply (hoare_vfs m (fun _ => True))|done|by intros ? ? []]. intros s0 Hs Hc. eapply triple_mono; [by apply Hm|done|done].
Qed.

Lemma hoare_chdir path : short c path ->
  hoare wf (on_vfs lapic_id (Vfs.vfs_chdir ok path)) (fun v k => code v /\ exists c', kernel_wf H c' k).
Proof using Hcpu Ht0 Hp0.
  intros Hsh. eapply hoare_seq; [apply hoare_current_process|]. intros x ->. intros k Hk. unfold run_vfs.
  assert (caller_of k p = Some (Vfs.mk_caller c (euid (cred (pm (pr k) p))) (egid (cred (pm (pr k) p))))) as Ec.
  { unfold caller_of. rewrite (proj2 (Z.eqb_neq _ _) Hp0). by rewrite (kw_cwd _ _ _ Hk). }
  pose proof (kw_vfs _ _ _ Hk) as Hv. rewrite Ec in *. set (s0 := vfs_for _ (vf k)) in *.
  destruct (safe_vfs_chdir nb ok s0 Hv path Hsh s0 (keeps_refl nb s0 Hv)) as (a & v & -> & HF & [Hw Hr Hids Hpr Hsz]). split; [done|].
  destruct (Vfs.proc v) as [cl|] eqn:Ev; [|by destruct (proj2 Hpr ltac:(by eexists))]. exists (Vfs.c_cwd cl).
  destruct Hk as [Ht Hp Hm Hc Hq Hpi Hh _ Hn Hu Hy].
  assert (forall q, proc_ok (pm (pr k) q) /\ table_ok (fds (pm (pr k) q)) ->
    proc_ok (pm (upd_proc p (with_cwd (Vfs.c_cwd cl)) (pr k)) q) /\ table_ok (fds (pm (upd_proc p (with_cwd (Vfs.c_cwd cl)) (pr k)) q))) as Hpo.
  { intros q Hq'. cbn. destruct (Z.eqb_spec q p) as [->|]; [|done]. destruct Hq' as [(? & ? & ?) ?]. by split. }
  split; cbn [pr set_pr set_vf vf net um tty_in]; [done|done|auto| |auto|done|done| |done..].
  - cbn. by rewrite Z.eqb_refl.
  - unfold caller_of. cbn [pr set_pr]. rewrite (proj2 (Z.eqb_neq _ _) Hp0). cbn. rewrite Z.eqb_refl. cbn.
    destruct Hw as [? ? ? ? ? ? Hpc]. split; try done. intros q [= <-]. exact (Hpc cl Ev).
Qed.
End held.

(** *** The heap *)

Lemma hoare_kmalloc c n : is_u32 n ->
  hoare (kernel_wf heap_ok c) (Syscall.on_heap (Heap.kmalloc n)) (fun a k => kernel_wf (if a =? 0 then heap_ok else heap_has a) c k /\ (a <> 0 -> 0 < n)).
Proof.
  intros Hn k Hk. unfold Syscall.on_heap, Syscall.on_sched, on_procs, Process.on_sched, Sched.on_heap.
  destruct (kw_heap _ _ _ Hk) as (L & F & Hw). destruct (Z.eqb_spec n 0) as [->|Hn0].
  { cbn. split; [|done]. apply (wf_heap heap_ok c heap_ok k); [done|]. by exists L, F. }
  destruct (Heap.kmalloc_spec (Sched.kh (sch (pr k))) L F n Hw ltac:(int_lia)) as (a & h & L' & F' & -> & Hw' & Ha). cbv iota.
  split; [|int_lia]. apply (wf_heap heap_ok c); [done|]. destruct Ha as [(s & u1 & u2 & _ & Eu & _ & _ & Ha0)|(-> & _)]; [|by exists L', F'].
  rewrite (proj2 (Z.eqb_neq _ _) Ha0). assert (Heap.Blk (a - Heap.sizeof_block) s true ∈ L') as Hin.
  { apply list_elem_of_In. eapply (proj1 (filter_In Heap.b_used _ _)). change (List.filter Heap.b_used L') with (Heap.used L'). rewrite Eu.
    apply in_or_app. right. by left. }
  apply list_elem_of_split in Hin as (l1 & l2 & E). exists L', F', l1, (a - Heap.sizeof_block), s, l2. split; [done|]. split; [done|lia].
Qed.

Lemma hoare_kfree c a : hoare (kernel_wf (heap_has a) c) (Syscall.on_heap (Heap.kfree a)) (fun _ => kernel_wf heap_ok c).
Proof.
  intros k Hk. unfold Syscall.on_heap, Syscall.on_sched, on_procs, Process.on_sched, Sched.on_heap.
  destruct (kw_heap _ _ _ Hk) as (L & F & l1 & b & s & l2 & Hw & E & ->).
  destruct (Heap.kfree_spec (Sched.kh (sch (pr k))) L F l1 b s l2 Hw E) as (h & L' & F' & -> & Hw' & _). cbv iota.
  apply (wf_heap (heap_has (b + Heap.sizeof_block)) c); [done|]. by exists L', F'.
Qed.

(** ** Handlers that do not wait *)

Section handlers.
Context (c : list Z).
Set Default Proof Using "All".
Abbreviation I := (kernel_wf heap_ok c).
Abbreviation safe64 m := (hoare I m (fun v k => is_s64 v /\ I k)).
(** For the handlers with a path argument. *)
Abbreviation safe_path a m := (hoare (fun k => I k /\ path_short c a k) m (fun v k => is_s64 v /\ I k)).

Lemma ret64 v : is_s64 v -> safe64 (mret v).
Proof. intros Hv. by apply hoare_ret. Qed.

Lemma code64 v : code v -> is_s64 v.
Proof. intros [-> | ->]; unfold is_s64; lia. Qed.

Lemma to_user64 dst l v : bytes l -> is_s64 v -> safe64 (b ← to_user dst l; mret (if (b : bool) then v else -14)).
Proof.
  intros Hl Hv. eapply hoare_bind; [by apply hoare_to_user|]. intros b. apply ret64. destruct b; [done|unfold is_s64; lia].
Qed.

Ltac c64 := first [apply ret64; unfold is_s64; lia | intros; split; [unfold is_s64; lia|done]].

Lemma safe_vfs_code (m : K Vfs.vfs Z) : (forall s0, vfs_wf nb s0 -> Vfs.cwd s0 = c -> triple (keeps nb s0) m (fun v s => code v /\ keeps nb s0 s)) ->
  safe64 (on_vfs lapic_id m).
Proof.
  intros Hm. eapply hoare_mono; [by apply (hoare_vfs heap_ok c m code)|done|]. intros v k [Hv Hk]. split; [by apply code64|done].
Qed.

Lemma safe_creat a : safe_path a (sys_creat ok lapic_id a).
Proof. apply hoare_path1; [c64|]. intros path Hp. apply safe_vfs_code. intros s0 Hs <-. by apply safe_vfs_creat. Qed.

Lemma safe_sys_mkdir a : safe_path a (sys_mkdir ok lapic_id a).
Proof. apply hoare_path1; [c64|]. intros path Hp. apply safe_vfs_code. intros s0 Hs <-. by apply safe_vfs_mkdir. Qed.

Lemma safe_sys_unlink a : safe_path a (sys_unlink ok lapic_id a).
Proof. apply hoare_path1; [c64|]. intros path Hp. apply safe_vfs_code. intros s0 Hs <-. by apply safe_vfs_unlink. Qed.

Lemma safe_sys_rename a b : hoare (fun k => I k /\ path_short c a k /\ path_short c b k) (sys_rename ok lapic_id a b) (fun v k => is_s64 v /\ I k).
Proof.
  apply (hoare_path heap_ok c); [by intros k []; split; [unfold is_s64; lia|]|by intros k (? & ? & ?)|]. intros old Ho.
  apply (hoare_path heap_ok c); [by intros k []; split; [unfold is_s64; lia|]|by intros k (? & ? & ?)|]. intros new Hn.
  eapply hoare_mono; [|by intros k [Hk _]; exact Hk|intros v k Hv; exact Hv]. apply safe_vfs_code. intros s0 Hs <-. by apply safe_vfs_rename.
Qed.

Lemma safe_sys_chown a u g : safe_path a (sys_chown ok lapic_id a u g).
Proof.
  apply hoare_path1; [c64|]. intros path Hp. eapply hoare_seq; [apply hoare_current_fds|]. intros x ->.
  eapply hoare_seq; [apply hoare_proc_at|]. intros x _. destruct (_ || _); [c64|]. apply safe_vfs_code. intros s0 Hs <-. by apply safe_vfs_chown.
Qed.

Lemma hoare_file_stat path : short c path -> hoare I (on_vfs lapic_id (Vfs.vfs_file_stat ok path)) (fun _ => I).
Proof. intros Hp. apply hoare_vfs_any. intros s0 Hs <-. by apply safe_vfs_file_stat. Qed.

Lemma safe_sys_chmod a m : safe_path a (sys_chmod ok lapic_id a m).
Proof.
  apply hoare_path1; [c64|]. intros path Hp. eapply hoare_seq; [apply hoare_current_process|]. intros x ->. rewrite (proj2 (Z.eqb_neq _ _) Hp0).
  eapply hoare_bind; [by apply hoare_file_stat|]. intros st. eapply hoare_seq; [apply hoare_proc_at|]. intros x _.
  destruct st as [[[]]|]; [|c64]. destruct (_ && _); [c64|]. apply safe_vfs_code. intros s0 Hs <-. by apply safe_vfs_chmod.
Qed.

Lemma stat_buf_bytes st : bytes (stat_buf st).
Proof. unfold stat_buf. repeat (apply Forall_app; split); apply le_bytes_bytes. Qed.

Lemma safe_sys_stat a b : safe_path a (sys_stat ok lapic_id a b).
Proof.
  apply hoare_path1; [c64|]. intros path Hp. eapply hoare_bind; [apply (hoare_vfs_any heap_ok c); intros s0 Hs <-; by apply safe_vfs_stat|].
  intros [st|]; [|c64]. apply to_user64; [apply stat_buf_bytes|unfold is_s64; lia].
Qed.

Lemma safe_getcwd a n : safe64 (sys_getcwd lapic_id a n).
Proof.
  unfold sys_getcwd. destruct (n =? 0); [c64|].
  eapply hoare_seq; [apply (hoare_vfs heap_ok c _ (fun r => bytes r.2))|].
  { intros s0 Hs _. eapply triple_mono; [apply (safe_vfs_getcwd nb s0 Hs (zeros 256)), zeros_bytes|done|].
    intros [v out] s [(_ & _ & Hb & _) Hk]. by split. }
  intros [r b] Hb. cbn [snd] in Hb. destruct (negb _); [c64|]. cbv zeta. destruct (_ <? _); [c64|]. apply to_user64.
  - apply Forall_app. split; [by apply cstr_of_forall|by repeat constructor].
  - pose proof (u32_range (blen (cstr_of b ++ [0]))). unfold is_s64. int_lia.
Qed.

(** *** Identity *)

Lemma safe_my_field f : (forall q, proc_ok q -> is_s64 (f q)) -> safe64 (my_field lapic_id f).
Proof.
  intros Hf. eapply hoare_seq; [apply hoare_current_process|]. intros x ->. eapply hoare_seq; [apply hoare_proc_at|]. intros q Hq.
  apply ret64. destruct (p =? 0); [unfold is_s64; lia|]. by apply Hf, Hq.
Qed.

Lemma safe_on_cred f : (forall cr, cred_ok cr -> cred_ok (f cr).2) -> safe64 (on_cred lapic_id f).
Proof.
  intros Hf. eapply hoare_seq; [apply hoare_current_process|]. intros x ->. destruct (p =? 0); [c64|].
  eapply hoare_seq; [apply hoare_proc_at|]. intros q Hq. destruct (Hq eq_refl) as (_ & Hc & _). pose proof (Hf _ Hc) as Hc'.
  destruct (f (cred q)) as [b cr]. cbn [snd] in Hc'. apply (hoare_bind _ _ _ (fun _ => I)).
  - intros k Hk. by apply (wf_cred heap_ok c k).
  - intros _. apply ret64. destruct b; unfold is_s64; lia.
Qed.

(** *** Descriptors *)

Lemma hoare_vfs_fd (m : K Vfs.vfs Z) : (forall s0, vfs_wf nb s0 -> Vfs.cwd s0 = c -> triple (keeps nb s0) m (fd_result nb s0)) ->
  hoare I (on_vfs lapic_id m) (fun v k => -1 <= v < Vfs.VFS_MAX_OPEN /\ I k).
Proof.
  intros Hm. apply hoare_vfs. intros s0 Hs Hc. eapply triple_mono; [by apply Hm|done|]. intros v s [Hk Hv]. split; [|done].
  unfold Vfs.VFS_MAX_OPEN in *. lia.
Qed.

Lemma hoare_close vfd : hoare I (on_vfs lapic_id (Vfs.vfs_close vfd)) (fun _ => I).
Proof. apply hoare_vfs_any. intros s0 Hs _. by apply safe_vfs_close. Qed.

Lemma hoare_denied path access : short c path -> hoare I (denied ok lapic_id path access) (fun _ => I).
Proof.
  intros Hp. eapply hoare_seq; [apply hoare_current_process|]. intros x ->. rewrite (proj2 (Z.eqb_neq _ _) Hp0).
  eapply hoare_bind; [by apply hoare_file_stat|]. intros st. eapply hoare_seq; [apply hoare_proc_at|]. intros x _. by apply hoare_ret.
Qed.

Ltac entry_tac := intros _; cbn; unfold Vfs.VFS_MAX_OPEN, NetStack.MAX_SOCKETS, Pipe.MAX_PIPES in *; lia.

(** A new descriptor for the object [x] of a table. *)
Lemma hoare_alloc lo ty x : slot_ok lo -> fd_entry_ok (mk_entry true ty x) ->
  hoare I (on_table p (fun tb => alloc_from lo tb ty x)) (fun v k => -1 <= v < MAX_FDS /\ I k).
Proof. intros Hlo He. apply hoare_on_table. intros tb Ht. by apply table_ok_alloc. Qed.

Lemma safe_open a flags mode : safe_path a (sys_open ok lapic_id a flags mode).
Proof.
  apply hoare_path1; [c64|]. intros path Hp. eapply hoare_bind; [by apply hoare_denied|]. intros no. destruct no; [c64|].
  eapply hoare_seq; [apply hoare_vfs_fd; intros s0 Hs <-; by apply safe_vfs_open_ex|]. intros vfd Hv. destruct (Z.ltb_spec vfd 0); [c64|].
  eapply hoare_seq; [apply hoare_current_fds|]. intros x ->. rewrite (proj2 (Z.eqb_neq _ _) Hp0).
  eapply hoare_seq; [apply hoare_alloc; [by vm_compute|entry_tac]|]. intros fd Hfd. unfold MAX_FDS in Hfd. destruct (Z.ltb_spec fd 0); [|c64].
  eapply hoare_bind; [apply hoare_close|]. intros []. c64.
Qed.

Lemma safe_close fd : safe64 (sys_close lapic_id fd).
Proof.
  eapply hoare_seq; [apply hoare_current_fds|]. intros x ->. rewrite (proj2 (Z.eqb_neq _ _) Hp0).
  eapply hoare_seq; [apply hoare_table|]. intros tb Htb. cbv zeta.
  assert (forall m : K kernel unit, hoare I m (fun _ => I) -> safe64 (_ ← m; _ ← free_fd p (s32 fd); mret 0)) as Hfin.
  { intros m Hm. eapply hoare_bind; [exact Hm|]. intros []. eapply hoare_bind; [apply hoare_free_fd|]. intros []. c64. }
  destruct (fd_type tb (s32 fd)).
  1, 2: destruct (_ <? 0); [c64|apply Hfin, hoare_close].
  - apply Hfin. eapply hoare_mono; [apply (hoare_net heap_ok c _ (fun _ => True))|done|by intros ? ? []].
    intros x Hx. split; [by apply safe_sock_close|done].
  - apply Hfin. eapply hoare_mono; [apply (hoare_pipes heap_ok c _ (fun _ => True))|done|by intros ? ? []].
    intros x Hx. split; [by apply pipes_ok_close_read|done].
  - apply Hfin. eapply hoare_mono; [apply (hoare_pipes heap_ok c _ (fun _ => True))|done|by intros ? ? []].
    intros x Hx. split; [by apply pipes_ok_close_write|done].
Qed.

Lemma hoare_pipe_free i : hoare I (on_pipes (fun s => (tt, Pipe.pipe_free i s))) (fun _ => I).
Proof.
  eapply hoare_mono; [apply (hoare_pipes heap_ok c _ (fun _ => True))|done|by intros ? ? []]. intros x Hx. split; [by apply pipes_ok_free|done].
Qed.

Lemma safe_pipe a : safe64 (sys_pipe lapic_id a).
Proof.
  unfold sys_pipe. destruct (negb _); [c64|]. eapply hoare_seq; [apply hoare_current_fds|]. intros x ->. rewrite (proj2 (Z.eqb_neq _ _) Hp0).
  eapply hoare_seq; [apply (hoare_pipes heap_ok c _ (fun v => -1 <= v < Pipe.MAX_PIPES)), pipes_ok_alloc|]. intros i Hi. destruct (Z.ltb_spec i 0); [c64|].
  eapply hoare_seq; [apply hoare_alloc; [by vm_compute|entry_tac]|]. intros rfd Hr.
  destruct (rfd <? 0); [eapply hoare_bind; [apply hoare_pipe_free|]; intros []; c64|].
  eapply hoare_seq; [apply hoare_alloc; [by vm_compute|entry_tac]|]. intros wfd Hw.
  destruct (wfd <? 0).
  { eapply hoare_bind; [apply hoare_free_fd|]. intros []. eapply hoare_bind; [apply hoare_pipe_free|]. intros []. c64. }
  eapply hoare_bind; [apply hoare_to_user, Forall_app; split; apply le_bytes_bytes|]. intros b. destruct (negb b); [|c64].
  eapply hoare_bind; [apply hoare_free_fd|]. intros []. eapply hoare_bind; [apply hoare_free_fd|]. intros [].
  eapply hoare_bind; [apply hoare_pipe_free|]. intros []. c64.
Qed.

(** *** Sockets *)

Lemma safe_socket d ty pr : safe64 (sys_socket lapic_id d ty pr).
Proof.
  eapply hoare_seq; [apply hoare_current_fds|]. intros x ->. rewrite (proj2 (Z.eqb_neq _ _) Hp0).
  eapply hoare_seq; [apply (hoare_net heap_ok c _ (fun v => -1 <= v < NetStack.MAX_SOCKETS)), safe_sock_alloc|]. intros i Hi. destruct (Z.ltb_spec i 0); [c64|].
  eapply hoare_seq; [apply hoare_alloc; [by vm_compute|entry_tac]|]. intros fd Hfd. unfold MAX_FDS in Hfd. destruct (fd <? 0); [|c64].
  apply (hoare_bind _ _ _ (fun _ => I)); [|intros _; c64].
  eapply hoare_mono; [apply (hoare_net heap_ok c _ (fun _ => True))|done|by intros ? ? []]. intros x Hx. split; [by apply safe_sock_free|done].
Qed.

Lemma safe_with_socket fd f : (forall i, safe64 (f i)) -> safe64 (with_socket lapic_id fd f).
Proof.
  intros Hf. eapply hoare_seq; [apply hoare_current_fds|]. intros x ->. rewrite (proj2 (Z.eqb_neq _ _) Hp0).
  eapply hoare_seq; [apply hoare_table|]. intros tb _. destruct (negb _); [c64|apply Hf].
Qed.

Lemma safe_connect fd a n : safe64 (sys_connect lapic_id fd a n).
Proof.
  unfold sys_connect. destruct (_ <=? _); [c64|]. apply safe_with_socket. intros i.
  eapply hoare_seq; [by apply (hoare_mono _ _ _ _ (fun r k => True /\ I k) (hoare_from_user heap_ok c a sizeof_sockaddr_in ltac:(done))); [|intros [] k []]|].
  intros [b sa] _. destruct (negb b); [c64|]. cbv zeta. eapply hoare_mono; [apply (hoare_net_poll heap_ok c _ (fun r => r = 0 \/ r = -1))|done|].
  - intros x Hx. by apply safe_sock_connect.
  - intros v k [Hv Hk]. split; [unfold is_s64; lia|done].
Qed.

Lemma safe_send_chunks fuel i a len done_ : enough fuel len done_ -> safe64 (send_chunks fuel i a len done_).
Proof.
  revert done_. induction fuel as [|f IH]; intros d He; [destruct He; lia|]. cbn [send_chunks].
  destruct (Z.ltb_spec d len) as [Hlt|]; [|apply ret64, s64_range]. cbv zeta. destruct (chunk_bounds len d Hlt) as (H1 & H2 & H3).
  eapply hoare_seq; [apply (hoare_mono _ _ _ _ (fun r k => (bytes r.2 /\ (r.1 = true -> blen r.2 = chunk_of len d)) /\ I k) (hoare_from_user heap_ok c (u64 (a + d)) (chunk_of len d) ltac:(lia))); [done|by intros [] k []]|].
  intros [b l] [Hb Hl]. cbn [fst snd] in *. destruct b; cbn [negb]; [|apply ret64; destruct (negb _); [apply s64_range|unfold is_s64; lia]].
  specialize (Hl eq_refl). eapply hoare_seq; [apply (hoare_net heap_ok c _ (fun r => r = -1 \/ r = blen l))|].
  { intros x Hx. apply safe_sock_send; [done|lia]. }
  intros n Hn. destruct (Z.ltb_spec n 0); [apply ret64; destruct (negb _); [apply s64_range|unfold is_s64; lia]|].
  rewrite u32_small by int_lia. destruct (Z.ltb_spec n (chunk_of len d)); [apply ret64, s64_range|].
  apply IH. unfold enough in *. lia.
Qed.

Lemma safe_send fd a len fl : 0 <= len -> safe64 (sys_send lapic_id fd a len fl).
Proof. intros Hl. unfold sys_send. destruct (negb _); [c64|]. apply safe_with_socket. intros i. by apply safe_send_chunks, enough_chunks. Qed.

Lemma safe_dns a b : safe64 (sys_dns a b).
Proof.
  apply hoare_string; [c64|]. intros host _. eapply hoare_seq; [apply (hoare_net_poll heap_ok c _ (fun _ => True))|].
  - intros x Hx. destruct (safe_dns_resolve (cstr_of host) x Hx) as (r & x' & E & Hx'). by exists r, x'.
  - intros [ip|] _; [|c64]. apply to_user64; [apply le_bytes_bytes|unfold is_s64; lia].
Qed.

(** *** The rest *)

Lemma safe_listdir a b n fl : u32 n <= 2 ^ 31 -> safe_path a (sys_listdir ok lapic_id a b n fl).
Proof.
  intros Hn. apply hoare_path1; [c64|]. intros path Hp. destruct (negb _); [c64|]. destruct (n =? 0); [c64|].
  pose proof (u32_range n) as Hu. eapply hoare_bind; [by apply hoare_kmalloc|]. intros kb. cbv beta.
  destruct (Z.eqb_spec kb 0) as [->|Hkb]; [eapply hoare_mono; [apply ret64|by intros k []|done]; unfold is_s64; lia|].
  apply (hoare_bind _ _ _ (fun r k => (0 <= r.1 <= blen r.2 /\ blen r.2 <= u32 n /\ bytes r.2) /\ kernel_wf (heap_has kb) c k)).
  { eapply hoare_mono; [apply (hoare_vfs (heap_has kb) c _ (fun r => 0 <= r.1 <= blen r.2 /\ blen r.2 <= u32 n /\ bytes r.2))|by intros k []|done].
    intros s0 Hs <-. eapply triple_mono; [apply safe_vfs_listdir; [done|done|int_lia]|done|]. by intros [v out] s []. }
  intros [v out]. apply hoare_pure. cbn [fst snd]. intros (Hv & Ho & Hb).
  eapply hoare_bind; [apply hoare_to_user; by apply Forall_take|]. intros r. eapply hoare_bind; [apply hoare_kfree|]. intros [].
  apply ret64. destruct r; unfold is_s64; int_lia.
Qed.

Lemma safe_ps a n : (forall x y, 0 < y -> bytes (stale x y) /\ blen (stale x y) = y) -> safe64 (sys_ps stale a n).
Proof.
  intros Hst. unfold sys_ps. destruct (negb _); [c64|]. destruct (n =? 0); [c64|].
  pose proof (u32_range n) as Hu. eapply hoare_bind; [by apply hoare_kmalloc|]. intros kb. cbv beta.
  destruct (Z.eqb_spec kb 0) as [->|Hkb]; [eapply hoare_mono; [apply ret64|by intros k []|done]; unfold is_s64; lia|].
  intros k [Hk Hn]. specialize (Hn Hkb). destruct (Hst kb (u32 n) Hn) as [Hb Hl].
  destruct (process_ps_spec (stale kb (u32 n)) (pr k)) as (r & b & E & Hr & Hbl & _).
  { lia. }
  { intros q Hq. destruct (kw_procs _ _ _ Hk q Hq) as [(? & (? & _) & _) _]. done. }
  assert (bytes b) as Hbb.
  { eapply process_ps_bytes; [|exact Hb|exact E]. intros q Hq. apply (kw_procs _ _ _ Hk q Hq). }
  unfold mbind at 1, K_bind at 1, gets. rewrite E. revert k Hk E. intros k Hk _. revert k Hk.
  change (hoare (kernel_wf (heap_has kb) c) (b0 ← to_user a (take (Z.to_nat r) b); _ ← Syscall.on_heap (Heap.kfree kb); mret (if (b0 : bool) then 0 else -14)) (fun v k => is_s64 v /\ I k)).
  eapply hoare_bind; [apply hoare_to_user; by apply Forall_take|]. intros b0. eapply hoare_bind; [apply hoare_kfree|]. intros [].
  apply ret64. destruct b0; unfold is_s64; lia.
Qed.

Lemma two_words_bytes x y : bytes (two_words x y).
Proof. apply Forall_app. split; apply le_bytes_bytes. Qed.

Lemma safe_meminfo a : safe64 (sys_meminfo a).
Proof.
  eapply hoare_bind; [apply (hoare_gets _ _ (fun _ => I)); done|]. intros q. apply to_user64; [apply two_words_bytes|unfold is_s64; lia].
Qed.

Lemma safe_diskinfo a : safe64 (sys_diskinfo lapic_id a).
Proof.
  eapply hoare_bind; [apply (hoare_vfs_any heap_ok c); intros s0 Hs _; by apply safe_vfs_disk_stats|].
  intros [x y]. apply to_user64; [apply two_words_bytes|unfold is_s64; lia].
Qed.

Lemma safe_reboot a : hoare I (sys_reboot lapic_id a) (fun r k => (forall v, r = Some v -> is_s64 v) /\ I k).
Proof.
  eapply hoare_seq; [apply hoare_current_process|]. intros x ->. eapply hoare_seq; [apply hoare_proc_at|]. intros q _.
  destruct (_ || _); [apply hoare_ret; intros k Hk; split; [|done]; intros v [= <-]; unfold is_s64; lia|].
  apply (hoare_bind _ _ _ (fun _ => I)); [apply hoare_modify; intros k Hk; by apply wf_power|]. intros _. by apply hoare_ret.
Qed.

(** ** Handlers that wait *)

Section waits.
Context (Hyield : forall k, I k -> I (yield k)).

Lemma hoare_yield : hoare I (modify yield) (fun _ => I).
Proof. by apply hoare_modify. Qed.

Lemma safe_sleep ms : safe64 (sys_sleep lapic_id yield ms).
Proof.
  apply (hoare_bind _ _ _ (fun _ => I)); [|intros []; eapply hoare_bind; [apply hoare_yield|]; intros []; c64].
  intros k Hk. unfold Syscall.on_sched, on_procs, Process.on_sched, Sched.sched_sleep_ms, Sched.sched_current. rewrite cpu_id.
  cbv [mbind K_bind mret K_ret gets modify]. destruct (_ || _); (apply (wf_procs heap_ok c k); [done|]); apply procs_step_sched; [done|].
  set (x := aget 0 _ _). set (s1 := Sched.upd_thread x _ (sch (pr k))). assert (sched_keeps (sch (pr k)) s1) as H1 by by apply sched_keeps_upd.
  set (s2 := Sched.upd_thread x _ s1). assert (sched_keeps s1 s2) as H2 by by apply sched_keeps_upd.
  set (s3 := Sched.upd_thread x _ s2). assert (sched_keeps s2 s3) as H3 by by apply sched_keeps_upd.
  etrans; [exact H1|]. etrans; [exact H2|]. etrans; [exact H3|]. by split.
Qed.

Context (HB : B).

Lemma hoare_blocked {A} (Q : A -> kernel -> Prop) : hoare I (panic BLOCKED) Q.
Proof. by intros k Hk. Qed.

Lemma hoare_wait_for {A} n (step : K kernel (option A)) (F : A -> Prop) :
  hoare I step (fun r k => (forall a, r = Some a -> F a) /\ I k) -> hoare I (wait_for yield n step) (fun a k => F a /\ I k).
Proof.
  intros Hs. induction n as [|n IH]; cbn [wait_for]; [apply hoare_blocked|]. eapply hoare_seq; [exact Hs|]. intros [a|] Ha.
  - apply hoare_ret. intros k Hk. split; [by apply Ha|done].
  - eapply hoare_bind; [apply hoare_yield|]. intros []. exact IH.
Qed.

Lemma hoare_procs_wait f : (forall s s', f s = Some s' -> (forall q, q = p \/ q ∈ s_procs s -> table_ok (fds (pm s q))) -> pipes_ok (pipes s) -> procs_step s s') ->
  hoare I (on_procs_wait f) (fun _ => I).
Proof.
  intros Hf k Hk. unfold on_procs_wait. destruct (f (pr k)) as [s|] eqn:E; [|done]. apply (wf_procs heap_ok c k); [done|]. apply (Hf _ _ E); [|apply Hk].
  intros q [->|Hq]; [apply Hk|]. apply (kw_procs _ _ _ Hk q Hq).
Qed.

Lemma find_in s x : process_find s x <> 0 -> process_find s x ∈ s_procs s.
Proof.
  unfold process_find, find_locked. destruct (find_slot _ _ 0) as [i|] eqn:E; [|done]. intros _. apply (find_slot_Some _ 0) in E as (Hi & _).
  unfold aget. rewrite <- (Nat2Z.id (length _)) in Hi. apply list_elem_of_In, nth_In. lia.
Qed.

Lemma safe_kill x : safe64 (sys_kill lapic_id patience x).
Proof.
  eapply hoare_seq; [apply hoare_current_process|]. intros q ->. rewrite (proj2 (Z.eqb_neq _ _) Hp0).
  intros k Hk. unfold mbind at 1, K_bind at 1, gets at 1. set (v := process_find (pr k) (u32 x)).
  assert (v <> 0 -> v ∈ s_procs (pr k)) as Hv by apply find_in. clearbody v. destruct (Z.eqb_spec v 0) as [->|Hv0]; [split; [unfold is_s64; lia|done]|].
  specialize (Hv Hv0). unfold proc_at, gets, mbind at 1 2, K_bind at 1 2. destruct (_ && _); [split; [unfold is_s64; lia|done]|].
  unfold mbind, K_bind, on_procs_wait. destruct (process_kill patience v (pr k)) as [s|] eqn:E; [|done]. split; [unfold is_s64; lia|].
  apply (wf_procs heap_ok c k); [done|]. eapply procs_step_kill; [|apply Hk|exact E]. apply (kw_procs _ _ _ Hk v Hv).
Qed.

Lemma safe_exit x : hoare I (sys_exit lapic_id patience x) (fun _ => I).
Proof.
  eapply hoare_seq; [apply hoare_current|]. intros q ->.
  eapply hoare_seq; [apply (hoare_gets _ _ (fun q k => q = p /\ I k)); intros k Hk; split; [apply Hk|done]|]. intros q ->.
  rewrite (proj2 (Z.eqb_neq _ _) Hp0). apply (hoare_bind _ _ _ (fun _ => I)).
  - apply (hoare_bind _ _ _ (fun _ => I)).
    + intros k Hk. unfold on_procs, modify. apply (wf_procs heap_ok c k); [done|]. by apply procs_step_close_all; apply Hk.
    + intros []. apply hoare_procs_wait. intros s s' E _ _. by eapply procs_step_exited.
  - intros []. intros k Hk. unfold Syscall.on_sched, on_procs, Process.on_sched, modify. apply (wf_procs heap_ok c k); [done|].
    apply procs_step_sched. by apply sched_keeps_upd.
Qed.

(** *** Writing *)

Abbreviation early := (fun r k => (forall v, r = Some v -> is_s64 v) /\ I k).

Lemma early_ret r : (forall v, r = Some v -> is_s64 v) -> hoare I (mret r) early.
Proof. intros Hr. by apply hoare_ret. Qed.

Lemma or_done d e : is_s64 e -> is_s64 (if negb (d =? 0) then s64 d else e).
Proof. intros. destruct (negb _); [apply s64_range|done]. Qed.

Lemma safe_pipe_put n i l w d : bytes l -> hoare I (pipe_put yield n i l w d) early.
Proof.
  intros Hl. revert w. induction n as [|n IH]; intros w; cbn [pipe_put]; (destruct (negb _); [by apply early_ret|]); [apply hoare_blocked|].
  eapply hoare_seq; [apply (hoare_pipes heap_ok c _ (fun r => -1 <= r <= blen (drop (Z.to_nat w) l)))|].
  { intros x Hx. apply pipes_ok_write; [done|]. by apply Forall_drop. }
  intros r Hr. destruct (r <? 0); [apply early_ret; intros v [= <-]; apply or_done; unfold is_s64; lia|]. cbv zeta.
  apply (hoare_bind _ _ _ (fun _ => I)); [destruct (_ <? _); [apply hoare_yield|by apply hoare_ret]|]. intros []. apply IH.
Qed.

Lemma safe_sink_put sink i l d : bytes l -> blen l <= 512 -> hoare I (sink_put ok lapic_id yield patience sink i l d) early.
Proof.
  intros Hl Hn. destruct sink; cbn [sink_put].
  - apply early_ret. intros v [= <-]. unfold is_s64. lia.
  - eapply hoare_bind; [apply hoare_serial_write|]. intros []. by apply early_ret.
  - by apply safe_pipe_put.
  - eapply hoare_seq; [apply (hoare_net heap_ok c _ (fun r => r = -1 \/ r = blen l)); intros x Hx; apply safe_sock_send; [done|lia]|].
    intros r Hr. apply early_ret. destruct (r <? 0); [|done]. intros v [= <-]. apply or_done. unfold is_s64. lia.
  - eapply hoare_seq; [apply (hoare_vfs heap_ok c _ (fun r => -1 <= r <= blen l)); intros s0 Hs _; by apply safe_vfs_write|].
    intros r Hr. cbv beta in Hr. apply early_ret. destruct (r <? 0); [|done]. intros v [= <-]. apply or_done. unfold is_s64. lia.
Qed.

Lemma hoare_chunk a n : 0 <= n -> hoare I (from_user a n) (fun r k => (bytes r.2 /\ (r.1 = true -> blen r.2 = n)) /\ I k).
Proof. intros Hn. eapply hoare_mono; [by apply (hoare_from_user heap_ok c a n)|done|]. by intros [] k []. Qed.

Lemma safe_write_chunks fuel sink i a n d : enough fuel n d -> safe64 (write_chunks ok lapic_id yield patience fuel sink i a n d).
Proof.
  revert d. induction fuel as [|f IH]; intros d He; [destruct He; lia|]. cbn [write_chunks].
  destruct (Z.ltb_spec d n) as [Hlt|]; [|apply ret64, s64_range]. cbv zeta. destruct (chunk_bounds n d Hlt) as (H1 & H2 & H3).
  eapply hoare_seq; [apply hoare_chunk; lia|]. intros [b l] [Hb Hl]. cbn [fst snd] in *.
  destruct b; cbn [negb]; [|apply ret64, or_done; unfold is_s64; lia]. specialize (Hl eq_refl).
  eapply hoare_seq; [apply safe_sink_put; [done|lia]|]. intros [v|] Hv; [by apply ret64, Hv|]. apply IH. unfold enough in *. lia.
Qed.

Lemma safe_sys_write fd a n : 0 <= n -> safe64 (sys_write ok lapic_id yield patience fd a n).
Proof.
  intros Hn. unfold sys_write. destruct (negb _); [c64|]. eapply hoare_seq; [apply hoare_current_fds|]. intros q ->.
  eapply hoare_seq; [apply hoare_table|]. intros tb _. destruct (resolve_sink _ _ _) as [e|[sink i]] eqn:E.
  - apply ret64. unfold resolve_sink in E. destruct (_ || _); [done|]. destruct (negb _); [simplify_eq; unfold is_s64; lia|].
    destruct (bool_decide _); [done|]. cbv zeta in E. destruct (_ <? 0); simplify_eq. unfold is_s64; lia.
  - by apply safe_write_chunks, enough_chunks.
Qed.

(** *** Reading *)

Lemma safe_give a n l : bytes l -> is_s64 n -> safe64 (give a n l).
Proof. intros Hl Hn. apply to_user64; [by apply Forall_take|done]. Qed.

(** What a wait for input returns. *)
Abbreviation input len := (fun r k => (bytes (snd r) /\ -2 <= fst r <= len) /\ I k).

Lemma safe_read_line n count l : bytes l -> blen l <= count -> hoare I (read_line yield n count l) (input count).
Proof.
  revert l. induction n as [|n IH]; intros l Hl Hc; cbn [read_line]; [apply hoare_blocked|]. pose proof (blen_nonneg l).
  assert (forall l', bytes l' -> blen l' <= count -> hoare I (mret (blen l', l')) (input count)) as Hret.
  { intros l' Hl' Hc'. apply hoare_ret. intros k Hk. pose proof (blen_nonneg l'). cbn. split; [split; [done|lia]|done]. }
  destruct (Z.ltb_spec (blen l) count); [|by apply Hret]. eapply hoare_seq; [apply hoare_serial_read|]. intros x Hx.
  destruct (x =? 0); [eapply hoare_bind; [apply hoare_yield|]; intros []; by apply IH|]. cbv zeta.
  set (y := if x =? 13 then 10 else x). assert (is_u8 y) as Hy by (unfold y; by destruct (x =? 13)). clearbody y.
  destruct (y =? 4); [by apply Hret|].
  assert (bytes (l ++ [y]) /\ blen (l ++ [y]) <= count) as [? ?].
  { split; [apply Forall_app; split; [done|by constructor]|rewrite blen_app; change (blen [y]) with 1; lia]. }
  destruct (y =? 10); [by apply Hret|by apply IH].
Qed.

Lemma safe_pipe_get i len : 0 <= len -> hoare I (pipe_get yield patience i len) (input len).
Proof.
  intros Hl. apply (hoare_wait_for _ _ (fun r => bytes r.2 /\ -2 <= r.1 <= len)).
  eapply hoare_seq; [apply (hoare_pipes heap_ok c _ (fun r => bytes r.2 /\ -2 <= r.1 <= len))|].
  { intros x Hx. pose proof (pipes_ok_read i len x Hx Hl) as Hr. destruct (Pipe.pipe_read i len x) as [[n b] x']. cbn. tauto. }
  intros [n b] Hr. apply hoare_ret. intros k Hk. split; [|done]. cbn [fst snd] in *. destruct (n =? -2); [done|]. by intros ? [= <-].
Qed.

Lemma safe_sock_get i len : 0 <= len <= 512 -> hoare I (sock_get yield patience i len) (input len).
Proof.
  intros Hl. apply (hoare_wait_for _ _ (fun r => bytes r.2 /\ -2 <= r.1 <= len)).
  eapply hoare_seq; [apply (hoare_net heap_ok c _ (fun r => bytes r.2 /\ -2 <= r.1 <= len))|].
  { intros x Hx. pose proof (safe_sock_recv i len x Hx ltac:(lia)) as Hr. destruct (NetStack.sock_recv i len x) as [[n b] x']. cbn.
    pose proof (blen_nonneg b). destruct Hr as (? & ? & ? & Hr). split; [done|]. split; [done|lia]. }
  intros [n b] Hr. apply hoare_ret. intros k Hk. split; [|done]. cbn [fst snd] in *. destruct (n =? 0); [done|]. by intros ? [= <-].
Qed.

Lemma hoare_vfs_read vfd n : 0 <= n ->
  hoare I (on_vfs lapic_id (Vfs.vfs_read ok vfd n)) (fun r k => (bytes r.2 /\ r.1 <= n) /\ I k).
Proof.
  intros Hn. apply (hoare_vfs heap_ok c _ (fun r => bytes r.2 /\ r.1 <= n)). intros s0 Hs _.
  eapply triple_mono; [by apply (safe_vfs_read nb ok s0 Hs vfd n)|done|]. intros [v out] s [(Hb & Ho & Hv) Hk]. split; [|done]. cbn. split; [done|lia].
Qed.

Lemma safe_read_chunks fuel vfd a n d : enough fuel n d -> safe64 (read_chunks ok lapic_id fuel vfd a n d).
Proof.
  revert d. induction fuel as [|f IH]; intros d He; [destruct He; lia|]. cbn [read_chunks].
  destruct (Z.ltb_spec d n) as [Hlt|]; [|apply ret64, s64_range]. cbv zeta. destruct (chunk_bounds n d Hlt) as (H1 & H2 & H3).
  eapply hoare_seq; [apply hoare_vfs_read; lia|]. intros [r l] [Hb Hl]. cbn [fst snd] in *. destruct (Z.leb_spec r 0); [apply ret64, s64_range|].
  eapply hoare_bind; [apply hoare_to_user; by apply Forall_take|]. intros b. destruct (negb b); [apply ret64, or_done; unfold is_s64; lia|].
  rewrite u32_small by int_lia. destruct (Z.ltb_spec r (chunk_of n d)); [apply ret64, s64_range|]. apply IH. unfold enough in *. lia.
Qed.

Lemma safe_sys_read fd a n : 0 <= n -> safe64 (sys_read ok lapic_id yield patience fd a n).
Proof.
  intros Hn. unfold sys_read. destruct (negb _); [c64|]. destruct (Z.eqb_spec n 0); [c64|]. eapply hoare_seq; [apply hoare_current_fds|]. intros q ->.
  eapply hoare_seq; [apply hoare_table|]. intros tb _. cbv zeta. set (ch := if 512 <? n then 512 else u32 n).
  assert (0 <= ch <= 512) as Hch by (unfold ch; pose proof (u32_range n); destruct (Z.ltb_spec 512 n); [lia|rewrite u32_small; int_lia]). clearbody ch.
  destruct (fd =? 0).
  { apply (hoare_bind _ _ _ (input ch)).
    - destruct (_ && _).
      + eapply hoare_seq; [apply safe_pipe_get; lia|]. intros [r l] Hr. apply hoare_ret. intros k Hk. split; [|done]. cbn [fst snd] in *.
        destruct (r <? 0); cbn; [split; [constructor|lia]|done].
      + apply safe_read_line; [constructor|unfold blen; cbn; lia].
    - intros [r l]. apply hoare_pure. cbn [fst snd]. intros [Hl Hr]. destruct (r <=? 0); [apply ret64|apply safe_give; [done|]]; unfold is_s64; lia. }
  rewrite (proj2 (Z.eqb_neq _ _) Hp0). destruct (bool_decide _).
  - eapply hoare_seq; [by apply safe_sock_get|]. intros [r l]. cbn [fst snd]. intros [Hl Hr]. destruct (r <? 0); [c64|]. apply safe_give; [done|]. unfold is_s64; lia.
  - destruct (_ <? 0); [c64|]. by apply safe_read_chunks, enough_chunks.
Qed.

Lemma safe_recv fd a n fl : 0 <= n -> safe64 (sys_recv lapic_id yield patience fd a n fl).
Proof.
  intros Hn. unfold sys_recv. destruct (negb _); [c64|]. destruct (n =? 0); [c64|]. apply safe_with_socket. intros i.
  set (ch := if 512 <? n then 512 else u32 n).
  assert (0 <= ch <= 512) as Hch by (unfold ch; pose proof (u32_range n); destruct (Z.ltb_spec 512 n); [lia|rewrite u32_small; int_lia]). clearbody ch.
  eapply hoare_seq; [by apply safe_sock_get|]. intros [r l]. cbn [fst snd]. intros [Hl Hr]. destruct (r <? 0); [c64|]. apply safe_give; [done|]. unfold is_s64; lia.
Qed.
End waits.
End handlers.
End rules.

(** ** The dispatcher *)

Definition waits (nr : Z) : bool := match nr with 0 | 1 | 45 | 60 | 62 => true | _ => false end.
Definition covered (nr : Z) : bool := match nr with 61 | 500 | 501 => false | _ => true end.

(** The length of path arguments and listing buffers. *)
Definition args_ok (c : list Z) (nr a0 a1 a2 : Z) (k : kernel) : Prop :=
  match nr with
  | 2 | 4 | 80 | 83 | 87 | 90 | 92 | 601 => path_short c a0 k
  | 82 => path_short c a0 k /\ path_short c a1 k
  | 600 => path_short c a0 k /\ u32 a2 <= 2 ^ 31
  | _ => True
  end.

Section dispatch.
Context (Ht0 : t <> 0) (Hp0 : p <> 0) (Hcpu : 0 <= lapic_id < Sched.MAX_CPUS).
Context (Hyield : forall c k, kernel_wf heap_ok c k -> kernel_wf heap_ok c (yield k)).
Context (Hstale : forall x y, 0 < y -> bytes (stale x y) /\ blen (stale x y) = y).
Context (c : list Z).

(** What a call leaves. *)
Definition outcome_ok (nr : Z) (r : option Z) (k : kernel) : Prop :=
  (exists c', kernel_wf heap_ok c' k /\ (nr <> 80 -> c' = c)) /\
  match r with Some v => is_s64 v | None => nr = 60 \/ nr = 169 end.

Lemma ret_sound B nr P m : hoare B P m (fun v k => is_s64 v /\ kernel_wf heap_ok c k) -> hoare B P (ret m) (outcome_ok nr).
Proof.
  intros Hm. eapply hoare_bind; [exact Hm|]. intros v. apply hoare_ret. intros k [Hv Hk]. split; [by exists c|done].
Qed.

(** The handlers with a result and a plain precondition. *)
Lemma plain_sound B nr (F : kernel -> Prop) m : hoare B (kernel_wf heap_ok c) m (fun v k => is_s64 v /\ kernel_wf heap_ok c k) ->
  hoare B (fun k => kernel_wf heap_ok c k /\ F k) (ret m) (outcome_ok nr).
Proof. intros Hm. apply ret_sound. eapply hoare_mono; [exact Hm|by intros k []|done]. Qed.

Lemma field_sound B nr F f : (forall q, proc_ok q -> is_u32 (f q)) ->
  hoare B (fun k => kernel_wf heap_ok c k /\ F k) (ret (my_field lapic_id f)) (outcome_ok nr).
Proof.
  intros Hf. apply plain_sound, safe_my_field; [done..|]. intros q Hq. specialize (Hf q Hq). unfold is_s64. int_lia.
Qed.

Lemma chdir_sound B a : hoare B (fun k => kernel_wf heap_ok c k /\ path_short c a k) (ret (sys_chdir ok lapic_id a)) (outcome_ok 80).
Proof.
  apply (hoare_bind _ _ _ _ (fun v k => is_s64 v /\ exists c', kernel_wf heap_ok c' k)).
  - apply (hoare_path1 _ heap_ok c); [intros k Hk; split; [unfold is_s64; lia|by exists c]|]. intros path Hp.
    eapply hoare_mono; [by apply hoare_chdir|done|]. intros v k [Hv Hk]. split; [by eapply code64|done].
  - intros v. apply hoare_ret. intros k (Hv & c' & Hk). split; [by exists c'|done].
Qed.

Lemma exit_sound a : hoare (waits 60 = true) (fun k => kernel_wf heap_ok c k /\ True) (_ ← sys_exit lapic_id patience a; mret None) (outcome_ok 60).
Proof.
  pose proof (Hyield c) as Hy. eapply hoare_bind; [eapply hoare_mono; [by apply safe_exit|by intros k []|]; intros u k Hk; exact Hk|].
  intros []. apply hoare_ret. intros k Hk. split; [by exists c|by left].
Qed.

Lemma reboot_sound B a : hoare B (fun k => kernel_wf heap_ok c k /\ True) (sys_reboot lapic_id a) (outcome_ok 169).
Proof.
  eapply hoare_mono; [by apply safe_reboot|by intros k []|]. intros r k [Hr Hk]. split; [by exists c|]. destruct r; [by apply Hr|by right].
Qed.

Lemma unknown_sound B nr P l : (forall k, P k -> kernel_wf heap_ok c k) -> hoare B P (_ ← serial_write l; mret (Some (-38))) (outcome_ok nr).
Proof.
  intros HP. eapply hoare_bind; [eapply hoare_mono; [apply (hoare_serial_write B heap_ok c)|exact HP|]; intros u k Hk; exact Hk|].
  intros []. apply hoare_ret. intros k Hk. split; [by exists c|]. unfold is_s64. lia.
Qed.

Ltac call_sound :=
  lazymatch goal with
  | |- hoare _ _ (_ ← sys_exit _ _ _; _) _ => apply exit_sound
  | |- hoare _ _ (sys_reboot _ _) _ => apply reboot_sound
  | |- hoare _ _ (ret (my_field _ _)) _ => apply field_sound; intros q (Hpid & (? & ? & ? & ? & ? & ?) & _); assumption
  | |- hoare _ _ (ret (sys_read _ _ _ _ _ _ _)) _ => by apply plain_sound, safe_sys_read
  | |- hoare _ _ (ret (sys_write _ _ _ _ _ _ _)) _ => by apply plain_sound, safe_sys_write
  | |- hoare _ _ (ret (sys_close _ _)) _ => by apply plain_sound, safe_close
  | |- hoare _ _ (ret (sys_recv _ _ _ _ _ _ _)) _ => by apply plain_sound, safe_recv
  | |- hoare _ _ (ret (sys_send _ _ _ _ _)) _ => by apply plain_sound, safe_send
  | |- hoare _ _ (ret (sys_sleep _ _ _)) _ => by apply plain_sound, safe_sleep
  | |- hoare _ _ (ret (sys_kill _ _ _)) _ => by apply plain_sound, safe_kill
  | |- hoare _ _ (ret (sys_getcwd _ _ _)) _ => by apply plain_sound, safe_getcwd
  | |- hoare _ _ (ret (sys_pipe _ _)) _ => by apply plain_sound, safe_pipe
  | |- hoare _ _ (ret (sys_socket _ _ _ _)) _ => by apply plain_sound, safe_socket
  | |- hoare _ _ (ret (sys_connect _ _ _ _)) _ => by apply plain_sound, safe_connect
  | |- hoare _ _ (ret (sys_dns _ _)) _ => by apply plain_sound, safe_dns
  | |- hoare _ _ (ret (sys_meminfo _)) _ => by apply plain_sound, safe_meminfo
  | |- hoare _ _ (ret (sys_diskinfo _ _)) _ => by apply plain_sound, safe_diskinfo
  | |- hoare _ _ (ret (sys_ps _ _ _)) _ => by apply plain_sound, safe_ps
  | |- hoare _ _ (ret (sys_setuid _ _)) _ => apply plain_sound, safe_on_cred; [done..|]; intros; by apply cred_ok_setuid; [|apply u32_range]
  | |- hoare _ _ (ret (sys_setgid _ _)) _ => apply plain_sound, safe_on_cred; [done..|]; intros; by apply cred_ok_setgid; [|apply u32_range]
  | |- hoare _ _ (ret (sys_seteuid _ _)) _ => apply plain_sound, safe_on_cred; [done..|]; intros; by apply cred_ok_seteuid; [|apply u32_range]
  | |- hoare _ _ (ret (sys_setegid _ _)) _ => apply plain_sound, safe_on_cred; [done..|]; intros; by apply cred_ok_setegid; [|apply u32_range]
  | |- hoare _ _ (ret (sys_open _ _ _ _ _)) _ => by apply ret_sound, safe_open
  | |- hoare _ _ (ret (sys_stat _ _ _ _)) _ => by apply ret_sound, safe_sys_stat
  | |- hoare _ _ (ret (sys_creat _ _ _)) _ => by apply ret_sound, safe_creat
  | |- hoare _ _ (ret (sys_mkdir _ _ _)) _ => by apply ret_sound, safe_sys_mkdir
  | |- hoare _ _ (ret (sys_unlink _ _ _)) _ => by apply ret_sound, safe_sys_unlink
  | |- hoare _ _ (ret (sys_chmod _ _ _ _)) _ => by apply ret_sound, safe_sys_chmod
  | |- hoare _ _ (ret (sys_chown _ _ _ _ _)) _ => by apply ret_sound, safe_sys_chown
  | |- hoare _ _ (ret (sys_chdir _ _ _)) _ => apply chdir_sound
  | |- hoare _ _ (ret (sys_rename _ _ _ _)) _ => by apply ret_sound, safe_sys_rename
  | |- hoare _ _ (ret (sys_listdir _ _ _ _ _ _)) _ => idtac
  end.

Ltac explode := repeat match goal with |- context [match ?q with xI _ => _ | xO _ => _ | xH => _ end] => is_var q; destruct q end.

Lemma dispatch_sound nr a0 a1 a2 a3 : is_u64 a1 -> is_u64 a2 -> covered nr = true ->
  hoare (waits nr = true) (fun k => kernel_wf heap_ok c k /\ args_ok c nr a0 a1 a2 k)
    (syscall_dispatch ok lapic_id yield patience stale nr a0 a1 a2 a3) (outcome_ok nr).
Proof.
  intros Ha1 Ha2 Hc. pose proof (Hyield c) as Hy. assert (0 <= a2 /\ 0 <= a1) as [H2 H1] by int_lia.
  unfold syscall_dispatch. destruct nr as [|q|q]; [call_sound| |by apply unknown_sound; intros k []].
  explode. all: try (apply unknown_sound; by intros k []). all: try discriminate Hc. all: cbn [args_ok]; call_sound.
  intros k (Hk & Hp & Hn). revert k Hk Hp.
  assert (hoare (waits 600 = true) (fun k => kernel_wf heap_ok c k /\ path_short c a0 k) (ret (sys_listdir ok lapic_id a0 a1 a2 a3)) (outcome_ok 600)) as Hl
    by by apply ret_sound, safe_listdir.
  intros k Hk Hp. by apply (Hl k).
Qed.
End dispatch.
End machine.

(** C1: soundness of the system calls. From a well-formed state, any call but [waitpid] and the two that create a
    process, with any 64-bit arguments whose paths and listing buffer have an admitted length, on any disk contents,
    under any failures of the device and the allocator and with any frames on the network, does not panic; it leaves
    a well-formed state, with another working directory only after [chdir], and returns a 64-bit integer unless it is
    [exit] or a shutdown. Only [read], [write], [recv], [exit] and [kill] can be left waiting. *)
Theorem syscall_sound ok lapic_id yield patience stale nb t p c nr a0 a1 a2 a3 k :
  t <> 0 -> p <> 0 -> 0 <= lapic_id < Sched.MAX_CPUS ->
  (forall c k, kernel_wf lapic_id nb t p heap_ok c k -> kernel_wf lapic_id nb t p heap_ok c (yield k)) ->
  (forall x y, 0 < y -> bytes (stale x y) /\ blen (stale x y) = y) ->
  is_u64 a1 -> is_u64 a2 -> covered nr = true ->
  kernel_wf lapic_id nb t p heap_ok c k -> args_ok c nr a0 a1 a2 k ->
  match syscall_dispatch ok lapic_id yield patience stale nr a0 a1 a2 a3 k with
  | Ok (r, k') =>
      (exists c', kernel_wf lapic_id nb t p heap_ok c' k' /\ (nr <> 80 -> c' = c)) /\
      match r with Some v => is_s64 v | None => nr = 60 \/ nr = 169 end
  | Panic msg => msg = BLOCKED /\ waits nr = true
  end.
Proof. intros Ht Hp Hl Hy Hs H1 H2 Hc Hk Ha. by apply dispatch_sound. Qed.

(** ** The small system *)

Definition demo_cwd : list Z := 47 :: zeros 255.

Lemma demo_cwd_ok : cwd_ok demo_cwd.
Proof. split; [constructor; [done|apply zeros_bytes]|by vm_compute]. Qed.

Lemma demo_vfs_wf fs e g : Ext2Safe.wf 48 fs -> vfs_wf 48 (vfs_for (Some (Vfs.mk_caller demo_cwd e g)) (demo_files fs)).
Proof.
  intros Hfs. assert (forall i, Vfs.file_at (vfs_for (Some (Vfs.mk_caller demo_cwd e g)) (demo_files fs)) i = Vfs.file_zero) as Hz.
  { intros i. unfold Vfs.file_at. cbn [Vfs.s_files vfs_for demo_files]. rewrite aget_lookup. destruct (_ !! _) eqn:E; [|done].
    by apply lookup_replicate in E as [-> _]. }
  split; [done|done| | |by apply Forall_replicate|apply demo_cwd_ok|].
  - intros f [= <-]. by split; vm_compute; auto.
  - intros i _. by rewrite Hz.
  - intros q [= <-]. apply demo_cwd_ok.
Qed.

Lemma demo_net_ok : net_ok (NetStack.boot Net.host_a NetStack.no_conns []).
Proof.
  split; [apply NetStack.boot_inv|constructor|apply Forall_replicate; apply zeros_bytes| |done].
  apply Forall_replicate. by split.
Qed.

Lemma demo_proc_ok : proc_ok demo_proc /\ table_ok (fds demo_proc).
Proof.
  split; [|split; [done|by apply Forall_replicate]].
  split; [done|]. split; [by repeat split|]. apply Forall_app. split; [by apply bytes_check|apply zeros_bytes].
Qed.

Lemma demo_kernel_wf fs : Ext2Safe.wf 48 fs -> kernel_wf 0 48 500 1000 heap_ok demo_cwd (demo_kernel fs).
Proof.
  intros Hfs. split; [done|done|apply demo_proc_ok|done|intros; apply demo_proc_ok| | |by apply demo_vfs_wf|apply demo_net_ok| |constructor].
  - split; [done|]. apply Forall_replicate. split; [apply zeros_bytes|by vm_compute].
  - exists [], []. apply fresh_heap_wf. by apply (Vmm.empty_machine_wf 0x200000).
  - intros a b. unfold demo_kernel. cbn [um]. destruct (demo_page a); [|done]. intros [= <-]. apply (Forall_aget_d is_u8); [by apply bytes_check|done].
Qed.

Lemma sample_st_wf : Ext2Safe.wf 48 Ext2.sample_st.
Proof. split; [apply bytes_check; by vm_compute|apply bytes_check; by vm_compute|by vm_compute|by vm_compute]. Qed.

(** [creat(/a)] by the demo process. *)
Lemma syscall_sound_witness : match syscall_dispatch Ext2.never_fails 0 (fun k => k) 3 (fun _ n => zeros n) 601 0x1000 0 0 0 (demo_kernel Ext2.sample_st) with
  | Ok (r, k') => (exists c', kernel_wf 0 48 500 1000 heap_ok c' k' /\ (601 <> 80 -> c' = demo_cwd)) /\ match r with Some v => is_s64 v | None => False end
  | Panic _ => False
  end.
Proof.
  pose proof (syscall_sound Ext2.never_fails 0 (fun k => k) 3 (fun _ n => zeros n) 48 500 1000 demo_cwd 601 0x1000 0 0 0 (demo_kernel Ext2.sample_st)
    ltac:(done) ltac:(done) ltac:(done) ltac:(done) (fun x y H => conj (zeros_bytes y) (blen_zeros y ltac:(lia))) ltac:(done) ltac:(done) eq_refl
    (demo_kernel_wf _ sample_st_wf)) as H.
  destruct (syscall_dispatch _ _ _ _ _ _ _ _ _ _ _) as [[r k']|msg]; [|by destruct H].
  destruct H as [H1 H2]; [by vm_compute|]. split; [exact H1|]. destruct r; [exact H2|by destruct H2].
Defined.
End SysSafe.
