(* ===== verification/SysFile.v ===== *)
(** * Reading and writing files through system calls

    [sys_write] and [sys_read] on a regular file, from the bytes of user memory through the bounce buffer of 512
    bytes, the table of open files and [ext2_write] and [ext2_read] to the contents of the file, when no request to
    the device fails. The file system is described as in [Ext2File]. *)

From S2P Require Import Prelude Bytes CString Pmm Vmm Heap HeapPages Uaccess Cred Fd Pipe Sched Elf Process.
From S2P Require Import Net Tcp Dns Dhcp NetStack NetSafe Ext2Dir Ext2 Ext2Safe Ext2File Gpt Vfs VfsSafe Syscall SysSafe.
Import CString HeapPages Uaccess Cred Fd Process Syscall.

Module SysFile.

(** ** User memory in pieces *)

Lemma movsb_from_slice n m src l o c : movsb_from n m src = (l, 0) -> (o + c <= n)%nat ->
  movsb_from c m (src + Z.of_nat o) = (take c (drop o l), 0).
Proof.
  revert src l o c. induction n as [|n IH]; intros src l o c H Hn; cbn [movsb_from] in H.
  - assert (o = 0%nat /\ c = 0%nat) as [-> ->] by lia. by simplify_eq.
  - destruct (m src) as [b|] eqn:Eb; [|simplify_eq; lia]. destruct (movsb_from n m (src + 1)) as [l' r] eqn:E. injection H as <- ->.
    destruct o as [|o].
    + destruct c as [|c]; [done|]. cbn [movsb_from]. rewrite Z.add_0_r, Eb.
      specialize (IH (src + 1) l' 0%nat c E ltac:(lia)). rewrite Z.add_0_r in IH. rewrite IH. done.
    + replace (src + Z.of_nat (S o)) with (src + 1 + Z.of_nat o) by lia. apply (IH _ _ _ _ E). lia.
Qed.

Lemma copy_from_user_slice m src len l o c : is_u64 src -> is_u64 len -> copy_from_user m src len = (true, l) -> 0 <= o -> 0 <= c -> o + c <= len ->
  blen l = len /\ copy_from_user m (u64 (src + o)) c = (true, slice l o c).
Proof.
  intros Hs Hl H Ho Hc Hoc. pose proof (copy_from_user_spec m src len Hs Hl) as Hspec. rewrite H in Hspec. destruct Hspec as (Hr & Hlen & _ & _).
  specialize (Hlen eq_refl). split; [done|]. destruct (proj1 Hr eq_refl) as [Hlim _]. unfold USER_ADDR_LIMIT in Hlim.
  rewrite u64_small by int_lia. unfold copy_from_user in *. pose proof (user_range_ok_iff (src + o) c ltac:(int_lia) ltac:(int_lia)) as Hok.
  rewrite (proj2 Hok) by (unfold USER_ADDR_LIMIT; lia). destruct (negb (user_range_ok src len)); [done|]. cbn [negb].
  destruct (movsb_from (Z.to_nat len) m src) as [l' r] eqn:E. injection H as Er ->. apply Z.eqb_eq in Er. subst r.
  pose proof (movsb_from_slice _ _ _ _ (Z.to_nat o) (Z.to_nat c) E ltac:(lia)) as Hm. rewrite Z2Nat.id in Hm by done. rewrite Hm. done.
Qed.

(** A copy to writable memory. *)
Lemma movsb_to_all l w m dst : (forall a, dst <= a < dst + blen l -> w a = true) ->
  (movsb_to l w m dst).2 = 0 /\
  forall a, (movsb_to l w m dst).1 a = if decide (dst <= a < dst + blen l) then Some (aget 0 l (a - dst)) else m a.
Proof.
  revert m dst. induction l as [|b l IH]; intros m dst Hw; cbn [movsb_to].
  - split; [done|]. intros a. rewrite decide_False; [done|]. unfold blen; simpl. lia.
  - assert (blen (b :: l) = blen l + 1) as El by (unfold blen; cbn [length]; lia). rewrite El in *. pose proof (blen_nonneg l).
    rewrite (Hw dst) by lia. destruct (IH (fun a => if a =? dst then Some b else m a) (dst + 1)) as [H1 H2]; [intros a Ha; apply Hw; lia|].
    split; [done|]. intros a. rewrite H2. destruct (decide (dst + 1 <= a < dst + 1 + blen l)).
    + rewrite decide_True by lia. unfold aget. replace (Z.to_nat (a - dst)) with (S (Z.to_nat (a - (dst + 1)))) by lia. done.
    + destruct (Z.eqb_spec a dst) as [->|]; [|by rewrite decide_False by lia]. rewrite decide_True by lia. by rewrite Z.sub_diag.
Qed.

Lemma copy_to_user_all w m dst l : is_u64 dst -> dst + blen l <= USER_ADDR_LIMIT -> (forall a, dst <= a < dst + blen l -> w a = true) ->
  exists m', copy_to_user w m dst l = (true, m') /\ forall a, m' a = if decide (dst <= a < dst + blen l) then Some (aget 0 l (a - dst)) else m a.
Proof.
  intros Hd Hlim Hw. unfold copy_to_user. pose proof (blen_nonneg l).
  rewrite (proj2 (user_range_ok_iff dst (blen l) Hd ltac:(unfold USER_ADDR_LIMIT in *; int_lia))) by done. cbn [negb].
  destruct (movsb_to_all l w m dst Hw) as [H1 H2]. destruct (movsb_to l w m dst) as [m' r]. cbn [fst snd] in *. subst r. by exists m'.
Qed.

Section file_io.
Context (ok : nat -> bool) (Hok : forall n, ok n = true).
Context (fs : Ext2.ext2_fs) (Hg : Ext2Safe.geom fs) (Hlba : 0 <= Ext2.part_lba fs).
Context (N : Z) (HN : 1 < N <= 2 ^ 32 /\ Ext2.part_lba fs + N * Ext2.secs_per_block fs < 2 ^ 64).
Context (cnt : Z) (Hcnt : 0 < cnt /\ cnt + Ext2.blocks_per_group fs - 1 < 2 ^ 32) (sys : Z -> Prop).

Abbreviation meta := (Ext2File.meta fs N cnt sys).
Abbreviation file := (Ext2File.file fs N cnt sys).
Abbreviation wrote := (Ext2File.wrote fs N cnt sys).
Abbreviation max_size := (Ext2File.max_size fs).
Abbreviation content := (Ext2File.content fs).
Abbreviation inode_at := (Ext2File.inode_at fs).

(** ** Open files *)

Record opened (s : Vfs.vfs) (vfd ino off : Z) : Prop := {
  op_root : Vfs.s_root_fs s = Some fs;
  op_range : 0 <= vfd < Vfs.VFS_MAX_OPEN;
  op_files : Z.of_nat (length (Vfs.s_files s)) = Vfs.VFS_MAX_OPEN;
  op_slot : Vfs.file_at s vfd = Vfs.mk_file true ino off;
}.

(** Only the slot [vfd] and the device change. *)
Record only_slot (vfd : Z) (s s' : Vfs.vfs) : Prop := {
  os_root : Vfs.s_root_fs s' = Vfs.s_root_fs s;
  os_proc : Vfs.proc s' = Vfs.proc s;
  os_files : length (Vfs.s_files s') = length (Vfs.s_files s);
  os_other : forall j, 0 <= j < Vfs.VFS_MAX_OPEN -> j <> vfd -> Vfs.file_at s' j = Vfs.file_at s j;
}.

Lemma opened_not_bad s vfd ino off : opened s vfd ino off -> Vfs.bad_fd s vfd = false.
Proof.
  intros [_ Hr _ Hs]. unfold Vfs.bad_fd. rewrite Hs. cbn. rewrite orb_false_r, orb_false_iff, Z.ltb_ge, Z.leb_gt. lia.
Qed.

(** After the call the slot is at the new offset. *)
Lemma advanced s e vfd ino off n : opened s vfd ino off -> 0 <= n -> 0 <= off -> off + n < 2 ^ 64 ->
  exists s', Vfs.advance vfd n (Vfs.set_fsst e s) = Ok (tt, s') /\ Vfs.fsst s' = e /\ opened s' vfd ino (off + n) /\ only_slot vfd s s'.
Proof.
  intros [Hr Hv Hl Hs] Hn Ho H64. unfold Vfs.advance. destruct (Z.ltb_spec 0 n).
  - eexists. split; [done|]. split; [done|]. assert (Vfs.file_at (Vfs.set_fsst e s) vfd = Vfs.mk_file true ino off) as E by exact Hs.
    cbv zeta. rewrite E. cbn [Vfs.in_use Vfs.inode Vfs.offset]. rewrite u64_small by int_lia. split; split; try done.
    + cbn. by rewrite aset_length.
    + unfold Vfs.file_at. cbn [Vfs.s_files Vfs.set_files]. apply aget_aset_eq. cbn. unfold Vfs.VFS_MAX_OPEN in *. lia.
    + cbn. by rewrite aset_length.
    + intros j Hj Hne. unfold Vfs.file_at. cbn [Vfs.s_files Vfs.set_files Vfs.set_fsst]. rewrite aget_aset by (unfold Vfs.VFS_MAX_OPEN in *; lia).
      by rewrite bool_decide_false by congruence.
  - exists (Vfs.set_fsst e s). assert (n = 0) as -> by lia. rewrite Z.add_0_r. split; [done|]. split; [done|]. by split.
Qed.

Lemma vfs_write_file s vfd ino off buf : opened s vfd ino off ->
  meta (Ext2.disk (Vfs.fsst s)) (Ext2.cached_sb (Vfs.fsst s)) -> file (Ext2.disk (Vfs.fsst s)) ino -> bytes buf -> 0 < blen buf -> 0 <= off ->
  off + blen buf <= max_size -> off + blen buf < 2 ^ 32 ->
  exists w s', Vfs.vfs_write ok vfd buf s = Ok (w, s') /\
    wrote (Ext2.disk (Vfs.fsst s)) (Ext2.cached_sb (Vfs.fsst s)) ino off buf w (Ext2.disk (Vfs.fsst s')) (Ext2.cached_sb (Vfs.fsst s')) /\
    opened s' vfd ino (off + w) /\ only_slot vfd s s'.
Proof using Hok Hg Hlba HN Hcnt.
  intros Hop Hm Hf Hb H0 Ho Hmax H32.
  destruct (Ext2File.ext2_write_spec ok Hok fs Hg Hlba N HN cnt Hcnt sys ino off buf (Vfs.fsst s) Hm Hf Hb H0 Ho Hmax H32) as (w & e & E & Hw).
  pose proof (Ext2File.wo_count _ _ _ _ _ _ _ _ _ _ _ _ Hw) as Hwc.
  destruct (advanced s e vfd ino off w Hop ltac:(lia) Ho ltac:(lia)) as (s' & Ea & Ee & Hop' & Hos). exists w, s'. split; [|by rewrite Ee].
  unfold Vfs.vfs_write. rewrite (K_bind_Ok _ _ s s s) by done. rewrite (opened_not_bad _ _ _ _ Hop). cbv zeta. rewrite (op_slot _ _ _ _ Hop).
  cbn [Vfs.inode Vfs.offset]. unfold mbind, K_bind, Vfs.on_fs. rewrite (op_root _ _ _ _ Hop). unfold Vfs.on_dev. rewrite E. change (default (-1) (Some w)) with w. by rewrite Ea.
Qed.

Lemma vfs_read_file s vfd ino off size : opened s vfd ino off ->
  meta (Ext2.disk (Vfs.fsst s)) (Ext2.cached_sb (Vfs.fsst s)) -> file (Ext2.disk (Vfs.fsst s)) ino -> 0 <= off -> 0 <= size -> off + size < 2 ^ 64 ->
  let d := Ext2.disk (Vfs.fsst s) in let i := inode_at d ino in let want := Z.max 0 (Z.min size (Ext2.i_size i - off)) in
  exists n s', Vfs.vfs_read ok vfd size s = Ok ((n, Ext2File.fbytes fs d i off n), s') /\
    Ext2.disk (Vfs.fsst s') = d /\ Ext2.cached_sb (Vfs.fsst s') = Ext2.cached_sb (Vfs.fsst s) /\ 0 <= n <= want /\
    (n = want \/ Ext2File.reach fs d i ((off + n) / Ext2.block_size fs) = false) /\
    opened s' vfd ino (off + n) /\ only_slot vfd s s'.
Proof using Hok Hg Hlba HN.
  intros Hop Hm Hf Ho Hs H64 d i want.
  destruct (Ext2File.ext2_read_spec ok Hok fs Hg Hlba N HN cnt sys ino off size (Vfs.fsst s) Hm Hf Ho Hs H64) as (n & e & E & Hd & Hsb & Hn & Hend).
  destruct (advanced s e vfd ino off n Hop ltac:(lia) Ho ltac:(lia)) as (s' & Ea & Ee & Hop' & Hos). exists n, s'. rewrite Ee.
  split; [|by repeat (split; [done|])].
  unfold Vfs.vfs_read. rewrite (K_bind_Ok _ _ s s s) by done. rewrite (opened_not_bad _ _ _ _ Hop). cbv zeta. rewrite (op_slot _ _ _ _ Hop).
  cbn [Vfs.inode Vfs.offset]. unfold mbind, K_bind, Vfs.on_fs. rewrite (op_root _ _ _ _ Hop). unfold Vfs.on_dev. rewrite E. change (default (-1, []) (Some ?x)) with x. cbv iota beta. by rewrite Ea.
Qed.

(** ** The calling thread *)

Context (lapic_id : Z) (yield : kernel -> kernel) (patience : nat) (t p : Z).
Context (Ht0 : t <> 0) (Hp0 : p <> 0) (Hcpu : 0 <= lapic_id < Sched.MAX_CPUS).

Record runs (tb : fd_table_t) (k : kernel) : Prop := {
  rn_thread : aget 0 (Sched.cpu_current (sch (pr k))) lapic_id = t;
  rn_process : Sched.process (Sched.th (sch (pr k)) t) = p;
  rn_fds : fds (pm (pr k) p) = tb;
}.

(** What the file calls leave besides the file system. *)
Record calm (k k' : kernel) : Prop := { ca_um : um k' = um k; ca_uw : uw k' = uw k }.

Lemma running_cpu : Sched.current_cpu_id lapic_id = mret lapic_id.
Proof using Hcpu. unfold Sched.current_cpu_id. by rewrite (proj2 (Z.leb_gt _ _) (proj2 Hcpu)). Qed.

Lemma runs_current_process tb k : runs tb k -> exists k', sched_current_process lapic_id k = Ok (p, k') /\ runs tb k' /\ vf k' = vf k /\ caller_of k' p = caller_of k p /\ calm k k'.
Proof using Hcpu Ht0.
  intros [Ht Hp Hf]. unfold sched_current_process, Syscall.on_sched, on_procs, Process.on_sched, Sched.sched_current_process, Sched.sched_current.
  rewrite running_cpu. cbv [mbind K_bind mret K_ret gets]. rewrite Ht, (proj2 (Z.eqb_neq _ _) Ht0). rewrite Hp. eexists. split; [done|]. by split.
Qed.

Lemma run_current_fds tb k : runs tb k -> exists k', current_fds lapic_id k = Ok (p, k') /\ runs tb k' /\ vf k' = vf k /\ calm k k'.
Proof using Hcpu Ht0.
  intros [Ht Hp Hf]. unfold current_fds, sched_current, Syscall.on_sched, on_procs, Process.on_sched, Sched.sched_current.
  rewrite running_cpu. cbv [mbind K_bind mret K_ret gets]. rewrite Ht, (proj2 (Z.eqb_neq _ _) Ht0). cbn. rewrite Hp. eexists. split; [done|]. by split.
Qed.

Lemma run_vfs_call {A} tb (m : K Vfs.vfs A) k a v : runs tb k -> m (vfs_for (caller_of k p) (vf k)) = Ok (a, v) -> Vfs.proc v = caller_of k p ->
  exists k', on_vfs lapic_id m k = Ok (a, k') /\ runs tb k' /\ vf k' = vfs_for None v /\ calm k k'.
Proof using Hcpu Ht0.
  intros Hr Hm Hp. destruct (runs_current_process tb k Hr) as (k1 & E1 & [Ht1 Hp1 Hf1] & Ev & Ec & Hc). unfold on_vfs. rewrite (K_bind_Ok _ _ _ _ _ E1).
  unfold run_vfs. rewrite Ev, Ec, Hm. eexists. split; [done|]. rewrite Hp. unfold caller_of.
  destruct (p =? 0); (split; [split; try done|split; [done|by split; apply Hc]]). cbn. by rewrite Z.eqb_refl.
Qed.

#[local] Set Default Proof Using "All".

Lemma to_vfs tb fd vfd : fd_type tb (s32 fd) = FD_FILE -> fd_id tb (s32 fd) = vfd -> fd_to_vfs tb (s32 fd) = vfd.
Proof. unfold fd_to_vfs, fd_type, fd_id. intros Hty Hid. destruct (fd_bad tb (s32 fd)); [done|]. by rewrite Hty, bool_decide_true. Qed.

(** ** Writing *)

Lemma wrote_nil d sb ino off : meta d sb -> file d ino -> wrote d sb ino off [] 0 d sb.
Proof.
  intros Hm Hf. split; try done.
  - by left.
  - intros pos Hp. by rewrite decide_False by lia.
  - intros pos Hp. lia.
Qed.

Section write.
Context (tb : fd_table_t) (k0 : kernel) (vfd ino off src count : Z) (buf : list Z).
Context (Hoff : 0 <= off) (Hmax : off + count <= max_size) (H32 : off + count < 2 ^ 32).
Context (Hsrc : is_u64 src) (Hcount : is_u64 count) (Hbuf : copy_from_user (um k0) src count = (true, buf)) (Hbytes : bytes buf).
Abbreviation d0 := (Ext2.disk (Vfs.fsst (vf k0))).
Abbreviation sb0 := (Ext2.cached_sb (Vfs.fsst (vf k0))).

(** After [done] bytes of the buffer, [w] of which are in the file. *)
Record writing (done_ w : Z) (k : kernel) : Prop := {
  wg_runs : runs tb k;
  wg_calm : calm k0 k;
  wg_count : 0 <= w <= done_ /\ done_ <= count;
  wg_open : opened (vf k) vfd ino (off + w);
  wg_slots : forall j, 0 <= j < Vfs.VFS_MAX_OPEN -> j <> vfd -> Vfs.file_at (vf k) j = Vfs.file_at (vf k0) j;
  wg_meta : meta (Ext2.disk (Vfs.fsst (vf k))) (Ext2.cached_sb (Vfs.fsst (vf k)));
  wg_file : file (Ext2.disk (Vfs.fsst (vf k))) ino;
  wg_full : w = done_ \/ Ext2File.full fs cnt (Ext2.disk (Vfs.fsst (vf k)));
  wg_wrote : w = done_ -> wrote d0 sb0 ino off (take (Z.to_nat done_) buf) done_ (Ext2.disk (Vfs.fsst (vf k))) (Ext2.cached_sb (Vfs.fsst (vf k)));
}.

Lemma write_step done_ w k : writing done_ w k -> done_ < count ->
  let chunk := chunk_of count done_ in
  exists kbuf w' k', from_user (u64 (src + done_)) chunk k = Ok ((true, kbuf), k) /\ kbuf = slice buf done_ chunk /\
    on_vfs lapic_id (Vfs.vfs_write ok vfd kbuf) k = Ok (w', k') /\ 0 <= w' /\ writing (done_ + chunk) (w + w') k'.
Proof.
  intros [Hr Hc Hn Hop Hsl0 Hm Hf Hfu Hw] Hlt chunk. destruct (SysSafe.chunk_bounds count done_ Hlt) as (B1 & B2 & _). fold chunk in B1, B2. clearbody chunk.
  destruct (copy_from_user_slice _ _ _ _ done_ chunk Hsrc Hcount Hbuf ltac:(lia) ltac:(lia) B2) as [Hlen Hsl].
  set (kbuf := slice buf done_ chunk) in *. assert (blen kbuf = chunk) as Hkl by (unfold kbuf; rewrite blen_slice; lia).
  assert (bytes kbuf) as Hkb by by apply slice_bytes.
  assert (opened (vfs_for (caller_of k p) (vf k)) vfd ino (off + w)) as Hop1 by (destruct Hop; by split).
  destruct (vfs_write_file (vfs_for (caller_of k p) (vf k)) vfd ino (off + w) kbuf Hop1 Hm Hf Hkb) as (w' & v & Ew & Hwr & Hop' & Hos); [lia..|].
  destruct (run_vfs_call tb _ k w' v Hr Ew (os_proc _ _ _ Hos)) as (k' & E & Hr' & Ev & Hc').
  pose proof (Ext2File.wo_count _ _ _ _ _ _ _ _ _ _ _ _ Hwr) as Hwc. exists kbuf, w', k'. split; [|split; [done|split; [done|split; [lia|]]]].
  { unfold from_user, gets. by rewrite (ca_um _ _ Hc), Hsl. }
  split; rewrite ?Ev; [done| |lia| | |apply Hwr|apply Hwr| |].
  - destruct Hc, Hc'. split; congruence.
  - rewrite Z.add_assoc. destruct Hop'. by split.
  - intros j Hj Hne. rewrite <- (Hsl0 j Hj Hne). by apply (os_other _ _ _ Hos).
  - destruct Hfu as [->|Hfu]; [|right; by apply Hwr]. destruct (Ext2File.wo_full _ _ _ _ _ _ _ _ _ _ _ _ Hwr) as [->|]; [left; lia|by right].
  - intros Eq. assert (w = done_ /\ w' = chunk) as [-> ->] by lia. specialize (Hw eq_refl). cbn [Vfs.fsst vfs_for] in *.
    assert (blen (take (Z.to_nat done_) buf) = done_) as Hl1 by (unfold blen in *; rewrite length_take; lia).
    assert (take (Z.to_nat (done_ + chunk)) buf = take (Z.to_nat done_) buf ++ kbuf) as ->.
    { unfold kbuf, slice. rewrite Z2Nat.inj_add by lia. by rewrite take_take_drop. }
    rewrite <- Hl1 at 2. apply (Ext2File.wrote_app fs Hg N cnt sys) with (d1 := Ext2.disk (Vfs.fsst (vf k))) (sb1 := Ext2.cached_sb (Vfs.fsst (vf k))); rewrite ?Hl1, ?Hkl; try done; lia.
Qed.

Lemma write_chunks_file fuel done_ w k : writing done_ w k -> SysSafe.enough fuel count done_ ->
  exists w' k', write_chunks ok lapic_id yield patience fuel SINK_FILE vfd src count done_ k = Ok (s64 count, k') /\ writing count w' k'.
Proof.
  revert done_ w k. induction fuel as [|f IH]; intros d w k Hw [He1 He2]; [lia|]. cbn [write_chunks].
  destruct (Z.ltb_spec d count) as [Hlt|].
  - destruct (write_step d w k Hw Hlt) as (kbuf & w' & k' & E1 & _ & E2 & Hw0 & Hw').
    destruct (SysSafe.chunk_bounds count d Hlt) as (B1 & B2 & B3). cbv zeta. rewrite (K_bind_Ok _ _ _ _ _ E1). cbn [negb sink_put].
    assert (sink_put ok lapic_id yield patience SINK_FILE vfd kbuf d k = Ok (None, k')) as Es.
    { cbn [sink_put]. rewrite (K_bind_Ok _ _ _ _ _ E2). by rewrite (proj2 (Z.ltb_ge _ _) Hw0). }
    rewrite (K_bind_Ok _ _ _ _ _ Es). apply (IH _ _ _ Hw'). unfold SysSafe.enough. lia.
  - assert (d = count) as -> by (destruct Hw; lia). by exists w, k.
Qed.

Lemma sys_write_run fd : user_range_ok src count = true -> fd <> 1 -> fd <> 2 ->
  runs tb k0 -> fd_type tb (s32 fd) = FD_FILE -> fd_id tb (s32 fd) = vfd -> opened (vf k0) vfd ino off -> meta d0 sb0 -> file d0 ino ->
  exists w k', sys_write ok lapic_id yield patience fd src count k0 = Ok (s64 count, k') /\ writing count w k'.
Proof.
  intros Hru H1 H2 Hr Hty Hid Hop Hm Hf. unfold sys_write. rewrite Hru. cbn [negb].
  destruct (run_current_fds tb k0 Hr) as (k1 & E1 & Hr1 & Ev & Hc). rewrite (K_bind_Ok _ _ _ _ _ E1).
  rewrite (K_bind_Ok _ _ k1 tb k1) by (unfold table, gets; by rewrite (rn_fds _ _ Hr1)).
  unfold resolve_sink. rewrite (proj2 (Z.eqb_neq _ _) H1), (proj2 (Z.eqb_neq _ _) H2), (proj2 (Z.eqb_neq _ _) Hp0). cbn [orb negb].
  rewrite bool_decide_false by (rewrite Hty; done). cbv zeta. rewrite (to_vfs tb fd vfd Hty Hid), (proj2 (Z.ltb_ge _ _)) by (apply Hop).
  apply (write_chunks_file _ 0 0).
  - split; rewrite ?Ev; [done|done|int_lia|by rewrite Z.add_0_r|done|done|done|by left|]. intros _. by apply wrote_nil.
  - apply SysSafe.enough_chunks. int_lia.
Qed.
End write.

(** ** Reading *)

Section read.
Context (tb : fd_table_t) (k0 : kernel) (vfd ino off dst count : Z).
Context (Hoff : 0 <= off) (H64 : off + count < 2 ^ 64) (Hdst : is_u64 dst) (Hcount : 0 <= count) (Hlim : dst + count <= USER_ADDR_LIMIT).
Context (Hwr : forall a, dst <= a < dst + count -> uw k0 a = true).
Abbreviation d0 := (Ext2.disk (Vfs.fsst (vf k0))).
Abbreviation sb0 := (Ext2.cached_sb (Vfs.fsst (vf k0))).
Abbreviation i0 := (inode_at d0 ino).
Context (Hm : meta d0 sb0) (Hf : file d0 ino).
Definition available (size pos len : Z) : Z := Z.max 0 (Z.min len (size - pos)).

(** [n] bytes of the file are in user memory, and nothing else has changed. *)
Record reading (n : Z) (k : kernel) : Prop := {
  rg_runs : runs tb k;
  rg_uw : uw k = uw k0;
  rg_um : forall a, um k a = if decide (dst <= a < dst + n) then Some (content d0 ino (off + (a - dst))) else um k0 a;
  rg_count : 0 <= n <= available (Ext2.i_size i0) off count;
  rg_open : opened (vf k) vfd ino (off + n);
  rg_disk : Ext2.disk (Vfs.fsst (vf k)) = d0;
  rg_sb : Ext2.cached_sb (Vfs.fsst (vf k)) = sb0;
}.

(** Why a read has ended. *)
Definition ended (n : Z) : Prop :=
  n = available (Ext2.i_size i0) off count \/ Ext2File.reach fs d0 i0 ((off + n) / Ext2.block_size fs) = false.

Lemma read_step n k : reading n k -> n < count ->
  let chunk := chunk_of count n in
  exists c kbuf k1, on_vfs lapic_id (Vfs.vfs_read ok vfd chunk) k = Ok ((c, kbuf), k1) /\ 0 <= c <= chunk /\ (c < chunk -> ended (n + c)) /\
    (c = 0 -> reading n k1) /\
    (0 < c -> exists k2, to_user (u64 (dst + n)) (take (Z.to_nat c) kbuf) k1 = Ok (true, k2) /\ reading (n + c) k2).
Proof.
  intros [Hr Huw Hum Hn Hop Hd Hsb] Hlt chunk. destruct (SysSafe.chunk_bounds count n Hlt) as (B1 & B2 & _). fold chunk in B1, B2. clearbody chunk.
  assert (opened (vfs_for (caller_of k p) (vf k)) vfd ino (off + n)) as Hop1 by (destruct Hop; by split).
  destruct (vfs_read_file (vfs_for (caller_of k p) (vf k)) vfd ino (off + n) chunk Hop1) as (c & v & Ec & Hd1 & Hsb1 & Hc & Hend & Hop2 & Hos);
    cbn [Vfs.fsst vfs_for] in *; rewrite ?Hd, ?Hsb in *; try done; try lia.
  destruct (run_vfs_call tb _ k _ v Hr Ec (os_proc _ _ _ Hos)) as (k1 & E1 & Hr1 & Ev & Hc1).
  set (kbuf := Ext2File.fbytes fs d0 i0 (off + n) c) in *. assert (blen kbuf = c) as Hkl by (apply (Ext2File.fbytes_len fs sys); lia).
  exists c, kbuf, k1. split; [done|]. split; [lia|]. split; [|split].
  - intros Hs. unfold ended, available in *. rewrite Z.add_assoc. destruct Hend as [Hend|Hend]; [left; lia|by right].
  - intros ->. rewrite Z.add_0_r in Hop2. split; rewrite ?Ev; try done; [destruct Hc1; congruence| |destruct Hop2; by split].
    intros a. rewrite (ca_um _ _ Hc1). apply Hum.
  - intros Hpos. rewrite u64_small by (unfold USER_ADDR_LIMIT in *; int_lia).
    assert (take (Z.to_nat c) kbuf = kbuf) as -> by (apply take_ge; unfold blen in Hkl; lia).
    destruct (copy_to_user_all (uw k1) (um k1) (dst + n) kbuf) as (m & Em & Hmm);
      [unfold USER_ADDR_LIMIT in *; int_lia|lia|intros a Ha; rewrite (ca_uw _ _ Hc1), Huw; apply Hwr; lia|].
    exists (set_um m k1). split; [unfold to_user; by rewrite Em|]. destruct Hr1 as [R1 R2 R3]. split; cbn [vf um uw set_um]; rewrite ?Ev; try done.
    + destruct Hc1; congruence.
    + intros a. rewrite Hmm, Hkl, (ca_um _ _ Hc1), Hum. destruct (decide (dst + n <= a < dst + n + c)).
      * rewrite decide_True by lia. unfold kbuf. rewrite (Ext2File.fbytes_get fs sys) by lia. unfold Ext2File.content. do 2 f_equal. lia.
      * destruct (decide (dst <= a < dst + n)); [by rewrite decide_True by lia|by rewrite decide_False by lia].
    + unfold available in *. lia.
    + rewrite Z.add_assoc. destruct Hop2; by split.
Qed.

Lemma read_chunks_file fuel n k : reading n k -> SysSafe.enough fuel count n ->
  exists n' k', read_chunks ok lapic_id fuel vfd dst count n k = Ok (n', k') /\ reading n' k' /\ ended n'.
Proof.
  revert n k. induction fuel as [|f IH]; intros n k Hrd [He1 He2]; [lia|]. cbn [read_chunks].
  assert (forall x y, reading x y -> s64 x = x) as Hs64.
  { intros x y Hx. apply SysSafe.s64_small. unfold SysSafe.is_s64. destruct Hx. unfold available, USER_ADDR_LIMIT in *. int_lia. }
  destruct (Z.ltb_spec n count) as [Hlt|Hge].
  - destruct (read_step n k Hrd Hlt) as (c & kbuf & k1 & E1 & Hc & Hend & Hz & Hp). destruct (SysSafe.chunk_bounds count n Hlt) as (B1 & B2 & B3).
    cbv zeta. rewrite (K_bind_Ok _ _ _ _ _ E1). cbv beta iota. destruct (Z.leb_spec c 0).
    + assert (c = 0) as -> by lia. rewrite Z.add_0_r in Hend. exists n, k1. rewrite (Hs64 _ _ (Hz eq_refl)). split; [done|]. split; [by apply Hz|apply Hend; lia].
    + destruct (Hp ltac:(lia)) as (k2 & E2 & Hr2). rewrite (K_bind_Ok _ _ _ _ _ E2). cbn [negb]. rewrite u32_small by int_lia.
      destruct (Z.ltb_spec c (chunk_of count n)) as [Hs|Hs].
      * exists (n + c), k2. rewrite (Hs64 _ _ Hr2). split; [done|]. split; [done|by apply Hend].
      * assert (c = chunk_of count n) as -> by lia. apply (IH _ _ Hr2). unfold SysSafe.enough. lia.
  - exists n, k. rewrite (Hs64 _ _ Hrd). split; [done|]. split; [done|]. left. destruct Hrd. unfold available in *. lia.
Qed.

Lemma sys_read_run fd : fd <> 0 -> 0 < count -> runs tb k0 -> fd_type tb (s32 fd) = FD_FILE -> fd_id tb (s32 fd) = vfd -> opened (vf k0) vfd ino off ->
  exists n k', sys_read ok lapic_id yield patience fd dst count k0 = Ok (n, k') /\ reading n k' /\ ended n.
Proof.
  intros H0 Hpos Hr Hty Hid Hop. unfold sys_read.
  rewrite (proj2 (user_range_ok_iff dst count Hdst ltac:(unfold USER_ADDR_LIMIT in *; int_lia)) Hlim). cbn [negb].
  rewrite (proj2 (Z.eqb_neq count 0)) by lia.
  destruct (run_current_fds tb k0 Hr) as (k1 & E1 & Hr1 & Ev & Hc). rewrite (K_bind_Ok _ _ _ _ _ E1).
  rewrite (K_bind_Ok _ _ k1 tb k1) by (unfold table, gets; by rewrite (rn_fds _ _ Hr1)). cbv zeta.
  rewrite (proj2 (Z.eqb_neq _ _) H0), (proj2 (Z.eqb_neq _ _) Hp0), (bool_decide_false (_ = FD_SOCKET)) by (rewrite Hty; done).
  rewrite (to_vfs tb fd vfd Hty Hid), (proj2 (Z.ltb_ge _ _)) by (apply Hop). apply (read_chunks_file _ 0).
  - split; rewrite ?Ev; try done; [apply Hc| |unfold available; lia|by rewrite Z.add_0_r].
    intros a. rewrite decide_False by lia. by rewrite (ca_um _ _ Hc).
  - apply SysSafe.enough_chunks. lia.
Qed.
End read.

(** ** The system calls *)

(** The descriptor [fd] of the caller is the file [ino] at offset [off], in slot [vfd] of the open files. *)
Record file_fd (tb : fd_table_t) (k : kernel) (fd vfd ino off : Z) : Prop := {
  ff_runs : runs tb k;
  ff_type : fd_type tb (s32 fd) = FD_FILE;
  ff_id : fd_id tb (s32 fd) = vfd;
  ff_open : opened (vf k) vfd ino off;
  ff_meta : meta (Ext2.disk (Vfs.fsst (vf k))) (Ext2.cached_sb (Vfs.fsst (vf k)));
  ff_file : file (Ext2.disk (Vfs.fsst (vf k))) ino;
}.

Lemma sys_write_spec tb k fd vfd ino off src count buf :
  file_fd tb k fd vfd ino off -> fd <> 1 -> fd <> 2 -> 0 <= off -> off + count <= max_size -> off + count < 2 ^ 32 ->
  is_u64 src -> is_u64 count -> copy_from_user (um k) src count = (true, buf) -> bytes buf ->
  exists w k', sys_write ok lapic_id yield patience fd src count k = Ok (count, k') /\ blen buf = count /\
    writing tb k vfd ino off count buf count w k'.
Proof.
  intros [Hr Hty Hid Hop Hm Hf] H1 H2 Ho Hmax H32 Hs Hc Hb Hby.
  assert (user_range_ok src count = true) as Hru by (unfold copy_from_user in Hb; by destruct (user_range_ok src count)).
  destruct (sys_write_run tb k vfd ino off src count buf Ho Hmax H32 Hs Hc Hb Hby fd Hru H1 H2 Hr Hty Hid Hop Hm Hf) as (w & k' & E & Hw).
  exists w, k'. rewrite E, SysSafe.s64_small by (unfold SysSafe.is_s64; int_lia). split; [done|]. split; [|done].
  by destruct (copy_from_user_slice _ _ _ _ 0 0 Hs Hc Hb ltac:(lia) ltac:(lia) ltac:(int_lia)).
Qed.

(** C2: writing to a file. Take a well-formed file system on a disk none of whose requests fails, a descriptor of a
    regular file of it (other than 1 and 2, the output), a readable buffer, and a range that ends within the file system's limits: at most [max_size]
    (the direct, indirect and doubly indirect blocks, which are all that the code allocates) and below 4 GiB.
    [sys_write] then returns [count]; user memory is as it was; the descriptor's offset has advanced by the number
    [w] of bytes that have gone into the file, which is [count] unless the disk is full. When it is [count], the
    file has the bytes of the buffer at their offsets and its old contents elsewhere, and the files that share no
    block with it are as they were. Without these bounds the result says nothing: behind [max_size] the write stops
    although the disk has room, and [sys_write] returns [count] there too. *)
Theorem sys_write_file tb k fd vfd ino off src count buf :
  file_fd tb k fd vfd ino off -> fd <> 1 -> fd <> 2 -> 0 <= off -> off + count <= max_size -> off + count < 2 ^ 32 ->
  is_u64 src -> is_u64 count -> copy_from_user (um k) src count = (true, buf) -> bytes buf ->
  exists w k', sys_write ok lapic_id yield patience fd src count k = Ok (count, k') /\ um k' = um k /\
    file_fd tb k' fd vfd ino (off + w) /\ 0 <= w <= count /\ (w = count \/ Ext2File.full fs cnt (Ext2.disk (Vfs.fsst (vf k')))) /\
    (w = count -> wrote (Ext2.disk (Vfs.fsst (vf k))) (Ext2.cached_sb (Vfs.fsst (vf k))) ino off buf count
                    (Ext2.disk (Vfs.fsst (vf k'))) (Ext2.cached_sb (Vfs.fsst (vf k')))).
Proof.
  intros Hfd H1 H2 Ho Hmax H32 Hs Hc Hb Hby. pose proof Hfd as [_ Hty Hid _ _ _].
  destruct (sys_write_spec _ _ _ _ _ _ _ _ _ Hfd H1 H2 Ho Hmax H32 Hs Hc Hb Hby) as (w & k' & E & Hl & [Hr Hca Hn Hop _ Hm Hf Hfu Hw]).
  exists w, k'. split; [done|]. split; [apply Hca|]. split; [by split|]. split; [lia|]. split; [done|]. intros Ew.
  specialize (Hw Ew). rewrite take_ge in Hw by (unfold blen in Hl; lia). done.
Qed.

(** Reading from a file. With no failing request, [sys_read] stores the file's bytes from the offset on at the
    user's buffer, as many as asked for and as the file has, and advances the offset by as many; the device is as
    it was. It ends early only at a block whose index block does not exist. *)
Theorem sys_read_file tb k fd vfd ino off dst count :
  file_fd tb k fd vfd ino off -> fd <> 0 -> 0 <= off -> 0 < count -> off + count < 2 ^ 64 ->
  is_u64 dst -> dst + count <= USER_ADDR_LIMIT -> (forall a, dst <= a < dst + count -> uw k a = true) ->
  let d := Ext2.disk (Vfs.fsst (vf k)) in
  exists n k', sys_read ok lapic_id yield patience fd dst count k = Ok (n, k') /\
    0 <= n <= available (Ext2.i_size (inode_at d ino)) off count /\
    (n = available (Ext2.i_size (inode_at d ino)) off count \/
       Ext2File.reach fs d (inode_at d ino) ((off + n) / Ext2.block_size fs) = false) /\
    (forall a, um k' a = if decide (dst <= a < dst + n) then Some (content d ino (off + (a - dst))) else um k a) /\
    file_fd tb k' fd vfd ino (off + n) /\ Ext2.disk (Vfs.fsst (vf k')) = d.
Proof.
  intros [Hr Hty Hid Hop Hm Hf] H0 Ho Hc H64 Hd Hl Hw d.
  destruct (sys_read_run tb k vfd ino off dst count Ho H64 Hd ltac:(lia) Hl Hw Hm Hf fd H0 Hc Hr Hty Hid Hop) as (n & k' & E & [Hr' Huw Hum Hn Hop' Hd' Hsb] & Hend).
  exists n, k'. do 4 (split; [done|]). split; [|done]. split; rewrite ?Hd', ?Hsb; done.
Qed.

(** C3: what one descriptor writes another reads. Take a well-formed file system on a disk none of whose requests
    fails, with memory for the buffers of its code, two open descriptors of a file of it at the same offset (other than
    those of the terminal, 0, 1 and 2), and a range that ends within [max_size] and below 4 GiB. When a [sys_write] through the one has put all its bytes into
    the file, a [sys_read] of that range through the other, into a buffer below the user limit that is writable,
    returns the same count and stores the same bytes there, and changes nothing else of user memory. *)
Theorem sys_write_read tb k k1 fd vfd fd2 vfd2 ino off src dst count buf v :
  file_fd tb k fd vfd ino off -> file_fd tb k fd2 vfd2 ino off -> vfd2 <> vfd -> fd <> 1 -> fd <> 2 -> fd2 <> 0 ->
  0 <= off -> 0 < count -> off + count <= max_size -> off + count < 2 ^ 32 ->
  is_u64 src -> is_u64 dst -> dst + count <= USER_ADDR_LIMIT -> copy_from_user (um k) src count = (true, buf) -> bytes buf ->
  (forall a, dst <= a < dst + count -> uw k a = true) ->
  sys_write ok lapic_id yield patience fd src count k = Ok (v, k1) -> Vfs.offset (Vfs.file_at (vf k1) vfd) = off + count ->
  exists k2, sys_read ok lapic_id yield patience fd2 dst count k1 = Ok (count, k2) /\
    forall a, um k2 a = if decide (dst <= a < dst + count) then Some (aget 0 buf (a - dst)) else um k a.
Proof.
  intros Hfd [_ Hty2 Hid2 Hop2 _ _] Hne H1 H2 H0 Ho Hc Hmax H32 Hs Hd Hlim Hb Hby Hw Hwr Hfull.
  destruct (sys_write_spec _ _ _ _ _ _ _ _ _ Hfd H1 H2 Ho Hmax H32 Hs ltac:(int_lia) Hb Hby) as (w & k' & E & Hl & [Hr [Eum Euw] Hn Hop Hsl Hm Hf Hfu Hwd]).
  rewrite Hwr in E. injection E as -> ->. rewrite (op_slot _ _ _ _ Hop) in Hfull. cbn [Vfs.offset] in Hfull.
  assert (w = count) as -> by lia. specialize (Hwd eq_refl). rewrite take_ge in Hwd by (unfold blen in Hl; lia).
  assert (opened (vf k') vfd2 ino off) as Hop2'.
  { destruct Hop2 as [Hr2 Hv2 Hl2 Hs2], Hop as [Hr' _ Hl' _]. split; [done|done|done|]. rewrite Hsl by done. done. }
  destruct (sys_read_run tb k' vfd2 ino off dst count Ho ltac:(lia) Hd ltac:(lia) Hlim ltac:(by intros a Ha; rewrite Euw; apply Hw) Hm Hf fd2 H0 Hc Hr Hty2 Hid2 Hop2')
    as (n & k2 & E & [_ _ Hum Hnn _ _ _] & Hend). exists k2.
  assert (n = count) as ->.
  { rewrite <- Hl in *. eapply (Ext2File.wrote_reads fs Hg N cnt sys); [done|lia|done|lia|unfold available in Hnn; lia|exact Hend]. }
  split; [done|]. intros a. rewrite Hum, Eum. destruct (decide (dst <= a < dst + count)) as [Ha|]; [|done]. f_equal.
  rewrite (Ext2File.wo_content _ _ _ _ _ _ _ _ _ _ _ _ Hwd) by lia. rewrite decide_True by lia. f_equal. lia.
Qed.
End file_io.

(** ** The small system with the file open twice *)

(** Descriptors 3 and 4, slots 0 and 1, both at the end of the blocks that the inode points to. *)
Definition demo_fds : fd_table_t := (fd_alloc (fd_alloc fd_table_init 0).2 1).2.
Definition demo_open : kernel :=
  let k := demo_kernel Ext2File.sample_file in
  let q := mk_procs (s_procs demo_procs) (next_pid demo_procs) (fun _ => set_fds demo_fds demo_proc) demo_sched (pipes demo_procs) in
  set_vf (Vfs.set_files (Vfs.mk_file true 12 12285 :: Vfs.mk_file true 12 12285 :: replicate 14 Vfs.file_zero) (vf k)) (set_pr q k).
Definition demo_buf : list Z := [47; 97] ++ zeros 598.

Lemma demo_file_fd fd vfd : fd = 3 /\ vfd = 0 \/ fd = 4 /\ vfd = 1 ->
  file_fd Ext2.sample_fs 48 48 Ext2File.sample_sys 0 500 1000 demo_fds demo_open fd vfd 12 12285.
Proof.
  pose proof (Ext2File.sample_meta _ Ext2File.sample_file_ok) as Hm. pose proof (Ext2File.sample_is_file _ Ext2File.sample_file_ok) as Hf.
  intros [[-> ->]|[-> ->]]; (split; [by split|done|done|split; done|exact Hm|exact Hf]).
Qed.

Lemma demo_buf_copy : copy_from_user (um demo_open) 0x1000 600 = (true, demo_buf).
Proof. by vm_compute. Qed.

Lemma demo_buf_bytes : bytes demo_buf.
Proof. by apply bytes_check. Qed.

Lemma demo_max : 12285 + 600 <= Ext2File.max_size Ext2.sample_fs.
Proof. by vm_compute. Qed.

Lemma sys_write_file_witness : exists w k', sys_write Ext2.never_fails 0 (fun k => k) 3 3 0x1000 600 demo_open = Ok (600, k') /\
  um k' = um demo_open /\ 0 <= w <= 600.
Proof.
  destruct (sys_write_file Ext2.never_fails (fun _ => eq_refl) Ext2.sample_fs Ext2File.sample_geom ltac:(done) 48 Ext2File.sample_room 48 Ext2File.sample_count
    Ext2File.sample_sys 0 (fun k => k) 3 500 1000 ltac:(done) ltac:(done) ltac:(done) demo_fds demo_open 3 0 12 12285 0x1000 600 demo_buf
    (demo_file_fd 3 0 ltac:(by left)) ltac:(done) ltac:(done) ltac:(done) demo_max ltac:(done) ltac:(done) ltac:(done) demo_buf_copy demo_buf_bytes)
    as (w & k' & E & Hu & _ & Hw & _).
  exists w, k'. split; [exact E|]. split; [exact Hu|exact Hw].
Defined.

Lemma demo_written : exists k1, sys_write Ext2.never_fails 0 (fun k => k) 3 3 0x1000 600 demo_open = Ok (600, k1) /\
  Vfs.offset (Vfs.file_at (vf k1) 0) = 12285 + 600.
Proof.
  set (r := sys_write _ _ _ _ _ _ _ _).
  assert (match r with Ok (v, k1) => (v =? 600) && (Vfs.offset (Vfs.file_at (vf k1) 0) =? 12885) | _ => false end = true) as H by by vm_compute.
  destruct r as [[v k1]|]; [|done]. apply andb_true_iff in H as [->%Z.eqb_eq H%Z.eqb_eq]. by exists k1.
Qed.

Lemma sys_write_read_witness : exists k1 k2, sys_write Ext2.never_fails 0 (fun k => k) 3 3 0x1000 600 demo_open = Ok (600, k1) /\
  sys_read Ext2.never_fails 0 (fun k => k) 3 4 0x1800 600 k1 = Ok (600, k2) /\ um k2 0x1800 = Some 47.
Proof.
  pose proof (fun k1 : kernel => sys_write_read Ext2.never_fails (fun _ => eq_refl) Ext2.sample_fs Ext2File.sample_geom ltac:(done) 48 Ext2File.sample_room 48 Ext2File.sample_count
    Ext2File.sample_sys 0 (fun k => k) 3 500 1000 ltac:(done) ltac:(done) ltac:(done) demo_fds demo_open k1 3 0 4 1 12 12285 0x1000 0x1800 600 demo_buf 600
    (demo_file_fd 3 0 ltac:(by left)) (demo_file_fd 4 1 ltac:(by right)) ltac:(done) ltac:(done) ltac:(done) ltac:(done) ltac:(done) ltac:(done) demo_max ltac:(done)
    ltac:(done) ltac:(done) ltac:(done) demo_buf_copy demo_buf_bytes) as H.
  destruct demo_written as (k1 & E & Ho). destruct (H k1) as (k2 & E2 & Hu).
  { intros a Ha. change (uw demo_open a) with (demo_page a). unfold demo_page. rewrite andb_true_iff, Z.leb_le, Z.ltb_lt. lia. }
  { exact E. }
  { exact Ho. }
  exists k1, k2. split; [exact E|]. split; [exact E2|]. rewrite Hu. by rewrite decide_True by lia.
Defined.

End SysFile.
