(* ===== verification/SysBugs.v ===== *)
(** * System calls that go wrong

    Runs of system calls in the small system of [Syscall] whose result is not what the code means: a path that
    overflows a stack buffer of the file system, a process that two waiters free, a write to a full disk that reports
    success, a pipe that one of two holders closes for both, and a file that is removed without permission. *)

From S2P Require Import Prelude Bytes CString Pmm Vmm Heap HeapPages Uaccess Cred Fd Pipe Sched Elf Process.
From S2P Require Import Net Tcp Dns Dhcp NetStack Ext2Dir Ext2 Ext2File Gpt Vfs Syscall SysFile.
Import HeapPages Fd Process Syscall SysFile.

Module SysBugs.

(** ** A path that overflows [parent] of [path_split] *)

(** A slash, 260 letters, and [/b]. *)
Definition long_path : list Z := 47 :: replicate 260 97 ++ [47; 98].
Definition user_with (l : list Z) (k : kernel) : kernel :=
  set_um (fun a => if demo_page a then Some (aget 0 l (a - 0x1000)) else None) k.

(** [creat] of a path whose directory part has more than 255 bytes, by an unprivileged process, stores outside the
    buffer. *)
Example creat_overflows :
  syscall_dispatch Ext2.never_fails 0 (fun k => k) 3 (fun _ n => zeros n) 601 0x1000 0 0 0 (user_with long_path (demo_kernel Ext2.sample_st)) =
    Panic Vfs.FS_FAULT.
Proof. by vm_compute. Qed.

(** ** Two waiters for one process *)

(** The process 8, in a block of the heap. *)
Definition child : Z := Heap.HEAP_VIRT_BASE + Heap.sizeof_block.
Definition with_child : outcome (unit * kernel) :=
  (_ ← on_heap (modify (fun h => Heap.upd_hm h Heap.HEAP_VIRT_BASE (fun _ => Heap.mk_block Heap.HEAP_MAGIC Heap.BLOCK_USED 512 0 0 0)));
   _ ← on_procs (modify (fun s => set_procs (aset (s_procs s) 1 child) s));
   set_proc child (fun p => mk_process 8 600 0 fd_table_init (cred p) false 0 0 (cwd p) (name p))) (demo_kernel Ext2.sample_st).

(** While the first waiter sleeps, off its CPU, the child exits and another process waits for it. *)
Definition other_waiter (k : kernel) : kernel :=
  match (_ ← on_sched (modify (Sched.upd_thread 500 (Sched.set_on_cpu false)));
         _ ← on_procs_wait (process_mark_exited 3 child 0);
         sys_waitpid 0 (fun k => k) 3 8 0 0) k with
  | Ok (_, k') => k'
  | Panic _ => k
  end.

(** Both find the child, both free it, and the second panics the kernel. *)
Example waitpid_frees_twice :
  match with_child with
  | Ok (_, k) => match sys_waitpid 0 other_waiter 3 8 0 0 k with Ok _ => None | Panic msg => Some msg end
  | Panic _ => None
  end = Some "heap: invalid free"%string.
Proof. by vm_compute. Qed.

(** ** A write to a full disk *)

(** All blocks of the small file system in use. *)
Definition full_disk : Ext2.st :=
  let s := Ext2File.sample_file in
  Ext2.mk_st (put (Ext2.disk s) (3 * 1024) (replicate 1024 255)) (Ext2.cached_sb s) (Ext2.asked s).

(** [sys_write] returns the length of the buffer although the descriptor is where it was. *)
Example write_to_full_disk :
  match sys_write Ext2.never_fails 0 (fun k => k) 3 3 0x1000 600 (set_vf (Vfs.set_fsst full_disk (vf demo_open)) demo_open) with
  | Ok (v, k') => v = 600 /\ Vfs.offset (Vfs.file_at (vf k') 0) = 12285
  | Panic _ => False
  end.
Proof. by vm_compute. Qed.

(** ** A pipe with two holders *)

(** What the shell does for a pipeline: it makes a pipe, gives the write end to one child, at 2000, and closes its
    own two ends. *)
Definition pipeline : K kernel unit :=
  _ ← set_proc 2000 (set_fds fd_table_init);
  _ ← sys_pipe 0 0x1800;
  _ ← inherit 1000 2000 1 FD_PIPE_WRITE 4;
  _ ← sys_close 0 3; _ ← sys_close 0 4; mret tt.

(** The pipe is gone, and what the child writes fails. *)
Example pipe_ends_are_not_counted :
  match (_ ← pipeline; t ← table 2000; n ← on_pipes (Pipe.pipe_write (fd_id t 1) [104; 105]); mret (fd_type t 1, n))
          (demo_kernel Ext2.sample_st) with
  | Ok (v, _) => v = (FD_PIPE_WRITE, -1)
  | Panic _ => False
  end.
Proof. by vm_compute. Qed.

(** ** A file of another user *)

(** Neither the file nor its directory, both of user 0 with modes 0644 and 0755, are writable for user 1000; [unlink]
    removes the file. *)
Example unlink_without_permission :
  match (s ← on_vfs 0 (Vfs.vfs_file_stat Ext2.never_fails [47; 97]);
         d ← on_vfs 0 (Vfs.vfs_file_stat Ext2.never_fails [47]);
         v ← sys_unlink Ext2.never_fails 0 0x1000;
         s' ← on_vfs 0 (Vfs.vfs_file_stat Ext2.never_fails [47; 97]);
         mret (s, d, v, s')) (demo_kernel Ext2File.sample_file) with
  | Ok (v, _) => v = (Some (0x81a4, 0, 0), Some (0x41ed, 0, 0), 0, None)
  | Panic _ => False
  end.
Proof. by vm_compute. Qed.

End SysBugs.
