(* ===== verification/Malloc.v ===== *)
(** * The allocator of the user programs

    Models [malloc], [free], [calloc] and [realloc] of [user/libc/src/stdlib.c]: a static arena whose blocks start
    with a header of two words, the block's size and whether it is in use. The state is the arena, byte by byte, and
    [s_init]. A pointer is an offset into the arena; NULL is 0, which no block's payload has.

    The walk over the blocks takes fuel, one more than the number of the smallest blocks that fit the arena: on a
    well-formed arena every round advances by at least one of them. *)

From S2P Require Import Prelude Bytes CString.

Module Malloc.

Definition HEAP_SZ : Z := 256 * 1024.
Definition HDR_SZ : Z := 16.
Definition ALIGN : Z := 16.
Definition ALIGN_UP (n : Z) : Z := Z.land (u64 (n + ALIGN - 1)) (not64 (ALIGN - 1)).

Record heap := mk_heap { s_heap : mem; s_init : bool }.

(** The words of a header. *)
Definition ld64 (m : mem) (a : Z) : Z := le_val (m <$> seqZ a 8).
Definition st64 (m : mem) (a v : Z) : mem := fun x => if decide (a <= x < a + 8) then aget 0 (le_bytes 8 v) (x - a) else m x.
Definition total (m : mem) (b : Z) : Z := ld64 m b.
Definition used (m : mem) (b : Z) : Z := ld64 m (b + 8).
Definition set_total (b v : Z) (m : mem) : mem := st64 m b v.
Definition set_used (b v : Z) (m : mem) : mem := st64 m (b + 8) v.

Definition heap_init (h : heap) : heap := mk_heap (set_used 0 0 (set_total 0 HEAP_SZ (s_heap h))) true.

(** The block at [p] is taken, and split when there is room for another. *)
Definition take_block (need p : Z) (m : mem) : mem :=
  let m :=
    if u64 (need + HDR_SZ + ALIGN) <=? total m p then
      set_total p need (set_used (p + need) 0 (set_total (p + need) (u64 (total m p - need)) m))
    else m in
  set_used p 1 m.

(** [while (p < end)]: the result and the arena. *)
Fixpoint search (fuel : nat) (need p : Z) (m : mem) : option (Z * mem) :=
  match fuel with
  | O => None
  | S f =>
      if p <? HEAP_SZ then
        if (used m p =? 0) && (need <=? total m p) then Some (p + HDR_SZ, take_block need p m)
        else search f need (p + total m p) m
      else Some (0, m)
  end.

Definition fuel : nat := S (Z.to_nat (HEAP_SZ / (HDR_SZ + ALIGN))).
Definition size_for (n : Z) : Z :=
  let need := ALIGN_UP (u64 (n + HDR_SZ)) in if need <? HDR_SZ + ALIGN then HDR_SZ + ALIGN else need.

Definition malloc (n : Z) (h : heap) : option (Z * heap) :=
  let h := if s_init h then h else heap_init h in
  if n =? 0 then Some (0, h)
  else
    '(p, m) ← search fuel (size_for n) 0 (s_heap h);
    Some (p, mk_heap m (s_init h)).

(** [while (next < end)]: merge the free blocks behind [b]. *)
Fixpoint coalesce (fuel : nat) (b : Z) (m : mem) : option mem :=
  match fuel with
  | O => None
  | S f =>
      let next := b + total m b in
      if next <? HEAP_SZ then
        if negb (used m next =? 0) then Some m
        else coalesce f b (set_total b (u64 (total m b + total m next)) m)
      else Some m
  end.

Definition free (ptr : Z) (h : heap) : option heap :=
  if ptr =? 0 then Some h
  else
    let b := ptr - HDR_SZ in
    m ← coalesce fuel b (set_used b 0 (s_heap h));
    Some (mk_heap m (s_init h)).

(** [for (i = 0; i < n; i++) c[i] = 0;] and [dst[i] = src[i];] *)
Definition clear (m : mem) (p n : Z) : mem := CString.memset m p 0 n.
Definition copy (m : mem) (dst src n : Z) : mem := CString.memcpy m dst src n.

Definition calloc (nmemb size : Z) (h : heap) : option (Z * heap) :=
  let n := u64 (nmemb * size) in
  '(p, h) ← malloc n h;
  Some (p, if p =? 0 then h else mk_heap (clear (s_heap h) p n) (s_init h)).

Definition realloc (ptr size : Z) (h : heap) : option (Z * heap) :=
  if ptr =? 0 then malloc size h
  else if size =? 0 then h ← free ptr h; Some (0, h)
  else
    let b := ptr - HDR_SZ in
    let cur := u64 (total (s_heap h) b - HDR_SZ) in
    if size <=? cur then Some (ptr, h)
    else
      '(np, h) ← malloc size h;
      if np =? 0 then Some (0, h)
      else
        h ← free ptr (mk_heap (copy (s_heap h) np ptr cur) (s_init h));
        Some (np, h).

(** ** Words in memory *)

Lemma ld64_ext m m' a : (forall x, a <= x < a + 8 -> m' x = m x) -> ld64 m' a = ld64 m a.
Proof.
  intros H. unfold ld64. f_equal. apply list_fmap_ext. intros i x Hx. apply lookup_seqZ in Hx. apply H. lia.
Qed.

Lemma ld64_st64 m a v : is_u64 v -> ld64 (st64 m a v) a = v.
Proof.
  intros Hv. unfold ld64. transitivity (le_val (le_bytes 8 v)); [f_equal|rewrite le_val_bytes; by apply Z.mod_small].
  apply list_eq. intros i. rewrite list_lookup_fmap. destruct (decide (i < 8)%nat) as [Hi|Hi].
  - rewrite lookup_seqZ_lt by lia. cbn [fmap option_fmap option_map]. unfold st64. rewrite decide_True by lia.
    rewrite aget_lookup. replace (Z.to_nat (a + Z.of_nat i - a)) with i by lia.
    destruct (lookup_lt_is_Some_2 (le_bytes 8 v) i) as [b Hb]; [by rewrite le_bytes_length|]. by rewrite Hb.
  - rewrite lookup_seqZ_ge by lia. symmetry. apply lookup_ge_None. rewrite le_bytes_length. lia.
Qed.

Lemma st64_other m a v x : x < a \/ a + 8 <= x -> st64 m a v x = m x.
Proof. intros H. unfold st64. by rewrite decide_False by lia. Qed.

Lemma ld64_st64_ne m a v b : b + 8 <= a \/ a + 8 <= b -> ld64 (st64 m a v) b = ld64 m b.
Proof. intros H. apply ld64_ext. intros x Hx. apply st64_other. lia. Qed.

(** ** The arena as a list of blocks *)

(** Sizes with headers, in the order of addresses, and whether the block is in use. *)
Abbreviation blocks := (list (Z * bool)).

Definition sum (L : blocks) : Z := foldr (fun b n => b.1 + n) 0 L.

Definition block_ok (b : Z * bool) : Prop := HDR_SZ + ALIGN <= b.1 /\ b.1 mod ALIGN = 0.

(** The blocks from address [p] on have the headers of [L]. *)
Fixpoint seg (m : mem) (p : Z) (L : blocks) : Prop :=
  match L with
  | [] => True
  | (t, u) :: L' => block_ok (t, u) /\ total m p = t /\ used m p = Z.b2z u /\ seg m (p + t) L'
  end.

Definition wf (h : heap) (L : blocks) : Prop :=
  if s_init h then seg (s_heap h) 0 L /\ sum L = HEAP_SZ else L = [(HEAP_SZ, false)].

(** Address and size of the payloads in use. *)
Fixpoint live (p : Z) (L : blocks) : list (Z * Z) :=
  match L with
  | [] => []
  | (t, u) :: L' => (if u then [(p + HDR_SZ, t - HDR_SZ)] else []) ++ live (p + t) L'
  end.

Lemma sum_app A B : sum (A ++ B) = sum A + sum B.
Proof. induction A as [|b A IH]; cbn [app sum foldr]; [done|]. unfold sum in IH. rewrite IH. unfold sum. lia. Qed.

Lemma live_app p A B : live p (A ++ B) = live p A ++ live (p + sum A) B.
Proof.
  revert p. induction A as [|[t u] A IH]; intros p; cbn [app live sum foldr fst]; [by rewrite Z.add_0_r|].
  rewrite IH, <- app_assoc. do 3 f_equal. unfold sum. lia.
Qed.

Lemma seg_cat m p A B : seg m p (A ++ B) <-> seg m p A /\ seg m (p + sum A) B.
Proof.
  revert p. induction A as [|[t u] A IH]; intros p; cbn [app seg sum foldr fst]; [rewrite Z.add_0_r; tauto|].
  rewrite IH, Z.add_assoc. unfold sum. tauto.
Qed.

Lemma seg_sum m p L : seg m p L -> 0 <= sum L.
Proof. revert p. induction L as [|[t u] L IH]; intros p; cbn [seg sum foldr fst]; [done|].
  intros ((H1 & _) & _ & _ & H5%IH). fold (sum L). cbn [fst] in H1. unfold HDR_SZ, ALIGN in *. lia.
Qed.

Lemma seg_length m p L : seg m p L -> Z.of_nat (length L) * (HDR_SZ + ALIGN) <= sum L.
Proof.
  revert p. induction L as [|[t u] L IH]; intros p; cbn [seg length sum foldr fst]; [done|].
  intros ((H1 & _) & _ & _ & H5%IH). cbn [fst] in *. unfold sum in H5. rewrite Nat2Z.inj_succ. unfold HDR_SZ, ALIGN in *. lia.
Qed.

Lemma seg_ext m m' p L : (forall x, p <= x < p + sum L -> m' x = m x) -> seg m p L -> seg m' p L.
Proof.
  revert p. induction L as [|[t u] L IH]; intros p He; cbn [seg]; [done|]. intros ((H1 & H2) & H3 & H4 & H5).
  pose proof (seg_sum _ _ _ H5). cbn [sum foldr fst] in He. fold (sum L) in He. cbn [fst] in *. unfold HDR_SZ, ALIGN, total, used in *.
  split; [done|]. rewrite !(ld64_ext m m') by (intros; apply He; lia). split; [done|]. split; [done|]. apply IH; [|done]. intros x Hx. apply He. lia.
Qed.

Lemma live_seg m p L q s : seg m p L -> (q, s) ∈ live p L -> p + HDR_SZ <= q /\ q + s <= p + sum L /\ ALIGN <= s.
Proof.
  revert p. induction L as [|[t u] L IH]; intros p; cbn [seg live]; [by intros _ ?%elem_of_nil|]. intros ((H1 & _) & _ & _ & H5).
  pose proof (seg_sum _ _ _ H5). cbn [sum foldr fst] in *. fold (sum L). rewrite elem_of_app. intros [Hq|Hq%(IH _ H5)].
  - destruct u; [|by apply elem_of_nil in Hq]. apply list_elem_of_singleton in Hq as [= -> ->]. unfold HDR_SZ, ALIGN in *. lia.
  - unfold HDR_SZ, ALIGN in *. lia.
Qed.

(** The size of a block for a request. *)
Lemma align_up n : 0 <= n -> n + 15 < 2 ^ 64 -> ALIGN_UP n = (n + 15) / 16 * 16.
Proof.
  intros H0 H. unfold ALIGN_UP, ALIGN. replace (n + 16 - 1) with (n + 15) by lia. rewrite u64_small by int_lia.
  change (not64 (16 - 1)) with (Z.shiftl (Z.ones 60) 4). rewrite land_field by lia. change (2 ^ 60) with 1152921504606846976.
  change (2 ^ 4) with 16. rewrite Z.mod_small by lia. done.
Qed.

Lemma size_for_spec n : 0 < n -> n + 31 < 2 ^ 64 -> size_for n mod ALIGN = 0 /\ n + HDR_SZ <= size_for n < n + HDR_SZ + ALIGN + ALIGN /\ HDR_SZ + ALIGN <= size_for n < 2 ^ 64.
Proof.
  intros H0 H. unfold size_for, HDR_SZ, ALIGN. rewrite u64_small by int_lia. rewrite align_up by lia.
  destruct (Z.ltb_spec ((n + 16 + 15) / 16 * 16) (16 + 16)); lia.
Qed.

(** ** [malloc] *)

(** What becomes of a free block of [t] bytes. *)
Definition split (need t : Z) : blocks :=
  if need + HDR_SZ + ALIGN <=? t then [(need, true); (t - need, false)] else [(t, true)].

Lemma split_sum need t : sum (split need t) = t.
Proof. unfold split. destruct (_ <=? t); cbn; lia. Qed.

Lemma split_live need t p : exists s, live p (split need t) = [(p + HDR_SZ, s)] /\ (need <= t -> need - HDR_SZ <= s).
Proof. unfold split. destruct (_ <=? t); cbn; eexists; (split; [done|lia]). Qed.

Section take.
Context (m : mem) (p need t : Z) (Ht : block_ok (t, false)) (Htot : total m p = t) (Hle : t <= HEAP_SZ).
Context (Hneed : HDR_SZ + ALIGN <= need <= t) (Hal : need mod ALIGN = 0).

Lemma take_block_seg : seg (take_block need p m) p (split need t).
Proof.
  unfold take_block, split. rewrite Htot. destruct Ht as [Ht1 Ht2]. cbn [fst] in *. unfold HDR_SZ, ALIGN, HEAP_SZ in *.
  rewrite u64_small by int_lia. destruct (Z.leb_spec (need + 16 + 16) t).
  - unfold set_total, set_used. cbn [seg]. unfold block_ok, total, used, HDR_SZ, ALIGN. cbn [fst].
    rewrite (ld64_st64_ne _ (p + 8) _ p), (ld64_st64_ne _ (p + 8) _ (p + need)), (ld64_st64_ne _ (p + 8) _ (p + need + 8)) by lia.
    rewrite (ld64_st64_ne _ p _ (p + need)), (ld64_st64_ne _ p _ (p + need + 8)), (ld64_st64_ne _ (p + need + 8) _ (p + need)) by lia.
    rewrite !ld64_st64 by int_lia. rewrite u64_small by int_lia. repeat split; lia.
  - cbn [seg]. unfold set_used, total, used, block_ok, HDR_SZ, ALIGN. cbn [fst]. rewrite ld64_st64 by int_lia. rewrite ld64_st64_ne by lia. done.
Qed.

Lemma take_block_other x : x < p \/ p + t <= x -> take_block need p m x = m x.
Proof.
  intros Hx. unfold take_block. rewrite Htot. destruct Ht as [Ht1 _]. cbn [fst] in *. unfold HDR_SZ, ALIGN, HEAP_SZ in *.
  rewrite u64_small by int_lia. destruct (Z.leb_spec (need + 16 + 16) t); unfold set_used, set_total; by rewrite !st64_other by lia.
Qed.
End take.

Definition unfit (need : Z) (b : Z * bool) : Prop := b.2 = true \/ b.1 < need.

(** The first block that fits is taken. *)
Definition placed (need p : Z) (m : mem) (L : blocks) (r : Z) (m' : mem) : Prop :=
  exists A t B, L = A ++ (t, false) :: B /\ Forall (unfit need) A /\ need <= t /\ r = p + sum A + HDR_SZ /\
    seg m' p (A ++ split need t ++ B) /\ (forall x, x < p + sum A \/ p + sum A + t <= x -> m' x = m x).

Lemma placed_cons need p m t u L r m' : seg m p ((t, u) :: L) -> unfit need (t, u) ->
  (r = 0 /\ m' = m /\ Forall (unfit need) L) \/ placed need (p + t) m L r m' ->
  (r = 0 /\ m' = m /\ Forall (unfit need) ((t, u) :: L)) \/ placed need p m ((t, u) :: L) r m'.
Proof.
  intros (Hb & H1 & H2 & _) Hu [(-> & -> & HF)|(A & t' & B & -> & HA & Hn & -> & Hseg & Ho)]; [left; by repeat split; [..|constructor]|right].
  pose proof (seg_sum _ _ _ Hseg) as Hs. rewrite !sum_app, split_sum in Hs.
  exists ((t, u) :: A), t', B. change (sum ((t, u) :: A)) with (t + sum A). split; [done|]. split; [by constructor|]. split; [done|]. split; [lia|].
  destruct Hb as [Hb1 Hb2]. cbn [fst] in *. unfold HDR_SZ, ALIGN in *.
  assert (0 <= sum A) by (apply seg_cat in Hseg as [Hseg _]; by apply seg_sum in Hseg).
  split; [|intros x Hx; apply Ho; lia]. cbn [app seg]. unfold total, used in *.
  rewrite !(ld64_ext m m') by (intros x Hx; apply Ho; lia). split; [split; done|]. done.
Qed.

Lemma search_fits f need p m L : seg m p L -> p + sum L = HEAP_SZ -> 0 <= p -> (length L < f)%nat -> HDR_SZ + ALIGN <= need -> need mod ALIGN = 0 ->
  exists r m', search f need p m = Some (r, m') /\ ((r = 0 /\ m' = m /\ Forall (unfit need) L) \/ placed need p m L r m').
Proof.
  intros Hs Hsum Hp Hf Hn Ha. revert p L Hs Hsum Hp Hf. induction f as [|f IH]; intros p L Hs Hsum Hp Hf; [lia|]. cbn [search].
  destruct L as [|[t u] L].
  { cbn in Hsum. rewrite (proj2 (Z.ltb_ge p _)) by lia. exists 0, m. split; [done|]. left. by repeat split. }
  pose proof Hs as ((H1 & H2) & H3 & H4 & H5). pose proof (seg_sum _ _ _ H5). cbn [sum foldr fst length] in *. fold (sum L) in *.
  unfold HDR_SZ, ALIGN in *. rewrite (proj2 (Z.ltb_lt p _)) by lia. rewrite H3, H4.
  destruct (Z.b2z u =? 0) eqn:Eu; [destruct (Z.leb_spec need t)|]; cbn [andb].
  - destruct u; [done|]. exists (p + 16), (take_block need p m). split; [done|]. right. exists [], t, L. cbn [app sum foldr]. rewrite Z.add_0_r.
    assert (forall x, x < p \/ p + t <= x -> take_block need p m x = m x) as Ho by (apply take_block_other; done || lia).
    do 4 (split; [done|]). split; [|done]. apply seg_cat. split; [by apply take_block_seg; done || lia|].
    rewrite split_sum. eapply seg_ext; [|done]. intros x Hx. apply Ho. lia.
  - destruct (IH (p + t) L H5 ltac:(lia) ltac:(lia) ltac:(lia)) as (r & m' & E & Hr). exists r, m'. split; [done|].
    by apply (placed_cons need p m t u L); [|right|].
  - destruct (IH (p + t) L H5 ltac:(lia) ltac:(lia) ltac:(lia)) as (r & m' & E & Hr). exists r, m'. split; [done|].
    apply (placed_cons need p m t u L); [done|left; by destruct u|done].
Qed.

Lemma seg_aligned m p L : seg m p L -> sum L mod ALIGN = 0.
Proof.
  revert p. induction L as [|[t u] L IH]; intros p; cbn [seg sum foldr fst]; [done|]. intros ((_ & H1) & _ & _ & H5%IH).
  fold (sum L) in *. cbn [fst] in H1. unfold ALIGN in *. lia.
Qed.

(** The live payloads are outside a block that is not one of theirs. *)
Lemma live_outside m p A t B q s a : seg m p (A ++ (t, false) :: B) -> (q, s) ∈ live p (A ++ (t, false) :: B) -> q <= a < q + s ->
  a < p + sum A \/ p + sum A + t <= a.
Proof.
  rewrite seg_cat, live_app, elem_of_app. cbn [seg live app]. intros (HA & Hb & _ & _ & HB) Hq Ha.
  destruct Hq as [Hq|Hq]; [apply (live_seg _ _ _ _ _ HA) in Hq|apply (live_seg _ _ _ _ _ HB) in Hq]; unfold HDR_SZ in *; lia.
Qed.

(** The bytes of the live payloads are the same. *)
Definition kept (L : blocks) (h h' : heap) : Prop := forall q s a, (q, s) ∈ live 0 L -> q <= a < q + s -> s_heap h' a = s_heap h a.

(** The arena after the first call. *)
Lemma wf_started h L : wf h L -> let h1 := if s_init h then h else heap_init h in
  s_init h1 = true /\ seg (s_heap h1) 0 L /\ sum L = HEAP_SZ /\ kept L h h1.
Proof.
  unfold wf. destruct (s_init h) eqn:E; [by intros [? ?]|]. intros ->. cbv zeta. split; [done|]. split; [|split; [done|]].
  - cbn [seg]. split; [done|]. unfold heap_init, total, used, set_used, set_total. cbn [s_heap].
    rewrite ld64_st64_ne by lia. by rewrite !ld64_st64.
  - intros q s a Hq. by apply elem_of_nil in Hq.
Qed.

Lemma fuel_enough m L : seg m 0 L -> sum L = HEAP_SZ -> (length L < fuel)%nat.
Proof. intros Hs%seg_length E. unfold fuel, HDR_SZ, ALIGN, HEAP_SZ in *. lia. Qed.

Lemma malloc_spec h L n : wf h L -> 0 < n -> n + 31 < 2 ^ 64 ->
  exists r h' L', malloc n h = Some (r, h') /\ wf h' L' /\ s_init h' = true /\ kept L h h' /\
    ((r = 0 /\ L' = L /\ Forall (unfit (size_for n)) L) \/
     (r mod ALIGN = 0 /\ r <> 0 /\ exists s, n <= s /\ live 0 L' ≡ₚ (r, s) :: live 0 L)).
Proof.
  intros Hwf Hn Hov. destruct (size_for_spec n Hn Hov) as (Ha & Hs1 & Hs2). destruct (wf_started h L Hwf) as (Hi & Hseg & Hsum & Hk).
  unfold malloc. set (h1 := if s_init h then h else heap_init h) in *. rewrite (proj2 (Z.eqb_neq n 0)) by lia.
  destruct (search_fits fuel (size_for n) 0 (s_heap h1) L Hseg Hsum ltac:(lia) (fuel_enough _ _ Hseg Hsum) ltac:(lia) Ha) as (r & m' & -> & Hr).
  cbn [mbind option_bind]. exists r, (mk_heap m' (s_init h1)). destruct Hr as [(-> & -> & Hun)|(A & t & B & -> & HA & Hle & -> & Hseg' & Ho)].
  - exists L. split; [done|]. unfold wf. cbn [s_init]. rewrite Hi. do 3 (split; [done|]). by left.
  - exists (A ++ split (size_for n) t ++ B). split; [done|]. unfold wf. cbn [s_init s_heap]. rewrite Hi.
    pose proof Hseg as Hseg0. apply seg_cat in Hseg0 as [HsA _]. pose proof (seg_aligned _ _ _ HsA) as Hal. pose proof (seg_sum _ _ _ HsA).
    rewrite sum_app in Hsum. cbn [sum foldr fst] in Hsum. fold (sum B) in Hsum.
    split; [split; [done|]; rewrite !sum_app, split_sum; lia|]. split; [done|]. split.
    + intros q s a Hq Hin. rewrite <- (Hk q s a Hq Hin). cbn [s_heap]. apply Ho. by eapply live_outside.
    + right. unfold HDR_SZ, ALIGN in *. split; [lia|]. split; [lia|].
      destruct (split_live (size_for n) t (0 + sum A)) as (s & Es & Hs). exists s. unfold HDR_SZ in Hs. split; [lia|].
      rewrite !live_app, Es, split_sum. cbn [live app]. unfold HDR_SZ. by rewrite Permutation_middle.
Qed.

(** ** [free] *)

Lemma live_split m p L q s : seg m p L -> (q, s) ∈ live p L -> exists A t B, L = A ++ (t, true) :: B /\ q = p + sum A + HDR_SZ /\ s = t - HDR_SZ.
Proof.
  revert p. induction L as [|[t u] L IH]; intros p; cbn [seg live]; [by intros _ ?%elem_of_nil|]. intros (_ & _ & _ & H5).
  rewrite elem_of_app. intros [Hq|Hq].
  - destruct u; [|by apply elem_of_nil in Hq]. apply list_elem_of_singleton in Hq as [= -> ->]. exists [], t, L. cbn. split; [done|]. lia.
  - destruct (IH _ H5 Hq) as (A & t' & B & -> & -> & ->). exists ((t, u) :: A), t', B. cbn [sum foldr fst]. fold (sum A). split; [done|]. lia.
Qed.

(** The block at [b] swallows the free blocks behind it. *)
Lemma coalesce_spec f b m t B : seg m b ((t, false) :: B) -> b + t + sum B = HEAP_SZ -> 0 <= b -> (length B < f)%nat ->
  exists m' t' B', coalesce f b m = Some m' /\ seg m' b ((t', false) :: B') /\ t' + sum B' = t + sum B /\ t <= t' /\ live (b + t') B' = live (b + t) B /\
    match B' with (_, false) :: _ => False | _ => True end /\ forall x, x < b \/ b + 8 <= x -> m' x = m x.
Proof.
  revert m t B. induction f as [|f IH]; intros m t B Hs Hsum Hb Hf; [lia|]. cbn [coalesce]. pose proof Hs as ((H1 & H2) & H3 & H4 & H5).
  pose proof (seg_sum _ _ _ H5) as Hpos. cbn [fst] in *. rewrite H3. destruct B as [|[t2 u2] B].
  { cbn in Hsum. rewrite (proj2 (Z.ltb_ge _ _)) by lia. exists m, t, []. by repeat split. }
  pose proof H5 as ((H6 & H7) & H8 & H9 & H10). pose proof (seg_sum _ _ _ H10). cbn [sum foldr fst length] in *. fold (sum B) in *.
  unfold HDR_SZ, ALIGN, HEAP_SZ in *. rewrite (proj2 (Z.ltb_lt _ _)) by lia. rewrite H9. destruct u2; cbn [Z.b2z Z.eqb negb].
  { exists m, t, ((t2, true) :: B). by repeat split. }
  rewrite H8, u64_small by int_lia. set (m1 := set_total b (t + t2) m).
  assert (forall x, x < b \/ b + 8 <= x -> m1 x = m x) as Ho by (intros x Hx; by apply st64_other).
  destruct (IH m1 (t + t2) B) as (m' & t' & B' & E & Hs' & Es & Ht & El & Hm & Ho'); [|lia|done|lia|].
  - split; [split; cbn [fst]; unfold HDR_SZ, ALIGN; lia|]. unfold total, used, m1, set_total in *. rewrite ld64_st64 by int_lia.
    rewrite ld64_st64_ne by lia. split; [done|]. split; [done|]. rewrite Z.add_assoc. eapply seg_ext; [|done]. intros x Hx. apply st64_other. lia.
  - exists m', t', B'. split; [done|]. split; [done|]. split; [lia|]. split; [lia|]. split; [rewrite El; cbn [live app]; f_equal; lia|]. split; [done|].
    intros x Hx. rewrite Ho' by done. by apply Ho.
Qed.

Lemma free_spec h L ptr s : wf h L -> (ptr, s) ∈ live 0 L ->
  exists h' L', free ptr h = Some h' /\ wf h' L' /\ live 0 L ≡ₚ (ptr, s) :: live 0 L' /\ kept L' h h' /\ s_init h' = true.
Proof.
  intros Hwf Hin. destruct (s_init h) eqn:Hi; unfold wf in Hwf; rewrite Hi in Hwf; [|subst L; by apply elem_of_nil in Hin].
  destruct Hwf as [Hseg Hsum]. destruct (live_split _ _ _ _ _ Hseg Hin) as (A & t & B & -> & -> & ->). pose proof Hseg as Hseg0.
  apply seg_cat in Hseg0 as [HA (Hb & H3 & H4 & HB)]. pose proof (seg_sum _ _ _ HA). pose proof (fuel_enough _ _ Hseg Hsum) as Hfu.
  rewrite sum_app in Hsum. cbn [sum foldr fst] in Hsum. fold (sum B) in Hsum. destruct Hb as [Hb1 Hb2]. cbn [fst] in *.
  rewrite Z.add_0_l in *. unfold free. rewrite (proj2 (Z.eqb_neq _ 0)) by (unfold HDR_SZ; lia). replace (sum A + HDR_SZ - HDR_SZ) with (sum A) by lia.
  set (m1 := set_used (sum A) 0 (s_heap h)). assert (forall x, x < sum A + 8 \/ sum A + 16 <= x -> m1 x = s_heap h x) as Ho.
  { intros x Hx. apply st64_other. lia. }
  unfold HDR_SZ, ALIGN in *. destruct (coalesce_spec fuel (sum A) m1 t B) as (m' & t' & B' & -> & Hs' & Es & Ht & El & _ & Ho'); [|lia|done| |].
  - split; [done|]. unfold total, used, m1, set_used in *. rewrite ld64_st64 by int_lia. rewrite ld64_st64_ne by lia. split; [done|]. split; [done|].
    eapply seg_ext; [|done]. intros x Hx. apply st64_other. lia.
  - rewrite length_app in Hfu. cbn [length] in Hfu. lia.
  - cbn [mbind option_bind]. assert (forall x, x < sum A \/ sum A + 16 <= x -> m' x = s_heap h x) as Hoo by (intros x Hx; rewrite Ho' by lia; apply Ho; lia).
    exists (mk_heap m' (s_init h)), (A ++ (t', false) :: B'). split; [done|]. unfold wf. cbn [s_init s_heap]. rewrite Hi.
    assert (seg m' 0 (A ++ (t', false) :: B')) as Hsg.
    { apply seg_cat. split; [|done]. eapply seg_ext; [|done]. intros x Hx. apply Hoo. lia. }
    split; [split; [done|]; rewrite sum_app; cbn [sum foldr fst]; fold (sum B'); lia|]. split.
    + rewrite !live_app. cbn [live app]. rewrite Z.add_0_l, El. unfold HDR_SZ. by rewrite Permutation_middle.
    + split; [|done]. intros q s a Hq Ha. cbn [s_heap]. apply Hoo. pose proof (live_outside _ _ _ _ _ _ _ _ Hsg Hq Ha). unfold HDR_SZ, ALIGN in *. lia.
Qed.

(** ** [calloc] and [realloc] *)

(** A change inside a payload is none to the headers. *)
Lemma seg_payload m m' p L q s : seg m p L -> (q, s) ∈ live p L -> (forall x, x < q \/ q + s <= x -> m' x = m x) -> seg m' p L.
Proof.
  intros Hs Hin Ho. destruct (live_split _ _ _ _ _ Hs Hin) as (A & t & B & -> & -> & ->). apply seg_cat in Hs as [HA (Hb & H3 & H4 & HB)].
  pose proof Hb as [Hb1 _]. cbn [fst] in Hb1. unfold HDR_SZ, ALIGN in *. apply seg_cat. split; [eapply seg_ext; [|done]; intros x Hx; apply Ho; lia|].
  split; [done|]. unfold total, used in *. rewrite !(ld64_ext m m') by (intros x Hx; apply Ho; lia). split; [done|]. split; [done|].
  eapply seg_ext; [|done]. intros x Hx. apply Ho. lia.
Qed.

(** Two live payloads do not overlap. *)
Lemma live_apart m p L q s L1 : seg m p L -> live p L ≡ₚ (q, s) :: L1 -> forall q' s', (q', s') ∈ L1 -> q' + s' <= q \/ q + s <= q'.
Proof.
  revert p L1. induction L as [|[t u] L IH]; intros p L1 Hs HP q' s' Hin.
  { by apply Permutation_nil_cons in HP. }
  cbn [seg live] in *. destruct Hs as ((H1 & _) & _ & _ & H5). cbn [fst] in H1. unfold HDR_SZ, ALIGN in *. destruct u; cbn [app] in HP; [|by eapply IH].
  assert (forall a b, (a, b) ∈ live (p + t) L -> p + t <= a) as Hhigh.
  { intros a b Hab. destruct (live_seg _ _ _ _ _ H5 Hab). unfold HDR_SZ in *. lia. }
  assert ((p + 16, t - 16) ∈ (q, s) :: L1) as Hhd by (rewrite <- HP; by left).
  apply elem_of_cons in Hhd as [E|Hhd].
  - injection E as <- <-. apply Permutation_cons_inv in HP. right. rewrite <- HP in Hin. apply Hhigh in Hin. lia.
  - apply list_elem_of_split in Hhd as (l1 & l2 & ->). rewrite app_comm_cons, <- Permutation_middle in HP. apply Permutation_cons_inv in HP.
    rewrite <- Permutation_middle in Hin. apply elem_of_cons in Hin as [[= -> ->]|Hin]; [|by eapply IH].
    left. assert ((q, s) ∈ live (p + t) L) as Hq by (rewrite HP; by left). apply Hhigh in Hq. lia.
Qed.

Lemma wf_payload h L q s m' : wf h L -> s_init h = true -> (q, s) ∈ live 0 L -> (forall x, x < q \/ q + s <= x -> m' x = s_heap h x) -> wf (mk_heap m' (s_init h)) L.
Proof. unfold wf. cbn [s_init s_heap]. intros H Hi Hin Ho. rewrite Hi in *. destruct H as [Hs Hsum]. split; [|done]. by eapply seg_payload. Qed.

(** C21: [malloc] of a positive size (0 is answered with NULL) on a well-formed arena returns a payload of at least
    the size asked for, aligned, disjoint from every payload in use, all of which keep their bytes, or NULL, and then
    no free block is large enough; the arena stays well-formed. The size must not wrap around when the header is
    added. *)
Theorem malloc_correct h L n : wf h L -> 0 < n -> n + 31 < 2 ^ 64 ->
  exists r h' L', malloc n h = Some (r, h') /\ wf h' L' /\ kept L h h' /\
    ((r = 0 /\ L' = L /\ Forall (fun b => b.2 = true \/ b.1 < size_for n) L) \/
     (r mod ALIGN = 0 /\ r <> 0 /\ exists s, n <= s /\ live 0 L' ≡ₚ (r, s) :: live 0 L /\
        forall q t, (q, t) ∈ live 0 L -> q + t <= r \/ r + s <= q)).
Proof.
  intros Hwf Hn Hov. destruct (malloc_spec h L n Hwf Hn Hov) as (r & h' & L' & E & Hwf' & Hi & Hk & Hr). exists r, h', L'. do 3 (split; [done|]).
  destruct Hr as [Hr|(Ha & H0 & s & Hs & HP)]; [by left|right]. split; [done|]. split; [done|]. exists s. split; [done|]. split; [done|].
  unfold wf in Hwf'. rewrite Hi in Hwf'. by apply (live_apart _ _ _ _ _ _ (proj1 Hwf') HP).
Qed.

(** [free] of a payload in use takes it from the list and changes no other; the arena stays well-formed. *)
Theorem free_correct h L ptr s : wf h L -> (ptr, s) ∈ live 0 L ->
  exists h' L', free ptr h = Some h' /\ wf h' L' /\ live 0 L ≡ₚ (ptr, s) :: live 0 L' /\ kept L' h h'.
Proof. intros Hwf Hin. destruct (free_spec h L ptr s Hwf Hin) as (h' & L' & ? & ? & ? & ? & _). by exists h', L'. Qed.

(** [calloc] returns a payload of zeros when the product does not wrap around. *)
Theorem calloc_correct h L nmemb size : wf h L -> 0 < nmemb * size -> nmemb * size + 31 < 2 ^ 64 ->
  exists r h' L', calloc nmemb size h = Some (r, h') /\ wf h' L' /\ kept L h h' /\
    (r = 0 \/ exists s, live 0 L' ≡ₚ (r, s) :: live 0 L /\ nmemb * size <= s /\ forall i, 0 <= i < nmemb * size -> s_heap h' (r + i) = 0).
Proof.
  intros Hwf Hn Hov. unfold calloc. rewrite u64_small by int_lia.
  destruct (malloc_spec h L _ Hwf Hn Hov) as (r & h' & L' & -> & Hwf' & Hi & Hk & [(-> & -> & _)|(Ha & H0 & s & Hs & HP)]); cbn [mbind option_bind].
  - exists 0, h', L. split; [done|]. split; [done|]. split; [done|]. by left.
  - rewrite (proj2 (Z.eqb_neq r 0)) by done. exists r, (mk_heap (clear (s_heap h') r (nmemb * size)) (s_init h')), L'. split; [done|].
    assert ((r, s) ∈ live 0 L') as Hin by (rewrite HP; by left).
    assert (forall x, x < r \/ r + s <= x -> clear (s_heap h') r (nmemb * size) x = s_heap h' x) as Ho.
    { intros x Hx. unfold clear. rewrite CString.memset_correct. by rewrite decide_False by lia. }
    split; [by eapply wf_payload|]. unfold wf in Hwf'. rewrite Hi in Hwf'. destruct Hwf' as [Hseg' _]. split.
    + intros q t a Hq Hqa. cbn [s_heap]. rewrite Ho; [by apply (Hk q t)|]. pose proof (live_apart _ _ _ _ _ _ Hseg' HP q t Hq). lia.
    + right. exists s. split; [done|]. split; [done|]. intros i Hii. cbn [s_heap]. unfold clear. rewrite CString.memset_correct.
      by rewrite decide_True by lia.
Qed.

(** [realloc] of a payload in use to a size that does not wrap around returns a payload of at least that size
    that starts with the old payload's bytes and takes its place among the payloads in use, or NULL, and then the
    old one stays; every other payload keeps its place and its bytes. *)
Theorem realloc_correct h L ptr s L1 size : wf h L -> live 0 L ≡ₚ (ptr, s) :: L1 -> 0 < size -> size + 31 < 2 ^ 64 ->
  exists r h' L', realloc ptr size h = Some (r, h') /\ wf h' L' /\ (forall q t a, (q, t) ∈ L1 -> q <= a < q + t -> s_heap h' a = s_heap h a) /\
    ((r = 0 /\ L' = L /\ kept L h h') \/
     exists s', size <= s' /\ live 0 L' ≡ₚ (r, s') :: L1 /\ forall i, 0 <= i < Z.min s s' -> s_heap h' (r + i) = s_heap h (ptr + i)).
Proof.
  intros Hwf HP Hn Hov. assert ((ptr, s) ∈ live 0 L) as Hin by (rewrite HP; by left).
  destruct (s_init h) eqn:Hi; pose proof Hwf as Hwf0; unfold wf in Hwf0; rewrite Hi in Hwf0; [|subst L; by apply elem_of_nil in Hin].
  destruct Hwf0 as [Hseg Hsum]. destruct (live_seg _ _ _ _ _ Hseg Hin) as (Hlo & Hhi & _). unfold realloc.
  rewrite (proj2 (Z.eqb_neq ptr 0)) by (unfold HDR_SZ in *; lia). rewrite (proj2 (Z.eqb_neq size 0)) by lia.
  assert (u64 (total (s_heap h) (ptr - HDR_SZ) - HDR_SZ) = s) as ->.
  { destruct (live_split _ _ _ _ _ Hseg Hin) as (A & t & B & -> & -> & ->). apply seg_cat in Hseg as [HA ((Hb & _) & H3 & _ & HB)].
    replace (0 + sum A + HDR_SZ - HDR_SZ) with (0 + sum A) by lia. rewrite H3, u64_small; [done|].
    rewrite sum_app in Hsum. cbn [sum foldr fst] in Hsum, Hb. fold (sum B) in Hsum. pose proof (seg_sum _ _ _ HA). pose proof (seg_sum _ _ _ HB).
    unfold HDR_SZ, ALIGN, HEAP_SZ in *. int_lia. }
  destruct (Z.leb_spec size s) as [Hle|Hgt].
  { exists ptr, h, L. split; [done|]. split; [done|]. split; [done|]. right. exists s. done. }
  destruct (malloc_spec h L size Hwf Hn Hov) as (r & h1 & L2 & -> & Hwf1 & Hi1 & Hk & [(-> & -> & _)|(Ha & H0 & s' & Hs & HP1)]); cbn [mbind option_bind].
  { exists 0, h1, L. split; [done|]. split; [done|]. split; [intros q t a Hq; apply Hk; rewrite HP; by right|]. by left. }
  rewrite (proj2 (Z.eqb_neq r 0)) by done. set (m := copy (s_heap h1) r ptr s). pose proof Hwf1 as Hwf2. unfold wf in Hwf2. rewrite Hi1 in Hwf2. destruct Hwf2 as [Hseg1 _].
  pose proof (live_apart _ _ _ _ _ _ Hseg1 HP1) as Hap. pose proof (Hap ptr s Hin) as Hap1. assert ((r, s') ∈ live 0 L2) as Hin1 by (rewrite HP1; by left).
  assert (0 <= s) as Hs0. { destruct (live_seg _ _ _ _ _ Hseg Hin) as (_ & _ & ?). unfold ALIGN in *. lia. }
  assert (forall x, m x = if decide (r <= x < r + s) then s_heap h1 (ptr + (x - r)) else s_heap h1 x) as Hm.
  { intros x. unfold m, copy. apply CString.memcpy_correct; lia. }
  assert (wf (mk_heap m (s_init h1)) L2) as Hwf3.
  { eapply wf_payload; [done|done|done|]. intros x Hx. rewrite Hm. by rewrite decide_False by lia. }
  destruct (free_spec (mk_heap m (s_init h1)) L2 ptr s Hwf3) as (h2 & L3 & -> & Hwf4 & HP2 & Hk2 & _); [rewrite HP1; by right|].
  exists r, h2, L3. split; [done|]. split; [done|]. rewrite HP1, HP, perm_swap in HP2. apply Permutation_cons_inv in HP2.
  assert (forall q t a, (q, t) ∈ (r, s') :: L1 -> q <= a < q + t -> s_heap h2 a = m a) as Hk3.
  { intros q t a Hq Hqa. apply (Hk2 q t a); [by rewrite <- HP2|done]. }
  split.
  - intros q t a Hq Hqa. rewrite (Hk3 q t a) by (by try right). assert ((q, t) ∈ live 0 L) as HqL by (rewrite HP; by right).
    rewrite Hm, decide_False by (pose proof (Hap q t HqL); lia). by apply (Hk q t).
  - right. exists s'. split; [done|]. split; [done|]. intros i Hii. rewrite (Hk3 r s') by (lia || by left).
    rewrite Hm, decide_True by lia. replace (ptr + (r + i - r)) with (ptr + i) by lia. apply (Hk ptr s); [done|lia].
Qed.

(** ** Witnesses and defects *)

Definition start : heap := mk_heap (fun _ => 0) false.

Lemma malloc_correct_witness : exists r h' L', malloc 100 start = Some (r, h') /\ wf h' L' /\ r = 16.
Proof.
  destruct (malloc_correct start [(HEAP_SZ, false)] 100 ltac:(done) ltac:(lia) ltac:(lia)) as (r & h' & L' & E & Hwf & _).
  exists r, h', L'. split; [exact E|]. split; [exact Hwf|]. assert (fst <$> malloc 100 start = Some 16) as H by by vm_compute. rewrite E in H. by injection H.
Defined.

(** An arena with one payload of 100 bytes. *)
Definition one : heap := match malloc 100 start with Some (_, h) => h | None => start end.
Definition one_blocks : blocks := [(128, true); (HEAP_SZ - 128, false)].

Lemma one_wf : wf one one_blocks.
Proof. split; [|done]. cbn [seg one_blocks]. by vm_compute. Qed.

Lemma realloc_correct_witness : exists r h' L', realloc 16 200 one = Some (r, h') /\ wf h' L' /\ r = 144.
Proof.
  destruct (realloc_correct one one_blocks 16 112 [] 200 one_wf ltac:(done) ltac:(lia) ltac:(lia)) as (r & h' & L' & E & Hwf & _).
  exists r, h', L'. split; [exact E|]. split; [exact Hwf|]. assert (fst <$> realloc 16 200 one = Some 144) as H by by vm_compute. rewrite E in H. by injection H.
Defined.

(** The header's size wraps around: a request for all of memory gets a payload of 16 bytes. *)
Example malloc_wraps : fst <$> malloc (2 ^ 64 - 1) start = Some 16 /\ size_for (2 ^ 64 - 1) = 32.
Proof. by vm_compute. Qed.

(** The product of [calloc] wraps around as well. *)
Example calloc_wraps : fst <$> calloc (2 ^ 63 + 1) 2 start = Some 16 /\ u64 ((2 ^ 63 + 1) * 2) = 2.
Proof. by vm_compute. Qed.

(** Blocks are merged with what is behind them only: with all payloads freed, the first one first, half of the arena
    is the most that can be had. *)
Definition halves : option (option Z) :=
  '(a, h) ← malloc (HEAP_SZ / 2 - 16) start; '(b, h) ← malloc (HEAP_SZ / 2 - 16) h;
  h ← free a h; h ← free b h; '(p, _) ← malloc (HEAP_SZ / 2) h; Some (if p =? 0 then None else Some p).
Example free_leaves_halves : halves = Some None.
Proof. by vm_compute. Qed.

End Malloc.
