(* ===== verification/Libc.v ===== *)
(** * Strings and numbers in the C library of the user programs

    Models [user/libc/src/string.c], and [atoi] of [user/libc/src/stdlib.c]. A pointer into a buffer is the list of
    the bytes from there to the end of the buffer, [p++] is its tail, and a read or a store behind the end is [None].
    A position that a function returns is the number of bytes it has advanced. *)

From S2P Require Import Prelude Bytes CString.
Import CString.

Module Libc.

Fixpoint strlen (s : list Z) : option Z :=
  match s with
  | [] => None
  | c :: s' => if c =? 0 then Some 0 else n ← strlen s'; Some (n + 1)
  end.

Fixpoint strcpy (dst src : list Z) : option (list Z) :=
  match dst, src with
  | _ :: dst', c :: src' => if c =? 0 then Some (0 :: dst') else d ← strcpy dst' src'; Some (c :: d)
  | _, _ => None
  end.

(** [while (n--) *p++ = c;] *)
Fixpoint memset (dst : list Z) (c : Z) (n : nat) {struct n} : option (list Z) :=
  match n, dst with
  | O, _ => Some dst
  | S n', _ :: dst' => d ← memset dst' c n'; Some (u8 c :: d)
  | S _, [] => None
  end.

Fixpoint memcpy (dst src : list Z) (n : nat) {struct n} : option (list Z) :=
  match n, dst, src with
  | O, _, _ => Some dst
  | S n', _ :: dst', c :: src' => d ← memcpy dst' src' n'; Some (c :: d)
  | S _, _, _ => None
  end.

Fixpoint strncpy (dst src : list Z) (n : nat) {struct n} : option (list Z) :=
  match n, src, dst with
  | O, _, _ => Some dst
  | S n', c :: src', _ :: dst' => if c =? 0 then memset dst 0 n else d ← strncpy dst' src' n'; Some (c :: d)
  | S _, _, _ => None
  end.

Fixpoint strcmp (a b : list Z) : option Z :=
  match a, b with
  | x :: a', y :: b' => if negb (x =? 0) && (x =? y) then strcmp a' b' else Some (x - y)
  | _, _ => None
  end.

Fixpoint strncmp (a b : list Z) (n : nat) {struct n} : option Z :=
  match n, a, b with
  | O, _, _ => Some 0
  | S n', x :: a', y :: b' => if negb (x =? y) then Some (x - y) else if x =? 0 then Some 0 else strncmp a' b' n'
  | S _, _, _ => None
  end.

(** [Some None] is NULL. *)
Definition next (r : option Z) : option Z := match r with Some k => Some (k + 1) | None => None end.
Fixpoint strchr (s : list Z) (c : Z) : option (option Z) :=
  match s with
  | [] => None
  | x :: s' =>
      if x =? 0 then Some (if c =? 0 then Some 0 else None)
      else if x =? u8 c then Some (Some 0)
      else r ← strchr s' c; Some (next r)
  end.

(** [while ( *h && *n && *h == *n) { h++; n++; }]: whether [*n] is the end. *)
Fixpoint starts_with (h n : list Z) : option bool :=
  match h, n with
  | x :: h', y :: n' =>
      if negb (x =? 0) && negb (y =? 0) && (x =? y) then starts_with h' n' else Some (y =? 0)
  | _, _ => None
  end.

Fixpoint strstr_loop (h n : list Z) : option (option Z) :=
  match h with
  | [] => None
  | x :: h' =>
      if x =? 0 then Some None
      else
        b ← starts_with h n;
        if (b : bool) then Some (Some 0) else r ← strstr_loop h' n; Some (next r)
  end.
Definition strstr (haystack needle : list Z) : option (option Z) :=
  match needle with
  | [] => None
  | c :: _ => if c =? 0 then Some (Some 0) else strstr_loop haystack needle
  end.

Definition is_digit (c : Z) : bool := (48 <=? c) && (c <=? 57).

(** [while ( *s == ' ' || *s == '\t') s++;] *)
Fixpoint skip_blanks (s : list Z) : option (list Z) :=
  match s with
  | [] => None
  | c :: s' => if (c =? 32) || (c =? 9) then skip_blanks s' else Some s
  end.
Definition sign (s : list Z) : option (bool * list Z) :=
  match s with
  | [] => None
  | c :: s' => Some (if c =? 45 then (true, s') else if c =? 43 then (false, s') else (false, s))
  end.

Fixpoint atoi_loop (s : list Z) (n : Z) : option Z :=
  match s with
  | [] => None
  | c :: s' => if is_digit c then atoi_loop s' (s32 (n * 10 + (c - 48))) else Some n
  end.
Definition atoi (s : list Z) : option Z :=
  s ← skip_blanks s;
  '(neg, s) ← sign s;
  n ← atoi_loop s 0;
  Some (if (neg : bool) then s32 (- n) else n).

(** The base, and the digits. *)
Definition hex_prefix (s : list Z) : option bool :=
  match s with
  | [] => None
  | c :: s' => if c =? 48 then match s' with [] => None | x :: _ => Some ((x =? 120) || (x =? 88)) end else Some false
  end.
Definition base_of (base : Z) (s : list Z) : option (Z * list Z) :=
  if base =? 0 then
    h ← hex_prefix s;
    Some (if (h : bool) then (16, drop 2 s) else if aget 0 s 0 =? 48 then (8, drop 1 s) else (10, s))
  else if base =? 16 then h ← hex_prefix s; Some (base, if (h : bool) then drop 2 s else s)
  else Some (base, s).

Definition digit (c : Z) : option Z :=
  if is_digit c then Some (c - 48)
  else if (97 <=? c) && (c <=? 122) then Some (c - 97 + 10)
  else if (65 <=? c) && (c <=? 90) then Some (c - 65 + 10)
  else None.
Fixpoint strtol_loop (base : Z) (s : list Z) (val : Z) : option (Z * list Z) :=
  match s with
  | [] => None
  | c :: s' =>
      if c =? 0 then Some (val, s)
      else
        match digit c with
        | None => Some (val, s)
        | Some d => if base <=? d then Some (val, s) else strtol_loop base s' (s64 (val * base + d))
        end
  end.
Definition strtol (s : list Z) (base : Z) : option (Z * list Z) :=
  s ← skip_blanks s;
  '(neg, s) ← sign s;
  '(base, s) ← base_of base s;
  '(val, s) ← strtol_loop base s 0;
  Some (if (neg : bool) then s64 (- val) else val, s).

(** ** Strings *)

(** The bytes of a literal. *)
Definition txt (s : string) : list Z := (fun c => Z.of_nat (Ascii.nat_of_ascii c)) <$> String.list_ascii_of_string s.
(** The bytes of a C string without its end. *)
Definition str (s : list Z) : Prop := Forall (fun c => 0 < c < 256) s.

Lemma str_cons c s : str (c :: s) <-> 0 < c < 256 /\ str s.
Proof. unfold str. by rewrite Forall_cons. Qed.

Lemma str_app s t : str (s ++ t) <-> str s /\ str t.
Proof. unfold str. by rewrite Forall_app. Qed.

Lemma strlen_spec s r : str s -> strlen (s ++ 0 :: r) = Some (blen s).
Proof.
  induction s as [|c s IH]; [done|]. intros [Hc Hs]%str_cons. cbn [app strlen]. rewrite (proj2 (Z.eqb_neq c 0)) by lia.
  rewrite (IH Hs). cbn. f_equal. unfold blen. cbn [length]. lia.
Qed.

Lemma memcpy_spec n dst src : (n <= length dst)%nat -> (n <= length src)%nat -> memcpy dst src n = Some (take n src ++ drop n dst).
Proof.
  revert dst src. induction n as [|n IH]; intros dst src Hd Hs; cbn [memcpy]; [done|].
  destruct dst as [|x dst], src as [|c src]; cbn [length] in *; [lia..|]. by rewrite IH by lia.
Qed.

Lemma memset_spec n dst c : (n <= length dst)%nat -> memset dst c n = Some (replicate n (u8 c) ++ drop n dst).
Proof.
  revert dst. induction n as [|n IH]; intros dst Hd; cbn [memset]; [done|]. destruct dst as [|x dst]; cbn [length] in *; [lia|]. by rewrite IH by lia.
Qed.

Lemma strncpy_spec n dst s r : str s -> (n <= length dst)%nat ->
  strncpy dst (s ++ 0 :: r) n = Some (take n s ++ replicate (n - length s) 0 ++ drop n dst).
Proof.
  revert dst s. induction n as [|n IH]; intros dst s Hs Hd; cbn [strncpy]; [by destruct s|].
  destruct dst as [|x dst]; cbn [length] in *; [lia|]. destruct s as [|c s]; cbn [app take length Nat.sub].
  - rewrite memset_spec by (cbn; lia). done.
  - apply str_cons in Hs as [Hc Hs]. rewrite (proj2 (Z.eqb_neq c 0)) by lia. by rewrite IH by (done || lia).
Qed.

Lemma strcpy_spec dst s r : str s -> (length s < length dst)%nat -> strcpy dst (s ++ 0 :: r) = Some (s ++ 0 :: drop (S (length s)) dst).
Proof.
  revert dst. induction s as [|c s IH]; intros dst Hs Hd; destruct dst as [|x dst]; cbn [length app strcpy] in *; try lia; [done|].
  apply str_cons in Hs as [Hc Hs]. rewrite (proj2 (Z.eqb_neq c 0)) by lia. by rewrite IH by (done || lia).
Qed.

(** [strcmp] is zero for equal strings only. *)
Lemma strcmp_spec s t r r' : str s -> str t -> exists v, strcmp (s ++ 0 :: r) (t ++ 0 :: r') = Some v /\ (v = 0 <-> s = t).
Proof.
  revert t. induction s as [|x s IH]; intros [|y t] Hs Ht; cbn [app strcmp].
  - by exists 0.
  - apply str_cons in Ht as [Hy _]. cbn [Z.eqb negb andb]. exists (0 - y). split; [done|]. split; [lia|done].
  - apply str_cons in Hs as [Hx _]. rewrite (proj2 (Z.eqb_neq x 0)) by lia. cbn [negb andb]. exists (x - 0). split; [done|]. split; [lia|done].
  - apply str_cons in Hs as [Hx Hs], Ht as [Hy Ht]. rewrite (proj2 (Z.eqb_neq x 0)) by lia. cbn [negb andb].
    destruct (Z.eqb_spec x y) as [->|Hne].
    + destruct (IH t Hs Ht) as (v & E & Hv). exists v. split; [done|]. rewrite Hv. split; [by intros ->|by intros [=]].
    + exists (x - y). split; [done|]. split; [lia|congruence].
Qed.

(** [strchr] finds the first occurrence. *)
Lemma strchr_found s c t : str s -> 0 < c < 256 -> c ∉ s -> strchr (s ++ c :: t) c = Some (Some (blen s)).
Proof.
  intros Hs Hc Hn. assert (u8 c = c) as Eu by (apply u8_small; int_lia). induction s as [|x s IH]; cbn [app strchr].
  - rewrite (proj2 (Z.eqb_neq c 0)) by lia. by rewrite Eu, Z.eqb_refl.
  - apply str_cons in Hs as [Hx Hs]. apply not_elem_of_cons in Hn as [Hne Hn]. rewrite (proj2 (Z.eqb_neq x 0)), Eu, (proj2 (Z.eqb_neq x c)) by lia || congruence.
    rewrite (IH Hs Hn). cbn. do 2 f_equal. unfold blen. cbn [length]. lia.
Qed.

Lemma strchr_missing s c r : str s -> 0 < c < 256 -> c ∉ s -> strchr (s ++ 0 :: r) c = Some None.
Proof.
  intros Hs Hc Hn. assert (u8 c = c) as Eu by (apply u8_small; int_lia). induction s as [|x s IH]; cbn [app strchr].
  - by rewrite (proj2 (Z.eqb_neq c 0)) by lia.
  - apply str_cons in Hs as [Hx Hs]. apply not_elem_of_cons in Hn as [Hne Hn]. rewrite (proj2 (Z.eqb_neq x 0)), Eu, (proj2 (Z.eqb_neq x c)) by lia || congruence.
    by rewrite (IH Hs Hn).
Qed.

(** ** Searching *)

Lemma starts_with_spec h n r r' : str h -> str n -> exists b, starts_with (h ++ 0 :: r) (n ++ 0 :: r') = Some b /\ (b = true <-> n `prefix_of` h).
Proof.
  revert n. induction h as [|x h IH]; intros [|y n] Hh Hn; cbn [app starts_with].
  - exists true. split; [done|]. split; [intros _; apply prefix_nil|done].
  - apply str_cons in Hn as [Hy _]. exists (y =? 0). rewrite (proj2 (Z.eqb_neq y 0)) by lia. split; [done|]. split; [done|].
    intros [? [=]].
  - apply str_cons in Hh as [Hx _]. rewrite (proj2 (Z.eqb_neq x 0)) by lia. exists true. split; [done|]. split; [intros _; apply prefix_nil|done].
  - apply str_cons in Hh as [Hx Hh], Hn as [Hy Hn]. rewrite !(proj2 (Z.eqb_neq _ 0)) by lia. cbn [negb andb]. destruct (Z.eqb_spec x y) as [->|Hne].
    + destruct (IH n Hh Hn) as (b & E & Hb). exists b. split; [done|]. rewrite Hb. split; [apply prefix_cons|apply prefix_cons_inv_2].
    + exists false. split; [done|]. split; [done|]. intros H%prefix_cons_inv_1. congruence.
Qed.

Lemma strstr_spec h n r r' : str h -> str n ->
  match strstr (h ++ 0 :: r) (n ++ 0 :: r') with
  | Some (Some k) => exists pre post, h = pre ++ n ++ post /\ blen pre = k /\
      forall pre' post', h = pre' ++ n ++ post' -> blen pre <= blen pre'
  | Some None => forall pre post, h <> pre ++ n ++ post
  | None => False
  end.
Proof.
  intros Hh Hn. destruct n as [|c n]; cbn [app strstr].
  { exists [], h. split; [done|]. split; [done|]. intros pre' _ _. unfold blen. cbn. lia. }
  pose proof Hn as Hcn. apply str_cons in Hcn as [Hc _]. rewrite (proj2 (Z.eqb_neq c 0)) by lia.
  induction h as [|x h IH]; cbn [app strstr_loop].
  { cbn. intros pre post E. symmetry in E. by apply app_nil in E as [_ E]. }
  pose proof Hh as Hxh. apply str_cons in Hxh as [Hx Hh']. rewrite (proj2 (Z.eqb_neq x 0)) by lia.
  destruct (starts_with_spec (x :: h) (c :: n) r r' Hh Hn) as (b & E & Hb). change ((x :: h) ++ 0 :: r) with (x :: h ++ 0 :: r) in E.
  change (c :: n ++ 0 :: r') with ((c :: n) ++ 0 :: r'). rewrite E. cbn [mbind option_bind]. destruct b.
  { destruct (proj1 Hb eq_refl) as [post Ep]. exists [], post. split; [done|]. split; [done|]. intros pre' _ _. unfold blen. cbn. lia. }
  assert (forall pre post, x :: h = pre ++ (c :: n) ++ post -> exists pre', pre = x :: pre' /\ h = pre' ++ (c :: n) ++ post) as Hstep.
  { intros [|y pre] post Eq; [|injection Eq as -> ->; by exists pre]. assert (false = true) as [=]. apply Hb. by exists post. }
  specialize (IH Hh'). change (c :: n ++ 0 :: r') with ((c :: n) ++ 0 :: r') in IH. destruct (strstr_loop (h ++ 0 :: r) ((c :: n) ++ 0 :: r')) as [[k|]|]; [| |done].
  - destruct IH as (pre & post & -> & <- & Hmin). exists (x :: pre), post. cbn [mbind option_bind next]. split; [done|]. split; [unfold blen; cbn [length]; lia|].
    intros pre' post' (pre1 & -> & E1)%Hstep. specialize (Hmin _ _ E1). unfold blen in *. cbn [length]. lia.
  - intros pre post (pre1 & -> & E1)%Hstep. by apply (IH pre1 post).
Qed.

(** [strstr] is substring search. It returns the first position of the haystack at which the needle occurs, and
    NULL when the needle occurs nowhere. *)
Theorem strstr_correct h n r r' : str h -> str n ->
  match strstr (h ++ 0 :: r) (n ++ 0 :: r') with
  | Some (Some k) => exists pre post, h = pre ++ n ++ post /\ blen pre = k /\
      forall pre' post', h = pre' ++ n ++ post' -> blen pre <= blen pre'
  | Some None => forall pre post, h <> pre ++ n ++ post
  | None => False
  end.
Proof. apply strstr_spec. Qed.

Lemma strstr_correct_witness : strstr [97; 98; 98; 99; 0] [98; 99; 0] = Some (Some 2) /\ exists pre post, [97; 98; 98; 99] = pre ++ [98; 99] ++ post /\ blen pre = 2.
Proof.
  split; [done|]. pose proof (strstr_correct [97; 98; 98; 99] [98; 99] [] [] ltac:(repeat constructor; lia) ltac:(repeat constructor; lia)) as H.
  destruct H as (pre & post & E & Hl & _). by exists pre, post.
Defined.

End Libc.
