(* ===== verification/Stdio.v ===== *)
(** * Formatted output of the user programs

    Models [user/libc/src/stdio.c]: the formatter [vfmt] with its two sinks, the standard output behind a buffer of
    512 bytes and a bounded string, and [printf], [vsnprintf], [puts]. Strings are as in [Libc]; a variadic argument
    is a number, of which a conversion takes the low bits of its type, or a string; one of the wrong kind is a fault,
    as is a store outside a buffer and a read behind the end of the format.

    The loop over the format takes its length as fuel. *)

From S2P Require Import Prelude Bytes CString Libc.

Module Stdio.

Definition FAULT : string := "access outside a buffer".
Definition OBUF_SZ : Z := 512.

(** [written] is what [write(1, ...)] has got. *)
Record stdio := mk_stdio { s_obuf : list Z; s_opos : Z; written : list Z }.
Record fmt_ctx_t := mk_ctx { buf : option (list Z); cap : Z; pos : Z }.
Record st := mk_st { ctx : fmt_ctx_t; io : stdio }.

Inductive arg := Num (v : Z) | Str (s : option (list Z)).

Definition write1 (l : list Z) (s : stdio) : stdio := mk_stdio (s_obuf s) (s_opos s) (written s ++ l).

Definition flush (s : stdio) : stdio :=
  if s_opos s =? 0 then s
  else let s := write1 (take (Z.to_nat (s_opos s)) (s_obuf s)) s in mk_stdio (s_obuf s) 0 (written s).

Definition emit (c : Z) (s : stdio) : stdio :=
  let s := mk_stdio (aset (s_obuf s) (s_opos s) c) (s_opos s + 1) (written s) in
  if s_opos s =? OBUF_SZ then flush s else s.

Definition ctx_putc (c : Z) : K st unit := fun s =>
  let x := ctx s in
  match buf x with
  | Some b =>
      if u64 (pos x + 1) <? cap x then
        if pos x <? blen b then Ok (tt, mk_st (mk_ctx (Some (aset b (pos x) c)) (cap x) (u64 (pos x + 1))) (io s)) else Panic FAULT
      else Ok (tt, s)
  | None => Ok (tt, mk_st x (emit c (io s)))
  end.

Fixpoint put_all (l : list Z) : K st unit :=
  match l with
  | [] => mret tt
  | c :: l' => _ ← ctx_putc c; put_all l'
  end.

Definition NULL_TEXT : list Z := [40; 110; 117; 108; 108; 41].
Fixpoint puts_loop (s : list Z) : K st unit :=
  match s with
  | [] => panic FAULT
  | c :: s' => if c =? 0 then mret tt else _ ← ctx_putc c; puts_loop s'
  end.
Definition ctx_puts (s : option (list Z)) : K st unit := puts_loop (match s with Some s => s | None => NULL_TEXT ++ [0] end).

(** [digits[d]] *)
Definition digit_char (upper : bool) (d : Z) : Z := if d <? 10 then 48 + d else if upper then 55 + d else 87 + d.

(** [while (v) { buf[i++] = digits[v % base]; v /= base; }] with room for [n] digits. *)
Fixpoint digit_list (n : nat) (upper : bool) (base v : Z) : option (list Z) :=
  if v =? 0 then Some []
  else
    match n with
    | O => None
    | S n' => ds ← digit_list n' upper base (v / base); Some (digit_char upper (v mod base) :: ds)
    end.
Definition uint_buf (upper : bool) (base v : Z) : option (list Z) := if v =? 0 then Some [48] else digit_list 20 upper base v.

Definition ctx_uint_w (v base : Z) (upper : bool) (width : Z) : K st unit :=
  match uint_buf upper base v with
  | None => panic FAULT
  | Some ds => _ ← put_all (replicate (Z.to_nat (width - blen ds)) 32); put_all (rev ds)
  end.

Definition ctx_long_w (v width : Z) : K st unit :=
  if v <? 0 then _ ← ctx_putc 45; ctx_uint_w (u64 (- v)) 10 false (s32 (width - 1))
  else ctx_uint_w v 10 false width.

(** [while ( *p >= '0' && *p <= '9') { width = width * 10 + ( *p - '0'); p++; }] *)
Fixpoint parse_width (p : list Z) (width : Z) : option (Z * list Z) :=
  match p with
  | [] => None
  | c :: p' => if Libc.is_digit c then parse_width p' (s32 (width * 10 + (c - 48))) else Some (width, p)
  end.

(** The arguments of a call, and the rest. *)
Definition va_num (ap : list arg) : option (Z * list arg) := match ap with Num v :: ap' => Some (v, ap') | _ => None end.
Definition va_str (ap : list arg) : option (option (list Z) * list arg) := match ap with Str s :: ap' => Some (s, ap') | _ => None end.

(** Continue with a value, or fault. *)
Definition with_val {A} (o : option A) (k : A -> K st unit) : K st unit := match o with Some a => k a | None => panic FAULT end.

(** What the cases of the [switch] call. *)
Inductive conv :=
  | Puts (s : option (list Z))
  | Long (v width : Z)
  | Uint (v base : Z) (upper : bool) (width : Z)
  | Chars (l : list Z).
Definition run (c : conv) : K st unit :=
  match c with
  | Puts s => ctx_puts s
  | Long v width => ctx_long_w v width
  | Uint v base upper width => ctx_uint_w v base upper width
  | Chars l => put_all l
  end.

(** The cases behind [%], the width and, for the first, [l]. *)
Definition convert_long (e width : Z) (ap : list arg) : option (conv * list arg) :=
  if e =? 100 then '(v, ap) ← va_num ap; Some (Long (s64 v) width, ap)
  else if e =? 117 then '(v, ap) ← va_num ap; Some (Uint (u64 v) 10 false width, ap)
  else if e =? 120 then '(v, ap) ← va_num ap; Some (Uint (u64 v) 16 false width, ap)
  else Some (Chars [37; 108; e], ap).
Definition convert (d width : Z) (ap : list arg) : option (conv * list arg) :=
  if d =? 115 then '(s, ap) ← va_str ap; Some (Puts s, ap)
  else if d =? 100 then '(v, ap) ← va_num ap; Some (Long (s32 v) width, ap)
  else if d =? 117 then '(v, ap) ← va_num ap; Some (Uint (u32 v) 10 false width, ap)
  else if d =? 120 then '(v, ap) ← va_num ap; Some (Uint (u32 v) 16 false width, ap)
  else if d =? 88 then '(v, ap) ← va_num ap; Some (Uint (u32 v) 16 true width, ap)
  else if d =? 99 then '(v, ap) ← va_num ap; Some (Chars [u8 v], ap)
  else if d =? 37 then Some (Chars [37], ap)
  else Some (Chars [37; d], ap).

(** The conversion at [p], behind [%], the rest of the format and the rest of the arguments. *)
Definition directive (p : list Z) (ap : list arg) : option (conv * list Z * list arg) :=
  '(width, p) ← parse_width p 0;
  match p with
  | [] => None
  | d :: p =>
      if d =? 108 then
        p ← (match p with [] => None | e :: p' => Some (if e =? 108 then p' else p) end);
        match p with
        | [] => None
        | e :: p => '(c, ap) ← convert_long e width ap; Some (c, p, ap)
        end
      else '(c, ap) ← convert d width ap; Some (c, p, ap)
  end.

Fixpoint vfmt_loop (fuel : nat) (p : list Z) (ap : list arg) : K st unit :=
  match fuel, p with
  | S f, c :: p' =>
      if c =? 0 then mret tt
      else if negb (c =? 37) then _ ← ctx_putc c; vfmt_loop f p' ap
      else with_val (directive p' ap) (fun '(c, p', ap') => _ ← run c; vfmt_loop f p' ap')
  | _, _ => panic FAULT
  end.

(** The string's end, and the number of characters. *)
Definition finish : K st Z := fun s =>
  let x := ctx s in
  match buf x with
  | Some b =>
      if pos x <? cap x then
        if pos x <? blen b then Ok (s32 (pos x), mk_st (mk_ctx (Some (aset b (pos x) 0)) (cap x) (pos x)) (io s)) else Panic FAULT
      else Ok (s32 (pos x), s)
  | None => Ok (s32 (pos x), s)
  end.
Definition vfmt (fmt : list Z) (ap : list arg) : K st Z := _ ← vfmt_loop (length fmt) fmt ap; finish.

Definition vprintf (fmt : list Z) (ap : list arg) : K stdio Z := fun s =>
  match vfmt fmt ap (mk_st (mk_ctx None 0 0) (mk_stdio (s_obuf s) 0 (written s))) with
  | Ok (r, x) => Ok (r, flush (io x))
  | Panic msg => Panic msg
  end.

(** The result and the buffer. *)
Definition vsnprintf (b : list Z) (n : Z) (fmt : list Z) (ap : list arg) (s : stdio) : outcome (Z * list Z) :=
  match vfmt fmt ap (mk_st (mk_ctx (Some b) n 0) s) with
  | Ok (r, x) => Ok (r, match buf (ctx x) with Some b => b | None => [] end)
  | Panic msg => Panic msg
  end.
Definition vsprintf (b : list Z) (fmt : list Z) (ap : list arg) (s : stdio) : outcome (Z * list Z) := vsnprintf b UINT64_MAX fmt ap s.

Definition puts (t : list Z) (s : stdio) : option (Z * stdio) :=
  n ← Libc.strlen t;
  Some (s32 (n + 1), write1 [10] (write1 (take (Z.to_nat n) t) s)).
Definition putchar (c : Z) (s : stdio) : Z * stdio := (c, write1 [u8 c] s).

(** ** The text of a format *)

Definition uint_text (v base : Z) (upper : bool) (width : Z) : option (list Z) :=
  ds ← uint_buf upper base v; Some (replicate (Z.to_nat (width - blen ds)) 32 ++ rev ds).
Definition text (c : conv) : option (list Z) :=
  match c with
  | Puts (Some s) => n ← Libc.strlen s; Some (take (Z.to_nat n) s)
  | Puts None => Some NULL_TEXT
  | Long v width => if v <? 0 then t ← uint_text (u64 (- v)) 10 false (s32 (width - 1)); Some (45 :: t) else uint_text v 10 false width
  | Uint v base upper width => uint_text v base upper width
  | Chars l => Some l
  end.
Fixpoint format_loop (fuel : nat) (p : list Z) (ap : list arg) : option (list Z) :=
  match fuel, p with
  | S f, c :: p' =>
      if c =? 0 then Some []
      else if negb (c =? 37) then l ← format_loop f p' ap; Some (c :: l)
      else '(c, p', ap') ← directive p' ap; t ← text c; l ← format_loop f p' ap'; Some (t ++ l)
  | _, _ => None
  end.
Definition format (fmt : list Z) (ap : list arg) : option (list Z) := format_loop (length fmt) fmt ap.

(** [m] puts out the text [o]. *)
Definition emits (m : K st unit) (o : option (list Z)) : Prop :=
  forall s, m s = match o with Some l => put_all l s | None => Panic FAULT end.

Lemma put_all_fault l s msg : put_all l s = Panic msg -> msg = FAULT.
Proof.
  revert s. induction l as [|c l IH]; intros s; cbn [put_all]; [done|]. unfold mbind, K_bind.
  destruct (ctx_putc c s) as [[[] s']|m] eqn:E; [apply IH|]. intros [= <-]. revert E. unfold ctx_putc.
  destruct (buf (ctx s)); [|done]. destruct (_ <? _); [|done]. destruct (_ <? _); [done|]. by intros [= <-].
Qed.

Lemma put_all_app l1 l2 s : put_all (l1 ++ l2) s = (_ ← put_all l1; put_all l2) s.
Proof.
  revert s. induction l1 as [|c l IH]; intros s; cbn [app put_all]; [done|]. unfold mbind, K_bind in *.
  destruct (ctx_putc c s) as [[[] s']|m]; [apply IH|done].
Qed.

Lemma emits_bind m1 m2 o1 o2 : emits m1 o1 -> emits m2 o2 -> emits (_ ← m1; m2) (l1 ← o1; l2 ← o2; Some (l1 ++ l2)).
Proof.
  intros H1 H2 s. unfold mbind at 1, K_bind at 1. rewrite H1. destruct o1 as [l1|]; [|done]. cbn [mbind option_bind].
  destruct (put_all l1 s) as [[[] s']|m] eqn:E.
  - rewrite H2. destruct o2 as [l2|]; [|done]. cbn [mbind option_bind]. rewrite put_all_app. unfold mbind, K_bind. by rewrite E.
  - apply put_all_fault in E as E'. subst m. destruct o2 as [l2|]; [|done]. cbn [mbind option_bind]. rewrite put_all_app. unfold mbind, K_bind. by rewrite E.
Qed.

Lemma emits_put_all l : emits (put_all l) (Some l).
Proof. by intros s. Qed.

Lemma emits_putc c : emits (ctx_putc c) (Some [c]).
Proof. intros s. cbn [put_all]. unfold mbind, K_bind. by destruct (ctx_putc c s) as [[[] s']|m]. Qed.

Lemma emits_fault : emits (panic FAULT) None.
Proof. by intros s. Qed.

Lemma emits_ext m o o' : o' = o -> emits m o -> emits m o'.
Proof. by intros ->. Qed.

Lemma emits_uint v base upper width : emits (ctx_uint_w v base upper width) (uint_text v base upper width).
Proof.
  unfold ctx_uint_w, uint_text. destruct (uint_buf upper base v) as [ds|]; [|apply emits_fault]. cbn [mbind option_bind].
  exact (emits_bind _ _ _ _ (emits_put_all _) (emits_put_all _)).
Qed.

Lemma emits_puts_loop s : emits (puts_loop s) (n ← Libc.strlen s; Some (take (Z.to_nat n) s)).
Proof.
  induction s as [|c s IH]; cbn [puts_loop Libc.strlen]; [apply emits_fault|]. destruct (c =? 0); [by intros st0|].
  eapply emits_ext; [|exact (emits_bind _ _ _ _ (emits_putc c) IH)]. assert (forall n, Libc.strlen s = Some n -> 0 <= n) as Hn.
  { clear. induction s as [|c s IH]; intros n; cbn [Libc.strlen]; [done|]. destruct (c =? 0); [by intros [= <-]|].
    destruct (Libc.strlen s); [|done]. intros [= <-]. specialize (IH _ eq_refl). lia. }
  destruct (Libc.strlen s) as [n|]; [|done]. specialize (Hn _ eq_refl). cbn. by replace (Z.to_nat (n + 1)) with (S (Z.to_nat n)) by lia.
Qed.

Lemma emits_run c : emits (run c) (text c).
Proof.
  destruct c as [[s|]|v width|v base upper width|l]; cbn [run text].
  - apply emits_puts_loop.
  - exact (emits_puts_loop (NULL_TEXT ++ [0])).
  - unfold ctx_long_w. destruct (v <? 0); [|apply emits_uint].
    eapply emits_ext; [|exact (emits_bind _ _ _ _ (emits_putc 45) (emits_uint _ _ _ _))]. by destruct (uint_text _ _ _ _).
  - apply emits_uint.
  - apply emits_put_all.
Qed.

Lemma emits_vfmt fuel p ap : emits (vfmt_loop fuel p ap) (format_loop fuel p ap).
Proof.
  revert p ap. induction fuel as [|f IH]; intros p ap; cbn [vfmt_loop format_loop]; [apply emits_fault|].
  destruct p as [|c p]; [apply emits_fault|]. destruct (c =? 0); [apply (emits_put_all [])|]. destruct (negb (c =? 37)).
  - eapply emits_ext; [|exact (emits_bind _ _ _ _ (emits_putc c) (IH p ap))]. by destruct (format_loop f p ap).
  - destruct (directive p ap) as [[[x p'] ap']|]; cbn [with_val mbind option_bind]; [|apply emits_fault].
    exact (emits_bind _ _ _ _ (emits_run x) (IH p' ap')).
Qed.

(** ** The two sinks *)

Lemma take_insert_S {A} (l : list A) i x : (i < length l)%nat -> take (S i) (<[i := x]> l) = take i l ++ [x].
Proof. intros Hi. rewrite (take_S_r _ _ x) by (by apply list_lookup_insert_eq). by rewrite take_insert_ge by lia. Qed.

Lemma put_aset b i c r : 0 <= i < blen b -> put (aset b i c) (i + 1) r = put b i (c :: r).
Proof.
  intros Hi. unfold put, aset. replace (Z.to_nat (i + 1)) with (S (Z.to_nat i)) by lia. unfold blen in *. cbn [length].
  rewrite (take_insert_S b (Z.to_nat i) c) by lia. rewrite drop_insert_lt by lia. rewrite <- app_assoc.
  by replace (S (Z.to_nat i) + length r)%nat with (Z.to_nat i + S (length r))%nat by lia.
Qed.

(** A string of [n] bytes keeps the first [n - 1] characters. *)
Lemma put_all_bounded l b n i s : 0 <= i < n -> n <= blen b -> n < 2 ^ 64 ->
  put_all l (mk_st (mk_ctx (Some b) n i) s) =
  Ok (tt, mk_st (mk_ctx (Some (put b i (take (Z.to_nat (n - 1 - i)) l))) n (i + Z.min (blen l) (n - 1 - i))) s).
Proof.
  intros Hi Hb H64. revert b i Hi Hb. induction l as [|c l IH]; intros b i Hi Hb; cbn [put_all].
  - rewrite take_nil. unfold put, blen. cbn [length app]. rewrite Nat.add_0_r, take_drop. by replace (i + Z.of_nat 0 `min` (n - 1 - i)) with i by lia.
  - unfold mbind, K_bind, ctx_putc. cbn [ctx buf cap pos io]. rewrite u64_small by int_lia.
    assert (blen (c :: l) = blen l + 1) as El by (unfold blen; cbn [length]; lia). rewrite El. pose proof (blen_nonneg l). destruct (Z.ltb_spec (i + 1) n).
    + rewrite (proj2 (Z.ltb_lt i _)) by lia. rewrite IH by (unfold blen in *; rewrite ?aset_length; lia).
      replace (i + 1 + blen l `min` (n - 1 - (i + 1))) with (i + (blen l + 1) `min` (n - 1 - i)) by lia.
      replace (Z.to_nat (n - 1 - i)) with (S (Z.to_nat (n - 1 - (i + 1)))) by lia. cbn [take].
      by rewrite put_aset by lia.
    + rewrite IH by done. replace (n - 1 - i) with 0 by lia. by replace ((blen l + 1) `min` 0) with (blen l `min` 0) by lia.
Qed.

Lemma emit_spec c s : blen (s_obuf s) = OBUF_SZ -> 0 <= s_opos s < OBUF_SZ ->
  let s' := emit c s in blen (s_obuf s') = OBUF_SZ /\ 0 <= s_opos s' < OBUF_SZ /\
  written s' ++ take (Z.to_nat (s_opos s')) (s_obuf s') = (written s ++ take (Z.to_nat (s_opos s)) (s_obuf s)) ++ [c].
Proof.
  intros Hb Hp. assert (take (S (Z.to_nat (s_opos s))) (aset (s_obuf s) (s_opos s) c) = take (Z.to_nat (s_opos s)) (s_obuf s) ++ [c]) as E.
  { unfold aset. apply take_insert_S. unfold blen in Hb. lia. }
  assert (blen (aset (s_obuf s) (s_opos s) c) = OBUF_SZ) as Hb' by (unfold blen in *; by rewrite aset_length).
  unfold emit. cbn [s_opos]. destruct (Z.eqb_spec (s_opos s + 1) OBUF_SZ) as [E1|E1]; cbv zeta.
  - unfold flush, write1. cbn [s_opos s_obuf written]. rewrite (proj2 (Z.eqb_neq _ 0)) by lia. cbn [s_opos s_obuf written]. rewrite take_0, app_nil_r.
    replace (Z.to_nat (s_opos s + 1)) with (S (Z.to_nat (s_opos s))) by lia. rewrite E, app_assoc. done.
  - cbn [s_opos s_obuf written]. replace (Z.to_nat (s_opos s + 1)) with (S (Z.to_nat (s_opos s))) by lia. rewrite E, app_assoc. split; [done|]. split; [lia|done].
Qed.

Lemma put_all_stdout l x s : buf x = None -> blen (s_obuf s) = OBUF_SZ -> 0 <= s_opos s < OBUF_SZ ->
  exists s', put_all l (mk_st x s) = Ok (tt, mk_st x s') /\
    written s' ++ take (Z.to_nat (s_opos s')) (s_obuf s') = (written s ++ take (Z.to_nat (s_opos s)) (s_obuf s)) ++ l.
Proof.
  intros Hx. revert s. induction l as [|c l IH]; intros s Hb Hp; cbn [put_all]; [exists s; by rewrite app_nil_r|].
  unfold mbind, K_bind, ctx_putc. cbn [ctx io]. rewrite Hx. destruct (emit_spec c s Hb Hp) as (Hb' & Hp' & E).
  destruct (IH (emit c s) Hb' Hp') as (s' & -> & E'). exists s'. split; [done|]. by rewrite E', E, <- app_assoc.
Qed.

Lemma vsnprintf_spec b n fmt ap s l : format fmt ap = Some l -> 0 < n <= blen b -> n <= 2 ^ 31 ->
  let k := Z.min (blen l) (n - 1) in
  vsnprintf b n fmt ap s = Ok (k, take (Z.to_nat k) l ++ 0 :: drop (Z.to_nat (k + 1)) b).
Proof.
  intros Hf Hn H31 k. unfold vsnprintf, vfmt, mbind, K_bind. unfold format in Hf. rewrite emits_vfmt, Hf, put_all_bounded by lia.
  unfold finish. cbn [ctx buf cap pos io]. rewrite Z.sub_0_r, Z.add_0_l. fold k. pose proof (blen_nonneg l).
  assert (take (Z.to_nat (n - 1)) l = take (Z.to_nat k) l) as ->.
  { unfold k. destruct (Z.min_spec (blen l) (n - 1)) as [[? ->]|[? ->]]; [|done]. unfold blen in *. by rewrite !take_ge by lia. }
  assert (length (take (Z.to_nat k) l) = Z.to_nat k) as Hl by (rewrite length_take; unfold k, blen in *; lia).
  rewrite (proj2 (Z.ltb_lt k n)) by lia. rewrite (proj2 (Z.ltb_lt k _)) by (rewrite blen_put; unfold blen in *; lia). cbn [ctx buf].
  replace (s32 k) with k by int_lia. do 2 f_equal. unfold put, aset. rewrite take_0, app_nil_l. rewrite insert_app_r_alt by lia. f_equal.
  rewrite Hl, Nat.sub_diag, Nat.add_0_l. destruct (drop (Z.to_nat k) b) as [|y r] eqn:E.
  - apply (f_equal length) in E. rewrite length_drop in E. cbn in E. unfold blen in *. lia.
  - cbn [insert list_insert]. f_equal. replace (Z.to_nat (k + 1)) with (Z.to_nat k + 1)%nat by lia. by rewrite <- drop_drop, E.
Qed.

(** C22: [vsnprintf] into a buffer of at least [n] bytes stores the text of the format cut to [n - 1] characters and
    an end, nothing behind it, and returns the number of characters stored. *)
Theorem vsnprintf_correct b n fmt ap s l : format fmt ap = Some l -> 0 < n <= blen b -> n <= 2 ^ 31 ->
  let k := Z.min (blen l) (n - 1) in
  vsnprintf b n fmt ap s = Ok (k, take (Z.to_nat k) l ++ 0 :: drop (Z.to_nat (k + 1)) b).
Proof. apply vsnprintf_spec. Qed.

(** Without a bound, when the text fits. *)
Lemma put_all_fits l b n i s : 0 <= i -> i + blen l < blen b -> blen b < n -> n < 2 ^ 64 ->
  put_all l (mk_st (mk_ctx (Some b) n i) s) = Ok (tt, mk_st (mk_ctx (Some (put b i l)) n (i + blen l)) s).
Proof.
  intros Hi Hb Hn H64. revert b i Hi Hb Hn. induction l as [|c l IH]; intros b i Hi Hb Hn; cbn [put_all].
  - unfold put, blen. cbn [length app]. rewrite Nat.add_0_r, take_drop. by rewrite Z.add_0_r.
  - assert (blen (c :: l) = blen l + 1) as El by (unfold blen; cbn [length]; lia). rewrite El in *. pose proof (blen_nonneg l).
    unfold mbind, K_bind, ctx_putc. cbn [ctx buf cap pos io]. rewrite u64_small by int_lia. rewrite (proj2 (Z.ltb_lt (i + 1) n)), (proj2 (Z.ltb_lt i _)) by lia.
    rewrite IH by (unfold blen in *; rewrite ?aset_length; lia). rewrite <- Z.add_assoc, (Z.add_comm 1). rewrite put_aset by lia. done.
Qed.

Lemma vsprintf_spec b fmt ap s l : format fmt ap = Some l -> blen l < blen b -> blen b < 2 ^ 31 ->
  vsprintf b fmt ap s = Ok (blen l, l ++ 0 :: drop (S (length l)) b).
Proof.
  intros Hf Hl H31. pose proof (blen_nonneg l). unfold vsprintf, vsnprintf, vfmt, mbind, K_bind. unfold format in Hf.
  rewrite emits_vfmt, Hf, put_all_fits by (unfold UINT64_MAX; lia). unfold finish. cbn [ctx buf cap pos io]. rewrite Z.add_0_l.
  rewrite (proj2 (Z.ltb_lt (blen l) _)) by (unfold UINT64_MAX; lia). rewrite (proj2 (Z.ltb_lt (blen l) _)) by (rewrite blen_put; lia). cbn [ctx buf].
  replace (s32 (blen l)) with (blen l) by int_lia. do 2 f_equal. unfold put, aset. change (Z.to_nat 0) with 0%nat. rewrite take_0, app_nil_l, Nat.add_0_l.
  unfold blen in *. rewrite Nat2Z.id, insert_app_r_alt by done. rewrite Nat.sub_diag. f_equal. destruct (drop (length l) b) as [|y r] eqn:E.
  - apply (f_equal length) in E. rewrite length_drop in E. cbn in E. lia.
  - cbn [insert list_insert]. f_equal. replace (S (length l)) with (length l + 1)%nat by lia. by rewrite <- drop_drop, E.
Qed.

(** [printf] writes the text of the format, and returns 0 whatever its length. *)
Theorem vprintf_correct fmt ap s l : format fmt ap = Some l -> blen (s_obuf s) = OBUF_SZ ->
  exists s', vprintf fmt ap s = Ok (0, s') /\ written s' = written s ++ l.
Proof.
  intros Hf Hb. unfold vprintf, vfmt, mbind, K_bind. unfold format in Hf. rewrite emits_vfmt, Hf.
  destruct (put_all_stdout l (mk_ctx None 0 0) (mk_stdio (s_obuf s) 0 (written s)) eq_refl Hb ltac:(done)) as (s' & -> & E).
  cbn [finish ctx buf pos io]. eexists. split; [done|]. cbn [s_opos s_obuf written] in E. rewrite take_0, app_nil_r in E. rewrite <- E.
  unfold flush. destruct (Z.eqb_spec (s_opos s') 0) as [->|]; [by rewrite take_0, app_nil_r|done].
Qed.

Lemma text_puts f r : Libc.str f -> text (Puts (Some (f ++ 0 :: r))) = Some f.
Proof.
  intros Hf. cbn [text]. rewrite Libc.strlen_spec by done. cbn [mbind option_bind]. unfold blen. by rewrite Nat2Z.id, take_app_length.
Qed.

(** ** Numbers *)

(** The value of decimal digits behind those of [n]. *)
Definition of_digits (l : list Z) (n : Z) : Z := fold_left (fun n c => n * 10 + (c - 48)) l n.

Lemma digit_list_spec n v : 0 <= v < 10 ^ Z.of_nat n ->
  exists ds, digit_list n false 10 v = Some ds /\ of_digits (rev ds) 0 = v /\ Forall (fun c => 48 <= c <= 57) ds.
Proof.
  revert v. induction n as [|n IH]; intros v Hv; cbn [digit_list].
  - change (10 ^ Z.of_nat 0) with 1 in Hv. assert (v = 0) as -> by lia. exists []. done.
  - destruct (Z.eqb_spec v 0) as [->|Hne]; [by exists []|]. rewrite Nat2Z.inj_succ, Z.pow_succ_r in Hv by lia.
    destruct (IH (v / 10)) as (ds & -> & Ev & HF); [lia|]. eexists. split; [done|]. cbn [rev mbind option_bind].
    unfold of_digits in *. rewrite fold_left_app, Ev. cbn [fold_left]. unfold digit_char. rewrite (proj2 (Z.ltb_lt (v mod 10) 10)) by lia.
    split; [lia|]. constructor; [lia|done].
Qed.

Lemma digit_list_length n k v ds : 0 <= v < 10 ^ Z.of_nat k -> digit_list n false 10 v = Some ds -> (length ds <= k)%nat.
Proof.
  revert k v ds. induction n as [|n IH]; intros k v ds Hv; cbn [digit_list]; (destruct (Z.eqb_spec v 0) as [->|Hne]; [intros [= <-]; cbn; lia|]); [done|].
  destruct (digit_list n false 10 (v / 10)) as [ds'|] eqn:E; [|done]. intros [= <-]. destruct k as [|k]; [change (10 ^ Z.of_nat 0) with 1 in Hv; lia|].
  rewrite Nat2Z.inj_succ, Z.pow_succ_r in Hv by lia. specialize (IH k (v / 10) ds' ltac:(lia) E). cbn [length]. lia.
Qed.

Lemma uint_buf_spec v : 0 <= v < 2 ^ 64 -> exists ds, uint_buf false 10 v = Some ds /\ of_digits (rev ds) 0 = v /\ Forall (fun c => 48 <= c <= 57) ds /\ ds <> [].
Proof.
  intros Hv. unfold uint_buf. destruct (Z.eqb_spec v 0) as [->|Hne].
  - exists [48]. split; [done|]. split; [done|]. split; [|done]. repeat constructor; lia.
  - destruct (digit_list_spec 20 v) as (ds & E & Ev & HF); [change (10 ^ Z.of_nat 20) with 100000000000000000000; lia|].
    exists ds. do 3 (split; [done|]). intros ->. cbn in Ev. lia.
Qed.

Lemma uint_buf_length v ds : 0 <= v < 10 ^ 10 -> uint_buf false 10 v = Some ds -> (length ds <= 10)%nat.
Proof.
  intros Hv. unfold uint_buf. destruct (v =? 0); [intros [= <-]; cbn; lia|]. by apply (digit_list_length 20 10).
Qed.

(** [atoi] of digits. *)
Lemma of_digits_mono l n : Forall (fun c => 48 <= c <= 57) l -> 0 <= n -> n <= of_digits l n.
Proof.
  revert n. induction l as [|c l IH]; intros n HF Hn; cbn; [lia|]. apply Forall_cons in HF as [Hc HF].
  specialize (IH (n * 10 + (c - 48)) HF ltac:(lia)). unfold of_digits in IH. lia.
Qed.

Lemma atoi_loop_digits l n c t : Forall (fun c => 48 <= c <= 57) l -> Libc.is_digit c = false -> 0 <= n -> of_digits l n < 2 ^ 31 ->
  Libc.atoi_loop (l ++ c :: t) n = Some (of_digits l n).
Proof.
  revert n. induction l as [|d l IH]; intros n HF Hc Hn Hlt; cbn [app Libc.atoi_loop]; [by rewrite Hc|]. apply Forall_cons in HF as [Hd HF].
  assert (Libc.is_digit d = true) as -> by (unfold Libc.is_digit; rewrite andb_true_iff, !Z.leb_le; lia).
  change (of_digits (d :: l) n) with (of_digits l (n * 10 + (d - 48))) in *. pose proof (of_digits_mono l (n * 10 + (d - 48)) HF ltac:(lia)).
  replace (s32 (n * 10 + (d - 48))) with (n * 10 + (d - 48)) by int_lia. apply IH; [done|done|lia|done].
Qed.

Lemma rev_digits ds : Forall (fun c => 48 <= c <= 57) ds -> Forall (fun c => 48 <= c <= 57) (rev ds).
Proof. rewrite !List.Forall_forall. intros H x Hx. apply H. by apply in_rev. Qed.

Lemma atoi_text v t l : - 2 ^ 31 < v < 2 ^ 31 -> text (Long v 0) = Some l -> Libc.atoi (l ++ 0 :: t) = Some v.
Proof.
  intros Hv. cbn [text]. unfold uint_text. destruct (Z.ltb_spec v 0) as [Hneg|Hpos].
  - rewrite u64_small by int_lia. destruct (uint_buf_spec (- v)) as (ds & -> & Ev & HF & _); [lia|]. cbn [mbind option_bind].
    replace (Z.to_nat (s32 (0 - 1) - blen ds)) with 0%nat by (change (s32 (0 - 1)) with (-1); pose proof (blen_nonneg ds); lia).
    intros [= <-]. cbn [replicate app]. unfold Libc.atoi. cbn [Libc.skip_blanks Z.eqb Pos.eqb orb mbind option_bind Libc.sign].
    rewrite atoi_loop_digits by (try apply rev_digits; done || lia). cbn [mbind option_bind]. f_equal. rewrite Ev. int_lia.
  - destruct (uint_buf_spec v) as (ds & -> & Ev & HF & Hne); [lia|]. cbn [mbind option_bind].
    replace (Z.to_nat (0 - blen ds)) with 0%nat by (pose proof (blen_nonneg ds); lia). intros [= <-]. cbn [replicate app].
    pose proof (rev_digits _ HF) as HR. destruct (rev ds) as [|d l] eqn:E; [apply (f_equal length) in E; rewrite length_rev in E; by destruct ds|].
    unfold Libc.atoi. pose proof HR as Hd. apply Forall_cons in Hd as [Hd _]. cbn [app Libc.skip_blanks].
    rewrite (proj2 (Z.eqb_neq d 32)), (proj2 (Z.eqb_neq d 9)) by lia. cbn [orb mbind option_bind Libc.sign].
    rewrite (proj2 (Z.eqb_neq d 45)), (proj2 (Z.eqb_neq d 43)) by lia. change (d :: l ++ 0 :: t) with ((d :: l) ++ 0 :: t).
    rewrite atoi_loop_digits by (done || lia). cbn [mbind option_bind]. by rewrite Ev.
Qed.

(** A number that [snprintf] prints with [%d] into a buffer of at least 12 bytes is what [atoi] reads from it. *)
Theorem snprintf_atoi v b s : - 2 ^ 31 < v < 2 ^ 31 -> 12 <= blen b <= 2 ^ 31 ->
  exists k b', vsnprintf b (blen b) [37; 100; 0] [Num v] s = Ok (k, b') /\ Libc.atoi b' = Some v.
Proof.
  intros Hv Hb. assert (exists l, text (Long v 0) = Some l /\ blen l <= 11) as (l & El & Hl).
  { cbn [text]. unfold uint_text. destruct (Z.ltb_spec v 0); [rewrite u64_small by int_lia|].
    - destruct (uint_buf_spec (- v)) as (ds & E & _); [lia|]. pose proof (uint_buf_length (- v) ds ltac:(lia) E). rewrite E. cbn [mbind option_bind]. eexists. split; [done|].
      change (s32 (0 - 1)) with (-1). unfold blen in *. cbn [length]. rewrite length_app, length_replicate, length_rev. lia.
    - destruct (uint_buf_spec v) as (ds & E & _); [lia|]. pose proof (uint_buf_length v ds ltac:(lia) E). rewrite E. cbn [mbind option_bind]. eexists. split; [done|].
      unfold blen in *. rewrite length_app, length_replicate, length_rev. lia. }
  assert (format [37; 100; 0] [Num v] = Some l) as Hf.
  { unfold format. cbn [length format_loop Z.eqb Pos.eqb negb]. cbn [directive parse_width Libc.is_digit]. cbn -[text s32].
    replace (s32 v) with v by int_lia. rewrite El. cbn [mbind option_bind]. by rewrite app_nil_r. }
  pose proof (blen_nonneg l). eexists _, _. split; [apply (vsnprintf_spec b (blen b) _ _ s l Hf); lia|].
  rewrite Z.min_l by lia. unfold blen at 1. rewrite Nat2Z.id, firstn_all. by apply atoi_text.
Qed.

Definition idle : stdio := mk_stdio (zeros 512) 0 [].

Lemma vsnprintf_correct_witness : vsnprintf (replicate 8 7) 8 [37; 51; 100; 33; 0] [Num 42] idle = Ok (4, [32; 52; 50; 33; 0; 7; 7; 7]).
Proof. exact (vsnprintf_correct (replicate 8 7) 8 [37; 51; 100; 33; 0] [Num 42] idle [32; 52; 50; 33] eq_refl ltac:(done) ltac:(done)). Defined.

Lemma snprintf_atoi_witness : exists k b', vsnprintf (zeros 12) 12 [37; 100; 0] [Num (-2147483647)] idle = Ok (k, b') /\ Libc.atoi b' = Some (-2147483647).
Proof. exact (snprintf_atoi (-2147483647) (zeros 12) idle ltac:(lia) ltac:(by vm_compute)). Defined.

(** ** Defects *)

(** A format that ends in [%] is read behind its end: the end is taken for the conversion. *)
Example vfmt_reads_past_end : vsnprintf (zeros 16) 16 [53; 37; 0] [] idle = Panic FAULT.
Proof. by vm_compute. Qed.

(** The sign is put before the padding. *)
Example sign_before_padding : vsnprintf (zeros 8) 8 [37; 53; 100; 0] [Num (-7)] idle = Ok (5, [45; 32; 32; 32; 55; 0; 0; 0]).
Proof. by vm_compute. Qed.

(** [vsprintf] has no bound: a text longer than the buffer overflows it. *)
Example vsprintf_overflows : vsprintf (zeros 4) [37; 115; 0] [Str (Some [97; 97; 97; 97; 97; 0])] idle = Panic FAULT.
Proof. by vm_compute. Qed.

End Stdio.
