(* ===== verification/Accounts.v ===== *)
(** * The account programs

    Models [login], [sudo], [passwd], [useradd] and [userdel] ([user/bin/*.c]), which keep the accounts in
    [/etc/passwd], one line [name:password:uid:gid:home] each. A program is a function of the file's contents (None
    when it cannot be opened), of its arguments and of the lines it reads from the terminal; it gives what it does
    to the file, or the user it starts a shell for. A pointer is as in [Libc], so a parser's overwritten separators
    are behind it. [None] is an access outside a buffer.

    Loops over the file take the length of the buffer as fuel; every round consumes a line. *)

From S2P Require Import Prelude Bytes CString Libc Stdio.
Import Libc.

Module Accounts.

Definition BUF_SZ : Z := 2048.
Definition OUT_SZ : Z := 4096.

(** [open], [read(fd, s_buf, BUF_SZ - 1)] and [s_buf[n] = 0]. *)
Definition load (file : option (list Z)) : option (list Z) :=
  c ← file;
  let got := take (Z.to_nat (BUF_SZ - 1)) c in if blen got =? 0 then None else Some (got ++ [0]).

(** [c1 = strchr(p, ':'); if (!c1) break; *c1 = 0;]: the field and what follows. *)
Definition field (p : list Z) : option (option (list Z * list Z)) :=
  r ← strchr p 58;
  Some (match r with Some k => Some (take (Z.to_nat k) p, drop (Z.to_nat (k + 1)) p) | None => None end).
Fixpoint fields (n : nat) (p : list Z) : option (option (list (list Z) * list Z)) :=
  match n with
  | O => Some (Some ([], p))
  | S n' =>
      r ← field p;
      match r with
      | None => Some None
      | Some (f, p) =>
          r ← fields n' p;
          Some (match r with Some (fs, q) => Some (f :: fs, q) | None => None end)
      end
  end.

(** [nl = strchr(p, '\n'); if (nl) *nl = 0;]: the rest of the line, and the next one. *)
Definition rest_of_line (p : list Z) : option (list Z * list Z) :=
  nl ← strchr p 10;
  match nl with
  | Some k => Some (take (Z.to_nat k) p, drop (Z.to_nat (k + 1)) p)
  | None => n ← strlen p; Some (take (Z.to_nat n) p, drop (Z.to_nat n) p)
  end.

(** [while ( *p)]: [n] fields and the rest of each line go to [f], which ends the loop with a result. *)
Fixpoint scan {A} (n fuel : nat) (f : list (list Z) -> list Z -> option (option A)) (p : list Z) : option (option A) :=
  match fuel, p with
  | S fl, c :: _ =>
      if c =? 0 then Some None
      else
        r ← fields n p;
        match r with
        | None => Some None
        | Some (fs, q) =>
            '(t, next) ← rest_of_line q;
            a ← f fs t;
            match a with Some a => Some (Some a) | None => scan n fl f next end
        end
  | _, _ => None
  end.

(** [strcmp(a, b) == 0], and [(uid_t)atoi(s)]. *)
Definition same (a b : list Z) : option bool := v ← strcmp (a ++ [0]) (b ++ [0]); Some (v =? 0).
Definition to_id (s : list Z) : option Z := v ← atoi (s ++ [0]); Some (u32 v).

(** A line read from the terminal: [if (n > 0 && buf[n - 1] == '\n') n--;] *)
Definition chomp (l : list Z) : list Z := if aget 0 l (blen l - 1) =? 10 then take (length l - 1) l else l.

(** ** login *)

Record user := mk_user { u_pass : list Z; u_uid : Z; u_gid : Z; u_home : list Z }.

Definition lookup_user (username : list Z) (file : option (list Z)) : option (option user) :=
  match load file with
  | None => Some None
  | Some p =>
      scan 4 (length p) (fun fs home =>
        match fs with
        | [name; pass; uid_s; gid_s] =>
            b ← same name username;
            if (b : bool) then
              uid ← to_id uid_s; gid ← to_id gid_s;
              Some (Some (mk_user (take 63 pass) uid gid (take 255 home)))
            else Some None
        | _ => None
        end) p
  end.

Inductive attempt := Again | Incorrect | Shell (uid gid : Z) (home : list Z).

(** One round of the loop of [main]: what [read] gave for the name and for the password. *)
Definition login (file : option (list Z)) (name_line pass_line : list Z) : option attempt :=
  if blen name_line <=? 0 then Some Again
  else
    let username := chomp name_line in
    if blen username =? 0 then Some Again
    else
      let password := chomp pass_line in
      u ← lookup_user username file;
      match u with
      | None => Some Incorrect
      | Some u =>
          b ← same password (u_pass u);
          if negb (blen (u_pass u) =? 0) && negb b then Some Incorrect
          else Some (Shell (u_uid u) (u_gid u) (u_home u))
      end.

(** ** sudo *)

Definition passwd_for_uid (uid : Z) (file : option (list Z)) : option (option (list Z * list Z)) :=
  match load file with
  | None => Some None
  | Some p =>
      scan 3 (length p) (fun fs _ =>
        match fs with
        | [name; pass; uid_s] =>
            v ← to_id uid_s;
            Some (if v =? uid then Some (take 63 pass, take 63 name) else None)
        | _ => None
        end) p
  end.

(** Whether the command is run for user 0. *)
Definition sudo (file : option (list Z)) (ruid : Z) (line : list Z) : option bool :=
  u ← passwd_for_uid ruid file;
  match u with
  | None => Some false
  | Some (stored, _) => if blen stored =? 0 then Some true else same (chomp line) stored
  end.

(** ** id and whoami *)

Definition name_for_uid (id : Z) (file : option (list Z)) : option (option (list Z)) :=
  match load file with
  | None => Some None
  | Some p =>
      scan 3 (length p) (fun fs _ =>
        match fs with
        | [name; pass; uid_s] => v ← to_id uid_s; Some (if v =? id then Some name else None)
        | _ => None
        end) p
  end.

(** "%u\n" *)
Definition UINT_FMT : list Z := [37; 117; 10; 0].
Definition whoami (uid : Z) (file : option (list Z)) (s : Stdio.stdio) : option Stdio.stdio :=
  n ← name_for_uid uid file;
  match n with
  | Some name => '(_, s) ← Stdio.puts (name ++ [0]) s; Some s
  | None => match Stdio.vprintf UINT_FMT [Stdio.Num uid] s with Ok (_, s) => Some s | Panic _ => None end
  end.

(** ** passwd *)

(** The first five fields of a line, fewer when it has fewer. *)
Fixpoint split_fields (n : nat) (tok : list Z) : option (list (list Z)) :=
  match n with
  | O => Some []
  | S n' =>
      sep ← strchr tok 58;
      match sep with
      | Some k => fs ← split_fields n' (drop (Z.to_nat (k + 1)) tok); Some (take (Z.to_nat k) tok :: fs)
      | None => len ← strlen tok; Some [take (Z.to_nat len) tok]
      end
  end.

(** The output buffer, the position in it, and whether the account was found. *)
Record output := mk_output { s_out : list Z; out_pos : Z; found : bool }.

(** "%s:%s:%s:%s:%s\n" *)
Definition LINE_FMT : list Z := [37; 115; 58; 37; 115; 58; 37; 115; 58; 37; 115; 58; 37; 115; 10; 0].
Definition line_args (fs : list (list Z)) : list Stdio.arg := (fun f => Stdio.Str (Some (f ++ [0]))) <$> fs.

Definition replace_line (f0 np f2 f3 f4 : list Z) (o : output) : option output :=
  let need := blen f0 + 1 + blen np + 1 + blen f2 + 1 + blen f3 + 1 + blen f4 + 1 in
  if out_pos o + need <? OUT_SZ then
    match Stdio.vsprintf (drop (Z.to_nat (out_pos o)) (s_out o)) LINE_FMT (line_args [f0; np; f2; f3; f4]) Stdio.idle with
    | Ok (r, b) => Some (mk_output (take (Z.to_nat (out_pos o)) (s_out o) ++ b) (out_pos o + r) true)
    | Panic _ => None
    end
  else Some (mk_output (s_out o) (out_pos o) true).

Definition copy_line (max : Z) (line : list Z) (o : output) : option output :=
  if out_pos o + blen line <? max then
    if out_pos o + blen line <=? blen (s_out o) then Some (mk_output (put (s_out o) (out_pos o) line) (out_pos o + blen line) (found o)) else None
  else Some o.

(** The loop that rebuilds the file. *)
Fixpoint rebuild (fuel : nat) (target np p : list Z) (o : output) : option output :=
  match fuel, p with
  | S fl, c :: _ =>
      if c =? 0 then Some o
      else
        nl ← strchr p 10;
        len ← (match nl with Some k => Some k | None => strlen p end);
        let linelen := if 256 <=? len then 255 else len in
        fs ← split_fields 5 (take (Z.to_nat linelen) p ++ [0]);
        b ← same (hd [] fs) target;
        let one := match nl with Some _ => 1 | None => 0 end in
        o ← (match fs with
             | [f0; f1; f2; f3; f4] => if (b : bool) then replace_line f0 np f2 f3 f4 o else copy_line OUT_SZ (take (Z.to_nat (linelen + one)) p) o
             | _ => copy_line OUT_SZ (take (Z.to_nat (linelen + one)) p) o
             end);
        rebuild fl target np (drop (Z.to_nat (len + one)) p) o
  | _, _ => None
  end.

(** The name of an account, and its password. [strncpy] of a name of 63 bytes or more leaves [target] without an end. *)
Definition name_of_uid (uid : Z) (p : list Z) : option (option (list Z)) :=
  scan 3 (length p) (fun fs _ =>
    match fs with
    | [name; _; uid_s] =>
        v ← to_id uid_s;
        if v =? uid then (if 63 <=? blen name then None else Some (Some name)) else Some None
    | _ => None
    end) p.
Definition pass_of_name (target p : list Z) : option (option (list Z)) :=
  scan 3 (length p) (fun fs _ =>
    match fs with
    | [name; pass; _] => b ← same name target; Some (if (b : bool) then Some (take 63 pass) else None)
    | _ => None
    end) p.

(** The account that is changed; [Some None] when the program ends with a message. *)
Definition passwd_target (myuid : Z) (arg : option (list Z)) (file : option (list Z)) : option (option (list Z)) :=
  match arg with
  | Some a => Some (if negb (myuid =? 0) then None else Some (take 63 a))
  | None =>
      match load file with
      | None => Some None
      | Some p => n ← name_of_uid myuid p; Some (match n with Some (c :: t) => Some (c :: t) | _ => None end)
      end
  end.

(** [if (myuid != 0)]: the current password. *)
Definition verified (myuid : Z) (target cur p : list Z) : option bool :=
  if myuid =? 0 then Some true
  else
    stored ← pass_of_name target p;
    let stored := default [] stored in
    b ← same (chomp cur) stored; Some ((blen stored =? 0) || b).

(** The new contents of the file, for the password's lines [cur], [np1] and [np2]. *)
Definition passwd (myuid : Z) (arg : option (list Z)) (file : option (list Z)) (cur np1 np2 : list Z) : option (option (list Z)) :=
  t ← passwd_target myuid arg file;
  match t, load file with
  | Some target, Some p =>
      ok ← verified myuid target cur p;
      if negb ok then Some None
      else
        eq ← same (chomp np1) (chomp np2);
        if negb eq then Some None
        else
          o ← rebuild (length p) target (chomp np1) p (mk_output (zeros OUT_SZ) 0 false);
          Some (if found o then Some (take (Z.to_nat (out_pos o)) (s_out o)) else None)
  | _, _ => Some None
  end.

(** ** useradd *)

(** The loop over the accounts: [None] when the name is taken, else the largest uid from 1000 on. *)
Fixpoint max_uid_loop (fuel : nat) (username p : list Z) (max_uid : Z) : option (option Z) :=
  match fuel, p with
  | S fl, c :: _ =>
      if c =? 0 then Some (Some max_uid)
      else
        r ← fields 3 p;
        match r with
        | Some ([name; pass; uid_s], q) =>
            '(_, next) ← rest_of_line q;
            b ← same name username;
            if (b : bool) then Some None
            else u ← to_id uid_s; max_uid_loop fl username next (if (1000 <=? u) && (max_uid <? u) then u else max_uid)
        | _ => Some (Some max_uid)
        end
  | _, _ => None
  end.

(** "/home/%s" and "%s::%u:%u:%s\n" *)
Definition HOME_FMT : list Z := [47; 104; 111; 109; 101; 47; 37; 115; 0].
Definition ENTRY_FMT : list Z := [37; 115; 58; 58; 37; 117; 58; 37; 117; 58; 37; 115; 10; 0].

(** The new uid and the line that is appended. *)
Definition useradd (myuid : Z) (username : list Z) (file : option (list Z)) : option (option (Z * list Z)) :=
  if negb (myuid =? 0) then Some None
  else
    colon ← strchr (username ++ [0]) 58; slash ← strchr (username ++ [0]) 47;
    match colon, slash, username, file with
    | None, None, _ :: _, Some c =>
        let p := take (Z.to_nat (BUF_SZ - 1)) c ++ [0] in
        r ← max_uid_loop (length p) username p 999;
        match r with
        | None => Some None
        | Some max_uid =>
            let new_uid := u32 (max_uid + 1) in
            let new_uid := if new_uid <? 1000 then 1000 else new_uid in
            match Stdio.vsnprintf (zeros 128) 128 HOME_FMT (line_args [username]) Stdio.idle with
            | Panic _ => None
            | Ok (_, home) =>
                match Stdio.vsnprintf (zeros 256) 256 ENTRY_FMT [Stdio.Str (Some (username ++ [0])); Stdio.Num new_uid; Stdio.Num new_uid; Stdio.Str (Some home)] Stdio.idle with
                | Panic _ => None
                | Ok (llen, line) => Some (Some (new_uid, take (Z.to_nat llen) line))
                end
            end
        end
    | _, _, _, _ => Some None
    end.

(** ** userdel *)

(** "root" *)
Definition ROOT : list Z := [114; 111; 111; 116].

Fixpoint remove_loop (fuel : nat) (username p : list Z) (o : output) : option output :=
  match fuel, p with
  | S fl, c :: _ =>
      if c =? 0 then Some o
      else
        nl ← strchr p 10;
        line_len ← (match nl with Some k => Some (k + 1) | None => strlen p end);
        colon ← strchr p 58;
        m ← (match colon with
             | Some name_len =>
                 if blen username =? name_len then v ← strncmp (username ++ [0]) p (Z.to_nat name_len); Some (v =? 0) else Some false
             | None => Some false
             end);
        o ← (if (m : bool) then Some (mk_output (s_out o) (out_pos o) true) else copy_line BUF_SZ (take (Z.to_nat line_len) p) o);
        remove_loop fl username (drop (Z.to_nat line_len) p) o
  | _, _ => None
  end.

(** The new contents of the file. *)
Definition userdel (myuid : Z) (username : list Z) (file : option (list Z)) : option (option (list Z)) :=
  if negb (myuid =? 0) then Some None
  else
    r ← same username ROOT;
    match file with
    | Some c =>
        if (r : bool) then Some None
        else
          let p := take (Z.to_nat (BUF_SZ - 1)) c ++ [0] in
          o ← remove_loop (length p) username p (mk_output (zeros BUF_SZ) 0 false);
          Some (if found o then Some (take (Z.to_nat (out_pos o)) (s_out o)) else None)
    | None => Some None
    end.

(** ** Accounts as a list *)

(** A field: no separator and no end. *)
Definition plain (s : list Z) : Prop := Forall (fun c => 0 < c < 256 /\ c <> 58 /\ c <> 10) s.

Record entry := mk_entry { e_name : list Z; e_pass : list Z; e_uid : list Z; e_gid : list Z; e_home : list Z }.

Record entry_ok (e : entry) : Prop := {
  ok_name : plain (e_name e);
  ok_pass : plain (e_pass e);
  ok_uid : plain (e_uid e);
  ok_gid : plain (e_gid e);
  ok_home : plain (e_home e);
}.

(** Fields with their colons, in front of [q]. *)
Definition join (fs : list (list Z)) (q : list Z) : list Z := foldr (fun f r => f ++ 58 :: r) q fs.

Definition line_of (e : entry) : list Z := join [e_name e; e_pass e; e_uid e; e_gid e] (e_home e).
Definition contents (es : list entry) : list Z := concat ((fun e => line_of e ++ [10]) <$> es).

Lemma plain_str s : plain s -> str s.
Proof. intros H. unfold str. eapply Forall_impl; [exact H|]. cbv beta. tauto. Qed.

Lemma plain_no s c : plain s -> c = 58 \/ c = 10 -> c ∉ s.
Proof. intros H Hc Hin. unfold plain in H. rewrite List.Forall_forall in H. destruct (H c) as (_ & ? & ?); [by apply list_elem_of_In|]. lia. Qed.

Lemma field_spec f q : plain f -> field (f ++ 58 :: q) = Some (Some (f, q)).
Proof.
  intros Hf. unfold field. rewrite strchr_found by (try apply plain_str; try apply plain_no; auto; lia). cbn [mbind option_bind].
  unfold blen. replace (Z.to_nat (Z.of_nat (length f) + 1)) with (length f + 1)%nat by lia. rewrite Nat2Z.id, take_app_length.
  by rewrite <- drop_drop, drop_app_length.
Qed.

Lemma fields_spec fs q : Forall plain fs -> fields (length fs) (join fs q) = Some (Some (fs, q)).
Proof.
  induction fs as [|f fs IH]; cbn [length fields join foldr]; [done|]. intros [Hf Hfs]%Forall_cons. rewrite field_spec by done. cbn [mbind option_bind].
  unfold join in IH. by rewrite (IH Hfs).
Qed.

Lemma rest_of_line_spec t q : str t -> 10 ∉ t -> rest_of_line (t ++ 10 :: q) = Some (t, q).
Proof.
  intros Ht Hn. unfold rest_of_line. rewrite strchr_found by (done || lia). cbn [mbind option_bind]. unfold blen.
  replace (Z.to_nat (Z.of_nat (length t) + 1)) with (length t + 1)%nat by lia. rewrite Nat2Z.id, take_app_length.
  by rewrite <- drop_drop, drop_app_length.
Qed.

Lemma join_app fs t q : join fs (t ++ q) = join fs t ++ q.
Proof. induction fs as [|f fs IH]; cbn [join foldr]; [done|]. unfold join in IH. rewrite IH, <- app_assoc. done. Qed.

Lemma join_head fs t : Forall plain fs -> fs <> [] -> exists c r, join fs t = c :: r /\ c <> 0.
Proof.
  destruct fs as [|f fs]; [done|]. intros [Hf _]%Forall_cons _. cbn [join foldr]. destruct f as [|c f]; [by exists 58, (join fs t)|].
  apply Forall_cons in Hf as [Hc _]. exists c, (f ++ 58 :: join fs t). split; [done|lia].
Qed.

(** ** Scanning *)

(** What [scan] computes on lines that are given as [n] fields and a rest. *)
Fixpoint first {A} (f : list (list Z) -> list Z -> option (option A)) (L : list (list (list Z) * list Z)) : option (option A) :=
  match L with
  | [] => Some None
  | (fs, t) :: L' => a ← f fs t; match a with Some a => Some (Some a) | None => first f L' end
  end.

Definition lines_text (L : list (list (list Z) * list Z)) : list Z := foldr (fun l q => join l.1 (l.2 ++ 10 :: q)) [0] L.

Definition line_ok (n : nat) (l : list (list Z) * list Z) : Prop := length l.1 = n /\ Forall plain l.1 /\ str l.2 /\ 10 ∉ l.2.

Lemma scan_spec {A} n fuel (f : list (list Z) -> list Z -> option (option A)) L : (0 < n)%nat -> Forall (line_ok n) L -> (length L < fuel)%nat ->
  scan n fuel f (lines_text L) = first f L.
Proof.
  intros Hn. revert fuel. induction L as [|[fs t] L IH]; intros fuel HL Hf; (destruct fuel as [|fuel]; [cbn in Hf; lia|]); [done|].
  apply Forall_cons in HL as [(Hlen & Hfs & Ht & Hnl) HL]. cbn [lines_text foldr fst snd] in *. fold (lines_text L).
  destruct (join_head fs (t ++ 10 :: lines_text L) Hfs) as (c & r & E & Hc); [by intros ->; cbn in Hlen; lia|]. cbn [scan first]. rewrite E.
  rewrite (proj2 (Z.eqb_neq c 0)) by done. rewrite <- E, <- Hlen, fields_spec by done. cbn [mbind option_bind]. rewrite rest_of_line_spec by done. cbn [mbind option_bind].
  destruct (f fs t) as [[a|]|]; cbn [mbind option_bind]; [done| |done]. rewrite Hlen. apply IH; [done|]. cbn [length] in Hf. lia.
Qed.

(** The lines with four and with three fields. *)
Definition line4 (e : entry) : list (list Z) * list Z := ([e_name e; e_pass e; e_uid e; e_gid e], e_home e).
Definition line3 (e : entry) : list (list Z) * list Z := ([e_name e; e_pass e; e_uid e], e_gid e ++ 58 :: e_home e).

Lemma line4_ok e : entry_ok e -> line_ok 4 (line4 e).
Proof.
  intros []. split; [done|]. split; [by repeat constructor|]. split; [by apply plain_str|]. by apply plain_no; auto.
Qed.

Lemma line3_ok e : entry_ok e -> line_ok 3 (line3 e).
Proof.
  intros []. split; [done|]. split; [by repeat constructor|]. cbn [snd line3]. split.
  - apply str_app. split; [by apply plain_str|]. apply str_cons. split; [lia|by apply plain_str].
  - rewrite elem_of_app, elem_of_cons. intros [H|[H|H]]; [revert H; apply plain_no; auto|lia|revert H; apply plain_no; auto].
Qed.

Lemma lines_contents (f : entry -> list (list Z) * list Z) es : (forall e q, join (f e).1 ((f e).2 ++ q) = line_of e ++ q) ->
  lines_text (f <$> es) = contents es ++ [0].
Proof.
  intros Hf. induction es as [|e es IH]; [done|]. cbn [fmap list_fmap lines_text foldr]. fold (lines_text (f <$> es)). rewrite IH.
  unfold contents. cbn [fmap list_fmap concat]. rewrite Hf, <- !app_assoc. done.
Qed.

Lemma lines4 es : lines_text (line4 <$> es) = contents es ++ [0].
Proof. apply lines_contents. intros e q. unfold line_of. by rewrite <- join_app. Qed.

Lemma lines3 es : lines_text (line3 <$> es) = contents es ++ [0].
Proof. apply lines_contents. intros e q. exact (join_app [e_name e; e_pass e; e_uid e] (e_gid e ++ 58 :: e_home e) q). Qed.

Lemma contents_cons e es : contents (e :: es) = (line_of e ++ [10]) ++ contents es.
Proof. done. Qed.

Lemma contents_length es : (length es <= length (contents es))%nat.
Proof.
  induction es as [|e es IH]; [done|]. unfold contents in *. cbn [fmap list_fmap concat length]. rewrite !length_app. cbn [length]. lia.
Qed.

(** ** Comparing and reading numbers *)

Lemma same_spec a b : str a -> str b -> same a b = Some (bool_decide (a = b)).
Proof.
  intros Ha Hb. unfold same. destruct (strcmp_spec a b [] [] Ha Hb) as (v & -> & Hv). cbn [mbind option_bind]. f_equal.
  apply eq_true_iff_eq. rewrite Z.eqb_eq, bool_decide_eq_true. done.
Qed.

Lemma atoi_loop_total s n : exists v, atoi_loop (s ++ [0]) n = Some v.
Proof. revert n. induction s as [|c s IH]; intros n; cbn [app atoi_loop]; [by exists n|]. destruct (is_digit c); [apply IH|by exists n]. Qed.

Lemma atoi_total s : exists v, atoi (s ++ [0]) = Some v.
Proof.
  unfold atoi. assert (exists t, skip_blanks (s ++ [0]) = Some (t ++ [0])) as [t ->].
  { induction s as [|c s IH]; [by exists []|]. cbn [app skip_blanks]. destruct ((c =? 32) || (c =? 9)); [done|]. by exists (c :: s). }
  cbn [mbind option_bind]. assert (exists b u, sign (t ++ [0]) = Some (b, u ++ [0])) as (b & u & ->).
  { destruct t as [|c t]; [by exists false, []|]. cbn [app sign]. destruct (c =? 45); [by exists true, t|]. destruct (c =? 43); [by exists false, t|]. by exists false, (c :: t). }
  cbn [mbind option_bind]. destruct (atoi_loop_total u 0) as [v ->]. cbn [mbind option_bind]. eauto.
Qed.

(** The value of an identifier's text. *)
Definition id_val (s : list Z) : Z := default 0 (to_id s).

Lemma to_id_spec s : to_id s = Some (id_val s).
Proof. unfold id_val, to_id. by destruct (atoi_total s) as [v ->]. Qed.

Lemma chomp_line s : chomp (s ++ [10]) = s.
Proof.
  unfold chomp. assert (aget 0 (s ++ [10]) (blen (s ++ [10]) - 1) = 10) as ->.
  { rewrite blen_app. unfold aget, blen. cbn [length]. rewrite app_nth2 by lia. replace (Z.to_nat _ - length s)%nat with 0%nat by lia. done. }
  cbn [Z.eqb Pos.eqb]. rewrite length_app. cbn [length]. rewrite Nat.add_sub. apply take_app_length.
Qed.

(** ** [login] and [sudo] *)

(** The file with these accounts is read whole. *)
Record file_ok (es : list entry) : Prop := {
  fo_entries : Forall entry_ok es;
  fo_size : 0 < blen (contents es) < BUF_SZ;
}.

Lemma load_spec es : file_ok es -> load (Some (contents es)) = Some (contents es ++ [0]).
Proof.
  intros [_ Hs]. unfold load, BUF_SZ in *. cbn [mbind option_bind]. rewrite take_ge by (unfold blen in Hs; lia).
  by rewrite (proj2 (Z.eqb_neq _ 0)) by lia.
Qed.

Lemma scan_file {A} n fuel (f : list (list Z) -> list Z -> option (option A)) g es : (0 < n)%nat -> (forall e, entry_ok e -> line_ok n (g e)) ->
  lines_text (g <$> es) = contents es ++ [0] -> file_ok es -> fuel = length (contents es ++ [0]) -> scan n fuel f (contents es ++ [0]) = first f (g <$> es).
Proof.
  intros Hn Hg Et [He _] ->. rewrite <- Et. apply scan_spec; [done| |].
  - apply Forall_fmap. eapply Forall_impl; [exact He|]. exact Hg.
  - rewrite Et, length_app, length_fmap. cbn [length]. pose proof (contents_length es). lia.
Qed.

(** The first account with a property. *)
Definition account (P : entry -> bool) (es : list entry) : option entry := List.find P es.

Lemma first_find {A} (f : list (list Z) -> list Z -> option (option A)) g P (r : entry -> A) es :
  Forall (fun e => f (g e).1 (g e).2 = Some (if P e : bool then Some (r e) else None)) es ->
  first f (g <$> es) = Some (match account P es with Some e => Some (r e) | None => None end).
Proof.
  induction 1 as [|e es He _ IH]; [done|]. cbn [fmap list_fmap first account find]. destruct (g e) as [fs t]. cbn [fst snd] in He. rewrite He.
  cbn [mbind option_bind]. by destruct (P e).
Qed.

Definition named (username : list Z) (e : entry) : bool := bool_decide (e_name e = username).
Definition has_uid (uid : Z) (e : entry) : bool := id_val (e_uid e) =? uid.

Lemma lookup_user_spec es username : file_ok es -> str username ->
  lookup_user username (Some (contents es)) = Some (match account (named username) es with
    | Some e => Some (mk_user (take 63 (e_pass e)) (id_val (e_uid e)) (id_val (e_gid e)) (take 255 (e_home e)))
    | None => None
    end).
Proof.
  intros Hf Hu. unfold lookup_user. rewrite load_spec by done. rewrite (scan_file 4 _ _ line4 es); [|lia|apply line4_ok|apply lines4|done|done].
  apply first_find. eapply Forall_impl; [apply Hf|]. intros e He. cbn [line4 fst snd]. rewrite same_spec by (done || by apply plain_str, He).
  cbn [mbind option_bind]. rewrite !to_id_spec. unfold named. by destruct (bool_decide _).
Qed.

Lemma str_take n s : str s -> str (take n s).
Proof. apply Forall_take. Qed.

Lemma account_ok P es e : Forall entry_ok es -> account P es = Some e -> entry_ok e /\ P e = true.
Proof. intros He (Hin & Hp)%find_some. rewrite List.Forall_forall in He. auto. Qed.

Lemma login_spec es username password : file_ok es -> str username -> username <> [] -> str password ->
  login (Some (contents es)) (username ++ [10]) (password ++ [10]) =
  Some (match account (named username) es with
        | Some e =>
            if bool_decide (e_pass e = [] \/ password = take 63 (e_pass e))
            then Shell (id_val (e_uid e)) (id_val (e_gid e)) (take 255 (e_home e)) else Incorrect
        | None => Incorrect
        end).
Proof.
  intros Hf Hu Hne Hp. unfold login. rewrite !chomp_line, blen_app, lookup_user_spec by done.
  assert (0 < blen username) by (unfold blen; destruct username; [done|cbn [length]; lia]).
  change (blen [10]) with 1. rewrite (proj2 (Z.leb_gt _ 0)), (proj2 (Z.eqb_neq _ 0)) by lia. cbn [mbind option_bind].
  destruct (account (named username) es) as [e|] eqn:Ea; [|done]. apply (account_ok _ _ _ (fo_entries _ Hf)) in Ea as [He _].
  cbn [u_pass u_uid u_gid u_home]. rewrite same_spec by (done || by apply str_take, plain_str, He). cbn [mbind option_bind].
  destruct (e_pass e) as [|c s] eqn:Ep.
  - change (blen (take 63 [])) with 0. cbn [Z.eqb negb andb]. by rewrite bool_decide_true by (by left).
  - rewrite (proj2 (Z.eqb_neq _ 0)) by (unfold blen; cbn [take length]; lia). cbn [negb andb].
    destruct (decide (password = take 63 (c :: s))) as [->|Hd]; [by rewrite !bool_decide_true by auto|].
    rewrite !bool_decide_false by (by intros [?|?] || done). done.
Qed.

(** C20: [login] admits exactly who the accounts say. With the accounts in a file that fits the buffer, the attempt
    to log in as [username] with [password] starts a shell for the ids of the first account of that name when its
    password is empty or the one given, cut to 63 characters, and is refused otherwise. *)
Theorem login_correct es username password : file_ok es -> str username -> username <> [] -> str password ->
  login (Some (contents es)) (username ++ [10]) (password ++ [10]) =
  Some (match account (named username) es with
        | Some e =>
            if bool_decide (e_pass e = [] \/ password = take 63 (e_pass e))
            then Shell (id_val (e_uid e)) (id_val (e_gid e)) (take 255 (e_home e)) else Incorrect
        | None => Incorrect
        end).
Proof.
  intros Hf Hu Hne Hp. apply login_spec; done.
Qed.

(** [sudo] runs the command exactly for the password of the caller's account, or without one. *)
Theorem sudo_correct es ruid password : file_ok es -> str password ->
  sudo (Some (contents es)) ruid (password ++ [10]) =
  Some (match account (has_uid ruid) es with Some e => bool_decide (e_pass e = [] \/ password = take 63 (e_pass e)) | None => false end).
Proof.
  intros Hf Hp. unfold sudo, passwd_for_uid. rewrite load_spec by done. rewrite (scan_file 3 _ _ line3 es); [|lia|apply line3_ok|apply lines3|done|done].
  rewrite (first_find _ line3 (has_uid ruid) (fun e => (take 63 (e_pass e), take 63 (e_name e)))).
  2:{ eapply Forall_impl; [apply Hf|]. intros e He. cbn [line3 fst snd]. by rewrite to_id_spec. }
  cbn [mbind option_bind]. destruct (account (has_uid ruid) es) as [e|] eqn:Ea; [|done]. apply (account_ok _ _ _ (fo_entries _ Hf)) in Ea as [He _].
  rewrite chomp_line, same_spec by (done || by apply str_take, plain_str, He). destruct (e_pass e) as [|c s] eqn:Ep.
  - change (blen (take 63 [])) with 0. cbn [Z.eqb]. by rewrite bool_decide_true by (by left).
  - rewrite (proj2 (Z.eqb_neq _ 0)) by (unfold blen; cbn [take length]; lia). f_equal. apply bool_decide_ext. split; [by right|by intros [?|?]].
Qed.

(** [whoami] prints the name of the first account with the caller's uid. *)
Theorem whoami_correct es uid s e : file_ok es -> account (has_uid uid) es = Some e ->
  exists s', whoami uid (Some (contents es)) s = Some s' /\ Stdio.written s' = Stdio.written s ++ e_name e ++ [10].
Proof.
  intros Hf Ea. unfold whoami, name_for_uid. rewrite load_spec by done. rewrite (scan_file 3 _ _ line3 es); [|lia|apply line3_ok|apply lines3|done|done].
  rewrite (first_find _ line3 (has_uid uid) e_name).
  2:{ eapply Forall_impl; [apply Hf|]. intros x Hx. cbn [line3 fst snd]. by rewrite to_id_spec. }
  rewrite Ea. cbn [mbind option_bind]. pose proof (account_ok _ _ _ (fo_entries _ Hf) Ea) as [He _]. unfold Stdio.puts.
  rewrite strlen_spec by (by apply plain_str, He). cbn [mbind option_bind]. eexists. split; [done|].
  cbn [Stdio.write1 Stdio.written]. unfold blen. by rewrite Nat2Z.id, take_app_length, app_assoc.
Qed.

(** ** [passwd] *)

Definition set_pass (target np : list Z) (e : entry) : entry :=
  if named target e then mk_entry (e_name e) np (e_uid e) (e_gid e) (e_home e) else e.

(** The output buffer holds [W]. *)
Record holds (size : Z) (o : output) (W : list Z) : Prop := {
  ho_size : blen (s_out o) = size;
  ho_pos : out_pos o = blen W;
  ho_text : take (Z.to_nat (out_pos o)) (s_out o) = W;
}.

Lemma holds_room size o W : holds size o W -> blen W <= size.
Proof. intros [H1 H2 H3]. unfold blen in *. rewrite <- H3, length_take. lia. Qed.

Lemma holds_copy size max o W l : holds size o W -> blen W + blen l < max -> max <= size ->
  exists o', copy_line max l o = Some o' /\ holds size o' (W ++ l) /\ found o' = found o.
Proof.
  intros [H1 H2 H3] Hl Hm. pose proof (blen_nonneg l). pose proof (blen_nonneg W). unfold copy_line. rewrite H2, (proj2 (Z.ltb_lt _ _)), (proj2 (Z.leb_le _ _)) by lia.
  eexists. split; [done|]. split; [|done]. rewrite H2 in H3. split; cbn [s_out out_pos].
  - rewrite blen_put; lia.
  - by rewrite blen_app.
  - unfold put. rewrite H3. rewrite app_assoc, take_app_le by (rewrite length_app; unfold blen; lia).
    apply take_ge. rewrite length_app. unfold blen. lia.
Qed.

Lemma format_line f0 f1 f2 f3 f4 : str f0 -> str f1 -> str f2 -> str f3 -> str f4 ->
  Stdio.format LINE_FMT (line_args [f0; f1; f2; f3; f4]) = Some (join [f0; f1; f2; f3] (f4 ++ [10])).
Proof.
  intros H0 H1 H2 H3 H4. unfold Stdio.format, LINE_FMT, line_args. cbn -[Stdio.text]. rewrite !Stdio.text_puts by done. cbn. by rewrite <- ?app_assoc.
Qed.

Lemma holds_replace o W f0 np f2 f3 f4 : str f0 -> str np -> str f2 -> str f3 -> str f4 -> holds OUT_SZ o W ->
  blen W + blen (join [f0; np; f2; f3] (f4 ++ [10])) < OUT_SZ ->
  exists o', replace_line f0 np f2 f3 f4 o = Some o' /\ holds OUT_SZ o' (W ++ join [f0; np; f2; f3] (f4 ++ [10])) /\ found o' = true.
Proof.
  intros S0 S1 S2 S3 S4 [H1 H2 H3] Hl. pose proof (blen_nonneg W). set (l := join [f0; np; f2; f3] (f4 ++ [10])) in *. pose proof (blen_nonneg l).
  assert (blen f0 + 1 + blen np + 1 + blen f2 + 1 + blen f3 + 1 + blen f4 + 1 = blen l) as En.
  { unfold l, blen, join. cbn [foldr]. repeat (rewrite length_app; cbn [length]). lia. }
  unfold replace_line. rewrite En, H2, (proj2 (Z.ltb_lt _ _)) by lia.
  assert (blen (drop (Z.to_nat (blen W)) (s_out o)) = OUT_SZ - blen W) as Hd by (unfold blen in *; rewrite length_drop; lia).
  rewrite (Stdio.vsprintf_spec _ _ _ _ l) by (try apply format_line; try done; unfold OUT_SZ in *; lia). rewrite H2 in H3. rewrite H3.
  eexists. split; [done|]. split; [|done]. split; cbn [s_out out_pos].
  - rewrite blen_app. unfold blen in *. rewrite length_app. cbn [length]. rewrite length_drop. lia.
  - by rewrite blen_app.
  - rewrite app_assoc, take_app_le by (rewrite length_app; unfold blen; lia). apply take_ge. rewrite length_app. unfold blen. lia.
Qed.

Lemma split_line e : entry_ok e -> split_fields 5 (line_of e ++ [0]) = Some [e_name e; e_pass e; e_uid e; e_gid e; e_home e].
Proof.
  intros []. assert (forall n f q, plain f -> split_fields (S n) (f ++ 58 :: q) = (fs ← split_fields n q; Some (f :: fs))) as Hstep.
  { intros n f q Hf. cbn [split_fields]. rewrite strchr_found by (try apply plain_str; try apply plain_no; auto; lia). cbn [mbind option_bind].
    unfold blen. replace (Z.to_nat (Z.of_nat (length f) + 1)) with (length f + 1)%nat by lia. rewrite <- drop_drop, drop_app_length, Nat2Z.id, take_app_length. done. }
  unfold line_of, join. cbn [foldr]. repeat (rewrite <- app_assoc; cbn [app]). rewrite !Hstep by done. cbn [split_fields].
  rewrite strchr_missing by (try apply plain_str; try apply plain_no; auto; lia). cbn [mbind option_bind]. rewrite strlen_spec by (by apply plain_str).
  cbn [mbind option_bind]. unfold blen. by rewrite Nat2Z.id, take_app_length.
Qed.

Lemma line_str e : entry_ok e -> str (line_of e) /\ 10 ∉ line_of e.
Proof.
  intros []. unfold line_of, join. cbn [foldr]. split.
  - repeat (apply str_app; split; [by apply plain_str|]; apply str_cons; split; [lia|]). by apply plain_str.
  - repeat (apply not_elem_of_app; split; [by apply plain_no; auto|]; apply not_elem_of_cons; split; [lia|]). by apply plain_no; auto.
Qed.

Lemma line_head e q : entry_ok e -> exists c r, line_of e ++ q = c :: r /\ c <> 0.
Proof.
  intros []. unfold line_of. rewrite <- join_app. apply join_head; [by repeat constructor|done].
Qed.

Lemma set_pass_line target np e : line_of (set_pass target np e) ++ [10] =
  if named target e then join [e_name e; np; e_uid e; e_gid e] (e_home e ++ [10]) else line_of e ++ [10].
Proof. unfold set_pass, line_of. destruct (named target e); [|done]. cbn [e_name e_pass e_uid e_gid e_home]. by rewrite join_app. Qed.

Lemma rebuild_spec fuel target np es o W : Forall entry_ok es -> Forall (fun e => blen (line_of e) < 256) es -> str target -> str np -> (length es < fuel)%nat ->
  holds OUT_SZ o W -> blen W + blen (contents (set_pass target np <$> es)) < OUT_SZ ->
  exists o', rebuild fuel target np (contents es ++ [0]) o = Some o' /\ holds OUT_SZ o' (W ++ contents (set_pass target np <$> es)) /\
    found o' = found o || existsb (named target) es.
Proof.
  intros He Hl Ht Hnp. revert fuel o W. induction es as [|e es IH]; intros fuel o W Hf Ho Hroom; (destruct fuel as [|fuel]; [cbn in Hf; lia|]).
  { exists o. split; [done|]. by rewrite app_nil_r, orb_false_r. }
  apply Forall_cons in He as [He Hes], Hl as [Hl Hls]. change (contents (e :: es)) with ((line_of e ++ [10]) ++ contents es).
  change (contents (set_pass target np <$> e :: es)) with ((line_of (set_pass target np e) ++ [10]) ++ contents (set_pass target np <$> es)) in *.
  rewrite blen_app in Hroom. set (q := contents es ++ [0]) in *.
  assert (((line_of e ++ [10]) ++ contents es) ++ [0] = line_of e ++ 10 :: q) as -> by (unfold q; by rewrite <- !app_assoc).
  destruct (line_head e (10 :: q) He) as (c & r & E & Hc). cbn [rebuild]. rewrite E. rewrite (proj2 (Z.eqb_neq c 0)) by done. rewrite <- E.
  destruct (line_str e He) as [Hs Hn]. rewrite strchr_found by (done || lia). cbn [mbind option_bind].
  rewrite (proj2 (Z.leb_gt 256 _)) by lia. pose proof (blen_nonneg (line_of e)).
  assert (Z.to_nat (blen (line_of e)) = length (line_of e)) as El by (unfold blen; lia).
  assert (Z.to_nat (blen (line_of e) + 1) = length (line_of e ++ [10])) as El1 by (unfold blen; rewrite length_app; cbn [length]; lia).
  rewrite El, El1. replace (line_of e ++ 10 :: q) with ((line_of e ++ [10]) ++ q) by (by rewrite <- app_assoc).
  rewrite take_app_length, drop_app_length, <- app_assoc, take_app_length, split_line by done. cbn [mbind option_bind hd].
  rewrite same_spec by (done || by apply plain_str, He). cbn [mbind option_bind]. fold (named target e). cbn [existsb].
  rewrite set_pass_line in *. destruct (named target e).
  - destruct (holds_replace o W (e_name e) np (e_uid e) (e_gid e) (e_home e)) as (o1 & -> & Ho1 & Hf1); try done; try (by apply plain_str, He); [pose proof (blen_nonneg (contents (set_pass target np <$> es))); lia|].
    cbn [mbind option_bind]. destruct (IH Hes Hls fuel o1 _ ltac:(cbn in Hf; lia) Ho1) as (o' & E' & Ho' & Hf'); [rewrite blen_app; lia|].
    exists o'. split; [done|]. rewrite (app_assoc W). split; [done|]. rewrite Hf', Hf1. by rewrite orb_true_r.
  - destruct (holds_copy OUT_SZ OUT_SZ o W (line_of e ++ [10])) as (o1 & -> & Ho1 & Hf1); [done|pose proof (blen_nonneg (contents (set_pass target np <$> es))); lia|lia|].
    cbn [mbind option_bind]. destruct (IH Hes Hls fuel o1 _ ltac:(cbn in Hf; lia) Ho1) as (o' & E' & Ho' & Hf'); [rewrite blen_app; lia|].
    exists o'. split; [done|]. rewrite (app_assoc W). split; [done|]. by rewrite Hf', Hf1.
Qed.

(** Who may change the password of [target], with [cur] for the current password. *)
Definition may_change (es : list entry) (myuid : Z) (arg : option (list Z)) (cur target : list Z) : Prop :=
  match arg with
  | Some a => myuid = 0 /\ str a /\ target = take 63 a
  | None => exists e, account (has_uid myuid) es = Some e /\ e_name e = target /\ 0 < blen target < 63
  end /\
  (myuid = 0 \/ exists e, account (named target) es = Some e /\ (e_pass e = [] \/ cur = take 63 (e_pass e))).

Definition short (es : list entry) : Prop := Forall (fun e => blen (line_of e) < 256) es.

Lemma target_spec es myuid arg cur target : file_ok es -> may_change es myuid arg cur target ->
  passwd_target myuid arg (Some (contents es)) = Some (Some target) /\ str target.
Proof.
  intros Hf [Ht _]. unfold passwd_target. destruct arg as [a|]; [destruct Ht as (-> & Ha & ->); split; [done|by apply str_take]|].
  destruct Ht as (e & Ea & En & Hl). rewrite load_spec by done. unfold name_of_uid.
  rewrite (scan_file 3 _ _ line3 es); [|lia|apply line3_ok|apply lines3|done|done].
  pose proof (account_ok _ _ _ (fo_entries _ Hf) Ea) as [He _]. split; [|rewrite <- En; by apply plain_str, He].
  assert (forall L, account (has_uid myuid) L = Some e -> first (fun fs _ => match fs with
      | [name; _; uid_s] => v ← to_id uid_s; if v =? myuid then (if 63 <=? blen name then None else Some (Some name)) else Some None
      | _ => None end) (line3 <$> L) = Some (Some target)) as Hfirst.
  { induction L as [|x L IH]; [done|]. cbn [account find fmap list_fmap first line3]. rewrite to_id_spec. cbn [mbind option_bind]. unfold has_uid at 1.
    destruct (id_val (e_uid x) =? myuid); [|apply IH]. intros [= ->]. rewrite En, (proj2 (Z.leb_gt 63 _)) by lia. done. }
  rewrite (Hfirst es Ea). cbn [mbind option_bind]. destruct target; [unfold blen in Hl; cbn in Hl; lia|done].
Qed.

Lemma passwd_spec es myuid arg cur target np : file_ok es -> short es -> may_change es myuid arg cur target -> str cur -> plain np ->
  blen (contents (set_pass target np <$> es)) < OUT_SZ ->
  passwd myuid arg (Some (contents es)) (cur ++ [10]) (np ++ [10]) (np ++ [10]) =
  Some (if existsb (named target) es then Some (contents (set_pass target np <$> es)) else None).
Proof.
  intros Hf Hs Hmay Hcur Hnp Hroom. destruct (target_spec es myuid arg cur target Hf Hmay) as [Et Hts]. unfold passwd. rewrite Et.
  cbn [mbind option_bind]. rewrite load_spec by done. rewrite !chomp_line.
  assert (verified myuid target (cur ++ [10]) (contents es ++ [0]) = Some true) as ->.
  { unfold verified. rewrite chomp_line. destruct (Z.eqb_spec myuid 0); [done|]. destruct Hmay as [_ [?|(e & Ea & Hp)]]; [done|]. unfold pass_of_name.
    rewrite (scan_file 3 _ _ line3 es); [|lia|apply line3_ok|apply lines3|done|done].
    rewrite (first_find _ line3 (named target) (fun e => take 63 (e_pass e))).
    2:{ eapply Forall_impl; [apply Hf|]. intros x Hx. cbn [line3 fst snd]. by rewrite same_spec by (done || by apply plain_str, Hx). }
    pose proof (account_ok _ _ _ (fo_entries _ Hf) Ea) as [He _]. rewrite Ea. cbn [mbind option_bind default].
    rewrite same_spec by (done || by apply str_take, plain_str, He). cbn [mbind option_bind]. destruct Hp as [-> | ->]; [done|].
    by rewrite bool_decide_true, orb_true_r. }
  cbn [mbind option_bind negb]. rewrite same_spec by (by apply plain_str). cbn [mbind option_bind]. rewrite bool_decide_true by done. cbn [negb].
  destruct (rebuild_spec (length (contents es ++ [0])) target np es (mk_output (zeros OUT_SZ) 0 false) [] (fo_entries _ Hf) Hs Hts (plain_str _ Hnp)) as (o & -> & [Ho1 Ho2 Ho3] & Hfd).
  - rewrite length_app. cbn [length]. pose proof (contents_length es). lia.
  - by split.
  - done.
  - cbn [mbind option_bind]. rewrite Hfd. cbn [found orb app] in *. destruct (existsb (named target) es); [|done]. by rewrite Ho3.
Qed.

Lemma account_set_pass user target np es : account (named user) (set_pass target np <$> es) = set_pass target np <$> account (named user) es.
Proof.
  induction es as [|e es IH]; [done|]. cbn [fmap list_fmap account find]. assert (named user (set_pass target np e) = named user e) as ->.
  { unfold set_pass. by destruct (named target e). }
  by destruct (named user e).
Qed.

Lemma set_pass_ok target np e : plain np -> entry_ok e -> entry_ok (set_pass target np e).
Proof. intros Hn He. unfold set_pass. destruct (named target e); [|done]. destruct He. by split. Qed.

(** After [passwd] the account has its new password, and no other account has changed. When a user who may
    change the account gives a password without separators and of at most 63 characters, twice, the file that
    [passwd] writes lets [login] in as that account with the new password, with the ids and the home directory the
    account had, and answers every attempt for another account as before. *)
Theorem passwd_login es myuid arg cur target np e : file_ok es -> short es -> may_change es myuid arg cur target -> str cur ->
  plain np -> 0 < blen np <= 63 -> target <> [] -> account (named target) es = Some e -> blen (contents (set_pass target np <$> es)) < BUF_SZ ->
  exists out, passwd myuid arg (Some (contents es)) (cur ++ [10]) (np ++ [10]) (np ++ [10]) = Some (Some out) /\
    login (Some out) (target ++ [10]) (np ++ [10]) = Some (Shell (id_val (e_uid e)) (id_val (e_gid e)) (take 255 (e_home e))) /\
    forall user pw, str user -> user <> [] -> user <> target -> str pw ->
      login (Some out) (user ++ [10]) (pw ++ [10]) = login (Some (contents es)) (user ++ [10]) (pw ++ [10]).
Proof.
  intros Hf Hs Hmay Hcur Hnp Hl Hne Ha Hsize. destruct (target_spec es myuid arg cur target Hf Hmay) as [_ Hts].
  pose proof (account_ok _ _ _ (fo_entries _ Hf) Ha) as [He Hnm]. assert (file_ok (set_pass target np <$> es)) as Hf'.
  { split; [apply Forall_fmap; eapply Forall_impl; [apply Hf|]; intros x Hx; by apply set_pass_ok|]. split; [|done].
    destruct es as [|x es]; [done|]. change (contents (set_pass target np <$> x :: es)) with ((line_of (set_pass target np x) ++ [10]) ++ contents (set_pass target np <$> es)).
    rewrite !blen_app. change (blen [10]) with 1. pose proof (blen_nonneg (line_of (set_pass target np x))). pose proof (blen_nonneg (contents (set_pass target np <$> es))). lia. }
  exists (contents (set_pass target np <$> es)). split; [|split].
  - rewrite (passwd_spec es myuid arg cur target np) by (done || unfold BUF_SZ, OUT_SZ in *; lia).
    assert (existsb (named target) es = true) as -> by (apply existsb_exists; exists e; by apply find_some in Ha). done.
  - rewrite login_spec by (done || by apply plain_str). rewrite account_set_pass, Ha. cbn [fmap option_fmap option_map].
    unfold set_pass. rewrite Hnm. cbn [e_pass e_uid e_gid e_home]. rewrite take_ge by (unfold blen in Hl; lia). by rewrite bool_decide_true by (by right).
  - intros user pw Hu Hun Hut Hpw. rewrite !login_spec by done. rewrite account_set_pass. destruct (account (named user) es) as [x|] eqn:Ex; [|done].
    cbn [fmap option_fmap option_map]. apply (account_ok _ _ _ (fo_entries _ Hf)) in Ex as [_ Ex]. unfold named in Ex. rewrite bool_decide_eq_true in Ex.
    assert (set_pass target np x = x) as ->; [|done]. unfold set_pass, named. by rewrite bool_decide_false by congruence.
Qed.

(** ** [userdel] *)

Lemma strncmp_spec a b r r' : str a -> str b -> length a = length b -> exists v, strncmp (a ++ r) (b ++ r') (length a) = Some v /\ (v = 0 <-> a = b).
Proof.
  revert b. induction a as [|x a IH]; intros [|y b] Ha Hb Hl; try done; [by exists 0|]. apply str_cons in Ha as [Hx Ha], Hb as [Hy Hb].
  cbn [length app strncmp]. destruct (Z.eqb_spec x y) as [->|Hne]; cbn [negb].
  - rewrite (proj2 (Z.eqb_neq y 0)) by lia. destruct (IH b Ha Hb ltac:(by injection Hl)) as (v & -> & Hv). exists v. split; [done|].
    rewrite Hv. split; [by intros ->|by intros [=]].
  - exists (x - y). split; [done|]. split; [lia|by intros [=]].
Qed.

Definition others (username : list Z) (es : list entry) : list entry := List.filter (fun e => negb (named username e)) es.

Lemma remove_spec fuel username es o W : Forall entry_ok es -> str username -> (length es < fuel)%nat ->
  holds BUF_SZ o W -> blen W + blen (contents es) < BUF_SZ ->
  exists o', remove_loop fuel username (contents es ++ [0]) o = Some o' /\ holds BUF_SZ o' (W ++ contents (others username es)) /\
    found o' = found o || existsb (named username) es.
Proof.
  intros He Hu. revert fuel o W. induction es as [|e es IH]; intros fuel o W Hf Ho Hroom; (destruct fuel as [|fuel]; [cbn in Hf; lia|]).
  { exists o. split; [done|]. by rewrite app_nil_r, orb_false_r. }
  apply Forall_cons in He as [He Hes]. change (contents (e :: es)) with ((line_of e ++ [10]) ++ contents es) in *. rewrite !blen_app in Hroom.
  change (blen [10]) with 1 in Hroom. set (q := contents es ++ [0]) in *. pose proof (blen_nonneg (contents es)). pose proof (blen_nonneg (line_of e)).
  assert (((line_of e ++ [10]) ++ contents es) ++ [0] = line_of e ++ 10 :: q) as -> by (unfold q; by rewrite <- !app_assoc).
  destruct (line_head e (10 :: q) He) as (c & r & E & Hc). cbn [remove_loop]. rewrite E, (proj2 (Z.eqb_neq c 0)) by done. rewrite <- E.
  destruct (line_str e He) as [Hs Hn]. rewrite strchr_found by (done || lia). cbn [mbind option_bind].
  assert (exists t, line_of e ++ 10 :: q = e_name e ++ 58 :: t) as [t Et].
  { unfold line_of. cbn [join foldr]. eexists. rewrite <- app_assoc. cbn [app]. reflexivity. }
  pose proof (ok_name e He) as Hp. assert (strchr (line_of e ++ 10 :: q) 58 = Some (Some (blen (e_name e)))) as ->.
  { rewrite Et. apply strchr_found; [by apply plain_str|lia|by apply plain_no; auto]. }
  cbn [mbind option_bind].
  assert ((if blen username =? blen (e_name e) then v ← strncmp (username ++ [0]) (line_of e ++ 10 :: q) (Z.to_nat (blen (e_name e))); Some (v =? 0) else Some false)
    = Some (named username e)) as ->.
  { unfold named. destruct (Z.eqb_spec (blen username) (blen (e_name e))) as [El|El].
    - unfold blen in *. rewrite Et, Nat2Z.id. replace (length (e_name e)) with (length username) by lia.
      destruct (strncmp_spec username (e_name e) [0] (58 :: t) Hu (plain_str _ Hp) ltac:(lia)) as (v & -> & Hv). cbn [mbind option_bind]. f_equal.
      apply eq_true_iff_eq. rewrite Z.eqb_eq, bool_decide_eq_true, Hv. by split.
    - rewrite bool_decide_false; [done|]. intros E1. by rewrite E1 in El. }
  cbn [mbind option_bind existsb others List.filter].
  assert (Z.to_nat (blen (line_of e) + 1) = length (line_of e ++ [10])) as El1 by (unfold blen; rewrite length_app; cbn [length]; lia).
  rewrite El1. replace (line_of e ++ 10 :: q) with ((line_of e ++ [10]) ++ q) by (by rewrite <- app_assoc). rewrite take_app_length, drop_app_length.
  destruct (named username e); cbn [negb mbind option_bind].
  - destruct (IH Hes fuel (mk_output (s_out o) (out_pos o) true) W ltac:(cbn in Hf; lia)) as (o' & E' & Ho' & Hf'); [by destruct Ho; split|lia|].
    exists o'. split; [done|]. split; [done|]. rewrite Hf'. by rewrite orb_true_r.
  - destruct (holds_copy BUF_SZ BUF_SZ o W (line_of e ++ [10]) Ho) as (o1 & -> & Ho1 & Hf1); [rewrite blen_app; change (blen [10]) with 1; lia|lia|].
    cbn [mbind option_bind]. destruct (IH Hes fuel o1 _ ltac:(cbn in Hf; lia) Ho1) as (o' & E' & Ho' & Hf'); [rewrite !blen_app; change (blen [10]) with 1; lia|].
    exists o'. split; [done|]. rewrite contents_cons, (app_assoc W).
    split; [exact Ho'|]. by rewrite Hf', Hf1.
Qed.

(** [userdel] by root removes exactly the accounts of that name. *)
Theorem userdel_correct es username : file_ok es -> str username -> username <> ROOT ->
  userdel 0 username (Some (contents es)) = Some (if existsb (named username) es then Some (contents (others username es)) else None).
Proof.
  intros Hf Hu Hr. unfold userdel. cbn [Z.eqb negb]. rewrite same_spec by (try done; repeat constructor; lia). cbn [mbind option_bind]. rewrite bool_decide_false by done.
  destruct Hf as [He Hs]. unfold BUF_SZ in Hs. rewrite take_ge by (unfold BUF_SZ, blen in *; lia).
  destruct (remove_spec (length (contents es ++ [0])) username es (mk_output (zeros BUF_SZ) 0 false) [] He Hu) as (o & -> & [_ _ Ho] & Hfd).
  - rewrite length_app. cbn [length]. pose proof (contents_length es). lia.
  - by split.
  - unfold BUF_SZ. change (blen []) with 0. lia.
  - cbn [mbind option_bind]. rewrite Hfd. cbn [found orb app] in *. destruct (existsb (named username) es); [|done]. by rewrite Ho.
Qed.

(** ** [useradd] *)

(** The largest identifier from 1000 on. *)
Definition max_uid (es : list entry) (m : Z) : Z :=
  fold_left (fun m e => let u := id_val (e_uid e) in if (1000 <=? u) && (m <? u) then u else m) es m.

Lemma max_uid_loop_spec fuel username es m : Forall entry_ok es -> str username -> (length es < fuel)%nat ->
  max_uid_loop fuel username (contents es ++ [0]) m = Some (if existsb (named username) es then None else Some (max_uid es m)).
Proof.
  intros He Hu. rewrite <- lines3. revert fuel m. induction es as [|e es IH]; intros fuel m Hf; (destruct fuel as [|fuel]; [cbn in Hf; lia|]); [done|].
  apply Forall_cons in He as [He Hes]. destruct (line3_ok e He) as (Hlen & Hfs & Ht & Hnl). cbn [fmap list_fmap lines_text foldr].
  fold (lines_text (line3 <$> es)). destruct (join_head (line3 e).1 ((line3 e).2 ++ 10 :: lines_text (line3 <$> es)) Hfs) as (c & r & E & Hc); [done|].
  cbn [max_uid_loop]. rewrite E, (proj2 (Z.eqb_neq c 0)) by done. rewrite <- E, <- Hlen, fields_spec by done. cbn [mbind option_bind line3 fst].
  rewrite rest_of_line_spec by done. cbn [mbind option_bind]. rewrite same_spec by (done || by apply plain_str, He). cbn [mbind option_bind existsb].
  fold (named username e). destruct (named username e); [done|]. cbn [orb]. rewrite to_id_spec. cbn [mbind option_bind]. apply IH; [done|]. cbn in Hf. lia.
Qed.

Lemma max_uid_spec es m : 999 <= m -> m <= max_uid es m /\ (forall e, e ∈ es -> id_val (e_uid e) <= max_uid es m \/ id_val (e_uid e) < 1000) /\
  (max_uid es m = m \/ exists e, e ∈ es /\ max_uid es m = id_val (e_uid e)).
Proof.
  revert m. induction es as [|e es IH]; intros m Hm; [split; [cbn; lia|]; split; [by intros ? ?%elem_of_nil|by left]|].
  cbn [max_uid fold_left]. set (m' := if _ && _ then _ else m). fold (max_uid es m').
  assert (m <= m' /\ (id_val (e_uid e) <= m' \/ id_val (e_uid e) < 1000) /\ (m' = m \/ m' = id_val (e_uid e))) as (H1 & H2 & H3).
  { unfold m'. destruct (Z.leb_spec 1000 (id_val (e_uid e))), (Z.ltb_spec m (id_val (e_uid e))); cbn [andb]; lia. }
  destruct (IH m' ltac:(lia)) as (I1 & I2 & I3). split; [lia|]. split.
  - intros x [->|Hx]%elem_of_cons; [lia|by apply I2].
  - destruct I3 as [->|(x & Hx & ->)]; [destruct H3 as [->| ->]; [by left|right; exists e; split; [by left|done]]|right; exists x; split; [by right|done]].
Qed.

(** The text of an identifier. *)
Lemma uid_text v : 0 <= v < 2 ^ 31 -> exists ds, Stdio.text (Stdio.Uint (u32 v) 10 false 0) = Some ds /\ id_val ds = v /\ plain ds /\ blen ds <= 10.
Proof.
  intros Hv. rewrite u32_small by int_lia. destruct (Stdio.uint_buf_spec v) as (ds & E & Ev & HF & Hne); [lia|].
  pose proof (Stdio.uint_buf_length v ds ltac:(lia) E) as Hlen. exists (rev ds). cbn [Stdio.text]. unfold Stdio.uint_text. rewrite E. cbn [mbind option_bind].
  replace (Z.to_nat (0 - blen ds)) with 0%nat by (pose proof (blen_nonneg ds); lia). split; [done|]. split; [|split].
  - unfold id_val, to_id. rewrite (Stdio.atoi_text v [] (rev ds)); [|lia|].
    + cbn. apply u32_small. int_lia.
    + cbn [Stdio.text]. rewrite (proj2 (Z.ltb_ge v 0)) by lia. unfold Stdio.uint_text. rewrite E. cbn [mbind option_bind].
      by replace (Z.to_nat (0 - blen ds)) with 0%nat by (pose proof (blen_nonneg ds); lia).
  - eapply Forall_impl; [by apply Stdio.rev_digits|]. cbv beta. lia.
  - unfold blen. rewrite length_rev. lia.
Qed.

Definition HOME : list Z := [47; 104; 111; 109; 101; 47].

(** [useradd] by root adds an account with an identifier of its own. For a new name without separators, with
    every identifier in the file below 2^31 - 1, the line that is appended is that of an account of this name with
    an empty password and the directory /home/name, and its identifier is none of the file's. *)
Theorem useradd_correct es username : file_ok es -> plain username -> 47 ∉ username -> 0 < blen username <= 100 ->
  existsb (named username) es = false -> (forall e, e ∈ es -> id_val (e_uid e) < 2 ^ 31 - 1) ->
  exists uid e, useradd 0 username (Some (contents es)) = Some (Some (uid, line_of e ++ [10])) /\
    entry_ok e /\ e_name e = username /\ e_pass e = [] /\ e_home e = HOME ++ username /\ id_val (e_uid e) = uid /\ id_val (e_gid e) = uid /\
    1000 <= uid /\ forall x, x ∈ es -> id_val (e_uid x) <> uid.
Proof.
  intros Hf Hp Hsl Hlen Hnew Hids. pose proof (plain_str _ Hp) as Hu. unfold useradd. cbn [Z.eqb negb].
  rewrite (strchr_missing _ 58), (strchr_missing _ 47) by (done || lia || by apply plain_no; auto). cbn [mbind option_bind].
  destruct username as [|c0 u0] eqn:Eun; [unfold blen in Hlen; cbn in Hlen; lia|]. rewrite <- Eun in *.
  destruct Hf as [He Hs]. unfold BUF_SZ in Hs. rewrite take_ge by (unfold BUF_SZ, blen in *; lia).
  rewrite max_uid_loop_spec; [|done|done|rewrite length_app; cbn [length]; pose proof (contents_length es); lia].
  rewrite Hnew. cbn [mbind option_bind]. destruct (max_uid_spec es 999 ltac:(lia)) as (H1 & H2 & H3). set (m := max_uid es 999) in *.
  assert (m < 2 ^ 31 - 1) as Hm by (destruct H3 as [->|(x & Hx & ->)]; [lia|by apply Hids]). cbv zeta.
  rewrite (u32_small (m + 1)) by int_lia. rewrite (proj2 (Z.ltb_ge (m + 1) 1000)) by lia.
  destruct (uid_text (m + 1) ltac:(lia)) as (ds & Ed & Ev & Hds & Hdl).
  assert (str (HOME ++ username)) as Hhs by (apply str_app; split; [repeat constructor; lia|done]).
  assert (Stdio.format HOME_FMT (line_args [username]) = Some (HOME ++ username)) as Hh.
  { unfold Stdio.format, HOME_FMT, line_args. cbn -[Stdio.text]. rewrite Stdio.text_puts by done. cbn. by rewrite app_nil_r. }
  assert (blen (HOME ++ username) = 6 + blen username) as Hhl by (rewrite blen_app; done).
  rewrite (Stdio.vsnprintf_spec _ _ _ _ _ _ Hh) by (rewrite ?blen_zeros; lia). rewrite Z.min_l by lia.
  rewrite take_ge by (unfold blen; lia). set (rest := drop _ (zeros 128)).
  set (e := mk_entry username [] ds ds (HOME ++ username)).
  assert (Stdio.format ENTRY_FMT [Stdio.Str (Some (username ++ [0])); Stdio.Num (m + 1); Stdio.Num (m + 1); Stdio.Str (Some ((HOME ++ username) ++ 0 :: rest))] = Some (line_of e ++ [10])) as Hl.
  { unfold Stdio.format, ENTRY_FMT. cbn -[Stdio.text u32 HOME]. rewrite Stdio.text_puts, Ed, Stdio.text_puts by done. cbn -[HOME].
    unfold line_of, e, join. cbn -[HOME]. by repeat (rewrite <- app_assoc; cbn -[HOME]). }
  assert (blen (line_of e ++ [10]) <= 250) as Hll.
  { rewrite blen_app. change (blen [10]) with 1. unfold line_of, e, join, blen in *. cbn [foldr e_name e_pass e_uid e_gid e_home].
    repeat (rewrite length_app; cbn [length]). change (length HOME) with 6%nat. lia. }
  rewrite (Stdio.vsnprintf_spec _ _ _ _ _ _ Hl) by (rewrite ?blen_zeros; lia). rewrite Z.min_l by lia.
  exists (m + 1), e. split; [|split; [|do 5 (split; [done|])]].
  - do 4 f_equal. unfold blen. rewrite Nat2Z.id, firstn_all, take_app_length. done.
  - split; cbn [e e_name e_pass e_uid e_gid e_home]; try done; [constructor|]. apply Forall_app. split; [repeat constructor; lia|done].
  - split; [lia|]. intros x Hx Hxe. destruct (H2 x Hx); lia.
Qed.

(** ** Witnesses *)

Definition root_entry : entry := mk_entry (txt "root") (txt "toor") (txt "0") (txt "0") (txt "/").
Definition alice_entry : entry := mk_entry (txt "alice") (txt "wonder") (txt "1000") (txt "1000") (txt "/home/alice").
Definition sample : list entry := [root_entry; alice_entry].

Definition plainb (s : list Z) : bool := forallb (fun c => (0 <? c) && (c <? 256) && negb (c =? 58) && negb (c =? 10)) s.
Lemma plainb_spec s : plainb s = true -> plain s.
Proof.
  unfold plainb, plain. rewrite List.Forall_forall, forallb_forall. intros H x Hx. specialize (H x Hx).
  rewrite !andb_true_iff, !negb_true_iff, !Z.ltb_lt, !Z.eqb_neq in H. lia.
Qed.

Lemma sample_ok : file_ok sample.
Proof.
  split; [|by vm_compute]. unfold sample. apply Forall_cons; split; [|apply Forall_cons; split; [|done]]; split; by apply plainb_spec.
Qed.

Lemma login_correct_witness : login (Some (contents sample)) (txt "alice" ++ [10]) (txt "wonder" ++ [10]) = Some (Shell 1000 1000 (txt "/home/alice")).
Proof.
  rewrite (login_correct sample (txt "alice") (txt "wonder") sample_ok ltac:(by apply plain_str, plainb_spec) ltac:(done) ltac:(by apply plain_str, plainb_spec)).
  by vm_compute.
Defined.

Lemma sample_may : may_change sample 1000 None (txt "wonder") (txt "alice").
Proof. split; [exists alice_entry; by vm_compute|right; exists alice_entry; by vm_compute; auto]. Qed.

Lemma passwd_login_witness : exists out,
  passwd 1000 None (Some (contents sample)) (txt "wonder" ++ [10]) (txt "land" ++ [10]) (txt "land" ++ [10]) = Some (Some out) /\
  login (Some out) (txt "alice" ++ [10]) (txt "land" ++ [10]) = Some (Shell 1000 1000 (txt "/home/alice")).
Proof.
  destruct (passwd_login sample 1000 None (txt "wonder") (txt "alice") (txt "land") alice_entry sample_ok ltac:(repeat constructor) sample_may
    ltac:(by apply plain_str, plainb_spec) ltac:(by apply plainb_spec) ltac:(by vm_compute) ltac:(done) ltac:(by vm_compute) ltac:(by vm_compute)) as (out & E & El & _).
  exists out. split; [exact E|]. rewrite El. by vm_compute.
Defined.

Lemma useradd_correct_witness : exists e, useradd 0 (txt "bob") (Some (contents sample)) = Some (Some (1001, line_of e ++ [10])) /\ e_name e = txt "bob".
Proof.
  destruct (useradd_correct sample (txt "bob") sample_ok ltac:(by apply plainb_spec) ltac:(by apply (bool_decide_unpack _); vm_compute) ltac:(by vm_compute) ltac:(by vm_compute)) as (uid & e & E & _ & En & _).
  { intros e [->|[->|[]%elem_of_nil]%elem_of_cons]%elem_of_cons; by vm_compute. }
  exists e. split; [|exact En]. rewrite E. assert ((fun r => option_map fst r) <$> useradd 0 (txt "bob") (Some (contents sample)) = Some (Some 1001)) as H by by vm_compute.
  rewrite E in H. cbn in H. by injection H as ->.
Defined.

(** ** Defects *)

(** A new password with colons makes its owner root: the line gets new fields. *)
Example password_injection :
  match passwd 1000 None (Some (contents sample)) (txt "wonder" ++ [10]) (txt ":0:0:/" ++ [10]) (txt ":0:0:/" ++ [10]) with
  | Some (Some out) => login (Some out) (txt "alice" ++ [10]) [10]
  | _ => None
  end = Some (Shell 0 0 (txt "/:1000:1000:/home/alice")).
Proof. by vm_compute. Qed.

(** A file longer than the buffer loses its last accounts when any password is changed. *)
Definition many : list entry := replicate 60 (mk_entry (txt "user") (replicate 20 120) (txt "1000") (txt "1000") (txt "/home")) ++ [alice_entry].
Definition after_change (es : list entry) (target name : list Z) : option (option user) :=
  o ← passwd 0 (Some target) (Some (contents es)) [] (txt "new" ++ [10]) (txt "new" ++ [10]);
  match o with Some out => lookup_user name (Some out) | None => None end.
Example passwd_cuts_file : blen (contents many) = 2555 /\ after_change many (txt "user") (txt "alice") = Some None.
Proof. by vm_compute. Qed.

(** A line of 256 characters or more loses its end. *)
Definition wide : entry := mk_entry (txt "wide") [] (txt "7") (txt "7") (47 :: replicate 300 100).
Example passwd_joins_lines : after_change [wide; root_entry; alice_entry] (txt "alice") (txt "root") = Some None.
Proof. by vm_compute. Qed.

End Accounts.
