(* ===== verification/TextTools.v ===== *)
(** * The text programs

    Models [sort], [head], [tail], [grep] and [wc] ([user/bin/*.c]) on one input. The input is the list of what the
    calls of [read] return, so that the theorems hold for every way a file or a pipe arrives; the result is what the
    program writes. The programs open files through a function of their names, and print through the model of
    [printf]. All but [wc] collect a line in a buffer of 512 bytes and handle it at its end, or when the
    buffer is full. *)

From Stdlib Require Import Sorted.
From S2P Require Import Prelude Bytes CString Libc Stdio.
Import Libc.

Module TextTools.

Definition LINE : Z := 512.

(** ** Lines *)

Section feed.
Context {S : Type} (emit : list Z -> S -> S).

(** The body of the loop over the bytes: the state of the program and the line so far. *)
Definition feed (x : S * list Z) (c : Z) : S * list Z :=
  let '(s, line) := x in
  if (c =? 10) || (blen line =? LINE - 1) then (emit line s, []) else (s, line ++ [c]).

(** The loop over the input, and the last line without an end. *)
Definition feed_chunks (chunks : list (list Z)) (s : S) : S :=
  let '(s, line) := fold_left (fun x b => fold_left feed b x) chunks (s, []) in
  if 0 <? blen line then emit line s else s.
End feed.

(** [puts(line)] *)
(** [puts], which stops at a NUL. *)
Definition put_line (line : list Z) (out : list Z) : list Z := out ++ take (Z.to_nat (default 0 (strlen (line ++ [0])))) line ++ [10].

(** [printf]; what [s_obuf] holds before the call is not written. *)
Definition say (fmt : list Z) (ap : list Stdio.arg) (out : list Z) : option (list Z) :=
  match Stdio.vprintf (fmt ++ [0]) ap (Stdio.mk_stdio (zeros Stdio.OBUF_SZ) 0 out) with Ok (_, s) => Some (Stdio.written s) | Panic _ => None end.
Definition str_arg (f : list Z) : Stdio.arg := Stdio.Str (Some (f ++ [0])).

(** ** sort *)

Definition MAXLINES : Z := 512.

Definition store (line : list Z) (s_lines : list (list Z)) : list (list Z) :=
  if MAXLINES <=? Z.of_nat (length s_lines) then s_lines
  else s_lines ++ [take (Z.to_nat (if LINE <=? blen line then LINE - 1 else blen line)) line].
Definition read_lines (chunks : list (list Z)) (s_lines : list (list Z)) : list (list Z) := feed_chunks store chunks s_lines.

(** The inner loop, for [j] one less than the argument. *)
Fixpoint insert_loop (j : nat) (tmp : list Z) (a : list (list Z)) : option (list (list Z)) :=
  match j with
  | O => Some (<[0%nat := tmp]> a)
  | S j' =>
      v ← strcmp ((a !!! j') ++ [0]) (tmp ++ [0]);
      if 0 <? v then insert_loop j' tmp (<[j := a !!! j']> a) else Some (<[j := tmp]> a)
  end.
Fixpoint sort_loop (n i : nat) (a : list (list Z)) : option (list (list Z)) :=
  match n with
  | O => Some a
  | S n' => a ← insert_loop i (a !!! i) a; sort_loop n' (S i) a
  end.
Definition insertion_sort (a : list (list Z)) : option (list (list Z)) := sort_loop (length a - 1) 1 a.

Section sort_main.
Context (open : list Z -> option (list (list Z))).

Definition SORT_MISSING : list Z := txt "sort: %s: not found" ++ [10].
Fixpoint sort_files (files : list (list Z)) (a : list (list Z)) (out : list Z) : option (list (list Z) * list Z) :=
  match files with
  | [] => Some (a, out)
  | f :: files' =>
      match open f with
      | None => out ← say SORT_MISSING [str_arg f] out; sort_files files' a out
      | Some chunks => sort_files files' (read_lines chunks a) out
      end
  end.
(** The arguments behind the name of the program. *)
Definition sort_main (stdin : list (list Z)) (args : list (list Z)) : option (list Z) :=
  '(a, out) ← match args with [] => Some (read_lines stdin [], []) | _ => sort_files args [] [] end;
  a ← insertion_sort a;
  Some (fold_left (fun out l => put_line l out) a out).
End sort_main.

(** ** head *)

Record head_st := mk_head { printed : Z; h_line : list Z; h_out : list Z }.

Fixpoint head_chunk (n : Z) (bs : list Z) (s : head_st) : head_st :=
  match bs with
  | [] => s
  | c :: bs' =>
      if printed s <? n then
        head_chunk n bs'
          (if (c =? 10) || (blen (h_line s) =? LINE - 1) then mk_head (printed s + 1) [] (put_line (h_line s) (h_out s))
           else mk_head (printed s) (h_line s ++ [c]) (h_out s))
      else s
  end.
Fixpoint head_loop (n : Z) (chunks : list (list Z)) (s : head_st) : head_st :=
  match chunks with
  | [] => s
  | b :: chunks' => if printed s <? n then head_loop n chunks' (head_chunk n b s) else s
  end.
Definition head_fd (n : Z) (chunks : list (list Z)) : list Z :=
  let s := head_loop n chunks (mk_head 0 [] []) in
  if (0 <? blen (h_line s)) && (printed s <? n) then put_line (h_line s) (h_out s) else h_out s.

(** The number of lines, from the option [-n], and the files. *)
Definition n_option (args : list (list Z)) : option (Z * list (list Z)) :=
  match args with
  | (45 :: 110 :: t) :: files => '(v, _) ← strtol (t ++ [0]) 10; let n := s32 v in Some (if n <=? 0 then 10 else n, files)
  | _ => Some (10, args)
  end.

(** The loop over the files of [head] and of [tail]: a heading for each when there are several. *)
Section each_file.
Context (open : list Z -> option (list (list Z))) {S : Type} (missing : list Z) (body : list (list Z) -> S -> list Z * S).

Definition HEADING : list Z := txt "==> %s <==" ++ [10].
Fixpoint each_file (many : bool) (files : list (list Z)) (s : S) (out : list Z) : option (list Z * S) :=
  match files with
  | [] => Some (out, s)
  | f :: files' =>
      match open f with
      | None => out ← say missing [str_arg f] out; each_file many files' s out
      | Some chunks =>
          out ← if many then say HEADING [str_arg f] out else Some out;
          let '(t, s) := body chunks s in
          each_file many files' s (out ++ t)
      end
  end.
End each_file.

Definition HEAD_MISSING : list Z := txt "head: %s: not found" ++ [10].
Definition head_main (open : list Z -> option (list (list Z))) (stdin args : list (list Z)) : option (list Z) :=
  '(n, files) ← n_option args;
  match files with
  | [] => Some (head_fd n stdin)
  | _ => '(out, _) ← each_file open HEAD_MISSING (fun c u => (head_fd n c, u)) (1 <? Z.of_nat (length files)) files () []; Some out
  end.

(** ** tail *)

Definition TAIL_MAXLINES : Z := 1024.
Record tail_st := mk_tail { s_lines : list (list Z); s_head : Z; s_count : Z }.

Definition store_line (line : list Z) (s : tail_st) : tail_st :=
  let len := if LINE <=? blen line then LINE - 1 else blen line in
  let idx := (s_head s + s_count s) mod TAIL_MAXLINES in
  let a := aset (s_lines s) idx (take (Z.to_nat len) line) in
  if s_count s <? TAIL_MAXLINES then mk_tail a (s_head s) (s_count s + 1)
  else mk_tail a ((s_head s + 1) mod TAIL_MAXLINES) (s_count s).

(** [for (i = start; i < s_count; i++) puts(s_lines[(s_head + i) % MAXLINES]);] *)
Definition print_from (s : tail_st) (start : Z) : list Z :=
  fold_left (fun out i => put_line (aget [] (s_lines s) ((s_head s + i) mod TAIL_MAXLINES)) out) (seqZ start (s_count s - start)) [].
(** What is printed, and the static array of lines, which later files find as it is left. *)
Definition tail_fd (n : Z) (old : list (list Z)) (chunks : list (list Z)) : list Z * list (list Z) :=
  let s := feed_chunks store_line chunks (mk_tail old 0 0) in
  (print_from s (if n <? s_count s then s_count s - n else 0), s_lines s).

Definition TAIL_MISSING : list Z := txt "tail: %s: not found" ++ [10].
Definition tail_main (open : list Z -> option (list (list Z))) (stdin args : list (list Z)) : option (list Z) :=
  let old := replicate (Z.to_nat TAIL_MAXLINES) [] in
  '(n, files) ← n_option args;
  match files with
  | [] => Some (tail_fd n old stdin).1
  | _ => '(out, _) ← each_file open TAIL_MISSING (fun c old => tail_fd n old c) (1 <? Z.of_nat (length files)) files old []; Some out
  end.

(** ** grep *)

Definition matches (pattern line : list Z) : option bool :=
  r ← strstr (line ++ [0]) (pattern ++ [0]); Some (match r with Some _ => true | None => false end).

(** The number of matches and the output, or a fault. *)
Definition grep_line (pattern : list Z) (name : option (list Z)) (line : list Z) (s : option (Z * list Z)) : option (Z * list Z) :=
  '(matched, out) ← s;
  m ← matches pattern line;
  if (m : bool) then
    let out := match name with Some f => put_line f out ++ [58] | None => out end in
    Some (matched + 1, put_line line out)
  else Some (matched, out).
Definition grep_fd (pattern : list Z) (name : option (list Z)) (chunks : list (list Z)) (out : list Z) : option (Z * list Z) :=
  feed_chunks (grep_line pattern name) chunks (Some (0, out)).

Definition GREP_MISSING : list Z := txt "grep: %s: not found" ++ [10].
Fixpoint grep_files (open : list Z -> option (list (list Z))) (pattern : list Z) (show_name : bool) (files : list (list Z)) (matched : Z) (out : list Z) : option (Z * list Z) :=
  match files with
  | [] => Some (matched, out)
  | f :: files' =>
      match open f with
      | None => out ← say GREP_MISSING [str_arg f] out; grep_files open pattern show_name files' matched out
      | Some chunks =>
          '(m, out) ← grep_fd pattern (if show_name then Some f else None) chunks out;
          grep_files open pattern show_name files' (matched + m) out
      end
  end.
Definition GREP_USAGE : list Z := txt "usage: grep pattern [file...]".
(** The exit status and the output. *)
Definition grep_main (open : list Z -> option (list (list Z))) (stdin args : list (list Z)) : option (Z * list Z) :=
  match args with
  | [] => Some (1, put_line GREP_USAGE [])
  | pattern :: files =>
      '(matched, out) ← match files with [] => grep_fd pattern None stdin [] | _ => grep_files open pattern (1 <? Z.of_nat (length files)) files 0 [] end;
      Some (if 0 <? matched then 0 else 1, out)
  end.

(** ** wc *)

Record wc_st := mk_wc { lines : Z; words : Z; count : Z; inword : bool }.

Definition wc_byte (s : wc_st) (c : Z) : wc_st :=
  let lines := if c =? 10 then lines s + 1 else lines s in
  if (c =? 32) || (c =? 10) || (c =? 9) then mk_wc lines (words s) (count s) false
  else if inword s then mk_wc lines (words s) (count s) true
  else mk_wc lines (words s + 1) (count s) true.
Definition wc_chunk (s : wc_st) (b : list Z) : wc_st :=
  fold_left wc_byte b (mk_wc (lines s) (words s) (count s + blen b) (inword s)).
Definition wc (chunks : list (list Z)) : Z * Z * Z :=
  let s := fold_left wc_chunk chunks (mk_wc 0 0 0 false) in (lines s, words s, count s).

Definition WC_MISSING : list Z := txt "wc: %s: not found" ++ [10].
Definition WC_FMT : list Z := txt "%ld %ld %ld" ++ [10].
Definition wc_main (open : list Z -> option (list (list Z))) (stdin args : list (list Z)) : option (Z * list Z) :=
  match args with
  | f :: _ =>
      match open f with
      | None => out ← say WC_MISSING [str_arg f] []; Some (1, out)
      | Some chunks => let '(l, w, b) := wc chunks in out ← say WC_FMT (Stdio.Num <$> [l; w; b]) []; Some (0, out)
      end
  | [] => let '(l, w, b) := wc stdin in out ← say WC_FMT (Stdio.Num <$> [l; w; b]) []; Some (0, out)
  end.

(** ** Splitting into lines *)

(** A line the buffer holds. *)
Definition fits (l : list Z) : Prop := str l /\ (10 ∉ l) /\ blen l < LINE.

Definition unlines (ls : list (list Z)) : list Z := concat ((fun l => l ++ [10]) <$> ls).
(** The lines of a text whose last line may have no end. *)
Definition all_lines (ls : list (list Z)) (rest : list Z) : list (list Z) := ls ++ (if blen rest =? 0 then [] else [rest]).

Section feed_spec.
Context {S : Type} (emit : list Z -> S -> S).

Lemma feed_part l line s : 10 ∉ l -> blen (line ++ l) < LINE -> fold_left (feed emit) l (s, line) = (s, line ++ l).
Proof.
  revert line. induction l as [|c l IH]; intros line Hn Hl; cbn [fold_left]; [by rewrite app_nil_r|]. apply not_elem_of_cons in Hn as [Hc Hn].
  rewrite blen_app in Hl. assert (blen (c :: l) = blen l + 1) as El by (unfold blen; cbn [length]; lia). pose proof (blen_nonneg l). cbn [feed].
  rewrite (proj2 (Z.eqb_neq c 10)), (proj2 (Z.eqb_neq (blen line) _)) by (congruence || unfold LINE in *; lia). cbn [orb].
  rewrite IH; [by rewrite <- app_assoc|done|]. rewrite <- app_assoc. cbn [app]. rewrite blen_app. lia.
Qed.

Lemma feed_lines ls s : Forall fits ls -> fold_left (feed emit) (unlines ls) (s, []) = (fold_left (fun s l => emit l s) ls s, []).
Proof.
  revert s. induction ls as [|l ls IH]; intros s; [done|]. intros [(_ & Hn & Hl) Hls]%Forall_cons. unfold unlines. cbn [fmap list_fmap concat].
  rewrite !fold_left_app. rewrite feed_part by done. cbn [app fold_left feed Z.eqb Pos.eqb orb]. by apply IH.
Qed.

(** Only the bytes matter, and every line is handled once, in order. *)
Lemma feed_chunks_spec chunks ls rest s : concat chunks = unlines ls ++ rest -> Forall fits ls -> fits rest ->
  feed_chunks emit chunks s = fold_left (fun s l => emit l s) (all_lines ls rest) s.
Proof.
  intros E Hls (_ & Hn & Hl). unfold feed_chunks. assert (forall x, fold_left (fun x b => fold_left (feed emit) b x) chunks x = fold_left (feed emit) (concat chunks) x) as ->.
  { clear. induction chunks as [|b chunks IH]; intros x; [done|]. cbn [fold_left concat]. by rewrite fold_left_app. }
  rewrite E, fold_left_app, feed_lines by done. rewrite feed_part by done. cbn [app]. unfold all_lines. rewrite fold_left_app.
  pose proof (blen_nonneg rest). destruct (Z.eqb_spec (blen rest) 0) as [->|]; [done|]. by rewrite (proj2 (Z.ltb_lt 0 _)) by lia.
Qed.
End feed_spec.

Lemma put_line_str l out : str l -> put_line l out = out ++ l ++ [10].
Proof. intros Hl. unfold put_line. rewrite strlen_spec by done. change (default 0 (Some (blen l))) with (blen l). by rewrite take_ge by (unfold blen; lia). Qed.

Lemma put_lines ls out : Forall str ls -> fold_left (fun out l => put_line l out) ls out = out ++ unlines ls.
Proof.
  revert out. induction ls as [|l ls IH]; intros out; cbn [fold_left]; [by rewrite app_nil_r|]. intros [Hl HF]%Forall_cons. rewrite IH, put_line_str by done.
  unfold unlines. cbn. by rewrite <- !app_assoc.
Qed.

(** The input holds these lines. *)
Definition reads (chunks L : list (list Z)) : Prop := exists ls rest, concat chunks = unlines ls ++ rest /\ Forall fits ls /\ fits rest /\ L = all_lines ls rest.

Lemma say_spec fmt ap l out : Stdio.format (fmt ++ [0]) ap = Some l -> say fmt ap out = Some (out ++ l).
Proof. intros H. unfold say. by destruct (Stdio.vprintf_correct (fmt ++ [0]) ap (Stdio.mk_stdio (zeros Stdio.OBUF_SZ) 0 out) l H eq_refl) as (s' & -> & ->). Qed.


Lemma all_lines_fits ls rest : Forall fits ls -> fits rest -> Forall fits (all_lines ls rest).
Proof. intros H1 H2. apply Forall_app. split; [done|]. destruct (blen rest =? 0); [done|by apply Forall_singleton]. Qed.

Lemma fits_take l : fits l -> take (Z.to_nat (if LINE <=? blen l then LINE - 1 else blen l)) l = l.
Proof. intros (_ & _ & Hl). rewrite (proj2 (Z.leb_gt LINE _)) by done. apply take_ge. unfold blen. lia. Qed.

Lemma reads_str chunks L : reads chunks L -> Forall str L.
Proof. intros (ls & rest & _ & H1 & H2 & ->). eapply Forall_impl; [by apply all_lines_fits|]. by intros x []. Qed.

(** The messages. *)
Definition not_found (prog f : list Z) : list Z := prog ++ f ++ txt ": not found" ++ [10].
Definition heading (f : list Z) : list Z := txt "==> " ++ f ++ txt " <==" ++ [10].

Lemma say_name pre post f out : str f -> Forall (fun c => c <> 0 /\ c <> 37) pre -> Forall (fun c => c <> 0 /\ c <> 37) post ->
  say (pre ++ [37; 115] ++ post) [str_arg f] out = Some (out ++ pre ++ f ++ post).
Proof.
  intros Hf H1 H2. apply say_spec. unfold Stdio.format. rewrite <- !app_assoc. set (q := post ++ [0]).
  assert (forall n, (length q <= n)%nat -> Stdio.format_loop n q [] = Some post) as Hq.
  { subst q. clear H1. induction H2 as [|c l [Hc Hd] H2 IH]; intros [|n] Hn; cbn in Hn; try lia; cbn [app Stdio.format_loop]; [done|].
    rewrite (proj2 (Z.eqb_neq c 0)), (proj2 (Z.eqb_neq c 37)) by done. cbn [negb]. by rewrite IH by lia. }
  assert (forall n : nat, (length pre + (2 + length q) <= n)%nat -> Stdio.format_loop n (pre ++ 37 :: 115 :: q) [str_arg f] = Some (pre ++ f ++ post)) as H; [|apply H; rewrite !length_app; cbn; lia].
  clearbody q. induction H1 as [|c l [Hc Hd] H1 IH]; intros [|n] Hn; cbn in Hn; try lia.
  - cbn [app]. cbn [Stdio.format_loop Z.eqb Pos.eqb negb]. unfold Stdio.directive. cbn -[Stdio.text Stdio.format_loop].
    rewrite Stdio.text_puts by done. cbn [mbind option_bind]. by rewrite Hq by lia.
  - cbn [app Stdio.format_loop]. rewrite (proj2 (Z.eqb_neq c 0)), (proj2 (Z.eqb_neq c 37)) by done. cbn [negb]. cbn [app] in IH. by rewrite IH by lia.
Qed.

Lemma say_missing prog f out : str f -> Forall (fun c => c <> 0 /\ c <> 37) prog ->
  say (prog ++ txt "%s: not found" ++ [10]) [str_arg f] out = Some (out ++ not_found prog f).
Proof. intros Hf Hp. apply (say_name prog (txt ": not found" ++ [10])); [done|done|]. by repeat constructor. Qed.
Lemma say_heading f out : str f -> say HEADING [str_arg f] out = Some (out ++ heading f).
Proof. intros Hf. apply (say_name (txt "==> ") (txt " <==" ++ [10])); [done| |]; by repeat constructor. Qed.

(** ** The order of lines *)

Definition le_str (a b : list Z) : Prop := exists v, strcmp (a ++ [0]) (b ++ [0]) = Some v /\ v <= 0.

Lemma strcmp_flip a b : str a -> str b -> exists v, strcmp (a ++ [0]) (b ++ [0]) = Some v /\ strcmp (b ++ [0]) (a ++ [0]) = Some (- v).
Proof.
  revert b. induction a as [|x a IH]; intros [|y b] Ha Hb; cbn [app strcmp].
  - by exists 0.
  - apply str_cons in Hb as [Hy _]. rewrite (proj2 (Z.eqb_neq y 0)) by lia. cbn. exists (0 - y). split; [done|]. f_equal. lia.
  - apply str_cons in Ha as [Hx _]. rewrite (proj2 (Z.eqb_neq x 0)) by lia. cbn. exists (x - 0). split; [done|]. f_equal. lia.
  - apply str_cons in Ha as [Hx Ha], Hb as [Hy Hb]. rewrite !(proj2 (Z.eqb_neq _ 0)) by lia. cbn [negb andb]. rewrite (Z.eqb_sym y x).
    destruct (Z.eqb_spec x y); [by apply IH|]. exists (x - y). split; [done|]. f_equal. lia.
Qed.

Lemma le_str_nil b : str b -> le_str [] b.
Proof. destruct b as [|y b]; [by exists 0|]. intros [Hy _]%str_cons. exists (0 - y). split; [done|lia]. Qed.

Lemma le_str_cons x a y b : 0 < x -> 0 < y -> le_str (x :: a) (y :: b) <-> x < y \/ (x = y /\ le_str a b).
Proof.
  intros Hx Hy. unfold le_str. cbn [app strcmp]. rewrite (proj2 (Z.eqb_neq x 0)) by lia. cbn [negb andb]. destruct (Z.eqb_spec x y) as [->|Hne].
  - split; [by right|]. intros [?|[_ ?]]; [lia|done].
  - split; [intros (v & [= <-] & ?); left; lia|]. intros [?|[? _]]; [|done]. exists (x - y). split; [done|lia].
Qed.

Lemma le_str_trans a b c : str a -> str b -> str c -> le_str a b -> le_str b c -> le_str a c.
Proof.
  revert b c. induction a as [|x a IH]; intros b c Ha Hb Hc H1 H2; [by apply le_str_nil|]. apply str_cons in Ha as [Hx Ha].
  destruct b as [|y b]; [destruct H1 as (v & E & ?); cbn [app strcmp] in E; rewrite (proj2 (Z.eqb_neq x 0)) in E by lia; simplify_eq/=; lia|].
  apply str_cons in Hb as [Hy Hb].
  destruct c as [|z c]; [destruct H2 as (v & E & ?); cbn [app strcmp] in E; rewrite (proj2 (Z.eqb_neq y 0)) in E by lia; simplify_eq/=; lia|].
  apply str_cons in Hc as [Hz Hc]. rewrite le_str_cons in * by lia. destruct H1 as [?|[-> H1]], H2 as [?|[-> H2]]; try (left; lia).
  right. split; [done|]. by apply (IH b c).
Qed.

Lemma compare_line a b : str a -> str b -> exists v, strcmp (a ++ [0]) (b ++ [0]) = Some v /\ (if 0 <? v then le_str b a else le_str a b).
Proof.
  intros Ha Hb. destruct (strcmp_flip a b Ha Hb) as (v & E1 & E2). exists v. split; [done|]. destruct (Z.ltb_spec 0 v).
  - exists (- v). split; [done|lia].
  - exists v. split; [done|lia].
Qed.

(** ** [sort] *)

Lemma StronglySorted_snoc l x : StronglySorted le_str (l ++ [x]) <-> StronglySorted le_str l /\ Forall (fun y => le_str y x) l.
Proof.
  induction l as [|y l IH]; cbn [app].
  - split; intros _; [split; constructor|repeat constructor].
  - split.
    + intros [H1 H2]%StronglySorted_inv. apply IH in H1 as [H1 H3]. apply Forall_app in H2 as [H2 [H4 _]%Forall_cons]. split; by constructor.
    + intros [[H1 H2]%StronglySorted_inv [H3 H4]%Forall_cons]. constructor; [by apply IH|]. apply Forall_app. split; [done|]. by constructor.
Qed.

(** One round of the inner loop: [tmp] goes into the sorted part [P], over the slot behind it. *)
Lemma insert_loop_spec P y Q tmp : Forall str P -> str tmp -> StronglySorted le_str P ->
  exists R, insert_loop (length P) tmp (P ++ y :: Q) = Some (R ++ Q) /\ R ≡ₚ tmp :: P /\ StronglySorted le_str R.
Proof.
  revert y Q. induction P as [|z P IH] using rev_ind; intros y Q HP Ht HS.
  - exists [tmp]. cbn. split; [done|]. split; [done|]. repeat constructor.
  - apply Forall_app in HP as [HP [Hz _]%Forall_cons]. rewrite length_app. cbn [length]. rewrite Nat.add_1_r. cbn [insert_loop].
    rewrite <- app_assoc. cbn [app]. rewrite list_lookup_total_middle by done. destruct (compare_line z tmp Hz Ht) as (v & -> & Hv). cbn [mbind option_bind].
    assert (forall x, <[S (length P) := x]> (P ++ z :: y :: Q) = P ++ z :: x :: Q) as Hins.
    { intros x. rewrite (insert_app_r_alt P) by lia. by replace (S (length P) - length P)%nat with 1%nat by lia. }
    apply StronglySorted_snoc in HS as [HS Hz']. destruct (0 <? v); rewrite Hins.
    + destruct (IH z (z :: Q) HP Ht HS) as (R & -> & HR & HSR). exists (R ++ [z]). split; [by rewrite <- app_assoc|]. split.
      * rewrite HR. cbn [app]. by rewrite (Permutation_app_comm P [z]).
      * apply StronglySorted_snoc. split; [done|]. rewrite HR. by constructor.
    + exists (P ++ [z; tmp]). split; [by rewrite <- app_assoc|]. split.
      * rewrite (Permutation_app_comm P [z; tmp]), (Permutation_app_comm P [z]). cbn [app]. apply perm_swap.
      * change [z; tmp] with ([z] ++ [tmp]). rewrite app_assoc. apply StronglySorted_snoc. split; [by apply StronglySorted_snoc|].
        apply Forall_app. split; [|by repeat constructor]. rewrite List.Forall_forall in *. intros x Hx.
        eapply (le_str_trans x z tmp); auto.
Qed.

Lemma sort_loop_spec Q P : Forall str (P ++ Q) -> StronglySorted le_str P ->
  exists R, sort_loop (length Q) (length P) (P ++ Q) = Some R /\ R ≡ₚ P ++ Q /\ StronglySorted le_str R.
Proof.
  revert P. induction Q as [|x Q IH]; intros P HF HS; cbn [length sort_loop].
  - exists P. by rewrite app_nil_r.
  - rewrite list_lookup_total_middle by done. apply Forall_app in HF as [HP [Hx HQ]%Forall_cons].
    destruct (insert_loop_spec P x Q x HP Hx HS) as (R & -> & HR & HSR). cbn [mbind option_bind].
    assert (S (length P) = length R) as -> by (apply Permutation_length in HR; done).
    destruct (IH R) as (R' & -> & HR' & HSR'); [apply Forall_app; split; [rewrite HR; by constructor|done]|done|].
    exists R'. split; [done|]. split; [|done]. rewrite HR', HR. apply Permutation_middle.
Qed.

Lemma insertion_sort_spec a : Forall str a -> exists r, insertion_sort a = Some r /\ r ≡ₚ a /\ StronglySorted le_str r.
Proof.
  intros HF. unfold insertion_sort. destruct a as [|x a]; [exists []; split; [done|]; split; [done|constructor]|]. change (length (x :: a) - 1)%nat with (length a - 0)%nat. rewrite Nat.sub_0_r.
  by apply (sort_loop_spec a [x]); [|repeat constructor].
Qed.

Lemma store_all ls a : Forall fits ls -> Z.of_nat (length a + length ls) <= MAXLINES -> fold_left (fun s l => store l s) ls a = a ++ ls.
Proof.
  revert a. induction ls as [|l ls IH]; intros a HF Hn; cbn [fold_left length] in *; [by rewrite app_nil_r|]. apply Forall_cons in HF as [Hl HF].
  unfold store at 2. rewrite (proj2 (Z.leb_gt MAXLINES _)) by lia. rewrite fits_take by done. rewrite IH; [by rewrite <- app_assoc|done|]. rewrite length_app. cbn [length]. lia.
Qed.

Section sort_files.
Context (open : list Z -> option (list (list Z))).

(** The inputs that can be read, and the names of those that cannot. *)
Definition inputs (stdin args : list (list Z)) : list (list (list Z)) := match args with [] => [stdin] | _ => omap open args end.
Definition missing (args : list (list Z)) : list (list Z) := List.filter (fun f => bool_decide (open f = None)) args.

Lemma read_lines_spec chunks L a : reads chunks L -> Z.of_nat (length a) + Z.of_nat (length L) <= MAXLINES -> read_lines chunks a = a ++ L.
Proof.
  intros (ls & rest & E & Hls & Hr & ->) Hn. unfold read_lines. rewrite (feed_chunks_spec _ _ _ _ _ E Hls Hr). apply store_all; [by apply all_lines_fits|lia].
Qed.

Lemma sort_files_spec files Ls a out : Forall str files -> Forall2 reads (omap open files) Ls -> Z.of_nat (length a) + Z.of_nat (length (concat Ls)) <= MAXLINES ->
  sort_files open files a out = Some (a ++ concat Ls, out ++ concat (not_found (txt "sort: ") <$> missing files)).
Proof.
  revert Ls a out. induction files as [|f files IH]; intros Ls a out HF HL Hn; cbn [sort_files].
  - cbn in HL. apply Forall2_nil_inv_l in HL as ->. cbn. by rewrite !app_nil_r.
  - apply Forall_cons in HF as [Hf HF]. cbn [omap list_omap] in HL. unfold missing. cbn [List.filter]. destruct (open f) as [chunks|] eqn:E.
    + apply Forall2_cons_inv_l in HL as (L & Ls' & HL1 & HL2 & ->). cbn [concat] in *. rewrite length_app in Hn.
      rewrite (read_lines_spec _ L) by (done || lia). rewrite (IH Ls'); [|done|done|rewrite length_app; lia]. by rewrite <- app_assoc.
    + rewrite (say_missing (txt "sort: ")) by (done || by repeat constructor). cbn [mbind option_bind]. rewrite (IH Ls) by done. rewrite bool_decide_true by done.
      cbn [fmap list_fmap concat]. by rewrite <- app_assoc.
Qed.

(** [sort] sorts. On standard input or any number of files, at most 512 lines in all of at most 511 characters
    each, however the input arrives, it reports the files it cannot open and prints the lines of the others, each as
    often as it was there, in the order of [strcmp]. *)
Theorem sort_correct stdin args Ls : Forall str args -> Forall2 reads (inputs stdin args) Ls -> Z.of_nat (length (concat Ls)) <= MAXLINES ->
  exists r, sort_main open stdin args = Some (concat (not_found (txt "sort: ") <$> missing args) ++ unlines r) /\ r ≡ₚ concat Ls /\ StronglySorted le_str r.
Proof.
  intros Ha HL Hn. assert (Forall str (concat Ls)) as HS.
  { clear Hn. induction HL as [|c L cs Ls HcL HL IH]; [constructor|]. cbn. apply Forall_app. split; [|done]. by apply (reads_str c). }
  assert (match args with [] => Some (read_lines stdin [], []) | _ => sort_files open args [] [] end = Some (concat Ls, concat (not_found (txt "sort: ") <$> missing args))) as Hread.
  { destruct args as [|f args]; [|by rewrite (sort_files_spec _ Ls)]. cbn [inputs] in HL. apply Forall2_cons_inv_l in HL as (L & ? & HL1 & ->%Forall2_nil_inv_l & ->).
    cbn [concat] in *. rewrite app_nil_r in *. by rewrite (read_lines_spec _ L). }
  unfold sort_main. rewrite Hread. cbn [mbind option_bind]. destruct (insertion_sort_spec (concat Ls) HS) as (r & Er & HP & HT).
  rewrite Er. cbn [mbind option_bind]. exists r. by rewrite put_lines by (by rewrite HP).
Qed.
End sort_files.

(** ** [head] *)

Lemma head_chunk_stop n bs s : n <= printed s -> head_chunk n bs s = s.
Proof. intros H. destruct bs; [done|]. cbn [head_chunk]. by rewrite (proj2 (Z.ltb_ge _ n)). Qed.

Lemma head_chunk_app n a b s : head_chunk n (a ++ b) s = head_chunk n b (head_chunk n a s).
Proof.
  revert s. induction a as [|c a IH]; intros s; cbn [app head_chunk]; [done|]. destruct (Z.ltb_spec (printed s) n); [apply IH|by rewrite head_chunk_stop].
Qed.

Lemma head_loop_concat n chunks s : head_loop n chunks s = head_chunk n (concat chunks) s.
Proof.
  revert s. induction chunks as [|b chunks IH]; intros s; cbn [head_loop concat]; [done|]. rewrite head_chunk_app. destruct (Z.ltb_spec (printed s) n); [apply IH|].
  by rewrite (head_chunk_stop n b), head_chunk_stop.
Qed.

Lemma head_part n l k line out : k < n -> 10 ∉ l -> blen (line ++ l) < LINE -> head_chunk n l (mk_head k line out) = mk_head k (line ++ l) out.
Proof.
  intros Hk. revert line. induction l as [|c l IH]; intros line Hn Hl; cbn [head_chunk]; [by rewrite app_nil_r|]. apply not_elem_of_cons in Hn as [Hc Hn].
  rewrite blen_app in Hl. assert (blen (c :: l) = blen l + 1) as El by (unfold blen; cbn [length]; lia). pose proof (blen_nonneg l). cbn [printed h_line h_out].
  rewrite (proj2 (Z.ltb_lt k n)) by done.
  rewrite (proj2 (Z.eqb_neq c 10)), (proj2 (Z.eqb_neq (blen line) _)) by (congruence || unfold LINE in *; lia). cbn [orb].
  rewrite IH; [by rewrite <- app_assoc|done|]. rewrite <- app_assoc. cbn [app]. rewrite blen_app. lia.
Qed.

Lemma head_lines n ls k out : Forall fits ls -> 0 <= k <= n ->
  head_chunk n (unlines ls) (mk_head k [] out) = mk_head (k + Z.min (Z.of_nat (length ls)) (n - k)) [] (out ++ unlines (take (Z.to_nat (n - k)) ls)).
Proof.
  revert k out. induction ls as [|l ls IH]; intros k out HF Hk.
  - cbn. rewrite take_nil, app_nil_r. f_equal. lia.
  - apply Forall_cons in HF as [(Hs & Hn & Hl) HF]. destruct (Z.eq_dec k n) as [->|Hne].
    { rewrite head_chunk_stop by (cbn; lia). rewrite Z.sub_diag. cbn [Z.to_nat take unlines fmap list_fmap concat]. rewrite app_nil_r. f_equal. lia. }
    unfold unlines at 1. cbn [fmap list_fmap concat]. rewrite !head_chunk_app, head_part by (done || lia). cbn [head_chunk printed h_line h_out app].
    rewrite (proj2 (Z.ltb_lt k n)) by lia. cbn [Z.eqb Pos.eqb orb]. fold (unlines ls). rewrite IH by (done || lia).
    replace (Z.to_nat (n - k)) with (S (Z.to_nat (n - (k + 1)))) by lia. cbn [take length]. f_equal; [lia|].
    rewrite put_line_str by done. unfold unlines. cbn [fmap list_fmap concat]. by rewrite <- !app_assoc.
Qed.

(** [head] prints the first [n] lines. *)
Theorem head_correct n chunks ls rest : 0 < n -> concat chunks = unlines ls ++ rest -> Forall fits ls -> fits rest ->
  head_fd n chunks = unlines (take (Z.to_nat n) (all_lines ls rest)).
Proof.
  intros Hn E Hls (Hs & Hr & Hl). unfold head_fd. rewrite head_loop_concat, E, head_chunk_app, head_lines by (done || lia). cbn [app]. rewrite Z.sub_0_r, Z.add_0_l.
  unfold all_lines. rewrite take_app. set (k := Z.min _ n). assert (unlines (take (Z.to_nat n) ls) ++ unlines (take (Z.to_nat n - length ls) (if blen rest =? 0 then [] else [rest])) =
    unlines (take (Z.to_nat n) ls ++ take (Z.to_nat n - length ls) (if blen rest =? 0 then [] else [rest]))) as <- by (unfold unlines; by rewrite fmap_app, concat_app).
  pose proof (blen_nonneg rest). destruct (Z.ltb_spec k n) as [Hlt|Hge].
  - rewrite head_part by done. cbn [h_line printed h_out app]. rewrite (proj2 (Z.ltb_lt k n)) by done. rewrite andb_true_r.
    destruct (Z.ltb_spec 0 (blen rest)) as [H0|H0].
    + rewrite (proj2 (Z.eqb_neq (blen rest) 0)) by lia. rewrite (take_ge [rest]) by (cbn; lia). rewrite put_line_str by done. unfold unlines. cbn. by rewrite app_nil_r.
    + assert (blen rest = 0) as -> by lia. cbn [Z.eqb]. rewrite take_nil. cbn. by rewrite app_nil_r.
  - rewrite head_chunk_stop by (cbn; lia). cbn [h_line printed h_out]. replace (Z.to_nat n - length ls)%nat with 0%nat by lia. cbn. by rewrite app_nil_r.
Qed.

Lemma n_option_pos args n files : n_option args = Some (n, files) -> 0 < n.
Proof.
  intros E. unfold n_option in E. repeat (case_match; simplify_eq/=; try lia).
  destruct (strtol (l ++ [0]) 10) as [[v x]|]; simplify_eq/=. destruct (Z.leb_spec (s32 v) 0); lia.
Qed.

(** What the loop over the files prints, when [pick] is what is shown of the lines of one. *)
Section shown.
Context (open : list Z -> option (list (list Z))) (prog : list Z) (pick : list (list Z) -> list (list Z)).

Fixpoint sections (many : bool) (files : list (list Z)) (Ls : list (list (list Z))) : list Z :=
  match files with
  | [] => []
  | f :: files' =>
      match open f, Ls with
      | Some _, L :: Ls' => (if many then heading f else []) ++ unlines (pick L) ++ sections many files' Ls'
      | _, _ => not_found prog f ++ sections many files' Ls
      end
  end.
Definition shown (files : list (list Z)) (Ls : list (list (list Z))) : list Z :=
  match files with [] => unlines (pick (concat Ls)) | _ => sections (1 <? Z.of_nat (length files)) files Ls end.

Lemma each_file_spec {S} body (P : S -> Prop) many files Ls s out : P s -> Forall str files -> Forall (fun c => c <> 0 /\ c <> 37) prog ->
  Forall2 reads (omap open files) Ls -> (forall c L s, P s -> reads c L -> (body c s).1 = unlines (pick L) /\ P (body c s).2) ->
  exists s', each_file open (prog ++ txt "%s: not found" ++ [10]) body many files s out = Some (out ++ sections many files Ls, s').
Proof.
  intros Hs HF Hp HL Hb. revert Ls s out Hs HL. induction files as [|f files IH]; intros Ls s out Hs HL; cbn [each_file sections].
  - exists s. by rewrite app_nil_r.
  - apply Forall_cons in HF as [Hf HF]. cbn [omap list_omap] in HL. destruct (open f) as [c|] eqn:E.
    + apply Forall2_cons_inv_l in HL as (L & Ls' & HL1 & HL2 & ->). destruct (Hb c L s Hs HL1) as [Eb Hs'].
      assert ((if many then say HEADING [str_arg f] out else Some out) = Some (out ++ if many then heading f else [])) as -> by (destruct many; [by apply say_heading|by rewrite app_nil_r]).
      cbn [mbind option_bind]. destruct (body c s) as [t s1]. cbn [fst snd] in *. subst t. destruct (IH HF Ls' s1 ((out ++ (if many then heading f else [])) ++ unlines (pick L)) Hs' HL2) as (s' & ->).
      exists s'. by rewrite <- !app_assoc.
    + rewrite say_missing by done. cbn [mbind option_bind]. destruct (IH HF Ls s (out ++ not_found prog f) Hs HL) as (s' & ->). exists s'. by rewrite <- !app_assoc.
Qed.
End shown.

(** [head] prints the first lines: of each file it can open, under its name when there are several. *)
Theorem head_main_correct open stdin args n files Ls : n_option args = Some (n, files) -> Forall str files ->
  Forall2 reads (inputs open stdin files) Ls ->
  head_main open stdin args = Some (shown open (txt "head: ") (take (Z.to_nat n)) files Ls).
Proof.
  intros Ea HF HL. pose proof (n_option_pos _ _ _ Ea) as Hp. unfold head_main. rewrite Ea. cbn [mbind option_bind]. destruct files as [|f files].
  - cbn [inputs] in HL. apply Forall2_cons_inv_l in HL as (L & ? & (ls & rest & E & Hls & Hr & ->) & ->%Forall2_nil_inv_l & ->). cbn [shown concat].
    by rewrite (head_correct _ _ ls rest), app_nil_r.
  - destruct (each_file_spec open (txt "head: ") (take (Z.to_nat n)) (fun c (u : unit) => (head_fd n c, u)) (fun _ => True)
      (1 <? Z.of_nat (length (f :: files))) (f :: files) Ls tt []) as (s' & E); [done|done|by repeat constructor|done| |].
    + intros c L u _ (ls & rest & E & Hls & Hr & ->). split; [|done]. by apply head_correct.
    + change HEAD_MISSING with (txt "head: " ++ txt "%s: not found" ++ [10]). by rewrite E.
Qed.

(** ** [tail] *)

(** The lines in the ring, the oldest first. *)
Definition view (s : tail_st) : list (list Z) := (fun i => aget [] (s_lines s) ((s_head s + i) mod TAIL_MAXLINES)) <$> seqZ 0 (s_count s).

Record ring_ok (s : tail_st) : Prop := {
  ri_size : Z.of_nat (length (s_lines s)) = TAIL_MAXLINES;
  ri_head : 0 <= s_head s < TAIL_MAXLINES;
  ri_count : 0 <= s_count s <= TAIL_MAXLINES;
}.

(** The last [n] elements of a list. *)
Definition last_n {A} (n : Z) (l : list A) : list A := drop (length l - Z.to_nat n) l.

Lemma seqZ_first {A} (f : Z -> A) n : 0 < n -> f <$> seqZ 0 n = f 0 :: ((fun i => f (1 + i)) <$> seqZ 0 (n - 1)).
Proof.
  intros Hn. rewrite seqZ_cons by done. rewrite fmap_cons. f_equal. change (Z.succ 0) with (1 + 0). rewrite <- (fmap_add_seqZ 1 0), <- list_fmap_compose. done.
Qed.
Lemma seqZ_last {A} (f : Z -> A) n : 0 < n -> f <$> seqZ 0 n = (f <$> seqZ 0 (n - 1)) ++ [f (n - 1)].
Proof. intros Hn. replace n with ((n - 1) + 1) at 1 by lia. by rewrite seqZ_app, fmap_app by lia. Qed.

Lemma store_line_spec l s : fits l -> ring_ok s -> ring_ok (store_line l s) /\ view (store_line l s) = last_n TAIL_MAXLINES (view s ++ [l]).
Proof.
  intros Hl [H1 H2 H3]. unfold store_line. rewrite fits_take by done. set (idx := (s_head s + s_count s) mod TAIL_MAXLINES).
  assert (0 <= idx < TAIL_MAXLINES) as Hi by (unfold idx, TAIL_MAXLINES in *; lia). assert (length (view s) = Z.to_nat (s_count s)) as Hv by (unfold view; by rewrite length_fmap, length_seqZ).
  assert (forall i, 0 <= i < s_count s -> i <> s_count s - TAIL_MAXLINES -> aget [] (aset (s_lines s) idx l) ((s_head s + i) mod TAIL_MAXLINES) = aget [] (s_lines s) ((s_head s + i) mod TAIL_MAXLINES)) as Hold.
  { intros i Hii Hne. apply aget_aset_ne; unfold idx, TAIL_MAXLINES in *; lia. }
  assert (forall j, (s_head s + s_count s) mod TAIL_MAXLINES = j -> aget [] (aset (s_lines s) idx l) j = l) as Hnew by (intros j <-; apply aget_aset_eq; lia).
  destruct (Z.ltb_spec (s_count s) TAIL_MAXLINES).
  - split; [split; cbn; rewrite ?aset_length; lia|]. unfold last_n. rewrite length_app, Hv. cbn [length].
    replace (Z.to_nat (s_count s) + 1 - Z.to_nat TAIL_MAXLINES)%nat with 0%nat by lia. rewrite drop_0. unfold view. cbn [s_lines s_head s_count].
    rewrite seqZ_app, fmap_app by lia. f_equal.
    + apply list_fmap_ext. intros k x Hx. apply lookup_seqZ in Hx. apply Hold; lia.
    + rewrite Z.add_0_l. rewrite (seqZ_cons (s_count s)), seqZ_nil by lia. cbn. f_equal. by apply Hnew.
  - assert (s_count s = TAIL_MAXLINES) as Ec by lia. split; [split; cbn; rewrite ?aset_length; unfold TAIL_MAXLINES in *; lia|].
    unfold last_n. rewrite length_app, Hv. cbn [length]. replace (Z.to_nat (s_count s) + 1 - Z.to_nat TAIL_MAXLINES)%nat with 1%nat by lia.
    unfold view. cbn [s_lines s_head s_count]. rewrite Ec in *. rewrite (seqZ_first (fun i => aget [] (s_lines s) ((s_head s + i) mod TAIL_MAXLINES))) by done. cbn [app].
    rewrite (seqZ_last (fun i => aget [] (aset (s_lines s) idx l) (((s_head s + 1) mod TAIL_MAXLINES + i) mod TAIL_MAXLINES))) by done. cbn [drop]. rewrite drop_0. f_equal.
    + apply list_fmap_ext. intros k x Hx. apply lookup_seqZ in Hx.
      rewrite <- (Hold (1 + x)) by (unfold TAIL_MAXLINES in *; lia). f_equal. unfold TAIL_MAXLINES in *. lia.
    + f_equal. apply Hnew. unfold TAIL_MAXLINES in *. lia.
Qed.

Lemma last_n_app {A} n (a b : list A) : 0 <= n -> last_n n (last_n n a ++ b) = last_n n (a ++ b).
Proof.
  intros Hn. unfold last_n. set (k := (length a - Z.to_nat n)%nat). transitivity (drop (length (a ++ b) - Z.to_nat n) (take k a ++ drop k a ++ b)).
  - rewrite (drop_app_ge (take k a)) by (rewrite length_take, length_app; lia). f_equal. rewrite !length_app, length_take, length_drop. lia.
  - by rewrite app_assoc, take_drop.
Qed.

Lemma store_lines ls s : Forall fits ls -> ring_ok s -> let s' := fold_left (fun s l => store_line l s) ls s in
  ring_ok s' /\ view s' = last_n TAIL_MAXLINES (view s ++ ls).
Proof.
  revert s. induction ls as [|l ls IH]; intros s HF Hs; cbn [fold_left].
  - split; [done|]. rewrite app_nil_r. unfold last_n. replace (length (view s) - Z.to_nat TAIL_MAXLINES)%nat with 0%nat; [done|].
    unfold view. rewrite length_fmap, length_seqZ. destruct Hs. lia.
  - apply Forall_cons in HF as [Hl HF]. destruct (store_line_spec l s Hl Hs) as [Hs1 Ev]. destruct (IH _ HF Hs1) as [Hs2 Ev2]. split; [done|].
    rewrite Ev2, Ev, last_n_app by done. by rewrite <- app_assoc.
Qed.

Lemma fold_fmap {A} (h : A -> list Z) l out : fold_left (fun out i => put_line (h i) out) l out = fold_left (fun out l => put_line l out) (h <$> l) out.
Proof. revert out. induction l as [|i l IH]; intros out; cbn; [done|apply IH]. Qed.

Lemma print_from_spec s start : 0 <= start <= s_count s -> Forall str (view s) -> print_from s start = unlines (drop (Z.to_nat start) (view s)).
Proof.
  intros Hs HF. unfold print_from, view in *. rewrite <- fmap_drop. replace (seqZ 0 (s_count s)) with (seqZ 0 start ++ seqZ start (s_count s - start)) in *.
  - rewrite fmap_app in HF. apply Forall_app in HF as [_ HF]. rewrite drop_app_length' by (rewrite length_seqZ; lia). set (l := seqZ start _) in *. clearbody l.
    rewrite <- (app_nil_l (unlines _)), <- put_lines by done. clear HF.
    apply (fold_fmap (fun i => aget [] (s_lines s) ((s_head s + i) mod TAIL_MAXLINES))).
  - rewrite <- (Z.add_0_l start) at 2. rewrite <- seqZ_app by lia. f_equal. lia.
Qed.

Lemma tail_fd_spec n old chunks L : 0 < n <= TAIL_MAXLINES -> Z.of_nat (length old) = TAIL_MAXLINES -> reads chunks L ->
  (tail_fd n old chunks).1 = unlines (last_n n L) /\ Z.of_nat (length (tail_fd n old chunks).2) = TAIL_MAXLINES.
Proof.
  intros Hn Ho HL. pose proof (reads_str _ _ HL) as HS. destruct HL as (ls & rest & E & Hls & Hr & ->). unfold tail_fd. rewrite (feed_chunks_spec _ _ _ _ _ E Hls Hr).
  destruct (store_lines (all_lines ls rest) (mk_tail old 0 0) (all_lines_fits _ _ Hls Hr)) as [[H1 H2 H3] Ev]; [by split|].
  set (s := fold_left _ _ _) in *. change (view (mk_tail old 0 0)) with ([] : list (list Z)) in Ev. cbn [app] in Ev. cbn [fst snd]. split; [|done].
  rewrite print_from_spec; [|destruct (Z.ltb_spec n (s_count s)); lia|rewrite Ev; by apply Forall_drop]. rewrite Ev.
  assert (Z.of_nat (length (view s)) = s_count s) as Hc by (unfold view; rewrite length_fmap, length_seqZ; lia). rewrite Ev in Hc.
  unfold last_n in *. rewrite length_drop in Hc. rewrite drop_drop. do 2 f_equal. unfold TAIL_MAXLINES in *. destruct (Z.ltb_spec n (s_count s)); lia.
Qed.

(** [tail] prints the last lines. For at most 1024 of them, of at most 511 characters, however the input arrives
    and however long it is, it prints for each file it can open the last [n] lines, all of them when there are fewer,
    under the name of the file when there are several, and reports the others. *)
Theorem tail_correct open stdin args n files Ls : n_option args = Some (n, files) -> n <= TAIL_MAXLINES -> Forall str files ->
  Forall2 reads (inputs open stdin files) Ls ->
  tail_main open stdin args = Some (shown open (txt "tail: ") (last_n n) files Ls).
Proof.
  intros Ea Hn HF HL. pose proof (n_option_pos _ _ _ Ea) as Hp. unfold tail_main. rewrite Ea. cbn [mbind option_bind]. destruct files as [|f files].
  - cbn [inputs] in HL. apply Forall2_cons_inv_l in HL as (L & ? & HL1 & ->%Forall2_nil_inv_l & ->). cbn [shown concat]. rewrite app_nil_r. f_equal. by apply tail_fd_spec.
  - destruct (each_file_spec open (txt "tail: ") (last_n n) (fun c old => tail_fd n old c) (fun old => Z.of_nat (length old) = TAIL_MAXLINES)
      (1 <? Z.of_nat (length (f :: files))) (f :: files) Ls (replicate (Z.to_nat TAIL_MAXLINES) []) []) as (s' & E); [done|done|by repeat constructor|done| |].
    + intros c L old Ho HcL. by apply tail_fd_spec.
    + change TAIL_MISSING with (txt "tail: " ++ txt "%s: not found" ++ [10]). by rewrite E.
Qed.

(** ** [grep] *)

Lemma matches_spec p l : str p -> str l -> exists b, matches p l = Some b /\ (b = true <-> exists pre post, l = pre ++ p ++ post).
Proof.
  intros Hp Hl. unfold matches. pose proof (strstr_spec l p [] [] Hl Hp) as H. destruct (strstr (l ++ [0]) (p ++ [0])) as [[k|]|]; [| |done]; cbn [mbind option_bind].
  - exists true. split; [done|]. destruct H as (pre & post & E & _). split; [by exists pre, post|done].
  - exists false. split; [done|]. split; [done|]. intros (pre & post & E). by destruct (H pre post).
Qed.

Definition matchesb (p l : list Z) : bool := default false (matches p l).

Lemma grep_lines p ls k out : str p -> Forall str ls ->
  fold_left (fun s l => grep_line p None l s) ls (Some (k, out)) =
  Some (k + Z.of_nat (length (List.filter (matchesb p) ls)), out ++ unlines (List.filter (matchesb p) ls)).
Proof.
  intros Hp. revert k out. induction ls as [|l ls IH]; intros k out HF; cbn [fold_left List.filter].
  - cbn. by rewrite Z.add_0_r, app_nil_r.
  - apply Forall_cons in HF as [Hl HF]. destruct (matches_spec p l Hp Hl) as (b & E & _). assert (matchesb p l = b) as -> by (unfold matchesb; by rewrite E).
    unfold grep_line at 2. cbn [mbind option_bind]. rewrite E. cbn [mbind option_bind]. destruct b; rewrite IH by done; [|done]. cbn [length]. f_equal. f_equal; [lia|].
    rewrite put_line_str by done. unfold unlines. cbn. by rewrite <- !app_assoc.
Qed.

Lemma grep_fd_spec p chunks L out : str p -> reads chunks L ->
  grep_fd p None chunks out = Some (Z.of_nat (length (List.filter (matchesb p) L)), out ++ unlines (List.filter (matchesb p) L)).
Proof.
  intros Hp HL. pose proof (reads_str _ _ HL) as HS. destruct HL as (ls & rest & E & Hls & Hr & ->).
  unfold grep_fd. rewrite (feed_chunks_spec _ _ _ _ _ E Hls Hr), grep_lines by done. by rewrite Z.add_0_l.
Qed.

(** [grep] prints the matching lines. With a pattern and one input, standard input or a file, of lines of at most
    511 characters, however it arrives, it prints exactly the lines that contain the pattern, in order, and succeeds
    when there is one. *)
Theorem grep_correct open stdin p files input L : str p -> inputs open stdin files = [input] -> (length files <= 1)%nat -> reads input L ->
  exists r, grep_main open stdin (p :: files) = Some (if bool_decide (r = []) then 1 else 0, unlines r) /\ sublist r L /\
    forall l, l ∈ r <-> l ∈ L /\ exists pre post, l = pre ++ p ++ post.
Proof.
  intros Hp Hi Hf HL. pose proof (reads_str _ _ HL) as HS. exists (List.filter (matchesb p) L). split; [|split].
  - assert (match files with [] => grep_fd p None stdin [] | _ => grep_files open p (1 <? Z.of_nat (length files)) files 0 [] end = grep_fd p None input []) as Hm.
    { destruct files as [|f [|]]; [by injection Hi as ->| |cbn in Hf; lia]. cbn in *. destruct (open f); simplify_eq/=. by rewrite grep_fd_spec with (L := L). }
    unfold grep_main. rewrite Hm, (grep_fd_spec _ _ L) by done. cbn [mbind option_bind]. by destruct (List.filter (matchesb p) L).
  - clear. induction L as [|l L IH]; [constructor|]. cbn [List.filter]. destruct (matchesb p l); by constructor.
  - intros l. rewrite !list_elem_of_In, filter_In. rewrite List.Forall_forall in HS. split; intros [Hin Hm]; (split; [done|]);
      destruct (matches_spec p l Hp (HS l Hin)) as (b & Eb & Hb); unfold matchesb in *; rewrite Eb in *; cbn in *; by apply Hb.
Qed.

(** ** [wc] *)

Definition blank (c : Z) : bool := (c =? 32) || (c =? 10) || (c =? 9).

(** The maximal runs of characters that are not blank. *)
Fixpoint tokens (bs : list Z) : list (list Z) :=
  match bs with
  | [] => []
  | c :: r =>
      if blank c then tokens r
      else match r with
           | [] => [[c]]
           | d :: _ => if blank d then [c] :: tokens r else match tokens r with t :: ts => (c :: t) :: ts | [] => [[c]] end
           end
  end.

Lemma tokens_length c r : length (tokens (c :: r)) =
  if blank c then length (tokens r) else match r with d :: _ => if blank d then S (length (tokens r)) else length (tokens r) | [] => 1%nat end.
Proof.
  cbn [tokens]. destruct (blank c); [done|]. destruct r as [|d r]; [done|]. destruct (blank d) eqn:Ed; [done|].
  destruct (tokens (d :: r)) as [|t ts] eqn:E; [|done]. exfalso. revert E. cbn [tokens]. rewrite Ed. destruct r as [|e r]; [done|]. destruct (blank e); [done|]. by destruct (tokens _).
Qed.

Lemma wc_bytes bs s : let s' := fold_left wc_byte bs s in
  lines s' = lines s + Z.of_nat (length (List.filter (Z.eqb 10) bs)) /\ count s' = count s /\
  words s' = words s + Z.of_nat (length (tokens bs)) - (if inword s then match bs with c :: _ => if blank c then 0 else 1 | [] => 0 end else 0).
Proof.
  revert s. induction bs as [|c bs IH]; intros s; [cbn; destruct (inword s); lia|]. cbn [fold_left]. destruct (IH (wc_byte s c)) as (H1 & H2 & H3).
  rewrite H1, H2, H3, tokens_length. unfold wc_byte. fold (blank c). cbn [List.filter]. rewrite (Z.eqb_sym 10 c).
  destruct (blank c) eqn:Eb; [|destruct (inword s)]; cbn [lines words count inword]; (split; [destruct (c =? 10); cbn [length]; lia|]); (split; [done|]);
    destruct bs as [|d bs]; try (destruct (blank d)); destruct (inword s); cbn [tokens length]; lia.
Qed.

(** [wc] counts the newlines, the words and the bytes. *)
Theorem wc_correct chunks : let input := concat chunks in
  wc chunks = (Z.of_nat (length (List.filter (Z.eqb 10) input)), Z.of_nat (length (tokens input)), blen input).
Proof.
  cbv zeta. unfold wc. assert (forall s, fold_left wc_chunk chunks s = fold_left wc_byte (concat chunks) (mk_wc (lines s) (words s) (count s + blen (concat chunks)) (inword s))) as H.
  { induction chunks as [|b chunks IH]; intros s; cbn [fold_left concat]; [unfold blen; cbn; rewrite Z.add_0_r; by destruct s|].
    rewrite IH, fold_left_app, blen_app. f_equal. unfold wc_chunk. set (s1 := mk_wc _ _ _ _). set (s2 := mk_wc _ _ _ _).
    assert (forall l a b, count b = count a + blen (concat chunks) -> lines b = lines a -> words b = words a -> inword b = inword a ->
      fold_left wc_byte l b = mk_wc (lines (fold_left wc_byte l a)) (words (fold_left wc_byte l a)) (count (fold_left wc_byte l a) + blen (concat chunks)) (inword (fold_left wc_byte l a))) as Hg.
    { clear. induction l as [|c l IH]; intros a b H1 H2 H3 H4; cbn [fold_left]; [destruct b; cbn in *; by subst|].
      apply IH; unfold wc_byte; rewrite H2, H3, H4; repeat case_match; done. }
    symmetry. apply Hg; cbn; lia || done. }
  rewrite H. destruct (wc_bytes (concat chunks) (mk_wc 0 0 (0 + blen (concat chunks)) false)) as (H1 & H2 & H3). cbn [lines words count inword] in *.
  rewrite H1, H2, H3. rewrite Z.sub_0_r, !Z.add_0_l. done.
Qed.

(** ** Examples *)

Definition text : list Z := unlines [txt "pear"; txt "apple"; txt "fig"] ++ txt "pear".
Definition text_chunks : list (list Z) := [take 7 text; drop 7 text].

Lemma text_split : concat text_chunks = unlines [txt "pear"; txt "apple"; txt "fig"] ++ txt "pear".
Proof. reflexivity. Qed.
Lemma text_fits : Forall fits [txt "pear"; txt "apple"; txt "fig"] /\ fits (txt "pear").
Proof.
  assert (forall l, bool_decide (Forall (fun c => 0 < c < 256) l) && bool_decide (10 ∉ l) && (blen l <? LINE) = true -> fits l) as H.
  { intros l [[H1 H2]%andb_true_iff H3]%andb_true_iff. apply bool_decide_eq_true in H1, H2. apply Z.ltb_lt in H3. by split. }
  split; [repeat (apply Forall_cons; split); [..|apply Forall_nil]|]; [apply H; reflexivity..|done|apply H; reflexivity].
Qed.

Definition pear_lines : list (list Z) := [txt "pear"; txt "apple"; txt "fig"; txt "pear"].
Lemma text_reads : reads text_chunks pear_lines.
Proof. exists [txt "pear"; txt "apple"; txt "fig"], (txt "pear"). split; [exact text_split|]. split; [apply text_fits|]. split; [apply text_fits|done]. Qed.
Definition one_file (f : list Z) : option (list (list Z)) := if bool_decide (f = txt "f.txt") then Some text_chunks else None.
Lemma text_inputs : Forall2 reads [text_chunks] [pear_lines].
Proof. constructor; [exact text_reads|constructor]. Qed.
Lemma args_str : Forall str [txt "f.txt"; txt "g.txt"].
Proof. by repeat constructor. Qed.

Lemma sort_correct_witness : exists r, sort_main one_file [] [txt "f.txt"; txt "g.txt"] = Some (not_found (txt "sort: ") (txt "g.txt") ++ unlines r) /\
  r ≡ₚ pear_lines /\ StronglySorted le_str r.
Proof. refine (sort_correct one_file [] [txt "f.txt"; txt "g.txt"] [pear_lines] args_str text_inputs _). by vm_compute. Defined.

Lemma grep_correct_witness : exists r, grep_main one_file [] [txt "p"; txt "f.txt"] = Some (if bool_decide (r = []) then 1 else 0, unlines r) /\
  sublist r pear_lines /\ forall l, l ∈ r <-> l ∈ pear_lines /\ exists pre post, l = pre ++ txt "p" ++ post.
Proof. refine (grep_correct one_file [] (txt "p") [txt "f.txt"] text_chunks pear_lines _ eq_refl _ text_reads); [by repeat constructor|cbn; lia]. Defined.

Lemma tail_correct_witness : tail_main one_file [] [txt "-n2"; txt "f.txt"; txt "g.txt"] =
  Some (heading (txt "f.txt") ++ unlines [txt "fig"; txt "pear"] ++ not_found (txt "tail: ") (txt "g.txt")).
Proof.
  refine (tail_correct one_file [] [txt "-n2"; txt "f.txt"; txt "g.txt"] 2 [txt "f.txt"; txt "g.txt"] [pear_lines] eq_refl _ args_str text_inputs).
  unfold TAIL_MAXLINES. lia.
Defined.

(** ** What the programs lose *)

(** The character that arrives when the line is full is not kept: 512 letters and a newline come out as 511 letters
    and an empty line. *)
Example long_line_loses_a_character : sort_main one_file [replicate 512 97 ++ [10]] [] = Some (unlines [[]; replicate 511 97]).
Proof. vm_compute. reflexivity. Qed.

(** The lines from the 513th on are not sorted and not printed. *)
Example sort_drops_lines : sort_main one_file [concat (replicate 513 [97; 10])] [] = Some (concat (replicate 512 [97; 10])).
Proof. vm_compute. reflexivity. Qed.

(** With more than one file the name of the file is on a line of its own, since [puts] ends the line. *)
Example grep_name_on_its_own_line :
  grep_main one_file [] [txt "fig"; txt "f.txt"; txt "f.txt"] = Some (0, concat (replicate 2 (txt "f.txt" ++ [10] ++ txt ":fig" ++ [10]))).
Proof. vm_compute. reflexivity. Qed.

End TextTools.
