(* ===== verification/Readline.v ===== *)
(** * The line editor of the shell

    Models the history and [readline] of [user/shell/shell.c]. The bytes that will be typed are an argument, what the
    shell writes is part of the state; a store outside [line_buf] or [history] is [None]. The editor is proved to
    implement a simple one on lists, [edit], and the terminal to show the line that is edited. *)

From S2P Require Import Prelude Bytes CString Libc.
Import Libc.

Module Readline.

Definition LINE_MAX : Z := 256.
Definition HIST_MAX : Z := 20.

(** [out] is what has been written to the terminal. *)
Record editor := mk_editor {
  line_buf : list Z; history : list (list Z); hist_head : Z; hist_count : Z; hist_pos : Z; out : list Z
}.
Definition set_line b s := mk_editor b (history s) (hist_head s) (hist_count s) (hist_pos s) (out s).
Definition set_pos p s := mk_editor (line_buf s) (history s) (hist_head s) (hist_count s) p (out s).
Definition write_out l s := mk_editor (line_buf s) (history s) (hist_head s) (hist_count s) (hist_pos s) (out s ++ l).

(** A store into an array of [char]. *)
Definition st (b : list Z) (i c : Z) : option (list Z) := if (0 <=? i) && (i <? blen b) then Some (aset b i c) else None.

(** [write_n], 64 bytes at a time. *)
Fixpoint write_n (fuel : nat) (c n : Z) (s : editor) : editor :=
  match fuel with
  | O => s
  | S f => if 0 <? n then let k := if 64 <? n then 64 else n in write_n f c (n - k) (write_out (replicate (Z.to_nat k) c) s) else s
  end.
Definition erase_input (n : Z) (s : editor) : editor :=
  if n <=? 0 then s else let w c := write_n (Z.to_nat n) c n in w 8 (w 32 (w 8 s)).

Definition hist_add (s : editor) : option editor :=
  h ← strncpy (aget [] (history s) (hist_head s)) (line_buf s) (Z.to_nat (LINE_MAX - 1));
  h ← st h (LINE_MAX - 1) 0;
  Some (mk_editor (line_buf s) (aset (history s) (hist_head s) h) ((hist_head s + 1) mod HIST_MAX)
    (if hist_count s <? HIST_MAX then hist_count s + 1 else hist_count s) 0 (out s)).

(** C's remainder has the sign of its left operand. *)
Definition slot (s : editor) : Z := Z.rem (Z.rem (hist_head s - hist_pos s) HIST_MAX + HIST_MAX) HIST_MAX.

(** The new length and the editor. *)
Definition hist_show (slot len : Z) (s : editor) : option (Z * editor) :=
  let s := erase_input len s in
  b ← strncpy (line_buf s) (aget [] (history s) slot) (Z.to_nat (LINE_MAX - 1));
  b ← st b (LINE_MAX - 1) 0;
  n ← strlen b;
  let s := set_line b s in
  Some (n, if 0 <? n then write_out (take (Z.to_nat n) b) s else s).

Definition hist_up (len : Z) (s : editor) : option (Z * editor) :=
  if hist_count s <=? hist_pos s then Some (len, s)
  else let s := set_pos (hist_pos s + 1) s in hist_show (slot s) len s.

Definition hist_down (len : Z) (s : editor) : option (Z * editor) :=
  if hist_pos s =? 0 then Some (len, s)
  else
    let s := set_pos (hist_pos s - 1) s in
    if hist_pos s =? 0 then
      let s := erase_input len s in
      b ← st (line_buf s) 0 0;
      Some (0, set_line b s)
    else hist_show (slot s) len s.

(** [line_buf[len] = '\0'; return len;] at the end of the input. *)
Definition end_input (len : Z) (s : editor) : option (Z * list Z * editor) :=
  b ← st (line_buf s) len 0; Some (len, [], set_line b s).

(** The loop of [readline]: the result, the bytes not read yet, the editor. *)
Fixpoint readline_loop (inp : list Z) (len : Z) (s : editor) : option (Z * list Z * editor) :=
  match inp with
  | [] => end_input len s
  | u :: inp' =>
      if (u =? 8) || (u =? 127) then
        if 0 <? len then
          b ← st (line_buf s) (len - 1) 0;
          readline_loop inp' (len - 1) (write_out [8; 32; 8] (set_line b s))
        else readline_loop inp' len s
      else if u =? 27 then
        match inp' with
        | [] => end_input len s
        | c1 :: inp'' =>
            if negb (c1 =? 91) then readline_loop inp'' len s
            else
              match inp'' with
              | [] => end_input len s
              | c2 :: inp3 =>
                  '(len, s) ← if c2 =? 65 then hist_up len s else if c2 =? 66 then hist_down len s else Some (len, s);
                  readline_loop inp3 len s
              end
        end
      else if (u =? 10) || (u =? 13) then
        let s := write_out [10] s in
        b ← st (line_buf s) len 0;
        s ← if 0 <? len then hist_add (set_line b s) else Some (set_line b s);
        Some (len, inp', set_pos 0 s)
      else if u <? 32 then readline_loop inp' len s
      else if len <? LINE_MAX - 1 then
        b ← st (line_buf s) len u;
        b ← st b (len + 1) 0;
        readline_loop inp' (len + 1) (write_out [u] (set_line b s))
      else readline_loop inp' len s
  end.
Definition readline (inp : list Z) (s : editor) : option (Z * list Z * editor) :=
  b ← st (line_buf s) 0 0; readline_loop inp 0 (set_line b s).

(** ** The editor on lists *)

(** The line, the earlier lines with the last one first, and how far back the user has gone. *)
Record state := mk_state { cur : list Z; past : list (list Z); back : nat }.

(** Shows the line that is [n] back, the empty line for 0. *)
Definition recall (n : nat) (x : state) : state :=
  mk_state (match n with O => [] | S i => default [] (past x !! i) end) (past x) n.
Definition older (x : state) : state := if (back x <? length (past x))%nat then recall (S (back x)) x else x.
Definition newer (x : state) : state := match back x with O => x | S n => recall n x end.
Definition typed (c : Z) (x : state) : state :=
  if blen (cur x) <? LINE_MAX - 1 then mk_state (cur x ++ [c]) (past x) (back x) else x.
Definition rubout (x : state) : state := mk_state (take (length (cur x) - 1) (cur x)) (past x) (back x).
Definition enter (x : state) : state :=
  mk_state (cur x) (if blen (cur x) =? 0 then past x else take (Z.to_nat HIST_MAX) (cur x :: past x)) 0.

Fixpoint edit (inp : list Z) (x : state) : list Z * state :=
  match inp with
  | [] => ([], x)
  | u :: inp' =>
      if (u =? 8) || (u =? 127) then edit inp' (rubout x)
      else if u =? 27 then
        match inp' with
        | [] => ([], x)
        | c1 :: inp'' =>
            if negb (c1 =? 91) then edit inp'' x
            else match inp'' with
                 | [] => ([], x)
                 | c2 :: inp3 => edit inp3 (if c2 =? 65 then older x else if c2 =? 66 then newer x else x)
                 end
        end
      else if (u =? 10) || (u =? 13) then (inp', enter x)
      else if u <? 32 then edit inp' x
      else edit inp' (typed u x)
  end.

(** ** The terminal *)

(** The line on the screen: what is left of the cursor, the nearest first, and what is right of it. *)
Definition term_step (t : list Z * list Z) (c : Z) : list Z * list Z :=
  let '(l, r) := t in
  if c =? 8 then match l with x :: l' => (l', x :: r) | [] => t end else (c :: l, drop 1 r).
Definition term (t : list Z * list Z) (bs : list Z) : list Z * list Z := fold_left term_step bs t.

(** The screen shows [cur], and blanks behind the cursor. *)
Definition shows (cur : list Z) (t : list Z * list Z) : Prop := t.1 = rev cur /\ Forall (eq 32) t.2.

(** ** Pieces *)

Lemma write_out_app a b s : write_out b (write_out a s) = write_out (a ++ b) s.
Proof. unfold write_out. cbn. by rewrite app_assoc. Qed.

Lemma write_n_spec fuel c n s : 0 <= n <= Z.of_nat fuel -> write_n fuel c n s = write_out (replicate (Z.to_nat n) c) s.
Proof.
  revert n s. induction fuel as [|f IH]; intros n s Hn; cbn [write_n].
  - assert (n = 0) as -> by lia. unfold write_out. cbn. rewrite app_nil_r. by destruct s.
  - destruct (Z.ltb_spec 0 n); [|assert (n = 0) as -> by lia; unfold write_out; cbn; rewrite app_nil_r; by destruct s].
    set (k := if 64 <? n then 64 else n). assert (0 < k <= n) by (unfold k; destruct (Z.ltb_spec 64 n); lia).
    rewrite IH by lia. rewrite write_out_app, <- replicate_add. do 2 f_equal. lia.
Qed.

Definition wipe (n : nat) : list Z := replicate n 8 ++ replicate n 32 ++ replicate n 8.
Lemma erase_input_spec n s : 0 <= n -> erase_input n s = write_out (wipe (Z.to_nat n)) s.
Proof.
  intros Hn. unfold erase_input. destruct (Z.leb_spec n 0).
  - assert (n = 0) as -> by lia. unfold write_out. cbn. rewrite app_nil_r. by destruct s.
  - rewrite !write_n_spec, !write_out_app by lia. by rewrite <- ?app_assoc.
Qed.

Lemma st_spec l y r i c : i = blen l -> st (l ++ y :: r) i c = Some (l ++ c :: r).
Proof.
  intros ->. unfold st. pose proof (blen_nonneg l). rewrite blen_app. assert (blen (y :: r) = blen r + 1) as -> by (unfold blen; cbn; lia). pose proof (blen_nonneg r).
  rewrite (proj2 (Z.leb_le 0 _)), (proj2 (Z.ltb_lt _ _)) by lia. cbn [andb]. f_equal. unfold aset, blen. rewrite Nat2Z.id. by rewrite insert_app_r_alt, Nat.sub_diag.
Qed.

(** A C string in a row of 256 bytes, copied over another row. *)
Lemma copy_row dst l r : blen dst = LINE_MAX -> str l -> blen l < LINE_MAX ->
  exists b, strncpy dst (l ++ 0 :: r) (Z.to_nat (LINE_MAX - 1)) = Some b /\ st b (LINE_MAX - 1) 0 = Some (l ++ 0 :: zeros (LINE_MAX - 1 - blen l)).
Proof.
  intros Hd Hs Hl. unfold blen, LINE_MAX in *. rewrite strncpy_spec by (done || lia). eexists. split; [done|]. rewrite take_ge by lia.
  destruct (drop (Z.to_nat (256 - 1)) dst) as [|y [|]] eqn:E; apply (f_equal length) in E; rewrite length_drop in E; cbn in E; try lia.
  rewrite app_assoc, st_spec by (unfold blen; rewrite length_app, length_replicate; lia). rewrite <- app_assoc. do 2 f_equal.
  change ([0]) with (replicate 1 0). rewrite <- replicate_add. unfold zeros. change (0 :: replicate ?n 0) with (replicate (S n) 0). f_equal. lia.
Qed.

(** ** The terminal follows *)

Lemma term_app t a b : term t (a ++ b) = term (term t a) b.
Proof. apply fold_left_app. Qed.

Lemma term_back n l r : (n <= length l)%nat -> term (l, r) (replicate n 8) = (drop n l, rev (take n l) ++ r).
Proof.
  revert l r. induction n as [|n IH]; intros l r Hn; [by rewrite drop_0|]. destruct l as [|x l]; cbn [length] in Hn; [lia|].
  cbn [replicate term fold_left term_step Z.eqb Pos.eqb]. fold (term (l, x :: r) (replicate n 8)). rewrite IH by lia. cbn. by rewrite <- app_assoc.
Qed.

Lemma term_text bs l r : Forall (fun c => c <> 8) bs -> term (l, r) bs = (rev bs ++ l, drop (length bs) r).
Proof.
  intros HF. revert l r. induction HF as [|c bs Hc HF IH]; intros l r; [by rewrite drop_0|]. cbn [term fold_left term_step]. rewrite (proj2 (Z.eqb_neq c 8)) by done.
  fold (term (c :: l, drop 1 r) bs). rewrite IH. cbn [rev length]. by rewrite <- app_assoc, drop_drop.
Qed.

Lemma rev_replicate {A} n (x : A) : rev (replicate n x) = replicate n x.
Proof. induction n as [|n IH]; [done|]. cbn [replicate rev]. by rewrite IH, <- replicate_cons_app. Qed.

Lemma shows_wipe cur t : shows cur t -> shows [] (term t (wipe (length cur))).
Proof.
  intros [H1 H2]. destruct t as [l r]. cbn [fst snd] in *. subst l. unfold wipe. rewrite !term_app, term_back by (by rewrite length_rev).
  rewrite drop_ge by (by rewrite length_rev). rewrite term_text by (apply Forall_replicate; lia). rewrite app_nil_r, rev_replicate, length_replicate.
  rewrite term_back by (by rewrite length_replicate). split; cbn; [by rewrite drop_ge by (by rewrite length_replicate)|].
  apply Forall_app. split; [apply Forall_rev, Forall_take, Forall_replicate; done|]. rewrite take_ge, rev_involutive by (by rewrite length_rev). by rewrite drop_app_length.
Qed.

Lemma shows_text cur bs t : Forall (fun c => c <> 8) bs -> shows cur t -> shows (cur ++ bs) (term t bs).
Proof. intros HF [H1 H2]. destruct t as [l r]. cbn [fst snd] in *. subst l. rewrite term_text by done. split; cbn; [by rewrite rev_app_distr|by apply Forall_drop]. Qed.

Lemma shows_rubout cur c t : shows (cur ++ [c]) t -> shows cur (term t [8; 32; 8]).
Proof.
  intros [H1 H2]. destruct t as [l r]. cbn [fst snd] in *. subst l. rewrite rev_app_distr. cbn. by split; [|constructor].
Qed.

(** ** The editor implements [edit] *)

(** A line the buffer holds: no control characters, so none ends the string or moves the cursor. *)
Definition line_ok (l : list Z) : Prop := Forall (fun c => 32 <= c < 256) l /\ blen l < LINE_MAX.

Lemma line_ok_str l : line_ok l -> str l /\ blen l < LINE_MAX /\ Forall (fun c => c <> 8) l.
Proof. intros [H1 H2]. split; [eapply Forall_impl; [exact H1|]; cbn; lia|]. split; [done|]. eapply Forall_impl; [exact H1|]; cbn; lia. Qed.

Record rel (x : state) (len : Z) (s : editor) : Prop := {
  re_line : exists r, line_buf s = cur x ++ 0 :: r;
  re_size : blen (line_buf s) = LINE_MAX;
  re_len : len = blen (cur x);
  re_cur : line_ok (cur x);
  re_rows : Z.of_nat (length (history s)) = HIST_MAX;
  re_row : Forall (fun h => blen h = LINE_MAX) (history s);
  re_head : 0 <= hist_head s < HIST_MAX;
  re_count : hist_count s = Z.of_nat (length (past x));
  re_max : hist_count s <= HIST_MAX;
  re_pos : hist_pos s = Z.of_nat (back x);
  re_back : (back x <= length (past x))%nat;
  re_past : forall i l, past x !! i = Some l ->
    line_ok l /\ exists r, aget [] (history s) ((hist_head s - 1 - Z.of_nat i) mod HIST_MAX) = l ++ 0 :: r;
}.

(** The state of the shell: the editor, the lists, and a terminal that began as [t] when [o] had been written. *)
Section sim.
Context (t : list Z * list Z) (o : list Z).

Definition sim (x : state) (len : Z) (s : editor) : Prop := rel x len s /\ exists bs, out s = o ++ bs /\ shows (cur x) (term t bs).

Lemma slot_spec s n : 0 <= hist_head s < HIST_MAX -> hist_pos s = Z.of_nat (S n) -> Z.of_nat (S n) <= HIST_MAX ->
  slot s = (hist_head s - 1 - Z.of_nat n) mod HIST_MAX.
Proof. intros H1 H2 H3. unfold slot, HIST_MAX in *. rewrite H2. lia. Qed.

(** Another line [l] takes the place of the one that is edited. *)
Lemma rel_line x l n len s b : rel x len s -> line_ok l -> (n <= length (past x))%nat -> blen b = LINE_MAX -> (exists r, b = l ++ 0 :: r) ->
  forall w, rel (mk_state l (past x) n) (blen l) (write_out w (set_line b (set_pos (Z.of_nat n) s))).
Proof. intros [H1 H2 H3 H4 H5 H6 H7 H8 H9 H10 H11 H12] Hl Hn Hb Hr w. by split. Qed.

Lemma sim_shown x l n len s b : sim x len s -> line_ok l -> (n <= length (past x))%nat -> blen b = LINE_MAX -> (exists r, b = l ++ 0 :: r) ->
  sim (mk_state l (past x) n) (blen l) (write_out (wipe (Z.to_nat len) ++ l) (set_line b (set_pos (Z.of_nat n) s))).
Proof.
  intros [H (bs & Ho & Ht)] Hl Hn Hb Hr. split; [by apply (rel_line x l n len)|]. exists (bs ++ wipe (Z.to_nat len) ++ l). cbn [write_out out set_line set_pos cur].
  rewrite Ho, <- app_assoc. split; [done|]. rewrite !term_app. apply (shows_text []); [by apply line_ok_str|]. rewrite (re_len _ _ _ H). unfold blen. rewrite Nat2Z.id. by apply shows_wipe.
Qed.

Lemma sim_recall x n len s : sim x len s -> (S n <= length (past x))%nat ->
  exists len' s', hist_show (slot (set_pos (Z.of_nat (S n)) s)) len (set_pos (Z.of_nat (S n)) s) = Some (len', s') /\ sim (recall (S n) x) len' s'.
Proof.
  intros Hsim Hn. pose proof Hsim as [H _]. destruct (lookup_lt_is_Some_2 (past x) n) as [l El]; [lia|]. destruct (re_past _ _ _ H n l El) as (Hl & r & Er).
  destruct (line_ok_str l Hl) as (Hs & Hlen & _). pose proof (re_len _ _ _ H) as Elen. pose proof (blen_nonneg (cur x)).
  unfold hist_show. rewrite erase_input_spec by lia. cbn [write_out line_buf history set_pos].
  rewrite slot_spec with (n := n); [|apply H|done|pose proof (re_max _ _ _ H); pose proof (re_count _ _ _ H); lia]. cbn [hist_head set_pos]. rewrite Er.
  destruct (copy_row (line_buf s) l r (re_size _ _ _ H) Hs Hlen) as (b & -> & E2). cbn [mbind option_bind]. rewrite E2. cbn [mbind option_bind].
  rewrite strlen_spec by done. cbn [mbind option_bind]. set (b2 := l ++ 0 :: zeros _).
  assert (blen b2 = LINE_MAX) as Hb2.
  { unfold b2. rewrite blen_app. assert (blen (0 :: zeros (LINE_MAX - 1 - blen l)) = LINE_MAX - blen l) as ->; [|lia].
    unfold blen, zeros in *. cbn [length]. rewrite length_replicate. lia. }
  pose proof (sim_shown x l (S n) len s b2 Hsim Hl Hn Hb2 (ex_intro _ _ eq_refl)) as Hd.
  eexists _, _. split; [done|]. unfold recall. rewrite El. cbn [default option_rect]. unfold id.
  assert (write_out (wipe (Z.to_nat len) ++ l) (set_line b2 (set_pos (Z.of_nat (S n)) s)) = if 0 <? blen l then
    write_out (take (Z.to_nat (blen l)) b2) (set_line b2 (write_out (wipe (Z.to_nat len)) (set_pos (Z.of_nat (S n)) s)))
    else set_line b2 (write_out (wipe (Z.to_nat len)) (set_pos (Z.of_nat (S n)) s))) as <-; [|done].
  unfold b2, blen. rewrite Nat2Z.id, take_app_length. destruct (Z.ltb_spec 0 (Z.of_nat (length l))) as [|Hz].
  - unfold write_out, set_line, set_pos. cbn. by rewrite app_assoc.
  - destruct l; [|cbn in Hz; lia]. by rewrite app_nil_r.
Qed.

Lemma sim_older x len s : sim x len s -> exists len' s', hist_up len s = Some (len', s') /\ sim (older x) len' s'.
Proof.
  intros Hsim. pose proof Hsim as [H _]. unfold hist_up, older. rewrite (re_count _ _ _ H), (re_pos _ _ _ H).
  destruct (Nat.ltb_spec (back x) (length (past x))); [rewrite (proj2 (Z.leb_gt _ _)) by lia|rewrite (proj2 (Z.leb_le _ _)) by lia; eauto].
  replace (Z.of_nat (back x) + 1) with (Z.of_nat (S (back x))) by lia. apply sim_recall; [done|lia].
Qed.

Lemma sim_newer x len s : sim x len s -> exists len' s', hist_down len s = Some (len', s') /\ sim (newer x) len' s'.
Proof.
  intros Hsim. pose proof Hsim as [H _]. unfold hist_down, newer. rewrite (re_pos _ _ _ H). pose proof (re_back _ _ _ H) as Hb.
  destruct (back x) as [|n]; [eauto|]. rewrite (proj2 (Z.eqb_neq _ _)) by lia. replace (Z.of_nat (S n) - 1) with (Z.of_nat n) by lia. cbn [hist_pos set_pos].
  destruct n as [|n]; [|rewrite (proj2 (Z.eqb_neq _ _)) by lia; apply sim_recall; [done|lia]]. cbn [Z.of_nat Z.eqb].
  pose proof (re_len _ _ _ H) as Elen. pose proof (blen_nonneg (cur x)). rewrite erase_input_spec by lia. cbn [write_out line_buf set_pos].
  pose proof (re_size _ _ _ H) as Hsz. destruct (line_buf s) as [|c r] eqn:El; [done|]. rewrite (st_spec [] c r) by done. cbn [mbind option_bind app].
  eexists _, _. split; [done|]. pose proof (sim_shown x [] 0 len s (0 :: r) Hsim) as Hd. rewrite app_nil_r in Hd. apply Hd; [by split; [constructor|]|lia|done|by exists r].
Qed.

Lemma sim_typed x len s u : sim x len s -> 32 <= u < 256 -> len < LINE_MAX - 1 -> exists b b',
  st (line_buf s) len u = Some b /\ st b (len + 1) 0 = Some b' /\ sim (typed u x) (len + 1) (write_out [u] (set_line b' s)).
Proof.
  intros [[(r & Er) H2 H3 H4 H5 H6 H7 H8 H9 H10 H11 H12] (bs & Ho & Ht)] Hu Hlen. subst len. rewrite Er, blen_app in H2.
  destruct r as [|y r]; [unfold LINE_MAX, blen in *; cbn in *; lia|]. exists (cur x ++ u :: y :: r), (cur x ++ u :: 0 :: r). rewrite Er, st_spec by done. split; [done|].
  change (cur x ++ u :: y :: r) with (cur x ++ [u] ++ y :: r). rewrite app_assoc, st_spec by (rewrite blen_app; done). rewrite <- app_assoc. split; [done|].
  assert (line_ok (cur x ++ [u])) as Hl.
  { destruct H4 as [H4 H4']. split; [apply Forall_app; split; [done|by constructor]|]. rewrite blen_app. unfold LINE_MAX in *. change (blen [u]) with 1. lia. }
  unfold typed. rewrite (proj2 (Z.ltb_lt _ _)) by lia. split.
  - split; cbn [cur past back line_buf history hist_head hist_count hist_pos write_out set_line]; try done.
    + exists r. by rewrite <- app_assoc.
    + unfold blen in *. cbn [length app] in *. rewrite length_app in *. cbn [length] in *. lia.
    + rewrite blen_app. done.
  - exists (bs ++ [u]). cbn [out write_out set_line]. rewrite Ho, <- app_assoc. split; [done|]. rewrite term_app. apply shows_text; [|done].
    apply Forall_singleton. lia.
Qed.

Lemma sim_rubout x len s : sim x len s -> 0 < len -> exists b, st (line_buf s) (len - 1) 0 = Some b /\ sim (rubout x) (len - 1) (write_out [8; 32; 8] (set_line b s)).
Proof.
  intros [[(r & Er) H2 H3 H4 H5 H6 H7 H8 H9 H10 H11 H12] (bs & Ho & Ht)] Hlen. subst len. unfold rubout.
  destruct x as [l p k]. cbn [cur past back] in *. destruct l as [|c l _] using rev_ind; [done|]. rewrite blen_app in *. change (blen [c]) with 1 in *.
  replace (blen l + 1 - 1) with (blen l) by lia. rewrite Er, <- app_assoc. cbn [app]. rewrite st_spec by done. eexists. split; [done|].
  rewrite length_app. cbn [length]. rewrite Nat.add_sub, take_app_length. destruct H4 as [[H4 _]%Forall_app H4']. split.
  - split; cbn [cur past back line_buf history hist_head hist_count hist_pos write_out set_line]; try done.
    + by exists (0 :: r).
    + rewrite Er, <- app_assoc in H2. unfold blen in *. rewrite length_app in *. cbn [length app] in *. lia.
    + split; [done|]. rewrite blen_app in H4'. change (blen [c]) with 1 in H4'. lia.
  - exists (bs ++ [8; 32; 8]). cbn [out write_out set_line]. rewrite Ho, <- app_assoc. split; [done|]. rewrite term_app. by apply (shows_rubout l c).
Qed.

Lemma sim_same_line x len s : sim x len s -> exists b, st (line_buf s) len 0 = Some b /\ set_line b s = s.
Proof. intros [[(r & Er) _ -> _] _]. rewrite Er, st_spec by done. eexists. split; [done|]. rewrite <- Er. by destruct s. Qed.

(** After a line: it is in the history, and the terminal showed it. *)
Definition done_line (x : state) (len : Z) (s : editor) : Prop :=
  rel x len s /\ exists bs nl, out s = o ++ bs ++ nl /\ (nl = [] \/ nl = [10] /\ back x = 0%nat) /\ shows (cur x) (term t bs).

Lemma hist_add_spec x len s : rel x len s -> exists s', hist_add s = Some s' /\ out s' = out s /\ rel (mk_state (cur x) (take (Z.to_nat HIST_MAX) (cur x :: past x)) 0) len s'.
Proof.
  intros [(r & Er) H2 H3 H4 H5 H6 H7 H8 H9 H10 H11 H12]. destruct (line_ok_str _ H4) as (Hs & Hl & _). unfold hist_add. rewrite Er.
  assert (blen (aget [] (history s) (hist_head s)) = LINE_MAX) as Hrow by (apply (Forall_aget (fun h => blen h = LINE_MAX)); [done|unfold HIST_MAX in *; lia]).
  destruct (copy_row _ (cur x) r Hrow Hs Hl) as (b & -> & E2). cbn [mbind option_bind]. rewrite E2. cbn [mbind option_bind]. eexists. split; [done|]. split; [done|].
  set (row := cur x ++ 0 :: zeros _). assert (blen row = LINE_MAX) as Hb.
  { unfold row. rewrite blen_app. unfold blen, zeros in *. cbn [length]. rewrite length_replicate. lia. }
  split; cbn [cur past back line_buf history hist_head hist_count hist_pos out]; rewrite ?aset_length; try done.
  - by exists r.
  - by rewrite <- Er.
  - apply Forall_aset; done.
  - unfold HIST_MAX in *. lia.
  - rewrite length_take. cbn [length]. rewrite H8 in *. destruct (Z.ltb_spec (Z.of_nat (length (past x))) HIST_MAX); unfold HIST_MAX in *; lia.
  - destruct (Z.ltb_spec (hist_count s) HIST_MAX); lia.
  - lia.
  - intros i l Hi. apply lookup_take_Some in Hi as [Hi Hlt]. destruct i as [|i]; cbn in Hi.
    + injection Hi as <-. split; [done|]. eexists. replace (_ mod HIST_MAX) with (hist_head s) by (unfold HIST_MAX in *; lia). by rewrite aget_aset_eq by lia.
    + destruct (H12 i l Hi) as (Hok & r' & E'). split; [done|]. exists r'. rewrite <- E'. rewrite aget_aset_ne; [f_equal|..]; unfold HIST_MAX in *; lia.
Qed.

Lemma sim_enter x len s : sim x len s -> exists b s', st (line_buf (write_out [10] s)) len 0 = Some b /\
  (if 0 <? len then hist_add (set_line b (write_out [10] s)) else Some (set_line b (write_out [10] s))) = Some s' /\ done_line (enter x) len (set_pos 0 s').
Proof.
  intros Hsim. destruct (sim_same_line _ _ _ Hsim) as (b & Eb & Es). destruct Hsim as [H (bs & Ho & Ht)].
  assert (set_line b (write_out [10] s) = write_out [10] s) as Es' by (by rewrite <- Es at 2). exists b. rewrite Es'. cbn [line_buf write_out] in *.
  assert (rel x len (write_out [10] s)) as H' by (by destruct H; split). unfold enter. rewrite <- (re_len _ _ _ H). destruct (Z.ltb_spec 0 len).
  - destruct (hist_add_spec x len _ H') as (s' & E & Eo & Hr). exists s'. split; [done|]. split; [done|]. rewrite (proj2 (Z.eqb_neq len 0)) by lia. split.
    + destruct Hr. by split.
    + exists bs, [10]. cbn [out set_pos write_out] in *. rewrite Eo, Ho, <- app_assoc. auto.
  - eexists. split; [done|]. split; [done|]. pose proof (blen_nonneg (cur x)). pose proof (re_len _ _ _ H). rewrite (proj2 (Z.eqb_eq len 0)) by lia. split.
    + destruct H'. split; try done. cbn. lia.
    + exists bs, [10]. cbn [out set_pos write_out]. rewrite Ho, <- app_assoc. auto.
Qed.

Lemma sim_end x len s : sim x len s -> exists s', end_input len s = Some (len, [], s') /\ done_line x len s'.
Proof.
  intros Hsim. destruct (sim_same_line _ _ _ Hsim) as (b & Eb & Es). exists s. unfold end_input. rewrite Eb. cbn. rewrite Es. split; [done|].
  destruct Hsim as [H (bs & Ho & Ht)]. split; [done|]. exists bs, []. rewrite app_nil_r. auto.
Qed.

Lemma readline_loop_spec inp x len s : bytes inp -> sim x len s ->
  exists len' s', readline_loop inp len s = Some (len', (edit inp x).1, s') /\ done_line (edit inp x).2 len' s'.
Proof.
  remember (length inp) as n eqn:En. revert inp En x len s. induction (lt_wf n) as [n _ IH]. intros inp -> x len s Hb Hsim.
  destruct inp as [|u inp]; cbn [readline_loop edit]; [destruct (sim_end _ _ _ Hsim) as (s' & -> & H'); by exists len, s'|].
  apply Forall_cons in Hb as [Hu Hb]. pose proof Hsim as [Hrel _]. pose proof (re_len _ _ _ Hrel) as Elen. pose proof (blen_nonneg (cur x)).
  destruct ((u =? 8) || (u =? 127)).
  { destruct (Z.ltb_spec 0 len) as [Hl|Hl].
    - destruct (sim_rubout _ _ _ Hsim Hl) as (b & -> & H'). cbn [mbind option_bind]. by apply (IH (length inp)); [cbn; lia|..].
    - replace (rubout x) with x; [by apply (IH (length inp)); [cbn; lia|..]|]. unfold rubout. destruct x as [l p k]. cbn [cur] in *. unfold blen in *.
      by destruct l; [|cbn in *; lia]. }
  destruct (u =? 27).
  { destruct inp as [|c1 inp]; [destruct (sim_end _ _ _ Hsim) as (s' & -> & H'); by exists len, s'|]. apply Forall_cons in Hb as [_ Hb].
    destruct (c1 =? 91); cbn [negb]; [|by apply (IH (length inp)); [cbn; lia|..]].
    destruct inp as [|c2 inp]; [destruct (sim_end _ _ _ Hsim) as (s' & -> & H'); by exists len, s'|]. apply Forall_cons in Hb as [_ Hb].
    assert (exists len' s', (if c2 =? 65 then hist_up len s else if c2 =? 66 then hist_down len s else Some (len, s)) = Some (len', s') /\
      sim (if c2 =? 65 then older x else if c2 =? 66 then newer x else x) len' s') as (len' & s' & -> & H').
    { destruct (c2 =? 65); [by apply sim_older|]. destruct (c2 =? 66); [by apply sim_newer|eauto]. }
    cbn [mbind option_bind]. by apply (IH (length inp)); [cbn; lia|..]. }
  destruct ((u =? 10) || (u =? 13)).
  { destruct (sim_enter _ _ _ Hsim) as (b & s' & E1 & E2 & H'). rewrite E1. cbn [mbind option_bind]. rewrite E2. cbn [mbind option_bind]. eauto. }
  destruct (Z.ltb_spec u 32); [by apply (IH (length inp)); [cbn; lia|..]|].
  destruct (Z.ltb_spec len (LINE_MAX - 1)) as [Hl|Hl].
  - destruct (sim_typed x len s u Hsim) as (b & b' & -> & E & H'); [unfold is_u8 in *; lia|done|]. cbn [mbind option_bind]. rewrite E. cbn [mbind option_bind].
    by apply (IH (length inp)); [cbn; lia|..].
  - replace (typed u x) with x; [by apply (IH (length inp)); [cbn; lia|..]|]. unfold typed. by rewrite (proj2 (Z.ltb_ge _ _)) by lia.
Qed.
End sim.

(** A line of input begins: the lists hold the history, nothing is typed, and the user is [n] lines back. *)
Definition ready (hist : list (list Z)) (n : nat) (s : editor) : Prop :=
  exists b, st (line_buf s) 0 0 = Some b /\ rel (mk_state [] hist n) 0 (set_line b s).

(** C23: [readline] implements the editor on lists. Whatever is typed, it stays in its arrays; it reads the same bytes
    as [edit] and ends with the same line, NUL-terminated, and the same history, the last 20 lines, so that it is
    ready for the next line; and at the end of the line the terminal shows that line and nothing behind it. After
    Enter the next line starts at the end of the history. After an end of the input in the middle of the line it
    starts [back x] lines back, where the user had got to: [readline] does not reset the position there
    ([position_survives_end_of_input]). *)
Theorem readline_correct inp hist n s t : bytes inp -> ready hist n s -> shows [] t ->
  let '(rest, x) := edit inp (mk_state [] hist n) in
  exists s' r bs nl, readline inp s = Some (blen (cur x), rest, s') /\
    line_buf s' = cur x ++ 0 :: r /\ line_ok (cur x) /\ ready (past x) (back x) s' /\
    out s' = out s ++ bs ++ nl /\ (nl = [] \/ nl = [10] /\ back x = 0%nat) /\ shows (cur x) (term t bs).
Proof.
  intros Hb (b & Eb & Hr) Ht. destruct (readline_loop_spec t (out s) inp (mk_state [] hist n) 0 (set_line b s) Hb) as (len & s' & E & Hd).
  { split; [done|]. exists []. by rewrite app_nil_r. }
  destruct (edit inp _) as [rest x]. cbn [fst snd] in *. destruct Hd as [H (bs & nl & Ho & Hnl & Hsh)]. destruct (re_line _ _ _ H) as [r Er].
  exists s', r, bs, nl. unfold readline. rewrite Eb. cbn [mbind option_bind]. rewrite E, (re_len _ _ _ H). split; [done|]. split; [done|]. split; [apply H|].
  split; [|done]. destruct (line_buf s') as [|c l] eqn:El; [by destruct (cur x)|]. exists (0 :: l). rewrite El. rewrite (st_spec [] c l) by done. split; [done|].
  destruct H as [H1 H2 H3 H4 H5 H6 H7 H8 H9 H10 H11 H12]. split; try done; cbn [cur past back line_buf history hist_head hist_count hist_pos set_line] in *.
  - by exists l.
  - by rewrite El in H2.
Qed.

(** The shell starts ready, with no history. *)
Definition init : editor := mk_editor (zeros LINE_MAX) (replicate (Z.to_nat HIST_MAX) (zeros LINE_MAX)) 0 0 0 [].

Lemma init_ready : ready [] 0 init.
Proof.
  exists (zeros LINE_MAX). split; [done|]. split; try done; cbn.
  - by exists (zeros 255).
  - by repeat constructor.
Qed.

(** "p", Backspace, "ls", Up (there is no history), Enter. *)
Definition keys : list Z := [112; 8; 108; 115; 27; 91; 65; 10].
Lemma readline_correct_witness : exists s' r bs nl, readline keys init = Some (2, [], s') /\
    line_buf s' = [108; 115] ++ 0 :: r /\ line_ok [108; 115] /\ ready [[108; 115]] 0 s' /\
    out s' = [] ++ bs ++ nl /\ (nl = [] \/ nl = [10] /\ 0%nat = 0%nat) /\ shows [108; 115] (term ([], []) bs).
Proof. refine (readline_correct keys [] 0 init ([], []) _ init_ready _); [by repeat constructor|by split; [|constructor]]. Defined.

(** "a", Enter, "b", Enter; then Up and the end of the input; then Up and Enter: the last line is not the "b" that was
    entered last but the "a" before it. *)
Example position_survives_end_of_input :
  (r1 ← readline [97; 10] init; r2 ← readline [98; 10] r1.2; r3 ← readline [27; 91; 65] r2.2; r4 ← readline [27; 91; 65; 10] r3.2;
   Some (take 2 (line_buf r4.2))) = Some [97; 0].
Proof. vm_compute. reflexivity. Qed.

End Readline.
