(* ===== verification/Shell.v ===== *)
(** * The command interpreter of the shell

    Models the rest of [user/shell/shell.c]: the built-in commands, the splitting of a line into the stages of a
    pipeline and of a stage into words, and the calls that start, connect and await the programs. The line is an
    array of bytes that the code cuts into strings in place; a pointer into it is an index, and an access outside it
    is a panic. The kernel is a record of operations on a state of its own: the theorems hold for any. *)

From S2P Require Import Prelude Bytes CString Libc Readline.
Import Libc.

Module Shell.

Definition CWD_BUF_SZ : Z := 256.
Definition CAT_BUF_SZ : Z := 4096.
Definition LS_BUF_SZ : Z := 4096.
Definition MAX_PIPE_SEGS : Z := 4.
Definition MAX_ARGV : Z := 16.

Definition FAULT : string := "access outside the line".
Definition STUCK : string := "a loop over the input does not end".

(** The system calls the shell makes, on the state [W] of the system. Strings are what the kernel reads: the bytes
    before the NUL. *)
Record os (W : Type) := mk_os {
  write : Z -> list Z -> K W unit;
  read : Z -> Z -> K W (Z * list Z);
  open : list Z -> Z -> Z -> K W Z;
  close : Z -> K W unit;
  getcwd : Z -> K W (option (list Z));
  chdir : list Z -> K W Z;
  listdir : list Z -> Z -> K W (Z * list Z);
  spawn : list Z -> list (list Z) -> K W Z;
  spawn_io : list Z -> list (list Z) -> Z -> Z -> K W Z;
  pipe : K W (Z * (Z * Z));
  waitpid : Z -> K W unit;
}.
Arguments write {W} _ _ _.
Arguments read {W} _ _ _.
Arguments open {W} _ _ _ _.
Arguments close {W} _ _.
Arguments getcwd {W} _ _.
Arguments chdir {W} _ _.
Arguments listdir {W} _ _ _.
Arguments spawn {W} _ _ _.
Arguments spawn_io {W} _ _ _ _ _.
Arguments pipe {W} _.
Arguments waitpid {W} _ _.

Definition O_RDONLY : Z := 0.
Definition O_WRONLY : Z := 1.
Definition O_CREAT : Z := 0x40.
Definition O_TRUNC : Z := 0x200.

(** ** The line *)

(** The bytes from a pointer on; a load and a store. *)
Definition at_ (m : list Z) (p : Z) : list Z := drop (Z.to_nat p) m.
Definition ld (m : list Z) (p : Z) : option Z := head (at_ m p).

(** The C string at a pointer. *)
Fixpoint cstring (l : list Z) : option (list Z) :=
  match l with
  | [] => None
  | c :: l' => if c =? 0 then Some [] else s ← cstring l'; Some (c :: s)
  end.

(** [while ( *p == ' ') p++;] and [while ( *a && *a != ' ') a++;], from the bytes at the pointer. *)
Fixpoint skip_from (l : list Z) (p : Z) : option Z :=
  match l with
  | [] => None
  | c :: l' => if c =? 32 then skip_from l' (p + 1) else Some p
  end.
Definition skip_spaces (m : list Z) (p : Z) : option Z := skip_from (at_ m p) p.
Fixpoint word_from (l : list Z) (p : Z) : option Z :=
  match l with
  | [] => None
  | c :: l' => if negb (c =? 0) && negb (c =? 32) then word_from l' (p + 1) else Some p
  end.
Definition word_end (m : list Z) (p : Z) : option Z := word_from (at_ m p) p.

(** [while (l >= lo && *l == ' ') l--;] for the [n] bytes from [lo] to [l]. *)
Fixpoint trim_back (n : nat) (m : list Z) (l : Z) : option Z :=
  match n with
  | O => Some l
  | S n' => c ← ld m l; if c =? 32 then trim_back n' m (l - 1) else Some l
  end.

Definition BIN : list Z := [47; 98; 105; 110; 47].
(** A name with a slash is used as it is; otherwise at most what [bin_path] holds. *)
Definition resolve_path (cmd : list Z) : list Z :=
  if bool_decide (47 ∈ cmd) then cmd else BIN ++ take (Z.to_nat (Readline.LINE_MAX + 8 - 1 - 5)) cmd.

(** The loop of [build_argv], for at most [n] more arguments: the pointers and the line. *)
Fixpoint argv_loop (n : nat) (m : list Z) (a : Z) : option (list Z * list Z) :=
  match n with
  | O => Some ([], m)
  | S n' =>
      c ← ld m a;
      if c =? 0 then Some ([], m)
      else
        e ← word_end m a;
        d ← ld m e;
        '(m, b) ← (if d =? 32 then m ← Readline.st m e 0; b ← skip_spaces m (e + 1); Some (m, b) else Some (m, e));
        '(ps, m) ← argv_loop n' m b;
        Some (a :: ps, m)
  end.
Definition build_argv (m : list Z) (cmd args : Z) : option (list Z * list Z) :=
  a ← skip_spaces m args;
  '(ps, m) ← argv_loop 8 m a;
  Some (cmd :: ps, m).

(** The strings that the pointers name when the call is made. *)
Definition strings (m : list Z) (ps : list Z) : option (list (list Z)) := mapM (fun p => cstring (at_ m p)) ps.

(** A fault ends the program. *)
Definition safe {W A} (o : option A) : K W A := match o with Some a => mret a | None => panic FAULT end.

Section shell.
Context {W : Type} (sys : os W) (patience : nat).

Definition puts_raw (s : list Z) : K W unit := write sys 1 s.

(** ** Built-in commands *)

Fixpoint find_gt (l : list Z) (p : Z) : option (option Z) :=
  match l with
  | [] => None
  | c :: l' => if c =? 0 then Some None else if c =? 62 then Some (Some p) else find_gt l' (p + 1)
  end.

Definition err_redir : list Z := txt "echo: cannot open output file" ++ [10].
Definition builtin_echo (m : list Z) (args : Z) : K W unit :=
  gt ← safe (find_gt (at_ m args) args);
  match gt with
  | Some gt =>
      l ← safe (trim_back (Z.to_nat (gt - args)) m (gt - 1));
      m ← safe (Readline.st m (l + 1) 0);
      path ← safe (p ← skip_spaces m (gt + 1); cstring (at_ m p));
      fd ← open sys path (Z.lor (Z.lor O_WRONLY O_CREAT) O_TRUNC) 0x1a4;
      if fd <? 0 then puts_raw err_redir
      else
        text ← safe (cstring (at_ m args));
        _ ← (if 0 <? blen text then write sys fd text else mret tt);
        _ ← write sys fd [10];
        close sys fd
  | None =>
      text ← safe (cstring (at_ m args));
      _ ← puts_raw text;
      write sys 1 [10]
  end.

Definition err_notfound : list Z := txt "command not found" ++ [10].
Fixpoint cat_loop (n : nat) (fd : Z) : K W unit :=
  match n with
  | O => panic STUCK
  | S n' =>
      '(k, bs) ← read sys fd CAT_BUF_SZ;
      if 0 <? k then _ ← write sys 1 (take (Z.to_nat k) bs); cat_loop n' fd else mret tt
  end.
Definition builtin_cat (args : list Z) : K W unit :=
  if blen args =? 0 then mret tt
  else
    fd ← open sys args O_RDONLY 0;
    if fd <? 0 then puts_raw err_notfound
    else _ ← cat_loop patience fd; close sys fd.

(** The working directory, or the root when the call fails. *)
Definition cwd : K W (list Z) := c ← getcwd sys CWD_BUF_SZ; mret (match c with Some c => c | None => [47] end).
Definition builtin_ls (args : list Z) : K W unit :=
  path ← (if blen args =? 0 then cwd else mret args);
  '(n, bs) ← listdir sys path LS_BUF_SZ;
  if 0 <? n then write sys 1 (take (Z.to_nat n) bs) else mret tt.

Definition err_chdir : list Z := txt "cd: no such directory" ++ [10].
Definition builtin_cd (args : list Z) : K W unit :=
  r ← chdir sys (if blen args =? 0 then [47] else args);
  if negb (r =? 0) then puts_raw err_chdir else mret tt.

Definition builtin_pwd : K W unit := c ← cwd; _ ← puts_raw c; write sys 1 [10].

Definition hist_slot (h : Readline.editor) (i : Z) : Z :=
  Z.rem (Z.rem (Readline.hist_head h - Readline.hist_count h + i) Readline.HIST_MAX + Readline.HIST_MAX) Readline.HIST_MAX.
Definition history_line (h : Readline.editor) (i : Z) : K W unit :=
  l ← safe (cstring (aget [] (Readline.history h) (hist_slot h i)));
  _ ← puts_raw l; write sys 1 [10].
Definition builtin_history (h : Readline.editor) : K W unit := for_loop (Z.to_nat (Readline.hist_count h)) 0 (history_line h).

(** ** Programs *)

(** [run_single]; false when the shell exits. *)
Definition uname_str : list Z := txt "AetherOS 2.0 x86_64 (hobby kernel)" ++ [10].
Definition help_text : list Z := concat ((fun s => txt s ++ [10]) <$>
  ["Built-in commands:";
   "  echo [text]   - print text (supports > redirection)";
   "  cat <path>    - print file contents";
   "  ls [path]     - list directory";
   "  cd [path]     - change directory";
   "  pwd           - print working directory";
   "  clear         - clear screen";
   "  uname         - print OS info";
   "  help          - this help";
   "  exit          - quit shell";
   "Pipes:     cmd1 | cmd2 | cmd3  (up to 4 stages)";
   "Background: cmd &";
   "Ctrl+C:    kill foreground process"]%string).
Definition CLEAR : list Z := [27; 91; 50; 74; 27; 91; 72].

Definition run_external (m : list Z) (cmd args : Z) (bg : bool) : K W unit :=
  '(ps, m) ← safe (build_argv m cmd args);
  argv ← safe (strings m ps);
  path ← safe (cstring (at_ m cmd));
  pid ← spawn sys (resolve_path path) argv;
  if pid <? 0 then puts_raw err_notfound
  else if bg then mret tt else waitpid sys pid.

Definition run_single (h : Readline.editor) (m : list Z) (seg : Z) (bg : bool) : K W bool :=
  e ← safe (word_end m seg);
  c ← safe (ld m e);
  '(m, args) ← safe (if c =? 32 then m ← Readline.st m e 0; a ← skip_spaces m (e + 1); Some (m, a) else Some (m, e));
  text ← safe (cstring (at_ m args));
  let named w := match strcmp (at_ m seg) (txt w ++ [0]) with Some v => v =? 0 | None => false end in
  let done (k : K W unit) := _ ← k; mret true in
  if named "echo" then done (builtin_echo m args)
  else if named "cat" then done (builtin_cat text)
  else if named "ls" then done (builtin_ls text)
  else if named "cd" then done (builtin_cd text)
  else if named "pwd" then done builtin_pwd
  else if named "clear" then done (write sys 1 CLEAR)
  else if named "uname" then done (puts_raw uname_str)
  else if named "help" then done (puts_raw help_text)
  else if named "exit" then mret false
  else if named "history" then done (builtin_history h)
  else done (run_external m seg args bg).

(** The process and the line, or [-1] for a stage without a command. *)
Definition spawn_command (m : list Z) (seg in_fd out_fd : Z) : K W (Z * list Z) :=
  cmd ← safe (skip_spaces m seg);
  c ← safe (ld m cmd);
  if c =? 0 then mret (-1, m)
  else
    e ← safe (word_end m cmd);
    d ← safe (ld m e);
    '(m, args) ← safe (if d =? 32 then m ← Readline.st m e 0; Some (m, e + 1) else Some (m, e));
    '(ps, m) ← safe (build_argv m cmd args);
    argv ← safe (strings m ps);
    path ← safe (cstring (at_ m cmd));
    pid ← spawn_io sys (resolve_path path) argv in_fd out_fd;
    mret (pid, m).

Definition err_pipe : list Z := txt "pipe: failed" ++ [10].
(** [n] pipes, or [None] when one cannot be made. *)
Fixpoint make_pipes (n : nat) : K W (option (list (Z * Z))) :=
  match n with
  | O => mret (Some [])
  | S n' =>
      '(r, ends) ← pipe sys;
      if r <? 0 then mret None
      else rest ← make_pipes n'; mret (match rest with Some l => Some (ends :: l) | None => None end)
  end.
(** The stages are started from left to right; [in_fd] is the end of the pipe on the left. *)
Fixpoint spawn_all (m : list Z) (segs : list Z) (pipes : list (Z * Z)) (in_fd : Z) : K W (list Z) :=
  match segs with
  | [] => mret []
  | seg :: segs' =>
      '(pid, m) ← spawn_command m seg in_fd (match pipes with (_, w) :: _ => w | [] => -1 end);
      pids ← spawn_all m segs' (tail pipes) (match pipes with (r, _) :: _ => r | [] => -1 end);
      mret (pid :: pids)
  end.
Fixpoint close_pipes (pipes : list (Z * Z)) : K W unit :=
  match pipes with
  | [] => mret tt
  | (r, w) :: pipes' => _ ← close sys r; _ ← close sys w; close_pipes pipes'
  end.
Fixpoint wait_all (pids : list Z) : K W unit :=
  match pids with
  | [] => mret tt
  | pid :: pids' => _ ← (if 0 <=? pid then waitpid sys pid else mret tt); wait_all pids'
  end.

Definition run_pipeline (m : list Z) (segs : list Z) (bg : bool) : K W unit :=
  pipes ← make_pipes (length segs - 1);
  match pipes with
  | None => puts_raw err_pipe
  | Some pipes =>
      pids ← spawn_all m segs pipes (-1);
      _ ← close_pipes pipes;
      if bg then mret tt else wait_all (rev pids)
  end.

(** ** A line *)

(** Spaces and an ampersand at the end: whether there is one, and the line without it. *)
Fixpoint blank_back (n : nat) (m : list Z) (l : Z) : option (list Z) :=
  match n with
  | O => Some m
  | S n' => c ← ld m l; if c =? 32 then m ← Readline.st m l 0; blank_back n' m (l - 1) else Some m
  end.
Definition background (m : list Z) (p : Z) : option (bool * list Z) :=
  n ← strlen (at_ m p);
  e ← trim_back (Z.to_nat n) m (p + n - 1);
  if e <? p then Some (false, m)
  else
    c ← ld m e;
    if c =? 38 then m ← Readline.st m e 0; m ← blank_back (Z.to_nat (e - p)) m (e - 1); Some (true, m)
    else Some (false, m).

(** The loop over the characters: the pointers of the stages behind the first. *)
Fixpoint split_loop (fuel : nat) (m : list Z) (p q nseg : Z) : option (list Z * list Z) :=
  match fuel with
  | O => None
  | S f =>
      c ← ld m q;
      if c =? 0 then Some ([], m)
      else if negb (c =? 124) || (MAX_PIPE_SEGS <=? nseg) then split_loop f m p (q + 1) nseg
      else
        l ← trim_back (Z.to_nat (q - p)) m (q - 1);
        m ← Readline.st m (l + 1) 0;
        r ← skip_spaces m (q + 1);
        '(segs, m) ← split_loop f m p r (nseg + 1);
        Some (r :: segs, m)
  end.

(** False when the shell exits. *)
Definition execute (h : Readline.editor) (m : list Z) : K W bool :=
  p ← safe (skip_spaces m 0);
  c ← safe (ld m p);
  if c =? 0 then mret true
  else
    '(bg, m) ← safe (background m p);
    c ← safe (ld m p);
    if c =? 0 then mret true
    else
      '(segs, m) ← safe (split_loop (S (length m)) m p p 1);
      match segs with
      | [] => run_single h m p bg
      | _ => _ ← run_pipeline m (p :: segs) bg; mret true
      end.

(** ** The loop of [main] *)

Definition PROMPT (root : bool) : list Z := if root then [32; 35; 32] else [32; 36; 32].
(** One round, on the bytes that are typed: whether to go on, the bytes that are left, and the editor. *)
Definition round (root : bool) (inp : list Z) (h : Readline.editor) : K W (bool * list Z * Readline.editor) :=
  c ← cwd;
  _ ← puts_raw c;
  _ ← puts_raw (PROMPT root);
  '(len, inp, h') ← safe (Readline.readline inp h);
  _ ← puts_raw (drop (length (Readline.out h)) (Readline.out h'));
  if len =? 0 then mret (true, inp, h')
  else b ← execute h' (Readline.line_buf h'); mret (b, inp, h').

End shell.

(** ** Command lines *)

Definition spaces (n : nat) : list Z := replicate n 32.
(** A word: no blank, no control character, no vertical bar. *)
Definition word (w : list Z) : Prop := w <> [] /\ Forall (fun c => 32 < c < 256 /\ c <> 124) w.

(** A command and its arguments, each with the number of spaces before it beyond the first. *)
Definition args : Type := list (nat * list Z).
Definition args_text (l : args) : list Z := concat ((fun a => spaces (S a.1) ++ a.2) <$> l).
Record stage := mk_stage { cmd_word : list Z; arg_words : args }.
Definition stage_text (s : stage) : list Z := cmd_word s ++ args_text (arg_words s).
Definition stage_argv (s : stage) : list (list Z) := cmd_word s :: (snd <$> arg_words s).
Record stage_ok (s : stage) : Prop := {
  so_cmd : word (cmd_word s);
  so_args : Forall (fun a => word a.2) (arg_words s);
  so_count : (length (arg_words s) <= 8)%nat;
}.

(** The stages behind the first, with the spaces before and behind the bar; then [k] spaces and the end. *)
Definition stages : Type := list (nat * nat * stage).
Fixpoint bars (r : stages) (l : list Z) : list Z :=
  match r with
  | [] => l
  | (t, u, s) :: r' => spaces t ++ 124 :: spaces u ++ stage_text s ++ bars r' l
  end.

(** ** The line as a list *)

Lemma at_app A l : at_ (A ++ l) (blen A) = l.
Proof. unfold at_, blen. by rewrite Nat2Z.id, drop_app_length. Qed.
Lemma at_app_n A B l p : p = blen A + blen B -> at_ (A ++ B ++ l) p = l.
Proof. intros ->. rewrite app_assoc, <- blen_app. apply at_app. Qed.
Lemma ld_app A c l p : p = blen A -> ld (A ++ c :: l) p = Some c.
Proof. intros ->. unfold ld. by rewrite at_app. Qed.

Lemma skip_from_spec n c l p : c <> 32 -> skip_from (spaces n ++ c :: l) p = Some (p + Z.of_nat n).
Proof.
  intros Hc. revert p. induction n as [|n IH]; intros p; cbn [spaces replicate app skip_from].
  - rewrite (proj2 (Z.eqb_neq c 32)) by done. f_equal. lia.
  - rewrite IH. f_equal. lia.
Qed.
Lemma skip_spaces_spec A n c l p : c <> 32 -> p = blen A -> skip_spaces (A ++ spaces n ++ c :: l) p = Some (p + Z.of_nat n).
Proof. intros Hc ->. unfold skip_spaces. rewrite at_app. by apply skip_from_spec. Qed.

Lemma word_end_spec A w c l : Forall (fun c => 32 < c < 256 /\ c <> 124) w -> c = 0 \/ c = 32 -> word_end (A ++ w ++ c :: l) (blen A) = Some (blen A + blen w).
Proof.
  intros Hw Hc. unfold word_end. rewrite at_app. generalize (blen A) as p. induction Hw as [|x w [Hx _] Hw IH]; intros p; cbn [app word_from].
  - assert (negb (c =? 0) && negb (c =? 32) = false) as -> by (by destruct Hc as [-> | ->]). f_equal. unfold blen. cbn. lia.
  - rewrite (proj2 (Z.eqb_neq x 0)), (proj2 (Z.eqb_neq x 32)) by lia. cbn [negb andb]. rewrite IH. f_equal. unfold blen. cbn [length]. lia.
Qed.

Lemma cstring_spec s r : Forall (fun c => c <> 0) s -> cstring (s ++ 0 :: r) = Some s.
Proof. induction 1 as [|c s Hc Hs IH]; [done|]. cbn [app cstring]. rewrite (proj2 (Z.eqb_neq c 0)) by done. by rewrite IH. Qed.

Lemma word_nonzero w : word w -> Forall (fun c => c <> 0) w.
Proof. intros [_ H]. eapply Forall_impl; [exact H|]. cbn. lia. Qed.

Lemma word_head w l : word w -> exists c r, w ++ l = c :: r /\ c <> 32 /\ c <> 0.
Proof. intros [Hn H]. destruct w as [|c w]; [done|]. apply Forall_cons in H as [[H _] _]. exists c, (w ++ l). split; [done|lia]. Qed.

Lemma blen_spaces n : blen (spaces n) = Z.of_nat n.
Proof. unfold blen, spaces. by rewrite length_replicate. Qed.

(** ** Words *)

Lemma argv_end n A B p : p = blen A -> argv_loop n (A ++ 0 :: B) p = Some ([], A ++ 0 :: B).
Proof. intros ->. destruct n; [done|]. cbn [argv_loop]. by rewrite ld_app. Qed.

(** The pointers name the words in the line that is left. *)
Definition names (m : list Z) (ps : list Z) (ws : list (list Z)) : Prop := Forall2 (fun p w => cstring (at_ m p) = Some w) ps ws.

Lemma argv_loop_spec n A w l k B : word w -> Forall (fun a => word a.2) l -> (length l < n)%nat ->
  exists ps m', argv_loop n (A ++ w ++ args_text l ++ spaces k ++ 0 :: B) (blen A) = Some (ps, A ++ m' ++ 0 :: B) /\
    length m' = length (w ++ args_text l ++ spaces k) /\ names (A ++ m' ++ 0 :: B) ps (w :: (snd <$> l)).
Proof.
  revert n A w k. induction l as [|[g w2] l IH]; intros n A w k Hw Hl Hn; (destruct n as [|n]; [cbn in Hn; lia|]); cbn [argv_loop].
  - cbn [args_text fmap list_fmap concat app]. destruct (word_head w (spaces k ++ 0 :: B) Hw) as (c & r & E & Hc & Hz). rewrite E, ld_app, <- E by done. cbn [mbind option_bind].
    rewrite (proj2 (Z.eqb_neq c 0)) by done. clear c r E Hc Hz. destruct k as [|k]; cbn [spaces replicate app].
    + rewrite word_end_spec by (apply Hw || by left). cbn [mbind option_bind]. rewrite app_assoc, ld_app by (by rewrite blen_app). cbn.
      rewrite argv_end by (by rewrite blen_app). cbn. exists [blen A], w. rewrite <- app_assoc. split; [done|]. split; [by rewrite app_nil_r|].
      constructor; [|constructor]. rewrite at_app. by apply cstring_spec, word_nonzero.
    + rewrite word_end_spec by (apply Hw || by right). cbn [mbind option_bind]. rewrite app_assoc, ld_app by (by rewrite blen_app). cbn [mbind option_bind Z.eqb Pos.eqb].
      rewrite Readline.st_spec by (by rewrite blen_app). cbn [mbind option_bind].
      replace ((A ++ w) ++ 0 :: replicate k 32 ++ 0 :: B) with (((A ++ w) ++ [0]) ++ spaces k ++ 0 :: B) by (by rewrite <- !app_assoc).
      rewrite skip_spaces_spec by (done || (rewrite !blen_app; done)). cbn [mbind option_bind]. rewrite app_assoc, argv_end by (rewrite !blen_app, blen_spaces; change (blen [0]) with 1; lia).
      cbn. exists [blen A], (w ++ 0 :: spaces k). rewrite <- !app_assoc. split; [done|]. split; [by rewrite !length_app|].
      constructor; [|constructor]. rewrite at_app. apply cstring_spec. by apply word_nonzero.
  - apply Forall_cons in Hl as [Hw2 Hl]. cbn in Hw2. unfold args_text. cbn [fmap list_fmap concat fst snd]. fold (args_text l). rewrite <- !app_assoc.
    set (T := w2 ++ args_text l ++ spaces k ++ 0 :: B). destruct (word_head w (spaces (S g) ++ T) Hw) as (c & r & E & Hc & Hz). rewrite E, ld_app, <- E by done. cbn [mbind option_bind].
    rewrite (proj2 (Z.eqb_neq c 0)) by done. clear c r E Hc Hz. cbn [spaces replicate app]. rewrite word_end_spec by (apply Hw || by right). cbn [mbind option_bind].
    rewrite app_assoc, ld_app by (by rewrite blen_app). cbn [mbind option_bind Z.eqb Pos.eqb]. rewrite Readline.st_spec by (by rewrite blen_app). cbn [mbind option_bind].
    destruct (word_head w2 (args_text l ++ spaces k ++ 0 :: B) Hw2) as (c & r & E & Hc & Hz).
    replace ((A ++ w) ++ 0 :: replicate g 32 ++ T) with (((A ++ w) ++ [0]) ++ spaces g ++ T) by (by rewrite <- !app_assoc).
    assert (skip_spaces (((A ++ w) ++ [0]) ++ spaces g ++ T) (blen A + blen w + 1) = Some (blen A + blen w + 1 + Z.of_nat g)) as ->
      by (unfold T; rewrite E; apply skip_spaces_spec; [done|by rewrite !blen_app]).
    cbn [mbind option_bind]. rewrite app_assoc. set (A2 := ((A ++ w) ++ [0]) ++ spaces g).
    assert (blen A + blen w + 1 + Z.of_nat g = blen A2) as -> by (unfold A2; rewrite !blen_app, blen_spaces; change (blen [0]) with 1; lia).
    cbn [length] in Hn. destruct (IH n A2 w2 k Hw2 Hl ltac:(lia)) as (ps & m' & Ea & Elen & Hnames). unfold T. rewrite Ea. cbn [mbind option_bind].
    exists (blen A :: ps), (w ++ 0 :: spaces g ++ m'). assert (A2 ++ m' ++ 0 :: B = A ++ (w ++ 0 :: spaces g ++ m') ++ 0 :: B) as Em by (unfold A2; by rewrite <- !app_assoc; cbn; rewrite <- !app_assoc).
    rewrite Em in *. split; [done|]. split; [rewrite !length_app in *; cbn [length]; rewrite !length_app, Elen; cbn [length]; unfold spaces; rewrite !length_replicate; lia|].
    constructor; [|done]. rewrite at_app, <- app_assoc. apply cstring_spec. by apply word_nonzero.
Qed.

(** The text of the arguments, as a built-in command gets it. *)
Definition tail_text (l : args) (k : nat) : list Z := match l with [] => [] | (_, w) :: l' => w ++ args_text l' ++ spaces k end.

Lemma args_text_nonzero l : Forall (fun a => word a.2) l -> Forall (fun c => c <> 0) (args_text l).
Proof.
  induction 1 as [|[g w] l Hw Hl IH]; [constructor|]. unfold args_text. cbn [fmap list_fmap concat fst snd]. rewrite !Forall_app. cbn in Hw.
  split; [|done]. split; [by apply Forall_replicate|by apply word_nonzero].
Qed.
Lemma tail_text_nonzero l k : Forall (fun a => word a.2) l -> Forall (fun c => c <> 0) (tail_text l k).
Proof.
  intros H. destruct l as [|[g w] l]; [constructor|]. apply Forall_cons in H as [Hw Hl]. cbn. rewrite !Forall_app.
  split; [by apply word_nonzero|]. split; [by apply args_text_nonzero|by apply Forall_replicate].
Qed.

(** What the code finds behind the command word: [a0] is where it starts to look, [a] the first argument. *)
Record behind (A c : list Z) (l : args) (k : nat) (B m : list Z) (d : Z) (m1 : list Z) (a0 a : Z) : Prop := {
  be_end : word_end m (blen A) = Some (blen A + blen c);
  be_ld : ld m (blen A + blen c) = Some d;
  be_cut : (if d =? 32 then m' ← Readline.st m (blen A + blen c) 0; Some (m', blen A + blen c + 1) else Some (m, blen A + blen c)) = Some (m1, a0);
  be_skip : skip_spaces m1 a0 = Some a;
  be_same : (d =? 32) = false -> a = a0;
  be_stay : skip_spaces m1 a = Some a;
  be_cmd : exists r, at_ m1 (blen A) = c ++ 0 :: r;
  be_text : exists r, at_ m1 a = tail_text l k ++ 0 :: r;
  be_argv : exists ps m', argv_loop 8 m1 a = Some (ps, A ++ m' ++ 0 :: B) /\ length m' = length (c ++ args_text l ++ spaces k) /\
    names (A ++ m' ++ 0 :: B) (blen A :: ps) (c :: (snd <$> l));
}.

Lemma behind_spec A c l k B : word c -> Forall (fun a => word a.2) l -> (length l <= 8)%nat ->
  exists d m1 a0 a, behind A c l k B (A ++ c ++ args_text l ++ spaces k ++ 0 :: B) d m1 a0 a.
Proof.
  intros Hc Hl Hn. destruct l as [|[g w] l]; [destruct k as [|k]|].
  - exists 0, (A ++ c ++ 0 :: B), (blen A + blen c), (blen A + blen c).
    assert (skip_spaces (A ++ c ++ 0 :: B) (blen A + blen c) = Some (blen A + blen c)) as Hsk.
    { rewrite app_assoc. rewrite (skip_spaces_spec (A ++ c) 0 0 B) by (done || by rewrite blen_app). f_equal. lia. }
    split; cbn [args_text fmap list_fmap concat app spaces replicate tail_text]; try done.
    + apply word_end_spec; [apply Hc|by left].
    + rewrite app_assoc. apply ld_app. by rewrite blen_app.
    + rewrite at_app. eauto.
    + exists B. by apply at_app_n.
    + exists [], c. rewrite app_assoc, argv_end by (by rewrite blen_app). rewrite <- app_assoc. split; [done|]. split; [by rewrite app_nil_r|].
      constructor; [|constructor]. rewrite at_app. by apply cstring_spec, word_nonzero.
  - set (e := blen A + blen c). exists 32, (A ++ c ++ 0 :: spaces k ++ 0 :: B), (e + 1), (e + 1 + Z.of_nat k).
    assert (A ++ c ++ 0 :: spaces k ++ 0 :: B = (A ++ c ++ [0]) ++ spaces k ++ 0 :: B) as E1 by (by rewrite <- !app_assoc).
    assert (A ++ c ++ 0 :: spaces k ++ 0 :: B = ((A ++ c ++ [0]) ++ spaces k) ++ 0 :: B) as E2 by (by rewrite <- !app_assoc).
    assert (e + 1 = blen (A ++ c ++ [0])) as El by (rewrite !blen_app; change (blen [0]) with 1; unfold e; lia).
    assert (e + 1 + Z.of_nat k = blen ((A ++ c ++ [0]) ++ spaces k)) as El2 by (rewrite blen_app, blen_spaces; lia).
    split; cbn [args_text fmap list_fmap concat app spaces replicate tail_text Z.eqb Pos.eqb]; try done.
    + apply word_end_spec; [apply Hc|by right].
    + rewrite app_assoc. apply ld_app. by rewrite blen_app.
    + rewrite app_assoc, Readline.st_spec by (by rewrite blen_app). cbn. by rewrite <- app_assoc.
    + rewrite E1. by apply skip_spaces_spec.
    + rewrite E2, (skip_spaces_spec _ 0 0 B) by done. f_equal. lia.
    + rewrite at_app. eauto.
    + exists B. rewrite E2, El2. apply at_app.
    + exists [], (c ++ 0 :: spaces k). rewrite E2, argv_end by done. rewrite <- !app_assoc. split; [done|]. split; [by rewrite !length_app|].
      constructor; [|constructor]. rewrite at_app. apply cstring_spec. by apply word_nonzero.
  - apply Forall_cons in Hl as [Hw Hl]. cbn in Hw, Hn. set (e := blen A + blen c). set (T := w ++ args_text l ++ spaces k ++ 0 :: B).
    destruct (word_head w (args_text l ++ spaces k ++ 0 :: B) Hw) as (x & r & Ex & Hx & _). fold T in Ex.
    exists 32, (A ++ c ++ 0 :: spaces g ++ T), (e + 1), (e + 1 + Z.of_nat g).
    assert (A ++ c ++ 0 :: spaces g ++ T = (A ++ c ++ [0]) ++ spaces g ++ T) as E1 by (by rewrite <- !app_assoc).
    assert (A ++ c ++ 0 :: spaces g ++ T = ((A ++ c ++ [0]) ++ spaces g) ++ T) as E2 by (by rewrite <- !app_assoc).
    assert (e + 1 = blen (A ++ c ++ [0])) as El by (rewrite !blen_app; change (blen [0]) with 1; unfold e; lia).
    assert (e + 1 + Z.of_nat g = blen ((A ++ c ++ [0]) ++ spaces g)) as El2 by (rewrite blen_app, blen_spaces; lia).
    assert (A ++ c ++ args_text ((g, w) :: l) ++ spaces k ++ 0 :: B = A ++ c ++ 32 :: spaces g ++ T) as -> by (unfold T, args_text; cbn; by rewrite <- !app_assoc).
    split; cbn [tail_text Z.eqb Pos.eqb]; try done.
    + apply word_end_spec; [apply Hc|by right].
    + rewrite app_assoc. apply ld_app. by rewrite blen_app.
    + rewrite app_assoc, Readline.st_spec by (by rewrite blen_app). cbn. by rewrite <- app_assoc.
    + rewrite E1, Ex. by apply skip_spaces_spec.
    + rewrite E2, Ex, (skip_spaces_spec _ 0 x r) by done. f_equal. lia.
    + rewrite at_app. eauto.
    + exists B. rewrite E2, El2, at_app. unfold T. by rewrite <- !app_assoc.
    + rewrite E2, El2. destruct (argv_loop_spec 8 ((A ++ c ++ [0]) ++ spaces g) w l k B Hw Hl ltac:(lia)) as (ps & m' & Ea & Elen & Hnames).
      unfold T. rewrite Ea. exists ps, (c ++ 0 :: spaces g ++ m').
      assert (((A ++ c ++ [0]) ++ spaces g) ++ m' ++ 0 :: B = A ++ (c ++ 0 :: spaces g ++ m') ++ 0 :: B) as Em by (rewrite <- !app_assoc; cbn; by rewrite <- !app_assoc).
      rewrite Em in *. split; [done|]. split.
      { unfold args_text in *. cbn [fmap list_fmap concat fst snd]. rewrite !length_app in *. cbn [length]. rewrite !length_app, Elen. unfold spaces. rewrite !length_replicate. lia. }
      constructor; [|done]. rewrite at_app, <- app_assoc. apply cstring_spec. by apply word_nonzero.
Qed.

Lemma strings_spec m ps ws : names m ps ws -> strings m ps = Some ws.
Proof. intros H. apply mapM_Some. eapply Forall2_impl; [exact H|]. by intros p w. Qed.

(** ** Running *)

Section run.
Context {W : Type} (sys : os W) (patience : nat).

Lemma safe_Some {S A B} (o : option A) a (f : A -> K S B) : o = Some a -> safe o ≫= f = f a.
Proof. by intros ->. Qed.

Lemma spawn_command_spec A s k B i o w : stage_ok s -> exists m', length m' = length (stage_text s ++ spaces k) /\
  spawn_command sys (A ++ stage_text s ++ spaces k ++ 0 :: B) (blen A) i o w =
  (pid ← spawn_io sys (resolve_path (cmd_word s)) (stage_argv s) i o; mret (pid, A ++ m' ++ 0 :: B)) w.
Proof.
  intros [Hc Hl Hn]. destruct s as [c l]. unfold stage_text, stage_argv. cbn [cmd_word arg_words] in *. rewrite <- app_assoc.
  destruct (behind_spec A c l k B Hc Hl Hn) as (d & m1 & a0 & a & [H1 H2 H3 H4 _ _ _ _ (ps & m' & H5 & H6 & H7)]). exists m'. rewrite <- app_assoc. split; [done|].
  set (m := A ++ c ++ _) in *. destruct (word_head c (args_text l ++ spaces k ++ 0 :: B) Hc) as (x & r & E & Hx & Hz).
  assert (skip_spaces m (blen A) = Some (blen A)) as Hs by (unfold m; rewrite E, (skip_spaces_spec A 0 x r) by done; f_equal; lia).
  assert (ld m (blen A) = Some x) as Hld by (unfold m; rewrite E; by apply ld_app).
  unfold spawn_command. rewrite (safe_Some _ _ _ Hs), (safe_Some _ _ _ Hld), (proj2 (Z.eqb_neq x 0)) by done.
  rewrite (safe_Some _ _ _ H1), (safe_Some _ _ _ H2), (safe_Some _ _ _ H3).
  assert (build_argv m1 (blen A) a0 = Some (blen A :: ps, A ++ m' ++ 0 :: B)) as Hb by (unfold build_argv; rewrite H4; cbn [mbind option_bind]; by rewrite H5).
  rewrite (safe_Some _ _ _ Hb), (safe_Some _ _ _ (strings_spec _ _ _ H7)). apply Forall2_cons in H7 as [H7 _]. by rewrite (safe_Some _ _ _ H7).
Qed.

(** ** Splitting at the bars *)

Lemma spaces_snoc t : spaces (S t) = spaces t ++ [32].
Proof. unfold spaces. by rewrite replicate_S_end. Qed.

Lemma trim_back_spec n Y x t T : x <> 32 -> (t < n)%nat -> trim_back n (Y ++ x :: spaces t ++ T) (blen Y + Z.of_nat t) = Some (blen Y).
Proof.
  intros Hx. revert n T. induction t as [|t IH]; intros [|n] T Hn; try lia; cbn [trim_back].
  - rewrite ld_app by lia. cbn. by rewrite (proj2 (Z.eqb_neq x 32)), Z.add_0_r by done.
  - rewrite spaces_snoc, <- app_assoc. cbn [app]. replace (Y ++ x :: spaces t ++ 32 :: T) with ((Y ++ x :: spaces t) ++ 32 :: T) at 1 by (by rewrite <- app_assoc).
    rewrite ld_app by (rewrite blen_app; unfold blen, spaces; cbn [length]; rewrite length_replicate; lia). cbn.
    replace (blen Y + Z.of_nat (S t) - 1) with (blen Y + Z.of_nat t) by lia. apply IH. lia.
Qed.

(** The bar and the spaces around it, after the stage before it is cut off. *)
Definition gap (t u : nat) : list Z := drop 1 (spaces t ++ 124 :: spaces u).
Fixpoint cut (r : stages) (l : list Z) : list Z :=
  match r with
  | [] => l
  | (t, u, s) :: r' => 0 :: gap t u ++ stage_text s ++ cut r' l
  end.
(** The pointers to the stages, when the one before ends at [q]. *)
Fixpoint pointers (q : Z) (r : stages) : list Z :=
  match r with
  | [] => []
  | (t, u, s) :: r' => let p := q + Z.of_nat t + 1 + Z.of_nat u in p :: pointers (p + blen (stage_text s)) r'
  end.

Lemma gap_eq t u : exists c, spaces t ++ 124 :: spaces u = c :: gap t u.
Proof. destruct t as [|t]; cbn; eauto. Qed.
Lemma gap_len t u : blen (gap t u) = Z.of_nat t + Z.of_nat u.
Proof. destruct (gap_eq t u) as [c E]. apply (f_equal length) in E. unfold blen. rewrite length_app in E. cbn [length] in E. unfold spaces in E. rewrite !length_replicate in E. lia. Qed.

(** No character of a stage is a bar or the end, and it begins and ends with a word. *)
Definition inside (s : list Z) : Prop := Forall (fun c => c <> 0 /\ c <> 124) s.
Lemma word_inside w : word w -> inside w.
Proof. intros [_ H]. eapply Forall_impl; [exact H|]. cbn. lia. Qed.
Lemma stage_inside s : stage_ok s -> inside (stage_text s).
Proof.
  intros [Hc Hl _]. apply Forall_app. split; [by apply word_inside|]. induction Hl as [|[g w] l Hw Hl IH]; [constructor|].
  unfold args_text. cbn [fmap list_fmap concat fst snd]. apply Forall_app. split; [|done]. apply Forall_app. split; [apply Forall_replicate; lia|by apply word_inside].
Qed.

Lemma word_last A w : word w -> exists Y x, A ++ w = Y ++ [x] /\ x <> 32 /\ (length A <= length Y)%nat.
Proof.
  intros [Hn H]. destruct w as [|x w _] using rev_ind; [done|]. apply Forall_app in H as [_ [[H _] _]%Forall_cons]. exists (A ++ w), x. rewrite app_assoc, length_app. split; [done|lia].
Qed.
Lemma stage_last A s : stage_ok s -> exists Y x, A ++ stage_text s = Y ++ [x] /\ x <> 32 /\ (length A <= length Y)%nat.
Proof.
  intros [Hc Hl _]. unfold stage_text. destruct (arg_words s) as [|[g w] l _] using rev_ind; [unfold args_text; cbn; rewrite app_nil_r; by apply word_last|].
  apply Forall_app in Hl as [_ [Hw _]%Forall_cons]. unfold args_text. rewrite fmap_app, concat_app. cbn [fmap list_fmap concat fst snd]. rewrite app_nil_r, !app_assoc.
  destruct (word_last (((A ++ cmd_word s) ++ concat ((fun a => spaces (S a.1) ++ a.2) <$> l)) ++ spaces (S g)) w Hw) as (Y & x & E & Hx & HY).
  exists Y, x. split; [exact E|]. split; [done|]. rewrite !length_app in HY. lia.
Qed.

Lemma split_scan X f A R p n : inside X -> split_loop (length X + f) (A ++ X ++ R) p (blen A) n = split_loop f (A ++ X ++ R) p (blen A + blen X) n.
Proof.
  intros HX. revert A. induction HX as [|c X [H0 H1] HX IH]; intros A; cbn [length Nat.add].
  - unfold blen at 3. cbn. by rewrite Z.add_0_r.
  - cbn [app split_loop]. rewrite ld_app by done. cbn [mbind option_bind]. rewrite (proj2 (Z.eqb_neq c 0)), (proj2 (Z.eqb_neq c 124)) by done. cbn [negb orb].
    replace (A ++ c :: X ++ R) with ((A ++ [c]) ++ X ++ R) by (by rewrite <- app_assoc). replace (blen A + 1) with (blen (A ++ [c])) by (by rewrite blen_app).
    rewrite IH. f_equal. rewrite blen_app. unfold blen. cbn [length]. lia.
Qed.

Lemma spaces_inside t : inside (spaces t).
Proof. apply Forall_replicate. lia. Qed.

Lemma split_stages r f P k B p n : Forall (fun x => stage_ok x.2) r -> n + Z.of_nat (length r) <= MAX_PIPE_SEGS ->
  (exists Y x, P = Y ++ [x] /\ x <> 32 /\ 0 <= p <= blen Y) -> (length (bars r (spaces k ++ 0%Z :: B)) <= f)%nat ->
  split_loop f (P ++ bars r (spaces k ++ 0 :: B)) p (blen P) n = Some (pointers (blen P) r, P ++ cut r (spaces k ++ 0 :: B)).
Proof.
  revert f P n. induction r as [|[[t u] s] r IH]; intros f P n Hr Hn (Y & x & EP & Hx & Hp) Hf.
  - cbn [bars cut pointers] in *. rewrite length_app in Hf. cbn [length] in Hf. replace f with (length (spaces k) + S (f - length (spaces k) - 1))%nat by lia.
    rewrite split_scan by apply spaces_inside. cbn [split_loop]. rewrite app_assoc, ld_app by (by rewrite blen_app). done.
  - apply Forall_cons in Hr as [Hs Hr]. cbn [snd] in Hs. cbn [bars cut pointers length] in *. set (R := stage_text s ++ bars r (spaces k ++ 0 :: B)) in *.
    rewrite length_app in Hf. cbn [length] in Hf. rewrite length_app in Hf. unfold MAX_PIPE_SEGS in *.
    replace f with (length (spaces t) + S (f - length (spaces t) - 1))%nat by lia. rewrite split_scan by apply spaces_inside. cbn [split_loop].
    rewrite app_assoc, ld_app by (by rewrite blen_app). cbn [mbind option_bind Z.eqb Pos.eqb negb orb]. rewrite (proj2 (Z.leb_gt MAX_PIPE_SEGS n)) by (unfold MAX_PIPE_SEGS; lia).
    assert (blen P = blen Y + 1) as HP by (rewrite EP, blen_app; done). rewrite blen_spaces. pose proof (blen_nonneg Y).
    assert (trim_back (Z.to_nat (blen P + Z.of_nat t - p)) ((P ++ spaces t) ++ 124 :: spaces u ++ R) (blen P + Z.of_nat t - 1) = Some (blen Y)) as ->.
    { rewrite EP at 2. rewrite <- !app_assoc. cbn [app]. replace (blen P + Z.of_nat t - 1) with (blen Y + Z.of_nat t) by lia. apply trim_back_spec; [done|lia]. }
    cbn [mbind option_bind]. destruct (gap_eq t u) as [c Eg]. assert ((P ++ spaces t) ++ 124 :: spaces u ++ R = P ++ c :: gap t u ++ R) as ->.
    { rewrite <- app_assoc. f_equal. change (124 :: spaces u ++ R) with ((124 :: spaces u) ++ R). by rewrite app_assoc, Eg. }
    rewrite <- HP, Readline.st_spec by done. cbn [mbind option_bind]. set (P1 := P ++ 0 :: gap t u).
    assert (blen P1 = blen P + Z.of_nat t + 1 + Z.of_nat u) as HP1 by (unfold P1; rewrite blen_app; unfold blen at 2; cbn [length]; pose proof (gap_len t u) as Hg; unfold blen in Hg; lia).
    assert (skip_spaces (P ++ 0 :: gap t u ++ R) (blen P + Z.of_nat t + 1) = Some (blen P1)) as ->.
    { set (G := drop 1 (spaces t ++ [124])). assert (gap t u = G ++ spaces u) as ->.
      { unfold gap, G. destruct t as [|t]; [done|]. cbn [spaces replicate app]. rewrite !skipn_cons, !drop_0. by rewrite <- app_assoc. }
      assert (blen G = Z.of_nat t) as HG by (unfold G, blen, spaces; rewrite length_drop, length_app, length_replicate; cbn; lia).
      destruct (word_head (cmd_word s) (args_text (arg_words s) ++ bars r (spaces k ++ 0 :: B)) (so_cmd _ Hs)) as (c' & r' & Ec & Hc' & _).
      assert (R = c' :: r') as -> by (unfold R, stage_text; by rewrite <- app_assoc). replace (P ++ 0 :: (G ++ spaces u) ++ c' :: r') with ((P ++ 0 :: G) ++ spaces u ++ c' :: r') by (rewrite <- !app_assoc; cbn; by rewrite <- ?app_assoc).
      rewrite skip_spaces_spec; [f_equal; lia|done|]. rewrite blen_app. unfold blen in *. cbn [length]. lia. }
    cbn [mbind option_bind]. assert (P ++ 0 :: gap t u ++ R = P1 ++ R) as -> by (unfold P1; by rewrite <- app_assoc). unfold R in Hf |- *. rewrite length_app in Hf.
    replace (f - length (spaces t) - 1)%nat with (length (stage_text s) + (f - length (spaces t) - 1 - length (stage_text s)))%nat by lia.
    rewrite split_scan by (by apply stage_inside). rewrite app_assoc, <- blen_app. rewrite IH; [|done|lia| |lia].
    + cbn [mbind option_bind]. rewrite HP1, blen_app, HP1. f_equal. f_equal. unfold P1. rewrite <- !app_assoc. done.
    + destruct (stage_last P1 s Hs) as (Y' & x' & E' & Hx' & HY'). exists Y', x'. split; [done|]. split; [done|]. unfold blen in *. lia.
Qed.

(** ** Starting the stages *)

(** The same calls on the words of each stage, with no line to cut. *)
Fixpoint start_all (ss : list (list (list Z))) (pipes : list (Z * Z)) (in_fd : Z) : K W (list Z) :=
  match ss with
  | [] => mret []
  | argv :: ss' =>
      pid ← spawn_io sys (resolve_path (default [] (head argv))) argv in_fd (match pipes with (_, w) :: _ => w | [] => -1 end);
      pids ← start_all ss' (tail pipes) (match pipes with (r, _) :: _ => r | [] => -1 end);
      mret (pid :: pids)
  end.

Lemma K_bind_ext {S A B} (m : K S A) (f g : A -> K S B) w : (forall a w', f a w' = g a w') -> (m ≫= f) w = (m ≫= g) w.
Proof. intros H. unfold mbind, K_bind. destruct (m w) as [[a w']|]; [apply H|done]. Qed.

Lemma spawn_all_cons m seg segs pipes i w : spawn_all sys m (seg :: segs) pipes i w =
  match spawn_command sys m seg i (match pipes with (_, w) :: _ => w | [] => -1 end) w with
  | Ok ((pid, m), w) => (pids ← spawn_all sys m segs (tail pipes) (match pipes with (r, _) :: _ => r | [] => -1 end); mret (pid :: pids)) w
  | Panic msg => Panic msg
  end.
Proof. cbn [spawn_all]. unfold mbind at 1, K_bind at 1. by destruct (spawn_command _ _ _ _ _ w) as [[[pid m'] w']|]. Qed.

Lemma start_all_cons argv ss pipes i w : start_all (argv :: ss) pipes i w =
  match spawn_io sys (resolve_path (default [] (head argv))) argv i (match pipes with (_, w) :: _ => w | [] => -1 end) w with
  | Ok (pid, w) => (pids ← start_all ss (tail pipes) (match pipes with (r, _) :: _ => r | [] => -1 end); mret (pid :: pids)) w
  | Panic msg => Panic msg
  end.
Proof. done. Qed.

Lemma spawn_all_spec r A s k B pipes i w : stage_ok s -> Forall (fun x => stage_ok x.2) r ->
  spawn_all sys (A ++ stage_text s ++ cut r (spaces k ++ 0 :: B)) (blen A :: pointers (blen A + blen (stage_text s)) r) pipes i w =
  start_all (stage_argv s :: ((fun x => stage_argv x.2) <$> r)) pipes i w.
Proof.
  revert A s pipes i w. induction r as [|[[t u] s'] r IH]; intros A s pipes i w Hs Hr; rewrite spawn_all_cons, start_all_cons; cbn [head default option_rect stage_argv]; unfold id.
  - cbn [cut]. destruct (spawn_command_spec A s k B i (match pipes with (_, w) :: _ => w | [] => -1 end) w Hs) as (m' & _ & ->). unfold mbind, K_bind. cbn [pointers].
    by destruct (spawn_io sys _ _ _ _ w) as [[pid w']|].
  - apply Forall_cons in Hr as [Hs' Hr]. cbn [snd cut pointers fmap list_fmap] in *. set (R := gap t u ++ stage_text s' ++ cut r (spaces k ++ 0 :: B)).
    destruct (spawn_command_spec A s 0 R i (match pipes with (_, w) :: _ => w | [] => -1 end) w Hs) as (m' & Hlen & E). cbn [spaces replicate app] in E. rewrite app_nil_r in Hlen.
    rewrite E. unfold mbind at 1, K_bind at 1. destruct (spawn_io sys _ _ _ _ w) as [[pid w']|]; [|done]. cbn [mret K_ret].
    unfold R. replace (A ++ m' ++ 0 :: gap t u ++ stage_text s' ++ cut r (spaces k ++ 0 :: B)) with ((A ++ m' ++ 0 :: gap t u) ++ stage_text s' ++ cut r (spaces k ++ 0 :: B))
      by (rewrite <- !app_assoc; cbn; by rewrite <- ?app_assoc).
    replace (blen A + blen (stage_text s) + Z.of_nat t + 1 + Z.of_nat u) with (blen (A ++ m' ++ 0 :: gap t u)).
    + unfold mbind, K_bind. by rewrite IH.
    + rewrite !blen_app. assert (blen (0 :: gap t u) = 1 + (Z.of_nat t + Z.of_nat u)) as -> by (rewrite <- gap_len; unfold blen; cbn [length]; lia). unfold blen. rewrite Hlen. lia.
Qed.

(** ** The end of the line *)

Lemma bars_app r l x : bars r l ++ x = bars r (l ++ x).
Proof. induction r as [|[[t u] s] r IH]; [done|]. cbn [bars]. rewrite <- !app_assoc. cbn. by rewrite <- !app_assoc, IH. Qed.

(** The line without the spaces around it. *)
Definition whole (s : stage) (r : stages) : list Z := stage_text s ++ bars r [].

Lemma whole_last r A s : stage_ok s -> Forall (fun x => stage_ok x.2) r -> exists Y x, A ++ whole s r = Y ++ [x] /\ x <> 32 /\ (length A <= length Y)%nat.
Proof.
  revert A s. induction r as [|[[t u] s'] r IH]; intros A s Hs Hr; unfold whole; cbn [bars]; [rewrite app_nil_r; by apply stage_last|].
  apply Forall_cons in Hr as [Hs' Hr]. destruct (IH (A ++ stage_text s ++ spaces t ++ 124 :: spaces u) s' Hs' Hr) as (Y & x & E & Hx & HY). exists Y, x.
  rewrite <- E. unfold whole. rewrite <- !app_assoc. cbn. rewrite <- ?app_assoc. split; [done|]. split; [done|]. rewrite !length_app in HY. lia.
Qed.

Lemma word_str w : word w -> str w.
Proof. intros [_ H]. eapply Forall_impl; [exact H|]. cbn. lia. Qed.
Lemma spaces_str n : str (spaces n).
Proof. apply Forall_replicate. lia. Qed.
Lemma whole_str r s : stage_ok s -> Forall (fun x => stage_ok x.2) r -> str (whole s r).
Proof.
  assert (forall s, stage_ok s -> str (stage_text s)) as Hst.
  { intros s' [Hc Hl _]. apply str_app. split; [by apply word_str|]. induction Hl as [|[g w] l Hw Hl IH]; [constructor|]. unfold args_text. cbn [fmap list_fmap concat fst snd].
    apply str_app. split; [|done]. apply str_app. split; [apply spaces_str|by apply word_str]. }
  intros Hs Hr. apply str_app. split; [by apply Hst|]. induction Hr as [|[[t u] s'] r Hs' Hr IH]; [constructor|]. cbn [bars].
  apply str_app. split; [apply spaces_str|]. apply str_cons. split; [lia|]. apply str_app. split; [apply spaces_str|]. apply str_app. split; [by apply Hst|done].
Qed.

Lemma blank_back_spec n Y x t T : x <> 32 -> (t < n)%nat -> blank_back n (Y ++ x :: spaces t ++ T) (blen Y + Z.of_nat t) = Some (Y ++ x :: replicate t 0 ++ T).
Proof.
  intros Hx. revert n T. induction t as [|t IH]; intros [|n] T Hn; try lia; cbn [blank_back].
  - rewrite ld_app by lia. cbn. by rewrite (proj2 (Z.eqb_neq x 32)) by done.
  - rewrite spaces_snoc, <- app_assoc. cbn [app]. replace (Y ++ x :: spaces t ++ 32 :: T) with ((Y ++ x :: spaces t) ++ 32 :: T) by (by rewrite <- app_assoc).
    assert (blen Y + Z.of_nat (S t) = blen (Y ++ x :: spaces t)) as E by (rewrite blen_app; unfold blen, spaces; cbn [length]; rewrite length_replicate; lia).
    rewrite E, ld_app by done. cbn [mbind option_bind Z.eqb Pos.eqb]. rewrite Readline.st_spec by done. cbn [mbind option_bind]. rewrite <- app_assoc. cbn [app].
    replace (blen (Y ++ x :: spaces t) - 1) with (blen Y + Z.of_nat t) by lia. rewrite IH by lia. by rewrite replicate_S_end, <- app_assoc.
Qed.

(** With [Some u], an ampersand and [u] spaces. *)
Definition amp (bg : option nat) : list Z := match bg with Some u => 38 :: spaces u | None => [] end.

Lemma background_spec L s r k bg B : stage_ok s -> Forall (fun x => stage_ok x.2) r -> (bg = None -> last (whole s r) <> Some 38) ->
  exists k' B', background (L ++ whole s r ++ spaces k ++ amp bg ++ 0 :: B) (blen L) = Some (bool_decide (bg <> None), L ++ whole s r ++ spaces k' ++ 0 :: B').
Proof.
  intros Hs Hr Hamp. pose proof (whole_str r s Hs Hr) as Hstr. destruct (whole_last r L s Hs Hr) as (Y & x & E & Hx & HY).
  assert (blen L + blen (whole s r) = blen Y + 1) as Elen by (rewrite <- blen_app, E, blen_app; done). pose proof (blen_nonneg L).
  assert (last (whole s r) = Some x) as Hlast.
  { destruct (whole s r) as [|c l _] using rev_ind; [rewrite app_nil_r in E; apply (f_equal length) in E; rewrite length_app in E; cbn in E; lia|].
    rewrite app_assoc in E. apply app_inj_2 in E as [_ [= ->]]; [|done]. apply last_snoc. }
  unfold background. rewrite at_app. destruct bg as [u|]; cbn [amp app].
  - replace (whole s r ++ spaces k ++ 38 :: spaces u ++ 0 :: B) with ((whole s r ++ spaces k ++ 38 :: spaces u) ++ 0 :: B) by (rewrite <- !app_assoc; cbn; by rewrite <- ?app_assoc).
    rewrite strlen_spec by (apply str_app; split; [done|]; apply str_app; split; [apply spaces_str|]; apply str_cons; split; [lia|apply spaces_str]).
    cbn [mbind option_bind]. rewrite !blen_app, blen_spaces. assert (blen (38 :: spaces u) = 1 + Z.of_nat u) as -> by (rewrite <- (blen_spaces u); unfold blen; cbn [length]; lia).
    set (m := L ++ _). assert (m = (L ++ whole s r ++ spaces k) ++ 38 :: spaces u ++ 0 :: B) as Em by (unfold m; rewrite <- !app_assoc; cbn; by rewrite <- ?app_assoc).
    set (e := blen (L ++ whole s r ++ spaces k)). assert (e = blen L + blen (whole s r) + Z.of_nat k) as He by (unfold e; rewrite !blen_app, blen_spaces; lia).
    assert (trim_back (Z.to_nat (blen (whole s r) + (Z.of_nat k + (1 + Z.of_nat u)))) m (blen L + (blen (whole s r) + (Z.of_nat k + (1 + Z.of_nat u))) - 1) = Some e) as ->.
    { replace (blen L + _ - 1) with (e + Z.of_nat u) by lia. rewrite Em. pose proof (blen_nonneg (whole s r)). apply trim_back_spec; [done|lia]. }
    cbn [mbind option_bind]. rewrite (proj2 (Z.ltb_ge e _)) by (pose proof (blen_nonneg (whole s r)); lia). rewrite Em, ld_app by done. cbn [mbind option_bind Z.eqb Pos.eqb].
    rewrite Readline.st_spec by done. cbn [mbind option_bind]. assert ((L ++ whole s r ++ spaces k) ++ 0 :: spaces u ++ 0 :: B = Y ++ x :: spaces k ++ 0 :: spaces u ++ 0 :: B) as ->.
    { rewrite app_assoc, E, <- !app_assoc. done. }
    replace (e - 1) with (blen Y + Z.of_nat k) by lia. rewrite blank_back_spec by (done || (unfold blen in *; lia)). cbn [mbind option_bind].
    exists 0%nat, (replicate k 0 ++ spaces u ++ 0 :: B). rewrite bool_decide_true by done. do 2 f_equal. cbn [spaces replicate app].
    change (0 :: replicate k 0 ++ spaces u ++ 0 :: B) with (replicate (S k) 0 ++ spaces u ++ 0 :: B). rewrite replicate_S_end, <- app_assoc, (app_assoc L), E, <- app_assoc. done.
  - rewrite (app_assoc (whole s r)), strlen_spec by (apply str_app; split; [done|apply spaces_str]). cbn [mbind option_bind]. rewrite blen_app, blen_spaces.
    assert (L ++ (whole s r ++ spaces k) ++ 0 :: B = Y ++ x :: spaces k ++ 0 :: B) as Em by (rewrite !app_assoc, E, <- !app_assoc; done).
    assert (trim_back (Z.to_nat (blen (whole s r) + Z.of_nat k)) (L ++ (whole s r ++ spaces k) ++ 0 :: B) (blen L + (blen (whole s r) + Z.of_nat k) - 1) = Some (blen Y)) as ->.
    { replace (blen L + _ - 1) with (blen Y + Z.of_nat k) by lia. rewrite Em. apply trim_back_spec; [done|]. unfold blen in *. lia. }
    cbn [mbind option_bind]. rewrite (proj2 (Z.ltb_ge _ _)) by (unfold blen in *; lia). rewrite Em, ld_app by done. cbn [mbind option_bind].
    rewrite (proj2 (Z.eqb_neq x 38)) by (intros ->; by apply Hamp). exists k, B. rewrite bool_decide_false by (by intros []). by rewrite <- Em, <- app_assoc.
Qed.

(** ** Execution *)

Definition line_text (lead : nat) (s : stage) (r : stages) (k : nat) (bg : option nat) : list Z := spaces lead ++ whole s r ++ spaces k ++ amp bg.

Record line_ok (s : stage) (r : stages) (bg : option nat) : Prop := {
  lo_first : stage_ok s;
  lo_rest : Forall (fun x => stage_ok x.2) r;
  lo_count : Z.of_nat (length r) < MAX_PIPE_SEGS;
  lo_amp : bg = None -> last (whole s r) <> Some 38;
}.

(** The line is cut into stages. *)
Lemma execute_split h lead s r k bg B : line_ok s r bg -> exists k' B', let L := spaces lead in let b := bool_decide (bg <> None) in
  execute sys patience h (line_text lead s r k bg ++ 0 :: B) =
  match r with
  | [] => run_single sys patience h (L ++ stage_text s ++ spaces k' ++ 0 :: B') (blen L) b
  | _ => _ ← run_pipeline sys (L ++ stage_text s ++ cut r (spaces k' ++ 0 :: B')) (blen L :: pointers (blen L + blen (stage_text s)) r) b; mret true
  end.
Proof.
  intros [Hs Hr Hn Ha]. set (L := spaces lead). destruct (background_spec L s r k bg B Hs Hr Ha) as (k' & B' & Eb). exists k', B'. cbv zeta. unfold line_text. rewrite <- !app_assoc. fold L.
  assert (forall x, exists c y, whole s r ++ x = c :: y /\ c <> 32 /\ c <> 0) as Hw.
  { intros x. unfold whole, stage_text. rewrite <- !app_assoc. apply word_head, Hs. }
  set (m := L ++ whole s r ++ _) in *. assert (skip_spaces m 0 = Some (blen L)) as Hsk.
  { unfold m. destruct (Hw (spaces k ++ amp bg ++ 0 :: B)) as (c & y & -> & Hc & _). pose proof (skip_spaces_spec [] lead c y 0 Hc eq_refl) as Hk. unfold L. by rewrite blen_spaces. }
  assert (exists c, ld m (blen L) = Some c /\ c <> 0) as (c & Hc & Hc0).
  { unfold m. destruct (Hw (spaces k ++ amp bg ++ 0 :: B)) as (c & y & -> & _ & Hc). exists c. split; [by apply ld_app|done]. }
  assert (exists c, ld (L ++ whole s r ++ spaces k' ++ 0 :: B') (blen L) = Some c /\ c <> 0) as (d & Hd & Hd0).
  { destruct (Hw (spaces k' ++ 0 :: B')) as (x & y & -> & _ & Hx). exists x. split; [by apply ld_app|done]. }
  unfold execute. rewrite (safe_Some _ _ _ Hsk), (safe_Some _ _ _ Hc), (proj2 (Z.eqb_neq c 0)) by done. rewrite (safe_Some _ _ _ Eb), (safe_Some _ _ _ Hd), (proj2 (Z.eqb_neq d 0)) by done.
  set (m2 := L ++ whole s r ++ spaces k' ++ 0 :: B'). assert (m2 = (L ++ stage_text s) ++ bars r (spaces k' ++ 0 :: B')) as Em2.
  { unfold m2, whole. rewrite <- !app_assoc, bars_app. done. }
  assert (split_loop (S (length m2)) m2 (blen L) (blen L) 1 = Some (pointers (blen L + blen (stage_text s)) r, L ++ stage_text s ++ cut r (spaces k' ++ 0 :: B'))) as Hsp.
  { assert (length m2 = length L + length (stage_text s) + length (bars r (spaces k' ++ 0%Z :: B')))%nat as El by (by rewrite Em2, !length_app).
    replace (S (length m2)) with (length (stage_text s) + (S (length L) + length (bars r (spaces k' ++ 0%Z :: B'))))%nat by lia.
    rewrite Em2, <- app_assoc, split_scan by (by apply stage_inside). rewrite app_assoc, <- blen_app. rewrite split_stages; [by rewrite <- app_assoc|done|lia| |lia].
    destruct (stage_last L s Hs) as (Y & x & E & Hx & HY). exists Y, x. unfold blen. split; [done|]. split; [done|lia]. }
  rewrite (safe_Some _ _ _ Hsp). by destruct r as [|[[t u] s'] r].
Qed.

Lemma pointers_length q r : length (pointers q r) = length r.
Proof. revert q. induction r as [|[[t u] s] r IH]; intros q; [done|]. cbn [pointers length]. by rewrite IH. Qed.

Definition builtins : list string := ["echo"; "cat"; "ls"; "cd"; "pwd"; "clear"; "uname"; "help"; "exit"; "history"]%string.

Lemma builtins_str : Forall (fun x => str (txt x)) builtins.
Proof. unfold str. apply (bool_decide_unpack _). vm_compute. done. Qed.

Lemma named_spec m p c r w : at_ m p = c ++ 0 :: r -> str c -> str (txt w) ->
  match strcmp (at_ m p) (txt w ++ [0]) with Some v => v =? 0 | None => false end = bool_decide (c = txt w).
Proof.
  intros -> Hc Hw. destruct (strcmp_spec c (txt w) r [] Hc Hw) as (v & -> & Hv). case_bool_decide as Ht.
  - apply Z.eqb_eq. by apply Hv.
  - apply Z.eqb_neq. intros H. by apply Ht, Hv.
Qed.

(** A program in the foreground or the background. *)
Definition run_program (argv : list (list Z)) (bg : bool) : K W unit :=
  pid ← spawn sys (resolve_path (default [] (head argv))) argv;
  if pid <? 0 then puts_raw sys err_notfound else if bg then mret tt else waitpid sys pid.

Lemma run_single_external h A s k B bg w : stage_ok s -> cmd_word s ∉ (txt <$> builtins) ->
  run_single sys patience h (A ++ stage_text s ++ spaces k ++ 0 :: B) (blen A) bg w = (_ ← run_program (stage_argv s) bg; mret true) w.
Proof.
  intros [Hc Hl Hn] Hb. destruct s as [c l]. unfold stage_text, stage_argv. cbn [cmd_word arg_words] in *. rewrite <- app_assoc.
  destruct (behind_spec A c l k B Hc Hl Hn) as (d & m1 & a0 & a & [H1 H2 H3 H4 H5 H6 [rc Hcmd] [rt Ht] (ps & m' & H7 & H8 & H9)]). set (m := A ++ c ++ _) in *.
  assert ((if d =? 32 then m' ← Readline.st m (blen A + blen c) 0; a ← skip_spaces m' (blen A + blen c + 1); Some (m', a) else Some (m, blen A + blen c)) = Some (m1, a)) as H10.
  { destruct (d =? 32) eqn:Ed; [|rewrite (H5 eq_refl); exact H3]. destruct (Readline.st m _ 0) as [m0|]; [|done]. cbn [mbind option_bind] in *. injection H3 as -> ->. by rewrite H4. }
  assert (cstring (at_ m1 a) = Some (tail_text l k)) as Htext by (rewrite Ht; by apply cstring_spec, tail_text_nonzero).
  unfold run_single. rewrite (safe_Some _ _ _ H1), (safe_Some _ _ _ H2), (safe_Some _ _ _ H10), (safe_Some _ _ _ Htext). cbv zeta.
  assert (forall x, x ∈ builtins -> match strcmp (at_ m1 (blen A)) (txt x ++ [0]) with Some v => v =? 0 | None => false end = false) as Hnot.
  { intros x Hx. pose proof builtins_str as Hstr. rewrite (named_spec _ _ c rc); [|done|by apply word_str|exact (proj1 (Forall_forall _ _) Hstr x Hx)].
    apply bool_decide_false. intros ->. apply Hb. by apply list_elem_of_fmap_2. }
  rewrite !Hnot by (apply (bool_decide_unpack _); vm_compute; done). unfold run_external, run_program. cbn [head default option_rect]. unfold id.
  assert (build_argv m1 (blen A) a = Some (blen A :: ps, A ++ m' ++ 0 :: B)) as Hba by (unfold build_argv; rewrite H6; cbn [mbind option_bind]; by rewrite H7).
  pose proof H9 as H9'. apply Forall2_cons in H9' as [H9' _]. apply f_equal with (f := fun x : K W unit => (_ ← x; mret true) w).
  by rewrite (safe_Some _ _ _ Hba), (safe_Some _ _ _ (strings_spec _ _ _ H9)), (safe_Some _ _ _ H9').
Qed.

(** ** What a command line is to do

    A system call with its result. *)
Inductive act :=
| APipe (x : Z * (Z * Z)) | AStart (path : list Z) (argv : list (list Z)) (in_fd out_fd pid : Z) | ASpawn (path : list Z) (argv : list (list Z)) (pid : Z)
| AClose (fd : Z) | AWait (pid : Z) | AWrite (fd : Z) (bs : list Z).
Definition acts (a : act) (w w' : W) : Prop :=
  match a with
  | APipe x => pipe sys w = Ok (x, w')
  | AStart path argv i o pid => spawn_io sys path argv i o w = Ok (pid, w')
  | ASpawn path argv pid => spawn sys path argv w = Ok (pid, w')
  | AClose fd => close sys fd w = Ok (tt, w')
  | AWait pid => waitpid sys pid w = Ok (tt, w')
  | AWrite fd bs => write sys fd bs w = Ok (tt, w')
  end.
(** The calls of [t], in that order and no others, take the system from [w] to [w']. *)
Fixpoint performs (t : list act) (w w' : W) : Prop :=
  match t with [] => w' = w | a :: t' => exists w1, acts a w w1 /\ performs t' w1 w' end.

(** Where stage [i] reads and writes, when [es] are the ends of the pipes between the stages, for reading and for
    writing: -1, its own terminal, at both ends of the pipeline. *)
Definition in_of (first : Z) (es : list (Z * Z)) (i : nat) : Z :=
  match i with O => first | S j => match es !! j with Some e => e.1 | None => -1 end end.
Definition out_of (es : list (Z * Z)) (i : nat) : Z := match es !! i with Some e => e.2 | None => -1 end.
Definition starts (first : Z) (es : list (Z * Z)) (argvs : list (list (list Z))) (pids : list Z) : list act :=
  imap (fun i x => AStart (resolve_path (default [] (head x.1))) x.1 (in_of first es i) (out_of es i) x.2) (zip argvs pids).
Definition made (x : Z * (Z * Z)) : Prop := 0 <= x.1.

(** A pipeline: a pipe between every two stages; every stage is started, between its neighbours' pipes; both ends of
    every pipe are closed; and unless it runs in the background, the stages that could be started are awaited, the
    last one first. When a pipe cannot be made, a message is written and nothing is started. *)
Inductive pipeline (argvs : list (list (list Z))) (bg : bool) : list act -> Prop :=
| connected ps pids : length ps = (length argvs - 1)%nat -> length pids = length argvs -> Forall made ps ->
    let es := snd <$> ps in
    pipeline argvs bg ((APipe <$> ps) ++ starts (-1) es argvs pids ++ (AClose <$> concat ((fun e => [e.1; e.2]) <$> es)) ++
      (if bg then [] else AWait <$> rev (filter (fun pid => 0 <= pid) pids)))
| refused ps x : (length ps < length argvs - 1)%nat -> Forall made ps -> x.1 < 0 ->
    pipeline argvs bg ((APipe <$> ps) ++ [APipe x; AWrite 1 (txt "pipe: failed" ++ [10])]).
(** One program. *)
Definition single (argv : list (list Z)) (bg : bool) (t : list act) : Prop := exists pid,
  t = ASpawn (resolve_path (default [] (head argv))) argv pid ::
      (if pid <? 0 then [AWrite 1 (txt "command not found" ++ [10])] else if bg then [] else [AWait pid]).

(** Every call of the system returns. *)
Record total : Prop := {
  to_pipe w : exists x w', pipe sys w = Ok (x, w');
  to_spawn_io path argv i o w : exists pid w', spawn_io sys path argv i o w = Ok (pid, w');
  to_spawn path argv w : exists pid w', spawn sys path argv w = Ok (pid, w');
  to_close fd w : exists w', close sys fd w = Ok (tt, w');
  to_wait pid w : exists w', waitpid sys pid w = Ok (tt, w');
  to_write fd bs w : exists w', write sys fd bs w = Ok (tt, w') }.

Lemma performs_app t1 t2 w w1 w2 : performs t1 w w1 -> performs t2 w1 w2 -> performs (t1 ++ t2) w w2.
Proof. revert w. induction t1 as [|a t1 IH]; intros w; cbn; [by intros ->|]. intros (w' & Ha & H1) H2. eauto. Qed.

Section returns.
Context (Htot : total).

Lemma make_pipes_acts n w :
  (exists ps w', make_pipes sys n w = Ok (Some (snd <$> ps), w') /\ length ps = n /\ Forall made ps /\ performs (APipe <$> ps) w w') \/
  (exists ps x w', make_pipes sys n w = Ok (None, w') /\ (length ps < n)%nat /\ Forall made ps /\ x.1 < 0 /\ performs ((APipe <$> ps) ++ [APipe x]) w w').
Proof.
  revert w. induction n as [|n IH]; intros w; cbn [make_pipes]; [left; by exists [], w|]. destruct (to_pipe Htot w) as ([r e] & w1 & E). rewrite (K_bind_Ok _ _ _ _ _ E).
  destruct (Z.ltb_spec r 0) as [Hr|Hr].
  - right. exists [], (r, e), w1. split; [done|]. split; [cbn; lia|]. split; [done|]. split; [done|]. cbn. eauto.
  - destruct (IH w1) as [(ps & w2 & E2 & Hl & Hm & Hp)|(ps & x & w2 & E2 & Hl & Hm & Hx & Hp)]; rewrite (K_bind_Ok _ _ _ _ _ E2).
    + left. exists ((r, e) :: ps), w2. split; [done|]. split; [cbn; lia|]. split; [by constructor|]. cbn. eauto.
    + right. exists ((r, e) :: ps), x, w2. split; [done|]. split; [cbn; lia|]. split; [by constructor|]. split; [done|]. cbn. eauto.
Qed.

Lemma start_all_acts argvs es first w : exists pids w', start_all argvs es first w = Ok (pids, w') /\ length pids = length argvs /\ performs (starts first es argvs pids) w w'.
Proof.
  revert es first w. induction argvs as [|argv argvs IH]; intros es first w; cbn [start_all]; [by exists [], w|].
  destruct (to_spawn_io Htot (resolve_path (default [] (head argv))) argv first (match es with (_, w) :: _ => w | [] => -1 end) w) as (pid & w1 & E). rewrite (K_bind_Ok _ _ _ _ _ E).
  destruct (IH (tail es) (match es with (r, _) :: _ => r | [] => -1 end) w1) as (pids & w2 & E2 & Hl & Hp). rewrite (K_bind_Ok _ _ _ _ _ E2).
  exists (pid :: pids), w2. split; [done|]. split; [cbn; lia|]. unfold starts. cbn [zip_with imap fst snd]. exists w1. split.
  - cbn. unfold out_of. replace (match es !! 0%nat with Some e => e.2 | None => -1 end) with (match es with (_, w) :: _ => w | [] => -1 end); [exact E|]. by destruct es as [|[]].
  - assert (forall i x, AStart (resolve_path (default [] (head x.1))) x.1 (in_of first es (S i)) (out_of es (S i)) x.2 =
      AStart (resolve_path (default [] (head x.1))) x.1 (in_of (match es with (r, _) :: _ => r | [] => -1 end) (tail es) i) (out_of (tail es) i) x.2) as Hs.
    { intros i x. destruct es as [|[r o] es]; [by destruct i|]. by destruct i. }
    unfold starts in Hp. erewrite imap_ext; [exact Hp|]. intros i x _. apply Hs.
Qed.

Lemma close_pipes_acts es w : exists w', close_pipes sys es w = Ok (tt, w') /\ performs (AClose <$> concat ((fun e => [e.1; e.2]) <$> es)) w w'.
Proof.
  revert w. induction es as [|[r o] es IH]; intros w; cbn [close_pipes]; [by exists w|]. destruct (to_close Htot r w) as (w1 & E1), (to_close Htot o w1) as (w2 & E2), (IH w2) as (w3 & E3 & Hp).
  rewrite (K_bind_Ok _ _ _ _ _ E1), (K_bind_Ok _ _ _ _ _ E2). exists w3. split; [done|]. cbn. eauto.
Qed.

Lemma wait_all_acts pids w : exists w', wait_all sys pids w = Ok (tt, w') /\ performs (AWait <$> filter (fun pid => 0 <= pid) pids) w w'.
Proof.
  revert w. induction pids as [|pid pids IH]; intros w; cbn [wait_all]; [by exists w|]. rewrite filter_cons. destruct (Z.leb_spec 0 pid) as [Hp|Hp].
  - destruct (to_wait Htot pid w) as (w1 & E1), (IH w1) as (w2 & E2 & H2). rewrite decide_True by done. rewrite (K_bind_Ok _ _ _ _ _ E1). exists w2. split; [done|]. cbn. eauto.
  - rewrite decide_False by lia. apply IH.
Qed.

Lemma wait_order pids : filter (fun pid => 0 <= pid) (rev pids) = rev (filter (fun pid => 0 <= pid) pids).
Proof.
  induction pids as [|pid pids IH]; [done|]. cbn [rev]. rewrite filter_app, IH, !filter_cons, filter_nil. case_decide; cbn [rev]; [done|]. by rewrite app_nil_r.
Qed.

Lemma run_pipeline_acts r A s k B bg w : stage_ok s -> Forall (fun x => stage_ok x.2) r ->
  exists t w', run_pipeline sys (A ++ stage_text s ++ cut r (spaces k ++ 0 :: B)) (blen A :: pointers (blen A + blen (stage_text s)) r) bg w = Ok (tt, w') /\
    performs t w w' /\ pipeline (stage_argv s :: ((fun x => stage_argv x.2) <$> r)) bg t.
Proof.
  intros Hs Hr. set (argvs := stage_argv s :: _). assert (length (blen A :: pointers (blen A + blen (stage_text s)) r) = length argvs) as El by (unfold argvs; by rewrite !length_cons, pointers_length, length_fmap).
  unfold run_pipeline. rewrite El. destruct (make_pipes_acts (length argvs - 1) w) as [(ps & w1 & E1 & Hl & Hm & P1)|(ps & x & w1 & E1 & Hl & Hm & Hx & P1)]; rewrite (K_bind_Ok _ _ _ _ _ E1).
  - destruct (start_all_acts argvs (snd <$> ps) (-1) w1) as (pids & w2 & E2 & Hl2 & P2). unfold argvs in E2. rewrite <- (spawn_all_spec r A s k B) in E2 by done. rewrite (K_bind_Ok _ _ _ _ _ E2).
    destruct (close_pipes_acts (snd <$> ps) w2) as (w3 & E3 & P3). rewrite (K_bind_Ok _ _ _ _ _ E3).
    assert (exists w4, (if bg then mret tt else wait_all sys (rev pids)) w3 = Ok (tt, w4) /\ performs (if bg then [] else AWait <$> rev (filter (fun pid => 0 <= pid) pids)) w3 w4) as (w4 & E4 & P4).
    { destruct bg; [by exists w3|]. destruct (wait_all_acts (rev pids) w3) as (w4 & E4 & P4). exists w4. split; [done|]. by rewrite <- wait_order. }
    eexists _, w4. split; [exact E4|]. split; [|by apply connected; [..|exact Hm]]. eapply performs_app; [exact P1|]. eapply performs_app; [exact P2|]. eapply performs_app; [exact P3|exact P4].
  - destruct (to_write Htot 1 err_pipe w1) as (w2 & E2). eexists _, w2. split; [exact E2|]. split; [|by apply (refused _ _ ps x)].
    change [APipe x; AWrite 1 (txt "pipe: failed" ++ [10])] with ([APipe x] ++ [AWrite 1 err_pipe]). rewrite app_assoc. eapply performs_app; [exact P1|]. exists w2. by split; [exact E2|].
Qed.

Lemma run_program_acts argv bg w : exists t w', run_program argv bg w = Ok (tt, w') /\ performs t w w' /\ single argv bg t.
Proof.
  unfold run_program. destruct (to_spawn Htot (resolve_path (default [] (head argv))) argv w) as (pid & w1 & E1). rewrite (K_bind_Ok _ _ _ _ _ E1).
  assert (exists w2, (if pid <? 0 then puts_raw sys err_notfound else if bg then mret tt else waitpid sys pid) w1 = Ok (tt, w2) /\
    performs (if pid <? 0 then [AWrite 1 err_notfound] else if bg then [] else [AWait pid]) w1 w2) as (w2 & E2 & P2).
  { destruct (pid <? 0); [|destruct bg; [by exists w1|]].
    - destruct (to_write Htot 1 err_notfound w1) as (w2 & E2). exists w2. split; [exact E2|]. by exists w2.
    - destruct (to_wait Htot pid w1) as (w2 & E2). exists w2. split; [exact E2|]. by exists w2. }
  eexists _, w2. split; [exact E2|]. split; [|by exists pid]. exists w1. split; [exact E1|exact P2].
Qed.
End returns.

(** C24: the shell runs what is typed. Take a line of one to four stages separated by bars, each a command with up to
    eight arguments, words of any characters but blanks, control characters and bars, with any spaces between them and
    perhaps an ampersand at the end (which the last word has only then), on any system whose calls return, with
    whatever results. Execution makes exactly the calls of [pipeline]: a pipe between every two stages; every stage
    started with exactly its words and connected to its neighbours; both ends of every pipe closed; the stages that
    could be started awaited from right to left, unless there was an ampersand; or, when a pipe cannot be made, a
    message and no stage started at all. A single command that is not built in is started and awaited ([single]).
    The line is never left. *)
Theorem execute_correct h lead s r k bg B w : total -> line_ok s r bg -> (r = [] -> cmd_word s ∉ (txt <$> builtins)) ->
  exists t w', execute sys patience h (line_text lead s r k bg ++ 0 :: B) w = Ok (true, w') /\ performs t w w' /\
    (if bool_decide (r = []) then single (stage_argv s) (bool_decide (bg <> None)) t
     else pipeline (stage_argv s :: ((fun x => stage_argv x.2) <$> r)) (bool_decide (bg <> None)) t).
Proof.
  intros Htot Hok Hb. destruct (execute_split h lead s r k bg B Hok) as (k' & B' & E). rewrite E. destruct Hok as [Hs Hr _ _]. destruct r as [|x r].
  - rewrite run_single_external by (done || by apply Hb). destruct (run_program_acts Htot (stage_argv s) (bool_decide (bg <> None)) w) as (t & w' & E1 & P & Hsp).
    exists t, w'. by rewrite (K_bind_Ok _ _ _ _ _ E1).
  - destruct (run_pipeline_acts Htot (x :: r) (spaces lead) s k' B' (bool_decide (bg <> None)) w Hs Hr) as (t & w' & E1 & P & Hsp).
    exists t, w'. cbv zeta. by rewrite (K_bind_Ok _ _ _ _ _ E1).
Qed.

(** ** Redirection *)

Lemma find_gt_spec A x l p : Forall (fun c => c <> 0 /\ c <> 62) x -> find_gt (at_ (A ++ x ++ l) (blen A)) p = find_gt l (p + blen x).
Proof.
  intros Hx. rewrite at_app. revert p. induction Hx as [|c x [H1 H2] Hx IH]; intros p; [unfold blen; cbn; by rewrite Z.add_0_r|].
  cbn [app find_gt]. rewrite (proj2 (Z.eqb_neq c 0)), (proj2 (Z.eqb_neq c 62)), IH by done. f_equal. unfold blen. cbn [length]. lia.
Qed.

Lemma trim_all t A l : trim_back t (A ++ spaces t ++ l) (blen A - 1 + Z.of_nat t) = Some (blen A - 1).
Proof.
  revert l. induction t as [|t IH]; intros l; cbn [trim_back]; [f_equal; lia|]. rewrite spaces_snoc, <- app_assoc. cbn [app]. rewrite app_assoc, ld_app by (rewrite blen_app, blen_spaces; lia).
  cbn [mbind option_bind Z.eqb Pos.eqb]. rewrite <- app_assoc. replace (blen A - 1 + Z.of_nat (S t) - 1) with (blen A - 1 + Z.of_nat t) by lia. apply IH.
Qed.
Lemma cut_at t : exists c G, spaces t ++ [62] = c :: G /\ blen G = Z.of_nat t.
Proof. destruct t as [|t]; [by exists 62, []|]. exists 32, (spaces t ++ [62]). split; [done|]. rewrite blen_app, blen_spaces. change (blen [62]) with 1. lia. Qed.

(** [echo text > path] writes the text and a newline to the file, without the spaces before the sign. *)
Theorem echo_redirect A text t u path B w : Forall (fun c => c <> 0 /\ c <> 62) text -> last text <> Some 32 -> Forall (fun c => c <> 0) path -> head path <> Some 32 ->
  builtin_echo sys (A ++ text ++ spaces t ++ 62 :: spaces u ++ path ++ 0 :: B) (blen A) w =
  (fd ← open sys path (Z.lor (Z.lor O_WRONLY O_CREAT) O_TRUNC) 0x1a4;
   if fd <? 0 then puts_raw sys err_redir
   else _ ← (if 0 <? blen text then write sys fd text else mret tt); _ ← write sys fd [10]; close sys fd) w.
Proof.
  intros Ht Hl Hp Hh. set (m := A ++ _). set (gt := blen A + (blen text + Z.of_nat t)).
  assert (find_gt (at_ m (blen A)) (blen A) = Some (Some gt)) as Hgt.
  { unfold m. rewrite find_gt_spec by done. assert (Forall (fun c => c <> 0 /\ c <> 62) (spaces t)) as Hs by (apply Forall_replicate; lia).
    pose proof (find_gt_spec [] (spaces t) (62 :: spaces u ++ path ++ 0 :: B) (blen A + blen text) Hs) as E. rewrite at_app in E. rewrite E, blen_spaces. cbn [find_gt Z.eqb Pos.eqb]. do 2 f_equal. unfold gt. lia. }
  assert (trim_back (Z.to_nat (gt - blen A)) m (gt - 1) = Some (blen A + blen text - 1)) as Htr.
  { unfold m, gt. destruct text as [|x text _] using rev_ind.
    - cbn [app]. change (blen []) with 0. replace (Z.to_nat (blen A + (0 + Z.of_nat t) - blen A)) with t by lia. replace (blen A + (0 + Z.of_nat t) - 1) with (blen A - 1 + Z.of_nat t) by lia.
      replace (blen A + 0 - 1) with (blen A - 1) by lia. apply trim_all.
    - rewrite <- (app_assoc text). rewrite (app_assoc A text). cbn [app]. rewrite last_snoc in Hl. rewrite blen_app. change (blen [x]) with 1.
      replace (blen A + (blen text + 1 + Z.of_nat t) - 1) with (blen (A ++ text) + Z.of_nat t) by (rewrite blen_app; lia). rewrite trim_back_spec by (congruence || (pose proof (blen_nonneg text); lia)).
      f_equal. rewrite blen_app. lia. }
  destruct (cut_at t) as (c & G & Eg & HG). assert (m = (A ++ text) ++ c :: G ++ spaces u ++ path ++ 0 :: B) as Em.
  { unfold m. rewrite <- app_assoc. do 2 f_equal. change (62 :: spaces u ++ path ++ 0 :: B) with ([62] ++ spaces u ++ path ++ 0 :: B). by rewrite app_assoc, Eg. }
  set (m1 := (A ++ text) ++ 0 :: G ++ spaces u ++ path ++ 0 :: B).
  assert (Readline.st m (blen A + blen text - 1 + 1) 0 = Some m1) as Hst by (rewrite Em; apply Readline.st_spec; rewrite blen_app; lia).
  assert ((p ← skip_spaces m1 (gt + 1); cstring (at_ m1 p)) = Some path) as Hpath.
  { unfold m1. replace ((A ++ text) ++ 0 :: G ++ spaces u ++ path ++ 0 :: B) with ((A ++ text ++ 0 :: G) ++ spaces u ++ path ++ 0 :: B) by (rewrite <- !app_assoc; cbn; by rewrite <- ?app_assoc).
    assert (gt + 1 = blen (A ++ text ++ 0 :: G)) as Hg by (rewrite !blen_app; unfold gt, blen in *; cbn [length]; lia).
    assert (exists x y, path ++ 0 :: B = x :: y /\ x <> 32) as (x & y & E & Hx) by (destruct path as [|x path]; [by exists 0, B|exists x, (path ++ 0 :: B); split; [done|by intros ->]]).
    rewrite E, skip_spaces_spec, <- E by done. cbn [mbind option_bind]. rewrite at_app_n by (rewrite Hg, blen_spaces; done). by apply cstring_spec. }
  assert (cstring (at_ m1 (blen A)) = Some text) as Htext.
  { unfold m1. rewrite <- app_assoc, at_app. apply cstring_spec. eapply Forall_impl; [exact Ht|]. by intros x []. }
  unfold builtin_echo. rewrite (safe_Some _ _ _ Hgt), (safe_Some _ _ _ Htr), (safe_Some _ _ _ Hst), (safe_Some _ _ _ Hpath).
  apply K_bind_ext. intros fd w'. destruct (fd <? 0); [done|]. by rewrite (safe_Some _ _ _ Htext).
Qed.

End run.

(** ** A system that records the calls *)

Inductive call :=
| Write (fd : Z) (bs : list Z) | Open (path : list Z) | Close (fd : Z) | Chdir (path : list Z)
| Spawn (path : list Z) (argv : list (list Z)) (in_fd out_fd : Z) | Pipe | Wait (pid : Z).

(** The calls so far, and how many pipes can still be made. A process has the number of the call as its identifier. *)
Record recorder := mk_recorder { log : list call; pipes_left : nat }.
Definition record (c : call) (w : recorder) : recorder := mk_recorder (log w ++ [c]) (pipes_left w).
Definition number (w : recorder) : Z := Z.of_nat (length (log w)).
Definition demo : os recorder := mk_os recorder
  (fun fd bs w => Ok (tt, record (Write fd bs) w))
  (fun fd n w => Ok ((0, []), w))
  (fun path flags mode w => Ok (3, record (Open path) w))
  (fun fd w => Ok (tt, record (Close fd) w))
  (fun n w => Ok (Some [47], w))
  (fun path w => Ok (0, record (Chdir path) w))
  (fun path n w => Ok ((0, []), w))
  (fun path argv w => Ok (number w, record (Spawn path argv (-1) (-1)) w))
  (fun path argv i o w => Ok (number w, record (Spawn path argv i o) w))
  (fun w => match pipes_left w with
            | O => Ok ((-1, (0, 0)), w)
            | S n => Ok ((0, (10 * number w + 10, 10 * number w + 11)), mk_recorder (log w ++ [Pipe]) n)
            end)
  (fun pid w => Ok (tt, record (Wait pid) w)).
Definition calls (o : outcome (bool * recorder)) : list call := match o with Ok (_, w) => log w | Panic _ => [] end.
Definition typed (line : string) (n : nat) : list call := calls (execute demo 1 Readline.init (txt line ++ zeros 100) (mk_recorder [] n)).

(** "cat f | grep  x &" *)
Definition demo_first : stage := mk_stage (txt "cat") [(0%nat, txt "f")].
Definition demo_rest : stages := [(1%nat, 1%nat, mk_stage (txt "grep") [(1%nat, txt "x")])].

Lemma demo_word w : bool_decide (w <> [] /\ Forall (fun c => 32 < c < 256 /\ c <> 124) w) = true -> word w.
Proof. by intros H%bool_decide_eq_true. Qed.
Lemma demo_line_ok : line_ok demo_first demo_rest (Some 0%nat).
Proof.
  assert (stage_ok demo_first) as H1 by (split; [by apply demo_word|apply Forall_singleton; by apply demo_word|cbn; lia]).
  assert (stage_ok (mk_stage (txt "grep") [(1%nat, txt "x")])) as H2 by (split; [by apply demo_word|apply Forall_singleton; by apply demo_word|cbn; lia]).
  split; [done|by apply Forall_singleton|unfold MAX_PIPE_SEGS; cbn; lia|done].
Qed.

Lemma demo_total : total demo.
Proof. split; intros; cbn; eauto. destruct (pipes_left w); eauto. Qed.

Lemma execute_correct_witness : exists B t w', txt "cat f | grep  x &" ++ zeros 100 = line_text 0 demo_first demo_rest 1 (Some 0%nat) ++ 0 :: B /\
  execute demo 1 Readline.init (line_text 0 demo_first demo_rest 1 (Some 0%nat) ++ 0 :: B) (mk_recorder [] 3) = Ok (true, w') /\
  performs demo t (mk_recorder [] 3) w' /\ pipeline [[txt "cat"; txt "f"]; [txt "grep"; txt "x"]] true t.
Proof.
  destruct (execute_correct demo 1 Readline.init 0 demo_first demo_rest 1 (Some 0%nat) (zeros 99) (mk_recorder [] 3) demo_total demo_line_ok) as (t & w' & E & P & Hsp); [done|].
  exists (zeros 99), t, w'. split; [vm_compute; reflexivity|]. split; [exact E|]. split; [exact P|exact Hsp].
Defined.

(** What the specification amounts to on that system. *)
Example pipeline_calls : typed "cat f | grep  x | wc" 3 =
  [Pipe; Pipe; Spawn (txt "/bin/cat") [txt "cat"; txt "f"] (-1) 11; Spawn (txt "/bin/grep") [txt "grep"; txt "x"] 10 21;
   Spawn (txt "/bin/wc") [txt "wc"] 20 (-1); Close 10; Close 11; Close 20; Close 21; Wait 4; Wait 3; Wait 2].
Proof. vm_compute. reflexivity. Qed.

(** ** Where it goes wrong *)

(** Two bars with only spaces between them: the second bar is taken for the command of the stage between them. *)
Example empty_stage_runs_bar : typed "a | | b" 3 =
  [Pipe; Pipe; Spawn (txt "/bin/a") [txt "a"] (-1) 11; Spawn (txt "/bin/|") [txt "|"; txt "b"] 10 21; Spawn (txt "/bin/b") [txt "b"] 20 (-1);
   Close 10; Close 11; Close 20; Close 21; Wait 4; Wait 3; Wait 2].
Proof. vm_compute. reflexivity. Qed.

(** When a pipe cannot be made, the ones made before stay open. *)
Example pipes_are_leaked : typed "a | b | c" 1 = [Pipe; Write 1 (txt "pipe: failed" ++ [10])].
Proof. vm_compute. reflexivity. Qed.

(** The ninth argument is dropped without a word. *)
Example ninth_argument_dropped : typed "p 1 2 3 4 5 6 7 8 9" 3 =
  [Spawn (txt "/bin/p") (txt <$> ["p"; "1"; "2"; "3"; "4"; "5"; "6"; "7"; "8"]%string) (-1) (-1); Wait 0].
Proof. vm_compute. reflexivity. Qed.

(** A built-in command is not built in when it is a stage of a pipeline: the shell looks for a program. *)
Example builtin_in_pipeline : typed "echo hi | cat" 3 =
  [Pipe; Spawn (txt "/bin/echo") [txt "echo"; txt "hi"] (-1) 11; Spawn (txt "/bin/cat") [txt "cat"] 10 (-1); Close 10; Close 11; Wait 2; Wait 1].
Proof. vm_compute. reflexivity. Qed.

End Shell.
