(* ===== verification/Acpi.v ===== *)
(** * The ACPI tables

    Models [kernel/acpi/acpi.c]: the walk from the root pointer over the tables of the firmware, the parsers of the
    MADT (processors and I/O APIC) and of the FADT (power control), and the port writes of poweroff and reboot.
    Memory is a function from addresses to bytes, [None] where nothing is mapped: an access there is a fault, so that
    the theorems say which bytes the parsers touch. Addresses of tables are far from the end of the address space and
    do not wrap. Output to the serial port is left out. *)

From S2P Require Import Prelude Bytes.

Module Acpi.

Definition ACPI_MAX_CPUS : Z := 64.
Definition MADT_TYPE_LOCAL_APIC : Z := 0.
Definition MADT_TYPE_IOAPIC : Z := 1.
Definition sizeof_sdt_header : Z := 36.
Definition sizeof_madt : Z := 44.
Definition FAULT : string := "access to memory that is not mapped".
Definition FUEL : string := "a loop over a table does not end".

Record acpi_madt_info := mk_info {
  local_apic_base : Z; ioapic_base : Z; ioapic_id : Z; ioapic_gsi_base : Z; ioapic_found : bool;
  cpu_lapic_ids : list Z; cpu_count : Z
}.
Record acpi := mk_acpi {
  madt_info : acpi_madt_info; madt_valid : bool;
  s_pm1a_cnt : Z; s_pm1b_cnt : Z; s_slp_typ_s5 : Z; s_fadt_valid : bool
}.
Definition set_info i s := mk_acpi i (madt_valid s) (s_pm1a_cnt s) (s_pm1b_cnt s) (s_slp_typ_s5 s) (s_fadt_valid s).
Definition set_valid b s := mk_acpi (madt_info s) b (s_pm1a_cnt s) (s_pm1b_cnt s) (s_slp_typ_s5 s) (s_fadt_valid s).
Definition set_pm1 a b s := mk_acpi (madt_info s) (madt_valid s) a b (s_slp_typ_s5 s) (s_fadt_valid s).
Definition set_s5 v s := mk_acpi (madt_info s) (madt_valid s) (s_pm1a_cnt s) (s_pm1b_cnt s) v (s_fadt_valid s).
Definition set_fadt b s := mk_acpi (madt_info s) (madt_valid s) (s_pm1a_cnt s) (s_pm1b_cnt s) (s_slp_typ_s5 s) b.

(** The assignments before the loop of [parse_madt], and those of its two cases. *)
Definition start_info (base : Z) (i : acpi_madt_info) : acpi_madt_info :=
  mk_info base (ioapic_base i) (ioapic_id i) (ioapic_gsi_base i) false (cpu_lapic_ids i) 0.
Definition add_cpu (id : Z) (i : acpi_madt_info) : acpi_madt_info :=
  mk_info (local_apic_base i) (ioapic_base i) (ioapic_id i) (ioapic_gsi_base i) (ioapic_found i) (aset (cpu_lapic_ids i) (cpu_count i) id) (cpu_count i + 1).
Definition set_ioapic (base id gsi : Z) (i : acpi_madt_info) : acpi_madt_info :=
  mk_info (local_apic_base i) base id gsi true (cpu_lapic_ids i) (cpu_count i).

Section memory.
Context (m : Z -> option Z) (dm_base : Z).

(** [n] bytes at an address, little-endian. *)
Definition fetch (n : nat) (a : Z) : option (list Z) := mapM m (seqZ a (Z.of_nat n)).
Definition load {S} (n : nat) (a : Z) : K S Z := fun s => match fetch n a with Some bs => Ok (le_val bs, s) | None => Panic FAULT end.

Definition phys (addr : Z) : Z := u64 (dm_base + addr).

Fixpoint sum_loop {S} (n : nat) (a sum : Z) : K S Z :=
  match n with
  | O => mret sum
  | S n' => b ← load 1 a; sum_loop n' (a + 1) (u8 (sum + b))
  end.
Definition verify_checksum {S} (table length : Z) : K S bool := sum ← sum_loop (Z.to_nat length) table 0; mret (sum =? 0).

(** ** The MADT *)

Definition local_apic (ptr : Z) : K acpi unit :=
  flags ← load 4 (ptr + 4);
  i ← gets madt_info;
  if negb (Z.land flags 3 =? 0) && (cpu_count i <? ACPI_MAX_CPUS) then
    id ← load 1 (ptr + 3);
    modify (set_info (add_cpu id i))
  else mret tt.
Definition ioapic (ptr : Z) : K acpi unit :=
  base ← load 4 (ptr + 4);
  id ← load 1 (ptr + 2);
  gsi ← load 4 (ptr + 8);
  i ← gets madt_info;
  modify (set_info (set_ioapic base id gsi i)).

Fixpoint madt_loop (fuel : nat) (ptr end_ : Z) : K acpi unit :=
  match fuel with
  | O => panic FUEL
  | S f =>
      if ptr + 2 <=? end_ then
        length ← load 1 (ptr + 1);
        if (length <? 2) || (end_ <? ptr + length) then mret tt
        else
          type ← load 1 ptr;
          i ← gets madt_info;
          _ ← (if type =? MADT_TYPE_LOCAL_APIC then local_apic ptr
               else if (type =? MADT_TYPE_IOAPIC) && negb (ioapic_found i) then ioapic ptr
               else mret tt);
          madt_loop f (ptr + length) end_
      else mret tt
  end.
Definition parse_madt (t : Z) : K acpi unit :=
  len ← load 4 (t + 4);
  ok ← verify_checksum t len;
  if negb ok then mret tt
  else
    base ← load 4 (t + sizeof_sdt_header);
    _ ← modify (fun s => set_info (start_info base (madt_info s)) s);
    _ ← madt_loop (S (Z.to_nat len)) (t + sizeof_madt) (t + len);
    modify (set_valid true).

(** ** The FADT *)

(** The byte behind the first 0x0a from [j] on. *)
Fixpoint prefix_loop {S} (n : nat) (d len j : Z) : K S (option Z) :=
  match n with
  | O => mret None
  | S n' =>
      if j + 1 <? len then
        b ← load 1 (d + j);
        if b =? 0x0a then v ← load 1 (d + j + 1); mret (Some v) else prefix_loop n' d len (j + 1)
      else mret None
  end.
(** Whether the bytes at [a] are [cs]; the comparison stops at the first that differs. *)
Fixpoint matches {S} (a : Z) (cs : list Z) : K S bool :=
  match cs with
  | [] => mret true
  | c :: cs' => b ← load 1 a; if b =? c then matches (a + 1) cs' else mret false
  end.
Definition S5_NAME : list Z := [95; 83; 53; 95].
Fixpoint s5_loop {S} (n : nat) (d len i : Z) : K S (option Z) :=
  match n with
  | O => mret None
  | S n' =>
      if i + 14 <? len then
        b ← matches (d + i) S5_NAME;
        if (b : bool) then prefix_loop 14 d len (i + 4) else s5_loop n' d len (i + 1)
      else mret None
  end.
Definition parse_fadt (f : Z) : K acpi unit :=
  len ← load 4 (f + 4);
  ok ← verify_checksum f len;
  if negb ok then mret tt
  else
    a ← load 4 (f + 64);
    b ← load 4 (f + 68);
    _ ← modify (set_pm1 (Z.land a 0xffff) (Z.land b 0xffff));
    dsdt ← load 4 (f + 40);
    _ ← (if negb (dsdt =? 0) then
           let d := phys dsdt in
           len ← load 4 (d + 4);
           r ← s5_loop (Z.to_nat len) d len 4;
           match r with Some v => modify (set_s5 v) | None => mret tt end
         else mret tt);
    modify (set_fadt true).

(** ** The root tables *)

Definition APIC : list Z := [65; 80; 73; 67].
Definition FACP : list Z := [70; 65; 67; 80].
Definition XSDT : list Z := [88; 83; 68; 84].
Definition RSDT : list Z := [82; 83; 68; 84].
Definition RSD_PTR : list Z := [82; 83; 68; 32; 80; 84; 82; 32].

Fixpoint scan_sdt_entries (count : nat) (p : Z) (entry_size : nat) : K acpi unit :=
  match count with
  | O => mret tt
  | S c =>
      addr ← load entry_size p;
      let hdr := phys addr in
      b ← matches hdr APIC;
      _ ← (if (b : bool) then parse_madt hdr
           else b ← matches hdr FACP; if (b : bool) then parse_fadt hdr else mret tt);
      scan_sdt_entries c (p + Z.of_nat entry_size) entry_size
  end.
Definition parse_root (t : Z) (entry_size : nat) (msg : string) : K acpi unit :=
  len ← load 4 (t + 4);
  ok ← verify_checksum t len;
  if negb ok then panic msg
  else scan_sdt_entries (Z.to_nat (u32 (len - sizeof_sdt_header) / Z.of_nat entry_size)) (t + sizeof_sdt_header) entry_size.
Definition parse_xsdt (x : Z) : K acpi unit := parse_root x 8 "acpi: XSDT checksum invalid".
Definition parse_rsdt (r : Z) : K acpi unit := parse_root r 4 "acpi: RSDT checksum invalid".

Definition acpi_init (rsdp_phys : Z) : K acpi unit :=
  _ ← modify (set_valid false);
  if rsdp_phys =? 0 then mret tt
  else
    let rsdp := phys rsdp_phys in
    b ← matches rsdp RSD_PTR;
    if negb b then panic "acpi: invalid RSDP signature"
    else
      revision ← load 1 (rsdp + 15);
      use_xsdt ← (if 2 <=? revision then x ← load 8 (rsdp + 24); mret (negb (x =? 0)) else mret false);
      if (use_xsdt : bool) then
        xsdt ← load 8 (rsdp + 24);
        b ← matches (phys xsdt) XSDT;
        if negb b then panic "acpi: invalid XSDT signature" else parse_xsdt (phys xsdt)
      else
        rsdt ← load 4 (rsdp + 16);
        b ← matches (phys rsdt) RSDT;
        if negb b then panic "acpi: invalid RSDT signature" else parse_rsdt (phys rsdt).

End memory.

Definition acpi_madt (s : acpi) : option acpi_madt_info := if madt_valid s then Some (madt_info s) else None.

(** The writes to ports, 16 and 8 bits wide; then the processor halts. *)
Definition acpi_poweroff (s : acpi) : list (Z * Z) :=
  if s_fadt_valid s && negb (s_pm1a_cnt s =? 0) then
    let slp_val := u16 (Z.lor (Z.shiftl (s_slp_typ_s5 s) 10) (Z.shiftl 1 13)) in
    (s_pm1a_cnt s, slp_val) :: (if negb (s_pm1b_cnt s =? 0) then [(s_pm1b_cnt s, slp_val)] else [])
  else [].
Definition acpi_reboot : list (Z * Z) := [(0xcf9, 0x06)].

(** ** Reading tables *)

Section reads.
Context (m : Z -> option Z).

(** The bytes [bs] are mapped at [a]. *)
Definition holds (a : Z) (bs : list Z) : Prop := forall i, 0 <= i < blen bs -> m (a + i) = Some (aget 0 bs i).

Lemma holds_slice a bs off n : holds a bs -> 0 <= off -> 0 <= n -> off + n <= blen bs -> holds (a + off) (slice bs off n).
Proof.
  intros H Ho Hn Hl i Hi. rewrite blen_slice in Hi by lia. rewrite aget_slice by lia. rewrite <- Z.add_assoc. apply H. lia.
Qed.

Lemma fetch_spec n a bs : holds a bs -> Z.of_nat n <= blen bs -> fetch m n a = Some (take n bs).
Proof.
  intros H Hn. unfold fetch. apply mapM_Some. apply Forall2_same_length_lookup. unfold blen in *. rewrite length_seqZ, length_take. split; [lia|].
  intros i x y Hx Hy. apply lookup_seqZ in Hx as [-> Hi]. apply lookup_take_Some in Hy as [Hy _]. rewrite H by (unfold blen; lia). rewrite aget_lookup, Nat2Z.id. by rewrite Hy.
Qed.

Lemma load_holds {S} n t tb off (s : S) : holds t tb -> 0 <= off -> off + Z.of_nat n <= blen tb -> load m n (t + off) s = Ok (le_val (slice tb off (Z.of_nat n)), s).
Proof.
  intros H Ho Hl. unfold load. pose proof (holds_slice t tb off (Z.of_nat n) H Ho ltac:(lia) Hl) as Hs. rewrite (fetch_spec n _ _ Hs) by (rewrite blen_slice; lia).
  rewrite take_ge; [done|]. rewrite slice_length by lia. lia.
Qed.

Lemma load8_spec {S} t tb off (s : S) : holds t tb -> 0 <= off < blen tb -> load m 1 (t + off) s = Ok (aget 0 tb off, s).
Proof.
  intros H Ho. unfold load. assert (fetch m 1 (t + off) = Some [aget 0 tb off]) as ->; [|cbn [le_val]; do 2 f_equal; lia].
  unfold fetch. rewrite (seqZ_cons (t + off)) by lia. change (Z.pred (Z.of_nat 1)) with 0. cbn [seqZ]. cbn. by rewrite H.
Qed.

(** The sum of bytes, modulo 256. *)
Definition checksum (bs : list Z) : Z := fold_left (fun sum b => u8 (sum + b)) bs 0.

Lemma sum_loop_spec {S} bs : forall t (s : S) sum, holds t bs -> sum_loop m (length bs) t sum s = Ok (fold_left (fun sum b => u8 (sum + b)) bs sum, s).
Proof.
  induction bs as [|b bs IH]; intros t s sum H; [done|]. cbn [length sum_loop fold_left].
  pose proof (load8_spec t (b :: bs) 0 s H ltac:(unfold blen; cbn; lia)) as El. rewrite Z.add_0_r in El. rewrite (K_bind_Ok _ _ _ _ _ El).
  apply IH. intros i Hi. rewrite <- Z.add_assoc. rewrite H by (unfold blen in *; cbn [length]; lia). f_equal. rewrite !aget_lookup. replace (Z.to_nat (1 + i)) with (Datatypes.S (Z.to_nat i)) by lia. done.
Qed.

Lemma verify_checksum_spec {S} t tb (s : S) : holds t tb -> verify_checksum m t (blen tb) s = Ok (checksum tb =? 0, s).
Proof. intros H. unfold verify_checksum, blen. rewrite Nat2Z.id. by rewrite (K_bind_Ok _ _ _ _ _ (sum_loop_spec tb t s 0 H)). Qed.

(** ** The records of the MADT *)

Inductive record :=
| LocalApic (processor id flags : Z)
| IoApic (id base gsi : Z)
| Other (type : Z) (body : list Z).
Definition enc (r : record) : list Z :=
  match r with
  | LocalApic processor id flags => [0; 8; processor; id] ++ le_bytes 4 flags
  | IoApic id base gsi => [1; 12; id; 0] ++ le_bytes 4 base ++ le_bytes 4 gsi
  | Other type body => [type; 2 + blen body] ++ body
  end.
Definition record_ok (r : record) : Prop :=
  match r with
  | LocalApic _ id flags => is_u32 flags
  | IoApic id base gsi => is_u32 base /\ is_u32 gsi
  | Other type body => type <> 0 /\ type <> 1
  end.
Definition add_record (i : acpi_madt_info) (r : record) : acpi_madt_info :=
  match r with
  | LocalApic _ id flags => if negb (Z.land flags 3 =? 0) && (cpu_count i <? ACPI_MAX_CPUS) then add_cpu id i else i
  | IoApic id base gsi => if ioapic_found i then i else set_ioapic base id gsi i
  | Other _ _ => i
  end.

Lemma slice_mid (a b c : list Z) : slice (a ++ b ++ c) (blen a) (blen b) = b.
Proof. rewrite slice_app_skip by lia. rewrite Z.sub_diag. rewrite slice_app_l by (pose proof (blen_nonneg b); lia). by apply slice_all. Qed.

(** A field of [n] bytes behind the bytes [a] of the record. *)
Lemma load_field {S} n v pre a c t (s : S) off : holds t (pre ++ a ++ le_bytes n v ++ c) -> off = blen a -> 0 <= v < 256 ^ Z.of_nat n ->
  load m n (t + blen pre + off) s = Ok (v, s).
Proof.
  intros H -> Hv. rewrite <- Z.add_assoc, <- blen_app. rewrite app_assoc in H. pose proof (blen_nonneg (pre ++ a)). pose proof (blen_nonneg c).
  rewrite (load_holds n t _ (blen (pre ++ a)) s H) by (lia || (rewrite !(blen_app _ (le_bytes n v ++ c)), (blen_app (le_bytes n v)), blen_le_bytes; lia)).
  rewrite <- (blen_le_bytes n v) at 1. rewrite slice_mid, le_val_bytes. by rewrite Z.mod_small.
Qed.
Lemma load_byte {S} pre a v c t (s : S) off : holds t (pre ++ a ++ v :: c) -> off = blen a -> load m 1 (t + blen pre + off) s = Ok (v, s).
Proof.
  intros H ->. rewrite <- Z.add_assoc, <- blen_app. rewrite app_assoc in H. pose proof (blen_nonneg (pre ++ a)).
  rewrite (load8_spec t _ _ s H) by (rewrite !(blen_app _ (v :: c)); unfold blen; cbn [length]; lia). rewrite aget_lookup. unfold blen. rewrite Nat2Z.id.
  by rewrite lookup_app_r, Nat.sub_diag by done.
Qed.

Lemma enc_length r : 2 <= blen (enc r).
Proof. destruct r; unfold blen, enc; rewrite ?length_app, ?le_bytes_length; cbn [length]; lia. Qed.

Lemma modify_bind {S A} (f : S -> S) (k : unit -> K S A) s : (modify f ≫= k) s = k tt (f s).
Proof. done. Qed.

Lemma concat_length_ge recs : (length recs <= length (concat (enc <$> recs)))%nat.
Proof. induction recs as [|r recs IH]; cbn; [lia|]. rewrite length_app. pose proof (enc_length r). unfold blen in *. lia. Qed.

(** One record. *)
Lemma record_step f t pre r c s end_ : record_ok r -> holds t (pre ++ enc r ++ c) -> t + blen pre + blen (enc r) <= end_ ->
  madt_loop m (S f) (t + blen pre) end_ s = madt_loop m f (t + blen (pre ++ enc r)) end_ (set_info (add_record (madt_info s) r) s).
Proof.
  intros Hr H Hend. pose proof (enc_length r) as Hlen. assert (exists ty rest, enc r = ty :: blen (enc r) :: rest /\ (match r with LocalApic _ _ _ => ty = 0 | IoApic _ _ _ => ty = 1 | Other x _ => ty = x end))
    as (ty & rest & E & Hty).
  { destruct r as [a b d|a b d|x body]; unfold enc, blen; rewrite ?length_app, ?le_bytes_length; cbn [length app]; eexists _, _; (split; [|done]); f_equal; f_equal; lia. }
  cbn [madt_loop]. rewrite (proj2 (Z.leb_le _ _)) by lia. pose proof H as H1. rewrite E in H1.
  rewrite (K_bind_Ok _ _ _ _ _ (load_byte pre [ty] (blen (enc r)) (rest ++ c) t s 1 H1 eq_refl)).
  rewrite (proj2 (Z.ltb_ge _ 2)), (proj2 (Z.ltb_ge end_ _)) by lia. cbn [orb].
  pose proof (load_byte pre [] ty (blen (enc r) :: rest ++ c) t s 0 H1 eq_refl) as Et. rewrite Z.add_0_r in Et. rewrite (K_bind_Ok _ _ _ _ _ Et).
  rewrite (K_bind_Ok (gets madt_info) _ s (madt_info s) s eq_refl). rewrite blen_app, Z.add_assoc.
  match goal with |- (?body ≫= _) s = _ => assert (body s = Ok (tt, set_info (add_record (madt_info s) r) s)) as Eb; [|by rewrite (K_bind_Ok _ _ _ _ _ Eb)] end.
  destruct r as [pr id flags|id base gsi|x body]; subst ty; cbn [add_record enc] in *.
  - cbn [Z.eqb MADT_TYPE_LOCAL_APIC]. unfold local_apic. rewrite (K_bind_Ok _ _ _ _ _ (load_field 4 flags pre [0; 8; pr; id] c t s 4 ltac:(by rewrite <- app_assoc in H) eq_refl Hr)).
    rewrite (K_bind_Ok (gets madt_info) _ s (madt_info s) s eq_refl). destruct (negb _ && _); [|by destruct s].
    by rewrite (K_bind_Ok _ _ _ _ _ (load_byte pre [0; 8; pr] id (le_bytes 4 flags ++ c) t s 3 H eq_refl)).
  - change (1 =? MADT_TYPE_LOCAL_APIC) with false. change (1 =? MADT_TYPE_IOAPIC) with true. cbn [andb]. destruct (ioapic_found (madt_info s)); cbn [negb]; [by destruct s|].
    destruct Hr as [Hb Hg]. unfold ioapic. rewrite <- !app_assoc in H.
    rewrite (K_bind_Ok _ _ _ _ _ (load_field 4 base pre [1; 12; id; 0] (le_bytes 4 gsi ++ c) t s 4 H eq_refl Hb)).
    rewrite (K_bind_Ok _ _ _ _ _ (load_byte pre [1; 12] id (0 :: le_bytes 4 base ++ le_bytes 4 gsi ++ c) t s 2 H eq_refl)).
    by rewrite (K_bind_Ok _ _ _ _ _ (load_field 4 gsi pre ([1; 12; id; 0] ++ le_bytes 4 base) c t s 8 ltac:(by rewrite <- app_assoc) eq_refl Hg)).
  - destruct Hr as [H0 H1']. rewrite (proj2 (Z.eqb_neq x MADT_TYPE_LOCAL_APIC)), (proj2 (Z.eqb_neq x MADT_TYPE_IOAPIC)) by done. cbn [andb]. by destruct s.
Qed.

Lemma records_spec recs t pre s f end_ : Forall record_ok recs -> (length recs < f)%nat -> holds t (pre ++ concat (enc <$> recs)) -> end_ = t + blen (pre ++ concat (enc <$> recs)) ->
  madt_loop m f (t + blen pre) end_ s = Ok (tt, set_info (fold_left add_record recs (madt_info s)) s).
Proof.
  revert pre s f end_. induction recs as [|r recs IH]; intros pre s f end_ HF Hf H ->; (destruct f as [|f]; [cbn in Hf; lia|]).
  - cbn [fmap list_fmap concat madt_loop fold_left]. rewrite app_nil_r, (proj2 (Z.leb_gt _ _)) by lia. by destruct s.
  - apply Forall_cons in HF as [Hr HF]. cbn [fmap list_fmap concat] in *. rewrite (record_step f t pre r (concat (enc <$> recs))); [|done|done|].
    + rewrite IH; [by destruct s|done|cbn in Hf; lia|by rewrite <- app_assoc|by rewrite <- app_assoc].
    + rewrite !blen_app. pose proof (blen_nonneg (concat (enc <$> recs))). lia.
Qed.

(** The processors that can be used, and the first I/O APIC. *)
Definition enabled (recs : list record) : list Z :=
  omap (fun r => match r with LocalApic _ id flags => if Z.land flags 3 =? 0 then None else Some id | _ => None end) recs.
Definition io_apics (recs : list record) : list (Z * Z * Z) := omap (fun r => match r with IoApic id base gsi => Some (id, base, gsi) | _ => None end) recs.

Definition cpus (i : acpi_madt_info) : list Z := take (Z.to_nat (cpu_count i)) (cpu_lapic_ids i).
Record info_ok (i : acpi_madt_info) : Prop := {
  io_array : Z.of_nat (length (cpu_lapic_ids i)) = ACPI_MAX_CPUS;
  io_count : 0 <= cpu_count i <= ACPI_MAX_CPUS;
}.

Lemma add_cpu_ok id i : info_ok i -> cpu_count i < ACPI_MAX_CPUS -> info_ok (add_cpu id i) /\ cpus (add_cpu id i) = cpus i ++ [id].
Proof.
  intros [H1 H2] H3. split; [split; cbn; rewrite ?aset_length; lia|]. unfold cpus, add_cpu, aset. cbn [cpu_count cpu_lapic_ids].
  replace (Z.to_nat (cpu_count i + 1)) with (S (Z.to_nat (cpu_count i))) by lia. rewrite (take_S_r _ _ id) by (apply list_lookup_insert_eq; lia). by rewrite take_insert_ge.
Qed.

Lemma records_cpus recs i : info_ok i -> let i' := fold_left add_record recs i in
  info_ok i' /\ cpus i' = take (Z.to_nat ACPI_MAX_CPUS) (cpus i ++ enabled recs) /\ local_apic_base i' = local_apic_base i.
Proof.
  revert i. induction recs as [|r recs IH]; intros i Hi; cbn [fold_left].
  - split; [done|]. split; [|done]. unfold enabled. cbn. rewrite app_nil_r, take_ge; [done|]. unfold cpus. rewrite length_take. destruct Hi. lia.
  - assert (forall l, length (cpus i) = Z.to_nat ACPI_MAX_CPUS -> take (Z.to_nat ACPI_MAX_CPUS) (cpus i ++ l) = cpus i) as Hfull by (intros l <-; apply take_app_length).
    destruct r as [pr id flags|id base gsi|ty body]; cbn [add_record].
    + unfold enabled. cbn [omap list_omap]. fold (enabled recs). destruct (Z.land flags 3 =? 0); cbn [negb andb]; [by apply IH|].
      destruct (Z.ltb_spec (cpu_count i) ACPI_MAX_CPUS).
      * destruct (add_cpu_ok id i Hi) as [Hi' Ec]; [done|]. destruct (IH _ Hi') as (A & B & C). split; [done|]. split; [|done]. by rewrite B, Ec, <- app_assoc.
      * destruct (IH _ Hi) as (A & B & C). split; [done|]. split; [|done].
        assert (length (cpus i) = Z.to_nat ACPI_MAX_CPUS) by (unfold cpus; rewrite length_take; destruct Hi; lia). by rewrite B, !Hfull.
    + destruct (ioapic_found i); [by apply IH|]. destruct (IH (set_ioapic base id gsi i)) as (A & B & C); [by destruct Hi; split|done].
    + by apply IH.
Qed.

Lemma records_ioapic recs i : let i' := fold_left add_record recs i in
  if ioapic_found i then ioapic_found i' = true /\ (ioapic_id i', ioapic_base i', ioapic_gsi_base i') = (ioapic_id i, ioapic_base i, ioapic_gsi_base i)
  else match io_apics recs with
       | [] => ioapic_found i' = false
       | x :: _ => ioapic_found i' = true /\ (ioapic_id i', ioapic_base i', ioapic_gsi_base i') = x
       end.
Proof.
  revert i. induction recs as [|r recs IH]; intros i; cbn [fold_left]; [by destruct (ioapic_found i) eqn:E|].
  specialize (IH (add_record i r)). destruct r as [pr id flags|id base gsi|ty body]; cbn [add_record] in *.
  - unfold io_apics. cbn [omap list_omap]. fold (io_apics recs). by destruct (negb _ && _).
  - destruct (ioapic_found i) eqn:E; cbn [ioapic_found set_ioapic] in IH; [by rewrite E in IH|]. by unfold io_apics.
  - by unfold io_apics.
Qed.

(** A MADT with these records. *)
Record madt_ok (tb : list Z) (base : Z) (recs : list record) : Prop := {
  mo_bytes : exists h fl, tb = h ++ le_bytes 4 base ++ fl ++ concat (enc <$> recs) /\ blen h = sizeof_sdt_header /\ blen fl = 4;
  mo_length : le_val (slice tb 4 4) = blen tb;
  mo_sum : checksum tb = 0;
  mo_base : is_u32 base;
  mo_records : Forall record_ok recs;
}.

Lemma parse_madt_spec t tb base recs s : holds t tb -> madt_ok tb base recs ->
  parse_madt m t s = Ok (tt, set_valid true (set_info (fold_left add_record recs (start_info base (madt_info s))) s)).
Proof.
  intros H [(h & fl & E & Hh & Hfl) Hlen Hsum Hb Hr]. unfold parse_madt. pose proof (blen_nonneg (concat (enc <$> recs))). assert (blen tb = 44 + blen (concat (enc <$> recs))) as El.
  { rewrite E, !blen_app, blen_le_bytes, Hh, Hfl. unfold sizeof_sdt_header. lia. }
  rewrite (K_bind_Ok _ _ _ _ _ (load_holds 4 t tb 4 s H ltac:(lia) ltac:(lia))). change (Z.of_nat 4) with 4. rewrite Hlen.
  rewrite (K_bind_Ok _ _ _ _ _ (verify_checksum_spec t tb s H)). rewrite Hsum. cbn [Z.eqb negb].
  pose proof (load_field 4 base [] h (fl ++ concat (enc <$> recs)) t s sizeof_sdt_header ltac:(by rewrite <- E) ltac:(done) Hb) as Ebase.
  change (blen []) with 0 in Ebase. rewrite Z.add_0_r in Ebase. rewrite (K_bind_Ok _ _ _ _ _ Ebase).
  set (s1 := set_info (start_info base (madt_info s)) s). rewrite modify_bind. fold s1.
  assert (tb = (h ++ le_bytes 4 base ++ fl) ++ concat (enc <$> recs)) as E2 by (rewrite E, <- !app_assoc; done).
  assert (blen (h ++ le_bytes 4 base ++ fl) = sizeof_madt) as E3 by (rewrite !blen_app, blen_le_bytes, Hh, Hfl; done).
  pose proof (records_spec recs t (h ++ le_bytes 4 base ++ fl) s1 (S (Z.to_nat (blen tb))) (t + blen tb) Hr) as Hrec. rewrite E3 in Hrec.
  rewrite (K_bind_Ok _ _ _ _ _ (Hrec ltac:(rewrite El; pose proof (concat_length_ge recs); unfold blen in *; lia) ltac:(by rewrite <- E2) ltac:(by rewrite <- E2))).
  done.
Qed.

(** ** Any contents *)

(** Bytes are mapped from [a] to [b]. *)
Definition mapped (a b : Z) : Prop := forall x, a <= x < b -> exists v, m x = Some v /\ is_u8 v.

Lemma mapped_load {S} n a b x (s : S) : mapped a b -> a <= x -> x + Z.of_nat n <= b -> exists v, load m n x s = Ok (v, s) /\ 0 <= v < 256 ^ Z.of_nat n.
Proof.
  intros H Hx Hn. assert (exists bs, fetch m n x = Some bs /\ bytes bs /\ length bs = n) as (bs & E & Hb & Hl).
  { unfold fetch. clear s. revert x Hx Hn. induction n as [|n IH]; intros x Hx Hn; [exists []; split; [done|split; [constructor|done]]|]. rewrite seqZ_cons by lia. destruct (H x) as (v & Ev & Hv); [lia|].
    destruct (IH (Z.succ x)) as (bs & E & Hb & Hl); [lia|lia|]. exists (v :: bs). replace (Z.pred (Z.of_nat (Datatypes.S n))) with (Z.of_nat n) by lia. cbn. rewrite Ev. cbn. rewrite E. cbn.
    split; [done|]. split; [by constructor|lia]. }
  exists (le_val bs). unfold load. rewrite E. split; [done|]. pose proof (le_val_range bs Hb). unfold blen in *. by rewrite Hl in *.
Qed.

Lemma sum_loop_mapped {S} n a b x sum (s : S) : mapped a b -> a <= x -> x + Z.of_nat n <= b -> exists v, sum_loop m n x sum s = Ok (v, s).
Proof.
  intros H. revert x sum. induction n as [|n IH]; intros x sum Hx Hn; cbn [sum_loop]; [by exists sum|].
  destruct (mapped_load 1 a b x s H) as (v & E & _); [lia|lia|]. rewrite (K_bind_Ok _ _ _ _ _ E). apply IH; lia.
Qed.

Lemma local_apic_safe a b ptr s : mapped a b -> a <= ptr -> ptr + 8 <= b -> info_ok (madt_info s) ->
  exists s', local_apic m ptr s = Ok (tt, s') /\ info_ok (madt_info s').
Proof.
  intros H Ha Hb Hi. unfold local_apic. destruct (mapped_load 4 a b (ptr + 4) s H) as (v & E & _); [lia|lia|]. rewrite (K_bind_Ok _ _ _ _ _ E).
  rewrite (K_bind_Ok (gets madt_info) _ s (madt_info s) s eq_refl). destruct (negb _); cbn [andb]; [|by exists s].
  destruct (Z.ltb_spec (cpu_count (madt_info s)) ACPI_MAX_CPUS); [|by exists s].
  destruct (mapped_load 1 a b (ptr + 3) s H) as (id & E' & _); [lia|lia|]. rewrite (K_bind_Ok _ _ _ _ _ E'). eexists. split; [done|]. by apply add_cpu_ok.
Qed.
Lemma ioapic_safe a b ptr s : mapped a b -> a <= ptr -> ptr + 12 <= b -> info_ok (madt_info s) ->
  exists s', ioapic m ptr s = Ok (tt, s') /\ info_ok (madt_info s').
Proof.
  intros H Ha Hb Hi. unfold ioapic. destruct (mapped_load 4 a b (ptr + 4) s H) as (v & E & _); [lia|lia|]. rewrite (K_bind_Ok _ _ _ _ _ E).
  destruct (mapped_load 1 a b (ptr + 2) s H) as (id & E' & _); [lia|lia|]. rewrite (K_bind_Ok _ _ _ _ _ E').
  destruct (mapped_load 4 a b (ptr + 8) s H) as (g & E'' & _); [lia|lia|]. rewrite (K_bind_Ok _ _ _ _ _ E''). eexists. split; [done|]. by destruct Hi; split.
Qed.

Lemma madt_loop_safe f a b ptr end_ s : mapped a b -> a <= ptr -> end_ + 10 <= b -> Z.max 0 (end_ - ptr) < Z.of_nat f -> info_ok (madt_info s) ->
  exists s', madt_loop m f ptr end_ s = Ok (tt, s') /\ info_ok (madt_info s').
Proof.
  intros H. revert ptr s. induction f as [|f IH]; intros ptr s Ha Hb Hf Hi; [lia|]. cbn [madt_loop].
  destruct (Z.leb_spec (ptr + 2) end_); [|by exists s].
  destruct (mapped_load 1 a b (ptr + 1) s H) as (len & E & Hlen); [lia|lia|]. rewrite (K_bind_Ok _ _ _ _ _ E).
  destruct (Z.ltb_spec len 2); [by exists s|]. destruct (Z.ltb_spec end_ (ptr + len)); [by exists s|]. cbn [orb].
  destruct (mapped_load 1 a b ptr s H) as (ty & E' & _); [lia|lia|]. rewrite (K_bind_Ok _ _ _ _ _ E').
  rewrite (K_bind_Ok (gets madt_info) _ s (madt_info s) s eq_refl).
  match goal with |- context [(?body ≫= _) s] => assert (exists s1, body s = Ok (tt, s1) /\ info_ok (madt_info s1)) as (s1 & E1 & Hi1) end.
  { destruct (_ =? _); [apply (local_apic_safe a b); [done|lia|lia|done]|]. destruct (_ && _); [apply (ioapic_safe a b); [done|lia|lia|done]|by exists s]. }
  rewrite (K_bind_Ok _ _ _ _ _ E1). apply IH; [lia|done|lia|done].
Qed.

(** C26: the MADT parser on any contents. Whatever the firmware has left there, the parser ends, and records at most
    64 processors in the array of 64. It touches no byte behind the declared length of the table, or the 44 bytes
    of its fixed part where that is more, and another ten: a table that declares less than its fixed part, and a
    last entry shorter than its type's record, are read past their end. *)
Theorem parse_madt_safe t s len : load m 4 (t + 4) s = Ok (len, s) -> mapped t (t + Z.max len sizeof_madt + 10) -> info_ok (madt_info s) ->
  exists s', parse_madt m t s = Ok (tt, s') /\ info_ok (madt_info s').
Proof.
  intros El H Hi. assert (0 <= len) as Hlen.
  { destruct (mapped_load 4 t (t + Z.max len sizeof_madt + 10) (t + 4) s H) as (v & E & Hv); [lia|unfold sizeof_madt; lia|]. rewrite El in E. injection E as ->. lia. }
  unfold parse_madt. rewrite (K_bind_Ok _ _ _ _ _ El). destruct (sum_loop_mapped (Z.to_nat len) _ _ t 0 s H) as (sum & Es); [lia|lia|].
  assert (verify_checksum m t len s = Ok (sum =? 0, s)) as Ev by (unfold verify_checksum; by rewrite (K_bind_Ok _ _ _ _ _ Es)). rewrite (K_bind_Ok _ _ _ _ _ Ev).
  destruct (sum =? 0); cbn [negb]; [|by exists s]. unfold sizeof_sdt_header, sizeof_madt in *.
  destruct (mapped_load 4 _ _ (t + 36) s H) as (base & Eb & _); [lia|lia|]. rewrite (K_bind_Ok _ _ _ _ _ Eb), modify_bind.
  destruct (madt_loop_safe (S (Z.to_nat len)) _ _ (t + 44) (t + len) (set_info (start_info base (madt_info s)) s) H) as (s1 & E1 & H1); [lia|lia|lia|by destruct Hi; split|].
  rewrite (K_bind_Ok _ _ _ _ _ E1). by eexists.
Qed.

(** ** Signatures *)

Lemma matches_holds {S} cs : forall a bs (s : S), holds a bs -> Z.of_nat (length cs) <= blen bs -> matches m a cs s = Ok (bool_decide (take (length cs) bs = cs), s).
Proof.
  induction cs as [|c cs IH]; intros a bs s H Hl; cbn [matches length take]; [by rewrite bool_decide_true|]. destruct bs as [|b bs]; [unfold blen in Hl; cbn in Hl; lia|].
  pose proof (load8_spec a (b :: bs) 0 s H ltac:(unfold blen; cbn; lia)) as El. rewrite Z.add_0_r in El. rewrite (K_bind_Ok _ _ _ _ _ El). change (aget 0 (b :: bs) 0) with b.
  cbn [take]. destruct (Z.eqb_spec b c) as [->|Hne]; [|rewrite bool_decide_false by congruence; done]. rewrite (IH (a + 1) bs s).
  - f_equal. f_equal. apply bool_decide_ext. split; [by intros ->|by intros [=]].
  - intros i Hi. rewrite <- Z.add_assoc. rewrite H by (unfold blen in *; cbn [length]; lia). f_equal. rewrite !aget_lookup. by replace (Z.to_nat (1 + i)) with (Datatypes.S (Z.to_nat i)) by lia.
  - unfold blen in *. cbn [length] in Hl. lia.
Qed.

Context (dm_base : Z).

(** ** The FADT *)

(** The sleep type that the code takes from a DSDT: the byte behind the first 0x0a within 14 bytes of the first [_S5_]. *)
Definition s5_at (db : list Z) : option Z := snd <$> list_find (fun i => slice db i 4 = S5_NAME) (seqZ 4 (blen db - 18)).
Definition const_at (db : list Z) (j n : Z) : option Z := snd <$> list_find (fun j => aget 0 db j = 10) (seqZ j (Z.min n (blen db - 1 - j))).
Definition sleep_type (db : list Z) : option Z := i ← s5_at db; j ← const_at db (i + 4) 14; Some (aget 0 db (j + 1)).

Lemma find_cons (P : Z -> Prop) `{!forall x, Decision (P x)} x l : snd <$> list_find P (x :: l) = if decide (P x) then Some x else snd <$> list_find P l.
Proof. cbn [list_find]. case_decide; [done|]. by destruct (list_find P l) as [[]|]. Qed.

Lemma prefix_loop_spec {S} d db : holds d db -> forall n j (s : S), 0 <= j ->
  prefix_loop m n d (blen db) j s = Ok ((fun j => aget 0 db (j + 1)) <$> const_at db j (Z.of_nat n), s).
Proof.
  intros H. induction n as [|n IH]; intros j s Hj; cbn [prefix_loop]; unfold const_at.
  - replace (seqZ j _) with (@nil Z); [done|]. symmetry. apply seqZ_nil. lia.
  - destruct (Z.ltb_spec (j + 1) (blen db)); [|rewrite seqZ_nil by lia; done]. rewrite seqZ_cons by lia. rewrite find_cons.
    rewrite (K_bind_Ok _ _ _ _ _ (load8_spec d db j s H ltac:(lia))). case_decide as E.
    + rewrite E. cbn [Z.eqb Pos.eqb]. pose proof (load8_spec d db (j + 1) s H ltac:(lia)) as E1. rewrite Z.add_assoc in E1. by rewrite (K_bind_Ok _ _ _ _ _ E1).
    + rewrite (proj2 (Z.eqb_neq _ 10)) by done. rewrite IH by lia. unfold const_at. do 6 f_equal. lia.
Qed.

Lemma s5_loop_spec {S} d db : holds d db -> forall n i (s : S), 0 <= i -> blen db - 14 - i <= Z.of_nat n ->
  s5_loop m n d (blen db) i s = Ok ((i ← snd <$> list_find (fun i => slice db i 4 = S5_NAME) (seqZ i (blen db - 14 - i)); j ← const_at db (i + 4) 14; Some (aget 0 db (j + 1))), s).
Proof.
  intros H. induction n as [|n IH]; intros i s Hi Hn; cbn [s5_loop]; [rewrite seqZ_nil by lia; done|].
  destruct (Z.ltb_spec (i + 14) (blen db)); [|rewrite seqZ_nil by lia; done]. rewrite seqZ_cons by lia. rewrite find_cons.
  pose proof (matches_holds S5_NAME (d + i) (slice db i 4) s (holds_slice d db i 4 H ltac:(lia) ltac:(lia) ltac:(lia)) ltac:(rewrite blen_slice; cbn; lia)) as E.
  rewrite take_ge in E by (rewrite slice_length by lia; cbn; lia). rewrite (K_bind_Ok _ _ _ _ _ E). assert ({slice db i 4 = S5_NAME} + {slice db i 4 <> S5_NAME}) as [Ed|Ed] by apply decide, _; [rewrite bool_decide_true, decide_True by done|rewrite bool_decide_false, decide_False by done].
  - rewrite (prefix_loop_spec d db H) by lia. change (Z.of_nat 14) with 14. cbn [mbind option_bind]. by destruct (const_at _ _ _).
  - rewrite IH by lia. do 5 f_equal. f_equal; lia.
Qed.

(** What an entry of the root table is, other than the MADT: another table; a FADT with a wrong checksum, which is
    ignored; or a FADT, with its two ports and the sleep type of its DSDT, if it has one. *)
Definition power : Type := Z * Z * option Z.
Inductive described (addr : Z) : option power -> Prop :=
| other_table bs : holds (phys dm_base addr) bs -> blen bs = 4 -> bs <> APIC -> bs <> FACP -> described addr None
| damaged_fadt fb : holds (phys dm_base addr) fb -> 8 <= blen fb -> take 4 fb = FACP -> le_val (slice fb 4 4) = blen fb -> checksum fb <> 0 -> described addr None
| good_fadt fb db : holds (phys dm_base addr) fb -> 72 <= blen fb -> take 4 fb = FACP -> le_val (slice fb 4 4) = blen fb -> checksum fb = 0 ->
    let dsdt := le_val (slice fb 40 4) in
    dsdt = 0 \/ (holds (phys dm_base dsdt) db /\ 8 <= blen db /\ le_val (slice db 4 4) = blen db) ->
    described addr (Some (Z.land (le_val (slice fb 64 4)) 0xffff, Z.land (le_val (slice fb 68 4)) 0xffff, if dsdt =? 0 then None else sleep_type db)).

Definition add_power (s : acpi) (o : option power) : acpi :=
  match o with
  | None => s
  | Some (a, b, typ) => set_fadt true (let s1 := set_pm1 a b s in match typ with Some v => set_s5 v s1 | None => s1 end)
  end.

Lemma parse_fadt_spec addr fb db s : let f := phys dm_base addr in let dsdt := le_val (slice fb 40 4) in
  holds f fb -> 72 <= blen fb -> le_val (slice fb 4 4) = blen fb -> checksum fb = 0 ->
  dsdt = 0 \/ (holds (phys dm_base dsdt) db /\ 8 <= blen db /\ le_val (slice db 4 4) = blen db) ->
  parse_fadt m dm_base f s = Ok (tt, add_power s (Some (Z.land (le_val (slice fb 64 4)) 0xffff, Z.land (le_val (slice fb 68 4)) 0xffff, if dsdt =? 0 then None else sleep_type db))).
Proof.
  intros f dsdt Hf Hfl Hlen Hsum Hd. unfold parse_fadt.
  assert (forall off (s : acpi), 0 <= off -> off + 4 <= blen fb -> load m 4 (f + off) s = Ok (le_val (slice fb off 4), s)) as Hld by (intros off s' H1 H2; by apply (load_holds 4 f fb off s')).
  rewrite (K_bind_Ok _ _ _ _ _ (Hld 4 s ltac:(lia) ltac:(lia))), Hlen. rewrite (K_bind_Ok _ _ _ _ _ (verify_checksum_spec f fb s Hf)), Hsum. cbn [Z.eqb negb].
  rewrite (K_bind_Ok _ _ _ _ _ (Hld 64 s ltac:(lia) ltac:(lia))), (K_bind_Ok _ _ _ _ _ (Hld 68 s ltac:(lia) ltac:(lia))). rewrite modify_bind. set (s1 := set_pm1 _ _ s).
  rewrite (K_bind_Ok _ _ _ _ _ (Hld 40 s1 ltac:(lia) ltac:(lia))). fold dsdt. destruct (Z.eqb_spec dsdt 0) as [Hz|Hz]; cbn [negb]; [done|]. destruct Hd as [Hd|(Hdb & H8 & Hdl)]; [done|].
  pose proof (load_holds 4 _ db 4 s1 Hdb ltac:(lia) ltac:(lia)) as El. change (Z.of_nat 4) with 4 in El. rewrite Hdl in El.
  assert (s5_loop m (Z.to_nat (blen db)) (phys dm_base dsdt) (blen db) 4 s1 = Ok (sleep_type db, s1)) as Es.
  { rewrite (s5_loop_spec _ db Hdb) by lia. unfold sleep_type, s5_at. by replace (blen db - 14 - 4) with (blen db - 18) by lia. }
  match goal with |- (?body ≫= _) s1 = _ => assert (body s1 = Ok (tt, match sleep_type db with Some v => set_s5 v s1 | None => s1 end)) as Eb
    by (rewrite (K_bind_Ok _ _ _ _ _ El), (K_bind_Ok _ _ _ _ _ Es); by destruct (sleep_type db)) end.
  by rewrite (K_bind_Ok _ _ _ _ _ Eb).
Qed.

(** One entry that is not the MADT. *)
Lemma entry_spec addr o s : described addr o ->
  (b ← matches m (phys dm_base addr) APIC; if (b : bool) then parse_madt m (phys dm_base addr)
   else b ← matches m (phys dm_base addr) FACP; if (b : bool) then parse_fadt m dm_base (phys dm_base addr) else mret tt) s = Ok (tt, add_power s o).
Proof.
  intros Hd. assert (forall bs, holds (phys dm_base addr) bs -> 4 <= blen bs -> matches m (phys dm_base addr) APIC s = Ok (bool_decide (take 4 bs = APIC), s) /\
    matches m (phys dm_base addr) FACP s = Ok (bool_decide (take 4 bs = FACP), s)) as Hmt by (intros bs Hh Hl; split; [apply (matches_holds APIC)|apply (matches_holds FACP)]; done || (cbn; lia)).
  destruct Hd as [bs Hh Hl Ha Hf|fb Hh Hl Ht Hlen Hsum|fb db Hh Hl Ht Hlen Hsum dsdt Hd].
  - destruct (Hmt bs Hh ltac:(lia)) as [E1 E2]. rewrite take_ge in E1, E2 by (unfold blen in Hl; lia). rewrite bool_decide_false in E1, E2 by done. by rewrite (K_bind_Ok _ _ _ _ _ E1), (K_bind_Ok _ _ _ _ _ E2).
  - destruct (Hmt fb Hh ltac:(lia)) as [E1 E2]. rewrite Ht in E1, E2. rewrite (K_bind_Ok _ _ _ _ _ E1), bool_decide_false by done. rewrite (K_bind_Ok _ _ _ _ _ E2), bool_decide_true by done. unfold parse_fadt.
    pose proof (load_holds 4 _ fb 4 s Hh ltac:(lia) ltac:(lia)) as El. change (Z.of_nat 4) with 4 in El. rewrite Hlen in El. rewrite (K_bind_Ok _ _ _ _ _ El), (K_bind_Ok _ _ _ _ _ (verify_checksum_spec _ fb s Hh)).
    by rewrite (proj2 (Z.eqb_neq _ 0)) by done.
  - destruct (Hmt fb Hh ltac:(lia)) as [E1 E2]. rewrite Ht in E1, E2. rewrite (K_bind_Ok _ _ _ _ _ E1), bool_decide_false by done. rewrite (K_bind_Ok _ _ _ _ _ E2), bool_decide_true by done.
    by apply parse_fadt_spec.
Qed.

Lemma K_bind_seq {S A B C} (k : K S A) (f : A -> K S B) (g : B -> K S C) (s s' : S) r : (k ≫= f) s = Ok (r, s') -> (x ← k; y ← f x; g y) s = g r s'.
Proof. unfold mbind, K_bind. destruct (k s) as [[x s1]|]; [|done]. by intros ->. Qed.

Lemma scan_described l : forall ds t pre rest s, Forall2 described l ds -> Forall is_u64 l -> holds t (pre ++ concat (le_bytes 8 <$> l) ++ rest) ->
  forall n, scan_sdt_entries m dm_base (length l + n) (t + blen pre) 8 s = scan_sdt_entries m dm_base n (t + blen (pre ++ concat (le_bytes 8 <$> l))) 8 (foldl add_power s ds).
Proof.
  induction l as [|a l IH]; intros ds t pre rest s HF Hu H n; cbn [fmap list_fmap concat length Nat.add] in *; [apply Forall2_nil_inv_l in HF as ->; by rewrite app_nil_r|].
  apply Forall2_cons_inv_l in HF as (o & ds' & Ho & HF & ->). apply Forall_cons in Hu as [Hua Hu]. cbn [scan_sdt_entries foldl].
  rewrite <- app_assoc in H. pose proof (load_field 8 a pre [] (concat (le_bytes 8 <$> l) ++ rest) t s 0 H eq_refl Hua) as El. rewrite Z.add_0_r in El. rewrite (K_bind_Ok _ _ _ _ _ El).
  rewrite (K_bind_seq _ _ _ _ _ _ (entry_spec a o s Ho)). assert (t + blen pre + Z.of_nat 8 = t + blen (pre ++ le_bytes 8 a)) as -> by (rewrite blen_app, blen_le_bytes; lia).
  rewrite app_assoc, (IH ds' t (pre ++ le_bytes 8 a) rest _ HF Hu); [done|]. by rewrite <- app_assoc.
Qed.

(** The FADT that counts is the last one, and the sleep type the last that was found. *)
Definition fadts (ds : list (option power)) : list power := omap (fun o => o) ds.
Definition sleeps (ds : list (option power)) : list Z := omap (fun o => o ≫= snd) ds.
Lemma fadts_app d1 d2 : fadts (d1 ++ d2) = fadts d1 ++ fadts d2.
Proof. apply omap_app. Qed.
Lemma sleeps_app d1 d2 : sleeps (d1 ++ d2) = sleeps d1 ++ sleeps d2.
Proof. apply omap_app. Qed.
Lemma add_powers s ds : let s' := foldl add_power s ds in madt_info s' = madt_info s /\ madt_valid s' = madt_valid s /\
  (s_fadt_valid s', s_pm1a_cnt s', s_pm1b_cnt s') = match last (fadts ds) with Some (a, b, _) => (true, a, b) | None => (s_fadt_valid s, s_pm1a_cnt s, s_pm1b_cnt s) end /\
  s_slp_typ_s5 s' = default (s_slp_typ_s5 s) (last (sleeps ds)).
Proof.
  induction ds as [|o ds IH] using rev_ind; [done|]. cbv zeta. rewrite foldl_snoc. destruct IH as (H1 & H2 & H3 & H4). rewrite fadts_app, sleeps_app.
  destruct o as [[[a b] [v|]]|]; unfold fadts at 2, sleeps at 2; cbn [omap list_omap mbind option_bind snd add_power]; rewrite ?app_nil_r, ?last_snoc; by cbn.
Qed.

(** ** From the root pointer to the MADT *)

(** The root pointer and an extended root table with these entries. *)
Record rsdp_ok (rb : list Z) (xsdt : Z) : Prop := {
  ro_length : 36 <= blen rb;
  ro_signature : take 8 rb = RSD_PTR;
  ro_revision : 2 <= aget 0 rb 15;
  ro_xsdt : le_val (slice rb 24 8) = xsdt /\ xsdt <> 0;
}.
Record xsdt_ok (xb : list Z) (entries : list Z) : Prop := {
  xo_bytes : exists h, xb = h ++ concat (le_bytes 8 <$> entries) /\ blen h = sizeof_sdt_header /\ take 4 h = XSDT;
  xo_length : le_val (slice xb 4 4) = blen xb;
  xo_sum : checksum xb = 0;
}.

Lemma concat_le_length l : blen (concat (le_bytes 8 <$> l)) = 8 * Z.of_nat (length l).
Proof. induction l as [|a l IH]; [done|]. cbn [fmap list_fmap concat length]. rewrite blen_app, blen_le_bytes, IH. lia. Qed.

(** C25: the firmware's tables. Let the root pointer, of revision 2 or more, lead to an extended root table that lists
    a MADT, both with right lengths and checksums, in any place among other tables, with FADTs among them ([described]:
    with their ports and the sleep type of their DSDT, which has its right length; or with a wrong checksum). Then
    [acpi_init] finds the MADT: the local APIC's base, the identifiers of the usable processors in order, the first 64
    of them, and the first I/O APIC are those of its records. And power-off is what the last FADT says: nothing without
    a PM1a control port; otherwise the sleep type, the byte constant behind the first [_S5_] of the DSDT, and the
    sleep-enable bit, written to that port and to PM1b when there is one. *)
Theorem acpi_init_correct rsdp rb xsdt xb l1 am l2 d1 d2 tb base recs s :
  rsdp <> 0 -> holds (phys dm_base rsdp) rb -> rsdp_ok rb xsdt -> holds (phys dm_base xsdt) xb -> xsdt_ok xb (l1 ++ am :: l2) ->
  Forall is_u64 (l1 ++ am :: l2) -> blen xb < 2 ^ 32 -> Forall2 described l1 d1 -> Forall2 described l2 d2 ->
  holds (phys dm_base am) tb -> madt_ok tb base recs -> take 4 tb = APIC -> info_ok (madt_info s) ->
  exists s' i, acpi_init m dm_base rsdp s = Ok (tt, s') /\ acpi_madt s' = Some i /\
    (local_apic_base i = base /\ cpus i = take (Z.to_nat ACPI_MAX_CPUS) (enabled recs) /\ cpu_count i = Z.of_nat (length (cpus i)) /\
     match io_apics recs with
     | [] => ioapic_found i = false
     | x :: _ => ioapic_found i = true /\ (ioapic_id i, ioapic_base i, ioapic_gsi_base i) = x
     end) /\
    (forall a b typ, last (fadts (d1 ++ d2)) = Some (a, b, typ) -> let v := u16 (default (s_slp_typ_s5 s) (last (sleeps (d1 ++ d2))) * 2 ^ 10 .| 2 ^ 13)%C in
      acpi_poweroff s' = if a =? 0 then [] else (a, v) :: (if b =? 0 then [] else [(b, v)])).
Proof.
  intros Hr0 Hrh [Hrl Hrs Hrv [Hrx Hrx0]] Hxh [(h & Ex & Hh & Hsig) Hxl Hxs] Hu Hx32 Hf1 Hf2 Hth Hm Hapic Hi.
  set (s0 := set_valid false s). set (s1 := foldl add_power s0 d1). destruct (add_powers s0 d1) as (Hin1 & _ & Hp1 & Ht1). fold s1 in Hin1, Hp1, Ht1.
  set (i0 := start_info base (madt_info s)). set (i := fold_left add_record recs i0). set (s2 := set_valid true (set_info i s1)).
  assert (info_ok i0) as Hi0 by (by destruct Hi; split). destruct (records_cpus recs i0 Hi0) as (Hok & Hc & Hbase). pose proof (records_ioapic recs i0) as Hio.
  set (s3 := foldl add_power s2 d2). destruct (add_powers s2 d2) as (Hin3 & Hv3 & Hp3 & Ht3). fold s3 in Hin3, Hv3, Hp3, Ht3.
  exists s3, i. split; [|split; [unfold acpi_madt; by rewrite Hv3, Hin3|split; [split; [exact Hbase|split; [exact Hc|split; [|exact Hio]]]|]]].
  2:{ fold i in Hok. destruct Hok as [H1 H2]. unfold cpus. rewrite length_take. lia. }
  2:{ intros a b typ Hl v. assert ((s_fadt_valid s3, s_pm1a_cnt s3, s_pm1b_cnt s3) = (true, a, b)) as Ep.
      { rewrite Hp3. rewrite (fadts_app d1 d2), last_app in Hl. destruct (last (fadts d2)) as [[[a' b'] t']|]; [by simplify_eq|]. change (s_fadt_valid s2, s_pm1a_cnt s2, s_pm1b_cnt s2) with (s_fadt_valid s1, s_pm1a_cnt s1, s_pm1b_cnt s1). by rewrite Hp1, Hl. }
      assert (s_slp_typ_s5 s3 = default (s_slp_typ_s5 s) (last (sleeps (d1 ++ d2)))) as Et.
      { rewrite Ht3. rewrite (sleeps_app d1 d2), last_app. destruct (last (sleeps d2)); [done|]. change (s_slp_typ_s5 s2) with (s_slp_typ_s5 s1). by rewrite Ht1. }
      injection Ep as E1 E2 E3. unfold acpi_poweroff. rewrite E1, E2, E3, Et. cbn [andb]. unfold v. rewrite !Z.shiftl_mul_pow2 by lia. rewrite Z.mul_1_l. destruct (a =? 0); [done|]. cbn [negb]. by destruct (b =? 0). }
  apply Forall_app in Hu as [Hu1 [Hua Hu2]%Forall_cons].
  assert (scan_sdt_entries m dm_base (length (l1 ++ am :: l2)) (phys dm_base xsdt + sizeof_sdt_header) 8 s0 = Ok (tt, s3)) as Hscan.
  { rewrite length_app. cbn [length]. rewrite <- Hh. rewrite Ex, fmap_app, concat_app in Hxh. cbn [fmap list_fmap concat] in Hxh. rewrite (scan_described l1 d1 _ h _ s0 Hf1 Hu1 Hxh). fold s1.
    cbn [scan_sdt_entries]. set (p1 := h ++ concat (le_bytes 8 <$> l1)) in *. rewrite app_assoc in Hxh. fold p1 in Hxh.
    pose proof (load_field 8 am p1 [] _ _ s1 0 Hxh eq_refl Hua) as El. rewrite Z.add_0_r in El. rewrite (K_bind_Ok _ _ _ _ _ El).
    assert (4 <= blen tb) as Htb by (apply (f_equal length) in Hapic; rewrite length_take in Hapic; unfold blen; change (length APIC) with 4%nat in Hapic; lia).
    pose proof (matches_holds APIC _ tb s1 Hth ltac:(cbn; lia)) as E1. cbn [length APIC] in E1. rewrite bool_decide_true in E1 by done. rewrite (K_bind_Ok _ _ _ _ _ E1).
    rewrite (K_bind_Ok _ _ _ _ _ (parse_madt_spec _ tb base recs s1 Hth Hm)). rewrite Hin1. change (madt_info s0) with (madt_info s). fold i0 i s2.
    assert (phys dm_base xsdt + blen p1 + Z.of_nat 8 = phys dm_base xsdt + blen (p1 ++ le_bytes 8 am)) as -> by (rewrite blen_app, blen_le_bytes; lia).
    pose proof (scan_described l2 d2 (phys dm_base xsdt) (p1 ++ le_bytes 8 am) [] s2 Hf2 Hu2) as H2. rewrite app_nil_r in H2.
    specialize (H2 ltac:(by rewrite <- app_assoc) 0%nat). rewrite Nat.add_0_r in H2. exact H2. }
  pose proof (concat_le_length (l1 ++ am :: l2)) as Hcl. assert (blen xb = 36 + 8 * Z.of_nat (length (l1 ++ am :: l2))) as Hxb by (rewrite Ex, blen_app, Hh, Hcl; done).
  unfold acpi_init. rewrite modify_bind. fold s0. rewrite (proj2 (Z.eqb_neq rsdp 0)) by done.
  pose proof (matches_holds RSD_PTR _ rb s0 Hrh ltac:(cbn; lia)) as E1. cbn [length RSD_PTR] in E1. rewrite bool_decide_true in E1 by done. rewrite (K_bind_Ok _ _ _ _ _ E1). cbn [negb].
  rewrite (K_bind_Ok _ _ _ _ _ (load8_spec _ rb 15 s0 Hrh ltac:(lia))). rewrite (proj2 (Z.leb_le 2 _)) by done.
  pose proof (load_holds 8 _ rb 24 s0 Hrh ltac:(lia) ltac:(lia)) as Elx. change (Z.of_nat 8) with 8 in Elx. rewrite Hrx in Elx.
  assert ((x ← load m 8 (phys dm_base rsdp + 24); mret (negb (x =? 0))) s0 = Ok (true, s0)) as Eu by (rewrite (K_bind_Ok _ _ _ _ _ Elx), (proj2 (Z.eqb_neq xsdt 0)) by done; done).
  rewrite (K_bind_Ok _ _ _ _ _ Eu), (K_bind_Ok _ _ _ _ _ Elx).
  pose proof (matches_holds XSDT _ xb s0 Hxh ltac:(cbn; lia)) as E3. cbn [length XSDT] in E3.
  assert (take 4 xb = XSDT) as Htk by (rewrite Ex, take_app_le; [done|unfold blen, sizeof_sdt_header in Hh; lia]). rewrite bool_decide_true in E3 by done. rewrite (K_bind_Ok _ _ _ _ _ E3). cbn [negb].
  unfold parse_xsdt, parse_root. pose proof (load_holds 4 _ xb 4 s0 Hxh ltac:(lia) ltac:(lia)) as Ell. change (Z.of_nat 4) with 4 in Ell. rewrite Hxl in Ell. rewrite (K_bind_Ok _ _ _ _ _ Ell).
  rewrite (K_bind_Ok _ _ _ _ _ (verify_checksum_spec _ xb s0 Hxh)), Hxs. cbn [Z.eqb negb].
  assert (Z.to_nat (u32 (blen xb - sizeof_sdt_header) / Z.of_nat 8) = length (l1 ++ am :: l2)) as -> by (rewrite Hxb, u32_small by (unfold is_u32, sizeof_sdt_header; lia); unfold sizeof_sdt_header; lia).
  exact Hscan.
Qed.

End reads.

(** ** Examples *)

(** A memory that holds these bytes at these addresses. *)
Fixpoint image (l : list (Z * list Z)) (a : Z) : option Z :=
  match l with
  | [] => None
  | (b, bs) :: l' => if (b <=? a) && (a <? b + blen bs) then Some (aget 0 bs (a - b)) else image l' a
  end.
Lemma holds_check m a bs : forallb (fun i => bool_decide (m (a + i) = Some (aget 0 bs i))) (seqZ 0 (blen bs)) = true -> holds m a bs.
Proof. intros H i Hi. rewrite forallb_forall in H. apply (bool_decide_unpack _), Is_true_true, H, list_elem_of_In, elem_of_seqZ. lia. Qed.

(** A table: signature, length, a checksum that makes the sum 0, and the rest. *)
Definition table (sig rest : list Z) : list Z :=
  let len := le_bytes 4 (36 + blen rest) in
  let body c := sig ++ len ++ [1; c] ++ zeros 26 ++ rest in
  body (u8 (- checksum (body 0))).

Definition demo_records : list record := [LocalApic 0 4 1; Other 4 [255; 0; 0; 1]; LocalApic 1 5 0; IoApic 9 0xfec00000 0; LocalApic 2 6 1].
Definition demo_madt : list Z := table APIC (le_bytes 4 0xfee00000 ++ le_bytes 4 1 ++ concat (enc <$> demo_records)).
Definition demo_hpet : list Z := [72; 80; 69; 84].
Definition demo_xsdt : list Z := table XSDT (concat (le_bytes 8 <$> [0x3000; 0x5000; 0x4000])).
Definition demo_rsdp : list Z := RSD_PTR ++ [0] ++ zeros 6 ++ [2] ++ zeros 4 ++ le_bytes 4 36 ++ le_bytes 8 0x2000 ++ zeros 4.
(** A FADT, and a DSDT with the object _S5_ = {7, 7}. *)
Definition demo_fadt : list Z := table FACP (le_bytes 4 0 ++ le_bytes 4 0x6000 ++ zeros 20 ++ le_bytes 4 0x604 ++ le_bytes 4 0 ++ zeros 57).
Definition demo_dsdt : list Z := take 8 (table [68; 83; 68; 84] (zeros 20)) ++ zeros 28 ++ [8] ++ S5_NAME ++ [18; 6; 2] ++ 10 :: 7 :: [10; 7] ++ zeros 8.
Definition demo_memory : Z -> option Z :=
  image [(0x1000, demo_rsdp); (0x2000, demo_xsdt); (0x3000, demo_hpet); (0x4000, demo_madt); (0x5000, demo_fadt); (0x6000, demo_dsdt)].
Definition demo_acpi : acpi := mk_acpi (mk_info 0 0 0 0 false (zeros 64) 0) false 0 0 5 false.

Lemma demo_madt_ok : madt_ok demo_madt 0xfee00000 demo_records.
Proof.
  split; [exists (take 36 demo_madt), (le_bytes 4 1); by vm_compute|by vm_compute|by vm_compute|by vm_compute|].
  unfold demo_records. repeat (apply Forall_cons; split); [..|constructor]; by vm_compute.
Qed.
Lemma demo_rsdp_ok : rsdp_ok demo_rsdp 0x2000.
Proof. split; by vm_compute. Qed.
Lemma demo_xsdt_ok : xsdt_ok demo_xsdt ([0x3000; 0x5000] ++ 0x4000 :: []).
Proof. split; [exists (take 36 demo_xsdt); by vm_compute|by vm_compute|by vm_compute]. Qed.
Lemma demo_described : Forall2 (described demo_memory 0) [0x3000; 0x5000] [None; Some (0x604, 0, Some 7)].
Proof.
  constructor; [|constructor; [|constructor]].
  - apply (other_table _ _ _ demo_hpet); [by apply holds_check; vm_compute|by vm_compute..].
  - assert (described demo_memory 0 0x5000 (Some (Z.land (le_val (slice demo_fadt 64 4)) 0xffff, Z.land (le_val (slice demo_fadt 68 4)) 0xffff,
      if le_val (slice demo_fadt 40 4) =? 0 then None else sleep_type demo_dsdt))) as H; [|exact H].
    apply good_fadt; [by apply holds_check; vm_compute|by vm_compute..|]. right. split; [by apply holds_check; vm_compute|by vm_compute].
Qed.
Lemma demo_info_ok : info_ok (madt_info demo_acpi).
Proof. by split; vm_compute. Qed.

Lemma acpi_init_correct_witness : exists s' i, acpi_init demo_memory 0 0x1000 demo_acpi = Ok (tt, s') /\ acpi_madt s' = Some i /\
  (local_apic_base i = 0xfee00000 /\ cpus i = [4; 6] /\ cpu_count i = Z.of_nat (length (cpus i)) /\
   ioapic_found i = true /\ (ioapic_id i, ioapic_base i, ioapic_gsi_base i) = (9, 0xfec00000, 0)) /\
  acpi_poweroff s' = [(0x604, 0x3c00)].
Proof.
  destruct (acpi_init_correct demo_memory 0 0x1000 demo_rsdp 0x2000 demo_xsdt [0x3000; 0x5000] 0x4000 [] [None; Some (0x604, 0, Some 7)] [] demo_madt 0xfee00000 demo_records demo_acpi) as (s' & i & E & Ei & Hm & Hp);
    [done|by apply holds_check; vm_compute|exact demo_rsdp_ok|by apply holds_check; vm_compute|exact demo_xsdt_ok|by repeat constructor|by vm_compute|exact demo_described|constructor|by apply holds_check; vm_compute|exact demo_madt_ok|by vm_compute|exact demo_info_ok|].
  exists s', i. split; [exact E|]. split; [exact Ei|]. split; [exact Hm|]. rewrite (Hp 0x604 0 (Some 7) eq_refl). vm_compute. reflexivity.
Defined.

Lemma mapped_check m a n : forallb (fun i => match m (a + i) with Some v => (0 <=? v) && (v <? 256) | None => false end) (seqZ 0 n) = true -> mapped m a (a + n).
Proof.
  intros H x Hx. rewrite forallb_forall in H. specialize (H (x - a)). rewrite <- list_elem_of_In, elem_of_seqZ in H. replace (a + (x - a)) with x in H by lia.
  specialize (H ltac:(lia)). destruct (m x) as [v|]; [|done]. exists v. split; [done|]. apply andb_true_iff in H as [H1 H2]. unfold is_u8. lia.
Qed.
Definition noise : Z -> option Z := fun a => Some ((a * 7 + 3) mod 13).
Definition noise_memory : Z -> option Z := fun a => if (0 <=? a) && (a <? 154) then (if (4 <=? a) && (a <? 8) then Some (if a =? 4 then 100 else 0) else noise a) else None.

Lemma parse_madt_safe_witness : exists s', parse_madt noise_memory 0 demo_acpi = Ok (tt, s') /\ info_ok (madt_info s').
Proof.
  refine (parse_madt_safe noise_memory 0 demo_acpi 100 _ _ demo_info_ok); [by vm_compute|]. apply (mapped_check noise_memory 0 (Z.max 100 sizeof_madt + 10)). by vm_compute.
Defined.

(** ** Reads outside the tables *)

(** A MADT that ends in the header of a processor record: the record's flags are read behind the table. *)
Definition short_madt : list Z := table APIC (le_bytes 4 0xfee00000 ++ le_bytes 4 1 ++ [0; 2]).
Example madt_reads_past_end : parse_madt (image [(0x4000, short_madt)]) 0x4000 demo_acpi = Panic FAULT.
Proof. vm_compute. reflexivity. Qed.

(** A FADT without the field of the PM1a port. *)
Example fadt_reads_past_end : parse_fadt (image [(0x5000, table FACP (zeros 20))]) 0 0x5000 demo_acpi = Panic FAULT.
Proof. vm_compute. reflexivity. Qed.

(** A root table whose length is 0: the number of entries wraps, and what is behind the header is taken for them. *)
Definition zero_xsdt : list Z := XSDT ++ zeros 32.
Example xsdt_count_wraps : parse_xsdt (image [(0x2000, zero_xsdt)]) 0 0x2000 demo_acpi = Panic FAULT.
Proof.
  set (m := image _). unfold parse_xsdt, parse_root. assert (load m 4 (0x2000 + 4) demo_acpi = Ok (0, demo_acpi)) as E by by vm_compute. rewrite (K_bind_Ok _ _ _ _ _ E).
  assert (verify_checksum m 0x2000 0 demo_acpi = Ok (true, demo_acpi)) as E2 by by vm_compute. rewrite (K_bind_Ok _ _ _ _ _ E2). cbn [negb].
  destruct (Z.to_nat (u32 (0 - sizeof_sdt_header) / Z.of_nat 8)) as [|n] eqn:En; [apply (f_equal Z.of_nat) in En; rewrite Z2Nat.id in En by (by vm_compute); by vm_compute in En|]. cbn [scan_sdt_entries].
  assert (load m 8 (0x2000 + sizeof_sdt_header) demo_acpi = Panic FAULT) as E3 by by vm_compute. unfold mbind, K_bind. by rewrite E3.
Qed.

End Acpi.
