(* ===== verification/Hw.v ===== *)
(** * Memory that is shared with devices

    The physical memory that a driver and its device both access: a byte for every address. Reading and
    writing a range, and the little-endian fields of the structures a driver builds there. The pages the drivers
    allocate for it, and the mapping of device registers. *)

From S2P Require Import Prelude Bytes Pmm Vmm.
Import Pmm.

Module Hw.

Definition mem : Type := Z -> Z.

Definition load (m : mem) (a n : Z) : list Z := m <$> seqZ a n.
Definition store (m : mem) (a : Z) (bs : list Z) : mem :=
  fun x => if (a <=? x) && (x <? a + blen bs) then aget 0 bs (x - a) else m x.

Definition ld16 (m : mem) (a : Z) : Z := le_val (load m a 2).
Definition ld32 (m : mem) (a : Z) : Z := le_val (load m a 4).
Definition ld64 (m : mem) (a : Z) : Z := le_val (load m a 8).

(** The ranges [[a, a + n)] and [[b, b + k)] do not meet. *)
Definition apart (a n b k : Z) : Prop := a + n <= b \/ b + k <= a.

Lemma blen_load m a n : 0 <= n -> blen (load m a n) = n.
Proof. intros H. unfold blen, load. rewrite length_fmap, length_seqZ. lia. Qed.

Lemma aget_load m a n i : 0 <= i < n -> aget 0 (load m a n) i = m (a + i).
Proof.
  intros H. rewrite aget_lookup. unfold load. rewrite list_lookup_fmap, lookup_seqZ_lt by lia. cbn. f_equal. lia.
Qed.

Lemma load_ext m m' a n : (forall x, a <= x < a + n -> m x = m' x) -> load m a n = load m' a n.
Proof. intros H. apply list_fmap_ext. intros i x Hx. apply lookup_seqZ in Hx as [-> Hx]. apply H. lia. Qed.

Lemma load_store_ne m a bs b k : apart a (blen bs) b k -> load (store m a bs) b k = load m b k.
Proof. intros H. apply load_ext. intros x Hx. unfold store. destruct H; case_match eqn:E; [lia|done|lia|done]. Qed.

Lemma load_store_in m a bs b k : 0 <= k -> a <= b -> b + k <= a + blen bs -> load (store m a bs) b k = slice bs (b - a) k.
Proof.
  intros Hk H1 H2. apply bytes_ext; [rewrite blen_load, blen_slice; lia|]. intros i Hi. rewrite blen_load in Hi by lia.
  rewrite aget_load, aget_slice by lia. unfold store. replace ((a <=? b + i) && (b + i <? a + blen bs)) with true by lia.
  f_equal. lia.
Qed.

Lemma load_store_eq m a bs n : n = blen bs -> load (store m a bs) a n = bs.
Proof. intros ->. rewrite load_store_in by (pose proof (blen_nonneg bs); lia). rewrite Z.sub_diag. by apply slice_all. Qed.

Lemma slice_load m a n off k : 0 <= off -> 0 <= k -> off + k <= n -> slice (load m a n) off k = load m (a + off) k.
Proof.
  intros H1 H2 H3. assert (blen (slice (load m a n) off k) = k) as El by (apply blen_slice; rewrite ?blen_load; lia).
  apply bytes_ext; [rewrite El, blen_load; lia|]. intros i Hi. rewrite El in Hi. rewrite aget_slice, !aget_load by lia. f_equal. lia.
Qed.

Lemma load_app m a n k : 0 <= n -> 0 <= k -> load m a (n + k) = load m a n ++ load m (a + n) k.
Proof. intros Hn Hk. unfold load. by rewrite seqZ_app, fmap_app. Qed.

(** ** Steps of stateful code *)

Lemma K_modify {S A} (f : S -> S) (k : unit -> K S A) s : (modify f ≫= k) s = k tt (f s).
Proof. done. Qed.
Lemma K_gets {S A B} (f : S -> B) (k : B -> K S A) s : (gets f ≫= k) s = k (f s) s.
Proof. done. Qed.

(** ** Device registers

    What a driver can do to a device whose registers are in memory: read one, write one, and wait; [run] is what
    the device does to itself and to the memory in the meantime. *)
Class Mmio (D : Type) := {
  reg_read : Z -> D -> Z;
  reg_write : Z -> Z -> D -> D;
  run : mem * D -> mem * D }.

(** ** Pages *)

(** The page at [a] is allocated. *)
Record page (p : pmm) (a : Z) : Prop := {
  pg_aligned : a mod 4096 = 0;
  pg_range : 0 <= a < 2 ^ 36;
  pg_valid : valid_page (a / 4096);
  pg_used : bitmap_test p (a / 4096) = true }.

(** What an allocation that gives [a] does to the set of pages. *)
Record page_alloc (p : pmm) (a : Z) (p' : pmm) : Prop := {
  pa_wf : pmm_wf p';
  pa_keep : forall x, page p x -> page p' x;
  pa_case : (a = PMM_ALLOC_FAILED /\ (free_count p <= 0)%nat /\ p' = p) \/
    ((a =? PMM_ALLOC_FAILED) = false /\ page p' a /\ ~ page p a /\ (free_count p <= S (free_count p'))%nat /\ release_page p' (a / 4096) = p) }.

Lemma alloc_page_page v : pmm_wf (Vmm.vpmm v) -> exists a p', Vmm.alloc_page v = Ok (a, Vmm.set_pmm v p') /\ page_alloc (Vmm.vpmm v) a p'.
Proof.
  intros Hwf. unfold Vmm.alloc_page. set (p := Vmm.vpmm v) in *. destruct (pmm_alloc_page_cases p Hwf) as [(c & Hc & _ & ->)|(Hno & ->)].
  - destruct (Vmm.pmm_alloc_page_facts p c Hwf Hc) as (Hwf' & Hpf & Hr & Hal & Hdiv & Hne). exists (c * OS_PAGE_SIZE), (take_page p c). split; [done|].
    assert (forall q, 0 <= q -> bitmap_test (take_page p c) q = bool_decide (c = q) || bitmap_test p q) as Ht by (intros q Hq; by apply take_page_test; [|apply Hc|]).
    split; [done| |].
    { intros x [H1 H2 H3 H4]. split; [done..|]. rewrite Ht, H4 by lia. apply orb_true_r. }
    right. split; [done|]. destruct Hc as [Hv Hf]. change OS_PAGE_SIZE with 4096 in *. change PMM_MAX_PHYS_BYTES with (2 ^ 36) in Hr. rewrite Hdiv. split; [|split; [|split]].
    + split; [done|done|by rewrite Hdiv|]. rewrite Hdiv, Ht by (unfold valid_page in Hv; lia). by rewrite bool_decide_true.
    + intros [_ _ _ Hp]. rewrite Hdiv in Hp. congruence.
    + by apply Nat.eq_le_incl, take_page_count.
    + by apply release_take.
  - exists PMM_ALLOC_FAILED, p. split; [done|]. split; [done|done|]. left. split; [done|]. split; [|done]. apply Nat.eq_le_incl. by apply free_count_zero.
Qed.

Lemma free_page_page v a : pmm_wf (Vmm.vpmm v) -> page (Vmm.vpmm v) a -> Vmm.free_page a v = Ok (tt, Vmm.set_pmm v (release_page (Vmm.vpmm v) (a / 4096))).
Proof.
  intros Hwf [Ha _ Hv Ht]. unfold Vmm.free_page. replace a with (a / 4096 * OS_PAGE_SIZE) at 1 by (unfold OS_PAGE_SIZE; lia). by rewrite pmm_free_page_Ok.
Qed.

Lemma release_page_page p a : pmm_wf p -> page p a -> pmm_wf (release_page p (a / 4096)).
Proof. intros Hwf [_ _ Hv Hu]. by apply release_page_wf. Qed.

Lemma release_keeps p a x : pmm_wf p -> page p a -> page p x -> x <> a -> page (release_page p (a / 4096)) x.
Proof.
  intros Hwf [A1 A2 A3 A4] [X1 X2 X3 X4] Hne. split; [done..|]. rewrite release_page_test by (done || lia). rewrite bool_decide_false by lia. done.
Qed.

Lemma pages_apart a b : a <> b -> a mod 4096 = 0 -> b mod 4096 = 0 -> apart a 4096 b 4096.
Proof. unfold apart. lia. Qed.

(** ** Mapping registers where the page table exists: no new table is needed *)
Section mapping.
Import Vmm.

Lemma ensure_present v root p i t u : space_wf v root -> table_path (p ++ [i]) -> table_at (ram v) root p = Some t -> table_at (ram v) root (p ++ [i]) = Some u ->
  ensure_table t i v = Ok (Some u, v).
Proof.
  intros Hwf Hp Ht Hu. pose proof Hu as Hu'. rewrite table_at_app, Ht in Hu. cbn in Hu. destruct (present _ && _) eqn:E; [|done]. apply andb_prop in E as [E1 E2].
  injection Hu as Hu. unfold ensure_table, load_entry. rewrite K_gets, E1. cbn [negb]. destruct (large _) eqn:E3; [done|]. rewrite Hu.
  by rewrite (K_bind_Ok _ _ _ _ _ (table_ptr v root (p ++ [i]) u Hwf Hp Hu')).
Qed.

Lemma vmm_map_present v virt phys flags t : let root := active_pml4_phys v in
  space_wf v root -> table_at (ram v) root (table_part virt) = Some t -> masked flags = 0 ->
  exists r', vmm_map virt phys flags v = Ok (true, set_ram v r') /\ space_wf (set_ram v r') root /\
    forall q, table_path q -> table_at r' root q = table_at (ram v) root q.
Proof.
  intros root Hwf Ht Hf. destruct (vmm_map_mapped v virt phys flags Hwf Hf) as (b & v' & E & M & _).
  pose proof (table_part_path virt) as Hp.
  assert (exists t1, table_at (ram v) root [pml4_index virt] = Some t1) as [t1 H1] by (unfold table_part in Ht; cbn in Ht |- *; destruct (present _ && _); [eauto|done]).
  assert (exists t2, table_at (ram v) root [pml4_index virt; pdpt_index virt] = Some t2) as [t2 H2].
  { unfold table_part in Ht. cbn in Ht |- *. destruct (present _ && _); [|done]. destruct (present _ && _); [eauto|done]. }
  assert (table_path [] /\ table_path [pml4_index virt] /\ table_path [pml4_index virt; pdpt_index virt]) as (P0 & P1 & P2).
  { destruct Hp as [Hf' _]. unfold table_part in Hf'. rewrite !Forall_cons in Hf'. destruct Hf' as (I1 & I2 & _). split; [|split]; (split; [by auto using Forall_cons_2, Forall_nil_2|cbn; lia]). }
  set (r' := store (ram v) (t + 8 * pt_index virt) (Z.lor (Z.lor (masked phys) flags) PAGE_PRESENT)). exists r'.
  assert (vmm_map virt phys flags v = Ok (true, set_ram v r')) as E'.
  { unfold vmm_map. rewrite K_gets. fold root. rewrite (K_bind_Ok _ _ _ _ _ (table_ptr v root [] root Hwf P0 eq_refl)).
    rewrite (K_bind_Ok _ _ _ _ _ (ensure_present v root [] (pml4_index virt) root t1 Hwf P1 eq_refl H1)).
    rewrite (K_bind_Ok _ _ _ _ _ (ensure_present v root [pml4_index virt] (pdpt_index virt) t1 t2 Hwf P2 H1 H2)).
    rewrite (K_bind_Ok _ _ _ _ _ (ensure_present v root [pml4_index virt; pdpt_index virt] (pd_index virt) t2 t Hwf Hp H2 Ht)). done. }
  split; [done|]. rewrite E' in E. injection E as <- <-. split; [by apply (mapped_wf _ _ _ _ _ _ M)|].
  intros q Hq. apply (leaf_table_at v root Hwf (table_part virt) t (pt_index virt)); [done|apply index_range|done| |done|done].
  intros a Ha _. by apply store_ne.
Qed.

End mapping.

End Hw.
