(* ===== verification/Pci.v ===== *)
(** * PCI configuration space (kernel/drivers/pci.c)

    The configuration mechanism with an address port and a data port, the search for a device by its class,
    the decoding of a base address register, and enabling of bus mastering. The machine's host bridge is a
    parameter: [PciPorts] are the port instructions the driver uses, and [PciHost] states what the PCI
    specification promises about them. *)

From S2P Require Import Prelude Bytes.

Module Pci.
Local Open Scope c_scope.

Record pci_addr := mk_addr { bus : Z; dev : Z; func : Z; valid : bool }.

(** The instructions [in] and [out] of 16 and 32 bits. *)
Class PciPorts (H : Type) := {
  outl : Z -> Z -> H -> H;
  inl : Z -> H -> Z * H;
  outw : Z -> Z -> H -> H;
  inw : Z -> H -> Z * H }.

Definition cfg_addr (bus dev func offset : Z) : Z :=
  (Z.shiftl 1 31 .| Z.shiftl bus 16 .| Z.shiftl dev 11 .| Z.shiftl func 8 .| (offset .& 0xfc))%C.

Section pci.
Context {H : Type} `{PciPorts H}.

Definition pci_read32 (bus dev func offset : Z) : K H Z := fun h =>
  Ok (inl 0xcfc (outl 0xcf8 (cfg_addr bus dev func offset) h)).

Definition pci_write32 (bus dev func offset value : Z) : K H unit :=
  modify (fun h => outl 0xcfc value (outl 0xcf8 (cfg_addr bus dev func offset) h)).

Definition pci_read16 (bus dev func offset : Z) : K H Z := fun h =>
  Ok (inw (0xcfc + (offset .& 2)%C) (outl 0xcf8 (cfg_addr bus dev func offset) h)).

Definition pci_write16 (bus dev func offset value : Z) : K H unit :=
  modify (fun h => outw (0xcfc + (offset .& 2)%C) value (outl 0xcf8 (cfg_addr bus dev func offset) h)).

(** [for (i = lo; i < lo + n; ++i)] with a body that can return from the function. *)
Fixpoint search {A} (n : nat) (i : Z) (body : Z -> K H (option A)) : K H (option A) :=
  match n with
  | O => mret None
  | S n' => r ← body i; match r with Some a => mret (Some a) | None => search n' (i + 1) body end
  end.

Definition try_func (class_code subclass bus dev func : Z) : K H (option pci_addr) :=
  vid ← pci_read32 bus dev func 0x00;
  if (vid .& 0xffff)%C =? 0xffff then mret None else
  cc ← pci_read32 bus dev func 0x08;
  let cls := u8 (cc .>> 24)%C in
  let sub := u8 (cc .>> 16)%C in
  mret (if (cls =? class_code) && (sub =? subclass) then Some (mk_addr bus dev func true) else None).

Definition try_dev (class_code subclass bus dev : Z) : K H (option pci_addr) :=
  id ← pci_read32 bus dev 0 0x00;
  if (id .& 0xffff)%C =? 0xffff then mret None else
  hdr ← pci_read32 bus dev 0 0x0c;
  let max_func := if negb ((hdr .& 0x800000)%C =? 0) then 8%nat else 1%nat in
  search max_func 0 (try_func class_code subclass bus dev).

Definition pci_find_class (class_code subclass : Z) : K H pci_addr :=
  r ← search 256 0 (fun bus => search 32 0 (try_dev class_code subclass bus));
  mret (default (mk_addr 0 0 0 false) r).

Definition pci_read_bar (a : pci_addr) (bar_index : Z) : K H Z :=
  if 5 <? bar_index then mret 0 else
  let offset := u8 (0x10 + bar_index * 4) in
  bar_lo ← pci_read32 (bus a) (dev a) (func a) offset;
  if negb ((bar_lo .& 1)%C =? 0) then mret 0 else
  let addr := (bar_lo .& 0xfffffff0)%C in
  if (((bar_lo .>> 1) .& 3)%C =? 2) && (bar_index <? 5) then
    bar_hi ← pci_read32 (bus a) (dev a) (func a) (u8 (offset + 4));
    mret (addr .| u64 (bar_hi .<< 32))%C
  else mret addr.

Definition pci_enable_busmaster (a : pci_addr) : K H unit :=
  cmd ← pci_read16 (bus a) (dev a) (func a) 0x04;
  pci_write16 (bus a) (dev a) (func a) 0x04 (u16 (cmd .| 0x04)%C).

End pci.

(** ** What the host bridge promises

    [config h b d f r] is the 32-bit register number [r] of function [f] of device [d] on bus [b]. A read
    through the data port gives the register the address port selects and changes no register. A write of 16
    bits reaches the writable bits of one half of the register, and no other register. *)
Definition config_space : Type := Z -> Z -> Z -> Z -> Z.

Definition reg (c : config_space) (a : Z) : Z := c (a / 2 ^ 16 mod 256) (a / 2 ^ 11 mod 32) (a / 2 ^ 8 mod 8) (a / 4 mod 64).

Definition half (w p : Z) : Z := w / 2 ^ (8 * p) mod 2 ^ 16.
Definition set_half (w p v : Z) : Z := w + (v - half w p) * 2 ^ (8 * p).
(** The bits of [v] in [mask], the others of [w]. *)
Definition merge (mask w v : Z) : Z := Z.lor (Z.land v mask) (Z.ldiff w mask).

Class PciHost (H : Type) `{PciPorts H} := {
  config : H -> config_space;
  writable : Z -> Z -> Z -> Z -> Z;
  config_range h b d f r : is_u32 (config h b d f r);
  read_config h a : Z.testbit a 31 = true -> (inl 0xcfc (outl 0xcf8 a h)).1 = reg (config h) a;
  read_keeps h a b d f r : config (inl 0xcfc (outl 0xcf8 a h)).2 b d f r = config h b d f r;
  read_half h a p : Z.testbit a 31 = true -> p = 0 \/ p = 2 -> (inw (0xcfc + p) (outl 0xcf8 a h)).1 = half (reg (config h) a) p;
  read_half_keeps h a p b d f r : config (inw (0xcfc + p) (outl 0xcf8 a h)).2 b d f r = config h b d f r;
  write_half h a p v : Z.testbit a 31 = true -> p = 0 \/ p = 2 -> is_u16 v ->
    let h' := outw (0xcfc + p) v (outl 0xcf8 a h) in
    reg (config h') a = set_half (reg (config h) a) p (merge (half (reg writable a) p) (half (reg (config h) a) p) v);
  write_half_keeps h a p v b d f r : Z.testbit a 31 = true -> p = 0 \/ p = 2 ->
    (b, d, f, r) <> (a / 2 ^ 16 mod 256, a / 2 ^ 11 mod 32, a / 2 ^ 8 mod 8, a / 4 mod 64) ->
    config (outw (0xcfc + p) v (outl 0xcf8 a h)) b d f r = config h b d f r }.

(** ** Addresses *)

Definition fn_ok (b d f : Z) : Prop := 0 <= b < 256 /\ 0 <= d < 32 /\ 0 <= f < 8.

Lemma cfg_addr_sum b d f o : fn_ok b d f -> is_u8 o ->
  cfg_addr b d f o = 2 ^ 31 + b * 2 ^ 16 + d * 2 ^ 11 + f * 2 ^ 8 + o / 4 * 4.
Proof.
  intros (Hb & Hd & Hf) Ho. unfold cfg_addr. rewrite !Z.shiftl_mul_pow2 by lia.
  change 0xfc with (Z.shiftl (Z.ones 6) 2). rewrite land_field by lia.
  replace (o / 2 ^ 2 mod 2 ^ 6 * 2 ^ 2) with (o / 4 * 4) by int_lia.
  rewrite <- !Z.lor_assoc. rewrite (lor_add_low 8 f) by int_lia.
  replace (f * 2 ^ 8 + o / 4 * 4) with (f * 2 ^ 8 + o / 4 * 4) by done.
  rewrite (lor_add_low 11 d) by int_lia. rewrite (lor_add_low 16 b) by int_lia. rewrite (lor_add_low 31 1) by int_lia. lia.
Qed.

(** The address port selects the function and the register that were asked for. *)
Lemma cfg_addr_fields b d f o : fn_ok b d f -> is_u8 o -> let a := cfg_addr b d f o in
  Z.testbit a 31 = true /\ a / 2 ^ 16 mod 256 = b /\ a / 2 ^ 11 mod 32 = d /\ a / 2 ^ 8 mod 8 = f /\ a / 4 mod 64 = o / 4.
Proof.
  intros Hf Ho a. unfold a. rewrite cfg_addr_sum by done. destruct Hf as (Hb & Hd & Hf).
  split; [|repeat split; int_lia].
  apply Z.testbit_true; [lia|]. int_lia.
Qed.

Lemma reg_cfg_addr c b d f o : fn_ok b d f -> is_u8 o -> reg c (cfg_addr b d f o) = c b d f (o / 4).
Proof. intros Hf Ho. unfold reg. destruct (cfg_addr_fields b d f o Hf Ho) as (_ & -> & -> & -> & ->). done. Qed.

(** ** The search *)

(** The functions of the machine in the order of bus, device and function number. A device whose function 0
    does not answer has none, and one that is not marked as multi-function has only function 0. *)
Definition present (c : config_space) (b d f : Z) : bool := negb (c b d f 0 mod 2 ^ 16 =? 0xffff).
Definition multi_function (c : config_space) (b d : Z) : bool := Z.testbit (c b d 0 3) 23.
Definition class_of (c : config_space) (b d f : Z) : Z * Z := (c b d f 2 / 2 ^ 24, c b d f 2 / 2 ^ 16 mod 256).
Definition dev_functions (c : config_space) (b d : Z) : list (Z * Z * Z) :=
  if present c b d 0 then (fun f => (b, d, f)) <$> seqZ 0 (if multi_function c b d then 8 else 1) else [].
Definition functions (c : config_space) : list (Z * Z * Z) := b ← seqZ 0 256; d ← seqZ 0 32; dev_functions c b d.

Definition is_a (c : config_space) (cls sub : Z) (x : Z * Z * Z) : bool :=
  let '(b, d, f) := x in present c b d f && bool_decide (class_of c b d f = (cls, sub)).
(** The first function with the class and subclass. *)
Definition find_fn (c : config_space) (cls sub : Z) : option (Z * Z * Z) := head (filter (is_a c cls sub) (functions c)).
Definition to_addr (x : Z * Z * Z) : pci_addr := let '(b, d, f) := x in mk_addr b d f true.
Definition matching (c : config_space) (cls sub : Z) (l : list (Z * Z * Z)) : list pci_addr := to_addr <$> filter (is_a c cls sub) l.

Lemma functions_ok c b d f : (b, d, f) ∈ functions c -> fn_ok b d f.
Proof.
  unfold functions, dev_functions. intros (b' & (d' & Hx & Hd)%list_elem_of_bind & Hb)%list_elem_of_bind. apply elem_of_seqZ in Hb, Hd.
  destruct (present _ _ _ _); [|by apply not_elem_of_nil in Hx]. apply list_elem_of_fmap in Hx as (f' & [= -> -> ->] & Hf). apply elem_of_seqZ in Hf.
  unfold fn_ok. destruct (multi_function _ _ _); lia.
Qed.

Section host.
Context {H : Type} `{Hports : PciPorts H} {Hhost : PciHost H}.
Implicit Types (h : H).

(** No configuration register differs. *)
Definition same h h' : Prop := forall b d f r, config h' b d f r = config h b d f r.

#[local] Instance same_preorder : PreOrder same.
Proof. split; [done|]. intros h1 h2 h3 E1 E2 b d f r. by rewrite E2, E1. Qed.

Lemma read32_spec h b d f o : fn_ok b d f -> is_u8 o ->
  exists h', pci_read32 b d f o h = Ok (config h b d f (o / 4), h') /\ same h h'.
Proof.
  intros Hf Ho. unfold pci_read32. destruct (inl _ _) as [v h'] eqn:E. exists h'.
  pose proof (read_config h (cfg_addr b d f o) (proj1 (cfg_addr_fields b d f o Hf Ho))) as Ev. rewrite E, reg_cfg_addr in Ev by done.
  cbn in Ev. subst v. split; [done|]. intros b' d' f' r. pose proof (read_keeps h (cfg_addr b d f o) b' d' f' r) as Ek. by rewrite E in Ek.
Qed.

Lemma search_filter {A} (g : Z -> option A) h0 body : forall n lo h,
  (forall i h, lo <= i < lo + Z.of_nat n -> same h0 h -> exists h', body i h = Ok (g i, h') /\ same h0 h') -> same h0 h ->
  exists h', search n lo body h = Ok (head (omap g (seqZ lo (Z.of_nat n))), h') /\ same h0 h'.
Proof.
  induction n as [|n IH]; intros lo h Hb Hh; [by exists h|].
  destruct (Hb lo h ltac:(lia) Hh) as (h1 & E & Hh1). cbn [search]. rewrite (K_bind_Ok _ _ _ _ _ E).
  rewrite seqZ_cons by lia. replace (Z.pred (Z.of_nat (S n))) with (Z.of_nat n) by lia. cbn. destruct (g lo); [by exists h1|].
  apply IH; [|done]. intros i h' Hi. apply Hb. lia.
Qed.

Lemma head_omap_head {A B} (F : A -> list B) l : head (omap (fun x => head (F x)) l) = head (l ≫= F).
Proof. induction l as [|x l IH]; [done|]. cbn. by destruct (F x) as [|y ys]. Qed.

Lemma bind_matching {A} c cls sub (F : A -> list (Z * Z * Z)) l : (l ≫= fun x => matching c cls sub (F x)) = matching c cls sub (l ≫= F).
Proof. induction l as [|x l IH]; [done|]. cbn. rewrite IH. unfold matching. by rewrite filter_app, fmap_app. Qed.

Lemma bind_ext_eq {A B} (F G : A -> list B) l : (forall x, F x = G x) -> l ≫= F = l ≫= G.
Proof. intros E. induction l as [|x l IH]; [done|]. cbn. by rewrite E, IH. Qed.

Lemma head_fmap_comm {A B} (f : A -> B) l : head (f <$> l) = f <$> head l.
Proof. by destruct l. Qed.

Definition func_match c cls sub b d f : option pci_addr := head (matching c cls sub [(b, d, f)]).
Definition dev_match c cls sub b d : option pci_addr := head (matching c cls sub (dev_functions c b d)).

Lemma low16 v : (v .& 0xffff)%C = v mod 2 ^ 16.
Proof. by apply (land_ones_mod v 16). Qed.

Lemma try_func_spec cls sub b d f h : fn_ok b d f -> exists h', try_func cls sub b d f h = Ok (func_match (config h) cls sub b d f, h') /\ same h h'.
Proof.
  intros Hf. destruct (read32_spec h b d f 0 Hf ltac:(int_lia)) as (h1 & E1 & H1). unfold try_func, func_match, matching.
  rewrite (K_bind_Ok _ _ _ _ _ E1). change (0 / 4) with 0. rewrite low16. rewrite filter_cons. cbn [is_a]. unfold present.
  destruct (_ =? 0xffff); [by exists h1|]. destruct (read32_spec h1 b d f 8 Hf ltac:(int_lia)) as (h2 & E2 & H2).
  rewrite (K_bind_Ok _ _ _ _ _ E2). change (8 / 4) with 2. rewrite H1. exists h2. split; [|by etrans]. do 3 f_equal.
  pose proof (config_range h b d f 2) as Hr. unfold class_of. rewrite !Z.shiftr_div_pow2 by lia.
  replace (u8 (config h b d f 2 / 2 ^ 24)) with (config h b d f 2 / 2 ^ 24) by int_lia.
  cbn [negb andb]. destruct (Z.eqb_spec (config h b d f 2 / 2 ^ 24) cls); [|rewrite (decide_False (P := Is_true _)); [done|]; rewrite bool_decide_spec; naive_solver].
  unfold u8. change (2 ^ 8) with 256. destruct (Z.eqb_spec (config h b d f 2 / 2 ^ 16 mod 256) sub); [rewrite (decide_True (P := Is_true _)); [done|]|rewrite (decide_False (P := Is_true _)); [done|]]; rewrite bool_decide_spec; naive_solver.
Qed.

Lemma func_match_same h h' cls sub b d f : same h h' -> func_match (config h') cls sub b d f = func_match (config h) cls sub b d f.
Proof. intros E. unfold func_match, matching. rewrite !filter_cons. cbn [is_a]. unfold present, class_of. by rewrite !E. Qed.

Lemma dev_functions_eq c cls sub b d n : 0 <= n -> head (omap (func_match c cls sub b d) (seqZ 0 n)) = head (matching c cls sub ((fun f => (b, d, f)) <$> seqZ 0 n)).
Proof.
  intros Hn. unfold func_match. rewrite (head_omap_head (fun f => matching c cls sub [(b, d, f)])).
  rewrite (bind_matching c cls sub (fun f => [(b, d, f)])). done.
Qed.

Lemma try_dev_spec cls sub b d h : 0 <= b < 256 -> 0 <= d < 32 -> exists h', try_dev cls sub b d h = Ok (dev_match (config h) cls sub b d, h') /\ same h h'.
Proof.
  intros Hb Hd. assert (fn_ok b d 0) as Hf by (unfold fn_ok; lia). destruct (read32_spec h b d 0 0 Hf ltac:(int_lia)) as (h1 & E1 & H1).
  unfold try_dev, dev_match, dev_functions. rewrite (K_bind_Ok _ _ _ _ _ E1). change (0 / 4) with 0. rewrite low16. unfold present.
  destruct (_ =? 0xffff); [by exists h1|]. destruct (read32_spec h1 b d 0 0xc Hf ltac:(int_lia)) as (h2 & E2 & H2).
  rewrite (K_bind_Ok _ _ _ _ _ E2). change (0xc / 4) with 3. rewrite H1. cbn [negb].
  assert (negb ((config h b d 0 3 .& 0x800000)%C =? 0) = multi_function (config h) b d) as ->.
  { unfold multi_function. change 0x800000 with (2 ^ 23). set (v := config h b d 0 3).
    pose proof (land_field v 23 1 ltac:(lia) ltac:(lia)) as El. change (Z.shiftl (Z.ones 1) 23) with (2 ^ 23) in El. rewrite El.
    rewrite Z.testbit_eqb by lia. lia. }
  set (n := if multi_function (config h) b d then 8%nat else 1%nat).
  destruct (search_filter (func_match (config h) cls sub b d) h (try_func cls sub b d) n 0 h2) as (h3 & E3 & H3); [|by etrans|].
  - intros i h' Hi Hs. destruct (try_func_spec cls sub b d i h') as (h'' & E & Hs'); [unfold fn_ok, n in *; destruct (multi_function _ _ _); lia|].
    exists h''. rewrite (func_match_same h h') in E by done. split; [done|by etrans].
  - exists h3. split; [|done]. rewrite E3, dev_functions_eq by lia. unfold n. by destruct (multi_function _ _ _).
Qed.

Lemma dev_match_same h h' cls sub b d : same h h' -> dev_match (config h') cls sub b d = dev_match (config h) cls sub b d.
Proof.
  intros E. unfold dev_match, dev_functions, present, multi_function. rewrite !E. case_match; [|done].
  f_equal. unfold matching. f_equal. apply list_filter_iff. intros [[b' d'] f']. cbn [is_a]. unfold present, class_of. by rewrite !E.
Qed.

(** [pci_find_class] finds the first function, in the order of bus, device and function number, that has
    the class and the subclass; it looks at functions 1 to 7 only of the devices that say they have several,
    takes no function that does not answer, and says so when there is none. It ends, whatever the machine
    holds, and changes no configuration register. *)
Theorem pci_find_class_correct h cls sub : exists h',
  pci_find_class cls sub h = Ok (default (mk_addr 0 0 0 false) (to_addr <$> find_fn (config h) cls sub), h') /\ same h h'.
Proof.
  set (g := fun b => head (omap (dev_match (config h) cls sub b) (seqZ 0 32))).
  destruct (search_filter g h (fun b => search 32 0 (try_dev cls sub b)) 256 0 h) as (h' & E & Hs); [|done|].
  - intros b h1 Hb H1. unfold g. apply (search_filter (dev_match (config h) cls sub b) h (try_dev cls sub b) 32 0 h1); [|done].
    intros d h2 Hd H2. destruct (try_dev_spec cls sub b d h2) as (h3 & E & H3); [lia..|]. exists h3.
    rewrite (dev_match_same h h2) in E by done. split; [done|by etrans].
  - exists h'. split; [|done]. unfold pci_find_class. rewrite (K_bind_Ok _ _ _ _ _ E). cbn [mret K_ret]. unfold mret, K_ret. do 3 f_equal.
    unfold g, dev_match. change (Z.of_nat 256) with 256.
    transitivity (head (omap (fun b => head (seqZ 0 32 ≫= fun d => matching (config h) cls sub (dev_functions (config h) b d))) (seqZ 0 256))).
    { f_equal. apply list_omap_ext. apply Forall2_same_length_lookup. split; [done|]. intros i x y Hx Hy. simplify_eq. apply (head_omap_head (fun d => matching (config h) cls sub (dev_functions (config h) x d))). }
    rewrite (head_omap_head (fun b => seqZ 0 32 ≫= fun d => matching (config h) cls sub (dev_functions (config h) b d))).
    rewrite (bind_ext_eq _ (fun b => matching (config h) cls sub (seqZ 0 32 ≫= dev_functions (config h) b))) by (intros b; apply bind_matching).
    rewrite bind_matching. apply head_fmap_comm.
Qed.

(** ** Base addresses and bus mastering *)

Definition addr_ok (a : pci_addr) : Prop := fn_ok (bus a) (dev a) (func a).

(** The address in base address register [i]: a register of I/O ports counts as 0, and one of type 2 has its
    upper half in the next register. *)
Definition bar (c : config_space) (a : pci_addr) (i : Z) : Z :=
  let lo := c (bus a) (dev a) (func a) (4 + i) in
  if Z.odd lo then 0
  else if (lo / 2 mod 4 =? 2) && (i <? 5) then lo / 16 * 16 + c (bus a) (dev a) (func a) (5 + i) * 2 ^ 32
  else lo / 16 * 16.

(** [pci_read_bar] is the address in the register, for each of the six. *)
Theorem pci_read_bar_correct h a i : addr_ok a -> 0 <= i <= 5 -> exists h', pci_read_bar a i h = Ok (bar (config h) a i, h') /\ same h h'.
Proof.
  intros Ha Hi. unfold pci_read_bar. replace (5 <? i) with false by lia. replace (u8 (0x10 + i * 4)) with (4 * (4 + i)) by int_lia.
  destruct (read32_spec h (bus a) (dev a) (func a) (4 * (4 + i)) Ha ltac:(int_lia)) as (h1 & E1 & H1). rewrite (K_bind_Ok _ _ _ _ _ E1).
  replace (4 * (4 + i) / 4) with (4 + i) by lia. unfold bar. set (lo := config h _ _ _ (4 + i)). pose proof (config_range h (bus a) (dev a) (func a) (4 + i) : is_u32 lo) as Hlo.
  change 1 with (2 ^ 1 - 1) at 1. rewrite land_ones_mod by lia. change (2 ^ 1) with 2.
  replace (negb (lo mod 2 =? 0)) with (Z.odd lo) by (rewrite Zodd_mod; lia). destruct (Z.odd lo); [by exists h1|].
  change 3 with (2 ^ 2 - 1). rewrite land_ones_mod, Z.shiftr_div_pow2 by lia. change (lo / 2 ^ 1 mod 2 ^ 2) with (lo / 2 mod 4).
  change 0xfffffff0 with (Z.shiftl (Z.ones 28) 4). rewrite land_field by lia. replace (lo / 2 ^ 4 mod 2 ^ 28 * 2 ^ 4) with (lo / 16 * 16) by int_lia.
  destruct ((_ =? 2) && _) eqn:E; [|by exists h1].
  destruct (read32_spec h1 (bus a) (dev a) (func a) (u8 (4 * (4 + i) + 4)) Ha (u8_range _)) as (h2 & E2 & H2). rewrite (K_bind_Ok _ _ _ _ _ E2).
  exists h2. split; [|by etrans]. unfold mret, K_ret. do 2 f_equal. rewrite H1. replace (u8 (4 * (4 + i) + 4) / 4) with (5 + i) by int_lia.
  pose proof (config_range h (bus a) (dev a) (func a) (5 + i)) as Hhi. set (hi := config h _ _ _ (5 + i)) in *. rewrite Z.shiftl_mul_pow2 by lia.
  rewrite Z.lor_comm, u64_small by int_lia. rewrite lor_add_low by int_lia. lia.
Qed.

(** Writing back the lower half of a register with bit 2 set changes only that bit. *)
Lemma set_bit_2 w mask i : 0 <= i -> 0 <= mask < 2 ^ 16 -> Z.testbit mask 2 = true ->
  Z.testbit (set_half w 0 (merge mask (half w 0) (half w 0 .| 4)%C)) i = (i =? 2) || Z.testbit w i.
Proof.
  intros Hi Hm Hm2. unfold set_half. assert (half w 0 = w mod 2 ^ 16) as -> by (unfold half; f_equal; lia). set (v := merge _ _ _).
  assert (forall j, 0 <= j -> Z.testbit v j = ((j =? 2) || Z.testbit (w mod 2 ^ 16) j)) as Hv.
  { intros j Hj. unfold v, merge. rewrite Z.lor_spec, Z.land_spec, Z.ldiff_spec, Z.lor_spec. change 4 with (2 ^ 2). rewrite Z.pow2_bits_eqb, (Z.eqb_sym 2 j) by lia.
    destruct (Z.eqb_spec j 2) as [->|]; [by rewrite Hm2, orb_true_r|]. rewrite orb_false_r. by destruct (Z.testbit mask j), (Z.testbit (w mod 2 ^ 16) j). }
  assert (0 <= v) as Hv0 by (apply Z.lor_nonneg; split; [apply Z.land_nonneg|apply Z.ldiff_nonneg]; lia).
  assert (v < 2 ^ 16) as Hvr.
  { apply bits_range; [lia|done|]. intros j Hj. rewrite Hv by lia. replace (j =? 2) with false by lia. by apply Z.mod_pow2_bits_high. }
  change (2 ^ (8 * 0)) with 1. replace (w + (v - w mod 2 ^ 16) * 1) with (w / 2 ^ 16 * 2 ^ 16 + v) by lia. rewrite <- lor_add_low, Z.lor_spec, Hv by lia.
  destruct (Z.lt_ge_cases i 16); [by rewrite Z.mul_pow2_bits_low, Z.mod_pow2_bits_low by lia|].
  rewrite Z.mul_pow2_bits, Z.div_pow2_bits, Z.mod_pow2_bits_high by lia. replace (i - 16 + 16) with i by lia. replace (i =? 2) with false by lia. by rewrite orb_false_r.
Qed.

(** [pci_enable_busmaster] sets bit 2 of the command register of a device that has it, and changes nothing
    else in the configuration space; the status bits in the same 32-bit register, which a 32-bit write would
    clear, are kept. *)
Theorem pci_enable_busmaster_correct h a : addr_ok a -> Z.testbit (writable (bus a) (dev a) (func a) 1) 2 = true ->
  exists h', pci_enable_busmaster a h = Ok (tt, h') /\
    (forall i, 0 <= i -> Z.testbit (config h' (bus a) (dev a) (func a) 1) i = (i =? 2) || Z.testbit (config h (bus a) (dev a) (func a) 1) i) /\
    (forall b d f r, (b, d, f, r) <> (bus a, dev a, func a, 1) -> config h' b d f r = config h b d f r).
Proof.
  intros Ha Hw. unfold pci_enable_busmaster, pci_read16, pci_write16. set (ad := cfg_addr (bus a) (dev a) (func a) 4).
  destruct (cfg_addr_fields (bus a) (dev a) (func a) 4 Ha ltac:(int_lia)) as (Hb & Hf1 & Hf2 & Hf3 & Hf4).
  fold ad in Hb, Hf1, Hf2, Hf3, Hf4. change (4 / 4) with 1 in Hf4.
  assert (forall c, reg c ad = c (bus a) (dev a) (func a) 1) as Hr by (intros c; unfold reg; by rewrite Hf1, Hf2, Hf3, Hf4).
  change (0xcfc + (4 .& 2)%C) with (0xcfc + 0). pose proof (read_half h ad 0 Hb (or_introl eq_refl)) as Er. pose proof (read_half_keeps h ad 0) as Ek.
  unfold mbind, K_bind. destruct (inw (0xcfc + 0) (outl 0xcf8 ad h)) as [cmd h1]. cbn [fst snd] in Er, Ek. subst cmd. unfold modify. eexists. split; [done|].
  rewrite Hr. set (w := config h (bus a) (dev a) (func a) 1). assert (0 <= half w 0 < 2 ^ 16) as Hh by (unfold half; lia).
  rewrite u16_small by (apply (lor_range 16); lia). split.
  - intros i Hi. pose proof (write_half h1 ad 0 (half w 0 .| 4)%C Hb (or_introl eq_refl) ltac:(apply (lor_range 16); lia)) as Ew. cbn zeta in Ew.
    rewrite !Hr, Ek in Ew. rewrite Ew. apply set_bit_2; [done|unfold half; lia|]. unfold half. rewrite Z.mod_pow2_bits_low by lia.
    change (2 ^ (8 * 0)) with 1. by rewrite Z.div_1_r.
  - intros b d f r Hne. rewrite write_half_keeps; [apply Ek|done|by left|]. by rewrite Hf1, Hf2, Hf3, Hf4.
Qed.

(** The device a driver has found: its address is a function of the machine, and finding it again after bus
    mastering was enabled gives the same base address. *)
Lemma find_class_some h cls sub x : find_fn (config h) cls sub = Some x ->
  exists h', pci_find_class cls sub h = Ok (to_addr x, h') /\ same h h' /\ addr_ok (to_addr x) /\ valid (to_addr x) = true.
Proof.
  intros E. destruct (pci_find_class_correct h cls sub) as (h' & Ef & Hs). rewrite E in Ef. exists h'. split; [done|]. split; [done|].
  unfold find_fn in E. destruct (filter _ _) as [|y l] eqn:El; [done|]. injection E as ->. assert (x ∈ functions (config h)) as Hx.
  { assert (x ∈ filter (is_a (config h) cls sub) (functions (config h))) as Hx by (rewrite El; left). by apply list_elem_of_filter in Hx as [_ ?]. }
  destruct x as [[b d] f]. split; [|done]. by apply functions_ok in Hx.
Qed.

Lemma bar_same c c' a i : (forall r, 4 <= r -> c' (bus a) (dev a) (func a) r = c (bus a) (dev a) (func a) r) -> 0 <= i -> bar c' a i = bar c a i.
Proof. intros E Hi. unfold bar. by rewrite !E by lia. Qed.

(** The three steps with which every driver finds its device. *)
Lemma find_device h cls sub x i : find_fn (config h) cls sub = Some x ->
  let a := to_addr x in Z.testbit (writable (bus a) (dev a) (func a) 1) 2 = true -> 0 <= i <= 5 ->
  exists h1 h2 h3, pci_find_class cls sub h = Ok (a, h1) /\ valid a = true /\ pci_enable_busmaster a h1 = Ok (tt, h2) /\ pci_read_bar a i h2 = Ok (bar (config h) a i, h3).
Proof.
  intros Hx a Hw Hi. destruct (find_class_some h cls sub x Hx) as (h1 & E1 & S1 & Ha & Hv). fold a in E1, Ha, Hv.
  destruct (pci_enable_busmaster_correct h1 a Ha Hw) as (h2 & E2 & _ & Hk). destruct (pci_read_bar_correct h2 a i Ha Hi) as (h3 & E3 & _).
  exists h1, h2, h3. split; [done|]. split; [done|]. split; [done|]. rewrite E3. do 2 f_equal. apply bar_same; [|lia].
  intros r Hr. rewrite Hk by (intros [=]; lia). apply S1.
Qed.

End host.

(** ** A host bridge

    The specification's mechanism on a table of registers, all of whose bits can be written. *)
Record bridge := mk_bridge { latch : Z; table : config_space }.

Definition set_reg (c : config_space) (a v : Z) : config_space := fun b d f r =>
  if bool_decide ((b, d, f, r) = (a / 2 ^ 16 mod 256, a / 2 ^ 11 mod 32, a / 2 ^ 8 mod 8, a / 4 mod 64)) then v else c b d f r.

Definition bridge_config (h : bridge) : config_space := fun b d f r => u32 (table h b d f r).

#[export] Instance bridge_ports : PciPorts bridge := {
  outl p v h := if p =? 0xcf8 then mk_bridge v (table h) else if p =? 0xcfc then mk_bridge (latch h) (set_reg (table h) (latch h) v) else h;
  inl p h := (if p =? 0xcfc then reg (bridge_config h) (latch h) else 0xffffffff, h);
  outw p v h := mk_bridge (latch h) (set_reg (table h) (latch h) (set_half (reg (bridge_config h) (latch h)) (p - 0xcfc) v));
  inw p h := (half (reg (bridge_config h) (latch h)) (p - 0xcfc), h) }.

Lemma set_half_range w p v : is_u32 w -> is_u16 v -> p = 0 \/ p = 2 -> is_u32 (set_half w p v).
Proof. intros Hw Hv [-> | ->]; unfold set_half, half; [change (2 ^ (8 * 0)) with 1|change (2 ^ (8 * 2)) with 65536]; int_lia. Qed.

Lemma merge_all w v : is_u16 w -> is_u16 v -> merge (2 ^ 16 - 1) w v = v.
Proof.
  intros Hw Hv. unfold merge. rewrite land_ones_mod by lia. change (2 ^ 16 - 1) with (Z.ones 16). rewrite Z.ldiff_ones_r by lia.
  rewrite Z.shiftr_div_pow2, Z.shiftl_mul_pow2 by lia. replace (w / 2 ^ 16 * 2 ^ 16) with 0 by int_lia. rewrite Z.lor_0_r. int_lia.
Qed.

#[export] Instance bridge_host : PciHost bridge.
Proof.
  refine (Build_PciHost bridge _ bridge_config (fun _ _ _ _ => 2 ^ 32 - 1) _ _ _ _ _ _ _); try done.
  - intros. apply u32_range.
  - intros h a p Ha Hp. cbn. by replace (3324 + p - 3324) with p by lia.
  - intros h a p v Ha Hp Hv. cbn -[Z.pow]. unfold reg, bridge_config at 1. cbn -[Z.pow]. unfold set_reg. rewrite bool_decide_true by done.
    unfold bridge_config. cbn -[Z.pow]. set (w := u32 (table h (a / 2 ^ 16 mod 256) (a / 2 ^ 11 mod 32) (a / 2 ^ 8 mod 8) (a / 4 mod 64))) in *. replace (3324 + p - 3324) with p by lia.
    assert (is_u32 w) as Hw by apply u32_range. replace (half (2 ^ 32 - 1) p) with (2 ^ 16 - 1) by (by destruct Hp as [-> | ->]).
    rewrite merge_all; [|unfold half; int_lia|done]. apply u32_small. by apply set_half_range.
  - intros h a p v b d f r Ha Hp Hne. cbn. unfold bridge_config. cbn. unfold set_reg. by rewrite bool_decide_false.
Defined.

(** A machine with a host bridge at 0:0.0 and at 0:3 a device of several functions, whose function 2 is a SATA
    controller with a 64-bit base address register. *)
Definition demo_bridge : bridge := mk_bridge 0 (fun b d f r =>
  match b, d, f, r with
  | 0, 0, 0, 0 => 0x12378086 | 0, 0, 0, 2 => 0x06000002 | 0, 0, 0, 3 => 0
  | 0, 3, 0, 0 => 0x70008086 | 0, 3, 0, 2 => 0x06010000 | 0, 3, 0, 3 => 0x00800000
  | 0, 3, 2, 0 => 0x29228086 | 0, 3, 2, 1 => 0x00100003 | 0, 3, 2, 2 => 0x01060102 | 0, 3, 2, 8 => 0xfebf0004 | 0, 3, 2, 9 => 0x00000001
  | _, _, _, _ => 0xffffffff
  end).

Lemma pci_find_class_correct_witness : exists h', pci_find_class 0x01 0x06 demo_bridge = Ok (mk_addr 0 3 2 true, h') /\ same demo_bridge h'.
Proof. destruct (pci_find_class_correct demo_bridge 0x01 0x06) as (h' & E & Hs). exists h'. split; [|done]. rewrite E. vm_compute. reflexivity. Defined.

Lemma pci_read_bar_correct_witness : exists h', pci_read_bar (mk_addr 0 3 2 true) 4 demo_bridge = Ok (0x1febf0000, h') /\ same demo_bridge h'.
Proof. destruct (pci_read_bar_correct demo_bridge (mk_addr 0 3 2 true) 4) as (h' & E & Hs); [unfold addr_ok, fn_ok; cbn; lia|lia|]. exists h'. split; [|done]. rewrite E. do 2 f_equal. Defined.

Lemma pci_enable_busmaster_correct_witness : exists h', pci_enable_busmaster (mk_addr 0 3 2 true) demo_bridge = Ok (tt, h') /\ Z.testbit (config h' 0 3 2 1) 2 = true.
Proof.
  destruct (pci_enable_busmaster_correct demo_bridge (mk_addr 0 3 2 true)) as (h' & E & Hb & _); [unfold addr_ok, fn_ok; cbn; lia|done|].
  exists h'. split; [done|]. apply (Hb 2). lia.
Defined.

End Pci.
