(* ===== verification/Nvme.v ===== *)
(** * The NVMe driver (kernel/drivers/nvme.c)

    The driver's queues, commands and initialisation, with the physical memory it shares with the controller.
    The controller is a parameter: [Mmio] is what the driver can do to it, and [NvmeController] states what
    the NVM Express specification promises, as a transition system on its queues and its namespace. *)

From S2P Require Import Prelude Bytes Pmm Vmm Hw Pci.
Import Pmm Hw Pci.

Module Nvme.
Local Open Scope c_scope.

Definition NVME_MMIO_VIRT : Z := 0xffffa00000010000.
Definition NVME_MMIO_PAGES : Z := 8.
Definition NVME_REG_CAP : Z := 0x00.
Definition NVME_REG_CC : Z := 0x14.
Definition NVME_REG_CSTS : Z := 0x1c.
Definition NVME_REG_AQA : Z := 0x24.
Definition NVME_REG_ASQ : Z := 0x28.
Definition NVME_REG_ACQ : Z := 0x30.
Definition NVME_CC_EN : Z := 1.
Definition NVME_CC_CSS_NVM : Z := 0.
Definition NVME_CC_MPS (n : Z) : Z := u32 (Z.shiftl n 7).
Definition NVME_CC_IOSQES (n : Z) : Z := u32 (Z.shiftl n 16).
Definition NVME_CC_IOCQES (n : Z) : Z := u32 (Z.shiftl n 20).
Definition NVME_CSTS_RDY : Z := 1.
Definition NVME_CSTS_CFS : Z := 2.
Definition NVME_AQ_SIZE : Z := 64.
Definition NVME_IOQ_SIZE : Z := 64.
Definition NVME_ADM_CREATE_IOCQ : Z := 0x05.
Definition NVME_ADM_CREATE_IOSQ : Z := 0x01.
Definition NVME_ADM_IDENTIFY : Z := 0x06.
Definition NVME_IO_WRITE : Z := 0x01.
Definition NVME_IO_READ : Z := 0x02.
Definition NVME_CNS_IDENTIFY_NS : Z := 0x00.

Record nvme_sqe_t := mk_sqe {
  cdw0 : Z; nsid : Z; cdw2 : Z; cdw3 : Z; mptr : Z; prp1 : Z; prp2 : Z;
  cdw10 : Z; cdw11 : Z; cdw12 : Z; cdw13 : Z; cdw14 : Z; cdw15 : Z }.

(** A command as it is in memory: 64 bytes. *)
Definition enc_sqe (c : nvme_sqe_t) : list Z :=
  le_bytes 4 (cdw0 c) ++ le_bytes 4 (nsid c) ++ le_bytes 4 (cdw2 c) ++ le_bytes 4 (cdw3 c) ++
  le_bytes 8 (mptr c) ++ le_bytes 8 (prp1 c) ++ le_bytes 8 (prp2 c) ++
  le_bytes 4 (cdw10 c) ++ le_bytes 4 (cdw11 c) ++ le_bytes 4 (cdw12 c) ++ le_bytes 4 (cdw13 c) ++
  le_bytes 4 (cdw14 c) ++ le_bytes 4 (cdw15 c).

Definition sizeof_sqe : Z := 64.
Definition sizeof_cqe : Z := 16.

(** A command whose other fields [memset] has cleared. *)
Definition command (cdw0 nsid prp1 cdw10 cdw11 cdw12 : Z) : nvme_sqe_t :=
  mk_sqe cdw0 nsid 0 0 0 prp1 0 cdw10 cdw11 cdw12 0 0 0.

(** The statics of one pair of queues: the physical addresses of the two rings, the driver's positions and the
    phase that marks a new completion. *)
Record queue := mk_queue { sq : Z; cq : Z; tail : Z; head : Z; phase : Z }.

Record nvme := mk_nvme { s_dstrd : Z; s_adm : queue; s_io : queue; s_next_cid : Z; s_ready : bool }.

Definition FAULT : string := "access to a device register that is not mapped".

Section driver.
Context {D H : Type} `{Mmio D} `{PciPorts H}.

(** The driver's statics, the page tables, the configuration space, the memory and the controller. [regs] tells
    whether [NVME_MMIO_VIRT] is mapped to the controller's registers. *)
Record st := mk_st { drv : nvme; regs : bool; vm : Vmm.vmm; host : H; world : mem * D }.

Definition set_drv v s := mk_st v (regs s) (vm s) (host s) (world s).
Definition set_regs v s := mk_st (drv s) v (vm s) (host s) (world s).
Definition set_vm v s := mk_st (drv s) (regs s) v (host s) (world s).
Definition set_host v s := mk_st (drv s) (regs s) (vm s) v (world s).
Definition set_world v s := mk_st (drv s) (regs s) (vm s) (host s) v.
Definition set_adm q (d : nvme) := mk_nvme (s_dstrd d) q (s_io d) (s_next_cid d) (s_ready d).
Definition set_io q (d : nvme) := mk_nvme (s_dstrd d) (s_adm d) q (s_next_cid d) (s_ready d).
Definition set_cid v (d : nvme) := mk_nvme (s_dstrd d) (s_adm d) (s_io d) v (s_ready d).
Definition set_dstrd v (d : nvme) := mk_nvme v (s_adm d) (s_io d) (s_next_cid d) (s_ready d).
Definition set_ready v (d : nvme) := mk_nvme (s_dstrd d) (s_adm d) (s_io d) (s_next_cid d) v.

(** Calls into the page tables and the configuration space. *)
Definition in_vm {A} (m : K Vmm.vmm A) : K st A := fun s =>
  match m (vm s) with Ok (a, v) => Ok (a, set_vm v s) | Panic e => Panic e end.
Definition in_host {A} (m : K H A) : K st A := fun s =>
  match m (host s) with Ok (a, h) => Ok (a, set_host h s) | Panic e => Panic e end.

(** ** Registers *)

(** An access at [off] is in the pages that are mapped. *)
Definition mapped (off : Z) (s : st) : bool := regs s && (off + 4 <=? NVME_MMIO_PAGES * 4096).

Definition reg32 (off : Z) : K st Z := fun s =>
  if mapped off s then Ok (reg_read off (world s).2, s) else Panic FAULT.
Definition reg64 (off : Z) : K st Z :=
  lo ← reg32 off; hi ← reg32 (off + 4); mret (lo .| u64 (hi .<< 32))%C.
Definition wreg32 (off v : Z) : K st unit := fun s =>
  if mapped off s then Ok (tt, set_world ((world s).1, reg_write off v (world s).2) s) else Panic FAULT.
Definition wreg64 (off v : Z) : K st unit :=
  _ ← wreg32 off (u32 v); wreg32 (off + 4) (u32 (v .>> 32)%C).

Definition doorbell (qid val : Z) : K st unit :=
  d ← gets drv; wreg32 (u32 (0x1000 + u32 (qid * s_dstrd d))) val.

(** The controller goes on while the processor polls. *)
Definition wait : K st unit := modify (fun s => set_world (run (world s)) s).

Fixpoint wait_csts (want : Z) (iters : nat) : K st bool :=
  match iters with
  | O => mret false
  | S n =>
      _ ← wait;
      csts ← reg32 NVME_REG_CSTS;
      if negb ((csts .& NVME_CSTS_CFS)%C =? 0) then mret false
      else if (csts .& NVME_CSTS_RDY)%C =? want then mret true
      else wait_csts want n
  end.

(** ** Queues

    The admin queue and the I/O queue are worked the same way; [get] and [set] select one. *)
Definition store_sqe (a : Z) (cmd : nvme_sqe_t) : K st unit :=
  modify (fun s => set_world (store (world s).1 a (enc_sqe cmd), (world s).2) s).

Definition push (get : nvme -> queue) (set : queue -> nvme -> nvme) (size db : Z) (cmd : nvme_sqe_t) : K st unit :=
  d ← gets drv;
  let q := get d in
  _ ← store_sqe (sq q + sizeof_sqe * tail q) cmd;
  let tail' := u16 ((tail q + 1) mod size) in
  _ ← modify (fun s => set_drv (set (mk_queue (sq q) (cq q) tail' (head q) (phase q)) (drv s)) s);
  doorbell db tail'.

Fixpoint poll (n : nat) (get : nvme -> queue) (set : queue -> nvme -> nvme) (size db : Z) : K st bool :=
  match n with
  | O => mret false
  | S n' =>
      _ ← wait;
      q ← gets (fun s => get (drv s));
      status ← gets (fun s => ld16 (world s).1 (cq q + sizeof_cqe * head q + 14));
      if negb ((status .& 1)%C =? phase q) then poll n' get set size db else
      let ok := (status .>> 1 .& 0x7ff)%C =? 0 in
      let head' := u16 ((head q + 1) mod size) in
      let phase' := if head' =? 0 then Z.lxor (phase q) 1 else phase q in
      _ ← modify (fun s => set_drv (set (mk_queue (sq q) (cq q) (tail q) head' phase') (drv s)) s);
      _ ← doorbell db head';
      mret ok
  end.

Definition POLLS : nat := Z.to_nat 2000000.

Definition next_cid : K st Z :=
  cid ← gets (fun s => s_next_cid (drv s));
  _ ← modify (fun s => set_drv (set_cid (u16 (cid + 1)) (drv s)) s);
  mret cid.

Definition with_cid (cid : Z) (c : nvme_sqe_t) : nvme_sqe_t :=
  mk_sqe ((cdw0 c .& 0xffff) .| u32 (Z.shiftl cid 16))%C (nsid c) (cdw2 c) (cdw3 c) (mptr c) (prp1 c) (prp2 c)
    (cdw10 c) (cdw11 c) (cdw12 c) (cdw13 c) (cdw14 c) (cdw15 c).

Definition asq_submit (cmd : nvme_sqe_t) : K st Z :=
  cid ← next_cid; _ ← push s_adm set_adm NVME_AQ_SIZE 0 (with_cid cid cmd); mret cid.
Definition acq_wait : K st bool := poll POLLS s_adm set_adm NVME_AQ_SIZE 1.
Definition admin_cmd (cmd : nvme_sqe_t) : K st bool := _ ← asq_submit cmd; acq_wait.

Definition identify_cmd (buf_phys : Z) : nvme_sqe_t := command NVME_ADM_IDENTIFY 1 buf_phys NVME_CNS_IDENTIFY_NS 0 0.
Definition create_iocq_cmd (phys : Z) : nvme_sqe_t :=
  command NVME_ADM_CREATE_IOCQ 0 phys (Z.shiftl (NVME_IOQ_SIZE - 1) 16 .| 1)%C 1 0.
Definition create_iosq_cmd (phys : Z) : nvme_sqe_t :=
  command NVME_ADM_CREATE_IOSQ 0 phys (Z.shiftl (NVME_IOQ_SIZE - 1) 16 .| 1)%C (Z.shiftl 1 16 .| 1)%C 0.
Definition cmd_identify_ns (buf_phys : Z) : K st bool := admin_cmd (identify_cmd buf_phys).
Definition cmd_create_iocq (phys : Z) : K st bool := admin_cmd (create_iocq_cmd phys).
Definition cmd_create_iosq (phys : Z) : K st bool := admin_cmd (create_iosq_cmd phys).

Definition rw_cmd (opc slba nlb buf_phys cid : Z) : nvme_sqe_t :=
  command (opc .| u32 (Z.shiftl cid 16))%C 1 buf_phys (slba .& 0xffffffff)%C (u32 (slba .>> 32)%C) (u32 (nlb - 1)).

Definition io_cmd (opc slba nlb buf_phys : Z) : K st bool :=
  cid ← next_cid;
  _ ← push s_io set_io NVME_IOQ_SIZE 2 (rw_cmd opc slba nlb buf_phys cid);
  poll POLLS s_io set_io NVME_IOQ_SIZE 3.

(** ** The block interface *)

Definition sectors (opc lba count buf : Z) : K st bool :=
  d ← gets drv;
  if negb (s_ready d) || (count =? 0) || (8 <? count) then mret false else
  base ← gets (fun s => Vmm.vdirect_map (vm s));
  io_cmd opc lba count (u64 (buf - base)).

Definition nvme_read_sectors (lba count buf : Z) : K st bool := sectors NVME_IO_READ lba count buf.
Definition nvme_write_sectors (lba count buf : Z) : K st bool := sectors NVME_IO_WRITE lba count buf.
Definition nvme_first_ns (s : st) : Z := if s_ready (drv s) then 1 else -1.

(** ** Initialisation *)

Fixpoint map_pages (n : nat) (pg bar0 : Z) : K st bool :=
  match n with
  | O => mret true
  | S n' =>
      b ← in_vm (Vmm.vmm_map (u64 (NVME_MMIO_VIRT + pg * 4096)) (u64 (bar0 + pg * 4096)) (Vmm.VMM_WRITABLE .| 0x010)%C);
      b' ← map_pages n' (pg + 1) bar0; mret (b && b')
  end.

Definition zero_page (phys : Z) : K st unit :=
  modify (fun s => set_world (store (world s).1 phys (zeros 4096), (world s).2) s).

(** Disable the controller if it runs. *)
Definition reset_controller (to_iters : nat) : K st bool :=
  cc ← reg32 NVME_REG_CC;
  if negb ((cc .& NVME_CC_EN)%C =? 0) then
    _ ← wreg32 NVME_REG_CC (Z.ldiff cc NVME_CC_EN);
    wait_csts 0 to_iters
  else mret true.

(** Two pages for rings, cleared. *)
Definition alloc_rings : K st (option (Z * Z)) :=
  a ← in_vm Vmm.alloc_page;
  b ← in_vm Vmm.alloc_page;
  if (a =? PMM_ALLOC_FAILED) || (b =? PMM_ALLOC_FAILED) then mret None else
  _ ← zero_page a; _ ← zero_page b; mret (Some (a, b)).

Definition enable_controller (to_iters : nat) (asq acq : Z) : K st bool :=
  _ ← modify (fun s => set_drv (set_adm (mk_queue asq acq 0 0 1) (drv s)) s);
  _ ← wreg64 NVME_REG_ASQ asq;
  _ ← wreg64 NVME_REG_ACQ acq;
  _ ← wreg32 NVME_REG_AQA (Z.shiftl (NVME_AQ_SIZE - 1) 16 .| (NVME_AQ_SIZE - 1))%C;
  _ ← wreg32 NVME_REG_CC (NVME_CC_EN .| NVME_CC_CSS_NVM .| NVME_CC_MPS 0 .| NVME_CC_IOSQES 6 .| NVME_CC_IOCQES 4)%C;
  wait_csts NVME_CSTS_RDY to_iters.

(** The sector size that the namespace reports, as a power of two. *)
Definition identify : K st (option Z) :=
  id_phys ← in_vm Vmm.alloc_page;
  if id_phys =? PMM_ALLOC_FAILED then mret None else
  _ ← zero_page id_phys;
  b ← cmd_identify_ns id_phys;
  if negb b then _ ← in_vm (Vmm.free_page id_phys); mret None else
  id ← gets (fun s => load (world s).1 id_phys 4096);
  let flbas := (rd8 id 26 .& 0x0f)%C in
  let lbads := rd8 id (128 + flbas * 4 + 2) in
  _ ← in_vm (Vmm.free_page id_phys);
  mret (Some lbads).

Definition create_io_queues : K st bool :=
  r ← alloc_rings;
  match r with
  | None => mret false
  | Some (iocq, iosq) =>
      _ ← modify (fun s => set_drv (set_io (mk_queue iosq iocq 0 0 1) (drv s)) s);
      b ← cmd_create_iocq iocq;
      if negb b then mret false else cmd_create_iosq iosq
  end.

(** From the admin queues on. *)
Definition bring_up (to_iters : nat) : K st bool :=
  r ← alloc_rings;
  match r with
  | None => mret false
  | Some (asq, acq) =>
      b ← enable_controller to_iters asq acq;
      if negb b then mret false else
      lbads ← identify;
      match lbads with
      | None => mret false
      | Some lbads =>
          if negb (lbads =? 9) then mret false else
          b ← create_io_queues;
          if negb b then mret false else
          _ ← modify (fun s => set_drv (set_ready true (drv s)) s);
          mret true
      end
  end.

Definition nvme_init : K st bool :=
  addr ← in_host (pci_find_class 0x01 0x08);
  if negb (valid addr) then mret false else
  _ ← in_host (pci_enable_busmaster addr);
  bar0 ← in_host (pci_read_bar addr 0);
  if bar0 =? 0 then mret false else
  m ← map_pages (Z.to_nat NVME_MMIO_PAGES) 0 bar0;
  _ ← modify (set_regs m);
  cap ← reg64 NVME_REG_CAP;
  _ ← modify (fun s => set_drv (set_dstrd (u32 (Z.shiftl 4 ((cap .>> 32) .& 0xf)%C)) (drv s)) s);
  let to_iters := Z.to_nat (u32 (u32 (((cap .>> 24) .& 0xff)%C + 1) * 50000)) in
  b ← reset_controller to_iters;
  if negb b then mret false else
  bring_up to_iters.

End driver.

Arguments st : clear implicits.

(** ** What a controller promises

    The state of the controller that the specification describes: its registers, its queues, the data of the
    namespace, and the commands it has executed with the status it gave. *)
Record qview := mk_qv { q_sq : Z; q_cq : Z; q_ssize : Z; q_csize : Z; q_head : Z; q_tail : Z; q_ctail : Z; q_phase : Z }.

Inductive qid := Admin | Io.

Record ctl := mk_ctl {
  cap : Z; cc : Z; rdy : bool; aqa : Z; asq : Z; acq : Z;
  admin : option qview; iocq : option (Z * Z); io : option qview;
  ident : list Z; ns : list Z; log : list (qid * list Z * Z) }.

Definition queue_of (id : qid) (c : ctl) : option qview := match id with Admin => admin c | Io => io c end.
Definition set_queue (id : qid) (v : option qview) (c : ctl) : ctl :=
  match id with
  | Admin => mk_ctl (cap c) (cc c) (rdy c) (aqa c) (asq c) (acq c) v (iocq c) (io c) (ident c) (ns c) (log c)
  | Io => mk_ctl (cap c) (cc c) (rdy c) (aqa c) (asq c) (acq c) (admin c) (iocq c) v (ident c) (ns c) (log c)
  end.
Definition set_rdy v c := mk_ctl (cap c) (cc c) v (aqa c) (asq c) (acq c) (admin c) (iocq c) (io c) (ident c) (ns c) (log c).
Definition set_iocq v c := mk_ctl (cap c) (cc c) (rdy c) (aqa c) (asq c) (acq c) (admin c) v (io c) (ident c) (ns c) (log c).
Definition set_ns v c := mk_ctl (cap c) (cc c) (rdy c) (aqa c) (asq c) (acq c) (admin c) (iocq c) (io c) (ident c) v (log c).
Definition add_log e c := mk_ctl (cap c) (cc c) (rdy c) (aqa c) (asq c) (acq c) (admin c) (iocq c) (io c) (ident c) (ns c) (log c ++ [e]).
Definition set_bases q a b c := mk_ctl (cap c) (cc c) (rdy c) q a b (admin c) (iocq c) (io c) (ident c) (ns c) (log c).

Definition en (c : ctl) : bool := Z.odd (cc c).
Definition stride (c : ctl) : Z := 4 * 2 ^ (cap c / 2 ^ 32 mod 16).

(** Writing the enable bit: setting it makes the admin queues from their registers, clearing it drops all. *)
Definition write_cc (v : Z) (c : ctl) : ctl :=
  let queues :=
    if negb (Z.odd v) then (None, None, None)
    else if en c then (admin c, iocq c, io c)
    else (Some (mk_qv (asq c) (acq c) (aqa c mod 2 ^ 12 + 1) (aqa c / 2 ^ 16 mod 2 ^ 12 + 1) 0 0 0 1), None, None) in
  let '(a, q, i) := queues in
  mk_ctl (cap c) v (rdy c) (aqa c) (asq c) (acq c) a q i (ident c) (ns c) (log c).

Definition new_tail (id : qid) (v : Z) (c : ctl) : ctl :=
  set_queue id ((fun q => mk_qv (q_sq q) (q_cq q) (q_ssize q) (q_csize q) (q_head q) v (q_ctail q) (q_phase q)) <$> queue_of id c) c.

(** The effect of a write to a register, for those the driver writes. *)
Definition on_write (off v : Z) (c : ctl) : option ctl :=
  if off =? 0x14 then Some (write_cc v c)
  else if off =? 0x24 then Some (set_bases v (asq c) (acq c) c)
  else if off =? 0x28 then Some (set_bases (aqa c) (asq c / 2 ^ 32 * 2 ^ 32 + v) (acq c) c)
  else if off =? 0x2c then Some (set_bases (aqa c) (v * 2 ^ 32 + asq c mod 2 ^ 32) (acq c) c)
  else if off =? 0x30 then Some (set_bases (aqa c) (asq c) (acq c / 2 ^ 32 * 2 ^ 32 + v) c)
  else if off =? 0x34 then Some (set_bases (aqa c) (asq c) (v * 2 ^ 32 + acq c mod 2 ^ 32) c)
  else if off =? 0x1000 then Some (new_tail Admin v c)
  else if off =? 0x1000 + stride c then Some c
  else if off =? 0x1000 + 2 * stride c then Some (new_tail Io v c)
  else if off =? 0x1000 + 3 * stride c then Some c
  else None.

(** The fields of a command. *)
Definition opcode (cmd : list Z) : Z := rd8 cmd 0.
Definition data (cmd : list Z) : Z := rd64 cmd 24.
Definition slba (cmd : list Z) : Z := rd32 cmd 40 + rd32 cmd 44 * 2 ^ 32.
Definition nlb (cmd : list Z) : Z := rd32 cmd 48 mod 2 ^ 16 + 1.

(** The commands this contract speaks of. The data of a read or a write is in one page: the second pointer of
    the command is not used. *)
Definition known (id : qid) (cmd : list Z) (c : ctl) : bool :=
  match id with
  | Io => (rd32 cmd 4 =? 1) && ((opcode cmd =? 1) || (opcode cmd =? 2)) && ((slba cmd + nlb cmd) * 512 <=? blen (ns c)) &&
          (data cmd mod 4096 + nlb cmd * 512 <=? 4096)
  | Admin =>
      if opcode cmd =? 6 then (rd32 cmd 4 =? 1) && (rd32 cmd 40 mod 2 ^ 8 =? 0) && (data cmd mod 4096 =? 0)
      else if opcode cmd =? 5 then (rd32 cmd 40 mod 2 ^ 16 =? 1) && Z.odd (rd32 cmd 44)
      else if opcode cmd =? 1 then (rd32 cmd 40 mod 2 ^ 16 =? 1) && Z.odd (rd32 cmd 44) && (rd32 cmd 44 / 2 ^ 16 =? 1) && bool_decide (is_Some (iocq c))
      else false
  end.

(** The memory and the controller after a command that succeeds. *)
Definition effect (id : qid) (cmd : list Z) (m : mem) (c : ctl) : mem * ctl :=
  match id with
  | Io =>
      if opcode cmd =? 2 then (store m (data cmd) (slice (ns c) (slba cmd * 512) (nlb cmd * 512)), c)
      else (m, set_ns (put (ns c) (slba cmd * 512) (load m (data cmd) (nlb cmd * 512))) c)
  | Admin =>
      if opcode cmd =? 6 then (store m (data cmd) (ident c), c)
      else if opcode cmd =? 5 then (m, set_iocq (Some (data cmd, rd32 cmd 40 / 2 ^ 16 + 1)) c)
      else (m, set_queue Io ((fun x => mk_qv (data cmd) x.1 (rd32 cmd 40 / 2 ^ 16 + 1) x.2 0 0 0 1) <$> iocq c) c)
  end.

(** How many bytes at [data cmd] the controller may write, and how many bytes of the namespace. *)
Definition fills (id : qid) (cmd : list Z) : Z :=
  match id with
  | Io => if opcode cmd =? 2 then nlb cmd * 512 else 0
  | Admin => if opcode cmd =? 6 then 4096 else 0
  end.
Definition changes (id : qid) (cmd : list Z) : Z :=
  match id with Io => if opcode cmd =? 1 then nlb cmd * 512 else 0 | Admin => 0 end.

(** A command succeeds, with status 0, or fails, with any contents in what it may write. *)
Inductive exec (id : qid) (cmd : list Z) (m : mem) (c : ctl) : Z -> mem -> ctl -> Prop :=
| exec_done m' c' : known id cmd c = true -> effect id cmd m c = (m', c') -> exec id cmd m c 0 m' c'
| exec_error sc bs ds : known id cmd c = true -> 0 < sc < 2 ^ 15 -> sc mod 2 ^ 11 <> 0 ->
    blen bs = fills id cmd -> blen ds = changes id cmd ->
    exec id cmd m c sc (store m (data cmd) bs) (set_ns (put (ns c) (slba cmd * 512) ds) c)
| exec_unknown sc m' c' : known id cmd c = false -> 0 <= sc < 2 ^ 15 -> exec id cmd m c sc m' c'.

Definition advance (v : qview) : qview :=
  let t := (q_ctail v + 1) mod q_csize v in
  mk_qv (q_sq v) (q_cq v) (q_ssize v) (q_csize v) ((q_head v + 1) mod q_ssize v) (q_tail v) t (if t =? 0 then 1 - q_phase v else q_phase v).

(** One step: nothing; the ready bit follows the enable bit; or the next command of a queue is executed and its
    completion written, with the phase of the current pass over the ring. *)
Inductive step : mem * ctl -> mem * ctl -> Prop :=
| step_idle x : step x x
| step_ready m c : step (m, c) (m, set_rdy (en c) c)
| step_command id m c v cmd sc m' c' cqe :
    en c = true -> rdy c = true -> queue_of id c = Some v -> q_head v <> q_tail v ->
    cmd = load m (q_sq v + sizeof_sqe * q_head v) 64 -> exec id cmd m c sc m' c' ->
    blen cqe = sizeof_cqe -> rd16 cqe 12 = rd16 cmd 2 -> rd16 cqe 14 = 2 * sc + q_phase v ->
    step (m, c) (store m' (q_cq v + sizeof_cqe * q_ctail v) cqe, add_log (id, cmd, sc) (set_queue id (Some (advance v)) c')).

Class NvmeController (D : Type) `{Mmio D} := {
  view : D -> ctl;
  cap_range d : is_u64 (cap (view d));
  read_cap d : reg_read 0x00 d = cap (view d) mod 2 ^ 32;
  read_cap_high d : reg_read 0x04 d = cap (view d) / 2 ^ 32;
  read_cc d : reg_read 0x14 d = cc (view d);
  read_csts d : reg_read 0x1c d mod 4 = if rdy (view d) then 1 else 0;
  write_view off v d c' : on_write off v (view d) = Some c' -> view (reg_write off v d) = c';
  run_step m d : step (m, view d) ((run (m, d)).1, view (run (m, d)).2) }.

(** A command that waits is executed, and a change of the enable bit is followed, before the processor has
    polled 50000 times. *)
Definition busy (c : ctl) : Prop := exists id v, en c = true /\ rdy c = true /\ queue_of id c = Some v /\ q_head v <> q_tail v /\ (q_phase v = 0 \/ q_phase v = 1).
Definition prompt (D : Type) `{NvmeController D} : Prop := forall w : mem * D,
  (busy (view w.2) -> exists k, Z.of_nat k < 50000 /\ (length (log (view w.2)) < length (log (view (Nat.iter (S k) run w).2)))%nat) /\
  (rdy (view w.2) <> en (view w.2) -> exists k, Z.of_nat k < 50000 /\ rdy (view (Nat.iter (S k) run w).2) = en (view w.2)).

(** ** The driver's view of a queue

    Nothing waits in the submission queue, both sides agree on the positions, and the phase bits of the
    completions behind the driver's position are those of the current pass, the others those of the last one. *)
Definition phase_at (m : mem) (q : queue) (i : Z) : Z := ld16 m (cq q + sizeof_cqe * i + 14) mod 2.
Record synced (m : mem) (q : queue) (v : qview) : Prop := {
  sy_sq : q_sq v = sq q;
  sy_cq : q_cq v = cq q;
  sy_ssize : q_ssize v = 64;
  sy_csize : q_csize v = 64;
  sy_head : q_head v = tail q;
  sy_tail : q_tail v = tail q;
  sy_ctail : q_ctail v = head q;
  sy_vphase : q_phase v = phase q;
  sy_tail_range : 0 <= tail q < 64;
  sy_head_range : 0 <= head q < 64;
  sy_phase : phase q = 0 \/ phase q = 1;
  sy_bits : forall i, 0 <= i < 64 -> phase_at m q i = if i <? head q then phase q else 1 - phase q;
  sy_apart : apart (sq q) 4096 (cq q) 4096 }.

Definition other (id : qid) : qid := match id with Admin => Io | Io => Admin end.
Definition get_q (id : qid) : nvme -> queue := match id with Admin => s_adm | Io => s_io end.
Definition set_q (id : qid) : queue -> nvme -> nvme := match id with Admin => set_adm | Io => set_io end.
Definition db (id : qid) : Z := match id with Admin => 0 | Io => 2 end.

Definition pushed (q : queue) : queue := mk_queue (sq q) (cq q) ((tail q + 1) mod 64) (head q) (phase q).
Definition popped (q : queue) : queue :=
  let h := (head q + 1) mod 64 in mk_queue (sq q) (cq q) (tail q) h (if h =? 0 then 1 - phase q else phase q).

Section proofs.
Context {D H : Type} `{Hmmio : Mmio D} {Hctl : NvmeController D} `{Hpci : PciPorts H}.
Implicit Types (s : st D H).

Definition ctl_of s : ctl := view (world s).2.

(** The registers are mapped, the controller is enabled and ready, and the driver has its doorbell stride. *)
Record running s : Prop := {
  ru_regs : regs s = true;
  ru_en : en (ctl_of s) = true;
  ru_rdy : rdy (ctl_of s) = true;
  ru_stride : s_dstrd (drv s) = stride (ctl_of s);
  ru_bound : stride (ctl_of s) <= 8192 }.

Lemma stride_pos c : 4 <= stride c.
Proof. unfold stride. pose proof (Z.pow_pos_nonneg 2 (cap c / 2 ^ 32 mod 16) ltac:(lia) ltac:(lia)). lia. Qed.

Lemma doorbell_spec s k v c' : running s -> 0 <= k <= 3 -> on_write (0x1000 + k * stride (ctl_of s)) v (ctl_of s) = Some c' ->
  exists d', doorbell k v s = Ok (tt, set_world ((world s).1, d') s) /\ view d' = c'.
Proof.
  intros R Hk E. exists (reg_write (0x1000 + k * stride (ctl_of s)) v (world s).2). split; [|by apply write_view].
  pose proof (ru_bound _ R). pose proof (stride_pos (ctl_of s)). unfold doorbell, gets, mbind, K_bind. rewrite (ru_stride _ R).
  replace (u32 (0x1000 + u32 (k * stride (ctl_of s)))) with (0x1000 + k * stride (ctl_of s)) by (unfold u32; rewrite (Z.mod_small (k * _)), Z.mod_small; nia).
  unfold wreg32, mapped. rewrite (ru_regs _ R). unfold NVME_MMIO_PAGES. by replace (_ <=? 8 * 4096) with true by nia.
Qed.

Lemma on_write_tail id c v : stride c <= 8192 -> on_write (0x1000 + db id * stride c) v c = Some (new_tail id v c).
Proof.
  intros Hb. pose proof (stride_pos c). unfold on_write. destruct id; cbn [db].
  - rewrite Z.mul_0_l, Z.add_0_r. done.
  - repeat match goal with |- context [?a =? ?b] => first [replace (a =? b) with false by lia | replace (a =? b) with true by lia] end. done.
Qed.

Lemma on_write_head id c v : stride c <= 8192 -> on_write (0x1000 + (db id + 1) * stride c) v c = Some c.
Proof.
  intros Hb. pose proof (stride_pos c). unfold on_write. destruct id; cbn [db];
  repeat match goal with |- context [?a =? ?b] => first [replace (a =? b) with false by lia | replace (a =? b) with true by lia] end; done.
Qed.

Lemma push_spec id cmd s v : running s -> queue_of id (ctl_of s) = Some v -> synced (world s).1 (get_q id (drv s)) v ->
  let q := get_q id (drv s) in
  exists d', push (get_q id) (set_q id) 64 (db id) cmd s =
      Ok (tt, set_world (store (world s).1 (sq q + sizeof_sqe * tail q) (enc_sqe cmd), d') (set_drv (set_q id (pushed q) (drv s)) s)) /\
    view d' = new_tail id ((tail q + 1) mod 64) (ctl_of s).
Proof.
  intros R Hv Hs q. unfold push. rewrite K_gets. fold q. pose proof (sy_tail_range _ _ _ Hs) as Ht. fold q in Ht.
  replace (u16 ((tail q + 1) mod 64)) with ((tail q + 1) mod 64) by int_lia.
  unfold store_sqe. rewrite !K_modify.
  set (s1 := set_drv _ _). assert (running s1) as R1.
  { destruct R as [R1 R2 R3 R4 R5]. split; try done. cbn [s1 drv set_drv set_world]. by destruct id. }
  assert (ctl_of s1 = ctl_of s) as Ec by done.
  destruct (doorbell_spec s1 (db id) ((tail q + 1) mod 64) (new_tail id ((tail q + 1) mod 64) (ctl_of s))) as (d' & E & Hd);
    [done|by destruct id|rewrite Ec; apply on_write_tail; apply R|].
  exists d'. split; [|done]. rewrite E. done.
Qed.

Lemma exec_keeps id cmd m c sc m' c' : exec id cmd m c sc m' c' -> known id cmd c = true ->
  cap c' = cap c /\ cc c' = cc c /\ rdy c' = rdy c /\ 0 <= sc < 2 ^ 15.
Proof.
  intros [m1 c1 Hk E|sc' bs ds Hk Hsc Hn Hb Hd|sc' m1 c1 Hk Hsc] Hk'; [|repeat split; lia|congruence].
  unfold effect in E. destruct id; repeat case_match; simplify_eq; repeat split; done || lia.
Qed.

Lemma en_ready_step c : en c = true -> rdy c = true -> set_rdy (en c) c = c.
Proof. intros -> E. destruct c. cbn in *. by subst. Qed.

Definition quiet (id : qid) (c : ctl) : Prop := forall v, queue_of id c = Some v -> q_head v = q_tail v.

(** One step of a controller that has one command to execute: nothing, or that command. *)
Lemma step_one id m c v m' c' : en c = true -> rdy c = true -> queue_of id c = Some v -> quiet (other id) c -> step (m, c) (m', c') ->
  (m' = m /\ c' = c) \/
  exists sc m1 c1 cqe, exec id (load m (q_sq v + sizeof_sqe * q_head v) 64) m c sc m1 c1 /\ blen cqe = sizeof_cqe /\ rd16 cqe 14 = 2 * sc + q_phase v /\
    m' = store m1 (q_cq v + sizeof_cqe * q_ctail v) cqe /\
    c' = add_log (id, load m (q_sq v + sizeof_sqe * q_head v) 64, sc) (set_queue id (Some (advance v)) c1).
Proof.
  intros He Hr Hq Ho Hs. inversion Hs as [x Ex|mm cc' Ex Ex'|id' mm cc' v' cmd sc m1 c1 cqe He' Hr' Hv' Hne Hcmd Hx Hb Hcid Hst Ex Ex']; subst.
  - by left.
  - left. by rewrite en_ready_step.
  - right. assert (id' = id) as ->.
    { destruct id, id'; try done; exfalso; apply Hne; by apply Ho. }
    rewrite Hq in Hv'. simplify_eq. eauto 10.
Qed.

Lemma status_bits sc p : 0 <= sc < 2 ^ 15 -> p = 0 \/ p = 1 -> let w := 2 * sc + p in (w .& 1)%C = p /\ ((w .>> 1 .& 0x7ff)%C =? 0) = (sc mod 2 ^ 11 =? 0).
Proof.
  intros Hs Hp w. unfold w. change 1 with (2 ^ 1 - 1) at 1. change 0x7ff with (2 ^ 11 - 1). rewrite !land_ones_mod, Z.shiftr_div_pow2 by lia.
  split; [lia|]. f_equal. f_equal. lia.
Qed.

Definition finish id s v m1 cqe d' : st D H :=
  set_world (store m1 (q_cq v + sizeof_cqe * q_ctail v) cqe, d') (set_drv (set_q id (popped (get_q id (drv s))) (drv s)) s).

(** The poll that sees the completion. *)
Lemma poll_hit id n s v cmd sc m1 c1 cqe d : running s -> cap c1 = cap (ctl_of s) -> cc c1 = cc (ctl_of s) -> rdy c1 = rdy (ctl_of s) -> 0 <= sc < 2 ^ 15 ->
  let q := get_q id (drv s) in
  q_cq v = cq q -> q_ctail v = head q -> q_phase v = phase q -> 0 <= head q < 64 -> phase q = 0 \/ phase q = 1 ->
  blen cqe = sizeof_cqe -> rd16 cqe 14 = 2 * sc + q_phase v ->
  run (world s) = (store m1 (q_cq v + sizeof_cqe * q_ctail v) cqe, d) -> view d = add_log (id, cmd, sc) (set_queue id (Some (advance v)) c1) ->
  exists d', poll (S n) (get_q id) (set_q id) 64 (db id + 1) s = Ok (sc mod 2 ^ 11 =? 0, finish id s v m1 cqe d') /\ view d' = view d.
Proof.
  intros R Ec Ecc Er Hsc q Hcq Hct Hp Hh Hp01 Hb Hst Erun Hview. cbn [poll]. unfold wait. rewrite K_modify, Erun, K_gets. cbn [drv set_world]. fold q.
  rewrite K_gets. cbn [world set_world fst].
  assert (ld16 (store m1 (q_cq v + sizeof_cqe * q_ctail v) cqe) (cq q + sizeof_cqe * head q + 14) = 2 * sc + phase q) as ->.
  { unfold ld16. unfold sizeof_cqe in *. rewrite load_store_in by lia. rewrite <- Hp, <- Hst. unfold rd16. do 2 f_equal. lia. }
  destruct (status_bits sc (phase q) Hsc Hp01) as [-> ->]. rewrite Z.eqb_refl. cbn [negb].
  replace (u16 ((head q + 1) mod 64)) with ((head q + 1) mod 64) by int_lia.
  rewrite K_modify. set (s2 := set_drv _ _).
  assert (ctl_of s2 = view d) as Ev by done.
  assert (stride (view d) = stride (ctl_of s)) as Hstr by (unfold stride; rewrite Hview; destruct id; cbn; by rewrite Ec).
  assert (running s2) as R2.
  { destruct R as [R1 R2 R3 R4 R5]. split; rewrite ?Ev, ?Hstr; try done.
    - rewrite Hview. unfold en. destruct id; cbn; by rewrite Ecc.
    - rewrite Hview. destruct id; cbn; by rewrite Er.
    - cbn [s2 drv set_drv set_world]. by destruct id. }
  destruct (doorbell_spec s2 (db id + 1) ((head q + 1) mod 64) (view d)) as (d' & E & Hd); [done|by destruct id|rewrite Ev; apply on_write_head; rewrite Hstr; apply R|].
  exists d'. split; [|done]. rewrite (K_bind_Ok _ _ _ _ _ E). unfold mret, K_ret, finish, popped, s2. fold q.
  by replace (Z.lxor (phase q) 1) with (1 - phase q) by (by destruct Hp01 as [-> | ->]).
Qed.

(** Polling ends with the completion of the command that was waiting, or gives up when the controller has not
    executed it; then nothing has changed. *)
Lemma poll_queue id v cmd : forall n s, running s ->
  let q := get_q id (drv s) in let m := (world s).1 in let c := ctl_of s in
  queue_of id c = Some v -> quiet (other id) c -> cmd = load m (q_sq v + sizeof_sqe * q_head v) 64 -> known id cmd c = true ->
  q_cq v = cq q -> q_ctail v = head q -> q_phase v = phase q -> 0 <= head q < 64 -> phase q = 0 \/ phase q = 1 -> phase_at m q (head q) <> phase q ->
  (exists sc m1 c1 cqe d', exec id cmd m c sc m1 c1 /\ blen cqe = sizeof_cqe /\ rd16 cqe 14 = 2 * sc + q_phase v /\
    poll n (get_q id) (set_q id) 64 (db id + 1) s = Ok (sc mod 2 ^ 11 =? 0, finish id s v m1 cqe d') /\
    view d' = add_log (id, cmd, sc) (set_queue id (Some (advance v)) c1)) \/
  (exists d', poll n (get_q id) (set_q id) 64 (db id + 1) s = Ok (false, set_world (m, d') s) /\ view d' = c /\
    forall k, (k < n)%nat -> view (Nat.iter (S k) run (world s)).2 = c).
Proof.
  induction n as [|n IH]; intros s R q m c Hq Ho Hcmd Hk Hcq Hct Hph Hh Hp01 Hold.
  { right. exists (world s).2. split; [unfold m; by destruct s as [? ? ? ? []]|]. split; [done|]. lia. }
  pose proof (run_step (world s).1 (world s).2) as Hstep; rewrite <- surjective_pairing in Hstep.
  destruct (step_one id _ _ _ _ _ (ru_en _ R) (ru_rdy _ R) Hq Ho Hstep) as [[Em Ec]|(sc & m1 & c1 & cqe & Hx & Hb & Hst & Em & Ec)].
  2:{ left. pose proof Hcmd as Hcmd'; unfold m in Hcmd'; rewrite <- Hcmd' in Hx, Ec; destruct (exec_keeps _ _ _ _ _ _ _ Hx Hk) as (K1 & K2 & K3 & K4); destruct (run (world s)) as [m' d] eqn:Erun; cbn [fst snd] in *; subst m'.
    destruct (poll_hit id n s v cmd sc m1 c1 cqe d R K1 K2 K3 K4 Hcq Hct Hph Hh Hp01 Hb Hst Erun Ec) as (d' & E & Hd); exists sc, m1, c1, cqe, d'; by rewrite Hd. }
  set (s1 := set_world (run (world s)) s). assert (ctl_of s1 = c) as Ec1 by done. assert ((world s1).1 = m) as Em1 by done.
  assert (running s1) as R1 by (destruct R; split; rewrite ?Ec1; done).
  assert (poll (S n) (get_q id) (set_q id) 64 (db id + 1) s = poll n (get_q id) (set_q id) 64 (db id + 1) s1) as E1.
  { cbn [poll]. unfold wait. rewrite K_modify. fold s1. rewrite !K_gets. cbn [drv s1 set_world]. fold q. rewrite Em1.
    unfold phase_at in Hold. change 1 with (2 ^ 1 - 1) at 1. rewrite land_ones_mod by lia. change (2 ^ 1) with 2. by replace (_ =? phase q) with false by lia. }
  rewrite E1. destruct (IH s1) as [(sc & m1 & c1 & cqe & d' & Hx & Hb & Hst & E & Hd)|(d' & E & Hd & Hidle)]; rewrite ?Ec1, ?Em1; try done.
  - left. exists sc, m1, c1, cqe, d'. rewrite Ec1, Em1 in Hx. done.
  - right. exists d'. rewrite Em1 in E. rewrite Ec1 in Hd, Hidle. split; [exact E|]. split; [done|]. intros [|k] Hk1; [exact Ec|]. rewrite Nat.iter_succ_r. apply Hidle. lia.
Qed.

Lemma blen_enc_sqe cmd : blen (enc_sqe cmd) = 64.
Proof. unfold enc_sqe. rewrite !blen_app, !blen_le_bytes. done. Qed.

(** What the controller has not written in the completion ring is as before, and the ring is in step again. *)
Lemma synced_after m q v m1 sc cqe cmd : synced m q v -> 0 <= sc -> blen cqe = sizeof_cqe -> rd16 cqe 14 = 2 * sc + phase q -> blen cmd = 64 ->
  (forall x, cq q <= x < cq q + 4096 -> m1 x = store m (sq q + sizeof_sqe * tail q) cmd x) ->
  synced (store m1 (cq q + sizeof_cqe * head q) cqe) (popped (pushed q))
    (advance (mk_qv (q_sq v) (q_cq v) (q_ssize v) (q_csize v) (q_head v) ((tail q + 1) mod 64) (q_ctail v) (q_phase v))).
Proof.
  intros [S1 S2 S3 S4 S5 S6 S7 S8 S9 S10 S11 S12 S13] Hsc Hb Hst Hc Hm.
  assert (forall i, 0 <= i < 64 -> phase_at (store m1 (cq q + sizeof_cqe * head q) cqe) q i = if i =? head q then phase q else phase_at m q i) as Hph.
  { intros i Hi. unfold phase_at, ld16. destruct (Z.eqb_spec i (head q)) as [->|Hne].
    - unfold sizeof_cqe in *. rewrite load_store_in by lia. replace (_ - _) with 14 by lia. fold (rd16 cqe 14). rewrite Hst. lia.
    - rewrite load_store_ne by (unfold apart, sizeof_cqe in *; lia). do 2 f_equal. apply load_ext. intros x Hx. unfold sizeof_cqe in *.
      rewrite Hm by lia. unfold store. unfold sizeof_sqe, apart in *. replace ((_ <=? _) && _) with false by lia. done. }
  unfold advance, popped, pushed. cbn [q_sq q_cq q_ssize q_csize q_head q_tail q_ctail q_phase sq cq tail head phase].
  rewrite S3, S4, S5, S7, S8. split; cbn [q_sq q_cq q_ssize q_csize q_head q_tail q_ctail q_phase sq cq tail head phase]; try done; try lia.
  - destruct (_ =? 0) eqn:E; lia.
  - intros i Hi. unfold phase_at at 1. cbn [cq]. fold (phase_at (store m1 (cq q + sizeof_cqe * head q) cqe) q i). rewrite Hph by done. cbn [head phase].
    specialize (S12 i Hi). rewrite S12. destruct (Z.eqb_spec ((head q + 1) mod 64) 0); repeat case_match; lia.
Qed.

Record outcome_of id cmd s v (sc : Z) (m1 : mem) (c1 : ctl) (s' : st D H) : Prop := {
  oc_exec : let q := get_q id (drv s) in
    exec id (enc_sqe cmd) (store (world s).1 (sq q + sizeof_sqe * tail q) (enc_sqe cmd)) (new_tail id ((tail q + 1) mod 64) (ctl_of s)) sc m1 c1;
  oc_running : running s';
  oc_drv : drv s' = set_q id (popped (pushed (get_q id (drv s)))) (drv s);
  oc_vm : vm s' = vm s;
  oc_host : host s' = host s;
  oc_mem : exists cqe, blen cqe = sizeof_cqe /\ rd16 cqe 14 = 2 * sc + phase (get_q id (drv s)) /\
    (world s').1 = store m1 (cq (get_q id (drv s)) + sizeof_cqe * head (get_q id (drv s))) cqe;
  oc_ctl : ctl_of s' = add_log (id, enc_sqe cmd, sc) (set_queue id (Some (advance
    (mk_qv (q_sq v) (q_cq v) (q_ssize v) (q_csize v) (q_head v) ((tail (get_q id (drv s)) + 1) mod 64) (q_ctail v) (q_phase v)))) c1) }.

Lemma get_set_q id q d : get_q id (set_q id q d) = q.
Proof. by destruct id. Qed.

(** The command waits in its queue and the controller has not looked at it; the driver has given up. *)
Record overdue id cmd s (s' : st D H) : Prop := {
  od_slow : ~ prompt D;
  od_vm : vm s' = vm s;
  od_drv : drv s' = set_q id (pushed (get_q id (drv s))) (drv s);
  od_mem : (world s').1 = store (world s).1 (sq (get_q id (drv s)) + sizeof_sqe * tail (get_q id (drv s))) (enc_sqe cmd);
  od_ctl : ctl_of s' = new_tail id ((tail (get_q id (drv s)) + 1) mod 64) (ctl_of s) }.

Lemma new_tail_keeps id t c : log (new_tail id t c) = log c /\ ns (new_tail id t c) = ns c.
Proof. unfold new_tail. by destruct id. Qed.

Lemma transact id cmd s v : running s -> queue_of id (ctl_of s) = Some v -> synced (world s).1 (get_q id (drv s)) v -> quiet (other id) (ctl_of s) ->
  known id (enc_sqe cmd) (ctl_of s) = true ->
  let prog := (_ ← push (get_q id) (set_q id) 64 (db id) cmd; poll POLLS (get_q id) (set_q id) 64 (db id + 1)) in
  (exists sc m1 c1 s', prog s = Ok (sc mod 2 ^ 11 =? 0, s') /\ outcome_of id cmd s v sc m1 c1 s') \/
  (exists s', prog s = Ok (false, s') /\ overdue id cmd s s').
Proof.
  intros R Hv Hs Ho Hk prog. unfold prog. set (q := get_q id (drv s)) in *. destruct (push_spec id cmd s v R Hv Hs) as (d1 & E1 & Hd1). fold q in E1, Hd1.
  rewrite (K_bind_Ok _ _ _ _ _ E1). set (s1 := set_world _ _) in *. set (m0 := store (world s).1 _ _) in *. set (c0 := new_tail _ _ _) in *.
  set (v0 := mk_qv (q_sq v) (q_cq v) (q_ssize v) (q_csize v) (q_head v) ((tail q + 1) mod 64) (q_ctail v) (q_phase v)).
  assert (ctl_of s1 = c0) as Ec by done. assert (queue_of id c0 = Some v0) as Hv0 by (unfold c0, new_tail; rewrite Hv; by destruct id).
  assert (get_q id (drv s1) = pushed q) as Eq by apply get_set_q.
  assert (running s1) as R1.
  { destruct R as [R1 R2 R3 R4 R5]. split; rewrite ?Ec; [done|..]; unfold c0, new_tail; by destruct id. }
  assert (known id (enc_sqe cmd) c0 = true) as Hk0 by (unfold c0, new_tail; by destruct id).
  destruct Hs as [S1 S2 S3 S4 S5 S6 S7 S8 S9 S10 S11 S12 S13].
  assert (enc_sqe cmd = load m0 (q_sq v0 + sizeof_sqe * q_head v0) 64) as Hcmd.
  { cbn [v0 q_sq q_head]. rewrite S1, S5. unfold m0. by rewrite load_store_eq by (by rewrite blen_enc_sqe). }
  destruct (poll_queue id v0 (enc_sqe cmd) POLLS s1) as [(sc & m1 & c1 & cqe & d' & Hx & Hb & Hst & E & Hd)|(d' & E & Hd & Hidle)]; rewrite ?Ec, ?Eq; try done.
  - intros v' Hv'. apply Ho. unfold c0, new_tail in Hv'. by destruct id.
  - change (phase_at m0 q (head q) <> phase q). intros Ep.
    assert (phase_at m0 q (head q) = phase_at (world s).1 q (head q)) as Eph.
    { unfold phase_at, ld16, m0. rewrite load_store_ne; [done|]. rewrite blen_enc_sqe. unfold apart, sizeof_sqe, sizeof_cqe in *. lia. }
    rewrite Eph, S12 in Ep by lia. replace (head q <? head q) with false in Ep by lia. lia.
  - left. rewrite Ec in Hx. destruct (exec_keeps _ _ _ _ _ _ _ Hx Hk0) as (K1 & K2 & K3 & K4).
    exists sc, m1, c1, (finish id s1 v0 m1 cqe d'). split; [done|]. split; [done| |unfold finish; cbn [drv set_world set_drv s1]; rewrite get_set_q; by destruct id|done|done| |done].
    + destruct R1 as [R1 R2 R3 R4 R5]. rewrite Ec in R2, R3, R4, R5. assert (ctl_of (finish id s1 v0 m1 cqe d') = view d') as Ef by done.
      split; [done|rewrite Ef, Hd..]; unfold en, stride in *; [destruct id; cbn; congruence..| |]; [cbn [finish drv set_world set_drv]|]; destruct id; cbn in *; congruence.
    + exists cqe. fold q. rewrite <- S2, <- S7, <- S8. done.
  - right. rewrite Ec in Hd, Hidle. exists (set_world (m0, d') s1). split; [exact E|]. split; [|done|done|done|exact Hd].
    intros Hprompt. destruct (proj1 (Hprompt (m0, d1))) as (k & Hk50 & Hlog).
    { exists id, v0. cbn [snd]. rewrite Hd1. split; [rewrite <- Ec; apply R1|]. split; [rewrite <- Ec; apply R1|]. split; [done|]. cbn [v0 q_head q_tail q_phase]. lia. }
    change (m0, d1) with (world s1) in Hlog. rewrite Hidle in Hlog by (unfold POLLS; lia). cbn [world s1 set_world snd] in Hlog. rewrite Hd1 in Hlog. lia.
Qed.

(** ** Reading and writing sectors *)

Lemma enc_fields c : let e := enc_sqe c in
  opcode e = cdw0 c mod 256 /\ rd32 e 4 = u32 (nsid c) /\ data e = u64 (prp1 c) /\ rd32 e 40 = u32 (cdw10 c) /\ rd32 e 44 = u32 (cdw11 c) /\ rd32 e 48 = u32 (cdw12 c).
Proof.
  split; [done|]. split; [exact (le_val_bytes 4 (nsid c))|]. split; [exact (le_val_bytes 8 (prp1 c))|].
  split; [exact (le_val_bytes 4 (cdw10 c))|]. split; [exact (le_val_bytes 4 (cdw11 c))|exact (le_val_bytes 4 (cdw12 c))].
Qed.

Lemma low_cid opc cid : is_u8 opc -> (opc .| u32 (Z.shiftl cid 16))%C mod 256 = opc.
Proof.
  intros Ho. rewrite Z.shiftl_mul_pow2, Z.lor_comm by lia. replace (u32 (cid * 2 ^ 16)) with (cid mod 2 ^ 16 * 2 ^ 16) by int_lia.
  rewrite lor_add_low by int_lia. int_lia.
Qed.

(** The controller reads in the command what the driver was asked for. *)
Lemma rw_cmd_fields opc lba n buf cid : is_u8 opc -> is_u64 lba -> 1 <= n <= 8 -> is_u64 buf -> let e := enc_sqe (rw_cmd opc lba n buf cid) in
  opcode e = opc /\ rd32 e 4 = 1 /\ data e = buf /\ slba e = lba /\ nlb e = n.
Proof.
  intros Ho Hl Hn Hb e. destruct (enc_fields (rw_cmd opc lba n buf cid)) as (E1 & E2 & E3 & E4 & E5 & E6). fold e in E1, E2, E3, E4, E5, E6.
  unfold slba, nlb. rewrite E1, E2, E3, E4, E5, E6. cbn [rw_cmd command cdw0 nsid prp1 cdw10 cdw11 cdw12]. rewrite low_cid by done.
  change 0xffffffff with (2 ^ 32 - 1). rewrite land_ones_mod, Z.shiftr_div_pow2 by lia. repeat split; int_lia.
Qed.

(** The driver and the controller are ready for the next request. *)
Record ready s : Prop := {
  rd_running : running s;
  rd_ready : s_ready (drv s) = true;
  rd_io : exists v, io (ctl_of s) = Some v /\ synced (world s).1 (s_io (drv s)) v;
  rd_admin : quiet Admin (ctl_of s) }.

(** The physical range of a buffer, in one page and not in the rings. *)
Definition buffer_ok s (p n : Z) : Prop :=
  p mod 4096 + n * 512 <= 4096 /\ apart p (n * 512) (sq (s_io (drv s))) 4096 /\ apart p (n * 512) (cq (s_io (drv s))) 4096.

Lemma effect_io opc lba n buf cid m c : opc = 1 \/ opc = 2 -> is_u64 lba -> 1 <= n <= 8 -> is_u64 buf -> buf mod 4096 + n * 512 <= 4096 -> (lba + n) * 512 <= blen (ns c) ->
  let e := enc_sqe (rw_cmd opc lba n buf cid) in
  known Io e c = true /\
  effect Io e m c = (if opc =? 2 then (store m buf (slice (ns c) (lba * 512) (n * 512)), c) else (m, set_ns (put (ns c) (lba * 512) (load m buf (n * 512))) c)).
Proof.
  intros Ho Hl Hn Hb Hp Hin e. destruct (rw_cmd_fields opc lba n buf cid ltac:(int_lia) Hl Hn Hb) as (E1 & E2 & E3 & E4 & E5). fold e in E1, E2, E3, E4, E5.
  unfold known, effect. rewrite E1, E2, E3, E4, E5. split; [lia|done].
Qed.

Lemma set_ns_id c : set_ns (ns c) c = c.
Proof. by destruct c. Qed.

Lemma put_nil b off : put b off [] = b.
Proof. unfold put. cbn [length app]. rewrite Nat.add_0_r. apply take_drop. Qed.

(** What a controller does with the command, whether it succeeds or not. *)
Lemma exec_io opc lba n buf cid m c sc m1 c1 : opc = 1 \/ opc = 2 -> is_u64 lba -> 1 <= n <= 8 -> is_u64 buf -> buf mod 4096 + n * 512 <= 4096 -> (lba + n) * 512 <= blen (ns c) ->
  exec Io (enc_sqe (rw_cmd opc lba n buf cid)) m c sc m1 c1 ->
  (sc mod 2 ^ 11 =? 0) = (sc =? 0) /\ (forall x, ~ (buf <= x < buf + n * 512 /\ opc = 2) -> m1 x = m x) /\
  exists ns1, c1 = set_ns ns1 c /\ (opc = 2 -> ns1 = ns c) /\
    (opc = 1 -> exists ds, blen ds = n * 512 /\ ns1 = put (ns c) (lba * 512) ds /\ (sc = 0 -> ds = load m buf (n * 512))) /\
    (opc = 2 -> sc = 0 -> m1 = store m buf (slice (ns c) (lba * 512) (n * 512))).
Proof.
  intros Ho Hl Hn Hb Hp Hin Hx. destruct (effect_io opc lba n buf cid m c Ho Hl Hn Hb Hp Hin) as [Hk He].
  destruct (rw_cmd_fields opc lba n buf cid ltac:(int_lia) Hl Hn Hb) as (E1 & E2 & E3 & E4 & E5). unfold is_u64 in *.
  destruct Hx as [m1 c1 _ E|sc bs ds _ Hsc Hne Hbs Hds|sc m1 c1 Hk' _]; [| |congruence].
  - split; [done|]. rewrite He in E. destruct Ho as [-> | ->]; cbn in E; simplify_eq.
    + split; [done|]. eexists. split; [done|]. split; [done|]. split; [|done]. intros _. eexists. split; [|split; [done|done]]. by apply blen_load; lia.
    + split.
      { intros x Hx. unfold store. rewrite blen_slice by lia. replace (_ && _) with false by lia. done. }
      exists (ns c1). rewrite set_ns_id. done.
  - unfold fills, changes in *. rewrite E1, E5 in Hbs, Hds. rewrite E3, E4. split; [lia|]. split.
    + intros x Hx. unfold store. rewrite Hbs. destruct Ho as [-> | ->]; cbn [Z.eqb Pos.eqb]; by replace (_ && _) with false by lia.
    + eexists. split; [done|]. destruct Ho as [-> | ->]; cbn [Z.eqb Pos.eqb] in Hds; (split; [|split]); try done; try lia.
      * intros _. exists ds. split; [done|]. split; [done|lia].
      * intros _. destruct ds; [|unfold blen in Hds; cbn in Hds; lia]. apply put_nil.
Qed.

(** What one request does, for both directions: the controller has executed it with status [sc]. *)
Record io_done s opc lba n buf (sc : Z) s' : Prop := {
  id_ready : ready s';
  id_log : exists e, log (ctl_of s') = log (ctl_of s) ++ [(Io, e, sc)];
  id_rings : sq (s_io (drv s')) = sq (s_io (drv s)) /\ cq (s_io (drv s')) = cq (s_io (drv s)) /\ vm s' = vm s;
  id_mem : forall x, ~ (buf <= x < buf + n * 512 /\ opc = 2) -> ~ sq (s_io (drv s)) <= x < sq (s_io (drv s)) + 4096 -> ~ cq (s_io (drv s)) <= x < cq (s_io (drv s)) + 4096 ->
      (world s').1 x = (world s).1 x;
  id_same : opc = 2 -> ns (ctl_of s') = ns (ctl_of s);
  id_write : opc = 1 -> exists ds, blen ds = n * 512 /\ ns (ctl_of s') = put (ns (ctl_of s)) (lba * 512) ds /\ (sc = 0 -> ds = load (world s).1 buf (n * 512));
  id_read : opc = 2 -> sc = 0 -> load (world s').1 buf (n * 512) = slice (ns (ctl_of s)) (lba * 512) (n * 512) }.
(** Or the driver has given up on it: the command stays in its queue, and nothing else has changed. *)
Record io_late s s' : Prop := {
  il_slow : ~ prompt D;
  il_log : log (ctl_of s') = log (ctl_of s) /\ ns (ctl_of s') = ns (ctl_of s);
  il_mem : forall x, ~ sq (s_io (drv s)) <= x < sq (s_io (drv s)) + 4096 -> (world s').1 x = (world s).1 x }.

Lemma io_cmd_spec s opc lba n buf : ready s -> opc = 1 \/ opc = 2 -> is_u64 lba -> 1 <= n <= 8 -> is_u64 buf -> buffer_ok s buf n -> (lba + n) * 512 <= blen (ns (ctl_of s)) ->
  exists b s', io_cmd opc lba n buf s = Ok (b, s') /\ ((exists sc, b = (sc =? 0) /\ io_done s opc lba n buf sc s') \/ b = false /\ io_late s s').
Proof.
  intros [R Hr (v & Hv & Hs) Ha] Ho Hl Hn Hb (Hp & Hbs & Hbc) Hin. unfold io_cmd. set (cid := s_next_cid (drv s)).
  assert (next_cid s = Ok (cid, set_drv (set_cid (u16 (cid + 1)) (drv s)) s)) as E0 by done. rewrite (K_bind_Ok _ _ _ _ _ E0). set (s0 := set_drv _ s).
  set (cmd := rw_cmd opc lba n buf cid). destruct (effect_io opc lba n buf cid (world s).1 (ctl_of s) Ho Hl Hn Hb Hp Hin) as [Hk _].
  pose proof (blen_enc_sqe cmd) as Hlen. pose proof (sy_tail_range _ _ _ Hs). pose proof (sy_head_range _ _ _ Hs).
  assert (running s0) as R0 by (by destruct R). destruct (transact Io cmd s0 v R0 Hv Hs Ha Hk) as [(sc & m1 & c1 & s' & E & [Hx R' Hd Hvm Hh (cqe & Hcb & Hcs & Hm) Hc])|(s' & E & [Hslow _ _ Hm Hc])].
  2:{ exists false, s'. split; [exact E|]. right. split; [done|]. split; [done|rewrite Hc; apply new_tail_keeps|]. change (get_q Io (drv s0)) with (s_io (drv s)) in Hm. change (world s0) with (world s) in Hm.
    intros x Hx. rewrite Hm. unfold store, sizeof_sqe. by replace (_ && _) with false by lia. }
  destruct (exec_io opc lba n buf cid _ (new_tail Io ((tail (s_io (drv s)) + 1) mod 64) (ctl_of s)) sc m1 c1 Ho Hl Hn Hb Hp Hin Hx) as (Hok & Hfr & ns1 & -> & Hns2 & Hns1 & Hrd). rewrite Hok in E.
  change (get_q Io (drv s0)) with (s_io (drv s)) in *. set (q := s_io (drv s)) in *. change (world s0) with (world s) in *. change (ctl_of s0) with (ctl_of s) in *.
  assert (0 <= sc) as Hsc by (inversion Hx; lia).
  exists (sc =? 0), s'. split; [exact E|]. left. exists sc. split; [done|]. assert (s_io (drv s') = popped (pushed q)) as Hio by (by rewrite Hd).
  unfold sizeof_cqe, sizeof_sqe, apart in *.
  split; fold q; [|exists (enc_sqe cmd); by rewrite Hc|by rewrite Hio|..].
  - split; [done|by rewrite Hd| |intros v' Hv'; apply Ha; by rewrite Hc in Hv'].
    eexists. split; [by rewrite Hc|]. rewrite Hio, Hm. apply (synced_after (world s).1 q v m1 sc cqe (enc_sqe cmd)); try done.
    intros x Hxr. apply Hfr. lia.
  - intros x Hx1 Hx2 Hx3. rewrite Hm. unfold store at 1. replace (_ && _) with false by lia. rewrite Hfr by done. unfold store. by replace (_ && _) with false by lia.
  - intros Hopc. rewrite Hc. by rewrite Hns2.
  - intros Hopc. destruct (Hns1 Hopc) as (ds & Hdl & -> & Hds). exists ds. split; [done|]. split; [by rewrite Hc|]. intros Hsc0. rewrite Hds by done. apply load_store_ne. unfold apart. lia.
  - intros Hopc Hsc0. rewrite Hm, (Hrd Hopc Hsc0), load_store_ne by (unfold apart; lia). apply load_store_eq. unfold is_u64 in *. rewrite blen_slice by (cbn; lia). done.
Qed.

Definition buf_phys s (buf : Z) : Z := u64 (buf - Vmm.vdirect_map (vm s)).

Lemma sectors_spec s opc lba count buf : ready s -> 1 <= count <= 8 -> sectors opc lba count buf s = io_cmd opc lba count (buf_phys s buf) s.
Proof. intros R Hc. unfold sectors. rewrite K_gets, (rd_ready _ R). replace (count =? 0) with false by lia. replace (8 <? count) with false by lia. done. Qed.

(** A request for no sector, for more than eight, or before the driver is ready fails and does nothing. *)
Theorem sectors_refused s opc lba count buf : s_ready (drv s) = false \/ count <= 0 \/ 8 < count -> is_u16 count -> sectors opc lba count buf s = Ok (false, s).
Proof. intros Hc Hu. unfold sectors. rewrite K_gets. by replace (_ || _) with true by (unfold is_u16 in *; destruct (s_ready (drv s)); destruct Hc as [?|?]; try done; cbn; lia). Qed.

(** [nvme_read_sectors] and [nvme_write_sectors] of one to eight sectors of the namespace, with a buffer in one page,
    whatever the controller's timing. *)
Lemma sectors_done s opc lba count buf : opc = 1 \/ opc = 2 -> ready s -> is_u64 lba -> 1 <= count <= 8 -> (lba + count) * 512 <= blen (ns (ctl_of s)) ->
  buffer_ok s (buf_phys s buf) count ->
  exists b s', sectors opc lba count buf s = Ok (b, s') /\ ((exists sc, b = (sc =? 0) /\ io_done s opc lba count (buf_phys s buf) sc s') \/ b = false /\ io_late s s').
Proof. intros Ho R Hl Hc Hin Hb. rewrite sectors_spec by done. by apply io_cmd_spec; [..|apply u64_range| |]. Qed.

(** C27: Sectors that are written and then read come back, on a controller that keeps to the specification and takes
    any time it likes. The driver is [ready] (it has been set up, no command waits, and both sides agree on the
    positions in the rings, wherever these are); one to eight sectors of the namespace are written from a buffer
    and read into another, each of which lies within a page and apart from the rings. The write returns; while it
    has not been executed, no sector has changed. If it returned true, or if the controller executes each command
    before the driver has polled 50000 times ([prompt]), the driver is ready again and the read returns; when both
    have returned true, the second buffer holds what the first held. A write that timed out is excluded on purpose: a
    later request takes its completion for its own ([late_completion_is_mistaken]). *)
Theorem nvme_write_read s lba count wbuf rbuf : ready s -> is_u64 lba -> 1 <= count <= 8 -> (lba + count) * 512 <= blen (ns (ctl_of s)) ->
  buffer_ok s (buf_phys s wbuf) count -> buffer_ok s (buf_phys s rbuf) count ->
  exists b1 s1, nvme_write_sectors lba count wbuf s = Ok (b1, s1) /\ (log (ctl_of s1) = log (ctl_of s) -> ns (ctl_of s1) = ns (ctl_of s)) /\
    (b1 = true \/ prompt D -> ready s1 /\ exists b2 s2, nvme_read_sectors lba count rbuf s1 = Ok (b2, s2) /\ (b2 = true \/ prompt D -> ready s2) /\
      ns (ctl_of s2) = ns (ctl_of s1) /\
      (b1 = true -> b2 = true -> load (world s2).1 (buf_phys s rbuf) (count * 512) = load (world s).1 (buf_phys s wbuf) (count * 512))).
Proof.
  intros R Hl Hc Hin Hw Hr. destruct (sectors_done s 1 lba count wbuf (or_introl eq_refl) R Hl Hc Hin Hw) as (b1 & s1 & E1 & H1). exists b1, s1. split; [exact E1|]. clear E1.
  destruct H1 as [(sc & -> & [R1 [e Hlog] (Hq1 & Hq2 & Hvm) _ _ Hwr _])|[-> [Hslow [_ Hns] _]]]; [|split; [done|by intros [?|?]]].
  destruct (Hwr eq_refl) as (ds & Hdl & Hns & Hds). split.
  { rewrite Hlog. intros Hx%(f_equal length). rewrite length_app in Hx. cbn in Hx. lia. }
  intros _. split; [done|]. assert (blen (ns (ctl_of s1)) = blen (ns (ctl_of s))) as Hbl by (rewrite Hns; apply blen_put; unfold is_u64 in *; lia).
  assert (buf_phys s1 rbuf = buf_phys s rbuf) as Ep by (unfold buf_phys; by rewrite Hvm).
  destruct (sectors_done s1 2 lba count rbuf (or_intror eq_refl) R1 Hl Hc ltac:(lia)) as (b2 & s2 & E2 & H2); [unfold buffer_ok; by rewrite Ep, Hq1, Hq2|].
  exists b2, s2. split; [exact E2|]. destruct H2 as [(sc2 & -> & [R2 _ _ _ Hs2 _ Hrd])|[-> [Hslow [_ Hn2] _]]]; [|split; [by intros [?|?]|done]].
  split; [done|]. split; [by apply Hs2|]. intros Z1 Z2. rewrite Ep in Hrd. rewrite Hrd, Hns, <- Hds by (done || lia). apply slice_put_eq; [unfold is_u64 in *; lia..|done].
Qed.

(** ** Initialisation *)

Lemma quiet_step m c m' c' : quiet Admin c -> quiet Io c -> step (m, c) (m', c') -> m' = m /\ (c' = c \/ c' = set_rdy (en c) c).
Proof.
  intros Ha Hi Hs. inversion Hs as [x Ex|mm cc' Ex Ex'|id mm cc' v cmd sc m1 c1 cqe He Hr Hv Hne Hcmd Hx Hb Hcid Hst Ex Ex']; subst; [by auto..|].
  exfalso. apply Hne. destruct id; [by apply Ha|by apply Hi].
Qed.

Lemma read_status d : (reg_read 0x1c d .& NVME_CSTS_CFS)%C = 0 /\ (reg_read 0x1c d .& NVME_CSTS_RDY)%C = if rdy (view d) then 1 else 0.
Proof.
  pose proof (read_csts d) as E. pose proof (land_field (reg_read 0x1c d) 1 1 ltac:(lia) ltac:(lia)) as E1. pose proof (land_ones_mod (reg_read 0x1c d) 1 ltac:(lia)) as E0.
  change (Z.shiftl (Z.ones 1) 1) with NVME_CSTS_CFS in E1. change (2 ^ 1 - 1) with NVME_CSTS_RDY in E0. rewrite E0, E1. destruct (rdy (view d)); lia.
Qed.

(** The driver waits until the controller follows the enable bit, or gives up. *)
Lemma wait_csts_spec : forall n s, regs s = true -> quiet Admin (ctl_of s) -> quiet Io (ctl_of s) ->
  exists b d', wait_csts (if en (ctl_of s) then 1 else 0) n s = Ok (b, set_world ((world s).1, d') s) /\
    (b = true -> view d' = set_rdy (en (ctl_of s)) (ctl_of s)) /\
    (b = false -> view d' = ctl_of s /\ forall k, (k < n)%nat -> rdy (view (Nat.iter (S k) run (world s)).2) <> en (ctl_of s)).
Proof.
  induction n as [|n IH]; intros s Hr Ha Hi; cbn [wait_csts].
  { exists false, (world s).2. split; [by destruct s as [? ? ? ? []]|]. split; [done|]. intros _. split; [done|lia]. }
  unfold wait; rewrite K_modify; set (s1 := set_world (run (world s)) s).
  pose proof (run_step (world s).1 (world s).2) as Hstep; rewrite <- surjective_pairing in Hstep; destruct (quiet_step _ _ _ _ Ha Hi Hstep) as [Em Ec].
  assert (reg32 NVME_REG_CSTS s1 = Ok (reg_read 0x1c (run (world s)).2, s1)) as E by (unfold reg32, mapped; cbn [regs s1 set_world]; by rewrite Hr).
  rewrite (K_bind_Ok _ _ _ _ _ E); destruct (read_status (run (world s)).2) as [-> ->]; cbn [negb Z.eqb].
  destruct (decide (rdy (view (run (world s)).2) = en (ctl_of s))) as [Ed|Hne].
  - rewrite Ed, Z.eqb_refl; exists true, (run (world s)).2. split; [unfold mret, K_ret, s1; do 3 f_equal; by rewrite <- Em, <- surjective_pairing|]. split; [|done]. intros _.
    destruct Ec as [Ec|Ec]; [|done]; rewrite <- Ed, Ec; fold (ctl_of s); by destruct (ctl_of s).
  - assert (ctl_of s1 = ctl_of s) as Ec1 by (destruct Ec as [Ec|Ec]; [done|]; exfalso; apply Hne; by rewrite Ec).
    destruct (IH s1) as (b & d' & E2 & Hok & Hko); rewrite ?Ec1; [done..|].
    exists b, d'. rewrite Ec1 in E2, Hok, Hko. split.
    { replace ((if rdy _ then 1 else 0) =? (if en _ then 1 else 0)) with false by (destruct (rdy (view (run (world s)).2)), (en (ctl_of s)); done).
      rewrite E2. unfold s1. cbn [world set_world]. by rewrite Em. }
    split; [done|]. intros Hb. destruct (Hko Hb) as [Hd Hk]. split; [done|]. intros [|k] Hlt; [exact Hne|]. rewrite Nat.iter_succ_r. apply Hk. lia.
Qed.

(** The controller takes admin commands. *)
Definition adm s : Prop := running s /\ quiet Io (ctl_of s) /\ exists v, admin (ctl_of s) = Some v /\ synced (world s).1 (s_adm (drv s)) v.

Definition in_rings (q : queue) (x : Z) : Prop := sq q <= x < sq q + 4096 \/ cq q <= x < cq q + 4096.

Lemma exec_admin e m c sc m1 c1 : known Admin e c = true -> exec Admin e m c sc m1 c1 ->
  0 <= sc /\ (sc mod 2 ^ 11 =? 0) = (sc =? 0) /\
  ((sc = 0 /\ effect Admin e m c = (m1, c1)) \/ (sc <> 0 /\ c1 = c /\ forall x, ~ data e <= x < data e + fills Admin e -> m1 x = m x)).
Proof.
  intros Hk Hx. destruct Hx as [m1 c1 _ E|sc bs ds _ Hsc Hne Hbs Hds|sc m1 c1 Hk' _]; [split; [done|]; split; [done|]; by left| |congruence].
  split; [lia|]. split; [lia|]. right. split; [lia|]. split.
  - destruct ds; [|unfold blen in Hds; cbn in Hds; lia]. by rewrite put_nil, set_ns_id.
  - intros x Hx. unfold store. rewrite Hbs. by replace (_ && _) with false by lia.
Qed.

Lemma effect_admin e m c m1 c1 : effect Admin e m c = (m1, c1) -> blen (ident c) = 4096 ->
  admin c1 = admin c /\ ident c1 = ident c /\ ns c1 = ns c /\ log c1 = log c /\ forall x, ~ data e <= x < data e + fills Admin e -> m1 x = m x.
Proof.
  unfold effect, fills. intros E Hi. destruct (opcode e =? 6) eqn:E6; [|destruct (opcode e =? 5)]; simplify_eq; repeat (split; [done|]); [|done..].
  intros x Hx. unfold store. rewrite Hi. by replace (_ && _) with false by lia.
Qed.

Definition admin_done cmd s (sc : Z) (s' : st D H) : Prop :=
  let e := enc_sqe (with_cid (s_next_cid (drv s)) cmd) in
  adm s' /\ log (ctl_of s') = log (ctl_of s) ++ [(Admin, e, sc)] /\ (ident (ctl_of s') = ident (ctl_of s) /\ ns (ctl_of s') = ns (ctl_of s)) /\
  (vm s' = vm s /\ host s' = host s) /\
  (s_io (drv s') = s_io (drv s) /\ s_ready (drv s') = s_ready (drv s) /\ sq (s_adm (drv s')) = sq (s_adm (drv s)) /\ cq (s_adm (drv s')) = cq (s_adm (drv s))) /\
  (forall x, ~ in_rings (s_adm (drv s)) x -> ~ data e <= x < data e + fills Admin e -> (world s').1 x = (world s).1 x) /\
  (sc = 0 -> forall x, ~ in_rings (s_adm (drv s)) x -> (world s').1 x = (effect Admin e (world s).1 (ctl_of s)).1 x) /\
  (sc = 0 -> iocq (ctl_of s') = iocq (effect Admin e (world s).1 (ctl_of s)).2 /\ io (ctl_of s') = io (effect Admin e (world s).1 (ctl_of s)).2) /\
  (sc <> 0 -> iocq (ctl_of s') = iocq (ctl_of s) /\ io (ctl_of s') = io (ctl_of s)).

(** The driver has given up on the controller. *)
Record stuck s (s' : st D H) : Prop := {
  sk_slow : ~ prompt D;
  sk_vm : vm s' = vm s;
  sk_ready : s_ready (drv s') = s_ready (drv s);
  sk_ctl : log (ctl_of s') = log (ctl_of s) /\ ns (ctl_of s') = ns (ctl_of s) }.

Lemma admin_cmd_spec cmd s : adm s -> blen (ident (ctl_of s)) = 4096 ->
  let e := enc_sqe (with_cid (s_next_cid (drv s)) cmd) in
  known Admin e (ctl_of s) = true -> apart (data e) (fills Admin e) (cq (s_adm (drv s))) 4096 ->
  (exists sc s', admin_cmd cmd s = Ok (sc =? 0, s') /\ admin_done cmd s sc s') \/ (exists s', admin_cmd cmd s = Ok (false, s') /\ stuck s s').
Proof.
  intros (R & Hq & v & Hv & Hs) Hid e Hk Hap. set (cid := s_next_cid (drv s)) in *.
  unfold admin_cmd, asq_submit. assert (next_cid s = Ok (cid, set_drv (set_cid (u16 (cid + 1)) (drv s)) s)) as E0 by done. set (s0 := set_drv _ s) in *.
  assert (running s0) as R0 by (by destruct R). destruct (transact Admin (with_cid cid cmd) s0 v R0 Hv Hs Hq Hk) as [(sc & m1 & c1 & s' & E & [Hx R' Hd Hvm Hh (cqe & Hcb & Hcs & Hm) Hc])|(s' & E & [Hslow Hvm Hd _ Hc])].
  2:{ right. exists s'. split; [|split; [done|done|by rewrite Hd|rewrite Hc; apply new_tail_keeps]].
    unfold mbind, K_bind in E0, E |- *. rewrite E0. cbn [get_q set_q db] in E. unfold acq_wait, NVME_AQ_SIZE.
    change (0 + 1) with 1 in E. by destruct (push _ _ _ _ _ s0) as [[[] s1]|msg]. }
  left.
  change (get_q Admin (drv s0)) with (s_adm (drv s)) in *. set (q := s_adm (drv s)) in *. change (world s0) with (world s) in *. change (ctl_of s0) with (ctl_of s) in *. fold e in Hx, Hc. cbv zeta in Hx.
  set (m0 := store (world s).1 _ e) in *. set (c0 := new_tail _ _ _) in *.
  destruct (exec_admin e m0 c0 sc m1 c1 Hk Hx) as (Hsc & Hok & Hcase). exists sc, s'. split.
  { unfold mbind, K_bind in E0, E |- *. rewrite E0. cbn [get_q set_q db] in E. unfold acq_wait, NVME_AQ_SIZE.
    change (0 + 1) with 1 in E. destruct (push _ _ _ _ _ s0) as [[[] s1]|msg]; [|done]. unfold mret, K_ret. by rewrite E, Hok. }
  pose proof (sy_tail_range _ _ _ Hs) as Ht. pose proof (sy_head_range _ _ _ Hs) as Hhd. pose proof (blen_enc_sqe (with_cid cid cmd)) as Hlen. fold e in Hlen.
  assert (forall x, ~ in_rings q x -> m0 x = (world s).1 x) as Hm0.
  { intros x Hr. unfold m0, store, in_rings, sizeof_sqe in *. fold q in Ht. by replace (_ && _) with false by lia. }
  assert (forall x, ~ in_rings q x -> (world s').1 x = m1 x) as Hm1.
  { intros x Hr. rewrite Hm. unfold store, in_rings, sizeof_cqe in *. fold q in Hhd. by replace (_ && _) with false by lia. }
  assert (forall x, ~ data e <= x < data e + fills Admin e -> m1 x = m0 x) as Hfr.
  { destruct Hcase as [[_ He]|(_ & _ & Hf)]; [|done]. by apply (effect_admin e m0 c0 m1 c1 He Hid). }
  assert ((ident c1 = ident (ctl_of s) /\ ns c1 = ns (ctl_of s)) /\ log c1 = log (ctl_of s) /\ (sc = 0 -> iocq c1 = iocq (effect Admin e (world s).1 (ctl_of s)).2 /\ io c1 = io (effect Admin e (world s).1 (ctl_of s)).2) /\
    (sc <> 0 -> iocq c1 = iocq (ctl_of s) /\ io c1 = io (ctl_of s)) /\ quiet Io c1) as (Hid1 & Hlog1 & Hz & Hnz & Hq1).
  { destruct Hcase as [[-> He]|(Hne & -> & Hf)]; [|split; [done|]; split; [done|]; split; [done|]; split; [done|exact Hq]]. destruct (effect_admin e m0 c0 m1 c1 He Hid) as (_ & -> & -> & -> & _).
    split; [done|]. split; [done|]. unfold effect in He |- *. destruct (opcode e =? 6); [|destruct (opcode e =? 5)]; simplify_eq; (split; [done|]); (split; [done|]); [done..|].
    intros v' Hv'. cbn [queue_of set_queue io] in Hv'. change (iocq c0) with (iocq (ctl_of s)) in Hv'. destruct (iocq (ctl_of s)); [|done]. injection Hv' as <-. done. }
  unfold admin_done. fold cid e. rewrite Hc. split; [|split; [|split; [done|split; [done|split; [by rewrite Hd|split; [|split; [|split]]]]]]].
  - split; [done|]. split; [rewrite Hc; exact Hq1|]. eexists. split; [by rewrite Hc|]. rewrite Hd, Hm. cbn [set_q set_adm s_adm drv s0 set_drv].
    apply (synced_after (world s).1 q v m1 sc cqe e); try done. intros x Hxr. apply Hfr. unfold apart in Hap. fold q in Hap. lia.
  - by cbn; rewrite Hlog1.
  - intros x Hr Hdx. by rewrite Hm1, Hfr, Hm0.
  - intros -> x Hr. rewrite Hm1 by done. destruct Hcase as [[_ He]|(? & _)]; [|done]. unfold effect in He |- *.
    destruct (opcode e =? 6); [|destruct (opcode e =? 5)]; simplify_eq; [|by apply Hm0..]. cbn [fst]. unfold store at 1 2. rewrite Hm0 by done. done.
  - exact Hz.
  - exact Hnz.
Qed.

Lemma wreg32_spec s off v c' : regs s = true -> off <= 0x34 -> on_write off v (ctl_of s) = Some c' ->
  exists d', wreg32 off v s = Ok (tt, set_world ((world s).1, d') s) /\ view d' = c'.
Proof.
  intros Hr Ho Hw. exists (reg_write off v (world s).2). split; [|by apply write_view]. unfold wreg32, mapped, NVME_MMIO_PAGES. rewrite Hr.
  by replace (off + 4 <=? 8 * 4096) with true by lia.
Qed.

(** What a write of a 64-bit register leaves. *)
Lemma wreg64_spec s off v c1 c2 : regs s = true -> off <= 0x30 -> is_u64 v ->
  on_write off (v mod 2 ^ 32) (ctl_of s) = Some c1 -> on_write (off + 4) (v / 2 ^ 32) c1 = Some c2 ->
  exists d', wreg64 off v s = Ok (tt, set_world ((world s).1, d') s) /\ view d' = c2.
Proof.
  intros Hr Ho Hv H1 H2. unfold wreg64. destruct (wreg32_spec s off (u32 v) c1 Hr ltac:(lia) H1) as (d1 & E1 & Hd1). rewrite (K_bind_Ok _ _ _ _ _ E1).
  rewrite Z.shiftr_div_pow2 by lia. replace (u32 (v / 2 ^ 32)) with (v / 2 ^ 32) by int_lia.
  destruct (wreg32_spec (set_world ((world s).1, d1) s) (off + 4) (v / 2 ^ 32) c2) as (d2 & E2 & Hd2); [done|lia|unfold ctl_of; cbn [world set_world snd]; by rewrite Hd1|].
  exists d2. by rewrite E2.
Qed.

Lemma not_prompt n s : 50000 <= Z.of_nat n -> (forall k, (k < n)%nat -> rdy (view (Nat.iter (S k) run (world s)).2) <> en (ctl_of s)) -> rdy (ctl_of s) <> en (ctl_of s) -> ~ prompt D.
Proof. intros Hn Hk Hne Hp. destruct (Hp (world s)) as [_ H2]. destruct (H2 Hne) as (k & Hlt & E). apply (Hk k); [lia|done]. Qed.

(** The wait for a bit that is as it should be cannot fail. *)
Lemma quiet_rdy s : quiet Admin (ctl_of s) -> quiet Io (ctl_of s) -> rdy (ctl_of s) = en (ctl_of s) -> rdy (view (Nat.iter 1 run (world s)).2) = en (ctl_of s).
Proof.
  intros Ha Hi E. change (Nat.iter 1 run (world s)) with (run (world s)). pose proof (run_step (world s).1 (world s).2) as Hstep. rewrite <- surjective_pairing in Hstep.
  destruct (quiet_step _ _ _ _ Ha Hi Hstep) as [_ [-> | ->]]; done.
Qed.

(** [reset_controller] leaves a controller that is off, or gives up. *)
Lemma reset_spec n s : regs s = true -> 50000 <= Z.of_nat n -> (rdy (ctl_of s) = true -> en (ctl_of s) = true) ->
  exists b d', reset_controller n s = Ok (b, set_world ((world s).1, d') s) /\
    (cap (view d') = cap (ctl_of s) /\ ident (view d') = ident (ctl_of s) /\ ns (view d') = ns (ctl_of s) /\ log (view d') = log (ctl_of s)) /\
    (b = true -> en (view d') = false /\ rdy (view d') = false) /\ (b = false -> ~ prompt D).
Proof.
  intros Hr Hn He. unfold reset_controller. assert (reg32 NVME_REG_CC s = Ok (cc (ctl_of s), s)) as E.
  { unfold reg32, mapped. rewrite Hr. cbn [andb]. by rewrite (read_cc (world s).2). }
  rewrite (K_bind_Ok _ _ _ _ _ E). pose proof (land_ones_mod (cc (ctl_of s)) 1 ltac:(lia)) as El. change (2 ^ 1 - 1) with NVME_CC_EN in El. rewrite El.
  pose proof (Zodd_mod (cc (ctl_of s))) as Hodd. fold (en (ctl_of s)) in Hodd. change (2 ^ 1) with 2.
  destruct (en (ctl_of s)) eqn:Een.
  - replace (negb (cc (ctl_of s) mod 2 =? 0)) with true by lia. set (v := Z.ldiff (cc (ctl_of s)) NVME_CC_EN).
    assert (Z.odd v = false) as Hv by (unfold v; rewrite <- Z.bit0_odd, Z.ldiff_spec; change (Z.testbit NVME_CC_EN 0) with true; apply andb_false_r).
    destruct (wreg32_spec s NVME_REG_CC v (write_cc v (ctl_of s)) Hr ltac:(done) eq_refl) as (d1 & E1 & Hd1). rewrite (K_bind_Ok _ _ _ _ _ E1). set (s1 := set_world _ s).
    assert (ctl_of s1 = write_cc v (ctl_of s)) as Ec by done. unfold write_cc in Ec. rewrite Hv in Ec. cbn [negb] in Ec.
    assert (en (ctl_of s1) = false) as Een1 by (by rewrite Ec). assert (quiet Admin (ctl_of s1) /\ quiet Io (ctl_of s1)) as [Qa Qi] by (by rewrite Ec).
    destruct (wait_csts_spec n s1 Hr Qa Qi) as (b & d2 & E2 & Hok & Hko). rewrite Een1 in E2, Hok.
    exists b, d2. split; [exact E2|]. destruct b.
    + rewrite (Hok eq_refl), Ec. done.
    + destruct (Hko eq_refl) as [Hd2 Hk]. split; [by rewrite Hd2, Ec|]. split; [done|]. intros _. apply (not_prompt n s1); [done|done|].
      intros Eq. apply (Hk 0%nat); [lia|]. by apply quiet_rdy.
  - replace (negb (cc (ctl_of s) mod 2 =? 0)) with false by lia. exists true, (world s).2. unfold mret, K_ret. split; [by destruct s as [? ? ? ? []]|]. fold (ctl_of s). split; [done|]. split; [|done]. intros _. split; [done|]. destruct (rdy (ctl_of s)); [by specialize (He eq_refl)|done].
Qed.

(** [enable_controller] makes the admin queues and waits until the controller is ready, or gives up. *)
Lemma enable_spec n a b s : regs s = true -> 50000 <= Z.of_nat n -> en (ctl_of s) = false -> rdy (ctl_of s) = false -> is_u64 a -> is_u64 b ->
  exists ok d', enable_controller n a b s = Ok (ok, set_world ((world s).1, d') (set_drv (set_adm (mk_queue a b 0 0 1) (drv s)) s)) /\
    (ok = false -> ~ prompt D /\ log (view d') = log (ctl_of s) /\ ns (view d') = ns (ctl_of s)) /\
    (ok = true -> view d' = mk_ctl (cap (ctl_of s)) 0x460001 true 0x3f003f a b (Some (mk_qv a b 64 64 0 0 0 1)) None None (ident (ctl_of s)) (ns (ctl_of s)) (log (ctl_of s))).
Proof.
  intros Hr Hn He Hrd Ha Hb. unfold enable_controller. rewrite K_modify. set (s0 := set_drv _ s). set (c := ctl_of s). assert (ctl_of s0 = c) as Ec0 by done.
  set (c1 := set_bases (aqa c) a (acq c) c). set (c2 := set_bases (aqa c) a b c).
  destruct (wreg64_spec s0 NVME_REG_ASQ a (set_bases (aqa c) (asq c / 2 ^ 32 * 2 ^ 32 + a mod 2 ^ 32) (acq c) c) c1) as (d1 & E1 & Hd1); [done|done|done|done| |].
  { change (Some (set_bases (aqa c) (a / 2 ^ 32 * 2 ^ 32 + (asq c / 2 ^ 32 * 2 ^ 32 + a mod 2 ^ 32) mod 2 ^ 32) (acq c) c) = Some c1). unfold c1. do 2 f_equal. int_lia. }
  rewrite (K_bind_Ok _ _ _ _ _ E1). set (s1 := set_world _ s0).
  destruct (wreg64_spec s1 NVME_REG_ACQ b (set_bases (aqa c) a (acq c / 2 ^ 32 * 2 ^ 32 + b mod 2 ^ 32) c) c2) as (d2 & E2 & Hd2); [done|done|done| | |].
  { unfold ctl_of. cbn [s1 world set_world snd]. by rewrite Hd1. }
  { change (Some (set_bases (aqa c) a (b / 2 ^ 32 * 2 ^ 32 + (acq c / 2 ^ 32 * 2 ^ 32 + b mod 2 ^ 32) mod 2 ^ 32) c) = Some c2). unfold c2. do 2 f_equal. int_lia. }
  rewrite (K_bind_Ok _ _ _ _ _ E2). set (s2 := set_world _ s1).
  destruct (wreg32_spec s2 NVME_REG_AQA 0x3f003f (set_bases 0x3f003f a b c)) as (d3 & E3 & Hd3); [done|done| |].
  { unfold ctl_of. cbn [s2 world set_world snd]. by rewrite Hd2. }
  rewrite (K_bind_Ok _ _ _ _ _ E3). set (s3 := set_world _ s2).
  set (c4 := mk_ctl (cap c) 0x460001 false 0x3f003f a b (Some (mk_qv a b 64 64 0 0 0 1)) None None (ident c) (ns c) (log c)).
  destruct (wreg32_spec s3 NVME_REG_CC 0x460001 c4) as (d4 & E4 & Hd4); [done|done| |].
  { unfold ctl_of. cbn [s3 world set_world snd]. rewrite Hd3. unfold on_write. cbn [Z.eqb Pos.eqb NVME_REG_CC]. unfold write_cc. change (en (set_bases 0x3f003f a b c)) with (en c). fold c in He, Hrd. rewrite He. unfold c4. rewrite <- Hrd. done. }
  rewrite (K_bind_Ok _ _ _ _ _ E4). set (s4 := set_world _ s3). assert (ctl_of s4 = c4) as Ec4 by done.
  destruct (wait_csts_spec n s4) as (ok & d5 & E5 & Hok & Hko); [done|rewrite Ec4; intros v [= <-]; done|by rewrite Ec4|].
  exists ok, d5. rewrite Ec4 in E5, Hok. split; [exact E5|]. split; [|exact Hok]. intros Hf. destruct (Hko Hf) as [Hd5 Hk]. split; [apply (not_prompt n s4); [done|done|by rewrite Ec4]|]. by rewrite Hd5, Ec4.
Qed.

(** ** Pages *)

Definition pm s : pmm := Vmm.vpmm (vm s).
Definition with_pm (p : pmm) s : st D H := set_vm (Vmm.set_pmm (vm s) p) s.

Lemma alloc_spec s : pmm_wf (pm s) -> exists a p', in_vm Vmm.alloc_page s = Ok (a, with_pm p' s) /\ page_alloc (pm s) a p'.
Proof. intros Hwf. destruct (alloc_page_page (vm s) Hwf) as (a & p' & E & Ha). exists a, p'. split; [|done]. unfold in_vm. by rewrite E. Qed.

Lemma release_spec s a : pmm_wf (pm s) -> page (pm s) a -> in_vm (Vmm.free_page a) s = Ok (tt, with_pm (release_page (pm s) (a / 4096)) s).
Proof. intros Hwf Ha. unfold in_vm. by rewrite (free_page_page (vm s) a Hwf Ha). Qed.

Lemma alloc_rings_spec s : pmm_wf (pm s) -> exists r p', pmm_wf p' /\ (forall x, page (pm s) x -> page p' x) /\
  ((r = None /\ alloc_rings s = Ok (None, with_pm p' s) /\ (free_count (pm s) <= 1)%nat) \/
   exists a b, r = Some (a, b) /\ page p' a /\ page p' b /\ ~ page (pm s) a /\ ~ page (pm s) b /\ a <> b /\ (free_count (pm s) <= S (S (free_count p')))%nat /\
     alloc_rings s = Ok (Some (a, b), set_world (store (store (world s).1 a (zeros 4096)) b (zeros 4096), (world s).2) (with_pm p' s))).
Proof.
  intros Hwf. destruct (alloc_spec s Hwf) as (a & p1 & E1 & [Hwf1 Hk1 Ha]). destruct (alloc_spec (with_pm p1 s) Hwf1) as (b & p2 & E2 & [Hwf2 Hk2 Hb]).
  change (pm (with_pm p1 s)) with p1 in *. unfold alloc_rings. rewrite (K_bind_Ok _ _ _ _ _ E1), (K_bind_Ok _ _ _ _ _ E2). change (with_pm p2 (with_pm p1 s)) with (with_pm p2 s).
  destruct Ha as [(-> & Hc & ->)|(Ha & Hpa & Hna & Hca & _)].
  { exists None, p2. split; [done|]. split; [by auto|]. left. split; [done|]. split; [done|lia]. }
  destruct Hb as [(-> & Hc & ->)|(Hb & Hpb & Hnb & Hcb & _)].
  { exists None, p1. split; [done|]. split; [by auto|]. left. split; [done|]. split; [rewrite orb_true_r; done|lia]. }
  exists (Some (a, b)), p2. split; [done|]. split; [by auto|]. right. exists a, b. split; [done|]. split; [by auto|]. split; [done|]. split; [done|].
  split; [by auto|]. split; [intros ->; done|]. split; [lia|]. rewrite Ha, Hb. done.
Qed.

(** ** The admin commands of the initialisation *)

Lemma synced_frame m m' q v : synced m q v -> (forall x, cq q <= x < cq q + 4096 -> m' x = m x) -> synced m' q v.
Proof.
  intros [S1 S2 S3 S4 S5 S6 S7 S8 S9 S10 S11 S12 S13] Hm. split; try done. intros i Hi. rewrite <- S12 by done. unfold phase_at, ld16. do 2 f_equal.
  apply load_ext. intros x Hx. apply Hm. unfold sizeof_cqe in *. lia.
Qed.

Lemma adm_store s a bs : adm s -> apart a (blen bs) (cq (s_adm (drv s))) 4096 -> adm (set_world (store (world s).1 a bs, (world s).2) s).
Proof.
  intros (R & Hq & v & Hv & Hs) Hap. split; [by destruct R|]. split; [done|]. exists v. split; [done|]. eapply synced_frame; [exact Hs|].
  intros x Hx. cbn [world set_world fst drv] in *. unfold store, apart in *. by replace (_ && _) with false by lia.
Qed.

Lemma adm_pm p s : adm s -> adm (with_pm p s).
Proof. intros (R & Hq & Hv). split; [by destruct R|done]. Qed.

Lemma with_cid_fields cmd cid : is_u8 (cdw0 cmd) -> let e := enc_sqe (with_cid cid cmd) in
  opcode e = cdw0 cmd /\ rd32 e 4 = u32 (nsid cmd) /\ data e = u64 (prp1 cmd) /\ rd32 e 40 = u32 (cdw10 cmd) /\ rd32 e 44 = u32 (cdw11 cmd).
Proof.
  intros H0 e. destruct (enc_fields (with_cid cid cmd)) as (E1 & E2 & E3 & E4 & E5 & _). fold e in E1, E2, E3, E4, E5. rewrite E1, E2, E3, E4, E5.
  cbn [with_cid cdw0 nsid prp1 cdw10 cdw11]. split; [|done]. change 0xffff with (2 ^ 16 - 1). rewrite land_ones_mod by lia.
  replace (cdw0 cmd mod 2 ^ 16) with (cdw0 cmd) by int_lia. by apply low_cid.
Qed.

Definition lbads_of (id : list Z) : Z := rd8 id (128 + rd8 id 26 mod 16 * 4 + 2).

Definition kept s s' : Prop :=
  s_io (drv s') = s_io (drv s) /\ s_ready (drv s') = s_ready (drv s) /\ sq (s_adm (drv s')) = sq (s_adm (drv s)) /\ cq (s_adm (drv s')) = cq (s_adm (drv s)) /\
  (ident (ctl_of s') = ident (ctl_of s) /\ ns (ctl_of s') = ns (ctl_of s)) /\ host s' = host s.

Definition rings_owned s : Prop := page (pm s) (sq (s_adm (drv s))) /\ page (pm s) (cq (s_adm (drv s))).

Lemma identify_spec s : adm s -> pmm_wf (pm s) -> blen (ident (ctl_of s)) = 4096 -> rings_owned s ->
  (exists s', identify s = Ok (None, s') /\ stuck s s') \/
  exists r s', identify s = Ok (r, s') /\ adm s' /\ vm s' = vm s /\ kept s s' /\ io (ctl_of s') = io (ctl_of s) /\
  ((r = None /\ (free_count (pm s) <= 0)%nat /\ log (ctl_of s') = log (ctl_of s)) \/
   exists e sc, log (ctl_of s') = log (ctl_of s) ++ [(Admin, e, sc)] /\ r = if sc =? 0 then Some (lbads_of (ident (ctl_of s))) else None).
Proof.
  intros A Hwf Hid [Hsq Hcq]. destruct (alloc_spec s Hwf) as (a & p1 & E1 & [Hwf1 Hk1 Ha]). unfold identify. rewrite (K_bind_Ok _ _ _ _ _ E1).
  destruct Ha as [(-> & Hc & ->)|(Ha & Hpa & Hna & Hca & Hrel)].
  { right. exists None, (with_pm (pm s) s). split; [done|]. split; [by apply adm_pm|]. split; [by destruct s as [? ? [] ? ?]|]. split; [done|]. split; [done|]. by left. }
  rewrite Ha. unfold zero_page. rewrite K_modify. set (s1 := set_world _ _). set (q := s_adm (drv s)) in *.
  assert (a <> sq q /\ a <> cq q) as [Hn1 Hn2] by (split; intros ->; done). pose proof Hpa as [Pa1 Pa2 _ _]. destruct Hsq as [Ps1 Ps2 _ _]. destruct Hcq as [Pc1 Pc2 _ _].
  assert (adm s1) as A1 by (apply (adm_store (with_pm p1 s)); [by apply adm_pm|]; rewrite blen_zeros by lia; by apply pages_apart).
  set (cmd := identify_cmd a). destruct (with_cid_fields cmd (s_next_cid (drv s1)) ltac:(done)) as (F1 & F2 & F3 & F4 & F5). set (e := enc_sqe (with_cid (s_next_cid (drv s1)) cmd)) in *.
  cbn [cmd identify_cmd command cdw0 nsid prp1 cdw10] in F1, F2, F3, F4. rewrite u64_small in F3 by int_lia.
  assert (forall s2, vm s2 = vm s1 -> in_vm (Vmm.free_page a) s2 = Ok (tt, with_pm (pm s) s2) /\ vm (with_pm (pm s) s2) = vm s) as Hfree.
  { intros s2 Hvm. assert (pm s2 = p1) as Hpm2 by (unfold pm; by rewrite Hvm). split; [rewrite release_spec by (rewrite Hpm2; done); by rewrite Hpm2, Hrel|]. cbn. rewrite Hvm. by destruct s as [? ? [] ? ?]. }
  destruct (admin_cmd_spec cmd s1 A1 Hid) as [(sc & s2 & E2 & A2 & Hlog & Hid2 & (Hvm & Hh) & (Hio & Hrdy & Hq1 & Hq2) & Hfr & Hz & Hzc & Hnz)|(s2 & E2 & [Hslow Hvm Hrd Hc])].
  { fold e. unfold known. rewrite F1, F2, F3, F4, Pa1. done. }
  { fold e. unfold fills. rewrite F1, F3. cbn [NVME_ADM_IDENTIFY Z.eqb Pos.eqb]. by apply pages_apart. }
  all: unfold cmd_identify_ns; fold cmd; rewrite (K_bind_Ok _ _ _ _ _ E2); destruct (Hfree s2 Hvm) as [E3 Hvm2].
  2:{ left. cbn [negb]. rewrite (K_bind_Ok _ _ _ _ _ E3). eexists. split; [done|]. split; [done|exact Hvm2|exact Hrd|exact Hc]. }
  right. fold e in Hlog, Hz, Hzc.
  assert (effect Admin e (world s1).1 (ctl_of s1) = (store (world s1).1 a (ident (ctl_of s)), ctl_of s)) as He by (unfold effect; rewrite F1, F3; done). rewrite He in Hz, Hzc.
  assert (io (ctl_of s2) = io (ctl_of s)) as Hio2 by (destruct (decide (sc = 0)) as [H0|H0]; [apply (Hzc H0)|apply (Hnz H0)]).
  destruct (Z.eqb_spec sc 0) as [H0|H0]; cbn [negb].
  - rewrite K_gets, (K_bind_Ok _ _ _ _ _ E3). eexists _, (with_pm (pm s) s2). split; [done|]. split; [by apply adm_pm|]. split; [done|]. split; [done|]. split; [done|].
    right. exists e, sc. split; [done|]. subst sc. cbn [Z.eqb]. assert (load (world s2).1 a 4096 = ident (ctl_of s)) as ->.
    { rewrite (load_ext _ (store (world s1).1 a (ident (ctl_of s)))); [by apply load_store_eq|]. intros x Hx. apply (Hz eq_refl). unfold in_rings. change (s_adm (drv s1)) with q. lia. }
    unfold lbads_of. change 0x0f with (2 ^ 4 - 1). rewrite land_ones_mod by lia. done.
  - rewrite (K_bind_Ok _ _ _ _ _ E3). eexists None, (with_pm (pm s) s2). split; [done|]. split; [by apply adm_pm|]. split; [done|]. split; [done|]. split; [done|].
    right. exists e, sc. split; [done|]. by replace (sc =? 0) with false by lia.
Qed.

Lemma adm_quiet s : adm s -> quiet Admin (ctl_of s).
Proof. intros (_ & _ & v & Hv & Hs) v' Hv'. cbn in Hv'. rewrite Hv in Hv'. simplify_eq. by rewrite (sy_head _ _ _ Hs), (sy_tail _ _ _ Hs). Qed.

Lemma synced_fresh m a b : a <> b -> a mod 4096 = 0 -> b mod 4096 = 0 -> (forall x, b <= x < b + 4096 -> m x = 0) -> synced m (mk_queue a b 0 0 1) (mk_qv a b 64 64 0 0 0 1).
Proof.
  intros Hne Ha Hb Hz. split; cbn; try done; try lia; [|by apply pages_apart]. intros i Hi. unfold phase_at, ld16. cbn [cq].
  rewrite (load_ext _ (fun _ => 0)); [|intros x Hx; apply Hz; unfold sizeof_cqe in *; lia]. by replace (i <? 0) with false by lia.
Qed.

(** A queue creation command: what the controller knows afterwards. *)
Definition failed (e : qid * list Z * Z) : Prop := e.2 <> 0.

Lemma create_cmd_spec cmd s x : adm s -> blen (ident (ctl_of s)) = 4096 ->
  (cdw0 cmd = 5 /\ cdw11 cmd = 1 \/ cdw0 cmd = 1 /\ cdw11 cmd = 0x10001 /\ is_Some (iocq (ctl_of s))) -> cdw10 cmd = 0x3f0001 -> prp1 cmd = x ->
  0 <= x < 2 ^ 36 -> x mod 4096 = 0 -> x <> cq (s_adm (drv s)) -> cq (s_adm (drv s)) mod 4096 = 0 ->
  (exists s', admin_cmd cmd s = Ok (false, s') /\ stuck s s') \/
  exists sc s', admin_cmd cmd s = Ok (sc =? 0, s') /\ adm s' /\ vm s' = vm s /\ kept s s' /\ (exists e, log (ctl_of s') = log (ctl_of s) ++ [(Admin, e, sc)]) /\
    (forall y, ~ in_rings (s_adm (drv s)) y -> (world s').1 y = (world s).1 y) /\
    (sc = 0 -> if cdw0 cmd =? 5 then iocq (ctl_of s') = Some (x, 64) else io (ctl_of s') = (fun p => mk_qv x p.1 64 p.2 0 0 0 1) <$> iocq (ctl_of s)).
Proof.
  intros A Hid Hcmd H10 Hx Hxr Hxa Hne Hcq. assert (is_u8 (cdw0 cmd)) as H8 by (destruct Hcmd as [[-> _]|[-> _]]; done).
  destruct (with_cid_fields cmd (s_next_cid (drv s)) H8) as (F1 & F2 & F3 & F4 & F5). set (e := enc_sqe (with_cid (s_next_cid (drv s)) cmd)) in *.
  rewrite Hx, u64_small in F3 by int_lia. rewrite H10 in F4. change (u32 0x3f0001) with 0x3f0001 in F4.
  assert ((opcode e =? 6) = false) as E6 by (rewrite F1; destruct Hcmd as [[-> _]|[-> _]]; done).
  destruct (admin_cmd_spec cmd s A Hid) as [(sc & s' & E & A' & Hlog & Hid2 & (Hvm & Hh) & (Hio & Hrdy & Hq1 & Hq2) & Hfr & Hz & Hzc & Hnz)|Hst]; [| |right|by left].
  { fold e. unfold known. rewrite E6, F1, F4, F5. destruct Hcmd as [[-> ->]|(-> & -> & Hi)]; [done|]. cbn -[bool_decide]. by rewrite bool_decide_true. }
  { fold e. unfold fills. rewrite E6, F3. pose proof (pages_apart x _ Hne Hxa Hcq). unfold apart in *. lia. }
  exists sc, s'. split; [done|]. split; [done|]. split; [done|]. split; [done|]. split; [by exists e|]. split.
  - intros y Hy. apply Hfr; [done|]. fold e. unfold fills. rewrite E6. lia.
  - intros Hsc. destruct (Hzc Hsc) as [Hz1 Hz2]. fold e in Hz1, Hz2. unfold effect in Hz1, Hz2. rewrite E6, F1, F3, F4 in Hz1, Hz2. destruct (cdw0 cmd =? 5); done.
Qed.

Lemma create_io_queues_spec s : adm s -> pmm_wf (pm s) -> blen (ident (ctl_of s)) = 4096 -> rings_owned s ->
  exists b s' l, create_io_queues s = Ok (b, s') /\ s_ready (drv s') = s_ready (drv s) /\ log (ctl_of s') = log (ctl_of s) ++ l /\
    ns (ctl_of s') = ns (ctl_of s) /\ (b = true -> running s' /\ quiet Admin (ctl_of s') /\ exists v, io (ctl_of s') = Some v /\ synced (world s').1 (s_io (drv s')) v) /\
    (b = false -> prompt D -> (free_count (pm s) <= 1)%nat \/ Exists failed l).
Proof.
  intros A Hwf Hid [Hsq Hcq]. destruct (alloc_rings_spec s Hwf) as (r & p' & Hwf' & Hk & [(-> & E & Hc)|(a & b & -> & Pa & Pb & Na & Nb & Hne & Hc & E)]); unfold create_io_queues; rewrite (K_bind_Ok _ _ _ _ _ E).
  { exists false, (with_pm p' s), []. split; [done|]. split; [done|]. split; [by rewrite app_nil_r|]. split; [done|]. split; [done|by left]. }
  assert (forall s1 (s2 : st D H), s_ready (drv s1) = s_ready (drv s) -> ns (ctl_of s1) = ns (ctl_of s) -> stuck s1 s2 -> s_ready (drv s2) = s_ready (drv s) /\ log (ctl_of s2) = log (ctl_of s1) /\ ns (ctl_of s2) = ns (ctl_of s) /\ ~ prompt D) as Hgive.
  { intros s1 s2 Hr Hn [Hslow _ Hr2 [Hl2 Hn2]]. split; [by rewrite Hr2|]. split; [done|]. split; [by rewrite Hn2|done]. }
  rewrite K_modify. set (q := s_adm (drv s)) in *. set (s2 := set_drv _ _).
  assert (a <> cq q /\ a <> sq q /\ b <> cq q /\ b <> sq q) as (N1 & N2 & N3 & N4) by (repeat split; intros ->; done).
  destruct Pa as [Pa1 Pa2 _ _], Pb as [Pb1 Pb2 _ _], Hsq as [Ps1 Ps2 _ _], Hcq as [Pc1 Pc2 _ _].
  assert (adm s2) as A2.
  { assert (adm (set_world (store (store (world s).1 a (zeros 4096)) b (zeros 4096), (world s).2) (with_pm p' s))) as (R & Hq & Hv).
    { apply (adm_store (set_world (store (world s).1 a (zeros 4096), (world s).2) (with_pm p' s))); [apply (adm_store (with_pm p' s)); [by apply adm_pm|]|];
        rewrite blen_zeros by lia; by apply pages_apart. }
    split; [by destruct R|done]. }
  destruct (create_cmd_spec (create_iocq_cmd a) s2 a A2 Hid (or_introl (conj eq_refl eq_refl)) eq_refl eq_refl Pa2 Pa1 N1 Pc1) as [(s3 & E3 & Hst)|(sc1 & s3 & E3 & A3 & Hvm3 & K3 & (e3 & L3) & M3 & Z3)].
  { unfold cmd_create_iocq. rewrite (K_bind_Ok _ _ _ _ _ E3). destruct (Hgive s2 s3 eq_refl eq_refl Hst) as (G1 & G2 & G3 & G4). exists false, s3, []. rewrite app_nil_r. done. }
  unfold cmd_create_iocq. rewrite (K_bind_Ok _ _ _ _ _ E3). destruct K3 as (Ki3 & Kr3 & Ks3 & Kc3 & (Kd3 & Kn3) & _).
  destruct (Z.eqb_spec sc1 0) as [H0|H0]; cbn [negb].
  2:{ exists false, s3, [(Admin, e3, sc1)]. repeat (split; [done|]). intros _ _. right. by constructor. }
  specialize (Z3 H0). cbn [create_iocq_cmd command cdw0 NVME_ADM_CREATE_IOCQ Z.eqb Pos.eqb] in Z3. change (s_adm (drv s2)) with q in *.
  destruct (create_cmd_spec (create_iosq_cmd b) s3 b A3) as [(s4 & E4 & Hst)|(sc2 & s4 & E4 & A4 & Hvm4 & K4 & (e4 & L4) & M4 & Z4)]; rewrite ?Kd3, ?Kc3; try done.
  { right. split; [done|]. split; [done|]. by rewrite Z3. }
  { destruct (Hgive s3 s4 Kr3 Kn3 Hst) as (G1 & G2 & G3 & G4). exists false, s4, [(Admin, e3, sc1)]. split; [done|]. split; [done|]. split; [by rewrite G2, L3|]. done. }
  destruct K4 as (Ki4 & Kr4 & _ & _ & (_ & Kn4) & _). exists (sc2 =? 0), s4, [(Admin, e3, sc1); (Admin, e4, sc2)]. split; [done|]. split; [by rewrite Kr4, Kr3|]. split; [rewrite L4, L3, <- app_assoc; done|]. split; [by rewrite Kn4, Kn3|]. split.
  - intros Hz. assert (sc2 = 0) as Hz2 by lia. specialize (Z4 Hz2). cbn [create_iosq_cmd command cdw0 NVME_ADM_CREATE_IOSQ Z.eqb Pos.eqb] in Z4. rewrite Z3 in Z4.
    split; [apply A4|]. split; [by apply adm_quiet|]. eexists. split; [exact Z4|]. rewrite Ki4, Ki3. cbn [s2 drv set_drv set_io s_io fst snd].
    apply synced_fresh; [done|done|done|]. intros x Hx. rewrite M4, M3 by (unfold in_rings; rewrite ?Ks3, ?Kc3; lia). cbn [s2 world set_drv set_world fst].
    unfold store. rewrite !blen_zeros by lia. replace ((b <=? x) && _) with false by (pose proof (pages_apart a b Hne Pa1 Pb1); unfold apart in *; lia).
    replace ((a <=? x) && _) with true by lia. apply zeros_get.
  - intros Hz _. right. apply Exists_cons. right. apply Exists_cons. left. unfold failed. cbn. lia.
Qed.

(** ** The whole initialisation *)

Lemma map_pages_spec t bar0 : forall n pg s, let root := Vmm.active_pml4_phys (vm s) in
  0 <= pg -> pg + Z.of_nat n <= 8 -> Vmm.space_wf (vm s) root -> Vmm.table_at (Vmm.ram (vm s)) root (Vmm.table_part NVME_MMIO_VIRT) = Some t ->
  exists v', map_pages n pg bar0 s = Ok (true, set_vm v' s) /\ Vmm.vpmm v' = pm s.
Proof.
  induction n as [|n IH]; intros pg s root Hpg Hn Hwf Ht; [exists (vm s); split; [by destruct s|done]|].
  assert (Vmm.table_part (u64 (NVME_MMIO_VIRT + pg * 4096)) = Vmm.table_part NVME_MMIO_VIRT) as Etp.
  { assert (pg = 0 \/ pg = 1 \/ pg = 2 \/ pg = 3 \/ pg = 4 \/ pg = 5 \/ pg = 6 \/ pg = 7) as Hc by lia. by destruct Hc as [-> |[-> |[-> |[-> |[-> |[-> |[-> | ->]]]]]]]. }
  destruct (vmm_map_present (vm s) (u64 (NVME_MMIO_VIRT + pg * 4096)) (u64 (bar0 + pg * 4096)) (Vmm.VMM_WRITABLE .| 0x010)%C t Hwf) as (r' & E & Hwf' & Htab); [by rewrite Etp|done|].
  cbn [map_pages]. assert (in_vm (Vmm.vmm_map (u64 (NVME_MMIO_VIRT + pg * 4096)) (u64 (bar0 + pg * 4096)) (Vmm.VMM_WRITABLE .| 0x010)%C) s = Ok (true, set_vm (Vmm.set_ram (vm s) r') s)) as E1 by (unfold in_vm; by rewrite E).
  rewrite (K_bind_Ok _ _ _ _ _ E1). destruct (IH (pg + 1) (set_vm (Vmm.set_ram (vm s) r') s)) as (v' & E2 & Hv'); [lia|lia|done|cbn [vm set_vm Vmm.ram Vmm.set_ram Vmm.active_pml4_phys]; by rewrite Htab by apply Vmm.table_part_path|].
  rewrite (K_bind_Ok _ _ _ _ _ E2). by exists v'.
Qed.

Context {Hhost : PciHost H}.

(** The machine has an NVMe controller at [x] that can master the bus and is not in the middle of a shutdown; the
    kernel's tables reach down to the page table of the region at [NVME_MMIO_VIRT], so that mapping the registers
    there takes no new table; and the stride of the doorbells is at most 8192 bytes, so that all four lie in the
    eight pages that are mapped. *)
Record machine s (x : Z * Z * Z) : Prop := {
  ma_find : find_fn (config (host s)) 0x01 0x08 = Some x;
  ma_master : Z.testbit (writable (bus (to_addr x)) (dev (to_addr x)) (func (to_addr x)) 1) 2 = true;
  ma_space : Vmm.space_wf (vm s) (Vmm.active_pml4_phys (vm s));
  ma_table : exists t, Vmm.table_at (Vmm.ram (vm s)) (Vmm.active_pml4_phys (vm s)) (Vmm.table_part NVME_MMIO_VIRT) = Some t;
  ma_rest : rdy (ctl_of s) = true -> en (ctl_of s) = true;
  ma_stride : stride (ctl_of s) <= 8192;
  ma_ident : blen (ident (ctl_of s)) = 4096 }.

Lemma read_cap_spec s : regs s = true -> reg64 NVME_REG_CAP s = Ok (cap (ctl_of s), s).
Proof.
  intros Hr. pose proof (cap_range (world s).2) as Hc. fold (ctl_of s) in Hc. unfold reg64.
  assert (reg32 NVME_REG_CAP s = Ok (cap (ctl_of s) mod 2 ^ 32, s)) as E1 by (unfold reg32, mapped; rewrite Hr; cbn [andb]; by rewrite (read_cap (world s).2)).
  assert (reg32 (NVME_REG_CAP + 4) s = Ok (cap (ctl_of s) / 2 ^ 32, s)) as E2 by (unfold reg32, mapped; rewrite Hr; cbn [andb]; by rewrite (read_cap_high (world s).2)).
  rewrite (K_bind_Ok _ _ _ _ _ E1), (K_bind_Ok _ _ _ _ _ E2). unfold mret, K_ret. do 2 f_equal. rewrite Z.shiftl_mul_pow2, u64_small by int_lia.
  rewrite Z.lor_comm, lor_add_low by int_lia. lia.
Qed.

Lemma stride_eq c : is_u64 (cap c) -> u32 (Z.shiftl 4 ((cap c .>> 32) .& 0xf)%C) = stride c.
Proof.
  intros Hc. change 0xf with (2 ^ 4 - 1). rewrite land_ones_mod, Z.shiftr_div_pow2 by lia. rewrite Z.shiftl_mul_pow2 by lia. apply u32_small. unfold stride. change (2 ^ 4) with 16.
  assert (2 ^ (cap c / 2 ^ 32 mod 16) < 2 ^ 16) by (apply Z.pow_lt_mono_r; lia). pose proof (stride_pos c). unfold stride in *. int_lia.
Qed.

Lemma timeout_eq c : 50000 <= Z.of_nat (Z.to_nat (u32 (u32 (((c .>> 24) .& 0xff)%C + 1) * 50000))).
Proof. change 0xff with (2 ^ 8 - 1). rewrite land_ones_mod, Z.shiftr_div_pow2 by lia. int_lia. Qed.

Definition why (p : pmm) (id : list Z) (l : list (qid * list Z * Z)) : Prop :=
  (free_count p < 4)%nat \/ lbads_of id <> 9 \/ Exists failed l.

Lemma bring_up_spec n s : regs s = true -> 50000 <= Z.of_nat n -> pmm_wf (pm s) -> en (ctl_of s) = false -> rdy (ctl_of s) = false ->
  s_dstrd (drv s) = stride (ctl_of s) -> stride (ctl_of s) <= 8192 -> blen (ident (ctl_of s)) = 4096 ->
  exists b s' l, bring_up n s = Ok (b, s') /\ log (ctl_of s') = log (ctl_of s) ++ l /\ ns (ctl_of s') = ns (ctl_of s) /\
    (b = true -> ready s') /\ (b = false -> s_ready (drv s') = s_ready (drv s) /\ (prompt D -> why (pm s) (ident (ctl_of s)) l)).
Proof.
  intros Hr Hn Hwf Hen Hrd Hds Hstr Hid. unfold bring_up, why.
  destruct (alloc_rings_spec s Hwf) as (r & p' & Hwf' & Hk & [(-> & E & Hc)|(a & b & -> & Pa & Pb & Na & Nb & Hne & Hc & E)]); rewrite (K_bind_Ok _ _ _ _ _ E).
  { exists false, (with_pm p' s), []. split; [done|]. split; [by rewrite app_nil_r|]. split; [done|]. split; [done|]. split; [done|]. intros _. left. lia. }
  set (s1 := set_world _ _). pose proof Pa as [Pa1 Pa2 _ _]. pose proof Pb as [Pb1 Pb2 _ _].
  destruct (enable_spec n a b s1 Hr Hn Hen Hrd ltac:(int_lia) ltac:(int_lia)) as (ok & d2 & E2 & Hko2 & Hok2). rewrite (K_bind_Ok _ _ _ _ _ E2).
  destruct ok; cbn [negb]; [|destruct (Hko2 eq_refl) as (Hslow & Hl & Hns); exists false; eexists _, []; rewrite app_nil_r; done]. specialize (Hok2 eq_refl). rename Hok2 into Hd2. clear Hko2. set (s2 := set_world _ _).
  assert (ctl_of s2 = view d2) as Ec2 by done. rewrite Hd2 in Ec2. change (ctl_of s1) with (ctl_of s) in Ec2.
  assert (adm s2) as A2.
  { split; [split; rewrite ?Ec2; try done|split; [by rewrite Ec2|]]. eexists. rewrite Ec2. split; [done|]. apply synced_fresh; [done|done|done|].
    intros y Hy. cbn [s2 s1 world set_world fst]. unfold store. rewrite blen_zeros by lia. replace ((b <=? y) && _) with true by lia. apply zeros_get. }
  assert (pm s2 = p') as Hpm2 by done. assert (ident (ctl_of s2) = ident (ctl_of s) /\ ns (ctl_of s2) = ns (ctl_of s) /\ log (ctl_of s2) = log (ctl_of s)) as (Hi2 & Hn2 & Hl2) by (by rewrite Ec2).
  destruct (identify_spec s2 A2) as [(s3 & E3 & [Hslow _ Kr3 [Kl3 Kn3]])|(r3 & s3 & E3 & A3 & Hvm3 & (_ & Kr3 & Ks3 & Kc3 & (Ki3 & Kn3) & _) & Hio3 & Hcase)]; rewrite ?Hpm2, ?Hi2 in *; [done|done|exact (conj Pa Pb)|..].
  { rewrite (K_bind_Ok _ _ _ _ _ E3). exists false, s3, []. rewrite app_nil_r. split; [done|]. split; [by rewrite Kl3|]. split; [by rewrite Kn3|]. done. }
  rewrite (K_bind_Ok _ _ _ _ _ E3). destruct Hcase as [(-> & Hc3 & L3)|(e3 & sc3 & L3 & ->)].
  { exists false, s3, []. split; [done|]. split; [by rewrite app_nil_r, L3|]. split; [by rewrite Kn3|]. split; [done|]. split; [done|]. intros _. left. lia. }
  destruct (Z.eqb_spec sc3 0) as [H0|H0].
  2:{ exists false, s3, [(Admin, e3, sc3)]. split; [done|]. split; [by rewrite L3, Hl2|]. split; [by rewrite Kn3|]. split; [done|]. split; [done|]. intros _. right. right. by constructor. }
  destruct (Z.eqb_spec (lbads_of (ident (ctl_of s))) 9) as [H9|H9]; cbn [negb].
  2:{ exists false, s3, [(Admin, e3, sc3)]. split; [done|]. split; [by rewrite L3, Hl2|]. split; [by rewrite Kn3|]. split; [done|]. split; [done|]. intros _. right. by left. }
  assert (pm s3 = p') as Hpm3 by (unfold pm; by rewrite Hvm3).
  destruct (create_io_queues_spec s3 A3) as (b4 & s4 & l4 & E4 & Kr4 & L4 & Kn4 & Hok & Hko); rewrite ?Hpm3, ?Ki3 in *; [done|done|unfold rings_owned; rewrite Hpm3, Ks3, Kc3; exact (conj Pa Pb)|].
  rewrite (K_bind_Ok _ _ _ _ _ E4). destruct b4; cbn [negb].
  - rewrite K_modify. eexists true, _, ((Admin, e3, sc3) :: l4). split; [done|]. split; [unfold ctl_of in *; cbn [world set_drv]; by rewrite L4, L3, Hl2, <- app_assoc|].
    split; [unfold ctl_of in *; cbn [world set_drv]; by rewrite Kn4, Kn3|]. split; [|done]. intros _. destruct (Hok eq_refl) as (R4 & Q4 & v & Hv & Hs). split; [by destruct R4|done|by exists v|done].
  - exists false, s4, ((Admin, e3, sc3) :: l4). split; [done|]. split; [by rewrite L4, L3, Hl2, <- app_assoc|]. split; [by rewrite Kn4, Kn3|]. split; [done|]. intros _. split; [by rewrite Kr4, Kr3|].
    intros Hp. destruct (Hko eq_refl Hp) as [Hc4|Hf]; [left; lia|]. right. right. by apply Exists_cons; right.
Qed.

(** C28: [nvme_init] with an NVMe controller on the bus, one that can master it and answers an identify command with
    4096 bytes. It is assumed ([machine]) that the kernel's address space is well formed and its tables reach down to
    the page table of the region where the driver maps the registers (the driver does not look at the result of that
    mapping), that the doorbell stride is at most 8192 bytes (with a larger one the doorbells are not mapped,
    [doorbell_not_mapped]), and that the controller is not in the middle of a shutdown (the driver does not wait for
    one to end). The function then never faults, whatever time the controller takes. The namespace holds what it
    held. When the function returns true, the driver and the controller are ready for requests. When it returns
    false, the driver refuses requests as before; and on a controller that follows the enable bit and executes each
    command within 50000 polls ([prompt]), it returns false only if its BAR 0 is 0, if fewer than four pages are
    free, if the namespace has sectors of another size than 512 bytes, or if the controller has failed one of the
    commands. *)
Theorem nvme_init_correct s x : machine s x ->
  exists b s' l, nvme_init s = Ok (b, s') /\ log (ctl_of s') = log (ctl_of s) ++ l /\ ns (ctl_of s') = ns (ctl_of s) /\
    (b = true -> ready s') /\
    (b = false -> s_ready (drv s') = s_ready (drv s) /\ (prompt D -> bar (config (host s)) (to_addr x) 0 = 0 \/ why (pm s) (ident (ctl_of s)) l)).
Proof.
  intros [Hfind Hmaster Hwf [t Ht] Hrest Hstr Hid]. unfold nvme_init.
  destruct (find_device (host s) 0x01 0x08 x 0 Hfind Hmaster ltac:(lia)) as (h1 & h2 & h3 & F1 & Fv & F2 & F3). set (a := to_addr x) in *.
  assert (forall A (m : K H A) r h' s0, m (host s0) = Ok (r, h') -> in_host m s0 = Ok (r, set_host h' s0)) as Hin by (intros A m r h' s0 E; unfold in_host; by rewrite E).
  rewrite (K_bind_Ok _ _ _ _ _ (Hin _ _ _ _ s F1)), Fv. cbn [negb].
  rewrite (K_bind_Ok _ _ _ _ _ (Hin _ _ _ _ (set_host h1 s) F2)), (K_bind_Ok _ _ _ _ _ (Hin _ _ _ _ (set_host h2 (set_host h1 s)) F3)).
  set (s1 := set_host h3 _). destruct (Z.eqb_spec (bar (config (host s)) a 0) 0) as [Hz|_]; [exists false, s1, []; rewrite app_nil_r; split; [done|]; split; [done|]; split; [done|]; split; [done|]; intros _; split; [done|]; by left|].
  destruct (map_pages_spec t (bar (config (host s)) a 0) 8 0 s1 ltac:(lia) ltac:(lia) Hwf Ht) as (v' & E1 & Hv'). change (Z.to_nat NVME_MMIO_PAGES) with 8%nat.
  rewrite (K_bind_Ok _ _ _ _ _ E1), K_modify. set (s2 := set_regs true _). rewrite (K_bind_Ok _ _ _ _ _ (read_cap_spec s2 eq_refl)), K_modify. set (s3 := set_drv _ s2).
  set (n := Z.to_nat _). assert (50000 <= Z.of_nat n) as Hn by apply timeout_eq. destruct (reset_spec n s3 eq_refl Hn Hrest) as (ok & d1 & E3 & (Hcap & Hidd & Hns & Hlog) & Hok1 & Hko1).
  rewrite (K_bind_Ok _ _ _ _ _ E3). set (s4 := set_world _ s3). change (ctl_of s3) with (ctl_of s) in *.
  destruct ok; cbn [negb]; [destruct (Hok1 eq_refl) as [Hen Hrd]|specialize (Hko1 eq_refl); exists false, s4, []; rewrite app_nil_r; done].
  assert (stride (ctl_of s4) = stride (ctl_of s)) as Hst4 by (unfold stride, ctl_of in *; cbn [s4 world set_world snd]; by rewrite Hcap).
  destruct (bring_up_spec n s4 eq_refl Hn) as (b & s' & l & E4 & L4 & N4 & Hok & Hko); rewrite ?Hst4; try done.
  - change (pm s4) with (Vmm.vpmm v'). rewrite Hv'. apply (Vmm.ws_pmm _ _ Hwf).
  - cbn [s4 s3 drv set_world set_drv set_dstrd s_dstrd]. change (ctl_of s2) with (ctl_of s). apply stride_eq, cap_range.
  - unfold ctl_of in *. cbn [s4 world set_world snd]. by rewrite Hidd.
  - assert (pm s4 = pm s) as Hpm4 by (exact Hv'). assert (ctl_of s4 = view d1) as Ec4 by done. rewrite Hpm4, Ec4, Hidd in Hko. rewrite Ec4, Hns in N4. rewrite Ec4, Hlog in L4.
    exists b, s', l. repeat (split; [done|]). intros Hb. destruct (Hko Hb) as [Hr Hw]. by auto.
Qed.

End proofs.

(** ** A controller

    It follows the specification at once: every [run] executes the next command, if it is one of the contract's,
    or follows the enable bit. *)
Definition CAP : Z := 0x0000000200ff003f.
Definition demo_view (d : ctl) : ctl := mk_ctl CAP (cc d) (rdy d) (aqa d) (asq d) (acq d) (admin d) (iocq d) (io d) (ident d) (ns d) (log d).

Definition waiting (v : qview) : bool := negb (q_head v =? q_tail v) && ((q_phase v =? 0) || (q_phase v =? 1)).
Definition pick (id : qid) (c : ctl) : option (qid * qview) := v ← queue_of id c; if waiting v then Some (id, v) else None.
Definition next_queue (c : ctl) : option (qid * qview) := match pick Admin c with Some x => Some x | None => pick Io c end.

Definition demo_run (x : mem * ctl) : mem * ctl :=
  let '(m, d) := x in let c := demo_view d in
  if negb (eqb (rdy c) (en c)) then (m, set_rdy (en c) c)
  else if negb (en c) then (m, c)
  else match next_queue c with
  | None => (m, c)
  | Some (id, v) =>
      let cmd := load m (q_sq v + sizeof_sqe * q_head v) 64 in
      let '(sc, (m', c')) := if known id cmd c then (0, effect id cmd m c) else (1, (m, c)) in
      let cqe := zeros 12 ++ slice cmd 2 2 ++ le_bytes 2 (2 * sc + q_phase v) in
      (store m' (q_cq v + sizeof_cqe * q_ctail v) cqe, add_log (id, cmd, sc) (set_queue id (Some (advance v)) c'))
  end.

#[export] Instance demo_mmio : Mmio ctl := {
  reg_read off d := if off =? 0 then CAP mod 2 ^ 32 else if off =? 4 then CAP / 2 ^ 32 else if off =? 0x14 then cc d else if off =? 0x1c then (if rdy d then 1 else 0) else 0;
  reg_write off v d := default d (on_write off v (demo_view d));
  run := demo_run }.

Lemma pick_queue id c id' v : pick id c = Some (id', v) -> queue_of id' c = Some v /\ waiting v = true.
Proof. unfold pick. destruct (queue_of id c) as [w|] eqn:E; [|done]. cbn. destruct (waiting w) eqn:Ew; [|done]. intros [= <- <-]. done. Qed.

Lemma next_queue_some c id v : next_queue c = Some (id, v) -> queue_of id c = Some v /\ waiting v = true.
Proof. unfold next_queue. destruct (pick Admin c) as [x|] eqn:E; [intros [= ->]|intros E']; eauto using pick_queue. Qed.

Lemma next_queue_none c id v : next_queue c = None -> queue_of id c = Some v -> waiting v = false.
Proof.
  unfold next_queue. destruct (pick Admin c) eqn:E; [done|]. intros E' Hq. destruct id; [clear E'|clear E; rename E' into E]; unfold pick in E; rewrite Hq in E; cbn in E; by destruct (waiting v).
Qed.

Lemma demo_exec id cmd m c sc m' c' : (if known id cmd c then (0, effect id cmd m c) else (1, (m, c))) = (sc, (m', c')) ->
  exec id cmd m c sc m' c' /\ 0 <= sc < 2 ^ 15 /\ cap c' = cap c /\ log c' = log c.
Proof.
  destruct (known id cmd c) eqn:Ek; intros [= <- E].
  - split; [by constructor|]. split; [lia|]. unfold effect in E. destruct id; repeat case_match; by simplify_eq.
  - simplify_eq. split; [by constructor|]. split; [lia|done].
Qed.

Lemma demo_view_id c : cap c = CAP -> demo_view c = c.
Proof. intros E. destruct c. cbn in E. by subst. Qed.

Lemma demo_cqe cmd w : blen cmd = 64 -> is_u16 w -> let cqe := zeros 12 ++ slice cmd 2 2 ++ le_bytes 2 w in blen cqe = sizeof_cqe /\ rd16 cqe 12 = rd16 cmd 2 /\ rd16 cqe 14 = w.
Proof.
  intros Hc Hw cqe. assert (blen (zeros 12) = 12) as Hz by done. assert (blen (slice cmd 2 2) = 2) as Hs by (apply blen_slice; lia). unfold cqe. split; [|split].
  - by rewrite !blen_app, Hz, Hs, blen_le_bytes.
  - unfold rd16. rewrite slice_app_skip by lia. rewrite Hz. rewrite slice_app_l by lia. by rewrite slice_all.
  - unfold rd16. rewrite slice_app_skip by lia. rewrite Hz. rewrite slice_app_skip by lia. rewrite Hs. change (14 - 12 - 2) with 0. rewrite slice_all by (by rewrite blen_le_bytes).
    rewrite le_val_bytes. change (256 ^ Z.of_nat 2) with (2 ^ 16). int_lia.
Qed.

Lemma demo_run_step m d : step (m, demo_view d) ((demo_run (m, d)).1, demo_view (demo_run (m, d)).2).
Proof.
  unfold demo_run. set (c := demo_view d). assert (forall x, demo_view x = x -> demo_view x = x) as _ by done.
  destruct (negb (eqb (rdy c) (en c))) eqn:E1; [cbn [fst snd]; rewrite demo_view_id by done; constructor|].
  destruct (negb (en c)) eqn:E2; [cbn [fst snd]; rewrite demo_view_id by done; constructor|].
  destruct (next_queue c) as [[id v]|] eqn:E3; [|cbn [fst snd]; rewrite demo_view_id by done; constructor].
  apply next_queue_some in E3 as [Hq Hw]. set (cmd := load m _ 64). destruct (if known id cmd c then _ else _) as [sc [m' c']] eqn:Ex.
  apply demo_exec in Ex as (Hx & Hsc & Hcap & _). cbn [fst snd]. rewrite demo_view_id by (by destruct id; cbn; rewrite Hcap).
  apply negb_false_iff in E1, E2. apply eqb_prop in E1. unfold waiting in Hw. apply andb_prop in Hw as [Hw1 Hw2]. assert (q_phase v = 0 \/ q_phase v = 1) as Hph by lia. clear Hw2.
  destruct (demo_cqe cmd (2 * sc + q_phase v)) as (B1 & B2 & B3); [by apply blen_load|int_lia|]. econstructor; try done; [congruence|lia].
Qed.

#[export] Instance demo_controller : NvmeController ctl.
Proof.
  refine (Build_NvmeController ctl _ demo_view _ _ _ _ _ _ _); try done.
  - intros d. cbn. by destruct (rdy d).
  - intros off v d c' E. cbn. rewrite E. cbn. apply demo_view_id.
    unfold on_write, write_cc, new_tail, set_queue, set_bases in E. repeat (case_match; simplify_eq; try done).
  - intros m d. apply demo_run_step.
Defined.

Lemma demo_prompt : prompt ctl.
Proof.
  intros [m d]. cbn [snd]. split.
  - intros (id & v & He & Hr & Hq & Hne & Hph). exists 0%nat. split; [lia|]. change (Nat.iter 1 run (m, d)) with (demo_run (m, d)). change (view d) with (demo_view d) in *. unfold demo_run.
    set (c := demo_view d) in *. rewrite Hr, He. cbn [eqb negb]. destruct (next_queue c) as [[id' v']|] eqn:E.
    + destruct (if known _ _ _ then _ else _) as [sc [m' c']] eqn:Ex. apply demo_exec in Ex as (_ & _ & _ & Hlog).
      assert (forall x y, length (log x) = length (log y) -> (length (log x) < length (log (add_log (id', load m (q_sq v' + sizeof_sqe * q_head v') 64, sc) y)))%nat) as Hadd.
      { intros x y E'. cbn. rewrite length_app. cbn. lia. }
      apply (Hadd c (set_queue id' (Some (advance v')) c')). rewrite <- Hlog. by destruct id'.
    + exfalso. pose proof (next_queue_none c id v E Hq) as Hw. unfold waiting in Hw. lia.
  - intros Hne. exists 0%nat. split; [lia|]. change (Nat.iter 1 run (m, d)) with (demo_run (m, d)). change (view d) with (demo_view d) in *. unfold demo_run. set (c := demo_view d) in *.
    destruct (rdy c), (en c) eqn:He; try done; cbn; by rewrite He.
Qed.

(** A driver at the last slot of both rings, on a namespace of two sectors. *)
Definition demo_mem : mem := fun x => if (0x2000 <=? x) && (x <? 0x2000 + 16 * 63) && (x mod 16 =? 14) then 1 else 0.
Definition demo_ctl : ctl :=
  mk_ctl CAP 0x460001 true 0x3f003f 0x3000 0x4000 (Some (mk_qv 0x3000 0x4000 64 64 5 5 5 1)) (Some (0x2000, 64)) (Some (mk_qv 0x1000 0x2000 64 64 63 63 63 1))
    (zeros 4096) (replicate 512 7 ++ replicate 512 9) [].
Definition demo_drv : nvme := mk_nvme 16 (mk_queue 0x3000 0x4000 5 5 1) (mk_queue 0x1000 0x2000 63 63 1) 0xffff true.
Definition demo_st : st ctl bridge := mk_st demo_drv true Vmm.empty_machine demo_bridge (demo_mem, demo_ctl).
Definition demo_buf (p : Z) : Z := 0xffff800000000000 + p.

Lemma demo_synced : synced demo_mem (mk_queue 0x1000 0x2000 63 63 1) (mk_qv 0x1000 0x2000 64 64 63 63 63 1).
Proof.
  split; cbn; try done; try lia; [|unfold apart; lia]. intros i Hi.
  assert (forallb (fun i => phase_at demo_mem (mk_queue 0x1000 0x2000 63 63 1) i =? (if i <? 63 then 1 else 0)) (seqZ 0 64) = true) as Hc by (vm_compute; reflexivity).
  rewrite forallb_forall in Hc. specialize (Hc i). rewrite <- list_elem_of_In, elem_of_seqZ in Hc. apply Z.eqb_eq. by apply Hc.
Qed.

Lemma demo_ready : ready demo_st.
Proof.
  split; [by split|done| |].
  - eexists. split; [done|]. exact demo_synced.
  - intros v [= <-]. done.
Qed.

Lemma demo_buffer p n : p = 0x5000 \/ p = 0x6000 -> 1 <= n <= 2 -> buf_phys demo_st (demo_buf p) = p /\ buffer_ok demo_st p n.
Proof. intros [-> | ->] Hn; (split; [done|]); unfold buffer_ok, apart; cbn; lia. Qed.

Lemma nvme_write_read_witness : exists b1 s1, nvme_write_sectors 0 2 (demo_buf 0x5000) demo_st = Ok (b1, s1) /\ ready s1 /\
  exists b2 s2, nvme_read_sectors 0 2 (demo_buf 0x6000) s1 = Ok (b2, s2) /\ ready s2 /\
  (b1 = true -> b2 = true -> load (world s2).1 0x6000 1024 = load demo_mem 0x5000 1024).
Proof.
  destruct (demo_buffer 0x5000 2 (or_introl eq_refl) ltac:(lia)) as [E B]. destruct (demo_buffer 0x6000 2 (or_intror eq_refl) ltac:(lia)) as [E' B'].
  destruct (nvme_write_read demo_st 0 2 (demo_buf 0x5000) (demo_buf 0x6000) demo_ready) as (b1 & s1 & E1 & _ & H1); [done|lia|by vm_compute|by rewrite E|by rewrite E'|].
  exists b1, s1. split; [exact E1|]. destruct (H1 (or_intror demo_prompt)) as (R1 & b2 & s2 & E2 & R2 & _ & Hl). split; [exact R1|].
  exists b2, s2. split; [exact E2|]. split; [exact (R2 (or_intror demo_prompt))|]. rewrite E, E' in Hl. exact Hl.
Defined.

(** A machine whose page tables reach the region of the registers, with five free pages, and whose controller is
    at 0:4.0 and off. *)
Definition demo_ram : Vmm.ram_t := fun a =>
  if a =? 0x200000 + 8 * 320 then 0x201003 else if a =? 0x201000 then 0x202003 else if a =? 0x202000 then 0x203003 else 0.
Definition five_free : pmm := release_page (release_page Vmm.three_free 259) 260.
Definition demo_vm : Vmm.vmm := Vmm.mk_vmm 0x200000 0xffff800000000000 OS_EARLY_DIRECT_MAP_SIZE demo_ram five_free.
Definition nvme_bridge : bridge := mk_bridge 0 (fun b d f r =>
  match b, d, f, r with 0, 4, 0, 0 => 0x00101b36 | 0, 4, 0, 1 => 0 | 0, 4, 0, 2 => 0x01080200 | 0, 4, 0, 3 => 0 | 0, 4, 0, 4 => 0xfe000004 | 0, 4, 0, 5 => 0xc0 | _, _, _, _ => 0xffffffff end).
Definition demo_ident : list Z := put (zeros 4096) 130 [9].
Definition off_ctl : ctl := mk_ctl CAP 0 false 0 0 0 None None None demo_ident (replicate 512 7 ++ replicate 512 9) [].
Definition off_st : st ctl bridge := mk_st (mk_nvme 0 (mk_queue 0 0 0 0 0) (mk_queue 0 0 0 0 0) 0 false) false demo_vm nvme_bridge ((fun _ => 0), off_ctl).

Lemma five_free_facts : pmm_wf five_free /\ forall q, page_free five_free q <-> q = 256 \/ q = 257 \/ q = 258 \/ q = 259 \/ q = 260.
Proof.
  destruct Vmm.three_free_facts as [W F].
  assert (forall st p, pmm_wf st -> valid_page p -> ~ page_free st p -> pmm_wf (release_page st p) /\ forall q, page_free (release_page st p) q <-> page_free st q \/ q = p) as Hrel.
  { intros st p Hwf Hp Hnf. split; [|intros q; by apply page_free_release]. apply release_page_wf; [done|done|]. destruct (bitmap_test st p) eqn:E; [done|]. by destruct Hnf. }
  destruct (Hrel _ 259 W) as [W1 F1]; [pmm_lia|rewrite F; lia|]. destruct (Hrel _ 260 W1) as [W2 F2]; [pmm_lia|rewrite F1, F; lia|].
  split; [exact W2|]. intros q. unfold five_free. rewrite F2, F1, F. tauto.
Qed.

Lemma demo_tables p t : Vmm.table_path p -> Vmm.table_at demo_ram 0x200000 p = Some t ->
  (p = [] /\ t = 0x200000) \/ (p = [320] /\ t = 0x201000) \/ (p = [320; 0] /\ t = 0x202000) \/ (p = [320; 0; 0] /\ t = 0x203000).
Proof.
  intros [Hf Hl] Ht. assert (forall a i, Vmm.present (demo_ram (a + 8 * i)) = true -> a + 8 * i = 0x200000 + 8 * 320 \/ a + 8 * i = 0x201000 \/ a + 8 * i = 0x202000) as Hp.
  { intros a i Hp. unfold demo_ram in Hp. repeat (case_match; [lia|]). done. }
  destruct p as [|i [|j [|k [|]]]]; cbn [Vmm.table_at] in Ht; [left; split; congruence|..|cbn in Hl; lia]; rewrite !Forall_cons in Hf; unfold Vmm.index_ok in Hf.
  all: destruct (Vmm.present (demo_ram (_ + 8 * i))) eqn:E1; [|done]; apply Hp in E1; assert (i = 320) as -> by lia; change (Vmm.masked (demo_ram (0x200000 + 8 * 320))) with 0x201000 in Ht; cbn [andb negb] in Ht.
  all: change (Vmm.large (demo_ram (0x200000 + 8 * 320))) with false in Ht; cbn [negb] in Ht; cbn iota in Ht; try (right; left; split; congruence).
  all: destruct (Vmm.present (demo_ram (_ + 8 * j))) eqn:E2; [|done]; apply Hp in E2; assert (j = 0) as -> by lia; change (Vmm.masked (demo_ram (0x201000 + 8 * 0))) with 0x202000 in Ht;
    change (Vmm.large (demo_ram (0x201000 + 8 * 0))) with false in Ht; cbn [andb negb] in Ht; cbn iota in Ht; try (right; right; left; split; congruence).
  destruct (Vmm.present (demo_ram (_ + 8 * k))) eqn:E3; [|done]; apply Hp in E3; assert (k = 0) as -> by lia; change (Vmm.masked (demo_ram (0x202000 + 8 * 0))) with 0x203000 in Ht;
    change (Vmm.large (demo_ram (0x202000 + 8 * 0))) with false in Ht; cbn [andb negb] in Ht; cbn iota in Ht. right; right; right; split; congruence.
Qed.

Lemma demo_space : Vmm.space_wf demo_vm 0x200000.
Proof.
  destruct five_free_facts as [W F]. split; cbn [Vmm.vpmm Vmm.ram demo_vm Vmm.vdirect_map_size].
  - exact W.
  - done.
  - intros p t Hp Ht. apply demo_tables in Ht; [|done]. rewrite F. unfold Vmm.frame_ok. cbn [Vmm.vdirect_map_size demo_vm]. unfold OS_PAGE_SIZE, OS_EARLY_DIRECT_MAP_SIZE. destruct Ht as [[_ ->]|[[_ ->]|[[_ ->]|[_ ->]]]]; split; done || lia.
  - intros p q t Hp Hq Ht Hu. apply demo_tables in Ht, Hu; try done. destruct Ht as [[-> ->]|[[-> ->]|[[-> ->]|[-> ->]]]], Hu as [[-> Hx]|[[-> Hx]|[[-> Hx]|[-> Hx]]]]; try done; lia.
  - intros i Hi. unfold demo_ram. repeat (case_match; [done|]). done.
Qed.

Lemma demo_machine : machine off_st (0, 4, 0).
Proof.
  split; [vm_compute; reflexivity|done|exact demo_space|by exists 0x203000|done|done|done].
Qed.

Lemma nvme_init_correct_witness : exists b s', nvme_init off_st = Ok (b, s') /\ (b = true -> ready s').
Proof. destruct (nvme_init_correct off_st (0, 4, 0) demo_machine) as (b & s' & l & E & _ & _ & Hr & _). exists b, s'. split; [exact E|exact Hr]. Defined.

(** ** Defects *)

(** A controller that does nothing. *)
#[local] Instance idle_mmio : Mmio unit := { reg_read _ _ := 0; reg_write _ _ d := d; run x := x }.

(** After a request that timed out, its completion has arrived. The next request, a read, takes that completion for its
    own, since the driver compares no command identifiers: it reports success before the controller has looked
    at the command, and the buffer is as it was. *)
Definition late_mem : mem := store (fun _ => 0) 0x2000 (zeros 12 ++ [0; 0; 1; 0]).
Definition late_st : st unit bridge :=
  mk_st (mk_nvme 4 (mk_queue 0x3000 0x4000 5 5 1) (mk_queue 0x1000 0x2000 1 0 1) 7 true) true Vmm.empty_machine demo_bridge (late_mem, tt).

Example late_completion_is_mistaken :
  match nvme_read_sectors 1 1 (demo_buf 0x5000) late_st with Ok (b, s) => b = true /\ load (world s).1 0x5000 8 = zeros 8 | Panic _ => False end.
Proof. vm_compute. split; reflexivity. Qed.

(** The eight pages do not hold the doorbells of a controller whose stride is more than 8192 bytes. *)
Example doorbell_not_mapped :
  doorbell 2 1 (mk_st (mk_nvme (4 * 2 ^ 13) (mk_queue 0x3000 0x4000 5 5 1) (mk_queue 0x1000 0x2000 1 0 1) 7 true) true Vmm.empty_machine demo_bridge (late_mem, tt)) = Panic FAULT.
Proof. vm_compute. reflexivity. Qed.

End Nvme.
