(* ===== verification/Ahci.v ===== *)
(** * The AHCI driver (kernel/drivers/ahci.c)

    The driver's ports, commands and initialisation, with the physical memory it shares with the host bus
    adapter. The adapter is a parameter: [AhciHba] states what the AHCI specification promises, as a transition
    system on its ports and their disks. *)

From S2P Require Import Prelude Bytes Pmm Vmm Hw Pci.
Import Pmm Hw Pci.

Module Ahci.
Local Open Scope c_scope.

Definition AHCI_GHC_AE : Z := 2 ^ 31.
Definition AHCI_PxCMD_ST : Z := 2 ^ 0.
Definition AHCI_PxCMD_FRE : Z := 2 ^ 4.
Definition AHCI_PxCMD_FR : Z := 2 ^ 14.
Definition AHCI_PxCMD_CR : Z := 2 ^ 15.
Definition AHCI_PxTFD_BSY : Z := 2 ^ 7.
Definition AHCI_PxTFD_DRQ : Z := 2 ^ 3.
Definition AHCI_PxTFD_ERR : Z := 2 ^ 0.
Definition AHCI_PxSSTS_DET_MASK : Z := 0xf.
Definition AHCI_PxSSTS_DET_PRES : Z := 3.
Definition AHCI_PxSSTS_IPM_SHIFT : Z := 8.
Definition AHCI_PxSSTS_IPM_ACTIVE : Z := 1.
Definition AHCI_SIG_ATA : Z := 0x00000101.
Definition FIS_TYPE_H2D : Z := 0x27.
Definition ATA_CMD_READ_DMA_EXT : Z := 0x25.
Definition ATA_CMD_WRITE_DMA_EXT : Z := 0x35.
Definition MAX_PORTS : Z := 32.

(** The offsets of the registers of [ahci_hba_t], and of [ahci_port_regs_t] in port [i]. *)
Definition GHC : Z := 0x04.
Definition PI : Z := 0x0c.
Definition port_reg (i off : Z) : Z := 0x100 + 0x80 * i + off.
Definition CLBA : Z := 0x00.
Definition CLBAU : Z := 0x04.
Definition FB : Z := 0x08.
Definition FBU : Z := 0x0c.
Definition IS : Z := 0x10.
Definition IE : Z := 0x14.
Definition CMD : Z := 0x18.
Definition TFD : Z := 0x20.
Definition SIG : Z := 0x24.
Definition SSTS : Z := 0x28.
Definition SERR : Z := 0x30.
Definition CI : Z := 0x38.

(** [struct port_state]; the pointers are the physical addresses they stand for. *)
Record port_state := mk_port { present : bool; cmd_list : Z; fis_buf : Z; cmd_table : Z }.
Definition no_port : port_state := mk_port false 0 0 0.

Definition RANGE : string := "access past the end of s_ports".
Definition FAULT : string := "page fault on the registers".
Definition sizeof_ahci_hba : Z := 0x1100.

Section driver.
Context {D H : Type} `{Mmio D} `{PciPorts H}.

Record st := mk_st { s_ports : list port_state; s_first_disk : Z; vm : Vmm.vmm; host : H; world : mem * D }.
Definition set_ports v s := mk_st v (s_first_disk s) (vm s) (host s) (world s).
Definition set_first v s := mk_st (s_ports s) v (vm s) (host s) (world s).
Definition set_vm v s := mk_st (s_ports s) (s_first_disk s) v (host s) (world s).
Definition set_host v s := mk_st (s_ports s) (s_first_disk s) (vm s) v (world s).
Definition set_world v s := mk_st (s_ports s) (s_first_disk s) (vm s) (host s) v.

Definition in_vm {A} (m : K Vmm.vmm A) : K st A := fun s =>
  match m (vm s) with Ok (a, v) => Ok (a, set_vm v s) | Panic e => Panic e end.
Definition in_host {A} (m : K H A) : K st A := fun s =>
  match m (host s) with Ok (a, h) => Ok (a, set_host h s) | Panic e => Panic e end.

Definition read (off : Z) : K st Z := gets (fun s => reg_read off (world s).2).
Definition write (off v : Z) : K st unit := modify (fun s => set_world ((world s).1, reg_write off v (world s).2) s).
Definition wait : K st unit := modify (fun s => set_world (run (world s)) s).
Definition put_mem (a : Z) (bs : list Z) : K st unit := modify (fun s => set_world (store (world s).1 a bs, (world s).2) s).

(** ** Ports *)

(** [for (i = 0; i < n; ++i) if (!(p->cmd & mask)) break;] *)
Fixpoint wait_clear (n : nat) (i mask : Z) : K st unit :=
  match n with
  | O => mret tt
  | S n' => _ ← wait; c ← read (port_reg i CMD); if (c .& mask)%C =? 0 then mret tt else wait_clear n' i mask
  end.

Definition port_stop (i : Z) : K st unit :=
  c ← read (port_reg i CMD);
  _ ← write (port_reg i CMD) (Z.ldiff c (AHCI_PxCMD_ST .| AHCI_PxCMD_FRE)%C);
  wait_clear (Z.to_nat 50000) i (AHCI_PxCMD_FR .| AHCI_PxCMD_CR)%C.

Definition port_start (i : Z) : K st unit :=
  _ ← wait_clear (Z.to_nat 50000) i AHCI_PxCMD_CR;
  c ← read (port_reg i CMD);
  _ ← write (port_reg i CMD) (c .| AHCI_PxCMD_FRE)%C;
  c ← read (port_reg i CMD);
  write (port_reg i CMD) (c .| AHCI_PxCMD_ST)%C.

Definition port_is_present (i : Z) : K st bool :=
  s1 ← read (port_reg i SSTS);
  let det := (s1 .& AHCI_PxSSTS_DET_MASK)%C in
  s2 ← read (port_reg i SSTS);
  let ipm := ((s2 .>> AHCI_PxSSTS_IPM_SHIFT) .& 0xf)%C in
  mret ((det =? AHCI_PxSSTS_DET_PRES) && (ipm =? AHCI_PxSSTS_IPM_ACTIVE)).

(** Three pages, for the command list, the received FIS and the command table, or none. *)
Definition alloc_three : K st (option (Z * Z * Z)) :=
  cl ← in_vm Vmm.alloc_page;
  if cl =? PMM_ALLOC_FAILED then mret None else
  _ ← put_mem cl (zeros 4096);
  fis ← in_vm Vmm.alloc_page;
  if fis =? PMM_ALLOC_FAILED then _ ← in_vm (Vmm.free_page cl); mret None else
  _ ← put_mem fis (zeros 4096);
  ct ← in_vm Vmm.alloc_page;
  if ct =? PMM_ALLOC_FAILED then _ ← in_vm (Vmm.free_page cl); _ ← in_vm (Vmm.free_page fis); mret None else
  _ ← put_mem ct (zeros 4096);
  mret (Some (cl, fis, ct)).

Definition set_port (i : Z) (p : port_state) : K st unit := modify (fun s => set_ports (aset (s_ports s) i p) s).

(** Where the structures of the port are; its errors and interrupts are cleared. *)
Definition set_bases (i cl fis : Z) : K st unit :=
  _ ← write (port_reg i CLBA) (cl .& 0xffffffff)%C;
  _ ← write (port_reg i CLBAU) (u32 (cl .>> 32)%C);
  _ ← write (port_reg i FB) (fis .& 0xffffffff)%C;
  _ ← write (port_reg i FBU) (u32 (fis .>> 32)%C);
  _ ← write (port_reg i IS) 0xffffffff;
  _ ← write (port_reg i SERR) 0xffffffff;
  write (port_reg i IE) 0.

Definition port_init (i : Z) : K st bool :=
  b ← port_is_present i;
  if negb b then mret false else
  sig ← read (port_reg i SIG);
  if negb (sig =? AHCI_SIG_ATA) then mret false else
  _ ← port_stop i;
  r ← alloc_three;
  match r with
  | None => mret false
  | Some (cl, fis, ct) =>
      _ ← put_mem (cl + 8) (le_bytes 4 (ct .& 0xffffffff)%C);
      _ ← put_mem (cl + 12) (le_bytes 4 (u32 (ct .>> 32)%C));
      _ ← set_bases i cl fis;
      _ ← set_port i (mk_port true cl fis ct);
      _ ← port_start i;
      mret true
  end.

Fixpoint init_ports (n : nat) (i pi : Z) (found : bool) : K st bool :=
  match n with
  | O => mret found
  | S n' =>
      if (pi .& Z.shiftl 1 i)%C =? 0 then init_ports n' (i + 1) pi found else
      b ← port_init i;
      if (b : bool) then
        _ ← modify (fun s => if s_first_disk s <? 0 then set_first i s else s);
        init_ports n' (i + 1) pi true
      else init_ports n' (i + 1) pi found
  end.

(** The registers are reached through the direct map, without a mapping of their own. *)
Definition ahci_init : K st bool :=
  addr ← in_host (pci_find_class 0x01 0x06);
  if negb (valid addr) then mret false else
  _ ← in_host (pci_enable_busmaster addr);
  abar_phys ← in_host (pci_read_bar addr 5);
  if abar_phys =? 0 then mret false else
  size ← gets (fun s => Vmm.vdirect_map_size (vm s));
  if size <? abar_phys + sizeof_ahci_hba then panic FAULT else
  ghc ← read GHC;
  _ ← write GHC (ghc .| AHCI_GHC_AE)%C;
  pi ← read PI;
  init_ports (Z.to_nat MAX_PORTS) 0 pi false.

Definition ahci_first_disk (s : st) : Z := s_first_disk s.

(** ** Commands *)

(** The command FIS, the entry of the region table and the first half of the command header. *)
Definition h2d_fis (command lba count : Z) : list Z :=
  [FIS_TYPE_H2D; 0x80; command; 0; u8 lba; u8 (lba .>> 8)%C; u8 (lba .>> 16)%C; 0x40;
   u8 (lba .>> 24)%C; u8 (lba .>> 32)%C; u8 (lba .>> 40)%C; 0; u8 count; u8 (count .>> 8)%C; 0; 0] ++ zeros 48.
Definition prd (buf_phys byte_count : Z) : list Z :=
  le_bytes 4 (buf_phys .& 0xffffffff)%C ++ le_bytes 4 (u32 (buf_phys .>> 32)%C) ++ le_bytes 4 0 ++ le_bytes 4 ((byte_count - 1) .& 0x3fffff)%C.
Definition cmd_header (w : Z) : list Z := le_bytes 2 (5 .| Z.shiftl w 6)%C ++ le_bytes 2 1 ++ le_bytes 4 0.

Fixpoint poll (n : nat) (i : Z) : K st bool :=
  match n with
  | O => mret false
  | S n' =>
      _ ← wait; ci ← read (port_reg i CI);
      if (ci .& 1)%C =? 0 then
        _ ← wait; is_ ← read (port_reg i IS); mret ((is_ .& Z.shiftl 1 30)%C =? 0)
      else
        _ ← wait; tfd ← read (port_reg i TFD);
        if negb ((tfd .& AHCI_PxTFD_ERR)%C =? 0) then mret false else poll n' i
  end.

Definition POLLS : nat := Z.to_nat 1000000.

(** The body of [ahci_read_sectors] ([w = 0]) and of [ahci_write_sectors] ([w = 1]). *)
Definition transfer (w command i lba count buf : Z) : K st bool :=
  ps ← gets s_ports;
  if Z.of_nat (length ps) <=? i then panic RANGE else
  let p := aget no_port ps i in
  if negb (present p) then mret false else
  if (count =? 0) || (8 <? count) then mret false else
  tfd ← read (port_reg i TFD);
  if negb ((tfd .& (AHCI_PxTFD_BSY .| AHCI_PxTFD_DRQ))%C =? 0) then mret false else
  base ← gets (fun s => Vmm.vdirect_map (vm s));
  let buf_phys := u64 (buf - base) in
  let byte_count := count * 512 in
  _ ← put_mem (cmd_table p + 128) (prd buf_phys byte_count);
  _ ← put_mem (cmd_table p) (h2d_fis command lba count);
  _ ← put_mem (cmd_list p) (cmd_header w);
  _ ← write (port_reg i IS) 0xffffffff;
  _ ← write (port_reg i CI) 1;
  poll POLLS i.

Definition ahci_read_sectors (port lba count buf : Z) : K st bool := transfer 0 ATA_CMD_READ_DMA_EXT port lba count buf.
Definition ahci_write_sectors (port lba count buf : Z) : K st bool := transfer 1 ATA_CMD_WRITE_DMA_EXT port lba count buf.

End driver.

Arguments st : clear implicits.

(** ** What the adapter promises

    The state of one port: its registers, the disk behind it, and the commands it has executed, each with
    whether it succeeded. *)
Record pview := mk_pv {
  clb : Z; fb : Z; pcmd : Z; ci : Z; pis : Z; tfd : Z; sig : Z; ssts : Z; disk : list Z; log : list (list Z * bool) }.

Definition set_clb v p := mk_pv v (fb p) (pcmd p) (ci p) (pis p) (tfd p) (sig p) (ssts p) (disk p) (log p).
Definition set_fb v p := mk_pv (clb p) v (pcmd p) (ci p) (pis p) (tfd p) (sig p) (ssts p) (disk p) (log p).
Definition set_cmd v c p := mk_pv (clb p) (fb p) v c (pis p) (tfd p) (sig p) (ssts p) (disk p) (log p).
Definition set_ci v p := mk_pv (clb p) (fb p) (pcmd p) v (pis p) (tfd p) (sig p) (ssts p) (disk p) (log p).
Definition set_is v p := mk_pv (clb p) (fb p) (pcmd p) (ci p) v (tfd p) (sig p) (ssts p) (disk p) (log p).
Definition set_tfd v p := mk_pv (clb p) (fb p) (pcmd p) (ci p) (pis p) v (sig p) (ssts p) (disk p) (log p).
Definition finish (c i t : Z) (d : list Z) (e : list Z * bool) p := mk_pv (clb p) (fb p) (pcmd p) c i t (sig p) (ssts p) d (log p ++ [e]).

Definition started (p : pview) : bool := Z.testbit (pcmd p) 0.
(** The bits of [PxCMD] that report that the port's engines run. *)
Definition running_bits : Z := 2 ^ 14 + 2 ^ 15.

(** The effect of a write to register [off] of the port, for those the driver writes. [PxCMD] keeps its running
    bits, and the commands are dropped when the port is stopped; a one written to [PxIS] clears the bit. *)
Definition on_write (off v : Z) (p : pview) : option pview :=
  if off =? CLBA then Some (set_clb (clb p / 2 ^ 32 * 2 ^ 32 + v) p)
  else if off =? CLBAU then Some (set_clb (v * 2 ^ 32 + clb p mod 2 ^ 32) p)
  else if off =? FB then Some (set_fb (fb p / 2 ^ 32 * 2 ^ 32 + v) p)
  else if off =? FBU then Some (set_fb (v * 2 ^ 32 + fb p mod 2 ^ 32) p)
  else if off =? IS then Some (set_is (Z.ldiff (pis p) v) p)
  else if (off =? IE) || (off =? SERR) then Some p
  else if off =? CMD then Some (set_cmd (Z.lor (Z.ldiff v running_bits) (Z.land (pcmd p) running_bits)) (if Z.testbit v 0 then ci p else 0) p)
  else if off =? CI then (if started p then Some (set_ci (Z.lor (ci p) v) p) else None)
  else None.

(** The command in slot 0: header, table and FIS, as the adapter fetches them. *)
Definition header (m : mem) (p : pview) : list Z := load m (clb p) 32.
Definition ctba (m : mem) (p : pview) : Z := rd32 (header m p) 8 + rd32 (header m p) 12 * 2 ^ 32.
Definition fis (m : mem) (p : pview) : list Z := load m (ctba m p) 64.
Definition region (m : mem) (p : pview) : list Z := load m (ctba m p + 128) 16.

Definition writes (m : mem) (p : pview) : bool := Z.testbit (rd16 (header m p) 0) 6.
Definition lba_of (f : list Z) : Z := rd8 f 4 + rd8 f 5 * 2 ^ 8 + rd8 f 6 * 2 ^ 16 + rd8 f 8 * 2 ^ 24 + rd8 f 9 * 2 ^ 32 + rd8 f 10 * 2 ^ 40.
Definition count_of (f : list Z) : Z := rd8 f 12 + rd8 f 13 * 2 ^ 8.
Definition data_of (r : list Z) : Z := rd32 r 0 + rd32 r 4 * 2 ^ 32.
Definition bytes_of (r : list Z) : Z := rd32 r 12 mod 2 ^ 22 + 1.

(** The commands this contract speaks of: 48-bit reads and writes of sectors by DMA, with the data in one
    region, on sectors that the disk has. *)
Definition known (m : mem) (p : pview) : bool :=
  let f := fis m p in let r := region m p in
  (rd16 (header m p) 0 mod 32 =? 5) && (rd16 (header m p) 2 =? 1) && (rd8 f 0 =? 0x27) && (rd8 f 1 =? 0x80) && Z.testbit (rd8 f 7) 6 &&
  (rd8 f 2 =? (if writes m p then 0x35 else 0x25)) && (1 <=? count_of f) && (bytes_of r =? count_of f * 512) && ((lba_of f + count_of f) * 512 <=? blen (disk p)).

(** The memory and the disk after a command that succeeds. *)
Definition effect (m : mem) (p : pview) : mem * list Z :=
  let f := fis m p in let r := region m p in
  if writes m p then (m, put (disk p) (lba_of f * 512) (load m (data_of r) (count_of f * 512)))
  else (store m (data_of r) (slice (disk p) (lba_of f * 512) (count_of f * 512)), disk p).

(** The adapter also writes the FIS it receives and the byte count in the command header. *)
Definition reports (p : pview) (x : Z) : Prop := fb p <= x < fb p + 256 \/ clb p + 4 <= x < clb p + 8.
(** What a command that fails may leave in memory and on the disk. *)
Definition spoils (m : mem) (p : pview) (m' : mem) (d' : list Z) : Prop :=
  let f := fis m p in let r := region m p in
  (forall x, ~ reports p x -> (writes m p = true \/ ~ data_of r <= x < data_of r + count_of f * 512) -> m' x = m x) /\
  if writes m p then exists ds, blen ds = count_of f * 512 /\ d' = put (disk p) (lba_of f * 512) ds else d' = disk p.

Inductive pstep (m : mem) (p : pview) : mem -> pview -> Prop :=
| ps_idle : pstep m p m p
| ps_engine : pstep m p m (set_cmd (Z.lor (Z.ldiff (pcmd p) running_bits) (Z.b2z (Z.testbit (pcmd p) 4) * 2 ^ 14 + Z.b2z (started p) * 2 ^ 15)) (ci p) p)
| ps_busy t : started p = true -> Z.odd (ci p) = true -> Z.odd (tfd p) = false -> Z.odd t = false -> pstep m p m (set_tfd t p)
| ps_done m' t i : started p = true -> Z.odd (ci p) = true -> Z.odd (tfd p) = false -> known m p = true ->
    (forall x, ~ reports p x -> m' x = (effect m p).1 x) -> Z.land t (2 ^ 7 + 2 ^ 3 + 1) = 0 -> Z.testbit i 30 = false ->
    pstep m p m' (finish (ci p - 1) i t (effect m p).2 (fis m p, true) p)
| ps_error m' t i d' : started p = true -> Z.odd (ci p) = true -> Z.odd (tfd p) = false -> known m p = true -> spoils m p m' d' ->
    Z.odd t = true -> Z.testbit i 30 = true -> pstep m p m' (finish (ci p) i t d' (fis m p, false) p)
| ps_unknown m' p' : started p = true -> Z.odd (ci p) = true -> Z.odd (tfd p) = false -> known m p = false -> pstep m p m' p'.

(** The adapter steps one port at a time. *)
Definition update (f : Z -> pview) (i : Z) (p : pview) : Z -> pview := fun j => if j =? i then p else f j.
Definition same_ports (f g : Z -> pview) : Prop := forall j, f j = g j.

Class AhciHba (D : Type) `{Mmio D} := {
  ports : D -> Z -> pview;
  implemented : Z;
  read_pi d : reg_read PI d = implemented;
  read_port d i : 0 <= i < 32 ->
    reg_read (port_reg i IS) d = pis (ports d i) /\ reg_read (port_reg i CMD) d = pcmd (ports d i) /\ reg_read (port_reg i TFD) d = tfd (ports d i) /\
    reg_read (port_reg i SIG) d = sig (ports d i) /\ reg_read (port_reg i SSTS) d = ssts (ports d i) /\ reg_read (port_reg i CI) d = ci (ports d i);
  write_ghc d v : same_ports (ports (reg_write GHC v d)) (ports d);
  write_port d i off v p' : 0 <= i < 32 -> 0 <= off < 0x80 -> on_write off v (ports d i) = Some p' -> same_ports (ports (reg_write (port_reg i off) v d)) (update (ports d) i p');
  run_step m d : exists i p', 0 <= i < 32 /\ pstep m (ports d i) (run (m, d)).1 p' /\ same_ports (ports (run (m, d)).2) (update (ports d) i p') }.

(** The one command that waits in a started port is executed before the processor has polled a million times. *)
Definition busy (p : pview) : Prop := started p = true /\ Z.odd (ci p) = true /\ Z.odd (tfd p) = false.
Definition prompt (D : Type) `{AhciHba D} : Prop := forall (w : mem * D) i, 0 <= i < 32 -> busy (ports w.2 i) ->
  (forall j, 0 <= j < 32 -> j <> i -> ~ busy (ports w.2 j)) ->
  exists k, Z.of_nat (S k) < 1000000 /\ (length (log (ports w.2 i)) < length (log (ports (Nat.iter (S k) run w).2 i)))%nat.

(** ** Steps of a port *)

(** The port has changed at most in the bits that report its engines. *)
Record eqv (p q : pview) : Prop := {
  ev_clb : clb q = clb p; ev_fb : fb q = fb p; ev_ci : ci q = ci p; ev_is : pis q = pis p; ev_tfd : tfd q = tfd p;
  ev_sig : sig q = sig p; ev_ssts : ssts q = ssts p; ev_disk : disk q = disk p; ev_log : log q = log p;
  ev_started : started q = started p; ev_fre : Z.testbit (pcmd q) 4 = Z.testbit (pcmd p) 4 }.

#[global] Instance eqv_preorder : PreOrder eqv.
Proof. split; [done|]. intros p q r [] []. split; congruence. Qed.

Lemma eqv_engine p x y : eqv p (set_cmd (Z.lor (Z.ldiff (pcmd p) running_bits) (Z.b2z x * 2 ^ 14 + Z.b2z y * 2 ^ 15)) (ci p) p).
Proof.
  assert (forall k, 0 <= k < 14 -> Z.testbit (Z.lor (Z.ldiff (pcmd p) running_bits) (Z.b2z x * 2 ^ 14 + Z.b2z y * 2 ^ 15)) k = Z.testbit (pcmd p) k) as Hb.
  { intros k Hk. rewrite Z.lor_spec, Z.ldiff_spec. replace (Z.b2z x * 2 ^ 14 + Z.b2z y * 2 ^ 15) with ((Z.b2z x + Z.b2z y * 2) * 2 ^ 14) by lia. rewrite Z.mul_pow2_bits_low by lia.
    change running_bits with (3 * 2 ^ 14). rewrite Z.mul_pow2_bits_low by lia. by rewrite orb_false_r, andb_true_r. }
  split; try done; [apply (Hb 0)|apply (Hb 4)]; lia.
Qed.

(** A port without a command that waits does not touch memory. *)
Lemma calm_step m p m' p' : pstep m p m' p' -> ~ busy p -> m' = m /\ eqv p p'.
Proof.
  intros Hs Hn. destruct Hs; try (exfalso; by apply Hn); [split; reflexivity|]. split; [done|apply eqv_engine].
Qed.

Lemma land_1 x : (x .& 1)%C = Z.b2z (Z.odd x).
Proof. change 1 with (2 ^ 1 - 1). rewrite land_ones_mod by lia. rewrite <- Z.bit0_odd, Z.bit0_mod. done. Qed.

Section proofs.
Context {D H : Type} `{Hmmio : Mmio D} {Hhba : AhciHba D} `{Hpci : PciPorts H} {Hhost : PciHost H}.
Implicit Types (s : st D H) (w : mem * D).

Definition port_of s (i : Z) : pview := ports (world s).2 i.
Definition calm_but w (i : Z) : Prop := forall j, 0 <= j < 32 -> j <> i -> ~ busy (ports w.2 j).
Definition others w w' (i : Z) : Prop := forall j, 0 <= j < 32 -> j <> i -> eqv (ports w.2 j) (ports w'.2 j).

Lemma busy_eqv p q : eqv p q -> busy q -> busy p.
Proof. intros [] (H1 & H2 & H3). unfold busy. by rewrite <- ev_ci0, <- ev_tfd0, <- ev_started0. Qed.

(** Port [i] makes a step of its own, or none. *)
Lemma run_port w i : 0 <= i < 32 -> calm_but w i -> pstep w.1 (ports w.2 i) (run w).1 (ports (run w).2 i) /\ others w (run w) i.
Proof.
  intros Hi Hc. destruct w as [m d]. destruct (run_step m d) as (j & p' & Hj & Hs & He). cbn [fst snd] in *.
  destruct (decide (j = i)) as [->|Hne].
  - split; [rewrite He; unfold update; by rewrite Z.eqb_refl|]. intros k Hk Hki. rewrite He. unfold update. by replace (k =? i) with false by lia.
  - destruct (calm_step _ _ _ _ Hs (Hc j Hj Hne)) as [-> Hev]. split; [rewrite He; unfold update; replace (i =? j) with false by lia; constructor|].
    intros k Hk Hki. rewrite He. unfold update. destruct (Z.eqb_spec k j) as [->|]; [done|reflexivity].
Qed.

Lemma others_trans w1 w2 w3 i : others w1 w2 i -> others w2 w3 i -> others w1 w3 i.
Proof. intros H1 H2 j Hj Hne. etrans; [by apply H1|by apply H2]. Qed.

Lemma calm_others w w' i : calm_but w i -> others w w' i -> calm_but w' i.
Proof. intros Hc Ho j Hj Hne Hb. apply (Hc j Hj Hne). eapply busy_eqv; [by apply Ho|done]. Qed.

(** ** One command *)

Section command.
Context (i : Z) (Hi : 0 <= i < 32) (m0 : mem) (v0 : pview) (w0 : mem * D).
Context (Hknown : known m0 v0 = true).

(** The command waits, has succeeded, or has failed. *)
Record stage w : Prop := { sg_calm : calm_but w i; sg_others : others w0 w i }.
Record pending w : Prop := {
  pe_stage : stage w; pe_mem : w.1 = m0; pe_clb : clb (ports w.2 i) = clb v0; pe_fb : fb (ports w.2 i) = fb v0;
  pe_ci : ci (ports w.2 i) = 1; pe_tfd : Z.odd (tfd (ports w.2 i)) = false; pe_started : started (ports w.2 i) = true;
  pe_disk : disk (ports w.2 i) = disk v0; pe_log : log (ports w.2 i) = log v0 }.
Record completed w : Prop := {
  co_stage : stage w; co_mem : forall x, ~ reports v0 x -> w.1 x = (effect m0 v0).1 x; co_clb : clb (ports w.2 i) = clb v0; co_fb : fb (ports w.2 i) = fb v0;
  co_ci : ci (ports w.2 i) = 0; co_tfd : Z.land (tfd (ports w.2 i)) (2 ^ 7 + 2 ^ 3 + 1) = 0; co_started : started (ports w.2 i) = true;
  co_is : Z.testbit (pis (ports w.2 i)) 30 = false;
  co_disk : disk (ports w.2 i) = (effect m0 v0).2; co_log : log (ports w.2 i) = log v0 ++ [(fis m0 v0, true)] }.
Record failed w : Prop := {
  fa_stage : stage w; fa_mem : spoils m0 v0 w.1 (disk (ports w.2 i)); fa_ci : ci (ports w.2 i) = 1; fa_tfd : Z.odd (tfd (ports w.2 i)) = true; fa_started : started (ports w.2 i) = true;
  fa_log : log (ports w.2 i) = log v0 ++ [(fis m0 v0, false)] }.

Lemma stage_run w : stage w -> pstep w.1 (ports w.2 i) (run w).1 (ports (run w).2 i) /\ stage (run w).
Proof.
  intros [Hc Ho]. destruct (run_port w i Hi Hc) as [Hs Ho']. split; [done|]. split; [by eapply calm_others|by eapply others_trans].
Qed.

Lemma fetch_eq w : pending w -> header w.1 (ports w.2 i) = header m0 v0 /\ fis w.1 (ports w.2 i) = fis m0 v0 /\ region w.1 (ports w.2 i) = region m0 v0 /\
  known w.1 (ports w.2 i) = known m0 v0 /\ effect w.1 (ports w.2 i) = effect m0 v0 /\ (forall m' d', spoils w.1 (ports w.2 i) m' d' -> spoils m0 v0 m' d').
Proof.
  intros [_ Hm Hc Hf _ _ _ Hd _]. assert (header w.1 (ports w.2 i) = header m0 v0) as Hh by (unfold header; by rewrite Hm, Hc).
  assert (fis w.1 (ports w.2 i) = fis m0 v0) as Hfi by (unfold fis, ctba; by rewrite Hh, Hm).
  assert (region w.1 (ports w.2 i) = region m0 v0) as Hr by (unfold region, ctba; by rewrite Hh, Hm).
  split; [done|]. split; [done|]. split; [done|]. unfold known, effect, spoils, writes, reports. rewrite Hh, Hfi, Hr, Hd, Hm, Hc, Hf. done.
Qed.

Lemma pending_run w : pending w -> pending (run w) \/ completed (run w) \/ failed (run w).
Proof.
  intros Hp. destruct (fetch_eq w Hp) as (Eh & Ef & Er & Ek & Ee & Es). pose proof Hp as [Hsg Hm Hc Hf Hci Htf Hst Hd Hl]. destruct (stage_run w Hsg) as [Hs Hsg'].
  assert (forall x, reports (ports w.2 i) x <-> reports v0 x) as Hrep by (intros x; unfold reports; by rewrite Hc, Hf).
  remember (run w).1 as m1 eqn:E1. remember (ports (run w).2 i) as p1 eqn:E2.
  destruct Hs as [| |t _ _ _ Ht|m' t ii _ _ _ _ Hme Ht Hii|m' t ii d' _ _ _ _ Hsp Ht Hii|m' p' _ _ _ Hk].
  - left. split; rewrite <- ?E2, <- ?E1; done.
  - left. destruct (eqv_engine (ports w.2 i) (Z.testbit (pcmd (ports w.2 i)) 4) (started (ports w.2 i))). split; rewrite <- ?E2, <- ?E1; congruence || done.
  - left. split; rewrite <- ?E2, <- ?E1; done.
  - right. left. split; rewrite <- ?E2, <- ?E1; cbn [finish clb fb ci pis tfd disk log started pcmd]; try done.
    + intros x Hx. rewrite <- Ee. apply Hme. by rewrite Hrep.
    + by rewrite Hci.
    + by rewrite <- Ee.
    + by rewrite Hl, Ef.
  - right. right. split; rewrite <- ?E2, <- ?E1; cbn [finish clb fb ci pis tfd disk log started pcmd]; try done.
    + by apply Es.
    + by rewrite Hl, Ef.
  - congruence.
Qed.

Lemma completed_run w : completed w -> completed (run w).
Proof.
  intros [Hsg Hm Hc Hf Hci Htf Hst His Hd Hl]. destruct (stage_run w Hsg) as [Hs Hsg']. destruct (calm_step _ _ _ _ Hs) as [Em []]; [intros (_ & Ho & _); by rewrite Hci in Ho|].
  split; try congruence. by rewrite Em.
Qed.

Lemma failed_run w : failed w -> failed (run w).
Proof.
  intros [Hsg Hm Hci Htf Hst Hl]. destruct (stage_run w Hsg) as [Hs Hsg']. destruct (calm_step _ _ _ _ Hs) as [Em []]; [intros (_ & _ & Ho); congruence|].
  split; congruence.
Qed.

Definition settled (b : bool) w : Prop := if b then completed w else failed w.

Lemma read_ci s : read (port_reg i CI) s = Ok (ci (ports (world s).2 i), s).
Proof. unfold read, gets. by destruct (read_port (world s).2 i Hi) as (_ & _ & _ & _ & _ & ->). Qed.
Lemma read_tfd s : read (port_reg i TFD) s = Ok (tfd (ports (world s).2 i), s).
Proof. unfold read, gets. by destruct (read_port (world s).2 i Hi) as (_ & _ & -> & _). Qed.
Lemma read_is s : read (port_reg i IS) s = Ok (pis (ports (world s).2 i), s).
Proof. unfold read, gets. by destruct (read_port (world s).2 i Hi) as (-> & _). Qed.

(** One look at the registers of a port whose command has succeeded, or failed. *)
Lemma poll_completed n s : completed (run (world s)) -> exists w', poll (S n) i s = Ok (true, set_world w' s) /\ completed w'.
Proof.
  intros Hc. cbn [poll]. unfold wait. rewrite K_modify, (K_bind_Ok _ _ _ _ _ (read_ci _)). cbn [world set_world]. rewrite (co_ci _ Hc). change ((0 .& 1)%C =? 0) with true. cbn iota.
  rewrite K_modify, (K_bind_Ok _ _ _ _ _ (read_is _)). cbn [world set_world]. exists (run (run (world s))). apply completed_run in Hc. split; [|done]. unfold mret, K_ret. do 3 f_equal.
  pose proof (co_is _ Hc) as Hb. set (x := pis _) in *. rewrite Z.shiftl_1_l. pose proof (land_field x 30 1 ltac:(lia) ltac:(lia)) as E. change (Z.shiftl (Z.ones 1) 30) with (2 ^ 30) in E. rewrite E.
  apply Z.testbit_false in Hb; [|lia]. change (2 ^ 1) with 2. rewrite Hb. done.
Qed.

Lemma poll_failed n s : failed (run (world s)) -> exists w', poll (S n) i s = Ok (false, set_world w' s) /\ failed w'.
Proof.
  intros Hc. cbn [poll]. unfold wait. rewrite K_modify, (K_bind_Ok _ _ _ _ _ (read_ci _)). cbn [world set_world]. rewrite (fa_ci _ Hc). change ((1 .& 1)%C =? 0) with false. cbn iota.
  rewrite K_modify, (K_bind_Ok _ _ _ _ _ (read_tfd _)). cbn [world set_world]. exists (run (run (world s))). apply failed_run in Hc. split; [|done].
  change AHCI_PxTFD_ERR with 1. rewrite land_1, (fa_tfd _ Hc). done.
Qed.

Lemma poll_port : forall k n s, (k < n)%nat -> pending (world s) -> ~ pending (Nat.iter k run (world s)) ->
  exists b w', poll n i s = Ok (b, set_world w' s) /\ settled b w'.
Proof.
  induction k as [k IH] using lt_wf_ind. intros n s Hn Hp Hk. destruct n as [|n]; [lia|].
  destruct k as [|k]; [done|]. rewrite Nat.iter_succ_r in Hk.
  destruct (pending_run _ Hp) as [Hp1|[Hc|Hf]]; [|destruct (poll_completed n s Hc) as (w' & E & Hw); by exists true, w'|destruct (poll_failed n s Hf) as (w' & E & Hw); by exists false, w'].
  destruct k as [|k]; [done|]. rewrite Nat.iter_succ_r in Hk.
  cbn [poll]. unfold wait. rewrite K_modify, (K_bind_Ok _ _ _ _ _ (read_ci _)). cbn [world set_world]. rewrite (pe_ci _ Hp1). change ((1 .& 1)%C =? 0) with false. cbn iota.
  rewrite K_modify, (K_bind_Ok _ _ _ _ _ (read_tfd _)). cbn [world set_world]. change AHCI_PxTFD_ERR with 1. rewrite land_1. change (set_world (run (run (world s))) (set_world (run (world s)) s)) with (set_world (run (run (world s))) s).
  destruct (pending_run _ Hp1) as [Hp2|[Hc|Hf]].
  - rewrite (pe_tfd _ Hp2). destruct (IH k ltac:(lia) n (set_world (run (run (world s))) s)) as (b & w' & E & Hw); [lia|done|done|]. by exists b, w'.
  - pose proof (co_tfd _ Hc) as Ht. assert (Z.odd (tfd (ports (run (run (world s))).2 i)) = false) as ->.
    { rewrite <- Z.bit0_odd. apply (f_equal (fun z => Z.testbit z 0)) in Ht. rewrite Z.land_spec in Ht. change (Z.testbit (2 ^ 7 + 2 ^ 3 + 1) 0) with true in Ht. by rewrite andb_true_r in Ht. }
    destruct n as [|n]; [lia|]. destruct (poll_completed n (set_world (run (run (world s))) s)) as (w' & E & Hw); [by apply completed_run|]. by exists true, w'.
  - rewrite (fa_tfd _ Hf). exists false, (run (run (world s))). done.
Qed.

End command.
(** ** Reading and writing sectors *)

Definition calm s : Prop := forall j, 0 <= j < 32 -> ~ busy (port_of s j).
Definition state_of s (i : Z) : port_state := aget no_port (s_ports s) i.

(** The driver and the port are ready for a request. *)
Record ready s (i : Z) : Prop := {
  re_len : length (s_ports s) = 32%nat;
  re_present : present (state_of s i) = true;
  re_clb : clb (port_of s i) = cmd_list (state_of s i);
  re_fb : fb (port_of s i) = fis_buf (state_of s i);
  re_started : started (port_of s i) = true;
  re_ci : ci (port_of s i) = 0;
  re_tfd : Z.land (tfd (port_of s i)) (2 ^ 7 + 2 ^ 3 + 1) = 0;
  re_table : load (world s).1 (cmd_list (state_of s i) + 8) 8 = le_bytes 8 (cmd_table (state_of s i));
  re_range : is_u64 (cmd_table (state_of s i));
  re_apart1 : apart (cmd_list (state_of s i)) 4096 (fis_buf (state_of s i)) 4096;
  re_apart2 : apart (cmd_list (state_of s i)) 4096 (cmd_table (state_of s i)) 4096;
  re_apart3 : apart (fis_buf (state_of s i)) 4096 (cmd_table (state_of s i)) 4096 }.

(** A physical range outside the pages of the port. *)
Definition in_pages (p : port_state) (x : Z) : Prop :=
  cmd_list p <= x < cmd_list p + 4096 \/ fis_buf p <= x < fis_buf p + 4096 \/ cmd_table p <= x < cmd_table p + 4096.
(** What the driver writes there for a command. *)
Definition written (p : port_state) (x : Z) : Prop := cmd_list p <= x < cmd_list p + 8 \/ cmd_table p <= x < cmd_table p + 144.
Definition outside (p : port_state) (a n : Z) : Prop := forall x, a <= x < a + n -> ~ in_pages p x.

Lemma h2d_fields command lba count : is_u8 command -> 0 <= lba < 2 ^ 48 -> is_u16 count -> let f := h2d_fis command lba count in
  blen f = 64 /\ rd8 f 0 = 0x27 /\ rd8 f 1 = 0x80 /\ rd8 f 2 = command /\ rd8 f 7 = 0x40 /\ lba_of f = lba /\ count_of f = count.
Proof.
  intros Hc Hl Hn f. split; [done|]. split; [done|]. split; [done|]. split; [done|]. split; [done|].
  change (lba_of f) with (u8 lba + u8 (lba .>> 8)%C * 2 ^ 8 + u8 (lba .>> 16)%C * 2 ^ 16 + u8 (lba .>> 24)%C * 2 ^ 24 + u8 (lba .>> 32)%C * 2 ^ 32 + u8 (lba .>> 40)%C * 2 ^ 40).
  change (count_of f) with (u8 count + u8 (count .>> 8)%C * 2 ^ 8). rewrite !Z.shiftr_div_pow2 by lia. split; int_lia.
Qed.

Lemma prd_fields buf n : is_u64 buf -> 1 <= n <= 8 -> let r := prd buf (n * 512) in blen r = 16 /\ data_of r = buf /\ bytes_of r = n * 512.
Proof.
  intros Hb Hn r. split; [done|]. change (data_of r) with (le_val (le_bytes 4 (buf .& 0xffffffff)%C) + le_val (le_bytes 4 (u32 (buf .>> 32)%C)) * 2 ^ 32).
  change (bytes_of r) with (le_val (le_bytes 4 ((n * 512 - 1) .& 0x3fffff)%C) mod 2 ^ 22 + 1). rewrite !le_val_bytes. change (256 ^ Z.of_nat 4) with (2 ^ 32).
  change 0xffffffff with (2 ^ 32 - 1). change 0x3fffff with (2 ^ 22 - 1). rewrite !land_ones_mod, Z.shiftr_div_pow2 by lia. split; int_lia.
Qed.

Section one.
Context (i : Z) (Hi : 0 <= i < 32) (s : st D H) (Hr : ready s i).
#[local] Abbreviation P := (state_of s i).
#[local] Abbreviation m := (world s).1.
Context (wr lba count buf : Z) (Hwr : wr = 0 \/ wr = 1) (Hlba : 0 <= lba < 2 ^ 48) (Hcount : 1 <= count <= 8) (Hbuf : is_u64 buf).
Context (Hout : outside P buf (count * 512)) (Hdisk : (lba + count) * 512 <= blen (disk (port_of s i))).
#[local] Abbreviation command := (if wr =? 1 then ATA_CMD_WRITE_DMA_EXT else ATA_CMD_READ_DMA_EXT).
#[local] Abbreviation f := (h2d_fis command lba count).
#[local] Abbreviation r := (prd buf (count * 512)).

(** The memory when the command is issued. *)
Definition issue_mem : mem := store (store (store m (cmd_table P + 128) r) (cmd_table P) f) (cmd_list P) (cmd_header wr).
Context (v : pview) (Hclb : clb v = cmd_list P) (Hfb : fb v = fis_buf P) (Hdv : disk v = disk (port_of s i)).

Lemma issue_header : header issue_mem v = cmd_header wr ++ le_bytes 8 (cmd_table P) ++ load m (cmd_list P + 16) 16.
Proof.
  unfold header. rewrite Hclb. change 32 with (8 + (8 + 16)). rewrite !load_app by lia. pose proof (re_apart2 _ _ Hr) as Ha.  unfold apart in Ha. unfold issue_mem.
  rewrite load_store_eq by done. rewrite !load_store_ne by (unfold apart; change (blen (cmd_header wr)) with 8; change (blen f) with 64; change (blen r) with 16; lia).
  pose proof (re_table _ _ Hr) as Ht.  rewrite Ht. do 3 f_equal. lia.
Qed.

Lemma issue_fields : ctba issue_mem v = cmd_table P /\ fis issue_mem v = f /\ region issue_mem v = r /\ rd16 (header issue_mem v) 0 = 5 + 64 * wr /\ rd16 (header issue_mem v) 2 = 1.
Proof.
  assert (ctba issue_mem v = cmd_table P) as Hc.
  { unfold ctba. rewrite issue_header. set (t := load m (cmd_list P + 16) 16). change (rd32 (cmd_header wr ++ le_bytes 8 (cmd_table P) ++ t) 8) with (le_val (take 4 (le_bytes 8 (cmd_table P)))).
    change (rd32 (cmd_header wr ++ le_bytes 8 (cmd_table P) ++ t) 12) with (le_val (drop 4 (le_bytes 8 (cmd_table P)))).
    pose proof (le_val_bytes 8 (cmd_table P)) as E. change (256 ^ Z.of_nat 8) with (2 ^ 64) in E. pose proof (re_range _ _ Hr) as Hrg.  rewrite Z.mod_small in E by int_lia. rewrite <- E at 3. cbn [le_bytes take drop le_val]. lia. }
  split; [done|]. unfold fis, region. rewrite Hc. unfold issue_mem.
  assert (apart (cmd_list P) 4096 (cmd_table P) 4096) as Ha by (apply Hr). unfold apart in Ha.
  split; [rewrite load_store_ne by (unfold apart; change (blen (cmd_header wr)) with 8; lia); by rewrite load_store_eq|].
  split; [rewrite !load_store_ne by (unfold apart; change (blen (cmd_header wr)) with 8; change (blen f) with 64; lia); by rewrite load_store_eq|].
  fold issue_mem. rewrite issue_header. destruct Hwr as [E|E]; rewrite E; done.
Qed.

Lemma issue_known : known issue_mem v = true /\ writes issue_mem v = (wr =? 1) /\
  (forall x, ~ reports v x -> ~ written P x -> (wr = 1 \/ ~ buf <= x < buf + count * 512) -> (effect issue_mem v).1 x = m x) /\
  (effect issue_mem v).2 = (if wr =? 1 then put (disk v) (lba * 512) (load m buf (count * 512)) else disk v) /\
  (wr = 0 -> forall m', (forall x, ~ reports v x -> m' x = (effect issue_mem v).1 x) -> load m' buf (count * 512) = slice (disk v) (lba * 512) (count * 512)).
Proof.
  destruct issue_fields as (Hc & Hf & Hrg & Hh0 & Hh2). destruct (h2d_fields command lba count) as (_ & F0 & F1 & F2 & F7 & Fl & Fc); [by destruct (wr =? 1)|done|int_lia|].
  destruct (prd_fields buf count Hbuf Hcount) as (_ & Rd & Rb).
  assert (writes issue_mem v = (wr =? 1)) as Hw by (unfold writes; rewrite Hh0; by destruct Hwr as [E|E]; rewrite E).
  assert (forall x, ~ written P x -> issue_mem x = m x) as Hm.
  { intros x Hx. unfold issue_mem, store, written in *. change (blen (cmd_header wr)) with 8. change (blen f) with 64. change (blen r) with 16. by rewrite !(proj2 (andb_false_iff _ _)) by lia. }
  split; [|split; [done|]].
  { unfold known. rewrite Hf, Hrg, Hh0, Hh2, Hw, F0, F1, F2, F7, Fc, Fl, Rb, Hdv, (Z.eqb_refl (count * 512)). replace ((lba + count) * 512 <=? _) with true by lia. replace (1 <=? count) with true by lia.
    by destruct Hwr as [E|E]; rewrite E. }
  unfold effect. rewrite Hf, Hrg, Hw, Fc, Fl, Rd. assert (load issue_mem buf (count * 512) = load m buf (count * 512)) as Hld by (apply load_ext; intros x Hx; apply Hm; intros Hwx; apply (Hout x Hx); unfold written, in_pages in *; lia).
  destruct Hwr as [E|E]; rewrite E; cbn [Z.eqb Pos.eqb fst snd].
  - split; [|split; [done|]].
    + intros x Hx Hp [?|Hb]; [done|]. unfold store. rewrite blen_slice by (rewrite ?Hdv; lia). replace (_ && _) with false by lia. by apply Hm.
    + intros _ m' Hm'. rewrite (load_ext m' (store issue_mem buf (slice (disk v) (lba * 512) (count * 512)))).
      * apply load_store_eq. rewrite blen_slice; rewrite ?Hdv; lia.
      * intros x Hx. apply Hm'. intros Hrep. apply (Hout x Hx). unfold reports, in_pages in *. rewrite Hclb, Hfb in Hrep. lia.
  - split; [intros x Hx Hp _; by apply Hm|]. split; [by rewrite Hld|done].
Qed.

End one.

(** A port whose command has failed. *)
Record stuck s (i : Z) : Prop := {
  sk_started : started (port_of s i) = true; sk_ci : Z.odd (ci (port_of s i)) = true; sk_tfd : Z.odd (tfd (port_of s i)) = true; sk_calm : calm s }.

(** What one request does. *)
Record transferred (i : Z) s (wr lba count buf : Z) (b : bool) (s' : st D H) : Prop := {
  tr_state : s_ports s' = s_ports s /\ vm s' = vm s /\ host s' = host s /\ s_first_disk s' = s_first_disk s;
  tr_log : exists f, log (port_of s' i) = log (port_of s i) ++ [(f, b)];
  tr_others : forall j, 0 <= j < 32 -> j <> i -> eqv (port_of s j) (port_of s' j);
  tr_ready : b = true -> ready s' i /\ calm s';
  tr_stuck : b = false -> stuck s' i;
  tr_read : wr = 0 -> disk (port_of s' i) = disk (port_of s i) /\
    (b = true -> load (world s').1 buf (count * 512) = slice (disk (port_of s i)) (lba * 512) (count * 512));
  tr_write : wr = 1 -> exists ds, blen ds = count * 512 /\ disk (port_of s' i) = put (disk (port_of s i)) (lba * 512) ds /\ (b = true -> ds = load (world s).1 buf (count * 512));
  tr_mem : forall x, ~ in_pages (state_of s i) x -> (wr = 1 \/ ~ buf <= x < buf + count * 512) -> (world s').1 x = (world s).1 x }.

Lemma settled_transferred i s wr lba count p v0 b w' : 0 <= i < 32 -> ready s i -> calm s -> wr = 0 \/ wr = 1 -> 0 <= lba < 2 ^ 48 -> 1 <= count <= 8 -> is_u64 p ->
  outside (state_of s i) p (count * 512) -> (lba + count) * 512 <= blen (disk (port_of s i)) ->
  clb v0 = cmd_list (state_of s i) -> fb v0 = fis_buf (state_of s i) -> disk v0 = disk (port_of s i) -> log v0 = log (port_of s i) ->
  settled i (issue_mem i s wr lba count p) v0 (world s) b w' -> transferred i s wr lba count p b (set_world w' s).
Proof.
  intros Hi Hr Hc Hwr Hlba Hcount Hpr Hout Hdisk Hclb Hfb Hdv Hlv Hset. set (m0 := issue_mem i s wr lba count p) in *. set (P := state_of s i) in *.
  destruct (issue_known i Hi s Hr wr lba count p Hwr Hlba Hcount Hpr Hout Hdisk v0 Hclb Hfb Hdv) as (Hk & Hw & Hm & Hd & Hrd). fold m0 P in Hk, Hw, Hm, Hd, Hrd.
  destruct (issue_fields i Hi s Hr wr lba count p Hwr Hlba Hpr v0 Hclb) as (_ & Hf & Hreg & _). fold m0 in Hf, Hreg.
  destruct (prd_fields p count Hpr Hcount) as (_ & Rd & _). destruct (h2d_fields (if wr =? 1 then ATA_CMD_WRITE_DMA_EXT else ATA_CMD_READ_DMA_EXT) lba count) as (_ & _ & _ & _ & _ & Fl & Fc); [by destruct (wr =? 1)|done|int_lia|].
  pose proof (re_apart1 _ _ Hr) as Ha1. pose proof (re_apart2 _ _ Hr) as Ha2. pose proof (re_apart3 _ _ Hr) as Ha3. fold P in Ha1, Ha2, Ha3. unfold apart in Ha1, Ha2, Ha3.
  assert (forall x, reports v0 x -> in_pages P x) as Hrp by (intros x; unfold reports, in_pages; rewrite Hclb, Hfb; lia).
  assert (forall x, written P x -> in_pages P x) as Hwp by (intros x; unfold written, in_pages; lia).
  destruct b; cbn [settled] in Hset.
  - destruct Hset as [[Hsc Hso] Cm Cc Cf Cci Ct Cst Cis Cd Cl].
    assert (forall x, ~ reports v0 x -> ~ written P x -> (wr = 1 \/ ~ p <= x < p + count * 512) -> w'.1 x = (world s).1 x) as Hfr by (intros x H1 H2 H3; rewrite Cm by done; by apply Hm).
    split; [done|exists (fis m0 v0); unfold port_of at 1; cbn [world set_world]; by rewrite Cl, Hlv|exact Hso| |done| | |].
    + intros _. split.
      * destruct Hr. constructor; unfold port_of; cbn [world set_world]; change (state_of (set_world w' s) i) with P; try done; try congruence. all: try (rewrite Cc; exact Hclb). all: try (rewrite Cf; exact Hfb). all: try (unfold P; exact re_started0). rewrite <- (re_table0 : _ = le_bytes 8 (cmd_table P)). apply load_ext. intros x Hx. change (state_of s i) with P in Hx. apply Hfr.
        -- unfold reports. rewrite Hclb, Hfb. lia.
        -- unfold written. lia.
        -- right. intros Hb. apply (Hout x Hb). unfold in_pages. lia.
      * intros j Hj Hb. destruct (decide (j = i)) as [->|Hne]; [|by apply (Hsc j)]. destruct Hb as (_ & Ho & _). unfold port_of in Ho. cbn [world set_world] in Ho. by rewrite Cci in Ho.
    + intros ->. unfold port_of at 1. cbn [world set_world]. rewrite Cd, Hd. cbn [Z.eqb]. split; [done|]. intros _. rewrite <- Hdv. by apply Hrd.
    + intros ->. exists (load (world s).1 p (count * 512)). split; [apply blen_load; lia|]. split; [|done]. unfold port_of at 1. cbn [world set_world]. by rewrite Cd, Hd, <- Hdv.
    + intros x Hx Hb. apply Hfr; [|intros ?; by apply Hx, Hwp|done]. intros ?. by apply Hx, Hrp.
  - destruct Hset as [[Hsc Hso] [Fm Fd] Fci Ft Fst Flog]. rewrite Hf, Hreg, Rd, Fc, Hw in Fm. rewrite Hf, Hw, Fc, Fl in Fd.
    assert (forall x, ~ written P x -> m0 x = (world s).1 x) as Hm0.
    { intros x Hx. unfold m0, issue_mem, store, written in *. fold P. change (blen (cmd_header wr)) with 8. change (blen (h2d_fis _ lba count)) with 64. change (blen (prd p (count * 512))) with 16. by rewrite !(proj2 (andb_false_iff _ _)) by lia. }
    split; [done|exists (fis m0 v0); unfold port_of at 1; cbn [world set_world]; by rewrite Flog, Hlv|exact Hso|done| | | |].
    + intros _. split; unfold port_of; cbn [world set_world]; [by rewrite Fst|by rewrite Fci|done|]. intros j Hj Hb. destruct (decide (j = i)) as [->|Hne]; [|by apply (Hsc j)]. destruct Hb as (_ & _ & Ho). unfold port_of in Ho. cbn [world set_world] in Ho. congruence.
    + intros ->. unfold port_of at 1. cbn [world set_world]. cbn [Z.eqb] in Fd. by rewrite Fd, Hdv.
    + intros ->. cbn [Z.eqb Pos.eqb] in Fd. destruct Fd as (ds & Hl & Hds). exists ds. split; [done|]. split; [|done]. unfold port_of at 1. cbn [world set_world]. by rewrite Hds, Hdv.
    + intros x Hx Hb. cbn [world set_world]. rewrite Fm; [apply Hm0; intros ?; by apply Hx, Hwp|intros ?; by apply Hx, Hrp|]. destruct Hb as [-> |]; [by left|by right].
Qed.

Lemma transfer_spec i s wr lba count buf : 0 <= i < 32 -> prompt D -> ready s i -> calm s -> wr = 0 \/ wr = 1 -> 0 <= lba < 2 ^ 48 -> 1 <= count <= 8 ->
  (lba + count) * 512 <= blen (disk (port_of s i)) -> let p := u64 (buf - Vmm.vdirect_map (vm s)) in outside (state_of s i) p (count * 512) ->
  exists b s', transfer wr (if wr =? 1 then ATA_CMD_WRITE_DMA_EXT else ATA_CMD_READ_DMA_EXT) i lba count buf s = Ok (b, s') /\ transferred i s wr lba count p b s'.
Proof.
  intros Hi Hprompt Hr Hc Hwr Hlba Hcount Hdisk p Hout. unfold transfer. rewrite K_gets, (re_len _ _ Hr). change (Z.of_nat 32) with 32. replace (32 <=? i) with false by lia. fold (state_of s i). rewrite (re_present _ _ Hr). set (P := state_of s i) in *.
  replace (count =? 0) with false by lia. replace (8 <? count) with false by lia. cbn [negb orb].
  rewrite (K_bind_Ok _ _ _ _ _ (read_tfd i Hi s)). fold (port_of s i). assert ((tfd (port_of s i) .& (AHCI_PxTFD_BSY .| AHCI_PxTFD_DRQ))%C = 0) as ->.
  { pose proof (re_tfd _ _ Hr) as Ht. apply Z.bits_inj'. intros k Hk. apply (f_equal (fun z => Z.testbit z k)) in Ht. rewrite Z.land_spec in *. change (AHCI_PxTFD_BSY .| AHCI_PxTFD_DRQ)%C with (Z.land (2 ^ 7 + 2 ^ 3 + 1) 0x88). rewrite Z.land_spec, andb_assoc, Ht. by rewrite Z.bits_0. }
  cbn [Z.eqb negb]. rewrite K_gets. fold p. unfold put_mem. rewrite !K_modify. cbn [set_world world fst snd]. set (m0 := issue_mem i s wr lba count p).
  set (v1 := set_is (Z.ldiff (pis (port_of s i)) 0xffffffff) (port_of s i)). set (v0 := set_ci 1 v1). set (d := (world s).2).
  pose proof (write_port d i IS 0xffffffff v1 Hi ltac:(done) eq_refl) as W1. set (d1 := reg_write (port_reg i IS) 0xffffffff d) in *.
  assert (ports d1 i = v1) as E1 by (rewrite W1; unfold update; by rewrite Z.eqb_refl).
  pose proof (write_port d1 i CI 1 v0 Hi ltac:(done)) as W2. rewrite E1 in W2. unfold on_write in W2. cbn [CI CLBA CLBAU FB FBU IS IE SERR CMD Z.eqb Pos.eqb orb] in W2.
  change (started v1) with (started (port_of s i)) in W2. rewrite (re_started _ _ Hr) in W2. change (ci v1) with (ci (port_of s i)) in W2. rewrite (re_ci _ _ Hr) in W2. specialize (W2 eq_refl).
  set (d2 := reg_write (port_reg i CI) 1 d1) in *. assert (ports d2 i = v0) as E2 by (rewrite W2; unfold update; by rewrite Z.eqb_refl).
  assert (forall j, j <> i -> ports d2 j = ports d j) as E3 by (intros j Hj; rewrite W2; unfold update; replace (j =? i) with false by lia; rewrite W1; unfold update; by replace (j =? i) with false by lia).
  unfold write. rewrite !K_modify. cbn [set_world world fst snd]. fold d d1 d2. match goal with |- context [poll POLLS i ?x] => change x with (set_world (m0, d2) s) end.
  destruct (issue_known i Hi s Hr wr lba count p Hwr Hlba Hcount (u64_range _) Hout Hdisk v0 (re_clb _ _ Hr) (re_fb _ _ Hr) eq_refl) as (Hk & Hw & Hm & Hd & Hrd). fold m0 in Hk, Hw, Hm, Hd, Hrd.
  assert (pending i m0 v0 (world s) (m0, d2)) as Hp.
  { split; cbn [fst snd]; rewrite ?E2; try done.
    - split; intros j Hj Hne; cbn [snd]; rewrite E3 by done; [by apply Hc|]. fold d. reflexivity.
    - cbn. pose proof (re_tfd _ _ Hr) as Ht. rewrite <- Z.bit0_odd. apply (f_equal (fun z => Z.testbit z 0)) in Ht. rewrite Z.land_spec in Ht. change (Z.testbit (2 ^ 7 + 2 ^ 3 + 1) 0) with true in Ht. by rewrite andb_true_r in Ht.
    - apply (re_started _ _ Hr). }
  destruct (Hprompt (m0, d2) i Hi) as (k & Hk1 & Hk2); [cbn [snd]; split; [apply Hp|]; split; [by rewrite E2|apply Hp]|exact (sg_calm _ _ _ (pe_stage _ _ _ _ _ Hp))|].
  destruct (poll_port i Hi m0 v0 (world s) Hk (S k) POLLS (set_world (m0, d2) s)) as (b & w' & E & Hset); [unfold POLLS; lia|done|intros Hp'; pose proof (pe_log _ _ _ _ _ Hp') as L1; pose proof (pe_log _ _ _ _ _ Hp) as L2; cbn [world set_world] in L1; rewrite L1, L2 in Hk2; lia|].
  exists b, (set_world w' s). split; [exact E|]. apply (settled_transferred i s wr lba count p v0 b w'); try done; [apply u64_range|apply (re_clb _ _ Hr)|apply (re_fb _ _ Hr)].
Qed.

(** C29: Sectors that are written to a ready port and then read come back. The adapter executes a command, or
    reports its failure, before the driver has polled it a million times ([prompt]); no command is under way on
    any port ([calm]); the request is for at most eight sectors of the disk, from and into buffers that lie outside
    the pages of the port. Then the write returns; if it has succeeded, the port is ready again, the read returns
    too, and when it succeeds, the second buffer holds what the first held. Neither request touches another port, or
    memory outside the buffer and the pages of the port. *)
Theorem ahci_write_read i s lba count wbuf rbuf : let p := u64 (wbuf - Vmm.vdirect_map (vm s)) in let q := u64 (rbuf - Vmm.vdirect_map (vm s)) in
  0 <= i < 32 -> prompt D -> ready s i -> calm s -> 0 <= lba < 2 ^ 48 -> 1 <= count <= 8 -> (lba + count) * 512 <= blen (disk (port_of s i)) ->
  outside (state_of s i) p (count * 512) -> outside (state_of s i) q (count * 512) ->
  exists b1 s1, ahci_write_sectors i lba count wbuf s = Ok (b1, s1) /\ transferred i s 1 lba count p b1 s1 /\
    (b1 = true -> exists b2 s2, ahci_read_sectors i lba count rbuf s1 = Ok (b2, s2) /\ transferred i s1 0 lba count q b2 s2 /\
      (b2 = true -> ready s2 i /\ calm s2 /\ load (world s2).1 q (count * 512) = load (world s).1 p (count * 512))).
Proof.
  intros p q Hi Hp Hr Hc Hlba Hcount Hin Hop Hoq. destruct (transfer_spec i s 1 lba count wbuf Hi Hp Hr Hc (or_intror eq_refl) Hlba Hcount Hin Hop) as (b1 & s1 & E1 & T1).
  exists b1, s1. split; [exact E1|]. split; [exact T1|]. intros ->. destruct (tr_ready _ _ _ _ _ _ _ _ T1 eq_refl) as [R1 C1]. destruct (tr_write _ _ _ _ _ _ _ _ T1 eq_refl) as (ds & Hl & Hd & Hds).
  destruct (tr_state _ _ _ _ _ _ _ _ T1) as (Sp & Sv & _). assert (state_of s1 i = state_of s i) as Es by (unfold state_of; by rewrite Sp).
  destruct (transfer_spec i s1 0 lba count rbuf Hi Hp R1 C1 (or_introl eq_refl) Hlba Hcount) as (b2 & s2 & E2 & T2); [rewrite Hd, blen_put; lia|rewrite Es, Sv; exact Hoq|]. rewrite Sv in T2.
  exists b2, s2. split; [exact E2|]. split; [exact T2|]. intros ->. destruct (tr_ready _ _ _ _ _ _ _ _ T2 eq_refl) as [R2 C2]. split; [done|]. split; [done|].
  destruct (tr_read _ _ _ _ _ _ _ _ T2 eq_refl) as [_ Hrd]. fold q in Hrd. fold p in Hds. rewrite Hrd, Hd, <- Hds by done. apply slice_put_eq; [lia..|done].
Qed.

(** ** Initialisation: no port has a command *)

Definition pm s : pmm := Vmm.vpmm (vm s).
Definition with_pm (p : pmm) s : st D H := set_vm (Vmm.set_pmm (vm s) p) s.

(** Ports that have only followed their engines. *)
Definition quiet w w' : Prop := w'.1 = w.1 /\ forall j, 0 <= j < 32 -> eqv (ports w.2 j) (ports w'.2 j).
#[local] Instance quiet_preorder : PreOrder quiet.
Proof. split; [intros w; by split|]. intros w1 w2 w3 [E1 H1] [E2 H2]. split; [congruence|]. intros j Hj. etrans; [by apply H1|by apply H2]. Qed.

Definition idle w : Prop := forall j, 0 <= j < 32 -> ~ busy (ports w.2 j).
Lemma idle_quiet w w' : idle w -> quiet w w' -> idle w'.
Proof. intros Hi [_ Hq] j Hj Hb. apply (Hi j Hj). eapply busy_eqv; [by apply Hq|done]. Qed.

Lemma idle_run w : idle w -> quiet w (run w).
Proof.
  intros Hc. destruct (run_port w 0 ltac:(lia)) as [Hs Ho]; [intros j Hj _; by apply Hc|]. destruct (calm_step _ _ _ _ Hs (Hc 0 ltac:(lia))) as [Em He].
  split; [done|]. intros j Hj. destruct (decide (j = 0)) as [->|]; [done|by apply Ho].
Qed.

Lemma wait_clear_spec i mask n : forall s, idle (world s) -> exists w', wait_clear n i mask s = Ok (tt, set_world w' s) /\ quiet (world s) w'.
Proof.
  induction n as [|n IH]; intros s Hc; cbn [wait_clear]; [exists (world s); split; [by destruct s|reflexivity]|].
  pose proof (idle_run _ Hc) as Hq. unfold wait, read. rewrite K_modify, K_gets. case_match.
  - exists (run (world s)). by split.
  - destruct (IH (set_world (run (world s)) s)) as (w' & E & Hq'); [by eapply idle_quiet|]. exists w'. split; [done|]. by etrans.
Qed.

(** A write to a register of port [i]. *)
Definition wrote (i : Z) (p' : pview) w w' : Prop := w'.1 = w.1 /\ ports w'.2 i = p' /\ forall j, j <> i -> ports w'.2 j = ports w.2 j.

Lemma write_spec i off v p' s : 0 <= i < 32 -> 0 <= off < 0x80 -> on_write off v (port_of s i) = Some p' ->
  exists w', write (port_reg i off) v s = Ok (tt, set_world w' s) /\ wrote i p' (world s) w'.
Proof.
  intros Hi Ho E. eexists. split; [done|]. pose proof (write_port (world s).2 i off v p' Hi Ho E) as W. split; [done|]. cbn [snd].
  split; [rewrite W; unfold update; by rewrite Z.eqb_refl|]. intros j Hj. rewrite W. unfold update. by replace (j =? i) with false by lia.
Qed.

(** The world moves on: port [i] is now [p], the others have only followed their engines. *)
Record moved (i : Z) w w' (p : pview) : Prop := {
  mv_mem : w'.1 = w.1; mv_port : ports w'.2 i = p; mv_others : others w w' i }.

Lemma moved_wrote i w1 w2 w3 p p' : moved i w1 w2 p -> wrote i p' w2 w3 -> moved i w1 w3 p'.
Proof.
  intros [M1 _ O1] (M2 & P2 & O2). split; [congruence|done|]. intros j Hj Hne. rewrite O2 by done. by apply O1.
Qed.

Lemma moved_idle i w w' p : idle w -> moved i w w' p -> ~ busy p -> idle w'.
Proof.
  intros Hc [_ Hp Ho] Hn j Hj Hb. destruct (decide (j = i)) as [->|Hne]; [congruence|]. apply (Hc j Hj). eapply busy_eqv; [by apply Ho|done].
Qed.

Lemma moved_quiet i w1 w2 w3 p : 0 <= i < 32 -> moved i w1 w2 p -> quiet w2 w3 -> exists q, eqv p q /\ moved i w1 w3 q.
Proof.
  intros Hi [M1 P1 O1] [M2 Q2]. exists (ports w3.2 i). split; [rewrite <- P1; by apply Q2|]. split; [congruence|done|]. intros j Hj Hne. etrans; [by apply O1|by apply Q2].
Qed.

Lemma read_cmd i s : 0 <= i < 32 -> read (port_reg i CMD) s = Ok (pcmd (port_of s i), s).
Proof. intros Hi. unfold read, gets. by destruct (read_port (world s).2 i Hi) as (_ & -> & _). Qed.

Lemma started_write v x : Z.testbit (Z.lor (Z.ldiff v running_bits) (Z.land x running_bits)) 0 = Z.testbit v 0.
Proof. rewrite Z.lor_spec, Z.ldiff_spec, Z.land_spec. change (Z.testbit running_bits 0) with false. by rewrite andb_false_r, orb_false_r, andb_true_r. Qed.

(** A port that is stopped, or started, but otherwise as it was. *)
Record like (p q : pview) : Prop := {
  lk_clb : clb q = clb p; lk_fb : fb q = fb p; lk_tfd : tfd q = tfd p; lk_sig : sig q = sig p; lk_ssts : ssts q = ssts p; lk_disk : disk q = disk p; lk_log : log q = log p }.

Lemma port_stop_spec i s : 0 <= i < 32 -> idle (world s) ->
  exists w' p, port_stop i s = Ok (tt, set_world w' s) /\ moved i (world s) w' p /\ like (port_of s i) p /\ started p = false /\ ci p = 0.
Proof.
  intros Hi Hc. unfold port_stop. rewrite (K_bind_Ok _ _ _ _ _ (read_cmd i s Hi)). set (c := Z.ldiff _ _).
  assert (Z.testbit c 0 = false) as Hb by (unfold c; rewrite Z.ldiff_spec; change (Z.testbit (AHCI_PxCMD_ST .| AHCI_PxCMD_FRE)%C 0) with true; apply andb_false_r).
  destruct (write_spec i CMD c _ s Hi ltac:(done) eq_refl) as (w1 & E1 & W1). rewrite (K_bind_Ok _ _ _ _ _ E1). rewrite Hb in W1. set (p1 := set_cmd _ _ _) in W1.
  assert (started p1 = false) as Hs1 by (unfold p1, started; cbn [pcmd set_cmd]; by rewrite started_write).
  assert (moved i (world s) w1 p1) as M1 by (eapply moved_wrote; [|exact W1]; by split).
  destruct (wait_clear_spec i (AHCI_PxCMD_FR .| AHCI_PxCMD_CR)%C (Z.to_nat 50000) (set_world w1 s)) as (w2 & E2 & Q2).
  { eapply moved_idle; [exact Hc|exact M1|]. intros [Hx _]. congruence. }
  destruct (moved_quiet i _ _ _ _ Hi M1 Q2) as (p2 & [] & M2). exists w2, p2. split; [exact E2|]. split; [done|]. split; [by split|]. split; [congruence|]. by rewrite ev_ci0.
Qed.

Lemma port_start_spec i s : 0 <= i < 32 -> idle (world s) -> ci (port_of s i) = 0 ->
  exists w' p, port_start i s = Ok (tt, set_world w' s) /\ moved i (world s) w' p /\ like (port_of s i) p /\ started p = true /\ ci p = 0.
Proof.
  intros Hi Hc Hci. unfold port_start. destruct (wait_clear_spec i AHCI_PxCMD_CR (Z.to_nat 50000) s Hc) as (w1 & E1 & Q1). rewrite (K_bind_Ok _ _ _ _ _ E1).
  assert (moved i (world s) (world s) (port_of s i)) as M0 by (split; done). destruct (moved_quiet i _ _ _ _ Hi M0 Q1) as (p1 & [] & M1). rewrite (K_bind_Ok _ _ _ _ _ (read_cmd i _ Hi)).
  destruct (write_spec i CMD (pcmd (port_of (set_world w1 s) i) .| AHCI_PxCMD_FRE)%C _ (set_world w1 s) Hi ltac:(done) eq_refl) as (w2 & E2 & W2). rewrite (K_bind_Ok _ _ _ _ _ E2), (K_bind_Ok _ _ _ _ _ (read_cmd i _ Hi)).
  pose proof (moved_wrote _ _ _ _ _ _ M1 W2) as M2. set (p2 := set_cmd _ _ _) in M2. assert (port_of (set_world w1 s) i = p1) as Ep by apply M1.
  set (c := (_ .| AHCI_PxCMD_ST)%C). assert (Z.testbit c 0 = true) as Hb by (unfold c; rewrite Z.lor_spec; apply orb_true_r).
  destruct (write_spec i CMD c _ (set_world w2 (set_world w1 s)) Hi ltac:(done) eq_refl) as (w3 & E3 & W3). rewrite Hb in W3. pose proof (moved_wrote _ _ _ _ _ _ M2 W3) as M3.
  assert (port_of (set_world w2 (set_world w1 s)) i = p2) as Ep2 by apply M2. rewrite Ep2 in M3. eexists w3, _. split; [exact E3|]. split; [exact M3|].
  assert (ci p2 = 0) as Hc2 by (unfold p2; rewrite Ep; cbn [ci set_cmd]; rewrite ev_ci0; rewrite Hci; match goal with |- (if ?b then _ else _) = _ => by destruct b end).
  unfold p2 in *. rewrite Ep in *. split; [by split|]. split; [|done]. unfold started. cbn [pcmd set_cmd]. rewrite started_write. exact Hb.
Qed.

Lemma alloc_one s : pmm_wf (pm s) -> exists a p', in_vm Vmm.alloc_page s = Ok (a, with_pm p' s) /\ page_alloc (pm s) a p'.
Proof. intros Hwf. destruct (alloc_page_page (vm s) Hwf) as (a & p' & E & Ha). exists a, p'. split; [|done]. unfold in_vm. by rewrite E. Qed.

Lemma free_one s a : pmm_wf (pm s) -> page (pm s) a -> in_vm (Vmm.free_page a) s = Ok (tt, with_pm (release_page (pm s) (a / 4096)) s).
Proof. intros Hwf Ha. unfold in_vm. by rewrite (free_page_page (vm s) a Hwf Ha). Qed.

(** Memory that was in use is as it was. *)
Definition kept (p : pmm) (m m' : mem) : Prop := forall x y, page p x -> x <= y < x + 4096 -> m' y = m y.

Lemma kept_store p m m' a bs b : kept p m m' -> a mod 4096 = 0 -> ~ page p a -> a <= b -> b + blen bs <= a + 4096 -> kept p m (store m' b bs).
Proof.
  intros Hk Ha Hn H1 H2 x y Hx Hy. unfold store. replace ((b <=? y) && (y <? b + blen bs)) with false; [by eapply Hk|].
  assert (x <> a) by congruence. destruct Hx as [Hx _ _ _]. lia.
Qed.

Definition triple_ok (p p' : pmm) (r : option (Z * Z * Z)) : Prop :=
  match r with
  | None => (free_count p < 3)%nat
  | Some (a, b, c) => page p' a /\ page p' b /\ page p' c /\ a <> b /\ a <> c /\ b <> c /\ ~ page p a /\ ~ page p b /\ ~ page p c /\
      (free_count p <= 3 + free_count p')%nat
  end.

Lemma alloc_three_spec s : pmm_wf (pm s) -> exists r m' p', alloc_three s = Ok (r, set_world (m', (world s).2) (with_pm p' s)) /\ pmm_wf p' /\
  (forall x, page (pm s) x -> page p' x) /\ kept (pm s) (world s).1 m' /\ triple_ok (pm s) p' r.
Proof.
  intros Hwf. unfold alloc_three. set (m := (world s).1). set (d := (world s).2). assert (kept (pm s) m m) as K0 by by intros x y.
  destruct (alloc_one s Hwf) as (a & p1 & E1 & [Hwf1 Hk1 Ha]). rewrite (K_bind_Ok _ _ _ _ _ E1).
  destruct Ha as [(-> & Hc & ->)|(Ha & Pa & Na & Hca & Ra)].
  { exists None, m, (pm s). split; [|split; [done|]; split; [done|]; split; [done|cbn; lia]]. destruct s as [? ? [] ? []]. done. }
  rewrite Ha. unfold put_mem. rewrite K_modify. pose proof (pg_aligned _ _ Pa) as Aa. pose proof (kept_store _ _ _ a (zeros 4096) a K0 Aa Na ltac:(lia) ltac:(rewrite blen_zeros; lia)) as K1.
  set (s1 := set_world _ _). destruct (alloc_one s1 Hwf1) as (b & p2 & E2 & [Hwf2 Hk2 Hb]). change (pm s1) with p1 in *. rewrite (K_bind_Ok _ _ _ _ _ E2).
  destruct Hb as [(-> & Hc & ->)|(Hb & Pb & Nb & Hcb & Rb)].
  { cbn [Z.eqb]. rewrite Z.eqb_refl, (K_bind_Ok _ _ _ _ _ (free_one (with_pm p1 s1) a Hwf1 Pa)). change (pm (with_pm p1 s1)) with p1. rewrite Ra. eexists None, _, (pm s). split; [reflexivity|]. split; [done|]. split; [done|]. split; [exact K1|cbn; lia]. }
  rewrite Hb. rewrite K_modify. pose proof (pg_aligned _ _ Pb) as Ab. assert (~ page (pm s) b) as Nb' by auto. pose proof (kept_store _ _ _ b (zeros 4096) b K1 Ab Nb' ltac:(lia) ltac:(rewrite blen_zeros; lia)) as K2.
  set (s2 := set_world _ (with_pm p2 s1)). destruct (alloc_one s2 Hwf2) as (c & p3 & E3 & [Hwf3 Hk3 Hc]). change (pm s2) with p2 in *. rewrite (K_bind_Ok _ _ _ _ _ E3).
  destruct Hc as [(-> & Hc & ->)|(Hc & Pc & Nc & Hcc & _)].
  { rewrite Z.eqb_refl. pose proof (Hk2 _ Pa) as Pa2. rewrite (K_bind_Ok _ _ _ _ _ (free_one (with_pm p2 s2) a Hwf2 Pa2)). change (pm (with_pm p2 s2)) with p2.
    assert (pmm_wf (release_page p2 (a / 4096))) as Hwr by by apply release_page_page. assert (a <> b) as Hab by congruence.
    assert (forall x, page p2 x -> x <> a -> page (release_page p2 (a / 4096)) x) as Hk by (intros x Hx Hne; by apply release_keeps).
    set (s3 := with_pm (release_page p2 (a / 4096)) (with_pm p2 s2)). rewrite (K_bind_Ok _ _ _ _ _ (free_one s3 b Hwr (Hk b Pb (not_eq_sym Hab)))).
    eexists None, _, _. split; [reflexivity|]. change (pm s3) with (release_page p2 (a / 4096)). split; [apply release_page_page; [done|by apply Hk]|].
    split; [|split; [exact K2|cbn; lia]]. intros x Hx. apply release_keeps; [done|by apply Hk|apply Hk; [by auto|congruence]|]. intros ->. by auto. }
  rewrite Hc, K_modify. assert (~ page (pm s) c) as Nc' by auto. eexists (Some (a, b, c)), _, p3. split; [reflexivity|]. split; [done|]. split; [by auto|].
  split; [exact (kept_store _ _ _ c (zeros 4096) c K2 (pg_aligned _ _ Pc) Nc' ltac:(lia) ltac:(rewrite blen_zeros; lia))|].
  cbn. split; [by auto|]. split; [by auto|]. split; [done|]. split; [congruence|]. split; [intros ->; by auto|]. split; [congruence|]. by repeat (split; [by auto|]); lia.
Qed.

(** What the registers say of the device behind a port. *)
Definition usable (p : pview) : bool := (ssts p mod 16 =? 3) && (ssts p / 256 mod 16 =? 1) && (sig p =? 0x101).

(** The pages of a port are allocated. *)
Definition owned (p : pmm) (q : port_state) : Prop := page p (cmd_list q) /\ page p (fis_buf q) /\ page p (cmd_table q).

Record inited (i : Z) s (b : bool) s' : Prop := {
  in_ports : s_ports s' = (if b then aset (s_ports s) i (state_of s' i) else s_ports s);
  in_rest : host s' = host s /\ s_first_disk s' = s_first_disk s;
  in_wf : pmm_wf (pm s');
  in_keep : forall x, page (pm s) x -> page (pm s') x;
  in_mem : kept (pm s) (world s).1 (world s').1;
  in_idle : idle (world s');
  in_others : others (world s) (world s') i;
  in_disk : disk (port_of s' i) = disk (port_of s i) /\ log (port_of s' i) = log (port_of s i);
  in_ready : b = true -> ready s' i /\ owned (pm s') (state_of s' i) /\ usable (port_of s i) = true;
  in_count : (free_count (pm s) <= 3 + free_count (pm s'))%nat }.

(** A port that is left alone. *)
Lemma inited_refl i s : pmm_wf (pm s) -> idle (world s) -> inited i s false s.
Proof. intros Hwf Hc. split; [done|done|done|done|by intros x y|done|intros j Hj _; reflexivity|done|done|lia]. Qed.

Lemma port_is_present_spec i s : 0 <= i < 32 -> port_is_present i s = Ok ((ssts (port_of s i) mod 16 =? 3) && (ssts (port_of s i) / 256 mod 16 =? 1), s).
Proof.
  intros Hi. unfold port_is_present, read. rewrite !K_gets. destruct (read_port (world s).2 i Hi) as (_ & _ & _ & _ & -> & _). fold (port_of s i).
  change AHCI_PxSSTS_DET_MASK with (2 ^ 4 - 1). change 0xf with (2 ^ 4 - 1). rewrite !land_ones_mod, Z.shiftr_div_pow2 by done. done.
Qed.

Lemma le_bytes_halves v : le_bytes 8 v = le_bytes 4 (v .& 0xffffffff)%C ++ le_bytes 4 (u32 (v .>> 32)%C).
Proof.
  change 0xffffffff with (2 ^ 32 - 1). rewrite land_ones_mod, Z.shiftr_div_pow2 by lia. unfold u32. cbn [le_bytes app].
  repeat (f_equal; [Z.to_euclidean_division_equations; lia|]). f_equal. Z.to_euclidean_division_equations; lia.
Qed.

(** One write of a sequence to the registers of port [i]. *)
Lemma moved_write i off v w0 p p' s : 0 <= i < 32 -> moved i w0 (world s) p -> on_write off v p = Some p' -> 0 <= off < 0x80 ->
  exists w1, write (port_reg i off) v s = Ok (tt, set_world w1 s) /\ moved i w0 w1 p'.
Proof.
  intros Hi M E Ho. destruct (write_spec i off v p' s Hi Ho) as (w1 & E1 & W1); [unfold port_of; by rewrite (mv_port _ _ _ _ M)|].
  exists w1. split; [done|by eapply moved_wrote].
Qed.

Lemma join_halves a old : is_u64 a -> u32 (a .>> 32)%C * 2 ^ 32 + (old / 2 ^ 32 * 2 ^ 32 + (a .& 0xffffffff)%C) mod 2 ^ 32 = a.
Proof. intros Ha. change 0xffffffff with (2 ^ 32 - 1). rewrite land_ones_mod, Z.shiftr_div_pow2 by lia. int_lia. Qed.

Lemma set_bases_spec i a b s : 0 <= i < 32 -> is_u64 a -> is_u64 b ->
  exists w' p, set_bases i a b s = Ok (tt, set_world w' s) /\ moved i (world s) w' p /\ clb p = a /\ fb p = b /\ ci p = ci (port_of s i) /\ started p = started (port_of s i) /\
    tfd p = tfd (port_of s i) /\ disk p = disk (port_of s i) /\ log p = log (port_of s i).
Proof.
  intros Hi Ha Hb. assert (moved i (world s) (world s) (port_of s i)) as M by (split; done). unfold set_bases.
  destruct (moved_write i CLBA (a .& 0xffffffff)%C (world s) _ _ s Hi M eq_refl ltac:(done)) as (w1 & E1 & M1). rewrite (K_bind_Ok _ _ _ _ _ E1).
  destruct (moved_write i CLBAU (u32 (a .>> 32)%C) (world s) _ _ (set_world w1 s) Hi M1 eq_refl ltac:(done)) as (w2 & E2 & M2). rewrite (K_bind_Ok _ _ _ _ _ E2).
  destruct (moved_write i FB (b .& 0xffffffff)%C (world s) _ _ (set_world w2 s) Hi M2 eq_refl ltac:(done)) as (w3 & E3 & M3). rewrite (K_bind_Ok _ _ _ _ _ E3).
  destruct (moved_write i FBU (u32 (b .>> 32)%C) (world s) _ _ (set_world w3 s) Hi M3 eq_refl ltac:(done)) as (w4 & E4 & M4). rewrite (K_bind_Ok _ _ _ _ _ E4).
  destruct (moved_write i IS 0xffffffff (world s) _ _ (set_world w4 s) Hi M4 eq_refl ltac:(done)) as (w5 & E5 & M5). rewrite (K_bind_Ok _ _ _ _ _ E5).
  destruct (moved_write i SERR 0xffffffff (world s) _ _ (set_world w5 s) Hi M5 eq_refl ltac:(done)) as (w6 & E6 & M6). rewrite (K_bind_Ok _ _ _ _ _ E6).
  destruct (moved_write i IE 0 (world s) _ _ (set_world w6 s) Hi M6 eq_refl ltac:(done)) as (w7 & E7 & M7). eexists w7, _. split; [exact E7|]. split; [exact M7|].
  cbn [set_is set_fb set_clb clb fb ci tfd disk log].
  split; [by apply join_halves|]. split; [by apply join_halves|]. done.
Qed.

(** ** After an error

    The driver never restarts a port, and so never takes the failed command back. *)
Lemma poll_stuck n i s : 0 <= i < 32 -> stuck s i -> exists w', poll (S n) i s = Ok (false, set_world w' s) /\ stuck (set_world w' s) i.
Proof.
  intros Hi [Hst Hci Htf Hc]. assert (forall w, idle w -> quiet w (run w) /\ idle (run w)) as Hrun by (intros w Hw; pose proof (idle_run w Hw); split; [done|by eapply idle_quiet]).
  destruct (Hrun (world s) Hc) as [Q1 I1]. destruct (Hrun _ I1) as [Q2 I2]. destruct (proj2 Q1 i Hi). destruct (proj2 (transitivity Q1 Q2) i Hi).
  cbn [poll]. unfold wait. rewrite K_modify, (K_bind_Ok _ _ _ _ _ (read_ci i Hi _)). cbn [world set_world]. rewrite land_1, ev_ci0. fold (port_of s i). rewrite Hci. cbn [Z.b2z Z.eqb].
  rewrite K_modify, (K_bind_Ok _ _ _ _ _ (read_tfd i Hi _)). cbn [world set_world]. change AHCI_PxTFD_ERR with 1. rewrite land_1, ev_tfd1. fold (port_of s i). rewrite Htf. cbn [Z.b2z Z.eqb negb].
  eexists. split; [reflexivity|]. unfold port_of in *. split; unfold port_of; cbn [world set_world]; [by rewrite ev_started1|by rewrite ev_ci1|by rewrite ev_tfd1|exact I2].
Qed.

(** Once a command of a port has failed, every request to that port is refused or fails. *)
Theorem error_is_final wr command i lba count buf s : 0 <= i < 32 -> length (s_ports s) = 32%nat -> stuck s i ->
  exists s', transfer wr command i lba count buf s = Ok (false, s') /\ stuck s' i.
Proof.
  intros Hi Hl Hs. unfold transfer. rewrite K_gets, Hl. change (Z.of_nat 32) with 32. replace (32 <=? i) with false by lia. destruct (present _); cbn [negb]; [|by exists s]. destruct (_ || _); [by exists s|].
  rewrite (K_bind_Ok _ _ _ _ _ (read_tfd i Hi s)). destruct (_ =? 0); cbn [negb]; [|by exists s]. rewrite K_gets. unfold put_mem. rewrite !K_modify. set (s1 := set_world _ (set_world _ _)).
  assert (moved i (world s1) (world s1) (port_of s i)) as M0 by (split; done). destruct Hs as [Hst Hci Htf Hc].
  destruct (moved_write i IS 0xffffffff (world s1) _ _ s1 Hi M0 eq_refl ltac:(done)) as (w2 & E2 & M2). rewrite (K_bind_Ok _ _ _ _ _ E2). set (p2 := set_is _ _) in M2.
  destruct (moved_write i CI 1 (world s1) p2 (set_ci (Z.lor (ci p2) 1) p2) (set_world w2 s1) Hi M2) as (w3 & E3 & M3); [unfold on_write; cbn [CI CLBA CLBAU FB FBU IS IE SERR CMD Z.eqb Pos.eqb orb]; change (started p2) with (started (port_of s i)); by rewrite Hst|done|].
  rewrite (K_bind_Ok _ _ _ _ _ E3). set (s3 := set_world w3 _). assert (port_of s3 i = set_ci (Z.lor (ci p2) 1) p2) as Ep by apply M3.
  assert (idle w3) as I3 by (eapply (moved_idle i (world s1)); [exact Hc|exact M3|intros (_ & _ & Ho); cbn in Ho; congruence]).
  destruct (poll_stuck (Nat.pred POLLS) i s3 Hi) as (w4 & E4 & S4); [split; rewrite ?Ep; [done|cbn; by rewrite <- Z.bit0_odd, Z.lor_spec, orb_true_r|done|exact I3]|].
  eexists. split; [|exact S4]. replace POLLS with (S (Nat.pred POLLS)) by (unfold POLLS; lia). exact E4.
Qed.

(** [ctba] of the first command header. *)
Definition wire (cl ct : Z) (m : mem) : mem := store (store m (cl + 8) (le_bytes 4 (ct .& 0xffffffff)%C)) (cl + 12) (le_bytes 4 (u32 (ct .>> 32)%C)).

Lemma wire_load cl ct m : load (wire cl ct m) (cl + 8) 8 = le_bytes 8 ct.
Proof.
  rewrite le_bytes_halves. rewrite (load_app _ (cl + 8) 4 4) by lia. unfold wire. f_equal.
  - rewrite load_store_ne by (rewrite blen_le_bytes; unfold apart; lia). by apply load_store_eq.
  - replace (cl + 8 + 4) with (cl + 12) by lia. by apply load_store_eq.
Qed.

Lemma wire_kept p m m' cl ct : kept p m m' -> cl mod 4096 = 0 -> ~ page p cl -> kept p m (wire cl ct m').
Proof. intros Hk Ha Hn. unfold wire. apply (kept_store _ _ _ cl); [apply (kept_store _ _ _ cl); [done..| |]|done..| |]; rewrite ?blen_le_bytes; lia. Qed.

Lemma port_init_spec i s : 0 <= i < 32 -> length (s_ports s) = 32%nat -> pmm_wf (pm s) -> idle (world s) -> (usable (port_of s i) = true -> Z.land (tfd (port_of s i)) (2 ^ 7 + 2 ^ 3 + 1) = 0) ->
  exists b s', port_init i s = Ok (b, s') /\ inited i s b s' /\ (b = false -> usable (port_of s i) = false \/ (free_count (pm s) < 3)%nat).
Proof.
  intros Hi Hl Hwf Hc Ht. unfold port_init. rewrite (K_bind_Ok _ _ _ _ _ (port_is_present_spec i s Hi)).
  assert (usable (port_of s i) = false -> inited i s false s /\ (false = false -> usable (port_of s i) = false \/ (free_count (pm s) < 3)%nat)) as Hno by (intros Hu; split; [by apply inited_refl|by auto]).
  destruct ((_ =? 3) && _) eqn:Hp; cbn [negb]; [|exists false, s; split; [done|apply Hno; unfold usable; by rewrite Hp]].
  unfold read at 1. rewrite K_gets. destruct (read_port (world s).2 i Hi) as (_ & _ & _ & -> & _ & _). fold (port_of s i). change AHCI_SIG_ATA with 0x101.
  destruct (sig (port_of s i) =? 0x101) eqn:Hsig; cbn [negb]; [|exists false, s; split; [done|apply Hno; unfold usable; by rewrite Hp, Hsig]].
  assert (usable (port_of s i) = true) as Hu by (unfold usable; by rewrite Hp, Hsig). specialize (Ht Hu). clear Hno.
  destruct (port_stop_spec i s Hi Hc) as (w1 & p1 & E1 & M1 & L1 & S1 & C1). rewrite (K_bind_Ok _ _ _ _ _ E1). assert (idle w1) as I1 by (eapply moved_idle; [exact Hc|exact M1|intros [Hx _]; congruence]).
  destruct (alloc_three_spec (set_world w1 s) Hwf) as (r & m2 & p' & E2 & Hwf2 & Hk2 & Km2 & Hr). rewrite (K_bind_Ok _ _ _ _ _ E2).
  change (pm (set_world w1 s)) with (pm s) in *. cbn [world set_world] in Km2. rewrite (mv_mem _ _ _ _ M1) in Km2.
  destruct r as [[[cl f] ct]|]; cbn [triple_ok] in Hr.
  2:{ exists false. eexists. split; [reflexivity|]. split; [|by auto]. split; try done.
    - apply M1.
    - unfold port_of at 1 3. cbn [world set_world snd]. rewrite (mv_port _ _ _ _ M1). by destruct L1.
    - lia. }
  destruct Hr as (Pc & Pf & Pt & N1 & N2 & N3 & Nc & Nf & Nt & Hcnt). unfold put_mem. rewrite !K_modify.
  set (s3 := set_world (wire cl ct m2, w1.2) (with_pm p' s)). match goal with |- context [set_bases i cl f _ ≫= _] => idtac | |- context [(set_bases i cl f ≫= ?k) ?x] => change x with s3 end.
  assert (is_u64 cl /\ is_u64 f /\ is_u64 ct) as (U1 & U2 & U3) by (destruct Pc, Pf, Pt; int_lia).
  destruct (set_bases_spec i cl f s3 Hi U1 U2) as (w4 & p4 & E4 & M4 & B1 & B2 & B3 & B4 & B5 & B6 & B7). rewrite (K_bind_Ok _ _ _ _ _ E4).
  assert (port_of s3 i = p1) as Ep by apply M1. rewrite Ep in B3, B4, B5, B6, B7. unfold set_port. rewrite K_modify. set (s4 := set_ports _ _).
  assert (others (world s) (world s3) i) as O3 by (intros j Hj Hne; by apply (mv_others _ _ _ _ M1)).
  assert (idle (world s3)) as I3 by (intros j Hj; by apply I1). assert (idle w4) as I4 by (eapply moved_idle; [exact I3|exact M4|intros [Hx _]; congruence]).
  assert (port_of s4 i = p4) as Ep4 by apply M4. destruct (port_start_spec i s4 Hi I4) as (w5 & p5 & E5 & M5 & L5 & S5 & C5); [by rewrite Ep4, B3|]. rewrite (K_bind_Ok _ _ _ _ _ E5).
  exists true. eexists. split; [reflexivity|]. rewrite Ep4 in L5.
  assert (state_of (set_world w5 s4) i = mk_port true cl f ct) as Es by (unfold state_of; cbn [s_ports set_world s4 set_ports]; apply aget_aset_eq; change (0 <= i < Z.of_nat (length (s_ports s))); lia).
  assert (port_of (set_world w5 s4) i = p5) as Ep5 by apply M5. assert (w5.1 = wire cl ct m2) as Em by (rewrite (mv_mem _ _ _ _ M5); apply M4).
  split; [|done]. destruct L1, L5. split; rewrite ?Es, ?Ep5; try done.
  - intros x y Hx Hy. cbn [world set_world]. rewrite Em. by apply (wire_kept (pm s) (world s).1 m2 cl ct Km2 (pg_aligned _ _ Pc) Nc x y).
  - eapply moved_idle; [exact I4|exact M5|]. intros (_ & Hx & _). by rewrite C5 in Hx.
  - eapply others_trans; [exact O3|]. eapply others_trans; apply M4 || apply M5.
  - split; congruence.
  - intros _. split; [|split; [by split|done]]. destruct Pc, Pf, Pt. split; rewrite ?Es, ?Ep5; cbn [present cmd_list fis_buf cmd_table]; try congruence; try (by apply pages_apart).
    + cbn [s_ports set_world s4 set_ports]. by rewrite aset_length.
    + cbn [world set_world]. by rewrite Em, wire_load.
Qed.

Lemma ready_frame s s' j : ready s j -> state_of s' j = state_of s j -> length (s_ports s') = 32%nat -> eqv (port_of s j) (port_of s' j) ->
  (forall y, cmd_list (state_of s j) <= y < cmd_list (state_of s j) + 4096 -> (world s').1 y = (world s).1 y) -> ready s' j.
Proof.
  intros [] Es El [] Hm. split; rewrite ?Es; try congruence; [|done..]. rewrite <- re_table0. apply load_ext. intros x Hx. apply Hm. lia.
Qed.

(** The ports below [i] have been tried; [s0] is the state before. *)
Record upto s0 (i : Z) s (found : bool) : Prop := {
  up_len : length (s_ports s) = 32%nat;
  up_wf : pmm_wf (pm s);
  up_idle : idle (world s);
  up_pages : forall x, page (pm s0) x -> page (pm s) x;
  up_mem : kept (pm s0) (world s0).1 (world s).1;
  up_done : forall j, 0 <= j < i -> present (state_of s j) = true -> ready s j /\ owned (pm s) (state_of s j) /\ usable (port_of s0 j) = true /\ Z.testbit implemented j = true;
  up_todo : forall j, i <= j < 32 -> state_of s j = no_port /\ eqv (port_of s0 j) (port_of s j);
  up_disk : forall j, 0 <= j < 32 -> disk (port_of s j) = disk (port_of s0 j) /\ log (port_of s j) = log (port_of s0 j);
  up_all : (96 <= free_count (pm s0))%nat -> forall j, 0 <= j < i -> usable (port_of s0 j) = true -> Z.testbit implemented j = true -> present (state_of s j) = true;
  up_count : (free_count (pm s0) <= free_count (pm s) + 3 * Z.to_nat i)%nat;
  up_first : (s_first_disk s < 0 /\ found = false /\ forall j, 0 <= j < i -> present (state_of s j) = false) \/
    (found = true /\ 0 <= s_first_disk s < i /\ present (state_of s (s_first_disk s)) = true /\ forall j, 0 <= j < s_first_disk s -> present (state_of s j) = false) }.

Definition note_first (b : bool) (i : Z) s : st D H := if b && (s_first_disk s <? 0) then set_first i s else s.

Lemma note_first_same b i s : s_ports (note_first b i s) = s_ports s /\ vm (note_first b i s) = vm s /\ world (note_first b i s) = world s /\ host (note_first b i s) = host s.
Proof. unfold note_first. by destruct (b && _). Qed.

Lemma eqv_usable p q : eqv p q -> usable q = usable p.
Proof. intros []. unfold usable. by rewrite ev_sig0, ev_ssts0. Qed.

Lemma inited_state i s b s' j : 0 <= i < 32 -> 0 <= j -> j <> i -> inited i s b s' -> state_of s' j = state_of s j.
Proof. intros Hi Hj Hne I. unfold state_of. rewrite (in_ports _ _ _ _ I). destruct b; [|done]. rewrite aget_aset_ne by lia. done. Qed.

Lemma upto_step s0 i s found b s' : 0 <= i < 32 -> upto s0 i s found -> inited i s b s' -> (b = true -> Z.testbit implemented i = true) ->
  (b = false -> Z.testbit implemented i = true -> usable (port_of s i) = false \/ (free_count (pm s) < 3)%nat) ->
  upto s0 (i + 1) (note_first b i s') (found || b).
Proof.
  intros Hi U I Hb1 Hb2. destruct (note_first_same b i s') as (F1 & F2 & F3 & F4). set (t := note_first b i s') in *.
  assert (forall j, state_of t j = state_of s' j) as Est by (intros j; unfold state_of; by rewrite F1). assert (pm t = pm s') as Epm by (unfold pm; by rewrite F2).
  assert (forall j, port_of t j = port_of s' j) as Ept by (intros j; unfold port_of; by rewrite F3).
  assert (forall j, 0 <= j -> j <> i -> state_of s' j = state_of s j) as Ej by (intros j Hj Hne; by eapply inited_state).
  assert (length (s_ports s') = 32%nat) as El by (rewrite (in_ports _ _ _ _ I); destruct b; rewrite ?aset_length; apply U).
  destruct (up_todo _ _ _ _ U i ltac:(lia)) as [Ti Te].
  assert (present (state_of s' i) = b) as Hpi.
  { destruct b; [by destruct (in_ready _ _ _ _ I eq_refl) as [[] _]|]. unfold state_of. rewrite (in_ports _ _ _ _ I). fold (state_of s i). by rewrite Ti. }
  destruct U as [_ Uwf Uid Upg Um Ud Ut Udk Ua Uc Uf].
  split; rewrite ?F1, ?F3, ?Epm; try setoid_rewrite Est; try setoid_rewrite Ept; try (by apply I); try done.
  - intros x Hx. by apply (in_keep _ _ _ _ I), Upg.
  - intros x y Hx Hy. rewrite (in_mem _ _ _ _ I x y (Upg _ Hx) Hy). by apply (Um x).
  - intros j Hj Hpj. destruct (decide (j = i)) as [->|Hne].
    + rewrite Hpi in Hpj. destruct (in_ready _ _ _ _ I Hpj) as (R & O & Us). rewrite (eqv_usable _ _ Te) in Us. split; [|auto]. destruct R; split; rewrite ?F1, ?F3, ?Est, ?Ept; done.
    + rewrite Ej in Hpj by lia. destruct (Ud j ltac:(lia) Hpj) as (R & O & Us). rewrite Ej by lia. split; [|split; [|done]].
      * eapply ready_frame; [exact R|rewrite Est; apply Ej; lia|by rewrite F1|rewrite Ept; apply (in_others _ _ _ _ I); lia|]. intros y Hy. rewrite F3. apply (in_mem _ _ _ _ I _ y (proj1 O) Hy).
      * destruct O as (O1 & O2 & O3). split; [|split]; by apply (in_keep _ _ _ _ I).
  - intros j Hj. rewrite Ej by lia. destruct (Ut j ltac:(lia)) as [T1 T2]. split; [done|]. etrans; [exact T2|]. apply (in_others _ _ _ _ I); lia.
  - intros j Hj. destruct (Udk j Hj) as [D1 D2]. destruct (decide (j = i)) as [->|Hne].
    + destruct (in_disk _ _ _ _ I). split; congruence.
    + destruct (in_others _ _ _ _ I j Hj Hne). unfold port_of in *. split; congruence.
  - intros Hbig j Hj Hu Ht. destruct (decide (j = i)) as [->|Hne]; [|rewrite Ej by lia; apply Ua; done || lia].
    rewrite Hpi. destruct b; [done|]. destruct (Hb2 eq_refl Ht) as [Hx|Hx]; [rewrite (eqv_usable _ _ Te) in Hx; congruence|lia].
  - pose proof (in_count _ _ _ _ I). lia.
  - unfold t, note_first. destruct (in_rest _ _ _ _ I) as [_ Efd]. rewrite Efd. destruct Uf as [(G1 & -> & G3)|(-> & G2 & G3 & G4)].
    + replace (s_first_disk s <? 0) with true by lia. rewrite andb_true_r. destruct b; cbn [orb set_first s_first_disk].
      * right. split; [done|]. split; [lia|]. split; [done|]. intros j Hj. rewrite Ej by lia. apply G3. lia.
      * left. split; [lia|]. split; [done|]. intros j Hj. destruct (decide (j = i)) as [->|Hne]; [done|]. rewrite Ej by lia. apply G3. lia.
    + replace (s_first_disk s <? 0) with false by lia. rewrite andb_false_r, Efd. cbn [orb]. right. split; [done|]. split; [lia|]. rewrite Ej by lia. split; [done|].
      intros j Hj. rewrite Ej by lia. by apply G4.
Qed.

Lemma land_bit_eqb x i : 0 <= i -> ((x .& Z.shiftl 1 i)%C =? 0) = negb (Z.testbit x i).
Proof.
  intros Hi. destruct (Z.testbit x i) eqn:E; cbn [negb].
  - apply Z.eqb_neq. intros H0. apply (f_equal (fun z => Z.testbit z i)) in H0. rewrite Z.land_spec, E, testbit_one_shift, Z.bits_0, bool_decide_true in H0 by lia. done.
  - apply Z.eqb_eq. apply Z.bits_inj'. intros k Hk. rewrite Z.land_spec, testbit_one_shift, Z.bits_0 by lia. destruct (decide (k = i)) as [->|Hne]; [by rewrite E|]. rewrite bool_decide_false by done. apply andb_false_r.
Qed.

Lemma init_ports_spec s0 n : forall i s found, Z.of_nat n + i = 32 -> 0 <= i -> upto s0 i s found ->
  (forall j, 0 <= j < 32 -> usable (port_of s0 j) = true -> Z.land (tfd (port_of s0 j)) (2 ^ 7 + 2 ^ 3 + 1) = 0) ->
  exists b s', init_ports n i implemented found s = Ok (b, s') /\ upto s0 32 s' b.
Proof.
  induction n as [|n IH]; intros i s found Hn Hi U Ht; cbn [init_ports]; [exists found, s; split; [done|]; by replace 32 with i by lia|].
  rewrite land_bit_eqb by done. destruct (Z.testbit implemented i) eqn:Eb; cbn [negb].
  - destruct (up_todo _ _ _ _ U i ltac:(lia)) as [_ Te].
    destruct (port_init_spec i s ltac:(lia) (up_len _ _ _ _ U) (up_wf _ _ _ _ U) (up_idle _ _ _ _ U)) as (b & s' & E & I & Hf); [rewrite (ev_tfd _ _ Te); intros Hu; apply Ht; [lia|]; revert Hu; unfold usable; by rewrite (ev_ssts _ _ Te), (ev_sig _ _ Te)|].
    rewrite (K_bind_Ok _ _ _ _ _ E). pose proof (upto_step s0 i s found b s' ltac:(lia) U I ltac:(done) ltac:(by auto)) as U'. unfold note_first in U'.
    destruct b; cbn [andb] in U'; rewrite ?orb_true_r, ?orb_false_r in U'; rewrite ?K_modify; apply IH; done || lia.
  - pose proof (upto_step s0 i s found false s ltac:(lia) U (inited_refl i s (up_wf _ _ _ _ U) (up_idle _ _ _ _ U)) ltac:(done) ltac:(congruence)) as U'. rewrite orb_false_r in U'. apply IH; done || lia.
Qed.

(** The machine before [ahci_init]: the bus has an AHCI adapter that can master it, whose registers, if it has any
    behind BAR 5, lie below the end of the direct map (the driver makes no mapping of its own for them). No command
    is under way, and a port with an ATA disk behind it reports neither busy nor an error; a port without one may
    report anything. *)
Record machine s (x : Z * Z * Z) : Prop := {
  ma_find : find_fn (config (host s)) 0x01 0x06 = Some x;
  ma_master : Z.testbit (writable (bus (to_addr x)) (dev (to_addr x)) (func (to_addr x)) 1) 2 = true;
  ma_direct : bar (config (host s)) (to_addr x) 5 <> 0 -> bar (config (host s)) (to_addr x) 5 + sizeof_ahci_hba <= Vmm.vdirect_map_size (vm s);
  ma_pmm : pmm_wf (pm s);
  ma_ports : s_ports s = replicate 32 no_port;
  ma_first : s_first_disk s = -1;
  ma_calm : calm s;
  ma_tfd : forall j, 0 <= j < 32 -> usable (port_of s j) = true -> Z.land (tfd (port_of s j)) (2 ^ 7 + 2 ^ 3 + 1) = 0 }.

Definition disk_at s (j : Z) : Prop := 0 <= j < 32 /\ present (state_of s j) = true.

(** C30: [ahci_init], called once, on a machine with an AHCI adapter as [machine] has it: the adapter can master the
    bus; its registers lie within the direct map, through which the driver reaches them without a mapping of its own;
    the page allocator is well formed; no command is under way; and a port with an ATA disk reports neither busy nor an error in its task file (nothing is asked of the others). The
    function then never faults and always returns. Afterwards every port that the driver has marked present is ready
    for requests, is one that the adapter implements and has an ATA disk behind it; with 96 free pages, and unless
    the adapter's BAR 5 is 0, every such port is present. [ahci_first_disk] is the least of them, and the result says
    whether there is one. No disk has changed, nor has memory that was in use. *)
Theorem ahci_init_correct s x : machine s x -> exists b s', ahci_init s = Ok (b, s') /\ calm s' /\
  (forall j, disk_at s' j -> ready s' j /\ Z.testbit implemented j = true /\ usable (port_of s j) = true) /\
  ((96 <= free_count (pm s))%nat -> bar (config (host s)) (to_addr x) 5 <> 0 -> forall j, 0 <= j < 32 -> Z.testbit implemented j = true -> usable (port_of s j) = true -> disk_at s' j) /\
  (b = true -> disk_at s' (ahci_first_disk s') /\ forall j, disk_at s' j -> ahci_first_disk s' <= j) /\
  (b = false -> ahci_first_disk s' < 0 /\ forall j, ~ disk_at s' j) /\
  (forall j, 0 <= j < 32 -> disk (port_of s' j) = disk (port_of s j)) /\
  kept (pm s) (world s).1 (world s').1.
Proof.
  intros [Hfind Hmaster Hdir Hwf Hports Hfirst Hcalm Htfd]. unfold ahci_init.
  destruct (find_device (host s) 0x01 0x06 x 5 Hfind Hmaster ltac:(lia)) as (h1 & h2 & h3 & F1 & Fv & F2 & F3). set (a := to_addr x) in *.
  assert (forall A (m : K H A) r h' s0, m (host s0) = Ok (r, h') -> in_host m s0 = Ok (r, set_host h' s0)) as Hin by (intros A m r h' s0 E; unfold in_host; by rewrite E).
  rewrite (K_bind_Ok _ _ _ _ _ (Hin _ _ _ _ s F1)), Fv. cbn [negb].
  rewrite (K_bind_Ok _ _ _ _ _ (Hin _ _ _ _ (set_host h1 s) F2)), (K_bind_Ok _ _ _ _ _ (Hin _ _ _ _ (set_host h2 (set_host h1 s)) F3)).
  set (s1 := set_host h3 _). assert (forall j, 0 <= j -> state_of s j = no_port) as Hno by (intros j Hj; unfold state_of; rewrite Hports, aget_lookup; by destruct (replicate 32 no_port !! Z.to_nat j) as [?|] eqn:E; [apply lookup_replicate in E as [-> _]|]).
  destruct (Z.eqb_spec (bar (config (host s)) a 5) 0) as [Hz|Hbar].
  { assert (forall j, ~ disk_at s1 j) as Hd by (intros j [Hj Hp]; change (state_of s1 j) with (state_of s j) in Hp; rewrite Hno in Hp by lia; done).
    exists false, s1. split; [done|]. split; [exact Hcalm|]. split; [by intros j Hj%Hd|]. split; [done|]. split; [done|]. split; [|done]. intros _. unfold ahci_first_disk. change (s_first_disk s1) with (s_first_disk s). split; [lia|exact Hd]. }
  specialize (Hdir Hbar). rewrite K_gets. change (vm s1) with (vm s). replace (_ <? _) with false by lia.
  unfold read. rewrite K_gets. unfold write. rewrite K_modify. set (s2 := set_world _ s1). rewrite K_gets, (read_pi (world s2).2).
  assert (forall j, port_of s2 j = port_of s j) as Ep by (intros j; apply write_ghc).
  assert (upto s2 0 s2 false) as U.
  { split; try done.
    - change (s_ports s2) with (s_ports s). by rewrite Hports.
    - intros j Hj. fold (port_of s2 j). rewrite Ep. by apply Hcalm.
    - intros j Hj. lia.
    - intros j Hj. split; [by apply Hno; lia|reflexivity].
    - intros _ j Hj. lia.
    - lia.
    - left. change (s_first_disk s2) with (s_first_disk s). split; [lia|]. split; [done|]. intros j Hj. lia. }
  destruct (init_ports_spec s2 (Z.to_nat MAX_PORTS) 0 s2 false eq_refl ltac:(lia) U) as (b & s' & E & U'); [intros j Hj Hu; rewrite Ep in *; by apply Htfd|].
  exists b, s'. split; [exact E|]. clear E U. destruct U' as [_ _ Uid _ Um Ud _ Udk Ua _ Uf]. change (pm s2) with (pm s) in *. split; [exact Uid|].
  split; [intros j [Hj Hpj]; destruct (Ud j Hj Hpj) as (R & _ & Hu & Him); rewrite <- Ep; done|].
  split; [intros Hbig _ j Hj Him Hu; split; [done|]; apply Ua; [done..|by rewrite Ep|done]|]. unfold ahci_first_disk, disk_at.
  split; [intros ->; destruct Uf as [(_ & [=] & _)|(_ & G1 & G2 & G3)]; split; [done|]; intros j [Hj Hpj]; destruct (decide (j < s_first_disk s')) as [Hlt|]; [|lia]; rewrite G3 in Hpj by lia; done|].
  split; [intros ->; destruct Uf as [(G1 & _ & G2)|([=] & _)]; split; [done|]; intros j [Hj Hpj]; by rewrite G2 in Hpj|].
  split; [intros j Hj; rewrite <- Ep; by apply Udk|exact Um].
Qed.

End proofs.

(** ** An adapter

    It executes the command of the first port that has one, at once; it has two ports with a disk. *)
Definition adapter : Type := Z -> pview.
Definition busyb (p : pview) : bool := started p && Z.odd (ci p) && negb (Z.odd (tfd p)).
Definition next_port (d : adapter) : option Z := list_find (fun i => busyb (d i) = true) (seqZ 0 32) ≫= fun x => Some x.2.

Definition execute (m : mem) (p : pview) : mem * pview :=
  if known m p then let '(m', d') := effect m p in (m', finish (ci p - 1) 0 0x50 d' (fis m p, true) p)
  else (m, finish (ci p) (2 ^ 30) 0x51 (disk p) (fis m p, false) p).

Definition adapter_run (x : mem * adapter) : mem * adapter :=
  match next_port x.2 with Some i => let '(m', p') := execute x.1 (x.2 i) in (m', update x.2 i p') | None => x end.

Definition port_read (off : Z) (p : pview) : Z :=
  if off =? IS then pis p else if off =? CMD then pcmd p else if off =? TFD then tfd p else if off =? SIG then sig p
  else if off =? SSTS then ssts p else if off =? CI then ci p else 0.

#[export] Instance adapter_mmio : Mmio adapter := {
  reg_read off d := if off =? PI then 5 else port_read ((off - 0x100) mod 0x80) (d ((off - 0x100) / 0x80));
  reg_write off v d := if off =? GHC then d else let i := (off - 0x100) / 0x80 in default d (update d i <$> on_write ((off - 0x100) mod 0x80) v (d i));
  run := adapter_run }.

Lemma busyb_spec p : busyb p = true <-> busy p.
Proof. unfold busyb, busy. rewrite !andb_true_iff, negb_true_iff. tauto. Qed.

Lemma next_port_some d i : next_port d = Some i -> 0 <= i < 32 /\ busy (d i).
Proof.
  unfold next_port. destruct (list_find _ _) as [[n j]|] eqn:E; [|done]. cbn. intros [= ->]. apply list_find_Some in E as (E1 & E2 & _). apply lookup_seqZ in E1. split; [lia|by apply busyb_spec].
Qed.

Lemma next_port_only d i : 0 <= i < 32 -> busy (d i) -> (forall j, 0 <= j < 32 -> j <> i -> ~ busy (d j)) -> next_port d = Some i.
Proof.
  intros Hi Hb Ho. destruct (next_port d) as [j|] eqn:E.
  - apply next_port_some in E as [Hj Hbj]. destruct (decide (j = i)) as [->|Hne]; [done|]. by destruct (Ho j Hj Hne).
  - exfalso. unfold next_port in E. destruct (list_find _ _) as [[n j]|] eqn:E'; [done|]. apply list_find_None in E'. rewrite Forall_forall in E'. apply (E' i); [apply elem_of_seqZ; lia|by apply busyb_spec].
Qed.

Lemma port_decode i off : 0 <= off < 0x80 -> (port_reg i off - 0x100) mod 0x80 = off /\ (port_reg i off - 0x100) / 0x80 = i.
Proof. unfold port_reg. lia. Qed.

Lemma execute_step m p : busy p -> pstep m p (execute m p).1 (execute m p).2.
Proof.
  intros (H1 & H2 & H3). unfold execute. destruct (known m p) eqn:Ek; [|by apply ps_unknown].
  pose proof (ps_done m p (effect m p).1 0x50 0 H1 H2 H3 Ek ltac:(done) eq_refl eq_refl) as Hs. by destruct (effect m p).
Qed.

#[export] Instance adapter_hba : AhciHba adapter.
Proof.
  refine (Build_AhciHba adapter _ (fun d => d) 5 _ _ _ _ _).
  - done.
  - intros d i Hi. unfold reg_read, adapter_mmio.
    assert (forall o, 0 <= o < 0x80 -> (if port_reg i o =? PI then 5 else port_read ((port_reg i o - 0x100) mod 0x80) (d ((port_reg i o - 0x100) / 0x80))) = port_read o (d i)) as Hr.
    { intros o Ho. destruct (port_decode i o Ho) as [-> ->]. replace (port_reg i o =? PI) with false by (unfold port_reg, PI; lia). done. }
    rewrite !Hr by done. done.
  - by intros d v j.
  - intros d i off v p' Hi Ho E j. unfold reg_write, adapter_mmio. destruct (port_decode i off Ho) as [-> ->]. replace (port_reg i off =? GHC) with false by (unfold port_reg, GHC; lia). by rewrite E.
  - intros m d. unfold run, adapter_mmio, adapter_run. cbn [fst snd]. destruct (next_port d) as [i|] eqn:E.
    + apply next_port_some in E as [Hi Hb]. pose proof (execute_step m (d i) Hb) as Hs. destruct (execute m (d i)) as [m' p']. exists i, p'. split; [done|]. split; [exact Hs|done].
    + exists 0, (d 0). split; [lia|]. split; [constructor|]. intros j. unfold update. by destruct (Z.eqb_spec j 0) as [->|].
Defined.

Lemma adapter_prompt : prompt adapter.
Proof.
  intros [m d] i Hi Hb Ho. exists 0%nat. split; [lia|]. cbn [Nat.iter nat_rect]. change (run (m, d)) with (adapter_run (m, d)). unfold adapter_run. cbn [fst snd] in *.
  change (ports d) with (d : Z -> pview) in *. rewrite (next_port_only d i Hi Hb Ho). unfold execute. destruct (known m (d i)); [destruct (effect m (d i))|]; cbn [snd]; change (ports (update d i ?p)) with (update d i p); unfold update; rewrite Z.eqb_refl; cbn [finish log]; rewrite length_app; cbn; lia.
Qed.

(** A machine whose port 2 is ready. *)
Definition demo_disk : list Z := replicate 512 7 ++ replicate 512 9.
Definition ready_port : pview := mk_pv 0x1000 0x2000 1 0 0 0x50 0x101 0x113 demo_disk [].
Definition no_device : pview := mk_pv 0 0 0 0 0 0x7f 0xffffffff 0 [] [].
Definition ready_mem : mem := store (store (fun _ => 0) 0x1008 (le_bytes 8 0x3000)) 0x5000 (replicate 1024 5).
Definition ready_st : st adapter bridge :=
  mk_st (aset (replicate 32 no_port) 2 (mk_port true 0x1000 0x2000 0x3000)) 2 Vmm.empty_machine demo_bridge (ready_mem, fun i => if i =? 2 then ready_port else no_device).

Lemma ready_st_ok : ready ready_st 2 /\ calm ready_st.
Proof.
  split; [split; done || (left; by vm_compute)|]. intros j Hj (H1 & H2 & _). unfold port_of in *. cbn in *. by destruct (j =? 2).
Qed.

Lemma ahci_write_read_witness : let base := 0xffff800000000000 in
  exists b1 s1, ahci_write_sectors 2 0 2 (base + 0x5000) ready_st = Ok (b1, s1) /\
    (b1 = true -> exists b2 s2, ahci_read_sectors 2 0 2 (base + 0x6000) s1 = Ok (b2, s2) /\ (b2 = true -> load (world s2).1 0x6000 1024 = load ready_mem 0x5000 1024)).
Proof.
  intros base. destruct ready_st_ok as [R C].
  destruct (ahci_write_read 2 ready_st 0 2 (base + 0x5000) (base + 0x6000)) as (b1 & s1 & E1 & _ & H1); [lia|exact adapter_prompt|exact R|exact C|lia|lia|by vm_compute|..].
  - intros x Hx. unfold in_pages. change (u64 (base + 0x5000 - Vmm.vdirect_map (vm ready_st))) with 0x5000 in Hx. change (state_of ready_st 2) with (mk_port true 0x1000 0x2000 0x3000). cbn [cmd_list fis_buf cmd_table]. lia.
  - intros x Hx. unfold in_pages. change (u64 (base + 0x6000 - Vmm.vdirect_map (vm ready_st))) with 0x6000 in Hx. change (state_of ready_st 2) with (mk_port true 0x1000 0x2000 0x3000). cbn [cmd_list fis_buf cmd_table]. lia.
  - exists b1, s1. split; [exact E1|]. intros Hb. destruct (H1 Hb) as (b2 & s2 & E2 & _ & H2). exists b2, s2. split; [exact E2|]. intros Hb2. apply (H2 Hb2).
Defined.

(** A machine before [ahci_init], with an adapter at 0:5.0 and three free pages. *)
Definition ahci_bridge : bridge := mk_bridge 0 (fun b d f r =>
  match b, d, f, r with 0, 5, 0, 0 => 0x29228086 | 0, 5, 0, 1 => 0 | 0, 5, 0, 2 => 0x01060100 | 0, 5, 0, 3 => 0 | 0, 5, 0, 9 => 0xfebd5000 | _, _, _, _ => 0xffffffff end).
Definition boot_port : pview := mk_pv 0 0 0 0 0 0x50 0x101 0x113 demo_disk [].
Definition boot_st : st adapter bridge :=
  mk_st (replicate 32 no_port) (-1) Vmm.empty_machine ahci_bridge ((fun _ => 0), fun i => if i =? 2 then boot_port else no_device).

Lemma boot_machine : machine boot_st (0, 5, 0).
Proof.
  split; [vm_compute; reflexivity|reflexivity|by vm_compute| |reflexivity|reflexivity|..].
  - apply Vmm.three_free_facts.
  - intros j Hj (H1 & H2 & _). unfold port_of in *. cbn in *. by destruct (j =? 2).
  - intros j Hj. unfold port_of, usable. cbn. by destruct (j =? 2).
Qed.

Lemma ahci_init_correct_witness : exists b s', ahci_init boot_st = Ok (b, s') /\ forall j, disk_at s' j -> ready s' j /\ usable (port_of boot_st j) = true.
Proof.
  destruct (ahci_init_correct boot_st (0, 5, 0) boot_machine) as (b & s' & E & _ & Hd & _). exists b, s'. split; [exact E|]. intros j Hj. destruct (Hd j Hj) as (R & _ & U). split; [exact R|exact U].
Defined.

End Ahci.
